(* ===== verification/_CoqProject ===== *)
-Q . S2P
Prelude.v
Wire.v
NetTypes.v
NetWire.v
Compatibility.v
TopicProtocol.v
DiscoveryProtocol.v
TopicChannel.v
TopicChannelSafety.v
TopicChannelProgress.v
ParameterStore.v
ParameterSafety.v
CommandFreshness.v
StorageLayout.v
StorageOwnership.v
StorageSafety.v
TimerWorker.v
ActionServer.v
ActionSafety.v
ActionClient.v
ServiceRpc.v
ServiceSafety.v
ProcessRuntime.v
RuntimeSafety.v
SystemScope.v
PeerDiscovery.v
PeerDiscoveryTable.v
PeerDiscoverySafety.v
ChildProcess.v
ProcessSafety.v
BringupState.v
Bringup.v
BringupLogic.v
BringupSafety.v
BringupStates.v
BringupClaims.v
BringupProgress.v
TypeDescriptor.v
ParameterCodec.v
ProxyRecord.v
TopicProxy.v
TopicProxySafety.v
ProxyPublish.v
LocalMetadata.v
Registries.v
NetworkDiagnostics.v
ControlFrame.v
WireFormats.v
ControlStream.v
RemoteControl.v
RemoteAction.v
RemoteActionSafety.v
DiagnosticsClient.v
TopicPlane.v
TopicPlaneRoutes.v
TopicPlaneSafety.v
ControlNode.v
ControlNodeCore.v
ControlNodeRequests.v
ControlNodeAdmission.v
ControlBackend.v
ControlBackendSafety.v
GatewayNetwork.v
GatewayOptions.v
GatewayStart.v
