(* ===== verification/Prelude.v ===== *)
(** * KCF: a verification library of the KSS Control Framework

    KCF runs the processes of a robot application: it starts and supervises them, connects
    them on one host by shared memory and loopback datagrams, and connects hosts through
    gateways on a LAN.  The sources are under [src/kcf] (the framework), [src/bringup] (the
    supervisor executable) and [src/gateway].  This library translates their logic into
    executable definitions and proves what each part promises to the others.

    ** Parts of the program, and where they are

    Local communication.
    - [TopicChannel] ([kcf/ipc/shared_channel.hpp]): one publisher and any number of readers
      over a ring of slots in shared memory, at the granularity of one atomic operation or one
      byte of [memcpy].  [TopicChannelSafety]: no torn or stale read, no data race, order.
      [TopicChannelProgress]: refinement of an append-only log; calls finish.
    - [StorageOwnership] ([ipc/detail/recovery.hpp], [Create], [Open], [Close] and [Unlink] of
      the storage classes): who makes, opens, reclaims and removes segments.  [StorageSafety]:
      a segment stays with its owner, an attached one is complete, a crash blocks no name.
    - [StorageLayout] ([ipc/detail/storage_layout.hpp]): offsets of the segment in 64-bit
      arithmetic.  [CommandFreshness] ([ipc/command_freshness.hpp]): the freshness monitor.
    - [ParameterStore], [ParameterSafety] ([parameter/shared_parameter.hpp],
      [ipc/detail/storage_access.hpp]): a register under a robust mutex whose users may die
      between any two stores; it refines an atomic versioned register and recovers.
    - [ServiceRpc], [ServiceSafety] ([service_server.cpp], [service_client.cpp]): RPC over
      datagrams that are lost, duplicated and reordered; at-most-once execution.
    - [ActionServer], [ActionSafety] ([action/action_server.hpp]): goals, cancellation,
      feedback and results; uses a service server and a Topic publisher.

    Processes.
    - [ProcessRuntime], [RuntimeSafety] ([process_runtime.cpp]): the main thread of an element
      and its supervision worker.
    - [ChildProcess], [ProcessSafety] ([process.cpp]): fork, exec, signals, reaping.
    - [BringupState], [Bringup] ([bringup/src/bringup.cpp]): the supervisor, in a state monad
      over [ChildProcess]; [BringupLogic] (reasoning about the monad), [BringupSafety],
      [BringupStates], [BringupClaims], [BringupProgress]: its theorems.  [SystemScope]
      ([system/system_status_scope.hpp]): the name its status is published under.

    Between hosts.
    - [Wire]: big-endian writers and readers; [NetTypes], [NetWire], [Compatibility]: identities,
      metadata, validation, version and capability negotiation ([network/types.hpp],
      [validation.hpp], [compatibility.hpp]).
    - [TopicProtocol], [DiscoveryProtocol], [ControlFrame], [NetworkDiagnostics],
      [TypeDescriptor], [ParameterCodec]: the wire formats, each with encoder, decoder and
      validity check.
    - [PeerDiscovery], [PeerDiscoveryTable], [PeerDiscoverySafety] ([peer_discovery.cpp]): the
      table of peers and the transfer of their metadata.
    - [ControlStream] ([control_client_io.hpp]): frames over a byte stream.
      [RemoteControl], [RemoteAction], [RemoteActionSafety] ([remote_control_client.cpp]) and
      [DiagnosticsClient] ([network_diagnostics_client.cpp]): the clients built on it.
    - [TopicPlane] ([topic_data_plane.cpp]): the worker that forwards Topics between hosts, with
      the subscriptions of a receive-only client.  [TopicPlaneRoutes]: the abstract machine of
      its routes and the refinement; [TopicPlaneSafety]: its invariants and claims.
    - [ProxyRecord], [TopicProxy] ([topic_proxy.cpp]): the local writer behind a forwarded Topic,
      its segment and its ownership record, with every system call that may fail or at which
      the process may die; [TopicProxySafety]: what the processes of a host may do to each
      other's proxies; [ProxyPublish]: what a proxy writes.
    - [ControlNode] ([control_node.cpp]): the server of the control connection and the requests
      of its own host, the [IO] thread with its connections, queues and replay records.
      [ControlNodeCore]: the abstract machine of its requests and the simulation;
      [ControlNodeRequests], [ControlNodeAdmission]: what every run of it satisfies.
      [ControlBackend]: the threads that execute accepted requests on local endpoints;
      [ControlBackendSafety]: what they access, and that they are a run of [ControlNode].
    - [LocalMetadata] ([local_metadata.cpp]): which local endpoints a host announces, and with
      which scope; used by the data plane and by [ControlBackend].
    - [ActionClient] ([action/action_client.hpp]): the client of [ActionServer], proved against
      an interface of the three action services that the server implements.
      [TimerWorker] ([timer.cpp]): the periodic timer and its worker.
    - [WireFormats]: the interface of a wire format and its seven instances.
    - [Registries] ([type_registry.cpp], [endpoint_registry.cpp], [introspection_client.cpp]):
      the tables in which a process publishes its types and endpoints, and who reads them.
    - [GatewayOptions] ([gateway_support.hpp]): the command line.  [GatewayNetwork]
      ([network_lifecycle.hpp], [network_interface.cpp]): the selection of the interface and
      the generations of the network.  [GatewayStart]: the start of [ControlNode] and
      [TopicPlane] with every failure, and how the three fit together.
    ** How code becomes definitions

    A class is a record of its members and one definition per method; a function that returns
    a negative errno returns [result]; an enumeration that a decoder fills from the wire keeps
    its integer.  Machine integers are [Z] with wrap-around written out ([u32], [u64]) where
    the code can reach it, strings and buffers are lists of bytes, vectors are lists and maps
    are [gmap].  What the kernel, the clock or a callback answers is an argument (an
    oracle indexed by the call, or a field of an event), so a theorem holds for every
    behaviour of the environment.  Threads that share state under a mutex interleave at its
    critical sections; lock-free code interleaves at single atomic operations.  Fields that
    log what went out ([cn_sent], [im_wire], [pl_wire] and the like) are never read by
    the definitions.

    ** What the theorems show

    - Shared memory: every value a reader gets was published as a whole, in order, without a
      data race; operations finish in a bounded number of the caller's own steps; a Parameter
      is an atomic register that survives the death of any user at any point; segments are
      never taken from a living owner and always recovered from a dead one.
    - Services and Actions: a request is executed at most once however often it is sent; a
      call returns the response to its own request; goals follow the legal lifecycle.
    - Processes: each child is reaped once and never signalled after; the supervisor accounts
      for all children, follows its state machine and ends its waits.
    - Codecs: decoding an encoding gives the value back, and whatever a decoder accepts is the
      canonical encoding of a valid value, for every message kind.
    - Discovery: the metadata a node shows for a peer is what that peer published; the first
      live incarnation of a host keeps its place; the table stays bounded.
    - Remote clients: a request goes out at most once, success means that the selected
      gateway answered this request, an unknown outcome is never reported as known, handles
      end at their deadlines.
    - Topics between hosts: what a proxy publishes was read at the source, in the order of the
      source and each sample once; routes, archives and notices stay bounded; no route sends
      more than one sample per period.
    - Topic proxies: a living process keeps the names of its proxies; no call removes the object
      of another process that lives; after a crash in or before a cleanup the next process
      takes the Topic over.
    - Control node: every submitted batch is answered exactly once and at its deadline; requests
      of a host reach the other node in the order of their numbers; a request becomes a job
      only for a known and granted peer, is accepted once and leads to at most one access to a
      local endpoint, which was authorized when it was made; a goal has one task; queues and
      tables stay bounded.
    - Local metadata: the exposure policy is the one on path segments; announced endpoints are
      valid, typed by their descriptors and have distinct identities.
    - Action client and timer: what a client reports of its goal is what the server recorded
      for that goal; callbacks run on the grid of the period, late periods are skipped.
    - Registries: a listing shows the endpoints that are registered, in the order of the table,
      and the runtimes whose segment names are canonical.
    - Gateway: the command line is the fold of its options with every check; a configuration
      that it accepts starts the network unless the kernel refuses a step or a name has control
      characters; a failed start leaves no socket, worker or registration; at most one
      generation of the network is active.
    Each theorem that depends on hypotheses has a [_witness] that applies it to a concrete run.

    ** Bounds and fuel

    Recursion is structural over the list being processed wherever the code loops over one.
    The loops of [ControlStream] ([Wait], [Transfer], [Read]) take a number of iterations;
    [control_io_deadline] shows that enough of them always give a result once the clock passes
    the deadline, and [control_stream_exact] needs more than [MAX_CONTROL_FRAME], one per byte.
    The waiting loops of [Bringup] take fuel; [bringup_waits_bounded] gives the number of
    cycles that suffices.  Reads and publications of a Topic are bounded by the number of
    slots and tries in the code ([topic_read_completes], [topic_publish_completes]).  Decimal
    conversion uses 20 digits, enough for 64 bits.

    ** Not modelled

    - Kernel facing code: enumeration of the network interfaces, the files of the host
      identity, the lock and the status socket of the gateway, the main function of bringup.
    - The typed template wrappers and the dynamic clients; what the dynamic clients and the
      storage headers answer to the control node are arguments.
    - The registries of services, actions and supervisors, which publish their tables the way
      the endpoint registry does.
    - The client object around the subscriptions of a receive-only [TopicPlane].
    - Allocation failure ([std::bad_alloc]), console and trace output, and floating point.

    [Prelude], this file, has the shared vocabulary: [result] and its notations, errno values,
    machine widths, the boolean and list tactics ([bool_to_prop], [case_check]), reachability
    and generic lemmas on lists. *)
From Stdlib Require Export ZArith Lia Bool.
From stdpp Require Export base list numbers decidable option relations.

#[global] Open Scope Z_scope.

(** ** Results: a C++ function returns [0] and writes its output, or returns
    a negative errno and leaves its output unchanged. *)
Inductive result (A : Type) : Type :=
| Ok (a : A)
| Err (code : Z).
Arguments Ok {A} a.
Arguments Err {A} code.

Definition bind_result {A B} (m : result A) (f : A -> result B) : result B :=
  match m with Ok a => f a | Err c => Err c end.

Declare Scope kcf_scope.
Delimit Scope kcf_scope with kcf.
#[global] Open Scope kcf_scope.
Notation "'let?' x := m 'in' k" := (bind_result m (fun x => k))
  (at level 10, x pattern, m at level 100, k at level 200) : kcf_scope.

(** [check b code k]: the C++ idiom [if(!b) return code; k]. *)
Definition check {A} (b : bool) (code : Z) (k : result A) : result A :=
  if b then k else Err code.
Notation "'ensure' b 'else' c 'in' k" := (check b c k)
  (at level 10, b at level 100, c at level 100, k at level 200) : kcf_scope.

(** ** errno values of Linux, negated the way the sources return them. *)
Module Errno.
Definition EPERM := 1.
Definition ENOENT := 2.
Definition ESRCH := 3.
Definition EINTR := 4.
Definition EIO := 5.
Definition E2BIG := 7.
Definition EBADF := 9.
Definition ECHILD := 10.
Definition EAGAIN := 11.
Definition ENOMEM := 12.
Definition EACCES := 13.
Definition EFAULT := 14.
Definition EBUSY := 16.
Definition EEXIST := 17.
Definition ENODEV := 19.
Definition ENOTDIR := 20.
Definition EINVAL := 22.
Definition ENOSPC := 28.
Definition EDEADLK := 35.
Definition ENAMETOOLONG := 36.
Definition ELOOP := 40.
Definition ENODATA := 61.
Definition EPROTO := 71.
Definition EOVERFLOW := 75.
Definition ENOTUNIQ := 76.
Definition ENOTSOCK := 88.
Definition EMSGSIZE := 90.
Definition EPROTOTYPE := 91.
Definition EPROTONOSUPPORT := 93.
Definition ENOTSUP := 95.
Definition EADDRINUSE := 98.
Definition EADDRNOTAVAIL := 99.
Definition ENETDOWN := 100.
Definition ENETUNREACH := 101.
Definition ECONNRESET := 104.
Definition ENOTCONN := 107.
Definition ESHUTDOWN := 108.
Definition ETIMEDOUT := 110.
Definition EHOSTUNREACH := 113.
Definition EALREADY := 114.
Definition EINPROGRESS := 115.
Definition ESTALE := 116.
Definition ECANCELED := 125.
Definition EOWNERDEAD := 130.
Definition ENOTRECOVERABLE := 131.
End Errno.
Export Errno.

(** ** Fixed-width unsigned integers *)
Definition UINT8_MAX : Z := 255.
Definition UINT16_MAX : Z := 65535.
Definition UINT32_MAX : Z := 4294967295.
Definition INT32_MAX : Z := 2147483647.
Definition UINT64_MAX : Z := 18446744073709551615.

Definition u8 (z : Z) : Z := z mod 2 ^ 8.
Definition u16 (z : Z) : Z := z mod 2 ^ 16.
Definition u32 (z : Z) : Z := z mod 2 ^ 32.
Definition u64 (z : Z) : Z := z mod 2 ^ 64.

Definition is_u8 (z : Z) : Prop := 0 <= z <= UINT8_MAX.
Definition is_u16 (z : Z) : Prop := 0 <= z <= UINT16_MAX.
Definition is_u32 (z : Z) : Prop := 0 <= z <= UINT32_MAX.
Definition is_i32 (z : Z) : Prop := - INT32_MAX - 1 <= z <= INT32_MAX.
Definition is_u64 (z : Z) : Prop := 0 <= z <= UINT64_MAX.

(** Byte buffers ([std::vector<std::uint8_t>], [std::string]) are lists of
    integers below 256; [bytes] is their typing invariant. *)
Definition bytes (l : list Z) : Prop := Forall is_u8 l.

(** C++ [std::size_t size()] of a buffer. *)
Definition vsize (l : list Z) : Z := Z.of_nat (length l).

(** ** Tactics *)
Create HintDb kcf.
Create Rewrite HintDb kcf.

Ltac unfold_widths :=
  unfold is_u8, is_u16, is_u32, is_i32, is_u64, u8, u16, u32, u64,
    UINT8_MAX, UINT16_MAX, UINT32_MAX, INT32_MAX, UINT64_MAX in *.

(** Turn boolean tests of the code into the propositions they decide. *)
Ltac bool_to_prop :=
  repeat match goal with
  | H : andb _ _ = true |- _ => apply andb_true_iff in H as [? ?]
  | H : orb _ _ = false |- _ => apply orb_false_iff in H as [? ?]
  | H : negb _ = true |- _ => apply negb_true_iff in H
  | H : negb _ = false |- _ => apply negb_false_iff in H
  | H : (_ =? _) = true |- _ => apply Z.eqb_eq in H
  | H : (_ =? _) = false |- _ => apply Z.eqb_neq in H
  | H : (_ <? _) = true |- _ => apply Z.ltb_lt in H
  | H : (_ <? _) = false |- _ => apply Z.ltb_ge in H
  | H : (_ <=? _) = true |- _ => apply Z.leb_le in H
  | H : (_ <=? _) = false |- _ => apply Z.leb_gt in H
  | H : bool_decide _ = true |- _ => apply bool_decide_eq_true in H
  | H : bool_decide _ = false |- _ => apply bool_decide_eq_false in H
  end.

(** Case analysis on the guard an [if], [check] or [match] is stuck on. *)
Ltac case_check :=
  match goal with
  | |- context [check ?b _ _] => destruct b eqn:?; simpl check
  | H : context [check ?b _ _] |- _ => destruct b eqn:?; simpl check in H
  | |- context [if ?b then _ else _] => destruct b eqn:?
  | H : context [if ?b then _ else _] |- _ => destruct b eqn:?
  end.

(** ** Reachability: rule induction over the reflexive-transitive closure of
    a step relation, packaged as an invariant principle. *)
Lemma rtc_invariant {St} (step : relation St) (I : St -> Prop) s s' :
  (forall a b, I a -> step a b -> I b) -> I s -> rtc step s s' -> I s'.
Proof. intros Hpres H0 Hs. induction Hs; eauto. Qed.

(** ** Machines: a component with interleaving threads is an executable step
    function [exec event state]; its schedules and its reachable states. *)
Section Machine.
Context {Event State : Type} (exec : Event -> State -> option State).

Definition machine_step (s s' : State) : Prop := exists e, exec e s = Some s'.

(** A schedule, run to its end ([None] when an event is not enabled). *)
Fixpoint machine_run (es : list Event) (s : State) : option State :=
  match es with
  | [] => Some s
  | e :: rest => match exec e s with Some s' => machine_run rest s' | None => None end
  end.

Lemma machine_run_cons e es s s1 s2 :
  exec e s = Some s1 -> machine_run es s1 = Some s2 -> machine_run (e :: es) s = Some s2.
Proof. intros He Hr. cbn [machine_run]. by rewrite He. Qed.

Lemma machine_run_rtc es s s' : machine_run es s = Some s' -> rtc machine_step s s'.
Proof.
  revert s. induction es as [|e es IH]; intros s Hr; simplify_eq/=; [done|].
  destruct (exec e s) as [s1|] eqn:He; [|done]. eapply rtc_l; [by exists e|by apply IH].
Qed.

Lemma machine_invariant (P : State -> Prop) s s' :
  (forall e s1 s2, P s1 -> exec e s1 = Some s2 -> P s2) -> P s -> rtc machine_step s s' -> P s'.
Proof. intros Hstep Hs Hr. induction Hr as [|s1 s2 s3 [e He] _ IH]; eauto. Qed.
End Machine.

(** ** Lists *)
Lemma vsize_nonneg l : 0 <= vsize l.
Proof. unfold vsize. lia. Qed.

Lemma vsize_app l k : vsize (l ++ k) = vsize l + vsize k.
Proof. unfold vsize. rewrite length_app. lia. Qed.

Lemma vsize_nil : vsize [] = 0.
Proof. reflexivity. Qed.

Lemma bytes_app l k : bytes (l ++ k) <-> bytes l /\ bytes k.
Proof. apply Forall_app. Qed.

Lemma bytes_cons x l : bytes (x :: l) <-> is_u8 x /\ bytes l.
Proof. apply List.Forall_cons_iff. Qed.

Lemma bytes_take n l : bytes l -> bytes (take n l).
Proof. apply Forall_take. Qed.

Lemma bytes_drop n l : bytes l -> bytes (drop n l).
Proof. apply Forall_drop. Qed.

Lemma NoDup_snoc {A} (l : list A) x : NoDup l -> x ∉ l -> NoDup (l ++ [x]).
Proof.
  intros Hl Hx. apply NoDup_app. split_and!; auto using NoDup_singleton.
  intros y Hy ->%list_elem_of_singleton. done.
Qed.

#[export] Hint Rewrite vsize_app vsize_nil : kcf.
#[export] Hint Resolve vsize_nonneg bytes_take bytes_drop : kcf.
