(* ===== verification/Wire.v ===== *)
(** * Big-endian wire primitives

    The [Writer] and [Reader] helper classes of
    [kcf/src/network/topic_protocol.cpp], [control_frame.cpp] and
    [discovery_protocol.cpp].  A writer appends to a byte vector; a reader is
    the pair of the unread bytes ([p], [left]) and the sticky flag [ok] that a
    short read clears.  Decoders are functions on readers that may also return
    a negative errno early; [reads] and the [_inv] lemmas are the two halves of
    every round trip proved from them. *)
From S2P Require Import Prelude.

(** ** Writer *)

(** [Writer::U(value, width)]: [width] bytes, most significant first. *)
Fixpoint wU (v : Z) (n : nat) : list Z :=
  match n with
  | O => []
  | S m => u8 (Z.shiftr v (8 * Z.of_nat m)) :: wU v m
  end.

(** ** Reader *)
Record reader := Reader { left : list Z; ok : bool }.

Definition bad (r : reader) : reader := Reader (left r) false.

(** [(v << 8) | *p] on a [std::uint64_t] accumulator. *)
Definition accumulate (v b : Z) : Z := Z.lor (u64 (Z.shiftl v 8)) b.

(** [Reader::U(width)]: a short buffer clears [ok], consumes nothing and
    yields 0. *)
Definition rU (n : nat) (r : reader) : Z * reader :=
  if (length (left r) <? n)%nat then (0, bad r)
  else (fold_left accumulate (take n (left r)) 0, Reader (drop n (left r)) (ok r)).

(** ** Decoders: readers with early return *)
Definition dec (A : Type) := reader -> result (A * reader).

Definition dret {A} (a : A) : dec A := fun r => Ok (a, r).
Definition dbind {A B} (d : dec A) (k : A -> dec B) : dec B :=
  fun r => match d r with Ok (a, r') => k a r' | Err c => Err c end.
Definition dU (n : nat) : dec Z := fun r => Ok (rU n r).
(** [if(!b) return code;] *)
Definition dguard (b : bool) (code : Z) : dec unit :=
  fun r => if b then Ok (tt, r) else Err code.
(** [if(!b) ok=false;] *)
Definition dmark (b : bool) : dec unit := fun r => Ok (tt, if b then r else bad r).

Notation "'let$' x := m 'in' k" := (dbind m (fun x => k))
  (at level 10, x pattern, m at level 100, k at level 200) : kcf_scope.
Notation "'guard$' b 'else' c 'in' k" := (dbind (dguard b c) (fun _ => k))
  (at level 10, b at level 100, c at level 100, k at level 200) : kcf_scope.

(** [for(auto& b:id.bytes) b=U(1);] over an array of [n] bytes. *)
Fixpoint dBytes (n : nat) : dec (list Z) :=
  match n with
  | O => dret []
  | S m => let$ b := dU 1 in let$ rest := dBytes m in dret (u8 b :: rest)
  end.

(** Two's-complement conversions between [std::int32_t] and its bits. *)
Definition i32 (z : Z) : Z :=
  let w := u32 z in if w <=? INT32_MAX then w else w - 2 ^ 32.

(** [std::string String(maximum)] of the discovery reader: a 16-bit length and
    that many bytes. *)
Definition dString (maximum : Z) : dec (list Z) := fun r =>
  let '(len, r1) := rU 2 r in
  if negb (ok r1) || (maximum <? len) || (vsize (left r1) <? len)
  then Ok ([], bad r1)
  else Ok (take (Z.to_nat len) (left r1), Reader (drop (Z.to_nat len) (left r1)) (ok r1)).

(** [void String(const std::string&)] of the discovery writer. *)
Definition wString (s : list Z) : list Z := wU (vsize s) 2 ++ s.

(** ** Values *)
Lemma wU_length v n : length (wU v n) = n.
Proof. induction n; simpl; congruence. Qed.

Lemma wU_vsize v n : vsize (wU v n) = Z.of_nat n.
Proof. unfold vsize. by rewrite wU_length. Qed.

Lemma wU_bytes v n : bytes (wU v n).
Proof.
  induction n; simpl; constructor; auto.
  pose proof (Z.mod_pos_bound (Z.shiftr v (8 * Z.of_nat n)) (2 ^ 8)). unfold_widths. lia.
Qed.

#[export] Hint Rewrite wU_length wU_vsize : kcf.
#[export] Hint Resolve wU_bytes : kcf.

(** The value a list of bytes stands for, in unbounded arithmetic. *)
Fixpoint be_value (l : list Z) : Z :=
  match l with
  | [] => 0
  | b :: k => b * 256 ^ vsize k + be_value k
  end.

Lemma pow256_cons b l : 256 ^ vsize (b :: l) = 256 * 256 ^ vsize l.
Proof.
  unfold vsize. simpl length. rewrite Nat2Z.inj_succ, Z.pow_succ_r by lia. lia.
Qed.

Lemma pow256_pos l : 1 <= 256 ^ vsize l.
Proof. pose proof (Z.pow_pos_nonneg 256 (vsize l)). pose proof (vsize_nonneg l). lia. Qed.

Lemma be_value_bound l : bytes l -> 0 <= be_value l < 256 ^ vsize l.
Proof.
  induction 1 as [|b l Hb Hl IH]; [done|].
  rewrite pow256_cons. simpl. unfold_widths. nia.
Qed.

Lemma accumulate_value v b : is_u8 b -> 0 <= v -> v * 256 < 2 ^ 64 -> accumulate v b = v * 256 + b.
Proof.
  intros Hb Hv Hlt. unfold accumulate, u64. rewrite Z.shiftl_mul_pow2 by lia.
  change (2 ^ 8) with 256. rewrite Z.mod_small by lia.
  rewrite <- Z.lxor_lor, <- Z.add_nocarry_lxor; auto; replace (v * 256) with (Z.shiftl v 8)
    by (rewrite Z.shiftl_mul_pow2 by lia; lia).
  all: apply Z.bits_inj'; intros i Hi; rewrite Z.land_spec, Z.bits_0;
    destruct (Z.ltb_spec i 8); [by rewrite Z.shiftl_spec_low by lia|].
  all: rewrite (Z.bits_above_log2 b i), andb_false_r; auto; unfold_widths; [lia|].
  all: destruct (Z.eq_dec b 0); [subst; simpl; lia|];
    apply Z.log2_lt_pow2; [lia|]; assert (2 ^ 8 <= 2 ^ i) by (apply Z.pow_le_mono_r; lia); lia.
Qed.

Lemma accumulate_fold_value l a :
  bytes l -> 0 <= a -> a * 256 ^ vsize l + be_value l < 2 ^ 64 ->
  fold_left accumulate l a = a * 256 ^ vsize l + be_value l.
Proof.
  intros Hl. revert a. induction Hl as [|b l Hb Hl IH]; intros a Ha Hlt.
  { simpl in *. rewrite vsize_nil. lia. }
  rewrite pow256_cons in *. cbn [fold_left be_value] in *.
  pose proof (be_value_bound l Hl). pose proof (pow256_pos l).
  assert (a * 256 + b < 2 ^ 64) by (unfold_widths; nia).
  rewrite accumulate_value by (unfold_widths; nia).
  rewrite IH by (unfold_widths; nia). nia.
Qed.

Lemma be_value_wU v n : be_value (wU v n) = v mod 256 ^ Z.of_nat n.
Proof.
  induction n as [|n IH]; [simpl; by rewrite Z.mod_1_r|].
  cbn [wU be_value]. rewrite IH, wU_vsize.
  rewrite Nat2Z.inj_succ, Z.pow_succ_r by lia.
  unfold u8. rewrite Z.shiftr_div_pow2 by lia.
  replace (2 ^ (8 * Z.of_nat n)) with (256 ^ Z.of_nat n) by (rewrite Z.pow_mul_r by lia; reflexivity).
  change (2 ^ 8) with 256. rewrite (Z.mul_comm 256).
  rewrite Z.rem_mul_r by (try apply Z.pow_nonzero; lia). lia.
Qed.

Lemma be_value_inj l k : bytes l -> bytes k -> length l = length k -> be_value l = be_value k -> l = k.
Proof.
  intros Hl. revert k. induction Hl as [|b l Hb Hl IH]; intros [|c k] Hk Hlen Hv; try done.
  apply bytes_cons in Hk as [Hc Hk]. simpl in Hv, Hlen. injection Hlen as Hlen.
  assert (Hs : vsize l = vsize k) by (unfold vsize; congruence). rewrite Hs in Hv.
  pose proof (be_value_bound l Hl). pose proof (be_value_bound k Hk). rewrite Hs in *.
  pose proof (pow256_pos k). assert (b = c) by nia. subst. f_equal. apply IH; auto. lia.
Qed.

(** ** The two halves of a round trip *)

(** [reads d bs a]: on an input that starts with [bs], [d] consumes exactly
    [bs] and yields [a], whatever follows. *)
Definition reads {A} (d : dec A) (bs : list Z) (a : A) : Prop :=
  forall rest, d (Reader (bs ++ rest) true) = Ok (a, Reader rest true).

(** [consumes d Q]: whenever [d] succeeds without clearing [ok], it consumed
    some prefix [pre] of its input, no earlier read had failed, and [Q] relates
    [pre] to the value returned. *)
Definition consumes {A} (d : dec A) (Q : list Z -> A -> Prop) : Prop :=
  forall r a r', d r = Ok (a, r') -> bytes (left r) ->
  bytes (left r') /\
  (ok r' = true -> ok r = true /\ exists pre, left r = pre ++ left r' /\ Q pre a).

Create HintDb wire.

Lemma reads_ret {A} (a : A) : reads (dret a) [] a.
Proof. done. Qed.

Lemma reads_bind {A B} (d : dec A) (k : A -> dec B) bs1 bs2 a b :
  reads d bs1 a -> reads (k a) bs2 b -> reads (dbind d k) (bs1 ++ bs2) b.
Proof. intros H1 H2 rest. unfold dbind. rewrite <- app_assoc, H1. apply H2. Qed.

Lemma reads_last {A B} (d : dec A) (k : A -> dec B) bs a b :
  reads d bs a -> reads (k a) [] b -> reads (dbind d k) bs b.
Proof. intros H1 H2. rewrite <- (app_nil_r bs). by eapply reads_bind. Qed.

(** The last field of a decoder may take everything that is left. *)
Definition reads_all {A} (d : dec A) (bs : list Z) (a : A) : Prop :=
  d (Reader bs true) = Ok (a, Reader [] true).

Lemma reads_reads_all {A} (d : dec A) bs a : reads d bs a -> reads_all d bs a.
Proof. intros H. specialize (H []). by rewrite app_nil_r in H. Qed.

Lemma reads_all_bind {A B} (d : dec A) (k : A -> dec B) bs1 bs2 a b :
  reads d bs1 a -> reads_all (k a) bs2 b -> reads_all (dbind d k) (bs1 ++ bs2) b.
Proof. intros H1 H2. unfold reads_all, dbind. by rewrite H1. Qed.

Lemma reads_guard {B} (b : bool) c (k : unit -> dec B) bs x :
  b = true -> reads (k tt) bs x -> reads (dbind (dguard b c) k) bs x.
Proof. intros -> Hk rest. apply Hk. Qed.

Lemma reads_mark {B} (b : bool) (k : unit -> dec B) bs x :
  b = true -> reads (k tt) bs x -> reads (dbind (dmark b) k) bs x.
Proof. intros -> Hk rest. apply Hk. Qed.

Lemma reads_U n v : (n <= 8)%nat -> 0 <= v < 256 ^ Z.of_nat n -> reads (dU n) (wU v n) v.
Proof.
  intros Hn Hv rest. unfold dU, rU. cbn [left ok].
  destruct (Nat.ltb_spec (length (wU v n ++ rest)) n) as [H|_].
  { rewrite length_app, wU_length in H. lia. }
  rewrite take_app_length', drop_app_length' by (symmetry; apply wU_length).
  assert (256 ^ Z.of_nat n <= 2 ^ 64).
  { change (2 ^ 64) with (256 ^ 8). apply Z.pow_le_mono_r; lia. }
  assert (Hbe : be_value (wU v n) = v) by (rewrite be_value_wU; apply Z.mod_small; lia).
  rewrite accumulate_fold_value by (rewrite ?Hbe; auto using wU_bytes; lia).
  by rewrite Hbe, Z.mul_0_l.
Qed.

Lemma consumes_U n : (n <= 8)%nat ->
  consumes (dU n) (fun pre v => pre = wU v n /\ 0 <= v < 256 ^ Z.of_nat n).
Proof.
  intros Hn r a r' Hd Hb. unfold dU, rU in Hd.
  destruct (Nat.ltb_spec (length (left r)) n) as [H|H]; simplify_eq/=; [done|].
  split; [auto with kcf|]. intros Hok. split; [done|].
  assert (Hlen : length (take n (left r)) = n) by (rewrite length_take; lia).
  assert (Hbt : bytes (take n (left r))) by auto with kcf.
  pose proof (be_value_bound _ Hbt) as Hbound. unfold vsize in Hbound. rewrite Hlen in Hbound.
  assert (256 ^ Z.of_nat n <= 2 ^ 64).
  { change (2 ^ 64) with (256 ^ 8). apply Z.pow_le_mono_r; lia. }
  rewrite accumulate_fold_value by (auto; lia). rewrite Z.mul_0_l, Z.add_0_l.
  exists (take n (left r)). split_and!; try lia; [by rewrite take_drop|].
  apply be_value_inj; auto using wU_bytes; [by rewrite wU_length|].
  by rewrite be_value_wU, Z.mod_small by lia.
Qed.

Lemma consumes_ret {A} (x : A) : consumes (dret x) (fun pre a => pre = [] /\ a = x).
Proof. intros r a r' [=]; subst. intros. split; [done|]. intros. split; [done|]. by exists []. Qed.

Lemma consumes_bind {A B} (d : dec A) (k : A -> dec B) Q1 Q2 :
  consumes d Q1 -> (forall a, consumes (k a) (Q2 a)) ->
  consumes (dbind d k) (fun pre b => exists a p1 p2, pre = p1 ++ p2 /\ Q1 p1 a /\ Q2 a p2 b).
Proof.
  intros H1 H2 r b r' Hd Hb. unfold dbind in Hd. destruct (d r) as [[a r1]|] eqn:E; [|done].
  destruct (H1 _ _ _ E Hb) as [Hb1 K1]. destruct (H2 _ _ _ _ Hd Hb1) as [Hb2 K2].
  split; [done|]. intros Hok. destruct (K2 Hok) as (Hok1 & p2 & Hl2 & Hq2).
  destruct (K1 Hok1) as (Hok0 & p1 & Hl1 & Hq1). split; [done|].
  exists (p1 ++ p2). rewrite <- app_assoc, <- Hl2. eauto 10.
Qed.

Lemma consumes_guard {B} b c (k : unit -> dec B) Q :
  (b = true -> consumes (k tt) Q) ->
  consumes (dbind (dguard b c) k) (fun pre x => b = true /\ Q pre x).
Proof.
  intros Hk r x r' Hd Hb. unfold dbind, dguard in Hd. destruct b; [|done].
  destruct (Hk eq_refl _ _ _ Hd Hb) as [? K]. split; [done|]. intros Hok.
  destruct (K Hok) as (? & pre & ? & ?); eauto.
Qed.

Lemma consumes_mark {B} b (k : unit -> dec B) Q :
  consumes (k tt) Q -> consumes (dbind (dmark b) k) (fun pre x => b = true /\ Q pre x).
Proof.
  intros Hk r x r' Hd Hb. unfold dbind, dmark in Hd.
  destruct (Hk _ _ _ Hd) as [? K]; [by destruct b|]. split; [done|]. intros Hok.
  destruct (K Hok) as (? & pre & ? & ?). destruct b; eauto; done.
Qed.

Lemma consumes_weaken {A} (d : dec A) (Q Q' : list Z -> A -> Prop) :
  consumes d Q -> (forall pre a, bytes pre -> Q pre a -> Q' pre a) -> consumes d Q'.
Proof.
  intros H HQ r a r' Hd Hb. destruct (H _ _ _ Hd Hb) as [? K]. split; [done|]. intros Hok.
  destruct (K Hok) as (? & pre & Hl & ?). split; [done|]. exists pre. split; [done|].
  apply HQ; [|done]. rewrite Hl in Hb. by apply bytes_app in Hb as [? _].
Qed.

(** [if(g) return code;] where the guard looks at the reader. *)
Lemma reads_when {A} (g : reader -> bool) c (k : dec A) bs a :
  (forall r, ok r = true -> g r = false) -> reads k bs a -> reads (fun r => if g r then Err c else k r) bs a.
Proof. intros Hg Hk rest. rewrite Hg by done. apply Hk. Qed.

Lemma consumes_when {A} (g : reader -> bool) c (k : dec A) (P : Prop) Q :
  (forall r, g r = false -> P) -> (P -> consumes k Q) ->
  consumes (fun r => if g r then Err c else k r) (fun pre a => P /\ Q pre a).
Proof.
  intros Hg Hk r a r' Hd Hb. cbn beta in Hd. destruct (g r) eqn:E; [done|].
  pose proof (Hg r E) as HP. destruct (Hk HP _ _ _ Hd Hb) as [? K]. split; [done|]. intros Hok.
  destruct (K Hok) as (? & pre & ? & ?). eauto 10.
Qed.

(** Once [ok] is cleared it stays cleared. *)
Lemma consumes_sticky {A} (d : dec A) Q r a r' :
  consumes d Q -> bytes (left r) -> d r = Ok (a, r') -> ok r = false -> ok r' = false.
Proof. intros H Hb Hd Hok. destruct (H _ _ _ Hd Hb) as [_ K]. destruct (ok r'); [|done]. destruct (K eq_refl). congruence. Qed.

(** ** Byte arrays and strings *)
Definition wBytes (l : list Z) : list Z := flat_map (fun b => wU b 1) l.

Lemma wU_1 b : is_u8 b -> wU b 1 = [b].
Proof. intros Hb. simpl. unfold u8. rewrite Z.shiftr_0_r, Z.mod_small; [done|]. unfold_widths; lia. Qed.

Lemma wBytes_id l : bytes l -> wBytes l = l.
Proof.
  induction 1 as [|b l Hb Hl IH]; [done|].
  change (wBytes (b :: l)) with (wU b 1 ++ wBytes l). by rewrite wU_1, IH.
Qed.

Lemma wBytes_bytes l : bytes (wBytes l).
Proof. induction l as [|a l IH]; [constructor|]. change (bytes (wU a 1 ++ wBytes l)). apply bytes_app. split; [apply wU_bytes|done]. Qed.

Lemma reads_Bytes l : bytes l -> reads (dBytes (length l)) l l.
Proof.
  induction 1 as [|b l Hb Hl IH]; [apply reads_ret|]. cbn [length dBytes].
  change (b :: l) with ([b] ++ l) at 1. eapply reads_bind.
  - rewrite <- wU_1 by done. apply reads_U; [lia|]. unfold_widths. simpl. lia.
  - eapply reads_last; [exact IH|].
    unfold u8. rewrite Z.mod_small by (unfold_widths; lia). apply reads_ret.
Qed.

Lemma consumes_Bytes n : consumes (dBytes n) (fun pre l => pre = l /\ length l = n /\ bytes l).
Proof.
  induction n as [|n IH]; cbn [dBytes].
  { eapply consumes_weaken; [apply consumes_ret|]. intros pre a _ [-> ->]. by repeat constructor. }
  eapply consumes_weaken.
  { eapply consumes_bind; [apply consumes_U; lia|]. intros b.
    eapply consumes_bind; [apply IH|]. intros l. apply consumes_ret. }
  intros pre a _ (b & p1 & p2 & -> & [-> Hb] & l & q1 & q2 & -> & (-> & <- & Hl) & -> & ->).
  assert (is_u8 b) by (unfold_widths; lia). rewrite wU_1 by done. unfold u8.
  rewrite Z.mod_small by (unfold_widths; lia). rewrite app_nil_r. split_and!; auto. by constructor.
Qed.

Lemma reads_String s maximum :
  bytes s -> vsize s <= maximum -> vsize s <= UINT16_MAX -> reads (dString maximum) (wString s) s.
Proof.
  intros Hs Hmax H16 rest. unfold dString, wString. rewrite <- app_assoc.
  pose proof (vsize_nonneg s).
  assert (HU : rU 2 (Reader (wU (vsize s) 2 ++ s ++ rest) true) = (vsize s, Reader (s ++ rest) true)).
  { pose proof (reads_U 2 (vsize s) ltac:(lia) ltac:(unfold_widths; simpl; lia) (s ++ rest)) as E.
    unfold dU in E. congruence. }
  rewrite HU. cbn [ok left]. rewrite vsize_app. pose proof (vsize_nonneg rest).
  destruct (Z.ltb_spec maximum (vsize s)); [lia|].
  destruct (Z.ltb_spec (vsize s + vsize rest) (vsize s)); [lia|]. simpl.
  unfold vsize. by rewrite Nat2Z.id, take_app_length, drop_app_length.
Qed.

Lemma consumes_String maximum : maximum <= UINT16_MAX ->
  consumes (dString maximum) (fun pre s => pre = wString s /\ bytes s /\ vsize s <= maximum).
Proof.
  intros Hmax r s r' Hd Hb. unfold dString in Hd. destruct (rU 2 r) as [len r1] eqn:HU.
  destruct (consumes_U 2 ltac:(lia) r len r1 ltac:(unfold dU; congruence) Hb) as [Hb1 K].
  case_check; simplify_eq/=; [done|]. split; [auto with kcf|]. bool_to_prop. intros Hok.
  destruct (K Hok) as (? & pre & Hl & -> & ?). split; [done|].
  assert (Hlen : vsize (take (Z.to_nat len) (left r1)) = len).
  { unfold vsize in *. rewrite length_take. lia. }
  exists (wString (take (Z.to_nat len) (left r1))). unfold wString. rewrite Hlen.
  split_and!; auto with kcf; try lia. by rewrite <- app_assoc, take_drop.
Qed.

(** Destruct the existential chains the [consumes] lemmas produce. *)
Ltac consumed :=
  cbv beta in *;
  repeat match goal with
  | H : exists _, _ |- _ => destruct H
  | H : _ /\ _ |- _ => destruct H
  end; subst.

#[export] Hint Resolve reads_U reads_Bytes reads_String consumes_U consumes_Bytes : wire.

#[global] Arguments wU : simpl never.

(** ** C strings: a [char] array holds the characters before its first NUL. *)
Fixpoint c_str (s : list Z) : list Z :=
  match s with [] => [] | ch :: rest => if ch =? 0 then [] else ch :: c_str rest end.

Lemma c_str_id s : 0 ∉ s -> c_str s = s.
Proof.
  induction s as [|ch s IH]; intros H; cbn [c_str]; [done|]. apply not_elem_of_cons in H as [Hne H].
  destruct (Z.eqb_spec ch 0); [congruence|]. by rewrite IH.
Qed.

Lemma c_str_padded s n : 0 ∉ s -> c_str (s ++ repeat 0 n) = s.
Proof.
  intros H. induction s as [|ch s IH]; cbn [app c_str]; [by destruct n|]. apply not_elem_of_cons in H as [Hne H].
  destruct (Z.eqb_spec ch 0); [congruence|]. by rewrite IH.
Qed.

Lemma c_str_no_nul s : 0 ∉ c_str s.
Proof.
  induction s as [|ch s IH]; cbn [c_str]; [apply not_elem_of_nil|].
  destruct (Z.eqb_spec ch 0); [apply not_elem_of_nil|]. apply not_elem_of_cons. auto.
Qed.

Lemma c_str_bytes s : bytes s -> bytes (c_str s).
Proof. induction 1; cbn [c_str]; [constructor|]. case_check; constructor; auto. Qed.

(** An array with a NUL holds a string shorter than itself. *)
Lemma c_str_short s : 0 ∈ s -> (length (c_str s) < length s)%nat.
Proof.
  induction s as [|ch s IH]; intros H; [by apply not_elem_of_nil in H|]. cbn [c_str length].
  destruct (Z.eqb_spec ch 0); [cbn; lia|]. apply elem_of_cons in H as [<-|H]; [done|]. specialize (IH H). cbn. lia.
Qed.
