(* ===== verification/NetTypes.v ===== *)
(** * Network model types and their validation

    [kcf/include/kcf/network/types.hpp] and [validation.hpp].  Enumerations
    that a decoder fills by [static_cast] from the wire keep their underlying
    integer (any value of that width can occur), with the enumerators as named
    constants.  [operator==] of the C++ structs compares every field, so it is
    decidable equality here.  [wf_*] predicates state the C++ types (widths and
    array lengths), never the [Valid] checks of the code. *)
From S2P Require Import Prelude.

Definition PROTOCOL_VERSION := 1.
Definition MAX_CONTROL_PAYLOAD := 1024 * 1024.

(** ** Data *)

(** [struct HostIdentity { std::array<std::uint8_t, 16> bytes; }] *)
Definition HostIdentity := list Z.
Definition no_host_id : HostIdentity := repeat 0 16.
Definition wf_host (h : HostIdentity) : Prop := length h = 16%nat /\ bytes h.

Record RemoteRuntimeIdentity := {
  rt_host : HostIdentity;
  rt_boot_id : HostIdentity;
  rt_pid : Z;
  rt_process_start_ticks : Z
}.
Definition no_runtime : RemoteRuntimeIdentity :=
  {| rt_host := no_host_id; rt_boot_id := no_host_id; rt_pid := 0; rt_process_start_ticks := 0 |}.
Definition wf_runtime (r : RemoteRuntimeIdentity) : Prop :=
  wf_host (rt_host r) /\ wf_host (rt_boot_id r) /\ is_i32 (rt_pid r) /\ is_u64 (rt_process_start_ticks r).

Record RemoteEndpointIdentity := {
  ep_runtime : RemoteRuntimeIdentity;
  ep_registration_id : Z
}.
Definition no_endpoint : RemoteEndpointIdentity :=
  {| ep_runtime := no_runtime; ep_registration_id := 0 |}.
Definition wf_endpoint (e : RemoteEndpointIdentity) : Prop :=
  wf_runtime (ep_runtime e) /\ is_u64 (ep_registration_id e).

(** [enum class TargetScope : std::uint8_t] *)
Module TargetScope.
Definition ENDPOINT := 1.
Definition HOST := 2.
Definition APPLICATION := 3.
Definition GROUP := 4.
Definition ALL := 5.
End TargetScope.

Record RemoteTarget := {
  tg_scope : Z;
  tg_endpoint : RemoteEndpointIdentity;
  tg_host : HostIdentity;
  tg_application : RemoteRuntimeIdentity;
  tg_group : list Z
}.

Module TrafficClass.
Definition CONTROL := 1.
Definition TOPIC := 2.
End TrafficClass.
Module Priority.
Definition NORMAL := 1.
Definition HIGH := 2.
End Priority.
Module NetworkScope.
Definition LOCAL := 0.
Definition REMOTE := 1.
End NetworkScope.
Module EndpointKind.
Definition TOPIC := 1.
Definition PARAMETER := 2.
Definition SERVICE := 3.
Definition ACTION := 4.
End EndpointKind.
Module EndpointRole.
Definition PROVIDER := 1.
Definition CONSUMER := 2.
End EndpointRole.
(** [enum class ControlOperation : std::uint16_t] *)
Module ControlOperation.
Definition PARAM_GET := 1.
Definition PARAM_SET := 2.
Definition SERVICE_REQUEST := 3.
Definition SERVICE_RESPONSE := 4.
Definition ACTION_GOAL := 5.
Definition ACTION_FEEDBACK := 6.
Definition ACTION_RESULT := 7.
Definition ACTION_CANCEL := 8.
End ControlOperation.

Record TypeIdentity := {
  ty_type_id : Z;
  ty_schema_id : Z;
  ty_encoding_id : Z;
  ty_payload_size : Z
}.
Definition no_type : TypeIdentity :=
  {| ty_type_id := 0; ty_schema_id := 0; ty_encoding_id := 0; ty_payload_size := 0 |}.
Definition wf_type (t : TypeIdentity) : Prop :=
  is_u64 (ty_type_id t) /\ is_u64 (ty_schema_id t) /\ is_u32 (ty_encoding_id t) /\ is_u32 (ty_payload_size t).

Record NetworkEndpointMetadata := {
  md_protocol_version : Z;
  md_identity : RemoteEndpointIdentity;
  md_application : RemoteRuntimeIdentity;
  md_host_name : list Z;
  md_application_name : list Z;
  md_element_name : list Z;
  md_name : list Z;
  md_groups : list (list Z);
  md_kind : Z;
  md_role : Z;
  md_scope : Z;
  md_value_type : TypeIdentity;
  md_request_type : TypeIdentity;
  md_response_type : TypeIdentity;
  md_feedback_type : TypeIdentity
}.
Definition wf_metadata (m : NetworkEndpointMetadata) : Prop :=
  is_u16 (md_protocol_version m) /\ wf_endpoint (md_identity m) /\ wf_runtime (md_application m) /\
  bytes (md_host_name m) /\ bytes (md_application_name m) /\ bytes (md_element_name m) /\
  bytes (md_name m) /\ Forall bytes (md_groups m) /\
  is_u8 (md_kind m) /\ is_u8 (md_role m) /\ is_u8 (md_scope m) /\
  wf_type (md_value_type m) /\ wf_type (md_request_type m) /\
  wf_type (md_response_type m) /\ wf_type (md_feedback_type m).

Record ActionGoalIdentity := {
  goal_source : RemoteRuntimeIdentity;
  goal_request_id : Z
}.

Record RemoteRequest := {
  rq_protocol_version : Z;
  rq_source : RemoteRuntimeIdentity;
  rq_request_id : Z;
  rq_operation : Z;
  rq_target : RemoteTarget;
  rq_goal : ActionGoalIdentity;
  rq_endpoint_name : list Z;
  rq_timeout_ms : Z;
  rq_payload_type : TypeIdentity;
  rq_response_type : TypeIdentity;
  rq_payload : list Z
}.

(** [enum class RemoteStatus : std::uint8_t] *)
Module RemoteStatus.
Definition PENDING := 0.
Definition SUCCESS := 1.
Definition TIMEOUT := 2.
Definition DISCONNECTED := 3.
Definition LOST := 4.
Definition REJECTED := 5.
Definition REMOTE_ERROR := 6.
End RemoteStatus.

Record RemoteEndpointResult := {
  rs_source : RemoteRuntimeIdentity;
  rs_request_id : Z;
  rs_endpoint : RemoteEndpointIdentity;
  rs_status : Z;
  rs_error : Z;
  rs_payload_type : TypeIdentity;
  rs_payload : list Z
}.

Record RemoteActionEvent := {
  ev_goal : ActionGoalIdentity;
  ev_endpoint : RemoteEndpointIdentity;
  ev_operation : Z;
  ev_payload_type : TypeIdentity;
  ev_payload : list Z
}.

#[export] Instance RemoteRuntimeIdentity_eq_dec : EqDecision RemoteRuntimeIdentity.
Proof. solve_decision. Defined.
#[export] Instance RemoteEndpointIdentity_eq_dec : EqDecision RemoteEndpointIdentity.
Proof. solve_decision. Defined.
#[export] Instance TypeIdentity_eq_dec : EqDecision TypeIdentity.
Proof. solve_decision. Defined.
#[export] Instance NetworkEndpointMetadata_eq_dec : EqDecision NetworkEndpointMetadata.
Proof. solve_decision. Defined.

(** [a == b] of the sources. *)
Notation "a =?? b" := (bool_decide (a = b)) (at level 70) : kcf_scope.

(** ** Validation predicates *)
Definition ValidHost (id : HostIdentity) : bool := existsb (fun b => negb (b =? 0)) id.

Definition ValidRuntime (id : RemoteRuntimeIdentity) : bool :=
  ValidHost (rt_host id) && ValidHost (rt_boot_id id) && (0 <? rt_pid id) &&
  negb (rt_process_start_ticks id =? 0).

Definition ValidEndpoint (id : RemoteEndpointIdentity) : bool :=
  ValidRuntime (ep_runtime id) && negb (ep_registration_id id =? 0).

Definition Text (value : list Z) (maximum : Z) : bool :=
  negb (value =?? []) && (vsize value <=? maximum) &&
  forallb (fun c => negb ((c <? 32) || (c =? 127))) value.

(** [s[0]] of a [std::string]; the terminating NUL for an empty one. *)
Definition first_char (s : list Z) : Z := hd 0 s.
Definition SLASH := 47.

Definition ValidType (type : TypeIdentity) : bool :=
  negb (ty_type_id type =? 0) && negb (ty_schema_id type =? 0) && negb (ty_encoding_id type =? 0) &&
  negb (ty_payload_size type =? 0) && (ty_payload_size type <=? MAX_CONTROL_PAYLOAD).

Definition ValidTarget (target : RemoteTarget) : bool :=
  let no_ep := tg_endpoint target =?? no_endpoint in
  let no_h := tg_host target =?? no_host_id in
  let no_app := tg_application target =?? no_runtime in
  let no_group := tg_group target =?? [] in
  let s := tg_scope target in
  if s =? TargetScope.ENDPOINT then ValidEndpoint (tg_endpoint target) && no_h && no_app && no_group
  else if s =? TargetScope.HOST then no_ep && ValidHost (tg_host target) && no_app && no_group
  else if s =? TargetScope.APPLICATION then no_ep && no_h && ValidRuntime (tg_application target) && no_group
  else if s =? TargetScope.GROUP then no_ep && no_h && no_app && Text (tg_group target) 128
  else if s =? TargetScope.ALL then no_ep && no_h && no_app && no_group
  else false.

Definition ValidOperation (op : Z) : bool :=
  (op =? ControlOperation.PARAM_GET) || (op =? ControlOperation.PARAM_SET) ||
  (op =? ControlOperation.SERVICE_REQUEST) || (op =? ControlOperation.SERVICE_RESPONSE) ||
  (op =? ControlOperation.ACTION_GOAL) || (op =? ControlOperation.ACTION_FEEDBACK) ||
  (op =? ControlOperation.ACTION_RESULT) || (op =? ControlOperation.ACTION_CANCEL).

(** [Classify(TrafficClass, Priority&)]: the priority written on success. *)
Definition ClassifyTraffic (traffic : Z) : option Z :=
  if traffic =? TrafficClass.CONTROL then Some Priority.HIGH
  else if traffic =? TrafficClass.TOPIC then Some Priority.NORMAL
  else None.
Definition ClassifyOperation (operation : Z) : option Z :=
  if negb (ValidOperation operation) then None else ClassifyTraffic TrafficClass.CONTROL.

(** The loop over [m.groups]: each group is printable text and does not occur
    among the groups before it. *)
Fixpoint ValidGroups (previous rest : list (list Z)) : bool :=
  match rest with
  | [] => true
  | g :: gs =>
      if negb (Text g 128) || bool_decide (g ∈ previous) then false
      else ValidGroups (previous ++ [g]) gs
  end.

Definition ValidMetadata (m : NetworkEndpointMetadata) : bool :=
  if negb (md_protocol_version m =? PROTOCOL_VERSION) || negb (ValidEndpoint (md_identity m)) ||
     negb (Text (md_name m) 240) || negb (first_char (md_name m) =? SLASH) ||
     negb (Text (md_element_name m) 128) ||
     (negb (md_host_name m =?? []) && negb (Text (md_host_name m) 128)) ||
     (negb (md_role m =? EndpointRole.PROVIDER) && negb (md_role m =? EndpointRole.CONSUMER)) ||
     (negb (md_scope m =? NetworkScope.LOCAL) && negb (md_scope m =? NetworkScope.REMOTE)) ||
     (64 <? Z.of_nat (length (md_groups m))) then false
  else if (if md_application m =?? no_runtime then negb (md_application_name m =?? [])
           else negb (ValidRuntime (md_application m)) || negb (Text (md_application_name m) 128) ||
                negb (rt_host (md_application m) =?? rt_host (ep_runtime (md_identity m))) ||
                negb (rt_boot_id (md_application m) =?? rt_boot_id (ep_runtime (md_identity m)))) then false
  else if negb (ValidGroups [] (md_groups m)) then false
  else if (md_kind m =? EndpointKind.TOPIC) || (md_kind m =? EndpointKind.PARAMETER) then
    ValidType (md_value_type m) && (md_request_type m =?? no_type) &&
    (md_response_type m =?? no_type) && (md_feedback_type m =?? no_type)
  else if md_kind m =? EndpointKind.SERVICE then
    (md_value_type m =?? no_type) && ValidType (md_request_type m) &&
    ValidType (md_response_type m) && (md_feedback_type m =?? no_type)
  else if md_kind m =? EndpointKind.ACTION then
    (md_value_type m =?? no_type) && ValidType (md_request_type m) &&
    ValidType (md_response_type m) && ValidType (md_feedback_type m)
  else false.

Definition CanRouteTopic (publisher subscriber : NetworkEndpointMetadata)
    (active_remote_subscription : bool) : bool :=
  active_remote_subscription && ValidMetadata publisher && ValidMetadata subscriber &&
  (md_kind publisher =? EndpointKind.TOPIC) && (md_kind subscriber =? EndpointKind.TOPIC) &&
  (md_role publisher =? EndpointRole.PROVIDER) && (md_role subscriber =? EndpointRole.CONSUMER) &&
  (md_scope publisher =? NetworkScope.REMOTE) && (md_scope subscriber =? NetworkScope.REMOTE) &&
  negb (rt_host (ep_runtime (md_identity publisher)) =?? rt_host (ep_runtime (md_identity subscriber))) &&
  (md_name publisher =?? md_name subscriber) && (md_value_type publisher =?? md_value_type subscriber).

Definition MatchesTarget (target : RemoteTarget) (endpoint : NetworkEndpointMetadata) : bool :=
  if negb (ValidTarget target) || negb (ValidMetadata endpoint) ||
     negb (md_scope endpoint =? NetworkScope.REMOTE) || negb (md_role endpoint =? EndpointRole.PROVIDER) ||
     (md_kind endpoint =? EndpointKind.TOPIC) then false
  else let s := tg_scope target in
  if s =? TargetScope.ENDPOINT then tg_endpoint target =?? md_identity endpoint
  else if s =? TargetScope.HOST then tg_host target =?? rt_host (ep_runtime (md_identity endpoint))
  else if s =? TargetScope.APPLICATION then tg_application target =?? md_application endpoint
  else if s =? TargetScope.GROUP then bool_decide (tg_group target ∈ md_groups endpoint)
  else if s =? TargetScope.ALL then true
  else false.

Definition Payload (type : TypeIdentity) (payload : list Z) : bool :=
  ValidType type && (vsize payload =? ty_payload_size type).

Definition ValidGoal (goal : ActionGoalIdentity) : bool :=
  ValidRuntime (goal_source goal) && negb (goal_request_id goal =? 0).

Definition ValidRequest (r : RemoteRequest) : bool :=
  if negb (rq_protocol_version r =? PROTOCOL_VERSION) || negb (ValidRuntime (rq_source r)) ||
     (rq_request_id r =? 0) || negb (ValidTarget (rq_target r)) || negb (Text (rq_endpoint_name r) 240) ||
     negb (first_char (rq_endpoint_name r) =? SLASH) || (rq_timeout_ms r =? 0) then false
  else
  let op := rq_operation r in
  let goal_operation := (op =? ControlOperation.ACTION_RESULT) || (op =? ControlOperation.ACTION_CANCEL) in
  if (if goal_operation then negb (ValidGoal (rq_goal r))
      else negb (goal_source (rq_goal r) =?? no_runtime) || negb (goal_request_id (rq_goal r) =? 0)) then false
  else
  let no_payload := (rq_payload r =?? []) && (rq_payload_type r =?? no_type) in
  if (op =? ControlOperation.PARAM_GET) || (op =? ControlOperation.ACTION_RESULT) then
    no_payload && ValidType (rq_response_type r)
  else if op =? ControlOperation.PARAM_SET then
    Payload (rq_payload_type r) (rq_payload r) && (rq_response_type r =?? no_type)
  else if (op =? ControlOperation.SERVICE_REQUEST) || (op =? ControlOperation.ACTION_GOAL) then
    Payload (rq_payload_type r) (rq_payload r) && ValidType (rq_response_type r)
  else if op =? ControlOperation.ACTION_CANCEL then no_payload && (rq_response_type r =?? no_type)
  else false.

Definition MatchesRequest (request : RemoteRequest) (endpoint : NetworkEndpointMetadata) : bool :=
  if negb (ValidRequest request) || negb (MatchesTarget (rq_target request) endpoint) ||
     negb (rq_endpoint_name request =?? md_name endpoint) then false
  else
  let op := rq_operation request in
  let kind := md_kind endpoint in
  if op =? ControlOperation.PARAM_GET then
    (kind =? EndpointKind.PARAMETER) && (rq_response_type request =?? md_value_type endpoint)
  else if op =? ControlOperation.PARAM_SET then
    (kind =? EndpointKind.PARAMETER) && (rq_payload_type request =?? md_value_type endpoint)
  else if op =? ControlOperation.SERVICE_REQUEST then
    (kind =? EndpointKind.SERVICE) && (rq_payload_type request =?? md_request_type endpoint) &&
    (rq_response_type request =?? md_response_type endpoint)
  else if op =? ControlOperation.ACTION_GOAL then
    (kind =? EndpointKind.ACTION) && (rq_payload_type request =?? md_request_type endpoint) &&
    (rq_response_type request =?? md_response_type endpoint)
  else if op =? ControlOperation.ACTION_RESULT then
    (kind =? EndpointKind.ACTION) && (rq_response_type request =?? md_response_type endpoint)
  else if op =? ControlOperation.ACTION_CANCEL then kind =? EndpointKind.ACTION
  else false.

Definition ValidResult (result : RemoteEndpointResult) (request : RemoteRequest) : bool :=
  if negb (ValidRequest request) || negb (ValidEndpoint (rs_endpoint result)) ||
     negb (rs_source result =?? rq_source request) ||
     negb (rs_request_id result =? rq_request_id request) then false
  else
  let st := rs_status result in
  if st =? RemoteStatus.SUCCESS then
    (rs_error result =? 0) && (rs_payload_type result =?? rq_response_type request) &&
    (if rq_response_type request =?? no_type then rs_payload result =?? []
     else Payload (rs_payload_type result) (rs_payload result))
  else if negb (rs_payload_type result =?? no_type) || negb (rs_payload result =?? []) then false
  else if (st =? RemoteStatus.PENDING) || (st =? RemoteStatus.TIMEOUT) ||
          (st =? RemoteStatus.DISCONNECTED) || (st =? RemoteStatus.LOST) then rs_error result =? 0
  else if (st =? RemoteStatus.REJECTED) || (st =? RemoteStatus.REMOTE_ERROR) then negb (rs_error result =? 0)
  else false.

(** The inner loop over [results.endpoints] for one selected endpoint: [None]
    is the early [return false] on an invalid result. *)
Fixpoint count_matches (identity : RemoteEndpointIdentity) (request : RemoteRequest)
    (results : list RemoteEndpointResult) (matches : nat) : option nat :=
  match results with
  | [] => Some matches
  | r :: rest =>
      if rs_endpoint r =?? identity then
        if negb (ValidResult r request) then None else count_matches identity request rest (S matches)
      else count_matches identity request rest matches
  end.

(** The outer loop over [selected]; [previous] are the entries [0..i-1]. *)
Fixpoint check_selected (request : RemoteRequest) (results : list RemoteEndpointResult)
    (previous rest : list NetworkEndpointMetadata) : bool :=
  match rest with
  | [] => true
  | e :: es =>
      if negb (MatchesRequest request e) then false
      else if bool_decide (md_identity e ∈ (md_identity <$> previous)) then false
      else match count_matches (md_identity e) request results 0 with
           | Some 1%nat => check_selected request results (previous ++ [e]) es
           | _ => false
           end
  end.

Definition ValidResults (results : list RemoteEndpointResult) (request : RemoteRequest)
    (selected : list NetworkEndpointMetadata) : bool :=
  if negb (ValidRequest request) || (match selected with [] => true | _ => false end) ||
     negb (length results =? length selected)%nat then false
  else check_selected request results [] selected.

Definition ValidActionEvent (event : RemoteActionEvent) (endpoint : NetworkEndpointMetadata) : bool :=
  if negb (ValidGoal (ev_goal event)) || negb (ValidMetadata endpoint) ||
     negb (md_kind endpoint =? EndpointKind.ACTION) || negb (md_role endpoint =? EndpointRole.PROVIDER) ||
     negb (md_scope endpoint =? NetworkScope.REMOTE) || negb (ev_endpoint event =?? md_identity endpoint) then false
  else if ev_operation event =? ControlOperation.ACTION_FEEDBACK then
    (ev_payload_type event =?? md_feedback_type endpoint) && Payload (ev_payload_type event) (ev_payload event)
  else if ev_operation event =? ControlOperation.ACTION_RESULT then
    (ev_payload_type event =?? md_response_type endpoint) && Payload (ev_payload_type event) (ev_payload event)
  else false.

(** ** Legacy operation tags, [control_codec.hpp] *)
Definition EncodeControlOperation (operation : Z) : result (list Z) :=
  if negb (ValidOperation operation) then Err (- EINVAL)
  else Ok [u8 (Z.shiftr (u16 operation) 8); u8 (u16 operation)].

Definition DecodeControlOperation (data : option (list Z)) : result Z :=
  match data with
  | None => Err (- EINVAL)
  | Some bs =>
      match bs with
      | [b0; b1] =>
          let value := Z.lor (Z.shiftl b0 8) b1 in
          if negb (ValidOperation value) then Err (- EPROTO) else Ok value
      | _ => Err (- EMSGSIZE)
      end
  end.

(** ** Facts about the checks *)
Lemma Text_size s maximum : Text s maximum = true -> 0 < vsize s <= maximum.
Proof.
  unfold Text. intros H. bool_to_prop. split; [|done].
  destruct s; [done|]. unfold vsize. simpl. lia.
Qed.

Lemma ValidGroups_spec previous rest :
  ValidGroups previous rest = true -> NoDup previous ->
  NoDup (previous ++ rest) /\ Forall (fun g => Text g 128 = true) rest.
Proof.
  revert previous. induction rest as [|g gs IH]; intros previous H Hnd; simpl in H.
  { rewrite app_nil_r. auto. }
  case_check; [done|]. bool_to_prop.
  destruct (IH (previous ++ [g]) H) as [Hnd' Hall].
  { by apply NoDup_snoc. }
  rewrite <- app_assoc in Hnd'. auto.
Qed.

Lemma count_matches_spec identity request results n m :
  count_matches identity request results n = Some m ->
  (n <= m)%nat /\
  ((n < m)%nat -> exists r, r ∈ results /\ rs_endpoint r = identity) /\
  (forall r, r ∈ results -> rs_endpoint r = identity -> ValidResult r request = true).
Proof.
  revert n. induction results as [|x rest IH]; intros n H; simpl in H.
  { simplify_eq. split_and!; [lia|lia|set_solver]. }
  repeat case_check; try done; bool_to_prop; apply IH in H as (Hle & Hex & Hall).
  - split_and!; [lia| |].
    + intros _. exists x. set_solver.
    + intros r [->|Hr]%elem_of_cons Hid; auto.
  - split_and!; [lia| |].
    + intros Hlt. destruct (Hex Hlt) as (r & ? & ?). exists r. set_solver.
    + intros r [->|Hr]%elem_of_cons Hid; auto.
Qed.

Lemma check_selected_spec request results previous rest :
  check_selected request results previous rest = true -> NoDup (md_identity <$> previous) ->
  NoDup (md_identity <$> (previous ++ rest)) /\
  forall e, e ∈ rest -> MatchesRequest request e = true /\
    (exists r, r ∈ results /\ rs_endpoint r = md_identity e) /\
    (forall r, r ∈ results -> rs_endpoint r = md_identity e -> ValidResult r request = true).
Proof.
  revert previous. induction rest as [|x es IH]; intros previous H Hnd; simpl in H.
  { rewrite app_nil_r. set_solver. }
  repeat case_check; try done. bool_to_prop.
  destruct (count_matches _ _ _ _) as [[|[|]]|] eqn:Hc; try done.
  apply count_matches_spec in Hc as (_ & Hex & Hall).
  destruct (IH (previous ++ [x]) H) as [Hnd' Hrest].
  { rewrite fmap_app. by apply NoDup_snoc. }
  rewrite <- app_assoc in Hnd'. split; [done|].
  intros e [->|He]%elem_of_cons; [|auto]. split_and!; auto.
Qed.

Lemma perm_of_cover {A} (l k : list A) :
  NoDup l -> (forall x, x ∈ l -> x ∈ k) -> length k = length l -> k ≡ₚ l.
Proof.
  intros Hnd Hsub Hlen. symmetry. apply submseteq_length_Permutation; [|lia].
  by apply NoDup_submseteq.
Qed.

(** a result set the code accepts ([Valid(RemoteRequestResult, ...)]) answers
    the frozen selection exactly: the responding endpoints are a permutation of
    the selected ones (none missing, none foreign, none twice), every result is
    itself valid for the request and every selected endpoint matches it. *)
Theorem ValidResults_exact results request selected :
  ValidResults results request selected = true ->
  selected <> [] /\
  (rs_endpoint <$> results) ≡ₚ (md_identity <$> selected) /\
  NoDup (rs_endpoint <$> results) /\
  Forall (fun r => ValidResult r request = true) results /\
  Forall (fun e => MatchesRequest request e = true) selected.
Proof.
  unfold ValidResults. intros H. case_check; [done|]. bool_to_prop.
  destruct (check_selected_spec _ _ _ _ H) as [Hnd Hsel]; [constructor|]. simpl in Hnd.
  assert (Hperm : (rs_endpoint <$> results) ≡ₚ (md_identity <$> selected)).
  { apply perm_of_cover; auto.
    - intros i (e & -> & He)%list_elem_of_fmap. destruct (Hsel e He) as (_ & (r & Hr & <-) & _).
      by apply list_elem_of_fmap_2.
    - rewrite !length_fmap. by apply Nat.eqb_eq. }
  split_and!; auto.
  - intros ->. done.
  - by rewrite Hperm.
  - apply Forall_forall. intros r Hr.
    assert (Hi : rs_endpoint r ∈ (md_identity <$> selected)) by (rewrite <- Hperm; by apply list_elem_of_fmap_2).
    apply list_elem_of_fmap in Hi as (e & Heq & He). by apply (Hsel e He).
  - apply Forall_forall. intros e He. by apply Hsel.
Qed.

(** The operations an endpoint of each kind offers, with the types they carry:
    the contract [MatchesRequest] decides. *)
Inductive request_typed (r : RemoteRequest) (e : NetworkEndpointMetadata) : Prop :=
| typed_get :
    md_kind e = EndpointKind.PARAMETER -> rq_operation r = ControlOperation.PARAM_GET ->
    rq_payload r = [] -> rq_response_type r = md_value_type e -> request_typed r e
| typed_set :
    md_kind e = EndpointKind.PARAMETER -> rq_operation r = ControlOperation.PARAM_SET ->
    vsize (rq_payload r) = ty_payload_size (md_value_type e) -> request_typed r e
| typed_service :
    md_kind e = EndpointKind.SERVICE -> rq_operation r = ControlOperation.SERVICE_REQUEST ->
    vsize (rq_payload r) = ty_payload_size (md_request_type e) ->
    rq_response_type r = md_response_type e -> request_typed r e
| typed_goal :
    md_kind e = EndpointKind.ACTION -> rq_operation r = ControlOperation.ACTION_GOAL ->
    vsize (rq_payload r) = ty_payload_size (md_request_type e) ->
    rq_response_type r = md_response_type e -> request_typed r e
| typed_result :
    md_kind e = EndpointKind.ACTION -> rq_operation r = ControlOperation.ACTION_RESULT ->
    rq_payload r = [] -> rq_response_type r = md_response_type e ->
    ValidGoal (rq_goal r) = true -> request_typed r e
| typed_cancel :
    md_kind e = EndpointKind.ACTION -> rq_operation r = ControlOperation.ACTION_CANCEL ->
    rq_payload r = [] -> ValidGoal (rq_goal r) = true -> request_typed r e.

Lemma MatchesTarget_exposed target endpoint :
  MatchesTarget target endpoint = true ->
  ValidTarget target = true /\ ValidMetadata endpoint = true /\
  md_scope endpoint = NetworkScope.REMOTE /\ md_role endpoint = EndpointRole.PROVIDER /\
  md_kind endpoint <> EndpointKind.TOPIC.
Proof. unfold MatchesTarget. intros H. case_check; [done|]. bool_to_prop. auto. Qed.

(** a request [MatchesRequest] accepts is valid, is addressed under the
    endpoint's own name to a valid, remotely exposed provider that is not a
    Topic, and carries the payload size, response type and goal identity that
    the endpoint's kind prescribes for the operation. *)
Theorem MatchesRequest_sound request endpoint :
  MatchesRequest request endpoint = true ->
  ValidRequest request = true /\ ValidMetadata endpoint = true /\
  md_scope endpoint = NetworkScope.REMOTE /\ md_role endpoint = EndpointRole.PROVIDER /\
  md_name endpoint = rq_endpoint_name request /\ request_typed request endpoint.
Proof.
  unfold MatchesRequest. intros H. case_check; [done|]. bool_to_prop.
  destruct (MatchesTarget_exposed (rq_target request) endpoint) as (_ & ? & ? & ? & _); [done|].
  split_and!; auto.
  assert (Hreq : ValidRequest request = true) by done. unfold ValidRequest, Payload in Hreq.
  case_check; [done|].
  repeat (let E := fresh "Eop" in destruct (rq_operation request =? _) eqn:E in H;
    [apply Z.eqb_eq in E; rewrite E in Hreq; cbn in Hreq; case_check; try done; bool_to_prop|]); try done.
  - by apply typed_get.
  - apply typed_set; congruence.
  - apply typed_service; congruence.
  - apply typed_goal; congruence.
  - by apply typed_result.
  - by apply typed_cancel.
Qed.

(** ** Concrete values, shared by the witnesses of the network files *)
Definition sample_host (n : Z) : HostIdentity := n :: repeat 0 15.
Definition sample_runtime (n : Z) : RemoteRuntimeIdentity :=
  {| rt_host := sample_host n; rt_boot_id := sample_host (n + 1); rt_pid := 100; rt_process_start_ticks := 7 |}.
Definition sample_endpoint (n : Z) : RemoteEndpointIdentity :=
  {| ep_runtime := sample_runtime n; ep_registration_id := 1 |}.
Definition sample_type : TypeIdentity :=
  {| ty_type_id := 11; ty_schema_id := 12; ty_encoding_id := 1; ty_payload_size := 2 |}.
(** ["/p"] *)
Definition sample_name : list Z := [47; 112].
Definition sample_metadata (n kind role : Z) : NetworkEndpointMetadata :=
  {| md_protocol_version := PROTOCOL_VERSION; md_identity := sample_endpoint n; md_application := no_runtime;
     md_host_name := []; md_application_name := []; md_element_name := [101]; md_name := sample_name;
     md_groups := [[103]]; md_kind := kind; md_role := role; md_scope := NetworkScope.REMOTE;
     md_value_type := sample_type; md_request_type := no_type; md_response_type := no_type;
     md_feedback_type := no_type |}.
Definition sample_request : RemoteRequest :=
  {| rq_protocol_version := PROTOCOL_VERSION; rq_source := sample_runtime 3; rq_request_id := 5;
     rq_operation := ControlOperation.PARAM_SET;
     rq_target := {| tg_scope := TargetScope.GROUP; tg_endpoint := no_endpoint; tg_host := no_host_id;
                     tg_application := no_runtime; tg_group := [103] |};
     rq_goal := {| goal_source := no_runtime; goal_request_id := 0 |};
     rq_endpoint_name := sample_name; rq_timeout_ms := 100;
     rq_payload_type := sample_type; rq_response_type := no_type; rq_payload := [1; 2] |}.
Definition sample_result (n : Z) : RemoteEndpointResult :=
  {| rs_source := sample_runtime 3; rs_request_id := 5; rs_endpoint := sample_endpoint n;
     rs_status := RemoteStatus.SUCCESS; rs_error := 0; rs_payload_type := no_type; rs_payload := [] |}.

Lemma ValidResults_exact_witness :
  let selected := [sample_metadata 1 EndpointKind.PARAMETER EndpointRole.PROVIDER;
                   sample_metadata 2 EndpointKind.PARAMETER EndpointRole.PROVIDER] in
  ValidResults [sample_result 2; sample_result 1] sample_request selected = true /\
  (rs_endpoint <$> [sample_result 2; sample_result 1]) ≡ₚ (md_identity <$> selected).
Proof.
  intros selected.
  assert (H : ValidResults [sample_result 2; sample_result 1] sample_request selected = true)
    by (vm_compute; reflexivity).
  split; [exact H|]. exact (proj1 (proj2 (ValidResults_exact _ _ _ H))).
Defined.

Lemma MatchesRequest_sound_witness :
  let e := sample_metadata 1 EndpointKind.PARAMETER EndpointRole.PROVIDER in
  MatchesRequest sample_request e = true /\ request_typed sample_request e.
Proof.
  intros e.
  assert (H : MatchesRequest sample_request e = true) by (vm_compute; reflexivity).
  split; [exact H|]. exact (proj2 (proj2 (proj2 (proj2 (proj2 (MatchesRequest_sound _ _ H)))))).
Defined.
