(* ===== verification/NetWire.v ===== *)
(** * Wire form of the network identities

    [Host], [Runtime], [Endpoint] and [Type] of the [Writer] and [Reader]
    classes that [topic_protocol.cpp], [control_frame.cpp] and
    [discovery_protocol.cpp] share, and their round-trip lemmas. *)
From S2P Require Import Prelude Wire NetTypes.

Definition wHost (h : HostIdentity) : list Z := wBytes h.
Definition dHost : dec HostIdentity := dBytes 16.

(** [U(r.pid,4)] converts the signed pid to 64 bits first; the four low bytes
    are the two's-complement bits. *)
Definition wRuntime (r : RemoteRuntimeIdentity) : list Z :=
  wHost (rt_host r) ++ wHost (rt_boot_id r) ++ wU (u64 (rt_pid r)) 4 ++ wU (rt_process_start_ticks r) 8.

Definition dRuntime : dec RemoteRuntimeIdentity :=
  let$ host := dHost in
  let$ boot := dHost in
  let$ pid := dU 4 in
  let$ _ := dmark (pid <=? INT32_MAX) in
  let$ ticks := dU 8 in
  dret {| rt_host := host; rt_boot_id := boot; rt_pid := i32 pid; rt_process_start_ticks := ticks |}.

Definition wEndpoint (e : RemoteEndpointIdentity) : list Z :=
  wRuntime (ep_runtime e) ++ wU (ep_registration_id e) 8.
Definition dEndpoint : dec RemoteEndpointIdentity :=
  let$ runtime := dRuntime in
  let$ registration := dU 8 in
  dret {| ep_runtime := runtime; ep_registration_id := registration |}.

Definition wType (t : TypeIdentity) : list Z :=
  wU (ty_type_id t) 8 ++ wU (ty_schema_id t) 8 ++ wU (ty_encoding_id t) 4 ++ wU (ty_payload_size t) 4.
Definition dType : dec TypeIdentity :=
  let$ type_id := dU 8 in
  let$ schema_id := dU 8 in
  let$ encoding_id := dU 4 in
  let$ payload_size := dU 4 in
  dret {| ty_type_id := type_id; ty_schema_id := schema_id; ty_encoding_id := encoding_id;
          ty_payload_size := payload_size |}.

(** ** Lengths *)
Lemma wHost_vsize h : wf_host h -> vsize (wHost h) = 16.
Proof. intros [Hl Hb]. unfold wHost. rewrite wBytes_id by done. unfold vsize. lia. Qed.

Lemma wRuntime_vsize r : wf_runtime r -> vsize (wRuntime r) = 44.
Proof.
  intros (Hh & Hb & _). unfold wRuntime. autorewrite with kcf. by rewrite !wHost_vsize.
Qed.

Lemma wEndpoint_vsize e : wf_endpoint e -> vsize (wEndpoint e) = 52.
Proof. intros [Hr _]. unfold wEndpoint. autorewrite with kcf. by rewrite wRuntime_vsize. Qed.

Lemma wType_vsize t : vsize (wType t) = 24.
Proof. unfold wType. by autorewrite with kcf. Qed.

#[export] Hint Rewrite wHost_vsize wRuntime_vsize wEndpoint_vsize using done : kcf.
#[export] Hint Rewrite wType_vsize : kcf.

(** ** Round trips *)

(** Discharge the range condition of [reads_U] from a width hypothesis. *)
Ltac width :=
  first [ by (split; [discriminate | reflexivity])
        | unfold_widths; simpl Z.of_nat; simpl Z.pow; lia ].

(** One field of a sequential decoder. *)
Ltac read_U := eapply reads_bind; [apply reads_U; [lia|width]|].

Lemma reads_Host h : wf_host h -> reads dHost (wHost h) h.
Proof. intros [Hl Hb]. unfold dHost, wHost. rewrite wBytes_id, <- Hl by done. by apply reads_Bytes. Qed.

Lemma reads_Runtime r : wf_runtime r -> 0 <= rt_pid r -> reads dRuntime (wRuntime r) r.
Proof.
  intros (Hh & Hb & Hp & Ht) Hpos. unfold dRuntime, wRuntime.
  eapply reads_bind; [by apply reads_Host|]. eapply reads_bind; [by apply reads_Host|].
  assert (u64 (rt_pid r) = rt_pid r) as -> by (unfold u64; apply Z.mod_small; unfold_widths; lia).
  read_U. apply reads_mark; [apply Z.leb_le; width|].
  eapply reads_last; [apply reads_U; [lia|width]|].
  replace (i32 (rt_pid r)) with (rt_pid r); [destruct r; apply reads_ret|].
  unfold i32, u32. rewrite Z.mod_small by (unfold_widths; lia).
  case_check; bool_to_prop; unfold_widths; lia.
Qed.

Lemma reads_Endpoint e : wf_endpoint e -> 0 <= rt_pid (ep_runtime e) -> reads dEndpoint (wEndpoint e) e.
Proof.
  intros [Hr Hreg] Hp. eapply reads_bind; [by apply reads_Runtime|].
  eapply reads_last; [apply reads_U; [lia|width]|]. destruct e; apply reads_ret.
Qed.

Lemma reads_Type t : wf_type t -> reads dType (wType t) t.
Proof.
  intros (H1 & H2 & H3 & H4). unfold dType, wType. do 3 read_U.
  eapply reads_last; [apply reads_U; [lia|width]|]. destruct t; apply reads_ret.
Qed.

Lemma consumes_Host : consumes dHost (fun pre h => pre = wHost h /\ wf_host h).
Proof.
  eapply consumes_weaken; [apply consumes_Bytes|]. intros pre h _ (-> & Hl & Hb).
  unfold wHost. by rewrite wBytes_id.
Qed.

Lemma consumes_Runtime :
  consumes dRuntime (fun pre r => pre = wRuntime r /\ wf_runtime r /\ 0 <= rt_pid r).
Proof.
  eapply consumes_weaken.
  { eapply consumes_bind; [apply consumes_Host|intros h]. eapply consumes_bind; [apply consumes_Host|intros b].
    eapply consumes_bind; [apply consumes_U; lia|intros p]. apply consumes_mark.
    eapply consumes_bind; [apply consumes_U; lia|intros t]. apply consumes_ret. }
  intros pre r _ H. consumed. bool_to_prop.
  match goal with K : ?p <= INT32_MAX |- _ => rename p into pid end.
  assert (Hi : i32 pid = pid).
  { unfold i32, u32. rewrite Z.mod_small by width. case_check; bool_to_prop; lia. }
  unfold wRuntime, wf_runtime. cbn [rt_host rt_boot_id rt_pid rt_process_start_ticks]. rewrite Hi.
  replace (u64 pid) with pid by (unfold u64; rewrite Z.mod_small; width).
  rewrite app_nil_r. split_and!; auto; width.
Qed.

Lemma consumes_Endpoint :
  consumes dEndpoint (fun pre e => pre = wEndpoint e /\ wf_endpoint e /\ 0 <= rt_pid (ep_runtime e)).
Proof.
  eapply consumes_weaken.
  { eapply consumes_bind; [apply consumes_Runtime|intros r].
    eapply consumes_bind; [apply consumes_U; lia|intros g]. apply consumes_ret. }
  intros pre e _ H. consumed. unfold wEndpoint, wf_endpoint. cbn [ep_runtime ep_registration_id].
  rewrite app_nil_r. split_and!; auto; width.
Qed.

Lemma consumes_Type : consumes dType (fun pre t => pre = wType t /\ wf_type t).
Proof.
  eapply consumes_weaken.
  { do 4 (eapply consumes_bind; [apply consumes_U; lia|intro]). apply consumes_ret. }
  intros pre t _ H. consumed. unfold wType, wf_type. cbn [ty_type_id ty_schema_id ty_encoding_id ty_payload_size].
  rewrite app_nil_r. split_and!; auto; width.
Qed.

Lemma ValidRuntime_pid r : ValidRuntime r = true -> 0 <= rt_pid r.
Proof. unfold ValidRuntime. intros H. bool_to_prop. lia. Qed.

Lemma ValidEndpoint_pid e : ValidEndpoint e = true -> 0 <= rt_pid (ep_runtime e).
Proof. unfold ValidEndpoint. intros H. bool_to_prop. by apply ValidRuntime_pid. Qed.

#[export] Hint Resolve reads_Host reads_Runtime reads_Endpoint reads_Type
  consumes_Host consumes_Runtime consumes_Endpoint consumes_Type
  ValidRuntime_pid ValidEndpoint_pid : wire.

(** Run the [consumes] rules over a sequential decoder of the wire files. *)
Ltac consume_step :=
  first [ apply consumes_ret
        | eapply consumes_guard; intros ?
        | eapply consumes_mark
        | eapply consumes_bind; [first [apply consumes_U; lia | apply consumes_Host | apply consumes_Runtime
            | apply consumes_Endpoint | apply consumes_Type | apply consumes_String; unfold UINT16_MAX; lia]|intro] ].

(** Run the [reads] rules over a sequential decoder, leaving side conditions. *)
Ltac read_step :=
  first [ eapply reads_bind; [first [ apply reads_U; [lia|width] | apply reads_Host; done
            | apply reads_Runtime; [done|solve [auto with wire | width]]
            | apply reads_Endpoint; [done|solve [auto with wire | width]] | apply reads_Type; done ] |]
        | eapply reads_guard; [first [reflexivity | done]|]
        | eapply reads_mark; [first [reflexivity | done]|] ].

(** Typing invariants of closed values. *)
Ltac solve_wf :=
  repeat split; try reflexivity; repeat constructor; try (vm_compute; discriminate).

(** ** What the writers write are bytes *)
Lemma wRuntime_bytes r : bytes (wRuntime r).
Proof. unfold wRuntime, wHost. repeat (apply bytes_app; split); auto using wBytes_bytes, wU_bytes. Qed.
Lemma wType_bytes t : bytes (wType t).
Proof. unfold wType. repeat (apply bytes_app; split); apply wU_bytes. Qed.
Lemma wEndpoint_bytes e : bytes (wEndpoint e).
Proof. unfold wEndpoint. apply bytes_app. auto using wRuntime_bytes, wU_bytes. Qed.
#[export] Hint Resolve wRuntime_bytes wType_bytes wEndpoint_bytes : kcf.
