(* ===== verification/Compatibility.v ===== *)
(** * Peer and endpoint compatibility

    [kcf/include/kcf/network/compatibility.hpp]: version and capability
    negotiation between two peers and the pairwise endpoint check. *)
From S2P Require Import Prelude NetTypes.

Record FrameworkVersion := { fw_major : Z; fw_minor : Z; fw_patch : Z }.
Definition default_framework : FrameworkVersion := {| fw_major := 5; fw_minor := 6; fw_patch := 0 |}.
Record NetworkProtocolVersion := { np_major : Z; np_minor : Z }.
Definition default_network : NetworkProtocolVersion := {| np_major := 1; np_minor := 0 |}.

(** [enum class Capability : std::uint64_t] *)
Module Capability.
Definition DISCOVERY := Z.shiftl 1 0.
Definition REMOTE_PARAMETER := Z.shiftl 1 1.
Definition REMOTE_SERVICE := Z.shiftl 1 2.
Definition REMOTE_ACTION := Z.shiftl 1 3.
Definition REMOTE_TOPIC := Z.shiftl 1 4.
Definition TARGET_ENDPOINT := Z.shiftl 1 5.
Definition TARGET_HOST := Z.shiftl 1 6.
Definition TARGET_APPLICATION := Z.shiftl 1 7.
Definition TARGET_GROUP := Z.shiftl 1 8.
Definition TARGET_ALL := Z.shiftl 1 9.
Definition NETWORK_DIAGNOSTICS := Z.shiftl 1 10.
Definition TYPE_DESCRIPTOR_QUERY := Z.shiftl 1 11.
Definition REMOTE_TOPIC_RECEIVER := Z.shiftl 1 12.
Definition TOPIC_ENDPOINT_SUBSCRIPTION := Z.shiftl 1 13.
End Capability.
Definition KNOWN_CAPABILITIES := Z.shiftl 1 14 - 1.

Record PeerProfile := {
  pf_framework : FrameworkVersion;
  pf_network : NetworkProtocolVersion;
  pf_capabilities : Z
}.
Definition wf_profile (p : PeerProfile) : Prop :=
  is_u16 (fw_major (pf_framework p)) /\ is_u16 (fw_minor (pf_framework p)) /\ is_u16 (fw_patch (pf_framework p)) /\
  is_u16 (np_major (pf_network p)) /\ is_u16 (np_minor (pf_network p)) /\ is_u64 (pf_capabilities p).

#[export] Instance FrameworkVersion_eq_dec : EqDecision FrameworkVersion.
Proof. solve_decision. Defined.
#[export] Instance NetworkProtocolVersion_eq_dec : EqDecision NetworkProtocolVersion.
Proof. solve_decision. Defined.
#[export] Instance PeerProfile_eq_dec : EqDecision PeerProfile.
Proof. solve_decision. Defined.

Definition IsObserverProfile (p : PeerProfile) : bool :=
  let caps := Z.land (pf_capabilities p) KNOWN_CAPABILITIES in
  (caps =? Capability.DISCOVERY) ||
  (caps =? Z.lor (Z.lor Capability.DISCOVERY Capability.REMOTE_TOPIC_RECEIVER) Capability.TARGET_ENDPOINT).

Definition ValidProfile (p : PeerProfile) : bool := negb (np_major (pf_network p) =? 0).

(** [enum class CompatibilityPolicy : std::uint8_t] *)
Module CompatibilityPolicy.
Definition NETWORK_PROTOCOL := 1.
Definition EXACT_FRAMEWORK_VERSION := 2.
End CompatibilityPolicy.

(** [enum class CompatibilityReason : std::uint8_t] *)
Module CompatibilityReason.
Definition COMPATIBLE := 0.
Definition INVALID_PROFILE := 1.
Definition INVALID_POLICY := 2.
Definition NETWORK_MAJOR_MISMATCH := 3.
Definition FRAMEWORK_VERSION_MISMATCH := 4.
Definition CAPABILITY_MISSING := 5.
Definition INVALID_ENDPOINT := 6.
Definition SEMANTIC_MISMATCH := 7.
Definition TYPE_MISMATCH := 8.
Definition LOCAL_ONLY := 9.
Definition HOST_MISMATCH := 10.
Definition PEER_LOST := 11.
Definition METADATA_UNAVAILABLE := 12.
Definition UNKNOWN_ENDPOINT := 13.
End CompatibilityReason.

Record CompatibilityResult := {
  cr_reason : Z;
  cr_common_capabilities : Z;
  cr_missing_capabilities : Z
}.
Definition default_compatibility : CompatibilityResult :=
  {| cr_reason := CompatibilityReason.INVALID_PROFILE; cr_common_capabilities := 0; cr_missing_capabilities := 0 |}.
Definition with_reason (reason : Z) (r : CompatibilityResult) : CompatibilityResult :=
  {| cr_reason := reason; cr_common_capabilities := cr_common_capabilities r;
     cr_missing_capabilities := cr_missing_capabilities r |}.
Definition Compatible (r : CompatibilityResult) : bool := cr_reason r =? CompatibilityReason.COMPATIBLE.

Definition CheckPeerCompatibility (local remote : PeerProfile) (policy : Z) : CompatibilityResult :=
  if negb (ValidProfile local) || negb (ValidProfile remote) then default_compatibility
  else if negb (policy =? CompatibilityPolicy.NETWORK_PROTOCOL) &&
          negb (policy =? CompatibilityPolicy.EXACT_FRAMEWORK_VERSION) then
    with_reason CompatibilityReason.INVALID_POLICY default_compatibility
  else if negb (np_major (pf_network local) =? np_major (pf_network remote)) then
    with_reason CompatibilityReason.NETWORK_MAJOR_MISMATCH default_compatibility
  else if (policy =? CompatibilityPolicy.EXACT_FRAMEWORK_VERSION) &&
          negb (pf_framework local =?? pf_framework remote) then
    with_reason CompatibilityReason.FRAMEWORK_VERSION_MISMATCH default_compatibility
  else {| cr_reason := CompatibilityReason.COMPATIBLE;
          cr_common_capabilities :=
            Z.land (Z.land (pf_capabilities local) (pf_capabilities remote)) KNOWN_CAPABILITIES;
          cr_missing_capabilities := 0 |}.

Definition CheckCapability (local remote : PeerProfile) (required policy : Z) : CompatibilityResult :=
  let result := CheckPeerCompatibility local remote policy in
  if negb (Compatible result) then result
  else
  let missing := Z.land required (Z.lnot (cr_common_capabilities result)) in
  {| cr_reason := if negb (missing =? 0) then CompatibilityReason.CAPABILITY_MISSING else cr_reason result;
     cr_common_capabilities := cr_common_capabilities result;
     cr_missing_capabilities := missing |}.

Definition TargetCapability (scope : Z) : Z :=
  if scope =? TargetScope.ENDPOINT then Capability.TARGET_ENDPOINT
  else if scope =? TargetScope.HOST then Capability.TARGET_HOST
  else if scope =? TargetScope.APPLICATION then Capability.TARGET_APPLICATION
  else if scope =? TargetScope.GROUP then Capability.TARGET_GROUP
  else if scope =? TargetScope.ALL then Capability.TARGET_ALL
  else 0.

(** The [switch(a.kind)] of [CheckEndpointCompatibility]; the initial value
    stays for an enumerator outside the switch. *)
Definition operation_capability (kind : Z) : Z :=
  if kind =? EndpointKind.TOPIC then Capability.REMOTE_TOPIC
  else if kind =? EndpointKind.PARAMETER then Capability.REMOTE_PARAMETER
  else if kind =? EndpointKind.SERVICE then Capability.REMOTE_SERVICE
  else if kind =? EndpointKind.ACTION then Capability.REMOTE_ACTION
  else Capability.REMOTE_TOPIC.

(** A Topic consumer that only receives counts as Topic capable. *)
Definition receiver_profile (kind role : Z) (p : PeerProfile) : PeerProfile :=
  if (kind =? EndpointKind.TOPIC) && (role =? EndpointRole.CONSUMER) &&
     negb (Z.land (pf_capabilities p) Capability.REMOTE_TOPIC_RECEIVER =? 0)
  then {| pf_framework := pf_framework p; pf_network := pf_network p;
          pf_capabilities := Z.lor (pf_capabilities p) Capability.REMOTE_TOPIC |}
  else p.

Definition CheckEndpointCompatibility (local remote : PeerProfile) (a b : NetworkEndpointMetadata)
    (policy target : Z) : CompatibilityResult :=
  let result := CheckPeerCompatibility local remote policy in
  if negb (Compatible result) then result
  else if negb (ValidMetadata a) || negb (ValidMetadata b) then
    with_reason CompatibilityReason.INVALID_ENDPOINT result
  else if negb (md_kind a =? md_kind b) || negb (md_name a =?? md_name b) || (md_role a =? md_role b) ||
          (TargetCapability target =? 0) then
    with_reason CompatibilityReason.SEMANTIC_MISMATCH result
  else if negb (md_scope a =? NetworkScope.REMOTE) || negb (md_scope b =? NetworkScope.REMOTE) then
    with_reason CompatibilityReason.LOCAL_ONLY result
  else if rt_host (ep_runtime (md_identity a)) =?? rt_host (ep_runtime (md_identity b)) then
    with_reason CompatibilityReason.HOST_MISMATCH result
  else
  let left := receiver_profile (md_kind a) (md_role a) local in
  let right := receiver_profile (md_kind a) (md_role b) remote in
  let result := CheckCapability left right
    (Z.lor (operation_capability (md_kind a)) (TargetCapability target)) policy in
  if negb (Compatible result) then result
  else if negb (md_value_type a =?? md_value_type b) || negb (md_request_type a =?? md_request_type b) ||
          negb (md_response_type a =?? md_response_type b) || negb (md_feedback_type a =?? md_feedback_type b) then
    with_reason CompatibilityReason.TYPE_MISMATCH result
  else result.

(** [KCF_ENDPOINT_CHECK(Name, Kind)]: [CheckTopicCompatibility],
    [CheckParameterCompatibility], [CheckServiceCompatibility] and
    [CheckActionCompatibility] are this function at the four kinds. *)
Definition CheckKindCompatibility (kind : Z) (local remote : PeerProfile) (a b : NetworkEndpointMetadata)
    (policy target : Z) : CompatibilityResult :=
  let result := CheckEndpointCompatibility local remote a b policy target in
  if Compatible result && negb (md_kind a =? kind)
  then with_reason CompatibilityReason.SEMANTIC_MISMATCH result else result.

(** ** Facts *)
Lemma eqd_sym {A} `{EqDecision A} (a b : A) : (a =?? b) = (b =?? a).
Proof. apply bool_decide_ext. done. Qed.

Lemma CheckPeerCompatibility_sym local remote policy :
  CheckPeerCompatibility local remote policy = CheckPeerCompatibility remote local policy.
Proof.
  unfold CheckPeerCompatibility. rewrite orb_comm, (Z.eqb_sym (np_major _)), eqd_sym,
    (Z.land_comm (pf_capabilities local)). done.
Qed.

Lemma CheckCapability_sym local remote required policy :
  CheckCapability local remote required policy = CheckCapability remote local required policy.
Proof. unfold CheckCapability. by rewrite CheckPeerCompatibility_sym. Qed.

(** the pairwise endpoint check is symmetric: both peers, evaluating it from
    their own side on the same metadata, reach the same verdict, reason and
    capability sets. *)
Theorem CheckEndpointCompatibility_sym local remote a b policy target :
  CheckEndpointCompatibility local remote a b policy target =
  CheckEndpointCompatibility remote local b a policy target.
Proof.
  unfold CheckEndpointCompatibility. rewrite (CheckPeerCompatibility_sym local).
  rewrite (orb_comm (negb (ValidMetadata a))), (Z.eqb_sym (md_kind a)), (eqd_sym (md_name a)),
    (Z.eqb_sym (md_role a)), (orb_comm (negb (md_scope a =? _))),
    (eqd_sym (rt_host (ep_runtime (md_identity a)))), (eqd_sym (md_value_type a)),
    (eqd_sym (md_request_type a)), (eqd_sym (md_response_type a)), (eqd_sym (md_feedback_type a)).
  repeat match goal with |- (if ?c then _ else _) = _ => destruct c eqn:?; [done|] end.
  bool_to_prop. assert (Hk : md_kind a = md_kind b) by congruence. rewrite Hk.
  rewrite CheckCapability_sym. done.
Qed.

Lemma land_lnot_0 required common :
  Z.land required (Z.lnot common) = 0 <-> Z.land required common = required.
Proof.
  split; intros H; apply Z.bits_inj'; intros i Hi.
  - apply (f_equal (fun z => Z.testbit z i)) in H. revert H.
    rewrite !Z.land_spec, Z.lnot_spec, Z.bits_0 by done.
    destruct (Z.testbit required i), (Z.testbit common i); auto.
  - apply (f_equal (fun z => Z.testbit z i)) in H. revert H.
    rewrite !Z.land_spec, Z.lnot_spec, Z.bits_0 by done.
    destruct (Z.testbit required i), (Z.testbit common i); auto.
Qed.

Lemma CheckCapability_common local remote required policy :
  Compatible (CheckCapability local remote required policy) = true ->
  Compatible (CheckPeerCompatibility local remote policy) = true /\
  forall i, 0 <= i -> Z.testbit required i = true ->
    Z.testbit (pf_capabilities local) i = true /\ Z.testbit (pf_capabilities remote) i = true /\
    Z.testbit KNOWN_CAPABILITIES i = true.
Proof.
  unfold CheckCapability. intros H. destruct (Compatible (CheckPeerCompatibility local remote policy)) eqn:Hp; simpl in H; [|congruence].
  split; [done|]. intros i Hi Hr. unfold Compatible in H at 1. simpl in H.
  destruct (Z.eqb_spec (Z.land required (Z.lnot (cr_common_capabilities (CheckPeerCompatibility local remote policy)))) 0)
    as [E|]; simpl in H; [|done].
  apply land_lnot_0 in E. apply (f_equal (fun z => Z.testbit z i)) in E.
  rewrite Z.land_spec, Hr in E. simpl in E.
  unfold CheckPeerCompatibility in E, Hp. repeat case_check; simpl in *; rewrite ?Z.bits_0 in E; try done.
  rewrite !Z.land_spec in E. bool_to_prop. auto.
Qed.

(** What a compatible verdict of the endpoint check guarantees. *)
Lemma CheckEndpointCompatibility_sound local remote a b policy target :
  Compatible (CheckEndpointCompatibility local remote a b policy target) = true ->
  Compatible (CheckPeerCompatibility local remote policy) = true /\
  ValidMetadata a = true /\ ValidMetadata b = true /\
  md_kind a = md_kind b /\ md_name a = md_name b /\ md_role a <> md_role b /\
  md_scope a = NetworkScope.REMOTE /\ md_scope b = NetworkScope.REMOTE /\
  rt_host (ep_runtime (md_identity a)) <> rt_host (ep_runtime (md_identity b)) /\
  TargetCapability target <> 0 /\
  Compatible (CheckCapability (receiver_profile (md_kind a) (md_role a) local)
    (receiver_profile (md_kind a) (md_role b) remote)
    (Z.lor (operation_capability (md_kind a)) (TargetCapability target)) policy) = true /\
  md_value_type a = md_value_type b /\ md_request_type a = md_request_type b /\
  md_response_type a = md_response_type b /\ md_feedback_type a = md_feedback_type b.
Proof.
  unfold CheckEndpointCompatibility. intros H.
  repeat match type of H with
  | Compatible (if ?c then _ else _) = true => destruct c eqn:?; [try (exfalso; done)|]
  end; bool_to_prop; try congruence.
  split_and!; auto.
Qed.

Lemma ValidMetadata_role m :
  ValidMetadata m = true -> md_role m = EndpointRole.PROVIDER \/ md_role m = EndpointRole.CONSUMER.
Proof.
  unfold ValidMetadata. intros H. case_check; [done|].
  repeat match goal with K : _ || _ = false |- _ => apply orb_false_iff in K as [? ?] end.
  destruct (Z.eqb_spec (md_role m) EndpointRole.PROVIDER); [auto|].
  destruct (Z.eqb_spec (md_role m) EndpointRole.CONSUMER); [auto|done].
Qed.

Lemma receiver_profile_testbit kind role p i :
  Z.testbit (pf_capabilities (receiver_profile kind role p)) i = true ->
  Z.testbit (pf_capabilities p) i = true \/
  (i = 4 /\ kind = EndpointKind.TOPIC /\ role = EndpointRole.CONSUMER /\ Z.testbit (pf_capabilities p) 12 = true).
Proof.
  unfold receiver_profile. case_check; [|auto]. simpl. rewrite Z.lor_spec. intros H.
  apply orb_true_iff in H as [H|H]; [auto|]. right. bool_to_prop.
  assert (i = 4) as ->.
  { change Capability.REMOTE_TOPIC with (2 ^ 4) in H. destruct (Z.eq_dec 4 i); [done|].
    destruct (Z.ltb_spec i 0); [by rewrite Z.testbit_neg_r in H|]. by rewrite Z.pow2_bits_false in H by done. }
  split_and!; auto. destruct (Z.testbit (pf_capabilities p) 12) eqn:E; [done|].
  exfalso. match goal with K : Z.land _ _ <> 0 |- _ => apply K end.
  apply Z.bits_inj'. intros j Hj. rewrite Z.land_spec, Z.bits_0.
  change Capability.REMOTE_TOPIC_RECEIVER with (2 ^ 12). destruct (Z.eq_dec 12 j) as [<-|]; [by rewrite E|].
  rewrite Z.pow2_bits_false by done. apply andb_false_r.
Qed.

(** when the Topic check declares a provider [a] on the local peer and an
    endpoint [b] on the remote peer compatible, the pair is routable in the sense
    of [CanRouteTopic], the network majors agree, the publishing peer advertises
    REMOTE_TOPIC, the receiving peer advertises REMOTE_TOPIC or the receive-only
    REMOTE_TOPIC_RECEIVER, and both advertise the target scope. *)
Theorem CheckTopicCompatibility_sound local remote a b policy target :
  md_role a = EndpointRole.PROVIDER ->
  Compatible (CheckKindCompatibility EndpointKind.TOPIC local remote a b policy target) = true ->
  CanRouteTopic a b true = true /\
  np_major (pf_network local) = np_major (pf_network remote) /\
  Z.testbit (pf_capabilities local) 4 = true /\
  (Z.testbit (pf_capabilities remote) 4 = true \/ Z.testbit (pf_capabilities remote) 12 = true) /\
  forall i, 0 <= i -> i <> 4 -> Z.testbit (TargetCapability target) i = true ->
    Z.testbit (pf_capabilities local) i = true /\ Z.testbit (pf_capabilities remote) i = true.
Proof.
  intros Hrole Hc. unfold CheckKindCompatibility in Hc. case_check; [done|].
  destruct (CheckEndpointCompatibility_sound _ _ _ _ _ _ Hc)
    as (Hpeer & Hva & Hvb & Hk & Hn & Hr & Hsa & Hsb & Hh & Ht & Hcap & Hty & _).
  rewrite Hc in Heqb0. simpl in Heqb0. bool_to_prop.
  assert (Hrb : md_role b = EndpointRole.CONSUMER).
  { destruct (ValidMetadata_role b Hvb); congruence. }
  apply CheckCapability_common in Hcap as [Hp Hbits].
  rewrite Heqb0 in Hbits. change (operation_capability EndpointKind.TOPIC) with (2 ^ 4) in Hbits.
  assert (Hneg : forall q, receiver_profile EndpointKind.TOPIC EndpointRole.PROVIDER q = q) by done.
  rewrite Hrole, Hneg, Hrb in Hbits.
  split_and!.
  - unfold CanRouteTopic. rewrite Hva, Hvb, Hrole, Hrb, Hsa, Hsb, <- Hk, Heqb0. simpl.
    by rewrite (bool_decide_eq_false_2 _ Hh), (bool_decide_eq_true_2 _ Hn), (bool_decide_eq_true_2 _ Hty).
  - unfold CheckPeerCompatibility in Hpeer. repeat case_check; try done. by bool_to_prop.
  - apply (Hbits 4); [done|]. by rewrite Z.lor_spec.
  - destruct (Hbits 4) as (_ & Hb4 & _); [done|by rewrite Z.lor_spec|].
    destruct (receiver_profile_testbit _ _ _ _ Hb4) as [|(_ & _ & _ & ?)]; auto.
  - intros i Hi Hi4 Hbit. destruct (Hbits i Hi) as (Hl & Hb4 & _).
    { by rewrite Z.lor_spec, Hbit, orb_true_r. }
    split; [done|]. destruct (receiver_profile_testbit _ _ _ _ Hb4) as [|(? & _)]; [done|lia].
Qed.

Definition sample_profile (caps : Z) : PeerProfile :=
  {| pf_framework := default_framework; pf_network := default_network; pf_capabilities := caps |}.

Lemma CheckTopicCompatibility_sound_witness :
  let a := sample_metadata 1 EndpointKind.TOPIC EndpointRole.PROVIDER in
  let b := sample_metadata 2 EndpointKind.TOPIC EndpointRole.CONSUMER in
  Compatible (CheckKindCompatibility EndpointKind.TOPIC (sample_profile 49) (sample_profile 4129) a b
    CompatibilityPolicy.NETWORK_PROTOCOL TargetScope.ENDPOINT) = true /\
  CanRouteTopic a b true = true.
Proof.
  intros a b.
  assert (H : Compatible (CheckKindCompatibility EndpointKind.TOPIC (sample_profile 49) (sample_profile 4129) a b
    CompatibilityPolicy.NETWORK_PROTOCOL TargetScope.ENDPOINT) = true) by (vm_compute; reflexivity).
  split; [exact H|]. exact (proj1 (CheckTopicCompatibility_sound _ _ a b _ _ eq_refl H)).
Defined.
