(* ===== verification/TopicProtocol.v ===== *)
(** * Topic datagrams

    [kcf/include/kcf/network/topic_protocol.hpp] and
    [kcf/src/network/topic_protocol.cpp]: the INTEREST/DATA packet, its
    validity, its big-endian encoding and the checked decoder. *)
From S2P Require Import Prelude Wire NetTypes NetWire.

Definition TOPIC_DATA_MAGIC := 0x4b434654.
Definition TOPIC_DATA_VERSION := 1.
Definition TOPIC_DATA_HEADER := 184.
Definition MAX_TOPIC_DATAGRAM := 1200.
Definition MAX_TOPIC_WIRE_PAYLOAD := 768.

(** [enum class TopicMessage : std::uint16_t] *)
Module TopicMessage.
Definition INTEREST := 1.
Definition DATA := 2.
End TopicMessage.

Record TopicPacket := {
  tp_kind : Z;
  tp_source : RemoteEndpointIdentity;
  tp_destination : RemoteEndpointIdentity;
  tp_source_session : Z;
  tp_destination_session : Z;
  tp_route_id : Z;
  tp_sequence : Z;
  tp_sample_sequence : Z;
  tp_type : TypeIdentity;
  tp_name : list Z;
  tp_payload : list Z
}.

(** The C++ field types. *)
Definition wf_packet (p : TopicPacket) : Prop :=
  is_u16 (tp_kind p) /\ wf_endpoint (tp_source p) /\ wf_endpoint (tp_destination p) /\
  is_u64 (tp_source_session p) /\ is_u64 (tp_destination_session p) /\ is_u64 (tp_route_id p) /\
  is_u64 (tp_sequence p) /\ is_u64 (tp_sample_sequence p) /\ wf_type (tp_type p) /\
  bytes (tp_name p) /\ bytes (tp_payload p).

Definition ValidTopicPacket (p : TopicPacket) : bool :=
  ValidEndpoint (tp_source p) && ValidEndpoint (tp_destination p) &&
  negb (rt_host (ep_runtime (tp_source p)) =?? rt_host (ep_runtime (tp_destination p))) &&
  negb (tp_source_session p =? 0) && negb (tp_destination_session p =? 0) && negb (tp_route_id p =? 0) &&
  ValidType (tp_type p) && (ty_payload_size (tp_type p) <=? MAX_TOPIC_WIRE_PAYLOAD) &&
  Text (tp_name p) 240 && (first_char (tp_name p) =? SLASH) &&
  (((tp_kind p =? TopicMessage.INTEREST) && (tp_sequence p =? 0) && (tp_sample_sequence p =? 0) &&
    (tp_payload p =?? [])) ||
   ((tp_kind p =? TopicMessage.DATA) && negb (tp_sequence p =? 0) && negb (tp_sample_sequence p =? 0) &&
    (vsize (tp_payload p) =? ty_payload_size (tp_type p)))).

(** The bytes [EncodeTopicPacket] writes. *)
Definition topic_wire (p : TopicPacket) : list Z :=
  wU TOPIC_DATA_MAGIC 4 ++ wU TOPIC_DATA_VERSION 2 ++ wU (tp_kind p) 2 ++
  wU (TOPIC_DATA_HEADER + vsize (tp_name p) + vsize (tp_payload p)) 2 ++ wU 0 2 ++
  wU (vsize (tp_name p)) 2 ++ wU (vsize (tp_payload p)) 2 ++
  wEndpoint (tp_source p) ++ wEndpoint (tp_destination p) ++
  wU (tp_source_session p) 8 ++ wU (tp_destination_session p) 8 ++ wU (tp_route_id p) 8 ++
  wU (tp_sequence p) 8 ++ wU (tp_sample_sequence p) 8 ++ wType (tp_type p) ++
  tp_name p ++ tp_payload p.

Definition EncodeTopicPacket (p : TopicPacket) : result (list Z) :=
  if MAX_TOPIC_WIRE_PAYLOAD <? ty_payload_size (tp_type p) then Err (- EMSGSIZE)
  else if negb (ValidTopicPacket p) then Err (- EINVAL)
  else Ok (topic_wire p).

(** The fixed-size part of the decoder: every read up to the type, in order,
    with the early returns between them.  [size] is the datagram length. *)
Definition dTopicHeader (size : Z) : dec (TopicPacket * Z * Z) :=
  let$ magic := dU 4 in
  guard$ magic =? TOPIC_DATA_MAGIC else - EPROTO in
  let$ version := dU 2 in
  guard$ version =? TOPIC_DATA_VERSION else - EPROTONOSUPPORT in
  let$ kind := dU 2 in
  let$ length := dU 2 in
  guard$ length =? size else - EPROTO in
  let$ reserved := dU 2 in
  guard$ reserved =? 0 else - EPROTO in
  let$ names := dU 2 in
  let$ payload := dU 2 in
  let$ source := dEndpoint in
  let$ destination := dEndpoint in
  let$ source_session := dU 8 in
  let$ destination_session := dU 8 in
  let$ route_id := dU 8 in
  let$ sequence := dU 8 in
  let$ sample_sequence := dU 8 in
  let$ type := dType in
  dret ({| tp_kind := kind; tp_source := source; tp_destination := destination;
           tp_source_session := source_session; tp_destination_session := destination_session;
           tp_route_id := route_id; tp_sequence := sequence; tp_sample_sequence := sample_sequence;
           tp_type := type; tp_name := []; tp_payload := [] |}, names, payload).

Definition with_text (p : TopicPacket) (name payload : list Z) : TopicPacket :=
  {| tp_kind := tp_kind p; tp_source := tp_source p; tp_destination := tp_destination p;
     tp_source_session := tp_source_session p; tp_destination_session := tp_destination_session p;
     tp_route_id := tp_route_id p; tp_sequence := tp_sequence p; tp_sample_sequence := tp_sample_sequence p;
     tp_type := tp_type p; tp_name := name; tp_payload := payload |}.

(** [data] is [None] for a null pointer. *)
Definition DecodeTopicPacket (data : option (list Z)) : result TopicPacket :=
  match data with
  | None => Err (- EMSGSIZE)
  | Some bs =>
      if (vsize bs <? TOPIC_DATA_HEADER) || (MAX_TOPIC_DATAGRAM <? vsize bs) then Err (- EMSGSIZE)
      else match dTopicHeader (vsize bs) (Reader bs true) with
      | Err c => Err c
      | Ok ((p, names, payload), r) =>
          if negb (ok r) || (240 <? names) || (MAX_TOPIC_WIRE_PAYLOAD <? payload) ||
             negb (names + payload =? vsize (left r)) then Err (- EPROTO)
          else
          let q := with_text p (take (Z.to_nat names) (left r))
                     (take (Z.to_nat payload) (drop (Z.to_nat names) (left r))) in
          if negb (ValidTopicPacket q) then Err (- EPROTO) else Ok q
      end
  end.

(** ** Round trips *)

(** The header the encoder writes, without the trailing name and payload. *)
Definition topic_head (p : TopicPacket) (size names payload : Z) : list Z :=
  wU TOPIC_DATA_MAGIC 4 ++ wU TOPIC_DATA_VERSION 2 ++ wU (tp_kind p) 2 ++ wU size 2 ++ wU 0 2 ++
  wU names 2 ++ wU payload 2 ++
  wEndpoint (tp_source p) ++ wEndpoint (tp_destination p) ++
  wU (tp_source_session p) 8 ++ wU (tp_destination_session p) 8 ++ wU (tp_route_id p) 8 ++
  wU (tp_sequence p) 8 ++ wU (tp_sample_sequence p) 8 ++ wType (tp_type p).

Lemma topic_wire_split p :
  topic_wire p = topic_head p (TOPIC_DATA_HEADER + vsize (tp_name p) + vsize (tp_payload p))
    (vsize (tp_name p)) (vsize (tp_payload p)) ++ tp_name p ++ tp_payload p.
Proof. unfold topic_wire, topic_head. by rewrite <- !app_assoc. Qed.

Lemma topic_head_vsize p a b c : wf_packet p -> vsize (topic_head p a b c) = TOPIC_DATA_HEADER.
Proof.
  intros (_ & Hs & Hd & _). unfold topic_head. autorewrite with kcf. reflexivity.
Qed.

Lemma ValidTopicPacket_bounds p :
  wf_packet p -> ValidTopicPacket p = true ->
  0 <= rt_pid (ep_runtime (tp_source p)) /\ 0 <= rt_pid (ep_runtime (tp_destination p)) /\
  vsize (tp_name p) <= 240 /\ vsize (tp_payload p) <= MAX_TOPIC_WIRE_PAYLOAD.
Proof.
  intros Hwf H. unfold ValidTopicPacket in H.
  apply andb_true_iff in H as [H Hk]. bool_to_prop.
  split_and!; auto with wire; [by eapply Text_size|].
  apply orb_true_iff in Hk as [Hk|Hk]; bool_to_prop; [|lia].
  match goal with K : tp_payload p = [] |- _ => rewrite K end. done.
Qed.

Lemma reads_topic_header p size names payload :
  wf_packet p -> ValidTopicPacket p = true -> is_u16 size -> is_u16 names -> is_u16 payload ->
  reads (dTopicHeader size) (topic_head p size names payload) (with_text p [] [], names, payload).
Proof.
  intros Hwf Hv Hs Hn Hp.
  destruct (ValidTopicPacket_bounds p Hwf Hv) as (? & ? & _).
  destruct Hwf as (? & ? & ? & ? & ? & ? & ? & ? & ? & _).
  unfold dTopicHeader, topic_head. do 6 read_step.
  eapply reads_guard; [by apply Z.eqb_eq|]. do 11 read_step. eapply reads_last; [by apply reads_Type|]. apply reads_ret.
Qed.

Lemma EncodeTopicPacket_Ok p bs :
  EncodeTopicPacket p = Ok bs -> ValidTopicPacket p = true /\ bs = topic_wire p.
Proof. unfold EncodeTopicPacket. intros H. repeat case_check; simplify_eq. by bool_to_prop. Qed.

(** decoding inverts encoding: every Topic packet the encoder accepts is sent
    in at most one 1200-byte datagram, and the decoder gives the same packet
    back. *)
Lemma topic_packet_roundtrip p bs :
  wf_packet p -> EncodeTopicPacket p = Ok bs ->
  vsize bs <= MAX_TOPIC_DATAGRAM /\ DecodeTopicPacket (Some bs) = Ok p.
Proof.
  intros Hwf [Hv ->]%EncodeTopicPacket_Ok.
  destruct (ValidTopicPacket_bounds p Hwf Hv) as (_ & _ & Hn & Hp).
  pose proof (vsize_nonneg (tp_name p)). pose proof (vsize_nonneg (tp_payload p)).
  unfold MAX_TOPIC_WIRE_PAYLOAD in *.
  assert (Hsz : vsize (topic_wire p) = TOPIC_DATA_HEADER + vsize (tp_name p) + vsize (tp_payload p)).
  { rewrite topic_wire_split, !vsize_app, topic_head_vsize by done. lia. }
  unfold DecodeTopicPacket. rewrite Hsz. unfold TOPIC_DATA_HEADER, MAX_TOPIC_DATAGRAM in *.
  split; [lia|].
  destruct (Z.ltb_spec (184 + vsize (tp_name p) + vsize (tp_payload p)) 184); [lia|].
  destruct (Z.ltb_spec 1200 (184 + vsize (tp_name p) + vsize (tp_payload p))); [lia|]. cbn [orb].
  rewrite topic_wire_split.
  rewrite (reads_topic_header p _ _ _ Hwf Hv) by (unfold TOPIC_DATA_HEADER; unfold_widths; lia).
  cbn [ok left]. rewrite vsize_app, Z.eqb_refl. unfold MAX_TOPIC_WIRE_PAYLOAD.
  destruct (Z.ltb_spec 240 (vsize (tp_name p))); [lia|].
  destruct (Z.ltb_spec 768 (vsize (tp_payload p))); [lia|]. cbn [orb negb].
  unfold vsize. rewrite !Nat2Z.id, take_app_length, drop_app_length, take_ge by lia.
  replace (with_text _ _ _) with p by by destruct p. by rewrite Hv.
Qed.

Lemma consumes_topic_header size :
  consumes (dTopicHeader size) (fun pre '(p, names, payload) =>
    pre = topic_head p size names payload /\ is_u16 names /\ is_u16 payload /\
    tp_name p = [] /\ tp_payload p = [] /\ wf_packet p).
Proof.
  unfold dTopicHeader. eapply consumes_weaken; [repeat consume_step|].
  intros pre [[p names] payload] _ H. consumed. simplify_eq. bool_to_prop. subst.
  unfold topic_head, wf_packet. cbn -[wU wEndpoint wType Z.pow Z.le Z.lt].
  rewrite ?app_nil_r, ?app_nil_l. split_and!; try done; try width; constructor.
Qed.

(** the Topic wire format is canonical: whatever datagram the decoder accepts
    is byte for byte what the encoder produces for the packet it returned, so no
    two accepted datagrams carry the same packet. *)
Lemma topic_packet_canonical bs p :
  bytes bs -> DecodeTopicPacket (Some bs) = Ok p ->
  wf_packet p /\ EncodeTopicPacket p = Ok bs.
Proof.
  intros Hb H. unfold DecodeTopicPacket in H. case_check; [done|].
  destruct (dTopicHeader _ _) as [[[[q names] payload] r]|] eqn:Hd; [|done].
  destruct (consumes_topic_header _ _ _ _ Hd Hb) as [Hbl K].
  repeat case_check; simplify_eq. bool_to_prop.
  destruct K as (_ & pre & Hl & -> & Hn & Hp & _ & _ & Hwf); [done|]. cbn [left] in Hl.
  set (name := take (Z.to_nat names) (left r)) in *.
  set (pay := take (Z.to_nat payload) (drop (Z.to_nat names) (left r))) in *.
  assert (vsize name = names /\ vsize pay = payload /\ left r = name ++ pay) as (Hns & Hps & Hr).
  { unfold name, pay, vsize in *. rewrite !length_take, length_drop. unfold_widths.
    split_and!; try lia. rewrite (take_ge (drop _ _)) by (rewrite length_drop; lia). by rewrite take_drop. }
  assert (Hbn : bytes name /\ bytes pay) by (rewrite Hr in Hbl; by apply bytes_app).
  split.
  { unfold wf_packet in *. cbn. tauto. }
  unfold EncodeTopicPacket. rewrite Heqb1. cbn [tp_type with_text negb].
  assert (Hps' : ty_payload_size (tp_type q) <= MAX_TOPIC_WIRE_PAYLOAD).
  { unfold ValidTopicPacket in Heqb1. bool_to_prop. done. }
  destruct (Z.ltb_spec MAX_TOPIC_WIRE_PAYLOAD (ty_payload_size (tp_type q))); [lia|]. f_equal.
  rewrite topic_wire_split. cbn [with_text tp_name tp_payload]. rewrite Hns, Hps, <- Hr, Hl. f_equal.
  assert (Hsz : TOPIC_DATA_HEADER + names + payload = vsize bs).
  { rewrite Hl, vsize_app, topic_head_vsize by done. lia. }
  by rewrite Hsz.
Qed.

(** A DATA packet of two bytes between two hosts. *)
Definition sample_packet : TopicPacket :=
  {| tp_kind := TopicMessage.DATA; tp_source := sample_endpoint 1; tp_destination := sample_endpoint 2;
     tp_source_session := 21; tp_destination_session := 22; tp_route_id := 23; tp_sequence := 300;
     tp_sample_sequence := 299; tp_type := sample_type; tp_name := sample_name; tp_payload := [7; 255] |}.

Lemma topic_packet_roundtrip_witness :
  exists bs, EncodeTopicPacket sample_packet = Ok bs /\ vsize bs = 188 /\
  DecodeTopicPacket (Some bs) = Ok sample_packet.
Proof.
  exists (topic_wire sample_packet).
  assert (H : EncodeTopicPacket sample_packet = Ok (topic_wire sample_packet)) by (vm_compute; reflexivity).
  split; [exact H|]. split; [vm_compute; reflexivity|].
  refine (proj2 (topic_packet_roundtrip sample_packet _ _ H)). solve_wf.
Defined.

Lemma topic_packet_canonical_witness :
  exists bs p, DecodeTopicPacket (Some bs) = Ok p /\ EncodeTopicPacket p = Ok bs.
Proof.
  exists (topic_wire sample_packet), sample_packet.
  assert (H : DecodeTopicPacket (Some (topic_wire sample_packet)) = Ok sample_packet) by (vm_compute; reflexivity).
  split; [exact H|]. refine (proj2 (topic_packet_canonical _ _ _ H)).
  vm_compute. repeat constructor; discriminate.
Defined.

(** The Topic codec is a bijection between packets and accepted datagrams: every packet
    the encoder accepts is sent in at most one 1200-byte datagram and decodes to itself,
    and a datagram the decoder accepts is byte for byte the encoding of the packet it
    returns, so no two accepted datagrams carry the same packet. *)
Theorem topic_packet_codec :
  (forall p bs, wf_packet p -> EncodeTopicPacket p = Ok bs ->
     vsize bs <= MAX_TOPIC_DATAGRAM /\ DecodeTopicPacket (Some bs) = Ok p) /\
  (forall bs p, bytes bs -> DecodeTopicPacket (Some bs) = Ok p ->
     wf_packet p /\ ValidTopicPacket p = true /\ EncodeTopicPacket p = Ok bs).
Proof.
  split; [exact topic_packet_roundtrip|]. intros bs p Hb H.
  destruct (topic_packet_canonical bs p Hb H) as [Hw He]. destruct (EncodeTopicPacket_Ok p bs He). auto.
Qed.
