(* ===== verification/DiscoveryProtocol.v ===== *)
(** * Discovery datagrams and metadata

    [kcf/include/kcf/network/discovery_protocol.hpp] and
    [kcf/src/network/discovery_protocol.cpp]: ANNOUNCE, METADATA_REQUEST and
    METADATA_RESPONSE packets, and the serialized endpoint metadata that the
    responses carry in chunks.  Allocation failure ([std::bad_alloc]) is not
    modelled. *)
From S2P Require Import Prelude Wire NetTypes NetWire Compatibility.

Definition DISCOVERY_MAGIC := 0x4b434644.
Definition DISCOVERY_VERSION := 2.
Definition DISCOVERY_HEADER_SIZE := 56.
Definition DISCOVERY_MAX_DATAGRAM := 1200.
Definition DISCOVERY_CHUNK_SIZE := 1024.
Definition DISCOVERY_MAX_METADATA := 256 * 1024.
Definition DISCOVERY_MAX_ENDPOINTS := 64.
Definition DISCOVERY_MAX_PEERS := 64.

(** [enum class DiscoveryMessage : std::uint16_t] *)
Module DiscoveryMessage.
Definition ANNOUNCE := 1.
Definition METADATA_REQUEST := 2.
Definition METADATA_RESPONSE := 3.
End DiscoveryMessage.

Definition default_profile : PeerProfile :=
  {| pf_framework := default_framework; pf_network := default_network; pf_capabilities := Capability.DISCOVERY |}.

Record DiscoveryPacket := {
  dp_kind : Z;
  dp_host : HostIdentity;
  dp_boot_id : HostIdentity;
  dp_session_id : Z;
  dp_sequence : Z;
  dp_revision : Z;
  dp_request_id : Z;
  dp_metadata_size : Z;
  dp_offset : Z;
  dp_endpoint_count : Z;
  dp_profile : PeerProfile;
  dp_chunk : list Z
}.
Definition wf_discovery (p : DiscoveryPacket) : Prop :=
  is_u16 (dp_kind p) /\ wf_host (dp_host p) /\ wf_host (dp_boot_id p) /\ is_u64 (dp_session_id p) /\
  is_u64 (dp_sequence p) /\ is_u64 (dp_revision p) /\ is_u64 (dp_request_id p) /\
  is_u32 (dp_metadata_size p) /\ is_u32 (dp_offset p) /\ is_u16 (dp_endpoint_count p) /\
  wf_profile (dp_profile p) /\ bytes (dp_chunk p).

Definition ValidDiscoveryPacket (p : DiscoveryPacket) : bool :=
  if negb (ValidHost (dp_host p)) || negb (ValidHost (dp_boot_id p)) || (dp_session_id p =? 0) ||
     (dp_revision p =? 0) then false
  else if dp_kind p =? DiscoveryMessage.ANNOUNCE then
    ValidProfile (dp_profile p) && negb (Z.land (pf_capabilities (dp_profile p)) Capability.DISCOVERY =? 0) &&
    negb (dp_sequence p =? 0) && (dp_request_id p =? 0) && (dp_offset p =? 0) && (dp_chunk p =?? []) &&
    (2 <=? dp_metadata_size p) && (dp_metadata_size p <=? DISCOVERY_MAX_METADATA) &&
    (dp_endpoint_count p <=? DISCOVERY_MAX_ENDPOINTS)
  else if dp_kind p =? DiscoveryMessage.METADATA_REQUEST then
    negb (dp_request_id p =? 0) && (dp_sequence p =? 0) && (dp_metadata_size p =? 0) &&
    (dp_endpoint_count p =? 0) && (dp_chunk p =?? []) &&
    (dp_offset p <? DISCOVERY_MAX_METADATA) && (dp_offset p mod DISCOVERY_CHUNK_SIZE =? 0)
  else if dp_kind p =? DiscoveryMessage.METADATA_RESPONSE then
    negb (dp_request_id p =? 0) && (dp_sequence p =? 0) && (dp_endpoint_count p =? 0) &&
    (2 <=? dp_metadata_size p) && (dp_metadata_size p <=? DISCOVERY_MAX_METADATA) &&
    (dp_offset p <? dp_metadata_size p) && (dp_offset p mod DISCOVERY_CHUNK_SIZE =? 0) &&
    (vsize (dp_chunk p) =? Z.min DISCOVERY_CHUNK_SIZE (dp_metadata_size p - dp_offset p))
  else false.

(** ** Packets *)
Definition discovery_size (p : DiscoveryPacket) : Z :=
  DISCOVERY_HEADER_SIZE +
  (if dp_kind p =? DiscoveryMessage.ANNOUNCE then 44
   else if dp_kind p =? DiscoveryMessage.METADATA_REQUEST then 20 else 24) + vsize (dp_chunk p).

Definition wProfile (p : PeerProfile) : list Z :=
  wU (fw_major (pf_framework p)) 2 ++ wU (fw_minor (pf_framework p)) 2 ++ wU (fw_patch (pf_framework p)) 2 ++
  wU (np_major (pf_network p)) 2 ++ wU (np_minor (pf_network p)) 2 ++ wU 0 2 ++ wU (pf_capabilities p) 8.

Definition discovery_body (p : DiscoveryPacket) : list Z :=
  if dp_kind p =? DiscoveryMessage.ANNOUNCE then
    wU (dp_sequence p) 8 ++ wU (dp_revision p) 8 ++ wU (dp_metadata_size p) 4 ++ wU (dp_endpoint_count p) 2 ++
    wU 0 2 ++ wProfile (dp_profile p)
  else
    wU (dp_request_id p) 8 ++ wU (dp_revision p) 8 ++ wU (dp_offset p) 4 ++
    (if dp_kind p =? DiscoveryMessage.METADATA_RESPONSE then wU (dp_metadata_size p) 4 ++ dp_chunk p else []).

Definition discovery_head (kind size : Z) (host boot : HostIdentity) (session : Z) : list Z :=
  wU DISCOVERY_MAGIC 4 ++ wU DISCOVERY_VERSION 2 ++ wU kind 2 ++ wU size 4 ++ wU 0 4 ++
  wHost host ++ wHost boot ++ wU session 8.

Definition EncodeDiscoveryPacket (p : DiscoveryPacket) : result (list Z) :=
  if negb (ValidDiscoveryPacket p) then Err (- EINVAL)
  else Ok (discovery_head (dp_kind p) (discovery_size p) (dp_host p) (dp_boot_id p) (dp_session_id p) ++
           discovery_body p).

Definition dDiscoveryHead (size : Z) : dec (Z * HostIdentity * HostIdentity * Z) :=
  let$ magic := dU 4 in
  guard$ magic =? DISCOVERY_MAGIC else - EPROTO in
  let$ version := dU 2 in
  guard$ version =? DISCOVERY_VERSION else - EPROTONOSUPPORT in
  let$ kind := dU 2 in
  let$ length := dU 4 in
  guard$ length =? size else - EMSGSIZE in
  let$ reserved := dU 4 in
  guard$ reserved =? 0 else - EPROTO in
  let$ host := dHost in
  let$ boot := dHost in
  let$ session := dU 8 in
  dret (kind, host, boot, session).

Definition dProfile : dec PeerProfile :=
  let$ fmajor := dU 2 in
  let$ fminor := dU 2 in
  let$ fpatch := dU 2 in
  let$ nmajor := dU 2 in
  let$ nminor := dU 2 in
  let$ reserved := dU 2 in
  guard$ reserved =? 0 else - EPROTO in
  let$ caps := dU 8 in
  dret {| pf_framework := {| fw_major := fmajor; fw_minor := fminor; fw_patch := fpatch |};
          pf_network := {| np_major := nmajor; np_minor := nminor |}; pf_capabilities := caps |}.

(** [p.chunk.assign(r.p,r.p+r.left); r.left=0;] when [r.ok]. *)
Definition dRest : dec (list Z) := fun r =>
  if ok r then Ok (left r, Reader [] true) else Ok ([], r).
Definition dLeftGuard (maximum code : Z) : dec unit := fun r =>
  if maximum <? vsize (left r) then Err code else Ok (tt, r).

Definition dDiscoveryBody (kind : Z) (host boot : HostIdentity) (session : Z) : dec DiscoveryPacket :=
  if kind =? DiscoveryMessage.ANNOUNCE then
    let$ sequence := dU 8 in
    let$ revision := dU 8 in
    let$ metadata_size := dU 4 in
    let$ endpoint_count := dU 2 in
    let$ reserved := dU 2 in
    guard$ reserved =? 0 else - EPROTO in
    let$ profile := dProfile in
    dret {| dp_kind := kind; dp_host := host; dp_boot_id := boot; dp_session_id := session;
            dp_sequence := sequence; dp_revision := revision; dp_request_id := 0;
            dp_metadata_size := metadata_size; dp_offset := 0; dp_endpoint_count := endpoint_count;
            dp_profile := profile; dp_chunk := [] |}
  else if (kind =? DiscoveryMessage.METADATA_REQUEST) || (kind =? DiscoveryMessage.METADATA_RESPONSE) then
    let$ request_id := dU 8 in
    let$ revision := dU 8 in
    let$ offset := dU 4 in
    let$ tail := (if kind =? DiscoveryMessage.METADATA_RESPONSE then
                    let$ metadata_size := dU 4 in
                    let$ _ := dLeftGuard DISCOVERY_CHUNK_SIZE (- EMSGSIZE) in
                    let$ chunk := dRest in
                    dret (metadata_size, chunk)
                  else dret (0, [])) in
    dret {| dp_kind := kind; dp_host := host; dp_boot_id := boot; dp_session_id := session;
            dp_sequence := 0; dp_revision := revision; dp_request_id := request_id;
            dp_metadata_size := tail.1; dp_offset := offset; dp_endpoint_count := 0;
            dp_profile := default_profile; dp_chunk := tail.2 |}
  else (fun _ => Err (- EPROTO)).

Definition DecodeDiscoveryPacket (data : option (list Z)) : result DiscoveryPacket :=
  match data with
  | None => Err (- EINVAL)
  | Some bs =>
      if (vsize bs <? DISCOVERY_HEADER_SIZE) || (DISCOVERY_MAX_DATAGRAM <? vsize bs) then Err (- EMSGSIZE)
      else
      let? (p, r) := (let$ (kind, host, boot, session) := dDiscoveryHead (vsize bs) in
                      dDiscoveryBody kind host boot session) (Reader bs true) in
      if negb (ok r) || negb (left r =?? []) || negb (ValidDiscoveryPacket p) then Err (- EPROTO) else Ok p
  end.

(** ** Endpoint metadata *)

(** The loops over [endpoints]; [previous] are the entries already checked. *)
Fixpoint valid_endpoints (host boot : HostIdentity) (previous rest : list NetworkEndpointMetadata) : bool :=
  match rest with
  | [] => true
  | e :: es =>
      if negb (ValidMetadata e) || negb (rt_host (ep_runtime (md_identity e)) =?? host) ||
         negb (rt_boot_id (ep_runtime (md_identity e)) =?? boot) then false
      else if bool_decide (md_identity e ∈ (md_identity <$> previous)) then false
      else valid_endpoints host boot (previous ++ [e]) es
  end.
Definition ValidDiscoveryMetadata (endpoints : list NetworkEndpointMetadata) (host boot : HostIdentity) : bool :=
  if negb (ValidHost host) || negb (ValidHost boot) ||
     (DISCOVERY_MAX_ENDPOINTS <? Z.of_nat (length endpoints)) then false
  else valid_endpoints host boot [] endpoints.

Definition wMetadata (m : NetworkEndpointMetadata) : list Z :=
  wU (md_protocol_version m) 2 ++ wEndpoint (md_identity m) ++ wRuntime (md_application m) ++
  wU (md_kind m) 1 ++ wU (md_role m) 1 ++ wU (md_scope m) 1 ++ wU 0 1 ++
  wType (md_value_type m) ++ wType (md_request_type m) ++ wType (md_response_type m) ++ wType (md_feedback_type m) ++
  wString (md_host_name m) ++ wString (md_application_name m) ++ wString (md_element_name m) ++ wString (md_name m) ++
  wU (Z.of_nat (length (md_groups m))) 2 ++ flat_map wString (md_groups m).

(** The loop of the encoder: validity and the size bound are checked endpoint
    by endpoint on the bytes written so far. *)
Fixpoint encode_endpoints (written : list Z) (endpoints : list NetworkEndpointMetadata) : result (list Z) :=
  match endpoints with
  | [] => Ok written
  | m :: ms =>
      if negb (ValidMetadata m) then Err (- EINVAL)
      else let written := written ++ wMetadata m in
           if DISCOVERY_MAX_METADATA <? vsize written then Err (- E2BIG) else encode_endpoints written ms
  end.
Definition EncodeDiscoveryMetadata (endpoints : list NetworkEndpointMetadata) : result (list Z) :=
  if DISCOVERY_MAX_ENDPOINTS <? Z.of_nat (length endpoints) then Err (- E2BIG)
  else encode_endpoints (wU (Z.of_nat (length endpoints)) 2) endpoints.

(** [for(j=0; j<groups && r.ok; ++j) m.groups.push_back(r.String(128));] *)
Fixpoint dGroups (n : nat) : dec (list (list Z)) :=
  match n with
  | O => dret []
  | S k => fun r => if ok r then (let$ g := dString 128 in let$ gs := dGroups k in dret (g :: gs)) r
                    else Ok ([], r)
  end.

(** The [if(!r.ok || !Valid(m)) return -EPROTO;] that closes each iteration. *)
Definition dCheckMetadata (m : NetworkEndpointMetadata) : dec NetworkEndpointMetadata := fun r =>
  if negb (ok r) || negb (ValidMetadata m) then Err (- EPROTO) else Ok (m, r).

Definition dMetadata : dec NetworkEndpointMetadata :=
  let$ version := dU 2 in
  let$ identity := dEndpoint in
  let$ application := dRuntime in
  let$ kind := dU 1 in
  let$ role := dU 1 in
  let$ scope := dU 1 in
  let$ reserved := dU 1 in
  guard$ reserved =? 0 else - EPROTO in
  let$ value_type := dType in
  let$ request_type := dType in
  let$ response_type := dType in
  let$ feedback_type := dType in
  let$ host_name := dString 128 in
  let$ application_name := dString 128 in
  let$ element_name := dString 128 in
  let$ name := dString 240 in
  let$ groups := dU 2 in
  guard$ groups <=? 64 else - EPROTO in
  let$ gs := dGroups (Z.to_nat groups) in
  dCheckMetadata
    {| md_protocol_version := version; md_identity := identity; md_application := application;
       md_host_name := host_name; md_application_name := application_name; md_element_name := element_name;
       md_name := name; md_groups := gs; md_kind := kind; md_role := role; md_scope := scope;
       md_value_type := value_type; md_request_type := request_type; md_response_type := response_type;
       md_feedback_type := feedback_type |}.

Fixpoint dEndpoints (n : nat) : dec (list NetworkEndpointMetadata) :=
  match n with
  | O => dret []
  | S k => let$ m := dMetadata in let$ ms := dEndpoints k in dret (m :: ms)
  end.

Definition DecodeDiscoveryMetadata (data : option (list Z)) : result (list NetworkEndpointMetadata) :=
  match data with
  | None => Err (- EINVAL)
  | Some bs =>
      if (vsize bs <? 2) || (DISCOVERY_MAX_METADATA <? vsize bs) then Err (- EMSGSIZE)
      else
      let? (ms, r) := (let$ count := dU 2 in
                       guard$ count <=? DISCOVERY_MAX_ENDPOINTS else - E2BIG in
                       dEndpoints (Z.to_nat count)) (Reader bs true) in
      if negb (ok r) || negb (left r =?? []) then Err (- EPROTO) else Ok ms
  end.

(** ** Packet round trips *)

(** Only ANNOUNCE carries the profile; the decoder leaves its default in the
    other packets. *)
Definition normalize (p : DiscoveryPacket) : DiscoveryPacket :=
  if dp_kind p =? DiscoveryMessage.ANNOUNCE then p
  else {| dp_kind := dp_kind p; dp_host := dp_host p; dp_boot_id := dp_boot_id p;
          dp_session_id := dp_session_id p; dp_sequence := dp_sequence p; dp_revision := dp_revision p;
          dp_request_id := dp_request_id p; dp_metadata_size := dp_metadata_size p; dp_offset := dp_offset p;
          dp_endpoint_count := dp_endpoint_count p; dp_profile := default_profile; dp_chunk := dp_chunk p |}.

(** Evaluate the comparisons of concrete message kinds. *)
Ltac eval_kinds :=
  cbn [Z.eqb DiscoveryMessage.ANNOUNCE DiscoveryMessage.METADATA_REQUEST DiscoveryMessage.METADATA_RESPONSE
    Pos.eqb orb].

Lemma ValidDiscoveryPacket_normalize p : ValidDiscoveryPacket (normalize p) = ValidDiscoveryPacket p.
Proof.
  unfold normalize. destruct (dp_kind p =? DiscoveryMessage.ANNOUNCE) eqn:E; [done|].
  unfold ValidDiscoveryPacket. cbn [dp_kind dp_host dp_boot_id dp_session_id dp_revision]. by rewrite E.
Qed.

Lemma reads_Profile p : wf_profile p -> reads dProfile (wProfile p) p.
Proof.
  intros (? & ? & ? & ? & ? & ?). unfold dProfile, wProfile. do 7 read_step.
  eapply reads_last; [apply reads_U; [lia|width]|].
  destruct p as [[] [] ?]. apply reads_ret.
Qed.

Lemma consumes_Profile : consumes dProfile (fun pre p => pre = wProfile p /\ wf_profile p).
Proof.
  unfold dProfile. eapply consumes_weaken; [repeat consume_step|].
  intros pre p _ H. consumed. bool_to_prop. subst. unfold wProfile, wf_profile.
  cbn -[wU Z.pow Z.le Z.lt]. rewrite ?app_nil_r. split_and!; try done; width.
Qed.

Lemma consumes_Rest : consumes dRest (fun pre l => pre = l /\ bytes l).
Proof.
  intros r a r' Hd Hb. unfold dRest in Hd. destruct (ok r) eqn:E; simplify_eq/=.
  - split; [constructor|]. intros _. split; [done|]. exists (left r). by rewrite app_nil_r.
  - split; [done|]. congruence.
Qed.

Lemma consumes_LeftGuard maximum code : consumes (dLeftGuard maximum code) (fun pre _ => pre = []).
Proof. intros r a r' Hd Hb. unfold dLeftGuard in Hd. case_check; simplify_eq. split; [done|]. intros; split; [done|]. by exists []. Qed.

Lemma discovery_head_vsize kind size host boot session :
  wf_host host -> wf_host boot -> vsize (discovery_head kind size host boot session) = DISCOVERY_HEADER_SIZE.
Proof. intros Hh Hb. unfold discovery_head. by autorewrite with kcf. Qed.

Lemma wProfile_vsize p : vsize (wProfile p) = 20.
Proof. unfold wProfile. by autorewrite with kcf. Qed.

Lemma ValidDiscoveryPacket_kind p :
  ValidDiscoveryPacket p = true ->
  (dp_kind p = DiscoveryMessage.ANNOUNCE /\ dp_request_id p = 0 /\ dp_offset p = 0 /\ dp_chunk p = []) \/
  (dp_kind p = DiscoveryMessage.METADATA_REQUEST /\ dp_sequence p = 0 /\ dp_metadata_size p = 0 /\
   dp_endpoint_count p = 0 /\ dp_chunk p = []) \/
  (dp_kind p = DiscoveryMessage.METADATA_RESPONSE /\ dp_sequence p = 0 /\ dp_endpoint_count p = 0 /\
   vsize (dp_chunk p) <= DISCOVERY_CHUNK_SIZE).
Proof.
  unfold ValidDiscoveryPacket. intros H. repeat case_check; try done; bool_to_prop.
  - left. auto.
  - right; left. auto.
  - right; right. split_and!; auto. lia.
Qed.

Lemma discovery_packet_size p : wf_discovery p -> ValidDiscoveryPacket p = true ->
  vsize (discovery_body p) = discovery_size p - DISCOVERY_HEADER_SIZE /\
  DISCOVERY_HEADER_SIZE <= discovery_size p <= DISCOVERY_MAX_DATAGRAM.
Proof.
  intros Hwf Hv. unfold discovery_body, discovery_size, DISCOVERY_HEADER_SIZE, DISCOVERY_MAX_DATAGRAM.
  destruct (ValidDiscoveryPacket_kind p Hv) as [(-> & _ & _ & ->)|[(-> & _ & _ & _ & ->)|(-> & _ & _ & Hc)]];
    eval_kinds; autorewrite with kcf; rewrite ?wProfile_vsize; unfold DISCOVERY_CHUNK_SIZE in *;
    pose proof (vsize_nonneg (dp_chunk p)); lia.
Qed.

Lemma reads_discovery_head kind size host boot session :
  is_u16 kind -> is_u32 size -> wf_host host -> wf_host boot -> is_u64 session ->
  reads (dDiscoveryHead size) (discovery_head kind size host boot session) (kind, host, boot, session).
Proof.
  intros. unfold dDiscoveryHead, discovery_head. do 6 read_step.
  eapply reads_guard; [by apply Z.eqb_eq|]. do 4 read_step.
  eapply reads_last; [apply reads_U; [lia|width]|]. apply reads_ret.
Qed.

Lemma reads_discovery_body p :
  wf_discovery p -> ValidDiscoveryPacket p = true ->
  reads_all (dDiscoveryBody (dp_kind p) (dp_host p) (dp_boot_id p) (dp_session_id p))
    (discovery_body p) (normalize p).
Proof.
  intros (? & ? & ? & ? & ? & ? & ? & ? & ? & ? & ? & ?) Hv. unfold dDiscoveryBody, discovery_body, normalize.
  destruct (ValidDiscoveryPacket_kind p Hv)
    as [(Hk & E1 & E2 & E3)|[(Hk & E1 & E2 & E3 & E4)|(Hk & E1 & E2 & E3)]]; rewrite Hk; eval_kinds.
  - apply reads_reads_all. do 6 read_step. eapply reads_last; [by apply reads_Profile|].
    destruct p; simpl in *; subst. apply reads_ret.
  - apply reads_reads_all. do 3 read_step. eapply reads_last; [apply reads_ret|].
    destruct p; simpl in *; subst. apply reads_ret.
  - do 3 (eapply reads_all_bind; [apply reads_U; [lia|width]|]).
    rewrite <- (app_nil_r (_ ++ dp_chunk p)). unfold reads_all, dbind at 1.
    assert (Htail : reads_all
      (let$ metadata_size := dU 4 in
       let$ _ := dLeftGuard DISCOVERY_CHUNK_SIZE (- EMSGSIZE) in
       let$ chunk := dRest in dret (metadata_size, chunk))
      (wU (dp_metadata_size p) 4 ++ dp_chunk p) (dp_metadata_size p, dp_chunk p)).
    { eapply reads_all_bind; [apply reads_U; [lia|width]|].
      unfold reads_all, dbind, dLeftGuard, dRest. cbn [left ok].
      destruct (Z.ltb_spec DISCOVERY_CHUNK_SIZE (vsize (dp_chunk p))); [lia|]. done. }
    rewrite app_nil_r, Htail. destruct p; simpl in *; subst. done.
Qed.

Lemma EncodeDiscoveryPacket_Ok p bs :
  EncodeDiscoveryPacket p = Ok bs -> ValidDiscoveryPacket p = true /\
  bs = discovery_head (dp_kind p) (discovery_size p) (dp_host p) (dp_boot_id p) (dp_session_id p) ++ discovery_body p.
Proof. unfold EncodeDiscoveryPacket. intros H. case_check; simplify_eq. by bool_to_prop. Qed.

(** decoding inverts encoding for the three discovery messages, and every
    encoded packet fits one 1200-byte datagram; only ANNOUNCE transports the peer
    profile, the other messages come back with the default one. *)
Lemma discovery_packet_roundtrip p bs :
  wf_discovery p -> EncodeDiscoveryPacket p = Ok bs ->
  vsize bs <= DISCOVERY_MAX_DATAGRAM /\ DecodeDiscoveryPacket (Some bs) = Ok (normalize p).
Proof.
  intros Hwf [Hv ->]%EncodeDiscoveryPacket_Ok.
  destruct (discovery_packet_size p Hwf Hv) as [Hbody Hsize].
  pose proof (reads_discovery_body p Hwf Hv) as Hrb.
  destruct Hwf as (? & ? & ? & ? & _).
  assert (Hsz : vsize (discovery_head (dp_kind p) (discovery_size p) (dp_host p) (dp_boot_id p) (dp_session_id p) ++
    discovery_body p) = discovery_size p) by (rewrite vsize_app, discovery_head_vsize by done; lia).
  unfold DecodeDiscoveryPacket. rewrite Hsz. split; [lia|].
  destruct (Z.ltb_spec (discovery_size p) DISCOVERY_HEADER_SIZE); [lia|].
  destruct (Z.ltb_spec DISCOVERY_MAX_DATAGRAM (discovery_size p)); [lia|]. cbn [orb].
  rewrite (reads_all_bind _ _ _ _ (dp_kind p, dp_host p, dp_boot_id p, dp_session_id p) (normalize p)).
  - simpl. rewrite ValidDiscoveryPacket_normalize, Hv. done.
  - apply reads_discovery_head; auto. unfold DISCOVERY_MAX_DATAGRAM, DISCOVERY_HEADER_SIZE in *. width.
  - exact Hrb.
Qed.

Lemma consumes_discovery_head size :
  consumes (dDiscoveryHead size) (fun pre '(kind, host, boot, session) =>
    pre = discovery_head kind size host boot session /\ is_u16 kind /\ wf_host host /\ wf_host boot /\ is_u64 session).
Proof.
  unfold dDiscoveryHead. eapply consumes_weaken; [repeat consume_step|].
  intros pre [[[kind host] boot] session] _ H. consumed. simplify_eq. bool_to_prop. subst.
  unfold discovery_head. rewrite ?app_nil_r. split_and!; try done; width.
Qed.

Lemma consumes_discovery_body kind host boot session :
  consumes (dDiscoveryBody kind host boot session) (fun pre p =>
    pre = discovery_body p /\
    (is_u16 kind -> wf_host host -> wf_host boot -> is_u64 session -> wf_discovery p) /\
    dp_kind p = kind /\ dp_host p = host /\ dp_boot_id p = boot /\ dp_session_id p = session).
Proof.
  unfold dDiscoveryBody.
  destruct (kind =? DiscoveryMessage.ANNOUNCE) eqn:Ek.
  { eapply consumes_weaken.
    { do 6 consume_step. eapply consumes_bind; [apply consumes_Profile|intro]. consume_step. }
    intros pre p _ H. consumed. bool_to_prop. subst. unfold discovery_body, wf_discovery.
    cbn -[wU wProfile Z.pow Z.le Z.lt]. rewrite app_nil_r.
    split_and!; try done. intros. split_and!; try done; try width; constructor. }
  destruct (_ || _) eqn:Eor; [|done].
  eapply consumes_weaken.
  { do 3 consume_step. eapply consumes_bind; [|intro; consume_step].
    instantiate (1 := fun pre tail => pre = (if kind =? DiscoveryMessage.METADATA_RESPONSE
      then wU tail.1 4 ++ tail.2 else []) /\ is_u32 tail.1 /\ bytes tail.2).
    case_check.
    - eapply consumes_weaken.
      { consume_step. eapply consumes_bind; [apply consumes_LeftGuard|intro].
        eapply consumes_bind; [apply consumes_Rest|intro]. consume_step. }
      intros pre [] _ H. consumed. simplify_eq. simpl. rewrite ?app_nil_r. split_and!; try done; width.
    - eapply consumes_weaken; [consume_step|]. intros pre [] _ H. consumed. simplify_eq.
      split_and!; try done; try width. constructor. }
  intros pre p _ H. consumed. unfold discovery_body, wf_discovery.
  cbn -[wU Z.pow Z.le Z.lt Z.eqb]. rewrite Ek, app_nil_r.
  split_and!; try done. intros. split_and!; try done; try width; solve_wf.
Qed.

Lemma consumes_discovery size :
  consumes (let$ (kind, host, boot, session) := dDiscoveryHead size in dDiscoveryBody kind host boot session)
    (fun pre p => wf_discovery p /\
      pre = discovery_head (dp_kind p) size (dp_host p) (dp_boot_id p) (dp_session_id p) ++ discovery_body p).
Proof.
  eapply consumes_weaken.
  { apply (consumes_bind _ _ _ (fun '(kind, host, boot, session) pre p => pre = discovery_body p /\
      (is_u16 kind -> wf_host host -> wf_host boot -> is_u64 session -> wf_discovery p) /\
      dp_kind p = kind /\ dp_host p = host /\ dp_boot_id p = boot /\ dp_session_id p = session)
      (consumes_discovery_head size)).
    intros [[[kind host] boot] session]. apply consumes_discovery_body. }
  intros pre p _ ([[[kind host] boot] session] & p1 & p2 & -> & (-> & ? & ? & ? & ?) &
    -> & Hwf & <- & <- & <- & <-). auto.
Qed.

(** the discovery wire format is canonical: a datagram the decoder accepts is
    exactly what the encoder produces for the decoded packet. *)
Lemma discovery_packet_canonical bs p :
  bytes bs -> DecodeDiscoveryPacket (Some bs) = Ok p ->
  wf_discovery p /\ EncodeDiscoveryPacket p = Ok bs.
Proof.
  intros Hb H. unfold DecodeDiscoveryPacket in H. case_check; [done|].
  destruct (dbind _ _ _) as [[q r]|] eqn:Hd; [|done]. simpl in H. case_check; simplify_eq. bool_to_prop.
  destruct (consumes_discovery _ _ _ _ Hd Hb) as [_ (_ & pre & Hl & Hw & ->)]; [done|].
  split; [done|].
  match goal with E : ValidDiscoveryPacket p = true |- _ => rename E into Hv end.
  destruct (discovery_packet_size p Hw Hv) as [Hbody _].
  match goal with E : left r = [] |- _ => rewrite E, app_nil_r in Hl end. cbn [left] in Hl.
  assert (Hsz : discovery_size p = vsize bs).
  { rewrite Hl, vsize_app, discovery_head_vsize by apply Hw. lia. }
  unfold EncodeDiscoveryPacket. by rewrite Hv, Hsz, <- Hl.
Qed.

Definition sample_announce : DiscoveryPacket :=
  {| dp_kind := DiscoveryMessage.ANNOUNCE; dp_host := sample_host 1; dp_boot_id := sample_host 2;
     dp_session_id := 9; dp_sequence := 4; dp_revision := 1; dp_request_id := 0; dp_metadata_size := 2;
     dp_offset := 0; dp_endpoint_count := 0; dp_profile := default_profile; dp_chunk := [] |}.

Lemma discovery_packet_roundtrip_witness :
  exists bs, EncodeDiscoveryPacket sample_announce = Ok bs /\ vsize bs = 100 /\
  DecodeDiscoveryPacket (Some bs) = Ok sample_announce.
Proof.
  eexists. split; [vm_compute; reflexivity|]. split; [vm_compute; reflexivity|].
  refine (proj2 (discovery_packet_roundtrip sample_announce _ _ _)); [solve_wf|vm_compute; reflexivity].
Defined.

Lemma discovery_packet_canonical_witness :
  exists bs, DecodeDiscoveryPacket (Some bs) = Ok sample_announce /\ EncodeDiscoveryPacket sample_announce = Ok bs.
Proof.
  exists (discovery_head 1 100 (sample_host 1) (sample_host 2) 9 ++ discovery_body sample_announce).
  assert (H : DecodeDiscoveryPacket (Some (discovery_head 1 100 (sample_host 1) (sample_host 2) 9 ++
    discovery_body sample_announce)) = Ok sample_announce) by (vm_compute; reflexivity).
  split; [exact H|]. refine (proj2 (discovery_packet_canonical _ _ _ H)).
  vm_compute. repeat constructor; discriminate.
Defined.

(** ** Metadata round trips *)
Lemma reads_Groups gs :
  Forall (fun g => bytes g /\ vsize g <= 128) gs -> reads (dGroups (length gs)) (flat_map wString gs) gs.
Proof.
  induction 1 as [|g gs [Hg Hl] Hgs IH]; [apply reads_ret|]. cbn [length dGroups flat_map].
  intros rest. cbn [ok]. revert rest. change (reads (let$ g := dString 128 in let$ gs := dGroups (length gs) in dret (g :: gs))
    (wString g ++ flat_map wString gs) (g :: gs)).
  eapply reads_bind; [apply reads_String; auto; unfold UINT16_MAX; lia|].
  eapply reads_last; [exact IH|]. apply reads_ret.
Qed.

Lemma consumes_Groups n :
  consumes (dGroups n) (fun pre gs => pre = flat_map wString gs /\ length gs = n /\ Forall bytes gs).
Proof.
  induction n as [|n IH]; cbn [dGroups].
  { eapply consumes_weaken; [apply consumes_ret|]. intros pre gs _ [-> ->]. by repeat constructor. }
  intros r gs r' Hd Hb. destruct (ok r) eqn:Eok; [|by simplify_eq; split; [|congruence]].
  assert (Hc : consumes (let$ g := dString 128 in let$ gs := dGroups n in dret (g :: gs))
    (fun pre gs => pre = flat_map wString gs /\ length gs = S n /\ Forall bytes gs)).
  { eapply consumes_weaken.
    { eapply consumes_bind; [apply consumes_String; unfold UINT16_MAX; lia|intro].
      eapply consumes_bind; [apply IH|intro]. apply consumes_ret. }
    intros pre l _ H. consumed. rewrite app_nil_r. split_and!; auto. }
  destruct (Hc _ _ _ Hd Hb) as [? K]. split; [done|]. intros Hok. destruct (K Hok) as [_ ?]. done.
Qed.

Lemma ValidMetadata_bounds m :
  ValidMetadata m = true ->
  0 <= rt_pid (ep_runtime (md_identity m)) /\ 0 <= rt_pid (md_application m) /\
  vsize (md_host_name m) <= 128 /\ vsize (md_application_name m) <= 128 /\
  vsize (md_element_name m) <= 128 /\ vsize (md_name m) <= 240 /\
  Z.of_nat (length (md_groups m)) <= 64 /\ Forall (fun g => vsize g <= 128) (md_groups m).
Proof.
  unfold ValidMetadata. intros H.
  destruct (negb (md_protocol_version m =? PROTOCOL_VERSION) || _ || _ || _ || _ || _ || _ || _ || _) eqn:E1; [done|].
  destruct (if md_application m =?? no_runtime then _ else _) eqn:E2 in H; [done|].
  destruct (negb (ValidGroups [] (md_groups m))) eqn:E3; [done|]. bool_to_prop.
  assert (Hg : Forall (fun g => vsize g <= 128) (md_groups m)).
  { destruct (ValidGroups_spec [] (md_groups m)) as [_ Hall]; [done|constructor|].
    eapply Forall_impl; [exact Hall|]. intros g Hg. apply Text_size in Hg. lia. }
  clear H. split_and!; auto with wire; try (by eapply Text_size).
  - destruct (md_application m =?? no_runtime) eqn:E4; bool_to_prop; auto with wire. by rewrite E4.
  - destruct (decide (md_host_name m = [])) as [->|Hne]; [done|].
    rewrite (bool_decide_eq_false_2 _ Hne) in H4. simpl in H4. bool_to_prop. by eapply Text_size.
  - destruct (md_application m =?? no_runtime) eqn:E4; bool_to_prop; [by rewrite E2|by eapply Text_size].
Qed.

Lemma reads_Metadata m : wf_metadata m -> ValidMetadata m = true -> reads dMetadata (wMetadata m) m.
Proof.
  intros (? & ? & ? & ? & ? & ? & ? & Hg & ? & ? & ? & ? & ? & ? & ?) Hv.
  destruct (ValidMetadata_bounds m Hv) as (? & ? & ? & ? & ? & ? & Hgl & Hgs).
  unfold dMetadata, wMetadata. do 12 read_step.
  do 4 (eapply reads_bind; [apply reads_String; auto; unfold UINT16_MAX; lia|]).
  eapply reads_bind; [apply reads_U; [lia|width]|]. apply reads_guard; [by apply Z.leb_le|].
  rewrite Nat2Z.id. eapply reads_last; [apply reads_Groups|].
  { apply Forall_and. auto. }
  intros rest. unfold dCheckMetadata. cbn [ok].
  replace (Build_NetworkEndpointMetadata _ _ _ _ _ _ _ _ _ _ _ _ _ _ _) with m by by destruct m.
  by rewrite Hv.
Qed.

Lemma consumes_CheckMetadata m :
  consumes (dCheckMetadata m) (fun pre x => pre = [] /\ x = m /\ ValidMetadata m = true).
Proof.
  intros r x r' Hd Hb. unfold dCheckMetadata in Hd. case_check; simplify_eq. bool_to_prop.
  split; [done|]. intros _. split; [done|]. by exists [].
Qed.

Lemma consumes_Metadata :
  consumes dMetadata (fun pre m => pre = wMetadata m /\ wf_metadata m /\ ValidMetadata m = true).
Proof.
  unfold dMetadata. eapply consumes_weaken.
  { repeat consume_step. eapply consumes_bind; [apply consumes_Groups|intro]. apply consumes_CheckMetadata. }
  intros pre m _ H. consumed. bool_to_prop. subst. unfold wMetadata, wf_metadata.
  cbn -[wU wEndpoint wRuntime wType wString Z.pow Z.le Z.lt ValidMetadata].
  rewrite app_nil_r. repeat match goal with K : length _ = Z.to_nat ?n |- _ => rewrite K, Z2Nat.id by lia; clear K end.
  split_and!; try done; width.
Qed.

Lemma reads_Endpoints ms :
  Forall (fun m => wf_metadata m /\ ValidMetadata m = true) ms ->
  reads (dEndpoints (length ms)) (flat_map wMetadata ms) ms.
Proof.
  induction 1 as [|m ms [Hwf Hv] Hms IH]; [apply reads_ret|]. cbn [length dEndpoints flat_map].
  eapply reads_bind; [by apply reads_Metadata|]. eapply reads_last; [exact IH|]. apply reads_ret.
Qed.

Lemma consumes_Endpoints n :
  consumes (dEndpoints n) (fun pre ms => pre = flat_map wMetadata ms /\ length ms = n /\
    Forall (fun m => wf_metadata m /\ ValidMetadata m = true) ms).
Proof.
  induction n as [|n IH]; cbn [dEndpoints].
  { eapply consumes_weaken; [apply consumes_ret|]. intros pre gs _ [-> ->]. by repeat constructor. }
  eapply consumes_weaken.
  { eapply consumes_bind; [apply consumes_Metadata|intro]. eapply consumes_bind; [apply IH|intro]. apply consumes_ret. }
  intros pre l _ H. consumed. rewrite app_nil_r. split_and!; auto.
Qed.

Lemma encode_endpoints_Ok written ms bs :
  encode_endpoints written ms = Ok bs ->
  Forall (fun m => ValidMetadata m = true) ms /\ bs = written ++ flat_map wMetadata ms /\
  (ms <> [] -> vsize bs <= DISCOVERY_MAX_METADATA).
Proof.
  revert written. induction ms as [|m ms IH]; intros written H; cbn [encode_endpoints flat_map] in *.
  { simplify_eq. by rewrite app_nil_r. }
  repeat case_check; simplify_eq. bool_to_prop. apply IH in H as (Hall & -> & Hsz).
  rewrite <- app_assoc. split_and!; auto. intros _. destruct ms; [|rewrite app_assoc; by apply Hsz].
  cbn [flat_map]. by rewrite app_nil_r.
Qed.

Lemma encode_endpoints_fits written ms :
  Forall (fun m => ValidMetadata m = true) ms ->
  vsize (written ++ flat_map wMetadata ms) <= DISCOVERY_MAX_METADATA ->
  encode_endpoints written ms = Ok (written ++ flat_map wMetadata ms).
Proof.
  intros Hall. revert written. induction Hall as [|m ms Hm Hms IH]; intros written Hsz;
    cbn [encode_endpoints flat_map] in *; [by rewrite app_nil_r|].
  rewrite Hm. cbn [negb]. rewrite app_assoc in Hsz. rewrite app_assoc.
  destruct (Z.ltb_spec DISCOVERY_MAX_METADATA (vsize (written ++ wMetadata m))) as [Hlt|_]; [|by apply IH].
  rewrite vsize_app in Hsz. pose proof (vsize_nonneg (flat_map wMetadata ms)). lia.
Qed.

Lemma reads_metadata_list ms :
  Forall (fun m => wf_metadata m /\ ValidMetadata m = true) ms -> Z.of_nat (length ms) <= DISCOVERY_MAX_ENDPOINTS ->
  reads_all (let$ count := dU 2 in
             guard$ count <=? DISCOVERY_MAX_ENDPOINTS else - E2BIG in dEndpoints (Z.to_nat count))
    (wU (Z.of_nat (length ms)) 2 ++ flat_map wMetadata ms) ms.
Proof.
  intros Hms Hl. unfold DISCOVERY_MAX_ENDPOINTS in *. apply reads_reads_all.
  eapply reads_bind; [apply reads_U; [lia|width]|]. apply reads_guard; [by apply Z.leb_le|].
  rewrite Nat2Z.id. by apply reads_Endpoints.
Qed.

(** the endpoint metadata a peer serializes (names, groups, types, identities
    of up to 64 endpoints) is reconstructed exactly by the receiving peer. *)
Lemma discovery_metadata_roundtrip ms bs :
  Forall wf_metadata ms -> EncodeDiscoveryMetadata ms = Ok bs ->
  DecodeDiscoveryMetadata (Some bs) = Ok ms.
Proof.
  intros Hwf H. unfold EncodeDiscoveryMetadata in H. case_check; [done|]. bool_to_prop.
  apply encode_endpoints_Ok in H as (Hv & -> & Hsz).
  unfold DecodeDiscoveryMetadata.
  assert (vsize (wU (Z.of_nat (length ms)) 2 ++ flat_map wMetadata ms) <= DISCOVERY_MAX_METADATA).
  { destruct ms; [done|]. by apply Hsz. }
  assert (2 <= vsize (wU (Z.of_nat (length ms)) 2 ++ flat_map wMetadata ms)).
  { rewrite vsize_app, wU_vsize. pose proof (vsize_nonneg (flat_map wMetadata ms)). lia. }
  destruct (Z.ltb_spec (vsize (wU (Z.of_nat (length ms)) 2 ++ flat_map wMetadata ms)) 2); [lia|].
  destruct (Z.ltb_spec DISCOVERY_MAX_METADATA (vsize (wU (Z.of_nat (length ms)) 2 ++ flat_map wMetadata ms))); [lia|].
  cbn [orb]. rewrite reads_metadata_list; [done|by apply Forall_and|done].
Qed.

(** decoded metadata is well typed, every endpoint in it passes the metadata
    validity check, there are at most 64 of them, and re-encoding gives back the
    received bytes. *)
Lemma discovery_metadata_canonical bs ms :
  bytes bs -> DecodeDiscoveryMetadata (Some bs) = Ok ms ->
  Forall (fun m => wf_metadata m /\ ValidMetadata m = true) ms /\
  Z.of_nat (length ms) <= DISCOVERY_MAX_ENDPOINTS /\ EncodeDiscoveryMetadata ms = Ok bs.
Proof.
  intros Hb H. unfold DecodeDiscoveryMetadata in H. case_check; [done|].
  destruct (dbind _ _ _) as [[q r]|] eqn:Hd; [|done]. simpl in H. case_check; simplify_eq. bool_to_prop.
  assert (Hc : consumes (let$ count := dU 2 in
    guard$ count <=? DISCOVERY_MAX_ENDPOINTS else - E2BIG in dEndpoints (Z.to_nat count))
    (fun pre ms => pre = wU (Z.of_nat (length ms)) 2 ++ flat_map wMetadata ms /\
      Z.of_nat (length ms) <= DISCOVERY_MAX_ENDPOINTS /\
      Forall (fun m => wf_metadata m /\ ValidMetadata m = true) ms)).
  { eapply consumes_weaken; [do 2 consume_step; apply consumes_Endpoints|].
    intros pre l _ K. consumed. bool_to_prop.
    match goal with K : length _ = Z.to_nat ?n |- _ => rewrite K, Z2Nat.id by lia end. auto. }
  destruct (Hc _ _ _ Hd Hb) as [_ (_ & pre & Hl & -> & Hlen & Hall)]; [done|].
  match goal with E : left r = [] |- _ => rewrite E, app_nil_r in Hl end. cbn [left] in Hl.
  split_and!; auto. unfold EncodeDiscoveryMetadata.
  destruct (Z.ltb_spec DISCOVERY_MAX_ENDPOINTS (Z.of_nat (length ms))); [lia|].
  rewrite encode_endpoints_fits; [by rewrite Hl| |by rewrite <- Hl].
  eapply Forall_impl; [exact Hall|]. by intros m [_ ?].
Qed.

Lemma discovery_metadata_roundtrip_witness :
  let ms := [sample_metadata 1 EndpointKind.TOPIC EndpointRole.PROVIDER] in
  exists bs, EncodeDiscoveryMetadata ms = Ok bs /\ DecodeDiscoveryMetadata (Some bs) = Ok ms.
Proof.
  eexists. split; [vm_compute; reflexivity|].
  apply discovery_metadata_roundtrip; [|vm_compute; reflexivity].
  constructor; [|constructor]. solve_wf.
Defined.

Lemma discovery_metadata_canonical_witness :
  let ms := [sample_metadata 1 EndpointKind.TOPIC EndpointRole.PROVIDER] in
  exists bs, DecodeDiscoveryMetadata (Some bs) = Ok ms /\ EncodeDiscoveryMetadata ms = Ok bs.
Proof.
  intros ms. exists (wU 1 2 ++ flat_map wMetadata ms).
  assert (H : DecodeDiscoveryMetadata (Some (wU 1 2 ++ flat_map wMetadata ms)) = Ok ms) by (vm_compute; reflexivity).
  split; [exact H|]. refine (proj2 (proj2 (discovery_metadata_canonical _ _ _ H))).
  vm_compute. repeat constructor; discriminate.
Defined.

(** ** The codec as a whole *)

(** The discovery codec is a bijection between packets and accepted datagrams: what
    the encoder produces fits one 1200-byte datagram and decodes to the packet (only
    ANNOUNCE transports the profile, the other messages come back with the default
    one), and a datagram the decoder accepts is exactly what the encoder produces for
    the packet it returns. *)
Theorem discovery_packet_codec :
  (forall p bs, wf_discovery p -> EncodeDiscoveryPacket p = Ok bs ->
     vsize bs <= DISCOVERY_MAX_DATAGRAM /\ DecodeDiscoveryPacket (Some bs) = Ok (normalize p)) /\
  (forall bs p, bytes bs -> DecodeDiscoveryPacket (Some bs) = Ok p ->
     wf_discovery p /\ ValidDiscoveryPacket p = true /\ EncodeDiscoveryPacket p = Ok bs).
Proof.
  split; [exact discovery_packet_roundtrip|]. intros bs p Hb H.
  destruct (discovery_packet_canonical bs p Hb H) as [Hw He]. destruct (EncodeDiscoveryPacket_Ok p bs He). auto.
Qed.

(** Serialized endpoint metadata (names, groups, types and identities of up to 64
    endpoints) is reconstructed exactly by the receiver; conversely decoded metadata is
    well typed, every endpoint in it passes the validity check, there are at most 64 of
    them, and encoding them again gives the received bytes. *)
Theorem discovery_metadata_codec :
  (forall ms bs, Forall wf_metadata ms -> EncodeDiscoveryMetadata ms = Ok bs -> DecodeDiscoveryMetadata (Some bs) = Ok ms) /\
  (forall bs ms, bytes bs -> DecodeDiscoveryMetadata (Some bs) = Ok ms ->
     Forall (fun m => wf_metadata m /\ ValidMetadata m = true) ms /\
     Z.of_nat (length ms) <= DISCOVERY_MAX_ENDPOINTS /\ EncodeDiscoveryMetadata ms = Ok bs).
Proof. split; [exact discovery_metadata_roundtrip|exact discovery_metadata_canonical]. Qed.
