(* ===== verification/TopicChannel.v ===== *)
(** * The Topic channel: lock-free publication over shared memory

    [SharedChannel<T>::PublishImpl], [ReadLatest], [ReadNext] and
    [ReadSequence] of [kcf/include/kcf/ipc/shared_channel.hpp] with
    [CopyChannelSequence] of [kcf/include/kcf/ipc/detail/storage_access.hpp],
    as a system of one publisher and any number of readers that interleave at
    the granularity of single atomic operations; [memcpy] is one step per byte.
    A crashed process is a thread that takes no further step: its pin or write
    claim stays in the slot.  All atomics of the source are sequentially
    consistent; [channel_race_free] shows that the plain accesses are never
    concurrent with a conflicting one, which is what makes the interleaving
    semantics adequate for them. *)
From S2P Require Import Prelude.

(** ** Shared storage *)

(** [static constexpr std::uint32_t writing = 0x80000000u] *)
Definition writing : Z := 0x80000000.

(** [ChannelSlot<T>]; [data] are the [sizeof(T)] payload bytes. *)
Record Slot := { sl_users : Z; sl_version : Z; sl_sequence : Z; sl_data : list Z }.

(** The fields of [ChannelHeader] the data path uses, and the [3*depth] slots
    behind it. *)
Record Channel := {
  ch_depth : Z;
  ch_size : nat; (** [sizeof(T)] *)
  ch_publish_sequence : Z;
  ch_notify_sequence : Z;
  ch_slots : list Slot
}.

Definition set_users (u : Z) (s : Slot) : Slot :=
  {| sl_users := u; sl_version := sl_version s; sl_sequence := sl_sequence s; sl_data := sl_data s |}.
Definition bump_version (s : Slot) : Slot :=
  {| sl_users := sl_users s; sl_version := u32 (sl_version s + 1); sl_sequence := sl_sequence s; sl_data := sl_data s |}.
Definition set_sequence (q : Z) (s : Slot) : Slot :=
  {| sl_users := sl_users s; sl_version := sl_version s; sl_sequence := q; sl_data := sl_data s |}.
Definition set_byte (k : nat) (b : Z) (s : Slot) : Slot :=
  {| sl_users := sl_users s; sl_version := sl_version s; sl_sequence := sl_sequence s; sl_data := <[k := b]> (sl_data s) |}.

Definition with_slots (f : list Slot -> list Slot) (c : Channel) : Channel :=
  {| ch_depth := ch_depth c; ch_size := ch_size c; ch_publish_sequence := ch_publish_sequence c;
     ch_notify_sequence := ch_notify_sequence c; ch_slots := f (ch_slots c) |}.
Definition with_published (q : Z) (c : Channel) : Channel :=
  {| ch_depth := ch_depth c; ch_size := ch_size c; ch_publish_sequence := q;
     ch_notify_sequence := ch_notify_sequence c; ch_slots := ch_slots c |}.
Definition with_notified (q : Z) (c : Channel) : Channel :=
  {| ch_depth := ch_depth c; ch_size := ch_size c; ch_publish_sequence := ch_publish_sequence c;
     ch_notify_sequence := q; ch_slots := ch_slots c |}.

(** Slot [base+i] of the ring entry of a sequence number,
    [base = ((sequence-1) % depth) * 3]. *)
Definition slot_index (depth sequence : Z) (i : nat) : nat :=
  Z.to_nat ((sequence - 1) mod depth) * 3 + i.

(** The sequence a new publication must not overwrite; 0 when there is none. *)
Definition retained_sequence (depth sequence : Z) : Z :=
  if depth <? sequence then sequence - depth else 0.

(** ** Publisher: the control points of [PublishImpl] *)
Inductive PubPc :=
| PIdle                  (** between calls *)
| PLock                  (** [pthread_mutex_lock(&notify_mutex)] when [notify] *)
| PRecover               (** [RecoverLock] on EOWNERDEAD, before [pthread_mutex_consistent] *)
| PLoad                  (** [previous = publish_sequence.load()] *)
| PTry                   (** [users.compare_exchange_strong(free, writing)] on slot [i] *)
| PCheck                 (** slot claimed; compare its sequence with [retained] *)
| PBroadcast             (** [pthread_cond_broadcast] when [notify] *)
| PVersion1              (** [version.fetch_add(1)] before the copy *)
| PCopy (k : nat)        (** byte [k] of [memcpy(target->data, &value, sizeof(T))] *)
| PSequence              (** [target->sequence = sequence] *)
| PVersion2              (** [version.fetch_add(1)] after the copy *)
| PRelease               (** [target->users.store(0)] *)
| PCommit                (** [publish_sequence.store(sequence)] *)
| PNotify.               (** [notify_sequence = sequence] when [notify] *)

(** The publishing object and the locals of one call: its argument,
    [sequence] and the loop index. *)
Record Publisher := {
  pb_mapped : bool;    (** [storage_ != nullptr] *)
  pb_publisher : bool; (** [publisher_] *)
  pb_pc : PubPc;
  pb_value : list Z;
  pb_notify : bool;
  pb_locked : bool;    (** this thread holds [notify_mutex] *)
  pb_sequence : Z;
  pb_try : nat;
  pb_result : Z        (** what the last finished call returned *)
}.

Definition at_pc (pc : PubPc) (p : Publisher) : Publisher :=
  {| pb_mapped := pb_mapped p; pb_publisher := pb_publisher p; pb_pc := pc; pb_value := pb_value p;
     pb_notify := pb_notify p; pb_locked := pb_locked p; pb_sequence := pb_sequence p; pb_try := pb_try p;
     pb_result := pb_result p |}.
(** The lock is acquired. *)
Definition pub_lock (pc : PubPc) (p : Publisher) : Publisher :=
  {| pb_mapped := pb_mapped p; pb_publisher := pb_publisher p; pb_pc := pc; pb_value := pb_value p;
     pb_notify := pb_notify p; pb_locked := true; pb_sequence := pb_sequence p; pb_try := pb_try p;
     pb_result := pb_result p |}.
(** [unlock(); return code;] *)
Definition pub_return (code : Z) (p : Publisher) : Publisher :=
  {| pb_mapped := pb_mapped p; pb_publisher := pb_publisher p; pb_pc := PIdle; pb_value := pb_value p;
     pb_notify := pb_notify p; pb_locked := false; pb_sequence := pb_sequence p; pb_try := pb_try p;
     pb_result := code |}.
Definition pub_start_try (q : Z) (p : Publisher) : Publisher :=
  {| pb_mapped := pb_mapped p; pb_publisher := pb_publisher p; pb_pc := PTry; pb_value := pb_value p;
     pb_notify := pb_notify p; pb_locked := pb_locked p; pb_sequence := q; pb_try := 0;
     pb_result := pb_result p |}.
Definition pub_next_try (p : Publisher) : Publisher :=
  {| pb_mapped := pb_mapped p; pb_publisher := pb_publisher p; pb_pc := PTry; pb_value := pb_value p;
     pb_notify := pb_notify p; pb_locked := pb_locked p; pb_sequence := pb_sequence p; pb_try := S (pb_try p);
     pb_result := pb_result p |}.
(** Entry of [PublishImpl]. *)
Definition pub_call (value : list Z) (notify : bool) (p : Publisher) : Publisher :=
  if negb (pb_mapped p) then pub_return (- EBADF) p
  else if negb (pb_publisher p) then pub_return (- EPERM) p
  else {| pb_mapped := pb_mapped p; pb_publisher := pb_publisher p; pb_pc := PLock; pb_value := value;
          pb_notify := notify; pb_locked := false; pb_sequence := pb_sequence p; pb_try := pb_try p;
          pb_result := pb_result p |}.

Definition pub_slot (c : Channel) (p : Publisher) : nat := slot_index (ch_depth c) (pb_sequence p) (pb_try p).

(** One step of the publishing thread.  [env] is the value the pthread call at
    this point returns (it is ignored elsewhere); the boolean says that the step
    is the commit. *)
Definition pub_step (env : Z) (c : Channel) (p : Publisher) : option (Channel * Publisher * bool) :=
  let t := pub_slot c p in
  let on_slot f := with_slots (alter f t) c in
  match pb_pc p with
  | PIdle => None
  | PLock =>
      if negb (pb_notify p) then Some (c, at_pc PLoad p, false)
      else if env =? EOWNERDEAD then Some (with_notified (ch_publish_sequence c) c, pub_lock PRecover p, false)
      else if env =? 0 then Some (c, pub_lock PLoad p, false)
      else Some (c, pub_return (- env) p, false)
  | PRecover =>
      if env =? 0 then Some (c, at_pc PLoad p, false) else Some (c, pub_return (- env) p, false)
  | PLoad =>
      let previous := ch_publish_sequence c in
      if previous =? UINT64_MAX then Some (c, pub_return (- EOVERFLOW) p, false)
      else Some (c, pub_start_try (previous + 1) p, false)
  | PTry =>
      if (3 <=? pb_try p)%nat then Some (c, pub_return (- EAGAIN) p, false)
      else match ch_slots c !! t with
           | None => None
           | Some s => if sl_users s =? 0 then Some (on_slot (set_users writing), at_pc PCheck p, false)
                       else Some (c, pub_next_try p, false)
           end
  | PCheck =>
      match ch_slots c !! t with
      | None => None
      | Some s =>
          let retained := retained_sequence (ch_depth c) (pb_sequence p) in
          if negb (retained =? 0) && (sl_sequence s =? retained)
          then Some (on_slot (set_users 0), pub_next_try p, false)
          else Some (c, at_pc PBroadcast p, false)
      end
  | PBroadcast =>
      if pb_notify p && negb (env =? 0) then Some (on_slot (set_users 0), pub_return (- env) p, false)
      else Some (c, at_pc PVersion1 p, false)
  | PVersion1 => Some (on_slot bump_version, at_pc (PCopy 0) p, false)
  | PCopy k =>
      match pb_value p !! k with
      | Some b => Some (on_slot (set_byte k b), at_pc (PCopy (S k)) p, false)
      | None => Some (c, at_pc PSequence p, false)
      end
  | PSequence => Some (on_slot (set_sequence (pb_sequence p)), at_pc PVersion2 p, false)
  | PVersion2 => Some (on_slot bump_version, at_pc PRelease p, false)
  | PRelease => Some (on_slot (set_users 0), at_pc PCommit p, false)
  | PCommit => Some (with_published (pb_sequence p) c, at_pc PNotify p, true)
  | PNotify =>
      Some (if pb_notify p then with_notified (pb_sequence p) c else c, pub_return 0 p, false)
  end.

(** ** Readers: the control points of [ReadLatestSnapshot], [ReadLatest],
    [ReadNext], [ReadSequence] and [CopyChannelSequence] *)
Inductive RdPc :=
| RIdle
| RLoop                               (** [while (!stopped_.load())] of [ReadLatestSnapshot] *)
| RStop                               (** [if (stopped_.load()) return -ECANCELED;] *)
| RLoad                               (** [publish_sequence.load()] of [ReadLatest] / [ReadNext] *)
| RUsers                              (** [users = slot.users.load()] *)
| RCas (users : Z)                    (** [users.compare_exchange_strong(users, users+1)] *)
| RVersion                            (** [before = slot.version.load()] *)
| RLatest (before : Z)                (** [latest = published.load()] *)
| RCheck (before latest : Z)          (** test [before], [slot.sequence], [wanted], [latest] *)
| RCopy (before : Z) (copy : list Z)  (** next byte of [memcpy(output, slot.data, size)] *)
| RAfter (before : Z) (copy : list Z) (** [after = slot.version.load()] *)
| RUnpin (copy : option (list Z))     (** [slot.users.fetch_sub(1)] and return *)
| RRetry.                             (** [publish_sequence.load() == 0] after -EAGAIN in [ReadLatestSnapshot] *)

Inductive ReadMode := Latest | Next | Snapshot.

(** A successful read: [TopicReadInfo] and the payload. *)
Record Delivery := { dl_mode : ReadMode; dl_sequence : Z; dl_missed : Z; dl_data : list Z }.

Record TopicReader := {
  rd_mapped : bool;      (** [storage_ != nullptr] *)
  rd_pc : RdPc;
  rd_mode : ReadMode;
  rd_wanted : Z;
  rd_expected : Z;
  rd_try : nat;
  rd_cursor : Z;         (** [cursor_] *)
  rd_stopped : bool;     (** [stopped_] *)
  rd_result : Z;         (** what the last finished call returned *)
  rd_start : Z;          (** [cursor_] when the channel was opened *)
  rd_log : list Delivery (** successful reads since, oldest first *)
}.

Definition rd_at (pc : RdPc) (r : TopicReader) : TopicReader :=
  {| rd_mapped := rd_mapped r; rd_pc := pc; rd_mode := rd_mode r; rd_wanted := rd_wanted r; rd_expected := rd_expected r;
     rd_try := rd_try r; rd_cursor := rd_cursor r; rd_stopped := rd_stopped r; rd_result := rd_result r;
     rd_start := rd_start r; rd_log := rd_log r |}.

(** Return from [ReadLatest] / [ReadNext] with an error; [ReadLatestSnapshot]
    looks at [-EAGAIN] again and returns every other error. *)
Definition rd_return (code : Z) (r : TopicReader) : TopicReader :=
  {| rd_mapped := rd_mapped r;
     rd_pc := match rd_mode r with Snapshot => if code =? - EAGAIN then RRetry else RIdle | _ => RIdle end;
     rd_mode := rd_mode r; rd_wanted := rd_wanted r; rd_expected := rd_expected r;
     rd_try := rd_try r; rd_cursor := rd_cursor r; rd_stopped := rd_stopped r; rd_result := code;
     rd_start := rd_start r; rd_log := rd_log r |}.
(** Return from the outermost call. *)
Definition rd_exit (code : Z) (r : TopicReader) : TopicReader :=
  {| rd_mapped := rd_mapped r; rd_pc := RIdle; rd_mode := rd_mode r; rd_wanted := rd_wanted r;
     rd_expected := rd_expected r; rd_try := rd_try r; rd_cursor := rd_cursor r; rd_stopped := rd_stopped r;
     rd_result := code; rd_start := rd_start r; rd_log := rd_log r |}.
(** [ReadSequence(value, wanted)] at its first slot. *)
Definition rd_search (expected wanted : Z) (r : TopicReader) : TopicReader :=
  {| rd_mapped := rd_mapped r; rd_pc := RUsers; rd_mode := rd_mode r; rd_wanted := wanted; rd_expected := expected;
     rd_try := 0; rd_cursor := rd_cursor r; rd_stopped := rd_stopped r; rd_result := rd_result r;
     rd_start := rd_start r; rd_log := rd_log r |}.

(** [-EAGAIN] from one slot: try the next of the three, then give up. *)
Definition rd_next_try (r : TopicReader) : TopicReader :=
  if (S (rd_try r) <? 3)%nat then
    {| rd_mapped := rd_mapped r; rd_pc := RUsers; rd_mode := rd_mode r; rd_wanted := rd_wanted r;
       rd_expected := rd_expected r; rd_try := S (rd_try r); rd_cursor := rd_cursor r; rd_stopped := rd_stopped r;
       rd_result := rd_result r; rd_start := rd_start r; rd_log := rd_log r |}
  else rd_return (- EAGAIN) r.

(** A successful copy: the tail of [ReadLatest] ([info={sequence,0}]) or of
    [ReadNext] ([info={wanted,wanted-expected}; cursor_=wanted]). *)
Definition rd_deliver (copy : list Z) (r : TopicReader) : TopicReader :=
  {| rd_mapped := rd_mapped r; rd_pc := RIdle; rd_mode := rd_mode r; rd_wanted := rd_wanted r;
     rd_expected := rd_expected r; rd_try := rd_try r;
     rd_cursor := match rd_mode r with Next => rd_wanted r | _ => rd_cursor r end;
     rd_stopped := rd_stopped r; rd_result := 0; rd_start := rd_start r;
     rd_log := rd_log r ++
       [{| dl_mode := rd_mode r; dl_sequence := rd_wanted r;
           dl_missed := match rd_mode r with Next => rd_wanted r - rd_expected r | _ => 0 end;
           dl_data := copy |}] |}.

(** Entry of the three read operations. *)
Definition rd_call (mode : ReadMode) (r : TopicReader) : TopicReader :=
  if negb (rd_mapped r) then rd_exit (- EBADF) r
  else {| rd_mapped := true; rd_pc := match mode with Snapshot => RLoop | _ => RStop end; rd_mode := mode;
          rd_wanted := rd_wanted r; rd_expected := rd_expected r; rd_try := rd_try r; rd_cursor := rd_cursor r;
          rd_stopped := rd_stopped r; rd_result := rd_result r; rd_start := rd_start r; rd_log := rd_log r |}.

(** [ReadLatest] and [ReadNext] from the load of [publish_sequence] up to the
    call of [ReadSequence]. *)
Definition ReadLatest (c : Channel) (r : TopicReader) : TopicReader :=
  let sequence := ch_publish_sequence c in
  if sequence =? 0 then rd_return (- EAGAIN) r else rd_search sequence sequence r.

Definition ReadNext (c : Channel) (r : TopicReader) : TopicReader :=
  let latest := ch_publish_sequence c in
  if latest <=? rd_cursor r then rd_return (- EAGAIN) r
  else
  let oldest := if ch_depth c <=? latest then latest - ch_depth c + 1 else 1 in
  let expected := rd_cursor r + 1 in
  let wanted := if expected <? oldest then oldest else expected in
  rd_search expected wanted r.

(** The tail of [Open] and [Close], for the fields the data path uses. *)
Inductive TopicStartPosition := NEXT | OLDEST.
Definition Open (start : TopicStartPosition) (c : Channel) (r : TopicReader) : TopicReader :=
  if rd_mapped r then rd_exit (- EBUSY) r
  else
  let latest := ch_publish_sequence c in
  let cursor := match start with
                | NEXT => latest
                | OLDEST => if ch_depth c <? latest then latest - ch_depth c else 0
                end in
  {| rd_mapped := true; rd_pc := RIdle; rd_mode := rd_mode r; rd_wanted := rd_wanted r; rd_expected := rd_expected r;
     rd_try := rd_try r; rd_cursor := cursor; rd_stopped := rd_stopped r; rd_result := 0;
     rd_start := cursor; rd_log := [] |}.
Definition Close (r : TopicReader) : TopicReader :=
  {| rd_mapped := false; rd_pc := RIdle; rd_mode := rd_mode r; rd_wanted := rd_wanted r; rd_expected := rd_expected r;
     rd_try := rd_try r; rd_cursor := 0; rd_stopped := false; rd_result := 0; rd_start := 0; rd_log := [] |}.
(** [stopped_.store(true)] of [StopWait]. *)
Definition StopWait (r : TopicReader) : TopicReader :=
  {| rd_mapped := rd_mapped r; rd_pc := rd_pc r; rd_mode := rd_mode r; rd_wanted := rd_wanted r;
     rd_expected := rd_expected r; rd_try := rd_try r; rd_cursor := rd_cursor r;
     rd_stopped := if rd_mapped r then true else rd_stopped r;
     rd_result := rd_result r; rd_start := rd_start r; rd_log := rd_log r |}.

Definition rd_slot (c : Channel) (r : TopicReader) : nat := slot_index (ch_depth c) (rd_wanted r) (rd_try r).

(** One step inside [CopyChannelSequence] on slot [s] (at index [t]). *)
Definition copy_step (c : Channel) (t : nat) (s : Slot) (r : TopicReader) : option (Channel * TopicReader) :=
  match rd_pc r with
  | RUsers =>
      if writing - 1 <=? sl_users s then Some (c, rd_next_try r) else Some (c, rd_at (RCas (sl_users s)) r)
  | RCas users =>
      if sl_users s =? users then Some (with_slots (alter (set_users (users + 1)) t) c, rd_at RVersion r)
      else Some (c, rd_next_try r)
  | RVersion => Some (c, rd_at (RLatest (sl_version s)) r)
  | RLatest before => Some (c, rd_at (RCheck before (ch_publish_sequence c)) r)
  | RCheck before latest =>
      if Z.odd before || negb (sl_sequence s =? rd_wanted r) || (latest <? rd_wanted r) ||
         (ch_depth c <=? latest - rd_wanted r)
      then Some (c, rd_at (RUnpin None) r)
      else Some (c, rd_at (RCopy before []) r)
  | RCopy before copy =>
      if (length copy <? ch_size c)%nat then
        match sl_data s !! length copy with
        | Some b => Some (c, rd_at (RCopy before (copy ++ [b])) r)
        | None => None
        end
      else Some (c, rd_at (RAfter before copy) r)
  | RAfter before copy =>
      Some (c, rd_at (RUnpin (if (before =? sl_version s) && negb (Z.odd (sl_version s)) then Some copy else None)) r)
  | RUnpin copy =>
      Some (with_slots (alter (set_users (u32 (sl_users s - 1))) t) c,
            match copy with Some data => rd_deliver data r | None => rd_next_try r end)
  | _ => None
  end.

(** One step of a reading thread. *)
Definition rd_step (c : Channel) (r : TopicReader) : option (Channel * TopicReader) :=
  match rd_pc r with
  | RIdle => None
  | RLoop => if rd_stopped r then Some (c, rd_exit (- ECANCELED) r) else Some (c, rd_at RStop r)
  | RStop => if rd_stopped r then Some (c, rd_return (- ECANCELED) r) else Some (c, rd_at RLoad r)
  | RLoad => Some (c, match rd_mode r with Next => ReadNext c r | _ => ReadLatest c r end)
  | RRetry =>
      if ch_publish_sequence c =? 0 then Some (c, rd_exit (- EAGAIN) r) else Some (c, rd_at RLoop r)
  | _ =>
      match ch_slots c !! rd_slot c r with
      | None => None
      | Some s => copy_step c (rd_slot c r) s r
      end
  end.

(** ** The system *)

(** [sy_history] is the abstract log: the payloads whose publication committed,
    in order. *)
Record TopicSystem := {
  sy_channel : Channel;
  sy_publisher : Publisher;
  sy_readers : list TopicReader;
  sy_history : list (list Z)
}.

Inductive TopicEvent :=
| EvPublish (value : list Z) (notify : bool) (** a call of [Publish] or [TryPublishSnapshot] *)
| EvPublisher (env : Z)                      (** one step of that call *)
| EvRead (n : nat) (mode : ReadMode)         (** a call of a read operation by reader [n] *)
| EvReader (n : nat)                         (** one step of that call *)
| EvStop (n : nat)                           (** [StopWait] of reader [n] *)
| EvOpen (n : nat) (start : TopicStartPosition)
| EvClose (n : nat).

Definition topic_exec (e : TopicEvent) (s : TopicSystem) : option TopicSystem :=
  let c := sy_channel s in
  let with_reader n r := {| sy_channel := c; sy_publisher := sy_publisher s;
                            sy_readers := <[n := r]> (sy_readers s); sy_history := sy_history s |} in
  match e with
  | EvPublish value notify =>
      match pb_pc (sy_publisher s) with
      | PIdle => if (length value =? ch_size c)%nat then
                   Some {| sy_channel := c; sy_publisher := pub_call value notify (sy_publisher s);
                           sy_readers := sy_readers s; sy_history := sy_history s |}
                 else None
      | _ => None
      end
  | EvPublisher env =>
      match pub_step env c (sy_publisher s) with
      | Some (c', p', committed) =>
          Some {| sy_channel := c'; sy_publisher := p'; sy_readers := sy_readers s;
                  sy_history := if committed : bool then sy_history s ++ [pb_value (sy_publisher s)] else sy_history s |}
      | None => None
      end
  | EvRead n mode =>
      match sy_readers s !! n with
      | Some r => match rd_pc r with
                  | RIdle => Some (with_reader n (rd_call mode r))
                  | _ => None
                  end
      | None => None
      end
  | EvReader n =>
      match sy_readers s !! n with
      | Some r => match rd_step c r with
                  | Some (c', r') => Some {| sy_channel := c'; sy_publisher := sy_publisher s;
                                             sy_readers := <[n := r']> (sy_readers s); sy_history := sy_history s |}
                  | None => None
                  end
      | None => None
      end
  | EvStop n =>
      match sy_readers s !! n with
      | Some r => Some (with_reader n (StopWait r))
      | None => None
      end
  | EvOpen n start =>
      match sy_readers s !! n with
      | Some r => match rd_pc r with RIdle => Some (with_reader n (Open start c r)) | _ => None end
      | None => None
      end
  | EvClose n => (** "Finish all local operations before Close" *)
      match sy_readers s !! n with
      | Some r => match rd_pc r with RIdle => Some (with_reader n (Close r)) | _ => None end
      | None => None
      end
  end.

Definition topic_step : relation TopicSystem := machine_step topic_exec.
Definition topic_run : list TopicEvent -> TopicSystem -> option TopicSystem := machine_run topic_exec.

(** The state [Create] leaves, with readers that have not opened it yet. *)
Definition fresh_slot (size : nat) : Slot :=
  {| sl_users := 0; sl_version := 0; sl_sequence := 0; sl_data := repeat 0 size |}.
Definition fresh_reader : TopicReader :=
  {| rd_mapped := false; rd_pc := RIdle; rd_mode := Latest; rd_wanted := 1; rd_expected := 1; rd_try := 0; rd_cursor := 0;
     rd_stopped := false; rd_result := 0; rd_start := 0; rd_log := [] |}.
Definition topic_initial (depth : Z) (size readers : nat) : TopicSystem :=
  {| sy_channel := {| ch_depth := depth; ch_size := size; ch_publish_sequence := 0; ch_notify_sequence := 0;
                      ch_slots := repeat (fresh_slot size) (Z.to_nat depth * 3) |};
     sy_publisher := {| pb_mapped := true; pb_publisher := true; pb_pc := PIdle; pb_value := []; pb_notify := false;
                        pb_locked := false; pb_sequence := 0; pb_try := 0; pb_result := 0 |};
     sy_readers := repeat fresh_reader readers;
     sy_history := [] |}.

Definition topic_reachable (depth : Z) (size readers : nat) (s : TopicSystem) : Prop :=
  rtc topic_step (topic_initial depth size readers) s.
