(* ===== verification/TopicChannelSafety.v ===== *)
(** * Safety of the Topic channel

    The inductive invariant of the system of [TopicChannel] and what follows
    from it: delivered payloads are committed payloads (no torn or stale read),
    plain accesses never race, the last [depth] messages stay readable, and the
    channel refines an append-only log. *)
From Stdlib Require Import Sorting.Sorted.
From S2P Require Import Prelude TopicChannel.

(** ** Phases of a publication *)
(** The publisher holds the write claim of its slot. *)
Definition holds (p : Publisher) : bool :=
  match pb_pc p with
  | PCheck | PBroadcast | PVersion1 | PCopy _ | PSequence | PVersion2 | PRelease => true
  | _ => false
  end.
(** The version of its slot is odd. *)
Definition dirty (p : Publisher) : bool :=
  match pb_pc p with PCopy _ | PSequence | PVersion2 => true | _ => false end.
(** The slot's sequence and data do not belong together. *)
Definition torn (p : Publisher) : bool :=
  match pb_pc p with PCopy _ | PSequence => true | _ => false end.
(** The slot holds the new message, which is not committed yet. *)
Definition written (p : Publisher) : bool :=
  match pb_pc p with PVersion2 | PRelease | PCommit => true | _ => false end.
(** [sequence] has been computed and is not committed. *)
Definition numbered (p : Publisher) : bool :=
  match pb_pc p with
  | PIdle | PLock | PRecover | PLoad | PNotify => false
  | _ => true
  end.
Definition at_slot (phase : Publisher -> bool) (c : Channel) (p : Publisher) (i : nat) : bool :=
  phase p && (pub_slot c p =? i)%nat.

(** ** Pins *)
Definition pinned (r : TopicReader) : bool :=
  match rd_pc r with
  | RVersion | RLatest _ | RCheck _ _ | RCopy _ _ | RAfter _ _ | RUnpin _ => true
  | _ => false
  end.
Definition pin_at (depth : Z) (i : nat) (r : TopicReader) : bool :=
  pinned r && (slot_index depth (rd_wanted r) (rd_try r) =? i)%nat.
Definition pins (depth : Z) (rs : list TopicReader) (i : nat) : Z :=
  foldr (fun r n => Z.b2z (pin_at depth i r) + n) 0 rs.

(** ** The invariant *)
(** Message [q] of the log. *)
Definition message (h : list (list Z)) (q : Z) : option (list Z) :=
  if 1 <=? q then h !! Z.to_nat (q - 1) else None.

(** The log with the message that is written but not committed. *)
Definition log_of (p : Publisher) (h : list (list Z)) : list (list Z) :=
  if written p then h ++ [pb_value p] else h.

(** Slot [i] holds a message of the log [h], in the ring entry of its sequence. *)
Definition content (depth : Z) (h : list (list Z)) (i : nat) (s : Slot) : Prop :=
  sl_sequence s = 0 \/
  (message h (sl_sequence s) = Some (sl_data s) /\
   Z.of_nat i / 3 = (sl_sequence s - 1) mod depth).

Record slot_ok (c : Channel) (p : Publisher) (rs : list TopicReader) (h : list (list Z)) (i : nat) (s : Slot) : Prop := {
  so_size : length (sl_data s) = ch_size c;
  so_users : if at_slot holds c p i then sl_users s = writing /\ pins (ch_depth c) rs i = 0
             else sl_users s = pins (ch_depth c) rs i /\ sl_users s < writing;
  so_version : Z.odd (sl_version s) = at_slot dirty c p i;
  so_content : at_slot torn c p i = false -> content (ch_depth c) (log_of p h) i s
}.

(** What the publisher knows about the slot it works on. *)
Definition pub_slot_ok (c : Channel) (p : Publisher) (s : Slot) : Prop :=
  match pb_pc p with
  | PBroadcast | PVersion1 =>
      retained_sequence (ch_depth c) (pb_sequence p) <> 0 ->
      sl_sequence s <> retained_sequence (ch_depth c) (pb_sequence p)
  | PCopy k => (k <= ch_size c)%nat /\ take k (sl_data s) = take k (pb_value p)
  | PSequence => sl_data s = pb_value p
  | PVersion2 | PRelease | PCommit => sl_sequence s = pb_sequence p
  | _ => True
  end.

Record pub_ok (c : Channel) (p : Publisher) : Prop := {
  po_value : pb_pc p <> PIdle -> length (pb_value p) = ch_size c;
  po_sequence : numbered p = true ->
    pb_sequence p = ch_publish_sequence c + 1 /\ ch_publish_sequence c < UINT64_MAX;
  po_try : holds p || written p = true -> (pb_try p < 3)%nat;
  po_locked : pb_locked p = match pb_pc p with PIdle | PLock => false | _ => pb_notify p end;
  po_slot : holds p || written p = true -> forall s, ch_slots c !! pub_slot c p = Some s -> pub_slot_ok c p s
}.

(** What a reader knows about the slot it pins. *)
Definition rd_slot_ok (c : Channel) (h : list (list Z)) (r : TopicReader) (s : Slot) : Prop :=
  match rd_pc r with
  | RLatest before => before = sl_version s
  | RCheck before latest => before = sl_version s /\ latest <= ch_publish_sequence c
  | RCopy before copy =>
      before = sl_version s /\ message h (rd_wanted r) = Some (sl_data s) /\
      (length copy <= ch_size c)%nat /\ copy = take (length copy) (sl_data s)
  | RAfter before copy =>
      before = sl_version s /\ message h (rd_wanted r) = Some (sl_data s) /\ copy = sl_data s
  | RUnpin (Some copy) => message h (rd_wanted r) = Some copy
  | _ => True
  end.

(** A call of [ReadSequence] is under way. *)
Definition searching (r : TopicReader) : bool :=
  match rd_pc r with RUsers | RCas _ => true | _ => pinned r end.

(** The sequential reads of a log: each continues where the previous one
    stopped, [missed] counts the messages skipped, and messages are skipped
    only once they have left the ring ([n] messages published). *)
Fixpoint follows (depth n cursor : Z) (log : list Delivery) (cursor' : Z) : Prop :=
  match log with
  | [] => cursor = cursor'
  | d :: rest =>
      match dl_mode d with
      | Next =>
          dl_sequence d = cursor + 1 + dl_missed d /\ 0 <= dl_missed d /\
          (0 < dl_missed d -> dl_sequence d <= n - depth + 1) /\
          follows depth n (dl_sequence d) rest cursor'
      | _ => dl_missed d = 0 /\ follows depth n cursor rest cursor'
      end
  end.

Record rd_ok (c : Channel) (h : list (list Z)) (r : TopicReader) : Prop := {
  ro_wanted : 1 <= rd_wanted r;
  ro_try : (rd_try r < 3)%nat;
  ro_users : match rd_pc r with RCas users => users < writing - 1 | _ => True end;
  ro_slot : pinned r = true -> forall s, ch_slots c !! rd_slot c r = Some s -> rd_slot_ok c h r s;
  ro_next : searching r = true -> rd_mode r = Next ->
    rd_expected r = rd_cursor r + 1 /\ rd_expected r <= rd_wanted r /\
    (rd_expected r < rd_wanted r -> rd_wanted r <= ch_publish_sequence c - ch_depth c + 1);
  ro_cursor : 0 <= rd_cursor r <= ch_publish_sequence c;
  ro_range : searching r = true -> rd_wanted r <= ch_publish_sequence c;
  ro_data : forall d, d ∈ rd_log r -> message h (dl_sequence d) = Some (dl_data d);
  ro_log : follows (ch_depth c) (ch_publish_sequence c) (rd_start r) (rd_log r) (rd_cursor r)
}.

(** The last [depth] messages are in slots whose content is intact. *)
Definition retention (c : Channel) (p : Publisher) : Prop :=
  forall q, 1 <= q <= ch_publish_sequence c -> ch_publish_sequence c - q < ch_depth c ->
  exists i s, ch_slots c !! i = Some s /\ at_slot torn c p i = false /\ sl_sequence s = q.

(** A message is in one slot only. *)
Definition distinct (c : Channel) (p : Publisher) : Prop :=
  forall i j s s', ch_slots c !! i = Some s -> ch_slots c !! j = Some s' ->
  at_slot torn c p i = false -> at_slot torn c p j = false ->
  sl_sequence s = sl_sequence s' -> sl_sequence s <> 0 -> i = j.

Record topic_invariant (s : TopicSystem) : Prop := {
  in_depth : 1 <= ch_depth (sy_channel s);
  in_length : length (ch_slots (sy_channel s)) = (Z.to_nat (ch_depth (sy_channel s)) * 3)%nat;
  in_history : Z.of_nat (length (sy_history s)) = ch_publish_sequence (sy_channel s);
  in_bound : ch_publish_sequence (sy_channel s) <= UINT64_MAX;
  in_slots : forall i sl, ch_slots (sy_channel s) !! i = Some sl ->
    slot_ok (sy_channel s) (sy_publisher s) (sy_readers s) (sy_history s) i sl;
  in_pub : pub_ok (sy_channel s) (sy_publisher s);
  in_readers : forall r, r ∈ sy_readers s -> rd_ok (sy_channel s) (sy_history s) r;
  in_retention : retention (sy_channel s) (sy_publisher s);
  in_distinct : distinct (sy_channel s) (sy_publisher s)
}.

(** ** Arithmetic of the ring *)
Lemma slot_index_bound depth q i :
  1 <= depth -> (i < 3)%nat -> (slot_index depth q i < Z.to_nat depth * 3)%nat.
Proof. intros ??. unfold slot_index. pose proof (Z.mod_pos_bound (q - 1) depth). lia. Qed.

Lemma slot_index_group depth q i :
  1 <= depth -> (i < 3)%nat -> Z.of_nat (slot_index depth q i) / 3 = (q - 1) mod depth.
Proof.
  intros ??. unfold slot_index. pose proof (Z.mod_pos_bound (q - 1) depth).
  rewrite Nat2Z.inj_add, Nat2Z.inj_mul, Z2Nat.id by lia.
  symmetry. apply (Z.div_unique_pos _ _ _ (Z.of_nat i)); lia.
Qed.

Lemma group_slot_index depth q i :
  1 <= depth -> Z.of_nat i / 3 = (q - 1) mod depth -> exists k, (k < 3)%nat /\ i = slot_index depth q k.
Proof.
  intros ? Hg. pose proof (Z.mod_pos_bound (q - 1) depth). pose proof (Z.mod_pos_bound (Z.of_nat i) 3).
  exists (Z.to_nat (Z.of_nat i mod 3)). unfold slot_index. rewrite <- Hg.
  pose proof (Z.div_mod (Z.of_nat i) 3). split; lia.
Qed.

(** Two messages of one ring entry are a multiple of [depth] apart: the only
    retained message in the entry of message [n+1] is [n+1-depth]. *)
Lemma same_entry_retained depth n q :
  1 <= depth -> 1 <= q <= n -> n - q < depth -> (q - 1) mod depth = (n + 1 - 1) mod depth ->
  q = n + 1 - depth /\ retained_sequence depth (n + 1) = q.
Proof.
  intros ??? Hm.
  assert (q = n + 1 - depth) as Hq.
  { pose proof (Z.div_mod (q - 1) depth) as Ha. pose proof (Z.div_mod (n + 1 - 1) depth) as Hb.
    assert (depth * ((n + 1 - 1) / depth - (q - 1) / depth) = n + 1 - q) as Hk by lia.
    assert ((n + 1 - 1) / depth - (q - 1) / depth = 1) as Hone by nia. nia. }
  unfold retained_sequence. case_check; bool_to_prop; lia.
Qed.

Lemma odd_bump v : Z.odd (u32 (v + 1)) = negb (Z.odd v).
Proof.
  assert (u32 (v + 1) = v + 1 + 2 * (- (2 ^ 31) * ((v + 1) / 2 ^ 32))) as ->.
  { unfold u32. pose proof (Z.div_mod (v + 1) (2 ^ 32)). lia. }
  now rewrite Z.odd_add_mul_2, Z.add_1_r, Z.odd_succ, <- Z.negb_odd.
Qed.

(** ** The log *)
Lemma message_range h q d : message h q = Some d -> 1 <= q <= Z.of_nat (length h).
Proof.
  unfold message. case_check; [|done]. bool_to_prop. intros Hl%lookup_lt_Some. lia.
Qed.

Lemma message_prefix h k q d : h `prefix_of` k -> message h q = Some d -> message k q = Some d.
Proof. unfold message. case_check; [|done]. intros ? ?. by eapply prefix_lookup_Some. Qed.

Lemma message_last h d q : q = Z.of_nat (length h) + 1 -> message (h ++ [d]) q = Some d.
Proof.
  intros ->. unfold message. case_check; bool_to_prop; [|lia].
  rewrite lookup_app_r by lia. by replace (Z.to_nat _ - length h)%nat with 0%nat by lia.
Qed.

Lemma message_restrict h k q d :
  h `prefix_of` k -> q <= Z.of_nat (length h) -> message k q = Some d -> message h q = Some d.
Proof.
  intros [l ->] ?. unfold message. case_check; [|done]. bool_to_prop.
  rewrite lookup_app_l by lia. done.
Qed.

Lemma log_of_prefix p h : h `prefix_of` log_of p h.
Proof. unfold log_of. case_check; [by apply prefix_app_r|done]. Qed.

Lemma content_prefix depth h k i s : h `prefix_of` k -> content depth h i s -> content depth k i s.
Proof. intros ? [?|[??]]; [by left|right]. eauto using message_prefix. Qed.

Lemma follows_mono depth n m cursor log cursor' :
  n <= m -> follows depth n cursor log cursor' -> follows depth m cursor log cursor'.
Proof.
  intros ?. revert cursor. induction log as [|d log IH]; intros cursor; simpl; [done|].
  destruct (dl_mode d); [naive_solver| |naive_solver].
  intros (?&?&?&?). split_and!; auto; lia.
Qed.

Lemma follows_snoc depth n cursor log cursor' d :
  follows depth n cursor log cursor' ->
  follows depth n cursor (log ++ [d]) (match dl_mode d with Next => dl_sequence d | _ => cursor' end) <->
  match dl_mode d with
  | Next => dl_sequence d = cursor' + 1 + dl_missed d /\ 0 <= dl_missed d /\
            (0 < dl_missed d -> dl_sequence d <= n - depth + 1)
  | _ => dl_missed d = 0
  end.
Proof.
  revert cursor. induction log as [|e log IH]; intros cursor; simpl.
  - intros ->. destruct (dl_mode d); naive_solver.
  - destruct (dl_mode e); [intros [??]|intros (?&?&?&?)|intros [??]]; rewrite IH; naive_solver.
Qed.

(** ** Counting pins *)
Lemma pins_nonneg depth rs i : 0 <= pins depth rs i.
Proof. induction rs as [|r rs]; simpl; [done|]. destruct (pin_at depth i r); simpl; lia. Qed.

Lemma pins_insert depth rs i n r r' :
  rs !! n = Some r ->
  pins depth (<[n := r']> rs) i = pins depth rs i - Z.b2z (pin_at depth i r) + Z.b2z (pin_at depth i r').
Proof.
  revert n. induction rs as [|x rs IH]; intros [|n] Hn; simplify_eq/=; [lia|].
  rewrite (IH n) by done. lia.
Qed.

Lemma pins_pos depth rs i r : r ∈ rs -> pin_at depth i r = true -> 1 <= pins depth rs i.
Proof.
  intros [n Hn]%list_elem_of_lookup Hp. pose proof (pins_nonneg depth (<[n := rd_at RIdle r]> rs) i) as Hq.
  rewrite (pins_insert _ _ _ _ _ _ Hn), Hp in Hq. change (pin_at depth i (rd_at RIdle r)) with false in Hq. simpl in Hq. lia.
Qed.

Lemma pin_at_slot c r : pinned r = true -> pin_at (ch_depth c) (rd_slot c r) r = true.
Proof. unfold pin_at, rd_slot. intros ->. by rewrite Nat.eqb_refl. Qed.

Lemma at_slot_own phase c p : at_slot phase c p (pub_slot c p) = phase p.
Proof. unfold at_slot. by rewrite Nat.eqb_refl, andb_true_r. Qed.

Lemma at_slot_other phase c p i : i <> pub_slot c p -> at_slot phase c p i = false.
Proof. unfold at_slot. intros. apply andb_false_intro2, Nat.eqb_neq. congruence. Qed.

Lemma at_slot_off phase c p i : phase p = false -> at_slot phase c p i = false.
Proof. unfold at_slot. by intros ->. Qed.

Lemma torn_holds p : torn p = true -> holds p = true.
Proof. unfold torn, holds. by destruct (pb_pc p). Qed.
#[export] Hint Resolve slot_index_bound slot_index_group log_of_prefix at_slot_off torn_holds : kcf.

(** ** Framing *)
(** Two slots with the same message; only [users] may differ. *)
Definition same_message (s s' : Slot) : Prop :=
  sl_version s' = sl_version s /\ sl_sequence s' = sl_sequence s /\ sl_data s' = sl_data s.

(** [c'] is [c] with slot [t] changed by [f]. *)
Definition updated (t : nat) (f : Slot -> Slot) (c c' : Channel) : Prop :=
  ch_depth c' = ch_depth c /\ ch_size c' = ch_size c /\ ch_publish_sequence c' = ch_publish_sequence c /\
  forall i, ch_slots c' !! i = if decide (i = t) then f <$> ch_slots c !! i else ch_slots c !! i.

Lemma updated_alter t f c : updated t f c (with_slots (alter f t) c).
Proof.
  split_and!; try done. intros i. simpl. case_decide; subst; [apply list_lookup_alter_eq|by apply list_lookup_alter_ne].
Qed.

Lemma updated_same t c : updated t id c c.
Proof. split_and!; try done. intros i. case_decide; [|done]. by destruct (ch_slots c !! i). Qed.

Lemma updated_notified t q c : updated t id c (with_notified q c).
Proof. split_and!; try done. intros i. simpl. case_decide; [|done]. by destruct (ch_slots c !! i). Qed.
#[export] Hint Resolve updated_alter updated_same updated_notified : kcf.

Lemma updated_inv t f c c' i s' :
  updated t f c c' -> ch_slots c' !! i = Some s' ->
  exists s, ch_slots c !! i = Some s /\ s' = (if decide (i = t) then f s else s).
Proof.
  intros (_&_&_&Hs) Hi. rewrite Hs in Hi. case_decide; [|eauto].
  destruct (ch_slots c !! i); simplify_eq/=; eauto.
Qed.

Lemma updated_fwd t f c c' i s :
  updated t f c c' -> ch_slots c !! i = Some s -> ch_slots c' !! i = Some (if decide (i = t) then f s else s).
Proof. intros (_&_&_&Hs) Hi. rewrite Hs, Hi. by case_decide. Qed.

Lemma updated_length t f c c' : updated t f c c' -> length (ch_slots c') = length (ch_slots c).
Proof.
  intros (_&_&_&Hs). apply Nat.le_antisymm; apply Nat.nlt_ge; intros [s Hi]%lookup_lt_is_Some.
  - pose proof (Hs (length (ch_slots c))) as H. rewrite (lookup_ge_None_2 (ch_slots c)) in H by done.
    case_decide; simplify_eq/=; congruence.
  - pose proof (Hs (length (ch_slots c'))) as H. rewrite (lookup_ge_None_2 (ch_slots c')) in H by done.
    rewrite Hi in H. case_decide; simplify_eq/=.
Qed.

(** A reader keeps its knowledge while the slot it pins keeps its message and
    the log grows. *)
Lemma rd_ok_mono c c' h h' r :
  ch_depth c' = ch_depth c -> ch_size c' = ch_size c ->
  ch_publish_sequence c <= ch_publish_sequence c' -> h `prefix_of` h' ->
  (pinned r = true -> forall s', ch_slots c' !! rd_slot c r = Some s' ->
   exists s, ch_slots c !! rd_slot c r = Some s /\ same_message s s') ->
  rd_ok c h r -> rd_ok c' h' r.
Proof.
  intros Hd Hz Hn Hh Hs [? ? ? Hslot Hnext ? Hrange Hdata Hlog].
  assert (rd_slot c' r = rd_slot c r) as Heq by (unfold rd_slot; by rewrite Hd).
  constructor; auto; try lia.
  - intros Hp s' Hs'. rewrite Heq in Hs'. destruct (Hs Hp s' Hs') as (s & Hl & Hv & Hq & Hb).
    specialize (Hslot Hp s Hl). revert Hslot. unfold rd_slot_ok. rewrite Hv, Hb, Hz.
    destruct (rd_pc r) as [| | | | | | | | | | |[]|]; intuition (eauto using message_prefix; lia).
  - intros Hp Hm. specialize (Hnext Hp Hm). rewrite Hd. intuition lia.
  - intros Hp. specialize (Hrange Hp). lia.
  - eauto using message_prefix.
  - rewrite Hd. eauto using follows_mono.
Qed.

(** ** Publisher steps that do not commit *)
Section PublisherStep.
Context (c c' : Channel) (p p' : Publisher) (rs : list TopicReader) (h : list (list Z)) (f : Slot -> Slot).
Let t := pub_slot c p.
Let before := {| sy_channel := c; sy_publisher := p; sy_readers := rs; sy_history := h |}.
Let after := {| sy_channel := c'; sy_publisher := p'; sy_readers := rs; sy_history := h |}.
Context (Hinv : topic_invariant before) (Hup : updated t f c c').
(** The new phase concerns the same slot, or none. *)
Context (Hoff : forall i, i <> t -> at_slot holds c' p' i = false /\ at_slot dirty c' p' i = false /\
                                    at_slot torn c' p' i = false).
Context (Hlog : log_of p h `prefix_of` log_of p' h).
Context (Hslot : forall s, ch_slots c !! t = Some s -> slot_ok c p rs h t s -> slot_ok c' p' rs h t (f s)).
Context (Hframe : forall s, ch_slots c !! t = Some s -> holds p = true \/ same_message s (f s)).

Lemma publisher_slots i s : ch_slots c' !! i = Some s -> slot_ok c' p' rs h i s.
Proof.
  intros (s0 & Hs0 & ->)%(updated_inv _ _ _ _ _ _ Hup).
  pose proof (in_slots _ Hinv i s0 Hs0) as Hok. simpl in Hok. case_decide as Hi; [subst i; by apply Hslot|].
  destruct Hok as [Hz Hu Hv Hc]. destruct (Hoff i Hi) as (H1 & H2 & H3).
  rewrite !at_slot_other in Hu, Hv by done. destruct Hup as (Hd & Hzz & _).
  constructor; rewrite ?H1, ?H2, ?Hd, ?Hzz; auto.
  intros _. eapply content_prefix; [done|]. apply Hc. by apply at_slot_other.
Qed.

Lemma publisher_readers r : r ∈ rs -> rd_ok c' h r.
Proof.
  intros Hr. destruct Hup as (Hd & Hz & Hn & _).
  apply (rd_ok_mono c c' h h); auto; [by rewrite Hn| |by apply (in_readers _ Hinv)].
  intros Hp s' (s & Hs & ->)%(updated_inv _ _ _ _ _ _ Hup).
  exists s. split; [done|]. case_decide as Ht; [|by split_and!].
  rewrite Ht in Hs. destruct (Hframe s Hs) as [Hh|]; [|done].
  (* the publisher holds the slot, so nobody pins it *)
  exfalso. pose proof (so_users _ _ _ _ _ _ (in_slots _ Hinv t s Hs)) as Hu.
  pose proof (pin_at_slot c r Hp) as Hpin. rewrite Ht in Hpin.
  pose proof (pins_pos _ _ _ _ Hr Hpin). unfold t in *. rewrite at_slot_own in Hu. simpl in Hu. rewrite Hh in Hu. lia.
Qed.

Lemma publisher_preserves :
  (forall s, ch_slots c !! t = Some s -> at_slot torn c p t = false ->
     1 <= sl_sequence s <= ch_publish_sequence c -> ch_publish_sequence c - sl_sequence s < ch_depth c ->
     sl_sequence (f s) = sl_sequence s /\ at_slot torn c' p' t = false) ->
  (forall s, ch_slots c !! t = Some s -> at_slot torn c' p' t = false ->
     (at_slot torn c p t = false /\ sl_sequence (f s) = sl_sequence s) \/
     (at_slot torn c p t = true /\ sl_sequence (f s) = ch_publish_sequence c + 1 /\ written p = false)) ->
  pub_ok c' p' -> topic_invariant after.
Proof.
  intros Hret Hdis Hpub. destruct (Hup) as (Hd & Hz & Hn & _). destruct Hinv as [? ? Hhist ? Hsl ? ? HR HD]; simpl in *.
  constructor; simpl; rewrite ?Hd, ?Hn; auto using publisher_slots, publisher_readers.
  - by rewrite (updated_length _ _ _ _ Hup).
  - intros q Hq Hw. rewrite Hn in *. rewrite Hd in Hw. destruct (HR q Hq Hw) as (i & s & Hi & Ht & <-).
    exists i, (if decide (i = t) then f s else s). split; [by eapply updated_fwd|].
    case_decide as He; [subst i|]; [|split; [by apply Hoff|done]]. destruct (Hret s); auto.
  - intros i j s s' Hi Hj Hti Htj Hq Hnz.
    destruct (updated_inv _ _ _ _ _ _ Hup Hi) as (s0 & Hs0 & ->).
    destruct (updated_inv _ _ _ _ _ _ Hup Hj) as (s0' & Hs0' & ->).
    assert (forall k sk, k <> t -> written p = false -> ch_slots c !! k = Some sk ->
      sl_sequence sk <> ch_publish_sequence c + 1) as Hold.
    { intros k sk Hk Hw Hl Hsq. destruct (so_content _ _ _ _ _ _ (Hsl k sk Hl)) as [H0|[Hm _]];
        [by apply at_slot_other| |]; [rewrite H0 in Hsq; lia|].
      unfold log_of in Hm. rewrite Hw in Hm. apply message_range in Hm. lia. }
    destruct (decide (i = t)) as [->|Hit], (decide (j = t)) as [->|Hjt]; [done| | |].
    + destruct (Hdis s0) as [[? Hf]|(?&Hf&?)]; auto; rewrite Hf in *.
      * eapply HD; eauto. by apply at_slot_other.
      * exfalso. eapply (Hold j); eauto.
    + destruct (Hdis s0') as [[? Hf]|(?&Hf&?)]; auto; rewrite Hf in *.
      * eapply HD; eauto. by apply at_slot_other.
      * exfalso. eapply (Hold i); eauto.
    + eapply HD; eauto; by apply at_slot_other.
Qed.
End PublisherStep.

Lemma at_slot_same phase c c' p p' :
  ch_depth c' = ch_depth c -> pb_sequence p' = pb_sequence p -> pb_try p' = pb_try p ->
  at_slot phase c' p' (pub_slot c p) = phase p'.
Proof. intros Hd Hs Ht. rewrite <- (at_slot_own phase c' p'). unfold pub_slot. by rewrite Hd, Hs, Ht. Qed.

(** Side conditions of [publisher_preserves]. *)
Ltac pub_side Hpc :=
  lazymatch goal with
  | |- forall i, i <> _ -> at_slot holds _ _ i = false /\ _ =>
      intros ? ?; split_and!; first [by apply at_slot_off | by apply at_slot_other]
  | |- log_of _ _ `prefix_of` log_of _ _ => unfold log_of, written; cbn; rewrite ?Hpc; auto using prefix_app_r
  | |- forall s, ch_slots _ !! _ = Some s -> holds _ = true \/ _ =>
      intros ? ?; first [left; unfold holds; by rewrite Hpc | right; by split_and!]
  | |- _ => idtac
  end.

(** The phases of [p] at a known control point. *)
Ltac phases p Hpc Hh Hd Ht Hw Hnum :=
  pose proof (eq_refl (holds p)) as Hh; unfold holds in Hh at 2; rewrite Hpc in Hh;
  pose proof (eq_refl (dirty p)) as Hd; unfold dirty in Hd at 2; rewrite Hpc in Hd;
  pose proof (eq_refl (torn p)) as Ht; unfold torn in Ht at 2; rewrite Hpc in Ht;
  pose proof (eq_refl (written p)) as Hw; unfold written in Hw at 2; rewrite Hpc in Hw;
  pose proof (eq_refl (numbered p)) as Hnum; unfold numbered in Hnum at 2; rewrite Hpc in Hnum.

Section PublisherCases.
Context (c : Channel) (p : Publisher) (rs : list TopicReader) (h : list (list Z)).
Context (Hinv : topic_invariant {| sy_channel := c; sy_publisher := p; sy_readers := rs; sy_history := h |}).
Let t := pub_slot c p.

(** Steps that change no slot and keep the phase. *)
Lemma publisher_quiet c' p' :
  updated t id c c' -> pub_ok c' p' ->
  holds p' = holds p -> dirty p' = dirty p -> torn p' = torn p -> written p' = written p ->
  (written p = true -> pb_value p' = pb_value p) ->
  (holds p = false \/ pb_sequence p' = pb_sequence p /\ pb_try p' = pb_try p) ->
  topic_invariant {| sy_channel := c'; sy_publisher := p'; sy_readers := rs; sy_history := h |}.
Proof.
  intros Hup Hok Hh Hd Ht Hw Hv Hsame.
  assert (dirty p = true -> holds p = true) as Hdh by (unfold dirty, holds; by destruct (pb_pc p)).
  assert (forall ph, (ph p = true -> holds p = true) -> ph p' = ph p ->
          forall i, at_slot ph c' p' i = at_slot ph c p i) as Hat.
  { intros ph Himp Heq i. unfold at_slot, pub_slot. rewrite Heq. destruct (ph p); [|done].
    destruct Hsame as [Hf|[-> ->]]; [by rewrite Hf in Himp; specialize (Himp eq_refl)|]. by destruct Hup as (->&_). }
  assert (log_of p' h = log_of p h) as Hl.
  { unfold log_of. rewrite Hw. destruct (written p); [|done]. by rewrite Hv. }
  apply (publisher_preserves c c' p p' rs h id Hinv Hup); auto.
  - intros i Hi. rewrite !Hat by auto using torn_holds. by rewrite !at_slot_other.
  - by rewrite Hl.
  - intros s _ [Hz Hu Hve Hc]. destruct Hup as (Hde & Hsz & _).
    constructor; rewrite ?Hat by auto using torn_holds; rewrite ?Hde, ?Hsz, ?Hl; auto.
  - intros s _. right. by split_and!.
  - intros s _ Hts _ _. split; [done|]. rewrite Hat; auto using torn_holds.
  - intros s _ Hts. left. rewrite Hat in Hts by auto using torn_holds. done.
Qed.

Lemma claimed_slot s :
  ch_slots c !! t = Some s -> holds p = true ->
  sl_users s = writing /\ pins (ch_depth c) rs t = 0 /\ Z.odd (sl_version s) = dirty p /\
  length (sl_data s) = ch_size c /\ (torn p = false -> content (ch_depth c) (log_of p h) t s).
Proof.
  intros Hs Hh. destruct (in_slots _ Hinv t s Hs) as [Hz Hu Hv Hc]. simpl in *. unfold t in *.
  rewrite at_slot_own in *. rewrite Hh in Hu. naive_solver.
Qed.

(** [compare_exchange_strong(free, writing)] succeeds. *)
Lemma publisher_claims s :
  pb_pc p = PTry -> ch_slots c !! t = Some s -> sl_users s = 0 -> (pb_try p < 3)%nat ->
  topic_invariant {| sy_channel := with_slots (alter (set_users writing) t) c; sy_publisher := at_pc PCheck p;
               sy_readers := rs; sy_history := h |}.
Proof.
  unfold t. intros Hpc Hs Hu Htry. destruct (in_pub _ Hinv) as [Hval Hseq _ Hlk _]. simpl in *.
  phases p Hpc Hh Hd Ht Hw Hnum.
  apply (publisher_preserves c _ p _ rs h (set_users writing) Hinv (updated_alter _ _ _)); pub_side Hpc.
  - intros s' Hs' [Hz Hus Hv Hc]. rewrite at_slot_own in *. simplify_eq. rewrite Hh in Hus.
    constructor; rewrite ?(at_slot_same _ c) by done; simpl; auto; try lia.
    + by rewrite Hv, Hd.
    + intros _. unfold log_of in *. rewrite Hw in Hc. by apply Hc.
  - intros s' _ _ _ _. split; [done|]. by apply at_slot_off.
  - intros s' _ _. left. split; [|done]. by apply at_slot_off.
  - constructor; simpl; auto; try done.
    + intros _. apply Hval. by rewrite Hpc.
    + by rewrite Hlk, Hpc.
Qed.

(** A claimed slot is given back unchanged. *)
Lemma publisher_releases p' :
  holds p = true -> dirty p = false -> written p = false -> pub_ok (with_slots (alter (set_users 0) t) c) p' ->
  holds p' = false -> dirty p' = false -> torn p' = false -> written p' = false ->
  topic_invariant {| sy_channel := with_slots (alter (set_users 0) t) c; sy_publisher := p';
               sy_readers := rs; sy_history := h |}.
Proof.
  unfold t. intros Hh Hd Hw Hok Hh' Hd' Ht' Hw'.
  assert (torn p = false) as Ht by (unfold torn, dirty in *; by destruct (pb_pc p)).
  apply (publisher_preserves c _ p _ rs h (set_users 0) Hinv (updated_alter _ _ _)); auto.
  - intros i _. split_and!; by apply at_slot_off.
  - unfold log_of. by rewrite Hw, Hw'.
  - intros s Hs _. destruct (claimed_slot s Hs Hh) as (Hu & Hpin & Hv & Hz & Hc).
    constructor; rewrite ?at_slot_off by done; simpl; auto; [split; [done|reflexivity]|by rewrite Hv, Hd|].
    intros _. unfold log_of in *. rewrite Hw in Hc. rewrite Hw'. by apply Hc.
  - intros s' _ _ _ _. split; [done|]. by apply at_slot_off.
  - intros s' _ _. left. split; [|done]. by apply at_slot_off.
Qed.

(** The five steps that change the claimed slot: [f] is applied to it and the
    control point moves to [pc']. *)
Lemma publisher_writes f pc' s :
  ch_slots c !! t = Some s -> holds p = true ->
  (forall s, length (sl_data (f s)) = length (sl_data s)) ->
  let p' := at_pc pc' p in
  log_of p h `prefix_of` log_of p' h ->
  sl_users (f s) = (if holds p' then writing else 0) ->
  Z.odd (sl_version (f s)) = dirty p' ->
  (torn p' = false -> content (ch_depth c) (log_of p' h) t (f s)) ->
  (torn p = false -> 1 <= sl_sequence s <= ch_publish_sequence c -> ch_publish_sequence c - sl_sequence s < ch_depth c ->
     sl_sequence (f s) = sl_sequence s /\ torn p' = false) ->
  (torn p' = false -> torn p = false /\ sl_sequence (f s) = sl_sequence s \/
     torn p = true /\ sl_sequence (f s) = ch_publish_sequence c + 1 /\ written p = false) ->
  pub_ok (with_slots (alter f t) c) p' ->
  topic_invariant {| sy_channel := with_slots (alter f t) c; sy_publisher := p'; sy_readers := rs; sy_history := h |}.
Proof.
  unfold t. intros Hs Hh Hlen. set (p' := at_pc pc' p). intros Hlog Hu Hv Hc Hret Hdis Hok.
  destruct (claimed_slot s Hs Hh) as (Hu0 & Hpin & _ & Hz & _).
  apply (publisher_preserves c _ p p' rs h f Hinv (updated_alter _ _ _)); auto;
    try (intros s' Hs'; assert (s' = s) as -> by congruence);
    rewrite ?(at_slot_same _ c c p) by done; rewrite ?(at_slot_same _ c _ p p') by done; auto.
  - intros i Hi. split_and!; by apply at_slot_other.
  - intros _. constructor; rewrite ?(at_slot_same _ c _ p p') by done; simpl; auto; [by rewrite Hlen|].
    revert Hu. destruct (holds p'); [auto|]. intros ->. unfold t in Hpin. by rewrite Hpin.
Qed.

Lemma pub_ok_step pc' f :
  pb_pc p <> PIdle -> numbered p = true -> holds p = true -> numbered (at_pc pc' p) = true -> pc' <> PLock -> pc' <> PIdle ->
  pb_pc p <> PLock ->
  (forall s, ch_slots c !! t = Some s -> pub_slot_ok (with_slots (alter f t) c) (at_pc pc' p) (f s)) ->
  pub_ok (with_slots (alter f t) c) (at_pc pc' p).
Proof.
  unfold t. intros Hpc Hnum Hh Hnum' Hn1 Hn2 Hn3 Hs. destruct (in_pub _ Hinv) as [Hval Hseq Htry Hlk _]. simpl in *.
  constructor; simpl; auto.
  - intros _. apply Htry. by rewrite Hh.
  - rewrite Hlk. destruct (pb_pc p), pc'; done.
  - intros _ s. change (pub_slot _ (at_pc pc' p)) with (pub_slot c p). rewrite list_lookup_alter_eq.
    destruct (ch_slots c !! pub_slot c p) eqn:E; intros; simplify_eq/=. by apply Hs.
Qed.

Lemma slot_present : (pb_try p < 3)%nat -> exists s, ch_slots c !! t = Some s.
Proof.
  intros Ht. apply lookup_lt_is_Some. pose proof (in_length _ Hinv) as Hl. simpl in Hl. rewrite Hl. apply slot_index_bound; [apply (in_depth _ Hinv)|done].
Qed.

(** [version.fetch_add(1)] before the copy: the old message of the slot is
    not retained. *)
Lemma publisher_version1 :
  pb_pc p = PVersion1 ->
  topic_invariant {| sy_channel := with_slots (alter bump_version t) c; sy_publisher := at_pc (PCopy 0) p;
               sy_readers := rs; sy_history := h |}.
Proof.
  intros Hpc. phases p Hpc Hh Hd Ht Hw Hnum. destruct (in_pub _ Hinv) as [_ Hseq Htry _ Hps]. simpl in *.
  rewrite Hh, Hw in *. destruct (Hseq Hnum) as [Hsq _]. specialize (Htry eq_refl).
  destruct (slot_present Htry) as [s Hs]. specialize (Hps eq_refl s Hs). unfold pub_slot_ok in Hps. rewrite Hpc in Hps.
  destruct (claimed_slot s Hs Hh) as (Hu & _ & Hv & Hz & Hc). specialize (Hc Ht).
  apply (publisher_writes bump_version (PCopy 0) s); auto.
  - unfold log_of. by rewrite Hw.
  - cbn -[u32]. by rewrite odd_bump, Hv, Hd.
  - by intros.
  - intros _ Hr Hwin. exfalso. destruct Hc as [H0|[_ Hg]]; [lia|].
    unfold t, pub_slot in Hg. rewrite slot_index_group in Hg by (auto; apply (in_depth _ Hinv)). rewrite Hsq in *.
    destruct (same_entry_retained _ _ _ (in_depth _ Hinv) Hr Hwin (eq_sym Hg)) as [_ He]. simpl in He.
    rewrite He in Hps. apply Hps; [lia|done].
  - apply pub_ok_step; auto; try (by rewrite Hpc).
    intros s' Hs'. unfold pub_slot_ok; simpl. split; [lia|done].
Qed.

Lemma publisher_copies k b :
  pb_pc p = PCopy k -> pb_value p !! k = Some b ->
  topic_invariant {| sy_channel := with_slots (alter (set_byte k b) t) c; sy_publisher := at_pc (PCopy (S k)) p;
               sy_readers := rs; sy_history := h |}.
Proof.
  intros Hpc Hb. phases p Hpc Hh Hd Ht Hw Hnum. destruct (in_pub _ Hinv) as [Hval Hseq Htry _ Hps]. simpl in *.
  rewrite Hh, Hw in *. specialize (Htry eq_refl). assert (length (pb_value p) = ch_size c) as Hlv by (apply Hval; by rewrite Hpc).
  destruct (slot_present Htry) as [s Hs]. specialize (Hps eq_refl s Hs). unfold pub_slot_ok in Hps. rewrite Hpc in Hps.
  destruct (claimed_slot s Hs Hh) as (Hu & _ & Hv & Hz & _).
  apply (publisher_writes (set_byte k b) (PCopy (S k)) s); auto.
  - intros s'. simpl. by rewrite length_insert.
  - unfold log_of. by rewrite Hw.
  - simpl. by rewrite Hv, Hd.
  - by intros.
  - intros Hf. by rewrite Ht in Hf.
  - by intros.
  - apply pub_ok_step; auto; try (by rewrite Hpc).
    intros s' Hs'. simplify_eq. unfold pub_slot_ok; simpl. pose proof (lookup_lt_Some _ _ _ Hb). split; [lia|].
    destruct Hps as [_ Hpre].
    rewrite (take_S_r (pb_value p) k b) by done. rewrite <- Hpre, <- (take_insert_ge (sl_data s) k k b) by lia.
    apply take_S_r. rewrite list_lookup_insert_eq; [done|lia].
Qed.

Lemma publisher_numbers :
  pb_pc p = PSequence ->
  topic_invariant {| sy_channel := with_slots (alter (set_sequence (pb_sequence p)) t) c; sy_publisher := at_pc PVersion2 p;
               sy_readers := rs; sy_history := h |}.
Proof.
  intros Hpc. phases p Hpc Hh Hd Ht Hw Hnum. destruct (in_pub _ Hinv) as [Hval Hseq Htry _ Hps]. simpl in *.
  rewrite Hh, Hw in *. destruct (Hseq Hnum) as [Hsq _]. specialize (Htry eq_refl).
  destruct (slot_present Htry) as [s Hs]. specialize (Hps eq_refl s Hs). unfold pub_slot_ok in Hps. rewrite Hpc in Hps.
  destruct (claimed_slot s Hs Hh) as (Hu & _ & Hv & Hz & _). pose proof (in_history _ Hinv) as Hhist. simpl in Hhist.
  apply (publisher_writes (set_sequence (pb_sequence p)) PVersion2 s); auto.
  - unfold log_of. rewrite Hw. by apply prefix_app_r.
  - simpl. by rewrite Hv, Hd.
  - intros _. right. simpl. split.
    + unfold log_of. simpl. rewrite Hps. apply message_last. lia.
    + unfold t, pub_slot. apply slot_index_group; [apply (in_depth _ Hinv)|done].
  - intros Hf. by rewrite Ht in Hf.
  - apply pub_ok_step; auto; try (by rewrite Hpc). intros s' Hs'. done.
Qed.

Lemma publisher_version2 :
  pb_pc p = PVersion2 ->
  topic_invariant {| sy_channel := with_slots (alter bump_version t) c; sy_publisher := at_pc PRelease p;
               sy_readers := rs; sy_history := h |}.
Proof.
  intros Hpc. phases p Hpc Hh Hd Ht Hw Hnum. destruct (in_pub _ Hinv) as [_ Hseq Htry _ Hps]. simpl in *.
  rewrite Hh, Hw in *. specialize (Htry eq_refl).
  destruct (slot_present Htry) as [s Hs]. pose proof (Hps eq_refl s Hs) as Hps'. unfold pub_slot_ok in Hps'. rewrite Hpc in Hps'.
  destruct (claimed_slot s Hs Hh) as (Hu & _ & Hv & Hz & Hc). unfold log_of in Hc. rewrite Hw in Hc.
  apply (publisher_writes bump_version PRelease s); auto.
  - unfold log_of. by rewrite Hw.
  - cbn -[u32]. by rewrite odd_bump, Hv, Hd.
  - apply pub_ok_step; auto; try (by rewrite Hpc). intros s' Hs'. simplify_eq. done.
Qed.

Lemma publisher_unclaims :
  pb_pc p = PRelease ->
  topic_invariant {| sy_channel := with_slots (alter (set_users 0) t) c; sy_publisher := at_pc PCommit p;
               sy_readers := rs; sy_history := h |}.
Proof.
  intros Hpc. phases p Hpc Hh Hd Ht Hw Hnum. destruct (in_pub _ Hinv) as [_ Hseq Htry _ Hps]. simpl in *.
  rewrite Hh, Hw in *. specialize (Htry eq_refl).
  destruct (slot_present Htry) as [s Hs]. pose proof (Hps eq_refl s Hs) as Hps'. unfold pub_slot_ok in Hps'. rewrite Hpc in Hps'.
  destruct (claimed_slot s Hs Hh) as (Hu & _ & Hv & Hz & Hc). unfold log_of in Hc. rewrite Hw in Hc.
  apply (publisher_writes (set_users 0) PCommit s); auto.
  - unfold log_of. by rewrite Hw.
  - simpl. by rewrite Hv, Hd.
  - apply pub_ok_step; auto; try (by rewrite Hpc). intros s' Hs'. simplify_eq. done.
Qed.

(** [publish_sequence.store(sequence)]: the written message joins the log. *)
Lemma publisher_commits :
  pb_pc p = PCommit ->
  topic_invariant {| sy_channel := with_published (pb_sequence p) c; sy_publisher := at_pc PNotify p;
               sy_readers := rs; sy_history := h ++ [pb_value p] |}.
Proof.
  intros Hpc. phases p Hpc Hh Hd Ht Hw Hnum. destruct (Hinv) as [Hdep Hlen Hhist Hb Hsl [Hval Hseq Htry Hlk Hps] Hrd HR HD].
  simpl in *. rewrite Hh, Hw in *. specialize (Htry eq_refl). destruct (Hseq Hnum) as [Hsq Hlt].
  destruct (slot_present Htry) as [s Hs]. pose proof (Hps eq_refl s Hs) as Hps'. unfold pub_slot_ok in Hps'. rewrite Hpc in Hps'.
  constructor; simpl; auto.
  - rewrite length_app. simpl. lia.
  - lia.
  - intros i sl Hi. destruct (Hsl i sl Hi) as [Hz Hu Hv Hc]. unfold log_of in Hc. rewrite Hw in Hc.
    rewrite !at_slot_off in Hu, Hv, Hc by done. constructor; rewrite ?at_slot_off by done; simpl; auto.
  - constructor; simpl; auto; try done. { intros _. apply Hval. by rewrite Hpc. } by rewrite Hlk, Hpc.
  - intros r Hr. apply (rd_ok_mono c _ h); simpl; auto; [lia|by apply prefix_app_r|].
    intros _ s' Hs'. exists s'. by split_and!.
  - intros q Hq Hwin. simpl in *. destruct (decide (q = pb_sequence p)) as [->|].
    + exists t, s. split_and!; auto.
    + destruct (HR q) as (i & s' & Hi & _ & Hq'); [lia..|]. exists i, s'. split_and!; auto.
  - intros i j s1 s2 Hi Hj _ _ He Hnz. apply (HD i j s1 s2); auto; by apply at_slot_off.
Qed.
End PublisherCases.

(** ** Every publisher step *)
Section PublisherStepCases.
Context (c : Channel) (p : Publisher) (rs : list TopicReader) (h : list (list Z)).
Context (Hinv : topic_invariant {| sy_channel := c; sy_publisher := p; sy_readers := rs; sy_history := h |}).

(** Outside the claim nothing is known of a slot. *)
Lemma pub_ok_outside c' p' :
  ch_size c' = ch_size c -> ch_publish_sequence c' = ch_publish_sequence c ->
  holds p' = false -> written p' = false ->
  (pb_pc p' <> PIdle -> length (pb_value p') = ch_size c) ->
  (numbered p' = true -> pb_sequence p' = ch_publish_sequence c + 1 /\ ch_publish_sequence c < UINT64_MAX) ->
  pb_locked p' = match pb_pc p' with PIdle | PLock => false | _ => pb_notify p' end ->
  pub_ok c' p'.
Proof. intros Hs Hn Hh Hw Hv Hq Hl. constructor; rewrite ?Hh, ?Hw, ?Hs, ?Hn; auto; done. Qed.

(** Steps outside the claim. *)
Lemma publisher_outside c' p' :
  updated (pub_slot c p) id c c' -> holds p = false -> written p = false ->
  holds p' = false -> written p' = false ->
  (pb_pc p' <> PIdle -> length (pb_value p') = ch_size c) ->
  (numbered p' = true -> pb_sequence p' = ch_publish_sequence c + 1 /\ ch_publish_sequence c < UINT64_MAX) ->
  pb_locked p' = match pb_pc p' with PIdle | PLock => false | _ => pb_notify p' end ->
  topic_invariant {| sy_channel := c'; sy_publisher := p'; sy_readers := rs; sy_history := h |}.
Proof.
  intros Hup Hh Hw Hh' Hw' ???. destruct (Hup) as (Hd & Hz & Hn & _).
  assert (forall q, holds q = false -> dirty q = false /\ torn q = false) as Hoff.
  { intros q. unfold holds, dirty, torn. by destruct (pb_pc q). }
  destruct (Hoff p Hh), (Hoff p' Hh').
  apply (publisher_quiet c p); auto using pub_ok_outside; congruence.
Qed.

(** Steps that keep the claimed slot as it is. *)
Lemma publisher_inside pc' :
  holds p = true -> written p = false ->
  let p' := at_pc pc' p in
  holds p' = true -> dirty p' = dirty p -> torn p' = torn p -> written p' = false ->
  (forall s, ch_slots c !! pub_slot c p = Some s -> pub_slot_ok c p' s) ->
  topic_invariant {| sy_channel := c; sy_publisher := p'; sy_readers := rs; sy_history := h |}.
Proof.
  intros Hh Hw p' Hh' Hd' Ht' Hw' Hs. destruct (in_pub _ Hinv) as [Hval Hseq Htry Hlk _]. simpl in *.
  apply (publisher_quiet c p); auto using updated_same; [|congruence..].
  assert (forall q, holds q = true -> numbered q = true /\ pb_pc q <> PIdle /\ pb_pc q <> PLock) as Hin.
  { intros q. unfold holds, numbered. by destruct (pb_pc q). }
  destruct (Hin p Hh) as (?&?&?), (Hin p' Hh') as (?&?&?). rewrite Hh in Htry.
  constructor; simpl; auto. rewrite Hlk. by destruct (pb_pc p), pc'.
Qed.

End PublisherStepCases.

Lemma publisher_step_preserves env c p rs h c' p' committed :
  topic_invariant {| sy_channel := c; sy_publisher := p; sy_readers := rs; sy_history := h |} ->
  pub_step env c p = Some (c', p', committed) ->
  topic_invariant {| sy_channel := c'; sy_publisher := p'; sy_readers := rs;
               sy_history := if committed : bool then h ++ [pb_value p] else h |}.
Proof.
  intros Hinv. destruct (in_pub _ Hinv) as [Hval Hseq Htry Hlk Hps]. simpl in *.
  unfold pub_step. destruct (pb_pc p) eqn:Hpc; [done|..]; phases p Hpc Hh Hd Ht Hw Hnum;
    assert (length (pb_value p) = ch_size c) as Hlen by (apply Hval; congruence).
  all: try (specialize (Hseq Hnum); destruct Hseq as [Hsq Hlt]).
  - (* PLock *) intros Hst. repeat case_check; simplify_eq; bool_to_prop;
      eapply (publisher_outside _ _ _ _ Hinv); auto with kcf; simpl; first [done | congruence].
  - (* PRecover *) intros Hst. repeat case_check; simplify_eq; eapply (publisher_outside _ _ _ _ Hinv); auto with kcf; simpl; first [done | congruence].
  - (* PLoad *) intros Hst. repeat case_check; simplify_eq; bool_to_prop; eapply (publisher_outside _ _ _ _ Hinv); auto with kcf; simpl; try done; try congruence.
    pose proof (in_bound _ Hinv). simpl in *. intros _. split; lia.
  - (* PTry *) destruct (3 <=? pb_try p)%nat eqn:Htr.
    + intros Hst. simplify_eq. eapply (publisher_outside _ _ _ _ Hinv); auto with kcf.
    + destruct (ch_slots c !! pub_slot c p) as [s|] eqn:Hs; [|done]. apply Nat.leb_gt in Htr.
      intros Hst. repeat case_check; simplify_eq; bool_to_prop.
      * by apply (publisher_claims _ _ _ _ Hinv s).
      * eapply (publisher_outside _ _ _ _ Hinv); auto with kcf.
  - (* PCheck *) destruct (ch_slots c !! pub_slot c p) as [s|] eqn:Hs; [|done].
    intros Hst. repeat case_check; simplify_eq.
    + eapply (publisher_releases _ _ _ _ Hinv); auto. eapply pub_ok_outside; auto.
    + eapply (publisher_inside _ _ _ _ Hinv); auto. intros s' Hs'. simplify_eq. unfold pub_slot_ok. simpl. intros Hr He.
      rewrite He in *. rewrite Z.eqb_refl, andb_true_r in *. bool_to_prop. done.
  - (* PBroadcast *) intros Hst. repeat case_check; simplify_eq.
    + eapply (publisher_releases _ _ _ _ Hinv); auto. eapply pub_ok_outside; auto; done.
    + eapply (publisher_inside _ _ _ _ Hinv); auto. intros s Hs. rewrite Hh in Hps. specialize (Hps eq_refl s Hs).
      unfold pub_slot_ok in *. by rewrite Hpc in Hps.
  - intros Hst. simplify_eq. by apply publisher_version1.
  - (* PCopy *) destruct (pb_value p !! k) as [b|] eqn:Hb; intros Hst; simplify_eq; [by apply publisher_copies|].
    eapply (publisher_inside _ _ _ _ Hinv); auto. intros s Hs. rewrite Hh in Hps. specialize (Hps eq_refl s Hs).
    pose proof (so_size _ _ _ _ _ _ (in_slots _ Hinv _ s Hs)). simpl in *.
    unfold pub_slot_ok in *. rewrite Hpc in Hps. simpl. destruct Hps as [Hk Hpre].
    apply lookup_ge_None_1 in Hb. by rewrite !take_ge in Hpre by lia.
  - intros Hst. simplify_eq. by apply publisher_numbers.
  - intros Hst. simplify_eq. by apply publisher_version2.
  - intros Hst. simplify_eq. by apply publisher_unclaims.
  - intros Hst. simplify_eq. by apply publisher_commits.
  - (* PNotify *) intros Hst. simplify_eq. eapply (publisher_outside _ _ _ _ Hinv); auto; [|done]. case_check; auto with kcf.
Qed.

(** ** Reader steps *)
Section ReaderStep.
Context (c c' : Channel) (p : Publisher) (rs : list TopicReader) (h : list (list Z)).
Context (n : nat) (r r' : TopicReader) (t : nat) (f : Slot -> Slot).
Context (Hinv : topic_invariant {| sy_channel := c; sy_publisher := p; sy_readers := rs; sy_history := h |}).
Context (Hn : rs !! n = Some r) (Hup : updated t f c c').
Context (Hmsg : forall s, same_message s (f s)).
Context (Hpins : forall i, i <> t -> pin_at (ch_depth c) i r' = pin_at (ch_depth c) i r).
Context (Husers : forall s, ch_slots c !! t = Some s ->
  sl_users (f s) = sl_users s - Z.b2z (pin_at (ch_depth c) t r) + Z.b2z (pin_at (ch_depth c) t r') /\
  (pin_at (ch_depth c) t r' = pin_at (ch_depth c) t r \/ at_slot holds c p t = false /\ sl_users (f s) < writing)).

Lemma updated_message i s' : ch_slots c' !! i = Some s' -> exists s, ch_slots c !! i = Some s /\ same_message s s'.
Proof.
  intros (s & Hs & ->)%(updated_inv _ _ _ _ _ _ Hup). exists s. split; [done|]. case_decide; [apply Hmsg|by split_and!].
Qed.

Lemma reader_slots i s' : ch_slots c' !! i = Some s' -> slot_ok c' p (<[n := r']> rs) h i s'.
Proof.
  intros Hi. destruct (updated_message i s' Hi) as (s & Hs & Hv & Hq & Hb).
  destruct (in_slots _ Hinv i s Hs) as [Hz Hu Hve Hc]. simpl in *. destruct (Hup) as (Hd & Hsz & _).
  assert (forall ph, at_slot ph c' p i = at_slot ph c p i) as Hat by (intros; unfold at_slot, pub_slot; by rewrite Hd).
  constructor; rewrite ?Hat, ?Hd, ?Hsz, ?Hv, ?Hb; auto.
  - rewrite (pins_insert _ _ _ _ _ _ Hn).
    destruct (updated_inv _ _ _ _ _ _ Hup Hi) as (s0 & Hs0 & ->). simplify_eq. case_decide as He.
    + subst i. destruct (Husers s Hs) as [-> [->|[Hh Hlt]]]; [|rewrite Hh in *; lia].
      destruct (at_slot holds c p t); lia.
    + rewrite Hpins by done. destruct (at_slot holds c p i); lia.
  - intros Ht. specialize (Hc Ht). unfold content in *. by rewrite Hq, Hb.
Qed.

Lemma reader_publisher : pub_ok c' p.
Proof.
  destruct (in_pub _ Hinv) as [Hval Hseq Htry Hlk Hps]. destruct (Hup) as (Hd & Hsz & Hnn & _). simpl in *.
  assert (pub_slot c' p = pub_slot c p) as He by (unfold pub_slot; by rewrite Hd).
  constructor; rewrite ?Hsz, ?Hnn; auto.
  intros Hph s' Hs'. rewrite He in Hs'. destruct (updated_message _ _ Hs') as (s & Hs & _ & Hq & Hb).
  specialize (Hps Hph s Hs). unfold pub_slot_ok in *. rewrite Hd, Hsz. destruct (pb_pc p); rewrite ?Hq, ?Hb; auto.
Qed.

Lemma reader_preserves :
  rd_ok c' h r' ->
  topic_invariant {| sy_channel := c'; sy_publisher := p; sy_readers := <[n := r']> rs; sy_history := h |}.
Proof.
  intros Hr'. destruct (Hup) as (Hd & Hz & Hnn & _). destruct (Hinv) as [? ? ? ? Hsl ? Hrd HR HD]; simpl in *.
  assert (forall ph i, at_slot ph c' p i = at_slot ph c p i) as Hat by (intros; unfold at_slot, pub_slot; by rewrite Hd).
  constructor; simpl; rewrite ?Hd, ?Hnn; auto using reader_slots, reader_publisher.
  - by rewrite (updated_length _ _ _ _ Hup).
  - intros x [k Hk]%list_elem_of_lookup. destruct (decide (k = n)) as [->|Hkn].
    + rewrite list_lookup_insert_eq in Hk by (eapply lookup_lt_Some; eauto). by simplify_eq.
    + rewrite list_lookup_insert_ne in Hk by done.
      apply (rd_ok_mono c c' h h); auto; [by rewrite Hnn| |apply Hrd; by eapply list_elem_of_lookup_2].
      intros _ s'. apply updated_message.
  - intros q Hq Hw. rewrite Hnn, Hd in *. destruct (HR q Hq Hw) as (i & s & Hi & Ht & <-).
    exists i, (if decide (i = t) then f s else s). split_and!; [by eapply updated_fwd|by rewrite Hat|].
    case_decide; [apply Hmsg|done].
  - intros i j s s' (s0 & Hi & ? & Hq1 & ?)%updated_message (s0' & Hj & ? & Hq2 & ?)%updated_message.
    rewrite !Hat, Hq1, Hq2. eauto.
Qed.
End ReaderStep.

(** Steps that do not touch a slot. *)
Lemma reader_quiet c p rs h n r r' :
  topic_invariant {| sy_channel := c; sy_publisher := p; sy_readers := rs; sy_history := h |} ->
  rs !! n = Some r -> pinned r' = pinned r ->
  (pinned r = true -> rd_wanted r' = rd_wanted r /\ rd_try r' = rd_try r) ->
  rd_ok c h r' ->
  topic_invariant {| sy_channel := c; sy_publisher := p; sy_readers := <[n := r']> rs; sy_history := h |}.
Proof.
  intros Hinv Hn Hp Hsame Hok.
  assert (forall i, pin_at (ch_depth c) i r' = pin_at (ch_depth c) i r) as Hpin.
  { intros i. unfold pin_at. rewrite Hp. destruct (pinned r); [|done]. by destruct Hsame as [-> ->]. }
  eapply (reader_preserves c c p rs h n r r' 0 id); eauto using updated_same.
  - intros s. by split_and!.
  - intros s _. rewrite Hpin. simpl. split; [lia|by left].
Qed.

(** Steps that take or drop the pin of the reader's slot. *)
Lemma reader_pin c p rs h n r r' s users' :
  topic_invariant {| sy_channel := c; sy_publisher := p; sy_readers := rs; sy_history := h |} ->
  rs !! n = Some r -> ch_slots c !! rd_slot c r = Some s ->
  pinned r' = negb (pinned r) -> (pinned r' = true -> rd_wanted r' = rd_wanted r /\ rd_try r' = rd_try r) ->
  users' = (if pinned r then sl_users s - 1 else sl_users s + 1) -> users' < writing -> sl_users s < writing ->
  rd_ok (with_slots (alter (set_users users') (rd_slot c r)) c) h r' ->
  topic_invariant {| sy_channel := with_slots (alter (set_users users') (rd_slot c r)) c; sy_publisher := p;
               sy_readers := <[n := r']> rs; sy_history := h |}.
Proof.
  intros Hinv Hn Hs Hp Hsame Hu Hlt Hlt0 Hok.
  eapply (reader_preserves c _ p rs h n r r' (rd_slot c r) (set_users users')); eauto using updated_alter.
  - intros s'. by split_and!.
  - intros i Hi. unfold pin_at, rd_slot in *. rewrite Hp. destruct (pinned r); simpl.
    + symmetry. apply Nat.eqb_neq. congruence.
    + destruct Hsame as [-> ->]; [by rewrite Hp|]. apply Nat.eqb_neq. congruence.
  - intros s' Hs'. simplify_eq. pose proof (so_users _ _ _ _ _ _ (in_slots _ Hinv _ _ Hs)) as Hus. simpl in Hus.
    assert (at_slot holds c p (rd_slot c r) = false) as Hh by (destruct (at_slot holds c p (rd_slot c r)); [lia|done]).
    split; [|by right]. unfold pin_at, rd_slot. rewrite Hp. simpl. destruct (pinned r); simpl.
    + rewrite Nat.eqb_refl. simpl. lia.
    + destruct Hsame as [-> ->]; [by rewrite Hp|]. rewrite Nat.eqb_refl. simpl. lia.
Qed.

(** What a reader knows after each kind of step. *)
Lemma pinned_searching r : pinned r = true -> searching r = true.
Proof. unfold searching, pinned. by destruct (rd_pc r). Qed.

Lemma rd_ok_outside c h r r' :
  rd_ok c h r -> searching r' = false ->
  rd_wanted r' = rd_wanted r -> rd_try r' = rd_try r -> rd_cursor r' = rd_cursor r ->
  rd_start r' = rd_start r -> rd_log r' = rd_log r -> rd_ok c h r'.
Proof.
  intros [] Hs Hw Ht Hc Hst Hl.
  assert (pinned r' = false) as Hp.
  { destruct (pinned r') eqn:E; [|done]. by rewrite (pinned_searching _ E) in Hs. }
  constructor; rewrite ?Hw, ?Ht, ?Hc, ?Hst, ?Hl, ?Hs, ?Hp; auto; try done.
  revert Hs. unfold searching. by destruct (rd_pc r').
Qed.

Lemma rd_return_searching code r : searching (rd_return code r) = false.
Proof. unfold searching, rd_return. simpl. destruct (rd_mode r); try done. by destruct (code =? - EAGAIN). Qed.

Lemma rd_ok_at c h r pc :
  rd_ok c h r -> searching r = true ->
  match pc with RCas users => users < writing - 1 | _ => True end ->
  (pinned (rd_at pc r) = true -> forall s, ch_slots c !! rd_slot c r = Some s -> rd_slot_ok c h (rd_at pc r) s) ->
  rd_ok c h (rd_at pc r).
Proof. intros [] Hs Hu Hsl. constructor; simpl; auto. Qed.

Lemma rd_ok_return c h r code : rd_ok c h r -> rd_ok c h (rd_return code r).
Proof. intros H. eapply rd_ok_outside; eauto using rd_return_searching. Qed.

Lemma rd_ok_next_try c h r : rd_ok c h r -> searching r = true -> rd_ok c h (rd_next_try r).
Proof.
  intros H Hs. unfold rd_next_try. destruct (Nat.ltb_spec (S (rd_try r)) 3); [|by apply rd_ok_return].
  destruct H. constructor; simpl; auto; done.
Qed.

Lemma rd_ok_search c h r expected wanted :
  rd_ok c h r -> 1 <= wanted <= ch_publish_sequence c ->
  (rd_mode r = Next -> expected = rd_cursor r + 1 /\ expected <= wanted /\
     (expected < wanted -> wanted <= ch_publish_sequence c - ch_depth c + 1)) ->
  rd_ok c h (rd_search expected wanted r).
Proof. intros [] ? ?. constructor; simpl; auto; try done; try lia. Qed.

Lemma rd_ok_load c h r :
  1 <= ch_depth c -> 0 <= ch_publish_sequence c -> rd_ok c h r ->
  rd_ok c h (match rd_mode r with Next => ReadNext c r | _ => ReadLatest c r end).
Proof.
  intros Hd Hn Hr. pose proof (ro_cursor _ _ _ Hr). unfold ReadLatest, ReadNext.
  destruct (rd_mode r) eqn:Hm; repeat (case_check; bool_to_prop); auto using rd_ok_return;
    apply rd_ok_search; auto; try congruence; lia.
Qed.

Lemma rd_ok_deliver c h r data :
  rd_ok c h r -> rd_pc r = RUnpin (Some data) -> message h (rd_wanted r) = Some data -> rd_ok c h (rd_deliver data r).
Proof.
  intros [? ? ? ? Hnext ? Hrange Hdata Hlog] Hpc Hmsg.
  assert (searching r = true) as Hs by (unfold searching, pinned; by rewrite Hpc).
  specialize (Hnext Hs). specialize (Hrange Hs).
  constructor; simpl; auto; try done.
  - destruct (rd_mode r); lia.
  - intros d [Hd| ->%list_elem_of_singleton]%elem_of_app; auto.
  - unfold rd_deliver. simpl.
    pose proof (follows_snoc (ch_depth c) (ch_publish_sequence c) (rd_start r) (rd_log r) (rd_cursor r)
      {| dl_mode := rd_mode r; dl_sequence := rd_wanted r;
         dl_missed := match rd_mode r with Next => rd_wanted r - rd_expected r | _ => 0 end; dl_data := data |} Hlog) as Hf.
    simpl in Hf. destruct (rd_mode r); apply Hf; auto. destruct Hnext as (?&?&?); auto. lia.
Qed.

Lemma rd_ok_users c h r u t : rd_ok c h r -> rd_ok (with_slots (alter (set_users u) t) c) h r.
Proof.
  apply rd_ok_mono; auto; simpl; [lia|]. intros _ s' Hs'.
  pose proof (updated_message c _ t (set_users u) (updated_alter t (set_users u) c)) as Hm.
  apply Hm; [|done]. intros. by split_and!.
Qed.
#[export] Hint Resolve rd_ok_return rd_ok_next_try rd_ok_users : kcf.

Lemma rd_next_try_unpinned r : pinned (rd_next_try r) = false.
Proof.
  unfold rd_next_try. case_check; [done|].
  destruct (pinned (rd_return (- EAGAIN) r)) eqn:E; [|done].
  apply pinned_searching in E. by rewrite rd_return_searching in E.
Qed.

Section ReaderCases.
Context (c : Channel) (p : Publisher) (rs : list TopicReader) (h : list (list Z)) (n : nat) (r : TopicReader) (s : Slot).
Context (Hinv : topic_invariant {| sy_channel := c; sy_publisher := p; sy_readers := rs; sy_history := h |}).
Context (Hn : rs !! n = Some r) (Hs : ch_slots c !! rd_slot c r = Some s).

Lemma reader_known : rd_ok c h r.
Proof. apply (in_readers _ Hinv). by eapply list_elem_of_lookup_2. Qed.

(** A pinned slot is not claimed: it is intact and stays so. *)
Lemma pinned_slot : pinned r = true ->
  1 <= sl_users s < writing /\ Z.odd (sl_version s) = false /\ length (sl_data s) = ch_size c /\
  content (ch_depth c) (log_of p h) (rd_slot c r) s.
Proof.
  intros Hp. destruct (in_slots _ Hinv _ s Hs) as [Hz Hu Hv Hc]. simpl in *.
  pose proof (pins_pos (ch_depth c) rs (rd_slot c r) r (list_elem_of_lookup_2 _ _ _ Hn) (pin_at_slot c r Hp)).
  destruct (at_slot holds c p (rd_slot c r)) eqn:Hh; [lia|].
  assert (forall ph, (ph p = true -> holds p = true) -> at_slot ph c p (rd_slot c r) = false) as Hoff.
  { intros ph Hi. unfold at_slot in *. destruct (ph p) eqn:E; [|done]. by rewrite Hi in Hh. }
  rewrite Hoff in Hv by (unfold dirty, holds; by destruct (pb_pc p)).
  split_and!; auto; [lia..|]. apply Hc, Hoff, torn_holds.
Qed.

(** Steps on the pinned slot. *)
Lemma reader_inside pc :
  pinned r = true -> pinned (rd_at pc r) = true -> rd_slot_ok c h (rd_at pc r) s ->
  topic_invariant {| sy_channel := c; sy_publisher := p; sy_readers := <[n := rd_at pc r]> rs; sy_history := h |}.
Proof.
  intros Hp Hp' Hok. pose proof reader_known. eapply reader_quiet; eauto.
  apply rd_ok_at; auto using pinned_searching.
  - by destruct pc.
  - intros _ s' Hs'. by simplify_eq.
Qed.

End ReaderCases.

Lemma copy_step_preserves c p rs h n r s c' r' :
  topic_invariant {| sy_channel := c; sy_publisher := p; sy_readers := rs; sy_history := h |} ->
  rs !! n = Some r -> ch_slots c !! rd_slot c r = Some s ->
  copy_step c (rd_slot c r) s r = Some (c', r') ->
  topic_invariant {| sy_channel := c'; sy_publisher := p; sy_readers := <[n := r']> rs; sy_history := h |}.
Proof.
  intros Hinv Hn Hs. pose proof (reader_known _ _ _ _ _ _ Hinv Hn) as Hr. pose proof (in_slots _ Hinv _ s Hs) as Hslot. pose proof (in_history _ Hinv) as Hhist.
  destruct (Hslot) as [Hz Hu _ _]. simpl in *.
  unfold copy_step. destruct (rd_pc r) eqn:Hpc; try done;
    assert (searching r = true) as Hsr by (unfold searching, pinned; by rewrite Hpc).
  3-8: assert (pinned r = true) as Hp by (unfold pinned; by rewrite Hpc);
       destruct (pinned_slot _ _ _ _ _ _ _ Hinv Hn Hs Hp) as (Hus & Hev & _ & Hcont);
       pose proof (ro_slot _ _ _ Hr Hp s Hs) as Hok; unfold rd_slot_ok in Hok; rewrite Hpc in Hok.
  all: try assert (pinned r = false) as Hp by (unfold pinned; by rewrite Hpc).
  - (* RUsers *) intros Hst. case_check; simplify_eq; bool_to_prop.
    + eapply reader_quiet; eauto with kcf; rewrite ?Hp; auto using rd_next_try_unpinned; congruence.
    + eapply reader_quiet; eauto; rewrite ?Hp; auto; try congruence. apply rd_ok_at; auto; done.
  - (* RCas *) intros Hst. pose proof (ro_users _ _ _ Hr) as Hru. rewrite Hpc in Hru. case_check; simplify_eq; bool_to_prop.
    + eapply reader_pin; eauto; rewrite ?Hp; auto; try lia. apply rd_ok_users, rd_ok_at; auto; done.
    + eapply reader_quiet; eauto with kcf; rewrite ?Hp; auto using rd_next_try_unpinned; congruence.
  - (* RVersion *) intros Hst. simplify_eq. by apply (reader_inside _ _ _ _ _ _ _ Hinv Hn Hs).
  - (* RLatest *) intros Hst. simplify_eq. by apply (reader_inside _ _ _ _ _ _ _ Hinv Hn Hs).
  - (* RCheck *) intros Hst. case_check; simplify_eq; apply (reader_inside _ _ _ _ _ _ _ Hinv Hn Hs); auto; try done. bool_to_prop.
    destruct Hok as [Hb Hl]. unfold rd_slot_ok; simpl. split_and!; auto; [|lia].
    destruct Hcont as [Hz0|[Hm _]]; [pose proof (ro_wanted _ _ _ Hr); lia|].
    replace (rd_wanted r) with (sl_sequence s) by done. eapply message_restrict; [apply log_of_prefix| |done]. lia.
  - (* RCopy *) destruct Hok as (Hb & Hm & Hle & Hpre). destruct (Nat.ltb_spec (length copy) (ch_size c)).
    + destruct (sl_data s !! length copy) as [b|] eqn:El; [|done]. intros Hst. simplify_eq. apply (reader_inside _ _ _ _ _ _ _ Hinv Hn Hs); auto; try done.
      unfold rd_slot_ok; simpl. rewrite length_app. simpl. split_and!; auto; [lia|].
      rewrite Nat.add_1_r, (take_S_r _ _ _ El). by rewrite <- Hpre.
    + intros Hst. simplify_eq. apply (reader_inside _ _ _ _ _ _ _ Hinv Hn Hs); auto; try done. unfold rd_slot_ok; simpl.
      split_and!; auto. rewrite Hpre. apply take_ge. lia.
  - (* RAfter *) destruct Hok as (-> & Hm & ->). intros Hst. simplify_eq. apply (reader_inside _ _ _ _ _ _ _ Hinv Hn Hs); auto; try done.
    unfold rd_slot_ok; simpl. by rewrite Z.eqb_refl, Hev.
  - (* RUnpin *) intros Hst. simplify_eq.
    assert (u32 (sl_users s - 1) = sl_users s - 1) as Heq.
    { unfold u32, writing in *. apply Z.mod_small. lia. }
    assert (pinned (match copy with Some data => rd_deliver data r | None => rd_next_try r end) = false) as Hp'.
    { destruct copy; [done|apply rd_next_try_unpinned]. }
    eapply reader_pin; eauto; rewrite ?Hp, ?Hp'; auto; try done; try lia.
    apply rd_ok_users. destruct copy; auto using rd_ok_deliver with kcf.
Qed.

Lemma rd_step_preserves c p rs h n r c' r' :
  topic_invariant {| sy_channel := c; sy_publisher := p; sy_readers := rs; sy_history := h |} ->
  rs !! n = Some r -> rd_step c r = Some (c', r') ->
  topic_invariant {| sy_channel := c'; sy_publisher := p; sy_readers := <[n := r']> rs; sy_history := h |}.
Proof.
  intros Hinv Hn Hst. pose proof (reader_known _ _ _ _ _ _ Hinv Hn) as Hr.
  assert (forall r'', searching r = false -> searching r'' = false -> rd_ok c h r'' ->
    topic_invariant {| sy_channel := c; sy_publisher := p; sy_readers := <[n := r'']> rs; sy_history := h |}) as Hquiet.
  { intros r'' Hs Hs' Hok.
    assert (pinned r = false) as Hp by (destruct (pinned r) eqn:E; [by rewrite (pinned_searching _ E) in Hs|done]).
    assert (pinned r'' = false) as Hp' by (destruct (pinned r'') eqn:E; [by rewrite (pinned_searching _ E) in Hs'|done]).
    eapply reader_quiet; eauto; congruence. }
  pose proof (in_depth _ Hinv) as Hd. pose proof (in_history _ Hinv) as Hh. simpl in *.
  unfold rd_step in Hst. destruct (rd_pc r) eqn:Hpc; try done.
  all: try (destruct (ch_slots c !! rd_slot c r) eqn:Hs; [|done]; by eapply copy_step_preserves).
  all: assert (searching r = false) as Hsr by (unfold searching, pinned; by rewrite Hpc).
  1, 2, 4: case_check; simplify_eq; apply Hquiet; auto using rd_return_searching; eapply rd_ok_outside; eauto using rd_return_searching.
  simplify_eq. eapply reader_quiet; eauto.
  - assert (pinned r = false) as -> by (unfold pinned; by rewrite Hpc).
    destruct (pinned _) eqn:E; [|done]. revert E. unfold ReadNext, ReadLatest.
    assert (forall q, pinned (rd_return q r) = false) as Hret.
    { intros q. destruct (pinned (rd_return q r)) eqn:E; [|done]. apply pinned_searching in E. by rewrite rd_return_searching in E. }
    by destruct (rd_mode r); case_check; rewrite ?Hret.
  - intros Hp. unfold pinned in Hp. by rewrite Hpc in Hp.
  - apply rd_ok_load; auto. lia.
Qed.

Lemma topic_initial_invariant depth size readers : 1 <= depth -> topic_invariant (topic_initial depth size readers).
Proof.
  intros Hd. assert (forall i, pins depth (repeat fresh_reader readers) i = 0) as Hpin.
  { intros i. induction readers; simpl; [done|]. rewrite IHreaders. by unfold pin_at. }
  constructor; simpl; auto; try done.
  - by rewrite repeat_length.
  - intros i s Hs. apply list_elem_of_lookup_2 in Hs. apply list_elem_of_In, repeat_spec in Hs as ->.
    constructor; simpl; auto; [by rewrite repeat_length|by rewrite Hpin|by left].
  - intros r Hr. apply list_elem_of_In, repeat_spec in Hr as ->. constructor; simpl; auto; try done; try lia.
    intros d Hd'. by apply elem_of_nil in Hd'.
  - intros q Hq. simpl in Hq. lia.
  - intros i j s s' Hs. apply list_elem_of_lookup_2 in Hs. by apply list_elem_of_In, repeat_spec in Hs as ->.
Qed.

Lemma pub_call_preserves c p rs h value notify :
  topic_invariant {| sy_channel := c; sy_publisher := p; sy_readers := rs; sy_history := h |} ->
  pb_pc p = PIdle -> length value = ch_size c ->
  topic_invariant {| sy_channel := c; sy_publisher := pub_call value notify p; sy_readers := rs; sy_history := h |}.
Proof.
  intros Hinv Hpc Hl. phases p Hpc Hh Hd Ht Hw Hnum. unfold pub_call.
  repeat case_check; eapply (publisher_outside _ _ _ _ Hinv); auto using updated_same; done.
Qed.

Lemma rd_ok_open c h r start :
  0 <= ch_publish_sequence c -> 1 <= ch_depth c -> rd_ok c h r -> rd_pc r = RIdle -> rd_ok c h (Open start c r).
Proof.
  intros Hn Hd Hr Hpc. unfold Open. case_check; [by eapply rd_ok_outside|]. destruct Hr.
  constructor; simpl; auto; try done.
  - destruct start; [lia|]. case_check; bool_to_prop; lia.
  - intros d He. by apply elem_of_nil in He.
Qed.

Lemma topic_step_preserves s s' : topic_invariant s -> topic_step s s' -> topic_invariant s'.
Proof.
  destruct s as [c p rs h]. intros Hinv [e Hst]. pose proof (in_history _ Hinv) as Hh. pose proof (in_depth _ Hinv) as Hd.
  destruct e as [value notify|env|n mode|n|n|n start|n]; simpl in *.
  - destruct (pb_pc p) eqn:Hpc; try done. destruct (Nat.eqb_spec (length value) (ch_size c)); simplify_eq/=.
    by apply pub_call_preserves.
  - destruct (pub_step env c p) as [[[c' p'] b]|] eqn:Hp; simplify_eq/=. by eapply publisher_step_preserves.
  - destruct (rs !! n) as [r|] eqn:Hr; [|done]. pose proof (reader_known _ _ _ _ _ _ Hinv Hr) as Hok.
    destruct (rd_pc r) eqn:Hpc; simplify_eq/=. assert (pinned r = false) as Hp by (unfold pinned; by rewrite Hpc).
    unfold rd_call. case_check; eapply reader_quiet; eauto; rewrite ?Hp; try done;
      try (by destruct mode); eapply rd_ok_outside; eauto; by destruct mode.
  - destruct (rs !! n) as [r|] eqn:Hr; [|done]. destruct (rd_step c r) as [[c' r']|] eqn:Hs; simplify_eq/=.
    by eapply rd_step_preserves.
  - destruct (rs !! n) as [r|] eqn:Hr; simplify_eq/=. pose proof (reader_known _ _ _ _ _ _ Hinv Hr) as Hok.
    eapply reader_quiet; eauto. destruct Hok. by constructor.
  - destruct (rs !! n) as [r|] eqn:Hr; [|done]. pose proof (reader_known _ _ _ _ _ _ Hinv Hr) as Hok.
    destruct (rd_pc r) eqn:Hpc; simplify_eq/=. assert (pinned r = false) as Hp by (unfold pinned; by rewrite Hpc).
    eapply reader_quiet; eauto; rewrite ?Hp; try done; [unfold Open; by case_check|apply rd_ok_open; auto; lia].
  - destruct (rs !! n) as [r|] eqn:Hr; [|done]. pose proof (reader_known _ _ _ _ _ _ Hinv Hr) as Hok.
    destruct (rd_pc r) eqn:Hpc; simplify_eq/=. assert (pinned r = false) as Hp by (unfold pinned; by rewrite Hpc).
    eapply reader_quiet; eauto; rewrite ?Hp; try done. destruct Hok.
    constructor; simpl; auto; try done; [lia|]. intros d He. by apply elem_of_nil in He.
Qed.

Lemma topic_reachable_invariant depth size readers s : 1 <= depth -> topic_reachable depth size readers s -> topic_invariant s.
Proof. intros Hd. apply rtc_invariant; [apply topic_step_preserves|by apply topic_initial_invariant]. Qed.

(** ** Integrity *)
Lemma topic_run_reachable es depth size readers s :
  topic_run es (topic_initial depth size readers) = Some s -> topic_reachable depth size readers s.
Proof. apply machine_run_rtc. Qed.

(** [k] steps of one thread. *)
Definition publish_events (value : list Z) (k : nat) : list TopicEvent := EvPublish value true :: repeat (EvPublisher 0) k.
Definition read_events (n : nat) (mode : ReadMode) (k : nat) : list TopicEvent := EvRead n mode :: repeat (EvReader n) k.

(** A run used by the witnesses: depth 2, three-byte payloads, one reader that
    opens the channel, three publications, then a sequential read (which finds
    that message 1 has left the ring) and a third of a latest read, while the
    publisher is in the middle of its fourth publication. *)
Definition topic_sample_events : list TopicEvent :=
  EvOpen 0 OLDEST ::
  publish_events [1; 2; 3] 15 ++ publish_events [4; 5; 6] 15 ++ publish_events [7; 8; 9] 17 ++
  read_events 0 Next 13 ++ publish_events [10; 11; 12] 8 ++ read_events 0 Latest 14.
Definition sample_system : TopicSystem :=
  match topic_run topic_sample_events (topic_initial 2 3 1) with Some s => s | None => topic_initial 2 3 1 end.
Definition sample_delivery : Delivery := {| dl_mode := Next; dl_sequence := 2; dl_missed := 1; dl_data := [4; 5; 6] |}.

Lemma sample_reachable : topic_reachable 2 3 1 sample_system.
Proof. apply (topic_run_reachable topic_sample_events). vm_compute. reflexivity. Qed.

(** C1: No torn, stale or invented read.  In every state the channel can
    reach (any interleaving of one publisher and any number of readers at the
    granularity of single atomic operations and single payload bytes, with
    threads stopped anywhere), each payload a read operation has returned is,
    byte for byte, the payload of the committed publication whose sequence
    number the read reported. *)
Theorem topic_read_integrity depth size readers s r d :
  1 <= depth -> topic_reachable depth size readers s -> r ∈ sy_readers s -> d ∈ rd_log r ->
  message (sy_history s) (dl_sequence d) = Some (dl_data d).
Proof.
  intros Hdep Hreach Hr Hd. pose proof (topic_reachable_invariant _ _ _ _ Hdep Hreach) as Hinv.
  by apply (ro_data _ _ _ (in_readers _ Hinv r Hr)).
Qed.

Lemma topic_read_integrity_witness :
  exists r, r ∈ sy_readers sample_system /\ sample_delivery ∈ rd_log r /\
  message (sy_history sample_system) 2 = Some [4; 5; 6].
Proof.
  destruct (sy_readers sample_system) as [|r rs] eqn:E; [vm_compute in E; discriminate|].
  exists r. assert (r ∈ sy_readers sample_system) as Hr by (rewrite E; left).
  assert (sample_delivery ∈ rd_log r) as Hd by (vm_compute in E; injection E as <- <-; left).
  split; [left|]. split; [exact Hd|].
  exact (topic_read_integrity 2 3 1 sample_system r sample_delivery ltac:(lia) sample_reachable Hr Hd).
Defined.

(** ** Data races *)
(** The next step of the publisher accesses the plain (non-atomic) fields
    [sequence] and [data] of slot [i]; the flag says that it writes. *)
Definition pub_access (c : Channel) (p : Publisher) (i : nat) (write : bool) : Prop :=
  i = pub_slot c p /\
  match pb_pc p with
  | PCheck => write = false
  | PCopy _ | PSequence => write = true
  | _ => False
  end.
(** The next step of a reader reads plain fields of slot [i]. *)
Definition rd_access (c : Channel) (r : TopicReader) (i : nat) : Prop :=
  i = rd_slot c r /\ match rd_pc r with RCheck _ _ | RCopy _ _ => True | _ => False end.

(** C11: Freedom from data races.  No reachable state has the publisher about
    to write the plain fields of a slot ([memcpy] into [data], assignment of
    [sequence]), or to read the sequence of a slot that it has claimed, while a reader is about
    to read or copy them; and no reader is inside a slot, from its pin to its unpin, while
    the write claim of that slot is taken: the [users] word works as a lock although
    neither side ever waits. *)
Theorem channel_race_free depth size readers s r :
  1 <= depth -> topic_reachable depth size readers s -> r ∈ sy_readers s ->
  (forall i w, pub_access (sy_channel s) (sy_publisher s) i w -> ~ rd_access (sy_channel s) r i) /\
  (forall i slot, ch_slots (sy_channel s) !! i = Some slot -> sl_users slot = writing -> pinned r = true -> rd_slot (sy_channel s) r <> i).
Proof.
  intros Hdep Hreach Hr. pose proof (topic_reachable_invariant _ _ _ _ Hdep Hreach) as Hinv. destruct s as [c p rs h]. simpl in *.
  assert (Hclaim : forall i slot, ch_slots c !! i = Some slot -> sl_users slot = writing -> pinned r = true -> rd_slot c r <> i).
  { intros i slot Hi Hu Hp E. pose proof (pins_pos _ _ _ _ Hr (pin_at_slot c r Hp)) as H1. rewrite E in H1.
    destruct (in_slots _ Hinv i slot Hi) as [_ Hs _ _]. simpl in Hs. destruct (at_slot holds c p i); lia. }
  split; [|done]. intros i w [Hi Hpub] [Hi' Hrd].
  assert (holds p = true) as Hh by (unfold holds; by destruct (pb_pc p)).
  assert (pinned r = true) as Hp by (unfold pinned; by destruct (rd_pc r)).
  destruct (in_pub _ Hinv) as [_ _ Htry _ _]. simpl in Htry. rewrite Hh in Htry.
  destruct (slot_present _ _ _ _ Hinv (Htry eq_refl)) as [sl Hsl].
  destruct (claimed_slot _ _ _ _ Hinv sl Hsl Hh) as (Hw & _). apply (Hclaim _ _ Hsl Hw Hp). congruence.
Qed.

Lemma channel_race_free_witness :
  exists r, r ∈ sy_readers sample_system /\ rd_access (sy_channel sample_system) r 1 /\
  pub_access (sy_channel sample_system) (sy_publisher sample_system) 4 true /\
  ~ rd_access (sy_channel sample_system) r 4.
Proof.
  destruct (sy_readers sample_system) as [|r rs] eqn:E; [vm_compute in E; discriminate|].
  exists r. assert (r ∈ sy_readers sample_system) as Hr by (rewrite E; left).
  assert (pub_access (sy_channel sample_system) (sy_publisher sample_system) 4 true) as Hw
    by (split; [vm_compute; reflexivity|vm_compute; reflexivity]).
  split; [left|]. split; [vm_compute in E; injection E as <- <-; split; vm_compute; auto|]. split; [exact Hw|].
  exact (proj1 (channel_race_free 2 3 1 sample_system r ltac:(lia) sample_reachable Hr) 4%nat true Hw).
Defined.

(** ** Ordered delivery *)
(** The sequential deliveries of a log. *)
Definition is_next (d : Delivery) : bool := match dl_mode d with Next => true | _ => false end.
Definition next_deliveries (log : list Delivery) : list Delivery := filter (fun d => is_next d = true) log.
Definition missed_total (log : list Delivery) : Z := foldr (fun d n => dl_missed d + n) 0 (next_deliveries log).

Lemma follows_account depth n cursor log cursor' :
  follows depth n cursor log cursor' ->
  cursor' = cursor + Z.of_nat (length (next_deliveries log)) + missed_total log /\
  Forall (fun d => cursor < dl_sequence d) (next_deliveries log) /\
  StronglySorted (fun d e => dl_sequence d < dl_sequence e) (next_deliveries log) /\
  Forall (fun d => 0 < dl_missed d -> dl_sequence d <= n - depth + 1) (next_deliveries log).
Proof.
  unfold missed_total, next_deliveries. revert cursor. induction log as [|d log IH]; intros cursor; simpl.
  - intros ->. split_and!; [lia|constructor..].
  - rewrite filter_cons. destruct (dl_mode d) eqn:Hm;
      [rewrite decide_False by (unfold is_next; by rewrite Hm)|rewrite decide_True by (unfold is_next; by rewrite Hm)
      |rewrite decide_False by (unfold is_next; by rewrite Hm)].
    + intros [_ H]. by apply IH.
    + intros (Hs & Hm0 & Hw & (Hc & Hf & Hso & Hr)%IH). simpl. split_and!; [lia| |by constructor|by constructor].
      constructor; [lia|]. eapply Forall_impl; [exact Hf|]. simpl. intros. lia.
    + intros [_ H]. by apply IH.
Qed.

(** [ReadNext] delivers in order and accounts for every message.  Since
    the reader opened the channel its sequential reads have strictly
    increasing sequence numbers, and the messages read plus the reported
    [missed] counts add up exactly to the distance the cursor has moved; a
    message is counted as missed only after [depth] newer ones were published. *)
Theorem topic_ordered_delivery depth size readers s r :
  1 <= depth -> topic_reachable depth size readers s -> r ∈ sy_readers s ->
  rd_cursor r = rd_start r + Z.of_nat (length (next_deliveries (rd_log r))) + missed_total (rd_log r) /\
  StronglySorted (fun d e => dl_sequence d < dl_sequence e) (next_deliveries (rd_log r)) /\
  Forall (fun d => 0 < dl_missed d -> dl_sequence d <= ch_publish_sequence (sy_channel s) - ch_depth (sy_channel s) + 1)
         (next_deliveries (rd_log r)).
Proof.
  intros Hdep Hreach Hr. pose proof (topic_reachable_invariant _ _ _ _ Hdep Hreach) as Hinv.
  destruct (follows_account _ _ _ _ _ (ro_log _ _ _ (in_readers _ Hinv r Hr))) as (?&_&?&?). auto.
Qed.

Lemma topic_ordered_delivery_witness :
  exists r, r ∈ sy_readers sample_system /\ rd_cursor r = 2 /\ rd_start r = 0 /\
  length (next_deliveries (rd_log r)) = 1%nat /\ missed_total (rd_log r) = 1 /\
  rd_cursor r = rd_start r + Z.of_nat (length (next_deliveries (rd_log r))) + missed_total (rd_log r).
Proof.
  destruct (sy_readers sample_system) as [|r rs] eqn:E; [vm_compute in E; discriminate|].
  exists r. assert (r ∈ sy_readers sample_system) as Hr by (rewrite E; left).
  pose proof (topic_ordered_delivery 2 3 1 sample_system r ltac:(lia) sample_reachable Hr) as [Hacc _].
  vm_compute in E. injection E as <- <-. split; [left|]. do 4 (split; [vm_compute; reflexivity|]). exact Hacc.
Defined.
