(* ===== verification/TopicChannelProgress.v ===== *)
(** * Progress of the Topic channel and its abstract specification

    The channel of [TopicChannel] refines an append-only log read by cursors,
    and its operations finish: a read of any of the last [depth] messages and a
    publication both complete in a bounded number of the caller's own steps,
    whatever the other processes (live or dead) have left in the slots. *)
From S2P Require Import Prelude TopicChannel TopicChannelSafety.

(** ** The abstract log *)
Record TopicLog := {
  tl_messages : list (list Z);
  tl_readers : list (Z * list Delivery) (** cursor and deliveries of each reader *)
}.

Inductive log_step (depth : Z) : TopicLog -> TopicLog -> Prop :=
| log_publish m rs v :
    log_step depth {| tl_messages := m; tl_readers := rs |} {| tl_messages := m ++ [v]; tl_readers := rs |}
| log_read m rs n cursor log d :
    rs !! n = Some (cursor, log) ->
    message m (dl_sequence d) = Some (dl_data d) ->
    match dl_mode d with
    | Next => dl_sequence d = cursor + 1 + dl_missed d /\ 0 <= dl_missed d /\
              (0 < dl_missed d -> dl_sequence d <= Z.of_nat (length m) - depth + 1)
    | _ => dl_missed d = 0
    end ->
    log_step depth {| tl_messages := m; tl_readers := rs |}
      {| tl_messages := m;
         tl_readers := <[n := (match dl_mode d with Next => dl_sequence d | _ => cursor end, log ++ [d])]> rs |}
| log_attach m rs n cursor :
    0 <= cursor <= Z.of_nat (length m) ->
    log_step depth {| tl_messages := m; tl_readers := rs |}
      {| tl_messages := m; tl_readers := <[n := (cursor, [])]> rs |}.

Definition reader_view (r : TopicReader) : Z * list Delivery := (rd_cursor r, rd_log r).
Definition abstract (s : TopicSystem) : TopicLog :=
  {| tl_messages := sy_history s; tl_readers := reader_view <$> sy_readers s |}.

Lemma view_quiet (rs : list TopicReader) (n : nat) r r' :
  rs !! n = Some r -> reader_view r' = reader_view r -> reader_view <$> <[n := r']> rs = reader_view <$> rs.
Proof.
  intros Hn Hv. rewrite list_fmap_insert, Hv. apply list_insert_id. by rewrite list_lookup_fmap, Hn.
Qed.

Lemma rd_next_try_view r : reader_view (rd_next_try r) = reader_view r.
Proof. unfold rd_next_try. by case_check. Qed.

(** Only a successful copy changes what a reader has delivered. *)
Lemma rd_step_view c r c' r' :
  rd_step c r = Some (c', r') ->
  reader_view r' = reader_view r \/ exists data, rd_pc r = RUnpin (Some data) /\ r' = rd_deliver data r.
Proof.
  unfold rd_step, copy_step, ReadNext, ReadLatest. intros Hst.
  destruct (rd_pc r) as [| | | | | | | | | | |[data|]|] eqn:Hpc; try done;
    try (destruct (ch_slots c !! rd_slot c r); [|done]);
    try (destruct (rd_mode r)); repeat case_check; try (destruct (sl_data _ !! _)); simplify_eq;
    auto using rd_next_try_view; right; eauto.
Qed.

(** C5: Refinement.  Every step of the channel is either invisible or one
    atomic step of an append-only message log: a commit appends the published
    payload, a successful read appends a delivery of a logged message to the
    reader (a sequential one moves its cursor, skipping only messages that
    [depth] newer ones have displaced), [Open] and [Close] reset a reader.
    Torn publications, retries, pins and claims do not show. *)
Theorem channel_refines_log depth size readers s s' :
  1 <= depth -> topic_reachable depth size readers s -> topic_step s s' ->
  abstract s' = abstract s \/ log_step (ch_depth (sy_channel s)) (abstract s) (abstract s').
Proof.
  intros Hdep Hreach [e Hst]. pose proof (topic_reachable_invariant _ _ _ _ Hdep Hreach) as Hinv.
  destruct s as [c p rs h]. unfold abstract. pose proof (in_history _ Hinv) as Hh. pose proof (in_depth _ Hinv) as Hd.
  destruct e as [value notify|env|n mode|n|n|n start|n]; simpl in *.
  - destruct (pb_pc p); try done. case_check; simplify_eq/=. by left.
  - destruct (pub_step env c p) as [[[c' p'] []]|]; simplify_eq/=; [right; constructor|by left].
  - destruct (rs !! n) as [r|] eqn:Hr; [|done]. destruct (rd_pc r); simplify_eq/=. left. f_equal.
    eapply view_quiet; eauto. unfold rd_call. by case_check.
  - destruct (rs !! n) as [r|] eqn:Hr; [|done]. pose proof (reader_known _ _ _ _ _ _ Hinv Hr) as Hok.
    destruct (rd_step c r) as [[c' r']|] eqn:Hs; simplify_eq/=.
    destruct (rd_step_view _ _ _ _ Hs) as [Hv|(data & Hpc & ->)]; [left; f_equal; by eapply view_quiet|right].
    assert (pinned r = true) as Hp by (unfold pinned; by rewrite Hpc).
    pose proof (ro_next _ _ _ Hok (pinned_searching _ Hp)) as Hnx.
    assert (exists sl, ch_slots c !! rd_slot c r = Some sl) as [sl Hsl].
    { unfold rd_step in Hs. rewrite Hpc in Hs. destruct (ch_slots c !! rd_slot c r); [eauto|done]. }
    pose proof (ro_slot _ _ _ Hok Hp sl Hsl) as Hm. unfold rd_slot_ok in Hm. rewrite Hpc in Hm.
    rewrite list_fmap_insert.
    apply (log_read _ h (reader_view <$> rs) n (rd_cursor r) (rd_log r)
      {| dl_mode := rd_mode r; dl_sequence := rd_wanted r;
         dl_missed := match rd_mode r with Next => rd_wanted r - rd_expected r | _ => 0 end; dl_data := data |}); simpl; auto.
    + by rewrite list_lookup_fmap, Hr.
    + destruct (rd_mode r); auto. destruct Hnx as (?&?&?); auto. split_and!; lia.
  - destruct (rs !! n) as [r|] eqn:Hr; simplify_eq/=. left. f_equal. by eapply view_quiet.
  - destruct (rs !! n) as [r|] eqn:Hr; [|done]. destruct (rd_pc r); simplify_eq/=. unfold Open. case_check.
    + left. f_equal. by eapply view_quiet.
    + right. rewrite list_fmap_insert. constructor. simpl. destruct start; [lia|]. case_check; bool_to_prop; lia.
  - destruct (rs !! n) as [r|] eqn:Hr; [|done]. destruct (rd_pc r); simplify_eq/=.
    right. rewrite list_fmap_insert. constructor. simpl. lia.
Qed.

Definition committing_system : TopicSystem :=
  match topic_run (publish_events [1; 2; 3] 13) (topic_initial 2 3 1) with Some s => s | None => topic_initial 2 3 1 end.
Definition committed_system : TopicSystem :=
  match topic_exec (EvPublisher 0) committing_system with Some s => s | None => committing_system end.

Lemma channel_refines_log_witness :
  tl_messages (abstract committing_system) = [] /\ tl_messages (abstract committed_system) = [[1; 2; 3]] /\
  log_step 2 (abstract committing_system) (abstract committed_system).
Proof.
  split; [vm_compute; reflexivity|]. split; [vm_compute; reflexivity|].
  destruct (channel_refines_log 2 3 1 committing_system committed_system ltac:(lia)) as [H|H].
  - apply (topic_run_reachable (publish_events [1; 2; 3] 13)). vm_compute. reflexivity.
  - exists (EvPublisher 0). vm_compute. reflexivity.
  - exfalso. vm_compute in H. discriminate.
  - exact H.
Defined.

(** ** A read runs to completion *)
(** The reading thread runs alone. *)
Definition read_alone : relation (Channel * TopicReader) := fun x y => rd_step x.1 x.2 = Some y.

Lemma alter_twice (l : list Slot) t s u v :
  l !! t = Some s -> v = sl_users s -> alter (set_users v) t (alter (set_users u) t l) = l.
Proof.
  intros Hs ->. apply list_eq. intros i. destruct (decide (i = t)) as [->|Hi].
  - rewrite !list_lookup_alter_eq, Hs. by destruct s.
  - by rewrite !list_lookup_alter_ne.
Qed.

Section ReadAlone.
Context (c : Channel) (p : Publisher) (rs : list TopicReader) (h : list (list Z)).
Context (Hinv : topic_invariant {| sy_channel := c; sy_publisher := p; sy_readers := rs; sy_history := h |}).
Context (Hmany : Z.of_nat (length rs) < writing - 1).

Lemma pins_bound depth i : pins depth rs i <= Z.of_nat (length rs).
Proof. clear. induction rs as [|r l IH]; simpl; [done|]. destruct (pin_at depth i r); simpl; lia. Qed.

(** A pin that finds the slot free of a claim, up to the check of its content. *)
Definition pinned_channel (r : TopicReader) (s : Slot) : Channel :=
  with_slots (alter (set_users (sl_users s + 1)) (rd_slot c r)) c.

Lemma pin_alone r s :
  rd_pc r = RUsers -> ch_slots c !! rd_slot c r = Some s -> at_slot holds c p (rd_slot c r) = false ->
  rtc read_alone (c, r) (pinned_channel r s, rd_at (RCheck (sl_version s) (ch_publish_sequence c)) r).
Proof.
  intros Hpc Hs Hfree. destruct (in_slots _ Hinv _ s Hs) as [_ Hu _ _]. simpl in Hu. rewrite Hfree in Hu.
  pose proof (pins_bound (ch_depth c) (rd_slot c r)).
  eapply rtc_l with (c, rd_at (RCas (sl_users s)) r).
  { unfold read_alone, rd_step, copy_step. simpl. rewrite Hpc, Hs. case_check; bool_to_prop; [lia|done]. }
  eapply rtc_l with (pinned_channel r s, rd_at RVersion r).
  { unfold read_alone, rd_step, copy_step. simpl. change (rd_slot c (rd_at _ r)) with (rd_slot c r). rewrite Hs.
    by rewrite Z.eqb_refl. }
  assert (ch_slots (pinned_channel r s) !! rd_slot c r = Some (set_users (sl_users s + 1) s)) as Hs'
    by (simpl; by rewrite list_lookup_alter_eq, Hs).
  eapply rtc_l with (pinned_channel r s, rd_at (RLatest (sl_version s)) r).
  { unfold read_alone, rd_step, copy_step. simpl. change (rd_slot _ (rd_at _ r)) with (rd_slot c r).
    simpl in Hs'. by rewrite Hs'. }
  eapply rtc_l; [|reflexivity].
  unfold read_alone, rd_step, copy_step. simpl. change (rd_slot _ (rd_at _ r)) with (rd_slot c r).
  simpl in Hs'. by rewrite Hs'.
Qed.

Lemma unpin_alone r s copy :
  ch_slots c !! rd_slot c r = Some s -> at_slot holds c p (rd_slot c r) = false ->
  read_alone (pinned_channel r s, rd_at (RUnpin copy) r)
    (c, match copy with Some data => rd_deliver data r | None => rd_next_try r end).
Proof.
  intros Hs Hfree. destruct (in_slots _ Hinv _ s Hs) as [_ Hu _ _]. simpl in Hu. rewrite Hfree in Hu.
  pose proof (pins_bound (ch_depth c) (rd_slot c r)). pose proof (pins_nonneg (ch_depth c) rs (rd_slot c r)).
  unfold read_alone, rd_step, copy_step. simpl. change (rd_slot _ (rd_at _ r)) with (rd_slot c r).
  rewrite list_lookup_alter_eq, Hs. simpl.
  replace (u32 (sl_users s + 1 - 1)) with (sl_users s) by (unfold u32, writing in *; rewrite Z.mod_small; lia).
  unfold with_slots; simpl. erewrite alter_twice by done. destruct c, copy; simpl; [done|].
  unfold rd_next_try, rd_return. simpl. by case_check.
Qed.

(** The slot does not hold the wanted message: on to the next one. *)
Lemma skip_alone r s :
  rd_pc r = RUsers -> ch_slots c !! rd_slot c r = Some s ->
  at_slot holds c p (rd_slot c r) = true \/ sl_sequence s <> rd_wanted r ->
  rtc read_alone (c, r) (c, rd_next_try r).
Proof.
  intros Hpc Hs Hno. destruct (at_slot holds c p (rd_slot c r)) eqn:Hh.
  - destruct (in_slots _ Hinv _ s Hs) as [_ Hu _ _]. simpl in Hu. rewrite Hh in Hu.
    eapply rtc_l; [|reflexivity]. unfold read_alone, rd_step, copy_step. simpl. rewrite Hpc, Hs.
    case_check; bool_to_prop; [done|lia].
  - destruct Hno as [?|Hno]; [done|]. etrans; [by apply pin_alone|].
    eapply rtc_l with (pinned_channel r s, rd_at (RUnpin None) r).
    { unfold read_alone, rd_step, copy_step. simpl. change (rd_slot _ (rd_at _ r)) with (rd_slot c r).
      rewrite list_lookup_alter_eq, Hs. simpl.
      rewrite (proj2 (Z.eqb_neq _ _) Hno). by rewrite orb_true_r. }
    eapply rtc_l; [by apply (unpin_alone r s None)|]. reflexivity.
Qed.

(** The slot holds the wanted message: it is delivered. *)
Lemma deliver_alone r s :
  rd_pc r = RUsers -> ch_slots c !! rd_slot c r = Some s -> at_slot holds c p (rd_slot c r) = false ->
  sl_sequence s = rd_wanted r -> rd_wanted r <= ch_publish_sequence c ->
  ch_publish_sequence c - rd_wanted r < ch_depth c ->
  rtc read_alone (c, r) (c, rd_deliver (sl_data s) r).
Proof.
  intros Hpc Hs Hh Hq Hle Hwin. destruct (in_slots _ Hinv _ s Hs) as [Hz _ Hv _]. simpl in *.
  assert (dirty p = true -> holds p = true) as Hdh by (unfold dirty, holds; by destruct (pb_pc p)).
  assert (at_slot dirty c p (rd_slot c r) = false) as Hnd.
  { unfold at_slot in *. destruct (dirty p); [|done]. by rewrite Hdh in Hh. }
  rewrite Hnd in Hv.
  assert (ch_slots (pinned_channel r s) !! rd_slot c r = Some (set_users (sl_users s + 1) s)) as Hs'
    by (simpl; by rewrite list_lookup_alter_eq, Hs).
  etrans; [by apply pin_alone|].
  eapply rtc_l with (pinned_channel r s, rd_at (RCopy (sl_version s) []) r).
  { unfold read_alone, rd_step, copy_step. simpl. change (rd_slot _ (rd_at _ r)) with (rd_slot c r).
    simpl in Hs'. rewrite Hs'. simpl. rewrite Hv, Hq, Z.eqb_refl. simpl.
    rewrite (proj2 (Z.ltb_ge _ _) Hle), (proj2 (Z.leb_gt _ _) Hwin). done. }
  assert (forall k, (k <= ch_size c)%nat ->
    rtc read_alone (pinned_channel r s, rd_at (RCopy (sl_version s) []) r)
                   (pinned_channel r s, rd_at (RCopy (sl_version s) (take k (sl_data s))) r)) as Hcopy.
  { induction k as [|k IH]; intros Hk; [done|]. eapply rtc_r; [apply IH; lia|].
    unfold read_alone, rd_step, copy_step. simpl. change (rd_slot _ (rd_at _ r)) with (rd_slot c r).
    simpl in Hs'. rewrite Hs'. rewrite length_take_le by lia. simpl.
    destruct (Nat.ltb_spec k (ch_size c)); [|lia].
    destruct (lookup_lt_is_Some_2 (sl_data s) k) as [b Hb]; [lia|]. rewrite Hb. by rewrite (take_S_r _ _ _ Hb). }
  etrans; [apply (Hcopy (ch_size c)); lia|]. rewrite take_ge by lia.
  eapply rtc_l with (pinned_channel r s, rd_at (RAfter (sl_version s) (sl_data s)) r).
  { unfold read_alone, rd_step, copy_step. simpl. change (rd_slot _ (rd_at _ r)) with (rd_slot c r).
    simpl in Hs'. rewrite Hs'. rewrite Hz. by rewrite Nat.ltb_irrefl. }
  eapply rtc_l with (pinned_channel r s, rd_at (RUnpin (Some (sl_data s))) r).
  { unfold read_alone, rd_step, copy_step. simpl. change (rd_slot _ (rd_at _ r)) with (rd_slot c r).
    simpl in Hs'. rewrite Hs'. simpl. by rewrite Z.eqb_refl, Hv. }
  eapply rtc_l; [by apply (unpin_alone r s (Some (sl_data s)))|]. reflexivity.
Qed.
End ReadAlone.

(** What a successful read leaves in the reader. *)
Definition delivered (mode : ReadMode) (q missed : Z) (data : list Z) (r r' : TopicReader) : Prop :=
  rd_pc r' = RIdle /\ rd_result r' = 0 /\
  rd_log r' = rd_log r ++ [{| dl_mode := mode; dl_sequence := q; dl_missed := missed; dl_data := data |}] /\
  rd_cursor r' = match mode with Next => q | _ => rd_cursor r end.

Lemma read_alone_run c p rs h n r x :
  rs !! n = Some r -> rtc read_alone (c, r) x ->
  exists k, topic_run (repeat (EvReader n) k) {| sy_channel := c; sy_publisher := p; sy_readers := rs; sy_history := h |} =
    Some {| sy_channel := x.1; sy_publisher := p; sy_readers := <[n := x.2]> rs; sy_history := h |}.
Proof.
  intros Hn Hr. remember (c, r) as y eqn:Hy. revert c r rs Hy Hn.
  induction Hr as [y|y z x Hyz Hzx IH]; intros c r rs -> Hn.
  - exists 0%nat. simpl. by rewrite list_insert_id.
  - destruct z as [c' r']. destruct (IH c' r' (<[n := r']> rs)) as [k Hk]; [done| |].
    { apply list_lookup_insert_eq. by eapply lookup_lt_Some. }
    exists (S k). simpl. rewrite Hn. unfold read_alone in Hyz. simpl in Hyz. rewrite Hyz, Hk. do 2 f_equal.
    apply list_insert_insert_eq.
Qed.

(** The slot of a retained message is not claimed, unless the publisher has
    just taken it to look at its sequence. *)
Lemma retained_slot_free c p rs h i s :
  topic_invariant {| sy_channel := c; sy_publisher := p; sy_readers := rs; sy_history := h |} ->
  pb_pc p <> PCheck -> ch_slots c !! i = Some s -> at_slot torn c p i = false ->
  1 <= sl_sequence s <= ch_publish_sequence c -> ch_publish_sequence c - sl_sequence s < ch_depth c ->
  at_slot holds c p i = false.
Proof.
  intros Hinv Hck Hs Ht Hr Hwin. destruct (at_slot holds c p i) eqn:Hh; [|done]. exfalso.
  unfold at_slot in Hh. apply andb_true_iff in Hh as [Hh Hi]. apply Nat.eqb_eq in Hi. subst i. rewrite at_slot_own in Ht.
  destruct (in_pub _ Hinv) as [_ Hseq Htry _ Hps]. simpl in *. rewrite Hh in *.
  specialize (Hps eq_refl s Hs). specialize (Htry eq_refl).
  destruct (claimed_slot _ _ _ _ Hinv s Hs Hh) as (_ & _ & _ & _ & Hc). specialize (Hc Ht).
  destruct Hseq as [Hsq _]; [unfold holds, numbered in *; by destruct (pb_pc p)|].
  assert (retained_sequence (ch_depth c) (pb_sequence p) = sl_sequence s) as Hre.
  { destruct Hc as [|[_ Hg]]; [lia|]. unfold pub_slot in Hg.
    rewrite slot_index_group in Hg by (auto; apply (in_depth _ Hinv)). rewrite Hsq in *.
    by destruct (same_entry_retained _ _ _ (in_depth _ Hinv) Hr Hwin (eq_sym Hg)). }
  unfold pub_slot_ok, holds, torn in *. destruct (pb_pc p); try done; try (apply Hps; lia); lia.
Qed.

Lemma search_alone c p rs h :
  topic_invariant {| sy_channel := c; sy_publisher := p; sy_readers := rs; sy_history := h |} ->
  Z.of_nat (length rs) < writing - 1 -> pb_pc p <> PCheck ->
  forall k r s, rd_pc r = RUsers -> (rd_try r <= k < 3)%nat ->
  ch_slots c !! slot_index (ch_depth c) (rd_wanted r) k = Some s ->
  at_slot torn c p (slot_index (ch_depth c) (rd_wanted r) k) = false -> sl_sequence s = rd_wanted r ->
  1 <= rd_wanted r <= ch_publish_sequence c -> ch_publish_sequence c - rd_wanted r < ch_depth c ->
  exists data r', rtc read_alone (c, r) (c, r') /\ message h (rd_wanted r) = Some data /\
  delivered (rd_mode r) (rd_wanted r)
    (match rd_mode r with Next => rd_wanted r - rd_expected r | _ => 0 end) data r r'.
Proof.
  intros Hinv Hmany Hck k r s Hpc Hk Hs Ht Hq Hr Hwin. remember (k - rd_try r)%nat as m eqn:Hm.
  revert r Hpc Hk Hs Ht Hq Hr Hwin Hm. induction m as [m IH] using lt_wf_ind. intros r Hpc Hk Hs Ht Hq Hr Hwin Hm.
  assert (exists s0, ch_slots c !! rd_slot c r = Some s0) as [s0 Hs0].
  { apply lookup_lt_is_Some. pose proof (in_length _ Hinv) as Hl. simpl in Hl. rewrite Hl.
    apply slot_index_bound; [apply (in_depth _ Hinv)|lia]. }
  destruct (decide (at_slot holds c p (rd_slot c r) = false /\ sl_sequence s0 = rd_wanted r)) as [[Hh Hq0]|Hno].
  - exists (sl_data s0). eexists. split; [apply (deliver_alone c p rs h Hinv Hmany r s0); auto; lia|]. split; [|by split_and!].
    destruct (in_slots _ Hinv _ s0 Hs0) as [_ _ _ Hc]. simpl in Hc.
    destruct Hc as [|[Hmsg _]]; [|lia|].
    { unfold at_slot in *. destruct (torn p) eqn:E; [|done]. by rewrite (torn_holds _ E) in Hh. }
    rewrite Hq0 in Hmsg. pose proof (in_history _ Hinv). simpl in *.
    eapply message_restrict; [apply log_of_prefix| |done]. lia.
  - assert (rd_try r <> k) as Hne.
    { intros <-. apply Hno. unfold rd_slot in *. simplify_eq. split; [|done].
      eapply retained_slot_free; eauto; by rewrite Hq. }
    assert (rtc read_alone (c, r) (c, rd_next_try r)) as Hskip.
    { eapply skip_alone; eauto. destruct (at_slot holds c p (rd_slot c r)); [by left|right; naive_solver]. }
    unfold rd_next_try in Hskip. destruct (Nat.ltb_spec (S (rd_try r)) 3); [|lia].
    match type of Hskip with rtc _ _ (_, ?r1) => destruct (IH (k - S (rd_try r))%nat ltac:(lia) r1) as (data & r' & Hrun & Hd);
      simpl; auto; [lia|] end.
    exists data, r'. split; [by etrans|]. done.
Qed.

(** The sequence a read operation is due to deliver. *)
Definition due_sequence (mode : ReadMode) (c : Channel) (r : TopicReader) : Z :=
  match mode with
  | Next => Z.max (rd_cursor r + 1) (ch_publish_sequence c - ch_depth c + 1)
  | _ => ch_publish_sequence c
  end.
Definition due_missed (mode : ReadMode) (c : Channel) (r : TopicReader) : Z :=
  match mode with Next => due_sequence Next c r - (rd_cursor r + 1) | _ => 0 end.
(** There is something to read. *)
Definition readable (mode : ReadMode) (c : Channel) (r : TopicReader) : Prop :=
  match mode with Next => rd_cursor r < ch_publish_sequence c | _ => 1 <= ch_publish_sequence c end.

Lemma read_enter_alone c r mode :
  rd_mapped r = true -> rd_stopped r = false -> readable mode c r -> 1 <= ch_depth c -> 0 <= rd_cursor r ->
  exists r', rtc read_alone (c, rd_call mode r) (c, r') /\
  rd_pc r' = RUsers /\ rd_mode r' = mode /\ rd_wanted r' = due_sequence mode c r /\ rd_try r' = 0%nat /\
  rd_cursor r' = rd_cursor r /\ rd_log r' = rd_log r /\
  match mode with Next => rd_expected r' = rd_cursor r + 1 | _ => True end.
Proof.
  intros Hmap Hstop Hrd Hd Hc.
  exists (rd_search (match mode with Next => rd_cursor r + 1 | _ => ch_publish_sequence c end) (due_sequence mode c r)
    (rd_at RLoad (rd_call mode r))).
  assert (read_alone (c, rd_at RLoad (rd_call mode r))
    (c, rd_search (match mode with Next => rd_cursor r + 1 | _ => ch_publish_sequence c end) (due_sequence mode c r)
    (rd_at RLoad (rd_call mode r)))) as Hload.
  { unfold read_alone, rd_step, rd_call. simpl. rewrite Hmap. simpl. do 2 f_equal.
    unfold readable, due_sequence, ReadNext, ReadLatest in *.
    destruct mode; simpl; repeat (case_check; bool_to_prop); try lia; try done; f_equal; lia. }
  assert (read_alone (c, rd_at RStop (rd_call mode r)) (c, rd_at RLoad (rd_call mode r))) as Hst.
  { unfold read_alone, rd_step, rd_call. simpl. rewrite Hmap. simpl. by rewrite Hstop. }
  split; [|unfold rd_call; rewrite Hmap; by destruct mode].
  destruct mode.
  1, 2: eapply rtc_l; [|eapply rtc_l; [exact Hload|reflexivity]]; revert Hst; unfold rd_call; by rewrite Hmap.
  eapply rtc_l with (c, rd_at RStop (rd_call Snapshot r)); [|eapply rtc_l; [exact Hst|eapply rtc_l; [exact Hload|reflexivity]]].
  unfold read_alone, rd_step, rd_call. simpl. rewrite Hmap. simpl. by rewrite Hstop.
Qed.

(** C38: Reads complete and the ring keeps the last [depth] messages.  In any
    reachable state, whatever slots other readers have pinned (a crashed reader
    keeps its pin) and wherever the publisher stands (even dead in the middle
    of overwriting a slot; only the instant between its claim of a slot and its
    look at the slot's sequence is excepted), and as long as there are fewer
    readers than a slot can count pins, a reader that is mapped and not stopped,
    has something to read (a message was published; for [ReadNext], one after
    its cursor) and runs on its own finishes [ReadNext] / [ReadLatest] / [ReadLatestSnapshot] with result 0:
    [ReadNext] returns the message after the cursor or the oldest of the last
    [depth], with the exact number of messages missed, the other two return the
    latest message; the channel is left as it was found. *)
Theorem topic_read_completes depth size readers s n r mode :
  1 <= depth -> topic_reachable depth size readers s ->
  Z.of_nat (length (sy_readers s)) < writing - 1 -> pb_pc (sy_publisher s) <> PCheck ->
  sy_readers s !! n = Some r -> rd_pc r = RIdle -> rd_mapped r = true -> rd_stopped r = false ->
  readable mode (sy_channel s) r ->
  exists k s' r' data, topic_run (read_events n mode k) s = Some s' /\
  sy_channel s' = sy_channel s /\ sy_readers s' !! n = Some r' /\
  message (sy_history s) (due_sequence mode (sy_channel s) r) = Some data /\
  delivered mode (due_sequence mode (sy_channel s) r) (due_missed mode (sy_channel s) r) data r r'.
Proof.
  intros Hdep Hreach Hmany Hck Hn Hpc Hmap Hstop Hrd. pose proof (topic_reachable_invariant _ _ _ _ Hdep Hreach) as Hinv.
  destruct s as [c p rs h]. pose proof (reader_known _ _ _ _ _ _ Hinv Hn) as Hok. simpl in *.
  pose proof (in_depth _ Hinv) as Hd. simpl in Hd. pose proof (ro_cursor _ _ _ Hok) as Hcur.
  destruct (read_enter_alone c r mode) as (r1 & Hin & Hpc1 & Hm1 & Hw1 & Ht1 & Hc1 & Hl1 & He1); auto; [lia|].
  set (q := due_sequence mode c r) in *.
  assert (1 <= q <= ch_publish_sequence c /\ ch_publish_sequence c - q < ch_depth c) as [Hq Hwin].
  { unfold q, due_sequence, readable in *. destruct mode; lia. }
  destruct (in_retention _ Hinv q Hq Hwin) as (i & sl & Hi & Ht & Hsq). simpl in *.
  destruct (so_content _ _ _ _ _ _ (in_slots _ Hinv i sl Hi) Ht) as [|[_ Hg]]; [lia|]. simpl in Hg. rewrite Hsq in Hg.
  destruct (group_slot_index _ _ _ Hd Hg) as (k & Hk & ->).
  destruct (search_alone c p rs h Hinv Hmany Hck k r1 sl) as (data & r' & Hrun & Hmsg & Hdel);
    rewrite ?Hw1, ?Ht1; auto; [lia|].
  rewrite Hw1 in Hmsg, Hdel.
  destruct (read_alone_run c p (<[n := rd_call mode r]> rs) h n (rd_call mode r) (c, r')) as [j Hj].
  { apply list_lookup_insert_eq. by eapply lookup_lt_Some. } { by etrans. }
  exists j. eexists. exists r', data. split; [simpl; rewrite Hn, Hpc; exact Hj|]. simpl. split; [done|].
  split. { rewrite list_insert_insert_eq. apply list_lookup_insert_eq. by eapply lookup_lt_Some. }
  split; [done|]. unfold delivered in *. rewrite Hm1, Hl1, Hc1 in Hdel. unfold due_missed. fold q.
  destruct mode; try done. by rewrite He1 in Hdel.
Qed.

(** The reader of the sample run reads on, with the publisher dead in the
    middle of its fourth publication. *)
Definition sample_idle : TopicSystem :=
  match topic_run (repeat (EvReader 0) 5) sample_system with Some s => s | None => sample_system end.

Lemma topic_read_completes_witness :
  exists k s', topic_run (read_events 0 Next k) sample_idle = Some s' /\
  message (sy_history sample_idle) 3 = Some [7; 8; 9] /\ pb_pc (sy_publisher sample_idle) = PCopy 0.
Proof.
  destruct (sy_readers sample_idle) as [|r rs] eqn:E; [vm_compute in E; discriminate|].
  destruct (topic_read_completes 2 3 1 sample_idle 0 r Next ltac:(lia)) as (k & s' & r' & data & Hrun & _).
  - apply (topic_run_reachable (topic_sample_events ++ repeat (EvReader 0) 5)). vm_compute. reflexivity.
  - rewrite E. vm_compute in E. injection E as <- <-. vm_compute. reflexivity.
  - vm_compute. discriminate.
  - rewrite E. reflexivity.
  - vm_compute in E. injection E as <- <-. reflexivity.
  - vm_compute in E. injection E as <- <-. reflexivity.
  - vm_compute in E. injection E as <- <-. reflexivity.
  - vm_compute in E. injection E as <- <-. vm_compute. reflexivity.
  - exists k, s'. split; [exact Hrun|]. split; vm_compute; reflexivity.
Defined.

(** ** A publication runs to completion *)
(** The publishing thread runs alone and the pthread calls succeed. *)
Definition pub_alone : relation (Channel * Publisher * list (list Z)) := fun x y =>
  let '(c, p, h) := x in let '(c', p', h') := y in
  exists committed : bool, pub_step 0 c p = Some (c', p', committed) /\ h' = if committed then h ++ [pb_value p] else h.

Lemma pub_alone_run c p rs h x :
  rtc pub_alone (c, p, h) x ->
  exists k, topic_run (repeat (EvPublisher 0) k) {| sy_channel := c; sy_publisher := p; sy_readers := rs; sy_history := h |} =
    Some {| sy_channel := x.1.1; sy_publisher := x.1.2; sy_readers := rs; sy_history := x.2 |}.
Proof.
  intros Hr. remember (c, p, h) as y eqn:Hy. revert c p h Hy.
  induction Hr as [y|y [[c' p'] h'] x Hyz Hzx IH]; intros c p h ->; [by exists 0%nat|].
  destruct Hyz as (b & Hst & ->). destruct (IH _ _ _ eq_refl) as [k Hk].
  exists (S k). simpl. by rewrite Hst, Hk.
Qed.

Lemma pub_alone_l c p h c' p' (b : bool) x :
  pub_step 0 c p = Some (c', p', b) -> rtc pub_alone (c', p', if b then h ++ [pb_value p] else h) x ->
  rtc pub_alone (c, p, h) x.
Proof. intros Hst Hr. eapply rtc_l; [|exact Hr]. by exists b. Qed.

(** From the broadcast on nothing can fail. *)
Lemma finish_alone c p h :
  pb_pc p = PBroadcast ->
  exists c' p', rtc pub_alone (c, p, h) (c', p', h ++ [pb_value p]) /\
  pb_pc p' = PIdle /\ pb_result p' = 0 /\ pb_locked p' = false.
Proof.
  intros Hpc.
  assert (forall c p, pb_pc p = PSequence -> exists c' p', rtc pub_alone (c, p, h) (c', p', h ++ [pb_value p]) /\
    pb_pc p' = PIdle /\ pb_result p' = 0 /\ pb_locked p' = false) as Hseq.
  { clear. intros c p Hpc. do 2 eexists. split.
    - eapply pub_alone_l. { unfold pub_step. rewrite Hpc. done. }
      do 4 (eapply pub_alone_l; [reflexivity|]). reflexivity.
    - done. }
  assert (forall m c p k, pb_pc p = PCopy k -> (m = length (pb_value p) - k)%nat ->
    exists c' p', rtc pub_alone (c, p, h) (c', p', h ++ [pb_value p]) /\
    pb_pc p' = PIdle /\ pb_result p' = 0 /\ pb_locked p' = false) as Hcopy.
  { clear -Hseq. induction m as [|m IH]; intros c p k Hpc Hm.
    - destruct (Hseq c (at_pc PSequence p) eq_refl) as (c' & p' & Hr & Hx). exists c', p'. split; [|done].
      eapply (pub_alone_l _ _ _ _ _ false); [|exact Hr]. unfold pub_step. rewrite Hpc.
      by rewrite lookup_ge_None_2 by lia.
    - destruct (lookup_lt_is_Some_2 (pb_value p) k) as [b Hb]; [lia|].
      destruct (IH (with_slots (alter (set_byte k b) (pub_slot c p)) c) (at_pc (PCopy (S k)) p) (S k) eq_refl) as (c' & p' & Hr & Hx);
        [simpl; lia|]. exists c', p'. split; [|done].
      eapply (pub_alone_l _ _ _ _ _ false); [|exact Hr]. unfold pub_step. by rewrite Hpc, Hb. }
  destruct (Hcopy _ (with_slots (alter bump_version (pub_slot c p)) c) (at_pc (PCopy 0) p) 0%nat eq_refl eq_refl)
    as (c' & p' & Hr & Hx). exists c', p'. split; [|done].
  eapply (pub_alone_l _ _ _ _ _ false). { unfold pub_step. rewrite Hpc, andb_false_r. done. }
  eapply (pub_alone_l _ _ _ _ _ false); [reflexivity|exact Hr].
Qed.

Definition claimable (c : Channel) (q : Z) (s : Slot) : Prop :=
  sl_users s = 0 /\ (retained_sequence (ch_depth c) q <> 0 -> sl_sequence s <> retained_sequence (ch_depth c) q).

Lemma claim_alone c h k s :
  (k < 3)%nat -> (forall i q, (i < 3)%nat -> exists s, ch_slots c !! slot_index (ch_depth c) q i = Some s) ->
  forall p, pb_pc p = PTry -> (pb_try p <= k)%nat ->
  ch_slots c !! slot_index (ch_depth c) (pb_sequence p) k = Some s -> claimable c (pb_sequence p) s ->
  exists c' p', rtc pub_alone (c, p, h) (c', p', h ++ [pb_value p]) /\
  pb_pc p' = PIdle /\ pb_result p' = 0 /\ pb_locked p' = false.
Proof.
  intros Hk Hall p Hpc Hle Hs Hok. remember (k - pb_try p)%nat as m eqn:Hm. revert p Hpc Hle Hs Hok Hm.
  induction m as [m IH] using lt_wf_ind. intros p Hpc Hle Hs [Hu Hret] Hm.
  destruct (Hall (pb_try p) (pb_sequence p)) as [s0 Hs0]; [lia|]. fold (pub_slot c p) in Hs0.
  assert ((3 <=? pb_try p)%nat = false) as H3 by (apply Nat.leb_gt; lia).
  assert (pb_try p <> k -> rtc pub_alone (c, p, h) (c, pub_next_try p, h) -> exists c' p',
    rtc pub_alone (c, p, h) (c', p', h ++ [pb_value p]) /\ pb_pc p' = PIdle /\ pb_result p' = 0 /\ pb_locked p' = false) as Hnext.
  { intros Hne Hr. destruct (IH (k - S (pb_try p))%nat ltac:(lia) (pub_next_try p)) as (c' & p' & Hr' & Hx);
      simpl; auto; [lia|by split|]. exists c', p'. split; [by etrans|done]. }
  destruct (Z.eqb_spec (sl_users s0) 0) as [Hu0|Hu0].
  - assert (ch_slots (with_slots (alter (set_users writing) (pub_slot c p)) c) !! pub_slot c p = Some (set_users writing s0)) as Hs1
      by (simpl; by rewrite list_lookup_alter_eq, Hs0).
    assert (pub_alone (c, p, h) (with_slots (alter (set_users writing) (pub_slot c p)) c, at_pc PCheck p, h)) as Hclaim.
    { exists false. unfold pub_step. rewrite Hpc, H3, Hs0, Hu0. done. }
    destruct (negb (retained_sequence (ch_depth c) (pb_sequence p) =? 0) &&
              (sl_sequence s0 =? retained_sequence (ch_depth c) (pb_sequence p))) eqn:Hr.
    + apply Hnext.
      * intros He. unfold pub_slot in Hs0. rewrite He in Hs0. simplify_eq. bool_to_prop. naive_solver.
      * eapply rtc_l; [exact Hclaim|]. eapply (pub_alone_l _ _ _ _ _ false); [|reflexivity].
        unfold pub_step. simpl pb_pc. cbv iota. change (pub_slot _ (at_pc PCheck p)) with (pub_slot c p). rewrite Hs1. simpl.
        rewrite Hr. do 3 f_equal. unfold with_slots. simpl. erewrite alter_twice by done. by destruct c.
    + destruct (finish_alone (with_slots (alter (set_users writing) (pub_slot c p)) c) (at_pc PBroadcast p) h eq_refl)
        as (c' & p' & Hf & Hx). exists c', p'. split; [|done].
      eapply rtc_l; [exact Hclaim|]. eapply (pub_alone_l _ _ _ _ _ false); [|exact Hf].
      unfold pub_step. simpl pb_pc. cbv iota. change (pub_slot _ (at_pc PCheck p)) with (pub_slot c p). rewrite Hs1. simpl.
      by rewrite Hr.
  - apply Hnext; [intros He; unfold pub_slot in Hs0; rewrite He in Hs0; by simplify_eq|].
    eapply (pub_alone_l _ _ _ _ _ false); [|reflexivity]. unfold pub_step. rewrite Hpc, H3, Hs0.
    by rewrite (proj2 (Z.eqb_neq _ _) Hu0).
Qed.

(** The number of readers inside a slot. *)
Definition pinned_count (rs : list TopicReader) : Z := foldr (fun r n => Z.b2z (pinned r) + n) 0 rs.

Lemma pins_three depth rs i j k :
  i <> j -> j <> k -> i <> k -> pins depth rs i + pins depth rs j + pins depth rs k <= pinned_count rs.
Proof.
  intros ???. induction rs as [|r rs IH]; simpl; [lia|].
  assert (Z.b2z (pin_at depth i r) + Z.b2z (pin_at depth j r) + Z.b2z (pin_at depth k r) <= Z.b2z (pinned r)); [|lia].
  unfold pin_at. destruct (pinned r); [|done]. simpl.
  destruct (Nat.eqb_spec (slot_index depth (rd_wanted r) (rd_try r)) i),
    (Nat.eqb_spec (slot_index depth (rd_wanted r) (rd_try r)) j),
    (Nat.eqb_spec (slot_index depth (rd_wanted r) (rd_try r)) k); simpl; lia.
Qed.

(** Of the three slots of an entry one is free: at most one is pinned, at most
    one holds the retained message. *)
Lemma claimable_exists c p rs h q :
  topic_invariant {| sy_channel := c; sy_publisher := p; sy_readers := rs; sy_history := h |} ->
  holds p = false -> pinned_count rs <= 1 ->
  exists k s, (k < 3)%nat /\ ch_slots c !! slot_index (ch_depth c) q k = Some s /\ claimable c q s.
Proof.
  intros Hinv Hh Hone.
  assert (forall k, (k < 3)%nat -> exists s, ch_slots c !! slot_index (ch_depth c) q k = Some s) as Hall.
  { intros k Hk. apply lookup_lt_is_Some. pose proof (in_length _ Hinv) as Hl. simpl in Hl. rewrite Hl.
    apply slot_index_bound; [apply (in_depth _ Hinv)|lia]. }
  destruct (Hall 0%nat ltac:(lia)) as [s0 H0], (Hall 1%nat ltac:(lia)) as [s1 H1], (Hall 2%nat ltac:(lia)) as [s2 H2].
  pose proof (pins_three (ch_depth c) rs (slot_index (ch_depth c) q 0) (slot_index (ch_depth c) q 1) (slot_index (ch_depth c) q 2)
    ltac:(unfold slot_index; lia) ltac:(unfold slot_index; lia) ltac:(unfold slot_index; lia)) as Hsum.
  assert (forall i s, ch_slots c !! i = Some s -> sl_users s = pins (ch_depth c) rs i /\ 0 <= pins (ch_depth c) rs i) as Hu.
  { intros i s Hi. pose proof (so_users _ _ _ _ _ _ (in_slots _ Hinv i s Hi)) as Hus. simpl in Hus.
    rewrite at_slot_off in Hus by done. split; [apply Hus|apply pins_nonneg]. }
  assert (torn p = false) as Ht by (destruct (torn p) eqn:E; [by rewrite (torn_holds _ E) in Hh|done]).
  assert (forall i j s s', ch_slots c !! i = Some s -> ch_slots c !! j = Some s' -> i <> j ->
    sl_sequence s = retained_sequence (ch_depth c) q -> retained_sequence (ch_depth c) q <> 0 ->
    sl_sequence s' <> retained_sequence (ch_depth c) q) as Hd.
  { intros i j s s' Hi Hj Hij Hr Hnz Hr'. apply Hij.
    eapply (in_distinct _ Hinv i j s s'); eauto; simpl; try (by apply at_slot_off); congruence. }
  destruct (Hu _ _ H0), (Hu _ _ H1), (Hu _ _ H2).
  pose proof (Hd _ _ _ _ H0 H1 ltac:(unfold slot_index; lia)).
  pose proof (Hd _ _ _ _ H0 H2 ltac:(unfold slot_index; lia)).
  pose proof (Hd _ _ _ _ H1 H2 ltac:(unfold slot_index; lia)).
  destruct (decide (claimable c q s0)); [by exists 0%nat, s0; split_and!; [lia|..]|].
  destruct (decide (claimable c q s1)); [by exists 1%nat, s1; split_and!; [lia|..]|].
  exists 2%nat, s2. split_and!; [lia|done|]. unfold claimable in *. lia.
Qed.

(** Publications complete.  In any reachable state in which the previous
    call has returned and at most one reader is inside a slot, [Publish] and
    [TryPublishSnapshot] running on their own (with the pthread calls
    succeeding) return 0 after committing exactly the given payload as the next
    message, and release the notification mutex: of the three slots per ring
    entry at most one is pinned and at most one holds the message that must be
    kept, so the search never ends in -EAGAIN. *)
Theorem topic_publish_completes depth size readers s value notify :
  1 <= depth -> topic_reachable depth size readers s ->
  pb_pc (sy_publisher s) = PIdle -> pb_mapped (sy_publisher s) = true -> pb_publisher (sy_publisher s) = true ->
  length value = ch_size (sy_channel s) -> ch_publish_sequence (sy_channel s) < UINT64_MAX ->
  pinned_count (sy_readers s) <= 1 ->
  exists k s', topic_run (EvPublish value notify :: repeat (EvPublisher 0) k) s = Some s' /\
  pb_pc (sy_publisher s') = PIdle /\ pb_result (sy_publisher s') = 0 /\ pb_locked (sy_publisher s') = false /\
  sy_history s' = sy_history s ++ [value] /\ sy_readers s' = sy_readers s.
Proof.
  intros Hdep Hreach Hpc Hmap Hpub Hlen Hmax Hone. pose proof (topic_reachable_invariant _ _ _ _ Hdep Hreach) as Hinv.
  destruct s as [c p rs h]. simpl in *.
  assert (holds p = false) as Hh by (unfold holds; by rewrite Hpc).
  destruct (claimable_exists c p rs h (ch_publish_sequence c + 1) Hinv Hh Hone) as (k & sl & Hk & Hsl & Hok).
  assert (forall i q, (i < 3)%nat -> exists s, ch_slots c !! slot_index (ch_depth c) q i = Some s) as Hall.
  { intros i q Hi. apply lookup_lt_is_Some. pose proof (in_length _ Hinv) as Hl. simpl in Hl. rewrite Hl.
    apply slot_index_bound; [apply (in_depth _ Hinv)|lia]. }
  set (p1 := pub_call value notify p). assert (pb_pc p1 = PLock /\ pb_value p1 = value) as [Hp1 Hv1].
  { unfold p1, pub_call. rewrite Hmap, Hpub. done. }
  set (p2 := if notify then pub_lock PLoad p1 else at_pc PLoad p1).
  assert (pb_pc p2 = PLoad /\ pb_value p2 = value) as [Hp2 Hv2] by (unfold p2; by destruct notify).
  destruct (claim_alone c h k sl Hk Hall (pub_start_try (ch_publish_sequence c + 1) p2) eq_refl ltac:(simpl; lia) Hsl Hok)
    as (c' & p' & Hrun & Hx). simpl pb_value in Hrun. rewrite Hv2 in Hrun.
  destruct (pub_alone_run c p1 rs h (c', p', h ++ [value])) as [j Hj].
  { eapply (pub_alone_l _ _ _ c p2 false).
    { unfold pub_step. rewrite Hp1. unfold p2. assert (pb_notify p1 = notify) as ->
        by (unfold p1, pub_call; by rewrite Hmap, Hpub). by destruct notify. }
    eapply (pub_alone_l _ _ _ _ _ false); [|exact Hrun].
    unfold pub_step. rewrite Hp2. case_check; bool_to_prop; [lia|done]. }
  exists j. eexists. split; [simpl; rewrite Hpc, Hlen, Nat.eqb_refl; exact Hj|]. simpl. naive_solver.
Qed.

Lemma topic_publish_completes_witness :
  exists k s', topic_run (EvPublish [9; 9; 9] true :: repeat (EvPublisher 0) k) (topic_initial 1 3 2) = Some s' /\
  sy_history s' = [[9; 9; 9]].
Proof.
  destruct (topic_publish_completes 1 3 2 (topic_initial 1 3 2) [9; 9; 9] true ltac:(lia)) as (k & s' & Hrun & _ & _ & _ & Hh & _).
  - apply rtc_refl.
  - reflexivity.
  - reflexivity.
  - reflexivity.
  - reflexivity.
  - vm_compute. reflexivity.
  - vm_compute. discriminate.
  - exists k, s'. split; [exact Hrun|exact Hh].
Defined.
