(* ===== verification/ParameterStore.v ===== *)
(** * The Parameter store: a crash-atomic shared register

    [RecoverParameter], [GetParameter] and [SetParameter] of
    [kcf/include/kcf/ipc/detail/storage_access.hpp] with [Get], [Set], [Wait] and
    [StopWait] of [SharedParameter<T>]
    ([kcf/include/kcf/parameter/shared_parameter.hpp]), as a system of any number
    of client threads over one [ParameterStorage].  Every store to the shared
    storage is a step of its own ([memcpy] one step per byte) and a client can
    die before any of them; the robust process-shared mutex follows POSIX: the
    death of its holder makes the next lock return EOWNERDEAD, and unlocking it
    without [pthread_mutex_consistent] makes it unrecoverable. *)
From S2P Require Import Prelude.

(** ** Shared storage *)
Record Storage := {
  st_version : Z;
  st_previous_version : Z;
  st_active_index : nat;
  st_previous_active : nat;
  st_transaction_active : Z;
  st_slots : list (list Z) (** [value_slots[2][sizeof(T)]] *)
}.

Definition st_set_active (i : nat) (s : Storage) : Storage :=
  {| st_version := st_version s; st_previous_version := st_previous_version s; st_active_index := i;
     st_previous_active := st_previous_active s; st_transaction_active := st_transaction_active s; st_slots := st_slots s |}.
Definition st_set_version (v : Z) (s : Storage) : Storage :=
  {| st_version := v; st_previous_version := st_previous_version s; st_active_index := st_active_index s;
     st_previous_active := st_previous_active s; st_transaction_active := st_transaction_active s; st_slots := st_slots s |}.
Definition st_save_active (s : Storage) : Storage :=
  {| st_version := st_version s; st_previous_version := st_previous_version s; st_active_index := st_active_index s;
     st_previous_active := st_active_index s; st_transaction_active := st_transaction_active s; st_slots := st_slots s |}.
Definition st_save_version (s : Storage) : Storage :=
  {| st_version := st_version s; st_previous_version := st_version s; st_active_index := st_active_index s;
     st_previous_active := st_previous_active s; st_transaction_active := st_transaction_active s; st_slots := st_slots s |}.
Definition st_set_transaction (x : Z) (s : Storage) : Storage :=
  {| st_version := st_version s; st_previous_version := st_previous_version s; st_active_index := st_active_index s;
     st_previous_active := st_previous_active s; st_transaction_active := x; st_slots := st_slots s |}.
Definition st_set_byte (i k : nat) (b : Z) (s : Storage) : Storage :=
  {| st_version := st_version s; st_previous_version := st_previous_version s; st_active_index := st_active_index s;
     st_previous_active := st_previous_active s; st_transaction_active := st_transaction_active s;
     st_slots := alter (fun slot => <[k := b]> slot) i (st_slots s) |}.

(** A robust mutex. *)
Inductive Mutex :=
| Free
| Held (n : nat)         (** locked by client [n], state consistent *)
| HeldDead (n : nat)     (** locked by [n] after EOWNERDEAD, not yet made consistent *)
| OwnerDied              (** the holder died; the next lock returns EOWNERDEAD *)
| NotRecoverable.

(** ** Clients *)
Inductive Operation :=
| OpGet
| OpSet (value : list Z)
| OpWait (last_version : Z)
| OpStop.

Inductive ClientPc :=
| CIdle
| CDead
| CLock                            (** [pthread_mutex_lock] *)
| CRecoverTest                     (** [if(s.transaction_active.load())] *)
| CRecoverActive                   (** [s.active_index=s.previous_active] *)
| CRecoverVersion                  (** [s.version=s.previous_version] *)
| CRecoverEnd                      (** [s.transaction_active.store(0)] *)
| CConsistent                      (** [pthread_mutex_consistent] *)
| CEnter                           (** the lock is held and the state recovered *)
| CCopyOut (copy : list Z)         (** next byte of [memcpy(value, values+active_index*size, size)] *)
| CReadVersion (copy : list Z)     (** [*version=s.version] *)
| CSaveActive                      (** [s.previous_active=s.active_index] *)
| CSaveVersion                     (** [s.previous_version=s.version] *)
| CBegin                           (** [s.transaction_active.store(1)] *)
| CCopyIn (k : nat)                (** byte [k] of [memcpy(values+inactive*size, value, size)] *)
| CFlip                            (** [s.active_index=inactive] *)
| CBump                            (** [s.version=s.previous_version+1] *)
| CCommit                          (** [s.transaction_active.store(0)] *)
| CSleep                           (** [pthread_cond_timedwait] releases the mutex *)
| CRelock                          (** and takes it again on wake-up or timeout *)
| CUnlock (code : Z) (read : option (Z * list Z)). (** [pthread_mutex_unlock] and return *)

Record Client := {
  cl_pc : ClientPc;
  cl_op : Operation;
  cl_object : nat;              (** the [SharedParameter] object the call is on *)
  cl_result : Z;                (** what the last finished call returned *)
  cl_reads : list (Z * list Z)  (** versions and values successful calls returned *)
}.

Definition cl_at (pc : ClientPc) (c : Client) : Client :=
  {| cl_pc := pc; cl_op := cl_op c; cl_object := cl_object c; cl_result := cl_result c; cl_reads := cl_reads c |}.
Definition cl_return (code : Z) (read : option (Z * list Z)) (c : Client) : Client :=
  {| cl_pc := CIdle; cl_op := cl_op c; cl_object := cl_object c; cl_result := code;
     cl_reads := cl_reads c ++ match read with Some r => [r] | None => [] end |}.

(** A [SharedParameter] object: [storage_ != nullptr] and [stopped_]. *)
Record Object := { ob_mapped : bool; ob_stopped : bool }.

Record ParameterSystem := {
  ps_size : nat;                (** [sizeof(T)] *)
  ps_storage : Storage;
  ps_mutex : Mutex;
  ps_objects : list Object;
  ps_clients : list Client;
  ps_history : list (list Z)    (** every committed value, the initial one first *)
}.

Definition with_storage (f : Storage -> Storage) (s : ParameterSystem) : ParameterSystem :=
  {| ps_size := ps_size s; ps_storage := f (ps_storage s); ps_mutex := ps_mutex s; ps_objects := ps_objects s;
     ps_clients := ps_clients s; ps_history := ps_history s |}.
Definition with_mutex (m : Mutex) (s : ParameterSystem) : ParameterSystem :=
  {| ps_size := ps_size s; ps_storage := ps_storage s; ps_mutex := m; ps_objects := ps_objects s;
     ps_clients := ps_clients s; ps_history := ps_history s |}.
Definition with_object (o : nat) (x : Object) (s : ParameterSystem) : ParameterSystem :=
  {| ps_size := ps_size s; ps_storage := ps_storage s; ps_mutex := ps_mutex s; ps_objects := <[o := x]> (ps_objects s);
     ps_clients := ps_clients s; ps_history := ps_history s |}.
Definition with_client (n : nat) (c : Client) (s : ParameterSystem) : ParameterSystem :=
  {| ps_size := ps_size s; ps_storage := ps_storage s; ps_mutex := ps_mutex s; ps_objects := ps_objects s;
     ps_clients := <[n := c]> (ps_clients s); ps_history := ps_history s |}.
Definition with_commit (v : list Z) (s : ParameterSystem) : ParameterSystem :=
  {| ps_size := ps_size s; ps_storage := ps_storage s; ps_mutex := ps_mutex s; ps_objects := ps_objects s;
     ps_clients := ps_clients s; ps_history := ps_history s ++ [v] |}.

(** [pthread_mutex_unlock]: giving up a mutex that is still inconsistent makes
    it unrecoverable. *)
Definition mutex_unlock (m : Mutex) : Mutex :=
  match m with HeldDead _ => NotRecoverable | _ => Free end.

Definition no_object : Object := {| ob_mapped := false; ob_stopped := false |}.
Definition stopped (s : ParameterSystem) (c : Client) : bool := ob_stopped (default no_object (ps_objects s !! cl_object c)).

(** [pthread_mutex_lock] (also inside [pthread_cond_timedwait]) by client [n]:
    [None] while it blocks. *)
Definition lock_step (n : nat) (c : Client) (s : ParameterSystem) : option ParameterSystem :=
  match ps_mutex s with
  | Free => Some (with_mutex (Held n) (with_client n (cl_at CEnter c) s))
  | OwnerDied => Some (with_mutex (HeldDead n) (with_client n (cl_at CRecoverTest c) s))
  | NotRecoverable => Some (with_client n (cl_return (- ENOTRECOVERABLE) None c) s)
  | Held _ | HeldDead _ => None
  end.

(** The first step of each operation once the lock is held: the guards of
    [GetParameter] and [SetParameter], the loop test of [Wait], the body of
    [StopWait]. *)
Definition enter_step (n : nat) (c : Client) (s : ParameterSystem) : ParameterSystem :=
  let st := ps_storage s in
  match cl_op c with
  | OpGet =>
      if (1 <? st_active_index st)%nat then with_client n (cl_at (CUnlock (- EPROTO) None) c) s
      else with_client n (cl_at (CCopyOut []) c) s
  | OpSet _ =>
      if (1 <? st_active_index st)%nat then with_client n (cl_at (CUnlock (- EPROTO) None) c) s
      else if st_version st =? UINT64_MAX then with_client n (cl_at (CUnlock (- EOVERFLOW) None) c) s
      else with_client n (cl_at CSaveActive c) s
  | OpWait last =>
      if negb (stopped s c) && (st_version st =? last) then with_client n (cl_at CSleep c) s
      else if stopped s c then with_client n (cl_at (CUnlock (- ECANCELED) None) c) s
      else with_client n (cl_at (CCopyOut []) c) s
  | OpStop => with_object (cl_object c) {| ob_mapped := true; ob_stopped := true |} (with_client n (cl_at (CUnlock 0 None) c) s)
  end.

(** One step of client [n]; [env] is what [pthread_mutex_consistent] returns. *)
Definition client_step (env : Z) (n : nat) (c : Client) (s : ParameterSystem) : option ParameterSystem :=
  let st := ps_storage s in
  let goto pc s' := Some (with_client n (cl_at pc c) s') in
  match cl_pc c with
  | CIdle | CDead => None
  | CLock | CRelock => lock_step n c s
  | CRecoverTest => goto (if st_transaction_active st =? 0 then CConsistent else CRecoverActive) s
  | CRecoverActive => goto CRecoverVersion (with_storage (st_set_active (st_previous_active st)) s)
  | CRecoverVersion => goto CRecoverEnd (with_storage (st_set_version (st_previous_version st)) s)
  | CRecoverEnd => goto CConsistent (with_storage (st_set_transaction 0) s)
  | CConsistent =>
      if env =? 0 then goto CEnter (with_mutex (Held n) s)
      else Some (with_mutex (mutex_unlock (ps_mutex s)) (with_client n (cl_return (- env) None c) s))
  | CEnter => Some (enter_step n c s)
  | CCopyOut copy =>
      if (length copy <? ps_size s)%nat then
        match st_slots st !! st_active_index st with
        | Some slot => match slot !! length copy with
                       | Some b => goto (CCopyOut (copy ++ [b])) s
                       | None => None
                       end
        | None => None
        end
      else goto (CReadVersion copy) s
  | CReadVersion copy => goto (CUnlock 0 (Some (st_version st, copy))) s
  | CSaveActive => goto CSaveVersion (with_storage st_save_active s)
  | CSaveVersion => goto CBegin (with_storage st_save_version s)
  | CBegin => goto (CCopyIn 0) (with_storage (st_set_transaction 1) s)
  | CCopyIn k =>
      match cl_op c with
      | OpSet value =>
          match value !! k with
          | Some b => goto (CCopyIn (S k)) (with_storage (st_set_byte (1 - st_active_index st) k b) s)
          | None => goto CFlip s
          end
      | _ => None
      end
  | CFlip => goto CBump (with_storage (st_set_active (1 - st_active_index st)%nat) s)
  | CBump => goto CCommit (with_storage (st_set_version (st_previous_version st + 1)) s)
  | CCommit =>
      match cl_op c with
      | OpSet value => goto (CUnlock 0 None) (with_commit value (with_storage (st_set_transaction 0) s))
      | _ => None
      end
  | CSleep => goto CRelock (with_mutex (mutex_unlock (ps_mutex s)) s)
  | CUnlock code read => Some (with_mutex (mutex_unlock (ps_mutex s)) (with_client n (cl_return code read c) s))
  end.

Inductive ParameterEvent :=
| EvCall (n : nat) (op : Operation) (object : nat)
| EvStep (n : nat) (env : Z)
| EvCrash (n : nat) (** the process of client [n] dies *)
| EvOpen (o : nat)
| EvClose (o : nat).

Definition crash_mutex (n : nat) (m : Mutex) : Mutex :=
  match m with
  | Held k | HeldDead k => if (k =? n)%nat then OwnerDied else m
  | _ => m
  end.

Definition parameter_exec (e : ParameterEvent) (s : ParameterSystem) : option ParameterSystem :=
  match e with
  | EvCall n op object =>
      match ps_clients s !! n with
      | Some c =>
          match cl_pc c with
          | CIdle =>
              if match op with OpSet value => (length value =? ps_size s)%nat | _ => true end then
                if negb (ob_mapped (default no_object (ps_objects s !! object)))
                then Some (with_client n (cl_return (- EBADF) None c) s)
                else
                Some (with_client n {| cl_pc := CLock; cl_op := op; cl_object := object; cl_result := cl_result c;
                                       cl_reads := cl_reads c |} s)
              else None
          | _ => None
          end
      | None => None
      end
  | EvStep n env =>
      match ps_clients s !! n with Some c => client_step env n c s | None => None end
  | EvCrash n =>
      match ps_clients s !! n with
      | Some c => Some (with_mutex (crash_mutex n (ps_mutex s)) (with_client n (cl_at CDead c) s))
      | None => None
      end
  | EvOpen o => Some (with_object o {| ob_mapped := true; ob_stopped := ob_stopped (default no_object (ps_objects s !! o)) |} s)
  | EvClose o => (** "Close requires all local operations to finish first" *)
      if forallb (fun c => match cl_pc c with CIdle | CDead => true | _ => negb (cl_object c =? o)%nat end) (ps_clients s)
      then Some (with_object o no_object s)
      else None
  end.

Definition parameter_step : relation ParameterSystem := machine_step parameter_exec.
Definition parameter_run : list ParameterEvent -> ParameterSystem -> option ParameterSystem := machine_run parameter_exec.

(** The state [Create] leaves. *)
Definition idle_client : Client :=
  {| cl_pc := CIdle; cl_op := OpGet; cl_object := 0; cl_result := 0; cl_reads := [] |}.
Definition parameter_initial (value : list Z) (clients objects : nat) : ParameterSystem :=
  {| ps_size := length value;
     ps_storage := {| st_version := 0; st_previous_version := 0; st_active_index := 0; st_previous_active := 0;
                      st_transaction_active := 0; st_slots := [value; repeat 0 (length value)] |};
     ps_mutex := Free; ps_objects := repeat no_object objects;
     ps_clients := repeat idle_client clients; ps_history := [value] |}.

Definition parameter_reachable (value : list Z) (clients objects : nat) (s : ParameterSystem) : Prop :=
  rtc parameter_step (parameter_initial value clients objects) s.
