(* ===== verification/ParameterSafety.v ===== *)
(** * The Parameter store is an atomic, crash-safe register

    The invariant of the system of [ParameterStore] and its consequences:
    refinement of a versioned register, integrity of every value read, and
    recovery from the death of a client at any point of any operation. *)
From S2P Require Import Prelude ParameterStore.

(** ** The committed value *)
(** The slot and the version a recovery would leave. *)
Definition committed_slot (st : Storage) : nat :=
  if st_transaction_active st =? 0 then st_active_index st else st_previous_active st.
Definition committed_version (st : Storage) : Z :=
  if st_transaction_active st =? 0 then st_version st else st_previous_version st.
Definition register (st : Storage) : option (Z * list Z) :=
  match st_slots st !! committed_slot st with
  | Some value => Some (committed_version st, value)
  | None => None
  end.

(** Version [v] of the history. *)
Definition value_at (h : list (list Z)) (v : Z) : option (list Z) := if 0 <=? v then h !! Z.to_nat v else None.

Record storage_ok (size : nat) (h : list (list Z)) (st : Storage) : Prop := {
  sk_slots : length (st_slots st) = 2%nat;
  sk_sizes : Forall (fun slot => length slot = size) (st_slots st);
  sk_index : (committed_slot st <= 1)%nat;
  sk_value : st_slots st !! committed_slot st = value_at h (committed_version st);
  sk_version : committed_version st + 1 = Z.of_nat (length h);
  sk_bound : 0 <= committed_version st <= UINT64_MAX;
  sk_flag : st_transaction_active st = 0 \/ st_transaction_active st = 1
}.

(** ** Control points *)
Definition recovering (pc : ClientPc) : bool :=
  match pc with CRecoverTest | CRecoverActive | CRecoverVersion | CRecoverEnd | CConsistent => true | _ => false end.
Definition holding (pc : ClientPc) : bool :=
  match pc with
  | CIdle | CDead | CLock | CRelock => false
  | _ => negb (recovering pc)
  end.

(** The storage during a [Set] whose argument is [value]. *)
Definition saved (st : Storage) : Prop :=
  st_previous_active st = st_active_index st /\ st_previous_version st = st_version st.
Definition in_transaction (st : Storage) : Prop := st_transaction_active st = 1 /\ st_previous_version st < UINT64_MAX.
Definition flipped (st : Storage) (value : list Z) : Prop :=
  in_transaction st /\ st_active_index st = (1 - st_previous_active st)%nat /\ st_slots st !! st_active_index st = Some value.

Definition known (size : nat) (h : list (list Z)) (st : Storage) (c : Client) : Prop :=
  let idle := st_transaction_active st = 0 in
  let setting P := match cl_op c with OpSet value => length value = size /\ P value | _ => False end in
  match cl_pc c with
  | CRecoverActive => st_transaction_active st = 1
  | CRecoverVersion => st_transaction_active st = 1 /\ st_active_index st = st_previous_active st
  | CRecoverEnd => st_transaction_active st = 1 /\ saved st
  | CConsistent | CEnter | CSleep => idle
  | CCopyOut copy => idle /\ exists slot, st_slots st !! st_active_index st = Some slot /\
      (length copy <= size)%nat /\ copy = take (length copy) slot
  | CReadVersion copy => idle /\ st_slots st !! st_active_index st = Some copy
  | CUnlock _ (Some (v, value)) => idle /\ value_at h v = Some value
  | CUnlock _ None => idle
  | CSaveActive => idle /\ setting (fun _ => st_version st < UINT64_MAX)
  | CSaveVersion => idle /\ setting (fun _ => st_version st < UINT64_MAX /\ st_previous_active st = st_active_index st)
  | CBegin => idle /\ setting (fun _ => st_version st < UINT64_MAX /\ saved st)
  | CCopyIn k => setting (fun value => in_transaction st /\ saved st /\ exists slot,
      st_slots st !! (1 - st_active_index st)%nat = Some slot /\ (k <= size)%nat /\ take k slot = take k value)
  | CFlip => setting (fun value => in_transaction st /\ saved st /\ st_slots st !! (1 - st_active_index st)%nat = Some value)
  | CBump => setting (fun value => flipped st value)
  | CCommit => setting (fun value => flipped st value /\ st_version st = st_previous_version st + 1)
  | _ => True
  end.

Record client_ok (size : nat) (h : list (list Z)) (st : Storage) (m : Mutex) (n : nat) (c : Client) : Prop := {
  ck_holding : holding (cl_pc c) = true -> m = Held n;
  ck_recovering : recovering (cl_pc c) = true -> m = HeldDead n;
  ck_known : known size h st c;
  ck_op : match cl_op c with OpSet value => length value = size | _ => True end;
  ck_reads : forall v value, (v, value) ∈ cl_reads c -> value_at h v = Some value
}.

Record parameter_invariant (s : ParameterSystem) : Prop := {
  iv_storage : storage_ok (ps_size s) (ps_history s) (ps_storage s);
  iv_free : ps_mutex s = Free -> st_transaction_active (ps_storage s) = 0;
  iv_clients : forall n c, ps_clients s !! n = Some c ->
    client_ok (ps_size s) (ps_history s) (ps_storage s) (ps_mutex s) n c
}.

(** ** Framing *)
Definition owner (m : Mutex) : option nat :=
  match m with Held n | HeldDead n => Some n | _ => None end.

Lemma value_at_prefix h k v value : h `prefix_of` k -> value_at h v = Some value -> value_at k v = Some value.
Proof. unfold value_at. case_check; [|done]. intros. by eapply prefix_lookup_Some. Qed.

Lemma known_outside size h st c : holding (cl_pc c) = false -> recovering (cl_pc c) = false -> known size h st c.
Proof. unfold known. by destruct (cl_pc c). Qed.

Lemma client_ok_other size h h' st st' m m' n c :
  client_ok size h st m n c -> owner m <> Some n -> h `prefix_of` h' -> client_ok size h' st' m' n c.
Proof.
  intros [Hh Hr _ Hop Hrd] Ho Hp.
  assert (holding (cl_pc c) = false) as E1 by (destruct (holding (cl_pc c)); [by rewrite Hh in Ho|done]).
  assert (recovering (cl_pc c) = false) as E2 by (destruct (recovering (cl_pc c)); [by rewrite Hr in Ho|done]).
  constructor; rewrite ?E1, ?E2; auto using known_outside; [done..|]. intros. eapply value_at_prefix; eauto.
Qed.

(** A step of client [n], which owns the mutex or finds it without owner. *)
Lemma owner_preserves s s' n c c' :
  parameter_invariant s -> ps_clients s !! n = Some c -> ps_size s' = ps_size s ->
  ps_clients s' = <[n := c']> (ps_clients s) ->
  (owner (ps_mutex s) = None \/ owner (ps_mutex s) = Some n) ->
  ps_history s `prefix_of` ps_history s' ->
  storage_ok (ps_size s) (ps_history s') (ps_storage s') ->
  (ps_mutex s' = Free -> st_transaction_active (ps_storage s') = 0) ->
  client_ok (ps_size s) (ps_history s') (ps_storage s') (ps_mutex s') n c' ->
  parameter_invariant s'.
Proof.
  intros [_ _ Hcl] Hn Hsz Hcs Ho Hp Hst Hf Hc'. constructor; rewrite ?Hsz; auto.
  intros k d. rewrite Hcs. destruct (decide (k = n)) as [->|Hk].
  - rewrite list_lookup_insert_eq by (by eapply lookup_lt_Some). congruence.
  - rewrite list_lookup_insert_ne by done. intros Hd. eapply client_ok_other; eauto.
    destruct Ho as [->| ->]; congruence.
Qed.

(** A step of client [n] that touches neither storage nor mutex. *)
Lemma quiet_preserves s s' n c c' :
  parameter_invariant s -> ps_clients s !! n = Some c -> ps_size s' = ps_size s -> ps_clients s' = <[n := c']> (ps_clients s) ->
  ps_mutex s' = ps_mutex s -> ps_history s' = ps_history s -> ps_storage s' = ps_storage s ->
  client_ok (ps_size s) (ps_history s) (ps_storage s) (ps_mutex s) n c' -> parameter_invariant s'.
Proof.
  intros [Hst Hf Hcl] Hn Hsz Hcs Hm Hh Hs Hc'. constructor; rewrite ?Hsz, ?Hm, ?Hh, ?Hs; auto.
  intros k d. rewrite Hcs. destruct (decide (k = n)) as [->|Hk].
  - rewrite list_lookup_insert_eq by (by eapply lookup_lt_Some). congruence.
  - rewrite list_lookup_insert_ne by done. auto.
Qed.

(** ** Storage updates *)
Lemma storage_ok_keep size h st st' :
  storage_ok size h st -> committed_slot st' = committed_slot st -> committed_version st' = committed_version st ->
  st_slots st' = st_slots st -> (st_transaction_active st' = 0 \/ st_transaction_active st' = 1) ->
  storage_ok size h st'.
Proof. intros [] H1 H2 H3 H4. constructor; rewrite ?H1, ?H2, ?H3; auto. Qed.

Lemma storage_ok_byte size h st k b :
  storage_ok size h st -> in_transaction st -> saved st -> (k < size)%nat ->
  storage_ok size h (st_set_byte (1 - st_active_index st) k b st).
Proof.
  intros [Hl Hz Hi Hv Hver Hb Hf] [Ht _] [Hs1 Hs2] Hk.
  assert (committed_slot st = st_active_index st) as Hc by (unfold committed_slot; by rewrite Ht).
  constructor; auto.
  - simpl. by rewrite length_alter.
  - simpl. apply Forall_alter; [done|]. intros x _ Hx. by rewrite length_insert.
  - change (committed_slot (st_set_byte _ k b st)) with (committed_slot st).
    change (committed_version (st_set_byte _ k b st)) with (committed_version st).
    simpl. rewrite list_lookup_alter_ne; [done|]. rewrite Hc in *. lia.
Qed.

Lemma value_at_last h v value : v = Z.of_nat (length h) -> value_at (h ++ [value]) v = Some value.
Proof.
  intros ->. unfold value_at. case_check; bool_to_prop; [|lia].
  rewrite Nat2Z.id. by rewrite lookup_app_r, Nat.sub_diag by lia.
Qed.

Lemma storage_ok_commit size h st value :
  storage_ok size h st -> flipped st value -> st_version st = st_previous_version st + 1 ->
  storage_ok size (h ++ [value]) (st_set_transaction 0 st).
Proof.
  intros [Hl Hz Hi Hv Hver Hb Hf] ([Ht Hlt] & Ha & Hs) Hve.
  unfold committed_version, committed_slot in *. rewrite Ht in *. simpl in *.
  constructor; unfold committed_version, committed_slot; simpl; auto; try lia.
  - rewrite Hs. symmetry. apply value_at_last. lia.
  - rewrite length_app. simpl. lia.
Qed.

Section ClientStep.
Context (s : ParameterSystem) (n : nat) (c : Client) (Hinv : parameter_invariant s) (Hn : ps_clients s !! n = Some c).
Let st := ps_storage s.
Let h := ps_history s.

Lemma client_known : client_ok (ps_size s) h st (ps_mutex s) n c.
Proof. by apply (iv_clients _ Hinv). Qed.

(** [goto]: the owner changes the storage and its control point. *)
Lemma goto_preserves pc f :
  holding (cl_pc c) || recovering (cl_pc c) = true ->
  holding pc = holding (cl_pc c) -> recovering pc = recovering (cl_pc c) ->
  storage_ok (ps_size s) h (f st) -> known (ps_size s) h (f st) (cl_at pc c) ->
  parameter_invariant (with_client n (cl_at pc c) (with_storage f s)).
Proof.
  intros Hcs Hh Hr Hst Hk. destruct client_known as [Ckh Ckr _ Cop Crd].
  assert (cl_pc c <> CIdle) as Hni by (intros E; by rewrite E in Hcs).
  assert (owner (ps_mutex s) = Some n) as Ho.
  { destruct (holding (cl_pc c)); [by rewrite Ckh|]. by rewrite Ckr. }
  eapply (owner_preserves s _ n c (cl_at pc c)); eauto.
  - simpl. intros Hf. by rewrite Hf in Ho.
  - constructor; simpl; auto.
    + by rewrite Hh.
    + by rewrite Hr.
Qed.

(** The same with the storage untouched. *)
Lemma goto_same pc :
  holding (cl_pc c) || recovering (cl_pc c) = true ->
  holding pc = holding (cl_pc c) -> recovering pc = recovering (cl_pc c) ->
  known (ps_size s) h st (cl_at pc c) -> parameter_invariant (with_client n (cl_at pc c) s).
Proof.
  intros Hcs Hh Hr Hk. pose proof (goto_preserves pc (fun x => x) Hcs Hh Hr (iv_storage _ Hinv) Hk) as H.
  unfold with_storage in H. by destruct s.
Qed.

(** Returning with the mutex released. *)
Lemma unlock_preserves code read :
  holding (cl_pc c) = true -> st_transaction_active st = 0 ->
  match read with Some (v, value) => value_at h v = Some value | None => True end ->
  parameter_invariant (with_mutex (mutex_unlock (ps_mutex s)) (with_client n (cl_return code read c) s)).
Proof.
  intros Hh Ht Hr. destruct client_known as [Ckh _ _ Cop Crd]. specialize (Ckh Hh).
  eapply (owner_preserves s _ n c (cl_return code read c)); eauto; simpl.
  - right. by rewrite Ckh.
  - apply (iv_storage _ Hinv).
  - constructor; simpl; auto; try done; try (by destruct (cl_op c)).
    intros v value [Hin|Hin]%elem_of_app; [by apply Crd|].
    destruct read as [[v' value']|]; [|by apply elem_of_nil in Hin]. apply list_elem_of_singleton in Hin. by simplify_eq.
Qed.
End ClientStep.

Lemma lock_preserves s n c s' :
  parameter_invariant s -> ps_clients s !! n = Some c -> cl_pc c = CLock \/ cl_pc c = CRelock ->
  lock_step n c s = Some s' -> parameter_invariant s'.
Proof.
  intros Hinv Hn Hpc. destruct (client_known s n c Hinv Hn) as [_ _ _ Cop Crd].
  unfold lock_step. destruct (ps_mutex s) eqn:Hm; intros Hst; simplify_eq.
  - eapply (owner_preserves s _ n c (cl_at CEnter c)); eauto; simpl; try done.
    + left. by rewrite Hm.
    + apply (iv_storage _ Hinv).
    + pose proof (iv_free _ Hinv Hm). constructor; simpl; auto; try done; by destruct (cl_op c).
  - eapply (owner_preserves s _ n c (cl_at CRecoverTest c)); eauto; simpl; try done.
    + left. by rewrite Hm.
    + apply (iv_storage _ Hinv).
  - eapply (quiet_preserves s _ n c (cl_return (- ENOTRECOVERABLE) None c)); eauto.
    constructor; simpl; auto; try done; rewrite ?app_nil_r; auto.
Qed.

Lemma slot_of_version size h st :
  storage_ok size h st -> st_transaction_active st = 0 ->
  (st_active_index st <= 1)%nat /\ st_slots st !! st_active_index st = value_at h (st_version st) /\
  exists slot, st_slots st !! st_active_index st = Some slot /\ length slot = size.
Proof.
  intros [Hl Hz Hi Hv _ _ _] Ht. unfold committed_slot, committed_version in *. rewrite Ht in *. simpl in *.
  split_and!; auto. destruct (lookup_lt_is_Some_2 (st_slots st) (st_active_index st)) as [slot Hs]; [lia|].
  exists slot. split; [done|]. by eapply (proj1 (Forall_lookup _ _) Hz).
Qed.

Lemma enter_preserves s n c :
  parameter_invariant s -> ps_clients s !! n = Some c -> cl_pc c = CEnter -> parameter_invariant (enter_step n c s).
Proof.
  intros Hinv Hn Hpc. destruct (client_known s n c Hinv Hn) as [Ckh _ Hk Cop _]. unfold known in Hk. rewrite Hpc in *.
  specialize (Ckh eq_refl).
  destruct (slot_of_version _ _ _ (iv_storage _ Hinv) Hk) as (Hle & Hval & slot & Hslot & Hsz).
  pose proof (sk_bound _ _ _ (iv_storage _ Hinv)) as Hb. unfold committed_version in Hb. rewrite Hk in Hb. simpl in Hb.
  assert (forall pc, holding pc = true -> recovering pc = false -> known (ps_size s) (ps_history s) (ps_storage s) (cl_at pc c) ->
    parameter_invariant (with_client n (cl_at pc c) s)) as Hgo.
  { intros pc Hh Hr Hkn. apply (goto_same s n c Hinv Hn); rewrite ?Hpc; auto. }
  assert (parameter_invariant (with_client n (cl_at (CCopyOut []) c) s)) as Hcopy.
  { apply Hgo; try done. unfold known; simpl. split; [done|]. exists slot. split_and!; auto. lia. }
  unfold enter_step. destruct (cl_op c) as [|value|last|] eqn:Hop.
  - case_check; auto.
  - case_check; [by apply Hgo|]. case_check; bool_to_prop; [by apply Hgo|]. apply Hgo; try done.
    unfold known; simpl. rewrite Hop. split; [done|]. split; [by apply Cop|lia].
  - repeat case_check; auto.
  - pose proof (Hgo (CUnlock 0 None) eq_refl eq_refl Hk) as [Hi1 Hi2 Hi3]. by constructor.
Qed.

(** The steps of [RecoverParameter], of the copy out of the storage, of the
    transaction of [SetParameter]. *)
Definition recover_pc (pc : ClientPc) : bool := recovering pc.
Definition read_pc (pc : ClientPc) : bool := match pc with CCopyOut _ | CReadVersion _ => true | _ => false end.
Definition save_pc (pc : ClientPc) : bool := match pc with CSaveActive | CSaveVersion | CBegin => true | _ => false end.
Definition write_pc (pc : ClientPc) : bool := match pc with CCopyIn _ | CFlip | CBump | CCommit => true | _ => false end.

(** Recovery keeps the committed value. *)
Lemma recover_step_preserves env s n c s' :
  parameter_invariant s -> ps_clients s !! n = Some c -> recover_pc (cl_pc c) = true -> client_step env n c s = Some s' -> parameter_invariant s'.
Proof.
  intros Hinv Hn Hcls Hst. pose proof (client_known s n c Hinv Hn) as [Ckh Ckr Hk Cop Crd].
  pose proof (iv_storage _ Hinv) as Hok. pose proof (sk_flag _ _ _ Hok) as Hflag.
  unfold client_step in Hst. unfold known in Hk.
  destruct (cl_pc c) eqn:Hpc; try done; simpl in Ckh, Ckr.
  - simplify_eq. apply (goto_same s n c Hinv Hn); rewrite ?Hpc; try done; case_check; bool_to_prop; try done.
    unfold known; simpl. lia.
  - simplify_eq. apply (goto_preserves s n c Hinv Hn); rewrite ?Hpc; try done.
    eapply storage_ok_keep; eauto; unfold committed_slot, committed_version; simpl; by rewrite Hk.
  - simplify_eq. destruct Hk as [Ht Ha]. apply (goto_preserves s n c Hinv Hn); rewrite ?Hpc; try done.
    eapply storage_ok_keep; eauto; unfold committed_slot, committed_version; simpl; by rewrite Ht.
  - simplify_eq. destruct Hk as [Ht [Ha Hv]]. apply (goto_preserves s n c Hinv Hn); rewrite ?Hpc; try done.
    eapply storage_ok_keep; eauto; unfold committed_slot, committed_version; simpl; auto; rewrite Ht; simpl; congruence.
  - specialize (Ckr eq_refl). case_check; simplify_eq.
    + eapply (owner_preserves s _ n c (cl_at CEnter c)); eauto; simpl; try done; try (right; by rewrite Ckr).
    + eapply (owner_preserves s _ n c (cl_return (- env) None c)); eauto; simpl; try done; try (right; by rewrite Ckr); try (by rewrite Ckr).
      constructor; simpl; auto; try done; rewrite ?app_nil_r; auto.
Qed.

(** Reading. *)
Lemma read_step_preserves env s n c s' :
  parameter_invariant s -> ps_clients s !! n = Some c -> read_pc (cl_pc c) = true -> client_step env n c s = Some s' -> parameter_invariant s'.
Proof.
  intros Hinv Hn Hcls Hst. pose proof (client_known s n c Hinv Hn) as [Ckh Ckr Hk Cop Crd].
  pose proof (iv_storage _ Hinv) as Hok. pose proof (sk_flag _ _ _ Hok) as Hflag.
  unfold client_step in Hst. unfold known in Hk.
  destruct (cl_pc c) eqn:Hpc; try done; simpl in Ckh, Ckr.
  - destruct Hk as [Ht (slot & Hs & Hle & Hpre)]. destruct (slot_of_version _ _ _ Hok Ht) as (_ & _ & slot' & Hs' & Hsz).
    simplify_eq. destruct (Nat.ltb_spec (length copy) (ps_size s)).
    + rewrite Hs in Hst. destruct (slot !! length copy) as [b|] eqn:Hb; simplify_eq.
      apply (goto_same s n c Hinv Hn); rewrite ?Hpc; try done. unfold known; simpl. split; [done|]. exists slot.
      rewrite length_app. simpl. split_and!; auto; [lia|]. rewrite Nat.add_1_r, (take_S_r _ _ _ Hb). congruence.
    + simplify_eq. apply (goto_same s n c Hinv Hn); rewrite ?Hpc; try done. unfold known; simpl. split; [done|].
      rewrite Hs, Hpre, take_ge by lia. done.
  - simplify_eq. destruct Hk as [Ht Hs]. destruct (slot_of_version _ _ _ Hok Ht) as (_ & Hv & _).
    apply (goto_same s n c Hinv Hn); rewrite ?Hpc; try done. unfold known; simpl. split; [done|]. congruence.
Qed.

(** Opening the transaction. *)
Lemma save_step_preserves env s n c s' :
  parameter_invariant s -> ps_clients s !! n = Some c -> save_pc (cl_pc c) = true -> client_step env n c s = Some s' -> parameter_invariant s'.
Proof.
  intros Hinv Hn Hcls Hst. pose proof (client_known s n c Hinv Hn) as [Ckh Ckr Hk Cop Crd].
  pose proof (iv_storage _ Hinv) as Hok. pose proof (sk_flag _ _ _ Hok) as Hflag.
  unfold client_step in Hst. unfold known in Hk.
  destruct (cl_pc c) eqn:Hpc; try done; simpl in Ckh, Ckr.
  - simplify_eq. destruct Hk as [Ht Hset]. apply (goto_preserves s n c Hinv Hn); rewrite ?Hpc; try done.
    + eapply storage_ok_keep; eauto; unfold committed_slot, committed_version; simpl; by rewrite Ht.
    + unfold known; simpl. destruct (cl_op c); try done. intuition.
  - simplify_eq. destruct Hk as [Ht Hset]. apply (goto_preserves s n c Hinv Hn); rewrite ?Hpc; try done.
    + eapply storage_ok_keep; eauto; unfold committed_slot, committed_version; simpl; by rewrite Ht.
    + unfold known, saved; simpl. destruct (cl_op c); try done. intuition.
  - simplify_eq. destruct Hk as [Ht Hset]. destruct (cl_op c) as [|value| |] eqn:Hop; try done.
    destruct Hset as (Hlen & Hlt & [Ha Hv]). apply (goto_preserves s n c Hinv Hn); rewrite ?Hpc; try done.
    + eapply storage_ok_keep; eauto; unfold committed_slot, committed_version; simpl; auto; rewrite Ht; simpl; congruence.
    + destruct (lookup_lt_is_Some_2 (st_slots (ps_storage s)) (1 - st_active_index (ps_storage s))%nat) as [slot Hs];
        [rewrite (sk_slots _ _ _ Hok); lia|].
      unfold known, in_transaction, saved; simpl. rewrite Hop. split_and!; auto; [lia|]. exists slot. split_and!; auto. lia.
Qed.

(** Inside the transaction only the inactive slot changes, until the commit. *)
Lemma write_step_preserves env s n c s' :
  parameter_invariant s -> ps_clients s !! n = Some c -> write_pc (cl_pc c) = true -> client_step env n c s = Some s' -> parameter_invariant s'.
Proof.
  intros Hinv Hn Hcls Hst. pose proof (client_known s n c Hinv Hn) as [Ckh Ckr Hk Cop Crd].
  pose proof (iv_storage _ Hinv) as Hok. pose proof (sk_flag _ _ _ Hok) as Hflag.
  unfold client_step in Hst. unfold known in Hk.
  destruct (cl_pc c) eqn:Hpc; try done; simpl in Ckh, Ckr.
  - destruct (cl_op c) as [|value| |] eqn:Hop; try done. destruct Hk as (Hlen & Htr & Hsv & slot & Hs & Hle & Hpre).
    destruct (value !! k) as [b|] eqn:Hb; simplify_eq.
    + pose proof (lookup_lt_Some _ _ _ Hb). apply (goto_preserves s n c Hinv Hn); rewrite ?Hpc; try done.
      * apply storage_ok_byte; auto; lia.
      * unfold known; simpl. rewrite Hop. split_and!; auto. exists (<[k := b]> slot).
        rewrite list_lookup_alter_eq, Hs. split_and!; auto; [lia|].
        assert (length slot = ps_size s) by (by eapply (proj1 (Forall_lookup _ _) (sk_sizes _ _ _ Hok))).
        rewrite (take_S_r value k b) by done. rewrite <- Hpre, <- (take_insert_ge slot k k b) by lia.
        apply take_S_r. rewrite list_lookup_insert_eq; [done|lia].
    + apply (goto_same s n c Hinv Hn); rewrite ?Hpc; try done. unfold known; simpl. rewrite Hop. split_and!; auto.
      assert (length slot = ps_size s) by (by eapply (proj1 (Forall_lookup _ _) (sk_sizes _ _ _ Hok))).
      apply lookup_ge_None_1 in Hb. rewrite !take_ge in Hpre by lia. congruence.
  - simplify_eq. destruct (cl_op c) as [|value| |] eqn:Hop; try done. destruct Hk as (Hlen & Htr & [Ha Hv] & Hs).
    destruct (Htr) as [Ht _]. apply (goto_preserves s n c Hinv Hn); rewrite ?Hpc; try done.
    + eapply storage_ok_keep; eauto; unfold committed_slot, committed_version; simpl; by rewrite Ht.
    + unfold known, flipped; simpl. rewrite Hop, Ha. split_and!; auto.
  - simplify_eq. destruct (cl_op c) as [|value| |] eqn:Hop; try done. destruct Hk as (Hlen & Hfl).
    destruct (Hfl) as ([Ht _] & _). apply (goto_preserves s n c Hinv Hn); rewrite ?Hpc; try done.
    + eapply storage_ok_keep; eauto; unfold committed_slot, committed_version; simpl; by rewrite Ht.
    + unfold known; simpl. rewrite Hop. auto.
  - destruct (cl_op c) as [|value| |] eqn:Hop; try done. destruct Hk as (Hlen & Hfl & Hve). simplify_eq.
    eapply (owner_preserves s _ n c (cl_at (CUnlock 0 None) c)); eauto; simpl; try done; try (right; by rewrite Ckh); auto using prefix_app_r, storage_ok_commit.
    constructor; simpl; rewrite ?Hop; auto; try done.
    intros. eapply value_at_prefix; [by apply prefix_app_r|auto].
Qed.

Lemma client_step_preserves env s n c s' :
  parameter_invariant s -> ps_clients s !! n = Some c -> client_step env n c s = Some s' -> parameter_invariant s'.
Proof.
  intros Hinv Hn Hst. pose proof Hst as Hst'. pose proof (iv_storage _ Hinv) as Hok. pose proof (client_known s n c Hinv Hn) as [Ckh _ Hk Cop Crd].
  unfold client_step in Hst. unfold known in Hk.
  destruct (cl_pc c) eqn:Hpc; try done; simpl in Ckh;
    try (apply (recover_step_preserves env s n c s' Hinv Hn); [by rewrite Hpc|exact Hst']);
    try (apply (read_step_preserves env s n c s' Hinv Hn); [by rewrite Hpc|exact Hst']);
    try (apply (save_step_preserves env s n c s' Hinv Hn); [by rewrite Hpc|exact Hst']);
    try (apply (write_step_preserves env s n c s' Hinv Hn); [by rewrite Hpc|exact Hst']).
  - eapply lock_preserves; eauto.
  - simplify_eq. by apply enter_preserves.
  - simplify_eq. eapply (owner_preserves s _ n c (cl_at CRelock c)); eauto; simpl; try done; try (right; by rewrite Ckh).
  - eapply lock_preserves; eauto.
  - simplify_eq. assert (st_transaction_active (ps_storage s) = 0) as Ht by (destruct read as [[]|]; naive_solver).
    apply unlock_preserves; auto; [by rewrite Hpc|]. destruct read as [[]|]; naive_solver.
Qed.

(** ** Every event *)
Lemma parameter_initial_invariant value clients objects : parameter_invariant (parameter_initial value clients objects).
Proof.
  constructor; simpl; auto.
  - constructor; simpl; auto; unfold committed_version; simpl; try lia; [|done].
    constructor; [done|]. constructor; [by rewrite repeat_length|constructor].
  - intros n c Hc. apply list_elem_of_lookup_2, list_elem_of_In, repeat_spec in Hc as ->.
    constructor; simpl; auto; try done. intros v x Hx. by apply elem_of_nil in Hx.
Qed.

Lemma crash_preserves s n c :
  parameter_invariant s -> ps_clients s !! n = Some c ->
  parameter_invariant (with_mutex (crash_mutex n (ps_mutex s)) (with_client n (cl_at CDead c) s)).
Proof.
  intros Hinv Hn. pose proof (client_known s n c Hinv Hn) as [_ _ _ Cop Crd]. destruct (Hinv) as [Hst Hf Hcl].
  constructor; simpl; auto.
  - intros Hm. apply Hf. revert Hm. unfold crash_mutex. destruct (ps_mutex s); try done; by case_check.
  - intros k d. destruct (decide (k = n)) as [->|Hk].
    + rewrite list_lookup_insert_eq by (by eapply lookup_lt_Some). intros [= <-]. by constructor.
    + rewrite list_lookup_insert_ne by done. intros Hd. destruct (Hcl k d Hd) as [Hh Hr Hkn Ho Hrd].
      constructor; auto; intros E; unfold crash_mutex; [rewrite (Hh E)|rewrite (Hr E)];
        by rewrite (proj2 (Nat.eqb_neq k n) Hk).
Qed.

Lemma parameter_step_preserves s s' : parameter_invariant s -> parameter_step s s' -> parameter_invariant s'.
Proof.
  intros Hinv [e Hst]. destruct e as [n op o|n env|n|o|o]; simpl in Hst.
  - destruct (ps_clients s !! n) as [c|] eqn:Hn; [|done]. destruct (cl_pc c) eqn:Hpc; try done.
    destruct (client_known s n c Hinv Hn) as [_ _ _ Cop Crd].
    destruct (match op with OpSet value => _ | _ => true end) eqn:Hop; [|done]. case_check; simplify_eq.
    + eapply (quiet_preserves s _ n c); eauto. constructor; simpl; rewrite ?app_nil_r; auto; done.
    + eapply (quiet_preserves s _ n c); eauto. constructor; simpl; auto; try done.
      destruct op; auto. by apply Nat.eqb_eq in Hop.
  - destruct (ps_clients s !! n) as [c|] eqn:Hn; [|done]. by eapply client_step_preserves.
  - destruct (ps_clients s !! n) as [c|] eqn:Hn; simplify_eq. by apply crash_preserves.
  - simplify_eq. destruct Hinv. by constructor.
  - case_check; simplify_eq. destruct Hinv. by constructor.
Qed.

Lemma parameter_reachable_invariant value clients objects s : parameter_reachable value clients objects s -> parameter_invariant s.
Proof. apply rtc_invariant; [apply parameter_step_preserves|apply parameter_initial_invariant]. Qed.

(** The register is the last entry of the history. *)
Lemma register_history s : parameter_invariant s ->
  exists v value, register (ps_storage s) = Some (v, value) /\ v + 1 = Z.of_nat (length (ps_history s)) /\
  value_at (ps_history s) v = Some value /\ 0 <= v <= UINT64_MAX.
Proof.
  intros Hinv. destruct (iv_storage _ Hinv) as [Hl _ Hi Hv Hver Hb _]. unfold register.
  destruct (lookup_lt_is_Some_2 (st_slots (ps_storage s)) (committed_slot (ps_storage s))) as [value Hs]; [lia|].
  rewrite Hs in *. exists (committed_version (ps_storage s)), value. auto.
Qed.

Lemma register_same s s' : parameter_invariant s -> parameter_invariant s' -> ps_history s' = ps_history s ->
  register (ps_storage s') = register (ps_storage s).
Proof.
  intros H H' Hh. destruct (register_history _ H) as (v & x & -> & Hv & Hx & _).
  destruct (register_history _ H') as (v' & x' & -> & Hv' & Hx' & _). rewrite Hh in *.
  assert (v' = v) as -> by lia. congruence.
Qed.

(** ** Theorems *)
(** Only the commit point changes the history. *)
Lemma client_step_history env n c s s' :
  client_step env n c s = Some s' ->
  ps_history s' = ps_history s \/
  exists value, cl_pc c = CCommit /\ cl_op c = OpSet value /\ ps_history s' = ps_history s ++ [value].
Proof.
  unfold client_step, lock_step, enter_step. intros Hst.
  destruct (cl_pc c); try done; try (destruct (ps_mutex s)); try (destruct (cl_op c) as [|value| |]);
    repeat case_check; simplify_eq; auto;
    try (destruct (value !! k)); try (destruct (st_slots _ !! _) as [slot|]; [|done]; destruct (slot !! _));
    simplify_eq; auto; right; eauto.
Qed.

(** C4: The Parameter store is an atomic versioned register.  In every
    reachable state (any number of clients, any interleaving of their single
    stores, clients dying anywhere) a step either leaves the register, the
    value and version a reader or a recovery would find, unchanged, or it is
    the commit store of a [Set]: then the register goes from version [v] to
    version [v+1] holding exactly that call's argument.  Partial writes,
    crashes and recoveries are invisible. *)
Theorem parameter_refines_register value clients objects s s' :
  parameter_reachable value clients objects s -> parameter_step s s' ->
  register (ps_storage s') = register (ps_storage s) \/
  exists n c v old new,
    ps_clients s !! n = Some c /\ cl_pc c = CCommit /\ cl_op c = OpSet new /\
    register (ps_storage s) = Some (v, old) /\ register (ps_storage s') = Some (v + 1, new).
Proof.
  intros Hreach Hst. pose proof (parameter_reachable_invariant _ _ _ _ Hreach) as Hinv.
  pose proof (parameter_step_preserves _ _ Hinv Hst) as Hinv'. destruct Hst as [e Hst].
  assert (ps_history s' = ps_history s \/ exists n c new, ps_clients s !! n = Some c /\ cl_pc c = CCommit /\
    cl_op c = OpSet new /\ ps_history s' = ps_history s ++ [new]) as [Hh|(n & c & new & Hn & Hpc & Hop & Hh)].
  { destruct e as [n op o|n env|n|o|o]; simpl in Hst.
    - destruct (ps_clients s !! n) as [c|]; [|done]. destruct (cl_pc c); try done. repeat case_check; simplify_eq; auto.
    - destruct (ps_clients s !! n) as [c|] eqn:Hn; [|done].
      destruct (client_step_history _ _ _ _ _ Hst) as [|(new & ?&?&?)]; eauto 10.
    - destruct (ps_clients s !! n) as [c|]; simplify_eq. auto.
    - simplify_eq. auto.
    - case_check; simplify_eq. auto. }
  - left. by apply register_same.
  - right. destruct (register_history _ Hinv) as (v & old & Hr & Hv & _).
    destruct (register_history _ Hinv') as (v' & x & Hr' & Hv' & Hx & _).
    rewrite Hh, length_app in Hv'. simpl in Hv'. assert (v' = v + 1) as -> by lia.
    exists n, c, v, old, new. rewrite Hh, value_at_last in Hx by lia. split_and!; auto. congruence.
Qed.

(** Integrity of reads.  Every value that [Get] or [Wait] has ever
    returned together with a version is the value committed under that
    version, never a mixture of two values or a value that was rolled back. *)
Theorem parameter_read_integrity value clients objects s c v x :
  parameter_reachable value clients objects s -> c ∈ ps_clients s -> (v, x) ∈ cl_reads c ->
  value_at (ps_history s) v = Some x.
Proof.
  intros Hreach [n Hn]%list_elem_of_lookup Hx. pose proof (parameter_reachable_invariant _ _ _ _ Hreach) as Hinv.
  by apply (ck_reads _ _ _ _ _ _ (iv_clients _ Hinv n c Hn)).
Qed.

Lemma parameter_run_reachable es value clients objects s :
  parameter_run es (parameter_initial value clients objects) = Some s -> parameter_reachable value clients objects s.
Proof. apply machine_run_rtc. Qed.

(** Runs used by the witnesses: client 1 has read the initial value; client 0
    is about to commit, or dies after two of three bytes. *)
Definition setup_events : list ParameterEvent :=
  EvOpen 0 :: EvOpen 1 :: EvCall 1 OpGet 1 :: repeat (EvStep 1 0) 8 ++ [EvCall 0 (OpSet [7; 8; 9]) 0].
Definition before_commit : ParameterSystem :=
  default (parameter_initial [1; 2; 3] 2 2) (parameter_run (setup_events ++ repeat (EvStep 0 0) 11) (parameter_initial [1; 2; 3] 2 2)).
Definition after_commit : ParameterSystem := default before_commit (parameter_exec (EvStep 0 0) before_commit).
Definition after_crash : ParameterSystem :=
  default (parameter_initial [1; 2; 3] 2 2) (parameter_run (setup_events ++ repeat (EvStep 0 0) 7 ++ [EvCrash 0]) (parameter_initial [1; 2; 3] 2 2)).

Lemma before_commit_reachable : parameter_reachable [1; 2; 3] 2 2 before_commit.
Proof. apply (parameter_run_reachable (setup_events ++ repeat (EvStep 0 0) 11)). vm_compute. reflexivity. Qed.
Lemma after_crash_reachable : parameter_reachable [1; 2; 3] 2 2 after_crash.
Proof. apply (parameter_run_reachable (setup_events ++ repeat (EvStep 0 0) 7 ++ [EvCrash 0])). vm_compute. reflexivity. Qed.

Lemma parameter_refines_register_witness :
  register (ps_storage before_commit) = Some (0, [1; 2; 3]) /\ register (ps_storage after_commit) = Some (1, [7; 8; 9]).
Proof.
  destruct (parameter_refines_register [1; 2; 3] 2 2 before_commit after_commit) as [H|(n & c & v & old & new & _ & _ & _ & H1 & H2)].
  - exact before_commit_reachable.
  - exists (EvStep 0 0). vm_compute. reflexivity.
  - exfalso. vm_compute in H. discriminate.
  - split; [vm_compute; reflexivity|]. rewrite H2. vm_compute in H1, H2. injection H1 as <- <-. exact (eq_sym H2).
Defined.

Lemma parameter_read_integrity_witness :
  exists c, c ∈ ps_clients after_crash /\ (0, [1; 2; 3]) ∈ cl_reads c /\
  value_at (ps_history after_crash) 0 = Some [1; 2; 3].
Proof.
  destruct (ps_clients after_crash) as [|c0 [|c rest]] eqn:E; [vm_compute in E; discriminate..|].
  exists c. assert (c ∈ ps_clients after_crash) as Hc by (rewrite E; right; left).
  assert ((0, [1; 2; 3]) ∈ cl_reads c) as Hx by (vm_compute in E; injection E as <- <- <-; left).
  split; [right; left|]. split; [exact Hx|].
  exact (parameter_read_integrity [1; 2; 3] 2 2 after_crash c 0 [1; 2; 3] after_crash_reachable Hc Hx).
Defined.

(** ** Recovery *)
(** Client [n] runs alone. *)
Definition alone (n : nat) : relation ParameterSystem := fun s s' =>
  exists c, ps_clients s !! n = Some c /\ client_step 0 n c s = Some s'.

Lemma client_alone_run n s s' : rtc (alone n) s s' -> exists k, parameter_run (repeat (EvStep n 0) k) s = Some s'.
Proof.
  induction 1 as [s|s s1 s' (c & Hn & Hst) _ [k IH]]; [by exists 0%nat|].
  exists (S k). simpl. by rewrite Hn, Hst.
Qed.

Lemma alone_invariant n s s' : parameter_invariant s -> rtc (alone n) s s' -> parameter_invariant s'.
Proof.
  intros Hinv. apply rtc_invariant; [|done]. intros a b Ha (c & Hn & Hst). by eapply client_step_preserves.
Qed.

(** Client [n] is at [pc] and everybody else as in [s]. *)
Record only (n : nat) (c : Client) (pc : ClientPc) (s s' : ParameterSystem) : Prop := {
  on_size : ps_size s' = ps_size s;
  on_clients : ps_clients s' = <[n := cl_at pc c]> (ps_clients s);
  on_history : ps_history s' = ps_history s;
  on_objects : ps_objects s' = ps_objects s
}.

Lemma only_lookup n c pc s s' : ps_clients s !! n = Some c -> only n c pc s s' -> ps_clients s' !! n = Some (cl_at pc c).
Proof. intros Hn H. rewrite (on_clients _ _ _ _ _ H). apply list_lookup_insert_eq. by eapply lookup_lt_Some. Qed.

Lemma only_step n c pc pc' s s' s'' :
  ps_clients s !! n = Some c -> only n c pc s s' ->
  client_step 0 n (cl_at pc c) s' = Some s'' ->
  ps_size s'' = ps_size s' -> ps_clients s'' = <[n := cl_at pc' c]> (ps_clients s') ->
  ps_history s'' = ps_history s' -> ps_objects s'' = ps_objects s' ->
  alone n s' s'' /\ only n c pc' s s''.
Proof.
  intros Hn Ho Hst H1 H2 H3 H4. split; [exists (cl_at pc c); eauto using only_lookup|].
  destruct Ho as [O1 O2 O3 O4]. constructor; try congruence. rewrite H2, O2. apply list_insert_insert_eq.
Qed.

(** From a free mutex, or from one whose holder died, to the critical section. *)
Lemma client_enter_alone n c s :
  ps_clients s !! n = Some c -> cl_pc c = CLock -> (ps_mutex s = Free \/ ps_mutex s = OwnerDied) ->
  exists s', rtc (alone n) s s' /\ only n c CEnter s s' /\ ps_mutex s' = Held n.
Proof.
  intros Hn Hpc [Hm|Hm].
  - exists (with_mutex (Held n) (with_client n (cl_at CEnter c) s)). split; [|by split].
    apply rtc_once. exists c. split; [done|]. unfold client_step, lock_step. by rewrite Hpc, Hm.
  - set (s1 := with_mutex (HeldDead n) (with_client n (cl_at CRecoverTest c) s)).
    assert (alone n s s1) as H1. { exists c. split; [done|]. unfold client_step, lock_step. by rewrite Hpc, Hm. }
    assert (only n c CRecoverTest s s1) as O1 by done.
    set (go pc x := with_client n (cl_at pc c) x).
    destruct (st_transaction_active (ps_storage s) =? 0) eqn:Ht.
    + destruct (only_step n c CRecoverTest CConsistent s s1 (go CConsistent s1) Hn O1) as [H2 O2]; try reflexivity.
      { unfold client_step. simpl. by rewrite Ht. }
      destruct (only_step n c CConsistent CEnter s _ (go CEnter (with_mutex (Held n) (go CConsistent s1))) Hn O2) as [H3 O3]; try reflexivity.
      eexists. split; [|split; [exact O3|reflexivity]]. eapply rtc_l; [exact H1|]. eapply rtc_l; [exact H2|]. by apply rtc_once.
    + destruct (only_step n c CRecoverTest CRecoverActive s s1 (go CRecoverActive s1) Hn O1) as [H2 O2]; try reflexivity.
      { unfold client_step. simpl. by rewrite Ht. }
      set (s2 := go CRecoverActive s1) in *.
      destruct (only_step n c CRecoverActive CRecoverVersion s s2
        (go CRecoverVersion (with_storage (st_set_active (st_previous_active (ps_storage s2))) s2)) Hn O2) as [H3 O3]; try reflexivity.
      set (s3 := go CRecoverVersion _) in *.
      destruct (only_step n c CRecoverVersion CRecoverEnd s s3
        (go CRecoverEnd (with_storage (st_set_version (st_previous_version (ps_storage s3))) s3)) Hn O3) as [H4 O4]; try reflexivity.
      set (s4 := go CRecoverEnd _) in *.
      destruct (only_step n c CRecoverEnd CConsistent s s4
        (go CConsistent (with_storage (st_set_transaction 0) s4)) Hn O4) as [H5 O5]; try reflexivity.
      set (s5 := go CConsistent _) in *.
      destruct (only_step n c CConsistent CEnter s s5 (go CEnter (with_mutex (Held n) s5)) Hn O5) as [H6 O6]; try reflexivity.
      eexists. split; [|split; [exact O6|reflexivity]].
      eapply rtc_l; [exact H1|]. eapply rtc_l; [exact H2|]. eapply rtc_l; [exact H3|]. eapply rtc_l; [exact H4|].
      eapply rtc_l; [exact H5|]. by apply rtc_once.
Qed.

Lemma goto_alone n c pc pc' s s' f :
  ps_clients s !! n = Some c -> only n c pc s s' ->
  client_step 0 n (cl_at pc c) s' = Some (with_client n (cl_at pc' c) (with_storage f s')) ->
  exists s'', alone n s' s'' /\ only n c pc' s s'' /\ ps_mutex s'' = ps_mutex s' /\ ps_storage s'' = f (ps_storage s').
Proof.
  intros Hn Ho Hst. eexists. destruct (only_step n c pc pc' s s' _ Hn Ho Hst) as [H1 H2]; try reflexivity. eauto.
Qed.

Lemma stay_alone n c pc pc' s s' :
  ps_clients s !! n = Some c -> only n c pc s s' ->
  client_step 0 n (cl_at pc c) s' = Some (with_client n (cl_at pc' c) s') ->
  exists s'', alone n s' s'' /\ only n c pc' s s'' /\ ps_mutex s'' = ps_mutex s' /\ ps_storage s'' = ps_storage s'.
Proof.
  intros Hn Ho Hst. eexists. destruct (only_step n c pc pc' s s' _ Hn Ho Hst) as [H1 H2]; try reflexivity. eauto.
Qed.

(** The critical section of [Get]. *)
Lemma get_alone n c s s1 :
  ps_clients s !! n = Some c -> cl_op c = OpGet -> only n c CEnter s s1 -> ps_mutex s1 = Held n -> parameter_invariant s1 ->
  exists s' v x, rtc (alone n) s1 s' /\ value_at (ps_history s) v = Some x /\ v + 1 = Z.of_nat (length (ps_history s)) /\
  ps_history s' = ps_history s /\ ps_mutex s' = Free /\ ps_clients s' = <[n := cl_return 0 (Some (v, x)) c]> (ps_clients s).
Proof.
  intros Hn Hop O1 Hm Hinv. pose proof (only_lookup _ _ _ _ _ Hn O1) as Hn1.
  destruct (client_known s1 n _ Hinv Hn1) as [_ _ Hk _ _]. unfold known in Hk. simpl in Hk.
  destruct (slot_of_version _ _ _ (iv_storage _ Hinv) Hk) as (Hle & Hval & slot & Hslot & Hsz).
  destruct (stay_alone n c CEnter (CCopyOut []) s s1 Hn O1) as (s2 & H2 & O2 & M2 & S2).
  { unfold client_step, enter_step. simpl. rewrite Hop. by rewrite (proj2 (Nat.ltb_ge _ _) Hle). }
  assert (forall k, (k <= ps_size s)%nat -> exists s3, rtc (alone n) s2 s3 /\ only n c (CCopyOut (take k slot)) s s3 /\
    ps_mutex s3 = ps_mutex s2 /\ ps_storage s3 = ps_storage s2) as Hcopy.
  { rewrite (on_size _ _ _ _ _ O1) in Hsz. induction k as [|k IH]; intros Hle'; [by exists s2|].
    destruct IH as (s3 & H3 & O3 & M3 & S3); [lia|].
    destruct (lookup_lt_is_Some_2 slot k) as [b Hb]; [lia|].
    destruct (stay_alone n c (CCopyOut (take k slot)) (CCopyOut (take (S k) slot)) s s3 Hn O3) as (s4 & H4 & O4 & M4 & S4).
    { unfold client_step. simpl. rewrite length_take_le by lia. rewrite (on_size _ _ _ _ _ O3).
      rewrite (proj2 (Nat.ltb_lt _ _)) by lia. rewrite S3, S2, Hslot, Hb. by rewrite (take_S_r _ _ _ Hb). }
    exists s4. split_and!; [by eapply rtc_r|done|congruence|congruence]. }
  destruct (Hcopy (ps_size s)) as (s3 & H3 & O3 & M3 & S3); [lia|].
  rewrite (on_size _ _ _ _ _ O1) in Hsz. rewrite take_ge in O3 by lia.
  destruct (stay_alone n c (CCopyOut slot) (CReadVersion slot) s s3 Hn O3) as (s4 & H4 & O4 & M4 & S4).
  { unfold client_step. simpl. rewrite (on_size _ _ _ _ _ O3), Hsz. by rewrite Nat.ltb_irrefl. }
  destruct (stay_alone n c (CReadVersion slot) (CUnlock 0 (Some (st_version (ps_storage s4), slot))) s s4 Hn O4) as (s5 & H5 & O5 & M5 & S5).
  { reflexivity. }
  exists (with_mutex (mutex_unlock (ps_mutex s5)) (with_client n (cl_return 0 (Some (st_version (ps_storage s4), slot)) c) s5)).
  exists (st_version (ps_storage s4)), slot. rewrite S4, S3, S2 in *.
  pose proof (sk_version _ _ _ (iv_storage _ Hinv)) as Hver. unfold committed_version in Hver. rewrite Hk in Hver. simpl in Hver.
  rewrite (on_history _ _ _ _ _ O1) in *. split_and!; auto; try congruence.
  - eapply rtc_l; [exact H2|]. etrans; [exact H3|]. eapply rtc_l; [exact H4|]. eapply rtc_l; [exact H5|].
    apply rtc_once. exists (cl_at (CUnlock 0 (Some (st_version (ps_storage s1), slot))) c). split; [eapply only_lookup; eauto|]. reflexivity.
  - simpl. apply (on_history _ _ _ _ _ O5).
  - simpl. by rewrite M5, M4, M3, M2, Hm.
  - simpl. rewrite (on_clients _ _ _ _ _ O5). apply list_insert_insert_eq.
Qed.

(** The critical section of [Set]. *)
Lemma set_alone n c s s1 value :
  ps_clients s !! n = Some c -> cl_op c = OpSet value -> only n c CEnter s s1 -> ps_mutex s1 = Held n -> parameter_invariant s1 ->
  Z.of_nat (length (ps_history s)) <= UINT64_MAX ->
  exists s', rtc (alone n) s1 s' /\ ps_history s' = ps_history s ++ [value] /\ ps_mutex s' = Free /\
  ps_clients s' = <[n := cl_return 0 None c]> (ps_clients s).
Proof.
  intros Hn Hop O1 Hm Hinv Hmax. pose proof (only_lookup _ _ _ _ _ Hn O1) as Hn1.
  destruct (client_known s1 n _ Hinv Hn1) as [_ _ Hk _ _]. unfold known in Hk. simpl in Hk.
  destruct (slot_of_version _ _ _ (iv_storage _ Hinv) Hk) as (Hle & _).
  pose proof (sk_version _ _ _ (iv_storage _ Hinv)) as Hver. unfold committed_version in Hver. rewrite Hk in Hver. simpl in Hver.
  rewrite (on_history _ _ _ _ _ O1) in Hver.
  destruct (stay_alone n c CEnter CSaveActive s s1 Hn O1) as (s2 & H2 & O2 & M2 & _).
  { unfold client_step, enter_step. simpl. rewrite Hop, (proj2 (Nat.ltb_ge _ _) Hle).
    case_check; bool_to_prop; [lia|done]. }
  destruct (goto_alone n c CSaveActive CSaveVersion s s2 _ Hn O2 eq_refl) as (s3 & H3 & O3 & M3 & _).
  destruct (goto_alone n c CSaveVersion CBegin s s3 _ Hn O3 eq_refl) as (s4 & H4 & O4 & M4 & _).
  destruct (goto_alone n c CBegin (CCopyIn 0) s s4 _ Hn O4 eq_refl) as (s5 & H5 & O5 & M5 & _).
  assert (forall k, (k <= length value)%nat -> exists s6, rtc (alone n) s5 s6 /\ only n c (CCopyIn k) s s6 /\
    ps_mutex s6 = ps_mutex s5) as Hcopy.
  { induction k as [|k IH]; intros Hk'; [by exists s5|]. destruct IH as (s6 & H6 & O6 & M6); [lia|].
    destruct (lookup_lt_is_Some_2 value k) as [b Hb]; [lia|].
    destruct (goto_alone n c (CCopyIn k) (CCopyIn (S k)) s s6 (st_set_byte (1 - st_active_index (ps_storage s6)) k b) Hn O6)
      as (s7 & H7 & O7 & M7 & _).
    { unfold client_step. simpl. by rewrite Hop, Hb. }
    exists s7. split_and!; [by eapply rtc_r|done|congruence]. }
  destruct (Hcopy (length value)) as (s6 & H6 & O6 & M6); [lia|].
  destruct (stay_alone n c (CCopyIn (length value)) CFlip s s6 Hn O6) as (s7 & H7 & O7 & M7 & _).
  { unfold client_step. simpl. by rewrite Hop, lookup_ge_None_2 by lia. }
  destruct (goto_alone n c CFlip CBump s s7 _ Hn O7 eq_refl) as (s8 & H8 & O8 & M8 & _).
  destruct (goto_alone n c CBump CCommit s s8 _ Hn O8 eq_refl) as (s9 & H9 & O9 & M9 & _).
  set (s10 := with_client n (cl_at (CUnlock 0 None) c) (with_commit value (with_storage (st_set_transaction 0) s9))).
  assert (alone n s9 s10) as H10.
  { exists (cl_at CCommit c). split; [eapply only_lookup; eauto|]. unfold client_step. simpl. by rewrite Hop. }
  exists (with_mutex (mutex_unlock (ps_mutex s10)) (with_client n (cl_return 0 None c) s10)). split_and!.
  - eapply rtc_l; [exact H2|]. eapply rtc_l; [exact H3|]. eapply rtc_l; [exact H4|]. eapply rtc_l; [exact H5|].
    etrans; [exact H6|]. eapply rtc_l; [exact H7|]. eapply rtc_l; [exact H8|]. eapply rtc_l; [exact H9|].
    eapply rtc_l; [exact H10|]. apply rtc_once. exists (cl_at (CUnlock 0 None) c). split; [|done].
    simpl. apply list_lookup_insert_eq. rewrite (on_clients _ _ _ _ _ O9), length_insert. by eapply lookup_lt_Some.
  - simpl. by rewrite (on_history _ _ _ _ _ O9).
  - simpl. by rewrite M9, M8, M7, M6, M5, M4, M3, M2, Hm.
  - simpl. rewrite (on_clients _ _ _ _ _ O9). by rewrite !list_insert_insert_eq.
Qed.

(** The state after the call of an operation. *)
Lemma call_state s n c op o :
  ps_clients s !! n = Some c -> cl_pc c = CIdle -> ob_mapped (default no_object (ps_objects s !! o)) = true ->
  match op with OpSet value => length value = ps_size s | _ => True end ->
  let c' := {| cl_pc := CLock; cl_op := op; cl_object := o; cl_result := cl_result c; cl_reads := cl_reads c |} in
  parameter_exec (EvCall n op o) s = Some (with_client n c' s) /\ ps_clients (with_client n c' s) !! n = Some c'.
Proof.
  intros Hn Hpc Ho Hop c'. split.
  - simpl. rewrite Hn, Hpc, Ho. destruct op; try done. by rewrite Hop, Nat.eqb_refl.
  - apply list_lookup_insert_eq. by eapply lookup_lt_Some.
Qed.

(** Recovery of [Get].  In any reachable state in which nobody holds the
    lock or its holder has died, at whatever step of whatever operation
    (recovery included), a [Get] running on its own returns 0 with the
    register's version and value, and leaves the lock free and the register
    unchanged. *)
Lemma get_recovers init clients objects s n c o :
  parameter_reachable init clients objects s -> (ps_mutex s = Free \/ ps_mutex s = OwnerDied) ->
  ps_clients s !! n = Some c -> cl_pc c = CIdle -> ob_mapped (default no_object (ps_objects s !! o)) = true ->
  exists k s' c' v x, parameter_run (EvCall n OpGet o :: repeat (EvStep n 0) k) s = Some s' /\
  register (ps_storage s) = Some (v, x) /\ register (ps_storage s') = Some (v, x) /\ ps_mutex s' = Free /\
  ps_clients s' !! n = Some c' /\ cl_pc c' = CIdle /\ cl_result c' = 0 /\ cl_reads c' = cl_reads c ++ [(v, x)].
Proof.
  intros Hreach Hm Hn Hpc Ho. pose proof (parameter_reachable_invariant _ _ _ _ Hreach) as Hinv.
  destruct (call_state s n c OpGet o Hn Hpc Ho I) as [Hcall Hn1]. set (c1 := Build_Client _ _ _ _ _) in *. set (s1 := with_client n c1 s) in *.
  assert (parameter_invariant s1) as Hinv1 by (eapply parameter_step_preserves; [exact Hinv|by exists (EvCall n OpGet o)]).
  destruct (client_enter_alone n c1 s1 Hn1 eq_refl Hm) as (s2 & H2 & O2 & M2).
  pose proof (alone_invariant _ _ _ Hinv1 H2) as Hinv2.
  destruct (get_alone n c1 s1 s2 Hn1 eq_refl O2 M2 Hinv2) as (s3 & v & x & H3 & Hx & Hv & Hh & Hm3 & Hc3).
  pose proof (alone_invariant _ _ _ Hinv2 H3) as Hinv3.
  destruct (client_alone_run n s1 s3) as [k Hk]; [by etrans|].
  exists k, s3, (cl_return 0 (Some (v, x)) c1), v, x.
  destruct (register_history _ Hinv) as (v0 & x0 & Hr & Hv0 & Hx0 & _). simpl in *.
  assert (v = v0) as -> by lia. assert (x = x0) as -> by congruence.
  rewrite (register_same s s3 Hinv Hinv3 Hh). split_and!; auto.
  - exact (machine_run_cons parameter_exec (EvCall n OpGet o) _ _ _ _ Hcall Hk).
  - rewrite Hc3. apply list_lookup_insert_eq. by eapply lookup_lt_Some.
Qed.

(** Recovery of [Set].  In the same situations a [Set] running on its own
    returns 0 and the register then holds exactly its argument under the next
    version (unless the version counter is exhausted). *)
Lemma set_recovers init clients objects s n c o v x value :
  parameter_reachable init clients objects s -> (ps_mutex s = Free \/ ps_mutex s = OwnerDied) ->
  ps_clients s !! n = Some c -> cl_pc c = CIdle -> ob_mapped (default no_object (ps_objects s !! o)) = true ->
  length value = ps_size s -> register (ps_storage s) = Some (v, x) -> v < UINT64_MAX ->
  exists k s' c', parameter_run (EvCall n (OpSet value) o :: repeat (EvStep n 0) k) s = Some s' /\
  register (ps_storage s') = Some (v + 1, value) /\ ps_mutex s' = Free /\
  ps_clients s' !! n = Some c' /\ cl_pc c' = CIdle /\ cl_result c' = 0.
Proof.
  intros Hreach Hm Hn Hpc Ho Hlen Hreg Hmax. pose proof (parameter_reachable_invariant _ _ _ _ Hreach) as Hinv.
  destruct (call_state s n c (OpSet value) o Hn Hpc Ho Hlen) as [Hcall Hn1]. set (c1 := Build_Client _ _ _ _ _) in *. set (s1 := with_client n c1 s) in *.
  assert (parameter_invariant s1) as Hinv1 by (eapply parameter_step_preserves; [exact Hinv|by exists (EvCall n (OpSet value) o)]).
  destruct (client_enter_alone n c1 s1 Hn1 eq_refl Hm) as (s2 & H2 & O2 & M2).
  pose proof (alone_invariant _ _ _ Hinv1 H2) as Hinv2.
  destruct (register_history _ Hinv) as (v0 & x0 & Hr & Hv0 & _). assert (v0 = v) as -> by congruence.
  destruct (set_alone n c1 s1 s2 value Hn1 eq_refl O2 M2 Hinv2) as (s3 & H3 & Hh & Hm3 & Hc3); [simpl; lia|].
  pose proof (alone_invariant _ _ _ Hinv2 H3) as Hinv3.
  destruct (client_alone_run n s1 s3) as [k Hk]; [by etrans|].
  exists k, s3, (cl_return 0 None c1). split_and!; auto.
  - exact (machine_run_cons parameter_exec (EvCall n (OpSet value) o) _ _ _ _ Hcall Hk).
  - destruct (register_history _ Hinv3) as (v1 & x1 & -> & Hv1 & Hx1 & _). rewrite Hh in *. simpl in *.
    rewrite length_app in Hv1. simpl in Hv1. assert (v1 = v + 1) as -> by lia.
    rewrite value_at_last in Hx1 by lia. congruence.
  - rewrite Hc3. apply list_lookup_insert_eq. by eapply lookup_lt_Some.
Qed.

(** A crash never blocks the Parameter.  In any reachable state in which nobody holds
    the lock or its holder has died, at whatever step of whatever operation (recovery
    included), a [Get] running on its own returns 0 with the register's version and value
    and leaves the lock free and the register unchanged, and a [Set] running on its own
    returns 0 and leaves the lock free and the register holding exactly its argument under
    the next version (unless the version counter is exhausted). *)
Theorem parameter_recovers init clients objects s n c o v x :
  parameter_reachable init clients objects s -> (ps_mutex s = Free \/ ps_mutex s = OwnerDied) ->
  ps_clients s !! n = Some c -> cl_pc c = CIdle -> ob_mapped (default no_object (ps_objects s !! o)) = true ->
  register (ps_storage s) = Some (v, x) ->
  (exists k s' c', parameter_run (EvCall n OpGet o :: repeat (EvStep n 0) k) s = Some s' /\
     register (ps_storage s') = Some (v, x) /\ ps_mutex s' = Free /\
     ps_clients s' !! n = Some c' /\ cl_pc c' = CIdle /\ cl_result c' = 0 /\ cl_reads c' = cl_reads c ++ [(v, x)]) /\
  (forall value, length value = ps_size s -> v < UINT64_MAX ->
     exists k s' c', parameter_run (EvCall n (OpSet value) o :: repeat (EvStep n 0) k) s = Some s' /\
     register (ps_storage s') = Some (v + 1, value) /\ ps_mutex s' = Free /\
     ps_clients s' !! n = Some c' /\ cl_pc c' = CIdle /\ cl_result c' = 0).
Proof.
  intros Hreach Hm Hn Hpc Ho Hreg. split.
  - destruct (get_recovers init clients objects s n c o Hreach Hm Hn Hpc Ho) as (k & s' & c' & v' & x' & Hrun & Hr & Hr' & Hrest).
    exists k, s', c'. rewrite Hreg in Hr. injection Hr as <- <-. split; [exact Hrun|]. split; [exact Hr'|exact Hrest].
  - intros value Hlen Hmax. by eapply set_recovers.
Qed.

(** Client 1 reads, and writes, after client 0 died inside its [memcpy]. *)
Lemma parameter_recovers_witness :
  ps_mutex after_crash = OwnerDied /\
  (exists k s', parameter_run (EvCall 1 OpGet 1 :: repeat (EvStep 1 0) k) after_crash = Some s' /\
   register (ps_storage s') = Some (0, [1; 2; 3])) /\
  (exists k s', parameter_run (EvCall 1 (OpSet [4; 5; 6]) 1 :: repeat (EvStep 1 0) k) after_crash = Some s' /\
   register (ps_storage s') = Some (1, [4; 5; 6])).
Proof.
  split; [vm_compute; reflexivity|].
  destruct (ps_clients after_crash !! 1%nat) as [c|] eqn:E; [|vm_compute in E; discriminate].
  destruct (parameter_recovers [1; 2; 3] 2 2 after_crash 1 c 1 0 [1; 2; 3] after_crash_reachable) as [Hget Hset].
  - right. vm_compute. reflexivity.
  - exact E.
  - vm_compute in E. injection E as <-. reflexivity.
  - vm_compute. reflexivity.
  - vm_compute. reflexivity.
  - split.
    + destruct Hget as (k & s' & c' & Hrun & Hr & _). exists k, s'. split; [exact Hrun|exact Hr].
    + destruct (Hset [4; 5; 6]) as (k & s' & c' & Hrun & Hr & _); [vm_compute; reflexivity|vm_compute; reflexivity|].
      exists k, s'. split; [exact Hrun|exact Hr].
Defined.
