(* ===== verification/CommandFreshness.v ===== *)
(** * Command freshness monitor

    [BasicCommandFreshnessMonitor] of [kcf/include/kcf/ipc/command_freshness.hpp].
    Time points and durations of the steady clock are integers of its tick; the
    clock argument of the source's default parameters is explicit here. *)
From S2P Require Import Prelude.

Inductive CommandFreshnessState := INVALID | VALID | EXPIRED.

Record Monitor := {
  cm_timeout : Z;
  cm_last : Z;
  cm_sequence : Z;
  cm_observed : bool;
  cm_fault : bool
}.

Record Snapshot := {
  sn_state : CommandFreshnessState;
  sn_has_observation : bool;
  sn_sequence : Z;
  sn_last_observed : Z;
  sn_age : Z
}.

Definition monitor (timeout : Z) : Monitor :=
  {| cm_timeout := timeout; cm_last := 0; cm_sequence := 0; cm_observed := false; cm_fault := false |}.

Definition Reset (m : Monitor) : Monitor := monitor (cm_timeout m).

Definition Invalidate (m : Monitor) : Monitor :=
  {| cm_timeout := cm_timeout m; cm_last := cm_last m; cm_sequence := cm_sequence m; cm_observed := cm_observed m;
     cm_fault := true |}.

Definition Observe (sequence now : Z) (m : Monitor) : bool * Monitor :=
  if cm_fault m || (cm_timeout m <=? 0) then (false, m)
  else if (sequence =? 0) || (cm_observed m && ((sequence <? cm_sequence m) || (now <? cm_last m))) then (false, Invalidate m)
  else if cm_observed m && (sequence =? cm_sequence m) then (false, m)
  else (true, {| cm_timeout := cm_timeout m; cm_last := now; cm_sequence := sequence; cm_observed := true;
                 cm_fault := cm_fault m |}).

Definition ObserveRead (result sequence now : Z) (m : Monitor) : bool * Monitor :=
  if result =? - EAGAIN then (false, m)
  else if negb (result =? 0) then (false, Invalidate m)
  else Observe sequence now m.

Definition GetSnapshot (now : Z) (m : Monitor) : Snapshot :=
  let age := if cm_observed m && (cm_last m <=? now) then now - cm_last m else 0 in
  let out state := {| sn_state := state; sn_has_observation := cm_observed m; sn_sequence := cm_sequence m;
                      sn_last_observed := cm_last m; sn_age := age |} in
  if negb (cm_observed m) || cm_fault m || (cm_timeout m <=? 0) || (now <? cm_last m) then out INVALID
  else out (if cm_timeout m <=? age then EXPIRED else VALID).

(** ** Histories *)
Inductive FreshnessEvent :=
| EvReset
| EvInvalidate
| EvRead (result sequence now : Z).

Definition apply (e : FreshnessEvent) (m : Monitor) : Monitor :=
  match e with
  | EvReset => Reset m
  | EvInvalidate => Invalidate m
  | EvRead result sequence now => snd (ObserveRead result sequence now m)
  end.
Definition after (tr : list FreshnessEvent) (m : Monitor) : Monitor := foldl (fun m e => apply e m) m tr.

(** A read that brings nothing new after sequence [q] was observed at [t]. *)
Definition idle_read (q t : Z) (e : FreshnessEvent) : Prop :=
  match e with
  | EvRead result sequence now => result = - EAGAIN \/ result = 0 /\ sequence = q /\ t <= now
  | _ => False
  end.

(** ** Theorems *)
(** The last accepted observation of a history that left no fault. *)
Definition last_accepted (timeout : Z) (tr : list FreshnessEvent) (m : Monitor) : Prop :=
  exists pre post,
    tr = pre ++ EvRead 0 (cm_sequence m) (cm_last m) :: post /\ cm_sequence m <> 0 /\
    (cm_observed (after pre (monitor timeout)) = true -> cm_sequence (after pre (monitor timeout)) < cm_sequence m) /\
    cm_fault (after pre (monitor timeout)) = false /\
    Forall (idle_read (cm_sequence m) (cm_last m)) post.

Lemma last_accepted_idle timeout tr m e :
  last_accepted timeout tr m -> idle_read (cm_sequence m) (cm_last m) e -> last_accepted timeout (tr ++ [e]) m.
Proof.
  intros (pre & post & -> & ?&?&?&?) He. exists pre, (post ++ [e]). split_and!; auto.
  - by rewrite <- app_assoc.
  - apply Forall_app. auto.
Qed.

Lemma after_snoc tr e m : after (tr ++ [e]) m = apply e (after tr m).
Proof. unfold after. by rewrite foldl_app. Qed.

Lemma after_inv timeout tr :
  let m := after tr (monitor timeout) in
  cm_timeout m = timeout /\ (cm_observed m = true -> cm_fault m = false -> last_accepted timeout tr m).
Proof.
  induction tr as [|e tr IH] using rev_ind; simpl; [done|]. rewrite after_snoc. simpl in IH.
  set (m := after tr (monitor timeout)) in *. destruct IH as [Ht IH].
  destruct e as [| |result q now]; simpl; [done|done|].
  unfold ObserveRead. destruct (Z.eqb_spec result (- EAGAIN)) as [->|Hne]; simpl.
  { split; [done|]. intros Ho Hf. apply last_accepted_idle; auto. by left. }
  destruct (Z.eqb_spec result 0) as [->|]; simpl; [|done]. unfold Observe.
  destruct (cm_fault m || (cm_timeout m <=? 0)) eqn:E1; simpl.
  { split; [done|]. intros Ho Hf. rewrite Hf in E1. simpl in E1. exfalso.
    destruct (IH Ho Hf) as (pre & post & Htr & Hq & _ & Hfp & _).
    (* with a nonpositive timeout nothing was ever observed *)
    clear -Ho Ht E1 Hf. bool_to_prop. revert Ho E1. rewrite Ht. clear. intros Ho Hle. subst m.
    assert (cm_observed (after tr (monitor timeout)) = false /\ cm_timeout (after tr (monitor timeout)) = timeout) as [H _];
      [|congruence].
    clear Ho. induction tr as [|e tr [IH1 IH2]] using rev_ind; [done|]. rewrite after_snoc.
    destruct e as [| |r q t]; simpl; [done|done|]. unfold ObserveRead, Observe.
    case_check; [done|]. case_check; [done|]. rewrite IH2.
    rewrite (proj2 (Z.leb_le _ _) Hle), orb_true_r. done. }
  case_check; simpl; [done|]. case_check; simpl.
  - split; [done|]. intros Ho Hf. bool_to_prop. apply last_accepted_idle; auto. right.
    split; [done|]. split; [done|].
    destruct (cm_observed m); [|done]. simpl in *. bool_to_prop. lia.
  - split; [done|]. intros _ Hf. bool_to_prop. exists tr, []. simpl. split_and!; auto; fold m.
    intros Ho. rewrite Ho in *. simpl in *. bool_to_prop. lia.
Qed.

(** VALID means fresh.  If after any history of resets, faults and read
    results the monitor reports VALID at time [now], then the history contains
    a successful read of a new sequence number (greater than any observed since
    the last reset), that read happened less than the timeout ago, and every
    event since was either -EAGAIN or a repetition of that same sequence
    number: no error, no regression of sequence or clock, and repeated or
    pending data never extends the deadline. *)
Theorem freshness_valid_sound timeout tr now :
  sn_state (GetSnapshot now (after tr (monitor timeout))) = VALID ->
  exists pre post q t,
    tr = pre ++ EvRead 0 q t :: post /\ q <> 0 /\ t <= now < t + timeout /\
    (cm_observed (after pre (monitor timeout)) = true -> cm_sequence (after pre (monitor timeout)) < q) /\
    cm_fault (after pre (monitor timeout)) = false /\ Forall (idle_read q t) post.
Proof.
  destruct (after_inv timeout tr) as [Ht Hlast]. unfold GetSnapshot.
  set (m := after tr (monitor timeout)) in *. case_check; [done|]. bool_to_prop.
  case_check; [done|]. intros _. bool_to_prop.
  destruct Hlast as (pre & post & Htr & ? & ? & ? & ?); auto.
  replace (cm_observed m) with true in * by done. simpl in *.
  destruct (Z.leb_spec (cm_last m) now); [|lia].
  exists pre, post, (cm_sequence m), (cm_last m). split_and!; auto; lia.
Qed.

Lemma freshness_valid_sound_witness :
  sn_state (GetSnapshot 150 (after [EvRead 0 4 60; EvReset; EvRead 0 7 100; EvRead (- EAGAIN) 0 120; EvRead 0 7 140] (monitor 60))) = VALID /\
  exists pre post q t, [EvRead 0 4 60; EvReset; EvRead 0 7 100; EvRead (- EAGAIN) 0 120; EvRead 0 7 140] = pre ++ EvRead 0 q t :: post /\
  t <= 150 < t + 60.
Proof.
  split; [reflexivity|].
  destruct (freshness_valid_sound 60 [EvRead 0 4 60; EvReset; EvRead 0 7 100; EvRead (- EAGAIN) 0 120; EvRead 0 7 140] 150 eq_refl)
    as (pre & post & q & t & H1 & _ & H2 & _).
  exists pre, post, q, t. split; [exact H1|exact H2].
Defined.

(** Faults latch.  After [Invalidate], or after a read error other than
    -EAGAIN, no sequence of reads makes the monitor accept an observation or
    leave INVALID; only [Reset] does. *)
Theorem freshness_fault_latched m tr now :
  cm_fault m = true -> (forall e, e ∈ tr -> e <> EvReset) ->
  sn_state (GetSnapshot now (after tr m)) = INVALID /\
  forall result q t, fst (ObserveRead result q t (after tr m)) = false.
Proof.
  intros Hf Htr. assert (cm_fault (after tr m) = true) as Hfault.
  { revert Htr. induction tr as [|e tr IH] using rev_ind; intros Htr; [done|]. rewrite after_snoc.
    assert (cm_fault (after tr m) = true) as H by (apply IH; intros x Hx; apply Htr, elem_of_app; by left).
    destruct e as [| |r q t]; simpl; [|done|].
    - exfalso. apply (Htr EvReset); [apply elem_of_app; right; left|done].
    - unfold ObserveRead, Observe. rewrite H. by repeat case_check. }
  split.
  - unfold GetSnapshot. by rewrite Hfault, orb_true_r.
  - intros. unfold ObserveRead, Observe. rewrite Hfault. by repeat case_check.
Qed.

Lemma freshness_fault_latched_witness :
  sn_state (GetSnapshot 5 (after [EvRead 0 9 1] (apply (EvRead (- EPROTO) 0 0) (monitor 100)))) = INVALID.
Proof.
  apply (freshness_fault_latched (apply (EvRead (- EPROTO) 0 0) (monitor 100)) [EvRead 0 9 1] 5); [reflexivity|].
  intros e He. apply list_elem_of_singleton in He. rewrite He. discriminate.
Defined.
