(* ===== verification/StorageLayout.v ===== *)
(** * Shared-memory layout and object names

    [ComputeChannelLayout] of [kcf/include/kcf/ipc/detail/storage_layout.hpp] with
    its 64-bit [std::size_t] arithmetic, and [SetName] of
    [kcf/include/kcf/ipc/shared_channel.hpp] and
    [kcf/include/kcf/parameter/shared_parameter.hpp].  The three sizes that come
    from the ABI ([sizeof(ChannelHeader)], [alignof] and [offsetof(data)] of
    [ChannelSlot<std::byte>]) are parameters. *)
From S2P Require Import Prelude.

Record ChannelLayout := { ly_slots : Z; ly_data : Z; ly_stride : Z; ly_length : Z }.

Section Layout.
Context (header_size slot_align data_offset : Z).

(** [align(n, a, result)]: round [n] up to a multiple of the power of two [a]. *)
Definition align_up (n a : Z) : option Z :=
  if UINT64_MAX - (a - 1) <? n then None
  else Some (Z.land (u64 (n + a - 1)) (u64 (Z.lnot (a - 1)))).

Definition ComputeChannelLayout (size alignment depth : Z) : option ChannelLayout :=
  if (depth =? 0) || (size =? 0) || (alignment =? 0) || negb (Z.land alignment (u64 (alignment - 1)) =? 0) then None
  else
  let slot_alignment := if slot_align <? alignment then alignment else slot_align in
  match align_up header_size slot_alignment with
  | None => None
  | Some slots =>
      match align_up data_offset alignment with
      | None => None
      | Some data =>
          if UINT64_MAX - data <? size then None
          else match align_up (u64 (data + size)) slot_alignment with
               | None => None
               | Some stride =>
                   if (UINT64_MAX - slots) / stride / 3 <? depth then None
                   else Some {| ly_slots := slots; ly_data := data; ly_stride := stride;
                                ly_length := u64 (slots + u64 (u64 (depth * 3) * stride)) |}
               end
      end
  end.
End Layout.

(** The byte offset of slot [i]: [SlotAt]. *)
Definition SlotAt (l : ChannelLayout) (i : Z) : Z := ly_slots l + i * ly_stride l.

(** ** Powers of two *)
Definition power_of_two (a : Z) : Prop := exists k, 0 <= k < 64 /\ a = 2 ^ k.

(** [x & (x-1) == 0] tells the powers of two among the positive integers. *)
Lemma land_pred_power a : 0 < a <= UINT64_MAX -> Z.land a (u64 (a - 1)) = 0 -> power_of_two a.
Proof.
  intros Ha. unfold u64. rewrite Z.mod_small by (unfold UINT64_MAX in *; lia). intros Hl.
  set (k := Z.log2 a). pose proof (Z.log2_spec a) as Hs. pose proof (Z.log2_nonneg a) as Hk. fold k in Hs, Hk.
  assert (a = 2 ^ k) as He; [|exists k; split; [split; [done|]|done]].
  - destruct (Z.eq_dec a (2 ^ k)) as [|Hne]; [done|exfalso].
    (* bit k is set in both a and a-1 *)
    assert (Z.testbit (Z.land a (a - 1)) k = true) as Hb; [|by rewrite Hl, Z.bits_0 in Hb].
    rewrite Z.land_spec. apply andb_true_intro. split.
    + apply Z.bit_log2. lia.
    + assert (Z.log2 (a - 1) = k) as Hk'. { apply Z.log2_unique; [done|]. lia. }
      rewrite <- Hk'. apply Z.bit_log2. pose proof (Z.pow_pos_nonneg 2 k). lia.
  - apply (Z.pow_lt_mono_r_iff 2); [lia..|]. unfold UINT64_MAX in *. lia.
Qed.

(** [(n+a-1) & ~(a-1)] is the least multiple of [a] that is at least [n]. *)
Lemma align_up_spec n a r :
  power_of_two a -> 0 <= n <= UINT64_MAX -> align_up n a = Some r ->
  n <= r < n + a /\ r mod a = 0 /\ 0 <= r <= UINT64_MAX.
Proof.
  intros (k & Hk & ->) Hn. unfold align_up. case_check; [done|]. bool_to_prop. intros [= <-].
  pose proof (Z.pow_pos_nonneg 2 k ltac:(lia) ltac:(lia)) as Hp.
  assert (2 ^ k <= 2 ^ 63) as Hmax by (apply Z.pow_le_mono_r; lia).
  set (x := n + 2 ^ k - 1) in *.
  assert (u64 x = x) as -> by (unfold u64, x, UINT64_MAX in *; apply Z.mod_small; lia).
  assert (Z.land x (u64 (Z.lnot (2 ^ k - 1))) = x - x mod 2 ^ k) as ->.
  { rewrite <- Z.land_ones by lia. rewrite Z.ones_equiv, <- Z.sub_1_r.
    assert (Z.land x (u64 (Z.lnot (2 ^ k - 1))) = Z.ldiff x (2 ^ k - 1)) as ->.
    { apply Z.bits_inj'. intros i Hi. rewrite Z.land_spec, Z.ldiff_spec. unfold u64.
      destruct (Z.lt_ge_cases i 64).
      - rewrite Z.mod_pow2_bits_low, Z.lnot_spec by lia. done.
      - assert (Z.testbit x i = false) as ->; [|done].
        apply Z.bits_above_log2; [lia|]. apply Z.lt_le_trans with 64; [|done].
        destruct (Z.eq_dec x 0) as [->|]; [done|]. apply Z.log2_lt_pow2; [lia|]. unfold x, UINT64_MAX in *. lia. }
    rewrite Z.sub_1_r, <- Z.ones_equiv. pose proof (Z.ldiff_le x (Z.ones k)).
    rewrite Z.land_ones by lia. rewrite Z.ldiff_ones_r by lia.
    rewrite Z.shiftl_mul_pow2, Z.shiftr_div_pow2 by lia.
    pose proof (Z.div_mod x (2 ^ k)). lia. }
  pose proof (Z.mod_pos_bound x (2 ^ k) Hp). split_and!; try (unfold x, UINT64_MAX in *; lia).
  rewrite Zminus_mod_idemp_r, Z.sub_diag. apply Z.mod_0_l. lia.
Qed.

(** ** The layout *)
Section LayoutTheorems.
Context (header_size slot_align data_offset : Z).

(** What the ABI guarantees of the three constants. *)
Definition abi_ok : Prop :=
  0 < header_size <= UINT64_MAX /\ power_of_two slot_align /\ 0 <= data_offset <= UINT64_MAX.

Lemma max_align alignment : power_of_two slot_align -> power_of_two alignment ->
  let m := if slot_align <? alignment then alignment else slot_align in
  power_of_two m /\ m mod alignment = 0.
Proof.
  intros Hs Ha m. unfold m. case_check; bool_to_prop; split; auto.
  - apply Z.mod_same. destruct Ha as (k & ? & ->). pose proof (Z.pow_pos_nonneg 2 k). lia.
  - destruct Hs as (j & Hj & ->), Ha as (k & Hk & ->).
    assert (k <= j) by (apply (Z.pow_le_mono_r_iff 2); lia).
    replace (2 ^ j) with (2 ^ (j - k) * 2 ^ k) by (rewrite <- Z.pow_add_r by lia; f_equal; lia).
    apply Z.mod_mul. pose proof (Z.pow_pos_nonneg 2 k). lia.
Qed.

Lemma mod_trans x m a : 0 < a -> 0 < m -> x mod m = 0 -> m mod a = 0 -> x mod a = 0.
Proof.
  intros Ha Hm Hx Hma. apply Z.mod_divide in Hx, Hma; [|lia..]. apply Z.mod_divide; [lia|].
  by apply Z.divide_trans with m.
Qed.

(** The facts about an accepted layout, with all arithmetic exact. *)
Lemma layout_facts size alignment depth l :
  abi_ok -> is_u64 size -> is_u64 alignment -> is_u32 depth ->
  ComputeChannelLayout header_size slot_align data_offset size alignment depth = Some l ->
  let m := if slot_align <? alignment then alignment else slot_align in
  1 <= depth /\ 1 <= size /\ power_of_two alignment /\ power_of_two m /\ m mod alignment = 0 /\
  header_size <= ly_slots l /\ ly_slots l mod m = 0 /\
  data_offset <= ly_data l /\ ly_data l mod alignment = 0 /\
  ly_data l + size <= ly_stride l /\ ly_stride l mod m = 0 /\
  ly_length l = ly_slots l + 3 * depth * ly_stride l /\ ly_length l <= UINT64_MAX.
Proof.
  intros (Hh & Hsa & Hd) Hsz Hal Hdep. unfold ComputeChannelLayout. case_check; [done|]. bool_to_prop.
  assert (power_of_two alignment) as Hpa by (apply land_pred_power; [unfold is_u64 in *; lia|done]).
  destruct (max_align alignment Hsa Hpa) as [Hpm Hmm]. set (m := if slot_align <? alignment then _ else _) in *.
  destruct (align_up header_size m) as [slots|] eqn:E1; [|done].
  destruct (align_up data_offset alignment) as [data|] eqn:E2; [|done].
  case_check; [done|]. bool_to_prop.
  apply align_up_spec in E1 as (?&?&?); [|done|lia]. apply align_up_spec in E2 as (?&?&?); [|done|lia].
  replace (u64 (data + size)) with (data + size) by (unfold_widths; rewrite Z.mod_small; lia).
  destruct (align_up (data + size) m) as [stride|] eqn:E3; [|done].
  apply align_up_spec in E3 as (?&?&?); [|done|unfold_widths; lia].
  case_check; [done|]. bool_to_prop. intros [= <-]. simpl.
  assert (3 * depth * stride <= UINT64_MAX - slots) as Hfit.
  { assert (depth * 3 <= (UINT64_MAX - slots) / stride) as Hthree.
    { pose proof (Z.mul_div_le ((UINT64_MAX - slots) / stride) 3). lia. }
    pose proof (Z.mul_div_le (UINT64_MAX - slots) stride).
    assert (stride * (depth * 3) <= stride * ((UINT64_MAX - slots) / stride)) by (apply Z.mul_le_mono_nonneg_l; lia).
    unfold_widths. lia. }
  assert (0 < stride) by (unfold_widths; lia).
  assert (u64 (depth * 3) = depth * 3) as -> by (unfold_widths; rewrite Z.mod_small; lia).
  assert (u64 (depth * 3 * stride) = 3 * depth * stride) as -> by (unfold_widths; rewrite Z.mod_small; lia).
  assert (u64 (slots + 3 * depth * stride) = slots + 3 * depth * stride) as -> by (unfold_widths; rewrite Z.mod_small; lia).
  split_and!; auto; try (unfold_widths; lia).
Qed.

(** The mapped layout is sound.  When [ComputeChannelLayout] accepts,
    no computation has wrapped: the header and the [3*depth] slots lie one
    after the other inside the [length] bytes of the mapping, two different
    slots never overlap, every slot is aligned for the larger of the slot
    header's and the payload's alignment and its payload for the payload's. *)
Theorem channel_layout_sound size alignment depth l i j :
  abi_ok -> is_u64 size -> is_u64 alignment -> is_u32 depth ->
  ComputeChannelLayout header_size slot_align data_offset size alignment depth = Some l ->
  0 <= i < 3 * depth -> 0 <= j < i ->
  header_size <= SlotAt l j /\
  SlotAt l j + ly_data l + size <= SlotAt l i /\
  SlotAt l i + ly_data l + size <= ly_length l <= UINT64_MAX /\
  SlotAt l i mod slot_align = 0 /\ (SlotAt l i + ly_data l) mod alignment = 0.
Proof.
  intros Habi Hsz Hal Hdep Hl Hi Hj.
  destruct (layout_facts _ _ _ _ Habi Hsz Hal Hdep Hl) as (?&?&Hpa&Hpm&Hm&?&Hs0&?&Hd0&?&Hst0&Hlen&?).
  destruct Habi as (?&Hsa&?). unfold SlotAt. set (m := if slot_align <? alignment then _ else _) in *.
  assert (m mod slot_align = 0) as Hms.
  { unfold m. case_check; bool_to_prop; [|apply Z.mod_same; destruct Hsa as (k & ? & ->); pose proof (Z.pow_pos_nonneg 2 k); lia].
    destruct Hsa as (k & Hk & ->), Hpa as (q & Hq & ->).
    assert (k <= q) by (apply (Z.pow_le_mono_r_iff 2); lia).
    replace (2 ^ q) with (2 ^ (q - k) * 2 ^ k) by (rewrite <- Z.pow_add_r by lia; f_equal; lia).
    apply Z.mod_mul. pose proof (Z.pow_pos_nonneg 2 k). lia. }
  assert (0 < m /\ 0 < slot_align /\ 0 < alignment) as (Hm0 & Hsa0 & Hal0).
  { destruct Hpm as (k1 & ? & ->), Hsa as (k2 & ? & ->), Hpa as (k3 & ? & ->).
    pose proof (Z.pow_pos_nonneg 2 k1). pose proof (Z.pow_pos_nonneg 2 k2). pose proof (Z.pow_pos_nonneg 2 k3). lia. }
  assert ((ly_slots l + i * ly_stride l) mod m = 0) as Hslot.
  { apply Z.mod_divide in Hs0, Hst0; [|lia..]. apply Z.mod_divide; [lia|].
    apply Z.divide_add_r; [done|by apply Z.divide_mul_r]. }
  assert (0 <= ly_stride l) by (unfold_widths; lia).
  assert (0 <= j * ly_stride l) by (apply Z.mul_nonneg_nonneg; lia).
  assert ((j + 1) * ly_stride l <= i * ly_stride l) by (apply Z.mul_le_mono_nonneg_r; lia).
  assert ((i + 1) * ly_stride l <= 3 * depth * ly_stride l) by (apply Z.mul_le_mono_nonneg_r; lia).
  split_and!; auto; [lia..| |].
  - eapply mod_trans; [done| |exact Hslot|done]. lia.
  - apply Z.mod_divide; [lia|]. apply Z.mod_divide in Hd0; [|lia]. apply Z.divide_add_r; [|done].
    apply Z.mod_divide; [lia|]. by apply (mod_trans _ m).
Qed.
End LayoutTheorems.

(** x86-64 Linux: a 168-byte header, slots aligned to 8 with data at 16. *)
Lemma channel_layout_sound_witness :
  ComputeChannelLayout 168 8 16 100 32 4 = Some {| ly_slots := 192; ly_data := 32; ly_stride := 160; ly_length := 2112 |} /\
  SlotAt {| ly_slots := 192; ly_data := 32; ly_stride := 160; ly_length := 2112 |} 11 + 32 + 100 <= 2112.
Proof.
  split; [vm_compute; reflexivity|].
  assert (abi_ok 168 8 16) as Habi.
  { split; [vm_compute; split; [reflexivity|discriminate]|]. split; [exists 3; split; [lia|reflexivity]|].
    vm_compute. split; discriminate. }
  destruct (channel_layout_sound 168 8 16 100 32 4 {| ly_slots := 192; ly_data := 32; ly_stride := 160; ly_length := 2112 |} 11 0)
    as (_ & _ & [H _] & _).
  - exact Habi.
  - vm_compute. split; discriminate.
  - vm_compute. split; discriminate.
  - vm_compute. split; discriminate.
  - vm_compute. reflexivity.
  - lia.
  - lia.
  - exact H.
Defined.

(** ** Names of shared-memory objects *)
Definition escape (ch : Z) : list Z :=
  if ch =? 47 then [37; 50; 70] (* '/' as %2F *)
  else if ch =? 37 then [37; 50; 53] (* '%' as %25 *)
  else [ch].

(** [SetName]: the name given to [shm_open]. *)
Definition SetName (name : list Z) : result (list Z) :=
  if (vsize name <? 2) || negb (bool_decide (name !! 0%nat = Some 47)) || (240 <? vsize name) || bool_decide (0 ∈ name)
  then Err (- EINVAL)
  else
  let name_ := 47 :: concat (escape <$> drop 1 name) in
  if vsize name_ <=? 250 then Ok name_ else Err (- ENAMETOOLONG).

Lemma escape_inj_cons a b x y : escape a ++ x = escape b ++ y -> a = b /\ x = y.
Proof.
  unfold escape. repeat case_check; bool_to_prop; intros H; simplify_eq/=; auto; congruence.
Qed.

Lemma escape_inj l k : concat (escape <$> l) = concat (escape <$> k) -> l = k.
Proof.
  revert k. induction l as [|a l IH]; intros [|b k]; simpl; [done|..].
  - unfold escape. repeat case_check; done.
  - unfold escape. repeat case_check; done.
  - intros [-> ->%IH]%escape_inj_cons. done.
Qed.

(** Object names.  Every accepted topic or parameter name maps to a valid
    POSIX shared-memory name (a slash followed by at most 249 characters
    without slash or NUL), and two different names never share an object. *)
Theorem set_name_injective name name' enc :
  SetName name = Ok enc -> SetName name' = Ok enc ->
  name = name' /\ vsize enc <= 250 /\ exists rest, enc = 47 :: rest /\ (47 ∉ rest) /\ (0 ∉ rest).
Proof.
  unfold SetName. case_check; [done|]. case_check; [|done]. intros [= Henc]. subst enc. case_check; [done|]. case_check; [|done]. intros [= Henc]. bool_to_prop.
  destruct name as [|a l]; [done|]. destruct name' as [|b k]; [done|]. simpl in *. simplify_eq/=.
  rewrite !drop_0 in *. split; [f_equal; by apply escape_inj|]. split; [done|].
  eexists. split; [done|].
  assert (forall x, x ∈ concat (escape <$> l) -> x <> 47 /\ (x = 0 -> 0 ∈ l)) as Hx.
  { intros x Hx. apply list_elem_of_In, in_concat in Hx as (e & Hin & Hx). apply list_elem_of_In in Hin, Hx.
    apply list_elem_of_fmap in Hin as (y & -> & Hy). revert Hx. unfold escape.
    repeat case_check; bool_to_prop; rewrite !elem_of_cons, elem_of_nil; intros Hx; split; intros; subst;
      repeat (destruct Hx as [Hx|Hx]); try done; try congruence. }
  split; intros Hin; apply Hx in Hin as [? Hz]; [done|].
  match goal with H : 0 ∉ 47 :: l |- _ => apply H; right; by apply Hz end.
Qed.

(** "/a/b" and "/a%2Fb" are different objects. *)
Lemma set_name_injective_witness :
  SetName [47; 97; 47; 98] = Ok [47; 97; 37; 50; 70; 98] /\
  SetName [47; 97; 37; 50; 70; 98] = Ok [47; 97; 37; 50; 53; 50; 70; 98] /\
  vsize [47; 97; 37; 50; 70; 98] <= 250.
Proof.
  split; [vm_compute; reflexivity|]. split; [vm_compute; reflexivity|].
  apply (set_name_injective [47; 97; 47; 98] [47; 97; 47; 98] [47; 97; 37; 50; 70; 98]); vm_compute; reflexivity.
Defined.
