(* ===== verification/StorageOwnership.v ===== *)
(** * Ownership of shared-memory segments

    [CreateOwnedShm] and [OwnerDead] of [kcf/ipc/detail/recovery.hpp], and the calls that make,
    attach and remove segments: [Create]/[TryCreate], [Open], [Close] and [Unlink] of
    [SharedChannel] ([kcf/ipc/shared_channel.hpp]) and of [SharedParameter]
    ([kcf/parameter/shared_parameter.hpp]), whose protocols differ in the size of a segment, the
    magic number and some error codes ([StorageType]).

    Any number of processes, each with any number of storage objects ([Handle]), interleave at
    system calls and at the stores into a mapped header that another process can tell apart.
    A process may die at any point; its locks go then, its process id when it is reaped.
    Every system call may fail instead.  The names of [/dev/shm] may at first refer to segments
    of other programs. *)
From stdpp Require Import gmap.
From S2P Require Import Prelude StorageLayout.

(** ** Types *)
Definition STORAGE_FORMAT := 3.
Definition TOPIC_STORAGE_FORMAT := 4.
Definition TOPIC_MAGIC := 0x4b4346545249504c.
Definition PARAMETER_MAGIC := 0x4b4346504152414d.
(** The payload type of a storage class.  [sy_layout]: for a Parameter the size of its storage,
    for a Topic the three sizes of its header and slots that come from the ABI. *)
Record StorageType := { sy_layout : Z + Z * Z * Z; sy_size : Z; sy_alignment : Z; sy_type_id : Z; sy_layout_id : Z }.
Definition sy_topic (t : StorageType) : bool := match sy_layout t with inr _ => true | inl _ => false end.
Definition sy_magic (t : StorageType) : Z := if sy_topic t then TOPIC_MAGIC else PARAMETER_MAGIC.
Definition sy_format (t : StorageType) : Z := if sy_topic t then TOPIC_STORAGE_FORMAT else STORAGE_FORMAT.
(** The length of a segment: [layout_.length] for a queue depth, [sizeof(Storage)]. *)
Definition sy_length (t : StorageType) (depth : Z) : option Z :=
  match sy_layout t with
  | inl size => Some size
  | inr (header_size, slot_align, data_offset) => option_map ly_length (ComputeChannelLayout header_size slot_align data_offset (sy_size t) (sy_alignment t) depth)
  end.
(** The 56 bytes at the start of a segment. *)
Record OwnerHeader := { oh_magic : Z; oh_size : Z; oh_alignment : Z; oh_format : Z; oh_initialized : Z; oh_owner_pid : Z; oh_type_id : Z; oh_layout_id : Z }.
Definition HEADER_SIZE := 56.
(** Who made a segment, and for what; never read by the calls. *)
Record Creator := { cr_handle : nat; cr_type : StorageType; cr_pid : Z }.
Record Segment := {
  sg_header : option OwnerHeader;  (** [None]: shorter than a header *)
  sg_depth : Z;  (** [ChannelHeader::depth] *)
  sg_length : Z;  (** [st_size] *)
  sg_exclusive : option nat;  (** who holds [LOCK_EX] *)
  sg_shared : list nat;  (** who holds [LOCK_SH] *)
  sg_ready : bool;  (** the mutex, the condition and the payload are initialized; never read *)
  sg_creator : option Creator  (** [None]: another program *)
}.
Definition sg_write (h : OwnerHeader) (o : Segment) : Segment :=
  {| sg_header := Some h; sg_depth := sg_depth o; sg_length := sg_length o; sg_exclusive := sg_exclusive o; sg_shared
     := sg_shared o; sg_ready := sg_ready o; sg_creator := sg_creator o |}.
Definition sg_resize (n : Z) (o : Segment) : Segment :=
  {| sg_header := sg_header o; sg_depth := sg_depth o; sg_length := n; sg_exclusive := sg_exclusive o; sg_shared :=
     sg_shared o; sg_ready := sg_ready o; sg_creator := sg_creator o |}.
Definition sg_set_depth (d : Z) (o : Segment) : Segment :=
  {| sg_header := sg_header o; sg_depth := d; sg_length := sg_length o; sg_exclusive := sg_exclusive o; sg_shared :=
     sg_shared o; sg_ready := sg_ready o; sg_creator := sg_creator o |}.
Definition sg_lock (c : nat) (o : Segment) : Segment :=
  {| sg_header := sg_header o; sg_depth := sg_depth o; sg_length := sg_length o; sg_exclusive := Some c; sg_shared :=
     sg_shared o; sg_ready := sg_ready o; sg_creator := sg_creator o |}.
Definition sg_share (c : nat) (o : Segment) : Segment :=
  {| sg_header := sg_header o; sg_depth := sg_depth o; sg_length := sg_length o; sg_exclusive := sg_exclusive o;
     sg_shared := c :: sg_shared o; sg_ready := sg_ready o; sg_creator := sg_creator o |}.
Definition sg_initialize (o : Segment) : Segment :=
  {| sg_header := sg_header o; sg_depth := sg_depth o; sg_length := sg_length o; sg_exclusive := sg_exclusive o;
     sg_shared := sg_shared o; sg_ready := true; sg_creator := sg_creator o |}.
Definition sg_unlock (c : nat) (o : Segment) : Segment :=
  {| sg_header := sg_header o; sg_depth := sg_depth o; sg_length := sg_length o; sg_exclusive := (if bool_decide
     (sg_exclusive o = Some c) then None else sg_exclusive o); sg_shared := filter (fun d => d <> c) (sg_shared o);
     sg_ready := sg_ready o; sg_creator := sg_creator o |}.
Record OsProcess := { op_pid : Z; op_running : bool }.
Record ShmKernel := {
  kn_names : gmap (list Z) nat;  (** [/dev/shm] *)
  kn_segments : gmap nat Segment;  (** by inode, also the ones without a name *)
  kn_next : nat;  (** the next inode *)
  kn_directory : option nat;  (** who holds the lock of the directory *)
  kn_processes : gmap nat OsProcess  (** until they are reaped *)
}.
Definition kn_set_names (names : gmap (list Z) nat) (k : ShmKernel) : ShmKernel :=
  {| kn_names := names; kn_segments := kn_segments k; kn_next := kn_next k; kn_directory := kn_directory k;
     kn_processes := kn_processes k |}.
Definition kn_set_segments (segments : gmap nat Segment) (k : ShmKernel) : ShmKernel :=
  {| kn_names := kn_names k; kn_segments := segments; kn_next := kn_next k; kn_directory := kn_directory k;
     kn_processes := kn_processes k |}.
Definition kn_set_directory (d : option nat) (k : ShmKernel) : ShmKernel :=
  {| kn_names := kn_names k; kn_segments := kn_segments k; kn_next := kn_next k; kn_directory := d; kn_processes :=
     kn_processes k |}.
Definition kn_set_processes (ps : gmap nat OsProcess) (k : ShmKernel) : ShmKernel :=
  {| kn_names := kn_names k; kn_segments := kn_segments k; kn_next := kn_next k; kn_directory := kn_directory k;
     kn_processes := ps |}.
Definition kn_create (name : list Z) (o : Segment) (k : ShmKernel) : ShmKernel :=
  {| kn_names := <[name := kn_next k]> (kn_names k); kn_segments := <[kn_next k := o]> (kn_segments k); kn_next := S
     (kn_next k); kn_directory := kn_directory k; kn_processes := kn_processes k |}.
Definition on_segment (i : nat) (f : Segment -> Segment) (k : ShmKernel) : ShmKernel := kn_set_segments (alter f i (kn_segments k)) k.
Definition header_of (i : nat) (k : ShmKernel) : option OwnerHeader := kn_segments k !! i ≫= sg_header.
(** [getpid] of a process. *)
Definition pid_of (p : nat) (k : ShmKernel) : Z := default 0 (op_pid <$> kn_processes k !! p).
(** [kill(pid, 0)] fails with [ESRCH]: nobody has the number, not even a process that is still to be reaped. *)
Definition OwnerDead (pid : Z) (k : ShmKernel) : bool := (0 <? pid) && forallb (fun x => negb (op_pid x.2 =? pid)) (map_to_list (kn_processes k)).
(** [flock] is granted *)
Definition lockable (i : nat) (k : ShmKernel) : bool :=
  match kn_segments k !! i with Some o => bool_decide (sg_exclusive o = None) && bool_decide (sg_shared o = []) | None => true end.
Definition shareable (i : nat) (k : ShmKernel) : bool := match kn_segments k !! i with Some o => bool_decide (sg_exclusive o = None) | None => true end.

(** ** Program points: what the next step does *)
Inductive StoragePc :=
| Ready
(** [CreateOwnedShm]; [n]: the second attempt *)
| DirOpen | DirLock | OpenNew (n : bool) | LockNew (fd : nat) | WriteHeader (fd : nat) | UnlinkNew (fd : nat) (code : Z) | CloseFail (fd : nat) (code : Z)
| OpenOld (n : bool) | LockOld (n : bool) (fd : nat) | ReadOld (n : bool) (fd : nat) | ProbeOld (n : bool) (fd : nat) (pid : Z) | UnlinkOld (n : bool) (fd : nat) | CloseOld (n : bool) (fd : nat)
| DirRelease (r : Z + nat)
(** the rest of [Create] *)
| Truncate (fd : nat) | MapNew (fd : nat) | Construct (fd : nat) | SetOwner (fd : nat) | InitializeSync (fd : nat) | SetMagic (fd : nat) | SetInitialized (fd : nat) | UnlockNew (fd : nat)
| FailUnlink (code : Z) | FailClose (code : Z)
(** [Open] *)
| ShmOpen | ReadHeader (fd : nat) | ProbeHeader (fd : nat) (pid : Z) | LockShared (fd : nat) | Stat (fd : nat) | ReadDepth (fd : nat) (size : Z) | MapOld (fd : nat) (depth : Z)
| CheckHeader (fd : nat) (depth : Z) | ProbeMapped (fd : nat) | UnlockOld (fd : nat).
Record Handle := {
  hd_type : StorageType;
  hd_process : nat;
  hd_name : list Z;  (** [name_] *)
  hd_fd : option nat;  (** [fd_] *)
  hd_mapped : bool;  (** [storage_] *)
  hd_owns : bool;  (** [owns_name_] *)
  hd_publisher : bool;  (** [publisher_], of a Topic *)
  hd_depth : Z;  (** [depth] of [Create] *)
  hd_nonblocking : bool;  (** [TryCreate] *)
  hd_pc : StoragePc;
  hd_result : Z  (** of the last call *)
}.
Definition hd_at (pc : StoragePc) (h : Handle) : Handle :=
  {| hd_type := hd_type h; hd_process := hd_process h; hd_name := hd_name h; hd_fd := hd_fd h; hd_mapped := hd_mapped
     h; hd_owns := hd_owns h; hd_publisher := hd_publisher h; hd_depth := hd_depth h; hd_nonblocking := hd_nonblocking
     h; hd_pc := pc; hd_result := hd_result h |}.
Definition hd_return (code : Z) (h : Handle) : Handle :=
  {| hd_type := hd_type h; hd_process := hd_process h; hd_name := hd_name h; hd_fd := hd_fd h; hd_mapped := hd_mapped
     h; hd_owns := hd_owns h; hd_publisher := hd_publisher h; hd_depth := hd_depth h; hd_nonblocking := hd_nonblocking
     h; hd_pc := Ready; hd_result := code |}.
Definition hd_call (name : list Z) (depth : Z) (nonblocking : bool) (pc : StoragePc) (h : Handle) : Handle :=
  {| hd_type := hd_type h; hd_process := hd_process h; hd_name := name; hd_fd := hd_fd h; hd_mapped := hd_mapped h;
     hd_owns := hd_owns h; hd_publisher := hd_publisher h; hd_depth := depth; hd_nonblocking := nonblocking; hd_pc :=
     pc; hd_result := hd_result h |}.
Definition hd_adopt (fd : nat) (h : Handle) : Handle :=
  {| hd_type := hd_type h; hd_process := hd_process h; hd_name := hd_name h; hd_fd := Some fd; hd_mapped := hd_mapped
     h; hd_owns := true; hd_publisher := hd_publisher h; hd_depth := hd_depth h; hd_nonblocking := hd_nonblocking h;
     hd_pc := Truncate fd; hd_result := hd_result h |}.
Definition hd_open (fd : nat) (h : Handle) : Handle :=
  {| hd_type := hd_type h; hd_process := hd_process h; hd_name := hd_name h; hd_fd := Some fd; hd_mapped := hd_mapped
     h; hd_owns := hd_owns h; hd_publisher := hd_publisher h; hd_depth := hd_depth h; hd_nonblocking := hd_nonblocking
     h; hd_pc := ReadHeader fd; hd_result := hd_result h |}.
Definition hd_map (pc : StoragePc) (h : Handle) : Handle :=
  {| hd_type := hd_type h; hd_process := hd_process h; hd_name := hd_name h; hd_fd := hd_fd h; hd_mapped := true;
     hd_owns := hd_owns h; hd_publisher := hd_publisher h; hd_depth := hd_depth h; hd_nonblocking := hd_nonblocking h;
     hd_pc := pc; hd_result := hd_result h |}.
Definition hd_publish (h : Handle) : Handle :=
  {| hd_type := hd_type h; hd_process := hd_process h; hd_name := hd_name h; hd_fd := hd_fd h; hd_mapped := hd_mapped
     h; hd_owns := hd_owns h; hd_publisher := sy_topic (hd_type h); hd_depth := hd_depth h; hd_nonblocking :=
     hd_nonblocking h; hd_pc := Ready; hd_result := 0 |}.
Definition hd_disown (h : Handle) : Handle :=
  {| hd_type := hd_type h; hd_process := hd_process h; hd_name := hd_name h; hd_fd := hd_fd h; hd_mapped := hd_mapped
     h; hd_owns := false; hd_publisher := hd_publisher h; hd_depth := hd_depth h; hd_nonblocking := hd_nonblocking h;
     hd_pc := hd_pc h; hd_result := hd_result h |}.
Definition hd_close (h : Handle) : Handle :=
  {| hd_type := hd_type h; hd_process := hd_process h; hd_name := hd_name h; hd_fd := None; hd_mapped := false;
     hd_owns := hd_owns h; hd_publisher := false; hd_depth := hd_depth h; hd_nonblocking := hd_nonblocking h; hd_pc :=
     hd_pc h; hd_result := hd_result h |}.
Definition fresh_handle (t : StorageType) (p : nat) : Handle :=
  {| hd_type := t; hd_process := p; hd_name := []; hd_fd := None; hd_mapped := false; hd_owns := false; hd_publisher := false; hd_depth := 1; hd_nonblocking := false; hd_pc := Ready; hd_result := 0 |}.

(** What a system call answers: it is done, fails, or ([pwrite]) writes only [n] bytes. *)
Inductive CallAnswer := Done | Failed (errno : Z) | Short (n : Z).
Definition answered {A} (a : CallAnswer) (done : option A) (fail : Z -> A) : option A :=
  match a with Done => done | Failed e => if 0 <? e then Some (fail e) else None | Short _ => None end.

(** ** [CreateOwnedShm] *)
Definition new_segment (c : nat) (h : Handle) (k : ShmKernel) : Segment :=
  {| sg_header := None; sg_depth := 0; sg_length := 0; sg_exclusive := None; sg_shared := []; sg_ready := false;
     sg_creator := Some {| cr_handle := c; cr_type := hd_type h; cr_pid := pid_of (hd_process h) k |} |}.
Definition first_header (h : Handle) (k : ShmKernel) : OwnerHeader :=
  {| oh_magic := sy_magic (hd_type h); oh_size := sy_size (hd_type h); oh_alignment := sy_alignment (hd_type h); oh_format := sy_format (hd_type h); oh_initialized := 0;
     oh_owner_pid := pid_of (hd_process h) k; oh_type_id := 0; oh_layout_id := 0 |}.
(** What to do with a segment that is in the way: [inl true] to reclaim it, [inl false] to leave it, [inr pid] to reclaim it if [pid] is dead. *)
Definition reclaim (t : StorageType) (old : option OwnerHeader) : bool + Z :=
  match old with
  | None => inl true
  | Some o =>
      if oh_initialized o =? 0 then (if oh_owner_pid o <=? 0 then inl true else inr (oh_owner_pid o))
      else if (oh_initialized o =? 1) && (oh_magic o =? sy_magic t) && (oh_format o =? sy_format t) && (0 <? oh_owner_pid o) then inr (oh_owner_pid o)
      else inl false
  end.
Definition create_owned_step (c : nat) (a : CallAnswer) (k : ShmKernel) (h : Handle) : option (ShmKernel * Handle) :=
  let go pc := (k, hd_at pc h) in
  match hd_pc h with
  | DirOpen => answered a (Some (go DirLock)) (fun e => (k, hd_return (- e) h))
  | DirLock =>
      answered a
        (match kn_directory k with
         | None => Some (kn_set_directory (Some c) k, hd_at (OpenNew false) h)
         | Some _ => if hd_nonblocking h then Some (k, hd_return (- EAGAIN) h) else None
         end)
        (fun e => (k, hd_return (- e) h))
  | OpenNew n =>
      match kn_names k !! hd_name h with
      | Some _ => Some (go (OpenOld n))
      | None => answered a (Some (kn_create (hd_name h) (new_segment c h k) k, hd_at (LockNew (kn_next k)) h)) (fun e => if e =? EEXIST then go (OpenOld n) else go (DirRelease (inl (- e))))
      end
  | LockNew fd =>
      answered a
        (if lockable fd k then Some (on_segment fd (sg_lock c) k, hd_at (WriteHeader fd) h) else if hd_nonblocking h then Some (go (UnlinkNew fd (- EAGAIN))) else None)
        (fun e => go (UnlinkNew fd (- e)))
  | WriteHeader fd =>
      match a with
      | Short n => if (0 <=? n) && (n <? HEADER_SIZE) then Some (on_segment fd (sg_resize n) k, hd_at (UnlinkNew fd (- EIO)) h) else None
      | _ => answered a (Some (on_segment fd (fun o => sg_resize HEADER_SIZE (sg_write (first_header h k) o)) k, hd_at (DirRelease (inr fd)) h)) (fun e => go (UnlinkNew fd (- e)))
      end
  | UnlinkNew fd code => answered a (Some (kn_set_names (delete (hd_name h) (kn_names k)) k, hd_at (CloseFail fd code) h)) (fun e => go (CloseFail fd code))
  | CloseFail fd code => Some (on_segment fd (sg_unlock c) k, hd_at (DirRelease (inl code)) h)
  | OpenOld n =>
      match kn_names k !! hd_name h with
      | None => Some (go (DirRelease (inl (- ENOENT))))
      | Some fd => answered a (Some (go (LockOld n fd))) (fun e => go (DirRelease (inl (- e))))
      end
  | LockOld n fd => answered a (Some (if lockable fd k then (on_segment fd (sg_lock c) k, hd_at (ReadOld n fd) h) else go (CloseFail fd (- EEXIST)))) (fun e => go (CloseFail fd (- EEXIST)))
  | ReadOld n fd =>
      answered a
        (Some (go (match reclaim (hd_type h) (header_of fd k) with
                   | inl true => UnlinkOld n fd
                   | inl false => CloseFail fd (- EEXIST)
                   | inr pid => ProbeOld n fd pid
                   end)))
        (fun e => go (CloseFail fd (- EEXIST)))
  | ProbeOld n fd pid => Some (go (if OwnerDead pid k then UnlinkOld n fd else CloseFail fd (- EEXIST)))
  | UnlinkOld n fd =>
      match kn_names k !! hd_name h with
      | None => Some (go (CloseFail fd (- ENOENT)))
      | Some _ => answered a (Some (kn_set_names (delete (hd_name h) (kn_names k)) k, hd_at (CloseOld n fd) h)) (fun e => go (CloseFail fd (- e)))
      end
  | CloseOld n fd => Some (on_segment fd (sg_unlock c) k, hd_at (if n then DirRelease (inl (- EEXIST)) else OpenNew true) h)
  | DirRelease r => Some (kn_set_directory None k, match r with inl code => hd_return code h | inr fd => hd_adopt fd h end)
  | _ => None
  end.

(** ** [Create] *)
(** Up to the first system call. *)
Definition CreateStorage (name : list Z) (depth : Z) (nonblocking : bool) (h : Handle) : Handle :=
  if bool_decide (is_Some (hd_fd h)) || hd_owns h then hd_return (- EBUSY) h
  else if sy_topic (hd_type h) && match sy_length (hd_type h) depth with Some n => 2 ^ 63 <=? n | None => true end then hd_return (- EINVAL) h
  else match SetName name with
  | Err code => hd_return code h
  | Ok name_ => hd_call name_ depth nonblocking DirOpen h
  end.
(** [new (storage_) Storage] and the size, alignment and depth, without the owner. *)
Definition constructed (t : StorageType) : OwnerHeader :=
  {| oh_magic := 0; oh_size := sy_size t; oh_alignment := sy_alignment t; oh_format := sy_format t; oh_initialized := 0; oh_owner_pid := 0; oh_type_id := 0; oh_layout_id := 0 |}.
Definition set_owner (t : StorageType) (pid : Z) (o : OwnerHeader) : OwnerHeader :=
  {| oh_magic := oh_magic o; oh_size := oh_size o; oh_alignment := oh_alignment o; oh_format := oh_format o; oh_initialized := oh_initialized o; oh_owner_pid := pid; oh_type_id := sy_type_id t; oh_layout_id := sy_layout_id t |}.
Definition set_magic (t : StorageType) (o : OwnerHeader) : OwnerHeader :=
  {| oh_magic := sy_magic t; oh_size := oh_size o; oh_alignment := oh_alignment o; oh_format := oh_format o; oh_initialized := oh_initialized o; oh_owner_pid := oh_owner_pid o; oh_type_id := oh_type_id o; oh_layout_id := oh_layout_id o |}.
Definition set_initialized (o : OwnerHeader) : OwnerHeader :=
  {| oh_magic := oh_magic o; oh_size := oh_size o; oh_alignment := oh_alignment o; oh_format := oh_format o; oh_initialized := 1; oh_owner_pid := oh_owner_pid o; oh_type_id := oh_type_id o; oh_layout_id := oh_layout_id o |}.
Definition on_header (f : OwnerHeader -> OwnerHeader) (o : Segment) : Segment := match sg_header o with Some x => sg_write (f x) o | None => o end.
(** [InitializeSync]: [InitializeNotify] of a Topic, [InitializeSync] of a Parameter with the copy of the initial value. *)
Definition create_step (c : nat) (a : CallAnswer) (k : ShmKernel) (h : Handle) : option (ShmKernel * Handle) :=
  let t := hd_type h in
  let go pc := (k, hd_at pc h) in
  match hd_pc h with
  | Truncate fd => answered a (Some (on_segment fd (sg_resize (default 0 (sy_length t (hd_depth h)))) k, hd_at (MapNew fd) h)) (fun e => go (FailUnlink (- e)))
  | MapNew fd => answered a (Some (k, hd_map (Construct fd) h)) (fun e => go (FailUnlink (- e)))
  | Construct fd => Some (on_segment fd (fun o => sg_set_depth (hd_depth h) (sg_write (constructed t) o)) k, hd_at (SetOwner fd) h)
  | SetOwner fd => Some (on_segment fd (on_header (set_owner t (pid_of (hd_process h) k))) k, hd_at (InitializeSync fd) h)
  | InitializeSync fd => answered a (Some (on_segment fd sg_initialize k, hd_at (SetMagic fd) h)) (fun e => go (FailUnlink (- e)))
  | SetMagic fd => Some (on_segment fd (on_header (set_magic t)) k, hd_at (SetInitialized fd) h)
  | SetInitialized fd => Some (on_segment fd (on_header set_initialized) k, hd_at (UnlockNew fd) h)
  | UnlockNew fd => answered a (Some (on_segment fd (sg_unlock c) k, hd_publish h)) (fun e => go (FailUnlink (- e)))
  | FailUnlink code =>
      if negb (hd_owns h) then Some (go (FailClose code)) else
      match kn_names k !! hd_name h with
      | None => Some (go (FailClose code))
      | Some _ => answered a (Some (kn_set_names (delete (hd_name h) (kn_names k)) k, hd_disown (hd_at (FailClose code) h))) (fun e => go (FailClose code))
      end
  | FailClose code => Some (from_option (fun fd => on_segment fd (sg_unlock c) k) k (hd_fd h), hd_return code (hd_close h))
  | _ => None
  end.

(** ** [Open] *)
Definition OpenStorage (name : list Z) (h : Handle) : Handle :=
  if bool_decide (is_Some (hd_fd h)) || hd_owns h then hd_return (- EBUSY) h
  else match SetName name with
  | Err code => hd_return code h
  | Ok name_ => hd_call name_ (hd_depth h) (hd_nonblocking h) ShmOpen h
  end.
Definition stale_header (t : StorageType) (o : OwnerHeader) : bool :=
  (oh_magic o =? sy_magic t) && (oh_format o =? sy_format t) && (oh_initialized o =? 1) && (oh_size o =? sy_size t) && (oh_alignment o =? sy_alignment t).
(** The checks of the mapped header; they read it while the shared lock is held. *)
Definition mapped_header (t : StorageType) (depth : Z) (o : Segment) (x : OwnerHeader) : Z :=
  if sy_topic t && negb (sg_depth o =? depth) then - EPROTO
  else if oh_owner_pid x <=? 0 then - EPROTO
  else if negb (oh_initialized x =? 1) then - EAGAIN
  else if negb (oh_magic x =? sy_magic t) || negb (oh_format x =? sy_format t) then - EPROTO
  else if negb (oh_size x =? sy_size t) || negb (oh_alignment x =? sy_alignment t) then (if sy_topic t then - EPROTO else - EMSGSIZE)
  else 0.
Definition open_step (c : nat) (a : CallAnswer) (k : ShmKernel) (h : Handle) : option (ShmKernel * Handle) :=
  let t := hd_type h in
  let go pc := (k, hd_at pc h) in
  match hd_pc h with
  | ShmOpen =>
      match kn_names k !! hd_name h with
      | None => Some (k, hd_return (- ENOENT) h)
      | Some fd => answered a (Some (k, hd_open fd h)) (fun e => (k, hd_return (- e) h))
      end
  | ReadHeader fd =>
      answered a
        (Some (go (match header_of fd k with
                   | None => FailClose (- EAGAIN)
                   | Some x => if oh_initialized x =? 0 then FailClose (- EAGAIN) else if stale_header t x then ProbeHeader fd (oh_owner_pid x) else LockShared fd
                   end)))
        (fun e => go (FailClose (- e)))
  | ProbeHeader fd pid => Some (go (if OwnerDead pid k then FailClose (- EAGAIN) else LockShared fd))
  | LockShared fd => answered a (if shareable fd k then Some (on_segment fd (sg_share c) k, hd_at (Stat fd) h) else None) (fun e => go (FailClose (- e)))
  | Stat fd =>
      let size := from_option sg_length 0 (kn_segments k !! fd) in
      answered a
        (Some (go (if size =? 0 then FailClose (- EAGAIN)
                   else if sy_topic t then ReadDepth fd size
                   else if bool_decide (sy_length t 1 = Some size) then MapOld fd 1 else FailClose (- EMSGSIZE))))
        (fun e => go (FailClose (- e)))
  | ReadDepth fd size =>
      let depth := from_option sg_depth 0 (kn_segments k !! fd) in
      answered a (Some (go (if bool_decide (sy_length t depth = Some size) then MapOld fd depth else FailClose (- EPROTO)))) (fun e => go (FailClose (- EPROTO)))
  | MapOld fd depth => answered a (Some (k, hd_map (CheckHeader fd depth) h)) (fun e => go (FailClose (- e)))
  | CheckHeader fd depth =>
      match kn_segments k !! fd with
      | None => None
      | Some o =>
          let code := match sg_header o with Some x => mapped_header t depth o x | None => - EPROTO end in
          Some (go (if code =? 0 then ProbeMapped fd else FailClose code))
      end
  | ProbeMapped fd => Some (go (if OwnerDead (from_option oh_owner_pid 0 (header_of fd k)) k then FailClose (- EAGAIN) else UnlockOld fd))
  | UnlockOld fd => answered a (Some (on_segment fd (sg_unlock c) k, hd_return 0 h)) (fun e => go (FailClose (- e)))
  | _ => None
  end.

(** ** [Close] and [Unlink]; [munmap], [close]: their errors. *)
Definition CloseStorage (c : nat) (munmap close : Z) (k : ShmKernel) (h : Handle) : ShmKernel * Handle :=
  let result := if hd_mapped h then - munmap else 0 in
  let result := if bool_decide (is_Some (hd_fd h)) && negb (close =? 0) && (result =? 0) then - close else result in
  (from_option (fun fd => on_segment fd (sg_unlock c) k) k (hd_fd h), hd_return result (hd_close h)).
Definition UnlinkStorage (a : CallAnswer) (k : ShmKernel) (h : Handle) : option (ShmKernel * Handle) :=
  if negb (hd_owns h) then Some (k, hd_return (- EPERM) h)
  else match kn_names k !! hd_name h with
  | None => Some (k, hd_return (- ENOENT) h)
  | Some _ => answered a (Some (kn_set_names (delete (hd_name h) (kn_names k)) k, hd_return 0 (hd_disown h))) (fun e => (k, hd_return (- e) h))
  end.

(** ** The system *)
Record ShmWorld := { wd_kernel : ShmKernel; wd_handles : gmap nat Handle }.
Inductive StorageEvent :=
| SeSpawn (p : nat) (pid : Z)
| SeExit (p : nat)
| SeReap (p : nat)
| SeHandle (c p : nat) (t : StorageType)
| SeCreate (c : nat) (name : list Z) (depth : Z) (nonblocking : bool)
| SeOpen (c : nat) (name : list Z)
| SeClose (c : nat) (munmap close : Z)
| SeUnlink (c : nat) (a : CallAnswer)
| SeStep (c : nat) (a : CallAnswer).
Definition handle_step (c : nat) (a : CallAnswer) (k : ShmKernel) (h : Handle) : option (ShmKernel * Handle) :=
  match create_owned_step c a k h with
  | Some r => Some r
  | None => match create_step c a k h with Some r => Some r | None => open_step c a k h end
  end.
Definition put (c : nat) (w : ShmWorld) (r : ShmKernel * Handle) : ShmWorld := {| wd_kernel := r.1; wd_handles := <[c := r.2]> (wd_handles w) |}.
(** The locks of the handles [cs] go. *)
Definition release_all (cs : list nat) (k : ShmKernel) : ShmKernel :=
  kn_set_directory (match kn_directory k with Some c => if bool_decide (c ∈ cs) then None else Some c | None => None end)
    (kn_set_segments ((fun o => foldr sg_unlock o cs) <$> kn_segments k) k).
Definition handles_of (p : nat) (hs : gmap nat Handle) : list nat := (map_to_list (filter (fun x => hd_process x.2 = p) hs)).*1.
Definition idle_handle (c : nat) (w : ShmWorld) : option Handle := match wd_handles w !! c with Some h => match hd_pc h with Ready => Some h | _ => None end | None => None end.
Definition storage_exec (e : StorageEvent) (w : ShmWorld) : option ShmWorld :=
  let k := wd_kernel w in
  match e with
  | SeSpawn p pid =>
      if (0 <? pid) && bool_decide (kn_processes k !! p = None) && OwnerDead pid k
      then Some {| wd_kernel := kn_set_processes (<[p := {| op_pid := pid; op_running := true |}]> (kn_processes k)) k; wd_handles := wd_handles w |} else None
  | SeExit p =>
      match kn_processes k !! p with
      | Some x => if op_running x then
            Some {| wd_kernel := release_all (handles_of p (wd_handles w)) (kn_set_processes (<[p := {| op_pid := op_pid x; op_running := false |}]> (kn_processes k)) k);
                    wd_handles := filter (fun y => hd_process y.2 <> p) (wd_handles w) |}
          else None
      | None => None
      end
  | SeReap p =>
      match kn_processes k !! p with
      | Some x => if op_running x then None else Some {| wd_kernel := kn_set_processes (delete p (kn_processes k)) k; wd_handles := wd_handles w |}
      | None => None
      end
  | SeHandle c p t =>
      match kn_processes k !! p, wd_handles w !! c with
      | Some x, None => if op_running x then Some (put c w (k, fresh_handle t p)) else None
      | _, _ => None
      end
  | SeCreate c name depth nonblocking => h ← idle_handle c w; Some (put c w (k, CreateStorage name depth nonblocking h))
  | SeOpen c name => h ← idle_handle c w; Some (put c w (k, OpenStorage name h))
  | SeClose c munmap close => h ← idle_handle c w; Some (put c w (CloseStorage c munmap close k h))
  | SeUnlink c a => h ← idle_handle c w; r ← UnlinkStorage a k h; Some (put c w r)
  | SeStep c a => h ← wd_handles w !! c; r ← handle_step c a k h; Some (put c w r)
  end.
Definition storage_run := machine_run storage_exec.
