(* ===== verification/StorageSafety.v ===== *)
(** * Ownership of shared-memory segments: theorems

    What every run of [StorageOwnership] satisfies.  The invariant has a part per handle
    ([handle_ok]: what holds at each program point of the segment it works on), a part per
    segment ([segment_ok]) and one between handles ([reclaims_ok]: who is about to reclaim a
    segment that somebody claims).  A step of one handle is a [frame] for the others. *)
From stdpp Require Import gmap.
From S2P Require Import Prelude StorageLayout StorageOwnership.

(** ** Program points *)
(** Cases by program point, and by the result that [CreateOwnedShm] returns *)
Ltac case_pc pc := destruct pc as [| | | | | | | | | | | | | |[]| | | | | | | | | | | | | | | | | | | |].
(** between the two calls of [flock] on the directory *)
Definition in_directory (pc : StoragePc) : bool :=
  match pc with
  | OpenNew _ | LockNew _ | WriteHeader _ | UnlinkNew _ _ | CloseFail _ _ | OpenOld _ | LockOld _ _ | ReadOld _ _ | ProbeOld _ _ _ | UnlinkOld _ _ | CloseOld _ _ | DirRelease _ => true
  | _ => false
  end.
Definition in_create_owned (pc : StoragePc) : bool := match pc with DirOpen | DirLock => true | _ => in_directory pc end.
(** the segment made under the name of the handle, not yet adopted *)
Definition making (pc : StoragePc) : option nat := match pc with LockNew fd | WriteHeader fd | UnlinkNew fd _ | DirRelease (inr fd) => Some fd | _ => None end.
(** the adopted segment while it is initialized *)
Definition initializing (pc : StoragePc) : option nat :=
  match pc with Truncate fd | MapNew fd | Construct fd | SetOwner fd | InitializeSync fd | SetMagic fd | SetInitialized fd | UnlockNew fd => Some fd | _ => None end.
(** the old segment under the name of the handle *)
Definition inspecting (pc : StoragePc) : option nat := match pc with LockOld _ fd | ReadOld _ fd | ProbeOld _ fd _ | UnlinkOld _ fd => Some fd | _ => None end.
(** the segment that is being opened *)
Definition attaching (pc : StoragePc) : option nat :=
  match pc with ReadHeader fd | ProbeHeader fd _ | LockShared fd | Stat fd | ReadDepth fd _ | MapOld fd _ | CheckHeader fd _ | ProbeMapped fd | UnlockOld fd => Some fd | _ => None end.
(** the segment that a program point says something about *)
Definition working_on (pc : StoragePc) : option nat :=
  match pc with
  | LockNew fd | WriteHeader fd | UnlinkNew fd _ | DirRelease (inr fd) | LockOld _ fd | ReadOld _ fd | ProbeOld _ fd _ | UnlinkOld _ fd | CloseOld _ fd
  | Truncate fd | MapNew fd | Construct fd | SetOwner fd | InitializeSync fd | SetMagic fd | SetInitialized fd | UnlockNew fd
  | ReadHeader fd | ProbeHeader fd _ | LockShared fd | Stat fd | ReadDepth fd _ | MapOld fd _ | CheckHeader fd _ | ProbeMapped fd | UnlockOld fd => Some fd
  | _ => None
  end.

(** ** What holds of segments *)
Definition made_by (c : nat) (t : StorageType) (pid : Z) (o : Segment) : Prop := sg_creator o = Some {| cr_handle := c; cr_type := t; cr_pid := pid |}.
Definition length_fits (t : StorageType) (depth : Z) (o : Segment) : Prop := sy_length t depth = Some (sg_length o).
(** A complete header of this type. *)
Record initialized (t : StorageType) (o : Segment) : Prop := {
  in_header : exists x, sg_header o = Some x /\ oh_initialized x = 1 /\ oh_magic x = sy_magic t /\ oh_format x = sy_format t /\ oh_size x = sy_size t /\ oh_alignment x = sy_alignment t /\ 0 < oh_owner_pid x;
  in_length : exists depth, length_fits t depth o /\ (sy_topic t = true -> sg_depth o = depth);
  in_ready : is_Some (sg_creator o) -> sg_ready o = true
}.
Definition header_uninitialized (o : Segment) : Prop := forall x, sg_header o = Some x -> oh_initialized x = 0.
Definition owner_is (pid : Z) (o : Segment) : Prop := exists x, sg_header o = Some x /\ oh_owner_pid x = pid.
Definition header_at (t : StorageType) (pid : Z) (pc : StoragePc) : option OwnerHeader :=
  let x := set_owner t pid (constructed t) in
  match pc with
  | SetOwner _ => Some (constructed t)
  | InitializeSync _ | SetMagic _ => Some x
  | SetInitialized _ => Some (set_magic t x)
  | UnlockNew _ => Some (set_initialized (set_magic t x))
  | _ => None
  end.
(** The segment [o] that handle [c] of type [t] works on at [pc]. *)
Definition point_ok (c : nat) (t : StorageType) (depth pid : Z) (pc : StoragePc) (o : Segment) : Prop :=
  match pc with
  | LockNew _ => made_by c t pid o /\ sg_header o = None
  | WriteHeader _ => made_by c t pid o /\ sg_header o = None /\ sg_exclusive o = Some c
  | UnlinkNew _ _ => made_by c t pid o
  | ReadOld _ _ | CloseOld _ _ => sg_exclusive o = Some c
  | ProbeOld _ _ _ | UnlinkOld _ _ => sg_exclusive o = Some c /\ reclaim t (sg_header o) <> inl false
  | DirRelease _ | Truncate _ => made_by c t pid o /\ sg_exclusive o = Some c /\ header_uninitialized o /\ owner_is pid o
  | MapNew _ | Construct _ => made_by c t pid o /\ sg_exclusive o = Some c /\ header_uninitialized o /\ owner_is pid o /\ length_fits t depth o
  | SetOwner _ | InitializeSync _ => made_by c t pid o /\ sg_exclusive o = Some c /\ sg_header o = header_at t pid pc /\ length_fits t depth o /\ sg_depth o = depth
  | SetMagic _ | SetInitialized _ | UnlockNew _ => made_by c t pid o /\ sg_exclusive o = Some c /\ sg_header o = header_at t pid pc /\ length_fits t depth o /\ sg_depth o = depth /\ sg_ready o = true
  | Stat _ => c ∈ sg_shared o
  | ReadDepth _ size => c ∈ sg_shared o /\ sg_length o = size
  | MapOld _ d | CheckHeader _ d => c ∈ sg_shared o /\ length_fits t d o
  | ProbeMapped _ | UnlockOld _ => c ∈ sg_shared o /\ initialized t o
  | _ => True
  end.
(** A segment that KCF made is short, or uninitialized with no owner or its creator, or complete. *)
Record segment_ok (o : Segment) : Prop := {
  sk_locks : is_Some (sg_exclusive o) -> sg_shared o = [];
  sk_header : forall cr, sg_creator o = Some cr -> 0 < cr_pid cr /\
    forall x, sg_header o = Some x -> (oh_initialized x = 0 /\ (oh_owner_pid x = 0 \/ oh_owner_pid x = cr_pid cr)) \/ (oh_owner_pid x = cr_pid cr /\ initialized (cr_type cr) o)
}.

(** ** What holds of handles *)
Record handle_ok (c : nat) (h : Handle) (k : ShmKernel) : Prop := {
  hk_process : exists x, kn_processes k !! hd_process h = Some x /\ op_running x = true /\ 0 < op_pid x;
  hk_directory : in_directory (hd_pc h) = true -> kn_directory k = Some c;
  hk_creating : in_create_owned (hd_pc h) = true -> hd_owns h = false /\ hd_fd h = None /\ hd_mapped h = false /\ is_Some (sy_length (hd_type h) (hd_depth h));
  hk_making : forall fd, making (hd_pc h) = Some fd -> kn_names k !! hd_name h = Some fd;
  hk_initializing : forall fd, initializing (hd_pc h) = Some fd -> hd_fd h = Some fd /\ hd_owns h = true /\ kn_names k !! hd_name h = Some fd /\ is_Some (sy_length (hd_type h) (hd_depth h));
  hk_inspecting : forall fd i, inspecting (hd_pc h) = Some fd -> kn_names k !! hd_name h = Some i -> i = fd;
  hk_point : forall fd, working_on (hd_pc h) = Some fd -> exists o, kn_segments k !! fd = Some o /\ point_ok c (hd_type h) (hd_depth h) (pid_of (hd_process h) k) (hd_pc h) o;
  hk_owns : hd_owns h = true -> exists i o, kn_names k !! hd_name h = Some i /\ kn_segments k !! i = Some o /\ made_by c (hd_type h) (pid_of (hd_process h) k) o /\
    (owner_is (pid_of (hd_process h) k) o \/ (hd_pc h = SetOwner i /\ sg_exclusive o = Some c));
  hk_attaching : forall fd, attaching (hd_pc h) = Some fd -> hd_fd h = Some fd;
  hk_opening : hd_pc h = ShmOpen -> hd_mapped h = false;
  hk_mapped : hd_mapped h = true -> hd_pc h = Ready -> exists fd o, hd_fd h = Some fd /\ kn_segments k !! fd = Some o /\ initialized (hd_type h) o
}.
(** The handle has made the segment and not given it up. *)
Definition claims (h : Handle) (k : ShmKernel) (i : nat) : Prop := making (hd_pc h) = Some i \/ (hd_owns h = true /\ kn_names k !! hd_name h = Some i).
Definition reclaims_ok (h : Handle) (w : ShmWorld) : Prop :=
  match hd_pc h with
  | ProbeOld _ fd pid => forall d e, wd_handles w !! d = Some e -> claims e (wd_kernel w) fd -> pid_of (hd_process e) (wd_kernel w) = pid
  | UnlinkOld _ fd => forall d e, wd_handles w !! d = Some e -> ~ claims e (wd_kernel w) fd
  | _ => True
  end.
Record kernel_ok (k : ShmKernel) : Prop := {
  kk_segments : forall i o, kn_segments k !! i = Some o -> (i < kn_next k)%nat /\ segment_ok o;
  kk_names : forall n i, kn_names k !! n = Some i -> is_Some (kn_segments k !! i);
  kk_pids : forall p x, kn_processes k !! p = Some x -> 0 < op_pid x
}.
Record world_ok (w : ShmWorld) : Prop := {
  wk_kernel : kernel_ok (wd_kernel w);
  wk_handles : forall c h, wd_handles w !! c = Some h -> handle_ok c h (wd_kernel w);
  wk_reclaims : forall c h, wd_handles w !! c = Some h -> reclaims_ok h w
}.

(** ** Frames: what the moves of the handles [P] leave to the others *)
Record evolves (P : nat -> Prop) (o o' : Segment) : Prop := {
  ev_creator : sg_creator o' = sg_creator o;
  ev_contents : (sg_header o' = sg_header o /\ sg_depth o' = sg_depth o /\ sg_length o' = sg_length o /\ sg_ready o' = sg_ready o) \/
    (header_uninitialized o /\ exists c cr, P c /\ sg_exclusive o = Some c /\ sg_creator o = Some cr /\ cr_handle cr = c);
  ev_exclusive : forall d, ~ P d -> sg_exclusive o = Some d -> sg_exclusive o' = Some d;
  ev_shared : forall d, ~ P d -> d ∈ sg_shared o -> d ∈ sg_shared o'
}.
Record frame (P : nat -> Prop) (w : ShmWorld) (k' : ShmKernel) : Prop := {
  fr_segments : forall i o, kn_segments (wd_kernel w) !! i = Some o -> exists o', kn_segments k' !! i = Some o' /\ evolves P o o';
  fr_names : forall d e i, ~ P d -> wd_handles w !! d = Some e -> claims e (wd_kernel w) i -> kn_names (wd_kernel w) !! hd_name e = Some i -> kn_names k' !! hd_name e = Some i;
  fr_new_names : forall n i, kn_names k' !! n = Some i -> kn_names (wd_kernel w) !! n = Some i \/ (kn_segments (wd_kernel w) !! i = None /\ exists c, P c /\ kn_directory (wd_kernel w) = Some c);
  fr_directory : forall d, ~ P d -> kn_directory (wd_kernel w) = Some d -> kn_directory k' = Some d;
  fr_processes : forall d e, ~ P d -> wd_handles w !! d = Some e -> kn_processes k' !! hd_process e = kn_processes (wd_kernel w) !! hd_process e
}.
Lemma evolves_refl P o : evolves P o o.
Proof. by constructor; auto. Qed.
Lemma evolves_initialized P t o o' : evolves P o o' -> initialized t o -> initialized t o'.
Proof.
  intros [E1 E2 _ _] [(x & H1 & H2) H3 H4]. destruct E2 as [(F1 & F2 & F3 & F4)|[F _]].
  - constructor; [by exists x; rewrite F1|unfold length_fits in *; by rewrite F2, F3|by rewrite E1, F4].
  - specialize (F x H1). lia.
Qed.
Lemma evolves_point P c t depth pid pc o o' : evolves P o o' -> ~ P c -> segment_ok o -> point_ok c t depth pid pc o -> point_ok c t depth pid pc o'.
Proof.
  intros E Hc [Hl _] H. pose proof (evolves_initialized P t o o' E) as Hi. destruct E as [E1 [(F1 & F2 & F3 & F4)|(F & d & cr & F1 & F2 & F3 & F4)] E3 E4].
  - destruct pc; cbn in *; unfold made_by, length_fits, header_uninitialized, owner_is in *; rewrite ?E1, ?F1, ?F2, ?F3, ?F4; intuition auto.
  - assert (Hm : made_by c t pid o -> False). { unfold made_by. rewrite F3. intros [= ->]. cbn in F4. by subst. }
    assert (Hx : sg_exclusive o = Some c -> False). { rewrite F2. by intros [= ->]. }
    assert (Hs : c ∈ sg_shared o -> False). { rewrite Hl by by rewrite F2. apply not_elem_of_nil. }
    destruct pc; cbn in *; intuition auto.
Qed.
Lemma evolves_owner P c t pid o o' : evolves P o o' -> ~ P c -> made_by c t pid o -> owner_is pid o -> owner_is pid o'.
Proof.
  intros [E1 [(F1 & _)|(F & d & cr & F1 & F2 & F3 & F4)] _ _] Hc Hm Ho; [unfold owner_is in *; by rewrite F1|].
  unfold made_by in Hm. rewrite F3 in Hm. injection Hm as ->. cbn in F4. by subst.
Qed.
Lemma frame_handle P w k' d e : world_ok w -> frame P w k' -> wd_handles w !! d = Some e -> ~ P d -> handle_ok d e k'.
Proof.
  intros W F He Hd. pose proof (wk_handles w W d e He) as [H1 H2 H3 H4 H5 H6 H7 H8 Ha Hb H9]. destruct F as [F1 F2 F3 F4 F5].
  assert (Hp : pid_of (hd_process e) k' = pid_of (hd_process e) (wd_kernel w)) by (unfold pid_of; by rewrite (F5 d e Hd He)).
  assert (Hs : forall i o, kn_segments (wd_kernel w) !! i = Some o -> exists o', kn_segments k' !! i = Some o' /\ evolves P o o' /\ segment_ok o).
  { intros i o Ho. destruct (F1 i o Ho) as (o' & ? & ?). exists o'. split; [done|]. split; [done|]. by eapply (kk_segments _ (wk_kernel w W)). }
  constructor; auto.
  - by rewrite (F5 d e Hd He).
  - intros fd Hm. apply (F2 d e fd Hd He); [by left|auto].
  - intros fd Hi. destruct (H5 fd Hi) as (K1 & K2 & K3 & K4). split_and!; auto. apply (F2 d e fd Hd He); [by right|done].
  - intros fd i Hi Hn. apply F3 in Hn as [Hn|(_ & c & Hc & Hk)]; [by eapply H6|].
    rewrite H2 in Hk; [injection Hk as ->; done|by destruct (hd_pc e)].
  - intros fd Hw. destruct (H7 fd Hw) as (o & Ho & Hpt). destruct (Hs fd o Ho) as (o' & ? & ? & ?). exists o'. split; [done|]. rewrite Hp. by eapply evolves_point.
  - intros Ho. destruct (H8 Ho) as (i & o & K1 & K2 & K3 & K4). destruct (Hs i o K2) as (o' & ? & E & ?). exists i, o'. rewrite Hp. split_and!; auto.
    + apply (F2 d e i Hd He); [by right|done].
    + unfold made_by. by rewrite (ev_creator _ _ _ E).
    + destruct K4 as [K4|[K4 K5]]; [left; by eapply evolves_owner|right; split; [done|by apply (ev_exclusive _ _ _ E)]].
  - intros Hm Hr. destruct (H9 Hm Hr) as (fd & o & K1 & K2 & K3). destruct (Hs fd o K2) as (o' & ? & E & ?). exists fd, o'. split_and!; auto. by eapply evolves_initialized.
Qed.
Lemma frame_claims P w k' e i : frame P w k' -> is_Some (kn_segments (wd_kernel w) !! i) -> claims e k' i -> claims e (wd_kernel w) i.
Proof. intros F [o Hi] [Hc|[Hc Hn]]; [by left|]. apply (fr_new_names P w k' F) in Hn as [Hn|[Hn _]]; [by right|congruence]. Qed.

(** ** The moves of one handle *)
Lemma evolves_lock c o : sg_exclusive o = None -> evolves (eq c) o (sg_lock c o).
Proof. intros H. constructor; cbn; auto. intros d _. by rewrite H. Qed.
Lemma evolves_share c o : evolves (eq c) o (sg_share c o).
Proof. constructor; cbn; auto. intros d _ Hd. by right. Qed.
Lemma evolves_unlock c o : evolves (eq c) o (sg_unlock c o).
Proof.
  constructor; cbn; auto; intros d Hd H.
  - rewrite H. rewrite bool_decide_eq_false_2; [done|]. by intros [= ->].
  - apply list_elem_of_filter. by split; [intros ->|].
Qed.
(** Contents change only before the header is complete, under the lock of the creator. *)
Lemma evolves_contents c t pid o o' : made_by c t pid o -> sg_exclusive o = Some c -> header_uninitialized o -> sg_creator o' = sg_creator o -> sg_exclusive o' = sg_exclusive o -> sg_shared o' = sg_shared o -> evolves (eq c) o o'.
Proof. intros Hm Hx Hh H1 H2 H3. constructor; [done| |by rewrite H2|by rewrite H3]. right. split; [done|]. exists c. eexists. split_and!; [done|done|exact Hm|done]. Qed.

Section Moves.
Context (c : nat) (w : ShmWorld).
Abbreviation k := (wd_kernel w).
Context (W : world_ok w).
Lemma frame_still : frame (eq c) w k.
Proof. constructor; auto. intros i o Ho. exists o. split; [done|apply evolves_refl]. Qed.
Lemma frame_take : kn_directory k = None -> frame (eq c) w (kn_set_directory (Some c) k).
Proof. intros H. destruct frame_still. constructor; auto. intros d _. by rewrite H. Qed.
Lemma frame_release : kn_directory k = Some c -> frame (eq c) w (kn_set_directory None k).
Proof. intros H. destruct frame_still. constructor; auto. intros d Hd. by rewrite H; intros [= ->]. Qed.
Lemma frame_create name o : kn_names k !! name = None -> kn_directory k = Some c -> frame (eq c) w (kn_create name o k).
Proof.
  intros Hn Hk. destruct frame_still. constructor; cbn; auto.
  - intros i x Hx. exists x. split; [|apply evolves_refl]. rewrite lookup_insert_ne; [done|]. apply (kk_segments _ (wk_kernel w W)) in Hx as [Hx _]. lia.
  - intros d e i Hd He Hc Hi. rewrite lookup_insert_ne; [done|]. congruence.
  - intros n i. destruct (decide (name = n)) as [<-|]; [rewrite lookup_insert_eq|rewrite lookup_insert_ne by done; by left].
    intros [= <-]. right. split; [|by exists c]. destruct (kn_segments k !! kn_next k) eqn:E; [|done]. apply (kk_segments _ (wk_kernel w W)) in E as [E _]. lia.
Qed.
Lemma frame_delete name : (forall d e i, c <> d -> wd_handles w !! d = Some e -> hd_name e = name -> kn_names k !! name = Some i -> ~ claims e k i) -> frame (eq c) w (kn_set_names (delete name (kn_names k)) k).
Proof.
  intros H. destruct frame_still. constructor; cbn; auto.
  - intros d e i Hd He Hc Hi. rewrite lookup_delete_ne; [done|]. intros Hx. rewrite Hx in *. by eapply H.
  - intros n i Hi. apply lookup_delete_Some in Hi as [_ Hi]. by left.
Qed.
Lemma frame_segment i f : (forall o, kn_segments k !! i = Some o -> evolves (eq c) o (f o)) -> frame (eq c) w (on_segment i f k).
Proof.
  intros H. destruct frame_still. constructor; cbn; auto. intros j o Ho. destruct (decide (i = j)) as [<-|].
  - exists (f o). rewrite lookup_alter_eq, Ho. auto.
  - exists o. rewrite lookup_alter_ne by done. split; [done|apply evolves_refl].
Qed.
Lemma kernel_create name o : segment_ok o -> kernel_ok (kn_create name o k).
Proof.
  intros Ho. destruct (wk_kernel w W) as [H1 H2 H3]. constructor; cbn.
  - intros i x. destruct (decide (kn_next k = i)) as [<-|]; [rewrite lookup_insert_eq; intros [= <-]; split; [lia|done]|].
    rewrite lookup_insert_ne by done. intros Hx. apply H1 in Hx as [? ?]. split; [lia|done].
  - intros n i. destruct (decide (name = n)) as [<-|]; [rewrite lookup_insert_eq; intros [= <-]; rewrite lookup_insert_eq; eauto|].
    rewrite lookup_insert_ne by done. intros [x Hx]%H2. rewrite lookup_insert_ne; [eauto|]. apply H1 in Hx as [? _]. lia.
  - done.
Qed.
Lemma kernel_delete name : kernel_ok (kn_set_names (delete name (kn_names k)) k).
Proof. destruct (wk_kernel w W) as [H1 H2 H3]. constructor; cbn; [done| |done]. intros n i [_ Hi]%lookup_delete_Some. by eapply H2. Qed.
Lemma kernel_directory d : kernel_ok (kn_set_directory d k).
Proof. destruct (wk_kernel w W) as [H1 H2 H3]. by constructor. Qed.
Lemma kernel_segment i f : (forall o, kn_segments k !! i = Some o -> segment_ok o -> segment_ok (f o)) -> kernel_ok (on_segment i f k).
Proof.
  intros H. destruct (wk_kernel w W) as [H1 H2 H3]. constructor; cbn.
  - intros j o. destruct (decide (i = j)) as [<-|]; [rewrite lookup_alter_eq|rewrite lookup_alter_ne by done; auto].
    intros Ho. destruct (kn_segments k !! i) as [x|] eqn:E; [|done]. cbn in Ho. injection Ho as <-. destruct (H1 _ _ E). auto.
  - intros n j Hn. apply H2 in Hn. destruct (decide (i = j)) as [<-|]; [rewrite lookup_alter_eq; by apply fmap_is_Some|by rewrite lookup_alter_ne].
  - done.
Qed.
Lemma world_put k' h h' :
  wd_handles w !! c = Some h -> frame (eq c) w k' -> kernel_ok k' -> kn_processes k' = kn_processes k -> hd_process h' = hd_process h -> handle_ok c h' k' ->
  (forall i, is_Some (kn_segments k !! i) -> claims h' k' i -> claims h k i) -> reclaims_ok h' (put c w (k', h')) -> world_ok (put c w (k', h')).
Proof.
  intros Hh F K Hps Hp Hok Hcl Hr. constructor; cbn; [done|..]; intros d e.
  all: destruct (decide (c = d)) as [<-|Hd]; [rewrite lookup_insert_eq; by intros [= <-]|rewrite lookup_insert_ne by done; intros He].
  - by eapply frame_handle.
  - assert (Hx : forall fd x y, kn_segments k !! fd = Some x -> wd_handles (put c w (k', h')) !! y.1 = Some y.2 -> claims y.2 k' fd ->
      exists z, wd_handles w !! y.1 = Some z /\ claims z k fd /\ pid_of (hd_process y.2) k' = pid_of (hd_process z) k).
    { intros fd x [y1 y2] Hx Hy Hc. cbn in *. unfold pid_of. rewrite Hps. destruct (decide (c = y1)) as [<-|].
      - rewrite lookup_insert_eq in Hy. injection Hy as <-. exists h. rewrite Hp. eauto.
      - rewrite lookup_insert_ne in Hy by done. exists y2. split; [done|]. split; [|done]. by eapply frame_claims; eauto. }
    pose proof (wk_reclaims w W d e He) as R. pose proof (hk_point _ _ _ (wk_handles w W d e He)) as Hpt. unfold reclaims_ok in *. destruct (hd_pc e); try done; cbn in Hpt, R |- *.
    + intros y1 y2 Hy Hc. destruct (Hpt _ eq_refl) as (o & Ho & _). destruct (Hx _ _ (y1, y2) Ho Hy Hc) as (z & ? & ? & Hz). cbn in Hz. rewrite Hz. eauto.
    + intros y1 y2 Hy Hc. destruct (Hpt _ eq_refl) as (o & Ho & _). destruct (Hx _ _ (y1, y2) Ho Hy Hc) as (z & ? & ? & _). by eapply R.
Qed.
End Moves.

(** ** Every step preserves the invariant *)
Lemma header_initialized_at t pid o : 0 < pid -> sg_header o = Some (set_initialized (set_magic t (set_owner t pid (constructed t)))) -> length_fits t (sg_depth o) o -> sg_ready o = true -> initialized t o.
Proof. intros Hp H1 H2 H3. constructor; [eexists; split; [exact H1|done]|by exists (sg_depth o)|done]. Qed.
Lemma pid_positive c h k : handle_ok c h k -> 0 < pid_of (hd_process h) k.
Proof. intros H. destruct (hk_process _ _ _ H) as (x & E & _ & Hp). unfold pid_of. by rewrite E. Qed.
Lemma owner_alive c h k : handle_ok c h k -> OwnerDead (pid_of (hd_process h) k) k = false.
Proof.
  intros H. destruct (hk_process _ _ _ H) as (x & E & _ & Hp). unfold OwnerDead, pid_of. rewrite E. cbn [fmap option_fmap option_map default]. apply andb_false_iff. right.
  apply not_true_is_false. intros Hf. rewrite forallb_forall in Hf. specialize (Hf (hd_process h, x)). rewrite <- list_elem_of_In, elem_of_map_to_list in Hf. specialize (Hf E). cbn in Hf. rewrite Z.eqb_refl in Hf. done.
Qed.
(** Two handles do not claim one segment. *)
Lemma claims_made_by w c h i : world_ok w -> wd_handles w !! c = Some h -> claims h (wd_kernel w) i -> exists o t pid, kn_segments (wd_kernel w) !! i = Some o /\ made_by c t pid o.
Proof.
  intros W Hh. pose proof (wk_handles w W c h Hh) as H. intros [Hm|[Ho Hn]].
  - destruct (hk_point _ _ _ H i) as (o & ? & Hp); [by case_pc (hd_pc h)|]. exists o. eexists _, _. split; [done|].
    case_pc (hd_pc h); try done; apply Hp.
  - destruct (hk_owns _ _ _ H Ho) as (j & o & K1 & K2 & K3 & _). rewrite Hn in K1. injection K1 as <-. eauto.
Qed.
Lemma claims_unique w c h d e i : world_ok w -> wd_handles w !! c = Some h -> wd_handles w !! d = Some e -> claims h (wd_kernel w) i -> claims e (wd_kernel w) i -> c = d.
Proof.
  intros W Hh He H1 H2. destruct (claims_made_by w c h i W Hh H1) as (o & t & pid & K1 & K2). destruct (claims_made_by w d e i W He H2) as (o' & t' & pid' & K1' & K2').
  unfold made_by in *. congruence.
Qed.
Definition owns_ok (c : nat) (h : Handle) (k : ShmKernel) : Prop :=
  hd_owns h = true -> exists i o, kn_names k !! hd_name h = Some i /\ kn_segments k !! i = Some o /\ made_by c (hd_type h) (pid_of (hd_process h) k) o /\
    (owner_is (pid_of (hd_process h) k) o \/ (hd_pc h = SetOwner i /\ sg_exclusive o = Some c)).
Section Steps.
Context (c : nat) (w : ShmWorld) (h : Handle).
Abbreviation k := (wd_kernel w).
Abbreviation point_at pc k' fd := (exists o, kn_segments k' !! fd = Some o /\ point_ok c (hd_type h) (hd_depth h) (pid_of (hd_process h) k) pc o).
Abbreviation ready_at pc k' := (pc = Ready -> hd_mapped h = true -> exists fd o, hd_fd h = Some fd /\ kn_segments k' !! fd = Some o /\ initialized (hd_type h) o).
Context (W : world_ok w) (Hh : wd_handles w !! c = Some h).
Lemma handle_c : handle_ok c h k.
Proof. by apply wk_handles. Qed.
(** The handle goes on to [pc], the names stay. *)
Lemma move_ok k' pc :
  frame (eq c) w k' -> kernel_ok k' -> kn_processes k' = kn_processes k -> kn_names k' = kn_names k ->
  (in_directory pc = true -> kn_directory k' = Some c) -> (in_create_owned pc = true -> in_create_owned (hd_pc h) = true) ->
  (forall fd, making pc = Some fd -> making (hd_pc h) = Some fd) -> (forall fd, initializing pc = Some fd -> initializing (hd_pc h) = Some fd) -> (forall fd, attaching pc = Some fd -> attaching (hd_pc h) = Some fd) -> pc <> ShmOpen ->
  (forall fd i, inspecting pc = Some fd -> kn_names k !! hd_name h = Some i -> i = fd) ->
  (forall fd, working_on pc = Some fd -> point_at pc k' fd) ->
  owns_ok c (hd_at pc h) k' -> ready_at pc k' -> reclaims_ok (hd_at pc h) w -> world_ok (put c w (k', hd_at pc h)).
Proof.
  intros F K Hp Hn H1 H2 H3 H4 H4' Hso H5 H6 H7 H8 H9. pose proof handle_c as Hk. destruct Hk as [K1 K2 K3 K4 K5 K6 K7 K8 Ka Kb K9].
  assert (Hpid : forall p, pid_of p k' = pid_of p k) by (intros p; unfold pid_of; by rewrite Hp).
  assert (Hcl : forall i, claims (hd_at pc h) k' i -> claims h k i).
  { intros i [Hc|Hc]; [left; cbn in Hc; auto|right]. cbn in Hc. by rewrite Hn in Hc. }
  eapply world_put; eauto.
  - constructor; cbn; auto.
    + by rewrite Hp.
    + intros fd Hm. rewrite Hn. auto.
    + intros fd Hi. rewrite Hn. auto.
    + intros fd i. rewrite Hn. auto.
    + intros fd Hw. rewrite Hpid. auto.
    + by intros ?.
  - unfold reclaims_ok in *. cbn in *. destruct pc; try done; intros d e; (destruct (decide (c = d)) as [<-|]; [rewrite lookup_insert_eq; intros [= <-] Hc|rewrite lookup_insert_ne by done; intros He Hc]); cbn.
    + rewrite Hpid. eapply (H9 c h); auto.
    + rewrite Hpid. eapply (H9 d e); auto. destruct Hc as [Hc|Hc]; [by left|right; by rewrite Hn in Hc].
    + eapply (H9 c h); eauto.
    + eapply (H9 d e); eauto. destruct Hc as [Hc|Hc]; [by left|right; by rewrite Hn in Hc].
Qed.
Lemma owns_keep k' pc :
  kn_processes k' = kn_processes k -> kn_names k' = kn_names k -> (forall i, hd_pc h <> SetOwner i) ->
  (forall i o, kn_segments k !! i = Some o -> exists o', kn_segments k' !! i = Some o' /\ sg_header o' = sg_header o /\ sg_creator o' = sg_creator o) -> owns_ok c (hd_at pc h) k'.
Proof.
  intros Hp Hn Hs Hk Ho. cbn in *. destruct (hk_owns _ _ _ handle_c Ho) as (i & o & K1 & K2 & K3 & [K4|[K4 _]]); [|by apply Hs in K4]. destruct (Hk i o K2) as (o' & E1 & E2 & E3).
  exists i, o'. rewrite Hn. unfold pid_of, made_by, owner_is in *. rewrite Hp, E2, E3. auto.
Qed.
Lemma goto_ok pc :
  (in_directory pc = true -> kn_directory k = Some c) -> (in_create_owned pc = true -> in_create_owned (hd_pc h) = true) ->
  (forall fd, making pc = Some fd -> making (hd_pc h) = Some fd) -> (forall fd, initializing pc = Some fd -> initializing (hd_pc h) = Some fd) -> (forall fd, attaching pc = Some fd -> attaching (hd_pc h) = Some fd) -> pc <> ShmOpen ->
  (forall fd i, inspecting pc = Some fd -> kn_names k !! hd_name h = Some i -> i = fd) ->
  (forall fd, working_on pc = Some fd -> point_at pc k fd) ->
  (forall i, hd_pc h <> SetOwner i) -> ready_at pc k -> reclaims_ok (hd_at pc h) w -> world_ok (put c w (k, hd_at pc h)).
Proof. intros. apply move_ok; auto; [by apply frame_still|by apply wk_kernel|]. apply owns_keep; auto. eauto. Qed.
(** The same with a change of the locks of [fd] *)
Lemma locks_ok fd f pc :
  (forall o, kn_segments k !! fd = Some o -> evolves (eq c) o (f o) /\ sg_header (f o) = sg_header o /\ sg_depth (f o) = sg_depth o /\ sg_length (f o) = sg_length o /\ sg_ready (f o) = sg_ready o /\
     (is_Some (sg_exclusive (f o)) -> sg_shared (f o) = [])) ->
  (in_directory pc = true -> kn_directory k = Some c) -> (in_create_owned pc = true -> in_create_owned (hd_pc h) = true) ->
  (forall fd, making pc = Some fd -> making (hd_pc h) = Some fd) -> (forall fd, initializing pc = Some fd -> initializing (hd_pc h) = Some fd) -> (forall fd, attaching pc = Some fd -> attaching (hd_pc h) = Some fd) -> pc <> ShmOpen ->
  (forall fd i, inspecting pc = Some fd -> kn_names k !! hd_name h = Some i -> i = fd) ->
  (working_on pc = None \/ (working_on pc = Some fd /\ exists o, kn_segments k !! fd = Some o /\ point_ok c (hd_type h) (hd_depth h) (pid_of (hd_process h) k) pc (f o))) ->
  (forall i, hd_pc h <> SetOwner i) -> ready_at pc k -> reclaims_ok (hd_at pc h) w -> world_ok (put c w (on_segment fd f k, hd_at pc h)).
Proof.
  intros Hf H1 H2 H3 H4 H4' Hso H5 H6 H7 H8 H9. apply move_ok; auto.
  - apply frame_segment. intros o Ho. by apply Hf.
  - apply kernel_segment; [done|]. intros o Ho [S1 S2]. destruct (Hf o Ho) as (E & F1 & F2 & F3 & F4 & F5). constructor; [done|]. intros cr. rewrite (ev_creator _ _ _ E), F1. intros Hcr. destruct (S2 cr Hcr) as [T1 T2].
    split; [done|]. intros x Hx. destruct (T2 x Hx) as [T|[T1' T]]; [by left|right; split; [done|]]. by eapply evolves_initialized.
  - intros fd' Hw. destruct H6 as [H6|[H6 (o & Ho & Hp)]]; [congruence|]. rewrite Hw in H6. injection H6 as ->. exists (f o). cbn. by rewrite lookup_alter_eq, Ho.
  - apply owns_keep; auto. intros i o Ho. cbn. destruct (decide (fd = i)) as [<-|]; [rewrite lookup_alter_eq, Ho|rewrite lookup_alter_ne by done; eauto].
    exists (f o). split; [done|]. destruct (Hf o Ho) as (E & F1 & _). split; [done|by apply ev_creator in E].
  - intros Hr Hm. destruct (H8 Hr Hm) as (i & o & E1 & E2 & E3). cbn. destruct (decide (fd = i)) as [<-|]; [exists fd, (f o); rewrite lookup_alter_eq, E2|exists i, o; by rewrite lookup_alter_ne].
    split_and!; try done. destruct (Hf o E2) as [E _]. by eapply evolves_initialized.
Qed.
(** The handle itself may change without a change of its claims. *)
Lemma replace_ok k' h1 h2 :
  world_ok (put c w (k', h1)) -> making (hd_pc h2) = making (hd_pc h1) -> hd_owns h2 = hd_owns h1 -> hd_name h2 = hd_name h1 -> hd_process h2 = hd_process h1 ->
  handle_ok c h2 k' -> reclaims_ok h2 (put c w (k', h2)) -> world_ok (put c w (k', h2)).
Proof.
  intros [K1 K2 K3] E1 E2 E3 E4 Hok Hr. constructor; [done|..]; intros d e; cbn; (destruct (decide (c = d)) as [<-|Hd]; [rewrite lookup_insert_eq; by intros [= <-]|rewrite lookup_insert_ne by done; intros He]).
  - apply (K2 d e). cbn. by rewrite lookup_insert_ne.
  - assert (Hx : reclaims_ok e (put c w (k', h1))) by (apply (K3 d e); cbn; by rewrite lookup_insert_ne).
    assert (Hc : forall i, claims h2 k' i -> claims h1 k' i) by (intros i; unfold claims; by rewrite E1, E2, E3).
    unfold reclaims_ok in *. destruct (hd_pc e); try done; cbn in Hx |- *; intros y x; (destruct (decide (c = y)) as [<-|]; [rewrite lookup_insert_eq; intros [= <-]|rewrite lookup_insert_ne by done; intros Hy]); intros Hy';
      rewrite ?E4; first [apply (Hx c h1); [by rewrite lookup_insert_eq|by apply Hc]|apply (Hx y x); [by rewrite lookup_insert_ne|done]].
Qed.
Lemma put_handle k' h1 : world_ok (put c w (k', h1)) -> handle_ok c h1 k'.
Proof. intros H. apply (wk_handles _ H c h1). cbn. by rewrite lookup_insert_eq. Qed.
(** The result of a call is only for its caller. *)
Lemma code_ok k' code h1 : world_ok (put c w (k', hd_at Ready h1)) -> world_ok (put c w (k', hd_return code h1)).
Proof. intros H. apply (replace_ok k' (hd_at Ready h1)); try done. apply put_handle in H as [L1 L2 L3 L4 L5 L6 L7 L8 La Lb L9]. by constructor. Qed.
Lemma lock_facts fd o : kn_segments k !! fd = Some o -> lockable fd k = true -> sg_exclusive o = None /\ sg_shared o = [].
Proof. unfold lockable. intros ->. intros [H1 H2]%andb_prop. by apply bool_decide_eq_true in H1, H2. Qed.
Lemma lock_change fd o : kn_segments k !! fd = Some o -> lockable fd k = true ->
  evolves (eq c) o (sg_lock c o) /\ sg_header (sg_lock c o) = sg_header o /\ sg_depth (sg_lock c o) = sg_depth o /\ sg_length (sg_lock c o) = sg_length o /\ sg_ready (sg_lock c o) = sg_ready o /\
  (is_Some (sg_exclusive (sg_lock c o)) -> sg_shared (sg_lock c o) = []).
Proof. intros Ho Hl. destruct (lock_facts fd o Ho Hl). split; [by apply evolves_lock|done]. Qed.
Lemma unlock_change fd o : kn_segments k !! fd = Some o ->
  evolves (eq c) o (sg_unlock c o) /\ sg_header (sg_unlock c o) = sg_header o /\ sg_depth (sg_unlock c o) = sg_depth o /\ sg_length (sg_unlock c o) = sg_length o /\ sg_ready (sg_unlock c o) = sg_ready o /\
  (is_Some (sg_exclusive (sg_unlock c o)) -> sg_shared (sg_unlock c o) = []).
Proof.
  intros Ho. split; [by apply evolves_unlock|]. split_and!; [done..|]. cbn. intros Hx. rewrite (sk_locks o); [done|by apply (kk_segments _ (wk_kernel w W) _ _ Ho)|]. by case_bool_decide; [destruct Hx|].
Qed.
Lemma answered_inv {A} a (done : option A) fail r : answered a done fail = Some r -> (a = Done /\ done = Some r) \/ exists e, 0 < e /\ r = fail e.
Proof. unfold answered. destruct a as [|e|]; intros H; [by left|right|done]. case_check; [|done]. bool_to_prop. exists e. split; [done|]. by injection H. Qed.
(** The creator [c] changes the contents of its own segment *)
Lemma contents_ok fd f pc :
  (exists o, kn_segments k !! fd = Some o /\ made_by c (hd_type h) (pid_of (hd_process h) k) o /\ sg_exclusive o = Some c /\ header_uninitialized o /\
     sg_creator (f o) = sg_creator o /\ sg_exclusive (f o) = sg_exclusive o /\ sg_shared (f o) = sg_shared o /\
     (forall x, sg_header (f o) = Some x -> (oh_initialized x = 0 /\ (oh_owner_pid x = 0 \/ oh_owner_pid x = pid_of (hd_process h) k)) \/ (oh_owner_pid x = pid_of (hd_process h) k /\ initialized (hd_type h) (f o))) /\
     point_ok c (hd_type h) (hd_depth h) (pid_of (hd_process h) k) pc (f o) /\ (hd_owns h = true -> owner_is (pid_of (hd_process h) k) (f o) \/ pc = SetOwner fd)) ->
  hd_owns h = false \/ kn_names k !! hd_name h = Some fd ->
  (in_directory pc = true -> kn_directory k = Some c) -> (in_create_owned pc = true -> in_create_owned (hd_pc h) = true) ->
  (forall fd, making pc = Some fd -> making (hd_pc h) = Some fd) -> (forall fd, initializing pc = Some fd -> initializing (hd_pc h) = Some fd) ->
  inspecting pc = None -> attaching pc = None -> pc <> ShmOpen -> working_on pc = Some fd -> pc <> Ready -> world_ok (put c w (on_segment fd f k, hd_at pc h)).
Proof.
  intros (o & Ho & Hm & Hx & Hu & F1 & F2 & F3 & Fh & Fp & Fo) Hn H1 H2 H3 H4 H5 H5' Hso H6 H7.
  assert (Hs : kn_segments (on_segment fd f k) !! fd = Some (f o)) by (cbn; by rewrite lookup_alter_eq, Ho).
  apply move_ok; auto.
  - apply frame_segment. intros o' Ho'. rewrite Ho in Ho'. injection Ho' as <-. by eapply evolves_contents.
  - apply kernel_segment; [done|]. intros o' Ho' [S1 S2]. rewrite Ho in Ho'. injection Ho' as <-. constructor; [by rewrite F2, F3|]. rewrite F1. intros cr Hcr. split; [by apply S2|].
    unfold made_by in Hm. rewrite Hm in Hcr. injection Hcr as <-. exact Fh.
  - intros fd'. by rewrite H5'.
  - intros fd' i. by rewrite H5.
  - intros fd'. rewrite H6. intros [= <-]. eauto.
  - intros Ow. cbn in Ow. destruct Hn as [Hn|Hn]; [congruence|]. exists fd, (f o). cbn [hd_name hd_type hd_process hd_pc hd_at]. change (pid_of (hd_process h) (on_segment fd f k)) with (pid_of (hd_process h) k).
    split; [done|]. split; [done|]. unfold made_by in *. rewrite F1, F2. split; [done|]. destruct (Fo Ow); auto.
  - done.
  - unfold reclaims_ok. cbn. by destruct pc.
Qed.
(** The name of the handle is removed *)
Lemma delete_ok pc :
  (forall d e i, c <> d -> wd_handles w !! d = Some e -> hd_name e = hd_name h -> kn_names k !! hd_name h = Some i -> ~ claims e k i) ->
  (in_directory pc = true -> kn_directory k = Some c) -> (in_create_owned pc = true -> in_create_owned (hd_pc h) = true) -> making pc = None -> initializing pc = None -> inspecting pc = None -> attaching pc = None -> pc <> ShmOpen ->
  (forall fd, working_on pc = Some fd -> point_at pc k fd) -> (pc = Ready -> hd_pc h = Ready) -> world_ok (put c w (kn_set_names (delete (hd_name h) (kn_names k)) k, hd_disown (hd_at pc h))).
Proof.
  intros Hd H1 H2 H3 H4 H5 H5' Hso H6 H7. pose proof handle_c as [K1 K2 K3 K4 K5 K6 K7 K8 Ka Kb K9]. eapply world_put; eauto.
  - by apply frame_delete.
  - by apply kernel_delete.
  - constructor; cbn; auto; try done.
    + intros Hx. destruct (K3 (H2 Hx)) as (? & ? & ? & ?). auto.
    + rewrite H3. done.
    + rewrite H4. done.
    + rewrite H5. done.
    + rewrite H5'. done.
  - intros i _ [Hc|[Hc _]]; cbn in Hc; [|done]. by rewrite H3 in Hc.
  - unfold reclaims_ok. cbn. by destruct pc.
Qed.
Lemma disown_same h1 : hd_owns h1 = false -> hd_disown h1 = h1.
Proof. destruct h1. cbn. by intros ->. Qed.
(** A new segment under a free name *)
Lemma make_ok : in_create_owned (hd_pc h) = true -> kn_directory k = Some c -> kn_names k !! hd_name h = None -> world_ok (put c w (kn_create (hd_name h) (new_segment c h k) k, hd_at (LockNew (kn_next k)) h)).
Proof.
  intros Hc Hd Hn. pose proof handle_c as Hk. pose proof (pid_positive _ _ _ Hk) as Hp. destruct (hk_creating _ _ _ Hk Hc) as (Ko & Kf & Km & Kl). eapply world_put; eauto.
  - by apply frame_create.
  - apply kernel_create; [done|]. constructor; cbn; [by intros []|]. intros cr [= <-]. by split.
  - constructor; cbn; auto; try done.
    + apply Hk.
    + intros fd [= <-]. by rewrite lookup_insert_eq.
    + intros fd [= <-]. rewrite lookup_insert_eq. by eexists.
    + by rewrite Ko.
  - intros i [o Ho] [Hx|[Hx _]]; cbn in Hx; [|congruence]. injection Hx as <-. apply (kk_segments _ (wk_kernel w W)) in Ho as [Ho _]. lia.
  - done.
Qed.
(** A handle that inspects a segment under its lock and that of the directory judges those who claim it by their process. *)
Lemma reclaim_sound fd d e o : hd_owns h = false -> making (hd_pc h) = None -> kn_directory k = Some c -> kn_segments k !! fd = Some o -> sg_exclusive o = Some c -> wd_handles w !! d = Some e -> claims e k fd ->
  reclaim (hd_type h) (header_of fd k) = inl false \/ reclaim (hd_type h) (header_of fd k) = inr (pid_of (hd_process e) k).
Proof.
  intros Ko Km Kd Ho Hx He Hc. destruct (decide (c = d)) as [<-|Hne]. { rewrite Hh in He. injection He as <-. destruct Hc as [Hc|[Hc _]]; congruence. }
  pose proof (wk_handles w W d e He) as Hk. destruct Hc as [Hm|[Hw Hn]].
  - assert (Hi : in_directory (hd_pc e) = true) by by destruct (hd_pc e). apply (hk_directory _ _ _ Hk) in Hi. congruence.
  - destruct (hk_owns _ _ _ Hk Hw) as (i & o' & K1 & K2 & K3 & K4). rewrite Hn in K1. injection K1 as <-. rewrite Ho in K2. injection K2 as <-.
    destruct K4 as [(x & E1 & E2)|[_ K4]]; [|congruence]. unfold header_of. rewrite Ho. cbn. rewrite E1. cbn. rewrite E2. pose proof (pid_positive _ _ _ Hk).
    destruct (Z.leb_spec (pid_of (hd_process e) k) 0); [lia|]. repeat case_check; auto.
Qed.
(** The segment becomes the storage of the handle. *)
Lemma adopt_ok fd : hd_pc h = DirRelease (inr fd) -> world_ok (put c w (kn_set_directory None k, hd_adopt fd h)).
Proof.
  intros Epc. pose proof handle_c as Hk. destruct (hk_creating _ _ _ Hk) as (Ko & Kf & Km & Kl); [by rewrite Epc|].
  pose proof (hk_making _ _ _ Hk fd) as Kn. rewrite Epc in Kn. specialize (Kn eq_refl). destruct (hk_point _ _ _ Hk fd) as (o & Ho & Hp); [by rewrite Epc|]. rewrite Epc in Hp. cbn in Hp.
  eapply world_put; eauto.
  - apply frame_release. apply (hk_directory _ _ _ Hk). by rewrite Epc.
  - by apply kernel_directory.
  - constructor; cbn; auto; try done.
    + apply Hk.
    + by intros ? [= <-].
    + intros ? [= <-]. eauto.
    + intros _. exists fd, o. split_and!; try done; [apply Hp|left; apply Hp].
  - intros i _ [Hc|[_ Hn]]; cbn in *; [done|]. left. rewrite Epc. cbn. congruence.
  - done.
Qed.
Ltac easy_goto Epc := first [apply goto_ok|apply code_ok, goto_ok]; try done; try (by rewrite Epc); try (intros _ ?; congruence); try assumption; auto.
Ltac own_segment := do 7 (split; [first [done|intros ??; congruence]|]).
Lemma create_owned_ok a r : create_owned_step c a k h = Some r -> world_ok (put c w r).
Proof.
  pose proof handle_c as Hk. unfold create_owned_step. destruct (hd_pc h) eqn:Epc; try done; intros Hr.
  all: pose proof (hk_directory _ _ _ Hk) as Kd; pose proof (hk_point _ _ _ Hk) as Kp; pose proof (hk_inspecting _ _ _ Hk) as Ki; pose proof (hk_creating _ _ _ Hk) as Kc; rewrite Epc in Kd, Kp, Ki, Kc; cbn in Kd, Kp, Ki, Kc; destruct (Kc eq_refl) as (Ko & Kf & Km & Kl).
  - apply answered_inv in Hr as [[-> [= <-]]|(e & He & ->)]; easy_goto Epc.
  - apply answered_inv in Hr as [[-> Hr]|(e & He & ->)]; [|easy_goto Epc]. destruct (kn_directory k) eqn:Ed.
    + destruct (hd_nonblocking h); [|done]. injection Hr as <-. easy_goto Epc.
    + injection Hr as <-. apply move_ok; try done; [by apply frame_take|by apply kernel_directory|by rewrite Epc|].
      apply owns_keep; try done; [by rewrite Epc|eauto].
  - destruct (kn_names k !! hd_name h) as [fd|] eqn:En; [injection Hr as <-; easy_goto Epc|].
    apply answered_inv in Hr as [[-> [= <-]]|(e & He & ->)]; [|case_check; easy_goto Epc].
    apply make_ok; auto. by rewrite Epc.
  - destruct (Kp _ eq_refl) as (o & Ho & Hm & Hn). apply answered_inv in Hr as [[-> Hr]|(e & He & ->)]; [|easy_goto Epc; cbn; intros ? [= <-]; eauto].
    destruct (lockable fd k) eqn:El.
    + injection Hr as <-. apply locks_ok; try done; try (by rewrite Epc); auto; [intros o' Ho'; by eapply lock_change|]. right. split; [done|]. by exists o.
    + destruct (hd_nonblocking h); [|done]. injection Hr as <-. easy_goto Epc. cbn. intros ? [= <-]. eauto.
  - destruct (Kp _ eq_refl) as (o & Ho & Hm & Hn & Hx). destruct a as [|e|n].
    + injection Hr as <-. apply contents_ok; try done; try (by rewrite Epc); auto. exists o. own_segment. split; [cbn; intros x [= <-]; left; auto|]. split; [|congruence]. split_and!; try done; [by intros x [= <-]|by eexists].
    + cbn in Hr. case_check; [|done]. injection Hr as <-. easy_goto Epc. cbn. intros ? [= <-]. eauto.
    + case_check; [|done]. injection Hr as <-. apply contents_ok; try done; try (by rewrite Epc); auto. exists o. own_segment. split; [cbn; intros x E; congruence|]. split; [done|congruence].
  - pose proof (hk_making _ _ _ Hk fd) as Kn. rewrite Epc in Kn. specialize (Kn eq_refl). apply answered_inv in Hr as [[-> [= <-]]|(e & He & ->)]; [|easy_goto Epc].
    rewrite <- (disown_same (hd_at _ h)) by done. apply delete_ok; try done; [|by rewrite Epc]. intros d e i Hd He _ Hi Hc. apply Hd. eapply (claims_unique w c h d e fd); eauto; [left; by rewrite Epc|congruence].
  - injection Hr as <-. apply locks_ok; try done; try (by rewrite Epc); auto. intros o. apply unlock_change.
  - destruct (kn_names k !! hd_name h) as [fd|] eqn:En; [|injection Hr as <-; easy_goto Epc].
    apply answered_inv in Hr as [[-> [= <-]]|(e & He & ->)]; easy_goto Epc.
    + cbn. intros ? ? [= <-]. rewrite En. by intros [= ->].
    + cbn. intros ? [= <-]. destruct (kk_names _ (wk_kernel w W) _ _ En) as [o Ho]. by exists o.
  - apply answered_inv in Hr as [[-> [= <-]]|(e & He & ->)]; [|easy_goto Epc]. destruct (lockable fd k) eqn:El; [|easy_goto Epc].
    destruct (Kp _ eq_refl) as (o & Ho & _). apply locks_ok; try done; try (by rewrite Epc); auto; [intros o' Ho'; by eapply lock_change|]. right. split; [done|]. by exists o.
  - destruct (Kp _ eq_refl) as (o & Ho & Hx). apply answered_inv in Hr as [[-> [= <-]]|(e & He & ->)]; [|easy_goto Epc].
    assert (Hs : forall d e, wd_handles w !! d = Some e -> claims e k fd -> reclaim (hd_type h) (header_of fd k) = inl false \/ reclaim (hd_type h) (header_of fd k) = inr (pid_of (hd_process e) k)).
    { intros d e He Hc. eapply reclaim_sound; eauto. by rewrite Epc. }
    destruct (reclaim (hd_type h) (header_of fd k)) as [[]|pid] eqn:Er; easy_goto Epc; unfold header_of in Er; rewrite Ho in Er; cbn in Er.
    + cbn. intros ? [= <-]. exists o. by rewrite Er.
    + unfold reclaims_ok. cbn. intros d e He Hc. by destruct (Hs d e He Hc).
    + cbn. intros ? [= <-]. exists o. by rewrite Er.
    + unfold reclaims_ok. cbn. intros d e He Hc. destruct (Hs d e He Hc) as [E|E]; [done|by injection E].
  - injection Hr as <-. destruct (Kp _ eq_refl) as (o & Ho & Hx & Hy). destruct (OwnerDead pid k) eqn:Ed; easy_goto Epc.
    + pose proof (wk_reclaims w W c h Hh) as R. unfold reclaims_ok in *. rewrite Epc in R. cbn. intros d e He Hc. rewrite <- (R d e He Hc), (owner_alive d e) in Ed; [done|by apply wk_handles].
  - destruct (Kp _ eq_refl) as (o & Ho & Hx & _). destruct (kn_names k !! hd_name h) as [j|] eqn:En; [|injection Hr as <-; easy_goto Epc].
    apply answered_inv in Hr as [[-> [= <-]]|(e & He & ->)]; [|easy_goto Epc].
    rewrite <- (disown_same (hd_at _ h)) by done. apply delete_ok; try done; try (by rewrite Epc); [|cbn; intros ? [= <-]; eauto].
    pose proof (wk_reclaims w W c h Hh) as R. unfold reclaims_ok in R. rewrite Epc in R. intros d e i Hd He _ Hi Hc. rewrite En in Hi. injection Hi as <-. rewrite (Ki fd j eq_refl eq_refl) in Hc. by eapply R.
  - injection Hr as <-. destruct n; apply locks_ok; try done; try (by rewrite Epc); auto; intros o; apply unlock_change.
  - injection Hr as <-. match goal with x : (Z + nat)%type |- _ => destruct x as [code|fd] end; [|by apply adopt_ok]. apply code_ok, move_ok; try done; try (intros _ ?; congruence); [apply frame_release; auto|by apply kernel_directory|]. apply owns_keep; try done; [by rewrite Epc|eauto].
Qed.

Lemma map_ok pc : world_ok (put c w (k, hd_at pc h)) -> in_create_owned pc = false -> pc <> Ready -> pc <> ShmOpen -> world_ok (put c w (k, hd_map pc h)).
Proof.
  intros H Hc Hr Hs. eapply replace_ok; [exact H|done..| |].
  - apply put_handle in H as [L1 L2 L3 L4 L5 L6 L7 L8 La Lb L9]. constructor; auto; cbn; [by rewrite Hc|done].
  - unfold reclaims_ok. cbn. by destruct pc.
Qed.
(** [Close]: the descriptor goes with its locks, the name stays. *)
Lemma close_ok code : making (hd_pc h) = None -> (forall i, hd_pc h <> SetOwner i) -> world_ok (put c w (from_option (fun fd => on_segment fd (sg_unlock c) k) k (hd_fd h), hd_return code (hd_close h))).
Proof.
  intros Hm Hs. assert (H : world_ok (put c w (from_option (fun fd => on_segment fd (sg_unlock c) k) k (hd_fd h), hd_at (FailClose code) h))).
  { destruct (hd_fd h) as [fd|]; cbn; [apply locks_ok|apply goto_ok]; try done; auto. intros o. apply unlock_change. }
  eapply replace_ok; [exact H|done..| |done]. apply put_handle in H as [L1 L2 L3 L4 L5 L6 L7 L8 La Lb L9]. constructor; cbn in *; try done. intros Ho. destruct (L8 Ho) as (i & o & M1 & M2 & M3 & [M4|[M4 _]]); [|done]. exists i, o. auto.
Qed.
Lemma own_name d e i : hd_owns h = true -> c <> d -> wd_handles w !! d = Some e -> hd_name e = hd_name h -> kn_names k !! hd_name h = Some i -> ~ claims e k i.
Proof. intros Ho Hd He _ Hi Hc. apply Hd. eapply (claims_unique w c h d e i); eauto. by right. Qed.
Lemma create_ok a r : create_step c a k h = Some r -> world_ok (put c w r).
Proof.
  pose proof handle_c as Hk. pose proof (pid_positive _ _ _ Hk) as Hpid. unfold create_step. destruct (hd_pc h) eqn:Epc; try done; intros Hr.
  all: pose proof (hk_point _ _ _ Hk) as Kp; pose proof (hk_initializing _ _ _ Hk) as Ki; rewrite Epc in Kp, Ki; cbn in Kp, Ki.
  all: try (destruct (Kp _ eq_refl) as (o & Ho & Hpt); destruct (Ki _ eq_refl) as (Kf & Ko & Kn & [len Kl])).
  - apply answered_inv in Hr as [[-> [= <-]]|(e & He & ->)]; [|easy_goto Epc]. destruct Hpt as (Hm & Hx & Hu & Hw). apply contents_ok; try done; try (by rewrite Epc); auto.
    exists o. own_segment. rewrite Kl. destruct Hw as (x & E1 & E2). split; [cbn; intros y Hy; left; rewrite E1 in Hy; injection Hy as <-; auto|].
    split; [|intros _; left; by exists x]. split_and!; try done. by exists x.
  - apply answered_inv in Hr as [[-> [= <-]]|(e & He & ->)]; [|easy_goto Epc]. apply map_ok; try done. easy_goto Epc.
  - injection Hr as <-. destruct Hpt as (Hm & Hx & Hu & Hw & Hl). apply contents_ok; try done; try (by rewrite Epc); auto. exists o. own_segment. split; [cbn; intros y [= <-]; left; auto|]. split; [by split_and!|by right].
  - injection Hr as <-. destruct Hpt as (Hm & Hx & Hu & Hl & Hd). cbn in Hu. apply contents_ok; try done; try (by rewrite Epc); auto. exists o. unfold on_header. rewrite Hu. do 3 (split; [done|]).
    split; [intros y Hy; rewrite Hu in Hy; by injection Hy as <-|]. do 3 (split; [done|]). split; [cbn; intros y [= <-]; left; auto|]. split; [by split_and!|left; by eexists].
  - apply answered_inv in Hr as [[-> [= <-]]|(e & He & ->)]; [|easy_goto Epc]. destruct Hpt as (Hm & Hx & Hu & Hl & Hd). cbn in Hu. apply contents_ok; try done; try (by rewrite Epc); auto. exists o. do 3 (split; [done|]).
    split; [intros y Hy; rewrite Hu in Hy; by injection Hy as <-|]. do 3 (split; [done|]). split; [cbn; rewrite Hu; intros y [= <-]; left; auto|]. split; [by split_and!|left; by eexists].
  - injection Hr as <-. destruct Hpt as (Hm & Hx & Hu & Hl & Hd & Hy0). cbn in Hu. apply contents_ok; try done; try (by rewrite Epc); auto. exists o. unfold on_header. rewrite Hu. do 3 (split; [done|]).
    split; [intros y Hy; rewrite Hu in Hy; by injection Hy as <-|]. do 3 (split; [done|]). split; [cbn; intros y [= <-]; left; auto|]. split; [by split_and!|left; by eexists].
  - injection Hr as <-. destruct Hpt as (Hm & Hx & Hu & Hl & Hd & Hy0). cbn in Hu. apply contents_ok; try done; try (by rewrite Epc); auto. exists o. unfold on_header. rewrite Hu. do 3 (split; [done|]).
    split; [intros y Hy; rewrite Hu in Hy; by injection Hy as <-|]. do 3 (split; [done|]). split; [cbn; intros y [= <-]; right; split; [done|]; apply (header_initialized_at _ (pid_of (hd_process h) k)); try done; cbn; by rewrite Hd|]. split; [by split_and!|left; by eexists].
  - apply answered_inv in Hr as [[-> [= <-]]|(e & He & ->)]; [|easy_goto Epc]. destruct Hpt as (Hm & Hx & Hu & Hl & Hd & Hy0). cbn in Hu.
    assert (H : world_ok (put c w (on_segment fd (sg_unlock c) k, hd_at Ready h))).
    { apply locks_ok; try done; try (by rewrite Epc); auto; [intros o'; apply unlock_change|]. intros _ _. exists fd, o. split_and!; try done. apply (header_initialized_at _ (pid_of (hd_process h) k)); try done. by rewrite Hd. }
    eapply replace_ok; [exact H|done..| |done]. apply put_handle in H as [L1 L2 L3 L4 L5 L6 L7 L8 La Lb L9]. by constructor.
  - destruct (hd_owns h) eqn:Ko; [|injection Hr as <-; easy_goto Epc]. cbn in Hr. destruct (kn_names k !! hd_name h) as [i|] eqn:En; [|injection Hr as <-; easy_goto Epc].
    apply answered_inv in Hr as [[-> [= <-]]|(e & He & ->)]; [|easy_goto Epc]. apply delete_ok; try done. intros d e j. by apply own_name.
  - injection Hr as <-. apply close_ok; by rewrite Epc.
Qed.

Lemma share_change fd o : kn_segments k !! fd = Some o -> shareable fd k = true ->
  evolves (eq c) o (sg_share c o) /\ sg_header (sg_share c o) = sg_header o /\ sg_depth (sg_share c o) = sg_depth o /\ sg_length (sg_share c o) = sg_length o /\ sg_ready (sg_share c o) = sg_ready o /\
  (is_Some (sg_exclusive (sg_share c o)) -> sg_shared (sg_share c o) = []).
Proof. unfold shareable. intros ->. intros H%bool_decide_eq_true. split; [by apply evolves_share|]. split_and!; try done. cbn. rewrite H. by intros []. Qed.
Lemma mapped_header_sound t depth o x : segment_ok o -> sg_header o = Some x -> length_fits t depth o -> mapped_header t depth o x = 0 -> initialized t o.
Proof.
  intros [_ Hs] Hx Hl H. unfold mapped_header in H. repeat (case_check; [by destruct (sy_topic t)|]). bool_to_prop. constructor.
  - exists x. split_and!; try done; lia.
  - exists depth. split; [done|]. intros Ht. rewrite Ht in *. cbn [andb] in *. by bool_to_prop.
  - intros [cr Hcr]. destruct (Hs cr Hcr) as [_ Hy]. destruct (Hy x Hx) as [[E _]|[_ Hi]]; [lia|]. by apply Hi.
Qed.
Lemma open_ok a r : open_step c a k h = Some r -> world_ok (put c w r).
Proof.
  pose proof handle_c as Hk. unfold open_step. destruct (hd_pc h) eqn:Epc; try done; intros Hr.
  all: pose proof (hk_point _ _ _ Hk) as Kp; pose proof (hk_attaching _ _ _ Hk) as Ka; rewrite Epc in Kp, Ka; cbn in Kp, Ka.
  all: try (destruct (Kp _ eq_refl) as (o & Ho & Hpt)).
  - pose proof (hk_opening _ _ _ Hk Epc) as Km. destruct (kn_names k !! hd_name h) as [fd|] eqn:En; [|injection Hr as <-; easy_goto Epc].
    apply answered_inv in Hr as [[-> [= <-]]|(e & He & ->)]; [|easy_goto Epc]. destruct (kk_names _ (wk_kernel w W) _ _ En) as [o Ho].
    eapply world_put; eauto; [by apply frame_still|by apply wk_kernel| | |done].
    + destruct Hk as [K1 K2 K3 K4 K5 K6 K7 K8 K9 K10 K11]. constructor; cbn; try done; [intros ? [= <-]; by exists o|]. intros Hw. destruct (K8 Hw) as (i & o' & M1 & M2 & M3 & [M4|[M4 _]]); [|congruence]. exists i, o'. auto.
    + intros i _ [Hc|Hc]; [done|by right].
  - apply answered_inv in Hr as [[-> [= <-]]|(e & He & ->)]; [|easy_goto Epc]. destruct (header_of fd k); repeat case_check; easy_goto Epc.
  - injection Hr as <-. case_check; easy_goto Epc.
  - apply answered_inv in Hr as [[-> Hr]|(e & He & ->)]; [|easy_goto Epc]. destruct (shareable fd k) eqn:El; [|done]. injection Hr as <-.
    apply locks_ok; try done; try (by rewrite Epc); auto; [intros o' Ho'; by eapply share_change|]. right. split; [done|]. exists o. split; [done|]. by left.
  - rewrite Ho in Hr. cbn in Hr. apply answered_inv in Hr as [[-> [= <-]]|(e & He & ->)]; [|easy_goto Epc]. repeat case_check; easy_goto Epc; cbn; intros ? [= <-]; exists o; split_and!; try done. bool_to_prop. done.
  - rewrite Ho in Hr. cbn in Hr. apply answered_inv in Hr as [[-> [= <-]]|(e & He & ->)]; [|easy_goto Epc]. case_check; easy_goto Epc; cbn; intros ? [= <-]; exists o. bool_to_prop. destruct Hpt as [? <-]. done.
  - apply answered_inv in Hr as [[-> [= <-]]|(e & He & ->)]; [|easy_goto Epc]. apply map_ok; try done. easy_goto Epc.
  - rewrite Ho in Hr. injection Hr as <-. case_check; easy_goto Epc; cbn; intros ? [= <-]; exists o. split; [done|]. destruct Hpt as [? Hl]. split; [done|]. destruct (sg_header o) as [x|] eqn:Ex; [|done]. bool_to_prop.
    eapply mapped_header_sound; eauto. by apply (kk_segments _ (wk_kernel w W) _ _ Ho).
  - injection Hr as <-. case_check; easy_goto Epc.
  - apply answered_inv in Hr as [[-> [= <-]]|(e & He & ->)]; [|easy_goto Epc]. apply code_ok, locks_ok; try done; try (by rewrite Epc); auto; [intros o'; apply unlock_change|]. intros _ _. exists fd, o. split_and!; try done; auto. apply Hpt.
Qed.
Lemma ready_return code : hd_pc h = Ready -> world_ok (put c w (k, hd_return code h)).
Proof. intros Epc. apply code_ok, goto_ok; try done; [by rewrite Epc|]. intros _ Hm. by apply (hk_mapped _ _ _ handle_c). Qed.
Lemma unmapped : hd_pc h = Ready -> hd_fd h = None -> hd_mapped h = false.
Proof. intros Epc Hf. destruct (hd_mapped h) eqn:Em; [|done]. destruct (hk_mapped _ _ _ handle_c Em Epc) as (fd & o & E & _). congruence. Qed.
(** A call that makes or opens a segment begins. *)
Lemma call_ok name depth nonblocking pc : hd_pc h = Ready -> hd_fd h = None -> hd_owns h = false -> (pc = ShmOpen \/ (pc = DirOpen /\ is_Some (sy_length (hd_type h) depth))) -> world_ok (put c w (k, hd_call name depth nonblocking pc h)).
Proof.
  intros Epc Hf Ho Hpc. pose proof (unmapped Epc Hf) as Hm. eapply world_put; eauto; [by apply frame_still|by apply wk_kernel|..].
  - destruct handle_c as [K1 K2 K3 K4 K5 K6 K7 K8 K9 K10 K11]. destruct Hpc as [->|[-> Hl]]; constructor; cbn; try done; rewrite ?Ho, ?Hf, ?Hm; done.
  - intros i _ [Hc|[Hc _]]; cbn in Hc; [by destruct Hpc as [->|[-> _]]|congruence].
  - by destruct Hpc as [->|[-> _]].
Qed.
Lemma CreateStorage_ok name depth nonblocking : hd_pc h = Ready -> world_ok (put c w (k, CreateStorage name depth nonblocking h)).
Proof.
  intros Epc. unfold CreateStorage. case_check; [by apply ready_return|]. case_check; [by apply ready_return|]. destruct (SetName name); [|by apply ready_return].
  bool_to_prop. apply call_ok; auto; [by apply eq_None_not_Some|]. right. split; [done|]. unfold sy_topic, sy_length in *. destruct (sy_layout (hd_type h)) as [?|[[? ?] ?]]; [eauto|]. cbn in *. by destruct (option_map _ _).
Qed.
Lemma OpenStorage_ok name : hd_pc h = Ready -> world_ok (put c w (k, OpenStorage name h)).
Proof.
  intros Epc. unfold OpenStorage. case_check; [by apply ready_return|]. destruct (SetName name); [|by apply ready_return].
  bool_to_prop. apply call_ok; auto. by apply eq_None_not_Some.
Qed.
Lemma CloseStorage_ok munmap close : hd_pc h = Ready -> world_ok (put c w (CloseStorage c munmap close k h)).
Proof. intros Epc. unfold CloseStorage. apply close_ok; by rewrite Epc. Qed.
Lemma UnlinkStorage_ok a r : hd_pc h = Ready -> UnlinkStorage a k h = Some r -> world_ok (put c w r).
Proof.
  intros Epc. unfold UnlinkStorage. destruct (hd_owns h) eqn:Ko; cbn; [|intros [= <-]; by apply ready_return]. destruct (kn_names k !! hd_name h) as [i|] eqn:En; [|intros [= <-]; by apply ready_return].
  intros Hr. apply answered_inv in Hr as [[-> [= <-]]|(e & He & ->)]; [|by apply ready_return]. change (hd_return 0 (hd_disown h)) with (hd_return 0 (hd_disown (hd_at Ready h))).
  apply code_ok. change (hd_at Ready (hd_disown (hd_at Ready h))) with (hd_disown (hd_at Ready h)). apply delete_ok; try done. intros d e j. by apply own_name.
Qed.
Lemma handle_step_ok a r : handle_step c a k h = Some r -> world_ok (put c w r).
Proof.
  unfold handle_step. destruct (create_owned_step c a k h) as [r1|] eqn:E1; [intros [= <-]; by eapply create_owned_ok|].
  destruct (create_step c a k h) as [r2|] eqn:E2; [intros [= <-]; by eapply create_ok|]. apply open_ok.
Qed.
End Steps.

(** ** Processes come and go *)
Lemma world_frame P w k' hs : world_ok w -> frame P w k' -> kernel_ok k' -> (forall d e, hs !! d = Some e -> wd_handles w !! d = Some e /\ ~ P d) -> world_ok {| wd_kernel := k'; wd_handles := hs |}.
Proof.
  intros W F K Hs. constructor; cbn; [done|..]; intros d e He; destruct (Hs d e He) as [He' Hd].
  - by eapply frame_handle.
  - pose proof (wk_reclaims w W d e He') as R. pose proof (hk_point _ _ _ (wk_handles w W d e He')) as Hpt. unfold reclaims_ok in *. destruct (hd_pc e); try done; cbn in Hpt, R |- *.
    all: destruct (Hpt _ eq_refl) as (o & Ho & _); intros y x Hy Hc; destruct (Hs y x Hy) as [Hy' Hp]; apply (frame_claims P w k' x _ F) in Hc; [|eauto].
    + unfold pid_of in *. rewrite (fr_processes _ _ _ F y x Hp Hy'). by eapply R.
    + by eapply R.
Qed.
Lemma segment_unlock c o : segment_ok o -> segment_ok (sg_unlock c o).
Proof.
  intros [S1 S2]. constructor.
  - cbn. intros Hx. rewrite S1; [done|]. by case_bool_decide; [destruct Hx|].
  - cbn. intros cr Hcr. destruct (S2 cr Hcr) as [? T]. split; [done|]. intros x Hx. destruct (T x Hx) as [?|[? ?]]; [by left|right; split; [done|]]. eapply evolves_initialized; [apply (evolves_unlock c)|done].
Qed.
Lemma evolves_trans P o1 o2 o3 : evolves P o1 o2 -> evolves P o2 o3 -> sg_header o3 = sg_header o2 -> sg_depth o3 = sg_depth o2 -> sg_length o3 = sg_length o2 -> sg_ready o3 = sg_ready o2 -> evolves P o1 o3.
Proof.
  intros [A1 A2 A3 A4] [B1 _ B3 B4] E1 E2 E3 E4. constructor; [congruence| |auto|auto]. destruct A2 as [(? & ? & ? & ?)|A2]; [left|by right]. split_and!; congruence.
Qed.
Lemma evolves_weaken (P Q : nat -> Prop) o o' : (forall d, P d -> Q d) -> evolves P o o' -> evolves Q o o'.
Proof. intros H [A1 A2 A3 A4]. constructor; auto. destruct A2 as [?|(? & c & cr & ? & ?)]; [by left|right]. split; [done|]. exists c, cr. auto. Qed.
Lemma release_evolves cs o : evolves (fun d => d ∈ cs) o (foldr sg_unlock o cs) /\ (segment_ok o -> segment_ok (foldr sg_unlock o cs)).
Proof.
  induction cs as [|c cs [IH1 IH2]]; cbn; [split; [apply evolves_refl|done]|]. split; [|intros; apply segment_unlock; auto].
  eapply evolves_trans; [eapply evolves_weaken; [|exact IH1]; intros d Hd; by right| |done..]. eapply evolves_weaken; [|apply evolves_unlock]. intros d <-. by left.
Qed.
Lemma handles_of_spec p hs d : d ∈ handles_of p hs <-> exists e, hs !! d = Some e /\ hd_process e = p.
Proof.
  unfold handles_of. rewrite list_elem_of_fmap. split.
  - intros ([x e] & -> & H). apply elem_of_map_to_list, map_lookup_filter_Some in H as [H1 H2]. eauto.
  - intros (e & H1 & H2). exists (d, e). split; [done|]. apply elem_of_map_to_list, map_lookup_filter_Some. auto.
Qed.
Lemma idle_handle_inv c w h : idle_handle c w = Some h -> wd_handles w !! c = Some h /\ hd_pc h = Ready.
Proof. unfold idle_handle. destruct (wd_handles w !! c) as [x|]; [|done]. destruct (hd_pc x) eqn:E; try done. by intros [= <-]. Qed.
Lemma frame_processes w ps : (forall d e, wd_handles w !! d = Some e -> ps !! hd_process e = kn_processes (wd_kernel w) !! hd_process e) -> frame (fun _ => False) w (kn_set_processes ps (wd_kernel w)).
Proof. intros H. constructor; cbn; auto; [intros i o Ho; exists o; split; [done|apply evolves_refl]|eauto]. Qed.
Lemma exit_ok w p x : world_ok w -> kn_processes (wd_kernel w) !! p = Some x ->
  world_ok {| wd_kernel := release_all (handles_of p (wd_handles w)) (kn_set_processes (<[p := {| op_pid := op_pid x; op_running := false |}]> (kn_processes (wd_kernel w))) (wd_kernel w));
              wd_handles := filter (fun y => hd_process y.2 <> p) (wd_handles w) |}.
Proof.
  intros W Hp. set (cs := handles_of p (wd_handles w)). apply (world_frame (fun d => d ∈ cs) w); [done|..].
  - constructor; cbn.
    + intros i o Ho. rewrite lookup_fmap, Ho. cbn. eexists. split; [done|]. apply release_evolves.
    + auto.
    + auto.
    + intros d Hd ->. by rewrite bool_decide_eq_false_2.
    + intros d e Hd He. rewrite lookup_insert_ne; [done|]. intros E. apply Hd, handles_of_spec. eauto.
  - destruct (wk_kernel w W) as [H1 H2 H3]. constructor; cbn.
    + intros i o. rewrite lookup_fmap. destruct (kn_segments (wd_kernel w) !! i) as [o'|] eqn:E; [|done]. cbn. intros [= <-]. destruct (H1 i o' E). split; [done|]. by apply release_evolves.
    + intros n i Hi. rewrite lookup_fmap. apply fmap_is_Some. by eapply H2.
    + intros q y. destruct (decide (p = q)) as [<-|]; [rewrite lookup_insert_eq; intros [= <-]; exact (H3 p x Hp)|rewrite lookup_insert_ne by done; apply H3].
  - intros d e He. apply map_lookup_filter_Some in He as [He Hn]. split; [done|]. intros Hd. apply handles_of_spec in Hd as (e' & E & Hp'). rewrite He in E. injection E as <-. by apply Hn.
Qed.
Lemma fresh_handle_ok w c p t x : world_ok w -> wd_handles w !! c = None -> kn_processes (wd_kernel w) !! p = Some x -> op_running x = true -> world_ok (put c w (wd_kernel w, fresh_handle t p)).
Proof.
  intros W Hc Hp Hr. constructor; cbn; [apply W|..]; intros d e; (destruct (decide (c = d)) as [<-|Hd]; [rewrite lookup_insert_eq; intros [= <-]|rewrite lookup_insert_ne by done; intros He]); try done.
  - constructor; cbn; try done. exists x. split_and!; try done. by eapply (kk_pids _ (wk_kernel w W)).
  - by apply wk_handles.
  - pose proof (wk_reclaims w W d e He) as R. unfold reclaims_ok in *. destruct (hd_pc e); try done; intros y z; cbn; (destruct (decide (c = y)) as [<-|Hy]; [rewrite lookup_insert_eq; intros [= <-]; by intros [?|[? _]]|rewrite lookup_insert_ne by done; apply R]).
Qed.
Lemma storage_exec_ok e w w' : world_ok w -> storage_exec e w = Some w' -> world_ok w'.
Proof.
  intros W. destruct e as [p pid|p|p|c p t|c name depth nonblocking|c name|c munmap close|c a|c a]; cbn -[OwnerDead release_all]; intros H.
  - case_check; [|done]. injection H as <-. bool_to_prop. apply (world_frame (fun _ => False) w); [done| | |by auto].
    2: { destruct (wk_kernel w W) as [M1 M2 M3]. constructor; cbn; [done..|]. intros q y. destruct (decide (p = q)) as [<-|]; [by rewrite lookup_insert_eq; intros [= <-]|rewrite lookup_insert_ne by done; apply M3]. }
    apply frame_processes. intros d e He. rewrite lookup_insert_ne; [done|]. intros Ex. destruct (hk_process _ _ _ (wk_handles w W d e He)) as (y & E & _). rewrite <- Ex in E. congruence.
  - destruct (kn_processes (wd_kernel w) !! p) as [x|] eqn:Ep; [|done]. case_check; [|done]. injection H as <-. by apply exit_ok.
  - destruct (kn_processes (wd_kernel w) !! p) as [x|] eqn:Ep; [|done]. case_check; [done|]. injection H as <-. apply (world_frame (fun _ => False) w); [done| | |by auto].
    2: { destruct (wk_kernel w W) as [M1 M2 M3]. constructor; cbn; [done..|]. intros q y [_ Hy]%lookup_delete_Some. by eapply M3. }
    apply frame_processes. intros d e He. rewrite lookup_delete_ne; [done|]. intros Ex. destruct (hk_process _ _ _ (wk_handles w W d e He)) as (y & E & Hy & _). rewrite <- Ex, Ep in E. injection E as <-. congruence.
  - destruct (kn_processes (wd_kernel w) !! p) as [x|] eqn:Ep; [|done]. destruct (wd_handles w !! c) eqn:Ec; [done|]. case_check; [|done]. injection H as <-. by eapply fresh_handle_ok.
  - destruct (idle_handle c w) as [h|] eqn:E; [|done]. apply idle_handle_inv in E as [Hh Hp]. injection H as <-. by apply CreateStorage_ok.
  - destruct (idle_handle c w) as [h|] eqn:E; [|done]. apply idle_handle_inv in E as [Hh Hp]. injection H as <-. by apply OpenStorage_ok.
  - destruct (idle_handle c w) as [h|] eqn:E; [|done]. apply idle_handle_inv in E as [Hh Hp]. injection H as <-. by apply CloseStorage_ok.
  - destruct (idle_handle c w) as [h|] eqn:E; [|done]. apply idle_handle_inv in E as [Hh Hp]. cbn in H. destruct (UnlinkStorage a (wd_kernel w) h) as [r|] eqn:Er; [|done]. injection H as <-. by eapply UnlinkStorage_ok.
  - destruct (wd_handles w !! c) as [h|] eqn:Hh; [|done]. cbn in H. destruct (handle_step c a (wd_kernel w) h) as [r|] eqn:Er; [|done]. injection H as <-. by eapply handle_step_ok.
Qed.
Lemma storage_run_ok es w w' : world_ok w -> storage_run es w = Some w' -> world_ok w'.
Proof. intros W Hr. apply (machine_invariant storage_exec world_ok w w'); [|done|by eapply machine_run_rtc]. intros e s1 s2. by apply storage_exec_ok. Qed.

(** ** Segments of other programs *)
(** A complete header that no storage class takes for its own or for an abandoned one *)
Definition unknown (x : OwnerHeader) : Prop := forall t, reclaim t (Some x) = inl false.
Definition foreign (k : ShmKernel) (n : list Z) (i : nat) (x : OwnerHeader) : Prop :=
  kn_names k !! n = Some i /\ unknown x /\ exists o, kn_segments k !! i = Some o /\ sg_creator o = None /\ sg_header o = Some x.
Lemma on_segment_foreign fd f k n i x : (forall o, kn_segments k !! fd = Some o -> sg_creator (f o) = sg_creator o) -> (forall o, kn_segments k !! fd = Some o -> sg_creator o = None -> sg_header (f o) = sg_header o) ->
  foreign k n i x -> foreign (on_segment fd f k) n i x.
Proof.
  intros H1 H2 (Hn & Hu & o & Ho & Hc & Hx). split; [done|]. split; [done|]. cbn. destruct (decide (fd = i)) as [<-|].
  - exists (f o). rewrite lookup_alter_eq, Ho. split; [done|]. by rewrite H1, H2.
  - exists o. by rewrite lookup_alter_ne.
Qed.
Lemma create_foreign k n i x name o : kernel_ok k -> kn_names k !! name = None -> foreign k n i x -> foreign (kn_create name o k) n i x.
Proof.
  intros K Hn (Hi & Hu & o' & Ho & Hc & Hx). split; [cbn; rewrite lookup_insert_ne; [done|congruence]|]. split; [done|]. exists o'. cbn. rewrite lookup_insert_ne; [done|]. apply (kk_segments _ K) in Ho as [Ho _]. lia.
Qed.
Lemma delete_foreign k n i x name : name <> n -> foreign k n i x -> foreign (kn_set_names (delete name (kn_names k)) k) n i x.
Proof. intros Hn (Hi & Hu & Ho). split; [|done]. cbn. by rewrite lookup_delete_ne. Qed.
Section Foreign.
Context (w : ShmWorld) (n : list Z) (i : nat) (x : OwnerHeader) (W : world_ok w) (F : foreign (wd_kernel w) n i x) (c : nat) (h : Handle) (Hh : wd_handles w !! c = Some h).
Lemma claimed_not_foreign : claims h (wd_kernel w) i -> False.
Proof. intros Hc. destruct (claims_made_by w c h i W Hh Hc) as (o & t & pid & Ho & Hm). destruct F as (_ & _ & o' & Ho' & Hc' & _). unfold made_by in Hm. congruence. Qed.
Lemma own_segment_foreign fd f : (exists o, kn_segments (wd_kernel w) !! fd = Some o /\ is_Some (sg_creator o) /\ sg_creator (f o) = sg_creator o) -> foreign (on_segment fd f (wd_kernel w)) n i x.
Proof. intros (o & Ho & [cr Hc] & Hf). apply on_segment_foreign; [intros ? E; rewrite Ho in E; by injection E as <-| |done]. intros ? E Hc'. rewrite Ho in E. injection E as <-. congruence. Qed.
Lemma create_owned_foreign a r : create_owned_step c a (wd_kernel w) h = Some r -> foreign r.1 n i x.
Proof.
  pose proof (wk_handles w W c h Hh) as Hk. unfold create_owned_step. destruct (hd_pc h) eqn:Epc; try done; intros Hr.
  all: pose proof (hk_point _ _ _ Hk) as Kp; pose proof (hk_inspecting _ _ _ Hk) as Ki; pose proof (hk_making _ _ _ Hk) as Km; rewrite Epc in Kp, Ki, Km; cbn in Kp, Ki, Km.
  all: try (destruct (Kp _ eq_refl) as (o & Ho & Hpt)).
  all: try match type of Hr with match ?m with _ => _ end = _ => destruct m eqn:En end.
  all: try (apply answered_inv in Hr as [[-> Hr]|(e & He & ->)]); try (injection Hr as <-); try done.
  - by destruct (kn_directory (wd_kernel w)); [destruct (hd_nonblocking h)|]; try injection Hr as <-.
  - apply create_foreign; [by apply wk_kernel|done..].
  - by case_check.
  - case_check; [injection Hr as <-; by apply on_segment_foreign|by destruct (hd_nonblocking h); [injection Hr as <-|]].
  - apply own_segment_foreign. exists o. split; [done|]. destruct Hpt as [Hm _]. split; [rewrite Hm; eauto|done].
  - cbn in Hr. case_check; [|done]. by injection Hr as <-.
  - case_check; [|done]. injection Hr as <-. apply own_segment_foreign. exists o. split; [done|]. destruct Hpt as [Hm _]. split; [rewrite Hm; eauto|done].
  - apply delete_foreign; [|done]. intros Hn. apply claimed_not_foreign. left. rewrite Epc. cbn. destruct F as [Hi _]. rewrite <- Hn, (Km _ eq_refl) in Hi. done.
  - by apply on_segment_foreign.
  - case_check; [|done]. by apply on_segment_foreign.
  - apply delete_foreign; [|done]. intros Hn. destruct F as (Hi & Hu & o' & Ho' & Hc & Hx). rewrite <- Hn, En in Hi. injection Hi as <-. rewrite (Ki _ _ eq_refl eq_refl), Ho in Ho'. injection Ho' as <-. destruct Hpt as [_ Hpt]. rewrite Hx in Hpt. by apply Hpt.
  - by apply on_segment_foreign.
Qed.
Lemma create_foreign_ok a r : create_step c a (wd_kernel w) h = Some r -> foreign r.1 n i x.
Proof.
  pose proof (wk_handles w W c h Hh) as Hk. unfold create_step. destruct (hd_pc h) eqn:Epc; try done; intros Hr.
  all: pose proof (hk_point _ _ _ Hk) as Kp; rewrite Epc in Kp; cbn in Kp.
  all: try (destruct (Kp _ eq_refl) as (o & Ho & Hm & Hpt); assert (Hcr : is_Some (sg_creator o)) by (rewrite Hm; eauto)).
  all: try (apply answered_inv in Hr as [[-> Hr]|(e & He & ->)]); try (injection Hr as <-); try done.
  all: try (apply own_segment_foreign; exists o; split; [done|]; split; [done|]; unfold on_header; by destruct (sg_header o)).
  - destruct (hd_owns h) eqn:Ko; cbn in Hr; [|by injection Hr as <-]. destruct (kn_names (wd_kernel w) !! hd_name h) as [j|] eqn:En; [|by injection Hr as <-].
    apply answered_inv in Hr as [[-> [= <-]]|(e & He & ->)]; [|done]. apply delete_foreign; [|done]. intros Hn. apply claimed_not_foreign. right. split; [done|]. rewrite Hn. apply F.
  - destruct (hd_fd h); cbn; [by apply on_segment_foreign|done].
Qed.
Lemma open_foreign a r : open_step c a (wd_kernel w) h = Some r -> foreign r.1 n i x.
Proof.
  unfold open_step. destruct (hd_pc h) eqn:Epc; try done; intros Hr.
  all: try match type of Hr with match ?m with Some _ => _ | None => _ end = _ => destruct m eqn:En end.
  all: try (apply answered_inv in Hr as [[-> Hr]|(e & He & ->)]); try (injection Hr as <-); try done; try by apply on_segment_foreign.
  case_check; [|done]. injection Hr as <-. by apply on_segment_foreign.
Qed.
Lemma unlink_foreign a r : UnlinkStorage a (wd_kernel w) h = Some r -> foreign r.1 n i x.
Proof.
  unfold UnlinkStorage. destruct (hd_owns h) eqn:Ko; cbn; intros Hr; [|by injection Hr as <-]. destruct (kn_names (wd_kernel w) !! hd_name h) as [j|] eqn:En; [|by injection Hr as <-].
  apply answered_inv in Hr as [[-> [= <-]]|(e & He & ->)]; [|done]. apply delete_foreign; [|done]. intros Hn. apply claimed_not_foreign. right. split; [done|]. rewrite Hn. apply F.
Qed.
Lemma handle_foreign a r : handle_step c a (wd_kernel w) h = Some r -> foreign r.1 n i x.
Proof.
  unfold handle_step. destruct (create_owned_step c a _ h) as [r1|] eqn:E1; [intros [= <-]; by eapply create_owned_foreign|].
  destruct (create_step c a _ h) as [r2|] eqn:E2; [intros [= <-]; by eapply create_foreign_ok|]. apply open_foreign.
Qed.
End Foreign.
Lemma release_contents cs o : sg_creator (foldr sg_unlock o cs) = sg_creator o /\ sg_header (foldr sg_unlock o cs) = sg_header o.
Proof. by induction cs. Qed.
Lemma foreign_exec e w w' n i x : world_ok w -> foreign (wd_kernel w) n i x -> storage_exec e w = Some w' -> foreign (wd_kernel w') n i x.
Proof.
  intros W F. destruct e as [p pid|p|p|c p t|c name depth nonblocking|c name|c munmap close|c a|c a]; cbn -[OwnerDead release_all]; intros H.
  - case_check; [|done]. by injection H as <-.
  - destruct (kn_processes (wd_kernel w) !! p) as [y|]; [|done]. case_check; [|done]. injection H as <-. destruct F as (Hi & Hu & o & Ho & Hc & Hx). split; [done|]. split; [done|]. cbn. rewrite lookup_fmap, Ho. cbn.
    eexists. split; [done|]. by destruct (release_contents (handles_of p (wd_handles w)) o) as [-> ->].
  - destruct (kn_processes (wd_kernel w) !! p) as [y|]; [|done]. case_check; [done|]. by injection H as <-.
  - destruct (kn_processes (wd_kernel w) !! p) as [y|]; [|done]. destruct (wd_handles w !! c); [done|]. case_check; [|done]. by injection H as <-.
  - destruct (idle_handle c w); [|done]. by injection H as <-.
  - destruct (idle_handle c w); [|done]. by injection H as <-.
  - destruct (idle_handle c w) as [h|]; [|done]. injection H as <-. cbn. destruct (hd_fd h); cbn; [by apply on_segment_foreign|done].
  - destruct (idle_handle c w) as [h|] eqn:E; [|done]. apply idle_handle_inv in E as [Hh Hp]. cbn in H. destruct (UnlinkStorage a (wd_kernel w) h) as [r|] eqn:Er; [|done]. injection H as <-. by eapply unlink_foreign.
  - destruct (wd_handles w !! c) as [h|] eqn:Hh; [|done]. cbn in H. destruct (handle_step c a (wd_kernel w) h) as [r|] eqn:Er; [|done]. injection H as <-. by eapply handle_foreign.
Qed.
Lemma foreign_run es : forall w w' n i x, world_ok w -> foreign (wd_kernel w) n i x -> storage_run es w = Some w' -> foreign (wd_kernel w') n i x.
Proof.
  induction es as [|e es IH]; intros w w' n i x W F H; [by injection H as <-|]. cbn in H. destruct (storage_exec e w) as [w1|] eqn:E; [|done]. eapply IH; [| |exact H]; [by eapply storage_exec_ok|by eapply foreign_exec].
Qed.

(** ** Claims *)
(** Nothing of KCF runs; names may refer to segments of other programs. *)
Record storage_initial (w : ShmWorld) : Prop := {
  st_handles : wd_handles w = ∅;
  st_processes : kn_processes (wd_kernel w) = ∅;
  st_segments : forall i o, kn_segments (wd_kernel w) !! i = Some o -> (i < kn_next (wd_kernel w))%nat /\ sg_creator o = None /\ sg_exclusive o = None;
  st_names : forall n i, kn_names (wd_kernel w) !! n = Some i -> is_Some (kn_segments (wd_kernel w) !! i)
}.
Lemma initial_ok w : storage_initial w -> world_ok w.
Proof.
  intros [H1 H2 H3 H4]. constructor.
  - constructor; [|done|by rewrite H2]. intros i o Ho. destruct (H3 i o Ho) as (? & Hc & Hx). split; [done|]. constructor; [rewrite Hx; by intros []|by rewrite Hc].
  - by rewrite H1.
  - by rewrite H1.
Qed.
(** C6: A segment stays with its owner.  Whatever processes do, fail or die, and whichever of their system calls fail: as long as a storage
    object of a running process owns its name, the name refers to the segment that this object made, so nobody reclaims, replaces or
    unlinks it; two objects never own one name, and two that are just creating segments never hold the same one.  A segment of
    another program with a complete header that is neither uninitialized nor of a KCF kind keeps its name and its header. *)
Theorem storage_ownership w0 es w : storage_initial w0 -> storage_run es w0 = Some w ->
  (forall c h, wd_handles w !! c = Some h -> hd_owns h = true ->
     exists i o, kn_names (wd_kernel w) !! hd_name h = Some i /\ kn_segments (wd_kernel w) !! i = Some o /\ sg_creator o = Some {| cr_handle := c; cr_type := hd_type h; cr_pid := pid_of (hd_process h) (wd_kernel w) |}) /\
  (forall c d h e i, wd_handles w !! c = Some h -> wd_handles w !! d = Some e -> claims h (wd_kernel w) i -> claims e (wd_kernel w) i -> c = d) /\
  (forall c d h e, wd_handles w !! c = Some h -> wd_handles w !! d = Some e -> hd_owns h = true -> hd_owns e = true -> hd_name h = hd_name e -> c = d) /\
  (forall n i x, foreign (wd_kernel w0) n i x -> foreign (wd_kernel w) n i x).
Proof.
  intros H0 Hr. assert (W : world_ok w) by (eapply storage_run_ok; [by apply initial_ok|done]). split_and!.
  - intros c h Hh Ho. destruct (hk_owns _ _ _ (wk_handles w W c h Hh) Ho) as (i & o & ? & ? & ? & _). eauto.
  - intros c d h e i Hh He. by apply claims_unique.
  - intros c d h e Hh He H1 H2 Hn. destruct (hk_owns _ _ _ (wk_handles w W c h Hh) H1) as (i & o & E & _). eapply (claims_unique w c h d e i); eauto; right; split; congruence.
  - intros n i x F. exact (foreign_run es w0 w n i x (initial_ok w0 H0) F Hr).
Qed.
(** C25: An attached segment is complete.  When [Create] or [Open] has succeeded, the segment that the object maps carries the magic
    number, the format, the payload size and the alignment of its class, a length that fits its depth, and an owner; if KCF made it, its mutex, its
    condition and its payload were initialized before, by whoever made it.  While a segment is being initialized no object has it attached,
    even if its name could be opened at any time. *)
Theorem storage_attach_sound w0 es w c h : storage_initial w0 -> storage_run es w0 = Some w -> wd_handles w !! c = Some h ->
  (hd_mapped h = true -> hd_pc h = Ready -> exists fd o, hd_fd h = Some fd /\ kn_segments (wd_kernel w) !! fd = Some o /\ initialized (hd_type h) o) /\
  (forall fd d e, initializing (hd_pc h) = Some fd -> hd_pc h <> UnlockNew fd -> wd_handles w !! d = Some e -> hd_mapped e = true -> hd_pc e = Ready -> hd_fd e <> Some fd).
Proof.
  intros H0 Hr Hh. assert (W : world_ok w) by (eapply storage_run_ok; [by apply initial_ok|done]). pose proof (wk_handles w W c h Hh) as Hk. split; [apply Hk|].
  intros fd d e Hi Hn He Hm Hp Hf. destruct (hk_mapped _ _ _ (wk_handles w W d e He) Hm Hp) as (fd' & o & E1 & E2 & [(x & X1 & X2 & _) _ _]). rewrite Hf in E1. injection E1 as <-.
  destruct (hk_point _ _ _ Hk fd) as (o' & Ho' & Hpt); [by destruct (hd_pc h)|]. rewrite E2 in Ho'. injection Ho' as <-.
  assert (Hu : header_uninitialized o).
  { destruct (hd_pc h); try done; cbn in Hi, Hpt; injection Hi as ->; try done; try (by apply Hpt); destruct Hpt as (_ & _ & Hpt & _); rewrite Hpt in X1; intros y Hy; rewrite Hpt in Hy; by injection Hy as <-. }
  specialize (Hu x X1). lia.
Qed.

(** ** Recovery *)
Fixpoint steps (m : nat) (c : nat) (r : ShmKernel * Handle) : option (ShmKernel * Handle) :=
  match m with O => Some r | S m => match handle_step c Done r.1 r.2 with Some r' => steps m c r' | None => None end end.
Lemma put_put c w r1 r2 : put c (put c w r1) r2 = put c w r2.
Proof. unfold put. cbn. f_equal. apply insert_insert_eq. Qed.
Lemma steps_run m c : forall w k h r, steps m c (k, h) = Some r -> storage_run (replicate m (SeStep c Done)) (put c w (k, h)) = Some (put c w r).
Proof.
  induction m as [|m IH]; intros w k h r H; [by injection H as <-|]. cbn in H. destruct (handle_step c Done k h) as [[k1 h1]|] eqn:E; [|done].
  assert (Hx : storage_exec (SeStep c Done) (put c w (k, h)) = Some (put c w (k1, h1))) by (cbn; rewrite lookup_insert_eq; cbn; rewrite E; cbn; by rewrite put_put).
  cbn [replicate]. eapply machine_run_cons; [exact Hx|]. by apply IH.
Qed.
Lemma steps_app a b c r r1 r2 : steps a c r = Some r1 -> steps b c r1 = Some r2 -> steps (a + b) c r = Some r2.
Proof. revert r. induction a as [|a IH]; intros r H1 H2; cbn in *; [by injection H1 as ->|]. destruct (handle_step c Done r.1 r.2); [by apply IH|done]. Qed.

(** The calls succeed and the object is ready after [m] more steps. *)
Definition finished (n : list Z) (h : Handle) : Prop := hd_pc h = Ready /\ hd_result h = 0 /\ hd_owns h = true /\ hd_mapped h = true /\ hd_name h = n.
Definition course (m c : nat) (n : list Z) (k : ShmKernel) (h : Handle) : Prop := exists k' h', steps m c (k, h) = Some (k', h') /\ finished n h'.
Lemma course_cons m c n k h k1 h1 : handle_step c Done k h = Some (k1, h1) -> course m c n k1 h1 -> course (S m) c n k h.
Proof. intros E (k' & h' & H1 & H2). exists k', h'. split; [|done]. cbn [steps fst snd]. by rewrite E. Qed.
(** The steps that depend on nothing *)
Definition blind (pc : StoragePc) : option (StoragePc * nat) :=
  match pc with
  | WriteHeader fd => Some (DirRelease (inr fd), 10%nat) | DirRelease (inr fd) => Some (Truncate fd, 9%nat) | Truncate fd => Some (MapNew fd, 8%nat) | MapNew fd => Some (Construct fd, 7%nat)
  | Construct fd => Some (SetOwner fd, 6%nat) | SetOwner fd => Some (InitializeSync fd, 5%nat) | InitializeSync fd => Some (SetMagic fd, 4%nat) | SetMagic fd => Some (SetInitialized fd, 3%nat)
  | SetInitialized fd => Some (UnlockNew fd, 2%nat) | UnlockNew fd => Some (Ready, 1%nat) | _ => None
  end.
(** [h'] went on to [pc] *)
Record went (pc : StoragePc) (h h' : Handle) : Prop := {
  we_pc : hd_pc h' = pc;
  we_name : hd_name h' = hd_name h;
  we_owns : hd_owns h' = (match pc with Truncate _ => true | _ => hd_owns h end);
  we_mapped : hd_mapped h' = (match pc with Construct _ => true | _ => hd_mapped h end);
  we_result : pc = Ready -> hd_result h' = 0
}.
Lemma blind_step c k h pc m : blind (hd_pc h) = Some (pc, m) -> exists k' h', handle_step c Done k h = Some (k', h') /\ went pc h h'.
Proof.
  intros H. unfold handle_step, create_owned_step, create_step. case_pc (hd_pc h); try done; injection H as <- <-; eexists _, _; (split; [reflexivity|by constructor]).
Qed.
(** From the header on, a creation takes its course. *)
Lemma create_course c m : forall k h pc, blind (hd_pc h) = Some (pc, S m) -> (S m < 9 -> hd_owns h = true)%nat -> (S m < 7 -> hd_mapped h = true)%nat -> course (S m) c (hd_name h) k h.
Proof.
  induction m as [|m IH]; intros k h pc Hb H2 H3; destruct (blind_step c k h pc _ Hb) as (k1 & h1 & E & [W1 W2 W3 W4 W5]).
  - assert (Hp : pc = Ready) by (case_pc (hd_pc h); try done; by injection Hb as <-). rewrite Hp in *.
    eapply course_cons; [exact E|]. exists k1, h1. split; [done|]. unfold finished. rewrite W1, W2, W3, W4, W5, H2, H3 by (done || lia). done.
  - eapply course_cons; [exact E|]. rewrite <- W2.
    assert (Hn : exists pc', blind pc = Some (pc', S m) /\ (S m < 9 -> hd_owns h1 = true)%nat /\ (S m < 7 -> hd_mapped h1 = true)%nat).
    { rewrite W3, W4. case_pc (hd_pc h); cbn in Hb; try discriminate Hb; injection Hb as <- Hm; subst m; eexists; (split; [reflexivity|]); split; intros Hx; try done; try lia; auto with lia. }
    destruct Hn as (pc' & Hb' & Ho & Hm). eapply IH; [by rewrite W1|done|done].
Qed.

Lemma make_course n c k h : hd_pc h = OpenNew n -> kn_names k !! hd_name h = None -> course 12 c (hd_name h) k h.
Proof.
  intros E Hn. eapply course_cons; [unfold handle_step, create_owned_step; rewrite E, Hn; reflexivity|].
  set (h1 := hd_at (LockNew (kn_next k)) h). eapply (course_cons _ _ _ _ _ _ (hd_at (WriteHeader (kn_next k)) h)).
  - assert (Hl : lockable (kn_next k) (kn_create (hd_name h) (new_segment c h k) k) = true) by (unfold lockable; cbn; by rewrite lookup_insert_eq).
    unfold handle_step, create_owned_step. cbn [hd_pc h1 hd_at answered]. rewrite Hl. reflexivity.
  - change (hd_name h) with (hd_name (hd_at (WriteHeader (kn_next k)) h)). eapply create_course; [reflexivity|lia|lia].
Qed.
(** A segment in the way whose creator has died *)
Record abandoned (t : StorageType) (k : ShmKernel) (i : nat) (o : Segment) : Prop := {
  ab_segment : kn_segments k !! i = Some o;
  ab_locks : sg_exclusive o = None /\ sg_shared o = [];
  ab_creator : exists cr, sg_creator o = Some cr /\ sy_topic (cr_type cr) = sy_topic t /\ OwnerDead (cr_pid cr) k = true
}.
Lemma abandoned_reclaim t k i o : abandoned t k i o -> segment_ok o ->
  reclaim t (sg_header o) = inl true \/ exists pid, reclaim t (sg_header o) = inr pid /\ OwnerDead pid k = true.
Proof.
  intros [_ _ (cr & H1 & H2 & H3)] [_ Hs]. destruct (Hs cr H1) as [Hp Hh]. destruct (sg_header o) as [x|] eqn:Ex; [|by left]. destruct (Hh x eq_refl) as [[E1 [E2|E2]]|[E2 [(y & Y0 & Y1 & Y2 & Y3 & _) _ _]]]; cbn.
  - rewrite E1, E2. by left.
  - rewrite E1, E2. cbn. destruct (Z.leb_spec (cr_pid cr) 0); [lia|]. eauto.
  - rewrite Ex in Y0. injection Y0 as <-. right. exists (cr_pid cr). split; [|done]. rewrite Y1, Y2, Y3, E2. unfold sy_magic, sy_format. rewrite H2, !Z.eqb_refl. cbn. by rewrite (proj2 (Z.ltb_lt _ _) Hp).
Qed.
Lemma unlink_course c k h fd : hd_pc h = UnlinkOld false fd -> is_Some (kn_names k !! hd_name h) -> course 14 c (hd_name h) k h.
Proof.
  intros E [j Hj]. eapply course_cons; [unfold handle_step, create_owned_step; rewrite E, Hj; reflexivity|].
  eapply (course_cons _ _ _ _ _ _ (hd_at (OpenNew true) h)); [reflexivity|]. change (hd_name h) with (hd_name (hd_at (OpenNew true) h)). eapply make_course; [reflexivity|]. cbn. apply lookup_delete_eq.
Qed.
Lemma reclaim_course c k h fd : hd_pc h = ReadOld false fd -> is_Some (kn_names k !! hd_name h) ->
  (reclaim (hd_type h) (header_of fd k) = inl true \/ exists pid, reclaim (hd_type h) (header_of fd k) = inr pid /\ OwnerDead pid k = true) -> exists m, (m <= 16)%nat /\ course m c (hd_name h) k h.
Proof.
  intros E Hn [Hr|(pid & Hr & Hd)].
  - exists 15%nat. split; [lia|]. eapply (course_cons _ _ _ _ _ k (hd_at (UnlinkOld false fd) h)); [unfold handle_step, create_owned_step; rewrite E, Hr; reflexivity|]. by apply (unlink_course c k (hd_at (UnlinkOld false fd) h) fd).
  - exists 16%nat. split; [lia|]. eapply (course_cons _ _ _ _ _ k (hd_at (ProbeOld false fd pid) h)); [unfold handle_step, create_owned_step; rewrite E, Hr; reflexivity|].
    eapply (course_cons _ _ _ _ _ k (hd_at (UnlinkOld false fd) h)); [unfold handle_step, create_owned_step; cbn [hd_pc hd_at]; rewrite Hd; reflexivity|]. by apply (unlink_course c k (hd_at (UnlinkOld false fd) h) fd).
Qed.
Lemma old_course c k h i o : hd_pc h = OpenNew false -> kn_names k !! hd_name h = Some i -> segment_ok o -> abandoned (hd_type h) k i o -> exists m, (m <= 19)%nat /\ course m c (hd_name h) k h.
Proof.
  intros E Hn Hs Ha. pose proof (abandoned_reclaim _ _ _ _ Ha Hs) as Hr. destruct Ha as [Hi [L1 L2] _]. set (k1 := on_segment i (sg_lock c) k).
  destruct (reclaim_course c k1 (hd_at (ReadOld false i) h) i) as (m & Hm & Hc); [done|cbn; eauto| |].
  { assert (Hx : header_of i k1 = sg_header o) by (unfold header_of, k1; cbn; by rewrite lookup_alter_eq, Hi). rewrite Hx. exact Hr. }
  exists (S (S (S m))). split; [lia|].
  eapply (course_cons _ _ _ _ _ k (hd_at (OpenOld false) h)); [unfold handle_step, create_owned_step; by rewrite E, Hn|].
  eapply (course_cons _ _ _ _ _ k (hd_at (LockOld false i) h)); [unfold handle_step, create_owned_step; cbn [hd_pc hd_at hd_name]; by rewrite Hn|].
  eapply (course_cons _ _ _ _ _ k1 (hd_at (ReadOld false i) h)); [|exact Hc].
  assert (Hl : lockable i k = true) by (unfold lockable; by rewrite Hi, L1, L2). unfold handle_step, create_owned_step. cbn [hd_pc hd_at answered]. by rewrite Hl.
Qed.
Lemma directory_course c k h m : hd_pc h = DirOpen -> kn_directory k = None -> course m c (hd_name h) (kn_set_directory (Some c) k) (hd_at (OpenNew false) h) -> course (S (S m)) c (hd_name h) k h.
Proof.
  intros E Hd Hc. eapply (course_cons _ _ _ _ _ k (hd_at DirLock h)); [unfold handle_step, create_owned_step; by rewrite E|].
  eapply course_cons; [|exact Hc]. unfold handle_step, create_owned_step. cbn [hd_pc hd_at answered]. by rewrite Hd.
Qed.
Lemma handle_step_type c a k h r : handle_step c a k h = Some r -> hd_type r.2 = hd_type h.
Proof.
  unfold handle_step, create_owned_step, create_step, open_step. destruct (hd_pc h) eqn:E; intros H; repeat first [progress simplify_eq/=|case_match]; try done.
  all: repeat match goal with H : answered _ _ _ = Some _ |- _ => apply answered_inv in H as [[_ H]|(? & _ & ->)] end; repeat first [progress simplify_eq/=|case_match]; done.
Qed.
Lemma steps_type m c : forall r r', steps m c r = Some r' -> hd_type r'.2 = hd_type r.2.
Proof. induction m as [|m IH]; intros r r' H; cbn in H; [by injection H as ->|]. destruct (handle_step c Done r.1 r.2) as [r1|] eqn:E; [|done]. rewrite (IH _ _ H). by eapply handle_step_type. Qed.
(** C7: A crash leaves nothing that blocks a name.  Wherever in [Create] a process was when it died, once it has been reaped and nobody holds the
    segment that it left under the name, a new [Create] of the same kind of storage whose system calls succeed returns 0 after at most 21 of them:
    the remains are reclaimed, the name refers to a new segment of the caller, and this segment is attached and complete.  The same holds
    for a free name. *)
Theorem storage_recoverable w0 es w c h name n depth nonblocking :
  storage_initial w0 -> storage_run es w0 = Some w -> idle_handle c w = Some h -> hd_fd h = None -> hd_owns h = false -> SetName name = Ok n ->
  (exists len, sy_length (hd_type h) depth = Some len /\ len < 2 ^ 63) -> kn_directory (wd_kernel w) = None ->
  (kn_names (wd_kernel w) !! n = None \/ exists i o, kn_names (wd_kernel w) !! n = Some i /\ abandoned (hd_type h) (wd_kernel w) i o) ->
  exists m w' h', (m <= 21)%nat /\ storage_run (SeCreate c name depth nonblocking :: replicate m (SeStep c Done)) w = Some w' /\ wd_handles w' !! c = Some h' /\ finished n h' /\
    (exists i o, kn_names (wd_kernel w') !! n = Some i /\ kn_segments (wd_kernel w') !! i = Some o /\ option_map cr_handle (sg_creator o) = Some c) /\
    (exists fd o, hd_fd h' = Some fd /\ kn_segments (wd_kernel w') !! fd = Some o /\ initialized (hd_type h) o).
Proof.
  intros H0 Hr Hi Hf Ho Hn (len & Hl1 & Hl2) Hd Hx. assert (W : world_ok w) by (eapply storage_run_ok; [by apply initial_ok|done]). apply idle_handle_inv in Hi as Hh. destruct Hh as [Hh Hp].
  set (h0 := hd_call n depth nonblocking DirOpen h).
  assert (Hc : exists m, (m <= 21)%nat /\ course m c n (wd_kernel w) h0).
  { destruct Hx as [Hx|(i & o & Hx & Ha)].
    - exists 14%nat. split; [lia|]. by apply (directory_course c (wd_kernel w) h0), (make_course false c _ (hd_at (OpenNew false) h0)).
    - destruct (old_course c (kn_set_directory (Some c) (wd_kernel w)) (hd_at (OpenNew false) h0) i o) as (m & Hm & Hc); [done|done|by apply (kk_segments _ (wk_kernel w W) i o), Ha|by destruct Ha|].
      exists (S (S m)). split; [lia|]. by apply (directory_course c (wd_kernel w) h0). }
  destruct Hc as (m & Hm & k' & h' & Hc & Hfin). exists m, (put c w (k', h')), h'.
  assert (Hrun : storage_run (SeCreate c name depth nonblocking :: replicate m (SeStep c Done)) w = Some (put c w (k', h'))).
  { eapply machine_run_cons; [|exact (steps_run m c w _ _ _ Hc)]. cbn [storage_exec]. rewrite Hi. cbn. unfold CreateStorage. rewrite Hf, Ho, Hl1, Hn. cbn. destruct (Z.leb_spec (2 ^ 63) len); [lia|]. by rewrite andb_false_r. }
  assert (W' : world_ok (put c w (k', h'))) by by eapply storage_run_ok. assert (Hh' : wd_handles (put c w (k', h')) !! c = Some h') by (cbn; by rewrite lookup_insert_eq).
  pose proof (wk_handles _ W' c h' Hh') as Hk. destruct Hfin as (F1 & F2 & F3 & F4 & F5). do 4 (split; [done|]). split.
  - destruct (hk_owns _ _ _ Hk F3) as (i & o & E1 & E2 & E3 & _). exists i, o. rewrite F5 in E1. split_and!; try done. by rewrite E3.
  - change (hd_type h) with (hd_type (wd_kernel w, h0).2). rewrite <- (steps_type _ _ _ _ Hc). by apply (hk_mapped _ _ _ Hk).
Qed.

(** ** A run: a process dies after it has cleared the owner in the header of [/a]; [/x] belongs to another program. *)
Definition sample_storage : StorageType := {| sy_layout := inl 200; sy_size := 8; sy_alignment := 8; sy_type_id := 5; sy_layout_id := 6 |}.
Definition other_header : OwnerHeader := {| oh_magic := 77; oh_size := 1; oh_alignment := 1; oh_format := 1; oh_initialized := 1; oh_owner_pid := 9; oh_type_id := 0; oh_layout_id := 0 |}.
Definition sample_world : ShmWorld :=
  {| wd_kernel := {| kn_names := {[ [47; 120] := 0%nat ]};
       kn_segments := {[ 0%nat := {| sg_header := Some other_header; sg_depth := 0; sg_length := 64; sg_exclusive := None; sg_shared := []; sg_ready := false; sg_creator := None |} ]};
       kn_next := 1; kn_directory := None; kn_processes := ∅ |}; wd_handles := ∅ |}.
Definition crash_run : list StorageEvent :=
  [SeSpawn 0 40; SeHandle 0 0 sample_storage; SeCreate 0 [47; 97] 1 false] ++ replicate 9 (SeStep 0 Done) ++ [SeExit 0; SeReap 0; SeSpawn 1 41; SeHandle 1 1 sample_storage].
Definition after_run (es : list StorageEvent) : ShmWorld := default sample_world (storage_run es sample_world).
Lemma sample_initial : storage_initial sample_world.
Proof.
  constructor; try done; cbn.
  - intros i o [<- <-]%lookup_singleton_Some. split_and!; [lia|done..].
  - intros n i [<- <-]%lookup_singleton_Some. rewrite lookup_singleton_eq. eauto.
Qed.
Lemma sample_foreign : foreign (wd_kernel sample_world) [47; 120] 0 other_header.
Proof. split; [done|]. split; [intros t; unfold reclaim, sy_magic; cbn; by destruct (sy_topic t)|]. by eexists. Qed.
Lemma storage_recoverable_witness :
  exists m w' h', (m <= 21)%nat /\ storage_run (SeCreate 1 [47; 97] 1 true :: replicate m (SeStep 1 Done)) (after_run crash_run) = Some w' /\ wd_handles w' !! 1%nat = Some h' /\ hd_owns h' = true /\ hd_result h' = 0.
Proof.
  destruct (storage_recoverable sample_world crash_run (after_run crash_run) 1 (fresh_handle sample_storage 1) [47; 97] [47; 97] 1 true) as (m & w' & h' & H1 & H2 & H3 & (_ & H4 & H5 & _) & _);
    [exact sample_initial|vm_compute; reflexivity|vm_compute; reflexivity|reflexivity|reflexivity|vm_compute; reflexivity|by exists 200|vm_compute; reflexivity| |exists m, w', h'; split; [exact H1|split; [exact H2|split; [exact H3|split; [exact H5|exact H4]]]]].
  right. eexists 1%nat, _. split; [vm_compute; reflexivity|]. constructor; [vm_compute; reflexivity|split; reflexivity|]. eexists. split; [reflexivity|split; [reflexivity|vm_compute; reflexivity]].
Defined.
Definition owned_run : list StorageEvent := crash_run ++ SeCreate 1 [47; 97] 1 true :: replicate 20 (SeStep 1 Done) ++ [SeHandle 2 1 sample_storage; SeOpen 2 [47; 97]] ++ replicate 9 (SeStep 2 Done).
Lemma storage_ownership_witness : exists h, wd_handles (after_run owned_run) !! 1%nat = Some h /\ hd_owns h = true /\
  (exists i o, kn_names (wd_kernel (after_run owned_run)) !! [47; 97] = Some i /\ kn_segments (wd_kernel (after_run owned_run)) !! i = Some o /\ option_map cr_handle (sg_creator o) = Some 1%nat) /\
  foreign (wd_kernel (after_run owned_run)) [47; 120] 0 other_header.
Proof.
  destruct (storage_ownership sample_world owned_run (after_run owned_run) sample_initial) as (H1 & _ & _ & H2); [vm_compute; reflexivity|].
  eexists. split; [vm_compute; reflexivity|]. split; [reflexivity|]. split.
  - edestruct (H1 1%nat) as (i & o & E1 & E2 & E3); [vm_compute; reflexivity|reflexivity|]. exists i, o. split; [exact E1|]. split; [exact E2|]. rewrite E3. reflexivity.
  - apply H2. exact sample_foreign.
Defined.
Lemma storage_attach_sound_witness : exists h, wd_handles (after_run owned_run) !! 2%nat = Some h /\ hd_owns h = false /\ exists fd o, hd_fd h = Some fd /\ kn_segments (wd_kernel (after_run owned_run)) !! fd = Some o /\ initialized sample_storage o.
Proof.
  eexists. split; [vm_compute; reflexivity|]. split; [reflexivity|].
  edestruct (storage_attach_sound sample_world owned_run (after_run owned_run) 2) as [H _]; [exact sample_initial|vm_compute; reflexivity|vm_compute; reflexivity|]. exact (H eq_refl eq_refl).
Defined.
