(* ===== verification/TimerWorker.v ===== *)
(** * Timer

    [Timer] of [kcf/src/timer.cpp]: a worker thread calls a function periodically; [Create] and
    the external [Stop] are called from one controlling thread, [Stop] also from the callback.
    The steps are the critical sections of [mutex_] and, between two of them, the call of the
    callback: a [Stop] may come between the end of the wait and the call.

    The clock is an argument of the steps that read it, in ticks of the steady clock; the period
    is what [Create] computes from the frequency ([None]: a frequency that it refuses).  A
    [TimerTick] logs when a callback was due, started and returned. *)
From S2P Require Import Prelude.

(** Where the worker is: before its first lock, waiting for [next_tick], behind the wait with the
    lock released and the callback not yet called, in the callback, behind the loop (and not
    joined). *)
Inductive TimerWorker :=
| WorkerStarts
| WorkerWaits (next_tick : Z)
| WorkerWoken (next_tick : Z)
| WorkerCalls (next_tick : Z)
| WorkerEnded.
Record TimerTick := { tk_due : Z; tk_start : Z; tk_return : option Z }.
(** [ti_clock]: the last time that was read; [ti_begin]: when the worker entered its loop. *)
Record Timer := {
  ti_running : bool;
  ti_period : Z;
  ti_worker : option TimerWorker;
  ti_clock : Z;
  ti_begin : Z;
  ti_ticks : list TimerTick
}.
Definition ti_created (period : Z) (t : Timer) : Timer :=
  {| ti_running := true; ti_period := period; ti_worker := Some WorkerStarts; ti_clock := ti_clock t; ti_begin :=
     ti_begin t; ti_ticks := [] |}.
Definition ti_stop (t : Timer) : Timer :=
  {| ti_running := false; ti_period := ti_period t; ti_worker := ti_worker t; ti_clock := ti_clock t; ti_begin :=
     ti_begin t; ti_ticks := ti_ticks t |}.
Definition ti_not_started (period : Z) (t : Timer) : Timer :=
  {| ti_running := false; ti_period := period; ti_worker := ti_worker t; ti_clock := ti_clock t; ti_begin := ti_begin
     t; ti_ticks := ti_ticks t |}.
Definition ti_at (w : TimerWorker) (now : Z) (t : Timer) : Timer :=
  {| ti_running := ti_running t; ti_period := ti_period t; ti_worker := Some w; ti_clock := now; ti_begin := ti_begin
     t; ti_ticks := ti_ticks t |}.
Definition ti_begins (w : TimerWorker) (now : Z) (t : Timer) : Timer :=
  {| ti_running := ti_running t; ti_period := ti_period t; ti_worker := Some w; ti_clock := now; ti_begin := now;
     ti_ticks := ti_ticks t |}.
Definition ti_joined (t : Timer) : Timer :=
  {| ti_running := ti_running t; ti_period := ti_period t; ti_worker := None; ti_clock := ti_clock t; ti_begin :=
     ti_begin t; ti_ticks := ti_ticks t |}.
Definition ti_set_ticks (l : list TimerTick) (t : Timer) : Timer :=
  {| ti_running := ti_running t; ti_period := ti_period t; ti_worker := ti_worker t; ti_clock := ti_clock t; ti_begin
     := ti_begin t; ti_ticks := l |}.
Definition new_timer (clock : Z) : Timer := {| ti_running := false; ti_period := 0; ti_worker := None; ti_clock := clock; ti_begin := clock; ti_ticks := [] |}.

(** [callback]: there is one; [spawn]: 0, or the error of the thread. *)
Definition CreateTimer (period : option Z) (callback : bool) (spawn : Z) (t : Timer) : Z * Timer :=
  match period with
  | None => (- EINVAL, t)
  | Some p =>
      if negb callback || (p <? 1) then (- EINVAL, t)
      else match ti_worker t with
      | Some _ => (- EBUSY, t)
      | None => if spawn =? 0 then (0, ti_created p t) else (spawn, ti_not_started p t)
      end
  end.
(** The next round of the loop of [Run]. *)
Definition next_round (next now : Z) (t : Timer) : Timer := ti_at (if ti_running t then WorkerWaits next else WorkerEnded) now t.
Definition return_last (now : Z) (l : list TimerTick) : list TimerTick :=
  match last l with Some k => removelast l ++ [{| tk_due := tk_due k; tk_start := tk_start k; tk_return := Some now |}] | None => l end.
(** The end of a callback; [threw]: it threw. *)
Definition callback_done (threw : bool) (next now : Z) (t : Timer) : Timer :=
  let t := ti_set_ticks (return_last now (ti_ticks t)) t in
  if threw then ti_at WorkerEnded now (ti_stop t)
  else
    let next := next + ti_period t in
    next_round (if next <=? now then now + ti_period t else next) now t.
Inductive TimerEvent :=
| TeCreate (period : option Z) (callback : bool) (spawn : Z)
| TeBegin (now : Z)              (** the worker enters the loop *)
| TeWake (now : Z)               (** the wait wakes up: at [next_tick], or notified, or spuriously *)
| TeCall (now : Z)               (** the callback is called *)
| TeReturn (threw : bool) (now : Z)
| TeStop                         (** [Stop] up to the join, or from the callback *)
| TeJoin.                        (** the join of an external [Stop] *)
Definition timer_exec (e : TimerEvent) (t : Timer) : option Timer :=
  match e, ti_worker t with
  | TeCreate period callback spawn, _ => Some (snd (CreateTimer period callback spawn t))
  | TeStop, _ => Some (ti_stop t)
  | TeJoin, Some WorkerEnded => Some (ti_joined t)
  | TeBegin now, Some WorkerStarts =>
      if now <? ti_clock t then None else Some (ti_begins (if ti_running t then WorkerWaits (now + ti_period t) else WorkerEnded) now t)
  | TeWake now, Some (WorkerWaits next) =>
      if now <? ti_clock t then None
      else if negb (ti_running t) then Some (ti_at WorkerEnded now t)
      else if now <? next then Some (ti_at (WorkerWaits next) now t)
      else Some (ti_at (WorkerWoken next) now t)
  | TeCall now, Some (WorkerWoken next) =>
      if now <? ti_clock t then None
      else Some (ti_at (WorkerCalls next) now (ti_set_ticks (ti_ticks t ++ [{| tk_due := next; tk_start := now; tk_return := None |}]) t))
  | TeReturn threw now, Some (WorkerCalls next) => if now <? ti_clock t then None else Some (callback_done threw next now t)
  | _, _ => None
  end.
Definition timer_run : list TimerEvent -> Timer -> option Timer := machine_run timer_exec.

(** ** The schedule *)
(** When the callback after [k] is due. *)
Definition due_after (period : Z) (k : TimerTick) : Z :=
  match tk_return k with Some now => if tk_due k + period <=? now then now + period else tk_due k + period | None => tk_due k + period end.
(** Callbacks one after the other, the first due at [due]; only the last may not have returned. *)
Fixpoint scheduled (period due : Z) (l : list TimerTick) : Prop :=
  match l with
  | [] => True
  | k :: rest => tk_due k = due /\ due <= tk_start k /\ (match tk_return k with Some now => tk_start k <= now | None => rest = [] end) /\ scheduled period (due_after period k) rest
  end.
Definition next_due (period due : Z) (l : list TimerTick) : Z := match last l with Some k => due_after period k | None => due end.
Definition returned (k : TimerTick) : Prop := is_Some (tk_return k).
Lemma next_due_cons period due k l : next_due period due (k :: l) = next_due period (due_after period k) l.
Proof. unfold next_due. rewrite last_cons. by destruct (last l). Qed.
Lemma scheduled_snoc period k l : forall due, scheduled period due l -> Forall returned l -> tk_due k = next_due period due l -> tk_due k <= tk_start k ->
  (forall now, tk_return k = Some now -> tk_start k <= now) -> scheduled period due (l ++ [k]).
Proof.
  induction l as [|a l IH]; intros due Hs Hr Hd Hk Hn; cbn in *.
  - unfold next_due in Hd. cbn in Hd. split_and!; [done|lia| |done]. destruct (tk_return k) as [now|]; auto.
  - destruct Hs as (H1 & H2 & H3 & H4). apply Forall_cons in Hr as [[now Ha] Hr]. rewrite Ha in *. split_and!; auto. apply IH; auto. by rewrite next_due_cons in Hd.
Qed.
(** The first [k] periods. *)
Lemma scheduled_late period l : 1 <= period -> forall due i k, scheduled period due l -> l !! i = Some k -> due + Z.of_nat i * period <= tk_due k <= tk_start k.
Proof.
  intros Hp. induction l as [|a l IH]; intros due i k Hs Hk; [done|]. destruct Hs as (H1 & H2 & H3 & H4). destruct i as [|i]; [injection Hk as <-; lia|].
  specialize (IH _ i k H4 Hk). unfold due_after in IH. destruct (tk_return a) as [now|]; [|lia]. destruct (Z.leb_spec (tk_due a + period) now); lia.
Qed.
(** A callback is late for the next one when it returns at or after its time. *)
Definition overran (period : Z) (k : TimerTick) : Prop := exists now, tk_return k = Some now /\ tk_due k + period <= now.
Lemma scheduled_exact period l : forall due i k, scheduled period due l -> (forall j a, (j < i)%nat -> l !! j = Some a -> ~ overran period a) -> l !! i = Some k ->
  tk_due k = due + Z.of_nat i * period.
Proof.
  induction l as [|a l IH]; intros due i k Hs Ho Hk; [done|]. destruct Hs as (H1 & H2 & H3 & H4). destruct i as [|i]; [injection Hk as <-; lia|].
  assert (Hd : due_after period a = due + period).
  { unfold due_after. destruct (tk_return a) as [now|] eqn:E; [|lia]. destruct (Z.leb_spec (tk_due a + period) now); [|lia]. exfalso. apply (Ho 0%nat a); [lia|done|]. by exists now. }
  rewrite (IH _ i k H4); [lia| |done]. intros j b Hj Hb. apply (Ho (S j) b); [lia|done].
Qed.
Lemma scheduled_apart period l : 1 <= period -> forall due i a b, scheduled period due l -> l !! i = Some a -> l !! S i = Some b ->
  exists now, tk_return a = Some now /\ tk_start a <= now < tk_due b.
Proof.
  intros Hp. induction l as [|x l IH]; intros due i a b Hs Ha Hb; [done|]. destruct Hs as (H1 & H2 & H3 & H4). destruct i as [|i].
  - injection Ha as <-. cbn in Hb. destruct l as [|y l]; [done|]. injection Hb as <-. destruct H4 as (E & _). destruct (tk_return x) as [now|] eqn:Er; [|done].
    exists now. split; [done|]. rewrite E. unfold due_after. rewrite Er. destruct (Z.leb_spec (tk_due x + period) now); lia.
  - by apply (IH _ i a b H4).
Qed.

(** ** Runs *)
Record calling (t : Timer) (next : Z) : Prop := {
  cg_ticks : exists l k, ti_ticks t = l ++ [k] /\ scheduled (ti_period t) (ti_begin t + ti_period t) l /\ Forall returned l /\ tk_due k = next_due (ti_period t) (ti_begin t + ti_period t) l /\
    tk_due k = next /\ next <= tk_start k <= ti_clock t /\ tk_return k = None
}.
Definition timer_ok (t : Timer) : Prop :=
  match ti_worker t with
  | None => True
  | Some w => 1 <= ti_period t /\
      match w with
      | WorkerStarts => ti_ticks t = []
      | WorkerWaits next => scheduled (ti_period t) (ti_begin t + ti_period t) (ti_ticks t) /\ Forall returned (ti_ticks t) /\ next = next_due (ti_period t) (ti_begin t + ti_period t) (ti_ticks t)
      | WorkerWoken next => scheduled (ti_period t) (ti_begin t + ti_period t) (ti_ticks t) /\ Forall returned (ti_ticks t) /\
          next = next_due (ti_period t) (ti_begin t + ti_period t) (ti_ticks t) /\ next <= ti_clock t
      | WorkerCalls next => calling t next
      | WorkerEnded => scheduled (ti_period t) (ti_begin t + ti_period t) (ti_ticks t)
      end
  end.
Lemma calling_returns t next now : calling t next -> ti_clock t <= now ->
  let l := return_last now (ti_ticks t) in
  scheduled (ti_period t) (ti_begin t + ti_period t) l /\ Forall returned l /\
  (if next + ti_period t <=? now then now + ti_period t else next + ti_period t) = next_due (ti_period t) (ti_begin t + ti_period t) l.
Proof.
  intros [(l & k & E & Hs & Hr & Hd & Hn & Ht & Hk)] Hc. cbn zeta. unfold return_last. rewrite E, last_snoc, removelast_last.
  set (k' := {| tk_due := tk_due k; tk_start := tk_start k; tk_return := Some now |}). split_and!.
  - apply scheduled_snoc; auto; cbn; [lia|]. intros x Hx. injection Hx as <-. lia.
  - apply Forall_app. split; [done|]. apply Forall_singleton. by exists now.
  - unfold next_due. rewrite last_snoc. cbn. by rewrite Hn.
Qed.
Lemma timer_step_ok e t t' : timer_ok t -> timer_exec e t = Some t' -> timer_ok t'.
Proof.
  intros H He. unfold timer_exec in He. destruct e as [period callback spawn|now|now|now|threw now| |].
  - injection He as <-. unfold CreateTimer. destruct period as [p|]; [|done]. destruct (negb callback || (p <? 1)) eqn:Ep; [done|]. bool_to_prop.
    destruct (ti_worker t) eqn:Ew; [done|]. destruct (_ =? _); unfold timer_ok; cbn; [|by rewrite Ew]. split; [lia|done].
  - destruct (ti_worker t) as [[| | | |]|] eqn:Ew; try done. unfold timer_ok in H. rewrite Ew in H. destruct H as [Hp Ht]. destruct (_ <? _); [done|]. injection He as <-.
    unfold timer_ok. cbn. split; [done|]. rewrite Ht. by destruct (ti_running t).
  - destruct (ti_worker t) as [[| | | |]|] eqn:Ew; try done. unfold timer_ok in H. rewrite Ew in H. destruct H as (Hp & Hs & Hr & Hn). destruct (Z.ltb_spec now (ti_clock t)); [done|].
    destruct (negb _); [injection He as <-; by unfold timer_ok|]. destruct (Z.ltb_spec now next_tick); injection He as <-; unfold timer_ok; cbn; (split; [done|]); [done|by split_and!].
  - destruct (ti_worker t) as [[| | | |]|] eqn:Ew; try done. unfold timer_ok in H. rewrite Ew in H. destruct H as (Hp & Hs & Hr & Hn & Hx). destruct (Z.ltb_spec now (ti_clock t)); [done|].
    injection He as <-. unfold timer_ok; cbn. split; [done|]. split. cbn. eexists (ti_ticks t), _. split_and!; [done|done|done|done|done|cbn; lia|cbn; lia|done].
  - destruct (ti_worker t) as [[| | | |]|] eqn:Ew; try done. unfold timer_ok in H. rewrite Ew in H. destruct H as (Hp & Hc). destruct (Z.ltb_spec now (ti_clock t)); [done|].
    injection He as <-. destruct (calling_returns t next_tick now Hc) as (Hs & Hr & Hn); [lia|]. unfold callback_done. destruct threw; [by unfold timer_ok|].
    unfold timer_ok, next_round. cbn. split; [done|]. destruct (ti_running t); [|done]. done.
  - injection He as <-. unfold timer_ok in *. cbn. destruct (ti_worker t) as [[| | | |]|]; try done. destruct H as [Hp [Hc]]. by split.
  - destruct (ti_worker t) as [[| | | |]|] eqn:Ew; try done. by injection He as <-.
Qed.
Lemma timer_run_ok clock es t : timer_run es (new_timer clock) = Some t -> timer_ok t.
Proof.
  intros H. apply machine_run_rtc in H. apply (machine_invariant timer_exec timer_ok (new_timer clock) t); [|done|exact H]. intros e s s'. apply timer_step_ok.
Qed.
Lemma timer_ok_scheduled t : timer_ok t -> is_Some (ti_worker t) -> 1 <= ti_period t /\ scheduled (ti_period t) (ti_begin t + ti_period t) (ti_ticks t).
Proof.
  unfold timer_ok. intros H [w Hw]. rewrite Hw in H. destruct H as [Hp H]. split; [done|]. destruct w; [by rewrite H|by destruct H|by destruct H| |done].
  destruct H as [(l & k & E & Hs & Hr & Hd & Hn & Ht & Hk)]. rewrite E. apply scheduled_snoc; auto; [lia|]. by rewrite Hk.
Qed.
(** *** After [Stop] *)
Definition creates (e : TimerEvent) : bool := match e with TeCreate _ _ _ => true | _ => false end.
Lemma return_last_starts now l : tk_start <$> return_last now l = tk_start <$> l.
Proof. unfold return_last. destruct (last l) as [k|] eqn:E; [|done]. apply last_Some in E as [l' ->]. rewrite removelast_last, !fmap_app. done. Qed.
(** [Stop], or a callback that throws. *)
Definition stops (e : TimerEvent) : bool := match e with TeStop | TeReturn true _ => true | _ => false end.
(** The callback that the worker has left its wait for. *)
Definition woken (t : Timer) : bool := match ti_worker t with Some (WorkerWoken _) => true | _ => false end.
Definition starts (t : Timer) : list Z := tk_start <$> ti_ticks t.
Lemma stopped_step e t t' : ti_running t = false -> creates e = false -> timer_exec e t = Some t' -> ti_running t' = false /\
  ((starts t' = starts t /\ (woken t' = true -> woken t = true)) \/ (woken t = true /\ woken t' = false /\ exists now, starts t' = starts t ++ [now])).
Proof.
  intros Hr Hc He. unfold timer_exec, woken, starts in *. destruct e as [period callback spawn|now|now|now|threw now| |]; [done|..].
  - destruct (ti_worker t) as [[| | | |]|]; try done. destruct (_ <? _); [done|]. injection He as <-. cbn. rewrite Hr. auto.
  - destruct (ti_worker t) as [[| | | |]|]; try done. destruct (_ <? _); [done|]. rewrite Hr in He. injection He as <-. cbn. auto.
  - destruct (ti_worker t) as [[| | | |]|]; try done. destruct (_ <? _); [done|]. injection He as <-. cbn. split; [done|]. right. split_and!; auto. exists now. by rewrite fmap_app.
  - destruct (ti_worker t) as [[| | | |]|]; try done. destruct (_ <? _); [done|]. injection He as <-. unfold callback_done, next_round. destruct threw; cbn; rewrite return_last_starts, ?Hr; auto.
  - injection He as <-. cbn. auto.
  - destruct (ti_worker t) as [[| | | |]|]; try done. injection He as <-. cbn. auto.
Qed.
Lemma stopped_run es : forall t t', ti_running t = false -> Forall (fun e => creates e = false) es -> timer_run es t = Some t' ->
  starts t' = starts t \/ (woken t = true /\ exists now, starts t' = starts t ++ [now]).
Proof.
  induction es as [|e es IH]; intros t t' Hr Hc H; [injection H as ->; by left|]. unfold timer_run in H. cbn in H. destruct (timer_exec e t) as [t1|] eqn:He; [|done].
  apply Forall_cons in Hc as [Hc1 Hc2]. destruct (stopped_step e t t1 Hr Hc1 He) as [Hr1 Hs]. destruct (IH t1 t' Hr1 Hc2 H) as [->|[Hw (now & ->)]].
  - destruct Hs as [[-> _]|(Hw & _ & now & ->)]; [by left|right; eauto].
  - destruct Hs as [[-> Hx]|(_ & Hx & _)]; [right; eauto|congruence].
Qed.
Lemma stop_stops e t t1 : stops e = true -> timer_exec e t = Some t1 -> ti_running t1 = false /\ starts t1 = starts t /\ (woken t1 = true -> e = TeStop /\ woken t = true).
Proof.
  intros Hs He. destruct e as [| | | |[] now| |]; try done; unfold timer_exec, woken, starts in *.
  - destruct (ti_worker t) as [[| | | |]|]; try done. destruct (_ <? _); [done|]. injection He as <-. cbn. split_and!; [done|apply return_last_starts|done].
  - injection He as <-. cbn. auto.
Qed.
(** A worker that was joined runs no more. *)
Lemma joined_run es : forall t t', ti_worker t = None -> Forall (fun e => creates e = false) es -> timer_run es t = Some t' -> ti_ticks t' = ti_ticks t.
Proof.
  induction es as [|e es IH]; intros t t' Hw Hc H; [by injection H as ->|]. unfold timer_run in H. cbn in H. destruct (timer_exec e t) as [t1|] eqn:He; [|done]. apply Forall_cons in Hc as [Hc1 Hc2].
  assert (H1 : ti_worker t1 = None /\ ti_ticks t1 = ti_ticks t) by (unfold timer_exec in He; rewrite Hw in He; destruct e; try done; by injection He as <-).
  destruct H1 as [Hw1 <-]. by apply (IH t1).
Qed.
(** C39: A timer keeps its schedule.  The callbacks of a worker run one after the other; number [i],
    from 0, is due at least [i + 1] periods after the worker began and starts no earlier than
    it is due, so there are never more callbacks than periods; as long as no callback overruns
    its period it is due at exactly that time, without drift; the callback after one that
    overran is due after it returned, so missed ones are not made up for.  After [Stop] was
    called, or a callback threw, no callback starts any more until the next [Create]; only one
    for which the worker had left its wait and released the lock before [Stop] took it may
    still start.  Once the worker is joined, as an external [Stop] does before it returns, none
    starts. *)
Theorem timer_schedule clock es t : timer_run es (new_timer clock) = Some t -> is_Some (ti_worker t) ->
  (forall i k, ti_ticks t !! i = Some k ->
     ti_begin t + (Z.of_nat i + 1) * ti_period t <= tk_due k <= tk_start k /\
     ((forall j a, (j < i)%nat -> ti_ticks t !! j = Some a -> ~ overran (ti_period t) a) -> tk_due k = ti_begin t + (Z.of_nat i + 1) * ti_period t)) /\
  (forall i a b, ti_ticks t !! i = Some a -> ti_ticks t !! S i = Some b -> exists now, tk_return a = Some now /\ tk_start a <= now < tk_due b) /\
  (forall e es' t', stops e = true -> Forall (fun e => creates e = false) es' -> timer_run (e :: es') t = Some t' ->
     starts t' = starts t \/ (e = TeStop /\ woken t = true /\ exists now, starts t' = starts t ++ [now])) /\
  (forall es' t', Forall (fun e => creates e = false) es' -> timer_run (TeJoin :: es') t = Some t' -> starts t' = starts t).
Proof.
  intros H Hw. destruct (timer_ok_scheduled t (timer_run_ok clock es t H) Hw) as [Hp Hs]. split_and!.
  - intros i k Hk. split; [pose proof (scheduled_late _ _ Hp _ i k Hs Hk); lia|]. intros Ho. rewrite (scheduled_exact _ _ _ i k Hs Ho Hk). lia.
  - intros i a b. by apply (scheduled_apart _ _ Hp _ i a b Hs).
  - intros e es' t' He Hc Hr. unfold timer_run in Hr. cbn in Hr. destruct (timer_exec e t) as [t1|] eqn:E; [|done]. destruct (stop_stops e t t1 He E) as (H1 & H2 & H3). rewrite <- H2.
    destruct (stopped_run es' t1 t' H1 Hc Hr) as [?|[Hx ?]]; [by left|right]. destruct (H3 Hx). auto.
  - intros es' t' Hc Hr. unfold timer_run in Hr. cbn in Hr. destruct (ti_worker t) as [[| | | |]|]; try done.
    unfold starts. by rewrite (joined_run es' (ti_joined t) t' eq_refl Hc Hr).
Qed.
(** Period 10, the second of three callbacks overruns; [Stop] comes between the end of the third wait and its callback. *)
Definition busy_timer : list TimerEvent :=
  [TeCreate (Some 10) true 0; TeBegin 100; TeWake 105; TeWake 110; TeCall 110; TeReturn false 112; TeWake 121; TeCall 121; TeReturn false 145; TeWake 155; TeStop; TeCall 156; TeReturn false 157; TeJoin].
(** What the run leads to: the third callback has started, behind [Stop]. *)
Definition busy_end : Timer :=
  {| ti_running := false; ti_period := 10; ti_worker := Some (WorkerCalls 155); ti_clock := 156; ti_begin := 100;
     ti_ticks := [{| tk_due := 110; tk_start := 110; tk_return := Some 112 |}; {| tk_due := 120; tk_start := 121; tk_return := Some 145 |};
                  {| tk_due := 155; tk_start := 156; tk_return := None |}] |}.
Lemma timer_schedule_witness : timer_run (take 12 busy_timer) (new_timer 90) = Some busy_end /\ (tk_due <$> ti_ticks busy_end) = [110; 120; 155] /\ (exists now, tk_return {| tk_due := 120; tk_start := 121; tk_return := Some 145 |} = Some now /\ 121 <= now < 155).
Proof.
  assert (Hr : timer_run (take 12 busy_timer) (new_timer 90) = Some busy_end) by (vm_compute; reflexivity).
  split; [exact Hr|]. split; [reflexivity|].
  destruct (timer_schedule 90 (take 12 busy_timer) busy_end Hr) as (_ & H & _); [by eexists|]. exact (H 1%nat _ {| tk_due := 155; tk_start := 156; tk_return := None |} eq_refl eq_refl).
Defined.
