(* ===== verification/ActionServer.v ===== *)
(** * Action server

    [ActionServer<Goal, Feedback, Result>] of
    [kcf/include/kcf/action/action_server.hpp] with the types of
    [action_types.hpp] and [action_state.hpp].  Each critical section of
    [Core::mutex] is one step; the gaps between them (the goal and cancel
    callbacks, the copy and the [Publish] of [Flush]) are interleaving points.
    Thread 0 is the worker of the [ServiceServer], which runs the three service
    callbacks one at a time; the other threads are the application's. *)
From S2P Require Import Prelude.

Inductive ActionState := IDLE | ACCEPTED | RUNNING | SUCCEEDED | FAILED | CANCELED.
#[export] Instance action_state_eq_dec : EqDecision ActionState.
Proof. solve_decision. Defined.

Definition IsActionTerminal (s : ActionState) : bool :=
  match s with SUCCEEDED | FAILED | CANCELED => true | _ => false end.
Definition IsActionActive (s : ActionState) : bool := match s with ACCEPTED | RUNNING => true | _ => false end.

Record ActionHeader := {
  ah_goal_id : Z;
  ah_feedback_sequence : Z;
  ah_state : ActionState;
  ah_cancel_requested : bool
}.
Definition empty_header : ActionHeader :=
  {| ah_goal_id := 0; ah_feedback_sequence := 0; ah_state := IDLE; ah_cancel_requested := false |}.

(** [ActionEndpointIds::Valid] *)
Definition ValidIds (goal_service_id cancel_service_id result_service_id : Z) : bool :=
  negb (goal_service_id =? cancel_service_id) && negb (goal_service_id =? result_service_id) &&
  negb (cancel_service_id =? result_service_id).

Section Action.
Context {Goal Feedback Result : Type} (feedback0 : Feedback). (** [Feedback{}] *)

Record Core := {
  co_header : ActionHeader;
  co_goal : option Goal;
  co_feedback : Feedback;
  co_result : option Result;
  co_previous_id : Z;
  co_decision_id : Z;
  co_decision_code : Z;
  co_revision : Z;
  co_publishing : bool
}.

Definition new_core : Core :=
  {| co_header := empty_header; co_goal := None; co_feedback := feedback0; co_result := None; co_previous_id := 0;
     co_decision_id := 0; co_decision_code := 0; co_revision := 0; co_publishing := false |}.

Definition set_publishing (b : bool) (c : Core) : Core :=
  {| co_header := co_header c; co_goal := co_goal c; co_feedback := co_feedback c; co_result := co_result c;
     co_previous_id := co_previous_id c; co_decision_id := co_decision_id c; co_decision_code := co_decision_code c;
     co_revision := co_revision c; co_publishing := b |}.
(** A change of header, feedback and result that ends in [++revision]. *)
Definition mutate (h : ActionHeader) (f : Feedback) (r : option Result) (c : Core) : Core :=
  {| co_header := h; co_goal := co_goal c; co_feedback := f; co_result := r;
     co_previous_id := co_previous_id c; co_decision_id := co_decision_id c; co_decision_code := co_decision_code c;
     co_revision := u64 (co_revision c + 1); co_publishing := co_publishing c |}.

(** ** Critical sections *)
(** [GoalRequest], first section: [Some (code, accepted)] is an answer without
    calling the application. *)
Definition goal_check (id : Z) (c : Core) : option (Z * bool) :=
  if id =? 0 then Some (- EINVAL, false)
  else if (id =? ah_goal_id (co_header c)) || (id =? co_previous_id c) then Some (0, true)
  else if id =? co_decision_id c then Some (co_decision_code c, co_decision_code c =? 0)
  else if IsActionActive (ah_state (co_header c)) then Some (- EBUSY, false)
  else None.

(** [GoalRequest], second section, with the callback's code. *)
Definition goal_decide (id : Z) (goal : Goal) (code : Z) (c : Core) : Core :=
  if negb (code =? 0) then
    {| co_header := co_header c; co_goal := co_goal c; co_feedback := co_feedback c; co_result := co_result c;
       co_previous_id := co_previous_id c; co_decision_id := id; co_decision_code := code;
       co_revision := co_revision c; co_publishing := co_publishing c |}
  else
    {| co_header := {| ah_goal_id := id; ah_feedback_sequence := 0; ah_state := ACCEPTED; ah_cancel_requested := false |};
       co_goal := Some goal; co_feedback := feedback0; co_result := None;
       co_previous_id := ah_goal_id (co_header c); co_decision_id := id; co_decision_code := code;
       co_revision := u64 (co_revision c + 1); co_publishing := co_publishing c |}.

(** [CancelRequest]: an answer, or the marked state. *)
Definition cancel_mark (id : Z) (c : Core) : (Z * bool) + Core :=
  let h := co_header c in
  if (id =? 0) || negb (id =? ah_goal_id h) then inl (- ENOENT, false)
  else if ah_cancel_requested h then inl (0, true)
  else if negb (IsActionActive (ah_state h)) then inl (- EINVAL, false)
  else inr (mutate {| ah_goal_id := ah_goal_id h; ah_feedback_sequence := ah_feedback_sequence h; ah_state := ah_state h;
                      ah_cancel_requested := true |} (co_feedback c) (co_result c) c).

(** [GetResult]: code, state and result. *)
Definition get_result (id : Z) (c : Core) : Z * ActionState * option Result :=
  if (id =? 0) || negb (id =? ah_goal_id (co_header c)) then (- ENOENT, IDLE, None)
  else match co_result c with
       | None => (- EINPROGRESS, ah_state (co_header c), None)
       | Some r => (0, ah_state (co_header c), Some r)
       end.

Definition start (id : Z) (c : Core) : result Core :=
  let h := co_header c in
  if (id =? 0) || negb (id =? ah_goal_id h) then Err (- ENOENT)
  else if negb (bool_decide (ah_state h = ACCEPTED)) || ah_cancel_requested h then Err (- EINVAL)
  else Ok (mutate {| ah_goal_id := ah_goal_id h; ah_feedback_sequence := ah_feedback_sequence h; ah_state := RUNNING;
                     ah_cancel_requested := ah_cancel_requested h |} (co_feedback c) (co_result c) c).

Definition publish_feedback (id : Z) (f : Feedback) (c : Core) : result Core :=
  let h := co_header c in
  if (id =? 0) || negb (id =? ah_goal_id h) then Err (- ENOENT)
  else if negb (bool_decide (ah_state h = RUNNING)) then Err (- EINVAL)
  else if ah_feedback_sequence h =? UINT64_MAX then Err (- EOVERFLOW)
  else Ok (mutate {| ah_goal_id := ah_goal_id h; ah_feedback_sequence := ah_feedback_sequence h + 1; ah_state := ah_state h;
                     ah_cancel_requested := ah_cancel_requested h |} f (co_result c) c).

(** [Finish], called by [Succeed], [Fail] and [Canceled]. *)
Definition finish (id : Z) (value : Result) (terminal : ActionState) (c : Core) : result Core :=
  let h := co_header c in
  if (id =? 0) || negb (id =? ah_goal_id h) then Err (- ENOENT)
  else if bool_decide (terminal = CANCELED) && (negb (ah_cancel_requested h) || negb (IsActionActive (ah_state h)))
  then Err (- EINVAL)
  else if negb (bool_decide (terminal = CANCELED)) && negb (bool_decide (ah_state h = RUNNING)) then Err (- EINVAL)
  else Ok (mutate {| ah_goal_id := ah_goal_id h; ah_feedback_sequence := ah_feedback_sequence h; ah_state := terminal;
                     ah_cancel_requested := ah_cancel_requested h |} (co_feedback c) (Some value) c).

Definition IsCancelRequested (id : Z) (c : Core) : bool :=
  negb (id =? 0) && (id =? ah_goal_id (co_header c)) && ah_cancel_requested (co_header c).

(** ** Threads *)
(** What a call returned: a service response or a plain code. *)
Inductive Reply :=
| ReplyGoal (id code : Z) (accepted : bool)
| ReplyCancel (id code : Z) (accepted : bool)
| ReplyResult (id code : Z) (state : ActionState) (value : option Result)
| ReplyCode (code : Z).

Inductive ThreadPc :=
| TIdle
| TGoal (id : Z) (goal : Goal)       (** in [on_goal] *)
| TCancel (id : Z)                   (** in [on_cancel] *)
| TFlush (reply : option Reply)      (** at the lock of [Flush]; [None]: the call returns Flush's code *)
| TPublish (reply : option Reply) (observed : Z) (snapshot : ActionHeader * Feedback)
| TCheck (reply : option Reply) (observed error : Z).

Record Thread := { th_pc : ThreadPc; th_replies : list Reply }.
Definition th_at (pc : ThreadPc) (t : Thread) : Thread := {| th_pc := pc; th_replies := th_replies t |}.
Definition th_return (r : Reply) (t : Thread) : Thread := {| th_pc := TIdle; th_replies := th_replies t ++ [r] |}.

Record ActionSystem := {
  ac_core : Core;
  ac_open : bool;                                   (** [core_ != nullptr] *)
  ac_threads : list Thread;
  ac_published : list (ActionHeader * Feedback);    (** statuses published, oldest first *)
  ac_mutations : Z;                                 (** number of [++revision] so far *)
  ac_failed : bool                                  (** the last [Publish] returned an error *)
}.

Definition with_core (c : Core) (n : nat) (t : Thread) (s : ActionSystem) : ActionSystem :=
  {| ac_core := c; ac_open := ac_open s; ac_threads := <[n := t]> (ac_threads s); ac_published := ac_published s;
     ac_mutations := ac_mutations s; ac_failed := ac_failed s |}.
Definition with_mutation (c : Core) (n : nat) (t : Thread) (s : ActionSystem) : ActionSystem :=
  {| ac_core := c; ac_open := ac_open s; ac_threads := <[n := t]> (ac_threads s); ac_published := ac_published s;
     ac_mutations := ac_mutations s + 1; ac_failed := ac_failed s |}.
Definition with_publish (n : nat) (t : Thread) (error : Z) (x : ActionHeader * Feedback) (s : ActionSystem) : ActionSystem :=
  {| ac_core := ac_core s; ac_open := ac_open s; ac_threads := <[n := t]> (ac_threads s);
     ac_published := if error =? 0 then ac_published s ++ [x] else ac_published s;
     ac_mutations := ac_mutations s; ac_failed := negb (error =? 0) |}.

Inductive AppCall :=
| CallStart (id : Z)
| CallFeedback (id : Z) (f : Feedback)
| CallFinish (id : Z) (value : Result) (terminal : ActionState).

Definition app_section (a : AppCall) (c : Core) : result Core :=
  match a with
  | CallStart id => start id c
  | CallFeedback id f => publish_feedback id f c
  | CallFinish id value terminal => finish id value terminal c
  end.

Inductive ActionEvent :=
| EvGoalRequest (id : Z) (goal : Goal)
| EvGoalDecision (code : Z)         (** [on_goal] returned [code], or threw ([-EFAULT]) *)
| EvCancelRequest (id : Z)
| EvCancelDone (threw : bool)
| EvGetResult (id : Z)
| EvCall (n : nat) (a : AppCall)
| EvFlush (n : nat) (error : Z)     (** a step of [Flush]; [error] is what [Publish] returns *)
| EvClose.

Definition snapshot (c : Core) : ActionHeader * Feedback := (co_header c, co_feedback c).
Definition flush_reply (reply : option Reply) (error : Z) : Reply :=
  match reply with Some r => r | None => ReplyCode error end.

(** A step of [Flush] of thread [n]. *)
Definition flush_step (n : nat) (t : Thread) (error : Z) (s : ActionSystem) : option ActionSystem :=
  let c := ac_core s in
  match th_pc t with
  | TFlush reply =>
      if co_publishing c then Some (with_core c n (th_return (flush_reply reply 0) t) s)
      else Some (with_core (set_publishing true c) n (th_at (TPublish reply (co_revision c) (snapshot c)) t) s)
  | TPublish reply observed x => Some (with_publish n (th_at (TCheck reply observed error) t) error x s)
  | TCheck reply observed error =>
      if negb (error =? 0) || (observed =? co_revision c)
      then Some (with_core (set_publishing false c) n (th_return (flush_reply reply error) t) s)
      else Some (with_core c n (th_at (TPublish reply (co_revision c) (snapshot c)) t) s)
  | _ => None
  end.

Definition is_idle (t : Thread) : bool := match th_pc t with TIdle => true | _ => false end.

(** Only the terminal states reach [Finish]. *)
Definition valid_call (a : AppCall) : bool :=
  match a with CallFinish _ _ terminal => IsActionTerminal terminal | _ => true end.

Definition action_exec (e : ActionEvent) (s : ActionSystem) : option ActionSystem :=
  let c := ac_core s in
  match e with
  | EvGoalRequest id goal =>
      match ac_threads s !! 0%nat with
      | Some t =>
          if negb (is_idle t) then None
          else if negb (ac_open s) then Some (with_core c 0 (th_return (ReplyGoal id (- ESHUTDOWN) false) t) s)
          else match goal_check id c with
               | Some (code, accepted) => Some (with_core c 0 (th_return (ReplyGoal id code accepted) t) s)
               | None => Some (with_core c 0 (th_at (TGoal id goal) t) s)
               end
      | None => None
      end
  | EvGoalDecision code =>
      match ac_threads s !! 0%nat with
      | Some t =>
          match th_pc t with
          | TGoal id goal =>
              let c' := goal_decide id goal code c in
              if negb (code =? 0) then Some (with_core c' 0 (th_return (ReplyGoal id code false) t) s)
              else Some (with_mutation c' 0 (th_at (TFlush (Some (ReplyGoal id code true))) t) s)
          | _ => None
          end
      | None => None
      end
  | EvCancelRequest id =>
      match ac_threads s !! 0%nat with
      | Some t =>
          if negb (is_idle t) then None
          else if negb (ac_open s) then Some (with_core c 0 (th_return (ReplyCancel id (- ESHUTDOWN) false) t) s)
          else match cancel_mark id c with
               | inl (code, accepted) => Some (with_core c 0 (th_return (ReplyCancel id code accepted) t) s)
               | inr c' => Some (with_mutation c' 0 (th_at (TCancel id) t) s)
               end
      | None => None
      end
  | EvCancelDone threw =>
      match ac_threads s !! 0%nat with
      | Some t =>
          match th_pc t with
          | TCancel id =>
              Some (with_core c 0 (th_at (TFlush (Some (ReplyCancel id (if threw : bool then - EFAULT else 0) true))) t) s)
          | _ => None
          end
      | None => None
      end
  | EvGetResult id =>
      match ac_threads s !! 0%nat with
      | Some t =>
          if negb (is_idle t) then None
          else if negb (ac_open s) then Some (with_core c 0 (th_return (ReplyResult id (- ESHUTDOWN) IDLE None) t) s)
          else let '(code, state, value) := get_result id c in
               Some (with_core c 0 (th_return (ReplyResult id code state value) t) s)
      | None => None
      end
  | EvCall n a =>
      match ac_threads s !! n with
      | Some t =>
          if negb (is_idle t) || negb (valid_call a) then None
          else if negb (ac_open s) then Some (with_core c n (th_return (ReplyCode (- EBADF)) t) s)
          else match app_section a c with
               | Err code => Some (with_core c n (th_return (ReplyCode code) t) s)
               | Ok c' => Some (with_mutation c' n (th_at (TFlush None) t) s)
               end
      | None => None
      end
  | EvFlush n error =>
      match ac_threads s !! n with Some t => flush_step n t error s | None => None end
  | EvClose => (** "Stop ServiceServer and application Loop/Timer before Close" *)
      if forallb is_idle (ac_threads s) then
        Some {| ac_core := c; ac_open := false; ac_threads := ac_threads s; ac_published := ac_published s;
                ac_mutations := ac_mutations s; ac_failed := ac_failed s |}
      else None
  end.

Definition action_step : relation ActionSystem := machine_step action_exec.
Definition action_run : list ActionEvent -> ActionSystem -> option ActionSystem := machine_run action_exec.

(** The state [Create] leaves: its own [Flush] published the idle status. *)
Definition action_initial (threads : nat) : ActionSystem :=
  {| ac_core := new_core; ac_open := true; ac_threads := repeat {| th_pc := TIdle; th_replies := [] |} (S threads);
     ac_published := [snapshot new_core]; ac_mutations := 0; ac_failed := false |}.

Definition action_reachable (threads : nat) (s : ActionSystem) : Prop := rtc action_step (action_initial threads) s.
End Action.
