(* ===== verification/ActionSafety.v ===== *)
(** * Action server: lifecycle of goals and publication of their status

    The invariant of the system of [ActionServer] and its theorems: legal
    lifecycles, one publishing thread at a time (what the Topic channel requires
    of its owner), and no lost status updates. *)
From S2P Require Import Prelude ActionServer.

Section ActionProofs.
Context {Goal Feedback Result : Type} (feedback0 : Feedback).
Implicit Types (c : @Core Goal Feedback Result) (t : @Thread Goal Feedback Result) (s : @ActionSystem Goal Feedback Result).

(** ** Core invariant *)
Record core_ok c : Prop := {
  cok_idle : ah_goal_id (co_header c) = 0 <-> ah_state (co_header c) = IDLE;
  cok_result : is_Some (co_result c) <-> IsActionTerminal (ah_state (co_header c)) = true;
  cok_canceled : ah_state (co_header c) = CANCELED -> ah_cancel_requested (co_header c) = true;
  cok_cancel : ah_cancel_requested (co_header c) = true -> ah_state (co_header c) <> IDLE
}.

(** What the header of one goal may become. *)
Inductive header_step : ActionHeader -> ActionHeader -> Prop :=
| hs_start h : ah_state h = ACCEPTED -> ah_cancel_requested h = false ->
    header_step h {| ah_goal_id := ah_goal_id h; ah_feedback_sequence := ah_feedback_sequence h; ah_state := RUNNING;
                     ah_cancel_requested := false |}
| hs_feedback h : ah_state h = RUNNING -> ah_feedback_sequence h <> UINT64_MAX ->
    header_step h {| ah_goal_id := ah_goal_id h; ah_feedback_sequence := ah_feedback_sequence h + 1; ah_state := RUNNING;
                     ah_cancel_requested := ah_cancel_requested h |}
| hs_cancel h : IsActionActive (ah_state h) = true -> ah_cancel_requested h = false ->
    header_step h {| ah_goal_id := ah_goal_id h; ah_feedback_sequence := ah_feedback_sequence h; ah_state := ah_state h;
                     ah_cancel_requested := true |}
| hs_finish h (t : ActionState) : IsActionTerminal t = true ->
    (t = CANCELED /\ ah_cancel_requested h = true /\ IsActionActive (ah_state h) = true \/ t <> CANCELED /\ ah_state h = RUNNING) ->
    header_step h {| ah_goal_id := ah_goal_id h; ah_feedback_sequence := ah_feedback_sequence h; ah_state := t;
                     ah_cancel_requested := ah_cancel_requested h |}
| hs_accept h id : id <> 0 -> id <> ah_goal_id h -> IsActionActive (ah_state h) = false ->
    header_step h {| ah_goal_id := id; ah_feedback_sequence := 0; ah_state := ACCEPTED; ah_cancel_requested := false |}.

Lemma cancel_mark_spec id c c' :
  cancel_mark id c = inr c' ->
  header_step (co_header c) (co_header c') /\ ah_goal_id (co_header c') = ah_goal_id (co_header c) /\
  IsActionActive (ah_state (co_header c)) = true /\ (core_ok c -> core_ok c') /\
  co_revision c' = u64 (co_revision c + 1) /\ co_publishing c' = co_publishing c.
Proof.
  unfold cancel_mark. repeat case_check; try done. intros [= <-]. bool_to_prop. simpl. split_and!; auto.
  - by constructor.
  - intros [? ? ? ?]. constructor; simpl; auto. intros _ E. by rewrite E in *.
Qed.

Lemma app_section_spec a c c' :
  app_section a c = Ok c' -> valid_call a = true ->
  header_step (co_header c) (co_header c') /\ ah_goal_id (co_header c') = ah_goal_id (co_header c) /\
  IsActionActive (ah_state (co_header c)) = true /\ (core_ok c -> core_ok c') /\
  co_revision c' = u64 (co_revision c + 1) /\ co_publishing c' = co_publishing c.
Proof.
  destruct a as [id|id f|id value t]; simpl; unfold start, publish_feedback, finish; intros H Hv;
    repeat case_check; simplify_eq; bool_to_prop; simpl.
  - assert (ah_state (co_header c) = ACCEPTED) as Hs by done.
    match goal with H : ah_cancel_requested _ = false |- _ => rewrite H end. split_and!; auto; [by constructor|by rewrite Hs|].
    intros [Hi Hr ? ?]. rewrite Hs in *. constructor; simpl; auto; try done. naive_solver.
  - assert (ah_state (co_header c) = RUNNING) as Hs by done. rewrite Hs. split_and!; auto; [by constructor|].
    intros [Hi Hr ? ?]. rewrite Hs in *. constructor; simpl; auto.
  - split_and!; auto.
    + constructor; [done|]. destruct (decide (t = CANCELED)) as [->|Hne].
      * left. rewrite bool_decide_eq_true_2 in * by done. simpl in *. bool_to_prop. auto.
      * right. rewrite (bool_decide_eq_false_2 (t = CANCELED)) in * by done. simpl in *. bool_to_prop. auto.
    + destruct (decide (t = CANCELED)) as [->|Hne].
      * rewrite bool_decide_eq_true_2 in * by done. simpl in *. by bool_to_prop.
      * rewrite (bool_decide_eq_false_2 (t = CANCELED)) in * by done. simpl in *. bool_to_prop.
        by match goal with H : ah_state _ = RUNNING |- _ => rewrite H end.
    + intros [Hi Hr Hcc ?]. constructor; simpl; auto.
      * assert (ah_state (co_header c) <> IDLE) as Hn.
        { intros E. destruct (decide (t = CANCELED)) as [->|Hne].
          - rewrite bool_decide_eq_true_2 in * by done. simpl in *. bool_to_prop. by rewrite E in *.
          - rewrite (bool_decide_eq_false_2 (t = CANCELED)) in * by done. simpl in *. bool_to_prop. congruence. }
        split; [by intros ?%Hi|]. intros ->. done.
      * split; eauto.
      * intros ->. rewrite bool_decide_eq_true_2 in * by done. simpl in *. by bool_to_prop.
      * intros _ E. by rewrite E in *.
Qed.

(** ** System invariant *)
Definition in_publish (t : @Thread Goal Feedback Result) : bool :=
  match th_pc t with TPublish _ _ _ | TCheck _ _ _ => true | _ => false end.
(** The thread is going to publish, or to hand over to the one that does. *)
Definition in_flush (t : @Thread Goal Feedback Result) : bool :=
  match th_pc t with TIdle | TGoal _ _ => false | _ => true end.

Definition thread_ok (s : @ActionSystem Goal Feedback Result) (n : nat) (t : @Thread Goal Feedback Result) : Prop :=
  let c := ac_core s in
  match th_pc t with
  | TIdle | TFlush _ => True
  | TGoal id _ => n = 0%nat /\ goal_check id c = None
  | TCancel _ => n = 0%nat
  | TPublish _ observed x => 0 <= observed <= ac_mutations s /\ (observed = ac_mutations s -> x = snapshot c)
  | TCheck _ observed error =>
      0 <= observed <= ac_mutations s /\
      (if error =? 0 then observed = ac_mutations s -> last (ac_published s) = Some (snapshot c) else ac_failed s = true)
  end.

Record action_invariant (s : @ActionSystem Goal Feedback Result) : Prop := {
  iv_core : core_ok (ac_core s);
  iv_revision : co_revision (ac_core s) = ac_mutations s;
  iv_threads : forall n t, ac_threads s !! n = Some t -> thread_ok s n t;
  iv_single : forall n m t t', ac_threads s !! n = Some t -> ac_threads s !! m = Some t' ->
    in_publish t = true -> in_publish t' = true -> n = m;
  iv_publishing : co_publishing (ac_core s) = true <-> exists n t, ac_threads s !! n = Some t /\ in_publish t = true;
  iv_status : last (ac_published s) = Some (snapshot (ac_core s)) \/ ac_failed s = true \/
    exists n t, ac_threads s !! n = Some t /\ in_flush t = true
}.

Lemma lookup_insert_cases (l : list (@Thread Goal Feedback Result)) n m t t' x :
  l !! n = Some t -> <[n := t']> l !! m = Some x -> m = n /\ x = t' \/ m <> n /\ l !! m = Some x.
Proof.
  intros Hn. destruct (decide (m = n)) as [->|Hm].
  - rewrite list_lookup_insert_eq by (by eapply lookup_lt_Some). intros [= ->]. auto.
  - rewrite list_lookup_insert_ne by done. auto.
Qed.

(** A step of thread [n], given what it does to the other threads. *)
Lemma thread_step s s' n t t' :
  action_invariant s -> ac_threads s !! n = Some t -> ac_threads s' = <[n := t']> (ac_threads s) ->
  core_ok (ac_core s') -> co_revision (ac_core s') = ac_mutations s' ->
  (forall m x, m <> n -> ac_threads s !! m = Some x -> thread_ok s m x -> thread_ok s' m x) ->
  thread_ok s' n t' ->
  co_publishing (ac_core s') = (if in_publish t' then true else if in_publish t then false else co_publishing (ac_core s)) ->
  (in_publish t' = true -> in_publish t = true \/ co_publishing (ac_core s) = false) ->
  (last (ac_published s') = Some (snapshot (ac_core s')) \/ ac_failed s' = true \/ in_flush t' = true \/
   exists m x, m <> n /\ ac_threads s !! m = Some x /\ in_flush x = true) ->
  action_invariant s'.
Proof.
  intros [Hc Hr Ht Hs Hp Hst] Hn Hth Hc' Hr' Hframe Hok Hpub Hent Hstat.
  assert (forall m x, ac_threads s' !! m = Some x -> m = n /\ x = t' \/ m <> n /\ ac_threads s !! m = Some x) as Hcases.
  { intros m x. rewrite Hth. by eapply lookup_insert_cases. }
  assert (ac_threads s' !! n = Some t') as Hn' by (rewrite Hth; apply list_lookup_insert_eq; by eapply lookup_lt_Some).
  assert (forall m x, m <> n -> ac_threads s !! m = Some x -> ac_threads s' !! m = Some x) as Hother.
  { intros m x Hmn. by rewrite Hth, list_lookup_insert_ne. }
  assert (in_publish t' = true -> forall m x, m <> n -> ac_threads s !! m = Some x -> in_publish x = true -> False) as Halone.
  { intros Hi m x Hmn Hx Hix. destruct (Hent Hi) as [Hit|Hf]; [by apply Hmn, (Hs m n x t)|].
    assert (co_publishing (ac_core s) = true) by (apply Hp; eauto). congruence. }
  constructor; auto.
  - intros m x Hx. destruct (Hcases m x Hx) as [[-> ->]|[? ?]]; eauto.
  - intros m k x y Hx Hy Hix Hiy.
    destruct (Hcases m x Hx) as [[-> ->]|[? ?]], (Hcases k y Hy) as [[-> ->]|[? ?]]; eauto; exfalso; eauto.
  - rewrite Hpub. destruct (in_publish t') eqn:Hi; [split; eauto|]. split.
    + intros Hp'. destruct (in_publish t) eqn:Hit; [done|]. apply Hp in Hp' as (m & x & Hx & Hix).
      exists m, x. split; [|done]. apply Hother; [|done]. intros ->. congruence.
    + intros (m & x & Hx & Hix). destruct (Hcases m x Hx) as [[-> ->]|[Hmn Hx']]; [congruence|].
      destruct (in_publish t) eqn:Hit; [by destruct (Hmn (Hs m n x t Hx' Hn Hix Hit))|]. apply Hp. eauto.
  - destruct Hstat as [?|[?|[?|(m & x & ?&?&?)]]]; [by left|by right; left|right; right; by exists n, t'|].
    right; right. exists m, x. auto.
Qed.

(** Other threads after a step that leaves what they look at. *)
Lemma frame_same s s' m x :
  snapshot (ac_core s') = snapshot (ac_core s) -> (forall id, goal_check id (ac_core s') = goal_check id (ac_core s)) ->
  ac_mutations s' = ac_mutations s -> ac_published s' = ac_published s -> ac_failed s' = ac_failed s ->
  thread_ok s m x -> thread_ok s' m x.
Proof. intros H1 H2 H3 H4 H5. unfold thread_ok. rewrite H1, H3, H4, H5. destruct (th_pc x); auto. by rewrite H2. Qed.

(** Other threads after a mutation: what they have observed is out of date. *)
Lemma frame_mutation s s' m x :
  ac_mutations s' = ac_mutations s + 1 -> ac_published s' = ac_published s -> ac_failed s' = ac_failed s ->
  (m = 0%nat -> IsActionActive (ah_state (co_header (ac_core s))) = true) ->
  thread_ok s m x -> thread_ok s' m x.
Proof.
  intros H3 H4 H5 Hact. unfold thread_ok. rewrite H3, H4, H5. destruct (th_pc x); auto.
  - intros [-> Hg]. exfalso. specialize (Hact eq_refl). unfold goal_check in Hg. rewrite Hact in Hg. by repeat case_check.
  - intros [? _]. split; [lia|]. intros. lia.
  - intros [? Hif]. split; [lia|]. destruct (error =? 0); [|done]. intros. lia.
Qed.

Lemma core_ok_publishing b c : core_ok c -> core_ok (set_publishing b c).
Proof. intros []. by constructor. Qed.

Lemma goal_decide_ok id goal code c : core_ok c -> goal_check id c = None -> core_ok (goal_decide feedback0 id goal code c).
Proof.
  intros [] Hg. unfold goal_decide. case_check; constructor; simpl; auto; try done.
  - split; [|done]. intros ->. unfold goal_check in Hg. done.
Qed.

Lemma mutation_revision c s : action_invariant s -> co_revision c = u64 (co_revision (ac_core s) + 1) ->
  0 <= ac_mutations s -> ac_mutations s + 1 < 2 ^ 64 -> co_revision c = ac_mutations s + 1.
Proof. intros Hinv -> Hn Hb. rewrite (iv_revision _ Hinv). unfold u64. apply Z.mod_small. lia. Qed.

(** [Flush] *)
Lemma flush_preserves s n t error s' :
  action_invariant s -> 0 <= ac_mutations s -> ac_threads s !! n = Some t -> flush_step n t error s = Some s' -> action_invariant s'.
Proof.
  intros Hinv Hpos Hn. pose proof (iv_threads _ Hinv n t Hn) as Hok. unfold thread_ok in Hok. unfold flush_step.
  destruct (th_pc t) as [| | |reply|reply observed x|reply observed err] eqn:Hpc; try done; intros Hst.
  - assert (in_publish t = false) as Hit by (unfold in_publish; by rewrite Hpc). case_check; simplify_eq.
    + eapply (thread_step s _ n t); eauto; simpl; try done.
      * apply (iv_core _ Hinv).
      * apply (iv_revision _ Hinv).
      * by rewrite Hit.
      * assert (co_publishing (ac_core s) = true) as Hpb by done. apply (iv_publishing _ Hinv) in Hpb as (m & x & Hx & Hix).
        right; right; right. exists m, x. split_and!; auto; [intros ->; congruence|].
        revert Hix. unfold in_publish, in_flush. by destruct (th_pc x).
    + eapply (thread_step s _ n t); eauto; simpl; try done.
      * apply core_ok_publishing, (iv_core _ Hinv).
      * apply (iv_revision _ Hinv).
      * unfold thread_ok; simpl. rewrite (iv_revision _ Hinv). auto with lia.
  - simplify_eq. assert (in_publish t = true) as Hit by (unfold in_publish; by rewrite Hpc).
    eapply (thread_step s _ n t); eauto; simpl; try done.
    + apply (iv_core _ Hinv).
    + apply (iv_revision _ Hinv).
    + intros m y Hmn Hy. unfold thread_ok; simpl. destruct (th_pc y) eqn:Hy'; auto.
      assert (in_publish y = true) as Hiy by (unfold in_publish; by rewrite Hy').
      by destruct (Hmn (iv_single _ Hinv m n y t Hy Hn Hiy Hit)).
    + destruct Hok as [? Hx]. unfold thread_ok; simpl. split; [done|]. destruct (Z.eqb_spec error 0); simpl; [|done].
      intros Ho. rewrite last_snoc. by rewrite Hx.
    + apply (iv_publishing _ Hinv). eauto.
  - assert (in_publish t = true) as Hit by (unfold in_publish; by rewrite Hpc). destruct Hok as [Hobs Hend].
    case_check; simplify_eq.
    + eapply (thread_step s _ n t); eauto; simpl; try done.
      * apply core_ok_publishing, (iv_core _ Hinv).
      * apply (iv_revision _ Hinv).
      * by rewrite Hit.
      * destruct (Z.eqb_spec err 0) as [->|]; [|auto]. simpl in *. bool_to_prop. left. apply Hend.
        rewrite <- (iv_revision _ Hinv). done.
    + eapply (thread_step s _ n t); eauto; simpl; try done.
      * apply (iv_core _ Hinv).
      * apply (iv_revision _ Hinv).
      * unfold thread_ok; simpl. rewrite (iv_revision _ Hinv). auto with lia.
      * apply (iv_publishing _ Hinv). eauto.
Qed.

(** A reply without any change. *)
Lemma reply_preserves s n t r :
  action_invariant s -> ac_threads s !! n = Some t -> in_flush t = false -> action_invariant (with_core (ac_core s) n (th_return r t) s).
Proof.
  intros Hinv Hn Hfl. assert (in_publish t = false) as Hit.
  { revert Hfl. unfold in_publish, in_flush. by destruct (th_pc t). }
  apply (thread_step s (with_core (ac_core s) n (th_return r t) s) n t (th_return r t)); simpl; auto; try done.
  - apply (iv_core _ Hinv).
  - apply (iv_revision _ Hinv).
  - by rewrite Hit.
  - destruct (iv_status _ Hinv) as [?|[?|(m & x & Hx & Hix)]]; auto.
    right; right; right. exists m, x. split_and!; auto. intros ->. congruence.
Qed.

(** A mutation, followed by [Flush] (or by the cancel callback and [Flush]). *)
Lemma mutation_preserves s n t pc c' :
  action_invariant s -> ac_threads s !! n = Some t -> in_publish t = false ->
  0 <= ac_mutations s -> ac_mutations s + 1 < 2 ^ 64 ->
  core_ok c' -> co_revision c' = u64 (co_revision (ac_core s) + 1) -> co_publishing c' = co_publishing (ac_core s) ->
  (forall m, m <> n -> m = 0%nat -> IsActionActive (ah_state (co_header (ac_core s))) = true) ->
  in_flush (th_at pc t) = true -> in_publish (th_at pc t) = false ->
  match pc with TCancel _ => n = 0%nat | _ => True end ->
  action_invariant (with_mutation c' n (th_at pc t) s).
Proof.
  intros Hinv Hn Hit Hpos Hmax Hc' Hrev Hpub Hact Hfl Hip Hpc.
  apply (thread_step s (with_mutation c' n (th_at pc t) s) n t (th_at pc t)); simpl; auto; try done.
  - by apply (mutation_revision c' s).
  - intros m x Hmn Hx. eapply frame_mutation; eauto.
  - unfold thread_ok; simpl. by destruct pc.
  - by rewrite Hip, Hit.
  - rewrite Hip. done.
Qed.

Lemma idle_quiet t : is_idle t = true -> in_flush t = false /\ in_publish t = false.
Proof. unfold is_idle, in_flush, in_publish. by destruct (th_pc t). Qed.

Lemma action_step_preserves s s' :
  action_invariant s -> 0 <= ac_mutations s -> action_step feedback0 s s' -> ac_mutations s' < 2 ^ 64 -> action_invariant s'.
Proof.
  intros Hinv Hpos [e Hst] Hmax. pose proof (iv_core _ Hinv) as Hcore.
  destruct e as [id goal|code|id|threw|id|n a|n error|]; simpl in Hst.
  - destruct (ac_threads s !! 0%nat) as [t|] eqn:Hn; [|done]. destruct (is_idle t) eqn:Hid; [|done]. simpl in Hst.
    destruct (idle_quiet t Hid) as [Hfl Hip]. case_check; simplify_eq; [by apply reply_preserves|].
    destruct (goal_check id (ac_core s)) as [[code acc]|] eqn:Hg; simplify_eq; [by apply reply_preserves|].
    eapply (thread_step s _ 0 t); eauto; simpl; try done; [apply (iv_revision _ Hinv)|by rewrite Hip|].
    destruct (iv_status _ Hinv) as [?|[?|(m & x & Hx & Hix)]]; auto.
    right; right; right. exists m, x. split_and!; auto. intros ->. congruence.
  - destruct (ac_threads s !! 0%nat) as [t|] eqn:Hn; [|done]. destruct (th_pc t) eqn:Hpc; try done.
    pose proof (iv_threads _ Hinv 0 t Hn) as Hok. unfold thread_ok in Hok. rewrite Hpc in Hok. destruct Hok as [_ Hg].
    assert (in_flush t = false /\ in_publish t = false) as [Hfl Hip] by (unfold in_flush, in_publish; by rewrite Hpc).
    pose proof (goal_decide_ok id goal code _ Hcore Hg) as Hc'. unfold goal_decide in *. case_check; simplify_eq.
    + eapply (thread_step s _ 0 t); eauto; simpl; try done; [apply (iv_revision _ Hinv)| |by rewrite Hip|].
      * intros m x Hmn Hx. unfold thread_ok; simpl. destruct (th_pc x); auto. by intros [? _].
      * destruct (iv_status _ Hinv) as [?|[?|(m & x & Hx & Hix)]]; auto.
        right; right; right. exists m, x. split_and!; auto. intros ->. congruence.
    + simpl in Hmax. by apply mutation_preserves.
  - destruct (ac_threads s !! 0%nat) as [t|] eqn:Hn; [|done]. destruct (is_idle t) eqn:Hid; [|done]. simpl in Hst.
    destruct (idle_quiet t Hid) as [Hfl Hip]. case_check; simplify_eq; [by apply reply_preserves|].
    destruct (cancel_mark id (ac_core s)) as [[code acc]|c'] eqn:Hg; simplify_eq; [by apply reply_preserves|].
    destruct (cancel_mark_spec _ _ _ Hg) as (_&_&_&?&?&?). simpl in Hmax. apply mutation_preserves; auto; intros; congruence.
  - destruct (ac_threads s !! 0%nat) as [t|] eqn:Hn; [|done]. destruct (th_pc t) eqn:Hpc; simplify_eq.
    assert (in_publish t = false) as Hip by (unfold in_publish; by rewrite Hpc).
    eapply (thread_step s _ 0 t); eauto; simpl; try done; [apply (iv_revision _ Hinv)|by rewrite Hip].
  - destruct (ac_threads s !! 0%nat) as [t|] eqn:Hn; [|done]. destruct (is_idle t) eqn:Hid; [|done]. simpl in Hst.
    destruct (idle_quiet t Hid) as [Hfl Hip]. case_check; simplify_eq; [by apply reply_preserves|].
    destruct (get_result id (ac_core s)) as [[??]?]; simplify_eq. by apply reply_preserves.
  - destruct (ac_threads s !! n) as [t|] eqn:Hn; [|done]. case_check; [done|]. bool_to_prop.
    destruct (idle_quiet t) as [Hfl Hip]; [done|]. case_check; simplify_eq; [by apply reply_preserves|].
    destruct (app_section a (ac_core s)) as [c'|code] eqn:Ha; simplify_eq; [|by apply reply_preserves].
    destruct (app_section_spec _ _ _ Ha) as (_&_&?&?&?&?); [done|]. simpl in Hmax. apply mutation_preserves; auto.
  - destruct (ac_threads s !! n) as [t|] eqn:Hn; [|done]. by eapply flush_preserves.
  - case_check; simplify_eq. destruct Hinv. by constructor.
Qed.

Lemma step_mutations s s' : action_step feedback0 s s' -> ac_mutations s <= ac_mutations s'.
Proof.
  intros [e Hst]. destruct e as [id goal|code|id|threw|id|n a|n error|]; simpl in Hst.
  - destruct (ac_threads s !! 0%nat) as [t|]; [|done]. repeat case_check; simplify_eq; simpl; try lia.
    destruct (goal_check id (ac_core s)) as [[??]|]; simplify_eq; simpl; lia.
  - destruct (ac_threads s !! 0%nat) as [t|]; [|done]. destruct (th_pc t); try done. case_check; simplify_eq; simpl; lia.
  - destruct (ac_threads s !! 0%nat) as [t|]; [|done]. repeat case_check; simplify_eq; simpl; try lia.
    destruct (cancel_mark id (ac_core s)) as [[??]|]; simplify_eq; simpl; lia.
  - destruct (ac_threads s !! 0%nat) as [t|]; [|done]. destruct (th_pc t); simplify_eq; simpl; lia.
  - destruct (ac_threads s !! 0%nat) as [t|]; [|done]. repeat case_check; simplify_eq; simpl; try lia.
    destruct (get_result id (ac_core s)) as [[??]?]; simplify_eq; simpl; lia.
  - destruct (ac_threads s !! n) as [t|]; [|done]. repeat case_check; simplify_eq; simpl; try lia.
    destruct (app_section a (ac_core s)); simplify_eq; simpl; lia.
  - destruct (ac_threads s !! n) as [t|]; [|done]. unfold flush_step in Hst.
    destruct (th_pc t); try done; repeat case_check; simplify_eq; simpl; lia.
  - case_check; simplify_eq; simpl; lia.
Qed.

Lemma action_initial_invariant threads : action_invariant (action_initial feedback0 threads).
Proof.
  assert (forall n t, ac_threads (@action_initial Goal Feedback Result feedback0 threads) !! n = Some t -> th_pc t = TIdle) as Hidle.
  { intros n t Ht. unfold action_initial in Ht. cbn [ac_threads] in Ht.
    by apply list_elem_of_lookup_2, list_elem_of_In, repeat_spec in Ht as ->. }
  constructor; auto.
  - constructor; simpl; try done; naive_solver.
  - intros n t Ht. unfold thread_ok. by rewrite (Hidle n t Ht).
  - intros n m t t' Ht _ Hi. unfold in_publish in Hi. by rewrite (Hidle n t Ht) in Hi.
  - split; [done|]. intros (n & t & Ht & Hi). unfold in_publish in Hi. by rewrite (Hidle n t Ht) in Hi.
Qed.

Lemma action_reachable_invariant threads s : action_reachable feedback0 threads s -> ac_mutations s < 2 ^ 64 -> action_invariant s.
Proof.
  intros Hr. assert (0 <= ac_mutations s /\ (ac_mutations s < 2 ^ 64 -> action_invariant s)) as [_ ?]; [|done].
  revert s Hr. apply (rtc_ind_r (fun s => 0 <= ac_mutations s /\ (ac_mutations s < 2 ^ 64 -> action_invariant s)) (action_initial feedback0 threads)).
  - split; [done|]. intros _. apply action_initial_invariant.
  - intros s1 s2 _ Hst [Hp IH]. pose proof (step_mutations _ _ Hst). split; [lia|]. intros Hb.
    eapply action_step_preserves; eauto. apply IH. lia.
Qed.

(** ** Theorems *)
(** C15: Goal lifecycle.  Along every execution (service thread and any number
    of application threads interleaving between their critical sections) the
    header only moves by the transitions of one goal, ACCEPTED to RUNNING by
    [Start] unless a cancel is pending, feedback only while RUNNING with its
    sequence counting up, a cancel mark only while active, one terminal state
    (CANCELED only after a cancel request), or by the acceptance of a different
    nonzero goal id when no goal is active; and a result is stored exactly when
    the state is terminal, and stays as it is until a new goal is accepted. *)
Theorem action_lifecycle threads s s' :
  action_reachable feedback0 threads s -> action_step feedback0 s s' -> ac_mutations s' < 2 ^ 64 ->
  core_ok (ac_core s') /\
  (co_header (ac_core s') = co_header (ac_core s) /\ co_result (ac_core s') = co_result (ac_core s) \/
   header_step (co_header (ac_core s)) (co_header (ac_core s'))).
Proof.
  intros Hr Hst Hmax. pose proof (step_mutations _ _ Hst) as Hle.
  pose proof (action_reachable_invariant _ _ Hr ltac:(lia)) as Hinv.
  assert (action_invariant s') as Hinv'.
  { apply (action_reachable_invariant threads); [|done]. eapply rtc_r; eauto. }
  split; [apply (iv_core _ Hinv')|]. destruct Hst as [e Hst].
  destruct e as [id goal|code|id|threw|id|n a|n error|]; simpl in Hst.
  - destruct (ac_threads s !! 0%nat) as [t|]; [|done]. repeat case_check; simplify_eq; auto.
    destruct (goal_check id (ac_core s)) as [[??]|]; simplify_eq; auto.
  - destruct (ac_threads s !! 0%nat) as [t|] eqn:Hn; [|done]. destruct (th_pc t) eqn:Hpc; try done.
    pose proof (iv_threads _ Hinv 0 t Hn) as Hok. unfold thread_ok in Hok. rewrite Hpc in Hok. destruct Hok as [_ Hg].
    unfold goal_decide in Hst. case_check; simplify_eq; auto. right. simpl.
    unfold goal_check in Hg. repeat case_check; try done. bool_to_prop. by apply hs_accept.
  - destruct (ac_threads s !! 0%nat) as [t|]; [|done]. repeat case_check; simplify_eq; auto.
    destruct (cancel_mark id (ac_core s)) as [[??]|c'] eqn:Hc; simplify_eq; auto. right.
    by destruct (cancel_mark_spec _ _ _ Hc).
  - destruct (ac_threads s !! 0%nat) as [t|]; [|done]. destruct (th_pc t); simplify_eq; auto.
  - destruct (ac_threads s !! 0%nat) as [t|]; [|done]. repeat case_check; simplify_eq; auto.
    destruct (get_result id (ac_core s)) as [[??]?]; simplify_eq; auto.
  - destruct (ac_threads s !! n) as [t|]; [|done]. repeat case_check; simplify_eq; auto.
    destruct (app_section a (ac_core s)) as [c'|] eqn:Ha; simplify_eq; auto. right.
    bool_to_prop. by destruct (app_section_spec _ _ _ Ha).
  - destruct (ac_threads s !! n) as [t|]; [|done]. unfold flush_step in Hst.
    destruct (th_pc t); try done; repeat case_check; simplify_eq; auto.
  - case_check; simplify_eq; auto.
Qed.

(** One publishing thread.  Although every mutator calls [Flush] with no
    lock held across the publication, two threads are never inside it at the
    same time: the status channel keeps the single publisher it requires. *)
Theorem action_single_publisher threads s n m t t' :
  action_reachable feedback0 threads s -> ac_mutations s < 2 ^ 64 ->
  ac_threads s !! n = Some t -> ac_threads s !! m = Some t' ->
  in_publish t = true -> in_publish t' = true -> n = m.
Proof. intros Hr Hb. apply (iv_single _ (action_reachable_invariant _ _ Hr Hb)). Qed.

(** No lost status.  Whenever no call is under way and the last [Publish]
    succeeded, the last published status is the current header and feedback:
    a mutator that found another thread publishing and returned at once has
    had its change published by that thread. *)
Theorem action_status_published threads s :
  action_reachable feedback0 threads s -> ac_mutations s < 2 ^ 64 ->
  forallb is_idle (ac_threads s) = true -> ac_failed s = false ->
  last (ac_published s) = Some (snapshot (ac_core s)).
Proof.
  intros Hr Hb Hidle Hf. destruct (iv_status _ (action_reachable_invariant _ _ Hr Hb)) as [?|[?|(n & t & Hn & Hfl)]]; auto; [congruence|].
  apply list_elem_of_lookup_2, list_elem_of_In in Hn. rewrite forallb_forall in Hidle. specialize (Hidle t Hn).
  destruct (idle_quiet t Hidle). congruence.
Qed.
End ActionProofs.

(** ** Witnesses *)
Lemma action_run_reachable {Goal Feedback Result} (f0 : Feedback) es threads (s : @ActionSystem Goal Feedback Result) :
  action_run f0 es (action_initial f0 threads) = Some s -> action_reachable f0 threads s.
Proof. apply machine_run_rtc. Qed.

(** Goal 5 is accepted and started; thread 1 publishes feedback while thread 2
    publishes the start. *)
Definition action_sample_events : list (@ActionEvent Z Z Z) :=
  [EvGoalRequest 5 50; EvGoalDecision 0; EvFlush 0 0; EvFlush 0 0; EvFlush 0 0;
   EvCall 2 (CallStart 5); EvFlush 2 0; EvCall 1 (CallFeedback 5 77); EvFlush 1 0].
Definition sample_running : @ActionSystem Z Z Z := default (action_initial 0 2) (action_run 0 action_sample_events (action_initial 0 2)).
Definition sample_done : @ActionSystem Z Z Z :=
  default (action_initial 0 2) (action_run 0 (action_sample_events ++ [EvFlush 2 0; EvFlush 2 0; EvFlush 2 0; EvFlush 2 0]) (action_initial 0 2)).

Lemma sample_running_reachable : action_reachable 0 2 sample_running.
Proof. apply (action_run_reachable 0 action_sample_events). vm_compute. reflexivity. Qed.

Lemma action_lifecycle_witness :
  exists s', action_exec 0 (EvCall 1 (CallFinish 5 123 SUCCEEDED)) sample_running = Some s' /\
  core_ok (ac_core s') /\ ah_state (co_header (ac_core s')) = SUCCEEDED.
Proof.
  destruct (action_exec 0 (EvCall 1 (CallFinish 5 123 SUCCEEDED)) sample_running) as [s'|] eqn:E; [|vm_compute in E; discriminate].
  exists s'. split; [reflexivity|].
  destruct (action_lifecycle 0 2 sample_running s' sample_running_reachable) as [H _].
  - exists (EvCall 1 (CallFinish 5 123 SUCCEEDED)). exact E.
  - vm_compute in E. injection E as <-. vm_compute. reflexivity.
  - split; [exact H|]. vm_compute in E. injection E as <-. reflexivity.
Defined.

Lemma action_single_publisher_witness :
  exists t, ac_threads sample_running !! 2%nat = Some t /\ in_publish t = true /\
  forall m t', ac_threads sample_running !! m = Some t' -> in_publish t' = true -> 2%nat = m.
Proof.
  destruct (ac_threads sample_running !! 2%nat) as [t|] eqn:E; [|vm_compute in E; discriminate].
  exists t. assert (in_publish t = true) as Ht by (vm_compute in E; injection E as <-; reflexivity).
  split; [reflexivity|]. split; [exact Ht|]. intros m t' Hm Ht'.
  apply (action_single_publisher 0 2 sample_running 2 m t t' sample_running_reachable); [vm_compute; reflexivity|exact E|exact Hm|exact Ht|exact Ht'].
Defined.

Lemma action_status_published_witness :
  last (ac_published sample_done) = Some ({| ah_goal_id := 5; ah_feedback_sequence := 1; ah_state := RUNNING; ah_cancel_requested := false |}, 77).
Proof.
  apply (action_status_published 0 2 sample_done).
  - apply (action_run_reachable 0 (action_sample_events ++ [EvFlush 2 0; EvFlush 2 0; EvFlush 2 0; EvFlush 2 0])). vm_compute. reflexivity.
  - vm_compute. reflexivity.
  - vm_compute. reflexivity.
  - vm_compute. reflexivity.
Defined.
