(* ===== verification/ActionClient.v ===== *)
(** * Action client

    [ActionClient<Goal, Feedback, Result>] of [kcf/include/kcf/action/action_client.hpp]: goals,
    cancels and results by calls of the three services of an action server.

    [ActionService] is what the client relies on of the server: a call that is answered was
    executed once, between its beginning and its end, and what the answer says was so at that
    moment.  The theorems on sessions of a client are proved for any such service;
    [action_server_service] shows that [ActionServer], with its threads and callbacks, is one.
    What the service layer, the random source and the subscriber answer are arguments. *)
From S2P Require Import Prelude ActionServer ActionSafety.
From Stdlib Require Import Sorted.

(** ** Requests and responses *)
Section Client.
Context {Goal Result : Type}.
Inductive ActionRequest :=
| RequestGoal (id : Z) (goal : Goal)
| RequestCancel (id : Z)
| RequestResult (id : Z).
(** [ActionGoalResponse], which is also [ActionCancelResponse], and [ActionResultResponse];
    [None] is [Result{}]. *)
Record DecisionResponse := { dr_goal_id : Z; dr_result_code : Z; dr_accepted : Z }.
Record ResultResponse := { rr_goal_id : Z; rr_state : ActionState; rr_ready : Z; rr_result_code : Z; rr_result : option Result }.
Inductive ActionAnswer := AnswerDecision (r : DecisionResponse) | AnswerResult (r : ResultResponse).

(** ** The client *)
Record LocalClient := { lc_open : bool; lc_seeded : bool; lc_next_id : Z }.
Definition new_client : LocalClient := {| lc_open := false; lc_seeded := false; lc_next_id := 0 |}.
Definition lc_set_open (b : bool) (c : LocalClient) : LocalClient := {| lc_open := b; lc_seeded := lc_seeded c; lc_next_id := lc_next_id c |}.
(** The first number comes from [getrandom], [Err] when it failed. *)
Definition seed_ids (random : result Z) (c : LocalClient) : result LocalClient :=
  if lc_seeded c then Ok c
  else match random with
       | Err code => Err code
       | Ok seed => Ok {| lc_open := lc_open c; lc_seeded := true; lc_next_id := Z.land seed (Z.ones 63) |}
       end.
(** [service], [subscriber]: the codes of their [Create]. *)
Definition CreateClient (goal_id cancel_id result_id : Z) (callback : bool) (random : result Z) (service subscriber : Z) (c : LocalClient) : Z * LocalClient :=
  if lc_open c then (- EBUSY, c)
  else if negb (ValidIds goal_id cancel_id result_id) || negb callback then (- EINVAL, c)
  else match seed_ids random c with
  | Err code => (code, c)
  | Ok c =>
      if negb (service =? 0) then (service, c)
      else if negb (subscriber =? 0) then (subscriber, c) else (0, lc_set_open true c)
  end.
(** [call]: the call of the service with the request. *)
Definition SendGoal (call : Z -> Goal -> result DecisionResponse) (goal : Goal) (c : LocalClient) : result Z * LocalClient :=
  if negb (lc_open c) then (Err (- EBADF), c)
  else if lc_next_id c =? UINT64_MAX then (Err (- EOVERFLOW), c)
  else
    let id := lc_next_id c + 1 in
    let answer :=
      match call id goal with
      | Err code => Err code
      | Ok r =>
          if negb (dr_goal_id r =? id) || (1 <? dr_accepted r) then Err (- EPROTO)
          else if negb (dr_result_code r =? 0) then Err (dr_result_code r)
          else if dr_accepted r =? 0 then Err (- ECANCELED) else Ok id
      end in
    (answer, {| lc_open := lc_open c; lc_seeded := lc_seeded c; lc_next_id := id |}).
Definition CancelGoal (call : Z -> result DecisionResponse) (id : Z) (c : LocalClient) : result unit :=
  if negb (lc_open c) then Err (- EBADF)
  else match call id with
  | Err code => Err code
  | Ok r =>
      if negb (dr_goal_id r =? id) || (1 <? dr_accepted r) then Err (- EPROTO)
      else if negb (dr_result_code r =? 0) then Err (dr_result_code r)
      else if dr_accepted r =? 0 then Err (- ECANCELED) else Ok tt
  end.
Definition GetGoalResult (call : Z -> result ResultResponse) (id : Z) (c : LocalClient) : result (ActionState * option Result) :=
  if negb (lc_open c) then Err (- EBADF)
  else match call id with
  | Err code => Err code
  | Ok r =>
      if negb (rr_goal_id r =? id) then Err (- EPROTO)
      else if negb (rr_result_code r =? 0) then Err (rr_result_code r)
      else if rr_ready r =? 0 then Err (- EINPROGRESS)
      else if negb (rr_ready r =? 1) || negb (IsActionTerminal (rr_state r)) then Err (- EPROTO)
      else Ok (rr_state r, rr_result r)
  end.
(** [subscriber]: the code of its [Close]. *)
Definition CloseClient (subscriber : Z) (c : LocalClient) : Z * LocalClient :=
  if subscriber =? - EDEADLK then (subscriber, c) else (subscriber, lc_set_open false c).

(** ** What a client relies on *)
(** [as_run]: what the server may do; [as_call s q a s']: from [s] to [s'] the request [q] was
    executed and answered [a].  [as_accepted s id]: goal [id] was accepted at [s] or before;
    [as_canceling s id]: [id] is the goal at [s] and is to be canceled; [as_ended s id t v]: [id]
    is the goal at [s] and ended in [t] with [v]. *)
Class ActionService (S : Type) := {
  as_run : relation S;
  as_call : S -> ActionRequest -> ActionAnswer -> S -> Prop;
  as_accepted : S -> Z -> Prop;
  as_canceling : S -> Z -> Prop;
  as_ended : S -> Z -> ActionState -> Result -> Prop;
  as_preorder :: PreOrder as_run;
  as_accepted_stays : forall s s' id, as_run s s' -> as_accepted s id -> as_accepted s' id;
  as_goal_answer : forall s id goal r s', as_call s (RequestGoal id goal) (AnswerDecision r) s' -> dr_result_code r = 0 -> dr_accepted r <> 0 -> as_accepted s' id;
  as_cancel_answer : forall s id r s', as_call s (RequestCancel id) (AnswerDecision r) s' -> dr_result_code r = 0 -> dr_accepted r <> 0 ->
    exists m, as_run s m /\ as_run m s' /\ as_canceling m id;
  as_result_answer : forall s id r s', as_call s (RequestResult id) (AnswerResult r) s' -> rr_result_code r = 0 -> rr_ready r = 1 ->
    exists m v, as_run s m /\ as_run m s' /\ rr_result r = Some v /\ as_ended m id (rr_state r) v
}.

(** ** Sessions *)
(** The outcome of a call of the client. *)
Inductive CallOutcome :=
| GoalOutcome (r : result Z)
| CancelOutcome (id : Z) (r : result unit)
| ResultOutcome (id : Z) (r : result (ActionState * option Result)).
Section Session.
Context {S : Type} `{!ActionService S}.
(** Calls of a client, one after the other, while the server goes on; a call that fails may have
    been executed or not. *)
Inductive session (c : LocalClient) (s : S) : list CallOutcome -> LocalClient -> S -> Prop :=
| se_start : session c s [] c s
| se_run os c1 s1 s2 : session c s os c1 s1 -> as_run s1 s2 -> session c s os c1 s2
| se_goal os c1 s1 s2 goal x : session c s os c1 s1 -> as_run s1 s2 ->
    (forall r, x = Ok r -> as_call s1 (RequestGoal (lc_next_id c1 + 1) goal) (AnswerDecision r) s2) ->
    session c s (os ++ [GoalOutcome (fst (SendGoal (fun _ _ => x) goal c1))]) (snd (SendGoal (fun _ _ => x) goal c1)) s2
| se_cancel os c1 s1 s2 id x : session c s os c1 s1 -> as_run s1 s2 ->
    (forall r, x = Ok r -> as_call s1 (RequestCancel id) (AnswerDecision r) s2) ->
    session c s (os ++ [CancelOutcome id (CancelGoal (fun _ => x) id c1)]) c1 s2
| se_result os c1 s1 s2 id x : session c s os c1 s1 -> as_run s1 s2 ->
    (forall r, x = Ok r -> as_call s1 (RequestResult id) (AnswerResult r) s2) ->
    session c s (os ++ [ResultOutcome id (GetGoalResult (fun _ => x) id c1)]) c1 s2
| se_create os c1 s1 g a r cb random sv sb : session c s os c1 s1 -> session c s os (snd (CreateClient g a r cb random sv sb c1)) s1
| se_close os c1 s1 sb : session c s os c1 s1 -> session c s os (snd (CloseClient sb c1)) s1.
(** What an outcome says of the server, between [s] and [s']. *)
Definition truthful (s s' : S) (o : CallOutcome) : Prop :=
  match o with
  | GoalOutcome (Ok id) => as_accepted s' id
  | CancelOutcome id (Ok _) => exists m, as_run s m /\ as_run m s' /\ as_canceling m id
  | ResultOutcome id (Ok (t, value)) => IsActionTerminal t = true /\ exists m v, as_run s m /\ as_run m s' /\ value = Some v /\ as_ended m id t v
  | _ => True
  end.
Definition sent_id (o : CallOutcome) : option Z := match o with GoalOutcome (Ok id) => Some id | _ => None end.
Lemma truthful_run s1 s2 s3 s4 o : as_run s1 s2 -> as_run s3 s4 -> truthful s2 s3 o -> truthful s1 s4 o.
Proof.
  intros H12 H34. destruct o as [[id|]|id [u|]|id [[t v]|]]; cbn; auto.
  - by apply as_accepted_stays.
  - intros (m & Hm & Hm' & Ha). exists m. split_and!; [by trans s2|by trans s3|done].
  - intros [Ht (m & w & Hm & Hm' & Hv & Ha)]. split; [done|]. exists m, w. split_and!; [by trans s2|by trans s3|done..].
Qed.
Lemma send_truthful c s s' goal x : as_run s s' -> (forall r, x = Ok r -> as_call s (RequestGoal (lc_next_id c + 1) goal) (AnswerDecision r) s') ->
  truthful s s' (GoalOutcome (fst (SendGoal (fun _ _ => x) goal c))).
Proof.
  intros Hr Hx. unfold SendGoal. destruct (negb _); [done|]. destruct (_ =? _); [done|]. cbn. destruct x as [r|]; [|done]. specialize (Hx r eq_refl).
  repeat case_check; cbn; try done. bool_to_prop. by eapply as_goal_answer.
Qed.
Lemma cancel_truthful c s s' id x : as_run s s' -> (forall r, x = Ok r -> as_call s (RequestCancel id) (AnswerDecision r) s') ->
  truthful s s' (CancelOutcome id (CancelGoal (fun _ => x) id c)).
Proof.
  intros Hr Hx. unfold CancelGoal. cbn. destruct (negb _); [done|]. destruct x as [r|code]; [|done]. specialize (Hx r eq_refl).
  repeat case_check; cbn; try done. bool_to_prop. by eapply as_cancel_answer.
Qed.
Lemma result_truthful c s s' id x : as_run s s' -> (forall r, x = Ok r -> as_call s (RequestResult id) (AnswerResult r) s') ->
  truthful s s' (ResultOutcome id (GetGoalResult (fun _ => x) id c)).
Proof.
  intros Hr Hx. unfold GetGoalResult. cbn. destruct (negb _); [done|]. destruct x as [r|code]; [|done]. specialize (Hx r eq_refl).
  repeat case_check; cbn; try done. bool_to_prop. split; [done|]. by eapply as_result_answer.
Qed.
Lemma session_runs c s os c' s' : session c s os c' s' -> as_run s s'.
Proof. induction 1; try done; by etrans. Qed.
Lemma Forall_truthful s1 s2 s3 s4 os : as_run s1 s2 -> as_run s3 s4 -> Forall (truthful s2 s3) os -> Forall (truthful s1 s4) os.
Proof. intros H1 H2 H. eapply Forall_impl; [exact H|]. intros o. by apply truthful_run. Qed.
Lemma session_truthful c s os c' s' : session c s os c' s' -> Forall (truthful s s') os.
Proof.
  intros H. induction H as [|os c1 s1 s2 H IH Hr|os c1 s1 s2 goal x H IH Hr Hx|os c1 s1 s2 id x H IH Hr Hx|os c1 s1 s2 id x H IH Hr Hx|os c1 s1 g a r cb random sv sb H IH|os c1 s1 sb H IH]; [done|..|done|done];
    [by eapply Forall_truthful|..]; (apply Forall_app; split; [by eapply Forall_truthful|apply Forall_singleton]);
    (eapply truthful_run; [by eapply session_runs|reflexivity|]); [by apply send_truthful|by apply cancel_truthful|by apply result_truthful].
Qed.
(** The numbers of the goals of a client rise, from its seed, and stay in 64 bits. *)
Record ids_ok (c : LocalClient) (ids : list Z) : Prop := {
  id_rise : StronglySorted Z.lt ids;
  id_range : Forall (fun id => 0 < id <= lc_next_id c) ids;
  id_next : 0 <= lc_next_id c <= UINT64_MAX;
  id_seeded : ids <> [] \/ lc_open c = true -> lc_seeded c = true
}.
Lemma sorted_snoc (l : list Z) x : StronglySorted Z.lt l -> Forall (fun y => y < x) l -> StronglySorted Z.lt (l ++ [x]).
Proof.
  induction 1 as [|y l Hl IH Hy]; intros Hx; [by repeat constructor|]. apply Forall_cons in Hx as [Hx1 Hx2]. cbn. constructor; [by apply IH|].
  apply Forall_app. split; [done|by constructor].
Qed.
Lemma ids_send c ids call (goal : Goal) : ids_ok c ids ->
  ids_ok (snd (SendGoal call goal c)) (ids ++ match fst (SendGoal call goal c) with Ok id => [id] | Err _ => [] end).
Proof.
  intros H. pose proof H as [H1 H2 H3 H4]. unfold SendGoal. destruct (lc_open c) eqn:Ho; cbn [negb]; [|cbn [fst snd]; rewrite app_nil_r; exact H].
  destruct (Z.eqb_spec (lc_next_id c) UINT64_MAX) as [|Hn]; [cbn [fst snd]; rewrite app_nil_r; exact H|]. cbn [fst snd].
  assert (Hs : lc_seeded c = true) by auto.
  assert (Hr : Forall (fun id => 0 < id <= lc_next_id c + 1) ids) by (eapply Forall_impl; [exact H2|]; intros id Hid; cbn beta in *; lia).
  destruct (match call _ _ with Ok _ => _ | Err _ => _ end) as [id|code] eqn:E.
  - assert (id = lc_next_id c + 1) as ->. { destruct (call _ _); [|done]. repeat case_check; try done. by injection E as <-. }
    split; cbn; auto; [|apply Forall_app; split; [done|apply Forall_singleton; lia]|lia]. apply sorted_snoc; [done|]. eapply Forall_impl; [exact H2|]. intros y Hy. cbn beta in *. lia.
  - rewrite app_nil_r. split; cbn; auto. lia.
Qed.
Lemma ids_create c ids g a r cb random sv sb : ids_ok c ids -> ids_ok (snd (CreateClient g a r cb random sv sb c)) ids.
Proof.
  intros H. pose proof H as [H1 H2 H3 H4]. unfold CreateClient. destruct (lc_open c) eqn:Ho; [exact H|]. destruct (_ || _); [exact H|].
  unfold seed_ids. destruct (lc_seeded c) eqn:Hs.
  - destruct (negb _); [exact H|]. destruct (negb _); [exact H|]. by split.
  - assert (ids = []) as -> by (destruct ids; [done|]; exfalso; assert (false = true) by (apply H4; by left); done).
    destruct random as [seed|code]; [|exact H].
    assert (Hseed : 0 <= Z.land seed (Z.ones 63) <= UINT64_MAX) by (rewrite Z.land_ones by lia; pose proof (Z.mod_pos_bound seed (2 ^ 63)); unfold UINT64_MAX; lia).
    destruct (negb _); [by split; cbn; auto; constructor|]. destruct (negb _); split; cbn; auto; constructor.
Qed.
Lemma session_ids s os c' s' : session new_client s os c' s' -> ids_ok c' (omap sent_id os).
Proof.
  induction 1 as [|os c1 s1 s2 H IH Hr|os c1 s1 s2 goal x H IH Hr Hx|os c1 s1 s2 id x H IH Hr Hx|os c1 s1 s2 id x H IH Hr Hx|os c1 s1 g a r cb random sv sb H IH|os c1 s1 sb H IH]; rewrite ?omap_app; cbn [omap list_omap sent_id]; rewrite ?app_nil_r; auto.
  - split; try constructor; try done. intros [?|?]; done.
  - pose proof (ids_send c1 _ (fun _ _ => x) goal IH) as Hi. by destruct (fst (SendGoal _ _ _)).
  - by apply ids_create.
  - unfold CloseClient. destruct (_ =? _); [exact IH|]. destruct IH as [H1 H2 H3 H4]. split; cbn; auto. intros [?|?]; auto.
Qed.
End Session.
End Client.

(** ** The action server as a service *)
Section Server.
Context {Goal Feedback Result : Type} (feedback0 : Feedback) (threads : nat).
Abbreviation System := (@ActionSystem Goal Feedback Result).
Abbreviation step := (@action_step Goal Feedback Result feedback0).
Abbreviation run := (rtc step).
Abbreviation goal_id_at s := (ah_goal_id (co_header (ac_core s))).
Definition request_event (q : @ActionRequest Goal) : @ActionEvent Goal Feedback Result :=
  match q with
  | RequestGoal id goal => EvGoalRequest id goal
  | RequestCancel id => EvCancelRequest id
  | RequestResult id => EvGetResult id
  end.
Definition flag (b : bool) : Z := if b then 1 else 0.
(** The response that the callback of a service fills in. *)
Definition answer_of (r : @Reply Result) : option (@ActionAnswer Result) :=
  match r with
  | ReplyGoal id code accepted | ReplyCancel id code accepted => Some (AnswerDecision {| dr_goal_id := id; dr_result_code := code; dr_accepted := flag accepted |})
  | ReplyResult id code state value =>
      Some (AnswerResult {| rr_goal_id := id; rr_state := state; rr_ready := match value with Some _ => 1 | None => 0 end; rr_result_code := code; rr_result := value |})
  | ReplyCode _ => None
  end.
(** The service thread takes up the request and its next reply is the answer. *)
Definition server_call (s : System) (q : @ActionRequest Goal) (a : @ActionAnswer Result) (s' : System) : Prop :=
  action_reachable feedback0 threads s /\
  exists s1 s2 t t' r, run s s1 /\ action_exec feedback0 (request_event q) s1 = Some s2 /\ run s2 s' /\
    ac_threads s1 !! 0%nat = Some t /\ ac_threads s' !! 0%nat = Some t' /\ th_replies t' !! length (th_replies t) = Some r /\ answer_of r = Some a.
(** The goal was, at a moment of the server's life before [s], the one of the header, which only an acceptance makes it. *)
Definition was_goal (s : System) (id : Z) : Prop := exists m, action_reachable feedback0 threads m /\ run m s /\ goal_id_at m = id.
Definition canceling (s : System) (id : Z) : Prop := goal_id_at s = id /\ ah_cancel_requested (co_header (ac_core s)) = true.
Definition goal_ended (s : System) (id : Z) (t : ActionState) (v : Result) : Prop :=
  goal_id_at s = id /\ ah_state (co_header (ac_core s)) = t /\ co_result (ac_core s) = Some v.

(** *** What one thread does in a step *)
(** The reply that the thread will return once it has published. *)
Definition flushing (pc : @ThreadPc Goal Feedback Result) : option (option (@Reply Result)) :=
  match pc with TFlush r | TPublish r _ _ | TCheck r _ _ => Some r | _ => None end.
Inductive thread_moves (s' : System) (t : @Thread Goal Feedback Result) : @Thread Goal Feedback Result -> Prop :=
| tm_idle pc replies : is_idle t = true -> thread_moves s' t {| th_pc := pc; th_replies := th_replies t ++ replies |}
| tm_refused id goal code : th_pc t = TGoal id goal -> code <> 0 -> thread_moves s' t (th_return (ReplyGoal id code false) t)
| tm_accepted id goal : th_pc t = TGoal id goal -> goal_id_at s' = id -> thread_moves s' t (th_at (TFlush (Some (ReplyGoal id 0 true))) t)
| tm_cancel id code : th_pc t = TCancel id -> thread_moves s' t (th_at (TFlush (Some (ReplyCancel id code true))) t)
| tm_flush r pc : flushing (th_pc t) = Some r -> flushing pc = Some r -> thread_moves s' t (th_at pc t)
| tm_return r error : flushing (th_pc t) = Some r -> thread_moves s' t (th_return (flush_reply r error) t).
Lemma idle_returns s' t r : is_idle t = true -> thread_moves s' t (th_return r t).
Proof. intros H. by apply (tm_idle s' t TIdle [r]). Qed.
Lemma idle_at s' t pc : is_idle t = true -> thread_moves s' t (th_at pc t).
Proof. intros H. unfold th_at. rewrite <- (app_nil_r (th_replies t)). by apply tm_idle. Qed.
Lemma step_thread s s' : step s s' -> ac_threads s' = ac_threads s \/
  exists n t t', ac_threads s !! n = Some t /\ ac_threads s' = <[n := t']> (ac_threads s) /\ thread_moves s' t t'.
Proof.
  intros [e He]. destruct e as [id goal|code|id|threw|id|n a|n error|]; cbn in He.
  - destruct (ac_threads s !! 0%nat) as [t|] eqn:Ht; [|done]. destruct (is_idle t) eqn:Hi; [|done]. right. exists 0%nat, t. cbn [negb] in He.
    destruct (ac_open s); cbn in He; [|injection He as <-; eexists; split_and!; [done|done|by apply idle_returns]].
    destruct (goal_check id _) as [[code acc]|]; injection He as <-; eexists; (split_and!; [done|done|]); [by apply idle_returns|by apply idle_at].
  - destruct (ac_threads s !! 0%nat) as [t|] eqn:Ht; [|done]. destruct (th_pc t) as [|id goal| | | |] eqn:Hp; try done. right. exists 0%nat, t.
    destruct (Z.eqb_spec code 0) as [->|Hc]; cbn in He; injection He as <-; eexists; (split_and!; [done|done|]); [by apply (tm_accepted _ t id goal)|by apply (tm_refused _ t id goal)].
  - destruct (ac_threads s !! 0%nat) as [t|] eqn:Ht; [|done]. destruct (is_idle t) eqn:Hi; [|done]. right. exists 0%nat, t. cbn [negb] in He.
    destruct (ac_open s); cbn in He; [|injection He as <-; eexists; split_and!; [done|done|by apply idle_returns]].
    destruct (cancel_mark id _) as [[code acc]|c']; injection He as <-; eexists; (split_and!; [done|done|]); [by apply idle_returns|by apply idle_at].
  - destruct (ac_threads s !! 0%nat) as [t|] eqn:Ht; [|done]. destruct (th_pc t) as [| |id| | |] eqn:Hp; try done. right. exists 0%nat, t.
    injection He as <-. eexists. split_and!; [done|done|]. by apply tm_cancel.
  - destruct (ac_threads s !! 0%nat) as [t|] eqn:Ht; [|done]. destruct (is_idle t) eqn:Hi; [|done]. right. exists 0%nat, t. cbn [negb] in He.
    destruct (ac_open s); cbn in He; [|injection He as <-; eexists; split_and!; [done|done|by apply idle_returns]].
    destruct (get_result id _) as [[code st] v]. injection He as <-; eexists; (split_and!; [done|done|]). by apply idle_returns.
  - destruct (ac_threads s !! n) as [t|] eqn:Ht; [|done]. destruct (is_idle t) eqn:Hi; [|done]. cbn [negb orb] in He. destruct (negb (valid_call a)); [done|]. right. exists n, t.
    destruct (ac_open s); cbn in He; [|injection He as <-; eexists; split_and!; [done|done|by apply idle_returns]].
    destruct (app_section a _) as [c'|code]; injection He as <-; eexists; (split_and!; [done|done|]); [by apply idle_at|by apply idle_returns].
  - destruct (ac_threads s !! n) as [t|] eqn:Ht; [|done]. right. exists n, t. unfold flush_step in He.
    destruct (th_pc t) as [| | |r|r observed x|r observed err] eqn:Hp; try done.
    + destruct (co_publishing _); injection He as <-; eexists; (split_and!; [done|done|]); [by apply tm_return; rewrite Hp|by apply (tm_flush _ t r); rewrite ?Hp].
    + injection He as <-; eexists; (split_and!; [done|done|]). by apply (tm_flush _ t r); rewrite ?Hp.
    + destruct (_ || _); injection He as <-; eexists; (split_and!; [done|done|]); [by apply tm_return; rewrite Hp|by apply (tm_flush _ t r); rewrite ?Hp].
  - destruct (forallb _ _); [|done]. injection He as <-. by left.
Qed.

(** *** Goals that the server remembers *)
Definition remembered (c : @Core Goal Feedback Result) : Z * Z * Z := (co_previous_id c, co_decision_id c, co_decision_code c).
Lemma step_remembered s s' : step s s' -> remembered (ac_core s') = remembered (ac_core s) \/ exists id goal code, ac_core s' = goal_decide feedback0 id goal code (ac_core s).
Proof.
  intros [e He]. destruct e as [id goal|code|id|threw|id|n a|n error|]; cbn in He.
  - destruct (ac_threads s !! 0%nat) as [t|]; [|done]. destruct (negb _); [done|]. left. destruct (negb _); [by injection He as <-|].
    destruct (goal_check id _) as [[code acc]|]; by injection He as <-.
  - destruct (ac_threads s !! 0%nat) as [t|]; [|done]. destruct (th_pc t) as [|id goal| | | |]; try done. right. exists id, goal, code. by destruct (negb _); injection He as <-.
  - destruct (ac_threads s !! 0%nat) as [t|]; [|done]. destruct (negb _); [done|]. left. destruct (negb _); [by injection He as <-|].
    unfold cancel_mark in He. repeat case_check; by injection He as <-.
  - destruct (ac_threads s !! 0%nat) as [t|]; [|done]. destruct (th_pc t); try done. left. by injection He as <-.
  - destruct (ac_threads s !! 0%nat) as [t|]; [|done]. destruct (negb _); [done|]. left. destruct (negb _); [by injection He as <-|].
    destruct (get_result id _) as [[code st] v]. by injection He as <-.
  - destruct (ac_threads s !! n) as [t|]; [|done]. destruct (_ || _); [done|]. left. destruct (negb _); [by injection He as <-|].
    destruct (app_section a _) as [c'|code] eqn:Ha; injection He as <-; [|done]. destruct a; cbn in Ha; unfold start, publish_feedback, finish in Ha; repeat case_check; try done; injection Ha as <-; done.
  - destruct (ac_threads s !! n) as [t|]; [|done]. unfold flush_step in He. left. destruct (th_pc t); try done; repeat case_check; by injection He as <-.
  - destruct (forallb _ _); [|done]. injection He as <-. by left.
Qed.
Lemma was_goal_run s s' id : run s s' -> was_goal s id -> was_goal s' id.
Proof. intros H (m & Hr & Hm & E). exists m. split; [done|]. split; [by trans s|done]. Qed.
Lemma was_goal_now s : action_reachable feedback0 threads s -> was_goal s (goal_id_at s).
Proof. by exists s. Qed.
Definition memory_ok (s : System) : Prop :=
  (co_previous_id (ac_core s) <> 0 -> was_goal s (co_previous_id (ac_core s))) /\
  (co_decision_id (ac_core s) <> 0 -> co_decision_code (ac_core s) = 0 -> was_goal s (co_decision_id (ac_core s))).
Lemma reachable_memory s : action_reachable feedback0 threads s -> memory_ok s.
Proof.
  revert s. apply (rtc_ind_r memory_ok (action_initial feedback0 threads)); [done|]. intros s s' Hreach Hst [H1 H2]. assert (Hr : run s s') by by apply rtc_once. assert (Hreach' : action_reachable feedback0 threads s') by (unfold action_reachable in *; by trans s).
  destruct (step_remembered s s' Hst) as [E|(id & goal & code & E)].
  - unfold memory_ok. unfold remembered in E. injection E as -> -> ->. split; intros; (eapply was_goal_run; [exact Hr|auto]).
  - assert (Hn := was_goal_now s' Hreach'). unfold memory_ok. rewrite E in Hn |- *. unfold goal_decide in Hn |- *. clear E. destruct (Z.eqb_spec code 0) as [Ec|Hc]; cbn in Hn |- *.
    + split; intros; [|done]. eapply was_goal_run; [exact Hr|]. by apply was_goal_now.
    + split; intros; [|done]. eapply was_goal_run; [exact Hr|auto].
Qed.
Lemma goal_check_known s id : action_reachable feedback0 threads s -> goal_check id (ac_core s) = Some (0, true) -> was_goal s id.
Proof.
  intros Hr. destruct (reachable_memory s Hr) as [H1 H2]. unfold goal_check. destruct (Z.eqb_spec id 0) as [|Hid]; [done|].
  destruct (Z.eqb_spec id (goal_id_at s)) as [->|_]; cbn [orb]; [intros _; by apply was_goal_now|].
  destruct (Z.eqb_spec id (co_previous_id (ac_core s))) as [->|_]; [auto|]. destruct (Z.eqb_spec id (co_decision_id (ac_core s))) as [->|_]; [|by case_check].
  intros H. injection H as Hc _. auto.
Qed.

Lemma reachable_run s s' : action_reachable feedback0 threads s -> run s s' -> action_reachable feedback0 threads s'.
Proof. unfold action_reachable. intros H1 H2. by trans s. Qed.

(** *** The answer to a request *)
Section Answer.
Context (q : @ActionRequest Goal) (s0 : System).
(** Reply [r], given at [s], is right. *)
Definition good_reply (s : System) (r : @Reply Result) : Prop :=
  match q, r with
  | RequestGoal id _, ReplyGoal _ code accepted => code = 0 -> accepted = true -> was_goal s id
  | RequestCancel id, ReplyCancel _ code accepted => code = 0 -> accepted = true -> exists m, run s0 m /\ run m s /\ canceling m id
  | RequestResult id, ReplyResult _ code t v => code = 0 -> forall w, v = Some w -> exists m, run s0 m /\ run m s /\ goal_ended m id t w
  | _, _ => False
  end.
Definition good_progress (s : System) (pc : @ThreadPc Goal Feedback Result) : Prop :=
  match pc with
  | TGoal id _ => match q with RequestGoal id' _ => id' = id | _ => False end
  | TCancel _ => match q with RequestCancel id => exists m, run s0 m /\ run m s /\ canceling m id | _ => False end
  | TFlush (Some r) | TPublish (Some r) _ _ | TCheck (Some r) _ _ => good_reply s r
  | _ => False
  end.
(** The service thread works on the request, or has answered it as its reply number [n]. *)
Definition answering (n : nat) (s : System) : Prop :=
  exists t, ac_threads s !! 0%nat = Some t /\
    (length (th_replies t) = n /\ good_progress s (th_pc t) \/ exists r, th_replies t !! n = Some r /\ good_reply s r).
Lemma good_reply_run s s' r : run s s' -> good_reply s r -> good_reply s' r.
Proof.
  intros Hr. unfold good_reply. destruct q as [id goal|id|id], r as [id' code acc|id' code acc|id' code st v|code]; auto.
  - intros H Hc Ha. eapply was_goal_run; eauto.
  - intros H Hc Ha. destruct (H Hc Ha) as (m & Hm & Hm' & Hx). exists m. split_and!; [done|by trans s|done].
  - intros H Hc w Hw. destruct (H Hc w Hw) as (m & Hm & Hm' & Hx). exists m. split_and!; [done|by trans s|done].
Qed.
Lemma good_flushing s pc r : flushing pc = Some r -> good_progress s pc <-> match r with Some r => good_reply s r | None => False end.
Proof. destruct pc as [| | |x|x o y|x o y]; intros H; try done; injection H as ->; by destruct r. Qed.
Lemma good_progress_run s s' pc : run s s' -> good_progress s pc -> good_progress s' pc.
Proof.
  intros Hr. destruct pc as [|id goal|id|[r|]|[r|] o y|[r|] o y]; cbn; try done; try (by apply good_reply_run).
  destruct q as [?|id'|?]; [done| |done]. intros (m & Hm & Hm' & Hx). exists m. split_and!; [done|by trans s|done].
Qed.
Lemma answering_step n s s' : action_reachable feedback0 threads s' -> step s s' -> answering n s -> answering n s'.
Proof.
  intros Hreach Hst (t & Ht & H). assert (Hr : run s s') by by apply rtc_once.
  assert (Hkeep : forall t', ac_threads s' !! 0%nat = Some t' -> th_replies t = th_replies t' -> th_pc t = th_pc t' -> answering n s').
  { intros t' Ht' E1 E2. exists t'. split; [done|]. rewrite <- E1, <- E2. destruct H as [[Hl H]|(r & Hl & H)]; [left|right]; eauto using good_progress_run, good_reply_run. }
  destruct (step_thread s s' Hst) as [E|(k & t1 & t2 & Hk & E & Hm)]; [apply (Hkeep t); [by rewrite E|done..]|].
  destruct (decide (k = 0%nat)) as [->|Hne]; [|apply (Hkeep t); [by rewrite E, list_lookup_insert_ne|done..]].
  rewrite Ht in Hk. injection Hk as <-. assert (Ht2 : ac_threads s' !! 0%nat = Some t2) by (rewrite E; apply list_lookup_insert_eq; by eapply lookup_lt_Some).
  exists t2. split; [done|]. destruct H as [[Hl H]|(r & Hl & H)].
  - destruct Hm as [pc replies Hi|id goal code Hp Hc|id goal Hp Hg|id code Hp|r pc Hf Hf'|r error Hf].
    + unfold is_idle in Hi. by destruct (th_pc t).
    + rewrite Hp in H. right. exists (ReplyGoal id code false). cbn. rewrite <- Hl, list_lookup_middle by done. split; [done|]. cbn in H. unfold good_reply. by destruct q.
    + rewrite Hp in H. left. split; [done|]. cbn in *. unfold good_reply. destruct q; try done. intros _ _. rewrite H, <- Hg. by apply was_goal_now.
    + rewrite Hp in H. left. split; [done|]. cbn in *. unfold good_reply. destruct q; try done. intros _ _. destruct H as (m & Hm & Hm' & Hx). exists m. split_and!; [done|by trans s|done].
    + left. split; [done|]. rewrite (good_flushing s' pc r Hf'). rewrite (good_flushing s _ r Hf) in H. destruct r; [by eapply good_reply_run|done].
    + rewrite (good_flushing s _ r Hf) in H. destruct r as [r|]; [|done]. right. exists r. cbn. rewrite <- Hl, list_lookup_middle by done. split; [done|by eapply good_reply_run].
  - right. exists r. split; [|by eapply good_reply_run]. apply lookup_lt_Some in Hl as Hlt. destruct Hm; cbn; try done; by rewrite lookup_app_l.
Qed.
Lemma answering_run n s s' : action_reachable feedback0 threads s -> run s s' -> answering n s -> answering n s'.
Proof.
  intros Hs Hr. induction Hr as [|s s1 s' Hst Hr IH]; [done|]. intros H. assert (action_reachable feedback0 threads s1) by (eapply reachable_run; [exact Hs|by apply rtc_once]). apply IH; [done|]. by eapply answering_step.
Qed.
End Answer.
(** Taking up a request starts its answer. *)
Lemma takes_up q s0 s1 s2 t : action_reachable feedback0 threads s1 -> run s0 s1 -> action_exec feedback0 (request_event q) s1 = Some s2 -> ac_threads s1 !! 0%nat = Some t ->
  answering q s0 (length (th_replies t)) s2.
Proof.
  intros Hr H01 He Ht. assert (H12 : run s1 s2) by (apply rtc_once; by eexists). assert (H02 : run s0 s2) by by trans s1. assert (Hlt := lookup_lt_Some _ _ _ Ht).
  assert (Hret : forall r, ac_threads s2 = <[0%nat := th_return r t]> (ac_threads s1) -> good_reply q s0 s2 r -> answering q s0 (length (th_replies t)) s2).
  { intros r E Hg. exists (th_return r t). rewrite E, list_lookup_insert_eq by done. split; [done|]. right. exists r. cbn. by rewrite list_lookup_middle. }
  assert (Hat : forall pc, ac_threads s2 = <[0%nat := th_at pc t]> (ac_threads s1) -> good_progress q s0 s2 pc -> answering q s0 (length (th_replies t)) s2).
  { intros pc E Hg. exists (th_at pc t). rewrite E, list_lookup_insert_eq by done. split; [done|]. by left. }
  destruct q as [id goal|id|id]; cbn in He; rewrite Ht in He; (destruct (negb (is_idle t)); [done|]); (destruct (negb (ac_open s1)); [injection He as <-; by eapply Hret|]).
  - destruct (goal_check id (ac_core s1)) as [[code acc]|] eqn:Hg; injection He as <-; [|by eapply Hat].
    eapply Hret; [done|]. cbn. intros -> ->. eapply was_goal_run; [done|]. by apply goal_check_known.
  - destruct (cancel_mark id (ac_core s1)) as [[code acc]|c'] eqn:Hg; injection He as <-.
    + eapply Hret; [done|]. cbn. intros -> ->. exists s1. split_and!; [done|done|]. unfold cancel_mark in Hg. repeat case_check; try done. bool_to_prop. done.
    + eapply Hat; [done|]. cbn. eexists. split_and!; [exact H02|done|]. unfold cancel_mark in Hg. repeat case_check; try done. injection Hg as <-. bool_to_prop. done.
  - destruct (get_result id (ac_core s1)) as [[code st] v] eqn:Hg. injection He as <-. eapply Hret; [done|]. cbn. intros -> w ->. exists s1. split_and!; [done|done|].
    unfold get_result in Hg. repeat case_check; try done. destruct (co_result (ac_core s1)) eqn:Hres; [|done]. injection Hg as <- <-. bool_to_prop. done.
Qed.
Lemma call_answer s q a s' : server_call s q a s' -> exists r, answer_of r = Some a /\ good_reply q s s' r.
Proof.
  intros (Hr & s1 & s2 & t & t' & r & H1 & He & H2 & Ht & Ht' & Hn & Ha). exists r. split; [done|].
  assert (Hans : answering q s (length (th_replies t)) s2) by (apply (takes_up q s s1 s2 t); [by eapply reachable_run|done..]).
  assert (Hr2 : action_reachable feedback0 threads s2) by (eapply reachable_run; [exact Hr|]; eapply rtc_r; [exact H1|by eexists]).
  apply (answering_run q s _ s2 s' Hr2 H2) in Hans as (t2 & E & H). rewrite Ht' in E. injection E as <-. destruct H as [[Hl _]|(r' & Hr' & Hg)].
  - apply lookup_lt_Some in Hn. lia.
  - rewrite Hn in Hr'. by injection Hr' as <-.
Qed.
#[export, program] Instance action_server_service : @ActionService Goal Result System := {|
  as_run := run; as_call := server_call; as_accepted := was_goal; as_canceling := canceling; as_ended := goal_ended
|}.
Next Obligation. cbn. intros s s' id. apply was_goal_run. Qed.
Next Obligation.
  cbn. intros s id goal r s' H Hc Ha. destruct (call_answer _ _ _ _ H) as (x & Hx & Hg). destruct x as [id' code acc| | |]; try done. cbn in *. injection Hx as <-. cbn in *.
  apply Hg; [done|]. by destruct acc.
Qed.
Next Obligation.
  cbn. intros s id r s' H Hc Ha. destruct (call_answer _ _ _ _ H) as (x & Hx & Hg). destruct x as [|id' code acc| |]; try done. cbn in *. injection Hx as <-. cbn in *.
  apply Hg; [done|]. by destruct acc.
Qed.
Next Obligation.
  cbn. intros s id r s' H Hc Ha. destruct (call_answer _ _ _ _ H) as (x & Hx & Hg). destruct x as [| |id' code st [v|]|]; try done; cbn in *; injection Hx as <-; [|done]. cbn in *.
  destruct (Hg Hc v eq_refl) as (m & Hm & Hm' & He). by exists m, v.
Qed.
End Server.

(** C16: What an action client reports of an action server is true.  In every session of a client
    with a server, whatever the threads and callbacks of the server do and whichever calls fail:
    when [SendGoal] succeeds with a number, the server had accepted the goal of that number at a moment
    of its life so far;
    when [Cancel] succeeds, there was a moment since the session began at which this goal was
    the server's and its cancellation requested; when [GetResult] succeeds, there was a moment
    at which this goal had ended in the reported terminal state with the reported result.  The
    numbers that the client gives its goals rise and fit 64 bits, also over [Close] and [Create]. *)
Theorem action_session_truthful {Goal Feedback Result : Type} (feedback0 : Feedback) (threads : nat) (s s' : @ActionSystem Goal Feedback Result) os c' :
  session (ActionService0 := action_server_service feedback0 threads) new_client s os c' s' ->
  Forall (truthful (ActionService0 := action_server_service feedback0 threads) s s') os /\
  StronglySorted Z.lt (omap sent_id os) /\ Forall (fun id => 0 < id <= UINT64_MAX) (omap sent_id os).
Proof.
  intros H. split; [by eapply session_truthful|]. destruct (session_ids _ _ _ _ H) as [H1 H2 H3 _]. split; [done|]. eapply Forall_impl; [exact H2|]. intros id Hid. cbn beta in *. lia.
Qed.

(** A goal is sent, executed and its result fetched. *)
Definition after_events (es : list (@ActionEvent Z Z Z)) (s : @ActionSystem Z Z Z) : @ActionSystem Z Z Z := default s (action_run 0 es s).
Definition idle_server : @ActionSystem Z Z Z := action_initial 0 1.
Definition goal_served : @ActionSystem Z Z Z := after_events [EvGoalRequest 6 7; EvGoalDecision 0; EvFlush 0 0; EvFlush 0 0; EvFlush 0 0] idle_server.
Definition execution : list (@ActionEvent Z Z Z) :=
  [EvCall 1 (CallStart 6); EvFlush 1 0; EvFlush 1 0; EvFlush 1 0; EvCall 1 (CallFinish 6 9 SUCCEEDED); EvFlush 1 0; EvFlush 1 0; EvFlush 1 0].
Definition goal_finished : @ActionSystem Z Z Z := after_events execution goal_served.
Definition result_served : @ActionSystem Z Z Z := after_events [EvGetResult 6] goal_finished.
Lemma serves_request (q : @ActionRequest Z) es a (s s2 s' : @ActionSystem Z Z Z) t t' : action_reachable 0 1 s -> action_exec 0 (request_event q) s = Some s2 -> action_run 0 es s2 = Some s' ->
  ac_threads s !! 0%nat = Some t -> ac_threads s' !! 0%nat = Some t' -> th_replies t' !! length (th_replies t) ≫= answer_of = Some a ->
  server_call 0 1 s q a s' /\ rtc (action_step 0) s s'.
Proof.
  intros Hr He Hes Ht Ht' Ha. destruct (th_replies t' !! length (th_replies t)) as [r|] eqn:Hl; [|done]. assert (H2 := machine_run_rtc _ _ _ _ Hes). split.
  - split; [done|]. by exists s, s2, t, t', r.
  - eapply rtc_l; [by eexists|exact H2].
Qed.
Definition seeded_client : LocalClient := snd (CreateClient 1 2 3 true (Ok 5) 0 0 new_client).
Definition sample_outcomes : list (@CallOutcome Z) := [GoalOutcome (Ok 6); ResultOutcome 6 (Ok (SUCCEEDED, Some 9))].
Definition accepted_6 : result DecisionResponse := Ok {| dr_goal_id := 6; dr_result_code := 0; dr_accepted := 1 |}.
Definition result_6 : result (@ResultResponse Z) := Ok {| rr_goal_id := 6; rr_state := SUCCEEDED; rr_ready := 1; rr_result_code := 0; rr_result := Some 9 |}.
Lemma sample_session : session (ActionService0 := action_server_service 0 1) new_client idle_server sample_outcomes
  (snd (SendGoal (fun _ _ => accepted_6) 7 seeded_client)) result_served.
Proof.
  destruct (serves_request (RequestGoal 6 7) [EvGoalDecision 0; EvFlush 0 0; EvFlush 0 0; EvFlush 0 0] (AnswerDecision {| dr_goal_id := 6; dr_result_code := 0; dr_accepted := 1 |})
    idle_server (after_events [EvGoalRequest 6 7] idle_server) goal_served {| th_pc := TIdle; th_replies := [] |} {| th_pc := TIdle; th_replies := [ReplyGoal 6 0 true] |}) as [C1 R1]; [apply rtc_refl|vm_compute; reflexivity..|].
  assert (R2 : rtc (action_step 0) goal_served goal_finished) by (apply (machine_run_rtc (action_exec 0) execution); vm_compute; reflexivity).
  destruct (serves_request (RequestResult 6) [] (AnswerResult {| rr_goal_id := 6; rr_state := SUCCEEDED; rr_ready := 1; rr_result_code := 0; rr_result := Some 9 |})
    goal_finished result_served result_served {| th_pc := TIdle; th_replies := [ReplyGoal 6 0 true] |} {| th_pc := TIdle; th_replies := [ReplyGoal 6 0 true; ReplyResult 6 0 SUCCEEDED (Some 9)] |})
    as [C3 R3]; [unfold action_reachable; fold idle_server; by trans goal_served|vm_compute; reflexivity..|].
  set (c1 := snd (SendGoal (fun _ _ => accepted_6) 7 seeded_client)).
  assert (E1 : GoalOutcome (fst (SendGoal (fun _ _ => accepted_6) 7 seeded_client)) = @GoalOutcome Z (Ok 6)) by (vm_compute; reflexivity).
  assert (E2 : GetGoalResult (fun _ => result_6) 6 c1 = Ok (SUCCEEDED, Some 9)) by (vm_compute; reflexivity).
  unfold sample_outcomes. rewrite <- E1, <- E2. apply (se_result new_client idle_server [_] c1 goal_finished result_served 6 result_6); [|done|intros r E; by injection E as <-].
  apply (se_run new_client idle_server _ _ goal_served); [|done].
  apply (se_goal new_client idle_server [] seeded_client idle_server goal_served 7 accepted_6); [|done|intros r E; by injection E as <-].
  apply (se_create new_client idle_server [] new_client idle_server 1 2 3 true (Ok 5) 0 0). apply se_start.
Qed.
Lemma action_session_truthful_witness : Forall (truthful (ActionService0 := action_server_service 0 1) idle_server result_served) sample_outcomes /\
  StronglySorted Z.lt (omap sent_id sample_outcomes) /\ Forall (fun id => 0 < id <= UINT64_MAX) (omap sent_id sample_outcomes).
Proof. exact (action_session_truthful 0 1 idle_server result_served sample_outcomes _ sample_session). Defined.
