(* ===== verification/ServiceRpc.v ===== *)
(** * Services: request/response over loopback datagrams

    [ServiceServer] ([kcf/src/service_server.cpp]) and [ServiceClient]
    ([kcf/src/service_client.cpp]) with the packets of
    [kcf/include/kcf/service/service_protocol.hpp].  Datagrams can be lost,
    duplicated, delayed and reordered: the network is the collection of
    datagrams ever sent, from which a receiver gets any one at any time. *)
From stdpp Require Import gmap.
From S2P Require Import Prelude.

(** ** Packets *)
Definition SERVICE_MAGIC : Z := 0x4b434653.
Definition SERVICE_PROTOCOL_VERSION : Z := 2.
Definition SERVICE_MAX_PAYLOAD : Z := 4096.
Definition SERVICE_HEADER_SIZE : Z := 72. (** [sizeof(ServiceHeader)] *)
Definition REQUEST : Z := 1.
Definition RESPONSE : Z := 2.
Definition INADDR_LOOPBACK : Z := 0x7f000001.

Record StorageIdentity := { si_type_id : Z; si_layout_id : Z }.
#[export] Instance storage_identity_eq_dec : EqDecision StorageIdentity.
Proof. solve_decision. Defined.

Record ServiceHeader := {
  sh_magic : Z;
  sh_protocol_version : Z;
  sh_packet_type : Z;
  sh_service_id : Z;
  sh_reserved : Z;
  sh_payload_size : Z;
  sh_client_id : Z;
  sh_request_id : Z;
  sh_framework_status : Z;
  sh_reserved2 : Z;
  sh_request_identity : StorageIdentity;  (** [request_type_id], [request_layout_id] *)
  sh_response_identity : StorageIdentity  (** [response_type_id], [response_layout_id] *)
}.

Record ServicePacket := { pk_header : ServiceHeader; pk_payload : list Z }.

(** A datagram as [recvfrom(..., MSG_TRUNC, &source)] reports it. *)
Record Datagram := {
  dg_received : Z;
  dg_inet : bool;
  dg_address : Z;
  dg_port : Z;
  dg_packet : ServicePacket
}.

Definition ValidHeader (h : ServiceHeader) (type : Z) : bool :=
  (sh_magic h =? SERVICE_MAGIC) && (sh_protocol_version h =? SERVICE_PROTOCOL_VERSION) && (sh_packet_type h =? type) &&
  (sh_reserved h =? 0) && (sh_reserved2 h =? 0) && negb (sh_client_id h =? 0) && negb (sh_request_id h =? 0).

(** ** Server *)
Record Handler := {
  hd_request_size : Z;
  hd_response_size : Z;
  hd_request_identity : StorageIdentity;
  hd_response_identity : StorageIdentity
}.

Record Cached := {
  ca_address : Z;
  ca_port : Z;
  ca_request : ServicePacket;
  ca_response : ServicePacket
}.

Section Service.
(** The application: its state and its callbacks ([None]: the callback threw). *)
Context {App : Type} (invoke : Z -> list Z -> App -> App * option (list Z)).

Record Server := {
  sv_fd : bool;                       (** [fd_ >= 0] *)
  sv_port : Z;
  sv_worker : bool;                   (** [worker_.joinable()] *)
  sv_handlers : gmap Z Handler;
  sv_cache : list (option Cached);    (** [cache_], [None] for [!valid] *)
  sv_next_cache : nat;
  sv_app : App;
  sv_handled : list Cached;           (** every request answered by [handlers_] lookup, oldest first *)
  sv_invoked : list (Cached * list Z) (** callback executions that returned, with their output *)
}.

Definition CACHE_SIZE : nat := 64.

(** [Create], once the socket is bound. *)
Definition Create (port : Z) (bound : Z) (s : Server) : Z * Server :=
  if sv_fd s || sv_worker s then (- EBUSY, s)
  else if port =? 0 then (- EINVAL, s)
  else if negb (bound =? 0) then (bound, s)
  else (0, {| sv_fd := true; sv_port := port; sv_worker := sv_worker s; sv_handlers := ∅;
              sv_cache := (fun _ => None) <$> sv_cache s; sv_next_cache := 0; sv_app := sv_app s;
              sv_handled := []; sv_invoked := [] |}).

Definition RegisterHandler (id : Z) (h : Handler) (s : Server) : Z * Server :=
  if negb (sv_fd s) then (- EBADF, s)
  else if sv_worker s then (- EBUSY, s)
  else match sv_handlers s !! id with
       | Some _ => (- EEXIST, s)
       | None =>
           (0, {| sv_fd := sv_fd s; sv_port := sv_port s; sv_worker := sv_worker s;
                  sv_handlers := <[id := h]> (sv_handlers s); sv_cache := sv_cache s; sv_next_cache := sv_next_cache s;
                  sv_app := sv_app s; sv_handled := sv_handled s; sv_invoked := sv_invoked s |})
       end.

Definition Start (s : Server) : Z * Server :=
  if negb (sv_fd s) then (- EBADF, s)
  else if sv_worker s then (- EBUSY, s)
  else (0, {| sv_fd := sv_fd s; sv_port := sv_port s; sv_worker := true; sv_handlers := sv_handlers s;
              sv_cache := sv_cache s; sv_next_cache := sv_next_cache s; sv_app := sv_app s; sv_handled := sv_handled s;
              sv_invoked := sv_invoked s |}).

Definition Stop (s : Server) : Server :=
  {| sv_fd := false; sv_port := 0; sv_worker := false; sv_handlers := sv_handlers s; sv_cache := sv_cache s;
     sv_next_cache := sv_next_cache s; sv_app := sv_app s; sv_handled := sv_handled s; sv_invoked := sv_invoked s |}.

(** The header a response starts from, with a status. *)
Definition response_header (h : ServiceHeader) (status size : Z) (request_id response_id : StorageIdentity) : ServiceHeader :=
  {| sh_magic := sh_magic h; sh_protocol_version := sh_protocol_version h; sh_packet_type := RESPONSE;
     sh_service_id := sh_service_id h; sh_reserved := sh_reserved h; sh_payload_size := size; sh_client_id := sh_client_id h;
     sh_request_id := sh_request_id h; sh_framework_status := status; sh_reserved2 := sh_reserved2 h;
     sh_request_identity := request_id; sh_response_identity := response_id |}.
Definition error_response (h : ServiceHeader) (status : Z) : ServicePacket :=
  {| pk_header := response_header h status 0 (sh_request_identity h) (sh_response_identity h); pk_payload := [] |}.

(** [sendto(&packet, sizeof(ServiceHeader) + packet.header.payload_size)] *)
Definition sent_packet (p : ServicePacket) : ServicePacket :=
  {| pk_header := pk_header p; pk_payload := take (Z.to_nat (sh_payload_size (pk_header p))) (pk_payload p) |}.

(** The identity of a request in the cache. *)
Definition same_request (d : Datagram) (e : Cached) : bool :=
  let h := pk_header (dg_packet d) in
  let eh := pk_header (ca_request e) in
  (ca_address e =? dg_address d) && (ca_port e =? dg_port d) && (sh_client_id eh =? sh_client_id h) &&
  (sh_request_id eh =? sh_request_id h) && (sh_service_id eh =? sh_service_id h).

Fixpoint find_cached (d : Datagram) (cache : list (option Cached)) : option Cached :=
  match cache with
  | [] => None
  | Some e :: rest => if same_request d e then Some e else find_cached d rest
  | None :: rest => find_cached d rest
  end.

(** A retransmission: same types, size and bytes. *)
Definition same_data (p q : ServicePacket) : bool :=
  bool_decide (sh_request_identity (pk_header p) = sh_request_identity (pk_header q)) &&
  bool_decide (sh_response_identity (pk_header p) = sh_response_identity (pk_header q)) &&
  (sh_payload_size (pk_header p) =? sh_payload_size (pk_header q)) &&
  bool_decide (take (Z.to_nat (sh_payload_size (pk_header q))) (pk_payload p) =
               take (Z.to_nat (sh_payload_size (pk_header q))) (pk_payload q)).

(** Handler lookup and callback: the response, the new application state and
    the output of a callback that returned. *)
Definition handle (s : Server) (p : ServicePacket) : ServicePacket * App * option (list Z) :=
  let h := pk_header p in
  match sv_handlers s !! sh_service_id h with
  | None => (error_response h (- ENOENT), sv_app s, None)
  | Some hd =>
      let fail status :=
        {| pk_header := response_header h status 0 (hd_request_identity hd) (hd_response_identity hd); pk_payload := [] |} in
      if negb (hd_request_size hd =? sh_payload_size h) then (fail (- EMSGSIZE), sv_app s, None)
      else if negb (bool_decide (hd_request_identity hd = sh_request_identity h)) ||
              negb (bool_decide (hd_response_identity hd = sh_response_identity h)) then (fail (- EPROTOTYPE), sv_app s, None)
      else match invoke (sh_service_id h) (take (Z.to_nat (sh_payload_size h)) (pk_payload p)) (sv_app s) with
           | (app, None) => (fail (- EFAULT), app, None)
           | (app, Some output) =>
               ({| pk_header := response_header h 0 (hd_response_size hd) (hd_request_identity hd) (hd_response_identity hd);
                   pk_payload := output |}, app, Some output)
           end
  end.

(** One iteration of [Run] on a received datagram: the response sent, if any. *)
Definition serve (d : Datagram) (s : Server) : Server * option ServicePacket :=
  let p := dg_packet d in
  let h := pk_header p in
  if (dg_received d <? SERVICE_HEADER_SIZE) || negb (dg_inet d) || negb (dg_address d =? INADDR_LOOPBACK) ||
     negb (ValidHeader h REQUEST) || negb (sh_framework_status h =? 0) then (s, None)
  else if (SERVICE_MAX_PAYLOAD <? sh_payload_size h) || negb (dg_received d =? SERVICE_HEADER_SIZE + sh_payload_size h)
  then (s, Some (sent_packet (error_response h (- EMSGSIZE))))
  else match find_cached d (sv_cache s) with
       | Some e =>
           if same_data (ca_request e) p then (s, Some (sent_packet (ca_response e)))
           else (s, Some (sent_packet (error_response h (- EINVAL))))
       | None =>
           let '(response, app, output) := handle s p in
           let e := {| ca_address := dg_address d; ca_port := dg_port d; ca_request := p; ca_response := response |} in
           ({| sv_fd := sv_fd s; sv_port := sv_port s; sv_worker := sv_worker s; sv_handlers := sv_handlers s;
               sv_cache := <[sv_next_cache s := Some e]> (sv_cache s);
               sv_next_cache := ((sv_next_cache s + 1) mod CACHE_SIZE)%nat;
               sv_app := app; sv_handled := sv_handled s ++ [e];
               sv_invoked := sv_invoked s ++ match output with Some o => [(e, o)] | None => [] end |},
            Some (sent_packet response))
       end.

(** The server after a series of datagrams. *)
Definition serve_all (ds : list Datagram) (s : Server) : Server := foldl (fun s d => fst (serve d s)) s ds.

(** ** Client *)
Record Client := {
  cl_fd : bool;
  cl_target_port : Z;
  cl_retry_count : Z;
  cl_client_id : Z;
  cl_request_id : Z
}.

(** What [Call] passes to [CallRaw]. *)
Record CallArgs := {
  ar_service_id : Z;
  ar_input : list Z;
  ar_output_size : Z;
  ar_request_identity : StorageIdentity;
  ar_response_identity : StorageIdentity
}.

(** The request packet of a call. *)
Definition request_packet (c : Client) (a : CallArgs) : ServicePacket :=
  {| pk_header :=
       {| sh_magic := SERVICE_MAGIC; sh_protocol_version := SERVICE_PROTOCOL_VERSION; sh_packet_type := REQUEST;
          sh_service_id := ar_service_id a; sh_reserved := 0; sh_payload_size := vsize (ar_input a);
          sh_client_id := cl_client_id c; sh_request_id := cl_request_id c; sh_framework_status := 0; sh_reserved2 := 0;
          sh_request_identity := ar_request_identity a; sh_response_identity := ar_response_identity a |};
     pk_payload := ar_input a |}.

(** The guards of [CallRaw] and [++request_id_]. *)
Definition begin_call (c : Client) : Z * Client :=
  if negb (cl_fd c) then (- EBADF, c)
  else if cl_request_id c =? UINT64_MAX then (- EOVERFLOW, c)
  else (0, {| cl_fd := cl_fd c; cl_target_port := cl_target_port c; cl_retry_count := cl_retry_count c;
              cl_client_id := cl_client_id c; cl_request_id := cl_request_id c + 1 |}).

(** What one received datagram does to the call: [None] keeps waiting. *)
Definition accept_response (c : Client) (a : CallArgs) (d : Datagram) : option (result (list Z)) :=
  let h := pk_header (dg_packet d) in
  if (dg_received d <? SERVICE_HEADER_SIZE) || negb (dg_inet d) || negb (dg_address d =? INADDR_LOOPBACK) ||
     negb (dg_port d =? cl_target_port c) || negb (ValidHeader h RESPONSE) ||
     negb (sh_client_id h =? cl_client_id c) || negb (sh_request_id h =? cl_request_id c) ||
     negb (sh_service_id h =? ar_service_id a) || (SERVICE_MAX_PAYLOAD <? sh_payload_size h) ||
     negb (dg_received d =? SERVICE_HEADER_SIZE + sh_payload_size h) then None
  else if negb (bool_decide (sh_request_identity h = ar_request_identity a)) ||
          negb (bool_decide (sh_response_identity h = ar_response_identity a)) then Some (Err (- EPROTOTYPE))
  else if sh_framework_status h <? 0 then
    if sh_payload_size h =? 0 then Some (Err (sh_framework_status h)) else None
  else if negb (sh_framework_status h =? 0) then None
  else if negb (sh_payload_size h =? ar_output_size a) then Some (Err (- EMSGSIZE))
  else Some (Ok (take (Z.to_nat (ar_output_size a)) (pk_payload (dg_packet d)))).

(** What the socket calls of one attempt do: the send fails, or datagrams
    arrive before the deadline, or receiving fails. *)
Inductive Attempt :=
| SendFailed (error : Z)
| Arrivals (ds : list Datagram) (error : option Z).

Fixpoint await (c : Client) (a : CallArgs) (ds : list Datagram) (error : option Z) : option (result (list Z)) :=
  match ds with
  | [] => match error with Some e => Some (Err (- e)) | None => None end
  | d :: rest => match accept_response c a d with Some r => Some r | None => await c a rest error end
  end.

(** The retry loop; [retries] more attempts after this one. *)
Fixpoint attempts (c : Client) (a : CallArgs) (env : nat -> Attempt) (k : nat) (retries : nat) : result (list Z) :=
  match env k with
  | SendFailed error => Err (- error)
  | Arrivals ds error =>
      match await c a ds error with
      | Some r => r
      | None => match retries with O => Err (- ETIMEDOUT) | S rest => attempts c a env (S k) rest end
      end
  end.

Definition CallRaw (c : Client) (a : CallArgs) (env : nat -> Attempt) : Client * result (list Z) :=
  let '(error, c') := begin_call c in
  if negb (error =? 0) then (c, Err error)
  else (c', attempts c' a env 0 (Z.to_nat (cl_retry_count c'))).
End Service.
