(* ===== verification/ServiceSafety.v ===== *)
(** * Services: at-most-once execution and end-to-end integrity *)
From stdpp Require Import gmap.
From S2P Require Import Prelude ServiceRpc.

Section ServiceProofs.
Context {App : Type} (invoke : Z -> list Z -> App -> App * option (list Z)).
Implicit Types (s : @Server App) (d : Datagram) (e : Cached).

(** ** The response cache holds the last 64 handled requests *)
Definition request_key (e : Cached) : Z * Z * Z * Z * Z :=
  (ca_address e, ca_port e, sh_client_id (pk_header (ca_request e)), sh_request_id (pk_header (ca_request e)),
   sh_service_id (pk_header (ca_request e))).
Definition datagram_key (d : Datagram) : Z * Z * Z * Z * Z :=
  (dg_address d, dg_port d, sh_client_id (pk_header (dg_packet d)), sh_request_id (pk_header (dg_packet d)),
   sh_service_id (pk_header (dg_packet d))).

Lemma same_request_key d e : same_request d e = true <-> request_key e = datagram_key d.
Proof.
  unfold same_request, request_key, datagram_key. rewrite !andb_true_iff, !Z.eqb_eq. split; [intros [[[[]]]]; congruence|intros [=]; tauto].
Qed.

Lemma find_cached_some d cache e : find_cached d cache = Some e -> Some e ∈ cache /\ request_key e = datagram_key d.
Proof.
  induction cache as [|[x|] cache IH]; simpl; [done| |].
  - case_check; [|intros H; destruct (IH H); split; [by right|done]].
    intros [= ->]. split; [left|by apply same_request_key].
  - intros H. destruct (IH H). split; [by right|done].
Qed.

Lemma find_cached_none d cache e : find_cached d cache = None -> Some e ∈ cache -> request_key e <> datagram_key d.
Proof.
  induction cache as [|[x|] cache IH]; simpl; intros Hf He; [by apply elem_of_nil in He| |].
  - case_check; [done|]. apply elem_of_cons in He as [[= ->]|He]; [|by apply IH].
    intros Hk%same_request_key. congruence.
  - apply elem_of_cons in He as [|He]; [done|by apply IH].
Qed.

Record cache_ok s : Prop := {
  co_length : length (sv_cache s) = CACHE_SIZE;
  co_next : sv_next_cache s = (length (sv_handled s) mod CACHE_SIZE)%nat;
  co_recent : forall j e, sv_handled s !! j = Some e -> (length (sv_handled s) <= j + CACHE_SIZE)%nat ->
    sv_cache s !! (j mod CACHE_SIZE)%nat = Some (Some e);
  co_entries : forall i e, sv_cache s !! i = Some (Some e) -> exists j, sv_handled s !! j = Some e /\
    (length (sv_handled s) <= j + CACHE_SIZE)%nat /\ (j mod CACHE_SIZE)%nat = i;
  co_window : forall i j e e', sv_handled s !! i = Some e -> sv_handled s !! j = Some e' -> (i < j)%nat ->
    request_key e = request_key e' -> (i + CACHE_SIZE < j)%nat
}.

(** What the server did for a datagram that it answered from the handlers. *)
Lemma serve_cases d s :
  (exists r, serve invoke d s = (s, r)) \/
  exists response app output,
    find_cached d (sv_cache s) = None /\ handle invoke s (dg_packet d) = (response, app, output) /\
    let e := {| ca_address := dg_address d; ca_port := dg_port d; ca_request := dg_packet d; ca_response := response |} in
    serve invoke d s =
      ({| sv_fd := sv_fd s; sv_port := sv_port s; sv_worker := sv_worker s; sv_handlers := sv_handlers s;
          sv_cache := <[sv_next_cache s := Some e]> (sv_cache s);
          sv_next_cache := ((sv_next_cache s + 1) mod CACHE_SIZE)%nat;
          sv_app := app; sv_handled := sv_handled s ++ [e];
          sv_invoked := sv_invoked s ++ match output with Some o => [(e, o)] | None => [] end |},
       Some (sent_packet response)).
Proof.
  unfold serve. case_check; [left; eauto|]. case_check; [left; eauto|].
  destruct (find_cached d (sv_cache s)); [left; case_check; eauto|].
  right. destruct (handle invoke s (dg_packet d)) as [[response app] output] eqn:Hh. exists response, app, output. auto.
Qed.

Lemma serve_cache_ok d s : cache_ok s -> cache_ok (fst (serve invoke d s)).
Proof.
  intros Hok. destruct (serve_cases d s) as [[r ->]|(response & app & output & Hf & _ & ->)]; [done|]. cbn [fst].
  destruct Hok as [Hl Hn Hr He Hw]. set (e := Build_Cached _ _ _ _). set (n := length (sv_handled s)) in *.
  assert (request_key e = datagram_key d) as Hk by done.
  assert (sv_next_cache s < length (sv_cache s))%nat as Hlt.
  { rewrite Hn, Hl. apply Nat.mod_upper_bound. done. }
  constructor; cbn [sv_cache sv_next_cache sv_handled].
  - by rewrite length_insert.
  - rewrite length_app, Hn. cbn [length]. fold n. by rewrite Nat.Div0.add_mod_idemp_l.
  - intros j x Hj Hrec. rewrite length_app in Hrec. simpl in Hrec. fold n in Hrec.
    apply lookup_app_Some in Hj as [Hj|[Hge Hj]].
    + assert (j < n)%nat by (by eapply lookup_lt_Some).
      rewrite list_lookup_insert_ne; [apply Hr; [done|fold n; lia]|].
      rewrite Hn. fold n. intros Hmod.
      assert (n - j < CACHE_SIZE)%nat by (unfold CACHE_SIZE in *; lia).
      pose proof (Nat.div_mod_eq n CACHE_SIZE). pose proof (Nat.div_mod_eq j CACHE_SIZE).
      unfold CACHE_SIZE in *. lia.
    + fold n in Hge, Hj. destruct (j - n)%nat as [|k] eqn:E; [|done]. simpl in Hj. simplify_eq.
      assert (j = n) as -> by lia. rewrite <- Hn. by apply list_lookup_insert_eq.
  - intros i x Hi. rewrite length_app. simpl. fold n. destruct (decide (i = sv_next_cache s)) as [->|Hne].
    + rewrite list_lookup_insert_eq in Hi by done. simplify_eq. exists n. unfold CACHE_SIZE in *.
      rewrite lookup_app_r, Nat.sub_diag by lia. split_and!; auto. lia.
    + rewrite list_lookup_insert_ne in Hi by done. destruct (He i x Hi) as (j & Hj & Hrec & Hmod). fold n in Hrec.
      exists j. split_and!; auto; [by apply lookup_app_l_Some|].
      destruct (decide (n = j + CACHE_SIZE)%nat) as [Heq|]; [|lia]. exfalso. apply Hne. rewrite Hn. fold n.
      rewrite Heq, <- Hmod. symmetry. replace (j + CACHE_SIZE)%nat with (j + 1 * CACHE_SIZE)%nat by lia. apply Nat.Div0.mod_add.
  - intros i j x x' Hi Hj Hij Hkey. apply lookup_app_Some in Hj as [Hj|[Hge Hj]].
    + rewrite lookup_app_l in Hi by (apply lookup_lt_Some in Hj; lia). eauto.
    + fold n in Hge, Hj. destruct (j - n)%nat as [|k] eqn:E; [|done]. simpl in Hj. simplify_eq.
      assert (j = n) as -> by lia. rewrite lookup_app_l in Hi by (fold n; lia).
      destruct (Nat.lt_ge_cases (i + CACHE_SIZE) n) as [|Hin]; [done|]. exfalso.
      apply (find_cached_none d (sv_cache s) x Hf); [|unfold request_key, datagram_key; simpl in *; congruence].
      eapply list_elem_of_lookup_2. apply (Hr i x Hi). fold n. lia.
Qed.

Lemma serve_all_snoc ds d s : serve_all invoke (ds ++ [d]) s = fst (serve invoke d (serve_all invoke ds s)).
Proof. unfold serve_all. by rewrite foldl_app. Qed.

Lemma serve_all_cache_ok ds s : cache_ok s -> cache_ok (serve_all invoke ds s).
Proof.
  intros Hs. induction ds as [|d ds IH] using rev_ind; [done|]. rewrite serve_all_snoc. by apply serve_cache_ok.
Qed.

(** A server that has just been created and has its handlers registered. *)
Definition fresh s : Prop :=
  sv_cache s = repeat None CACHE_SIZE /\ sv_next_cache s = 0%nat /\ sv_handled s = [] /\ sv_invoked s = [].

Lemma fresh_cache_ok s : fresh s -> cache_ok s.
Proof.
  intros (Hc & Hn & Hh & _). constructor.
  - by rewrite Hc.
  - by rewrite Hn, Hh.
  - intros j e Hj. by rewrite Hh in Hj.
  - intros i e Hi. rewrite Hc in Hi. apply list_elem_of_lookup_2 in Hi. by apply list_elem_of_In, repeat_spec in Hi.
  - intros i j e e' Hi. by rewrite Hh in Hi.
Qed.

Lemma serve_invoked d s :
  (sv_invoked s).*1 `sublist_of` sv_handled s ->
  (sv_invoked (fst (serve invoke d s))).*1 `sublist_of` sv_handled (fst (serve invoke d s)).
Proof.
  intros Hs. destruct (serve_cases d s) as [[r ->]|(response & app & output & _ & _ & ->)]; [done|]. simpl.
  rewrite fmap_app. apply sublist_app; [done|]. destruct output; simpl; [done|apply sublist_nil_l].
Qed.

(** C3: At-most-once execution.  Whatever datagrams arrive, in whatever order
    and however often repeated, the requests the server hands to callbacks form
    a sequence in which the same request (source address and port, client id,
    request id, service id) never occurs twice within 65 consecutive requests,
    and each occurrence runs its callback at most once: a retransmission is
    only executed again after at least 64 other requests have been handled in between. *)
Theorem service_at_most_once s ds i j e e' :
  fresh s ->
  let s' := serve_all invoke ds s in
  (sv_invoked s').*1 `sublist_of` sv_handled s' /\
  (sv_handled s' !! i = Some e -> sv_handled s' !! j = Some e' -> (i < j)%nat -> request_key e = request_key e' ->
   (i + 64 < j)%nat).
Proof.
  intros Hf s'. split.
  - unfold s'. induction ds as [|d ds IH] using rev_ind.
    + unfold serve_all. simpl. destruct Hf as (_&_&Hh&Hi). by rewrite Hh, Hi.
    + rewrite serve_all_snoc. by apply serve_invoked.
  - apply (co_window _ (serve_all_cache_ok ds s (fresh_cache_ok s Hf))).
Qed.

(** Retransmissions.  A datagram that repeats the request handled at
    position [j], with the same types and payload, while fewer than 64 requests
    have been handled since, executes nothing, changes nothing and is answered
    with the stored response. *)
Theorem service_retransmission s ds d j e :
  fresh s ->
  let s' := serve_all invoke ds s in
  sv_handled s' !! j = Some e -> (length (sv_handled s') <= j + 64)%nat ->
  ca_address e = dg_address d -> ca_port e = dg_port d -> ca_request e = dg_packet d ->
  dg_inet d = true -> dg_address d = INADDR_LOOPBACK -> ValidHeader (pk_header (dg_packet d)) REQUEST = true ->
  sh_framework_status (pk_header (dg_packet d)) = 0 -> 0 <= sh_payload_size (pk_header (dg_packet d)) <= SERVICE_MAX_PAYLOAD ->
  dg_received d = SERVICE_HEADER_SIZE + sh_payload_size (pk_header (dg_packet d)) ->
  serve invoke d s' = (s', Some (sent_packet (ca_response e))).
Proof.
  intros Hf s' Hj Hrec Ha Hp Hreq Hin Hlo Hv Hst Hsz Hlen.
  pose proof (serve_all_cache_ok ds s (fresh_cache_ok s Hf)) as Hok. fold s' in Hok. destruct Hok as [Hl Hn Hr He Hw].
  assert (request_key e = datagram_key d) as Hk.
  { unfold request_key, datagram_key. by rewrite Ha, Hp, Hreq. }
  pose proof (Hr j e Hj Hrec) as Hc. apply list_elem_of_lookup_2 in Hc.
  unfold serve. rewrite Hin, Hlo, Hv, Hst. unfold SERVICE_HEADER_SIZE in *.
  destruct (Z.ltb_spec (dg_received d) 72); [lia|]. simpl.
  destruct (Z.ltb_spec SERVICE_MAX_PAYLOAD (sh_payload_size (pk_header (dg_packet d)))); [lia|].
  rewrite Hlen, Z.eqb_refl. simpl.
  destruct (find_cached d (sv_cache s')) as [e'|] eqn:Hfc; [|by destruct (find_cached_none _ _ _ Hfc Hc)].
  destruct (find_cached_some _ _ _ Hfc) as [[k He']%list_elem_of_lookup Hk']. destruct (He k e' He') as (i & Hi & Hreci & _).
  (* the cache entry found is the one at position j *)
  assert (e' = e) as ->.
  { pose proof (lookup_lt_Some _ _ _ Hi). pose proof (lookup_lt_Some _ _ _ Hj).
    destruct (Nat.lt_trichotomy i j) as [Hij|[->|Hij]]; [|congruence|].
    - pose proof (Hw i j e' e Hi Hj Hij ltac:(congruence)). unfold CACHE_SIZE in *. lia.
    - pose proof (Hw j i e e' Hj Hi Hij ltac:(congruence)). unfold CACHE_SIZE in *. lia. }
  assert (same_data (ca_request e) (dg_packet d) = true) as ->; [|done].
  rewrite Hreq. unfold same_data. by rewrite !bool_decide_eq_true_2, Z.eqb_refl.
Qed.

(** ** End to end *)
(** A handled request came from a datagram, its response carries its ids, and
    a success response carries the output of a callback execution. *)
Definition handled_ok (ds : list Datagram) s e : Prop :=
  (exists d, d ∈ ds /\ ca_request e = dg_packet d) /\
  sh_client_id (pk_header (ca_response e)) = sh_client_id (pk_header (ca_request e)) /\
  sh_request_id (pk_header (ca_response e)) = sh_request_id (pk_header (ca_request e)) /\
  (sh_framework_status (pk_header (ca_response e)) = 0 -> (e, pk_payload (ca_response e)) ∈ sv_invoked s).

Lemma handle_response s p response app output :
  handle invoke s p = (response, app, output) ->
  sh_client_id (pk_header response) = sh_client_id (pk_header p) /\
  sh_request_id (pk_header response) = sh_request_id (pk_header p) /\
  (sh_framework_status (pk_header response) = 0 -> output = Some (pk_payload response)).
Proof.
  unfold handle. destruct (sv_handlers s !! _) as [hd|]; [|by intros [= <- <- <-]].
  repeat case_check; try (by intros [= <- <- <-]). destruct (invoke _ _ _) as [app' [o|]]; by intros [= <- <- <-].
Qed.

Lemma serve_handled_ok ds d s :
  (forall e, e ∈ sv_handled s -> handled_ok ds s e) ->
  let s' := fst (serve invoke d s) in forall e, e ∈ sv_handled s' -> handled_ok (ds ++ [d]) s' e.
Proof.
  intros Hs s' e. unfold s'. destruct (serve_cases d s) as [[r ->]|(response & app & output & _ & Hh & ->)]; simpl; intros He.
  - destruct (Hs e He) as ((d0 & Hd0 & Hr) & ?&?&?). split; [|done]. exists d0. split; [apply elem_of_app; by left|done].
  - destruct (handle_response _ _ _ _ _ Hh) as (Hc & Hr & Ho).
    apply elem_of_app in He as [He| ->%list_elem_of_singleton].
    + destruct (Hs e He) as ((d0 & Hd0 & Hq) & ?&?&Hinv). split_and!; auto.
      * exists d0. split; [apply elem_of_app; by left|done].
      * intros Hst. apply elem_of_app. left. by apply Hinv.
    + split_and!; auto.
      * exists d. split; [apply elem_of_app; right; left|done].
      * intros Hst. simpl in *. rewrite (Ho Hst). apply elem_of_app. right. left.
Qed.

Lemma serve_all_handled_ok ds s : fresh s ->
  forall e, e ∈ sv_handled (serve_all invoke ds s) -> handled_ok ds (serve_all invoke ds s) e.
Proof.
  intros Hf. induction ds as [|d ds IH] using rev_ind.
  - destruct Hf as (_&_&Hh&_). intros e He. unfold serve_all in He. simpl in He. rewrite Hh in He. by apply elem_of_nil in He.
  - rewrite serve_all_snoc. by apply serve_handled_ok.
Qed.

(** What a server sends is an error or the response of a handled request. *)
Lemma serve_response d s p :
  cache_ok s -> snd (serve invoke d s) = Some p ->
  sh_framework_status (pk_header p) <> 0 \/
  exists e, e ∈ sv_handled (fst (serve invoke d s)) /\ p = sent_packet (ca_response e).
Proof.
  intros Hok. unfold serve. case_check; [done|]. case_check; [intros [= <-]; by left|].
  destruct (find_cached d (sv_cache s)) as [e|] eqn:Hf.
  - case_check; simpl; intros [= <-]; [|by left]. right. exists e. split; [|done].
    destruct (find_cached_some _ _ _ Hf) as [[k Hk]%list_elem_of_lookup _].
    destruct (co_entries _ Hok k e Hk) as (j & Hj & _). by eapply list_elem_of_lookup_2.
  - destruct (handle invoke s (dg_packet d)) as [[response app] output]. simpl. intros [= <-]. right.
    eexists. split; [apply elem_of_app; right; left|done].
Qed.

(** Handled requests and callback executions are never forgotten. *)
Lemma serve_all_mono ds ds' s e o :
  (e ∈ sv_handled (serve_all invoke ds s) -> e ∈ sv_handled (serve_all invoke (ds ++ ds') s)) /\
  ((e, o) ∈ sv_invoked (serve_all invoke ds s) -> (e, o) ∈ sv_invoked (serve_all invoke (ds ++ ds') s)).
Proof.
  induction ds' as [|d ds' [IH1 IH2]] using rev_ind; [by rewrite app_nil_r|]. rewrite app_assoc, serve_all_snoc.
  destruct (serve_cases d (serve_all invoke (ds ++ ds') s)) as [[r ->]|(response & app & output & _ & _ & ->)]; simpl; [done|].
  split; intros H; apply elem_of_app; left; auto.
Qed.

Lemma await_ok c a ds error output : await c a ds error = Some (Ok output) -> exists d, d ∈ ds /\ accept_response c a d = Some (Ok output).
Proof.
  induction ds as [|d ds IH]; simpl; [by destruct error|]. destruct (accept_response c a d) as [r|] eqn:E.
  - intros [= ->]. exists d. split; [left|done].
  - intros H. destruct (IH H) as (x & ? & ?). exists x. split; [by right|done].
Qed.

Lemma attempts_ok c a env k retries output : attempts c a env k retries = Ok output ->
  exists i ds error d, env i = Arrivals ds error /\ d ∈ ds /\ accept_response c a d = Some (Ok output).
Proof.
  revert k. induction retries as [|n IH]; intros k; simpl; destruct (env k) as [e|ds error] eqn:Hk; try done;
    destruct (await c a ds error) as [r|] eqn:Ha; try done; intros H; subst; eauto.
  - destruct (await_ok _ _ _ _ _ Ha) as (d & ? & ?). eauto 8.
  - destruct (await_ok _ _ _ _ _ Ha) as (d & ? & ?). eauto 8.
Qed.

Lemma accept_ok c a d output : accept_response c a d = Some (Ok output) ->
  let h := pk_header (dg_packet d) in
  dg_address d = INADDR_LOOPBACK /\ dg_port d = cl_target_port c /\ sh_client_id h = cl_client_id c /\
  sh_request_id h = cl_request_id c /\ sh_framework_status h = 0 /\ sh_payload_size h = ar_output_size a /\
  output = take (Z.to_nat (ar_output_size a)) (pk_payload (dg_packet d)).
Proof.
  unfold accept_response. case_check; [done|]. bool_to_prop. repeat (case_check; [done|]). case_check; [by case_check|].
  repeat (case_check; [done|]). intros [= <-]. bool_to_prop. split_and!; auto.
Qed.

(** C36: End-to-end integrity of a call.  Let a server process any series [ds]
    of datagrams.  If a client's [CallRaw] returns 0 with some output, whatever
    the network lost, repeated or reordered over its attempts, then the server
    executed a callback on exactly this call's request and the output is what
    that execution produced.  The environment's part: only the server sends
    from its port on the loopback address, and no other request in [ds] carries
    this call's client id (a random 64-bit number) and request id. *)
Theorem service_call_integrity s ds c c' a env output :
  fresh s -> CallRaw c a env = (c', Ok output) ->
  (forall k xs error x, env k = Arrivals xs error -> x ∈ xs -> dg_address x = INADDR_LOOPBACK ->
     dg_port x = cl_target_port c' ->
     exists before d after, ds = before ++ d :: after /\
       snd (serve invoke d (serve_all invoke before s)) = Some (dg_packet x)) ->
  (forall d, d ∈ ds -> sh_client_id (pk_header (dg_packet d)) = cl_client_id c' ->
     sh_request_id (pk_header (dg_packet d)) = cl_request_id c' -> dg_packet d = request_packet c' a) ->
  exists e o, (e, o) ∈ sv_invoked (serve_all invoke ds s) /\ ca_request e = request_packet c' a /\
    output = take (Z.to_nat (ar_output_size a)) o.
Proof.
  intros Hf Hcall Hnet Hids. unfold CallRaw in Hcall. destruct (begin_call c) as [error c1]. case_check; [done|].
  injection Hcall as -> Hatt.
  destruct (attempts_ok _ _ _ _ _ _ Hatt) as (i & xs & er & x & Henv & Hx & Hacc).
  destruct (accept_ok _ _ _ _ Hacc) as (Hadr & Hport & Hcid & Hrid & Hst & Hsz & ->).
  destruct (Hnet i xs er x Henv Hx Hadr Hport) as (before & d & after & Hds & Hsrv).
  destruct (serve_response d _ _ (serve_all_cache_ok before s (fresh_cache_ok s Hf)) Hsrv) as [Hne|(e & He & Hp)]; [done|].
  rewrite <- serve_all_snoc in He. pose proof (serve_all_handled_ok _ _ Hf e He) as ((d0 & Hd0 & Hreq) & Hc & Hr & Hinv).
  rewrite Hp in *. simpl in *.
  assert (before ++ [d] ++ after = ds) as Hall by (by rewrite Hds).
  exists e, (pk_payload (ca_response e)). split_and!.
  - rewrite <- Hall, app_assoc. apply serve_all_mono, Hinv, Hst.
  - rewrite Hreq. apply Hids; [|congruence..]. rewrite <- Hall, app_assoc. apply elem_of_app. by left.
  - rewrite take_take, Hsz. f_equal. lia.
Qed.
End ServiceProofs.

(** ** Witnesses: a service that reverses two bytes and counts its executions *)
Definition sample_invoke (id : Z) (input : list Z) (count : Z) : Z * option (list Z) := (count + 1, Some (rev input)).
Definition no_identity : StorageIdentity := {| si_type_id := 0; si_layout_id := 0 |}.
Definition sample_server : @Server Z :=
  {| sv_fd := true; sv_port := 9000; sv_worker := true;
     sv_handlers := {[7 := {| hd_request_size := 2; hd_response_size := 2; hd_request_identity := no_identity;
                              hd_response_identity := no_identity |}]};
     sv_cache := repeat None CACHE_SIZE; sv_next_cache := 0; sv_app := 0; sv_handled := []; sv_invoked := [] |}.
Definition sample_client : Client :=
  {| cl_fd := true; cl_target_port := 9000; cl_retry_count := 2; cl_client_id := 42; cl_request_id := 0 |}.
Definition sample_caller : Client :=
  {| cl_fd := true; cl_target_port := 9000; cl_retry_count := 2; cl_client_id := 42; cl_request_id := 1 |}.
Definition sample_args : CallArgs :=
  {| ar_service_id := 7; ar_input := [1; 2]; ar_output_size := 2; ar_request_identity := no_identity;
     ar_response_identity := no_identity |}.
Definition sample_request : Datagram :=
  {| dg_received := 74; dg_inet := true; dg_address := INADDR_LOOPBACK; dg_port := 4000;
     dg_packet := request_packet sample_caller sample_args |}.
(** The request arrives three times; the first response is lost. *)
Definition sample_datagrams : list Datagram := [sample_request; sample_request; sample_request].
Definition sample_response : ServicePacket :=
  {| pk_header := response_header (pk_header (dg_packet sample_request)) 0 2 no_identity no_identity; pk_payload := [2; 1] |}.
Definition sample_env (k : nat) : Attempt :=
  match k with
  | O => Arrivals [] None
  | _ => Arrivals [{| dg_received := 74; dg_inet := true; dg_address := INADDR_LOOPBACK; dg_port := 9000;
                      dg_packet := sample_response |}] None
  end.

Lemma sample_fresh : fresh sample_server.
Proof. repeat split. Qed.

Lemma service_at_most_once_witness :
  sv_app (serve_all sample_invoke sample_datagrams sample_server) = 1 /\
  (sv_invoked (serve_all sample_invoke sample_datagrams sample_server)).*1 `sublist_of`
    sv_handled (serve_all sample_invoke sample_datagrams sample_server).
Proof.
  split; [vm_compute; reflexivity|].
  apply (service_at_most_once sample_invoke sample_server sample_datagrams 0 1
    {| ca_address := 0; ca_port := 0; ca_request := dg_packet sample_request; ca_response := sample_response |}
    {| ca_address := 0; ca_port := 0; ca_request := dg_packet sample_request; ca_response := sample_response |} sample_fresh).
Defined.

Lemma service_retransmission_witness :
  snd (serve sample_invoke sample_request (serve_all sample_invoke [sample_request] sample_server)) = Some (sent_packet sample_response).
Proof.
  rewrite (service_retransmission sample_invoke sample_server [sample_request] sample_request 0
    {| ca_address := INADDR_LOOPBACK; ca_port := 4000; ca_request := dg_packet sample_request; ca_response := sample_response |}
    sample_fresh); try (vm_compute; reflexivity).
  - vm_compute. lia.
  - vm_compute. split; discriminate.
Defined.

Lemma service_call_integrity_witness :
  CallRaw sample_client sample_args sample_env = (sample_caller, Ok [2; 1]) /\
  exists e o, (e, o) ∈ sv_invoked (serve_all sample_invoke sample_datagrams sample_server) /\
  ca_request e = request_packet sample_caller sample_args /\ [2; 1] = take 2 o.
Proof.
  split; [vm_compute; reflexivity|].
  apply (service_call_integrity sample_invoke sample_server sample_datagrams sample_client sample_caller sample_args sample_env [2; 1] sample_fresh).
  - vm_compute. reflexivity.
  - intros [|k] xs error x Henv Hx _ _; simpl in Henv; injection Henv as <- _.
    + apply elem_of_nil in Hx. destruct Hx.
    + apply list_elem_of_singleton in Hx as ->. exists [], sample_request, [sample_request; sample_request].
      split; [reflexivity|]. vm_compute. reflexivity.
  - intros d Hd _ _. apply list_elem_of_In in Hd. simpl in Hd. destruct Hd as [<-|[<-|[<-|[]]]]; reflexivity.
Defined.
