(* ===== verification/ProcessRuntime.v ===== *)
(** * Process runtime

    [ProcessRuntime] of [kcf/src/process_runtime.cpp]: the thread of [Run], which
    drives the element's [Setup] / [Loop] / [Shutdown], the supervision worker of
    [Supervise] / [SupervisorLost], signal handlers and other threads calling
    [RequestStop].  Each access to the shared atomics is a step; what system
    calls and element callbacks return is chosen by the environment. *)
From S2P Require Import Prelude.

Inductive ProcessState := STOPPED | STARTING | RUNNING | STOPPING | ERROR.
#[export] Instance process_state_eq_dec : EqDecision ProcessState.
Proof. solve_decision. Defined.

(** What [Run] has called on the element. *)
Inductive ElementCall :=
| CalledSetup (code : Z)  (** the value returned, or [-EFAULT] when it threw *)
| CalledLoop (code : Z)
| CalledShutdown.

(** ** Control points of [Run] *)
Inductive MainPc :=
| MStart                         (** the resets before [Initialize] *)
| MInitialize                    (** [Initialize] *)
| MSupervise (initialized : Z)   (** [StartSupervision] *)
| MProfile (initialized : Z)     (** profile error and memory lock *)
| MFailed (initialized : Z)      (** [running_=false; runtime_error_=...; state_=ERROR] *)
| MSetup                         (** [element.Setup()] *)
| MSetupFailed (result : Z)      (** [RequestStop(); if (stop_reason_ < 0) ...] *)
| MSetupShutdown (result : Z)    (** [element.Shutdown()] after a failed [Setup] *)
| MArm                           (** [running_ = true] *)
| MArmCheck                      (** [if (stop_requested || stop_reason_ != 0) RequestStop()] *)
| MAnnounce                      (** [if (running_) state_ = RUNNING] *)
| MWhile                         (** [while (running_)] *)
| MSignal (next : bool)          (** [if (stop_requested) RequestStop()], before ([false]) and after [Loop] *)
| MTest (next : bool)            (** [if (!running_) break] *)
| MLoop                          (** [element.Loop()] *)
| MBeat                          (** [loop_heartbeat_] *)
| MThrown                        (** [catch (...) { result=-EFAULT; running_=false; }] *)
| MClaim (result : Z)            (** [RequestStop()] before [Shutdown] *)
| MReason (result : Z)           (** [if (stop_reason_ < 0) result = stop_reason_], error and state *)
| MShutdown (result : Z)         (** [element.Shutdown()] *)
| MEnd (result : Z)              (** [running_=false; runtime_error_=...; state_=...] *)
| MFinalize (result : Z)         (** [Finalize] up to the join *)
| MJoin (result : Z)             (** [supervision_worker_.join()] and the rest *)
| MDone (result : Z).

(** ** Control points of [Supervise] *)
Inductive WorkerPc :=
| WNone                          (** no worker *)
| WRun                           (** the polling loop *)
| WLost (error : Z)              (** [SupervisorLost(error)]: the two tests *)
| WCas (error : Z)               (** [stop_reason_.compare_exchange_strong(none, error)] *)
| WError (error : Z)             (** [runtime_error_ = error] *)
| WClear                         (** [running_ = false] *)
| WExit                          (** [supervision_running_=false] *)
| WJoinable.                     (** the thread function has returned *)

Record Runtime := {
  rt_stop_requested : bool;
  rt_stop_reason : Z;
  rt_running : bool;
  rt_state : ProcessState;
  rt_loop_heartbeat : Z;
  rt_runtime_error : Z;
  rt_supervision_running : bool;
  rt_main : MainPc;
  rt_worker : WorkerPc;
  rt_calls : list ElementCall
}.

Definition GetState (r : Runtime) : ProcessState := if rt_stop_reason r <? 0 then ERROR else rt_state r.

Definition set_main (pc : MainPc) (r : Runtime) : Runtime :=
  {| rt_stop_requested := rt_stop_requested r; rt_stop_reason := rt_stop_reason r; rt_running := rt_running r;
     rt_state := rt_state r; rt_loop_heartbeat := rt_loop_heartbeat r; rt_runtime_error := rt_runtime_error r;
     rt_supervision_running := rt_supervision_running r; rt_main := pc; rt_worker := rt_worker r; rt_calls := rt_calls r |}.
Definition set_worker (pc : WorkerPc) (r : Runtime) : Runtime :=
  {| rt_stop_requested := rt_stop_requested r; rt_stop_reason := rt_stop_reason r; rt_running := rt_running r;
     rt_state := rt_state r; rt_loop_heartbeat := rt_loop_heartbeat r; rt_runtime_error := rt_runtime_error r;
     rt_supervision_running := rt_supervision_running r; rt_main := rt_main r; rt_worker := pc; rt_calls := rt_calls r |}.
Definition set_running (b : bool) (r : Runtime) : Runtime :=
  {| rt_stop_requested := rt_stop_requested r; rt_stop_reason := rt_stop_reason r; rt_running := b;
     rt_state := rt_state r; rt_loop_heartbeat := rt_loop_heartbeat r; rt_runtime_error := rt_runtime_error r;
     rt_supervision_running := rt_supervision_running r; rt_main := rt_main r; rt_worker := rt_worker r; rt_calls := rt_calls r |}.
Definition set_requested (b : bool) (r : Runtime) : Runtime :=
  {| rt_stop_requested := b; rt_stop_reason := rt_stop_reason r; rt_running := rt_running r;
     rt_state := rt_state r; rt_loop_heartbeat := rt_loop_heartbeat r; rt_runtime_error := rt_runtime_error r;
     rt_supervision_running := rt_supervision_running r; rt_main := rt_main r; rt_worker := rt_worker r; rt_calls := rt_calls r |}.
(** [int none = 0; stop_reason_.compare_exchange_strong(none, x)] *)
Definition cas_reason (x : Z) (r : Runtime) : Runtime :=
  {| rt_stop_requested := rt_stop_requested r; rt_stop_reason := if rt_stop_reason r =? 0 then x else rt_stop_reason r;
     rt_running := rt_running r;
     rt_state := rt_state r; rt_loop_heartbeat := rt_loop_heartbeat r; rt_runtime_error := rt_runtime_error r;
     rt_supervision_running := rt_supervision_running r; rt_main := rt_main r; rt_worker := rt_worker r; rt_calls := rt_calls r |}.
Definition set_status (error : Z) (st : ProcessState) (r : Runtime) : Runtime :=
  {| rt_stop_requested := rt_stop_requested r; rt_stop_reason := rt_stop_reason r; rt_running := rt_running r;
     rt_state := st; rt_loop_heartbeat := rt_loop_heartbeat r; rt_runtime_error := error;
     rt_supervision_running := rt_supervision_running r; rt_main := rt_main r; rt_worker := rt_worker r; rt_calls := rt_calls r |}.
Definition set_supervision (b : bool) (r : Runtime) : Runtime :=
  {| rt_stop_requested := rt_stop_requested r; rt_stop_reason := rt_stop_reason r; rt_running := rt_running r;
     rt_state := rt_state r; rt_loop_heartbeat := rt_loop_heartbeat r; rt_runtime_error := rt_runtime_error r;
     rt_supervision_running := b; rt_main := rt_main r; rt_worker := rt_worker r; rt_calls := rt_calls r |}.
Definition set_heartbeat (n : Z) (r : Runtime) : Runtime :=
  {| rt_stop_requested := rt_stop_requested r; rt_stop_reason := rt_stop_reason r; rt_running := rt_running r;
     rt_state := rt_state r; rt_loop_heartbeat := n; rt_runtime_error := rt_runtime_error r;
     rt_supervision_running := rt_supervision_running r; rt_main := rt_main r; rt_worker := rt_worker r; rt_calls := rt_calls r |}.
Definition add_call (c : ElementCall) (r : Runtime) : Runtime :=
  {| rt_stop_requested := rt_stop_requested r; rt_stop_reason := rt_stop_reason r; rt_running := rt_running r;
     rt_state := rt_state r; rt_loop_heartbeat := rt_loop_heartbeat r; rt_runtime_error := rt_runtime_error r;
     rt_supervision_running := rt_supervision_running r; rt_main := rt_main r; rt_worker := rt_worker r;
     rt_calls := rt_calls r ++ [c] |}.
(** [stop_reason_=0; state_=STARTING; loop_heartbeat_=0; runtime_error_=0] *)
Definition reset_run (r : Runtime) : Runtime :=
  {| rt_stop_requested := rt_stop_requested r; rt_stop_reason := 0; rt_running := rt_running r;
     rt_state := STARTING; rt_loop_heartbeat := 0; rt_runtime_error := 0;
     rt_supervision_running := rt_supervision_running r; rt_main := rt_main r; rt_worker := rt_worker r; rt_calls := rt_calls r |}.

(** [RequestStop] *)
Definition RequestStop (r : Runtime) : Runtime := set_running false (cas_reason 1 r).

(** What the environment decides at a step of [Run]: a return code, and a flag
    (a worker was started; memory locking is requested; the call threw). *)
Record MainEnv := { me_code : Z; me_flag : bool }.

(** One step of [Run]. *)
Definition main_step (env : MainEnv) (r : Runtime) : option Runtime :=
  match rt_main r with
  | MStart => Some (set_main MInitialize (reset_run r))
  | MInitialize => Some (set_main (MSupervise (me_code env)) (set_requested false r))
  | MSupervise initialized =>
      let r' := if me_flag env then set_worker WRun (set_supervision true r) else r in
      Some (set_main (MProfile (if initialized =? 0 then (if me_flag env then 0 else me_code env) else initialized)) r')
  | MProfile initialized =>
      let code := if initialized =? 0 then me_code env else initialized in
      Some (set_main (if code =? 0 then MSetup else MFailed code) r)
  | MFailed code => Some (set_main (MFinalize code) (set_status code ERROR (set_running false r)))
  | MSetup =>
      let code := if me_flag env then - EFAULT else me_code env in
      Some (set_main (if code =? 0 then MArm else MSetupFailed code) (add_call (CalledSetup code) r))
  | MSetupFailed result =>
      let r' := RequestStop r in
      let code := if rt_stop_reason r' <? 0 then rt_stop_reason r' else result in
      Some (set_main (MSetupShutdown code) (set_status code ERROR r'))
  | MSetupShutdown result => Some (set_main (MFinalize result) (add_call CalledShutdown r))
  | MArm => Some (set_main MArmCheck (set_running true r))
  | MArmCheck =>
      Some (set_main MAnnounce (if rt_stop_requested r || negb (rt_stop_reason r =? 0) then RequestStop r else r))
  | MAnnounce =>
      Some (set_main MWhile (if rt_running r then set_status (rt_runtime_error r) RUNNING r else r))
  | MWhile => Some (set_main (if rt_running r then MSignal false else MClaim 0) r)
  | MSignal next => Some (set_main (MTest next) (if rt_stop_requested r then RequestStop r else r))
  | MTest next =>
      if negb (rt_running r) then Some (set_main (MClaim 0) r)
      else Some (set_main (if next then MWhile else MLoop) r) (* the sleep until the next tick ends the iteration *)
  | MLoop =>
      if me_flag env then Some (set_main MThrown (add_call (CalledLoop (- EFAULT)) r))
      else Some (set_main (if me_code env =? 0 then MBeat else MClaim (me_code env)) (add_call (CalledLoop (me_code env)) r))
  | MBeat =>
      if rt_loop_heartbeat r =? UINT64_MAX then Some (set_main (MClaim (- EOVERFLOW)) r)
      else Some (set_main (MSignal true) (set_heartbeat (rt_loop_heartbeat r + 1) r))
  | MThrown => Some (set_main (MClaim (- EFAULT)) (set_running false r))
  | MClaim result => Some (set_main (MReason result) (RequestStop r))
  | MReason result =>
      let code := if rt_stop_reason r <? 0 then rt_stop_reason r else result in
      Some (set_main (MShutdown code) (set_status code (if code =? 0 then STOPPING else ERROR) r))
  | MShutdown result =>
      let code := if me_flag env && (result =? 0) then - EFAULT else result in
      Some (set_main (MEnd code) (add_call CalledShutdown r))
  | MEnd result =>
      Some (set_main (MFinalize result) (set_status result (if result =? 0 then STOPPED else ERROR) (set_running false r)))
  | MFinalize result => Some (set_main (MJoin result) (set_supervision false (RequestStop r)))
  | MJoin result => match rt_worker r with WNone | WJoinable => Some (set_main (MDone result) (set_worker WNone r)) | _ => None end
  | MDone _ => None
  end.

(** What the worker sees in one iteration of [Supervise]. *)
Inductive WorkerEnv :=
| WeContinue          (** nothing to do, a request answered, or an invalid one ignored *)
| WeTimeout           (** no valid request for SUPERVISOR_REQUEST_TIMEOUT_MS *)
| WeDisconnected.     (** poll, recv or send failed, or the peer hung up *)

Definition worker_step (env : WorkerEnv) (r : Runtime) : option Runtime :=
  match rt_worker r with
  | WNone | WJoinable => None
  | WRun =>
      if negb (rt_supervision_running r) then Some (set_worker WExit r)
      else Some (set_worker match env with
                            | WeContinue => WRun
                            | WeTimeout => WLost (- ETIMEDOUT)
                            | WeDisconnected => WLost (- ECONNRESET)
                            end r)
  | WLost error =>
      Some (set_worker (if rt_stop_requested r || negb (rt_supervision_running r) then WExit else WCas error) r)
  | WCas error =>
      if rt_stop_reason r =? 0 then Some (set_worker (WError error) (cas_reason error r)) else Some (set_worker WExit r)
  | WError error => Some (set_worker WClear (set_status error (rt_state r) r))
  | WClear => Some (set_worker WExit (set_running false r))
  | WExit => Some (set_worker WJoinable (set_supervision false r))
  end.

Inductive RuntimeEvent :=
| EvMain (env : MainEnv)
| EvWorker (env : WorkerEnv)
| EvSignal                 (** SIGINT or SIGTERM is delivered *)
| EvRequestStop            (** another thread calls [RequestStop]: its compare-exchange *)
| EvClearRunning.          (** and, any time later, its store to [running_] *)

Definition runtime_exec (e : RuntimeEvent) (r : Runtime) : option Runtime :=
  match e with
  | EvMain env => main_step env r
  | EvWorker env => worker_step env r
  | EvSignal => Some (set_requested true r)
  | EvRequestStop => Some (cas_reason 1 r)
  | EvClearRunning => Some (set_running false r)
  end.

Definition runtime_initial : Runtime :=
  {| rt_stop_requested := false; rt_stop_reason := 0; rt_running := false; rt_state := STOPPED; rt_loop_heartbeat := 0;
     rt_runtime_error := 0; rt_supervision_running := false; rt_main := MStart; rt_worker := WNone; rt_calls := [] |}.

Definition runtime_step : relation Runtime := machine_step runtime_exec.
Definition runtime_reachable (r : Runtime) : Prop := rtc runtime_step runtime_initial r.
