(* ===== verification/RuntimeSafety.v ===== *)
(** * Process runtime: element protocol, loss precedence and shutdown *)
From S2P Require Import Prelude ProcessRuntime.

(** ** Element calls *)
(** Cycles that succeeded, then possibly one that failed. *)
Definition good_loops (l : list ElementCall) : Prop :=
  exists ok, Forall (eq (CalledLoop 0)) ok /\ (l = ok \/ exists c, c <> 0 /\ l = ok ++ [CalledLoop c]).
Definition open_calls (l : list ElementCall) : Prop := exists ok, Forall (eq (CalledLoop 0)) ok /\ l = CalledSetup 0 :: ok.
Definition closing_calls (l : list ElementCall) : Prop := exists loops, good_loops loops /\ l = CalledSetup 0 :: loops.
Definition failed_calls (l : list ElementCall) : Prop := exists c, c <> 0 /\ l = [CalledSetup c].
(** A finished lifecycle: [Shutdown] ran exactly once, last. *)
Definition complete_calls (l : list ElementCall) : Prop :=
  exists l', (failed_calls l' \/ closing_calls l') /\ l = l' ++ [CalledShutdown].

(** Successful cycles. *)
Definition cycles (l : list ElementCall) : Z :=
  foldr (fun c n => match c with CalledLoop 0 => 1 + n | _ => n end) 0 l.

Lemma cycles_app l k : cycles (l ++ k) = cycles l + cycles k.
Proof. induction l as [|[?|[]|] l IH]; simpl; rewrite ?IH; lia. Qed.

Lemma cycles_nonneg l : 0 <= cycles l.
Proof. induction l as [|[?|[]|] l IH]; simpl; lia. Qed.

Lemma open_calls_loop l : open_calls l -> open_calls (l ++ [CalledLoop 0]).
Proof.
  intros (ok & Hok & ->). exists (ok ++ [CalledLoop 0]). split; [|done]. apply Forall_app. split; [done|by constructor].
Qed.
Lemma open_closing l : open_calls l -> closing_calls l.
Proof. intros (ok & Hok & ->). exists ok. split; [exists ok; auto|done]. Qed.
Lemma open_calls_fail l c : c <> 0 -> open_calls l -> closing_calls (l ++ [CalledLoop c]).
Proof. intros Hc (ok & Hok & ->). exists (ok ++ [CalledLoop c]). split; [|done]. exists ok. eauto. Qed.
Lemma closing_complete l : closing_calls l -> complete_calls (l ++ [CalledShutdown]).
Proof. intros H. exists l. auto. Qed.
Lemma failed_complete l : failed_calls l -> complete_calls (l ++ [CalledShutdown]).
Proof. intros H. exists l. auto. Qed.
#[export] Hint Resolve open_calls_loop open_closing open_calls_fail closing_complete failed_complete : kcf.

(** ** Invariant *)
Definition calls_ok (r : Runtime) : Prop :=
  match rt_main r with
  | MStart | MInitialize | MSupervise _ | MProfile _ | MFailed _ | MSetup => rt_calls r = []
  | MSetupFailed _ | MSetupShutdown _ => failed_calls (rt_calls r)
  | MArm | MArmCheck | MAnnounce | MWhile | MSignal _ | MTest _ | MLoop | MBeat => open_calls (rt_calls r)
  | MThrown | MClaim _ | MReason _ | MShutdown _ => closing_calls (rt_calls r)
  | MEnd _ => complete_calls (rt_calls r)
  | MFinalize result | MJoin result | MDone result => rt_calls r = [] /\ result <> 0 \/ complete_calls (rt_calls r)
  end.

(** The return value once the stop reason is latched. *)
Definition result_ok (r : Runtime) : Prop :=
  match rt_main r with
  | MFailed result | MSetupFailed result => result <> 0
  | MSetupShutdown result => result <> 0 /\ rt_stop_reason r <> 0 /\ (rt_stop_reason r < 0 -> result = rt_stop_reason r) /\ rt_state r = ERROR
  | MReason _ => rt_stop_reason r <> 0
  | MShutdown result => rt_stop_reason r <> 0 /\ (rt_stop_reason r < 0 -> result = rt_stop_reason r)
  | MEnd result => rt_stop_reason r <> 0 /\ (rt_stop_reason r < 0 -> result = rt_stop_reason r)
  | MFinalize result =>
      (rt_calls r <> [] -> rt_stop_reason r <> 0 /\ (rt_stop_reason r < 0 -> result = rt_stop_reason r)) /\
      rt_state r = (if result =? 0 then STOPPED else ERROR)
  | MJoin result | MDone result =>
      rt_stop_reason r <> 0 /\ (rt_calls r <> [] -> rt_stop_reason r < 0 -> result = rt_stop_reason r) /\
      rt_state r = (if result =? 0 then STOPPED else ERROR) /\ rt_running r = false /\ rt_supervision_running r = false
  | _ => True
  end.

Definition beat_ok (r : Runtime) : Prop :=
  match rt_main r with
  | MStart => True
  | MBeat => rt_loop_heartbeat r + 1 = cycles (rt_calls r) /\ 0 <= rt_loop_heartbeat r <= UINT64_MAX
  | MArm | MArmCheck | MAnnounce | MWhile | MSignal _ | MTest _ | MLoop =>
      rt_loop_heartbeat r = cycles (rt_calls r) /\ 0 <= rt_loop_heartbeat r <= UINT64_MAX
  | _ => rt_loop_heartbeat r = Z.min (cycles (rt_calls r)) UINT64_MAX
  end.

Definition worker_ok (r : Runtime) : Prop :=
  match rt_worker r with
  | WLost error | WCas error => error < 0
  | WError error => error < 0 /\ rt_stop_reason r < 0
  | WClear => rt_stop_reason r < 0
  | _ => True
  end.

(** There is no worker outside [StartSupervision] .. [Finalize]. *)
Definition idle_ok (r : Runtime) : Prop :=
  match rt_main r with MStart | MDone _ => rt_worker r = WNone | _ => True end.

Record runtime_invariant (r : Runtime) : Prop := {
  rv_calls : calls_ok r;
  rv_result : result_ok r;
  rv_beat : beat_ok r;
  rv_worker : worker_ok r;
  rv_idle : idle_ok r
}.
Lemma complete_not_nil l : complete_calls l -> l <> [].
Proof. intros (l' & _ & ->) E. by destruct l'. Qed.
Lemma failed_setup l c : c <> 0 -> l = [] -> failed_calls (l ++ [CalledSetup c]).
Proof. intros Hc ->. by exists c. Qed.
Lemma open_setup l : l = [] -> open_calls (l ++ [CalledSetup 0]).
Proof. intros ->. by exists []. Qed.
#[export] Hint Resolve complete_not_nil failed_setup open_setup : kcf.

(** Case analysis on every test of a step. *)
Ltac runtime_cases :=
  repeat case_match; simplify_eq/=;
  repeat match goal with
  | H : (_ =? _) = true |- _ => apply Z.eqb_eq in H
  | H : (_ =? _) = false |- _ => apply Z.eqb_neq in H
  | H : (_ <? _) = true |- _ => apply Z.ltb_lt in H
  | H : (_ <? _) = false |- _ => apply Z.ltb_ge in H
  | H : (_ && _) = true |- _ => apply andb_prop in H as [? ?]
  | H : ?x = 0 |- _ => is_var x; subst x
  | H : me_code _ = 0 |- _ => rewrite H in *; clear H
  end.

Lemma calls_preserved env r r' : runtime_invariant r -> main_step env r = Some r' -> calls_ok r'.
Proof.
  intros [Hc Hr _ _ _] Hs. unfold calls_ok, result_ok, main_step in *.
  destruct (rt_main r) eqn:Em; simplify_eq/=; runtime_cases; by auto 6 with kcf.
Qed.

Lemma result_preserved env r r' : runtime_invariant r -> main_step env r = Some r' -> result_ok r'.
Proof.
  intros [Hc Hr _ _ _] Hs. unfold calls_ok, result_ok, main_step in *.
  destruct (rt_main r) eqn:Em; simplify_eq/=; runtime_cases.
  all: try done. all: destruct_and?; destruct_or?; destruct_and?; repeat split; try done; try lia; try (intros; lia).
  all: try (destruct (rt_calls r); done). all: naive_solver.
Qed.

Lemma cycles_loop c l : cycles (l ++ [CalledLoop c]) = cycles l + (if c =? 0 then 1 else 0).
Proof. rewrite cycles_app. by destruct c. Qed.
Lemma cycles_other c l : (forall x, c <> CalledLoop x) -> cycles (l ++ [c]) = cycles l.
Proof. rewrite cycles_app. destruct c as [|x|]; simpl; try lia. intros H. by destruct (H x). Qed.

Lemma beat_preserved env r r' : runtime_invariant r -> main_step env r = Some r' -> beat_ok r'.
Proof.
  intros [Hc Hr Hb _ _] Hs. unfold calls_ok, beat_ok, main_step in *. pose proof (cycles_nonneg (rt_calls r)).
  destruct (rt_main r) eqn:Em; simplify_eq/=; runtime_cases; rewrite ?cycles_loop, ?cycles_other by done; simpl; try lia.
  all: try (rewrite Hc in *; done). all: runtime_cases; try lia. all: rewrite Hc in *; simpl in *; unfold UINT64_MAX in *; lia.
Qed.

Lemma main_preserves env r r' : runtime_invariant r -> main_step env r = Some r' -> runtime_invariant r'.
Proof.
  intros Hi Hs. constructor; eauto using calls_preserved, result_preserved, beat_preserved.
  - destruct Hi as [_ _ _ Hw Hn]. unfold main_step, idle_ok in *.
    destruct (rt_main r) eqn:Em; simplify_eq/=; runtime_cases; unfold worker_ok in *; simpl in *;
      try (rewrite Hn; done); destruct (rt_worker r); try done; simpl; runtime_cases; lia.
  - unfold main_step in *. destruct (rt_main r); simplify_eq/=; unfold idle_ok; runtime_cases; done.
Qed.

Lemma result_cas x r : result_ok r -> result_ok (cas_reason x r).
Proof.
  unfold result_ok, cas_reason. simpl. destruct (Z.eqb_spec (rt_stop_reason r) 0) as [E|]; [|done].
  rewrite !E. destruct (rt_main r); try done; naive_solver.
Qed.
Lemma result_clear r : result_ok r -> result_ok (set_running false r).
Proof. unfold result_ok. simpl. destruct (rt_main r); naive_solver. Qed.

Lemma worker_frame env r r' : worker_step env r = Some r' ->
  rt_worker r <> WNone /\ rt_main r' = rt_main r /\ rt_calls r' = rt_calls r /\ rt_loop_heartbeat r' = rt_loop_heartbeat r.
Proof. unfold worker_step. intros Hs. destruct (rt_worker r); runtime_cases; done. Qed.

Lemma worker_result env r r' : result_ok r -> worker_step env r = Some r' -> result_ok r'.
Proof.
  intros Hr. unfold worker_step. pose proof (result_clear r Hr) as Hf. pose proof (fun x => result_cas x r Hr) as Hx.
  intros Hs. destruct (rt_worker r) as [| | |error|error| | |]; simplify_eq/=.
  - destruct (negb _); simplify_eq/=; exact Hr.
  - exact Hr.
  - destruct (rt_stop_reason r =? 0); simplify_eq/=; [apply (Hx error)|exact Hr].
  - exact Hr.
  - exact Hf.
  - unfold result_ok in *. simpl. destruct (rt_main r); naive_solver.
Qed.

Lemma worker_preserves env r r' : runtime_invariant r -> worker_step env r = Some r' -> runtime_invariant r'.
Proof.
  intros [Hc Hr Hb Hw Hn] Hs. destruct (worker_frame _ _ _ Hs) as (Hbusy & Em & Ec & Eb). constructor.
  - unfold calls_ok in *. by rewrite Em, Ec.
  - eauto using worker_result.
  - unfold beat_ok in *. by rewrite Em, Ec, Eb.
  - unfold worker_step, worker_ok in *. clear Hr.
    destruct (rt_worker r) eqn:Ew; simplify_eq/=; runtime_cases; try done; simpl; runtime_cases; lia.
  - unfold idle_ok in *. rewrite Em. by destruct (rt_main r).
Qed.

Lemma runtime_preserves e r r' : runtime_invariant r -> runtime_exec e r = Some r' -> runtime_invariant r'.
Proof.
  intros Hi. destruct e; simpl; intros Hs; simplify_eq/=;
    eauto using main_preserves, worker_preserves; destruct Hi as [Hc Hr Hb Hw Hn].
  - by constructor.
  - constructor; try done; [by apply result_cas|].
    unfold worker_ok in *. simpl. destruct (rt_worker r); simpl; try done; runtime_cases; lia.
  - constructor; try done. by apply result_clear.
Qed.

Lemma runtime_reachable_invariant r : runtime_reachable r -> runtime_invariant r.
Proof. apply machine_invariant; [apply runtime_preserves|by constructor]. Qed.

(** ** Claims *)
(** Every prefix of a lifecycle can still be completed. *)
Lemma calls_prefix r : runtime_invariant r -> exists rest, complete_calls (rt_calls r ++ rest).
Proof.
  intros [Hc _ _ _ _]. unfold calls_ok in Hc.
  assert (Hnil : exists rest, complete_calls ([] ++ rest)).
  { exists [CalledSetup 1; CalledShutdown], [CalledSetup 1]. split; [left; by exists 1|done]. }
  assert (Hdone : complete_calls (rt_calls r) -> exists rest, complete_calls (rt_calls r ++ rest)).
  { exists []. by rewrite app_nil_r. }
  destruct (rt_main r); try (by rewrite Hc); try (by exists [CalledShutdown]; auto with kcf); auto.
  all: destruct Hc as [[-> _]|Hc]; auto.
Qed.

(** C17: Whatever signals, [RequestStop] calls and supervision losses interleave with
    [ProcessRuntime::Run], what it has called on the element is always a prefix of one
    lifecycle: one [Setup]; if it returned 0, cycles of [Loop] of which at most the
    last failed; one [Shutdown], last.  When [Run] returns, the lifecycle is complete,
    unless initialization failed: then no callback ran and the result is an error. *)
Theorem runtime_element_protocol (r : Runtime) (Hr : runtime_reachable r) :
  (exists rest, complete_calls (rt_calls r ++ rest)) /\
  forall result, rt_main r = MDone result -> rt_calls r = [] /\ result <> 0 \/ complete_calls (rt_calls r).
Proof.
  apply runtime_reachable_invariant in Hr. split; [by apply calls_prefix|].
  intros result E. destruct Hr as [Hc _ _ _ _]. unfold calls_ok in Hc. by rewrite E in Hc.
Qed.

(** A run in which the supervisor is lost during the second cycle. *)
Definition env_ok : MainEnv := {| me_code := 0; me_flag := false |}.
Definition lost_run : list RuntimeEvent :=
  [EvMain env_ok; EvMain env_ok; EvMain {| me_code := 0; me_flag := true |}; EvMain env_ok; EvMain env_ok;
   EvMain env_ok; EvMain env_ok; EvMain env_ok; EvMain env_ok; EvMain env_ok; EvMain env_ok;
   EvMain env_ok; EvMain env_ok; EvMain env_ok; EvMain env_ok; EvMain env_ok; EvMain env_ok; EvMain env_ok;
   EvWorker WeTimeout; EvWorker WeTimeout; EvWorker WeTimeout; EvWorker WeTimeout; EvWorker WeTimeout; EvRequestStop; EvWorker WeTimeout;
   EvMain env_ok; EvMain env_ok; EvMain env_ok; EvMain env_ok; EvMain env_ok; EvMain env_ok; EvMain env_ok; EvMain env_ok;
   EvMain env_ok; EvMain env_ok].
Definition lost_end : Runtime :=
  {| rt_stop_requested := false; rt_stop_reason := - ETIMEDOUT; rt_running := false; rt_state := ERROR; rt_loop_heartbeat := 2;
     rt_runtime_error := - ETIMEDOUT; rt_supervision_running := false; rt_main := MDone (- ETIMEDOUT); rt_worker := WNone;
     rt_calls := [CalledSetup 0; CalledLoop 0; CalledLoop 0; CalledShutdown] |}.

Lemma lost_end_reachable : runtime_reachable lost_end.
Proof. apply (machine_run_rtc _ lost_run). reflexivity. Defined.

(** Only the reset at the head of [Run] clears a latched stop reason. *)
Lemma reason_latched e r r' : rt_main r <> MStart -> rt_stop_reason r <> 0 -> runtime_exec e r = Some r' ->
  rt_main r' <> MStart /\ rt_stop_reason r' = rt_stop_reason r.
Proof.
  intros Hm Hz. destruct e; simpl; [unfold main_step|unfold worker_step|..]; intros Hs.
  - destruct (rt_main r); simplify_eq/=; runtime_cases; split; rewrite ?(proj2 (Z.eqb_neq _ _) Hz); first [done|lia|congruence].
  - destruct (rt_worker r); simplify_eq/=; runtime_cases; split; rewrite ?(proj2 (Z.eqb_neq _ _) Hz); first [done|lia|congruence].
  - by simplify_eq/=.
  - simplify_eq/=. by rewrite (proj2 (Z.eqb_neq _ _) Hz).
  - by simplify_eq/=.
Qed.

(** A stop reason, once latched by [RequestStop] (1) or by [SupervisorLost] (a
    negative error), never changes again while [Run] is active; and when [Run] returns
    after a callback ran, a latched loss is the value it returns.  On every return the
    state is [STOPPED] exactly when the result is 0 and [ERROR] otherwise, [running_]
    is false and the supervision worker has been joined. *)
Theorem runtime_loss_precedence (r : Runtime) (Hr : runtime_reachable r) :
  (forall r', rt_main r <> MStart -> rt_stop_reason r <> 0 -> rtc runtime_step r r' -> rt_stop_reason r' = rt_stop_reason r) /\
  forall result, rt_main r = MDone result ->
    (rt_calls r <> [] -> rt_stop_reason r < 0 -> result = rt_stop_reason r) /\
    rt_state r = (if result =? 0 then STOPPED else ERROR) /\ rt_running r = false /\ rt_worker r = WNone.
Proof.
  split.
  - intros r' Hm Hz Hs.
    assert (rt_main r' <> MStart /\ rt_stop_reason r' = rt_stop_reason r) as [_ ?]; [|done].
    revert Hs. apply (machine_invariant runtime_exec (fun q => rt_main q <> MStart /\ rt_stop_reason q = rt_stop_reason r)); [|done].
    intros e s1 s2 [? E] He. rewrite <- E. eapply reason_latched; eauto. congruence.
  - intros result E. destruct (runtime_reachable_invariant _ Hr) as [_ Hres _ _ Hn]. unfold result_ok, idle_ok in *.
    rewrite E in *. naive_solver.
Qed.

(** The heartbeat reported to the supervisor counts the successful cycles exactly:
    it never skips, never counts a failed cycle and never wraps, a runtime that
    completed [UINT64_MAX] cycles failing with [-EOVERFLOW] instead. *)
Theorem runtime_heartbeat_exact (r : Runtime) (Hr : runtime_reachable r) :
  (rt_main r <> MStart -> rt_main r <> MBeat -> rt_loop_heartbeat r = Z.min (cycles (rt_calls r)) UINT64_MAX) /\
  (rt_main r = MBeat -> rt_loop_heartbeat r = cycles (rt_calls r) - 1 /\ 0 <= rt_loop_heartbeat r <= UINT64_MAX).
Proof.
  destruct (runtime_reachable_invariant _ Hr) as [_ _ Hb _ _]. unfold beat_ok in Hb.
  split; intros; destruct (rt_main r); try done; lia.
Qed.

(** ** Stopping *)
(** A stop that [Run] cannot miss: latched before [running_] was armed, or [running_]
    cleared since, and the element is not inside [Loop]. *)
Definition stopping (r : Runtime) : Prop :=
  match rt_main r with
  | MStart | MLoop => False
  | MInitialize | MSupervise _ | MProfile _ | MSetup | MArm => rt_stop_reason r <> 0
  | MArmCheck => rt_stop_reason r <> 0 \/ rt_running r = false
  | MAnnounce | MWhile | MSignal _ | MTest _ | MBeat => rt_running r = false
  | _ => True
  end.
Definition is_loop (c : ElementCall) : bool := match c with CalledLoop _ => true | _ => false end.
Definition loop_calls (r : Runtime) : nat := length (List.filter is_loop (rt_calls r)).

Lemma loop_calls_add l c : length (List.filter is_loop (l ++ [c])) = (length (List.filter is_loop l) + if is_loop c then 1 else 0)%nat.
Proof. rewrite List.filter_app, length_app. simpl. by destruct (is_loop c). Qed.

Lemma stopping_main env r r' : stopping r -> main_step env r = Some r' -> stopping r' /\ loop_calls r' = loop_calls r.
Proof.
  unfold stopping, main_step, loop_calls. intros Hst Hs.
  destruct (rt_main r) eqn:Em; simplify_eq/=; runtime_cases; rewrite ?loop_calls_add; simpl; rewrite ?Nat.add_0_r;
    split; try done; try congruence; auto.
  all: try (by rewrite Hst in *).
  all: destruct Hst as [Hz|]; [|done].
  all: apply Z.eqb_neq in Hz; rewrite Hz in *; by destruct (rt_stop_requested r).
Qed.

Lemma stopping_step e r r' : stopping r -> runtime_exec e r = Some r' -> stopping r' /\ loop_calls r' = loop_calls r.
Proof.
  intros Hst. destruct e; simpl; intros Hs; eauto using stopping_main.
  - destruct (worker_frame _ _ _ Hs) as (_ & Em & Ec & _). unfold loop_calls. rewrite Ec. split; [|done].
    assert ((rt_stop_reason r <> 0 -> rt_stop_reason r' <> 0) /\ (rt_running r = false -> rt_running r' = false)) as [??].
    { unfold worker_step in Hs. destruct (rt_worker r); simplify_eq/=; runtime_cases; auto. }
    unfold stopping in *. rewrite Em. destruct (rt_main r); naive_solver.
  - by simplify_eq/=.
  - simplify_eq/=. split; [|done]. unfold stopping in *. simpl.
    destruct (Z.eqb_spec (rt_stop_reason r) 0); [|done]. destruct (rt_main r); naive_solver.
  - simplify_eq/=. split; [|done]. unfold stopping in *. simpl. destruct (rt_main r); naive_solver.
Qed.

(** Once a stop is requested (a reason latched before [running_] is armed, or
    [running_] cleared afterwards, at any point of [Run] outside the callback itself)
    the element's [Loop] is never entered again, whatever happens next; in particular
    arming [running_] does not lose a stop that arrived during [Setup]. *)
Theorem runtime_stop_prevents_cycles (r r' : Runtime) (Hst : stopping r) (Hs : rtc runtime_step r r') :
  loop_calls r' = loop_calls r /\ stopping r'.
Proof.
  revert Hs. apply (machine_invariant runtime_exec (fun q => loop_calls q = loop_calls r /\ stopping q)); [|done].
  intros e s1 s2 [E Hq] He. destruct (stopping_step _ _ _ Hq He). split; congruence.
Qed.

(** ** Shutdown terminates *)
(** The worker and [Run] take turns, whatever the environment answers. *)
Definition turn (env : MainEnv * WorkerEnv) (r : Runtime) : Runtime :=
  let r1 := match worker_step env.2 r with Some r1 => r1 | None => r end in
  match main_step env.1 r1 with Some r2 => r2 | None => r1 end.
Definition turns (envs : list (MainEnv * WorkerEnv)) (r : Runtime) : Runtime := foldl (fun r env => turn env r) r envs.

Definition worker_rank (w : WorkerPc) : nat :=
  match w with WNone | WJoinable => 0 | WExit => 1 | WRun | WClear => 2 | WError _ => 3 | WCas _ => 4 | WLost _ => 5 end.
Definition stop_rank (r : Runtime) : nat :=
  match rt_main r with
  | MDone _ => 0
  | MJoin _ => 1 + worker_rank (rt_worker r)
  | MFinalize _ => 7
  | MEnd _ | MSetupShutdown _ | MFailed _ => 8
  | MShutdown _ | MSetupFailed _ => 9
  | MReason _ => 10
  | MClaim _ => 11
  | MThrown | MTest _ | MWhile => 12
  | MSignal _ | MAnnounce => 13
  | MBeat | MArmCheck => 14
  | MArm => 15
  | MSetup => 16
  | MProfile _ => 17
  | MSupervise _ => 18
  | _ => 19
  end.

(** A worker step never raises the rank, and lowers it while [Run] waits in the join. *)
Lemma worker_rank_step env r r' : runtime_invariant r -> worker_step env r = Some r' ->
  (stop_rank r' <= stop_rank r)%nat /\ match rt_main r with MJoin _ => (stop_rank r' < stop_rank r)%nat | _ => True end.
Proof.
  intros [_ Hr _ _ _] Hs. destruct (worker_frame _ _ _ Hs) as (_ & Em & _). unfold stop_rank. rewrite Em.
  destruct (rt_main r) eqn:E; try (split; [lia|done]).
  unfold result_ok in Hr. rewrite E in Hr. destruct Hr as (_ & _ & _ & _ & Hsup).
  unfold worker_step in Hs. rewrite Hsup in Hs. destruct (rt_worker r); simpl in Hs; rewrite ?orb_true_r in Hs;
    runtime_cases; simpl; lia.
Qed.

Lemma main_rank_step env r r' : stopping r -> main_step env r = Some r' -> (stop_rank r' < stop_rank r)%nat.
Proof.
  unfold stopping, main_step. intros Hst Hs. unfold stop_rank.
  destruct (rt_main r) eqn:Em; simplify_eq/=; runtime_cases; try lia; try congruence.
  all: try (by rewrite Hst in *). all: try (destruct (rt_worker r); simpl; lia).
Qed.

Lemma main_blocked env r : main_step env r = None ->
  (exists result, rt_main r = MDone result) \/ (exists result, rt_main r = MJoin result) /\ forall w, worker_step w r <> None.
Proof.
  unfold main_step. intros Hs. destruct (rt_main r); try (by runtime_cases); eauto.
  right. split; [eauto|]. intros w. unfold worker_step. destruct (rt_worker r); runtime_cases; done.
Qed.

Lemma turn_rank env r : runtime_invariant r -> stopping r ->
  runtime_invariant (turn env r) /\ stopping (turn env r) /\ (stop_rank (turn env r) <= Nat.pred (stop_rank r))%nat.
Proof.
  intros Hi Hst. unfold turn. set (r1 := match worker_step env.2 r with Some r1 => r1 | None => r end).
  assert (runtime_invariant r1 /\ stopping r1 /\ (stop_rank r1 <= stop_rank r)%nat) as (Hi1 & Hst1 & Hle).
  { unfold r1. destruct (worker_step env.2 r) as [q|] eqn:Hw; [|done]. pose proof (worker_rank_step _ _ _ Hi Hw).
    split_and!; [by eapply worker_preserves|by eapply (stopping_step (EvWorker env.2))|lia]. }
  destruct (main_step env.1 r1) as [r2|] eqn:Hm.
  - pose proof (main_rank_step _ _ _ Hst1 Hm). split_and!; [by eapply main_preserves|by eapply stopping_main|lia].
  - split_and!; [done..|].
    destruct (main_blocked _ _ Hm) as [[res E]|[[res E] Hen]]; [unfold stop_rank at 1; rewrite E; lia|].
    unfold r1 in *. destruct (worker_step env.2 r) as [q|] eqn:Hw; [|by destruct (Hen env.2)].
    pose proof (worker_rank_step _ _ _ Hi Hw) as [_ Hlt]. destruct (worker_frame _ _ _ Hw) as (_ & Em & _).
    rewrite Em in E. rewrite E in Hlt. lia.
Qed.

Lemma turns_rank envs r : runtime_invariant r -> stopping r -> (stop_rank (turns envs r) <= stop_rank r - length envs)%nat.
Proof.
  unfold turns. revert r. induction envs as [|env envs IH]; intros r Hi Hst; simpl; [lia|].
  destruct (turn_rank env r Hi Hst) as (? & ? & ?). specialize (IH (turn env r) ltac:(done) ltac:(done)). lia.
Qed.

Lemma stop_rank_zero r : stopping r -> stop_rank r = 0%nat -> exists result, rt_main r = MDone result.
Proof. unfold stopping, stop_rank. destruct (rt_main r); try done; eauto. Qed.

Lemma turns_stopping envs r : runtime_invariant r -> stopping r -> stopping (turns envs r).
Proof.
  unfold turns. revert r. induction envs as [|env envs IH]; intros r Hi Hst; simpl; [done|].
  destruct (turn_rank env r Hi Hst) as (? & ? & ?). auto.
Qed.

Lemma stop_rank_bound r : (stop_rank r <= 19)%nat.
Proof. unfold stop_rank, worker_rank. destruct (rt_main r); try lia. destruct (rt_worker r); lia. Qed.

(** A requested stop always completes: from every reachable point of [Run] at which
    a stop is pending, with the worker and [Run] taking turns and whatever system calls
    and callbacks return, [Run] reaches its return within 19 turns; the join in
    [Finalize] cannot wait for ever, since the worker leaves its loop. *)
Theorem runtime_shutdown_completes (r : Runtime) (envs : list (MainEnv * WorkerEnv))
    (Hr : runtime_reachable r) (Hst : stopping r) (Hn : (19 <= length envs)%nat) :
  exists result, rt_main (turns envs r) = MDone result.
Proof.
  apply runtime_reachable_invariant in Hr. apply stop_rank_zero; [by apply turns_stopping|].
  pose proof (turns_rank envs r Hr Hst). pose proof (stop_rank_bound r). lia.
Qed.

(** ** Witnesses *)
Lemma runtime_element_protocol_witness : complete_calls (rt_calls lost_end).
Proof.
  destruct (runtime_element_protocol lost_end lost_end_reachable) as [_ H].
  destruct (H (- ETIMEDOUT) eq_refl) as [[E _]|E]; [discriminate E|exact E].
Defined.

Lemma runtime_loss_precedence_witness : rt_main lost_end = MDone (rt_stop_reason lost_end).
Proof.
  destruct (runtime_loss_precedence lost_end lost_end_reachable) as [_ H].
  destruct (H (- ETIMEDOUT) eq_refl) as [E _]. rewrite <- E; [reflexivity|discriminate|reflexivity].
Defined.

Lemma runtime_heartbeat_exact_witness : rt_loop_heartbeat lost_end = Z.min (cycles (rt_calls lost_end)) UINT64_MAX.
Proof. apply (runtime_heartbeat_exact lost_end lost_end_reachable); discriminate. Defined.

(** The stop arrives while [Setup] runs. *)
Definition stop_in_setup : Runtime :=
  match machine_run runtime_exec (take 4 lost_run ++ [EvRequestStop]) runtime_initial with Some r => r | None => runtime_initial end.
Lemma stop_in_setup_reachable : runtime_reachable stop_in_setup.
Proof. apply (machine_run_rtc _ (take 4 lost_run ++ [EvRequestStop])). reflexivity. Defined.

Lemma runtime_stop_prevents_cycles_witness :
  exists r', machine_run runtime_exec (repeat (EvMain env_ok) 5) stop_in_setup = Some r' /\ loop_calls r' = 0%nat.
Proof.
  eexists. split; [reflexivity|].
  eapply (runtime_stop_prevents_cycles stop_in_setup); [intros E; discriminate E|].
  apply (machine_run_rtc _ (repeat (EvMain env_ok) 5)). reflexivity.
Defined.

Lemma runtime_shutdown_completes_witness :
  exists result, rt_main (turns (repeat (env_ok, WeContinue) 19) stop_in_setup) = MDone result.
Proof.
  apply (runtime_shutdown_completes stop_in_setup); [exact stop_in_setup_reachable|intros E; discriminate E|reflexivity].
Defined.
