(* ===== verification/SystemScope.v ===== *)
(** * System status scope

    [kcf/include/kcf/system/system_status_scope.hpp]: the scope string
    [<pid>_<start ticks>] under which an application publishes its status, and the
    storage name derived from it. *)
From Stdlib Require String.
From S2P Require Import Prelude.

(** A string literal as bytes. *)
Definition text (s : String.string) : list Z := map (fun b => Z.of_N (Byte.to_N b)) (String.list_byte_of_string s).

(** ["/kcf/system/status/state"] *)
Definition SYSTEM_STATUS_STORAGE : list Z :=
  [47;107;99;102;47;115;121;115;116;101;109;47;115;116;97;116;117;115;47;115;116;97;116;101].
Definition UNDERSCORE : Z := 95.

(** [std::to_string] of a nonnegative integer; [fuel] digits at most. *)
Fixpoint to_digits (fuel : nat) (n : Z) : list Z :=
  match fuel with
  | O => []
  | S fuel => if n <? 10 then [48 + n] else to_digits fuel (n / 10) ++ [48 + n mod 10]
  end.
(** 20 digits hold every 64-bit value. *)
Definition to_string (n : Z) : list Z := to_digits 20 n.

(** [std::from_chars] on a whole range of digits: the value, or nothing when a
    character is not a digit, the range is empty or the value exceeds [limit]. A
    leading minus sign, which only the signed pid accepts, gives a value the callers
    reject, so it is rejected here. *)
Definition from_chars (limit : Z) (s : list Z) : option Z :=
  match s with
  | [] => None
  | _ => if forallb (fun c => (48 <=? c) && (c <=? 57)) s then
           let value := foldl (fun acc c => acc * 10 + (c - 48)) 0 s in
           if value <=? limit then Some value else None
         else None
  end.

Definition SystemStatusScope (pid ticks : Z) : list Z :=
  if (0 <? pid) && negb (ticks =? 0) then to_string pid ++ [UNDERSCORE] ++ to_string ticks else [].

(** [scope.find('_')]: what precedes and what follows the first separator. *)
Fixpoint split_scope (s : list Z) : option (list Z * list Z) :=
  match s with
  | [] => None
  | c :: rest => if c =? UNDERSCORE then Some ([], rest)
                 else match split_scope rest with Some (a, b) => Some (c :: a, b) | None => None end
  end.

Definition SystemStatusName (scope : list Z) : result (list Z) :=
  match scope with
  | [] => Ok SYSTEM_STATUS_STORAGE
  | _ =>
      match split_scope scope with
      | None => Err (- EINVAL)
      | Some (before, after) =>
          match from_chars INT32_MAX before, from_chars UINT64_MAX after with
          | Some pid, Some ticks =>
              if (0 <? pid) && negb (ticks =? 0) && bool_decide (scope = SystemStatusScope pid ticks)
              then Ok (SYSTEM_STATUS_STORAGE ++ [UNDERSCORE] ++ scope) else Err (- EINVAL)
          | _, _ => Err (- EINVAL)
          end
      end
  end.

(** ** Decimal round trip *)
Definition is_digit (c : Z) : Prop := 48 <= c <= 57.

Lemma to_digits_digit fuel n : 0 <= n -> Forall is_digit (to_digits fuel n).
Proof.
  revert n. induction fuel as [|fuel IH]; intros n Hn; simpl; [constructor|].
  destruct (Z.ltb_spec n 10) as [Hlt|Hge].
  - constructor; [unfold is_digit; lia|constructor].
  - apply Forall_app. split; [apply IH, Z.div_pos; lia|].
    pose proof (Z.mod_pos_bound n 10 ltac:(lia)). constructor; [unfold is_digit; lia|constructor].
Qed.

Lemma to_digits_value fuel n : 0 <= n < 10 ^ Z.of_nat fuel ->
  foldl (fun acc c => acc * 10 + (c - 48)) 0 (to_digits fuel n) = n.
Proof.
  revert n. induction fuel as [|fuel IH]; intros n Hn; [change (10 ^ Z.of_nat 0) with 1 in Hn; simpl; lia|].
  simpl. destruct (Z.ltb_spec n 10) as [Hlt|Hge]; [simpl; lia|].
  rewrite foldl_app, IH; simpl; [pose proof (Z.div_mod n 10); lia|].
  rewrite Nat2Z.inj_succ, Z.pow_succ_r in Hn by lia.
  split; [apply Z.div_pos; lia|]. apply Z.div_lt_upper_bound; lia.
Qed.

Lemma to_string_value n : 0 <= n <= UINT64_MAX -> foldl (fun acc c => acc * 10 + (c - 48)) 0 (to_string n) = n.
Proof. intros Hn. apply to_digits_value. change (10 ^ Z.of_nat 20) with 100000000000000000000. unfold UINT64_MAX in Hn. lia. Qed.

Lemma to_string_digits n : 0 <= n -> Forall is_digit (to_string n).
Proof. apply to_digits_digit. Qed.

Lemma to_string_nonempty n : to_string n <> [].
Proof. unfold to_string. cbn [to_digits]. destruct (n <? 10); [done|]. intros [_ H]%app_nil. done. Qed.

Lemma from_to_string limit n : 0 <= n <= limit -> limit <= UINT64_MAX -> from_chars limit (to_string n) = Some n.
Proof.
  intros Hn Hl. unfold from_chars. pose proof (to_string_nonempty n) as Hne.
  pose proof (to_string_digits n ltac:(lia)) as Hd. pose proof (to_string_value n ltac:(lia)) as Hv.
  destruct (to_string n) as [|c s] eqn:E; [done|].
  replace (forallb _ (c :: s)) with true.
  - rewrite Hv. by rewrite (proj2 (Z.leb_le _ _) (proj2 Hn)).
  - symmetry. apply forallb_forall. intros x Hx. rewrite List.Forall_forall in Hd. specialize (Hd x Hx).
    unfold is_digit in Hd. lia.
Qed.

Lemma split_scope_app a b : Forall is_digit a -> split_scope (a ++ [UNDERSCORE] ++ b) = Some (a, b).
Proof.
  induction 1 as [|c a Hc _ IH]; simpl; [done|]. simpl in IH. rewrite IH.
  destruct (Z.eqb_spec c UNDERSCORE) as [->|]; [unfold is_digit, UNDERSCORE in Hc; lia|done].
Qed.

Lemma scope_nonempty pid ticks : 0 < pid -> ticks <> 0 -> SystemStatusScope pid ticks = to_string pid ++ [UNDERSCORE] ++ to_string ticks.
Proof. intros Hp Ht. unfold SystemStatusScope. by rewrite (proj2 (Z.ltb_lt _ _) Hp), (proj2 (Z.eqb_neq _ _) Ht). Qed.

Lemma scope_accepted pid ticks : 0 < pid <= INT32_MAX -> 0 < ticks <= UINT64_MAX ->
  SystemStatusName (SystemStatusScope pid ticks) = Ok (SYSTEM_STATUS_STORAGE ++ [UNDERSCORE] ++ SystemStatusScope pid ticks).
Proof.
  intros Hp Ht. unfold SystemStatusName. rewrite (scope_nonempty pid ticks) by lia.
  destruct (to_string pid ++ [UNDERSCORE] ++ to_string ticks) as [|c s] eqn:E; [by apply app_nil in E as [_ ?]|].
  rewrite <- E, split_scope_app by (apply to_string_digits; lia).
  rewrite !from_to_string by (unfold INT32_MAX, UINT64_MAX in *; lia).
  rewrite (proj2 (Z.ltb_lt 0 pid)), (proj2 (Z.eqb_neq ticks 0)) by lia. simpl.
  rewrite bool_decide_eq_true_2; [done|]. rewrite scope_nonempty by lia. done.
Qed.

Lemma scope_injective pid ticks pid' ticks' : 0 < pid <= INT32_MAX -> 0 < ticks <= UINT64_MAX ->
  0 < pid' <= INT32_MAX -> 0 < ticks' <= UINT64_MAX ->
  SystemStatusScope pid ticks = SystemStatusScope pid' ticks' -> pid = pid' /\ ticks = ticks'.
Proof.
  intros Hp Ht Hp' Ht' E. rewrite !scope_nonempty in E by lia.
  assert (Some (to_string pid, to_string ticks) = Some (to_string pid', to_string ticks')) as [= E1 E2].
  { rewrite <- !split_scope_app by (apply to_string_digits; lia). by rewrite E. }
  split; [rewrite <- (to_string_value pid), <- (to_string_value pid'); [congruence|..]|
          rewrite <- (to_string_value ticks), <- (to_string_value ticks'); [congruence|..]];
    unfold INT32_MAX, UINT64_MAX in *; lia.
Qed.

Lemma from_chars_bound limit s n : from_chars limit s = Some n -> n <= limit.
Proof. unfold from_chars. intros H. repeat case_match; simplify_eq. by apply Z.leb_le. Qed.
Lemma fold_digits_nonneg s acc : 0 <= acc -> Forall is_digit s -> 0 <= foldl (fun acc c => acc * 10 + (c - 48)) acc s.
Proof. intros Hacc Hs. revert acc Hacc. induction Hs as [|c s Hc _ IH]; intros acc Hacc; simpl; [done|]. apply IH. unfold is_digit in Hc. lia. Qed.
Lemma from_chars_nonneg limit s n : from_chars limit s = Some n -> 0 <= n.
Proof.
  unfold from_chars. intros H. destruct s as [|c s]; [done|]. destruct (forallb _ _) eqn:E; [|done].
  case_match; simplify_eq. apply fold_digits_nonneg; [lia|]. apply List.Forall_forall. intros x Hx.
  rewrite forallb_forall in E. specialize (E x Hx). unfold is_digit. lia.
Qed.

(** The storage name of an application's status is a faithful encoding of its
    identity: the scope printed for a pid and start time is accepted and gives
    [SYSTEM_STATUS_STORAGE "_" scope]; every scope string accepted is the printed form
    of exactly one identity in range (no leading zeros, signs or overflow), so two
    applications never share a name; the empty scope gives the unscoped name. *)
Theorem system_status_name_exact (scope name : list Z) :
  SystemStatusName [] = Ok SYSTEM_STATUS_STORAGE /\
  (scope <> [] ->
   (SystemStatusName scope = Ok name <->
    name = SYSTEM_STATUS_STORAGE ++ [UNDERSCORE] ++ scope /\
    exists pid ticks, (0 < pid <= INT32_MAX /\ 0 < ticks <= UINT64_MAX /\ scope = SystemStatusScope pid ticks) /\
      forall pid' ticks', 0 < pid' <= INT32_MAX -> 0 < ticks' <= UINT64_MAX -> scope = SystemStatusScope pid' ticks' ->
      pid' = pid /\ ticks' = ticks)).
Proof.
  split; [done|]. intros Hne. split.
  - intros H. unfold SystemStatusName in H. destruct scope as [|c s]; [done|].
    destruct (split_scope (c :: s)) as [[a b]|]; [|done].
    destruct (from_chars INT32_MAX a) as [pid|] eqn:Ep; [|done].
    destruct (from_chars UINT64_MAX b) as [ticks|] eqn:Et; [|done].
    pose proof (from_chars_bound _ _ _ Ep). pose proof (from_chars_bound _ _ _ Et). pose proof (from_chars_nonneg _ _ _ Et).
    destruct (_ && _) eqn:E in H; [|done]. apply andb_prop in E as [[Hp Ht]%andb_prop Hs].
    apply bool_decide_eq_true_1 in Hs. injection H as <-. split; [done|]. exists pid, ticks.
    split; [split_and!; [lia..|done]|]. intros pid' ticks' Hp' Ht' E'.
    apply scope_injective; [done|done|lia|lia|]. congruence.
  - intros (-> & pid & ticks & (Hp & Ht & ->) & _). by apply scope_accepted.
Qed.

(** ["4321_99"] *)
Lemma system_status_name_exact_witness :
  SystemStatusName [52;51;50;49;95;57;57] = Ok (SYSTEM_STATUS_STORAGE ++ [UNDERSCORE] ++ [52;51;50;49;95;57;57]).
Proof.
  apply (proj2 (proj2 (system_status_name_exact [52;51;50;49;95;57;57] _) ltac:(discriminate))).
  split; [reflexivity|]. exists 4321, 99. split; [split; [split; [reflexivity|discriminate]|split; [split; [reflexivity|discriminate]|reflexivity]]|].
  intros pid' ticks' Hp Ht E.
  assert (SystemStatusScope 4321 99 = SystemStatusScope pid' ticks') as E' by exact E.
  apply scope_injective in E'; [destruct E'; split; congruence|split; [reflexivity|discriminate]|split; [reflexivity|discriminate]|exact Hp|exact Ht].
Defined.
