(* ===== verification/PeerDiscovery.v ===== *)
(** * Peer discovery

    [kcf/src/network/peer_discovery.cpp] and
    [kcf/include/kcf/network/peer_discovery.hpp]: the table of peers that ANNOUNCE
    datagrams build, the transfer of their endpoint metadata in chunks, the metadata of
    the node itself, and the worker that does this beside the API calls.

    Every section under [Impl::mutex] is one step.  A time point is a number of
    nanoseconds, a socket address keeps its fields in host byte order.  What the kernel
    answers ([sendto], [recvfrom], [poll], [getrandom], the calls of [Start]) is an
    argument; [im_wire] logs the datagrams the kernel took.  Allocation failure
    ([std::bad_alloc]) is not modelled. *)
From S2P Require Import Prelude Wire NetTypes NetWire Compatibility DiscoveryProtocol SystemScope.

Definition AF_INET : Z := 2.
Definition INADDR_ANY : Z := 0.
Definition INADDR_BROADCAST : Z := 0xffffffff.
Definition millisecond : Z := 1000000.

(** ** Socket addresses *)
Record sockaddr_in := { sin_family : Z; sin_addr : Z; sin_port : Z }.
Definition no_address : sockaddr_in := {| sin_family := 0; sin_addr := 0; sin_port := 0 |}.
Definition IN_MULTICAST (a : Z) : bool := Z.land a 0xf0000000 =? 0xe0000000.

Definition DOT : Z := 46.
(** [inet_ntop(AF_INET, ...)]: dotted decimal. *)
Definition octet (a : Z) (i : Z) : Z := Z.land (Z.shiftr a (8 * i)) 255.
Definition inet_ntop (a : Z) : list Z :=
  to_string (octet a 3) ++ [DOT] ++ to_string (octet a 2) ++ [DOT] ++ to_string (octet a 1) ++ [DOT] ++
  to_string (octet a 0).

(** [inet_pton(AF_INET, ...)]: four decimal octets without leading zeros; [octets] are
    complete, [current] is the one being read. *)
Fixpoint pton (s : list Z) (octets : list Z) (current : option Z) : option (list Z) :=
  match s with
  | [] => match current with
          | Some c => if (length octets =? 3)%nat then Some (octets ++ [c]) else None
          | None => None
          end
  | ch :: rest =>
      if (48 <=? ch) && (ch <=? 57) then
        match current with
        | None => if (length octets <? 4)%nat then pton rest octets (Some (ch - 48)) else None
        | Some c => if (c =? 0) || (255 <? c * 10 + (ch - 48)) then None
                    else pton rest octets (Some (c * 10 + (ch - 48)))
        end
      else if ch =? DOT then
        match current with
        | Some c => if (length octets =? 3)%nat then None else pton rest (octets ++ [c]) None
        | None => None
        end
      else None
  end.
Definition inet_pton (s : list Z) : option Z :=
  match pton (c_str s) [] None with Some octets => Some (be_value octets) | None => None end.

(** ** Peers *)
Inductive PeerState := ONLINE | LOST.
#[export] Instance PeerState_eq_dec : EqDecision PeerState.
Proof. solve_decision. Defined.

Record PeerInfo := {
  pi_host : HostIdentity;
  pi_boot_id : HostIdentity;
  pi_session_id : Z;
  pi_address : list Z;
  pi_port : Z;
  pi_last_seen : Z;
  pi_metadata_revision : Z;
  pi_state : PeerState;
  pi_profile : PeerProfile;
  pi_compatibility : CompatibilityResult;
  pi_metadata_ready : bool;
  pi_endpoints : list NetworkEndpointMetadata
}.
Definition set_lost (i : PeerInfo) : PeerInfo :=
  {| pi_host := pi_host i; pi_boot_id := pi_boot_id i; pi_session_id := pi_session_id i; pi_address := pi_address i;
     pi_port := pi_port i; pi_last_seen := pi_last_seen i; pi_metadata_revision := pi_metadata_revision i; pi_state :=
     LOST; pi_profile := pi_profile i; pi_compatibility := pi_compatibility i; pi_metadata_ready := false;
     pi_endpoints := [] |}.
Definition clear_endpoints (i : PeerInfo) : PeerInfo :=
  {| pi_host := pi_host i; pi_boot_id := pi_boot_id i; pi_session_id := pi_session_id i; pi_address := pi_address i;
     pi_port := pi_port i; pi_last_seen := pi_last_seen i; pi_metadata_revision := pi_metadata_revision i; pi_state :=
     pi_state i; pi_profile := pi_profile i; pi_compatibility := pi_compatibility i; pi_metadata_ready := false;
     pi_endpoints := [] |}.
Definition set_endpoints (ms : list NetworkEndpointMetadata) (i : PeerInfo) : PeerInfo :=
  {| pi_host := pi_host i; pi_boot_id := pi_boot_id i; pi_session_id := pi_session_id i; pi_address := pi_address i;
     pi_port := pi_port i; pi_last_seen := pi_last_seen i; pi_metadata_revision := pi_metadata_revision i; pi_state :=
     pi_state i; pi_profile := pi_profile i; pi_compatibility := pi_compatibility i; pi_metadata_ready := true;
     pi_endpoints := ms |}.
Definition reset_revision (i : PeerInfo) : PeerInfo :=
  {| pi_host := pi_host i; pi_boot_id := pi_boot_id i; pi_session_id := pi_session_id i; pi_address := pi_address i;
     pi_port := pi_port i; pi_last_seen := pi_last_seen i; pi_metadata_revision := 0; pi_state := pi_state i;
     pi_profile := pi_profile i; pi_compatibility := pi_compatibility i; pi_metadata_ready := pi_metadata_ready i;
     pi_endpoints := pi_endpoints i |}.
Definition default_info : PeerInfo :=
  {| pi_host := no_host_id; pi_boot_id := no_host_id; pi_session_id := 0; pi_address := []; pi_port := 0;
     pi_last_seen := 0; pi_metadata_revision := 0; pi_state := ONLINE; pi_profile := default_profile;
     pi_compatibility := default_compatibility; pi_metadata_ready := false; pi_endpoints := [] |}.

Record Entry := {
  en_info : PeerInfo;
  en_address : sockaddr_in;
  en_sequence : Z;
  en_request_id : Z;
  en_size : Z;
  en_count : Z;
  en_staging : list Z;
  en_next_request : Z;
  en_next_response : Z;
  en_retired : list (HostIdentity * Z)
}.
Definition new_entry : Entry :=
  {| en_info := default_info; en_address := no_address; en_sequence := 0; en_request_id := 0; en_size := 0;
     en_count := 0; en_staging := []; en_next_request := 0; en_next_response := 0; en_retired := [] |}.
Definition lose (e : Entry) : Entry :=
  {| en_info := set_lost (en_info e); en_address := en_address e; en_sequence := en_sequence e; en_request_id :=
     en_request_id e; en_size := en_size e; en_count := en_count e; en_staging := []; en_next_request :=
     en_next_request e; en_next_response := en_next_response e; en_retired := en_retired e |}.
Definition set_next_request (t : Z) (e : Entry) : Entry :=
  {| en_info := en_info e; en_address := en_address e; en_sequence := en_sequence e; en_request_id := en_request_id e;
     en_size := en_size e; en_count := en_count e; en_staging := en_staging e; en_next_request := t; en_next_response
     := en_next_response e; en_retired := en_retired e |}.
Definition set_next_response (t : Z) (e : Entry) : Entry :=
  {| en_info := en_info e; en_address := en_address e; en_sequence := en_sequence e; en_request_id := en_request_id e;
     en_size := en_size e; en_count := en_count e; en_staging := en_staging e; en_next_request := en_next_request e;
     en_next_response := t; en_retired := en_retired e |}.
Definition set_staging (bytes : list Z) (e : Entry) : Entry :=
  {| en_info := en_info e; en_address := en_address e; en_sequence := en_sequence e; en_request_id := en_request_id e;
     en_size := en_size e; en_count := en_count e; en_staging := bytes; en_next_request := en_next_request e;
     en_next_response := en_next_response e; en_retired := en_retired e |}.
Definition clear_metadata (e : Entry) : Entry :=
  {| en_info := clear_endpoints (en_info e); en_address := en_address e; en_sequence := en_sequence e; en_request_id
     := en_request_id e; en_size := en_size e; en_count := en_count e; en_staging := []; en_next_request :=
     en_next_request e; en_next_response := en_next_response e; en_retired := en_retired e |}.
Definition set_request (id : Z) (e : Entry) : Entry :=
  {| en_info := en_info e; en_address := en_address e; en_sequence := en_sequence e; en_request_id := id; en_size :=
     en_size e; en_count := en_count e; en_staging := en_staging e; en_next_request := 0; en_next_response :=
     en_next_response e; en_retired := en_retired e |}.
Definition set_ready (ms : list NetworkEndpointMetadata) (e : Entry) : Entry :=
  {| en_info := set_endpoints ms (en_info e); en_address := en_address e; en_sequence := en_sequence e; en_request_id
     := en_request_id e; en_size := en_size e; en_count := en_count e; en_staging := []; en_next_request :=
     en_next_request e; en_next_response := en_next_response e; en_retired := en_retired e |}.
Definition set_retired (retired : list (HostIdentity * Z)) (e : Entry) : Entry :=
  {| en_info := reset_revision (en_info e); en_address := en_address e; en_sequence := 0; en_request_id :=
     en_request_id e; en_size := en_size e; en_count := en_count e; en_staging := en_staging e; en_next_request :=
     en_next_request e; en_next_response := 0; en_retired := retired |}.
Definition en_host (e : Entry) : HostIdentity := pi_host (en_info e).
Definition en_key (e : Entry) : HostIdentity * Z := (pi_boot_id (en_info e), pi_session_id (en_info e)).

(** Durations in milliseconds, as [std::chrono::milliseconds] counts them. *)
Record DiscoveryConfig := {
  dc_host : HostIdentity;
  dc_boot_id : HostIdentity;
  dc_profile : PeerProfile;
  dc_compatibility_policy : Z;
  dc_interface_address : list Z;
  dc_multicast_group : list Z;
  dc_port : Z;
  dc_metadata_port : Z;
  dc_announce_interval : Z;
  dc_peer_timeout : Z;
  dc_metadata_retry : Z;
  dc_max_peers : Z
}.

Record DiscoveryStats := {
  ds_announces_sent : Z;
  ds_metadata_requests_sent : Z;
  ds_metadata_responses_sent : Z;
  ds_rejected_datagrams : Z
}.
Definition no_stats : DiscoveryStats :=
  {| ds_announces_sent := 0; ds_metadata_requests_sent := 0; ds_metadata_responses_sent := 0;
     ds_rejected_datagrams := 0 |}.
Definition count_announce (t : DiscoveryStats) : DiscoveryStats :=
  {| ds_announces_sent := u64 (ds_announces_sent t + 1); ds_metadata_requests_sent := ds_metadata_requests_sent t;
     ds_metadata_responses_sent := ds_metadata_responses_sent t; ds_rejected_datagrams := ds_rejected_datagrams t |}.
Definition count_request (t : DiscoveryStats) : DiscoveryStats :=
  {| ds_announces_sent := ds_announces_sent t; ds_metadata_requests_sent := u64 (ds_metadata_requests_sent t + 1);
     ds_metadata_responses_sent := ds_metadata_responses_sent t; ds_rejected_datagrams := ds_rejected_datagrams t |}.
Definition count_response (t : DiscoveryStats) : DiscoveryStats :=
  {| ds_announces_sent := ds_announces_sent t; ds_metadata_requests_sent := ds_metadata_requests_sent t;
     ds_metadata_responses_sent := u64 (ds_metadata_responses_sent t + 1); ds_rejected_datagrams :=
     ds_rejected_datagrams t |}.
Definition count_rejected (t : DiscoveryStats) : DiscoveryStats :=
  {| ds_announces_sent := ds_announces_sent t; ds_metadata_requests_sent := ds_metadata_requests_sent t;
     ds_metadata_responses_sent := ds_metadata_responses_sent t; ds_rejected_datagrams := u64 (ds_rejected_datagrams t
     + 1) |}.

(** Where the worker stands in [Run] and [Drain]: at the test of [while(running)],
    before the locked [Tick], before [poll], at the test of [Drain]'s loop with [i]
    datagrams taken, before [recvfrom]; [after] are the sockets still to drain
    ([true] for the multicast one). *)
Inductive Worker :=
| WLoop
| WTick
| WPoll
| WDrain (multicast : bool) (i : nat) (after : list bool)
| WRecv (multicast : bool) (i : nat) (after : list bool)
| WExited.

Record Impl := {
  im_config : DiscoveryConfig;
  im_stats : DiscoveryStats;
  im_peers : list Entry;
  im_metadata : list Z;
  im_base_metadata : list NetworkEndpointMetadata;
  im_consumers : list NetworkEndpointMetadata;
  im_endpoint_count : Z;
  im_revision : Z;
  im_sequence : Z;
  im_session : Z;
  im_request_counter : Z;
  im_multicast : bool;  (** [multicast_fd >= 0] *)
  im_unicast : bool;  (** [unicast_fd >= 0] *)
  im_wake : bool;  (** [wake_fd >= 0] *)
  im_group : sockaddr_in;
  im_running : bool;
  im_error : Z;
  im_dirty : bool;
  im_next_announce : Z;
  im_worker : option Worker;  (** [None] when the thread is not joinable *)
  im_results : list Z;  (** what the next calls of [sendto] return *)
  im_wire : list (sockaddr_in * list Z)  (** datagrams sent since [Start] *)
}.
Definition set_peers (peers : list Entry) (s : Impl) : Impl :=
  {| im_config := im_config s; im_stats := im_stats s; im_peers := peers; im_metadata := im_metadata s;
     im_base_metadata := im_base_metadata s; im_consumers := im_consumers s; im_endpoint_count := im_endpoint_count s;
     im_revision := im_revision s; im_sequence := im_sequence s; im_session := im_session s; im_request_counter :=
     im_request_counter s; im_multicast := im_multicast s; im_unicast := im_unicast s; im_wake := im_wake s; im_group
     := im_group s; im_running := im_running s; im_error := im_error s; im_dirty := im_dirty s; im_next_announce :=
     im_next_announce s; im_worker := im_worker s; im_results := im_results s; im_wire := im_wire s |}.
Definition set_stats (stats : DiscoveryStats) (s : Impl) : Impl :=
  {| im_config := im_config s; im_stats := stats; im_peers := im_peers s; im_metadata := im_metadata s;
     im_base_metadata := im_base_metadata s; im_consumers := im_consumers s; im_endpoint_count := im_endpoint_count s;
     im_revision := im_revision s; im_sequence := im_sequence s; im_session := im_session s; im_request_counter :=
     im_request_counter s; im_multicast := im_multicast s; im_unicast := im_unicast s; im_wake := im_wake s; im_group
     := im_group s; im_running := im_running s; im_error := im_error s; im_dirty := im_dirty s; im_next_announce :=
     im_next_announce s; im_worker := im_worker s; im_results := im_results s; im_wire := im_wire s |}.
Definition set_error (code : Z) (s : Impl) : Impl :=
  {| im_config := im_config s; im_stats := im_stats s; im_peers := im_peers s; im_metadata := im_metadata s;
     im_base_metadata := im_base_metadata s; im_consumers := im_consumers s; im_endpoint_count := im_endpoint_count s;
     im_revision := im_revision s; im_sequence := im_sequence s; im_session := im_session s; im_request_counter :=
     im_request_counter s; im_multicast := im_multicast s; im_unicast := im_unicast s; im_wake := im_wake s; im_group
     := im_group s; im_running := im_running s; im_error := code; im_dirty := im_dirty s; im_next_announce :=
     im_next_announce s; im_worker := im_worker s; im_results := im_results s; im_wire := im_wire s |}.
Definition set_running (b : bool) (s : Impl) : Impl :=
  {| im_config := im_config s; im_stats := im_stats s; im_peers := im_peers s; im_metadata := im_metadata s;
     im_base_metadata := im_base_metadata s; im_consumers := im_consumers s; im_endpoint_count := im_endpoint_count s;
     im_revision := im_revision s; im_sequence := im_sequence s; im_session := im_session s; im_request_counter :=
     im_request_counter s; im_multicast := im_multicast s; im_unicast := im_unicast s; im_wake := im_wake s; im_group
     := im_group s; im_running := b; im_error := im_error s; im_dirty := im_dirty s; im_next_announce :=
     im_next_announce s; im_worker := im_worker s; im_results := im_results s; im_wire := im_wire s |}.
Definition set_request_counter (n : Z) (s : Impl) : Impl :=
  {| im_config := im_config s; im_stats := im_stats s; im_peers := im_peers s; im_metadata := im_metadata s;
     im_base_metadata := im_base_metadata s; im_consumers := im_consumers s; im_endpoint_count := im_endpoint_count s;
     im_revision := im_revision s; im_sequence := im_sequence s; im_session := im_session s; im_request_counter := n;
     im_multicast := im_multicast s; im_unicast := im_unicast s; im_wake := im_wake s; im_group := im_group s;
     im_running := im_running s; im_error := im_error s; im_dirty := im_dirty s; im_next_announce := im_next_announce
     s; im_worker := im_worker s; im_results := im_results s; im_wire := im_wire s |}.
Definition set_results (results : list Z) (s : Impl) : Impl :=
  {| im_config := im_config s; im_stats := im_stats s; im_peers := im_peers s; im_metadata := im_metadata s;
     im_base_metadata := im_base_metadata s; im_consumers := im_consumers s; im_endpoint_count := im_endpoint_count s;
     im_revision := im_revision s; im_sequence := im_sequence s; im_session := im_session s; im_request_counter :=
     im_request_counter s; im_multicast := im_multicast s; im_unicast := im_unicast s; im_wake := im_wake s; im_group
     := im_group s; im_running := im_running s; im_error := im_error s; im_dirty := im_dirty s; im_next_announce :=
     im_next_announce s; im_worker := im_worker s; im_results := results; im_wire := im_wire s |}.
Definition set_worker (w : option Worker) (s : Impl) : Impl :=
  {| im_config := im_config s; im_stats := im_stats s; im_peers := im_peers s; im_metadata := im_metadata s;
     im_base_metadata := im_base_metadata s; im_consumers := im_consumers s; im_endpoint_count := im_endpoint_count s;
     im_revision := im_revision s; im_sequence := im_sequence s; im_session := im_session s; im_request_counter :=
     im_request_counter s; im_multicast := im_multicast s; im_unicast := im_unicast s; im_wake := im_wake s; im_group
     := im_group s; im_running := im_running s; im_error := im_error s; im_dirty := im_dirty s; im_next_announce :=
     im_next_announce s; im_worker := w; im_results := im_results s; im_wire := im_wire s |}.
Definition take_sequence (s : Impl) : Impl :=
  {| im_config := im_config s; im_stats := im_stats s; im_peers := im_peers s; im_metadata := im_metadata s;
     im_base_metadata := im_base_metadata s; im_consumers := im_consumers s; im_endpoint_count := im_endpoint_count s;
     im_revision := im_revision s; im_sequence := im_sequence s + 1; im_session := im_session s; im_request_counter :=
     im_request_counter s; im_multicast := im_multicast s; im_unicast := im_unicast s; im_wake := im_wake s; im_group
     := im_group s; im_running := im_running s; im_error := im_error s; im_dirty := im_dirty s; im_next_announce :=
     im_next_announce s; im_worker := im_worker s; im_results := im_results s; im_wire := im_wire s |}.
Definition announced (next : Z) (s : Impl) : Impl :=
  {| im_config := im_config s; im_stats := im_stats s; im_peers := im_peers s; im_metadata := im_metadata s;
     im_base_metadata := im_base_metadata s; im_consumers := im_consumers s; im_endpoint_count := im_endpoint_count s;
     im_revision := im_revision s; im_sequence := im_sequence s; im_session := im_session s; im_request_counter :=
     im_request_counter s; im_multicast := im_multicast s; im_unicast := im_unicast s; im_wake := im_wake s; im_group
     := im_group s; im_running := im_running s; im_error := im_error s; im_dirty := false; im_next_announce := next;
     im_worker := im_worker s; im_results := im_results s; im_wire := im_wire s |}.
Definition log_sent (results : list Z) (wire : list (sockaddr_in * list Z)) (s : Impl) : Impl :=
  {| im_config := im_config s; im_stats := im_stats s; im_peers := im_peers s; im_metadata := im_metadata s;
     im_base_metadata := im_base_metadata s; im_consumers := im_consumers s; im_endpoint_count := im_endpoint_count s;
     im_revision := im_revision s; im_sequence := im_sequence s; im_session := im_session s; im_request_counter :=
     im_request_counter s; im_multicast := im_multicast s; im_unicast := im_unicast s; im_wake := im_wake s; im_group
     := im_group s; im_running := im_running s; im_error := im_error s; im_dirty := im_dirty s; im_next_announce :=
     im_next_announce s; im_worker := im_worker s; im_results := results; im_wire := wire |}.
Definition publish (base consumers : list NetworkEndpointMetadata) (bytes : list Z) (s : Impl) : Impl :=
  {| im_config := im_config s; im_stats := im_stats s; im_peers := im_peers s; im_metadata := bytes; im_base_metadata
     := base; im_consumers := consumers; im_endpoint_count := u16 (Z.of_nat (length (base ++ consumers))); im_revision
     := im_revision s + 1; im_sequence := im_sequence s; im_session := im_session s; im_request_counter :=
     im_request_counter s; im_multicast := im_multicast s; im_unicast := im_unicast s; im_wake := im_wake s; im_group
     := im_group s; im_running := im_running s; im_error := im_error s; im_dirty := true; im_next_announce :=
     im_next_announce s; im_worker := im_worker s; im_results := im_results s; im_wire := im_wire s |}.
Definition CloseSockets (s : Impl) : Impl :=
  {| im_config := im_config s; im_stats := im_stats s; im_peers := im_peers s; im_metadata := im_metadata s;
     im_base_metadata := im_base_metadata s; im_consumers := im_consumers s; im_endpoint_count := im_endpoint_count s;
     im_revision := im_revision s; im_sequence := im_sequence s; im_session := im_session s; im_request_counter :=
     im_request_counter s; im_multicast := false; im_unicast := false; im_wake := false; im_group := im_group s;
     im_running := im_running s; im_error := im_error s; im_dirty := im_dirty s; im_next_announce := im_next_announce
     s; im_worker := im_worker s; im_results := im_results s; im_wire := im_wire s |}.
Definition open_multicast (s : Impl) : Impl :=
  {| im_config := im_config s; im_stats := im_stats s; im_peers := im_peers s; im_metadata := im_metadata s;
     im_base_metadata := im_base_metadata s; im_consumers := im_consumers s; im_endpoint_count := im_endpoint_count s;
     im_revision := im_revision s; im_sequence := im_sequence s; im_session := im_session s; im_request_counter :=
     im_request_counter s; im_multicast := true; im_unicast := im_unicast s; im_wake := im_wake s; im_group :=
     im_group s; im_running := im_running s; im_error := im_error s; im_dirty := im_dirty s; im_next_announce :=
     im_next_announce s; im_worker := im_worker s; im_results := im_results s; im_wire := im_wire s |}.
Definition open_unicast (s : Impl) : Impl :=
  {| im_config := im_config s; im_stats := im_stats s; im_peers := im_peers s; im_metadata := im_metadata s;
     im_base_metadata := im_base_metadata s; im_consumers := im_consumers s; im_endpoint_count := im_endpoint_count s;
     im_revision := im_revision s; im_sequence := im_sequence s; im_session := im_session s; im_request_counter :=
     im_request_counter s; im_multicast := im_multicast s; im_unicast := true; im_wake := im_wake s; im_group :=
     im_group s; im_running := im_running s; im_error := im_error s; im_dirty := im_dirty s; im_next_announce :=
     im_next_announce s; im_worker := im_worker s; im_results := im_results s; im_wire := im_wire s |}.
Definition open_wake (s : Impl) : Impl :=
  {| im_config := im_config s; im_stats := im_stats s; im_peers := im_peers s; im_metadata := im_metadata s;
     im_base_metadata := im_base_metadata s; im_consumers := im_consumers s; im_endpoint_count := im_endpoint_count s;
     im_revision := im_revision s; im_sequence := im_sequence s; im_session := im_session s; im_request_counter :=
     im_request_counter s; im_multicast := im_multicast s; im_unicast := im_unicast s; im_wake := true; im_group :=
     im_group s; im_running := im_running s; im_error := im_error s; im_dirty := im_dirty s; im_next_announce :=
     im_next_announce s; im_worker := im_worker s; im_results := im_results s; im_wire := im_wire s |}.
Definition set_group (group : sockaddr_in) (s : Impl) : Impl :=
  {| im_config := im_config s; im_stats := im_stats s; im_peers := im_peers s; im_metadata := im_metadata s;
     im_base_metadata := im_base_metadata s; im_consumers := im_consumers s; im_endpoint_count := im_endpoint_count s;
     im_revision := im_revision s; im_sequence := im_sequence s; im_session := im_session s; im_request_counter :=
     im_request_counter s; im_multicast := im_multicast s; im_unicast := im_unicast s; im_wake := im_wake s; im_group
     := group; im_running := im_running s; im_error := im_error s; im_dirty := im_dirty s; im_next_announce :=
     im_next_announce s; im_worker := im_worker s; im_results := im_results s; im_wire := im_wire s |}.
Definition begin_session (config : DiscoveryConfig) (endpoints : list NetworkEndpointMetadata) (bytes : list Z) (session : Z) (s : Impl) : Impl :=
  {| im_config := config; im_stats := no_stats; im_peers := []; im_metadata := bytes; im_base_metadata := endpoints;
     im_consumers := []; im_endpoint_count := u16 (Z.of_nat (length endpoints)); im_revision := 1; im_sequence := 0;
     im_session := session; im_request_counter := 0; im_multicast := im_multicast s; im_unicast := im_unicast s;
     im_wake := im_wake s; im_group := im_group s; im_running := im_running s; im_error := 0; im_dirty := true;
     im_next_announce := im_next_announce s; im_worker := im_worker s; im_results := im_results s; im_wire := [] |}.

Definition set_entry (i : nat) (e : Entry) (s : Impl) : Impl := set_peers (<[i := e]> (im_peers s)) s.
Definition reject (s : Impl) : Impl := set_stats (count_rejected (im_stats s)) s.
Definition timeout_ns (s : Impl) : Z := dc_peer_timeout (im_config s) * millisecond.
Definition retry_ns (s : Impl) : Z := dc_metadata_retry (im_config s) * millisecond.

(** ** Sending *)
Definition Packet (kind : Z) (s : Impl) : DiscoveryPacket :=
  {| dp_kind := kind; dp_host := dc_host (im_config s); dp_boot_id := dc_boot_id (im_config s);
     dp_session_id := im_session s; dp_sequence := 0; dp_revision := 0; dp_request_id := 0;
     dp_metadata_size := 0; dp_offset := 0; dp_endpoint_count := 0; dp_profile := default_profile;
     dp_chunk := [] |}.

(** [sendto] returns the number of bytes, or an errno negated here; [-EAGAIN] once the
    listed results are used up.  [EWOULDBLOCK] is [EAGAIN]. *)
Definition Send (p : DiscoveryPacket) (address : sockaddr_in) (s : Impl) : bool * Impl :=
  match EncodeDiscoveryPacket p with
  | Err code => (false, set_error code s)
  | Ok bytes =>
      let n := hd (- EAGAIN) (im_results s) in
      if n <? 0 then
        let s := set_results (tl (im_results s)) s in
        (false, if n =? - EAGAIN then s else set_error n s)
      else (n =? vsize bytes, log_sent (tl (im_results s)) (im_wire s ++ [(address, bytes)]) s)
  end.

Definition BeginMetadata (e : Entry) (s : Impl) : Entry * Impl :=
  let e := clear_metadata e in
  if im_request_counter s =? UINT64_MAX then (e, set_running false (set_error (- EOVERFLOW) s))
  else (set_request (im_request_counter s + 1) e, set_request_counter (im_request_counter s + 1) s).

Definition announce_packet (s : Impl) : DiscoveryPacket :=
  let p := Packet DiscoveryMessage.ANNOUNCE s in
  {| dp_kind := dp_kind p; dp_host := dp_host p; dp_boot_id := dp_boot_id p; dp_session_id := dp_session_id p;
     dp_sequence := im_sequence s; dp_revision := im_revision s; dp_request_id := 0;
     dp_metadata_size := u32 (vsize (im_metadata s)); dp_offset := 0; dp_endpoint_count := im_endpoint_count s;
     dp_profile := dc_profile (im_config s); dp_chunk := [] |}.
Definition tick_announce (now : Z) (s : Impl) : Impl :=
  let s := take_sequence s in
  let (sent, s) := Send (announce_packet s) (im_group s) s in
  let s := if sent then set_stats (count_announce (im_stats s)) s else s in
  announced (now + dc_announce_interval (im_config s) * millisecond) s.

Definition metadata_request (e : Entry) (s : Impl) : DiscoveryPacket :=
  let p := Packet DiscoveryMessage.METADATA_REQUEST s in
  {| dp_kind := dp_kind p; dp_host := dp_host p; dp_boot_id := dp_boot_id p; dp_session_id := dp_session_id p;
     dp_sequence := 0; dp_revision := pi_metadata_revision (en_info e); dp_request_id := en_request_id e;
     dp_metadata_size := 0; dp_offset := u32 (vsize (en_staging e)); dp_endpoint_count := 0;
     dp_profile := default_profile; dp_chunk := [] |}.
Definition online (e : Entry) : bool := bool_decide (pi_state (en_info e) = ONLINE).
Definition tick_peer (now : Z) (i : nat) (e : Entry) (s : Impl) : Impl :=
  let e := if online e && (timeout_ns s <=? now - pi_last_seen (en_info e)) then lose e else e in
  let s := set_entry i e s in
  if online e && negb (pi_metadata_ready (en_info e)) && (en_next_request e <=? now) then
    let (sent, s) := Send (metadata_request e s) (en_address e) s in
    let s := if sent then set_stats (count_request (im_stats s)) s else s in
    set_entry i (set_next_request (now + retry_ns s) e) s
  else s.
(** [for(auto& e:peers)]: the entries from index [i]; [n] of them are left. *)
Fixpoint tick_peers (now : Z) (n i : nat) (s : Impl) : Impl :=
  match n with
  | O => s
  | S n => match im_peers s !! i with
           | Some e => tick_peers now n (S i) (tick_peer now i e s)
           | None => s
           end
  end.
Definition Tick (now : Z) (s : Impl) : Impl :=
  let due := im_dirty s || (im_next_announce s <=? now) in
  if due && (im_sequence s =? UINT64_MAX) then set_running false (set_error (- EOVERFLOW) s)
  else
    let s := if due then tick_announce now s else s in
    tick_peers now (length (im_peers s)) 0 s.

(** ** Receiving *)
Definition SameAddress (a b : sockaddr_in) : bool := (sin_addr a =? sin_addr b) && (sin_port a =? sin_port b).

Definition find_peer (host : HostIdentity) (peers : list Entry) : option (nat * Entry) :=
  list_find (fun e => en_host e = host) peers.

(** The LOST entry seen longest ago, the first one of several. *)
Fixpoint oldest_lost (peers : list Entry) (i : nat) (oldest : option (nat * Entry)) : option (nat * Entry) :=
  match peers with
  | [] => oldest
  | e :: rest =>
      let better := negb (online e) &&
        match oldest with
        | None => true
        | Some (_, o) => pi_last_seen (en_info e) <? pi_last_seen (en_info o)
        end in
      oldest_lost rest (S i) (if better then Some (i, e) else oldest)
  end.

(** The entry for a host, made when there is none: its index and the table. *)
Definition locate (host : HostIdentity) (s : Impl) : option (nat * list Entry) :=
  match find_peer host (im_peers s) with
  | Some (i, _) => Some (i, im_peers s)
  | None =>
      if Z.of_nat (length (im_peers s)) =? dc_max_peers (im_config s) then
        match oldest_lost (im_peers s) 0 None with
        | None => None
        | Some (j, _) => let peers := delete j (im_peers s) in Some (length peers, peers ++ [new_entry])
        end
      else Some (length (im_peers s), im_peers s ++ [new_entry])
  end.

Definition retire (e : Entry) : Entry :=
  let retired := en_retired e ++ [en_key e] in
  set_retired (if (8 <? length retired)%nat then tl retired else retired) e.

Definition adopt (p : DiscoveryPacket) (address : sockaddr_in) (now : Z) (config : DiscoveryConfig) (e : Entry) : Entry :=
  {| en_info :=
       {| pi_host := dp_host p; pi_boot_id := dp_boot_id p; pi_session_id := dp_session_id p;
          pi_address := inet_ntop (sin_addr address); pi_port := sin_port address; pi_last_seen := now;
          pi_metadata_revision := dp_revision p; pi_state := ONLINE; pi_profile := dp_profile p;
          pi_compatibility :=
            CheckPeerCompatibility (dc_profile config) (dp_profile p) (dc_compatibility_policy config);
          pi_metadata_ready := pi_metadata_ready (en_info e); pi_endpoints := pi_endpoints (en_info e) |};
     en_address := address; en_sequence := dp_sequence p; en_request_id := en_request_id e;
     en_size := dp_metadata_size p; en_count := dp_endpoint_count p; en_staging := en_staging e;
     en_next_request := en_next_request e; en_next_response := en_next_response e; en_retired := en_retired e |}.

(** The rest of [Announce] from the sequence check on. *)
Definition announce_update (i : nat) (e : Entry) (changed : bool) (p : DiscoveryPacket) (address : sockaddr_in)
    (now : Z) (s : Impl) : Impl :=
  let info := en_info e in
  if (dp_sequence p <=? en_sequence e) || (dp_revision p <? pi_metadata_revision info) then s
  else if negb (en_sequence e =? 0) && (dp_revision p =? pi_metadata_revision info) &&
          (negb (en_size e =? dp_metadata_size p) || negb (en_count e =? dp_endpoint_count p)) then s
  else
    let moved := negb (en_sequence e =? 0) && negb (SameAddress (en_address e) address) in
    if moved && (now - pi_last_seen info <? timeout_ns s) then s
    else
      let refresh := (pi_session_id info =? 0) || changed || moved || negb (online e) ||
                     negb (dp_revision p =? pi_metadata_revision info) in
      let e := adopt p address now (im_config s) e in
      let (e, s) := if refresh then BeginMetadata e s else (e, s) in
      set_entry i e s.

Definition announce_entry (i : nat) (e : Entry) (p : DiscoveryPacket) (address : sockaddr_in) (now : Z) (s : Impl) : Impl :=
  let info := en_info e in
  let known := negb (pi_session_id info =? 0) in
  let changed := known && (negb (pi_session_id info =? dp_session_id p) || negb (pi_boot_id info =?? dp_boot_id p)) in
  if known && negb changed && negb (pi_profile info =?? dp_profile p) then s
  else if changed && (now - pi_last_seen info <? timeout_ns s) then s
  else if changed && bool_decide ((dp_boot_id p, dp_session_id p) ∈ en_retired e) then s
  else
    let e := if changed then retire e else e in
    announce_update i e changed p address now (set_entry i e s).

Definition Announce (p : DiscoveryPacket) (address : sockaddr_in) (now : Z) (s : Impl) : Impl :=
  match locate (dp_host p) s with
  | None => s
  | Some (i, peers) =>
      let s := set_peers peers s in
      match peers !! i with
      | Some e => announce_entry i e p address now s
      | None => s
      end
  end.

Definition metadata_response (p : DiscoveryPacket) (s : Impl) : DiscoveryPacket :=
  let r := Packet DiscoveryMessage.METADATA_RESPONSE s in
  let length := Z.min DISCOVERY_CHUNK_SIZE (vsize (im_metadata s) - dp_offset p) in
  {| dp_kind := dp_kind r; dp_host := dp_host r; dp_boot_id := dp_boot_id r; dp_session_id := dp_session_id r;
     dp_sequence := 0; dp_revision := im_revision s; dp_request_id := dp_request_id p;
     dp_metadata_size := u32 (vsize (im_metadata s)); dp_offset := dp_offset p; dp_endpoint_count := 0;
     dp_profile := default_profile;
     dp_chunk := take (Z.to_nat length) (drop (Z.to_nat (dp_offset p)) (im_metadata s)) |}.

Definition receive_request (i : nat) (e : Entry) (p : DiscoveryPacket) (address : sockaddr_in) (now : Z) (s : Impl) : Impl :=
  if negb (dp_revision p =? im_revision s) || (vsize (im_metadata s) <=? dp_offset p) || (now <? en_next_response e)
  then s
  else
    let s := set_entry i (set_next_response (now + 10 * millisecond) e) s in
    let (sent, s) := Send (metadata_response p s) address s in
    if sent then set_stats (count_response (im_stats s)) s else s.

Definition receive_response (i : nat) (e : Entry) (p : DiscoveryPacket) (now : Z) (s : Impl) : Impl :=
  if pi_metadata_ready (en_info e) || negb (dp_request_id p =? en_request_id e) ||
     negb (dp_revision p =? pi_metadata_revision (en_info e)) || negb (dp_metadata_size p =? en_size e) ||
     negb (dp_offset p =? vsize (en_staging e)) then s
  else
    let staging := en_staging e ++ dp_chunk p in
    let e := set_staging staging e in
    if vsize staging =? en_size e then
      match DecodeDiscoveryMetadata (Some staging) with
      | Ok decoded =>
          if negb (Z.of_nat (length decoded) =? en_count e) ||
             negb (ValidDiscoveryMetadata decoded (dp_host p) (dp_boot_id p)) then
            let (e, s) := BeginMetadata e (reject s) in set_entry i (set_next_request (now + retry_ns s) e) s
          else set_entry i (set_ready decoded e) s
      | Err _ => let (e, s) := BeginMetadata e (reject s) in set_entry i (set_next_request (now + retry_ns s) e) s
      end
    else set_entry i (set_next_request 0 e) s.

Definition Receive (p : DiscoveryPacket) (address : sockaddr_in) (multicast : bool) (now : Z) (s : Impl) : Impl :=
  if dp_host p =?? dc_host (im_config s) then s
  else if multicast then
    if dp_kind p =? DiscoveryMessage.ANNOUNCE then Announce p address now s else reject s
  else
    match find_peer (dp_host p) (im_peers s) with
    | None => s
    | Some (i, e) =>
        if negb (online e) || negb (pi_boot_id (en_info e) =?? dp_boot_id p) ||
           negb (pi_session_id (en_info e) =? dp_session_id p) || negb (SameAddress (en_address e) address) then s
        else if dp_kind p =? DiscoveryMessage.METADATA_REQUEST then receive_request i e p address now s
        else if dp_kind p =? DiscoveryMessage.METADATA_RESPONSE then receive_response i e p now s
        else reject s
    end.

(** What [recvfrom(..., MSG_TRUNC)] delivers; the length it returns is that of the
    whole datagram. *)
Inductive Arrival :=
| RecvError (errno : Z)
| RecvFrom (address : sockaddr_in) (data : list Z).

Definition bad_source (address : sockaddr_in) : bool :=
  negb (sin_family address =? AF_INET) || (sin_port address =? 0) || (sin_addr address =? INADDR_ANY) ||
  IN_MULTICAST (sin_addr address).

(** One iteration of [Drain]: whether its loop goes on, and the state. *)
Definition drain_one (multicast : bool) (arrival : Arrival) (now : Z) (s : Impl) : bool * Impl :=
  match arrival with
  | RecvError errno =>
      (false, if negb (errno =? EAGAIN) && negb (errno =? EINTR) then set_error (- errno) s else s)
  | RecvFrom address data =>
      (true,
       if (DISCOVERY_MAX_DATAGRAM <? vsize data) || bad_source address then reject s
       else match DecodeDiscoveryPacket (Some data) with
            | Err _ => reject s
            | Ok p => Receive p address multicast now s
            end)
  end.

(** ** The worker *)
Record Revents := { rv_in : bool; rv_err : bool; rv_hup : bool (** [POLLNVAL|POLLHUP] *); rv_so_error : Z }.
(** What [poll] returns; [rv_so_error] is what [getsockopt(SO_ERROR)] finds, 0 for nothing. *)
Inductive Polled :=
| PollError (errno : Z)
| PollEvents (multicast unicast : Revents).

Definition socket_error (r : Revents) (s : Impl) : Impl :=
  if rv_err r && negb (rv_so_error r =? 0) then set_error (- rv_so_error r) s else s.
Definition exit_worker (s : Impl) : Impl := set_worker (Some WExited) (set_running false s).
(** The next socket to drain, or the loop test again. *)
Definition next_socket (sockets : list bool) : Worker :=
  match sockets with [] => WLoop | m :: after => WDrain m 0 after end.

Definition polled (r : Polled) (s : Impl) : Impl :=
  match r with
  | PollError errno =>
      if errno =? EINTR then set_worker (Some WLoop) s else exit_worker (set_error (- errno) s)
  | PollEvents multicast unicast =>
      if negb (im_running s) then exit_worker s
      else if rv_hup multicast || rv_hup unicast then exit_worker (set_error (- EBADF) s)
      else
        let s := socket_error unicast (socket_error multicast s) in
        set_worker (Some (next_socket ((if rv_in multicast then [true] else []) ++
                                       (if rv_in unicast then [false] else [])))) s
  end.

(** ** The API *)
Definition CheckRouteCompatibility (local : DiscoveryConfig) (peer : PeerInfo) (local_endpoint : NetworkEndpointMetadata)
    (remote_endpoint : RemoteEndpointIdentity) (target : Z) : CompatibilityResult :=
  if bool_decide (pi_state peer <> ONLINE) then with_reason CompatibilityReason.PEER_LOST default_compatibility
  else
    let r := CheckPeerCompatibility (dc_profile local) (pi_profile peer) (dc_compatibility_policy local) in
    if negb (Compatible r) then r
    else if negb (pi_metadata_ready peer) then with_reason CompatibilityReason.METADATA_UNAVAILABLE r
    else if negb (rt_host (ep_runtime (md_identity local_endpoint)) =?? dc_host local) ||
            negb (rt_boot_id (ep_runtime (md_identity local_endpoint)) =?? dc_boot_id local) ||
            negb (rt_host (ep_runtime remote_endpoint) =?? pi_host peer) ||
            negb (rt_boot_id (ep_runtime remote_endpoint) =?? pi_boot_id peer)
    then with_reason CompatibilityReason.HOST_MISMATCH r
    else match list_find (fun e => md_identity e = remote_endpoint) (pi_endpoints peer) with
         | Some (_, e) => CheckEndpointCompatibility (dc_profile local) (pi_profile peer) local_endpoint e
                            (dc_compatibility_policy local) target
         | None => with_reason CompatibilityReason.UNKNOWN_ENDPOINT r
         end.

(** [do got=getrandom(...) while(got<0 && errno==EINTR)]: the first answer that is not
    [EINTR], with the session drawn; [None] while all were. *)
Fixpoint draw_session (answers : list (Z * Z)) : option (Z * Z) :=
  match answers with
  | [] => None
  | (got, session) :: rest => if got =? - EINTR then draw_session rest else Some (got, session)
  end.

(** The system calls of [Start] in order, with what each does when it succeeds; a
    failing one closes the sockets opened so far. *)
Fixpoint start_calls (actions : list (Impl -> Impl)) (errnos : list Z) (s : Impl) : Z * Impl :=
  match actions with
  | [] => (0, s)
  | action :: actions =>
      let errno := hd 0 errnos in
      if errno =? 0 then start_calls actions (tl errnos) (action s) else (- errno, CloseSockets s)
  end.
Definition no_effect (s : Impl) : Impl := s.
Definition start_actions (config : DiscoveryConfig) (group : Z) : list (Impl -> Impl) :=
  [open_multicast;   (* socket *)
   no_effect;        (* SO_REUSEADDR *)
   no_effect;        (* bind *)
   no_effect;        (* IP_ADD_MEMBERSHIP *)
   no_effect;        (* IP_MULTICAST_ALL *)
   open_unicast;     (* socket *)
   no_effect;        (* bind *)
   no_effect;        (* IP_MULTICAST_IF *)
   no_effect;        (* IP_MULTICAST_TTL *)
   (fun s => set_group {| sin_family := AF_INET; sin_addr := group; sin_port := dc_port config |} s); (* IP_MULTICAST_LOOP *)
   open_wake         (* eventfd *)].
(** The [std::thread] constructor throws [std::system_error] when there is no thread to be had. *)
Definition start_worker (errno : Z) (s : Impl) : Z * Impl :=
  let s := set_running true s in
  if errno =? 0 then (0, set_worker (Some WLoop) s) else (- errno, CloseSockets (set_running false s)).

Definition valid_config (config : DiscoveryConfig) (endpoints : list NetworkEndpointMetadata) (interface group : Z) : bool :=
  Compatible (CheckPeerCompatibility (dc_profile config) (dc_profile config) (dc_compatibility_policy config)) &&
  negb (Z.land (pf_capabilities (dc_profile config)) Capability.DISCOVERY =? 0) &&
  ValidDiscoveryMetadata endpoints (dc_host config) (dc_boot_id config) && negb (dc_port config =? 0) &&
  (Z.land group 0xff000000 =? 0xef000000) && negb (IN_MULTICAST interface) && negb (interface =? INADDR_BROADCAST) &&
  (20 <=? dc_announce_interval config) && (dc_announce_interval config <=? 60000) &&
  (dc_announce_interval config * 3 <=? dc_peer_timeout config) && (dc_peer_timeout config <=? 300000) &&
  (20 <=? dc_metadata_retry config) && (dc_metadata_retry config <=? dc_peer_timeout config) &&
  negb (dc_max_peers config =? 0) && (dc_max_peers config <=? DISCOVERY_MAX_PEERS).

(** [None]: [getrandom] has not answered yet. *)
Definition Start (config : DiscoveryConfig) (endpoints : list NetworkEndpointMetadata) (random : list (Z * Z))
    (errnos : list Z) (thread : Z) (s : Impl) : option (Z * Impl) :=
  if bool_decide (is_Some (im_worker s)) then Some (- EBUSY, s)
  else match inet_pton (dc_interface_address config), inet_pton (dc_multicast_group config) with
  | Some interface, Some group =>
      if negb (valid_config config endpoints interface group) then Some (- EINVAL, s)
      else match EncodeDiscoveryMetadata endpoints with
      | Err code => Some (code, s)
      | Ok bytes =>
          match draw_session random with
          | None => None
          | Some (got, session) =>
              if negb (got =? 8) || (session =? 0) then Some (if got <? 0 then got else - EIO, s)
              else
                let (code, s) := start_calls (start_actions config group) errnos (begin_session config endpoints bytes session s) in
                Some (if code =? 0 then start_worker thread s else (code, s))
          end
      end
  | _, _ => Some (- EINVAL, s)
  end.

Definition UpdateMetadata (endpoints : list NetworkEndpointMetadata) (s : Impl) : Z * Impl :=
  if negb (im_running s) then (- ENOTCONN, s)
  else if negb (ValidDiscoveryMetadata endpoints (dc_host (im_config s)) (dc_boot_id (im_config s))) then (- EINVAL, s)
  else
    let all := endpoints ++ im_consumers s in
    if negb (ValidDiscoveryMetadata all (dc_host (im_config s)) (dc_boot_id (im_config s))) then (- EINVAL, s)
    else match EncodeDiscoveryMetadata all with
    | Err code => (code, s)
    | Ok bytes =>
        if bytes =?? im_metadata s then (0, s)
        else if im_revision s =? UINT64_MAX then (- EOVERFLOW, s)
        else (0, publish endpoints (im_consumers s) bytes s)
    end.

Definition RegisterConsumer (session : Z) (endpoint : NetworkEndpointMetadata) (s : Impl) : Z * Impl :=
  if negb (im_running s) || negb (im_session s =? session) then (- ESTALE, s)
  else if negb (md_kind endpoint =? EndpointKind.TOPIC) || negb (md_role endpoint =? EndpointRole.CONSUMER) ||
          negb (md_scope endpoint =? NetworkScope.REMOTE) then (- EINVAL, s)
  else if (64 <=? length (im_consumers s))%nat then (- ENOSPC, s)
  else
    let consumers := im_consumers s ++ [endpoint] in
    let all := im_base_metadata s ++ consumers in
    if negb (ValidDiscoveryMetadata all (dc_host (im_config s)) (dc_boot_id (im_config s))) then (- EINVAL, s)
    else match EncodeDiscoveryMetadata all with
    | Err code => (code, s)
    | Ok bytes =>
        if im_revision s =? UINT64_MAX then (- EOVERFLOW, s)
        else (0, publish (im_base_metadata s) consumers bytes s)
    end.

Definition UnregisterConsumer (session : Z) (endpoint : RemoteEndpointIdentity) (s : Impl) : Z * Impl :=
  if negb (im_running s) || negb (im_session s =? session) then (- ESTALE, s)
  else match list_find (fun e => md_identity e = endpoint) (im_consumers s) with
  | None => (- ENOENT, s)
  | Some (i, _) =>
      let next := delete i (im_consumers s) in
      match EncodeDiscoveryMetadata (im_base_metadata s ++ next) with
      | Err code => (code, s)
      | Ok bytes =>
          if im_revision s =? UINT64_MAX then (- EOVERFLOW, s)
          else (0, publish (im_base_metadata s) next bytes s)
      end
  end.

(** [Stop]: the section that clears [running], and the one after the join. *)
Definition stop_request (s : Impl) : Impl := set_running false s.
Definition stop_finish (s : Impl) : Impl := set_peers [] (CloseSockets (set_worker None s)).

Definition GetPeers (s : Impl) : list PeerInfo := en_info <$> im_peers s.

(** ** The machine *)
Inductive Event :=
| EvLoop
| EvTick (now : Z) (results : list Z)
| EvPoll (r : Polled)
| EvDrain
| EvRecv (arrival : Arrival) (now : Z) (results : list Z)
| EvUpdate (endpoints : list NetworkEndpointMetadata)
| EvRegister (session : Z) (endpoint : NetworkEndpointMetadata)
| EvUnregister (session : Z) (endpoint : RemoteEndpointIdentity)
| EvStopRequest
| EvStopFinish.

Definition discovery_exec (e : Event) (s : Impl) : option Impl :=
  match e, im_worker s with
  | EvLoop, Some WLoop => Some (if im_running s then set_worker (Some WTick) s else exit_worker s)
  | EvTick now results, Some WTick => Some (set_worker (Some WPoll) (Tick now (set_results results s)))
  | EvPoll r, Some WPoll => Some (polled r s)
  | EvDrain, Some (WDrain m i after) =>
      Some (set_worker (Some (if (i <? 32)%nat && im_running s then WRecv m i after else next_socket after)) s)
  | EvRecv arrival now results, Some (WRecv m i after) =>
      let (go, s) := drain_one m arrival now (set_results results s) in
      Some (set_worker (Some (if go then WDrain m (S i) after else next_socket after)) s)
  | EvUpdate endpoints, _ => Some (snd (UpdateMetadata endpoints s))
  | EvRegister session endpoint, _ => Some (snd (RegisterConsumer session endpoint s))
  | EvUnregister session endpoint, _ => Some (snd (UnregisterConsumer session endpoint s))
  | EvStopRequest, _ => Some (stop_request s)
  | EvStopFinish, (None | Some WExited) => Some (stop_finish s)
  | _, _ => None
  end.
Abbreviation discovery_run := (machine_run discovery_exec).
Abbreviation discovery_step := (machine_step discovery_exec).
