(* ===== verification/PeerDiscoveryTable.v ===== *)
(** * How the table of peers evolves

    Every change [PeerDiscovery] makes to its table as a step of one entry or of the
    table ([entry_step], [table_step]), and the invariant of the table under these
    steps. *)
From S2P Require Import Prelude Wire NetTypes NetWire Compatibility DiscoveryProtocol PeerDiscovery.

(** ** Frames: what sending and the table updates leave alone *)

(** What the node says about itself. *)
Definition own (s : Impl) : DiscoveryConfig * Z * (list NetworkEndpointMetadata * list NetworkEndpointMetadata * list Z * Z * Z) :=
  (im_config s, im_session s, (im_base_metadata s, im_consumers s, im_metadata s, im_endpoint_count s, im_revision s)).
Definition published (s : Impl) : list NetworkEndpointMetadata := im_base_metadata s ++ im_consumers s.

Definition numbers (s : Impl) : Prop := is_u64 (im_sequence s) /\ is_u64 (im_request_counter s).

(** [sent Q s s']: [s'] is [s] but for the table, the counters, the error and what was
    sent meanwhile: encodings of packets that satisfy [Q]. *)
Record sent (Q : DiscoveryPacket -> Prop) (s s' : Impl) : Prop := {
  sent_own : own s' = own s;
  sent_numbers : numbers s -> numbers s';
  sent_wire : exists more, im_wire s' = im_wire s ++ more /\
    Forall (fun d => exists p, Q p /\ EncodeDiscoveryPacket p = Ok d.2) more
}.

Lemma sent_refl Q s : sent Q s s.
Proof. split; [done|done|]. exists []. by rewrite app_nil_r. Qed.

Lemma sent_trans Q s1 s2 s3 : sent Q s1 s2 -> sent Q s2 s3 -> sent Q s1 s3.
Proof.
  intros [H1 N1 (m1 & E1 & F1)] [H2 N2 (m2 & E2 & F2)]. split; [congruence|auto|].
  exists (m1 ++ m2). rewrite E2, E1, app_assoc. split; [done|]. by apply Forall_app.
Qed.

Lemma sent_frame Q s s' : own s' = own s -> (numbers s -> numbers s') -> im_wire s' = im_wire s -> sent Q s s'.
Proof. intros H N E. split; [done..|]. exists []. by rewrite app_nil_r. Qed.

Lemma Send_sent Q p address s : Q p -> sent Q s (snd (Send p address s)).
Proof.
  intros HQ. unfold Send. destruct (EncodeDiscoveryPacket p) as [bs|] eqn:He; [|by apply sent_frame].
  case_check; [case_check; by apply sent_frame|]. split; [done|done|]. exists [(address, bs)]. cbn. split; [done|].
  constructor; [by exists p|constructor].
Qed.

Lemma Send_peers p address s : im_peers (snd (Send p address s)) = im_peers s.
Proof. unfold Send. destruct (EncodeDiscoveryPacket p); [|done]. by repeat case_check. Qed.

Lemma Send_config p address s : im_config (snd (Send p address s)) = im_config s.
Proof. unfold Send. destruct (EncodeDiscoveryPacket p); [|done]. by repeat case_check. Qed.

Lemma BeginMetadata_frame e s : own (snd (BeginMetadata e s)) = own s /\ im_wire (snd (BeginMetadata e s)) = im_wire s /\
  im_peers (snd (BeginMetadata e s)) = im_peers s.
Proof. unfold BeginMetadata. by case_check. Qed.
(** ** How the table evolves *)
Definition heard_packet := option (DiscoveryPacket * sockaddr_in).
Definition timeout (c : DiscoveryConfig) : Z := dc_peer_timeout c * millisecond.

(** Asking for metadata from the start; the request id stays when the counter is used up. *)
Definition begun (e e' : Entry) : Prop :=
  e' = clear_metadata e \/ exists id, is_u64 id /\ e' = set_request id (clear_metadata e).

(** The incarnation (boot id and session) a packet speaks for is not the entry's. *)
Definition other_incarnation (p : DiscoveryPacket) (e : Entry) : bool :=
  negb (pi_session_id (en_info e) =? 0) &&
  (negb (pi_session_id (en_info e) =? dp_session_id p) || negb (pi_boot_id (en_info e) =?? dp_boot_id p)).
Definition moved_to (a : sockaddr_in) (e : Entry) : bool :=
  negb (en_sequence e =? 0) && negb (SameAddress (en_address e) a).
Definition needs_refresh (p : DiscoveryPacket) (a : sockaddr_in) (changed : bool) (e : Entry) : bool :=
  (pi_session_id (en_info e) =? 0) || changed || moved_to a e || negb (online e) ||
  negb (dp_revision p =? pi_metadata_revision (en_info e)).

(** [e] takes over announcement [p]; [e1] is [e], or [e] with its incarnation retired. *)
Record accepts (c : DiscoveryConfig) (now : Z) (p : DiscoveryPacket) (a : sockaddr_in) (e e1 : Entry) : Prop := {
  ac_kind : dp_kind p = DiscoveryMessage.ANNOUNCE;
  ac_valid : ValidDiscoveryPacket p = true;
  ac_wf : wf_discovery p;
  ac_base : e1 = if other_incarnation p e then retire e else e;
  ac_changed : other_incarnation p e = true ->
    timeout c <= now - pi_last_seen (en_info e) /\ (dp_boot_id p, dp_session_id p) ∉ en_retired e;
  ac_profile : pi_session_id (en_info e) <> 0 -> other_incarnation p e = false -> pi_profile (en_info e) = dp_profile p;
  ac_sequence : en_sequence e1 < dp_sequence p;
  ac_revision : pi_metadata_revision (en_info e1) <= dp_revision p;
  ac_same : en_sequence e1 <> 0 -> dp_revision p = pi_metadata_revision (en_info e1) ->
    en_size e1 = dp_metadata_size p /\ en_count e1 = dp_endpoint_count p;
  ac_moved : moved_to a e1 = true -> timeout c <= now - pi_last_seen (en_info e1)
}.

(** [e] takes chunk [p] of the metadata it asked for. *)
Record collects (p : DiscoveryPacket) (a : sockaddr_in) (e : Entry) : Prop := {
  co_kind : dp_kind p = DiscoveryMessage.METADATA_RESPONSE;
  co_valid : ValidDiscoveryPacket p = true;
  co_wf : wf_discovery p;
  co_host : dp_host p = en_host e;
  co_key : (dp_boot_id p, dp_session_id p) = en_key e;
  co_online : online e = true;
  co_address : SameAddress (en_address e) a = true;
  co_pending : pi_metadata_ready (en_info e) = false;
  co_request : dp_request_id p = en_request_id e;
  co_revision : dp_revision p = pi_metadata_revision (en_info e);
  co_size : dp_metadata_size p = en_size e;
  co_offset : dp_offset p = vsize (en_staging e)
}.
Definition usable (decoded : list NetworkEndpointMetadata) (e : Entry) : Prop :=
  Z.of_nat (length decoded) = en_count e /\ ValidDiscoveryMetadata decoded (en_host e) (pi_boot_id (en_info e)) = true.

Definition announce_step (c : DiscoveryConfig) (now : Z) (p : DiscoveryPacket) (a : sockaddr_in) (e e' : Entry) : Prop :=
  exists e1, accepts c now p a e e1 /\
    if needs_refresh p a (other_incarnation p e) e1 then begun (adopt p a now c e1) e' else e' = adopt p a now c e1.

Inductive entry_step (c : DiscoveryConfig) (now : Z) (heard : heard_packet) (e : Entry) : Entry -> Prop :=
| StepLose : online e = true -> timeout c <= now - pi_last_seen (en_info e) -> entry_step c now heard e (lose e)
| StepRetry t : entry_step c now heard e (set_next_request t e)
| StepAnswer t : entry_step c now heard e (set_next_response t e)
| StepAnnounce p a e' :
    heard = Some (p, a) -> announce_step c now p a e e' -> entry_step c now heard e e'
| StepChunk p a :
    heard = Some (p, a) -> collects p a e -> vsize (en_staging e ++ dp_chunk p) <> en_size e ->
    entry_step c now heard e (set_next_request 0 (set_staging (en_staging e ++ dp_chunk p) e))
| StepReady p a decoded :
    heard = Some (p, a) -> collects p a e -> vsize (en_staging e ++ dp_chunk p) = en_size e ->
    DecodeDiscoveryMetadata (Some (en_staging e ++ dp_chunk p)) = Ok decoded -> usable decoded e ->
    entry_step c now heard e (set_ready decoded (set_staging (en_staging e ++ dp_chunk p) e))
| StepRefuse p a t e' :
    heard = Some (p, a) -> collects p a e -> begun (set_staging (en_staging e ++ dp_chunk p) e) e' ->
    entry_step c now heard e (set_next_request t e').

Inductive table_step (c : DiscoveryConfig) (now : Z) (heard : heard_packet) : list Entry -> list Entry -> Prop :=
| TableEntry l i e e' :
    l !! i = Some e -> entry_step c now heard e e' ->
    en_host e' = en_host e ->
    table_step c now heard l (<[i := e']> l)
| TableNew l p a e' :
    heard = Some (p, a) -> dp_host p <> dc_host c -> (forall e, e ∈ l -> en_host e <> dp_host p) ->
    Z.of_nat (length l) <> dc_max_peers c -> announce_step c now p a new_entry e' -> en_host e' = dp_host p ->
    table_step c now heard l (l ++ [e'])
| TableReplace l j o p a e' :
    heard = Some (p, a) -> dp_host p <> dc_host c -> (forall e, e ∈ l -> en_host e <> dp_host p) ->
    Z.of_nat (length l) = dc_max_peers c -> l !! j = Some o -> online o = false ->
    (forall e, e ∈ l -> online e = false -> pi_last_seen (en_info o) <= pi_last_seen (en_info e)) ->
    announce_step c now p a new_entry e' -> en_host e' = dp_host p ->
    table_step c now heard l (delete j l ++ [e']).

Lemma find_peer_Some host peers i e :
  find_peer host peers = Some (i, e) -> peers !! i = Some e /\ en_host e = host.
Proof. intros (H & E & _)%list_find_Some. done. Qed.

Lemma find_peer_None host peers e : find_peer host peers = None -> e ∈ peers -> en_host e <> host.
Proof. intros H%list_find_None He. rewrite Forall_forall in H. by apply H. Qed.

Lemma online_true e : online e = true <-> pi_state (en_info e) = ONLINE.
Proof. unfold online. by rewrite bool_decide_eq_true. Qed.

(** The scan keeps the entry seen longest ago among those that qualify so far. *)
Lemma oldest_lost_spec done rest best j o :
  match best with
  | Some (k, b) => done !! k = Some b /\ online b = false /\
      (forall e, e ∈ done -> online e = false -> pi_last_seen (en_info b) <= pi_last_seen (en_info e))
  | None => forall e, e ∈ done -> online e = true
  end ->
  oldest_lost rest (length done) best = Some (j, o) ->
  (done ++ rest) !! j = Some o /\ online o = false /\
  (forall e, e ∈ done ++ rest -> online e = false -> pi_last_seen (en_info o) <= pi_last_seen (en_info e)).
Proof.
  revert done best. induction rest as [|e rest IH]; intros done best Hb H; cbn [oldest_lost] in H.
  { rewrite app_nil_r. subst best. done. }
  replace (S (length done)) with (length (done ++ [e])) in H by (rewrite length_app; simpl; lia).
  apply IH in H; [by rewrite <- app_assoc in H|]. clear IH H.
  destruct (online e) eqn:Ho; cbn [negb andb].
  { destruct best as [[k b]|].
    - destruct Hb as (Hk & Hb & Hmin). split; [by apply lookup_app_l_Some|]. split; [done|].
      intros x [Hx| ->%list_elem_of_singleton]%elem_of_app; [auto|congruence].
    - intros x [Hx| ->%list_elem_of_singleton]%elem_of_app; auto. }
  assert (Hlast : (done ++ [e]) !! length done = Some e) by (by rewrite lookup_app_r, Nat.sub_diag by lia).
  destruct best as [[k b]|]; [case_check; bool_to_prop|].
  - destruct Hb as (Hk & Hb & Hmin). split; [done|]. split; [done|].
    intros x [Hx| ->%list_elem_of_singleton]%elem_of_app Hx'; [|lia]. specialize (Hmin x Hx Hx'). lia.
  - destruct Hb as (Hk & Hb & Hmin). split; [by apply lookup_app_l_Some|]. split; [done|].
    intros x [Hx| ->%list_elem_of_singleton]%elem_of_app Hx'; [auto|lia].
  - split; [done|]. split; [done|].
    intros x [Hx| ->%list_elem_of_singleton]%elem_of_app Hx'; [by rewrite (Hb x Hx) in Hx'|lia].
Qed.

Lemma begun_frame e e' : begun e e' ->
  en_sequence e' = en_sequence e /\ en_size e' = en_size e /\ en_count e' = en_count e /\ en_retired e' = en_retired e /\
  en_staging e' = [] /\ en_address e' = en_address e /\ en_info e' = clear_endpoints (en_info e) /\
  (is_u64 (en_request_id e) -> is_u64 (en_request_id e')).
Proof. intros [->|(id & Hid & ->)]; done. Qed.

Lemma BeginMetadata_begun e s : is_u64 (im_request_counter s) -> begun e (fst (BeginMetadata e s)).
Proof.
  intros Hc. unfold BeginMetadata. case_check; [by left|right]. eexists; split; [|done].
  bool_to_prop. width.
Qed.

Lemma BeginMetadata_counter e s : is_u64 (im_request_counter s) -> is_u64 (im_request_counter (snd (BeginMetadata e s))).
Proof. intros Hc. unfold BeginMetadata. case_check; [done|]. bool_to_prop. cbn. width. Qed.

Lemma announce_numbers p :
  ValidDiscoveryPacket p = true -> wf_discovery p -> dp_kind p = DiscoveryMessage.ANNOUNCE ->
  1 <= dp_sequence p <= UINT64_MAX /\ 1 <= dp_revision p <= UINT64_MAX /\ dp_session_id p <> 0.
Proof.
  intros Hv (_ & _ & _ & _ & Hs & Hr & _) Hk. unfold ValidDiscoveryPacket in Hv. rewrite Hk in Hv.
  case_check; [done|]. rewrite Z.eqb_refl in Hv. bool_to_prop. unfold_widths. lia.
Qed.

(** The end of [Announce]: the accepted announcement is taken over. *)
Lemma adopt_step i e e1 p a now s :
  is_u64 (im_request_counter s) -> accepts (im_config s) now p a e e1 ->
  exists e', announce_step (im_config s) now p a e e' /\ en_host e' = dp_host p /\
    im_peers (let (e2, s2) :=
        if needs_refresh p a (other_incarnation p e) e1
        then BeginMetadata (adopt p a now (im_config s) e1) (set_entry i e1 s)
        else (adopt p a now (im_config s) e1, set_entry i e1 s) in
      set_entry i e2 s2) = <[i := e']> (im_peers s).
Proof.
  intros Hc Hacc. destruct (needs_refresh p a (other_incarnation p e) e1) eqn:Href.
  - exists (fst (BeginMetadata (adopt p a now (im_config s) e1) (set_entry i e1 s))).
    pose proof (BeginMetadata_begun (adopt p a now (im_config s) e1) (set_entry i e1 s) Hc) as Hb.
    pose proof (BeginMetadata_frame (adopt p a now (im_config s) e1) (set_entry i e1 s)) as (_ & _ & Hp).
    split; [exists e1; by rewrite Href|].
    split; [destruct (begun_frame _ _ Hb) as (_ & _ & _ & _ & _ & _ & E & _); unfold en_host; by rewrite E|].
    destruct (BeginMetadata _ _) as [e2 s2]. cbn [fst snd] in *. unfold set_entry in *. cbn in *.
    by rewrite Hp, list_insert_insert_eq.
  - exists (adopt p a now (im_config s) e1). split; [exists e1; by rewrite Href|]. split; [done|].
    unfold set_entry. cbn. by rewrite list_insert_insert_eq.
Qed.

(** [Announce] on the entry at index [i]: nothing changes, or the entry makes one
    announcement step; a new entry is always filled. *)
Lemma announce_entry_step i e p a now s :
  ValidDiscoveryPacket p = true -> wf_discovery p -> dp_kind p = DiscoveryMessage.ANNOUNCE ->
  is_u64 (im_request_counter s) -> im_peers s !! i = Some e ->
  (pi_session_id (en_info e) = 0 -> e = new_entry) ->
  (im_peers (announce_entry i e p a now s) = im_peers s /\ pi_session_id (en_info e) <> 0) \/
  exists e', announce_step (im_config s) now p a e e' /\ en_host e' = dp_host p /\
    im_peers (announce_entry i e p a now s) = <[i := e']> (im_peers s).
Proof.
  intros Hv Hwf Hk Hc Hi Hnew. destruct (announce_numbers p Hv Hwf Hk) as (Hs & Hr & Hid).
  unfold announce_entry. fold (other_incarnation p e).
  destruct (negb (pi_session_id (en_info e) =? 0) && negb (other_incarnation p e) && _) eqn:Hprof.
  { bool_to_prop. left. split; [done|]. done. }
  assert (Hchk : other_incarnation p e = true -> pi_session_id (en_info e) <> 0).
  { unfold other_incarnation. intros H. by bool_to_prop. }
  destruct (other_incarnation p e && (_ <? _)) eqn:Htime; [bool_to_prop; left; auto|].
  destruct (other_incarnation p e && bool_decide _) eqn:Hret; [bool_to_prop; left; auto|].
  set (e1 := if other_incarnation p e then retire e else e) in *.
  unfold announce_update.
  destruct ((dp_sequence p <=? en_sequence e1) || _) eqn:Hseq.
  { left. destruct (other_incarnation p e) eqn:Hoi.
    { exfalso. unfold e1 in Hseq. cbn [retire set_retired en_sequence en_info reset_revision pi_metadata_revision] in Hseq. lia. }
    unfold e1, set_entry. cbn. rewrite list_insert_id by done. split; [done|]. intros ->%Hnew.
    unfold e1 in Hseq. cbn [new_entry en_sequence en_info default_info pi_metadata_revision] in Hseq. lia. }
  destruct (negb (en_sequence e1 =? 0) && (dp_revision p =? _) && _) eqn:Hsame.
  { left. destruct (other_incarnation p e) eqn:Hoi; [exfalso; unfold e1 in Hsame; done|].
    unfold e1, set_entry. cbn. rewrite list_insert_id by done. split; [done|]. intros ->%Hnew. unfold e1 in Hsame. discriminate Hsame. }
  fold (moved_to a e1).
  destruct (moved_to a e1 && _) eqn:Hmv.
  { left. destruct (other_incarnation p e) eqn:Hoi; [exfalso; unfold e1 in Hmv; done|].
    unfold e1, set_entry. cbn. rewrite list_insert_id by done. split; [done|]. intros ->%Hnew. unfold e1 in Hmv. discriminate Hmv. }
  right. fold (needs_refresh p a (other_incarnation p e) e1).
  assert (Hacc : accepts (im_config s) now p a e e1).
  { assert (Hlt : en_sequence e1 < dp_sequence p /\ pi_metadata_revision (en_info e1) <= dp_revision p) by (bool_to_prop; lia).
    split; try done; try apply Hlt.
    - intros H. rewrite H in Htime, Hret. cbn [andb] in *. bool_to_prop. unfold timeout_ns, timeout in *. split; [lia|done].
    - intros Hne Hoi. rewrite Hoi in Hprof. destruct (Z.eqb_spec (pi_session_id (en_info e)) 0); [done|].
      cbn [negb andb] in Hprof. by bool_to_prop.
    - intros Hne Hre. destruct (Z.eqb_spec (en_sequence e1) 0); [done|].
      rewrite Hre, Z.eqb_refl in Hsame. cbn [negb andb] in Hsame. by bool_to_prop.
    - intros H. rewrite H in Hmv. unfold timeout_ns, timeout in *. cbn [andb set_entry set_peers im_config] in Hmv. by bool_to_prop. }
  exact (adopt_step i e e1 p a now s Hc Hacc).
Qed.

(** At most one step. *)
Definition maybe {A} (R : relation A) : relation A := fun x y => y = x \/ R x y.
Lemma maybe_rtc {A} (R : relation A) x y : maybe R x y -> rtc R x y.
Proof. intros [->|?]; [done|by apply rtc_once]. Qed.

Definition filled (l : list Entry) : Prop := forall e, e ∈ l -> pi_session_id (en_info e) <> 0.

Lemma Announce_table p a now s :
  ValidDiscoveryPacket p = true -> wf_discovery p -> dp_kind p = DiscoveryMessage.ANNOUNCE ->
  dp_host p <> dc_host (im_config s) -> is_u64 (im_request_counter s) -> filled (im_peers s) ->
  maybe (table_step (im_config s) now (Some (p, a))) (im_peers s) (im_peers (Announce p a now s)).
Proof.
  intros Hv Hwf Hk Hh Hc Hf. unfold Announce, locate.
  assert (Hlast : forall l, (l ++ [new_entry]) !! length l = Some new_entry)
    by (intros l; by rewrite lookup_app_r, Nat.sub_diag by lia).
  assert (Hins : forall (l : list Entry) e', <[length l := e']> (l ++ [new_entry]) = l ++ [e'])
    by (intros l e'; by rewrite <- (Nat.add_0_r (length l)), insert_app_r).
  destruct (find_peer _ _) as [[i e]|] eqn:Hfind.
  - apply find_peer_Some in Hfind as [Hi He]. rewrite Hi.
    replace (set_peers (im_peers s) s) with s by by destruct s.
    destruct (announce_entry_step i e p a now s Hv Hwf Hk Hc Hi) as [[-> _]|(e' & Hs & He' & ->)]; [|by left|].
    + intros H0. by destruct (Hf e (list_elem_of_lookup_2 _ _ _ Hi)).
    + right. eapply TableEntry; [done|by eapply StepAnnounce|congruence].
  - assert (Hnone : forall e, e ∈ im_peers s -> en_host e <> dp_host p) by (intros e; by apply find_peer_None).
    case_check; [destruct (oldest_lost _ _ _) as [[j o]|] eqn:Hold; [|by left]|].
    + apply (oldest_lost_spec []) in Hold as (Hj & Ho & Hmin); [|by intros e ?%not_elem_of_nil].
      rewrite Hlast. set (l := delete j (im_peers s)) in *. set (s1 := set_peers (l ++ [new_entry]) s).
      destruct (announce_entry_step (length l) new_entry p a now s1 Hv Hwf Hk Hc (Hlast l)) as [[_ []]|(e' & Hs & He' & ->)]; [done..|].
      right. unfold s1. cbn [im_peers set_peers]. rewrite Hins. bool_to_prop. eapply TableReplace; eauto.
    + rewrite Hlast. set (s1 := set_peers (im_peers s ++ [new_entry]) s).
      destruct (announce_entry_step (length (im_peers s)) new_entry p a now s1 Hv Hwf Hk Hc (Hlast _)) as [[_ []]|(e' & Hs & He' & ->)]; [done..|].
      right. unfold s1. cbn [im_peers set_peers]. rewrite Hins. bool_to_prop. eapply TableNew; eauto.
Qed.

Lemma receive_response_table i e p a now s :
  is_u64 (im_request_counter s) -> im_peers s !! i = Some e -> ValidDiscoveryPacket p = true -> wf_discovery p ->
  dp_kind p = DiscoveryMessage.METADATA_RESPONSE -> en_host e = dp_host p -> online e = true ->
  (dp_boot_id p, dp_session_id p) = en_key e -> SameAddress (en_address e) a = true ->
  maybe (table_step (im_config s) now (Some (p, a))) (im_peers s) (im_peers (receive_response i e p now s)).
Proof.
  intros Hc Hi Hv Hwf Hk Hh Ho Hkey Ha. unfold receive_response. case_check; [by left|]. bool_to_prop.
  assert (Hcol : collects p a e) by (split; done).
  assert (Hrefuse : maybe (table_step (im_config s) now (Some (p, a))) (im_peers s)
    (im_peers (let (e0, s0) := BeginMetadata (set_staging (en_staging e ++ dp_chunk p) e) (reject s) in
       set_entry i (set_next_request (now + retry_ns s0) e0) s0))).
  { pose proof (BeginMetadata_frame (set_staging (en_staging e ++ dp_chunk p) e) (reject s)) as (_ & _ & Hp).
    pose proof (BeginMetadata_begun (set_staging (en_staging e ++ dp_chunk p) e) (reject s) Hc) as Hb.
    destruct (BeginMetadata _ _) as [e2 s2]. cbn [fst snd] in *. unfold set_entry. cbn [im_peers set_peers].
    rewrite Hp. right. eapply TableEntry; [done|by eapply StepRefuse|].
    destruct Hb as [->|(id & _ & ->)]; done. }
  case_check.
  - destruct (DecodeDiscoveryMetadata _) as [decoded|] eqn:Hd; [|done]. case_check; [done|]. bool_to_prop.
    right. eapply TableEntry; [done|eapply StepReady; eauto|done].
    split; [done|]. unfold en_key in Hkey. simplify_eq. congruence.
  - right. bool_to_prop. eapply TableEntry; [done|by eapply StepChunk|done].
Qed.

Lemma Receive_table p a m now s :
  ValidDiscoveryPacket p = true -> wf_discovery p -> is_u64 (im_request_counter s) -> filled (im_peers s) ->
  maybe (table_step (im_config s) now (Some (p, a))) (im_peers s) (im_peers (Receive p a m now s)).
Proof.
  intros Hv Hwf Hc Hf. unfold Receive. case_check; [by left|]. bool_to_prop.
  destruct m; [case_check; [bool_to_prop; by apply Announce_table|by left]|].
  destruct (find_peer _ _) as [[i e]|] eqn:Hfind; [|by left]. apply find_peer_Some in Hfind as [Hi Hh].
  case_check; [by left|]. bool_to_prop. repeat case_check; bool_to_prop; [|apply receive_response_table; try done|by left].
  - unfold receive_request. case_check; [by left|]. destruct (Send _ _ _) as [b s2] eqn:Hs.
    assert (Hp : im_peers s2 = im_peers (snd (Send (metadata_response p (set_entry i (set_next_response (now + 10 * millisecond) e) s)) a
      (set_entry i (set_next_response (now + 10 * millisecond) e) s)))) by (by rewrite Hs).
    rewrite Send_peers in Hp. destruct b; cbn [im_peers set_stats]; rewrite Hp;
      (right; eapply TableEntry; [done|apply StepAnswer|done]).
  - unfold en_key. congruence.
Qed.

Lemma tick_peer_table now heard i e s :
  im_peers s !! i = Some e -> rtc (table_step (im_config s) now heard) (im_peers s) (im_peers (tick_peer now i e s)) /\
  im_config (tick_peer now i e s) = im_config s.
Proof.
  intros Hi. unfold tick_peer.
  set (e1 := if online e && _ then lose e else e).
  assert (H1 : rtc (table_step (im_config s) now heard) (im_peers s) (<[i := e1]> (im_peers s))).
  { unfold e1. case_check; [|by rewrite list_insert_id]. bool_to_prop.
    apply rtc_once. eapply TableEntry; [done|by apply StepLose|done]. }
  case_check; [|done]. destruct (Send _ _ _) as [b s2] eqn:Hs.
  pose proof (Send_peers (metadata_request e1 (set_entry i e1 s)) (en_address e1) (set_entry i e1 s)) as Hp.
  pose proof (Send_config (metadata_request e1 (set_entry i e1 s)) (en_address e1) (set_entry i e1 s)) as Hcf.
  rewrite Hs in Hp, Hcf. cbn [snd set_entry set_peers im_peers im_config] in Hp, Hcf.
  assert (H2 : forall t, rtc (table_step (im_config s) now heard) (im_peers s) (<[i := set_next_request t e1]> (im_peers s2))).
  { intros t. rewrite Hp. eapply rtc_r; [exact H1|]. eapply TableEntry; [|apply StepRetry|done].
    by rewrite list_lookup_insert_eq by (by eapply lookup_lt_Some). }
  split; [destruct b; apply H2|by destruct b].
Qed.

Lemma tick_peers_table now heard n i s :
  rtc (table_step (im_config s) now heard) (im_peers s) (im_peers (tick_peers now n i s)).
Proof.
  revert i s. induction n as [|n IH]; intros i s; cbn [tick_peers]; [done|].
  destruct (im_peers s !! i) as [e|] eqn:Hi; [|done].
  destruct (tick_peer_table now heard i e s Hi) as [H1 H2]. etrans; [exact H1|]. rewrite <- H2. apply IH.
Qed.

Lemma tick_announce_frame now s : im_peers (tick_announce now s) = im_peers s /\ im_config (tick_announce now s) = im_config s.
Proof.
  unfold tick_announce. destruct (Send _ _ _) as [b s2] eqn:Hs.
  pose proof (Send_peers (announce_packet (take_sequence s)) (im_group (take_sequence s)) (take_sequence s)) as Hp.
  pose proof (Send_config (announce_packet (take_sequence s)) (im_group (take_sequence s)) (take_sequence s)) as Hc.
  rewrite Hs in Hp, Hc. by destruct b.
Qed.

Lemma Tick_table now heard s : rtc (table_step (im_config s) now heard) (im_peers s) (im_peers (Tick now s)).
Proof.
  unfold Tick. case_check; [done|]. case_check; [|apply tick_peers_table].
  destruct (tick_announce_frame now s) as [Hp Hc]. 
  pose proof (tick_peers_table now heard (length (im_peers (tick_announce now s))) 0 (tick_announce now s)) as H.
  rewrite Hc, !Hp in H. by rewrite Hp.
Qed.

(** ** What the node publishes about itself *)
Lemma wMetadata_bytes m : wf_metadata m -> bytes (wMetadata m).
Proof.
  intros (_ & _ & _ & ? & ? & ? & ? & Hg & _).
  assert (bytes (flat_map wString (md_groups m))).
  { induction Hg; cbn [flat_map]; [constructor|]. unfold wString at 1. rewrite !bytes_app. auto using wU_bytes. }
  unfold wMetadata, wEndpoint, wRuntime, wHost, wType, wString.
  rewrite !bytes_app. split_and!; auto using wU_bytes, wBytes_bytes.
Qed.

Lemma EncodeDiscoveryMetadata_Ok ms bs :
  EncodeDiscoveryMetadata ms = Ok bs ->
  Z.of_nat (length ms) <= DISCOVERY_MAX_ENDPOINTS /\ 2 <= vsize bs <= DISCOVERY_MAX_METADATA /\
  bs = wU (Z.of_nat (length ms)) 2 ++ flat_map wMetadata ms.
Proof.
  unfold EncodeDiscoveryMetadata. intros H. case_check; [done|]. bool_to_prop.
  apply encode_endpoints_Ok in H as (_ & -> & Hsz).
  split; [done|]. split; [|done]. split; [rewrite vsize_app, wU_vsize; pose proof (vsize_nonneg (flat_map wMetadata ms)); lia|].
  destruct ms; [done|by apply Hsz].
Qed.

Lemma EncodeDiscoveryMetadata_Err ms code : EncodeDiscoveryMetadata ms = Err code -> code < 0.
Proof.
  unfold EncodeDiscoveryMetadata. case_check; [by intros; simplify_eq|].
  generalize (wU (Z.of_nat (length ms)) 2). induction ms as [|m ms IH]; intros w; cbn [encode_endpoints]; [done|].
  repeat case_check; try (by intros; simplify_eq). apply IH. cbn [length] in *. bool_to_prop. apply Z.ltb_ge. lia.
Qed.

Lemma EncodeDiscoveryMetadata_bytes ms bs :
  Forall wf_metadata ms -> EncodeDiscoveryMetadata ms = Ok bs -> bytes bs.
Proof.
  intros Hwf (_ & _ & ->)%EncodeDiscoveryMetadata_Ok. apply bytes_app. split; [apply wU_bytes|].
  induction Hwf; cbn [flat_map]; [constructor|]. apply bytes_app. auto using wMetadata_bytes.
Qed.

Definition at_home (host boot : HostIdentity) (m : NetworkEndpointMetadata) : Prop :=
  ValidMetadata m = true /\ rt_host (ep_runtime (md_identity m)) = host /\ rt_boot_id (ep_runtime (md_identity m)) = boot.

Lemma valid_endpoints_spec host boot previous rest :
  valid_endpoints host boot previous rest = true <->
  Forall (at_home host boot) rest /\ NoDup (md_identity <$> rest) /\
  (forall m, m ∈ rest -> md_identity m ∉ md_identity <$> previous).
Proof.
  revert previous. induction rest as [|m rest IH]; intros previous; cbn [valid_endpoints].
  { split; [|done]. intros _. split_and!; [constructor|constructor|by intros m ?%not_elem_of_nil]. }
  rewrite fmap_cons, NoDup_cons, Forall_cons. split.
  - intros H. repeat case_check; try done. bool_to_prop. apply IH in H as (Hok & Hnd & Hfresh).
    split_and!; auto; [by split|idtac|].
    + intros (x & E & Hx)%list_elem_of_fmap. apply (Hfresh x Hx). rewrite <- E, fmap_app. set_solver.
    + intros x [->|Hx]%elem_of_cons; [done|]. specialize (Hfresh x Hx). rewrite fmap_app in Hfresh. set_solver.
  - intros ((Hm & H1) & (Hn & H2) & H3). destruct Hm as (-> & <- & <-).
    rewrite !bool_decide_true by done. cbn [negb orb]. rewrite bool_decide_false by (apply H3; set_solver).
    apply IH. split_and!; [done..|]. intros x Hx. rewrite fmap_app. intros [Hy|Hy]%elem_of_app.
    + by apply (H3 x) in Hy; [|set_solver].
    + apply list_elem_of_singleton in Hy. apply Hn. rewrite <- Hy. by apply list_elem_of_fmap_2.
Qed.

Lemma ValidDiscoveryMetadata_spec ms host boot :
  ValidDiscoveryMetadata ms host boot = true <->
  ValidHost host = true /\ ValidHost boot = true /\ Z.of_nat (length ms) <= DISCOVERY_MAX_ENDPOINTS /\
  Forall (at_home host boot) ms /\ NoDup (md_identity <$> ms).
Proof.
  unfold ValidDiscoveryMetadata. split.
  - intros H. case_check; [done|]. bool_to_prop. apply valid_endpoints_spec in H as (? & ? & _). auto.
  - intros (-> & -> & Hl & H1 & H2). cbn [negb orb].
    destruct (Z.ltb_spec DISCOVERY_MAX_ENDPOINTS (Z.of_nat (length ms))); [lia|].
    apply valid_endpoints_spec. split_and!; auto. set_solver.
Qed.

Lemma fmap_sublist {A B} (f : A -> B) (l k : list A) : l `sublist_of` k -> f <$> l `sublist_of` f <$> k.
Proof. induction 1; simpl; by constructor. Qed.

Lemma ValidDiscoveryMetadata_sublist ms ms' host boot :
  ms' `sublist_of` ms -> ValidDiscoveryMetadata ms host boot = true -> ValidDiscoveryMetadata ms' host boot = true.
Proof.
  intros Hs. rewrite !ValidDiscoveryMetadata_spec. intros (? & ? & Hl & H1 & H2). split_and!; auto.
  - apply sublist_length in Hs. lia.
  - rewrite Forall_forall in *. eauto using elem_of_sublist.
  - eapply sublist_NoDup; [done|by apply fmap_sublist].
Qed.

(** ** The invariant of the table *)
Record entry_ok (c : DiscoveryConfig) (e : Entry) : Prop := {
  eo_session : pi_session_id (en_info e) <> 0 /\ is_u64 (pi_session_id (en_info e));
  eo_numbers : 1 <= en_sequence e <= UINT64_MAX /\ 1 <= pi_metadata_revision (en_info e) <= UINT64_MAX /\
    is_u64 (en_request_id e);
  eo_size : 2 <= en_size e <= DISCOVERY_MAX_METADATA /\ 0 <= en_count e <= DISCOVERY_MAX_ENDPOINTS;
  eo_lost : online e = false -> pi_metadata_ready (en_info e) = false;
  eo_pending : pi_metadata_ready (en_info e) = false -> pi_endpoints (en_info e) = [];
  eo_ready : pi_metadata_ready (en_info e) = true ->
    en_staging e = [] /\ usable (pi_endpoints (en_info e)) e /\
    exists bs, EncodeDiscoveryMetadata (pi_endpoints (en_info e)) = Ok bs /\ vsize bs = en_size e;
  eo_staging : vsize (en_staging e) < en_size e /\ vsize (en_staging e) mod DISCOVERY_CHUNK_SIZE = 0 /\ bytes (en_staging e);
  eo_retired : (length (en_retired e) <= 8)%nat /\ NoDup (en_retired e) /\ en_key e ∉ en_retired e;
  eo_compatibility : pi_compatibility (en_info e) =
    CheckPeerCompatibility (dc_profile c) (pi_profile (en_info e)) (dc_compatibility_policy c)
}.

Record table_ok (c : DiscoveryConfig) (l : list Entry) : Prop := {
  to_entries : Forall (entry_ok c) l;
  to_hosts : NoDup (en_host <$> l);
  to_others : dc_host c ∉ en_host <$> l;
  to_size : Z.of_nat (length l) <= dc_max_peers c
}.

Lemma retire_retired e :
  (length (en_retired e) <= 8)%nat -> NoDup (en_retired e) -> en_key e ∉ en_retired e ->
  (length (en_retired (retire e)) <= 8)%nat /\ NoDup (en_retired (retire e)) /\
  (forall k, k ∈ en_retired (retire e) -> k ∈ en_retired e \/ k = en_key e).
Proof.
  intros Hl Hn Hk. unfold retire, set_retired. cbn [en_retired].
  pose proof (NoDup_snoc _ _ Hn Hk) as Hn'.
  assert (Hin : forall k, k ∈ en_retired e ++ [en_key e] -> k ∈ en_retired e \/ k = en_key e) by set_solver.
  assert (Hlen : length (en_retired e ++ [en_key e]) = S (length (en_retired e))) by (rewrite length_app; simpl; lia).
  destruct (Nat.ltb_spec 8 (length (en_retired e ++ [en_key e]))); [|auto with lia].
  destruct (en_retired e ++ [en_key e]) as [|k l]; [done|]. cbn [tl length] in *.
  apply NoDup_cons in Hn' as [_ ?]. split_and!; [lia|done|]. intros x Hx. apply Hin. by right.
Qed.

Lemma announce_size p : ValidDiscoveryPacket p = true -> wf_discovery p -> dp_kind p = DiscoveryMessage.ANNOUNCE ->
  2 <= dp_metadata_size p <= DISCOVERY_MAX_METADATA /\ 0 <= dp_endpoint_count p <= DISCOVERY_MAX_ENDPOINTS.
Proof.
  intros Hv Hwf Hk. destruct Hwf as (_ & _ & _ & _ & _ & _ & _ & _ & _ & Hc & _).
  unfold ValidDiscoveryPacket in Hv. rewrite Hk in Hv. case_check; [done|]. rewrite Z.eqb_refl in Hv.
  bool_to_prop. unfold_widths. lia.
Qed.

Lemma response_chunk p : ValidDiscoveryPacket p = true -> dp_kind p = DiscoveryMessage.METADATA_RESPONSE ->
  2 <= dp_metadata_size p <= DISCOVERY_MAX_METADATA /\ dp_offset p < dp_metadata_size p /\
  dp_offset p mod DISCOVERY_CHUNK_SIZE = 0 /\
  vsize (dp_chunk p) = Z.min DISCOVERY_CHUNK_SIZE (dp_metadata_size p - dp_offset p).
Proof.
  intros Hv Hk. unfold ValidDiscoveryPacket in Hv. rewrite Hk in Hv. case_check; [done|].
  change (DiscoveryMessage.METADATA_RESPONSE =? DiscoveryMessage.ANNOUNCE) with false in Hv.
  change (DiscoveryMessage.METADATA_RESPONSE =? DiscoveryMessage.METADATA_REQUEST) with false in Hv.
  rewrite Z.eqb_refl in Hv. bool_to_prop. lia.
Qed.

(** An entry that keeps its metadata over an announcement is the same incarnation at the
    same revision. *)
Lemma kept_metadata c now p a e e1 :
  accepts c now p a e e1 -> needs_refresh p a (other_incarnation p e) e1 = false -> 1 <= en_sequence e ->
  e1 = e /\ en_key e = (dp_boot_id p, dp_session_id p) /\ dp_revision p = pi_metadata_revision (en_info e) /\
  en_size e = dp_metadata_size p /\ en_count e = dp_endpoint_count p /\ online e = true /\
  SameAddress (en_address e) a = true.
Proof.
  intros H Hr Hs. unfold needs_refresh in Hr. bool_to_prop. pose proof (ac_base _ _ _ _ _ _ H) as He.
  match goal with E : other_incarnation p e = false |- _ => rewrite E in He; rename E into Ho end. subst e1.
  destruct (ac_same _ _ _ _ _ _ H) as [? ?]; [lia|done|].
  unfold other_incarnation, moved_to in *.
  destruct (Z.eqb_spec (pi_session_id (en_info e)) 0); [done|]. cbn [negb andb] in *. bool_to_prop.
  destruct (Z.eqb_spec (en_sequence e) 0); [lia|]. cbn [negb andb] in *. bool_to_prop.
  unfold en_key. split_and!; congruence.
Qed.

(** The list of retired incarnations stays short, without repetition, and never names
    the one that is adopted. *)
Lemma accepts_retired c now p a e e1 :
  accepts c now p a e e1 -> e = new_entry \/ entry_ok c e ->
  (length (en_retired e1) <= 8)%nat /\ NoDup (en_retired e1) /\ (dp_boot_id p, dp_session_id p) ∉ en_retired e1.
Proof.
  intros Hacc Hold. rewrite (ac_base _ _ _ _ _ _ Hacc). destruct Hold as [->|Hok]; [split_and!; [cbn; lia|constructor|apply not_elem_of_nil]|].
  destruct (eo_retired _ _ Hok) as (Hl & Hn & Hkey). destruct (other_incarnation p e) eqn:Ho.
  - destruct (retire_retired e Hl Hn Hkey) as (? & ? & Hin). split_and!; [done..|]. intros [Hx|Hx]%Hin.
    + by apply (ac_changed _ _ _ _ _ _ Hacc Ho).
    + unfold en_key in Hx. simplify_eq. unfold other_incarnation in Ho. bool_to_prop.
      match goal with K : _ || _ = true |- _ => apply orb_true_iff in K as [K|K]; bool_to_prop; congruence end.
  - replace (dp_boot_id p, dp_session_id p) with (en_key e); [done|]. unfold en_key.
    destruct (eo_session _ _ Hok) as [H0 _]. unfold other_incarnation in Ho.
    destruct (Z.eqb_spec (pi_session_id (en_info e)) 0); [done|]. cbn [negb andb] in Ho. bool_to_prop. congruence.
Qed.

Lemma announce_step_ok c now p a e e' :
  announce_step c now p a e e' -> e = new_entry \/ entry_ok c e /\ en_host e' = en_host e -> entry_ok c e'.
Proof.
  intros (e1 & Hacc & He') Hold.
  pose proof (ac_valid _ _ _ _ _ _ Hacc) as Hv. pose proof (ac_wf _ _ _ _ _ _ Hacc) as Hwf.
  pose proof (ac_kind _ _ _ _ _ _ Hacc) as Hk.
  destruct (announce_numbers p Hv Hwf Hk) as (Hseq & Hrev & Hses). destruct (announce_size p Hv Hwf Hk) as [Hsz Hct].
  assert (Hu : is_u64 (dp_session_id p)) by apply Hwf.
  assert (Hret : e = new_entry \/ entry_ok c e) by (destruct Hold as [|[? _]]; auto).
  apply (accepts_retired c now p a e e1 Hacc) in Hret.
  assert (Hreq : is_u64 (en_request_id e1)).
  { rewrite (ac_base _ _ _ _ _ _ Hacc). destruct Hold as [->|[Hok _]]; [by case_check|].
    destruct (eo_numbers _ _ Hok) as (_ & _ & ?). by case_check. }
  destruct (needs_refresh p a (other_incarnation p e) e1) eqn:Hr.
  - destruct (begun_frame _ _ He') as (E1 & E2 & E3 & E4 & E5 & _ & E6 & E7).
    split; rewrite ?E1, ?E2, ?E3, ?E4, ?E5, ?E6; cbn -[Z.le Z.lt]; try done.
    + split_and!; try lia. by apply E7.
    + split; [rewrite vsize_nil; lia|]. split; [done|constructor].
    + unfold en_key. rewrite E6. done.
  - destruct Hold as [->|[Hok Hh]]; [by rewrite (ac_base _ _ _ _ _ _ Hacc) in Hr|].
    destruct (kept_metadata _ _ _ _ _ _ Hacc Hr) as (-> & Hkey & Er & Es & Ec & Eo & _); [apply Hok|]. subst e'.
    cbn in Hh. destruct Hok as [H1 H2 H3 H4 H5 H6 H7 H8 H9]. split; cbn -[Z.le Z.lt]; try done.
    + intros Hready. destruct (H6 Hready) as (? & [Hlen Hval] & ?). rewrite <- Es. split_and!; auto. split; cbn.
      * congruence.
      * unfold en_key in Hkey. simplify_eq. congruence.
    + by rewrite <- Es.
Qed.

(** A chunk in place keeps the staging area within the announced size and on a chunk
    boundary until it is complete. *)
Lemma collects_staging c p a e :
  collects p a e -> entry_ok c e ->
  vsize (en_staging e ++ dp_chunk p) <= en_size e /\ bytes (en_staging e ++ dp_chunk p) /\
  (vsize (en_staging e ++ dp_chunk p) <> en_size e ->
   vsize (en_staging e ++ dp_chunk p) < en_size e /\ vsize (en_staging e ++ dp_chunk p) mod DISCOVERY_CHUNK_SIZE = 0).
Proof.
  intros Hc Hok. destruct (response_chunk p (co_valid _ _ _ Hc) (co_kind _ _ _ Hc)) as (_ & Hlt & Hmod & Hsz).
  destruct (eo_staging _ _ Hok) as (_ & _ & Hb). rewrite (co_size _ _ _ Hc), (co_offset _ _ _ Hc) in *.
  rewrite vsize_app, bytes_app. unfold DISCOVERY_CHUNK_SIZE in *. split; [lia|]. split.
  - split; [done|]. apply (co_wf _ _ _ Hc).
  - intros Hne. assert (vsize (dp_chunk p) = 1024) as -> by lia. split; [lia|].
    rewrite Z.add_mod, Hmod by lia. done.
Qed.

Lemma entry_step_ok c now heard e e' :
  entry_step c now heard e e' -> en_host e' = en_host e -> entry_ok c e -> entry_ok c e'.
Proof.
  intros Hs Hh Hok. destruct Hs as [Ho Ht|t|t|p a e' _ Ha|p a _ Hc Hne|p a decoded _ Hc Heq Hd Hu|p a t e' _ Hc Hb].
  - destruct Hok. split; try done. cbn. split; [rewrite vsize_nil; lia|split; [done|constructor]].
  - by destruct Hok.
  - by destruct Hok.
  - eapply announce_step_ok; eauto.
  - destruct (collects_staging c p a e Hc Hok) as (_ & Hb & Hlt). destruct (Hlt Hne). pose proof (co_pending _ _ _ Hc) as Hpn.
    destruct Hok. split; try done. cbn. by rewrite Hpn.
  - destruct (collects_staging c p a e Hc Hok) as (_ & Hb & _).
    destruct (discovery_metadata_canonical _ _ Hb Hd) as (_ & _ & He). pose proof (co_online _ _ _ Hc) as Hon.
    destruct Hok. split; try done; cbn.
    + unfold online in *. cbn. by rewrite Hon.
    + intros _. split_and!; [done|done|]. by exists (en_staging e ++ dp_chunk p).
    + split; [rewrite vsize_nil; lia|split; [done|constructor]].
  - destruct (begun_frame _ _ Hb) as (E1 & E2 & E3 & E4 & E5 & _ & E6 & E7).
    destruct Hok. split; unfold online, en_key; cbn; rewrite ?E1, ?E2, ?E3, ?E4, ?E5, ?E6; cbn; try done.
    + destruct eo_numbers0 as (? & ? & ?). split; [done|]. split; [done|]. by apply E7.
    + split; [rewrite vsize_nil; lia|split; [done|constructor]].
Qed.

Lemma table_step_ok c now heard l l' : table_step c now heard l l' -> table_ok c l -> table_ok c l'.
Proof.
  intros Hs [Hent Hnd Hoth Hsz].
  assert (Hnew : forall l e' p a, Forall (entry_ok c) l -> NoDup (en_host <$> l) -> dc_host c ∉ en_host <$> l ->
    Z.of_nat (length l) < dc_max_peers c -> announce_step c now p a new_entry e' -> dp_host p <> dc_host c ->
    (forall e, e ∈ l -> en_host e <> dp_host p) -> en_host e' = dp_host p -> table_ok c (l ++ [e'])).
  { clear. intros l e' p a Hent Hnd Hoth Hsz Ha Hh Hno He. split.
    - apply Forall_app. split; [done|]. constructor; [|constructor]. eapply announce_step_ok; [exact Ha|by left].
    - rewrite fmap_app. apply NoDup_snoc; [done|]. intros (x & E & Hx)%list_elem_of_fmap. apply (Hno x Hx). congruence.
    - rewrite fmap_app. intros [?|Hx]%elem_of_app; [done|]. apply list_elem_of_singleton in Hx. congruence.
    - rewrite length_app. cbn. lia. }
  destruct Hs as [l i e e' Hi Hs Hh|l p a e' -> Hh Hno Hlen Ha He|l j o p a e' -> Hh Hno Hlen Hj Ho _ Ha He].
  - assert (Hm : en_host <$> <[i := e']> l = en_host <$> l).
    { rewrite list_fmap_insert. apply list_insert_id. by rewrite list_lookup_fmap, Hi, Hh. }
    split; rewrite ?Hm, ?length_insert; auto. apply Forall_insert; [done|].
    eapply entry_step_ok; eauto. by eapply Forall_lookup_1.
  - eapply Hnew; eauto. lia.
  - pose proof (sublist_delete l j) as Hsub. eapply Hnew; eauto.
    + rewrite Forall_forall in *. eauto using elem_of_sublist.
    + eapply sublist_NoDup; [done|by apply fmap_sublist].
    + intros H. apply Hoth. eapply elem_of_sublist; [done|by apply fmap_sublist].
    + rewrite length_delete by done. apply lookup_lt_Some in Hj. lia.
    + eauto using elem_of_sublist.
Qed.
