(* ===== verification/PeerDiscoverySafety.v ===== *)
(** * Peer discovery: what a node says and what it learns

    The worker and the API calls interleaved: the invariant of a node, that what it
    sends speaks for its state, that the metadata a peer shows is what that peer
    published, and that the first live incarnation of a host keeps its place. *)
From S2P Require Import Prelude Wire NetTypes NetWire Compatibility DiscoveryProtocol PeerDiscovery PeerDiscoveryTable.

(** ** The node's own side *)
Record own_ok (s : Impl) : Prop := {
  ow_host : wf_host (dc_host (im_config s)) /\ wf_host (dc_boot_id (im_config s));
  ow_profile : wf_profile (dc_profile (im_config s));
  ow_session : is_u64 (im_session s);
  ow_revision : 1 <= im_revision s <= UINT64_MAX;
  ow_metadata : EncodeDiscoveryMetadata (published s) = Ok (im_metadata s);
  ow_wf : Forall wf_metadata (published s);
  ow_count : im_endpoint_count s = Z.of_nat (length (published s));
  ow_valid : ValidDiscoveryMetadata (published s) (dc_host (im_config s)) (dc_boot_id (im_config s)) = true
}.

(** [p] is what a node in state [s] sends: it carries the node's identity; an
    announcement its current revision, size and number of endpoints; a response a piece
    of the current metadata. *)
Record speaks (s : Impl) (p : DiscoveryPacket) : Prop := {
  sp_wf : wf_discovery p;
  sp_host : dp_host p = dc_host (im_config s);
  sp_boot : dp_boot_id p = dc_boot_id (im_config s);
  sp_session : dp_session_id p = im_session s;
  sp_revision : dp_kind p <> DiscoveryMessage.METADATA_REQUEST ->
    dp_revision p = im_revision s /\ dp_metadata_size p = vsize (im_metadata s);
  sp_count : dp_kind p = DiscoveryMessage.ANNOUNCE -> dp_endpoint_count p = Z.of_nat (length (published s));
  sp_chunk : dp_kind p = DiscoveryMessage.METADATA_RESPONSE ->
    dp_chunk p = take (length (dp_chunk p)) (drop (Z.to_nat (dp_offset p)) (im_metadata s))
}.

Lemma own_eq s s' : own s' = own s ->
  im_config s' = im_config s /\ im_session s' = im_session s /\ im_base_metadata s' = im_base_metadata s /\
  im_consumers s' = im_consumers s /\ im_metadata s' = im_metadata s /\ im_endpoint_count s' = im_endpoint_count s /\
  im_revision s' = im_revision s /\ published s' = published s.
Proof. unfold own, published. intros H. simplify_eq. split_and!; congruence. Qed.

Lemma own_ok_own s s' : own s' = own s -> own_ok s -> own_ok s'.
Proof. intros (E1 & E2 & _ & _ & E5 & E6 & E7 & E8)%own_eq []. by split; rewrite ?E1, ?E2, ?E5, ?E6, ?E7, ?E8. Qed.

Lemma speaks_own s s' p : own s' = own s -> speaks s p -> speaks s' p.
Proof. intros (E1 & E2 & _ & _ & E5 & E6 & E7 & E8)%own_eq []. by split; rewrite ?E1, ?E2, ?E5, ?E6, ?E7, ?E8. Qed.

Lemma own_metadata s : own_ok s ->
  u32 (vsize (im_metadata s)) = vsize (im_metadata s) /\ is_u32 (vsize (im_metadata s)) /\ bytes (im_metadata s) /\
  is_u16 (im_endpoint_count s).
Proof.
  intros Hok. destruct (EncodeDiscoveryMetadata_Ok _ _ (ow_metadata s Hok)) as (Hl & Hs & _).
  unfold DISCOVERY_MAX_METADATA, DISCOVERY_MAX_ENDPOINTS in *.
  rewrite (ow_count s Hok). split; [unfold u32; rewrite Z.mod_small by lia; done|]. split; [width|]. split; [|width].
  by eapply EncodeDiscoveryMetadata_bytes; [apply ow_wf|apply ow_metadata].
Qed.

Lemma default_profile_wf : wf_profile default_profile.
Proof. solve_wf. Qed.

Ltac solve_packet_wf := repeat split; try done; try width; try apply default_profile_wf; try constructor.

Lemma announce_speaks s : own_ok s -> is_u64 (im_sequence s) -> speaks s (announce_packet s).
Proof.
  intros Hok Hs. destruct (own_metadata s Hok) as (Eu & Hu & _ & Hc). destruct (ow_host s Hok) as [[] []].
  destruct (ow_profile s Hok) as (? & ? & ? & ? & ? & ?). pose proof (ow_session s Hok). pose proof (ow_revision s Hok).
  split; cbn; rewrite ?Eu; try done; [solve_packet_wf; cbn; rewrite ?Eu; unfold_widths; try lia; apply (ow_profile s Hok)|].
  intros _. apply (ow_count s Hok).
Qed.

Lemma request_speaks e s :
  own_ok s -> is_u64 (pi_metadata_revision (en_info e)) -> is_u64 (en_request_id e) -> speaks s (metadata_request e s).
Proof.
  intros Hok Hr Hq. destruct (ow_host s Hok) as [[] []]. pose proof (ow_session s Hok).
  split; cbn; try done. unfold u32. pose proof (Z.mod_pos_bound (vsize (en_staging e)) (2 ^ 32) ltac:(lia)).
  solve_packet_wf; cbn; unfold_widths; unfold u32; lia.
Qed.

Lemma response_speaks p s : own_ok s -> wf_discovery p -> dp_offset p < vsize (im_metadata s) -> speaks s (metadata_response p s).
Proof.
  intros Hok Hp Ho. destruct (own_metadata s Hok) as (Eu & Hu & Hb & _). destruct (ow_host s Hok) as [[] []].
  pose proof (ow_session s Hok). pose proof (ow_revision s Hok).
  destruct Hp as (_ & _ & _ & _ & _ & _ & Hq & _ & Hof & _).
  split; cbn; rewrite ?Eu; try done.
  - unfold wf_discovery. cbn. rewrite Eu. split_and!; try done; try width; try apply default_profile_wf.
    by apply bytes_take, bytes_drop.
  - intros _. rewrite length_take, length_drop. f_equal. unfold vsize in *. unfold_widths. lia.
Qed.

(** ** The steps of the machine *)
Lemma tick_announce_sent now s :
  own_ok s -> numbers s -> im_sequence s <> UINT64_MAX -> sent (speaks s) s (tick_announce now s).
Proof.
  intros Hok [Hs Hq] Hne. unfold tick_announce.
  assert (Hn : numbers (take_sequence s)) by (split; [cbn; width|done]).
  eapply sent_trans; [by apply (sent_frame _ s (take_sequence s))|].
  assert (Hsp : speaks s (announce_packet (take_sequence s))).
  { apply (speaks_own (take_sequence s)); [done|]. apply announce_speaks; [by apply (own_ok_own s)|apply Hn]. }
  pose proof (Send_sent _ _ (im_group (take_sequence s)) (take_sequence s) Hsp) as H.
  destruct (Send _ _ _) as [b s2]. eapply sent_trans; [exact H|]. by destruct b; apply sent_frame.
Qed.

Lemma tick_peer_sent c now i e s s0 :
  own_ok s0 -> own s = own s0 -> entry_ok c e -> sent (speaks s0) s (tick_peer now i e s).
Proof.
  intros Hok Ho He. destruct (eo_numbers c e He) as (_ & Hr & Hq). unfold tick_peer.
  set (e1 := if online e && _ then lose e else e).
  assert (He1 : pi_metadata_revision (en_info e1) = pi_metadata_revision (en_info e) /\ en_request_id e1 = en_request_id e)
    by (unfold e1; by case_check).
  eapply sent_trans; [by apply (sent_frame _ s (set_entry i e1 s))|]. case_check; [|apply sent_refl].
  assert (Hsp : speaks s0 (metadata_request e1 (set_entry i e1 s))).
  { apply (speaks_own (set_entry i e1 s)); [by rewrite <- Ho|]. destruct He1 as [E1 E2].
    apply request_speaks; [by apply (own_ok_own s0)|rewrite E1; width|by rewrite E2]. }
  pose proof (Send_sent _ _ (en_address e1) (set_entry i e1 s) Hsp) as H.
  destruct (Send _ _ _) as [b s2]. eapply sent_trans; [exact H|]. by destruct b; apply sent_frame.
Qed.

Lemma tick_peers_sent now n i s s0 :
  own_ok s0 -> own s = own s0 -> table_ok (im_config s) (im_peers s) -> sent (speaks s0) s (tick_peers now n i s).
Proof.
  intros Hok. revert i s. induction n as [|n IH]; intros i s Ho Ht; cbn [tick_peers]; [apply sent_refl|].
  destruct (im_peers s !! i) as [e|] eqn:Hi; [|apply sent_refl].
  assert (Hs : sent (speaks s0) s (tick_peer now i e s)).
  { eapply tick_peer_sent; eauto. eapply Forall_lookup_1; [apply to_entries|]; eauto. }
  eapply sent_trans; [exact Hs|]. destruct (tick_peer_table now None i e s Hi) as [Hr Hc].
  apply IH; [rewrite (sent_own _ _ _ Hs); done|]. rewrite Hc.
  eapply (rtc_invariant (table_step (im_config s) now None)); [|exact Ht|exact Hr]. eauto using table_step_ok.
Qed.

Lemma Tick_sent now s :
  own_ok s -> numbers s -> table_ok (im_config s) (im_peers s) -> sent (speaks s) s (Tick now s).
Proof.
  intros Hok Hn Ht. unfold Tick.
  destruct (im_dirty s || _) eqn:Hd; cbn [andb]; [case_check; [by apply sent_frame|]|by apply tick_peers_sent].
  assert (Hs : sent (speaks s) s (tick_announce now s)).
  { apply tick_announce_sent; auto. by bool_to_prop. }
  destruct (tick_announce_frame now s) as [Hp Hc].
  eapply sent_trans; [exact Hs|]. apply tick_peers_sent; [done|by apply (sent_own _ _ _ Hs)|]. by rewrite Hc, Hp.
Qed.

Lemma BeginMetadata_sent Q e s : sent Q s (snd (BeginMetadata e s)).
Proof.
  destruct (BeginMetadata_frame e s) as (? & ? & _). apply sent_frame; auto.
  intros [Hs Hq]. split; [unfold BeginMetadata; by case_check|by apply BeginMetadata_counter].
Qed.

Lemma Announce_sent Q p a now s : sent Q s (Announce p a now s).
Proof.
  unfold Announce. destruct (locate _ _) as [[i peers]|]; [|apply sent_refl].
  eapply sent_trans; [by apply (sent_frame _ s (set_peers peers s))|]. destruct (peers !! i) as [e|]; [|apply sent_refl].
  unfold announce_entry. repeat (case_check; [apply sent_refl|]).
  match goal with |- context [announce_update i ?x] => set (e1 := x) end.
  eapply sent_trans; [by apply (sent_frame _ _ (set_entry i e1 (set_peers peers s)))|].
  unfold announce_update. repeat (case_check; [apply sent_refl|]). case_check; [|by apply sent_frame].
  match goal with |- context [BeginMetadata ?x ?y] => pose proof (BeginMetadata_sent Q x y) as H; destruct (BeginMetadata x y) end.
  eapply sent_trans; [exact H|]. by apply sent_frame.
Qed.

Lemma receive_response_sent Q i e p now s : sent Q s (receive_response i e p now s).
Proof.
  unfold receive_response. case_check; [apply sent_refl|].
  assert (Hb : forall x, sent Q s (let (e, s) := BeginMetadata x (reject s) in set_entry i (set_next_request (now + retry_ns s) e) s)).
  { intros x. eapply sent_trans; [by apply (sent_frame _ s (reject s))|].
    pose proof (BeginMetadata_sent Q x (reject s)) as H. destruct (BeginMetadata x (reject s)).
    eapply sent_trans; [exact H|]. by apply sent_frame. }
  case_check; [|by apply sent_frame]. destruct (DecodeDiscoveryMetadata _); [case_check|]; try apply Hb. by apply sent_frame.
Qed.

Lemma Receive_sent p a m now s : own_ok s -> wf_discovery p -> sent (speaks s) s (Receive p a m now s).
Proof.
  intros Hok Hp. unfold Receive. case_check; [apply sent_refl|].
  destruct m; [case_check; [apply Announce_sent|by apply sent_frame]|].
  destruct (find_peer _ _) as [[i e]|]; [|apply sent_refl].
  case_check; [apply sent_refl|]. repeat case_check; [|apply receive_response_sent|by apply sent_frame].
  unfold receive_request. case_check; [apply sent_refl|]. bool_to_prop.
  set (s1 := set_entry i _ s). eapply sent_trans; [by apply (sent_frame _ s s1)|].
  assert (Hsp : speaks s (metadata_response p s1)).
  { apply (speaks_own s1); [done|]. apply response_speaks; [by apply (own_ok_own s)|done|done]. }
  pose proof (Send_sent _ _ a s1 Hsp) as Hsend. destruct (Send _ _ _) as [b s2].
  eapply sent_trans; [exact Hsend|]. by destruct b; apply sent_frame.
Qed.

(** The arguments of an event have the types of the C++ parameters. *)
Definition typed_event (e : Event) : Prop :=
  match e with
  | EvRecv (RecvFrom _ data) _ _ => bytes data
  | EvUpdate ms => Forall wf_metadata ms
  | EvRegister _ m => wf_metadata m
  | _ => True
  end.
Definition event_time (e : Event) : Z := match e with EvTick now _ | EvRecv _ now _ => now | _ => 0 end.
(** The packet an event brings, if any. *)
Definition event_heard (e : Event) : heard_packet :=
  match e with
  | EvRecv (RecvFrom address data) _ _ =>
      if (DISCOVERY_MAX_DATAGRAM <? vsize data) || bad_source address then None
      else match DecodeDiscoveryPacket (Some data) with Ok p => Some (p, address) | Err _ => None end
  | _ => None
  end.

Record node_ok (s : Impl) : Prop := {
  no_own : own_ok s;
  no_numbers : numbers s;
  no_table : table_ok (im_config s) (im_peers s)
}.

(** The metadata grows by a revision when it changes. *)
Definition republished (s s' : Impl) : Prop :=
  im_config s' = im_config s /\ im_session s' = im_session s /\ im_revision s' = im_revision s + 1 /\
  im_wire s' = im_wire s /\ im_peers s' = im_peers s.

Lemma publish_ok base consumers bytes s :
  node_ok s -> EncodeDiscoveryMetadata (base ++ consumers) = Ok bytes -> Forall wf_metadata (base ++ consumers) ->
  ValidDiscoveryMetadata (base ++ consumers) (dc_host (im_config s)) (dc_boot_id (im_config s)) = true ->
  im_revision s <> UINT64_MAX -> node_ok (publish base consumers bytes s) /\ republished s (publish base consumers bytes s).
Proof.
  intros [[] Hn Ht] He Hw Hv Hr. split; [|done]. split; [|done|done]. split; try done; cbn -[UINT64_MAX]; [width|].
  destruct (EncodeDiscoveryMetadata_Ok _ _ He) as (Hl & _). unfold DISCOVERY_MAX_ENDPOINTS, published in *. cbn.
  unfold u16. rewrite Z.mod_small by lia. done.
Qed.

Lemma sent_ok s s' :
  node_ok s -> sent (speaks s) s s' -> table_ok (im_config s) (im_peers s') -> node_ok s'.
Proof.
  intros [Hown Hn _] Hs Ht. destruct (own_eq _ _ (sent_own _ _ _ Hs)) as (Ec & _).
  split; [by apply (own_ok_own s); [apply Hs|]|by apply Hs|by rewrite Ec].
Qed.

Lemma api_ok (f : Impl -> Z * Impl) s :
  (snd (f s) = s \/ node_ok (snd (f s)) /\ republished s (snd (f s))) -> node_ok s ->
  node_ok (snd (f s)) /\ (snd (f s) = s \/ republished s (snd (f s))).
Proof. intros [->|[? ?]] Hok; auto. Qed.

Lemma UpdateMetadata_ok ms s : Forall wf_metadata ms -> node_ok s ->
  node_ok (snd (UpdateMetadata ms s)) /\ (snd (UpdateMetadata ms s) = s \/ republished s (snd (UpdateMetadata ms s))).
Proof.
  intros Hms Hok. apply api_ok; [|done]. unfold UpdateMetadata. repeat (case_check; [by left|]).
  destruct (EncodeDiscoveryMetadata _) as [bs|] eqn:He; [|by left]. repeat (case_check; [by left|]). right.
  bool_to_prop. apply publish_ok; auto. apply Forall_app. split; [done|].
  pose proof (ow_wf _ (no_own _ Hok)) as H. by apply Forall_app in H as [_ ?].
Qed.

Lemma RegisterConsumer_ok session m s : wf_metadata m -> node_ok s ->
  node_ok (snd (RegisterConsumer session m s)) /\
  (snd (RegisterConsumer session m s) = s \/ republished s (snd (RegisterConsumer session m s))).
Proof.
  intros Hm Hok. apply api_ok; [|done]. unfold RegisterConsumer. repeat (case_check; [by left|]).
  destruct (EncodeDiscoveryMetadata _) as [bs|] eqn:He; [|by left]. case_check; [by left|]. right.
  bool_to_prop. apply publish_ok; auto. rewrite app_assoc. apply Forall_app. split; [apply (ow_wf _ (no_own _ Hok))|by constructor].
Qed.

Lemma UnregisterConsumer_ok session id s : node_ok s ->
  node_ok (snd (UnregisterConsumer session id s)) /\
  (snd (UnregisterConsumer session id s) = s \/ republished s (snd (UnregisterConsumer session id s))).
Proof.
  intros Hok. apply api_ok; [|done]. unfold UnregisterConsumer. case_check; [by left|].
  destruct (list_find _ _) as [[i m]|]; [|by left].
  destruct (EncodeDiscoveryMetadata _) as [bs|] eqn:He; [|by left]. case_check; [by left|]. right. bool_to_prop.
  assert (Hsub : im_base_metadata s ++ delete i (im_consumers s) `sublist_of` published s)
    by (apply sublist_app; [done|apply sublist_delete]).
  apply publish_ok; auto.
  - pose proof (ow_wf _ (no_own _ Hok)) as Hw. rewrite Forall_forall in *. eauto using elem_of_sublist.
  - eapply ValidDiscoveryMetadata_sublist; [exact Hsub|]. apply (ow_valid _ (no_own _ Hok)).
Qed.

(** Without a packet every entry may make steps, with one at most one entry does. *)
Definition table_evolves (ev : Event) (s s' : Impl) : Prop :=
  let step := table_step (im_config s) (event_time ev) (event_heard ev) in
  match event_heard ev with Some _ => maybe step | None => rtc step end (im_peers s) (im_peers s').

Lemma table_evolves_rtc ev s s' : table_evolves ev s s' ->
  rtc (table_step (im_config s) (event_time ev) (event_heard ev)) (im_peers s) (im_peers s').
Proof. unfold table_evolves. destruct (event_heard ev); [apply maybe_rtc|done]. Qed.

Lemma table_evolves_same ev s s' : im_peers s' = im_peers s -> table_evolves ev s s'.
Proof. unfold table_evolves. intros ->. destruct (event_heard ev); [by left|done]. Qed.

(** What one step does: the invariant is kept; what was sent meanwhile speaks for the
    state before; the metadata changes only together with the revision; the table
    evolves by the steps above or is cleared by [Stop]. *)
Definition step_spec (ev : Event) (s s' : Impl) : Prop :=
  node_ok s' /\ (sent (speaks s) s s' \/ republished s s') /\
  (im_peers s' = [] \/ table_evolves ev s s').

Lemma step_frame ev s s' :
  node_ok s -> own s' = own s -> im_wire s' = im_wire s -> (numbers s -> numbers s') -> im_peers s' = im_peers s ->
  step_spec ev s s'.
Proof.
  intros Hok Ho Hw Hn Hp. assert (Hs : sent (speaks s) s s') by (by apply sent_frame).
  split; [apply (sent_ok s); [done|done|rewrite Hp; apply Hok]|]. split; [by left|right; by apply table_evolves_same].
Qed.

Lemma step_api ev s s' : node_ok s' /\ (s' = s \/ republished s s') -> step_spec ev s s'.
Proof.
  intros [Ht [->|Hr]]; [split; [done|split; [left; apply sent_refl|right; by apply table_evolves_same]]|].
  split; [done|]. split; [by right|right]. by apply table_evolves_same, Hr.
Qed.

(** A step of the worker under the lock: [sendto] answers [results]. *)
Lemma step_work ev s results w s2 :
  node_ok s -> sent (speaks (set_results results s)) (set_results results s) s2 ->
  table_evolves ev s s2 -> step_spec ev s (set_worker w s2).
Proof.
  intros Hok Hs Ht.
  assert (Hs' : sent (speaks s) s (set_worker w s2)).
  { eapply sent_trans; [by apply (sent_frame _ s (set_results results s))|].
    eapply sent_trans; [|by apply (sent_frame _ s2)].
    destruct Hs as [? ? (more & E & F)]. split; [done..|]. exists more. split; [done|].
    eapply Forall_impl; [exact F|]. intros d (p & Hsp & ?). exists p. split; [|done].
    by apply (speaks_own (set_results results s)). }
  split; [|split; [by left|by right]]. apply (sent_ok s); [done|done|].
  eapply rtc_invariant; [|apply (no_table _ Hok)|exact (table_evolves_rtc _ _ _ Ht)]. eauto using table_step_ok.
Qed.

Lemma node_filled s : node_ok s -> filled (im_peers s).
Proof. intros Hok e He. pose proof (to_entries _ _ (no_table _ Hok)) as H. rewrite Forall_forall in H. by apply (H e He). Qed.

Lemma recv_step s s' m i after arrival now results :
  typed_event (EvRecv arrival now results) -> node_ok s -> im_worker s = Some (WRecv m i after) ->
  discovery_exec (EvRecv arrival now results) s = Some s' -> step_spec (EvRecv arrival now results) s s'.
Proof.
  intros Hty Hok Hw Hx. cbn [discovery_exec] in Hx. rewrite Hw in Hx.
  destruct (drain_one _ _ _ _) as [go s2] eqn:Hd. injection Hx as <-.
  unfold drain_one in Hd. destruct arrival as [errno|address data]; simplify_eq.
  { case_check; by apply step_frame. }
  cbn [typed_event] in Hty. destruct ((DISCOVERY_MAX_DATAGRAM <? vsize data) || bad_source address) eqn:Hb; [by apply step_frame|].
  destruct (DecodeDiscoveryPacket (Some data)) as [p|] eqn:Hp; [|by apply step_frame].
  destruct (discovery_packet_canonical _ _ Hty Hp) as [Hwf [Hv _]%EncodeDiscoveryPacket_Ok].
  eapply step_work; [done| |].
  - apply Receive_sent; [apply (own_ok_own s); [done|apply Hok]|done].
  - unfold table_evolves, event_heard. rewrite Hb, Hp. cbn [event_time].
    apply (Receive_table p address m now (set_results results s)); try done; [apply Hok|exact (node_filled s Hok)].
Qed.

Lemma exec_spec ev s s' :
  typed_event ev -> node_ok s -> discovery_exec ev s = Some s' -> step_spec ev s s'.
Proof.
  intros Hty Hok Hx.
  destruct ev as [|now results|r| |arrival now results|ms|session m|session id| |]; cbn [discovery_exec] in Hx.
  - repeat case_match; simplify_eq; by apply step_frame.
  - repeat case_match; simplify_eq. eapply step_work; [done| |].
    + apply Tick_sent; [apply (own_ok_own s); [done|apply Hok]|apply Hok|apply Hok].
    + apply (Tick_table now _ (set_results results s)).
  - repeat case_match; simplify_eq. unfold polled, socket_error. repeat case_match; by apply step_frame.
  - repeat case_match; simplify_eq; by apply step_frame.
  - destruct (im_worker s) as [[| | | |m i after|]|] eqn:Hw; try done. eapply recv_step; eauto. cbn [discovery_exec]. by rewrite Hw.
  - injection Hx as <-. by apply step_api, UpdateMetadata_ok.
  - injection Hx as <-. by apply step_api, RegisterConsumer_ok.
  - injection Hx as <-. by apply step_api, UnregisterConsumer_ok.
  - injection Hx as <-. by apply step_frame.
  - assert (s' = stop_finish s) as -> by (destruct (im_worker s) as [[]|]; by simplify_eq).
    assert (Hs : sent (speaks s) s (stop_finish s)) by (by apply sent_frame).
    split; [apply (sent_ok s); [done|done|split; [constructor|constructor|apply not_elem_of_nil|]]|split; [by left|by left]].
    cbn. pose proof (to_size _ _ (no_table _ Hok)). lia.
Qed.

(** ** Starting *)
Definition typed_config (c : DiscoveryConfig) : Prop :=
  wf_host (dc_host c) /\ wf_host (dc_boot_id c) /\ wf_profile (dc_profile c) /\ is_u64 (dc_max_peers c).

(** The states in which [Start] has just succeeded, on a node that was never started or
    has been stopped. *)
Definition started (s : Impl) : Prop :=
  exists config endpoints random errnos thread s0,
    Start config endpoints random errnos thread s0 = Some (0, s) /\
    typed_config config /\ Forall wf_metadata endpoints /\ Forall (fun r => is_u64 r.2) random.

Lemma start_calls_all actions errnos s s' :
  start_calls actions errnos s = (0, s') -> s' = foldl (fun s f => f s) s actions.
Proof.
  revert errnos s. induction actions as [|f actions IH]; intros errnos s H; cbn [start_calls foldl] in *; [by simplify_eq|].
  case_check; [by eapply IH|]. bool_to_prop. simplify_eq. lia.
Qed.

Lemma draw_session_in answers got session : draw_session answers = Some (got, session) -> (got, session) ∈ answers.
Proof.
  induction answers as [|[g x] rest IH]; cbn [draw_session]; [done|]. case_check; [|intros; simplify_eq; left].
  intros H%IH. by right.
Qed.

Lemma started_ok s : started s -> node_ok s /\ im_peers s = [] /\ im_wire s = [].
Proof.
  intros (c & ms & random & errnos & thread & s0 & H & (Hh & Hb & Hp & Hm) & Hms & Hr). unfold Start in H.
  case_check; [done|]. destruct (inet_pton (dc_interface_address c)) as [interface|]; [|done].
  destruct (inet_pton (dc_multicast_group c)) as [group|]; [|done]. destruct (negb (valid_config _ _ _ _)) eqn:Hv; [done|].
  destruct (EncodeDiscoveryMetadata ms) as [bs|code] eqn:He; [|apply EncodeDiscoveryMetadata_Err in He; simplify_eq; lia].
  destruct (draw_session random) as [[got session]|] eqn:Hd; [|done].
  destruct (negb (got =? 8) || _) eqn:Hs; [case_check; simplify_eq; lia|].
  destruct (start_calls _ _ _) as [code s1] eqn:Hcalls. case_check; [|by simplify_eq]. bool_to_prop. subst code.
  apply start_calls_all in Hcalls. unfold start_worker in H. case_check; [|simplify_eq; bool_to_prop; lia].
  simplify_eq. cbn. split; [|done].
  apply draw_session_in in Hd. rewrite Forall_forall in Hr. specialize (Hr _ Hd).
  destruct (EncodeDiscoveryMetadata_Ok _ _ He) as (Hl & _). unfold valid_config in Hv. bool_to_prop.
  split; [|by split; cbn; width|].
  - split; cbn; unfold published; cbn; rewrite ?app_nil_r; try done; try width.
    unfold u16, DISCOVERY_MAX_ENDPOINTS in *. rewrite Z.mod_small by lia. done.
  - split; cbn; [constructor|constructor|apply not_elem_of_nil|]. width.
Qed.

(** Reachable states of a started node. *)
Lemma run_ok es s0 s : node_ok s0 -> Forall typed_event es -> discovery_run es s0 = Some s -> node_ok s.
Proof.
  intros Hok Hty. revert s0 Hok. induction Hty as [|ev es Hev Hes IH]; intros s0 Hok H; cbn [machine_run] in H; [by simplify_eq|].
  destruct (discovery_exec ev s0) as [s1|] eqn:Hx; [|done]. apply (IH s1); [|done]. by apply (exec_spec ev s0 s1).
Qed.

Lemma announce_step_host c now p a e e' : announce_step c now p a e e' -> en_host e' = dp_host p.
Proof.
  intros (e1 & _ & He'). case_check; [|by subst].
  destruct (begun_frame _ _ He') as (_ & _ & _ & _ & _ & _ & E6 & _). unfold en_host. by rewrite E6.
Qed.

(** ** Metadata received is metadata published *)
Section Tracking.
(** A node to be tracked, and what it published under each revision. *)
Context (host boot : HostIdentity) (session : Z) (publishes : Z -> list NetworkEndpointMetadata -> Prop).
Hypothesis publishes_one : forall r ms ms', publishes r ms -> publishes r ms' -> ms = ms'.
Hypothesis publishes_wf : forall r ms, publishes r ms -> Forall wf_metadata ms.

Definition authentic (p : DiscoveryPacket) : Prop :=
  dp_host p = host -> (dp_boot_id p, dp_session_id p) = (boot, session) -> dp_kind p <> DiscoveryMessage.METADATA_REQUEST ->
  exists ms bs, publishes (dp_revision p) ms /\ EncodeDiscoveryMetadata ms = Ok bs /\ dp_metadata_size p = vsize bs /\
    (dp_kind p = DiscoveryMessage.ANNOUNCE -> dp_endpoint_count p = Z.of_nat (length ms)) /\
    (dp_kind p = DiscoveryMessage.METADATA_RESPONSE ->
     dp_chunk p = take (length (dp_chunk p)) (drop (Z.to_nat (dp_offset p)) bs)).

(** The entry of that node: what it has collected is a prefix of what was published. *)
Definition tracked (e : Entry) : Prop :=
  en_host e = host -> en_key e = (boot, session) ->
  exists ms bs, publishes (pi_metadata_revision (en_info e)) ms /\ EncodeDiscoveryMetadata ms = Ok bs /\
    en_size e = vsize bs /\ en_count e = Z.of_nat (length ms) /\ en_staging e = take (length (en_staging e)) bs /\
    (pi_metadata_ready (en_info e) = true -> pi_endpoints (en_info e) = ms).

Lemma announce_tracked c now p a e e' :
  authentic p -> announce_step c now p a e e' ->
  (e = new_entry \/ (entry_ok c e /\ tracked e /\ en_host e' = en_host e)) -> tracked e'.
Proof.
  intros Hauth Hann Hold Ht Hkey. rewrite (announce_step_host _ _ _ _ _ _ Hann) in Ht.
  destruct Hann as (e1 & Hacc & He').
  pose proof (ac_kind _ _ _ _ _ _ Hacc) as Hk.
  destruct (needs_refresh p a (other_incarnation p e) e1) eqn:Hr.
  - destruct (begun_frame _ _ He') as (_ & E2 & E3 & _ & E5 & _ & E6 & _).
    unfold en_key in Hkey. rewrite E6 in Hkey. cbn in Hkey.
    destruct (Hauth Ht Hkey) as (ms & bs & Hp & He & Hs & Hc & _); [by rewrite Hk|].
    exists ms, bs. rewrite E2, E3, E5, E6. cbn. split_and!; by auto.
  - destruct Hold as [->|(Hok & Htr & Hhe)]; [by rewrite (ac_base _ _ _ _ _ _ Hacc) in Hr|].
    destruct (kept_metadata _ _ _ _ _ _ Hacc Hr) as (-> & Hke & Er & Es & Ec & _); [apply Hok|]. subst e'.
    unfold en_key in Hkey. cbn in Hkey.
    destruct Htr as (ms & bs & Hp & He & Hs & Hc & Hst & Hrd); [rewrite <- Hhe; exact Ht|by rewrite Hke|].
    exists ms, bs. cbn. rewrite Er, <- Es, <- Ec. split_and!; by auto.
Qed.

Lemma collects_tracked c p a e :
  authentic p -> collects p a e -> entry_ok c e -> tracked e -> en_host e = host -> en_key e = (boot, session) ->
  exists ms bs, publishes (pi_metadata_revision (en_info e)) ms /\ EncodeDiscoveryMetadata ms = Ok bs /\
    en_size e = vsize bs /\ en_count e = Z.of_nat (length ms) /\
    en_staging e ++ dp_chunk p = take (length (en_staging e ++ dp_chunk p)) bs.
Proof.
  intros Hauth Hc Hok Ht Hh Hk. destruct (Ht Hh Hk) as (ms & bs & Hp & He & Hs & Hn & Hst & _).
  destruct Hauth as (ms' & bs' & Hp' & He' & _ & _ & Hch).
  { rewrite (co_host _ _ _ Hc). done. }
  { rewrite (co_key _ _ _ Hc). done. }
  { by rewrite (co_kind _ _ _ Hc). }
  rewrite (co_revision _ _ _ Hc) in Hp'. pose proof (publishes_one _ _ _ Hp Hp') as <-.
  assert (bs' = bs) as -> by congruence. exists ms, bs. split_and!; auto.
  specialize (Hch (co_kind _ _ _ Hc)). rewrite (co_offset _ _ _ Hc) in Hch. unfold vsize in Hch. rewrite Nat2Z.id in Hch.
  rewrite length_app. rewrite Hst at 1. rewrite Hch at 1. rewrite take_take_drop. done.
Qed.

Lemma entry_step_tracked c now heard e e' :
  (forall p a, heard = Some (p, a) -> authentic p) -> entry_step c now heard e e' -> en_host e' = en_host e ->
  entry_ok c e -> tracked e -> tracked e'.
Proof.
  intros Hauth Hs Hh Hok Ht.
  destruct Hs as [Ho Hto|t|t|p a e' Hp Ha|p a Hp Hc Hne|p a decoded Hp Hc Heq Hd Hu|p a t e' Hp Hc Hb]; try done.
  - intros H1 H2. destruct (Ht H1 H2) as (ms & bs & ? & ? & ? & ? & _). exists ms, bs. cbn. split_and!; by auto.
  - eapply announce_tracked; eauto.
  - intros H1 H2. destruct (collects_tracked c p a e) as (ms & bs & ? & ? & ? & ? & ?); eauto.
    exists ms, bs. cbn. split_and!; auto. by rewrite (co_pending _ _ _ Hc).
  - intros H1 H2. destruct (collects_tracked c p a e) as (ms & bs & Hpub & He & Hsz & ? & Hst); eauto.
    exists ms, bs. cbn. split_and!; auto. intros _.
    rewrite take_ge in Hst by (unfold vsize in *; lia). rewrite Hst in Hd.
    rewrite (discovery_metadata_roundtrip ms bs) in Hd by eauto. by simplify_eq.
  - destruct (begun_frame _ _ Hb) as (_ & E2 & E3 & _ & E5 & _ & E6 & _).
    intros H1 H2. unfold en_host, en_key in H1, H2. cbn in H1, H2. rewrite E6 in H1, H2.
    destruct (Ht H1 H2) as (ms & bs & ? & ? & ? & ? & _). exists ms, bs. cbn. rewrite E2, E3, E5, E6. cbn. split_and!; by auto.
Qed.

Lemma table_step_tracked c now heard l l' :
  (forall p a, heard = Some (p, a) -> authentic p) -> table_step c now heard l l' ->
  table_ok c l /\ Forall tracked l -> table_ok c l' /\ Forall tracked l'.
Proof.
  intros Hauth Hs [Hok Ht]. split; [by eapply table_step_ok|].
  destruct Hs as [l i e e' Hi Hs Hh|l p a e' Hp _ _ _ Ha _|l j o p a e' Hp _ _ _ _ _ _ Ha _].
  - apply Forall_insert; [done|]. eapply entry_step_tracked; eauto; (eapply Forall_lookup_1; [|exact Hi]); [apply Hok|done].
  - apply Forall_app. split; [done|]. constructor; [|constructor]. eapply announce_tracked; eauto.
  - apply Forall_app. split; [|constructor; [|constructor]; eapply announce_tracked; eauto].
    rewrite Forall_forall in *. eauto using elem_of_sublist, sublist_delete.
Qed.

Lemma run_tracked es s0 s :
  node_ok s0 -> Forall tracked (im_peers s0) -> Forall typed_event es ->
  (forall ev p a, ev ∈ es -> event_heard ev = Some (p, a) -> authentic p) ->
  discovery_run es s0 = Some s -> Forall tracked (im_peers s).
Proof.
  intros Hok Ht Hty. revert s0 Hok Ht. induction Hty as [|ev es Hev Hes IH]; intros s0 Hok Ht Ha H; cbn [machine_run] in H; [by simplify_eq|].
  destruct (discovery_exec ev s0) as [s1|] eqn:Hx; [|done].
  destruct (exec_spec ev s0 s1 Hev Hok Hx) as (Hok1 & _ & Htab).
  apply (IH s1); [done| |intros ev' p a Hin; apply Ha; by right|done].
  destruct Htab as [->|Htab%table_evolves_rtc]; [constructor|].
  eapply (rtc_invariant _ (fun l => table_ok (im_config s0) l /\ Forall tracked l)); [|split; [apply Hok|exact Ht]|exact Htab].
  intros l l' HI Hst. eapply table_step_tracked; eauto. intros p a Hp. eapply (Ha ev); [left|done].
Qed.
End Tracking.

(** ** What a node published *)

(** The states a run passes through. *)
Definition passes (es : list Event) (s0 t : Impl) : Prop := exists k, discovery_run (take k es) s0 = Some t.

Lemma passes_cons ev es s0 s1 t : discovery_exec ev s0 = Some s1 -> passes es s1 t -> passes (ev :: es) s0 t.
Proof. intros Hx [k Hk]. exists (S k). cbn [take machine_run]. by rewrite Hx. Qed.

Lemma passes_first es s0 : passes es s0 s0.
Proof. by exists 0%nat. Qed.

(** Later states have a later revision or the same metadata; the identity stays. *)
Lemma passes_later es s0 t :
  node_ok s0 -> Forall typed_event es -> passes es s0 t ->
  im_config t = im_config s0 /\ im_session t = im_session s0 /\ im_revision s0 <= im_revision t /\
  (im_revision t = im_revision s0 -> published t = published s0).
Proof.
  intros Hok Hty. revert s0 Hok. induction Hty as [|ev es Hev Hes IH]; intros s0 Hok [k Hk].
  { rewrite take_nil in Hk. cbn in Hk. simplify_eq. auto with lia. }
  destruct k as [|k]; cbn [take machine_run] in Hk; [simplify_eq; auto with lia|].
  destruct (discovery_exec ev s0) as [s1|] eqn:Hx; [|done].
  destruct (exec_spec ev s0 s1 Hev Hok Hx) as (Hok1 & Hs & _).
  destruct (IH s1 Hok1) as (E1 & E2 & E3 & E4); [by exists k|]. rewrite E1, E2.
  destruct Hs as [Hs|(Ec & Es & Er & _)].
  - destruct (own_eq _ _ (sent_own _ _ _ Hs)) as (Ec & Es & _ & _ & _ & _ & Er & Ep). rewrite Ec, Es, <- Er, <- Ep. auto.
  - rewrite Ec, Es. split_and!; auto; lia.
Qed.

Lemma passes_one es s0 t t' :
  node_ok s0 -> Forall typed_event es -> passes es s0 t -> passes es s0 t' -> im_revision t = im_revision t' ->
  published t = published t'.
Proof.
  intros Hok Hty. revert s0 Hok. induction Hty as [|ev es Hev Hes IH]; intros s0 Hok Ht Ht' Hr.
  { destruct Ht as [k Hk], Ht' as [k' Hk']. rewrite take_nil in Hk, Hk'. by simplify_eq/=. }
  pose proof (Forall_cons_2 _ _ _ Hev Hes) as Hall.
  destruct (passes_later _ _ _ Hok Hall Ht) as (_ & _ & _ & H1). destruct (passes_later _ _ _ Hok Hall Ht') as (_ & _ & _ & H2).
  destruct Ht as [k Hk], Ht' as [k' Hk'].
  destruct k as [|k]; [cbn in Hk; simplify_eq; symmetry; apply H2; congruence|].
  destruct k' as [|k']; [cbn in Hk'; simplify_eq; apply H1; congruence|].
  cbn [take machine_run] in Hk, Hk'. destruct (discovery_exec ev s0) as [s1|] eqn:Hx; [|done].
  apply (IH s1); [by apply (exec_spec ev s0 s1)|by exists k|by exists k'|done].
Qed.

(** Everything a node ever sent speaks for a state it passed through. *)
Lemma run_wire es s0 s :
  node_ok s0 -> Forall typed_event es -> discovery_run es s0 = Some s ->
  exists more, im_wire s = im_wire s0 ++ more /\
    Forall (fun d => exists t p, passes es s0 t /\ node_ok t /\ speaks t p /\ EncodeDiscoveryPacket p = Ok d.2) more.
Proof.
  intros Hok Hty. revert s0 Hok. induction Hty as [|ev es Hev Hes IH]; intros s0 Hok H; cbn [machine_run] in H.
  { simplify_eq. exists []. by rewrite app_nil_r. }
  destruct (discovery_exec ev s0) as [s1|] eqn:Hx; [|done].
  destruct (exec_spec ev s0 s1 Hev Hok Hx) as (Hok1 & Hs & _).
  destruct (IH s1 Hok1 H) as (more & Ew & Hmore).
  assert (Hlater : Forall (fun d => exists t p, passes (ev :: es) s0 t /\ node_ok t /\ speaks t p /\ EncodeDiscoveryPacket p = Ok d.2) more).
  { eapply Forall_impl; [exact Hmore|]. intros d (t & p & Ht & Hrest). exists t, p. split; [by eapply passes_cons|done]. }
  destruct Hs as [[_ _ (m1 & Ew1 & Hm1)]|(_ & _ & _ & Ew1 & _)].
  - exists (m1 ++ more). rewrite Ew, Ew1, app_assoc. split; [done|]. apply Forall_app. split; [|done].
    eapply Forall_impl; [exact Hm1|]. intros d (p & Hsp & He). exists s0, p. split_and!; auto using passes_first.
  - exists more. by rewrite Ew, Ew1.
Qed.


(** ** Claims *)
Lemma event_heard_Some ev p a : event_heard ev = Some (p, a) ->
  exists data now results, ev = EvRecv (RecvFrom a data) now results /\ DecodeDiscoveryPacket (Some data) = Ok p.
Proof.
  destruct ev as [| | | |[|address data] now results| | | | |]; try done. cbn [event_heard]. case_check; [done|].
  destruct (DecodeDiscoveryPacket (Some data)) as [q|] eqn:E; [|done]. intros H. simplify_eq. eauto.
Qed.

Lemma passes_ok es s0 t : node_ok s0 -> Forall typed_event es -> passes es s0 t -> node_ok t.
Proof. intros Hok Hty [k Hk]. eapply run_ok; [exact Hok|by apply Forall_take|exact Hk]. Qed.

(** What a node says decodes to a statement about what it published. *)
Lemma speaks_authentic es s0 t p data q :
  passes es s0 t -> node_ok t -> speaks t q -> EncodeDiscoveryPacket q = Ok data -> DecodeDiscoveryPacket (Some data) = Ok p ->
  authentic (dc_host (im_config t)) (dc_boot_id (im_config t)) (im_session t)
    (fun r ms => exists t, passes es s0 t /\ im_revision t = r /\ published t = ms) p.
Proof.
  intros Ht Hok Hsp He Hd _ _ Hk.
  destruct (discovery_packet_roundtrip q data (sp_wf _ _ Hsp) He) as [_ Hd']. rewrite Hd in Hd'. injection Hd' as ->.
  assert (Hkq : dp_kind (normalize q) = dp_kind q) by (unfold normalize; by case_check).
  assert (Heq : dp_revision (normalize q) = dp_revision q /\ dp_metadata_size (normalize q) = dp_metadata_size q /\
    dp_endpoint_count (normalize q) = dp_endpoint_count q /\ dp_chunk (normalize q) = dp_chunk q /\
    dp_offset (normalize q) = dp_offset q) by (unfold normalize; by case_check).
  destruct Heq as (-> & -> & -> & -> & ->). rewrite Hkq in *.
  destruct (sp_revision _ _ Hsp Hk) as [Hr Hs].
  exists (published t), (im_metadata t). split; [by exists t|]. split; [apply (ow_metadata _ (no_own _ Hok))|].
  split; [done|]. split; [apply (sp_count _ _ Hsp)|apply (sp_chunk _ _ Hsp)].
Qed.

(** C12: Discovery agrees with the publisher.  Let node A run from its [Start] through any
    schedule, and node B likewise, over a network that loses, repeats, delays and
    reorders datagrams but does not forge A's: every datagram B takes as coming from A's
    host, boot and session is one A sent, to whomever and whenever.  Then as soon as B
    shows A's metadata as ready, at whatever revision, its list of endpoints is exactly
    the list A published under that revision, although it was collected in chunks that
    A may have answered while its metadata was changing. *)
Theorem discovery_agreement a0 a esA b0 b esB e :
  started a0 -> started b0 -> Forall typed_event esA -> Forall typed_event esB ->
  discovery_run esA a0 = Some a -> discovery_run esB b0 = Some b ->
  (forall address data now results p, EvRecv (RecvFrom address data) now results ∈ esB ->
     DecodeDiscoveryPacket (Some data) = Ok p -> dp_host p = dc_host (im_config a) ->
     dp_boot_id p = dc_boot_id (im_config a) -> dp_session_id p = im_session a ->
     exists to, (to, data) ∈ im_wire a) ->
  e ∈ im_peers b -> en_host e = dc_host (im_config a) -> en_key e = (dc_boot_id (im_config a), im_session a) ->
  pi_metadata_ready (en_info e) = true ->
  exists k t, discovery_run (take k esA) a0 = Some t /\ im_revision t = pi_metadata_revision (en_info e) /\
    pi_endpoints (en_info e) = im_base_metadata t ++ im_consumers t.
Proof.
  intros (HA & _ & HwA)%started_ok (HB & HpB & _)%started_ok HtA HtB HrA HrB Hnet He Hh Hk Hready.
  set (publishes := fun r ms => exists t, passes esA a0 t /\ im_revision t = r /\ published t = ms).
  destruct (passes_later esA a0 a HA HtA) as (Ec & Es & _); [exists (length esA); by rewrite take_ge|].
  assert (Htr : Forall (tracked (dc_host (im_config a)) (dc_boot_id (im_config a)) (im_session a) publishes) (im_peers b)).
  { apply (run_tracked _ _ _ publishes) with (es := esB) (s0 := b0); auto.
    - intros r ms ms' (t & Ht & Hr & <-) (t' & Ht' & Hr' & <-). eapply (passes_one esA a0); eauto. congruence.
    - intros r ms (t & Ht & _ & <-). apply (ow_wf _ (no_own _ (passes_ok _ _ _ HA HtA Ht))).
    - rewrite HpB. constructor.
    - intros ev p address Hev (data & now & results & -> & Hd)%event_heard_Some Hph Hpk. injection Hpk as Hpb Hps.
      destruct (Hnet _ _ _ _ _ Hev Hd Hph Hpb Hps) as [to Hto].
      destruct (run_wire esA a0 a HA HtA HrA) as (more & Ew & Hmore). rewrite HwA in Ew. cbn in Ew. rewrite Ew in Hto.
      rewrite Forall_forall in Hmore. destruct (Hmore _ Hto) as (t & q & Ht & Hok & Hsp & Hq).
      destruct (passes_later esA a0 t HA HtA Ht) as (Ec' & Es' & _).
      rewrite Ec, <- Ec' in Hph, Hpb. rewrite Es, <- Es' in Hps.
      eapply speaks_authentic; eauto. congruence. }
  rewrite Forall_forall in Htr. destruct (Htr e He Hh Hk) as (ms & bs & (t & [k Hrun] & Hrev & <-) & _ & _ & _ & _ & Hrd).
  exists k, t. auto.
Qed.

Lemma unique_host l e e' : NoDup (en_host <$> l) -> e ∈ l -> e' ∈ l -> en_host e = en_host e' -> e = e'.
Proof.
  intros Hn [i Hi]%list_elem_of_lookup_1 [j Hj]%list_elem_of_lookup_1 E.
  assert (i = j) as -> by (eapply (NoDup_lookup _ _ _ (en_host e) Hn); rewrite list_lookup_fmap; [by rewrite Hi|by rewrite Hj, E]).
  congruence.
Qed.

(** What becomes of an entry at time [now]. *)
Definition same_incarnation (c : DiscoveryConfig) (now : Z) (e e' : Entry) : Prop :=
  en_key e' = en_key e /\ en_sequence e <= en_sequence e' /\ pi_metadata_revision (en_info e) <= pi_metadata_revision (en_info e') /\
  (SameAddress (en_address e) (en_address e') = false -> timeout c <= now - pi_last_seen (en_info e)).
Definition next_incarnation (c : DiscoveryConfig) (now : Z) (e e' : Entry) : Prop :=
  timeout c <= now - pi_last_seen (en_info e) /\ en_key e' <> en_key e /\ (en_key e' ∉ en_retired e) /\ en_key e ∈ en_retired e'.

Lemma retire_key e : en_key e ∈ en_retired (retire e).
Proof.
  unfold retire, set_retired. cbn [en_retired]. case_check; [|set_solver]. apply Nat.ltb_lt in Heqb.
  rewrite length_app in Heqb. cbn in Heqb. destruct (en_retired e) as [|k l]; [cbn in Heqb; lia|]. cbn [app tl]. set_solver.
Qed.

Lemma SameAddress_refl a : SameAddress a a = true.
Proof. unfold SameAddress. by rewrite !Z.eqb_refl. Qed.

Lemma announce_incarnation c now p a e e' :
  announce_step c now p a e e' -> entry_ok c e -> same_incarnation c now e e' \/ next_incarnation c now e e'.
Proof.
  intros (e1 & Hacc & He') Hok.
  assert (Hfields : en_key e' = (dp_boot_id p, dp_session_id p) /\ en_sequence e' = dp_sequence p /\
    pi_metadata_revision (en_info e') = dp_revision p /\ en_address e' = a /\ en_retired e' = en_retired e1).
  { case_check; [|by subst]. destruct (begun_frame _ _ He') as (E1 & _ & _ & E4 & _ & E5 & E6 & _).
    unfold en_key. by rewrite E1, E4, E5, E6. }
  destruct Hfields as (Ek & Es & Er & Ea & Et). unfold same_incarnation, next_incarnation. rewrite Ek, Es, Er, Ea, Et.
  pose proof (ac_base _ _ _ _ _ _ Hacc) as Hb. destruct (eo_session c e Hok) as [H0 _]. destruct (eo_numbers c e Hok) as (Hseq & _).
  unfold en_key. destruct (other_incarnation p e) eqn:Ho.
  - right. destruct (ac_changed _ _ _ _ _ _ Hacc Ho) as [Ht Hr]. subst e1. split_and!; [done| |done|apply retire_key].
    unfold other_incarnation in Ho. bool_to_prop.
    match goal with K : _ || _ = true |- _ => apply orb_true_iff in K as [K|K]; bool_to_prop; congruence end.
  - left. subst e1. unfold other_incarnation in Ho.
    destruct (Z.eqb_spec (pi_session_id (en_info e)) 0); [done|]. cbn [negb andb] in Ho. bool_to_prop.
    pose proof (ac_sequence _ _ _ _ _ _ Hacc). split_and!; [congruence|lia|apply (ac_revision _ _ _ _ _ _ Hacc)|].
    intros Hm. apply (ac_moved _ _ _ _ _ _ Hacc). unfold moved_to. rewrite Hm.
    destruct (Z.eqb_spec (en_sequence e) 0); [lia|done].
Qed.

Lemma same_incarnation_frame c now e e' :
  en_key e' = en_key e -> en_sequence e' = en_sequence e -> en_address e' = en_address e ->
  pi_metadata_revision (en_info e') = pi_metadata_revision (en_info e) -> same_incarnation c now e e'.
Proof. intros E1 E2 E3 E4. unfold same_incarnation. rewrite E2, E3, E4, SameAddress_refl. split_and!; auto; lia. Qed.

Lemma entry_step_incarnation c now heard e e' :
  entry_step c now heard e e' -> entry_ok c e -> same_incarnation c now e e' \/ next_incarnation c now e e'.
Proof.
  intros Hs Hok. destruct Hs as [Ho Ht|t|t|p a e' _ Ha|p a _ Hc _|p a decoded _ Hc _ _ _|p a t e' _ Hc Hb];
    try (by left; apply same_incarnation_frame).
  - by eapply announce_incarnation.
  - left. destruct (begun_frame _ _ Hb) as (E1 & _ & _ & _ & _ & E5 & E6 & _).
    apply same_incarnation_frame; unfold en_key; cbn; by rewrite ?E1, ?E5, ?E6.
Qed.

(** Where an entry of the new table comes from. *)
Lemma table_step_origin c now heard l l' e' :
  table_step c now heard l l' -> e' ∈ l' ->
  e' ∈ l \/ (exists e, e ∈ l /\ en_host e' = en_host e /\ entry_step c now heard e e') \/
  (exists p a, heard = Some (p, a) /\ forall e, e ∈ l -> en_host e <> en_host e').
Proof.
  intros Hs He. destruct Hs as [l i e e1 Hi Hs Hh|l p a e1 -> _ Hno _ _ E|l j o p a e1 -> _ Hno _ _ _ _ _ E].
  - apply list_elem_of_lookup_1 in He as [k Hk]. destruct (decide (k = i)) as [->|Hne].
    + rewrite list_lookup_insert_eq in Hk by (by eapply lookup_lt_Some). simplify_eq.
      right; left. exists e. split_and!; auto. by eapply list_elem_of_lookup_2.
    + rewrite list_lookup_insert_ne in Hk by done. left. by eapply list_elem_of_lookup_2.
  - apply elem_of_app in He as [?| ->%list_elem_of_singleton]; [by left|]. right; right. exists p, a. split; [done|].
    intros x Hx. rewrite E. by apply Hno.
  - apply elem_of_app in He as [He| ->%list_elem_of_singleton].
    + left. eapply elem_of_sublist; [exact He|apply sublist_delete].
    + right; right. exists p, a. split; [done|]. intros x Hx. rewrite E. by apply Hno.
Qed.

(** Without a packet the entries stay those of the same incarnations. *)
Lemma quiet_table c now l l' :
  rtc (table_step c now None) l l' -> table_ok c l ->
  forall e', e' ∈ l' -> exists e, e ∈ l /\ en_host e' = en_host e /\ en_key e' = en_key e /\ en_sequence e' = en_sequence e /\
    en_address e' = en_address e /\ pi_metadata_revision (en_info e') = pi_metadata_revision (en_info e).
Proof.
  intros Hr. induction Hr as [l|l l1 l' Hs _ IH]; intros Hok e' He'; [by exists e'|].
  destruct (IH (table_step_ok _ _ _ _ _ Hs Hok) e' He') as (e1 & He1 & Eh & Ek & Es & Ea & Er).
  destruct (table_step_origin _ _ _ _ _ _ Hs He1) as [H|[(e & He & Hh & Hst)|(p & a & H & _)]]; [by exists e1| |done].
  exists e. rewrite Eh, Ek, Es, Ea, Er. split; [done|]. split; [done|].
  inversion Hst; simplify_eq; done.
Qed.

(** The first live incarnation of a host keeps its place.  In every reachable state and
    for every step, an entry that survives either stays the same incarnation, its
    announcement sequence and metadata revision never going back (so a replayed or
    reordered announcement changes nothing) and its address only moving after the peer
    has been silent for the timeout, or it is taken over by another incarnation, and
    then only after that silence and only by one that has not been retired; the old one
    is retired.  A cloned host id cannot make the table flap. *)
Theorem discovery_first_incarnation s0 es s ev s' e e' :
  started s0 -> Forall typed_event es -> discovery_run es s0 = Some s -> typed_event ev -> discovery_exec ev s = Some s' ->
  e ∈ im_peers s -> e' ∈ im_peers s' -> en_host e' = en_host e ->
  same_incarnation (im_config s) (event_time ev) e e' \/ next_incarnation (im_config s) (event_time ev) e e'.
Proof.
  intros (H0 & _)%started_ok Hes Hrun Hev Hx He He' Hh. pose proof (run_ok es s0 s H0 Hes Hrun) as Hok.
  pose proof (no_table _ Hok) as Htab. pose proof (to_hosts _ _ Htab) as Hnd.
  destruct (exec_spec ev s s' Hev Hok Hx) as (_ & _ & [Hnil|Hev']); [rewrite Hnil in He'; by apply not_elem_of_nil in He'|].
  unfold table_evolves in Hev'. destruct (event_heard ev) as [pa|] eqn:Hheard.
  - destruct Hev' as [Hsame|Hst].
    { rewrite Hsame in He'. rewrite (unique_host _ _ _ Hnd He' He Hh). left. by apply same_incarnation_frame. }
    destruct (table_step_origin _ _ _ _ _ _ Hst He') as [H|[(e1 & He1 & Hh1 & Hs1)|(p & a & _ & Hno)]].
    + rewrite (unique_host _ _ _ Hnd H He Hh). left. by apply same_incarnation_frame.
    + assert (e1 = e) as -> by (apply (unique_host _ _ _ Hnd He1 He); congruence).
      eapply entry_step_incarnation; [exact Hs1|]. pose proof (to_entries _ _ Htab) as Hall. rewrite Forall_forall in Hall. auto.
    + destruct (Hno e He). done.
  - destruct (quiet_table _ _ _ _ Hev' Htab e' He') as (e1 & He1 & Eh & Ek & Es & Ea & Er).
    assert (e1 = e) as -> by (apply (unique_host _ _ _ Hnd He1 He); congruence).
    left. by apply same_incarnation_frame.
Qed.

(** C13: The peer table is sound in every reachable state: at most [max_peers] entries, one
    per host, none for the node itself; a LOST peer shows no metadata; metadata shown
    as ready has the announced number of endpoints and size, all valid, distinct and
    belonging to that host and boot; what is being collected stays below the announced
    size and on a chunk boundary; at most 8 retired incarnations are kept, never the
    current one.  What the node serves about itself is the encoding of its own endpoints
    and consumers, valid as a whole. *)
Theorem discovery_table_sound s0 es s :
  started s0 -> Forall typed_event es -> discovery_run es s0 = Some s ->
  Z.of_nat (length (im_peers s)) <= dc_max_peers (im_config s) /\ NoDup (en_host <$> im_peers s) /\
  (dc_host (im_config s) ∉ en_host <$> im_peers s) /\ Forall (entry_ok (im_config s)) (im_peers s) /\
  EncodeDiscoveryMetadata (im_base_metadata s ++ im_consumers s) = Ok (im_metadata s) /\
  ValidDiscoveryMetadata (im_base_metadata s ++ im_consumers s) (dc_host (im_config s)) (dc_boot_id (im_config s)) = true.
Proof.
  intros (H0 & _)%started_ok Hes Hrun. destruct (run_ok es s0 s H0 Hes Hrun) as [Ho _ []].
  split_and!; auto; apply Ho.
Qed.

(** ** A concrete exchange *)
Definition idle : Impl :=
  {| im_config := {| dc_host := no_host_id; dc_boot_id := no_host_id; dc_profile := default_profile;
       dc_compatibility_policy := CompatibilityPolicy.NETWORK_PROTOCOL; dc_interface_address := []; dc_multicast_group := [];
       dc_port := 0; dc_metadata_port := 0; dc_announce_interval := 0; dc_peer_timeout := 0; dc_metadata_retry := 0;
       dc_max_peers := 0 |};
     im_stats := no_stats; im_peers := []; im_metadata := []; im_base_metadata := []; im_consumers := [];
     im_endpoint_count := 0; im_revision := 1; im_sequence := 0; im_session := 0; im_request_counter := 0;
     im_multicast := false; im_unicast := false; im_wake := false; im_group := no_address; im_running := false;
     im_error := 0; im_dirty := true; im_next_announce := 0; im_worker := None; im_results := []; im_wire := [] |}.

(** ["0.0.0.0"] and ["239.255.75.67"], the defaults. *)
Definition any_interface : list Z := [48; 46; 48; 46; 48; 46; 48].
Definition default_group : list Z := [50; 51; 57; 46; 50; 53; 53; 46; 55; 53; 46; 54; 55].
Definition sample_config (n : Z) : DiscoveryConfig :=
  {| dc_host := sample_host n; dc_boot_id := rt_boot_id (sample_runtime n); dc_profile := default_profile;
     dc_compatibility_policy := CompatibilityPolicy.NETWORK_PROTOCOL; dc_interface_address := any_interface;
     dc_multicast_group := default_group; dc_port := 37651; dc_metadata_port := 0; dc_announce_interval := 1000;
     dc_peer_timeout := 4000; dc_metadata_retry := 200; dc_max_peers := 64 |}.
Definition sample_endpoints (n : Z) : list NetworkEndpointMetadata :=
  [sample_metadata n EndpointKind.TOPIC EndpointRole.PROVIDER].
Definition sample_start (n : Z) : Impl :=
  match Start (sample_config n) (sample_endpoints n) [(- EINTR, 0); (8, 70 + n)] [] 0 idle with
  | Some (_, s) => s
  | None => idle
  end.

Definition quiet : Revents := {| rv_in := false; rv_err := false; rv_hup := false; rv_so_error := 0 |}.
Definition readable : Revents := {| rv_in := true; rv_err := false; rv_hup := false; rv_so_error := 0 |}.
Definition address_of (n : Z) : sockaddr_in := {| sin_family := AF_INET; sin_addr := 0x0a000000 + n; sin_port := 40000 |}.
Definition last_sent (s : option Impl) : list Z :=
  match s with Some s => match last (im_wire s) with Some d => d.2 | None => [] end | None => [] end.
(** One turn of the worker at time [now] in which one datagram arrives. *)
Definition turn (now : Z) (results : list Z) (multicast : bool) (from : Z) (data : list Z) (answers : list Z) : list Event :=
  [EvLoop; EvTick now results; EvPoll (if multicast then PollEvents readable quiet else PollEvents quiet readable);
   EvDrain; EvRecv (RecvFrom (address_of from) data) now answers; EvDrain; EvRecv (RecvError EAGAIN) now []].

Definition announce_bytes (n : Z) : list Z := last_sent (discovery_run [EvLoop; EvTick 1000 [100]] (sample_start n)).
(** The reader hears the announcement and asks; the publisher hears the reader's, then
    its request, and answers. *)
Definition reader_asks : list Event :=
  turn 1000 [100] true 1 (announce_bytes 1) [] ++ [EvLoop; EvTick 2000 [76]].
Definition publisher_events : list Event :=
  turn 1000 [100] true 2 (announce_bytes 2) [] ++
  turn 2000 [76] false 2 (last_sent (discovery_run reader_asks (sample_start 2))) [296].
Definition reader_events : list Event :=
  reader_asks ++ [EvPoll (PollEvents quiet readable); EvDrain;
    EvRecv (RecvFrom (address_of 1) (last_sent (discovery_run publisher_events (sample_start 1)))) 3000 []].


Lemma sample_started n : n = 1 \/ n = 2 -> started (sample_start n).
Proof.
  intros Hn. exists (sample_config n), (sample_endpoints n), [(- EINTR, 0); (8, 70 + n)], [], 0, idle.
  assert (Hu : is_u64 (70 + n) /\ is_u8 n) by (unfold_widths; lia).
  split; [destruct Hn as [->| ->]; vm_compute; reflexivity|].
  split; [destruct Hn as [->| ->]; solve_wf|]. split; [constructor; [|constructor]; destruct Hn as [->| ->]; solve_wf|].
  constructor; [cbn; width|]. constructor; [apply Hu|constructor].
Qed.

Definition known_data (a : Impl) (ev : Event) : bool :=
  match ev with EvRecv (RecvFrom _ data) _ _ => bool_decide (data ∈ (im_wire a).*2) | _ => true end.

(** [typed_event] as a check, for events without metadata. *)
Definition octets (ev : Event) : bool :=
  match ev with
  | EvRecv (RecvFrom _ data) _ _ => forallb (fun b => (0 <=? b) && (b <=? UINT8_MAX)) data
  | EvUpdate _ | EvRegister _ _ => false
  | _ => true
  end.
Lemma octets_typed ev : octets ev = true -> typed_event ev.
Proof.
  destruct ev as [| | | |[|a data] now results| | | | |]; try done. cbn [octets typed_event].
  rewrite forallb_forall. intros H. apply List.Forall_forall. intros x Hx. specialize (H x Hx). unfold is_u8. lia.
Qed.
Lemma all_octets_typed es : forallb octets es = true -> Forall typed_event es.
Proof. rewrite forallb_forall. intros H. apply List.Forall_forall. auto using octets_typed. Qed.

Lemma publisher_typed : Forall typed_event publisher_events.
Proof. apply all_octets_typed. vm_compute. reflexivity. Qed.
Lemma reader_typed : Forall typed_event reader_events.
Proof. apply all_octets_typed. vm_compute. reflexivity. Qed.

Lemma discovery_agreement_witness :
  exists a b e, discovery_run publisher_events (sample_start 1) = Some a /\ discovery_run reader_events (sample_start 2) = Some b /\
    im_peers b = [e] /\ pi_metadata_ready (en_info e) = true /\
    exists k t, discovery_run (take k publisher_events) (sample_start 1) = Some t /\
      im_revision t = pi_metadata_revision (en_info e) /\ pi_endpoints (en_info e) = im_base_metadata t ++ im_consumers t.
Proof.
  assert (Hx : match discovery_run publisher_events (sample_start 1), discovery_run reader_events (sample_start 2) with
    | Some a, Some b => match im_peers b with
        | [e] => pi_metadata_ready (en_info e) && (en_host e =?? dc_host (im_config a)) &&
                 (en_key e =?? (dc_boot_id (im_config a), im_session a)) && forallb (known_data a) reader_events
        | _ => false end
    | _, _ => false end = true) by (vm_compute; reflexivity).
  destruct (discovery_run publisher_events (sample_start 1)) as [a|] eqn:Ha; [|discriminate Hx].
  destruct (discovery_run reader_events (sample_start 2)) as [b|] eqn:Hb; [|discriminate Hx].
  destruct (im_peers b) as [|e [|]] eqn:Hp; [discriminate Hx| |discriminate Hx]. bool_to_prop.
  exists a, b, e. split_and!; auto.
  apply (discovery_agreement (sample_start 1) a publisher_events (sample_start 2) b reader_events e);
    auto using sample_started, publisher_typed, reader_typed.
  - intros address data now results p Hin _ _ _ _.
    match goal with K : forallb _ _ = true |- _ => rewrite forallb_forall in K; specialize (K _ (proj1 (list_elem_of_In _ _) Hin)) end.
    cbn [known_data] in *. bool_to_prop.
    match goal with K : data ∈ _ |- _ => apply list_elem_of_fmap in K as ([to d] & -> & K); exists to; exact K end.
  - rewrite Hp. left.
Defined.

Lemma discovery_table_sound_witness :
  exists s, discovery_run reader_events (sample_start 2) = Some s /\ length (im_peers s) = 1%nat /\
    NoDup (en_host <$> im_peers s).
Proof.
  assert (Hx : match discovery_run reader_events (sample_start 2) with Some b => (length (im_peers b) =? 1)%nat | None => false end = true)
    by (vm_compute; reflexivity).
  destruct (discovery_run reader_events (sample_start 2)) as [b|] eqn:Hb; [|discriminate Hx].
  exists b. split; [done|]. split; [by apply Nat.eqb_eq|].
  apply (discovery_table_sound (sample_start 2) reader_events b); auto using sample_started, reader_typed.
Defined.

(** A second session of host 1, announced while the first one is live, is not adopted. *)
Definition reader_waits : list Event := reader_asks ++ [EvPoll (PollEvents readable quiet); EvDrain].
Definition clone_announce : list Z :=
  last_sent (discovery_run [EvLoop; EvTick 1000 [100]]
    (match Start (sample_config 1) [] [(8, 99)] [] 0 idle with Some (_, s) => s | None => idle end)).

Lemma discovery_first_incarnation_witness :
  exists s s' e e', discovery_run reader_waits (sample_start 2) = Some s /\
    discovery_exec (EvRecv (RecvFrom (address_of 1) clone_announce) 3000 []) s = Some s' /\
    im_peers s = [e] /\ im_peers s' = [e'] /\ en_key e' = en_key e /\
    (same_incarnation (im_config s) 3000 e e' \/ next_incarnation (im_config s) 3000 e e').
Proof.
  assert (Hx : match discovery_run reader_waits (sample_start 2) with
    | Some s => match discovery_exec (EvRecv (RecvFrom (address_of 1) clone_announce) 3000 []) s with
        | Some s' => match im_peers s, im_peers s' with
            | [e], [e'] => (en_key e' =?? en_key e) && (en_host e' =?? en_host e)
            | _, _ => false end
        | None => false end
    | None => false end = true) by (vm_compute; reflexivity).
  destruct (discovery_run reader_waits (sample_start 2)) as [s|] eqn:Hs; [|discriminate Hx].
  destruct (discovery_exec (EvRecv (RecvFrom (address_of 1) clone_announce) 3000 []) s) as [s'|] eqn:Hx'; [|discriminate Hx].
  destruct (im_peers s) as [|e [|]] eqn:Hp; [discriminate Hx| |discriminate Hx].
  destruct (im_peers s') as [|e' [|]] eqn:Hp'; [discriminate Hx| |discriminate Hx]. bool_to_prop.
  exists s, s', e, e'. split_and!; auto.
  apply (discovery_first_incarnation (sample_start 2) reader_waits s
    (EvRecv (RecvFrom (address_of 1) clone_announce) 3000 []) s' e e'); auto using sample_started.
  - apply all_octets_typed. vm_compute. reflexivity.
  - apply octets_typed. vm_compute. reflexivity.
  - rewrite Hp. left.
  - rewrite Hp'. left.
Defined.
