(* ===== verification/ChildProcess.v ===== *)
(** * Child processes

    [Process] of [kcf/src/process.cpp]: starting, signalling, reaping and polling
    one child.  Operations run in a state monad [OsM] over the kernel's side of the
    story: the open descriptors and the log of forks, reapings and signals.  What a
    system call answers is read from the oracle [os], a function of the number of
    calls made so far, so that theorems hold for every behaviour of the kernel.
    The retry loops on [EINTR] are part of one call: the oracle gives the first
    answer that is not [EINTR].  Allocation failures ([std::bad_alloc]) are not
    modelled. *)
From S2P Require Import Prelude ProcessRuntime SystemScope.

(** ** The kernel *)
Inductive WaitAnswer :=
| WaitRunning              (** [waitpid(WNOHANG)] returned 0 *)
| WaitStatus (status : Z)  (** the child was reaped *)
| WaitError (e : positive). (** [errno] *)

(** What the parent reads from the exec pipe. *)
Inductive ExecAnswer :=
| ExecClosed               (** closed by a successful [execve] *)
| ExecFailed (e : positive) (** the whole errno *)
| ExecPartial              (** a truncated errno *)
| ExecReadError (e : positive).

Record RuntimeStatusResponse := {
  rs_magic : Z; rs_protocol_version : Z; rs_packet_type : Z; rs_request_id : Z; rs_pid : Z;
  rs_state : ProcessState; rs_state_valid : bool; (** [state > ProcessState::ERROR] is not [rs_state_valid] *)
  rs_reserved : bool; (** some reserved byte is not 0 *)
  rs_loop_heartbeat : Z; rs_runtime_error : Z
}.
Definition RUNTIME_STATUS_MAGIC : Z := 0x4b435253.
Definition RUNTIME_STATUS_VERSION : Z := 1.
Definition default_status : RuntimeStatusResponse :=
  {| rs_magic := RUNTIME_STATUS_MAGIC; rs_protocol_version := RUNTIME_STATUS_VERSION; rs_packet_type := 2;
     rs_request_id := 0; rs_pid := -1; rs_state := STOPPED; rs_state_valid := true; rs_reserved := false;
     rs_loop_heartbeat := 0; rs_runtime_error := 0 |}.

Inductive RecvAnswer :=
| RecvError (e : Z)
| RecvClosed
| RecvPacket (complete : bool) (value : RuntimeStatusResponse). (** [complete]: of the size of a response *)

Record Os := {
  os_call : nat -> Z;            (** errno of any other call, 0 on success *)
  os_wait : nat -> WaitAnswer;   (** [waitpid] with [WNOHANG] *)
  os_block : nat -> WaitAnswer;  (** [waitpid] without options *)
  os_fork : nat -> Z;            (** the child's pid *)
  os_exec : nat -> ExecAnswer;
  os_send : nat -> Z;            (** bytes sent, or a negative errno *)
  os_recv : nat -> RecvAnswer;
  os_range : nat -> Z * Z;       (** [sched_get_priority_min], [max] *)
  os_cpus : nat -> Z;            (** [sysconf(_SC_NPROCESSORS_CONF)], or a negative errno; 0: unknown *)
  os_clock : nat -> Z;           (** [steady_clock], in nanoseconds *)
  os_stop : nat -> bool;         (** a stop signal or [RequestShutdown] arrived before this read *)
  os_reset : nat -> bool;        (** [RequestReset] was called before this read *)
  os_start_ticks : nat -> Z      (** [/proc/<pid>/stat] start time, 0 when unavailable *)
}.

(** [child] tells whether the pid was, at that moment, a child not yet reaped. *)
Inductive OsEvent :=
| Forked (pid : Z)
| Reaped (pid : Z)                              (** collected, or found not waitable ([ECHILD]) *)
| Signalled (pid signal : Z) (child : bool).

(** The kernel's side: calls answered, events, children not yet reaped, open descriptors,
    and the time up to which the clock has run. *)
Record Kernel := { k_tick : nat; k_log : list OsEvent; k_children : list Z; k_fds : list Z; k_time : Z }.

(** ** The monad *)
Definition OsM (A : Type) : Type := Kernel -> A * Kernel.
Definition os_ret {A} (a : A) : OsM A := fun k => (a, k).
Definition os_bind {A B} (m : OsM A) (f : A -> OsM B) : OsM B := fun k => let (a, k1) := m k in f a k1.
Notation "'let!' x := m 'in' k" := (os_bind m (fun x => k)) (at level 10, x pattern, m at level 100, k at level 200) : kcf_scope.

(** One system call: its answer. *)
Definition ask {A} (answer : nat -> A) : OsM A :=
  fun k => (answer (k_tick k), {| k_tick := S (k_tick k); k_log := k_log k; k_children := k_children k; k_fds := k_fds k; k_time := k_time k |}).

(** [steady_clock::now()], which never goes back, and [sleep_until]. *)
Definition clock_now (clock : nat -> Z) : OsM Z :=
  fun k => let t := Z.max (clock (k_tick k)) (k_time k) in
    (t, {| k_tick := S (k_tick k); k_log := k_log k; k_children := k_children k; k_fds := k_fds k; k_time := t |}).
Definition sleep_until (t : Z) : OsM unit :=
  fun k => (tt, {| k_tick := S (k_tick k); k_log := k_log k; k_children := k_children k; k_fds := k_fds k; k_time := Z.max t (k_time k) |}).

(** A number not in use: the candidate, or one above all those in use. *)
Definition unused (candidate : Z) (used : list Z) : Z :=
  if (0 <? candidate) && bool_decide (candidate ∉ used) then candidate else 1 + foldr Z.max 2 used.

(** [fork]: any pid but that of a child not yet reaped. *)
Definition sys_fork (pid : nat -> Z) : OsM Z :=
  fun k => let child := unused (pid (k_tick k)) (k_children k) in
    (child, {| k_tick := S (k_tick k); k_log := k_log k ++ [Forked child]; k_children := child :: k_children k; k_fds := k_fds k; k_time := k_time k |}).
Definition sys_reap (pid : Z) : OsM unit :=
  fun k => (tt, {| k_tick := k_tick k; k_log := k_log k ++ [Reaped pid];
                   k_children := filter (fun x => x <> pid) (k_children k); k_fds := k_fds k; k_time := k_time k |}).
Definition sys_kill (error : nat -> Z) (pid signal : Z) : OsM Z :=
  fun k => (error (k_tick k),
            {| k_tick := S (k_tick k); k_log := k_log k ++ [Signalled pid signal (bool_decide (pid ∈ k_children k))];
               k_children := k_children k; k_fds := k_fds k; k_time := k_time k |}).
(** A descriptor that is not open. *)
Definition open_fd : OsM Z :=
  fun k => let fd := unused 0 (k_fds k) in
    (fd, {| k_tick := k_tick k; k_log := k_log k; k_children := k_children k; k_fds := fd :: k_fds k; k_time := k_time k |}).
Definition close_fd (fd : Z) : OsM unit :=
  fun k => (tt, {| k_tick := k_tick k; k_log := k_log k; k_children := k_children k; k_fds := filter (fun x => x <> fd) (k_fds k); k_time := k_time k |}).

(** ** Process *)
Inductive SchedulingPolicy := INHERIT | OTHER | FIFO | RR | BAD_POLICY. (** the last: a value outside the enumeration *)
Record ExecutionProfile := { ep_policy : SchedulingPolicy; ep_priority : Z; ep_cpu_affinity : list Z; ep_lock_memory : bool }.
Definition CPU_SETSIZE : Z := 1024.

Record Process := {
  pr_pid : Z;
  pr_exited : bool;
  pr_exit_status : Z;
  pr_supervision_fd : Z;
  pr_pending_request : Z
}.
Definition new_process : Process :=
  {| pr_pid := -1; pr_exited := false; pr_exit_status := 0; pr_supervision_fd := -1; pr_pending_request := 0 |}.

Record ProcessExitInfo := {
  xi_available : bool; xi_exited_normally : bool; xi_exit_code : Z; xi_signaled : bool; xi_signal_number : Z
}.
Definition no_exit_info : ProcessExitInfo :=
  {| xi_available := false; xi_exited_normally := false; xi_exit_code := 0; xi_signaled := false; xi_signal_number := 0 |}.

(** The wait-status macros of [<sys/wait.h>]. *)
Definition WTERMSIG (status : Z) : Z := Z.land status 0x7f.
Definition WIFEXITED (status : Z) : bool := WTERMSIG status =? 0.
Definition WEXITSTATUS (status : Z) : Z := Z.shiftr (Z.land status 0xff00) 8.
Definition WIFSIGNALED (status : Z) : bool := (0 <? WTERMSIG status) && (WTERMSIG status <? 0x7f).

Definition GetExitInfo (p : Process) : ProcessExitInfo :=
  if negb (pr_exited p) then no_exit_info
  else {| xi_available := true;
          xi_exited_normally := WIFEXITED (pr_exit_status p);
          xi_exit_code := if WIFEXITED (pr_exit_status p) then WEXITSTATUS (pr_exit_status p) else 0;
          xi_signaled := WIFSIGNALED (pr_exit_status p);
          xi_signal_number := if WIFSIGNALED (pr_exit_status p) then WTERMSIG (pr_exit_status p) else 0 |}.

Section Process.
Variable os : Os.

Definition CloseSupervision (p : Process) : OsM Process :=
  let! _ := (if 0 <=? pr_supervision_fd p then close_fd (pr_supervision_fd p) else os_ret tt) in
  os_ret {| pr_pid := pr_pid p; pr_exited := pr_exited p; pr_exit_status := pr_exit_status p;
            pr_supervision_fd := -1; pr_pending_request := 0 |}.

(** 1 when reaped, 0 when running, or a negative errno. *)
Definition CollectExit (nohang : bool) (p : Process) : OsM (Z * Process) :=
  let! answer := ask (if nohang then os_wait os else os_block os) in
  match answer with
  | WaitError errno =>
      let e := Z.pos errno in
      if e =? ECHILD then
        let! _ := sys_reap (pr_pid p) in
        let! p' := CloseSupervision {| pr_pid := -1; pr_exited := pr_exited p; pr_exit_status := pr_exit_status p;
                                       pr_supervision_fd := pr_supervision_fd p; pr_pending_request := pr_pending_request p |} in
        os_ret (- e, p')
      else os_ret (- e, p)
  | WaitRunning => os_ret (0, p)
  | WaitStatus status =>
      let! _ := sys_reap (pr_pid p) in
      let! p' := CloseSupervision {| pr_pid := -1; pr_exited := true; pr_exit_status := status;
                                     pr_supervision_fd := pr_supervision_fd p; pr_pending_request := pr_pending_request p |} in
      os_ret (1, p')
  end.

Definition SIGKILL : Z := 9.
Definition SIGTERM : Z := 15.

(** [RequestStop] sends [SIGTERM], [ForceStop] [SIGKILL]. *)
Definition signal_child (signal : Z) (p : Process) : OsM (Z * Process) :=
  if pr_pid p <=? 0 then os_ret (- ESRCH, p) else
  let! (result, p1) := CollectExit true p in
  if negb (result =? 0) then os_ret (if result <? 0 then result else - ESRCH, p1) else
  let! error := sys_kill (os_call os) (pr_pid p1) signal in
  os_ret (- error, p1).
Definition RequestStop (p : Process) : OsM (Z * Process) := signal_child SIGTERM p.
Definition ForceStop (p : Process) : OsM (Z * Process) := signal_child SIGKILL p.

Definition IsRunning (p : Process) : OsM (bool * Process) :=
  if 0 <? pr_pid p then let! (result, p1) := CollectExit true p in os_ret (result =? 0, p1) else os_ret (false, p).

Definition Wait (p : Process) : OsM (Z * Process) :=
  if pr_exited p then os_ret (0, p)
  else if pr_pid p <=? 0 then os_ret (- ECHILD, p)
  else let! (result, p1) := CollectExit false p in os_ret (if result <? 0 then result else 0, p1).

Definition RequestRuntimeStatus (request_id : Z) (p : Process) : OsM (Z * Process) :=
  if pr_supervision_fd p <? 0 then os_ret (- EBADF, p)
  else if request_id =? 0 then os_ret (- EINVAL, p)
  else if negb (pr_pending_request p =? 0) then os_ret (- EBUSY, p)
  else
    let! size := ask (os_send os) in
    if size <? 0 then os_ret (size, p)
    else if negb (size =? 16) then os_ret (- EIO, p)
    else os_ret (0, {| pr_pid := pr_pid p; pr_exited := pr_exited p; pr_exit_status := pr_exit_status p;
                       pr_supervision_fd := pr_supervision_fd p; pr_pending_request := request_id |}).

Definition valid_response (p : Process) (complete : bool) (value : RuntimeStatusResponse) : bool :=
  complete && (rs_magic value =? RUNTIME_STATUS_MAGIC) && (rs_protocol_version value =? RUNTIME_STATUS_VERSION) &&
  (rs_packet_type value =? 2) && (rs_pid value =? pr_pid p) && rs_state_valid value && negb (rs_reserved value).

Definition ReceiveRuntimeStatus (p : Process) : OsM (result RuntimeStatusResponse * Process) :=
  if pr_supervision_fd p <? 0 then os_ret (Err (- EBADF), p) else
  let! answer := ask (os_recv os) in
  os_ret match answer with
  | RecvError e => (Err (- e), p)
  | RecvClosed => (Err (- ECONNRESET), p)
  | RecvPacket complete value =>
      if negb (valid_response p complete value) then (Err (- EPROTO), p)
      else if (pr_pending_request p =? 0) || negb (rs_request_id value =? pr_pending_request p) then (Err (- ESTALE), p)
      else (Ok value, {| pr_pid := pr_pid p; pr_exited := pr_exited p; pr_exit_status := pr_exit_status p;
                         pr_supervision_fd := pr_supervision_fd p; pr_pending_request := 0 |})
  end.

(** ** Start *)
(** The scheduling part of the profile: [-EINVAL] or the errno of the range query. *)
Definition check_policy (profile : ExecutionProfile) : OsM Z :=
  match ep_policy profile with
  | INHERIT => os_ret (if negb (ep_priority profile =? 0) then - EINVAL else 0)
  | BAD_POLICY => os_ret (- EINVAL)
  | OTHER | FIFO | RR =>
      let! (minimum, maximum) := ask (os_range os) in
      os_ret (if minimum <? 0 then minimum else if maximum <? 0 then maximum
              else if (ep_priority profile <? minimum) || (maximum <? ep_priority profile) then - EINVAL else 0)
  end.

Definition check_affinity (profile : ExecutionProfile) : OsM Z :=
  match ep_cpu_affinity profile with
  | [] => os_ret 0
  | cpus =>
      let! configured := ask (os_cpus os) in
      os_ret (if configured <? 0 then configured else if configured =? 0 then - EINVAL
              else if forallb (fun cpu => (0 <=? cpu) && (cpu <? CPU_SETSIZE) && (cpu <? configured)) cpus then 0 else - EINVAL)
  end.

Definition has_nul (s : list Z) : bool := bool_decide (0 ∈ s).

(** What the parent does once the child exists: take ownership, then wait for the
    exec pipe to be closed or to carry an errno. *)
Definition await_exec (child socket pipe_read : Z) (p : Process) : OsM (Z * Process) :=
  let! p1 := CloseSupervision p in
  let p2 := {| pr_pid := child; pr_exited := false; pr_exit_status := 0; pr_supervision_fd := socket;
               pr_pending_request := pr_pending_request p1 |} in
  let! report := ask (os_exec os) in
  let! _ := close_fd pipe_read in
  match report with
  | ExecClosed => os_ret (0, p2)
  | ExecFailed e => let! (_, p3) := Wait p2 in os_ret (- Z.pos e, p3)
  | ExecPartial => let! (_, p3) := RequestStop p2 in let! (_, p4) := Wait p3 in os_ret (- EIO, p4)
  | ExecReadError e => let! (_, p3) := RequestStop p2 in let! (_, p4) := Wait p3 in os_ret (- Z.pos e, p4)
  end.

(** Sockets, pipe and fork. *)
Definition spawn (p : Process) : OsM (Z * Process) :=
  let! error := ask (os_call os) in
  if negb (error =? 0) then os_ret (- error, p) else
  let! parent_end := open_fd in
  let! child_end := open_fd in
  let! error := ask (os_call os) in
  if negb (error =? 0) then
    let! _ := close_fd parent_end in let! _ := close_fd child_end in os_ret (- error, p)
  else
  let! pipe_read := open_fd in
  let! pipe_write := open_fd in
  let! error := ask (os_call os) in
  if negb (error =? 0) then
    let! _ := close_fd pipe_read in let! _ := close_fd pipe_write in
    let! _ := close_fd parent_end in let! _ := close_fd child_end in os_ret (- error, p)
  else
  let! child := sys_fork (os_fork os) in
  let! _ := close_fd pipe_write in
  let! _ := close_fd child_end in
  await_exec child parent_end pipe_read p.

(** The checks on the caller's arguments, before any descriptor is opened. *)
Definition check_launch (executable : list Z) (args : list (list Z)) (scope : list Z) : Z :=
  if bool_decide (executable = []) || has_nul executable then - EINVAL
  else match SystemStatusName scope with
       | Err e => e
       | Ok _ => if existsb has_nul args then - EINVAL else 0
       end.

Definition launch (executable : list Z) (args : list (list Z)) (scope : list Z) (profile : ExecutionProfile)
    (p : Process) : OsM (Z * Process) :=
  let! policy := check_policy profile in
  if negb (policy =? 0) then os_ret (policy, p) else
  let! affinity := check_affinity profile in
  if negb (affinity =? 0) then os_ret (affinity, p) else
  let arguments := check_launch executable args scope in
  if negb (arguments =? 0) then os_ret (arguments, p) else spawn p.

Definition Start (executable : list Z) (args : list (list Z)) (scope : list Z) (profile : ExecutionProfile)
    (p : Process) : OsM (Z * Process) :=
  if 0 <? pr_pid p then
    let! (result, p1) := CollectExit true p in
    if result <=? 0 then os_ret (if result =? 0 then - EBUSY else result, p1)
    else launch executable args scope profile p1
  else launch executable args scope profile p.
End Process.

(** ** Using one child *)
Inductive ProcessOperation :=
| OpStart (executable : list Z) (args : list (list Z)) (scope : list Z) (profile : ExecutionProfile)
| OpRequestStop
| OpForceStop
| OpIsRunning
| OpWait
| OpRequestRuntimeStatus (request_id : Z)
| OpReceiveRuntimeStatus.

Definition process_operation (os : Os) (op : ProcessOperation) (p : Process) : OsM Process :=
  match op with
  | OpStart executable args scope profile => let! (_, p') := Start os executable args scope profile p in os_ret p'
  | OpRequestStop => let! (_, p') := RequestStop os p in os_ret p'
  | OpForceStop => let! (_, p') := ForceStop os p in os_ret p'
  | OpIsRunning => let! (_, p') := IsRunning os p in os_ret p'
  | OpWait => let! (_, p') := Wait os p in os_ret p'
  | OpRequestRuntimeStatus request_id => let! (_, p') := RequestRuntimeStatus os request_id p in os_ret p'
  | OpReceiveRuntimeStatus => let! (_, p') := ReceiveRuntimeStatus os p in os_ret p'
  end.

Fixpoint process_operations (os : Os) (ops : list ProcessOperation) (p : Process) : OsM Process :=
  match ops with
  | [] => os_ret p
  | op :: rest => let! p' := process_operation os op p in process_operations os rest p'
  end.
