(* ===== verification/ProcessSafety.v ===== *)
(** * Child processes: ownership of pids and descriptors *)
From S2P Require Import Prelude ProcessRuntime SystemScope ChildProcess.

(** ** What a [Process] owns *)
Definition own_pid (p : Process) : list Z := if 0 <? pr_pid p then [pr_pid p] else [].
Definition own_fd (p : Process) : list Z := if 0 <=? pr_supervision_fd p then [pr_supervision_fd p] else [].

(** Every signal went to a child not yet reaped. *)
Definition signal_ok (e : OsEvent) : Prop := match e with Signalled _ _ child => child = true | _ => True end.

(** What a log tells of the children forked in it: those not yet reaped; [None] when a pid that
    is not one of them is signalled or reaped. *)
Definition follow_event (mine : option (list Z)) (e : OsEvent) : option (list Z) :=
  mine ≫= fun mine => match e with
  | Forked pid => Some (pid :: mine)
  | Reaped pid => if bool_decide (pid ∈ mine) then Some (filter (fun x => x <> pid) mine) else None
  | Signalled pid _ _ => if bool_decide (pid ∈ mine) then Some mine else None
  end.
Definition follow (log : list OsEvent) : option (list Z) := foldl follow_event (Some []) log.
Lemma follow_snoc log e : follow (log ++ [e]) = follow_event (follow log) e.
Proof. unfold follow. by rewrite foldl_app. Qed.
(** A moment of the program: the log up to it, and the children it had. *)
Class Moment := { mo_log : list OsEvent; mo_children : list Z }.
(** Since that moment, signals and reaping concern only children forked since. *)
Definition traced `{Moment} (others : list Z) (k : Kernel) : Prop :=
  mo_children ⊆+ others /\ exists since mine, k_log k = mo_log ++ since /\ follow since = Some mine /\ k_children k ≡ₚ mine ++ mo_children.
(** A pid that is none of the [others] was forked since. *)
Lemma traced_mine `{Moment} others k pid : traced others k -> NoDup (k_children k) -> k_children k ≡ₚ pid :: others ->
  exists since mine, k_log k = mo_log ++ since /\ follow since = Some mine /\ k_children k ≡ₚ mine ++ mo_children /\ pid ∈ mine.
Proof.
  intros [[x Hb]%submseteq_Permutation (since & mine & El & Ef & Ec)] Hn Hc. exists since, mine. split_and!; try done.
  assert (Hin : pid ∈ mine ++ mo_children) by (rewrite <- Ec, Hc; apply elem_of_cons; by left).
  apply elem_of_app in Hin as [?|Hin]; [done|]. exfalso. rewrite Hc in Hn. apply NoDup_cons in Hn as [Hn _]. apply Hn. rewrite Hb. apply elem_of_app. by left.
Qed.

Lemma traced_now k : @traced {| mo_log := k_log k; mo_children := k_children k |} (k_children k) k.
Proof. split; [done|]. exists [], []. by rewrite app_nil_r. Qed.

(** The kernel's children are [p]'s and [others], its descriptors [p]'s and [rest]. *)
Record holds `{Moment} (p : Process) (others rest : list Z) (k : Kernel) : Prop := {
  ho_children : k_children k ≡ₚ own_pid p ++ others;
  ho_children_nodup : NoDup (k_children k);
  ho_fds : k_fds k ≡ₚ own_fd p ++ rest;
  ho_fds_nodup : NoDup (k_fds k);
  ho_signals : Forall signal_ok (k_log k);
  ho_traced : traced others k
}.

Lemma max_bound x l : x ∈ l -> x <= foldr Z.max 2 l.
Proof. induction l as [|y l IH]; intros H; [by apply not_elem_of_nil in H|]. apply elem_of_cons in H as [->|H]; simpl; [lia|]. specialize (IH H). lia. Qed.
Lemma max_base l : 2 <= foldr Z.max 2 l.
Proof. induction l; simpl; lia. Qed.
Lemma unused_fresh c l : unused c l ∉ l.
Proof.
  unfold unused. case_match eqn:E.
  - apply andb_prop in E as [_ E]. by apply bool_decide_eq_true_1 in E.
  - intros H%max_bound. lia.
Qed.
Lemma unused_positive c l : 0 < unused c l.
Proof. unfold unused. case_match eqn:E; [apply andb_prop in E as [? _]; lia|]. pose proof (max_base l). lia. Qed.

Lemma filter_own x (l r : list Z) : NoDup l -> l ≡ₚ x :: r -> filter (fun y => y <> x) l ≡ₚ r.
Proof.
  intros Hn Hp. rewrite Hp in Hn |- *. apply NoDup_cons in Hn as [Hx _].
  rewrite filter_cons_False by (intros H; by apply H).
  assert (filter (fun y => y <> x) r = r) as ->; [|done]. clear Hp.
  induction r as [|y r IH]; [done|]. apply not_elem_of_cons in Hx as [? ?]. rewrite filter_cons_True by congruence. f_equal. auto.
Qed.

(** ** Triples *)
Definition triple {A} (P : Kernel -> Prop) (m : OsM A) (Q : A -> Kernel -> Prop) : Prop :=
  forall k, P k -> Q (m k).1 (m k).2.

Lemma triple_ret {A} (P : Kernel -> Prop) (a : A) (Q : A -> Kernel -> Prop) : (forall k, P k -> Q a k) -> triple P (os_ret a) Q.
Proof. intros H k Hk. by apply H. Qed.
Lemma triple_bind {A B} P (m : OsM A) (f : A -> OsM B) Q R :
  triple P m Q -> (forall a, triple (Q a) (f a) R) -> triple P (os_bind m f) R.
Proof.
  intros Hm Hf k Hk. unfold os_bind. specialize (Hm k Hk). destruct (m k) as [a k1]. by apply Hf.
Qed.
Lemma triple_conseq {A} (P P' : Kernel -> Prop) (m : OsM A) (Q Q' : A -> Kernel -> Prop) :
  triple P' m Q' -> (forall k, P k -> P' k) -> (forall a k, Q' a k -> Q a k) -> triple P m Q.
Proof. intros Hm HP HQ k Hk. by apply HQ, Hm, HP. Qed.

(** The supervision socket is open exactly while the child is owned. *)
Definition paired (p : Process) : Prop := 0 <= pr_supervision_fd p -> 0 < pr_pid p.

Section Process.
Context `{Moment}.
Variable os : Os.
Variables others rest : list Z.

(** An operation that returns the new [Process] with a result keeps ownership exact. *)
Definition keeps {A} (p : Process) (m : OsM (A * Process)) : Prop :=
  paired p -> triple (holds p others rest) m (fun r k => holds r.2 others rest k /\ paired r.2).

Lemma ask_holds {A} (answer : nat -> A) p l : triple (holds p others l) (ask answer) (fun _ => holds p others l).
Proof. intros k []. by constructor. Qed.

Lemma close_holds fd p l : triple (holds p others (fd :: l)) (close_fd fd) (fun _ => holds p others l).
Proof.
  intros k [Hc Hcn Hf Hfn Hs]. constructor; try done; simpl.
  - apply filter_own; [done|]. rewrite Hf. by rewrite Permutation_middle.
  - by apply NoDup_filter.
Qed.
Lemma open_holds p l : triple (holds p others l) open_fd (fun fd => holds p others (fd :: l)).
Proof.
  intros k [Hc Hcn Hf Hfn Hs]. constructor; try done; simpl.
  - etrans; [by apply perm_skip, Hf|]. by rewrite Permutation_middle.
  - apply NoDup_cons. split; [apply unused_fresh|done].
Qed.

(** The same [Process] without its socket. *)
Definition closed (p : Process) : Process :=
  {| pr_pid := pr_pid p; pr_exited := pr_exited p; pr_exit_status := pr_exit_status p; pr_supervision_fd := -1; pr_pending_request := 0 |}.

Lemma close_supervision_holds p l : triple (holds p others l) (CloseSupervision p) (fun p' k => holds p' others l k /\ p' = closed p).
Proof.
  unfold CloseSupervision. intros k [Hc Hcn Hf Hfn Hs]. unfold own_fd in Hf.
  destruct (0 <=? pr_supervision_fd p) eqn:E; simpl in *; (split; [|done]); constructor; try done; simpl.
  - by apply filter_own.
  - by apply NoDup_filter.
Qed.

Lemma reap_holds p q l : 0 < pr_pid p -> pr_pid q = -1 -> pr_supervision_fd q = pr_supervision_fd p ->
  triple (holds p others l) (sys_reap (pr_pid p)) (fun _ => holds q others l).
Proof.
  intros Hp Hq Hfd k [Hc Hcn Hf Hfn Hs Ht]. unfold own_pid, own_fd in *.
  rewrite (proj2 (Z.ltb_lt _ _) Hp) in Hc. destruct (traced_mine _ _ _ Ht Hcn Hc) as (since & mine & El & Ef & Em & Hin). constructor; simpl.
  - unfold own_pid. rewrite Hq. simpl. by apply filter_own.
  - by apply NoDup_filter.
  - unfold own_fd. by rewrite Hfd.
  - done.
  - apply Forall_app. split; [done|]. by constructor.
  - split; [apply Ht|]. exists (since ++ [Reaped (pr_pid p)]), (filter (fun x => x <> pr_pid p) mine). split_and!.
    + by rewrite El, <- app_assoc.
    + rewrite follow_snoc, Ef. simpl. by rewrite bool_decide_eq_true_2.
    + simpl. rewrite Em, filter_app. f_equiv. rewrite Em in Hcn. apply NoDup_app in Hcn as (_ & Hd & _).
      clear -Hd Hin. assert (Hnot : pr_pid p ∉ mo_children) by auto. induction mo_children as [|x l IH]; [done|]. apply not_elem_of_cons in Hnot as [? ?].
      rewrite filter_cons_True by congruence. f_equiv. apply IH; [|done]. intros y Hy Hl. apply (Hd y Hy). apply elem_of_cons. by right.
Qed.

(** The two ways a child is given up. *)
Lemma reap_close_holds (p q : Process) (result : Z) : 0 < pr_pid p -> pr_pid q = -1 -> pr_supervision_fd q = pr_supervision_fd p -> result <> 0 ->
  triple (holds p others rest)
    (let! _ := sys_reap (pr_pid p) in let! p' := CloseSupervision q in os_ret (result, p'))
    (fun r k => (holds r.2 others rest k /\ paired r.2) /\ (r.1 = 0 -> r.2 = p) /\ (0 < r.1 -> pr_pid r.2 <= 0)).
Proof.
  intros Hp Hq Hfd Hz. eapply triple_bind; [by apply reap_holds|intros ?]. eapply triple_bind; [apply close_supervision_holds|].
  intros p'. apply triple_ret. intros k [Hk ->]. split_and!; try done; [by unfold paired|]. simpl. lia.
Qed.

Lemma collect_holds nohang p : 0 < pr_pid p -> paired p ->
  triple (holds p others rest) (CollectExit os nohang p)
    (fun r k => (holds r.2 others rest k /\ paired r.2) /\ (r.1 = 0 -> r.2 = p) /\ (0 < r.1 -> pr_pid r.2 <= 0)).
Proof.
  intros Hp Hpair. unfold CollectExit. eapply triple_bind; [apply ask_holds|]. intros [|status|e]; cbv beta iota zeta.
  - apply triple_ret. intros k Hk. split_and!; try done.
  - by apply reap_close_holds.
  - destruct (Z.eqb_spec (Z.pos e) ECHILD) as [E|]; [by apply reap_close_holds|].
    apply triple_ret. intros k Hk. split_and!; try done.
Qed.

(** After a [CollectExit] that ended the operation, or with the child still there. *)
Ltac after_collect :=
  eapply triple_bind; [by apply collect_holds|]; intros [result p1]; simpl.

Lemma signal_keeps signal p : keeps p (signal_child os signal p).
Proof.
  intros Hpair. unfold signal_child. destruct (Z.leb_spec (pr_pid p) 0) as [|Hp]; [by apply triple_ret|].
  after_collect. destruct (Z.eqb_spec result 0) as [->|]; simpl; [|apply triple_ret; naive_solver].
  intros k [[Hk Hp1] [E _]]. rewrite E in * by done. destruct Hk as [Hc Hcn Hf Hfn Hs Ht]. split; [|done].
  assert (Hc' := Hc). unfold own_pid in Hc'. rewrite (proj2 (Z.ltb_lt _ _) Hp) in Hc'. destruct (traced_mine _ _ _ Ht Hcn Hc') as (since & mine & El & Ef & Em & Hin).
  constructor; try done; simpl.
  - apply Forall_app. split; [done|]. constructor; [|constructor]. simpl. apply bool_decide_eq_true_2. rewrite Hc'. apply elem_of_cons. by left.
  - split; [apply Ht|]. eexists (since ++ [_]), mine. split_and!; [simpl; by rewrite El, <- app_assoc| |done]. rewrite follow_snoc, Ef. simpl. by rewrite bool_decide_eq_true_2.
Qed.

Lemma is_running_keeps p : keeps p (IsRunning os p).
Proof.
  intros Hpair. unfold IsRunning. destruct (Z.ltb_spec 0 (pr_pid p)) as [Hp|]; [|by apply triple_ret].
  after_collect. apply triple_ret. naive_solver.
Qed.
Lemma wait_keeps p : keeps p (Wait os p).
Proof.
  intros Hpair. unfold Wait. destruct (pr_exited p); [by apply triple_ret|].
  destruct (Z.leb_spec (pr_pid p) 0) as [|Hp]; [by apply triple_ret|].
  after_collect. apply triple_ret. naive_solver.
Qed.

(** Ownership depends only on the pid and the socket. *)
Lemma holds_same p q l k : pr_pid q = pr_pid p -> pr_supervision_fd q = pr_supervision_fd p -> holds p others l k -> holds q others l k.
Proof. intros Hp Hf [? ? ? ? ?]. constructor; try done; unfold own_pid, own_fd in *; by rewrite ?Hp, ?Hf. Qed.

Lemma request_status_keeps id p : keeps p (RequestRuntimeStatus os id p).
Proof.
  intros Hpair. unfold RequestRuntimeStatus. repeat case_match; try (by apply triple_ret).
  eapply triple_bind; [apply ask_holds|]. intros size. repeat case_match; apply triple_ret; try done.
  intros k Hk. split; [by apply (holds_same p)|done].
Qed.
Lemma receive_status_keeps p : keeps p (ReceiveRuntimeStatus os p).
Proof.
  intros Hpair. unfold ReceiveRuntimeStatus. case_match; [by apply triple_ret|].
  eapply triple_bind; [apply ask_holds|]. intros answer. apply triple_ret. intros k Hk. repeat case_match; simpl; try done.
  split; [by apply (holds_same p)|done].
Qed.

(** ** Start *)
Lemma seq_keeps {A B} p (m : OsM (A * Process)) (f : A -> Process -> OsM (B * Process)) :
  keeps p m -> (forall a q, keeps q (f a q)) -> keeps p (os_bind m (fun r => let (a, q) := r in f a q)).
Proof.
  intros Hm Hf Hpair. eapply triple_bind; [by apply Hm|]. intros [a q]. simpl.
  intros k [Hk Hq]. by apply (Hf a q).
Qed.

Lemma await_exec_keeps child socket pipe_read p : 0 < child -> 0 < socket -> pr_supervision_fd p < 0 ->
  triple (fun k => k_children k ≡ₚ child :: others /\ NoDup (k_children k) /\ k_fds k ≡ₚ socket :: pipe_read :: rest /\
                   NoDup (k_fds k) /\ Forall signal_ok (k_log k) /\ traced others k)
    (await_exec os child socket pipe_read p) (fun r k => holds r.2 others rest k /\ paired r.2).
Proof.
  intros Hchild Hsocket Hfd. unfold await_exec.
  set (p2 := {| pr_pid := child; pr_exited := false; pr_exit_status := 0; pr_supervision_fd := socket; pr_pending_request := 0 |}).
  assert (Hp2 : paired p2) by (intros _; done).
  apply (triple_bind _ _ _ (fun p1 k => p1 = closed p /\ holds p2 others (pipe_read :: rest) k)).
  { intros k (Hc & Hcn & Hf & Hfn & Hs & Ht). unfold CloseSupervision. rewrite (proj2 (Z.leb_gt _ _) Hfd).
    split; [done|]. constructor; try done; unfold own_pid, own_fd; simpl.
    - by rewrite (proj2 (Z.ltb_lt _ _) Hchild).
    - rewrite (proj2 (Z.leb_le _ _)) by lia. done. }
  intros p1. apply (triple_bind _ _ _ (fun _ k => p1 = closed p /\ holds p2 others (pipe_read :: rest) k)).
  { intros k [? Hk]. split; [done|]. by apply ask_holds. }
  intros report. apply (triple_bind _ _ _ (fun _ k => p1 = closed p /\ holds p2 others rest k)).
  { intros k [? Hk]. split; [done|]. by apply close_holds. }
  intros _ k [-> Hk]. change (pr_pending_request (closed p)) with 0. fold p2. revert k Hk.
  change (triple (holds p2 others rest)
    match report with
    | ExecClosed => os_ret (0, p2)
    | ExecFailed e => let! (_, p3) := Wait os p2 in os_ret (- Z.pos e, p3)
    | ExecPartial => let! (_, p3) := RequestStop os p2 in let! (_, p4) := Wait os p3 in os_ret (- EIO, p4)
    | ExecReadError e => let! (_, p3) := RequestStop os p2 in let! (_, p4) := Wait os p3 in os_ret (- Z.pos e, p4)
    end (fun r k => holds r.2 others rest k /\ paired r.2)).
  destruct report as [|e| |e]; [by apply triple_ret|..]; apply (fun H => H Hp2).
  - apply (seq_keeps p2); [apply wait_keeps|]. intros ???. by apply triple_ret.
  - apply (seq_keeps p2); [apply signal_keeps|]. intros _ q. apply (seq_keeps q); [apply wait_keeps|]. intros ???. by apply triple_ret.
  - apply (seq_keeps p2); [apply signal_keeps|]. intros _ q. apply (seq_keeps q); [apply wait_keeps|]. intros ???. by apply triple_ret.
Qed.
End Process.

Lemma holds_perm `{Moment} p others l l' k : l ≡ₚ l' -> holds p others l k -> holds p others l' k.
Proof. intros Hl [? ? Hf ? ?]. constructor; try done. by rewrite Hf, Hl. Qed.

(** Any one of the descriptors held can be closed. *)
Lemma close_any `{Moment} fd p others l l' : l ≡ₚ fd :: l' -> triple (holds p others l) (close_fd fd) (fun _ => holds p others l').
Proof. intros Hl k Hk. apply (close_holds others fd). by eapply holds_perm. Qed.

Lemma and_const {A} (P : Kernel -> Prop) (m : OsM A) (Q : A -> Kernel -> Prop) (C : Prop) :
  triple P m Q -> triple (fun k => P k /\ C) m (fun a k => Q a k /\ C).
Proof. intros H k [Hk HC]. split; [by apply H|done]. Qed.

Section Start.
Context `{Moment}.
Variable os : Os.
Variables others rest : list Z.

(** The kernel after [fork], before the parent takes ownership of the child. *)
Definition forked (child : Z) (fds : list Z) (k : Kernel) : Prop :=
  k_children k ≡ₚ child :: others /\ NoDup (k_children k) /\ k_fds k ≡ₚ fds /\ NoDup (k_fds k) /\ Forall signal_ok (k_log k) /\ traced others k.

Lemma fork_spawned p l : pr_pid p <= 0 -> pr_supervision_fd p < 0 ->
  triple (holds p others l) (sys_fork (os_fork os)) (fun child k => forked child l k /\ 0 < child).
Proof.
  intros Hp Hfd k [Hc Hcn Hf Hfn Hs [Hb (since & mine & El & Ef & Em)]]. unfold forked, own_pid, own_fd in *. simpl.
  rewrite (proj2 (Z.ltb_ge _ _) Hp) in Hc. rewrite (proj2 (Z.leb_gt _ _) Hfd) in Hf. split_and!; try done.
  - by apply perm_skip.
  - apply NoDup_cons. split; [apply unused_fresh|done].
  - apply Forall_app. split; [done|]. by constructor.
  - split; [done|]. eexists (since ++ [_]), (_ :: mine). split_and!; [simpl; by rewrite El, <- app_assoc|by rewrite follow_snoc, Ef|]. simpl. by apply perm_skip.
  - apply unused_positive.
Qed.

Lemma close_forked fd child l l' : l ≡ₚ fd :: l' -> triple (forked child l) (close_fd fd) (fun _ => forked child l').
Proof.
  intros Hl k (Hc & Hcn & Hf & Hfn & Hs & Ht). split; [done|]. split; [done|]. split; [|split; [by apply NoDup_filter|done]]. simpl.
  apply filter_own; [done|]. by rewrite Hf.
Qed.

Lemma spawn_child_keeps p fd1 fd2 fd3 fd4 : pr_pid p <= 0 -> paired p -> 0 < fd1 ->
  triple (holds p others (fd4 :: fd3 :: fd2 :: fd1 :: rest))
    (let! child := sys_fork (os_fork os) in let! _ := close_fd fd4 in let! _ := close_fd fd2 in await_exec os child fd1 fd3 p)
    (fun r k => holds r.2 others rest k /\ paired r.2).
Proof.
  intros Hp Hpair Hfd1. assert (Hfd : pr_supervision_fd p < 0) by (unfold paired in Hpair; lia).
  eapply triple_bind; [by apply fork_spawned|]. intros child.
  eapply triple_bind; [by apply and_const, (close_forked fd4 child _ (fd3 :: fd2 :: fd1 :: rest))|]. intros ?.
  eapply triple_bind; [apply and_const, (close_forked fd2 child _ (fd1 :: fd3 :: rest)),
    (Permutation_middle [fd2; fd1] rest fd3)|]. intros ? k [Hk Hchild].
  by apply (await_exec_keeps os others rest).
Qed.

Lemma spawn_keeps p : pr_pid p <= 0 -> keeps others rest p (spawn os p).
Proof.
  intros Hp Hpair. unfold spawn. eapply triple_bind; [apply ask_holds|]. intros e1.
  destruct (negb (e1 =? 0)); [by apply triple_ret|].
  apply (triple_bind _ _ _ (fun fd k => holds p others (fd :: rest) k /\ 0 < fd)).
  { intros k Hk. split; [by apply open_holds|]. apply unused_positive. }
  intros fd1. eapply triple_bind; [apply and_const, open_holds|]. intros fd2.
  eapply triple_bind; [apply and_const, ask_holds|]. intros e2. destruct (negb (e2 =? 0)).
  { eapply triple_bind; [apply and_const, (close_any fd1 p others _ (fd2 :: rest)), perm_swap|intros ?].
    eapply triple_bind; [by apply and_const, (close_any fd2 p others _ rest)|intros ?].
    apply triple_ret. by intros k [? _]. }
  eapply triple_bind; [apply and_const, open_holds|]. intros fd3.
  eapply triple_bind; [apply and_const, open_holds|]. intros fd4.
  eapply triple_bind; [apply and_const, ask_holds|]. intros e3. destruct (negb (e3 =? 0)).
  { eapply triple_bind; [apply and_const, (close_any fd3 p others _ (fd4 :: fd2 :: fd1 :: rest)), perm_swap|intros ?].
    eapply triple_bind; [by apply and_const, (close_any fd4 p others _ (fd2 :: fd1 :: rest))|intros ?].
    eapply triple_bind; [apply and_const, (close_any fd1 p others _ (fd2 :: rest)), perm_swap|intros ?].
    eapply triple_bind; [by apply and_const, (close_any fd2 p others _ rest)|intros ?].
    apply triple_ret. by intros k [? _]. }
  intros k [Hk Hfd]. by apply (spawn_child_keeps p fd1 fd2 fd3 fd4).
Qed.

Lemma launch_keeps executable args scope profile p : pr_pid p <= 0 -> keeps others rest p (launch os executable args scope profile p).
Proof.
  intros Hp Hpair. unfold launch.
  assert (Hpolicy : triple (holds p others rest) (check_policy os profile) (fun _ => holds p others rest)).
  { unfold check_policy. destruct (ep_policy profile); try (by apply triple_ret);
      (eapply triple_bind; [apply ask_holds|]; intros [??]; by apply triple_ret). }
  assert (Haffinity : triple (holds p others rest) (check_affinity os profile) (fun _ => holds p others rest)).
  { unfold check_affinity. destruct (ep_cpu_affinity profile); [by apply triple_ret|].
    eapply triple_bind; [apply ask_holds|]. intros ?. by apply triple_ret. }
  eapply triple_bind; [exact Hpolicy|]. intros a. destruct (negb (a =? 0)); [by apply triple_ret|].
  eapply triple_bind; [exact Haffinity|]. intros b. destruct (negb (b =? 0)); [by apply triple_ret|].
  destruct (negb _); [by apply triple_ret|]. by apply spawn_keeps.
Qed.
End Start.

Lemma start_keeps `{Moment} os others rest executable args scope profile p : keeps others rest p (Start os executable args scope profile p).
Proof.
  intros Hpair. unfold Start. destruct (Z.ltb_spec 0 (pr_pid p)) as [Hp|Hp]; [|by apply launch_keeps].
  eapply triple_bind; [by apply collect_holds|]. intros [result p1]. simpl.
  destruct (Z.leb_spec result 0) as [Hr|Hr]; [apply triple_ret; naive_solver|].
  intros k [[Hk Hp1] [_ Hpid]]. apply launch_keeps; auto.
Qed.

Lemma operation_keeps `{Moment} os others rest op p : paired p ->
  triple (holds p others rest) (process_operation os op p) (fun p' k => holds p' others rest k /\ paired p').
Proof.
  intros Hpair. destruct op; simpl.
  all: eapply triple_bind; [first [by apply start_keeps|by apply signal_keeps|by apply is_running_keeps|by apply wait_keeps
       |by apply request_status_keeps|by apply receive_status_keeps]|]; intros [a q]; by apply triple_ret.
Qed.

Lemma operations_keep `{Moment} os others rest ops p : paired p ->
  triple (holds p others rest) (process_operations os ops p) (fun p' k => holds p' others rest k /\ paired p').
Proof.
  revert p. induction ops as [|op ops IH]; intros p Hpair; simpl; [by apply triple_ret|].
  eapply triple_bind; [by apply operation_keeps|]. intros q k [Hk Hq]. by apply IH.
Qed.

(** ** The pid *)
(** No operation but [Start] makes a pid appear. *)
Definition tame (p p' : Process) : Prop := (pr_pid p' = pr_pid p /\ pr_exited p' = pr_exited p) \/ pr_pid p' <= 0.
#[export] Instance tame_preorder : PreOrder tame.
Proof. unfold tame. split; [left; done|]. intros p q r [[-> ->]|H] [[-> ->]|H']; naive_solver. Qed.
(** A child that was collected is not owned any more. *)
Definition exited_ok (p : Process) : Prop := pr_exited p = true -> pr_pid p <= 0.
Lemma tame_exited p p' : tame p p' -> exited_ok p -> exited_ok p'.
Proof. unfold tame, exited_ok. intros [[-> ->]|H]; auto. Qed.
Lemma tame_gone p p' : tame p p' -> pr_pid p <= 0 -> pr_pid p' <= 0.
Proof. unfold tame. intros [[-> _]|H]; auto. Qed.

Section Pid.
Variable os : Os.
(** [waitpid] without [WNOHANG] collects the child or reports that there is none. *)
Hypothesis block_collects : forall n, match os_block os n with WaitStatus _ => True | WaitError e => Z.pos e = ECHILD | WaitRunning => False end.

Lemma reap_close_pid (p q : Process) (result : Z) k : pr_pid q = -1 ->
  let '(_, p', _) := (let! _ := sys_reap (pr_pid p) in let! p' := CloseSupervision q in os_ret (result, p')) k in pr_pid p' = -1.
Proof. intros Hq. unfold CloseSupervision, os_bind, sys_reap, os_ret, close_fd. by destruct (0 <=? pr_supervision_fd q). Qed.

Lemma collect_pid nohang p k : let '(result, p', _) := CollectExit os nohang p k in tame p p' /\ (nohang = false -> pr_pid p' <= 0).
Proof.
  assert (Hgone : forall p', pr_pid p' = -1 -> tame p p' /\ (nohang = false -> pr_pid p' <= 0)) by (intros p' E; unfold tame; split; [right|]; lia).
  unfold CollectExit. unfold os_bind at 1. unfold ask at 1. cbv beta iota.
  pose proof (block_collects (k_tick k)) as Hb.
  assert (Hblock : nohang = false -> (if nohang then os_wait os else os_block os) (k_tick k) = os_block os (k_tick k)) by by intros ->.
  destruct ((if nohang then os_wait os else os_block os) (k_tick k)) as [|status|e].
  - split; [done|]. intros Hn. by rewrite <- Hblock in Hb.
  - match goal with |- context [(let! _ := sys_reap _ in let! _ := CloseSupervision ?q in _) ?k1] =>
      pose proof (reap_close_pid p q 1 k1 eq_refl) as Hr end.
    match type of Hr with context [(let! _ := _ in _) ?k1] => destruct ((let! _ := _ in _) k1) as [[r p'] k2] end. auto.
  - cbv zeta. destruct (Z.eqb_spec (Z.pos e) ECHILD) as [E|E].
    + match goal with |- context [(let! _ := sys_reap _ in let! _ := CloseSupervision ?q in _) ?k1] =>
        pose proof (reap_close_pid p q (- Z.pos e) k1 eq_refl) as Hr end.
      match type of Hr with context [(let! _ := _ in _) ?k1] => destruct ((let! _ := _ in _) k1) as [[r p'] k2] end. auto.
    + split; [done|]. intros Hn. by rewrite <- Hblock in Hb.
Qed.

Lemma is_running_pid p k : let '(alive, p', _) := IsRunning os p k in tame p p'.
Proof.
  unfold IsRunning, os_bind, os_ret. destruct (0 <? pr_pid p); [|done].
  pose proof (collect_pid true p k) as H. destruct (CollectExit os true p k) as [[r q] k1]. exact (proj1 H).
Qed.
Lemma signal_pid signal p k : let '(result, p', _) := signal_child os signal p k in tame p p'.
Proof.
  unfold signal_child, os_bind, os_ret. destruct (pr_pid p <=? 0); [done|].
  pose proof (collect_pid true p k) as H. destruct (CollectExit os true p k) as [[r q] k1]. destruct H as [H _].
  by destruct (negb (r =? 0)).
Qed.
Lemma request_pid id p k : let '(result, p', _) := RequestRuntimeStatus os id p k in tame p p'.
Proof. unfold RequestRuntimeStatus, os_bind, ask, os_ret. repeat case_match; simplify_eq/=; by left. Qed.
Lemma receive_pid p k : let '(result, p', _) := ReceiveRuntimeStatus os p k in tame p p'.
Proof. unfold ReceiveRuntimeStatus, os_bind, ask, os_ret. repeat case_match; simplify_eq/=; by left. Qed.
Lemma wait_pid p k : exited_ok p -> let '(result, p', _) := Wait os p k in tame p p' /\ pr_pid p' <= 0.
Proof.
  intros Hp. unfold Wait, os_bind, os_ret. destruct (pr_exited p) eqn:E; [split; [done|auto]|].
  destruct (Z.leb_spec (pr_pid p) 0); [done|].
  pose proof (collect_pid false p k) as H'. destruct (CollectExit os false p k) as [[r q] k1]. naive_solver.
Qed.

(** [Start] that succeeds owns a running child; [Start] that fails owns none it made. *)
Definition start_post (p : Process) (result : Z) (p' : Process) : Prop :=
  exited_ok p' /\ (pr_pid p <= 0 -> result <> 0 -> pr_pid p' <= 0).

Lemma await_exec_pid child socket pipe_read p k : 
  let '(result, p', _) := await_exec os child socket pipe_read p k in exited_ok p' /\ (result <> 0 -> pr_pid p' <= 0).
Proof.
  unfold await_exec, os_bind, ask, os_ret. destruct (CloseSupervision p k) as [p1 k1].
  set (p2 := {| pr_pid := child |}). assert (Hp2 : exited_ok p2) by done. destruct (close_fd _ _) as [u k2].
  destruct (os_exec os (k_tick k1)) as [|e| |e]; [done|..].
  - pose proof (wait_pid p2 k2 Hp2) as H. destruct (Wait os p2 k2) as [[r q] k3]. destruct H. eauto using tame_exited.
  - unfold RequestStop. pose proof (signal_pid SIGTERM p2 k2) as H1. destruct (signal_child os SIGTERM p2 k2) as [[r q] k3].
    pose proof (wait_pid q k3 (tame_exited _ _ H1 Hp2)) as H. destruct (Wait os q k3) as [[r' q'] k4]. destruct H. eauto using tame_exited.
  - unfold RequestStop. pose proof (signal_pid SIGTERM p2 k2) as H1. destruct (signal_child os SIGTERM p2 k2) as [[r q] k3].
    pose proof (wait_pid q k3 (tame_exited _ _ H1 Hp2)) as H. destruct (Wait os q k3) as [[r' q'] k4]. destruct H. eauto using tame_exited.
Qed.

Lemma triple_skip {A B} (m : OsM A) (f : A -> OsM B) Q : (forall a, triple (fun _ => True) (f a) Q) -> triple (fun _ => True) (os_bind m f) Q.
Proof. intros H. by apply (triple_bind _ _ _ (fun _ _ => True)). Qed.

Lemma spawn_pid p k : exited_ok p -> let '(result, p', _) := spawn os p k in start_post p result p'.
Proof.
  intros Hp. cut (triple (fun _ => True) (spawn os p) (fun r _ => start_post p r.1 r.2)).
  { intros H. specialize (H k I). by destruct (spawn os p k) as [[result p'] k']. }
  unfold spawn. repeat first [match goal with |- triple _ (os_bind _ _) _ => apply triple_skip; intros ? end | case_match; [repeat (apply triple_skip; intros ?); by apply triple_ret|]].
  intros k' _. match goal with |- context [await_exec os ?c ?s ?r p k'] =>
    pose proof (await_exec_pid c s r p k') as Hw; destruct (await_exec os c s r p k') as [[result p'] k''] end.
  destruct Hw. by split.
Qed.
Lemma launch_pid executable args scope profile p k : exited_ok p ->
  let '(result, p', _) := launch os executable args scope profile p k in start_post p result p'.
Proof.
  intros Hp. unfold launch, os_bind. destruct (check_policy os profile k) as [a k1]. destruct (negb (a =? 0)); [done|].
  destruct (check_affinity os profile k1) as [b k2]. destruct (negb (b =? 0)); [done|]. destruct (negb _); [done|]. by apply spawn_pid.
Qed.
Lemma start_pid executable args scope profile p k : exited_ok p ->
  let '(result, p', _) := Start os executable args scope profile p k in start_post p result p'.
Proof.
  intros Hp. unfold Start, os_bind. destruct (Z.ltb_spec 0 (pr_pid p)) as [Hpid|]; [|by apply launch_pid].
  pose proof (collect_pid true p k) as H. destruct (CollectExit os true p k) as [[r q] k1]. destruct H as [H _].
  pose proof (tame_exited _ _ H Hp) as Hq. destruct (r <=? 0); [split; [done|lia]|].
  pose proof (launch_pid executable args scope profile q k1 Hq) as Hl.
  destruct (launch os executable args scope profile q k1) as [[r' q'] k2]. destruct Hl. split; [done|lia].
Qed.
End Pid.

Lemma new_paired : paired new_process.
Proof. unfold paired. simpl. lia. Qed.

(** ** Claims *)
(** C37: Whatever the kernel answers and whatever sequence of operations is applied to a
    new [Process] beside other children and descriptors of the program: the children not
    yet reaped are the others' and, while [pid_] is positive, exactly that one (no child
    is orphaned or forgotten, also when [Start] fails after [fork]); every signal sent
    went to a child not yet reaped, never to a stale pid; the open descriptors are the
    others' and the supervision socket, which is open only while the child is owned, so no
    path of [Start], failures included, leaks a socket or a pipe. *)
Theorem process_ownership (os : Os) (ops : list ProcessOperation) (k : Kernel)
    (Hchildren : NoDup (k_children k)) (Hfds : NoDup (k_fds k)) (Hlog : Forall signal_ok (k_log k)) :
  let (p', k') := process_operations os ops new_process k in
  k_children k' ≡ₚ own_pid p' ++ k_children k /\ k_fds k' ≡ₚ own_fd p' ++ k_fds k /\
  Forall signal_ok (k_log k') /\ paired p'.
Proof.
  set (now := {| mo_log := k_log k; mo_children := k_children k |} : Moment).
  assert (holds new_process (k_children k) (k_fds k) k) as Hk by (constructor; try done; by apply traced_now).
  pose proof (operations_keep os _ _ ops new_process new_paired k Hk) as H.
  destruct (process_operations os ops new_process k) as [p' k']. simpl in H. destruct H as [[? ? ? ? ? _] ?]. by split_and!.
Qed.

(** A status is accepted only as the answer to the outstanding request: it is a
    complete packet of the protocol's version, from the child that is still owned, whose
    id is that of the last request sent, and it clears that request, so a request is
    answered at most once and a late or duplicate answer is [-ESTALE]. *)
Theorem process_status_matches (os : Os) (p : Process) (k : Kernel) :
  let '(r, p', k') := ReceiveRuntimeStatus os p k in
  (forall value, r = Ok value ->
    rs_request_id value = pr_pending_request p /\ rs_request_id value <> 0 /\ rs_pid value = pr_pid p /\
    rs_magic value = RUNTIME_STATUS_MAGIC /\ rs_protocol_version value = RUNTIME_STATUS_VERSION /\
    pr_pending_request p' = 0 /\ pr_pid p' = pr_pid p) /\
  (forall e, r = Err e -> p' = p) /\
  (pr_pending_request p = 0 -> forall value, r <> Ok value).
Proof.
  unfold ReceiveRuntimeStatus. destruct (pr_supervision_fd p <? 0); [simpl; split_and!; naive_solver|].
  unfold os_bind, ask, os_ret. destruct (os_recv os (k_tick k)) as [e| |complete value]; try (simpl; split_and!; naive_solver).
  destruct (valid_response p complete value) eqn:Hv; [|simpl; split_and!; naive_solver].
  destruct (_ || _) eqn:Ho; [simpl; split_and!; naive_solver|]. simpl.
  apply orb_false_iff in Ho as [H0 Hid]. unfold valid_response in Hv. split_and!; try naive_solver lia.
  all: intros; simplify_eq; lia.
Qed.

(** ** Witness: the first child fails to exec, the second runs and is stopped. *)
Definition sample_os : Os :=
  {| os_call := fun _ => 0; os_wait := fun _ => WaitRunning;
     os_block := fun n => if (n =? 5)%nat then WaitStatus 0x7f00 else WaitStatus 0x0f;
     os_fork := fun n => 100 + Z.of_nat n;
     os_exec := fun n => if (n =? 4)%nat then ExecFailed 2 else ExecClosed; os_send := fun _ => 16;
     os_recv := fun _ => RecvClosed; os_range := fun _ => (1, 99); os_cpus := fun _ => 4; os_clock := fun n => Z.of_nat n * 100000000;
     os_stop := fun _ => false; os_reset := fun _ => false; os_start_ticks := fun _ => 7 |}.
Definition inherit_profile : ExecutionProfile := {| ep_policy := INHERIT; ep_priority := 0; ep_cpu_affinity := []; ep_lock_memory := false |}.
Definition sample_operations : list ProcessOperation :=
  [OpStart [97] [] [] inherit_profile; OpStart [98] [] [] inherit_profile; OpIsRunning; OpRequestStop; OpWait].
Definition sample_kernel : Kernel := {| k_tick := 0; k_log := []; k_children := [7]; k_fds := [0; 1; 2]; k_time := 0 |}.

Lemma process_ownership_witness :
  let (p', k') := process_operations sample_os sample_operations new_process sample_kernel in
  (k_children k' ≡ₚ own_pid p' ++ [7] /\ k_fds k' ≡ₚ own_fd p' ++ [0; 1; 2]) /\ pr_exit_status p' = SIGTERM /\
  k_log k' = [Forked 103; Reaped 103; Forked 109; Signalled 109 SIGTERM true; Reaped 109].
Proof.
  pose proof (process_ownership sample_os sample_operations sample_kernel
    (NoDup_singleton 7) ltac:(repeat constructor; vm_compute; intros H; repeat (inversion H; subst; clear H; rename select (_ ∈ _) into H)) (List.Forall_nil _)) as H.
  destruct (process_operations sample_os sample_operations new_process sample_kernel) as [p' k'] eqn:E.
  destruct H as (H1 & H2 & _ & _). split; [exact (conj H1 H2)|]. vm_compute in E. injection E as <- <-. split; reflexivity.
Defined.
