(* ===== verification/BringupState.v ===== *)
(** * Bringup supervisor: state

    The records of [bringup/include/bringup/bringup.hpp] and of the system status
    they are published in, with one update function per group of fields the code
    assigns together.  Times are nanoseconds of [steady_clock], strings are bytes. *)
From S2P Require Import Prelude ProcessRuntime SystemScope ChildProcess.

Module App.
Inductive ApplicationState := INITIALIZING | RUNNING | ERROR | SHUTTING_DOWN | RESETTING | STOPPED.
End App.
Abbreviation ApplicationState := App.ApplicationState.
#[export] Instance application_state_eq_dec : EqDecision ApplicationState.
Proof. solve_decision. Defined.

Inductive ElementFailureKind := NONE | PROCESS_EXIT | RUNTIME_ERROR | STATUS_TIMEOUT | HEARTBEAT_STALL.
#[export] Instance failure_kind_eq_dec : EqDecision ElementFailureKind.
Proof. solve_decision. Defined.
#[export] Instance exit_info_eq_dec : EqDecision ProcessExitInfo.
Proof. solve_decision. Defined.

(** ** Data *)
Record ElementSpec := {
  es_name : list Z;
  es_executable : list Z;
  es_arguments : list (list Z);
  es_startup_timeout_ms : Z;
  es_health_timeout_ms : Z;
  es_shutdown_timeout_ms : Z;
  es_execution_profile : ExecutionProfile
}.

Record ApplicationError := {
  ae_valid : bool;
  ae_element_name : list Z;
  ae_pid : Z;
  ae_exit_info : ProcessExitInfo;
  ae_failure_kind : ElementFailureKind;
  ae_runtime_error : Z
}.
Definition no_error : ApplicationError :=
  {| ae_valid := false; ae_element_name := []; ae_pid := -1; ae_exit_info := no_exit_info; ae_failure_kind := NONE; ae_runtime_error := 0 |}.
Definition set_error_exit (info : ProcessExitInfo) (e : ApplicationError) : ApplicationError :=
  {| ae_valid := ae_valid e; ae_element_name := ae_element_name e; ae_pid := ae_pid e; ae_exit_info := info;
     ae_failure_kind := ae_failure_kind e; ae_runtime_error := ae_runtime_error e |}.

Record ErrorHistoryEntry := {
  he_sequence : Z;
  he_monotonic_ns : Z;
  he_generation : Z;
  he_error : ApplicationError;
  he_runtime_error_observed : bool
}.
Definition ERROR_HISTORY_CAPACITY : nat := 64.

(** [char element[64]]: the bytes before the terminating NUL. *)
Inductive ProcessTerminationKind := TERM_NONE | TERM_EXITED | TERM_SIGNALED.
Record SystemStatus := {
  st_sequence : Z;
  st_state : ApplicationState;
  st_error_valid : bool;
  st_termination_kind : ProcessTerminationKind;
  st_failure_kind : ElementFailureKind;
  st_failed_pid : Z;
  st_exit_code : Z;
  st_signal_number : Z;
  st_runtime_error : Z;
  st_error_element : list Z
}.

Record SupervisorElementInfo := { se_name : list Z; se_executable : list Z; se_pid : Z; se_process_start_ticks : Z; se_process_alive : bool }.
Record SupervisorInfo := { si_application_name : list Z; si_application_state : ApplicationState; si_elements : list SupervisorElementInfo }.
Definition MAX_SUPERVISOR_ELEMENTS : nat := 64.

Record ManagedElement := {
  el_spec : ElementSpec;
  el_process : Process;
  el_pid : Z;
  el_process_start_ticks : Z;
  el_started : bool;
  el_failure_detected : bool;
  el_exit_info : ProcessExitInfo;
  el_failure_kind : ElementFailureKind;
  el_runtime_error : Z;
  el_process_alive : bool;
  el_status_valid : bool;
  el_runtime_ready : bool;
  el_last_runtime_status : RuntimeStatusResponse;
  el_started_at : Z;
  el_last_response_time : Z;
  el_last_heartbeat_change_time : Z
}.
Definition set_process (p : Process) (e : ManagedElement) : ManagedElement :=
  {| el_spec := el_spec e; el_process := p; el_pid := el_pid e; el_process_start_ticks := el_process_start_ticks e;
     el_started := el_started e; el_failure_detected := el_failure_detected e; el_exit_info := el_exit_info e;
     el_failure_kind := el_failure_kind e; el_runtime_error := el_runtime_error e; el_process_alive :=
     el_process_alive e; el_status_valid := el_status_valid e; el_runtime_ready := el_runtime_ready e;
     el_last_runtime_status := el_last_runtime_status e; el_started_at := el_started_at e; el_last_response_time :=
     el_last_response_time e; el_last_heartbeat_change_time := el_last_heartbeat_change_time e |}.
Definition set_alive (v : bool) (e : ManagedElement) : ManagedElement :=
  {| el_spec := el_spec e; el_process := el_process e; el_pid := el_pid e; el_process_start_ticks :=
     el_process_start_ticks e; el_started := el_started e; el_failure_detected := el_failure_detected e; el_exit_info
     := el_exit_info e; el_failure_kind := el_failure_kind e; el_runtime_error := el_runtime_error e; el_process_alive
     := v; el_status_valid := el_status_valid e; el_runtime_ready := el_runtime_ready e; el_last_runtime_status :=
     el_last_runtime_status e; el_started_at := el_started_at e; el_last_response_time := el_last_response_time e;
     el_last_heartbeat_change_time := el_last_heartbeat_change_time e |}.
Definition set_started (v : bool) (e : ManagedElement) : ManagedElement :=
  {| el_spec := el_spec e; el_process := el_process e; el_pid := el_pid e; el_process_start_ticks :=
     el_process_start_ticks e; el_started := v; el_failure_detected := el_failure_detected e; el_exit_info :=
     el_exit_info e; el_failure_kind := el_failure_kind e; el_runtime_error := el_runtime_error e; el_process_alive :=
     v; el_status_valid := el_status_valid e; el_runtime_ready := el_runtime_ready e; el_last_runtime_status :=
     el_last_runtime_status e; el_started_at := el_started_at e; el_last_response_time := el_last_response_time e;
     el_last_heartbeat_change_time := el_last_heartbeat_change_time e |}.
Definition set_launched (pid ticks now : Z) (e : ManagedElement) : ManagedElement :=
  {| el_spec := el_spec e; el_process := el_process e; el_pid := pid; el_process_start_ticks := ticks; el_started :=
     true; el_failure_detected := el_failure_detected e; el_exit_info := el_exit_info e; el_failure_kind :=
     el_failure_kind e; el_runtime_error := el_runtime_error e; el_process_alive := true; el_status_valid :=
     el_status_valid e; el_runtime_ready := el_runtime_ready e; el_last_runtime_status := el_last_runtime_status e;
     el_started_at := now; el_last_response_time := now; el_last_heartbeat_change_time := now |}.
Definition set_failure (info : ProcessExitInfo) (kind : ElementFailureKind) (error : Z) (e : ManagedElement) : ManagedElement :=
  {| el_spec := el_spec e; el_process := el_process e; el_pid := el_pid e; el_process_start_ticks :=
     el_process_start_ticks e; el_started := el_started e; el_failure_detected := true; el_exit_info := info;
     el_failure_kind := kind; el_runtime_error := error; el_process_alive := el_process_alive e; el_status_valid :=
     el_status_valid e; el_runtime_ready := el_runtime_ready e; el_last_runtime_status := el_last_runtime_status e;
     el_started_at := el_started_at e; el_last_response_time := el_last_response_time e; el_last_heartbeat_change_time
     := el_last_heartbeat_change_time e |}.
Definition set_exit_info (info : ProcessExitInfo) (e : ManagedElement) : ManagedElement :=
  {| el_spec := el_spec e; el_process := el_process e; el_pid := el_pid e; el_process_start_ticks :=
     el_process_start_ticks e; el_started := el_started e; el_failure_detected := el_failure_detected e; el_exit_info
     := info; el_failure_kind := el_failure_kind e; el_runtime_error := el_runtime_error e; el_process_alive :=
     el_process_alive e; el_status_valid := el_status_valid e; el_runtime_ready := el_runtime_ready e;
     el_last_runtime_status := el_last_runtime_status e; el_started_at := el_started_at e; el_last_response_time :=
     el_last_response_time e; el_last_heartbeat_change_time := el_last_heartbeat_change_time e |}.
Definition set_status (status : RuntimeStatusResponse) (ready : bool) (now change : Z) (e : ManagedElement) : ManagedElement :=
  {| el_spec := el_spec e; el_process := el_process e; el_pid := el_pid e; el_process_start_ticks :=
     el_process_start_ticks e; el_started := el_started e; el_failure_detected := el_failure_detected e; el_exit_info
     := el_exit_info e; el_failure_kind := el_failure_kind e; el_runtime_error := el_runtime_error e; el_process_alive
     := el_process_alive e; el_status_valid := true; el_runtime_ready := ready; el_last_runtime_status := status;
     el_started_at := el_started_at e; el_last_response_time := now; el_last_heartbeat_change_time := change |}.
Definition set_fresh (e : ManagedElement) : ManagedElement :=
  {| el_spec := el_spec e; el_process := el_process e; el_pid := -1; el_process_start_ticks := 0; el_started :=
     el_started e; el_failure_detected := false; el_exit_info := no_exit_info; el_failure_kind := NONE;
     el_runtime_error := 0; el_process_alive := el_process_alive e; el_status_valid := false; el_runtime_ready :=
     false; el_last_runtime_status := default_status; el_started_at := 0; el_last_response_time := 0;
     el_last_heartbeat_change_time := 0 |}.

Definition new_element (spec : ElementSpec) : ManagedElement :=
  {| el_spec := spec; el_process := new_process; el_pid := -1; el_process_start_ticks := 0; el_started := false;
     el_failure_detected := false; el_exit_info := no_exit_info; el_failure_kind := NONE; el_runtime_error := 0;
     el_process_alive := false; el_status_valid := false; el_runtime_ready := false; el_last_runtime_status := default_status;
     el_started_at := 0; el_last_response_time := 0; el_last_heartbeat_change_time := 0 |}.

Record Bringup := {
  b_elements : list ManagedElement;
  b_running : bool;
  b_setup : bool;
  b_exit_code : Z;
  b_application_state : ApplicationState;
  b_application_error : ApplicationError;
  b_error_history : list ErrorHistoryEntry;
  b_generation : Z;
  b_error_sequence : Z;
  b_status_owned : bool;
  b_status_sequence : Z;
  b_last_publish_error : Z;
  b_request_id : Z;
  b_sigint_installed : bool;
  b_sigterm_installed : bool;
  b_reset_gate : Z;
  b_stop_requested : bool;
  b_shutdown_requested : bool;
  b_scope : list Z;
  b_application_name : list Z;
  b_introspection : option SupervisorInfo
}.
Definition set_elements (v : list ManagedElement) (b : Bringup) : Bringup :=
  {| b_elements := v; b_running := b_running b; b_setup := b_setup b; b_exit_code := b_exit_code b;
     b_application_state := b_application_state b; b_application_error := b_application_error b; b_error_history :=
     b_error_history b; b_generation := b_generation b; b_error_sequence := b_error_sequence b; b_status_owned :=
     b_status_owned b; b_status_sequence := b_status_sequence b; b_last_publish_error := b_last_publish_error b;
     b_request_id := b_request_id b; b_sigint_installed := b_sigint_installed b; b_sigterm_installed :=
     b_sigterm_installed b; b_reset_gate := b_reset_gate b; b_stop_requested := b_stop_requested b;
     b_shutdown_requested := b_shutdown_requested b; b_scope := b_scope b; b_application_name := b_application_name b;
     b_introspection := b_introspection b |}.
Definition set_running (v : bool) (b : Bringup) : Bringup :=
  {| b_elements := b_elements b; b_running := v; b_setup := b_setup b; b_exit_code := b_exit_code b;
     b_application_state := b_application_state b; b_application_error := b_application_error b; b_error_history :=
     b_error_history b; b_generation := b_generation b; b_error_sequence := b_error_sequence b; b_status_owned :=
     b_status_owned b; b_status_sequence := b_status_sequence b; b_last_publish_error := b_last_publish_error b;
     b_request_id := b_request_id b; b_sigint_installed := b_sigint_installed b; b_sigterm_installed :=
     b_sigterm_installed b; b_reset_gate := b_reset_gate b; b_stop_requested := b_stop_requested b;
     b_shutdown_requested := b_shutdown_requested b; b_scope := b_scope b; b_application_name := b_application_name b;
     b_introspection := b_introspection b |}.
Definition set_setup (v : bool) (b : Bringup) : Bringup :=
  {| b_elements := b_elements b; b_running := b_running b; b_setup := v; b_exit_code := b_exit_code b;
     b_application_state := b_application_state b; b_application_error := b_application_error b; b_error_history :=
     b_error_history b; b_generation := b_generation b; b_error_sequence := b_error_sequence b; b_status_owned :=
     b_status_owned b; b_status_sequence := b_status_sequence b; b_last_publish_error := b_last_publish_error b;
     b_request_id := b_request_id b; b_sigint_installed := b_sigint_installed b; b_sigterm_installed :=
     b_sigterm_installed b; b_reset_gate := b_reset_gate b; b_stop_requested := b_stop_requested b;
     b_shutdown_requested := b_shutdown_requested b; b_scope := b_scope b; b_application_name := b_application_name b;
     b_introspection := b_introspection b |}.
Definition set_exit_code (v : Z) (b : Bringup) : Bringup :=
  {| b_elements := b_elements b; b_running := b_running b; b_setup := b_setup b; b_exit_code := v; b_application_state
     := b_application_state b; b_application_error := b_application_error b; b_error_history := b_error_history b;
     b_generation := b_generation b; b_error_sequence := b_error_sequence b; b_status_owned := b_status_owned b;
     b_status_sequence := b_status_sequence b; b_last_publish_error := b_last_publish_error b; b_request_id :=
     b_request_id b; b_sigint_installed := b_sigint_installed b; b_sigterm_installed := b_sigterm_installed b;
     b_reset_gate := b_reset_gate b; b_stop_requested := b_stop_requested b; b_shutdown_requested :=
     b_shutdown_requested b; b_scope := b_scope b; b_application_name := b_application_name b; b_introspection :=
     b_introspection b |}.
Definition set_application_error (v : ApplicationError) (b : Bringup) : Bringup :=
  {| b_elements := b_elements b; b_running := b_running b; b_setup := b_setup b; b_exit_code := b_exit_code b;
     b_application_state := b_application_state b; b_application_error := v; b_error_history := b_error_history b;
     b_generation := b_generation b; b_error_sequence := b_error_sequence b; b_status_owned := b_status_owned b;
     b_status_sequence := b_status_sequence b; b_last_publish_error := b_last_publish_error b; b_request_id :=
     b_request_id b; b_sigint_installed := b_sigint_installed b; b_sigterm_installed := b_sigterm_installed b;
     b_reset_gate := b_reset_gate b; b_stop_requested := b_stop_requested b; b_shutdown_requested :=
     b_shutdown_requested b; b_scope := b_scope b; b_application_name := b_application_name b; b_introspection :=
     b_introspection b |}.
Definition set_generation (v : Z) (b : Bringup) : Bringup :=
  {| b_elements := b_elements b; b_running := b_running b; b_setup := b_setup b; b_exit_code := b_exit_code b;
     b_application_state := b_application_state b; b_application_error := b_application_error b; b_error_history :=
     b_error_history b; b_generation := v; b_error_sequence := b_error_sequence b; b_status_owned := b_status_owned b;
     b_status_sequence := b_status_sequence b; b_last_publish_error := b_last_publish_error b; b_request_id :=
     b_request_id b; b_sigint_installed := b_sigint_installed b; b_sigterm_installed := b_sigterm_installed b;
     b_reset_gate := b_reset_gate b; b_stop_requested := b_stop_requested b; b_shutdown_requested :=
     b_shutdown_requested b; b_scope := b_scope b; b_application_name := b_application_name b; b_introspection :=
     b_introspection b |}.
Definition set_status_owned (v : bool) (b : Bringup) : Bringup :=
  {| b_elements := b_elements b; b_running := b_running b; b_setup := b_setup b; b_exit_code := b_exit_code b;
     b_application_state := b_application_state b; b_application_error := b_application_error b; b_error_history :=
     b_error_history b; b_generation := b_generation b; b_error_sequence := b_error_sequence b; b_status_owned := v;
     b_status_sequence := b_status_sequence b; b_last_publish_error := b_last_publish_error b; b_request_id :=
     b_request_id b; b_sigint_installed := b_sigint_installed b; b_sigterm_installed := b_sigterm_installed b;
     b_reset_gate := b_reset_gate b; b_stop_requested := b_stop_requested b; b_shutdown_requested :=
     b_shutdown_requested b; b_scope := b_scope b; b_application_name := b_application_name b; b_introspection :=
     b_introspection b |}.
Definition set_status_sequence (v : Z) (b : Bringup) : Bringup :=
  {| b_elements := b_elements b; b_running := b_running b; b_setup := b_setup b; b_exit_code := b_exit_code b;
     b_application_state := b_application_state b; b_application_error := b_application_error b; b_error_history :=
     b_error_history b; b_generation := b_generation b; b_error_sequence := b_error_sequence b; b_status_owned :=
     b_status_owned b; b_status_sequence := v; b_last_publish_error := b_last_publish_error b; b_request_id :=
     b_request_id b; b_sigint_installed := b_sigint_installed b; b_sigterm_installed := b_sigterm_installed b;
     b_reset_gate := b_reset_gate b; b_stop_requested := b_stop_requested b; b_shutdown_requested :=
     b_shutdown_requested b; b_scope := b_scope b; b_application_name := b_application_name b; b_introspection :=
     b_introspection b |}.
Definition set_last_publish_error (v : Z) (b : Bringup) : Bringup :=
  {| b_elements := b_elements b; b_running := b_running b; b_setup := b_setup b; b_exit_code := b_exit_code b;
     b_application_state := b_application_state b; b_application_error := b_application_error b; b_error_history :=
     b_error_history b; b_generation := b_generation b; b_error_sequence := b_error_sequence b; b_status_owned :=
     b_status_owned b; b_status_sequence := b_status_sequence b; b_last_publish_error := v; b_request_id :=
     b_request_id b; b_sigint_installed := b_sigint_installed b; b_sigterm_installed := b_sigterm_installed b;
     b_reset_gate := b_reset_gate b; b_stop_requested := b_stop_requested b; b_shutdown_requested :=
     b_shutdown_requested b; b_scope := b_scope b; b_application_name := b_application_name b; b_introspection :=
     b_introspection b |}.
Definition set_request_id (v : Z) (b : Bringup) : Bringup :=
  {| b_elements := b_elements b; b_running := b_running b; b_setup := b_setup b; b_exit_code := b_exit_code b;
     b_application_state := b_application_state b; b_application_error := b_application_error b; b_error_history :=
     b_error_history b; b_generation := b_generation b; b_error_sequence := b_error_sequence b; b_status_owned :=
     b_status_owned b; b_status_sequence := b_status_sequence b; b_last_publish_error := b_last_publish_error b;
     b_request_id := v; b_sigint_installed := b_sigint_installed b; b_sigterm_installed := b_sigterm_installed b;
     b_reset_gate := b_reset_gate b; b_stop_requested := b_stop_requested b; b_shutdown_requested :=
     b_shutdown_requested b; b_scope := b_scope b; b_application_name := b_application_name b; b_introspection :=
     b_introspection b |}.
Definition set_sigint_installed (v : bool) (b : Bringup) : Bringup :=
  {| b_elements := b_elements b; b_running := b_running b; b_setup := b_setup b; b_exit_code := b_exit_code b;
     b_application_state := b_application_state b; b_application_error := b_application_error b; b_error_history :=
     b_error_history b; b_generation := b_generation b; b_error_sequence := b_error_sequence b; b_status_owned :=
     b_status_owned b; b_status_sequence := b_status_sequence b; b_last_publish_error := b_last_publish_error b;
     b_request_id := b_request_id b; b_sigint_installed := v; b_sigterm_installed := b_sigterm_installed b;
     b_reset_gate := b_reset_gate b; b_stop_requested := b_stop_requested b; b_shutdown_requested :=
     b_shutdown_requested b; b_scope := b_scope b; b_application_name := b_application_name b; b_introspection :=
     b_introspection b |}.
Definition set_sigterm_installed (v : bool) (b : Bringup) : Bringup :=
  {| b_elements := b_elements b; b_running := b_running b; b_setup := b_setup b; b_exit_code := b_exit_code b;
     b_application_state := b_application_state b; b_application_error := b_application_error b; b_error_history :=
     b_error_history b; b_generation := b_generation b; b_error_sequence := b_error_sequence b; b_status_owned :=
     b_status_owned b; b_status_sequence := b_status_sequence b; b_last_publish_error := b_last_publish_error b;
     b_request_id := b_request_id b; b_sigint_installed := b_sigint_installed b; b_sigterm_installed := v;
     b_reset_gate := b_reset_gate b; b_stop_requested := b_stop_requested b; b_shutdown_requested :=
     b_shutdown_requested b; b_scope := b_scope b; b_application_name := b_application_name b; b_introspection :=
     b_introspection b |}.
Definition set_reset_gate (v : Z) (b : Bringup) : Bringup :=
  {| b_elements := b_elements b; b_running := b_running b; b_setup := b_setup b; b_exit_code := b_exit_code b;
     b_application_state := b_application_state b; b_application_error := b_application_error b; b_error_history :=
     b_error_history b; b_generation := b_generation b; b_error_sequence := b_error_sequence b; b_status_owned :=
     b_status_owned b; b_status_sequence := b_status_sequence b; b_last_publish_error := b_last_publish_error b;
     b_request_id := b_request_id b; b_sigint_installed := b_sigint_installed b; b_sigterm_installed :=
     b_sigterm_installed b; b_reset_gate := v; b_stop_requested := b_stop_requested b; b_shutdown_requested :=
     b_shutdown_requested b; b_scope := b_scope b; b_application_name := b_application_name b; b_introspection :=
     b_introspection b |}.
Definition set_stop_requested (v : bool) (b : Bringup) : Bringup :=
  {| b_elements := b_elements b; b_running := b_running b; b_setup := b_setup b; b_exit_code := b_exit_code b;
     b_application_state := b_application_state b; b_application_error := b_application_error b; b_error_history :=
     b_error_history b; b_generation := b_generation b; b_error_sequence := b_error_sequence b; b_status_owned :=
     b_status_owned b; b_status_sequence := b_status_sequence b; b_last_publish_error := b_last_publish_error b;
     b_request_id := b_request_id b; b_sigint_installed := b_sigint_installed b; b_sigterm_installed :=
     b_sigterm_installed b; b_reset_gate := b_reset_gate b; b_stop_requested := v; b_shutdown_requested :=
     b_shutdown_requested b; b_scope := b_scope b; b_application_name := b_application_name b; b_introspection :=
     b_introspection b |}.
Definition set_shutdown_requested (v : bool) (b : Bringup) : Bringup :=
  {| b_elements := b_elements b; b_running := b_running b; b_setup := b_setup b; b_exit_code := b_exit_code b;
     b_application_state := b_application_state b; b_application_error := b_application_error b; b_error_history :=
     b_error_history b; b_generation := b_generation b; b_error_sequence := b_error_sequence b; b_status_owned :=
     b_status_owned b; b_status_sequence := b_status_sequence b; b_last_publish_error := b_last_publish_error b;
     b_request_id := b_request_id b; b_sigint_installed := b_sigint_installed b; b_sigterm_installed :=
     b_sigterm_installed b; b_reset_gate := b_reset_gate b; b_stop_requested := b_stop_requested b;
     b_shutdown_requested := v; b_scope := b_scope b; b_application_name := b_application_name b; b_introspection :=
     b_introspection b |}.
Definition set_application_name (v : list Z) (b : Bringup) : Bringup :=
  {| b_elements := b_elements b; b_running := b_running b; b_setup := b_setup b; b_exit_code := b_exit_code b;
     b_application_state := b_application_state b; b_application_error := b_application_error b; b_error_history :=
     b_error_history b; b_generation := b_generation b; b_error_sequence := b_error_sequence b; b_status_owned :=
     b_status_owned b; b_status_sequence := b_status_sequence b; b_last_publish_error := b_last_publish_error b;
     b_request_id := b_request_id b; b_sigint_installed := b_sigint_installed b; b_sigterm_installed :=
     b_sigterm_installed b; b_reset_gate := b_reset_gate b; b_stop_requested := b_stop_requested b;
     b_shutdown_requested := b_shutdown_requested b; b_scope := b_scope b; b_application_name := v; b_introspection :=
     b_introspection b |}.
Definition set_state (s : ApplicationState) (gate : Z) (b : Bringup) : Bringup :=
  {| b_elements := b_elements b; b_running := b_running b; b_setup := b_setup b; b_exit_code := b_exit_code b;
     b_application_state := s; b_application_error := b_application_error b; b_error_history := b_error_history b;
     b_generation := b_generation b; b_error_sequence := b_error_sequence b; b_status_owned := b_status_owned b;
     b_status_sequence := b_status_sequence b; b_last_publish_error := b_last_publish_error b; b_request_id :=
     b_request_id b; b_sigint_installed := b_sigint_installed b; b_sigterm_installed := b_sigterm_installed b;
     b_reset_gate := gate; b_stop_requested := b_stop_requested b; b_shutdown_requested := b_shutdown_requested b;
     b_scope := b_scope b; b_application_name := b_application_name b; b_introspection := b_introspection b |}.
Definition set_scope (scope : list Z) (b : Bringup) : Bringup :=
  {| b_elements := b_elements b; b_running := b_running b; b_setup := b_setup b; b_exit_code := b_exit_code b;
     b_application_state := b_application_state b; b_application_error := b_application_error b; b_error_history :=
     b_error_history b; b_generation := b_generation b; b_error_sequence := b_error_sequence b; b_status_owned :=
     true; b_status_sequence := 1; b_last_publish_error := b_last_publish_error b; b_request_id := b_request_id b;
     b_sigint_installed := b_sigint_installed b; b_sigterm_installed := b_sigterm_installed b; b_reset_gate :=
     b_reset_gate b; b_stop_requested := b_stop_requested b; b_shutdown_requested := b_shutdown_requested b; b_scope
     := scope; b_application_name := b_application_name b; b_introspection := b_introspection b |}.
Definition set_introspection (info : SupervisorInfo) (b : Bringup) : Bringup :=
  {| b_elements := b_elements b; b_running := b_running b; b_setup := b_setup b; b_exit_code := b_exit_code b;
     b_application_state := b_application_state b; b_application_error := b_application_error b; b_error_history :=
     b_error_history b; b_generation := b_generation b; b_error_sequence := b_error_sequence b; b_status_owned :=
     b_status_owned b; b_status_sequence := b_status_sequence b; b_last_publish_error := b_last_publish_error b;
     b_request_id := b_request_id b; b_sigint_installed := b_sigint_installed b; b_sigterm_installed :=
     b_sigterm_installed b; b_reset_gate := b_reset_gate b; b_stop_requested := b_stop_requested b;
     b_shutdown_requested := b_shutdown_requested b; b_scope := b_scope b; b_application_name := b_application_name b;
     b_introspection := Some info |}.
Definition set_history (history : list ErrorHistoryEntry) (sequence : Z) (b : Bringup) : Bringup :=
  {| b_elements := b_elements b; b_running := b_running b; b_setup := b_setup b; b_exit_code := 1; b_application_state
     := b_application_state b; b_application_error := b_application_error b; b_error_history := history; b_generation
     := b_generation b; b_error_sequence := sequence; b_status_owned := b_status_owned b; b_status_sequence :=
     b_status_sequence b; b_last_publish_error := b_last_publish_error b; b_request_id := b_request_id b;
     b_sigint_installed := b_sigint_installed b; b_sigterm_installed := b_sigterm_installed b; b_reset_gate :=
     b_reset_gate b; b_stop_requested := b_stop_requested b; b_shutdown_requested := b_shutdown_requested b; b_scope
     := b_scope b; b_application_name := b_application_name b; b_introspection := b_introspection b |}.
Definition set_exit_records (history : list ErrorHistoryEntry) (error : ApplicationError) (b : Bringup) : Bringup :=
  {| b_elements := b_elements b; b_running := b_running b; b_setup := b_setup b; b_exit_code := b_exit_code b;
     b_application_state := b_application_state b; b_application_error := error; b_error_history := history;
     b_generation := b_generation b; b_error_sequence := b_error_sequence b; b_status_owned := b_status_owned b;
     b_status_sequence := b_status_sequence b; b_last_publish_error := b_last_publish_error b; b_request_id :=
     b_request_id b; b_sigint_installed := b_sigint_installed b; b_sigterm_installed := b_sigterm_installed b;
     b_reset_gate := b_reset_gate b; b_stop_requested := b_stop_requested b; b_shutdown_requested :=
     b_shutdown_requested b; b_scope := b_scope b; b_application_name := b_application_name b; b_introspection :=
     b_introspection b |}.

