(* ===== verification/Bringup.v ===== *)
(** * Bringup supervisor

    [bringup::Bringup] of [bringup/src/bringup.cpp]: it starts the elements of an
    application as child processes, waits for them to run, monitors their status,
    resets the whole generation on request and shuts it down.  The controlling
    thread runs in the monad [BringupM] over the supervisor's state, the kernel of
    [ChildProcess] and the snapshots published; signals, [RequestShutdown] and
    [RequestReset], which come from elsewhere, are answers of the oracle at the
    points where the code reads the flags they set.  Loops that wait for time to pass
    take fuel and give [None] only when it runs out.  Console output is left out. *)
From S2P Require Import Prelude ProcessRuntime SystemScope ChildProcess BringupState.

(** ** Registration *)
Record RegistrationError := { re_element_index : option nat; re_element_name : list Z; re_field : nat; re_reason : nat }.
(** Fields and reasons, by their position in the source. *)
Definition FIELD_ELEMENTS : nat := 0.
Definition FIELD_NAME : nat := 1.
Definition FIELD_EXECUTABLE : nat := 2.
Definition FIELD_STARTUP : nat := 3.
Definition FIELD_HEALTH : nat := 4.
Definition FIELD_SHUTDOWN : nat := 5.
Definition REASON_EMPTY : nat := 0.
Definition REASON_ZERO : nat := 1.
Definition REASON_DUPLICATE : nat := 2.

Fixpoint validate_from (i : nat) (before : list ElementSpec) (elements : list ElementSpec) : option RegistrationError :=
  match elements with
  | [] => None
  | spec :: rest =>
      let reject field reason :=
        Some {| re_element_index := Some i; re_element_name := es_name spec; re_field := field; re_reason := reason |} in
      if bool_decide (es_name spec = []) then reject FIELD_NAME REASON_EMPTY
      else if bool_decide (es_executable spec = []) then reject FIELD_EXECUTABLE REASON_EMPTY
      else if es_startup_timeout_ms spec =? 0 then reject FIELD_STARTUP REASON_ZERO
      else if es_health_timeout_ms spec =? 0 then reject FIELD_HEALTH REASON_ZERO
      else if es_shutdown_timeout_ms spec =? 0 then reject FIELD_SHUTDOWN REASON_ZERO
      else if existsb (fun other => bool_decide (es_name other = es_name spec)) before then reject FIELD_NAME REASON_DUPLICATE
      else validate_from (S i) (before ++ [spec]) rest
  end.

(** The error written, or [None]: 0 is returned. *)
Definition ValidateElements (elements : list ElementSpec) : option RegistrationError :=
  match elements with
  | [] => Some {| re_element_index := None; re_element_name := []; re_field := FIELD_ELEMENTS; re_reason := REASON_EMPTY |}
  | _ => validate_from 0 [] elements
  end.

(** ** The monad *)
Record World := {
  w_kernel : Kernel;
  w_bringup : Bringup;
  w_published : list SystemStatus;         (** snapshots given to [SystemStatusPublisher::Publish] *)
  w_states : list ApplicationState         (** values [application_state_] took, oldest first *)
}.
Definition BringupM (A : Type) : Type := World -> option (A * World).
Definition bm_ret {A} (a : A) : BringupM A := fun w => Some (a, w).
Definition bm_bind {A B} (m : BringupM A) (f : A -> BringupM B) : BringupM B :=
  fun w => match m w with Some (a, w1) => f a w1 | None => None end.
Notation "'do!' x := m 'in' k" := (bm_bind m (fun x => k)) (at level 10, x pattern, m at level 100, k at level 200) : kcf_scope.

Definition bm_lift {A} (m : OsM A) : BringupM A :=
  fun w => let (a, k) := m (w_kernel w) in
    Some (a, {| w_kernel := k; w_bringup := w_bringup w; w_published := w_published w; w_states := w_states w |}).
Definition bm_get : BringupM Bringup := fun w => Some (w_bringup w, w).
Definition bm_modify (f : Bringup -> Bringup) : BringupM unit :=
  fun w => Some (tt, {| w_kernel := w_kernel w; w_bringup := f (w_bringup w); w_published := w_published w; w_states := w_states w |}).
Definition log_published (s : SystemStatus) : BringupM unit :=
  fun w => Some (tt, {| w_kernel := w_kernel w; w_bringup := w_bringup w; w_published := w_published w ++ [s]; w_states := w_states w |}).
Definition log_state (s : ApplicationState) : BringupM unit :=
  fun w => Some (tt, {| w_kernel := w_kernel w; w_bringup := w_bringup w; w_published := w_published w; w_states := w_states w ++ [s] |}).
Definition when (b : bool) (m : BringupM unit) : BringupM unit := if b then m else bm_ret tt.

(** [elements_[i]]; an index out of range, which the code never uses, has no result. *)
Definition element (i : nat) : BringupM ManagedElement :=
  fun w => match b_elements (w_bringup w) !! i with Some e => Some (e, w) | None => None end.
Definition update_element (i : nat) (f : ManagedElement -> ManagedElement) : BringupM unit :=
  bm_modify (fun b => set_elements (alter f i (b_elements b)) b).
(** An operation on [elements_[i]->process]. *)
Definition on_process {A} (i : nat) (op : Process -> OsM (A * Process)) : BringupM A :=
  do! e := element i in
  do! (a, p) := bm_lift (op (el_process e)) in
  do! _ := update_element i (set_process p) in
  bm_ret a.

(** [for (auto& entry : elements_)], with the loop's local variables. *)
Fixpoint for_indices {S} (indices : list nat) (body : nat -> S -> BringupM S) (s : S) : BringupM S :=
  match indices with
  | [] => bm_ret s
  | i :: rest => do! s1 := body i s in for_indices rest body s1
  end.
Definition for_elements {S} (body : nat -> S -> BringupM S) (s : S) : BringupM S :=
  do! b := bm_get in for_indices (seq 0 (length (b_elements b))) body s.

Section Bringup.
Variable os : Os.

(** A negated errno, 0 on success. *)
Definition sys : BringupM Z := do! e := bm_lift (ask (os_call os)) in bm_ret (- e).
Definition now : BringupM Z := bm_lift (clock_now (os_clock os)).
Definition milliseconds (n : Z) : Z := n * 1000000.

(** ** Requests *)
(** [stop_requested || shutdown_requested_.load()], after what arrived since. *)
Definition ShutdownRequested : BringupM bool :=
  do! arrived := bm_lift (ask (os_stop os)) in
  do! _ := when arrived (bm_modify (set_stop_requested true)) in
  do! b := bm_get in
  bm_ret (b_stop_requested b || b_shutdown_requested b).
Definition RequestShutdown : BringupM unit := bm_modify (set_shutdown_requested true).
(** The gate's compare-exchange 1 to 2, unless a shutdown is requested. *)
Definition RequestReset (b : Bringup) : Bringup :=
  if b_stop_requested b || b_shutdown_requested b then b
  else if b_reset_gate b =? 1 then set_reset_gate 2 b else b.
(** [Run]'s compare-exchange 2 to 0, after the requests that arrived since. *)
Definition take_reset : BringupM bool :=
  do! arrived := bm_lift (ask (os_reset os)) in
  do! _ := when arrived (bm_modify RequestReset) in
  do! b := bm_get in
  if b_reset_gate b =? 2 then do! _ := bm_modify (set_reset_gate 0) in bm_ret true else bm_ret false.

(** ** Status output *)
Definition introspect (b : Bringup) : SupervisorInfo :=
  {| si_application_name := b_application_name b; si_application_state := b_application_state b;
     si_elements := map (fun e => {| se_name := take 127 (es_name (el_spec e)); se_executable := take 240 (es_executable (el_spec e));
                                     se_pid := el_pid e; se_process_start_ticks := el_process_start_ticks e;
                                     se_process_alive := el_process_alive e |})
                        (take MAX_SUPERVISOR_ELEMENTS (b_elements b)) |}.
Definition PublishIntrospection : BringupM unit := bm_modify (fun b => set_introspection (introspect b) b).

Definition status_snapshot (sequence : Z) (b : Bringup) : SystemStatus :=
  let e := b_application_error b in
  let info := ae_exit_info e in
  if ae_valid e then
    {| st_sequence := sequence; st_state := b_application_state b; st_error_valid := true;
       st_termination_kind := if xi_signaled info then TERM_SIGNALED else if xi_exited_normally info then TERM_EXITED else TERM_NONE;
       st_failure_kind := ae_failure_kind e; st_failed_pid := ae_pid e; st_exit_code := xi_exit_code info;
       st_signal_number := xi_signal_number info; st_runtime_error := ae_runtime_error e; st_error_element := take 63 (ae_element_name e) |}
  else
    {| st_sequence := sequence; st_state := b_application_state b; st_error_valid := false; st_termination_kind := TERM_NONE;
       st_failure_kind := NONE; st_failed_pid := -1; st_exit_code := 0; st_signal_number := 0; st_runtime_error := 0; st_error_element := [] |}.

(** The snapshot handed to the publisher. *)
Definition publish_snapshot : BringupM unit := do! b := bm_get in log_published (status_snapshot (b_status_sequence b) b).

Definition PublishSystemStatus : BringupM unit :=
  do! _ := PublishIntrospection in
  do! b := bm_get in
  if negb (b_status_owned b) then bm_ret tt
  else if b_status_sequence b =? UINT64_MAX then bm_modify (set_last_publish_error (- EOVERFLOW))
  else
    do! _ := bm_modify (fun b => set_status_sequence (b_status_sequence b + 1) b) in
    do! _ := publish_snapshot in
    do! result := sys in
    bm_modify (set_last_publish_error result).

Definition SetApplicationState (state : ApplicationState) : BringupM unit :=
  do! b := bm_get in
  if bool_decide (b_application_state b = state) then bm_ret tt
  else
    do! _ := bm_modify (set_state state (if bool_decide (state = App.ERROR) then 1 else 0)) in
    do! _ := log_state state in
    PublishSystemStatus.

(** ** Failures *)
(** [error_history_]: KEEP_LAST of capacity 64. *)
Definition push_history (entry : ErrorHistoryEntry) (history : list ErrorHistoryEntry) : list ErrorHistoryEntry :=
  (if (length history =? ERROR_HISTORY_CAPACITY)%nat then tail history else history) ++ [entry].

Definition append_history (t : Z) (event : ApplicationError) (observed : bool) (b : Bringup) : Bringup :=
  let sequence := u64 (b_error_sequence b + 1) in
  set_history (push_history {| he_sequence := sequence; he_monotonic_ns := t; he_generation := b_generation b; he_error := event;
                               he_runtime_error_observed := observed |} (b_error_history b)) sequence b.

Definition RecordFailure (i : nat) (kind : ElementFailureKind) (runtime_error : Z) : BringupM unit :=
  do! e := element i in
  if el_failure_detected e then bm_ret tt else
  do! stopping := ShutdownRequested in
  if stopping then bm_ret tt else
  let info := if bool_decide (kind = PROCESS_EXIT) then GetExitInfo (el_process e) else no_exit_info in
  let observed := el_status_valid e && negb (rs_runtime_error (el_last_runtime_status e) =? 0) in
  let error := if bool_decide (kind = PROCESS_EXIT) && observed then rs_runtime_error (el_last_runtime_status e) else runtime_error in
  do! _ := update_element i (set_failure info kind error) in
  let event := {| ae_valid := true; ae_element_name := es_name (el_spec e); ae_pid := el_pid e; ae_exit_info := info;
                  ae_failure_kind := kind; ae_runtime_error := error |} in
  do! t := now in
  do! _ := bm_modify (append_history t event observed) in
  do! b := bm_get in
  if ae_valid (b_application_error b) then bm_ret tt
  else
    do! _ := bm_modify (set_application_error event) in
    if bool_decide (b_application_state b = App.RESETTING) then bm_ret tt else SetApplicationState App.ERROR.

(** The exit information, copied into the records of this child. *)
Definition same_child (e : ManagedElement) (a : ApplicationError) : bool :=
  bool_decide (ae_element_name a = es_name (el_spec e)) && (ae_pid a =? el_pid e).
Definition update_entry (generation : Z) (e : ManagedElement) (info : ProcessExitInfo) (h : ErrorHistoryEntry) : ErrorHistoryEntry :=
  if (he_generation h =? generation) && same_child e (he_error h)
  then {| he_sequence := he_sequence h; he_monotonic_ns := he_monotonic_ns h; he_generation := he_generation h;
          he_error := set_error_exit info (he_error h); he_runtime_error_observed := he_runtime_error_observed h |}
  else h.
Definition update_records (e : ManagedElement) (info : ProcessExitInfo) (b : Bringup) : Bringup :=
  let error := b_application_error b in
  set_exit_records (map (update_entry (b_generation b) e info) (b_error_history b))
    (if ae_valid error && same_child e error then set_error_exit info error else error) b.

Definition UpdateExitInfo (i : nat) : BringupM unit :=
  do! e := element i in
  let info := GetExitInfo (el_process e) in
  do! _ := update_element i (set_exit_info info) in
  if negb (el_failure_detected e) then bm_ret tt else bm_modify (update_records e info).

(** ** Starting *)
(** [Start] and, when it succeeds, the element's record of the new child. *)
Definition launch_element (i : nat) : BringupM Z :=
  do! e := element i in
  do! b := bm_get in
  let spec := el_spec e in
  do! result := on_process i (Start os (es_executable spec) (es_arguments spec) (b_scope b) (es_execution_profile spec)) in
  if negb (result =? 0) then bm_ret result
  else
    do! t := now in
    do! ticks := bm_lift (ask (os_start_ticks os)) in
    do! _ := update_element i (fun e => set_launched (pr_pid (el_process e)) ticks t e) in
    bm_ret 0.

Fixpoint start_elements (indices : list nat) : BringupM Z :=
  match indices with
  | [] => bm_ret 0
  | i :: rest =>
      do! stopping := ShutdownRequested in
      if stopping then bm_ret (- ECANCELED) else
      do! result := launch_element i in
      if negb (result =? 0) then do! _ := RecordFailure i RUNTIME_ERROR result in bm_ret result
      else do! _ := PublishSystemStatus in start_elements rest
  end.
Definition StartGeneration : BringupM Z :=
  do! _ := bm_modify (fun b => set_generation (u64 (b_generation b + 1)) b) in
  do! b := bm_get in
  start_elements (seq 0 (length (b_elements b))).

(** ** Polling *)
(** The responses of one child: at most [n] packets. *)
Fixpoint drain_responses (n : nat) (i : nat) : BringupM unit :=
  match n with
  | O => bm_ret tt
  | S n =>
      do! answer := on_process i (ReceiveRuntimeStatus os) in
      match answer with
      | Err e => if (e =? - EAGAIN) || (e =? - ECONNRESET) || (e =? - EBADF) then bm_ret tt else drain_responses n i
      | Ok response =>
          do! t := now in
          do! _ := update_element i (fun e =>
            let change := if negb (el_status_valid e) || negb (rs_loop_heartbeat response =? rs_loop_heartbeat (el_last_runtime_status e))
                          then t else el_last_heartbeat_change_time e in
            let first := bool_decide (rs_state response = RUNNING) && negb (el_runtime_ready e) in
            set_status response (el_runtime_ready e || first) t (if first then t else change) e) in
          drain_responses n i
      end
  end.

Definition PollRuntimeStatuses : BringupM Z :=
  do! b := bm_get in
  if b_request_id b =? UINT64_MAX then bm_ret (- EOVERFLOW) else
  do! _ := bm_modify (fun b => set_request_id (b_request_id b + 1) b) in
  do! b := bm_get in
  let request_id := b_request_id b in
  do! _ := for_elements (fun i _ =>
    do! e := element i in
    if negb (el_process_alive e) || (pr_supervision_fd (el_process e) <? 0) then bm_ret tt
    else do! _ := on_process i (RequestRuntimeStatus os request_id) in bm_ret tt) tt in
  do! _ := for_elements (fun i _ =>
    do! e := element i in
    if negb (el_process_alive e) then bm_ret tt else drain_responses 8 i) tt in
  bm_ret 0.

(** The error and kind [AwaitRunning] finds on one element, and whether it is ready. *)
Definition startup_check (i : nat) : BringupM (Z * ElementFailureKind * bool) :=
  do! alive := on_process i (IsRunning os) in
  if negb alive then
    do! _ := update_element i (set_alive false) in bm_ret (- ECHILD, PROCESS_EXIT, true)
  else
  do! e := element i in
  let status := el_last_runtime_status e in
  if el_status_valid e &&
     (negb (bool_decide (rs_state status = STARTING)) && negb (bool_decide (rs_state status = RUNNING)) || negb (rs_runtime_error status =? 0))
  then bm_ret (if rs_runtime_error status =? 0 then - EPROTO else rs_runtime_error status, RUNTIME_ERROR, true)
  else if negb (el_runtime_ready e) || negb (bool_decide (rs_state status = RUNNING)) then
    do! t := now in
    if milliseconds (es_startup_timeout_ms (el_spec e)) <=? t - el_started_at e
    then bm_ret (- ETIMEDOUT, STATUS_TIMEOUT, false) else bm_ret (0, RUNTIME_ERROR, false)
  else
    do! t := now in
    if milliseconds (es_health_timeout_ms (el_spec e)) <=? t - el_last_response_time e
    then bm_ret (- ETIMEDOUT, STATUS_TIMEOUT, true) else bm_ret (0, RUNTIME_ERROR, true).

(** One cycle of [AwaitRunning]: [Some result] when it returns. *)
Definition await_cycle : BringupM (option Z) :=
  do! stopping := ShutdownRequested in
  if stopping then bm_ret (Some (- ECANCELED)) else
  do! polled := PollRuntimeStatuses in
  do! (failure, ready) := for_elements (fun i (s : Z * bool) =>
    do! (error, kind, ok) := startup_check i in
    if negb (error =? 0) then
      do! _ := RecordFailure i kind (if bool_decide (kind = PROCESS_EXIT) then 0 else error) in bm_ret (error, s.2 && ok)
    else bm_ret (s.1, s.2 && ok)) (polled, true) in
  do! stopping := ShutdownRequested in
  if stopping then bm_ret (Some (- ECANCELED))
  else if negb (failure =? 0) then bm_ret (Some failure)
  else if ready then bm_ret (Some 0)
  else do! _ := PublishSystemStatus in bm_ret None.
Fixpoint AwaitRunning (fuel : nat) : BringupM Z :=
  match fuel with
  | O => fun _ => None
  | S fuel =>
      do! cycle := now in
      do! r := await_cycle in
      match r with
      | Some result => bm_ret result
      | None => do! _ := bm_lift (sleep_until (cycle + milliseconds 100)) in AwaitRunning fuel
      end
  end.

(** ** Stopping *)
Definition latch (failure result : Z) : Z :=
  if negb (result =? 0) && negb (result =? - ESRCH) && (failure =? 0) then result else failure.

Definition stop_deadline (start : Z) (elements : list ManagedElement) : Z :=
  foldl (fun deadline e => if el_started e then Z.max deadline (start + milliseconds (es_shutdown_timeout_ms (el_spec e)) + milliseconds 1000)
                           else deadline) (start + milliseconds 1000) elements.

(** Whether the child is alive; [None] when it has just been collected, which alone
    ends the ownership ([started]). *)
Definition collect_child (i : nat) : BringupM (option bool) :=
  do! alive := on_process i (IsRunning os) in
  do! e := element i in
  if negb alive && xi_available (GetExitInfo (el_process e)) then
    do! _ := UpdateExitInfo i in
    do! _ := update_element i (set_started false) in bm_ret None
  else bm_ret (Some alive).

(** One child in one cycle of [StopGeneration]: the failure so far, whether a child
    remains, and which children were forced. *)
Definition stop_child (start cycle : Z) (i : nat) (s : Z * bool * list nat) : BringupM (Z * bool * list nat) :=
  let '(failure, remaining, forced) := s in
  do! e := element i in
  if negb (el_started e) then bm_ret s else
  do! collected := collect_child i in
  match collected with
  | None => bm_ret s
  | Some alive =>
      do! e := element i in
      let failure := if negb alive && (failure =? 0) then - ECHILD else failure in
      if pr_pid (el_process e) <=? 0 then bm_ret (failure, true, forced)
      else if negb (bool_decide (i ∈ forced)) && (milliseconds (es_shutdown_timeout_ms (el_spec e)) <=? cycle - start) then
        do! result := on_process i (ForceStop os) in bm_ret (latch failure result, true, i :: forced)
      else bm_ret (failure, true, forced)
  end.

Fixpoint stop_cycles (fuel : nat) (start deadline failure : Z) (forced : list nat) : BringupM Z :=
  match fuel with
  | O => fun _ => None
  | S fuel =>
      do! cycle := now in
      do! stopping := ShutdownRequested in
      do! _ := when stopping (SetApplicationState App.SHUTTING_DOWN) in
      do! (failure, remaining, forced) := for_elements (stop_child start cycle) (failure, false, forced) in
      do! _ := PublishIntrospection in
      if negb remaining then bm_ret failure else
      do! t := now in
      if deadline <=? t then bm_ret (if failure =? 0 then - ETIMEDOUT else failure)
      else
        do! _ := PublishSystemStatus in
        do! _ := bm_lift (sleep_until (cycle + milliseconds 100)) in
        stop_cycles fuel start deadline failure forced
  end.

Definition StopGeneration (fuel : nat) : BringupM Z :=
  do! start := now in
  do! b := bm_get in
  let deadline := stop_deadline start (b_elements b) in
  do! failure := for_elements (fun i failure =>
    do! e := element i in
    if negb (el_started e) then bm_ret failure else
    do! alive := on_process i (IsRunning os) in
    if negb alive then bm_ret failure
    else do! result := on_process i (RequestStop os) in bm_ret (latch failure result)) 0 in
  stop_cycles fuel start deadline failure [].

(** ** Shutdown *)
Definition fail_exit (b : Bringup) : Bringup := if b_exit_code b =? 0 then set_exit_code 1 b else b.

Definition restore_signal (installed : Bringup -> bool) (clear : Bringup -> Bringup) : BringupM unit :=
  do! b := bm_get in
  if negb (installed b) then bm_ret tt else
  do! error := sys in
  if error =? 0 then bm_modify clear
  else bm_modify fail_exit.
Definition RestoreSignalHandlers : BringupM unit :=
  do! _ := restore_signal b_sigterm_installed (set_sigterm_installed false) in
  restore_signal b_sigint_installed (set_sigint_installed false).

Definition Shutdown (fuel : nat) : BringupM unit :=
  do! b := bm_get in
  if bool_decide (b_application_state b = App.STOPPED) && negb (b_status_owned b) && negb (b_sigint_installed b) && negb (b_sigterm_installed b)
  then bm_ret tt else
  do! _ := RequestShutdown in
  do! _ := when (negb (bool_decide (b_application_state b = App.STOPPED))) (SetApplicationState App.SHUTTING_DOWN) in
  do! stopped := StopGeneration fuel in
  do! _ := when (negb (stopped =? 0)) (bm_modify fail_exit) in
  do! b := bm_get in
  do! _ := when (forallb (fun e => negb (el_started e)) (b_elements b)) (SetApplicationState App.STOPPED) in
  do! b := bm_get in
  do! _ := when (b_status_owned b)
    (do! closed := sys in
     do! unlinked := sys in
     do! _ := when (negb (closed =? 0) || negb (unlinked =? 0)) (bm_modify fail_exit) in
     bm_modify (set_status_owned (negb (unlinked =? 0) && negb (unlinked =? - ENOENT)))) in
  do! _ := bm_modify (set_running false) in
  do! _ := bm_modify (set_setup false) in
  RestoreSignalHandlers.

(** ** Setup *)
(** The fuel given to the two waiting loops. *)
Record Fuel := { fu_await : nat; fu_stop : nat; fu_run : nat }.

Definition install_signals : BringupM Z :=
  do! error := sys in
  if negb (error =? 0) then bm_ret error else
  do! _ := bm_modify (set_sigint_installed true) in
  do! error := sys in
  if negb (error =? 0) then do! _ := RestoreSignalHandlers in bm_ret error
  else do! _ := bm_modify (set_sigterm_installed true) in bm_ret 0.

(** Signal handlers and the status storage, created before any child. *)
Definition setup_prepare (scope application_name : list Z) : BringupM Z :=
  do! error := install_signals in
  if negb (error =? 0) then bm_ret error else
  do! created := sys in
  if negb (created =? 0) then do! _ := RestoreSignalHandlers in bm_ret created else
  do! _ := bm_modify (set_scope scope) in
  do! _ := bm_modify (set_application_name (take 127 application_name)) in
  do! _ := PublishIntrospection in
  bm_ret 0.

(** The first generation, or its cancellation. *)
Definition setup_launch (fuel : Fuel) : BringupM Z :=
  do! started := StartGeneration in
  do! result := (if started =? 0 then AwaitRunning (fu_await fuel) else bm_ret started) in
  do! stopping := ShutdownRequested in
  if stopping then do! _ := Shutdown (fu_stop fuel) in bm_ret (- ECANCELED)
  else
    do! _ := bm_modify (set_setup true) in
    do! _ := SetApplicationState (if result =? 0 then App.RUNNING else App.ERROR) in
    bm_ret 0.

Definition Setup (fuel : Fuel) (scope application_name : list Z) (specs : list ElementSpec) : BringupM Z :=
  do! b := bm_get in
  if negb (bool_decide (b_application_state b = App.INITIALIZING)) || b_setup b || b_sigint_installed b || b_sigterm_installed b
  then bm_ret (- EBUSY) else
  match ValidateElements specs with
  | Some _ => bm_ret (- EINVAL)
  | None =>
      do! _ := bm_modify (fun b => set_exit_code 0 (set_stop_requested false (set_elements (map new_element specs) b))) in
      do! error := setup_prepare scope application_name in
      if negb (error =? 0) then bm_ret error else setup_launch fuel
  end.

(** ** Reset *)
(** The next generation, once the old one is stopped. *)
Definition restart (fuel : Fuel) : BringupM Z :=
  do! _ := bm_modify (fun b => set_elements (map set_fresh (b_elements b)) b) in
  do! _ := PublishIntrospection in
  do! _ := bm_modify (set_request_id 0) in
  do! started := StartGeneration in
  if started =? 0 then AwaitRunning (fu_await fuel) else bm_ret started.

Definition ResetGeneration (fuel : Fuel) : BringupM unit :=
  do! _ := SetApplicationState App.RESETTING in
  do! stopped := StopGeneration (fu_stop fuel) in
  do! stopping := ShutdownRequested in
  if stopping then bm_ret tt else
  do! result := (if stopped =? 0 then restart fuel else bm_ret stopped) in
  do! stopping := ShutdownRequested in
  if stopping then bm_ret tt
  else if negb (result =? 0) then
    do! _ := StopGeneration (fu_stop fuel) in
    do! stopping := ShutdownRequested in
    if stopping then bm_ret tt else SetApplicationState App.ERROR
  else
    do! _ := bm_modify (fun b => set_exit_code 0 (set_application_error no_error b)) in
    SetApplicationState App.RUNNING.

(** ** Run *)
(** The failure the monitor sees on a living element. *)
Definition monitor_living (polling : Z) (i : nat) : BringupM unit :=
  do! e := element i in
  if el_failure_detected e then bm_ret tt else
  let timeout := milliseconds (es_health_timeout_ms (el_spec e)) in
  let status := el_last_runtime_status e in
  if polling =? - EOVERFLOW then RecordFailure i RUNTIME_ERROR polling else
  do! t := now in
  if timeout <=? t - el_last_response_time e then RecordFailure i STATUS_TIMEOUT 0
  else if negb (el_runtime_ready e) && (rs_runtime_error status =? 0) && (negb (el_status_valid e) || bool_decide (rs_state status = STARTING)) then
    do! t := now in
    when (milliseconds (es_startup_timeout_ms (el_spec e)) <=? t - el_started_at e) (RecordFailure i STATUS_TIMEOUT 0)
  else if negb (bool_decide (rs_state status = RUNNING)) || negb (rs_runtime_error status =? 0) then
    RecordFailure i RUNTIME_ERROR (if rs_runtime_error status =? 0 then - EPROTO else rs_runtime_error status)
  else
    do! t := now in
    when (timeout <=? t - el_last_heartbeat_change_time e) (RecordFailure i HEARTBEAT_STALL 0).

(** The body of the monitoring loop; the flag is set by [break]. *)
Definition monitor_element (polling : Z) (i : nat) (broken : bool) : BringupM bool :=
  if broken then bm_ret true else
  do! stopping := ShutdownRequested in
  if stopping then bm_ret true else
  do! e := element i in
  if negb (el_process_alive e) then bm_ret false else
  do! alive := on_process i (IsRunning os) in
  do! _ := (if negb alive then
              do! _ := update_element i (set_alive false) in
              if negb (el_failure_detected e) then RecordFailure i PROCESS_EXIT 0 else UpdateExitInfo i
            else monitor_living polling i) in
  bm_ret false.

(** One iteration: [true] when the loop goes on. *)
Definition run_cycle (fuel : Fuel) : BringupM bool :=
  do! reset := take_reset in
  do! _ := when reset (ResetGeneration fuel) in
  do! stopping := (if reset then ShutdownRequested else bm_ret false) in
  if stopping then bm_ret false else
  do! cycle := now in
  do! polling := PollRuntimeStatuses in
  do! _ := for_elements (monitor_element polling) false in
  do! stopping := ShutdownRequested in
  do! _ := when (negb stopping) (do! _ := PublishSystemStatus in bm_lift (sleep_until (cycle + milliseconds 100))) in
  bm_ret true.

Fixpoint run_cycles (n : nat) (fuel : Fuel) : BringupM unit :=
  match n with
  | O => fun _ => None
  | S n =>
      do! b := bm_get in
      do! stopping := (if b_running b then ShutdownRequested else bm_ret true) in
      if stopping then bm_ret tt else
      do! continue := run_cycle fuel in
      if continue then run_cycles n fuel else bm_ret tt
  end.

Definition Run (fuel : Fuel) : BringupM Z :=
  do! b := bm_get in
  if negb (b_setup b) then bm_ret (- EINVAL) else
  do! _ := bm_modify (set_running true) in
  do! _ := run_cycles (fu_run fuel) fuel in
  do! _ := Shutdown (fu_stop fuel) in
  do! b := bm_get in
  bm_ret (b_exit_code b).

(** [main] of an application: [Setup], then [Run] when it returned 0. *)
Definition supervise (fuel : Fuel) (scope application_name : list Z) (specs : list ElementSpec) : BringupM Z :=
  do! result := Setup fuel scope application_name specs in
  if result =? 0 then Run fuel else bm_ret result.
End Bringup.

Definition new_bringup : Bringup :=
  {| b_elements := []; b_running := false; b_setup := false; b_exit_code := 0; b_application_state := App.INITIALIZING;
     b_application_error := no_error; b_error_history := []; b_generation := 0; b_error_sequence := 0; b_status_owned := false;
     b_status_sequence := 0; b_last_publish_error := 0; b_request_id := 0; b_sigint_installed := false; b_sigterm_installed := false;
     b_reset_gate := 0; b_stop_requested := false; b_shutdown_requested := false; b_scope := []; b_application_name := [];
     b_introspection := None |}.
Definition new_world (k : Kernel) : World :=
  {| w_kernel := k; w_bringup := new_bringup; w_published := []; w_states := [App.INITIALIZING] |}.
