(* ===== verification/BringupLogic.v ===== *)
(** * Bringup supervisor: reasoning about its operations

    A computation [respects] a preorder on worlds when every result is related to
    the world it started from.  The section shows once that all operations respect
    any preorder that the primitive actions respect; invariants of the supervisor
    are then instances. *)
From S2P Require Import Prelude ProcessRuntime SystemScope ChildProcess BringupState Bringup.

Definition respects {A} (R : relation World) (m : BringupM A) : Prop := forall w a w', m w = Some (a, w') -> R w w'.

(** Calls that only take time. *)
Definition calm {A} (m : OsM A) : Prop :=
  forall k, k_log (m k).2 = k_log k /\ k_children (m k).2 = k_children k /\ k_fds (m k).2 = k_fds k /\ k_time k <= k_time (m k).2.
Lemma ask_calm {A} (f : nat -> A) : calm (ask f).
Proof. intros k. simpl. split_and!; done || lia. Qed.
Lemma clock_calm f : calm (clock_now f).
Proof. intros k. simpl. split_and!; done || lia. Qed.
Lemma sleep_calm t : calm (sleep_until t).
Proof. intros k. simpl. split_and!; done || lia. Qed.
Create HintDb respects.
#[export] Hint Resolve ask_calm clock_calm sleep_calm : respects.

(** Updates of an element that leave its process, ownership, start time and registration alone. *)
Definition benign (f : ManagedElement -> ManagedElement) : Prop :=
  forall e, el_process (f e) = el_process e /\ el_started (f e) = el_started e /\ el_spec (f e) = el_spec e /\ el_started_at (f e) = el_started_at e.

(** Changes of the supervisor that leave alone its elements, state, errors and status
    sequence, and only raise the stop flags and close the reset gate. *)
Record plain (f : Bringup -> Bringup) : Prop := {
  pl_elements : forall b, b_elements (f b) = b_elements b;
  pl_state : forall b, b_application_state (f b) = b_application_state b;
  pl_error : forall b, b_application_error (f b) = b_application_error b;
  pl_history : forall b, b_error_history (f b) = b_error_history b /\ b_error_sequence (f b) = b_error_sequence b;
  pl_status : forall b, b_status_sequence (f b) = b_status_sequence b;
  pl_stop : forall b, b_stop_requested b || b_shutdown_requested b = true -> b_stop_requested (f b) || b_shutdown_requested (f b) = true;
  pl_gate : forall b, b_reset_gate (f b) <> 0 -> b_reset_gate b <> 0
}.

Lemma request_reset_plain : plain RequestReset.
Proof. constructor; intros b; unfold RequestReset; repeat case_match; simpl; try done; lia. Qed.
Lemma fail_exit_plain : plain fail_exit.
Proof. constructor; intros b; unfold fail_exit; case_match; done. Qed.

Ltac plain_solve := first [apply request_reset_plain | apply fail_exit_plain | constructor; intros ?b; simpl; rewrite ?orb_true_r; by try done].

(** The first [n] iterations of the loop of [Run], or all if it ends before. *)
Fixpoint run_upto (os : Os) (n : nat) (fuel : Fuel) : BringupM unit :=
  match n with
  | O => bm_ret tt
  | S n =>
      do! b := bm_get in
      do! stopping := (if b_running b then ShutdownRequested os else bm_ret true) in
      if stopping then bm_ret tt else
      do! continue := run_cycle os fuel in
      if continue then run_upto os n fuel else bm_ret tt
  end.
(** [supervise] up to there: what an observer finds while the supervisor runs. *)
Definition supervise_upto (os : Os) (n : nat) (fuel : Fuel) (scope name : list Z) (specs : list ElementSpec) : BringupM unit :=
  do! result := Setup os fuel scope name specs in
  if result =? 0 then do! _ := bm_modify (set_running true) in run_upto os n fuel else bm_ret tt.

Section Respects.
Variable os : Os.
Variable R : relation World.
Context `{!PreOrder R}.

Lemma respects_ret {A} (a : A) : respects R (bm_ret a).
Proof. intros w b w' [= _ ->]. done. Qed.
Lemma respects_bind {A B} (m : BringupM A) (f : A -> BringupM B) : respects R m -> (forall a, respects R (f a)) -> respects R (bm_bind m f).
Proof.
  intros Hm Hf w b w' E. unfold bm_bind in E. destruct (m w) as [[a w1]|] eqn:Em; [|done].
  etrans; [by eapply Hm|by eapply Hf].
Qed.
Lemma respects_get : respects R bm_get.
Proof. intros w b w' [= _ ->]. done. Qed.
Lemma respects_element i : respects R (element i).
Proof. intros w b w' E. unfold element in E. case_match; simplify_eq. done. Qed.
Lemma respects_when b m : respects R m -> respects R (when b m).
Proof. destruct b; [done|intros _; apply respects_ret]. Qed.
Lemma respects_fail {A} : respects R (fun _ => @None (A * World)).
Proof. done. Qed.
Lemma respects_for {S} (body : nat -> S -> BringupM S) s : (forall i s, respects R (body i s)) -> respects R (for_elements body s).
Proof.
  intros Hb. apply respects_bind; [apply respects_get|]. intros b. generalize (seq 0 (length (b_elements b))) as l. intros l.
  revert s. induction l as [|i l IH]; intros s; [apply respects_ret|]. apply respects_bind; auto.
Qed.

Hypothesis R_calm : forall A (m : OsM A), calm m -> respects R (bm_lift m).
Hypothesis R_running : forall i, respects R (on_process i (IsRunning os)).
Hypothesis R_request : forall i id, respects R (on_process i (RequestRuntimeStatus os id)).
Hypothesis R_receive : forall i, respects R (on_process i (ReceiveRuntimeStatus os)).
Hypothesis R_update : forall i f, benign f -> respects R (update_element i f).
Hypothesis R_plain : forall f, plain f -> respects R (bm_modify f).
Hypothesis R_publish : respects R (PublishSystemStatus os).

(** Follow the structure of the code. *)
Ltac respect :=
  repeat first
    [ apply respects_ret | apply respects_get | apply respects_element | apply respects_fail | apply R_calm; solve [auto with respects nocore] | apply R_publish
    | apply R_running | apply R_request | apply R_receive
    | apply respects_when | apply respects_for; intros ? ?
    | apply R_plain; plain_solve | apply R_update; by intros ?
    | solve [auto with respects nocore]
    | apply respects_bind; [|intros ?]
    | progress case_match ].

Lemma sys_respects : respects R (sys os).
Proof. unfold sys. respect. Qed.
Lemma now_respects : respects R (now os).
Proof. unfold now. respect. Qed.
Lemma shutdown_requested_respects : respects R (ShutdownRequested os).
Proof. unfold ShutdownRequested. respect. Qed.
Lemma take_reset_respects : respects R (take_reset os).
Proof. unfold take_reset. respect. Qed.
Lemma introspection_respects : respects R PublishIntrospection.
Proof. unfold PublishIntrospection. respect. Qed.
Lemma restore_respects : respects R (RestoreSignalHandlers os).
Proof. unfold RestoreSignalHandlers, restore_signal, sys. respect. Qed.
#[local] Hint Resolve sys_respects now_respects shutdown_requested_respects take_reset_respects introspection_respects restore_respects : respects.

Lemma drain_respects n i : respects R (drain_responses os n i).
Proof.
  revert i. induction n as [|n IH]; intros i; cbn [drain_responses]; [respect|].
  apply respects_bind; [apply R_receive|]. intros [response|e]; [|case_match; [respect|apply IH]].
  apply respects_bind; [respect|]. intros t. apply respects_bind; [|intros _; apply IH]. apply R_update. by intros e.
Qed.
#[local] Hint Resolve drain_respects : respects.
Lemma poll_respects : respects R (PollRuntimeStatuses os).
Proof. unfold PollRuntimeStatuses. respect. Qed.
Lemma startup_check_respects i : respects R (startup_check os i).
Proof. unfold startup_check. respect. Qed.
#[local] Hint Resolve poll_respects startup_check_respects : respects.

(** With the actions that record errors and change the state. *)
Hypothesis R_set_state : forall s gate, respects R (bm_modify (set_state s gate)).
Hypothesis R_log_state : forall s, respects R (log_state s).
Hypothesis R_history : forall t event observed, respects R (bm_modify (append_history t event observed)).
Hypothesis R_error : forall event, respects R (bm_modify (set_application_error event)).
Hypothesis R_records : forall e info, respects R (bm_modify (update_records e info)).
#[local] Hint Resolve R_set_state R_log_state R_history R_error R_records : respects.

Lemma state_respects s : respects R (SetApplicationState os s).
Proof. unfold SetApplicationState. respect. Qed.
Lemma exit_respects i : respects R (UpdateExitInfo i).
Proof. unfold UpdateExitInfo. respect. Qed.
#[local] Hint Resolve state_respects exit_respects : respects.
Lemma record_respects i kind error : respects R (RecordFailure os i kind error).
Proof. unfold RecordFailure. respect. Qed.
#[local] Hint Resolve record_respects : respects.

(** With the actions on children. *)
Hypothesis R_launch : forall i, respects R (launch_element os i).
Hypothesis R_collect : forall i, respects R (collect_child os i).
Hypothesis R_stop : forall i, respects R (on_process i (RequestStop os)).
Hypothesis R_force : forall i, respects R (on_process i (ForceStop os)).
Hypothesis R_fresh : respects R (bm_modify (fun b => set_elements (map set_fresh (b_elements b)) b)).
Hypothesis R_clear : respects R (bm_modify (fun b => set_exit_code 0 (set_application_error no_error b))).
#[local] Hint Resolve R_launch R_collect R_stop R_force R_fresh R_clear : respects.

Lemma start_elements_respects l : respects R (start_elements os l).
Proof. induction l as [|i l IH]; cbn [start_elements]; respect. Qed.
#[local] Hint Resolve start_elements_respects : respects.
Lemma start_generation_respects : respects R (StartGeneration os).
Proof. unfold StartGeneration. respect. Qed.
Lemma await_cycle_respects : respects R (await_cycle os).
Proof. unfold await_cycle. respect. Qed.
#[local] Hint Resolve start_generation_respects await_cycle_respects : respects.
Lemma await_running_respects fuel : respects R (AwaitRunning os fuel).
Proof. induction fuel as [|fuel IH]; cbn [AwaitRunning]; respect. Qed.
Lemma stop_child_respects start cycle i s : respects R (stop_child os start cycle i s).
Proof. unfold stop_child. respect. Qed.
#[local] Hint Resolve await_running_respects stop_child_respects : respects.
Lemma stop_cycles_respects fuel start deadline failure forced : respects R (stop_cycles os fuel start deadline failure forced).
Proof. revert failure forced. induction fuel as [|fuel IH]; intros; cbn [stop_cycles]; respect. Qed.
#[local] Hint Resolve stop_cycles_respects : respects.
Lemma stop_generation_respects fuel : respects R (StopGeneration os fuel).
Proof. unfold StopGeneration. respect. Qed.
#[local] Hint Resolve stop_generation_respects : respects.
Lemma shutdown_respects fuel : respects R (Shutdown os fuel).
Proof. unfold Shutdown, RequestShutdown. respect. Qed.
#[local] Hint Resolve shutdown_respects : respects.
Lemma setup_prepare_respects scope name : respects R (bm_modify (set_scope scope)) -> respects R (setup_prepare os scope name).
Proof. intros Hs. unfold setup_prepare, install_signals. respect. Qed.
Lemma setup_launch_respects fuel : respects R (setup_launch os fuel).
Proof. unfold setup_launch. respect. Qed.
Lemma restart_respects fuel : respects R (restart os fuel).
Proof. unfold restart. respect. Qed.
#[local] Hint Resolve restart_respects : respects.
Lemma reset_respects fuel : respects R (ResetGeneration os fuel).
Proof. unfold ResetGeneration. respect. Qed.
#[local] Hint Resolve reset_respects : respects.
Lemma monitor_element_respects polling i broken : respects R (monitor_element os polling i broken).
Proof. unfold monitor_element, monitor_living. respect. Qed.
#[local] Hint Resolve monitor_element_respects : respects.
Lemma run_cycle_respects fuel : respects R (run_cycle os fuel).
Proof. unfold run_cycle. respect. Qed.
#[local] Hint Resolve run_cycle_respects : respects.
Lemma run_cycles_respects n fuel : respects R (run_cycles os n fuel).
Proof. induction n as [|n IH]; cbn [run_cycles]; respect. Qed.
#[local] Hint Resolve run_cycles_respects : respects.
Lemma run_upto_respects n fuel : respects R (run_upto os n fuel).
Proof. induction n as [|n IH]; cbn [run_upto]; respect. Qed.
Lemma run_respects fuel : respects R (Run os fuel).
Proof. unfold Run. respect. Qed.
End Respects.
