(* ===== verification/BringupSafety.v ===== *)
(** * Bringup supervisor: ownership of children, states, reported status *)
From S2P Require Import Prelude ProcessRuntime SystemScope ChildProcess ProcessSafety BringupState Bringup BringupLogic.

(** A property that an operation keeps. *)
Definition keeping (I : World -> Prop) : relation World := fun w w' => I w -> I w'.
#[export] Instance keeping_preorder I : PreOrder (keeping I).
Proof. split; unfold keeping; [auto|]. intros ? ? ?. auto. Qed.

Lemma respects_keeping {A} I (m : BringupM A) : (forall w a w', I w -> m w = Some (a, w') -> I w') -> respects (keeping I) m.
Proof. intros H w a w' E Hw. eauto. Qed.

(** ** Ownership *)
(** Per element: the socket goes with the child, a collected child is not owned, and
    an element that is not [started] owns no child. *)
Record element_ok (e : ManagedElement) : Prop := {
  eo_paired : paired (el_process e);
  eo_exited : exited_ok (el_process e);
  eo_started : el_started e = false -> pr_pid (el_process e) <= 0
}.
Definition pids (l : list ManagedElement) : list Z := flat_map (fun e => own_pid (el_process e)) l.
Definition sockets (l : list ManagedElement) : list Z := flat_map (fun e => own_fd (el_process e)) l.

(** The children not yet reaped are those of the elements and [others]; the open
    descriptors their sockets and [rest]; every signal went to a child, and since the moment that
    is the start of the run signals and reaping concern only children forked since. *)
Record owns `{Moment} (others rest : list Z) (w : World) : Prop := {
  ow_children : k_children (w_kernel w) ≡ₚ pids (b_elements (w_bringup w)) ++ others;
  ow_children_nodup : NoDup (k_children (w_kernel w));
  ow_fds : k_fds (w_kernel w) ≡ₚ sockets (b_elements (w_bringup w)) ++ rest;
  ow_fds_nodup : NoDup (k_fds (w_kernel w));
  ow_signals : Forall signal_ok (k_log (w_kernel w));
  ow_elements : Forall element_ok (b_elements (w_bringup w));
  ow_traced : traced others (w_kernel w)
}.

(** One element and the others around it. *)
Lemma pids_split l1 e l2 others : pids (l1 ++ e :: l2) ++ others ≡ₚ own_pid (el_process e) ++ (pids (l1 ++ l2) ++ others).
Proof. unfold pids. rewrite !List.flat_map_app. simpl. rewrite <- !app_assoc. rewrite Permutation_app_swap_app. done. Qed.
Lemma sockets_split l1 e l2 rest : sockets (l1 ++ e :: l2) ++ rest ≡ₚ own_fd (el_process e) ++ (sockets (l1 ++ l2) ++ rest).
Proof. unfold sockets. rewrite !List.flat_map_app. simpl. rewrite <- !app_assoc. rewrite Permutation_app_swap_app. done. Qed.

Lemma traced_more `{Moment} more others k : traced others k -> traced (more ++ others) k.
Proof. intros [Hb Ht]. split; [|done]. by apply submseteq_inserts_l. Qed.
Lemma owns_holds `{Moment} others rest w l1 e l2 : b_elements (w_bringup w) = l1 ++ e :: l2 -> owns others rest w ->
  holds (el_process e) (pids (l1 ++ l2) ++ others) (sockets (l1 ++ l2) ++ rest) (w_kernel w).
Proof.
  intros E [Hc Hcn Hf Hfn Hs He Ht]. rewrite E in *. constructor; try done; [..|by apply traced_more].
  - rewrite Hc. apply pids_split.
  - rewrite Hf. apply sockets_split.
Qed.

(** The elements' processes and ownership flags decide everything. *)
Lemma holds_owns `{Moment} others rest k w l1 e l2 : mo_children ⊆+ others -> holds (el_process e) (pids (l1 ++ l2) ++ others) (sockets (l1 ++ l2) ++ rest) k ->
  w_kernel w = k -> b_elements (w_bringup w) = l1 ++ e :: l2 -> Forall element_ok (l1 ++ l2) -> element_ok e -> owns others rest w.
Proof.
  intros Hb [Hc Hcn Hf Hfn Hs [_ Ht]] <- E Hl He. constructor; try done; rewrite ?E.
  - rewrite Hc. symmetry. apply pids_split.
  - rewrite Hf. symmetry. apply sockets_split.
  - apply Forall_app in Hl as [? ?]. apply Forall_app. split; [done|]. by constructor.
Qed.

Lemma lookup_split {A} (l : list A) i e : l !! i = Some e -> exists l1 l2, l = l1 ++ e :: l2 /\ forall f, alter f i l = l1 ++ f e :: l2.
Proof.
  revert i. induction l as [|x l IH]; intros [|i] H; simplify_eq/=.
  - by exists [], l.
  - destruct (IH _ H) as (l1 & l2 & -> & Hf). exists (x :: l1), l2. split; [done|]. intros f. simpl. f_equal. apply Hf.
Qed.

Lemma alter_alter {A} (f g : A -> A) i (l : list A) : alter g i (alter f i l) = alter (fun x => g (f x)) i l.
Proof. revert i. induction l as [|x l IH]; intros [|i]; simpl; try done. f_equal. apply IH. Qed.

Section Owns.
Context {start : Moment}.
Variable os : Os.
Hypothesis block_collects : forall n, match os_block os n with WaitStatus _ => True | WaitError e => Z.pos e = ECHILD | WaitRunning => False end.
Variables others rest : list Z.
Hypothesis others_before : mo_children ⊆+ others.
Let I := owns others rest.

(** Everything but the kernel and the elements' processes is irrelevant. *)
Lemma owns_same w w' : w_kernel w' = w_kernel w -> b_elements (w_bringup w') = b_elements (w_bringup w) -> I w -> I w'.
Proof. intros Ek Ee [? ? ? ? ? ? ?]. constructor; by rewrite ?Ek, ?Ee. Qed.

Lemma owns_calm A (m : OsM A) : calm m -> respects (keeping I) (bm_lift m).
Proof.
  intros Hm. apply respects_keeping. intros w a w' [? ? ? ? ? ? [? Ht]] E. unfold bm_lift in E. specialize (Hm (w_kernel w)).
  destruct (m (w_kernel w)) as [b k]. injection E as _ <-. destruct Hm as (El & Ec & Ef & _). simpl in *.
  constructor; simpl; rewrite ?El, ?Ec, ?Ef; try done. split; [done|]. by rewrite El, Ec.
Qed.

Lemma owns_modify f : (forall b, b_elements (f b) = b_elements b) -> respects (keeping I) (bm_modify f).
Proof. intros Hf. apply respects_keeping. intros w a w' H [= _ <-]. eapply owns_same; [..|exact H]; [done|apply Hf]. Qed.

Lemma owns_log_state s : respects (keeping I) (log_state s).
Proof. apply respects_keeping. intros w a w' H [= _ <-]. by apply (owns_same w). Qed.
Lemma owns_log_published s : respects (keeping I) (log_published s).
Proof. apply respects_keeping. intros w a w' H [= _ <-]. by apply (owns_same w). Qed.

Lemma owns_elements_split w l1 e l2 : b_elements (w_bringup w) = l1 ++ e :: l2 -> I w -> element_ok e /\ Forall element_ok (l1 ++ l2).
Proof.
  intros El Hw. pose proof (ow_elements _ _ _ Hw) as H. rewrite El in H. apply Forall_app in H as [? H]. apply Forall_cons in H as [? ?].
  split; [done|]. by apply Forall_app.
Qed.

(** An update that keeps the process, and the ownership flag or the absence of a child. *)
Lemma owns_update i f : (forall e, element_ok e -> el_process (f e) = el_process e /\ element_ok (f e)) -> respects (keeping I) (update_element i f).
Proof.
  intros Hf. apply respects_keeping. intros w a w' Hw [= _ <-].
  destruct (b_elements (w_bringup w) !! i) as [e|] eqn:E.
  - destruct (lookup_split _ _ _ E) as (l1 & l2 & El & Ha).
    assert (element_ok e /\ Forall element_ok (l1 ++ l2)) as [He Hl] by by apply (owns_elements_split w).
    destruct (Hf e He) as [Hp Hok]. eapply holds_owns; [done| |done|simpl; apply Ha|done|done].
    rewrite Hp. exact (owns_holds _ _ _ _ _ _ El Hw).
  - eapply owns_same; [..|exact Hw]; [done|]. simpl.
    rewrite (list_alter_ext f (fun x => x) _ _ i) by (congruence || done). by apply list_alter_id.
Qed.

Lemma owns_on_process {A} i (op : Process -> OsM (A * Process)) :
  (forall p l1 l2, keeps l1 l2 p (op p)) -> (forall p k, let '(_, p', _) := op p k in tame p p') -> respects (keeping I) (on_process i op).
Proof.
  intros Hkeeps Htame. apply respects_keeping. intros w a w' Hw E. unfold on_process, bm_bind, element in E.
  destruct (b_elements (w_bringup w) !! i) as [e|] eqn:Ei; [|done]. unfold bm_lift in E.
  destruct (lookup_split _ _ _ Ei) as (l1 & l2 & El & Ha).
  assert (element_ok e /\ Forall element_ok (l1 ++ l2)) as [He Hl] by by apply (owns_elements_split w).
  pose proof (Hkeeps (el_process e) _ _ (eo_paired _ He) _ (owns_holds _ _ _ _ _ _ El Hw)) as Hk.
  pose proof (Htame (el_process e) (w_kernel w)) as Ht. destruct (op (el_process e) (w_kernel w)) as [[a' p'] k'].
  destruct Hk as [Hk Hpair]. injection E as _ <-. eapply (holds_owns _ _ _ _ l1 (set_process p' e)); [done|exact Hk|done|simpl; apply Ha|done|].
  destruct He as [? Hx Hst]. constructor; simpl; [done|by eapply tame_exited|]. intros Hs. eapply tame_gone; [exact Ht|auto].
Qed.

(** [Start], then the record of the new child. *)
Lemma owns_launch i : respects (keeping I) (launch_element os i).
Proof.
  apply respects_keeping. intros w a w' Hw E. unfold launch_element, bm_bind, element, bm_get in E.
  destruct (b_elements (w_bringup w) !! i) as [e|] eqn:Ei; [|done]. unfold on_process, bm_bind, element, bm_lift in E. rewrite Ei in E.
  destruct (lookup_split _ _ _ Ei) as (l1 & l2 & El & Ha).
  assert (element_ok e /\ Forall element_ok (l1 ++ l2)) as [He Hl] by by apply (owns_elements_split w).
  pose proof (start_keeps os (pids (l1 ++ l2) ++ others) (sockets (l1 ++ l2) ++ rest) (es_executable (el_spec e)) (es_arguments (el_spec e)) (b_scope (w_bringup w))
    (es_execution_profile (el_spec e)) (el_process e) (eo_paired _ He) _ (owns_holds _ _ _ _ _ _ El Hw)) as Hk.
  pose proof (start_pid os block_collects (es_executable (el_spec e)) (es_arguments (el_spec e)) (b_scope (w_bringup w))
    (es_execution_profile (el_spec e)) (el_process e) (w_kernel w) (eo_exited _ He)) as Hs.
  destruct (Start os _ _ _ _ (el_process e) (w_kernel w)) as [[r p'] k'].
  destruct Hk as [Hk Hpair]. destruct Hs as [Hx Hgone]. simpl in Hk, Hpair.
  unfold update_element, bm_modify, now, bm_lift, clock_now, ask, bm_ret in E. destruct (Z.eqb_spec r 0) as [->|Hr]; simpl in E.
  - injection E as _ <-. eapply (holds_owns _ _ _ _ l1 (set_launched (pr_pid p') _ _ (set_process p' e)) l2); [done| |done| |done|].
    + destruct Hk. simpl. by constructor.
    + simpl. by rewrite alter_alter, Ha.
    + by constructor.
  - injection E as _ <-. eapply (holds_owns _ _ _ _ l1 (set_process p' e)); [done|exact Hk|done|simpl; apply Ha|done|].
    destruct He as [? ? Hst]. constructor; simpl; [done|done|auto].
Qed.

Lemma running_owns i : respects (keeping I) (on_process i (IsRunning os)).
Proof. apply owns_on_process; intros; [apply is_running_keeps|by apply is_running_pid]. Qed.
Lemma request_owns i id : respects (keeping I) (on_process i (RequestRuntimeStatus os id)).
Proof. apply owns_on_process; intros; [apply request_status_keeps|apply request_pid]. Qed.
Lemma receive_owns i : respects (keeping I) (on_process i (ReceiveRuntimeStatus os)).
Proof. apply owns_on_process; intros; [apply receive_status_keeps|apply receive_pid]. Qed.
Lemma stop_owns i : respects (keeping I) (on_process i (RequestStop os)).
Proof. apply owns_on_process; intros; [apply signal_keeps|by apply signal_pid]. Qed.
Lemma force_owns i : respects (keeping I) (on_process i (ForceStop os)).
Proof. apply owns_on_process; intros; [apply signal_keeps|by apply signal_pid]. Qed.

Lemma update_owns i f : benign f -> respects (keeping I) (update_element i f).
Proof. intros Hf. apply owns_update. intros e [? ? ?]. destruct (Hf e) as (E & Es & _). split; [done|]. constructor; by rewrite ?E, ?Es. Qed.
Lemma plain_owns f : plain f -> respects (keeping I) (bm_modify f).
Proof. intros []. by apply owns_modify. Qed.

Lemma publish_owns : respects (keeping I) (PublishSystemStatus os).
Proof.
  unfold PublishSystemStatus, publish_snapshot, PublishIntrospection, sys. repeat first
    [ apply respects_bind; [apply _| |intros ?] | apply respects_get; apply _ | apply respects_ret; apply _ | apply owns_calm; auto with respects
    | apply owns_modify; done | apply owns_log_published | case_match ].
Qed.
Lemma exit_owns i : respects (keeping I) (UpdateExitInfo i).
Proof. apply exit_respects; auto using update_owns, owns_modify; apply _. Qed.
Lemma fresh_owns : respects (keeping I) (bm_modify (fun b => set_elements (map set_fresh (b_elements b)) b)).
Proof.
  apply respects_keeping. intros w a w' [Hc Hcn Hf Hfn Hs He Ht] [= _ <-].
  assert (forall l, pids (map set_fresh l) = pids l /\ sockets (map set_fresh l) = sockets l /\ (Forall element_ok l -> Forall element_ok (map set_fresh l))) as H.
  { induction l as [|e l (IH1 & IH2 & IH3)]; [done|]. unfold pids, sockets in *. simpl. rewrite IH1, IH2. split_and!; try done.
    intros [[? ? ?] ?]%Forall_cons. apply Forall_cons. split; [constructor; simpl; assumption|auto]. }
  destruct (H (b_elements (w_bringup w))) as (E1 & E2 & E3). constructor; simpl; rewrite ?E1, ?E2; auto.
Qed.

Lemma collect_owns i : respects (keeping I) (collect_child os i).
Proof.
  unfold collect_child. apply respects_bind; [apply _|apply running_owns|intros alive].
  apply respects_keeping. intros w a w' Hw E. unfold bm_bind, element in E.
  destruct (b_elements (w_bringup w) !! i) as [e|] eqn:Ei; [|done].
  destruct (negb alive && xi_available (GetExitInfo (el_process e))) eqn:Hc; [|unfold bm_ret in E; by simplify_eq].
  apply andb_prop in Hc as [_ Hx].
  assert (Hgone : pr_pid (el_process e) <= 0).
  { destruct (lookup_split _ _ _ Ei) as (l1 & l2 & El & _). apply (owns_elements_split w) in El as [[_ Hex _] _]; [|done].
    unfold GetExitInfo in Hx. apply Hex. by destruct (pr_exited (el_process e)). }
  destruct (UpdateExitInfo i w) as [[u w1]|] eqn:Eu; [|done]. injection E as _ <-.
  pose proof (exit_owns i _ _ _ Eu Hw) as Hw1.
  assert (exists e1, b_elements (w_bringup w1) !! i = Some e1 /\ el_process e1 = el_process e) as (e1 & Ei1 & Ep).
  { unfold UpdateExitInfo, bm_bind, element in Eu. rewrite Ei in Eu. unfold update_element, bm_modify in Eu.
    destruct (negb (el_failure_detected e)); injection Eu as _ <-; simpl; rewrite list_lookup_alter_eq, Ei; by eexists. }
  destruct (lookup_split _ _ _ Ei1) as (l1 & l2 & El & Ha). destruct (owns_elements_split w1 _ _ _ El Hw1) as [[? ? ?] Hl].
  eapply (holds_owns _ _ _ _ l1 (set_started false e1) l2); [done| |done|simpl; apply Ha|done|].
  - simpl. exact (owns_holds _ _ _ _ _ _ El Hw1).
  - constructor; [done|done|]. intros _. simpl. by rewrite Ep.
Qed.

(** All the obligations of [BringupLogic]. *)
Ltac owns_solve := auto using owns_calm, running_owns, request_owns, receive_owns, update_owns, plain_owns, publish_owns,
  owns_launch, collect_owns, stop_owns, force_owns, owns_log_state, fresh_owns, owns_modify; try apply _.
Lemma run_owns fuel : respects (keeping I) (Run os fuel).
Proof. apply run_respects; owns_solve. Qed.
Lemma run_upto_owns n fuel : respects (keeping I) (run_upto os n fuel).
Proof. apply run_upto_respects; owns_solve. Qed.
Lemma setup_launch_owns fuel : respects (keeping I) (setup_launch os fuel).
Proof. apply setup_launch_respects; owns_solve. Qed.
Lemma setup_prepare_owns scope name : respects (keeping I) (setup_prepare os scope name).
Proof. apply setup_prepare_respects; owns_solve. Qed.
End Owns.
