(* ===== verification/BringupStates.v ===== *)
(** * Bringup supervisor: the application state machine *)
From S2P Require Import Prelude ProcessRuntime SystemScope ChildProcess ProcessSafety BringupState Bringup BringupLogic.

(** ** Transitions *)
Definition next_state (s s' : ApplicationState) : bool :=
  match s, s' with
  | App.INITIALIZING, (App.RUNNING | App.ERROR | App.SHUTTING_DOWN)
  | App.RUNNING, (App.ERROR | App.SHUTTING_DOWN)
  | App.ERROR, (App.RESETTING | App.SHUTTING_DOWN)
  | App.RESETTING, (App.RUNNING | App.ERROR | App.SHUTTING_DOWN)
  | App.SHUTTING_DOWN, App.STOPPED => true
  | _, _ => false
  end.
Fixpoint state_path (l : list ApplicationState) : bool :=
  match l with
  | s :: ((s' :: _) as rest) => next_state s s' && state_path rest
  | _ => true
  end.

Lemma state_path_snoc l s s' : state_path l = true -> last l = Some s -> next_state s s' = true -> state_path (l ++ [s']) = true.
Proof.
  induction l as [|a l IH]; [done|]. destruct l as [|b l]; simpl.
  - intros _ [= ->] ->. done.
  - intros [-> H]%andb_prop Hl Hn. simpl in *. auto.
Qed.

(** A stop signal or [RequestShutdown] has been seen. *)
Definition flagged (b : Bringup) : bool := b_stop_requested b || b_shutdown_requested b.

(** A snapshot that reports [RUNNING] reports no error. *)
Definition snapshot_ok (s : SystemStatus) : Prop := st_state s = App.RUNNING -> st_error_valid s = false.

Record states_ok (w : World) : Prop := {
  so_path : state_path (w_states w) = true;
  so_last : last (w_states w) = Some (b_application_state (w_bringup w));
  so_stop : b_application_state (w_bringup w) = App.SHUTTING_DOWN \/ b_application_state (w_bringup w) = App.STOPPED -> flagged (w_bringup w) = true;
  so_gate : b_reset_gate (w_bringup w) <> 0 -> b_application_state (w_bringup w) = App.ERROR;
  so_running : b_application_state (w_bringup w) = App.RUNNING \/ b_application_state (w_bringup w) = App.INITIALIZING -> ae_valid (b_application_error (w_bringup w)) = false;
  so_published : Forall snapshot_ok (w_published w)
}.
Definition in_state (s : ApplicationState) (w : World) : Prop := states_ok w /\ b_application_state (w_bringup w) = s.

(** ** Quiet operations *)
Record quiet (w w' : World) : Prop := {
  qu_state : b_application_state (w_bringup w') = b_application_state (w_bringup w);
  qu_states : w_states w' = w_states w;
  qu_valid : ae_valid (b_application_error (w_bringup w')) = ae_valid (b_application_error (w_bringup w));
  qu_gate : b_reset_gate (w_bringup w') <> 0 -> b_reset_gate (w_bringup w) <> 0;
  qu_flag : flagged (w_bringup w) = true -> flagged (w_bringup w') = true;
  qu_published : Forall snapshot_ok (w_published w) ->
    (b_application_state (w_bringup w) = App.RUNNING -> ae_valid (b_application_error (w_bringup w)) = false) -> Forall snapshot_ok (w_published w')
}.
#[export] Instance quiet_preorder : PreOrder quiet.
Proof.
  split; [by constructor|]. intros w1 w2 w3 [Es1 ? Ev1 ? ? ?] [Es2 ? Ev2 ? ? Hp]. constructor; try congruence; auto.
  intros Hf Hr. apply Hp; [auto|]. by rewrite Es1, Ev1.
Qed.

Lemma quiet_state s w w' : quiet w w' -> in_state s w -> in_state s w'.
Proof.
  intros [Es Ess Ev Hg Hf Hp] [[? ? Hstop Hgate Hrun ?] Hs]. split; [|congruence].
  constructor; rewrite ?Es, ?Ess, ?Ev; auto.
Qed.

Section Quiet.
Variable os : Os.

Lemma quiet_kernel {A} (m : OsM A) : respects quiet (bm_lift m).
Proof. intros w a w' E. unfold bm_lift in E. destruct (m (w_kernel w)). injection E as _ <-. by constructor. Qed.
Lemma quiet_calm A (m : OsM A) : calm m -> respects quiet (bm_lift m).
Proof. intros _. apply quiet_kernel. Qed.
Lemma quiet_update i f : respects quiet (update_element i f).
Proof. intros w a w' [= _ <-]. by constructor. Qed.
Lemma quiet_plain f : plain f -> respects quiet (bm_modify f).
Proof. intros [? Hs He ? ? Hf Hg] w a w' [= _ <-]. constructor; simpl; [apply Hs|done|by rewrite He|apply Hg|apply Hf|done]. Qed.
Lemma quiet_process {A} i (op : Process -> OsM (A * Process)) : respects quiet (on_process i op).
Proof.
  apply respects_bind; [apply _|apply respects_element, _|]. intros e. apply respects_bind; [apply _|apply quiet_kernel|]. intros [a p].
  apply respects_bind; [apply _|apply quiet_update|]. intros _. apply respects_ret, _.
Qed.
Lemma quiet_snapshot : respects quiet publish_snapshot.
Proof.
  intros w u w' [= _ <-]. constructor; try done. simpl. intros Hp Hr. apply Forall_app. split; [done|]. constructor; [|constructor].
  unfold snapshot_ok, status_snapshot. destruct (ae_valid (b_application_error (w_bringup w))); simpl; auto.
Qed.
Lemma quiet_publish : respects quiet (PublishSystemStatus os).
Proof.
  unfold PublishSystemStatus, PublishIntrospection, sys.
  repeat first [ apply quiet_snapshot | apply respects_bind; [apply _| |intros ?] | apply respects_get, _ | apply respects_ret, _ | apply quiet_kernel
    | apply quiet_plain; plain_solve | case_match ].
  all: intros w u w' [= _ <-]; by constructor.
Qed.
Lemma quiet_shutdown_requested : respects quiet (ShutdownRequested os).
Proof. apply shutdown_requested_respects; [apply _|apply quiet_calm|apply quiet_plain]. Qed.
Lemma quiet_poll : respects quiet (PollRuntimeStatuses os).
Proof. apply poll_respects; auto using quiet_calm, quiet_process, quiet_update, quiet_plain; apply _. Qed.
Lemma quiet_startup_check i : respects quiet (startup_check os i).
Proof. apply startup_check_respects; auto using quiet_calm, quiet_process, quiet_update, quiet_plain; apply _. Qed.
Lemma quiet_exit_info i : respects quiet (UpdateExitInfo i).
Proof.
  unfold UpdateExitInfo. apply respects_bind; [apply _|apply respects_element, _|]. intros e.
  apply respects_bind; [apply _|apply quiet_update|]. intros _. case_match; [apply respects_ret, _|].
  intros w u w' [= _ <-]. constructor; try done. simpl. by case_match.
Qed.
Lemma quiet_launch i : respects quiet (launch_element os i).
Proof.
  unfold launch_element, now. repeat first [ apply quiet_process | apply quiet_kernel | apply quiet_update | apply respects_bind; [apply _| |intros ?] | apply respects_element, _ | apply respects_get, _
    | apply respects_ret, _ | case_match ].
Qed.
Lemma quiet_collect i : respects quiet (collect_child os i).
Proof.
  unfold collect_child. repeat first [ apply quiet_process | apply quiet_exit_info | apply quiet_update | apply respects_bind; [apply _| |intros ?] | apply respects_element, _
    | apply respects_ret, _ | case_match ].
Qed.
Lemma quiet_restore : respects quiet (RestoreSignalHandlers os).
Proof. apply restore_respects; auto using quiet_calm, quiet_plain; apply _. Qed.
End Quiet.

(** ** Triples *)
Definition ht {A} (P : World -> Prop) (m : BringupM A) (Q : A -> World -> Prop) : Prop :=
  forall w a w', P w -> m w = Some (a, w') -> Q a w'.

Lemma ht_ret {A} (P : World -> Prop) (a : A) (Q : A -> World -> Prop) : (forall w, P w -> Q a w) -> ht P (bm_ret a) Q.
Proof. intros H w b w' Hw [= <- <-]. auto. Qed.
Lemma ht_bind {A B} P (m : BringupM A) Q (f : A -> BringupM B) T : ht P m Q -> (forall a, ht (Q a) (f a) T) -> ht P (bm_bind m f) T.
Proof.
  intros Hm Hf w b w' Hw E. unfold bm_bind in E. destruct (m w) as [[a w1]|] eqn:Em; [|done]. eapply Hf; [|exact E]. eauto.
Qed.
Lemma ht_conseq {A} (P P' : World -> Prop) (m : BringupM A) (Q Q' : A -> World -> Prop) :
  ht P' m Q' -> (forall w, P w -> P' w) -> (forall a w, Q' a w -> Q a w) -> ht P m Q.
Proof. intros Hm HP HQ w a w' Hw E. eauto. Qed.
Lemma ht_fail {A} P (Q : A -> World -> Prop) : ht P (fun _ => None) Q.
Proof. intros w a w' _ [=]. Qed.
(** A quiet operation keeps the state. *)
Lemma ht_quiet {A} s (m : BringupM A) : respects quiet m -> ht (in_state s) m (fun _ => in_state s).
Proof. intros Hm w a w' Hw E. eauto using quiet_state. Qed.
Lemma ht_pre {A} (C : Prop) P (m : BringupM A) Q : (C -> ht P m Q) -> ht (fun w => C /\ P w) m Q.
Proof. intros H w a w' [HC Hw] E. by eapply H. Qed.
Lemma ht_for {S} (body : nat -> S -> BringupM S) (P : S -> World -> Prop) s :
  (forall i s, ht (P s) (body i s) P) -> ht (P s) (for_elements body s) P.
Proof.
  intros Hb. unfold for_elements. apply (ht_bind _ _ (fun _ => P s)); [intros w b w' Hw [= _ <-]; done|]. intros b.
  generalize (seq 0 (length (b_elements b))) as l. intros l. revert s. induction l as [|i l IH]; intros s; [by apply ht_ret|].
  eapply ht_bind; [apply Hb|]. intros s1. apply IH.
Qed.

(** ** Changing the state *)
(** What [SetApplicationState] needs: all but the link between [RUNNING] and the error. *)
Record in_weak (s : ApplicationState) (w : World) : Prop := {
  wk_path : state_path (w_states w) = true;
  wk_last : last (w_states w) = Some (b_application_state (w_bringup w));
  wk_stop : b_application_state (w_bringup w) = App.SHUTTING_DOWN \/ b_application_state (w_bringup w) = App.STOPPED -> flagged (w_bringup w) = true;
  wk_gate : b_reset_gate (w_bringup w) <> 0 -> b_application_state (w_bringup w) = App.ERROR;
  wk_state : b_application_state (w_bringup w) = s;
  wk_published : Forall snapshot_ok (w_published w)
}.
Lemma in_state_weak s w : in_state s w -> in_weak s w.
Proof. intros [[? ? ? ? ? ?] ?]. by constructor. Qed.

(** The new state is legal here: a stop has been seen, no error is latched. *)
Definition entry_ok (s' : ApplicationState) (w : World) : Prop :=
  (s' = App.SHUTTING_DOWN \/ s' = App.STOPPED -> flagged (w_bringup w) = true) /\
  (s' = App.RUNNING \/ s' = App.INITIALIZING -> ae_valid (b_application_error (w_bringup w)) = false).

Section States.
Variable os : Os.

Lemma set_state_spec s s' : s = s' \/ next_state s s' = true ->
  ht (fun w => in_weak s w /\ entry_ok s' w) (SetApplicationState os s') (fun _ => in_state s').
Proof.
  intros Hn w a w' [[Hp Hl Hst Hg Es Hpub] [He Hr]] E. unfold SetApplicationState, bm_bind, bm_get in E.
  destruct (bool_decide (b_application_state (w_bringup w) = s')) eqn:Hb.
  - apply bool_decide_eq_true_1 in Hb. injection E as _ <-. split; [|done]. constructor; try done. by rewrite Hb.
  - apply bool_decide_eq_false_1 in Hb. unfold bm_modify, log_state in E.
    eapply quiet_state; [by eapply quiet_publish|]. split; [|done]. constructor; simpl; try done.
    + eapply state_path_snoc; eauto. rewrite Es. destruct Hn as [->|Hn]; [congruence|done].
    + by rewrite last_snoc.
    + case_bool_decide; done.
Qed.

Lemma shutdown_requested_spec s : ht (in_state s) (ShutdownRequested os) (fun b w => in_state s w /\ flagged (w_bringup w) = b).
Proof.
  intros w b w' Hw E. split; [by eapply ht_quiet; [apply quiet_shutdown_requested|..]|].
  unfold ShutdownRequested, bm_bind, bm_lift, ask, when, bm_get, bm_modify, bm_ret in E. by destruct (os_stop os _); injection E as <- <-.
Qed.

(** What a recorded failure does to the state. *)
Definition failing (s s' : ApplicationState) : Prop := s' = s \/ (s' = App.ERROR /\ (s = App.INITIALIZING \/ s = App.RUNNING)).
Definition failing_from (s : ApplicationState) (w : World) : Prop := exists s', failing s s' /\ in_state s' w.
Lemma failing_refl s w : in_state s w -> failing_from s w.
Proof. exists s. split; [by left|done]. Qed.
Lemma failing_trans s s' w : failing s s' -> failing_from s' w -> failing_from s w.
Proof. intros H (s'' & H' & Hw). exists s''. split; [|done]. unfold failing in *. naive_solver. Qed.
Lemma failing_quiet {A} s (m : BringupM A) : respects quiet m -> ht (failing_from s) m (fun _ => failing_from s).
Proof. intros Hm w a w' (s' & Hs & Hw) E. exists s'. split; [done|]. eauto using quiet_state. Qed.

(** The first error is latched, then the state follows. *)
Lemma latch_error_spec s event :
  ht (fun w => in_state s w /\ flagged (w_bringup w) = false)
    (do! _ := bm_modify (set_application_error event) in
     if bool_decide (s = App.RESETTING) then bm_ret tt else SetApplicationState os App.ERROR) (fun _ => failing_from s).
Proof.
  intros w a w' [Hw Hf] E. destruct (in_state_weak _ _ Hw) as [Hp Hl Hst Hg Es Hpub]. unfold bm_bind, bm_modify in E.
  assert (s <> App.SHUTTING_DOWN /\ s <> App.STOPPED) as [Hsd Hsp] by (split; intros ->; rewrite Hst in Hf by auto; done).
  destruct (bool_decide (s = App.RESETTING)) eqn:Hb.
  - injection E as _ <-. apply bool_decide_eq_true_1 in Hb. apply failing_refl. split; [|done]. constructor; simpl; try done. rewrite Es, Hb. naive_solver.
  - apply bool_decide_eq_false_1 in Hb.
    assert (in_state App.ERROR w') as Hw'; [|exists App.ERROR; split; [|done]; unfold failing; destruct s; naive_solver].
    refine (set_state_spec s App.ERROR _ _ _ _ _ E); [destruct s; naive_solver|]. split; [by constructor|]. split; naive_solver.
Qed.

Lemma record_spec s i kind error : ht (in_state s) (RecordFailure os i kind error) (fun _ => failing_from s).
Proof.
  unfold RecordFailure. eapply ht_bind; [apply ht_quiet, respects_element, _|]. intros e.
  destruct (el_failure_detected e); [apply ht_ret, failing_refl|].
  eapply ht_bind; [apply shutdown_requested_spec|]. intros [|]; [apply ht_ret; intros w [? _]; by apply failing_refl|]. cbv zeta.
  set (P := fun w => in_state s w /\ flagged (w_bringup w) = false).
  apply (ht_bind _ _ (fun _ => P)). { intros w u w' [Hw Hf] E. split; [by eapply ht_quiet; [apply quiet_update|..]|]. by injection E as _ <-. }
  intros ?. apply (ht_bind _ _ (fun _ => P)). { intros w u w' [Hw Hf] E. split; [by eapply ht_quiet; [apply quiet_kernel|..]|]. by injection E as _ <-. }
  intros t. apply (ht_bind _ _ (fun _ => P)).
  { intros w u w' [Hw Hf] [= _ <-]. split; [|done]. eapply quiet_state; [|exact Hw]. by constructor. }
  intros ?. apply (ht_bind _ _ (fun b w => b = w_bringup w /\ P w)). { intros w b w' Hw [= <- <-]. done. }
  intros b w u w' [-> Hw] E. destruct (ae_valid (b_application_error (w_bringup w))).
  - injection E as _ <-. apply failing_refl, Hw.
  - destruct Hw as [Hw Hf]. eapply latch_error_spec; [split; [exact Hw|exact Hf]|]. by destruct Hw as [_ <-].
Qed.

(** *** Starting *)
Definition started_spec (s : ApplicationState) (r : Z) (w : World) : Prop := (r = 0 -> in_state s w) /\ failing_from s w.
Lemma started_same s r w : in_state s w -> started_spec s r w.
Proof. intros Hw. split; [done|by apply failing_refl]. Qed.

Lemma start_elements_spec s l : ht (in_state s) (start_elements os l) (started_spec s).
Proof.
  induction l as [|i l IH]; cbn [start_elements]; [apply ht_ret, started_same|].
  eapply ht_bind; [apply shutdown_requested_spec|]. intros [|]; [apply ht_ret; intros w [? _]; by apply started_same|].
  apply (ht_bind _ _ (fun _ => in_state s)); [intros w r w' [Hw _] E; by eapply ht_quiet; [apply quiet_launch|..]|]. intros r.
  destruct (Z.eqb_spec r 0) as [->|Hr]; simpl.
  - eapply ht_bind; [apply ht_quiet, quiet_publish|]. intros ?. apply IH.
  - eapply ht_bind; [apply record_spec|]. intros ?. apply ht_ret. by split.
Qed.
Lemma start_generation_spec s : ht (in_state s) (StartGeneration os) (started_spec s).
Proof.
  unfold StartGeneration. eapply ht_bind; [apply ht_quiet, quiet_plain; plain_solve|]. intros ?.
  eapply ht_bind; [apply ht_quiet, respects_get, _|]. intros b. apply start_elements_spec.
Qed.

Lemma await_cycle_spec s : ht (in_state s) (await_cycle os)
  (fun r w => match r with Some code => started_spec s code w | None => in_state s w end).
Proof.
  unfold await_cycle. eapply ht_bind; [apply shutdown_requested_spec|]. intros [|]; [apply ht_ret; intros w [? _]; by apply started_same|].
  apply (ht_bind _ _ (fun _ => in_state s)); [intros w r w' [Hw _] E; by eapply ht_quiet; [apply quiet_poll|..]|]. intros polled.
  apply (ht_bind _ _ (fun (x : Z * bool) => started_spec s x.1)).
  { eapply ht_conseq; [apply (ht_for _ (fun (x : Z * bool) => started_spec s x.1))|intros w Hw; by apply started_same|done].
    intros i [failure ready]. simpl. apply (ht_bind _ _ (fun _ => started_spec s failure)).
    { intros w r w' [H1 H2] E. split; [intros Hz|]; [by eapply ht_quiet; [apply quiet_startup_check|apply H1|]|].
      by eapply failing_quiet; [apply quiet_startup_check|..]. }
    intros [[error kind] ok]. destruct (Z.eqb_spec error 0) as [->|He]; simpl; [by apply ht_ret; intros w Hw|].
    apply (ht_bind _ _ (fun _ => failing_from s)); [|intros ?; apply ht_ret; by split].
    intros w u w' [_ (s' & Hs & Hw)] E. eapply failing_trans; [exact Hs|]. by eapply record_spec. }
  intros [failure ready]. simpl. apply (ht_bind _ _ (fun _ => started_spec s failure)).
  { intros w r w' [H1 H2] E. split; [intros Hz|]; [by eapply ht_quiet; [apply quiet_shutdown_requested|apply H1|]|].
    by eapply failing_quiet; [apply quiet_shutdown_requested|..]. }
  intros [|]; [apply ht_ret; intros w [_ ?]; by split|]. destruct (Z.eqb_spec failure 0) as [->|Hf]; simpl; [|by apply ht_ret].
  destruct ready; [by apply ht_ret|]. apply (ht_bind _ _ (fun _ => in_state s)); [|intros ?; by apply ht_ret].
  intros w u w' [H1 _] E. by eapply ht_quiet; [apply quiet_publish|apply H1|].
Qed.
Lemma await_running_spec fuel s : ht (in_state s) (AwaitRunning os fuel) (started_spec s).
Proof.
  induction fuel as [|fuel IH]; cbn [AwaitRunning]; [apply ht_fail|].
  eapply ht_bind; [apply ht_quiet, quiet_kernel|]. intros ?. eapply ht_bind; [apply await_cycle_spec|]. intros [code|]; [by apply ht_ret|].
  eapply ht_bind; [apply ht_quiet, quiet_kernel|]. intros ?. apply IH.
Qed.

(** *** Stopping *)
Definition stopping_from (s : ApplicationState) (w : World) : Prop := in_state s w \/ in_state App.SHUTTING_DOWN w.
Lemma stopping_quiet {A} s (m : BringupM A) : respects quiet m -> ht (stopping_from s) m (fun _ => stopping_from s).
Proof. intros Hm w a w' [Hw|Hw] E; [left|right]; eauto using quiet_state. Qed.
Lemma entry_shutting_down w : flagged (w_bringup w) = true -> entry_ok App.SHUTTING_DOWN w.
Proof. split; naive_solver. Qed.
Lemma to_shutting_down s w : s <> App.STOPPED -> stopping_from s w -> exists s', in_weak s' w /\ (s' = App.SHUTTING_DOWN \/ next_state s' App.SHUTTING_DOWN = true).
Proof. intros Hs [Hw|Hw]; [exists s|exists App.SHUTTING_DOWN]; (split; [by apply in_state_weak|]); [destruct s; auto; done|by left]. Qed.

Lemma stop_child_quiet start cycle i x : respects quiet (stop_child os start cycle i x).
Proof.
  unfold stop_child. repeat first [ apply quiet_process | apply quiet_collect | apply respects_bind; [apply _| |intros ?] | apply respects_element, _
    | apply respects_ret, _ | case_match ].
Qed.

Lemma stop_cycles_spec fuel s start deadline failure forced : s <> App.STOPPED ->
  ht (stopping_from s) (stop_cycles os fuel start deadline failure forced) (fun _ => stopping_from s).
Proof.
  intros Hs. revert failure forced. induction fuel as [|fuel IH]; intros failure forced; cbn [stop_cycles]; [apply ht_fail|].
  eapply ht_bind; [apply stopping_quiet, quiet_kernel|]. intros cycle.
  apply (ht_bind _ _ (fun b w => stopping_from s w /\ (b = true -> flagged (w_bringup w) = true))).
  { intros w b w' [Hw|Hw] E; (eapply shutdown_requested_spec in E; [|exact Hw]); destruct E as [? <-]; (split; [|done]); [by left|by right]. }
  intros stopping. apply (ht_bind _ _ (fun _ => stopping_from s)).
  { destruct stopping; [|apply ht_ret; by intros w [? _]]. intros w u w' [Hw Hf] E.
    destruct (to_shutting_down s w Hs Hw) as (s' & Hw' & Hn). right. eapply set_state_spec; [exact Hn| |exact E].
    split; [done|]. by apply entry_shutting_down, Hf. }
  intros ?. eapply ht_bind; [apply stopping_quiet, respects_for; [apply _|]; intros; apply stop_child_quiet|].
  intros [[failure' remaining] forced']. eapply ht_bind; [apply stopping_quiet, quiet_plain; plain_solve|]. intros ?.
  destruct remaining; simpl; [|by apply ht_ret]. eapply ht_bind; [apply stopping_quiet, quiet_kernel|]. intros t.
  case_match; [by apply ht_ret|]. eapply ht_bind; [apply stopping_quiet, quiet_publish|]. intros ?.
  eapply ht_bind; [apply stopping_quiet, quiet_kernel|]. intros ?. apply IH.
Qed.

Lemma stop_generation_spec fuel s : s <> App.STOPPED -> ht (in_state s) (StopGeneration os fuel) (fun _ => stopping_from s).
Proof.
  intros Hs. unfold StopGeneration. eapply ht_bind; [apply ht_quiet, quiet_kernel|]. intros start.
  eapply ht_bind; [apply ht_quiet, respects_get, _|]. intros b. cbv zeta.
  eapply ht_bind; [apply ht_quiet, respects_for; [apply _|]; intros i x|].
  - repeat first [ apply quiet_process | apply respects_bind; [apply _| |intros ?] | apply respects_element, _ | apply respects_ret, _ | case_match ].
  - intros failure. eapply ht_conseq; [by apply stop_cycles_spec|intros w Hw; by left|done].
Qed.
End States.

(** ** Shutdown, Setup, Reset and Run *)
Definition same_elements (w w' : World) : Prop := b_elements (w_bringup w') = b_elements (w_bringup w).
#[export] Instance same_elements_preorder : PreOrder same_elements.
Proof. split; unfold same_elements; [done|]. intros ? ? ? ? ?. congruence. Qed.
Definition none_started (w : World) : Prop := Forall (fun e => el_started e = false) (b_elements (w_bringup w)).

Section Lifecycle.
Variable os : Os.

Lemma same_plain f : plain f -> respects same_elements (bm_modify f).
Proof. intros [He _ _ _ _ _ _] w a w' [= _ <-]. apply He. Qed.
Lemma same_calm A (m : OsM A) : calm m -> respects same_elements (bm_lift m).
Proof. intros _ w a w' E. unfold bm_lift in E. destruct (m (w_kernel w)). by injection E as _ <-. Qed.
Lemma same_publish : respects same_elements (PublishSystemStatus os).
Proof.
  unfold PublishSystemStatus, PublishIntrospection, sys.
  repeat first [ apply respects_bind; [apply _| |intros ?] | apply respects_get, _ | apply respects_ret, _ | apply same_calm; auto with respects
    | apply same_plain; plain_solve | case_match ].
  all: by intros w u w' [= _ <-].
Qed.
Lemma same_state s : respects same_elements (SetApplicationState os s).
Proof.
  unfold SetApplicationState. repeat first [ apply same_publish | apply respects_bind; [apply _| |intros ?] | apply respects_get, _ | apply respects_ret, _ | case_match ].
  all: by intros w u w' [= _ <-].
Qed.

(** Where [Shutdown] ends: [STOPPED] with every child collected, or still shutting down. *)
Definition shut (w : World) : Prop := in_state App.SHUTTING_DOWN w \/ (in_state App.STOPPED w /\ none_started w).

(** The end of [Shutdown]: storage, flags and signal handlers. *)
Lemma shutdown_tail_respects R `{!PreOrder R} :
  (forall A (m : OsM A), calm m -> respects R (bm_lift m)) -> (forall f, plain f -> respects R (bm_modify f)) ->
  respects R (do! b := bm_get in
    do! _ := when (b_status_owned b)
      (do! closed := sys os in
       do! unlinked := sys os in
       do! _ := when (negb (closed =? 0) || negb (unlinked =? 0)) (bm_modify fail_exit) in
       bm_modify (set_status_owned (negb (unlinked =? 0) && negb (unlinked =? - ENOENT)))) in
    do! _ := bm_modify (set_running false) in
    do! _ := bm_modify (set_setup false) in
    RestoreSignalHandlers os).
Proof.
  intros Ha Hp. repeat first [ by apply restore_respects | by apply sys_respects | apply respects_bind; [done| |intros ?] | apply respects_get, _ | apply respects_ret, _
    | apply respects_when; [done|] | apply Hp; plain_solve ].
Qed.

Lemma shutdown_spec fuel s : s <> App.STOPPED -> ht (in_state s) (Shutdown os fuel) (fun _ => shut).
Proof.
  intros Hs. unfold Shutdown. apply (ht_bind _ _ (fun b w => b_application_state b = s /\ in_state s w)).
  { intros w b w' Hw [= <- <-]. split; [apply Hw|done]. }
  intros b0. apply ht_pre. intros Eb. rewrite bool_decide_eq_false_2 by congruence. simpl.
  apply (ht_bind _ _ (fun _ w => in_state s w /\ flagged (w_bringup w) = true)).
  { intros w u w' Hw [= _ <-]. split; [|apply orb_true_r]. eapply quiet_state; [|exact Hw]. constructor; try done. intros _. apply orb_true_r. }
  intros ?. apply (ht_bind _ _ (fun _ => in_state App.SHUTTING_DOWN)).
  { intros w u w' [Hw Hf] E. destruct (to_shutting_down s w Hs (or_introl Hw)) as (s' & Hw' & Hn).
    eapply set_state_spec; [exact Hn| |exact E]. split; [done|by apply entry_shutting_down]. }
  intros ?. apply (ht_bind _ _ (fun _ => in_state App.SHUTTING_DOWN)).
  { eapply ht_conseq; [by apply (stop_generation_spec os fuel App.SHUTTING_DOWN)|done|]. by intros ? w [?|?]. }
  intros stopped. apply (ht_bind _ _ (fun _ => in_state App.SHUTTING_DOWN)).
  { apply ht_quiet, respects_when; [apply _|]. apply quiet_plain, fail_exit_plain. }
  intros ?. apply (ht_bind _ _ (fun b w => b = w_bringup w /\ in_state App.SHUTTING_DOWN w)).
  { intros w b w' Hw [= <- <-]. done. }
  intros b1. apply (ht_bind _ _ (fun _ => shut)).
  { intros w u w' [-> Hw] E. destruct (forallb _ _) eqn:Hall; simpl in E; [|injection E as _ <-; by left]. right. split.
    - eapply (set_state_spec os App.SHUTTING_DOWN); [by right| |exact E]. split; [by apply in_state_weak|].
      split; [|naive_solver]. intros _. apply (so_stop _ (proj1 Hw)). left. apply Hw.
    - unfold none_started. rewrite (same_state _ _ _ _ E). apply Forall_forall. intros e He. rewrite forallb_forall in Hall.
      specialize (Hall e). apply list_elem_of_In in He. destruct (el_started e); [by discriminate Hall|done]. }
  intros ? w u w' Hw E.
  pose proof (shutdown_tail_respects quiet (quiet_calm) (quiet_plain) _ _ _ E) as Hq.
  pose proof (shutdown_tail_respects same_elements (same_calm) (same_plain) _ _ _ E) as He.
  destruct Hw as [Hw|[Hw Hn]]; [left; by eapply quiet_state|right]. split; [by eapply quiet_state|].
  unfold none_started. by rewrite He.
Qed.

Lemma in_state_flag s w : in_state s w -> flagged (w_bringup w) = false -> s <> App.SHUTTING_DOWN /\ s <> App.STOPPED.
Proof. intros [[_ _ Hst _ _ _] Hs] Hf. rewrite Hs in Hst. split; intros ->; rewrite Hst in Hf by auto; done. Qed.

(** [StartGeneration], then [AwaitRunning]. *)
Lemma generation_spec fuel s : ht (in_state s)
  (do! started := StartGeneration os in if started =? 0 then AwaitRunning os fuel else bm_ret started) (started_spec s).
Proof.
  eapply ht_bind; [apply start_generation_spec|]. intros r. destruct (Z.eqb_spec r 0) as [->|Hr]; [|by apply ht_ret].
  eapply ht_conseq; [apply await_running_spec| |done]. intros w [H _]. auto.
Qed.

(** After [setup_launch]: running without error, in error, or shut down. *)
Lemma setup_launch_spec fuel : ht (in_state App.INITIALIZING) (setup_launch os fuel)
  (fun r w => if r =? 0 then in_state App.RUNNING w \/ in_state App.ERROR w else shut w).
Proof.
  unfold setup_launch. eapply ht_bind; [apply start_generation_spec|]. intros r.
  apply (ht_bind _ _ (started_spec App.INITIALIZING)).
  { destruct (Z.eqb_spec r 0) as [->|Hr]; [|by apply ht_ret].
    eapply ht_conseq; [apply await_running_spec| |done]. intros w [H _]. auto. }
  intros result. apply (ht_bind _ _ (fun b w => started_spec App.INITIALIZING result w /\ flagged (w_bringup w) = b)).
  { intros w b w' [H1 (s' & Hs & Hw)] E. pose proof (shutdown_requested_spec os s' _ _ _ Hw E) as [Hw' Hf]. split; [|done].
    split; [|by exists s']. intros Hz. exact (proj1 (shutdown_requested_spec os _ _ _ _ (H1 Hz) E)). }
  intros [|].
  - apply (ht_bind _ _ (fun _ => shut)); [|intros ?; by apply ht_ret]. intros w u w' [[_ (s' & Hs & Hw)] _] E.
    eapply (shutdown_spec _ s'); [|exact Hw|exact E]. intros ->. destruct Hs as [?|[? _]]; done.
  - apply (ht_bind _ _ (fun _ => started_spec App.INITIALIZING result)).
    { intros w u w' [[H1 (s' & Hs & Hw)] _] [= _ <-].
      assert (forall s, in_state s w -> in_state s {| w_kernel := w_kernel w; w_bringup := set_setup true (w_bringup w); w_published := w_published w; w_states := w_states w |}) as Hq.
      { intros s Hw0. eapply quiet_state; [|exact Hw0]. by constructor. }
      split; [auto|]. exists s'. auto. }
    intros ?. destruct (Z.eqb_spec result 0) as [->|Hr].
    + apply (ht_bind _ _ (fun _ => in_state App.RUNNING)); [|intros ?; apply ht_ret; by left].
      eapply ht_conseq; [apply (set_state_spec os App.INITIALIZING); by right| |done].
      intros w [H1 _]. specialize (H1 eq_refl). split; [by apply in_state_weak|]. split; [naive_solver|]. intros _. apply (so_running _ (proj1 H1)). right. apply H1.
    + apply (ht_bind _ _ (fun _ => in_state App.ERROR)); [|intros ?; apply ht_ret; by right].
      intros w u w' [_ (s' & Hs & Hw)] E. eapply (set_state_spec os s'); [|split; [by apply in_state_weak|]|exact E]; [|split; naive_solver].
      destruct Hs as [->|[-> _]]; auto.
Qed.

(** *** Reset *)
Definition reset_done (w : World) : Prop :=
  in_state App.RUNNING w \/ in_state App.ERROR w \/ (flagged (w_bringup w) = true /\ (in_state App.RESETTING w \/ in_state App.SHUTTING_DOWN w)).

Lemma stopping_check s : ht (stopping_from s) (ShutdownRequested os)
  (fun b w => if b then flagged (w_bringup w) = true /\ stopping_from s w else flagged (w_bringup w) = false /\ in_state s w).
Proof.
  intros w b w' Hw E. destruct Hw as [Hw|Hw]; (eapply shutdown_requested_spec in E; [|exact Hw]); destruct E as [Hw' Hf]; destruct b.
  - split; [done|by left].
  - done.
  - split; [done|by right].
  - apply in_state_flag in Hw' as [? _]; done.
Qed.

Lemma restart_spec fuel : ht (in_state App.RESETTING) (restart os fuel) (fun _ => in_state App.RESETTING).
Proof.
  unfold restart. apply (ht_bind _ _ (fun _ => in_state App.RESETTING)).
  { intros w u w' Hw [= _ <-]. eapply quiet_state; [|exact Hw]. by constructor. }
  intros ?. eapply ht_bind; [apply ht_quiet, quiet_plain; plain_solve|]. intros ?.
  eapply ht_bind; [apply ht_quiet, quiet_plain; plain_solve|]. intros ?.
  eapply ht_conseq; [apply generation_spec|done|]. intros r w [_ (s' & Hs & Hw)]. by destruct Hs as [->|[_ [?|?]]].
Qed.

Lemma reset_spec fuel : ht (in_state App.ERROR) (ResetGeneration os fuel) (fun _ => reset_done).
Proof.
  unfold ResetGeneration. apply (ht_bind _ _ (fun _ => in_state App.RESETTING)).
  { eapply ht_conseq; [apply (set_state_spec os App.ERROR); by right| |done]. intros w Hw. split; [by apply in_state_weak|]. split; naive_solver. }
  intros ?. eapply ht_bind; [by apply stop_generation_spec|]. intros stopped. eapply ht_bind; [apply stopping_check|].
  intros [|]; [apply ht_ret; intros w [? Hw]; right; right; split; [done|exact Hw]|].
  apply (ht_bind _ _ (fun _ => in_state App.RESETTING)).
  { intros w r w' [_ Hw] E. destruct (stopped =? 0); [by eapply restart_spec|by injection E as _ <-]. }
  intros result. eapply ht_bind; [apply shutdown_requested_spec|].
  intros [|]; [apply ht_ret; intros w [Hw ?]; right; right; split; [done|by left]|].
  destruct (negb (result =? 0)).
  - apply (ht_bind _ _ (fun _ => stopping_from App.RESETTING)).
    { intros w r w' [Hw _] E. by eapply stop_generation_spec. }
    intros ?. eapply ht_bind; [apply stopping_check|].
    intros [|]; [apply ht_ret; intros w [? Hw]; right; right; split; [done|exact Hw]|].
    eapply ht_conseq; [apply (set_state_spec os App.RESETTING); by right| |intros ? w ?; right; by left].
    intros w [_ Hw]. split; [by apply in_state_weak|]. split; naive_solver.
  - apply (ht_bind _ _ (fun _ w => in_weak App.RESETTING w /\ entry_ok App.RUNNING w)).
    { intros w u w' [Hw _] [= _ <-]. apply in_state_weak in Hw. destruct Hw. split; [by constructor|]. split; naive_solver. }
    intros ?. eapply ht_conseq; [apply (set_state_spec os App.RESETTING); by right|done|intros ? w ?; by left].
Qed.

(** *** Monitoring *)
Definition monitored (w : World) : Prop := in_state App.RUNNING w \/ in_state App.ERROR w.
Lemma monitored_quiet {A} (m : BringupM A) : respects quiet m -> ht monitored m (fun _ => monitored).
Proof. intros Hm w a w' [Hw|Hw] E; [left|right]; eauto using quiet_state. Qed.
Lemma monitored_record i kind error : ht monitored (RecordFailure os i kind error) (fun _ => monitored).
Proof.
  intros w a w' [Hw|Hw] E; pose proof (record_spec os _ i kind error _ _ _ Hw E) as (s' & [->|[-> _]] & Hw'); unfold monitored; auto.
Qed.

Lemma monitor_element_spec polling i broken : ht monitored (monitor_element os polling i broken) (fun _ => monitored).
Proof.
  unfold monitor_element, monitor_living, when, now.
  repeat first [ apply monitored_record | apply ht_ret; by auto | by apply ht_ret | apply monitored_quiet, quiet_shutdown_requested | apply monitored_quiet, quiet_process
    | apply monitored_quiet, quiet_kernel | apply monitored_quiet, quiet_update | apply monitored_quiet, quiet_exit_info
    | apply monitored_quiet, respects_element, _
    | apply (ht_bind _ _ (fun _ => monitored)); [|intros ?] | case_match ].
Qed.

(** The loop goes on in a monitored state; it ends there or after a stop during reset. *)
Definition run_end (w : World) : Prop := monitored w \/ in_state App.RESETTING w \/ in_state App.SHUTTING_DOWN w.

Lemma take_reset_spec : ht monitored (take_reset os) (fun b w => if b then in_state App.ERROR w else monitored w).
Proof.
  intros w b w' Hw E.
  assert (respects quiet (take_reset os)) as Hq by (apply take_reset_respects; auto using quiet_calm, quiet_plain; apply _).
  pose proof (monitored_quiet _ Hq _ _ _ Hw E) as Hm. destruct b; [|done].
  unfold take_reset, bm_bind in E. destruct (bm_lift (ask (os_reset os)) w) as [[arrived w1]|] eqn:E1; [|done].
  destruct (when arrived (bm_modify RequestReset) w1) as [[u w2]|] eqn:E2; [|done]. unfold bm_get in E.
  destruct (Z.eqb_spec (b_reset_gate (w_bringup w2)) 2) as [Hg|]; [|done].
  assert (b_application_state (w_bringup w2) = App.ERROR) as Hs.
  { assert (monitored w2) as Hw2.
    { eapply (monitored_quiet (when arrived (bm_modify RequestReset))); [|eapply (monitored_quiet (bm_lift (ask (os_reset os)))); [apply quiet_kernel|exact Hw|exact E1]|exact E2].
      apply respects_when; [apply _|]. apply quiet_plain, request_reset_plain. }
    destruct Hw2 as [[Hok _]|[Hok _]]; apply (so_gate _ Hok); lia. }
  assert (b_application_state (w_bringup w') = App.ERROR) as Hs' by (injection E as <-; exact Hs).
  destruct Hm as [[? ?]|?]; [congruence|done].
Qed.

Lemma run_cycle_spec fuel : ht monitored (run_cycle os fuel) (fun continue w => if continue then monitored w else run_end w).
Proof.
  unfold run_cycle. eapply ht_bind; [apply take_reset_spec|]. intros reset.
  apply (ht_bind _ _ (fun _ w => if reset then reset_done w else monitored w)).
  { destruct reset; [apply reset_spec|by apply ht_ret]. }
  intros ?. apply (ht_bind _ _ (fun stopping w => if stopping : bool then run_end w else monitored w)).
  { destruct reset; [|by apply ht_ret]. intros w b w' Hw E.
    assert (forall s, in_state s w -> in_state s w' /\ flagged (w_bringup w') = b) as Hs by (intros s Hs; by eapply shutdown_requested_spec).
    destruct Hw as [Hw|[Hw|[Hf [Hw|Hw]]]]; destruct (Hs _ Hw) as [Hw' Hb].
    1-2: destruct b; [left|]; unfold monitored; auto.
    all: assert (b = true) as -> by (pose proof (quiet_shutdown_requested os _ _ _ E) as [_ _ _ _ Hq _]; rewrite <- Hb; auto); unfold run_end; auto. }
  intros [|]; [by apply ht_ret|]. eapply ht_bind; [apply monitored_quiet, quiet_kernel|]. intros ?.
  eapply ht_bind; [apply monitored_quiet, quiet_poll|]. intros polling.
  eapply ht_bind; [apply (ht_for _ (fun _ => monitored)); intros; apply monitor_element_spec|]. intros ?.
  eapply ht_bind; [apply monitored_quiet, quiet_shutdown_requested|]. intros stopping.
  apply (ht_bind _ _ (fun _ => monitored)); [apply monitored_quiet, respects_when; [apply _|];
    apply respects_bind; [apply _|apply quiet_publish|intros ?; apply quiet_kernel]|]. intros ?. by apply ht_ret.
Qed.

Lemma run_cycles_spec n fuel : ht monitored (run_cycles os n fuel) (fun _ => run_end).
Proof.
  induction n as [|n IH]; cbn [run_cycles]; [apply ht_fail|].
  eapply ht_bind; [apply monitored_quiet, respects_get, _|]. intros b.
  apply (ht_bind _ _ (fun _ => monitored)).
  { case_match; [apply monitored_quiet, quiet_shutdown_requested|by apply ht_ret]. }
  intros [|]; [apply ht_ret; intros; by left|]. eapply ht_bind; [apply run_cycle_spec|]. intros [|]; [apply IH|by apply ht_ret].
Qed.

Lemma run_upto_spec n fuel : ht monitored (run_upto os n fuel) (fun _ => run_end).
Proof.
  induction n as [|n IH]; cbn [run_upto]; [apply ht_ret; intros; by left|].
  eapply ht_bind; [apply monitored_quiet, respects_get, _|]. intros b.
  apply (ht_bind _ _ (fun _ => monitored)).
  { case_match; [apply monitored_quiet, quiet_shutdown_requested|by apply ht_ret]. }
  intros [|]; [apply ht_ret; intros; by left|]. eapply ht_bind; [apply run_cycle_spec|]. intros [|]; [apply IH|by apply ht_ret].
Qed.

Lemma run_spec fuel : ht (fun w => monitored w /\ b_setup (w_bringup w) = true) (Run os fuel) (fun _ => shut).
Proof.
  unfold Run. apply (ht_bind _ _ (fun b w => b_setup b = true /\ monitored w)); [intros w b w' [? ?] [= <- <-]; done|].
  intros b. apply ht_pre. intros ->. simpl.
  eapply ht_bind; [apply monitored_quiet, quiet_plain; plain_solve|]. intros ?. eapply ht_bind; [apply run_cycles_spec|]. intros ?.
  apply (ht_bind _ _ (fun _ => shut)).
  { intros w u w' [[Hw|Hw]|[Hw|Hw]] E; by eapply shutdown_spec; [|exact Hw|exact E]. }
  intros ?. intros w r w' Hw E. by injection E as _ <-.
Qed.
End Lifecycle.
