(* ===== verification/BringupClaims.v ===== *)
(** * Bringup supervisor: theorems about whole runs

    Runs of [supervise] ([Setup], then [Run]) from a new [Bringup], for every answer
    of the kernel and every arrival of signals and requests. *)
From S2P Require Import Prelude ProcessRuntime SystemScope ChildProcess ProcessSafety BringupState Bringup BringupLogic BringupSafety BringupStates.

(** ** Setup *)
Section Setup.
Variable os : Os.

Lemma quiet_prepare scope name : respects quiet (setup_prepare os scope name).
Proof.
  apply setup_prepare_respects; auto using quiet_calm, quiet_plain; try apply _. intros w u w' [= _ <-]. by constructor.
Qed.

Lemma new_in_state k : in_state App.INITIALIZING (new_world k).
Proof. split; [|done]. constructor; try done. intros [?|?]; done. Qed.

(** How [Setup] of a new supervisor can end. *)
Lemma setup_spec fuel scope name specs k : ht (fun w => w = new_world k) (Setup os fuel scope name specs)
  (fun r w => if r =? 0 then monitored w else in_state App.INITIALIZING w \/ shut w).
Proof.
  intros w r w' -> E. unfold Setup, bm_bind, bm_get in E. rewrite bool_decide_eq_true_2 in E by done. simpl in E.
  destruct (ValidateElements specs); [injection E as <- <-; left; apply new_in_state|].
  match type of E with context [setup_prepare _ _ _ ?w0] => set (w1 := w0) in E end.
  assert (in_state App.INITIALIZING w1) as H1 by (split; [|done]; constructor; try done; intros [?|?]; done).
  destruct (setup_prepare os scope name w1) as [[e w2]|] eqn:E2; [|done].
  pose proof (ht_quiet _ _ (quiet_prepare scope name) _ _ _ H1 E2) as H2.
  destruct (Z.eqb_spec e 0) as [->|He]; simpl in E.
  - pose proof (setup_launch_spec os fuel _ _ _ H2 E) as H. cbv beta in H. destruct (r =? 0); [exact H|by right].
  - injection E as <- <-. rewrite (proj2 (Z.eqb_neq _ _) He). by left.
Qed.

(** [Setup] that returns 0 leaves the supervisor ready for [Run]. *)
Definition same_setup (w w' : World) : Prop := b_setup (w_bringup w') = b_setup (w_bringup w).
#[local] Instance same_setup_preorder : PreOrder same_setup.
Proof. split; unfold same_setup; [done|]. intros ? ? ? ? ?. congruence. Qed.
Lemma same_setup_state s : respects same_setup (SetApplicationState os s).
Proof.
  unfold SetApplicationState, PublishSystemStatus, publish_snapshot, PublishIntrospection, sys.
  repeat first [ apply respects_bind; [apply _| |intros ?] | apply respects_get, _ | apply respects_ret, _ | case_match ].
  all: by intros w u w' [= _ <-].
Qed.
Lemma setup_ready fuel scope name specs w r w' : Setup os fuel scope name specs w = Some (r, w') -> r = 0 -> b_setup (w_bringup w') = true.
Proof.
  intros E ->. unfold Setup, bm_bind, bm_get in E. destruct (_ || _); [done|]. destruct (ValidateElements specs); [done|].
  destruct (bm_modify _ w) as [[u w1]|]; [|done]. destruct (setup_prepare os scope name w1) as [[e w2]|]; [|done].
  destruct (Z.eqb_spec e 0) as [->|He]; simpl in E; [|unfold bm_ret in E; congruence].
  unfold setup_launch, bm_bind in E. destruct (StartGeneration os w2) as [[a w3]|]; [|done].
  destruct ((if a =? 0 then AwaitRunning os (fu_await fuel) else bm_ret a) w3) as [[b w4]|]; [|done]. destruct (ShutdownRequested os w4) as [[[|] w5]|]; [|unfold bm_modify in E; cbv beta iota in E|done].
  - destruct (Shutdown os (fu_stop fuel) w5) as [[? ?]|]; [|done]. discriminate E.
  - match type of E with context [SetApplicationState os ?s ?w6] => destruct (SetApplicationState os s w6) as [[v w7]|] eqn:Es; [|done] end.
    injection E as <-. by rewrite (same_setup_state _ _ _ _ Es).
Qed.

(** Any invariant of the two halves of [Setup] and of [Run] holds at the end. *)
Lemma setup_keeping (P I : World -> Prop) fuel scope name specs k r w' :
  (forall w, I w -> P w) -> P (new_world k) ->
  (forall w, w_kernel w = k -> Forall (fun e => el_process e = new_process) (b_elements (w_bringup w)) -> w_published w = [] ->
     b_error_history (w_bringup w) = [] -> b_error_sequence (w_bringup w) = 0 ->
     forall e w2, setup_prepare os scope name w = Some (e, w2) -> if e =? 0 then I w2 else P w2) ->
  respects (keeping I) (setup_launch os fuel) -> Setup os fuel scope name specs (new_world k) = Some (r, w') -> if r =? 0 then I w' else P w'.
Proof.
  intros HIP H0 Hprepare Hlaunch E1. unfold Setup, bm_bind, bm_get in E1. rewrite bool_decide_eq_true_2 in E1 by done. simpl in E1.
  destruct (ValidateElements specs); [by injection E1 as <- <-|].
  match type of E1 with context [setup_prepare _ _ _ ?w0] => destruct (setup_prepare os scope name w0) as [[e w2]|] eqn:E2; [|done] end.
  assert (if e =? 0 then I w2 else P w2) as H2.
  { eapply Hprepare; [..|exact E2]; try done. simpl. clear. induction specs as [|s l IH]; by constructor. }
  destruct (e =? 0) eqn:He; simpl in E1; [|injection E1 as <- <-; by rewrite He].
  assert (I w') by (by eapply Hlaunch). destruct (r =? 0); auto.
Qed.
Lemma supervise_keeping (P I : World -> Prop) fuel scope name specs k r w' :
  (forall w, I w -> P w) -> P (new_world k) ->
  (forall w, w_kernel w = k -> Forall (fun e => el_process e = new_process) (b_elements (w_bringup w)) -> w_published w = [] ->
     b_error_history (w_bringup w) = [] -> b_error_sequence (w_bringup w) = 0 ->
     forall e w2, setup_prepare os scope name w = Some (e, w2) -> if e =? 0 then I w2 else P w2) ->
  respects (keeping I) (setup_launch os fuel) -> respects (keeping I) (Run os fuel) ->
  supervise os fuel scope name specs (new_world k) = Some (r, w') -> P w'.
Proof.
  intros HIP H0 Hprepare Hlaunch Hrun E. unfold supervise, bm_bind in E.
  destruct (Setup os fuel scope name specs (new_world k)) as [[r1 w1]|] eqn:E1; [|done].
  pose proof (setup_keeping P I fuel scope name specs k r1 w1 HIP H0 Hprepare Hlaunch E1) as H1.
  destruct (r1 =? 0); [apply HIP; by eapply Hrun|by injection E as <- <-].
Qed.

(** The worlds of a run of [main]: after [Setup], after each iteration of the loop of [Run], and
    at the end. *)
Definition observed (fuel : Fuel) (scope name : list Z) (specs : list ElementSpec) (w w' : World) : Prop :=
  (exists r, supervise os fuel scope name specs w = Some (r, w')) \/ exists n, supervise_upto os n fuel scope name specs w = Some (tt, w').
Lemma observed_upto fuel scope name specs w w' n : supervise_upto os n fuel scope name specs w = Some (tt, w') ->
  exists r w1, Setup os fuel scope name specs w = Some (r, w1) /\
    if r =? 0 then exists w2, bm_modify (set_running true) w1 = Some (tt, w2) /\ run_upto os n fuel w2 = Some (tt, w') else w' = w1.
Proof.
  unfold supervise_upto, bm_bind at 1. intros E. destruct (Setup os fuel scope name specs w) as [[r w1]|]; [|done]. exists r, w1. split; [done|].
  destruct (r =? 0); [|by injection E as <-]. eexists. split; [done|exact E].
Qed.

Lemma supervise_end fuel scope name specs k r w' : supervise os fuel scope name specs (new_world k) = Some (r, w') ->
  in_state App.INITIALIZING w' \/ shut w'.
Proof.
  intros H. unfold supervise, bm_bind in H. destruct (Setup os fuel scope name specs (new_world k)) as [[r1 w1]|] eqn:E1; [|done].
  pose proof (setup_spec fuel scope name specs k _ _ _ eq_refl E1) as H1. cbv beta in H1. destruct (Z.eqb_spec r1 0) as [->|_].
  - pose proof (setup_ready _ _ _ _ _ _ _ E1 eq_refl) as Hready. right. eapply run_spec; [|exact H]. by split.
  - injection H as <- <-. destruct H1; auto.
Qed.
Lemma observed_states fuel scope name specs k w' : observed fuel scope name specs (new_world k) w' -> states_ok w'.
Proof.
  intros [[r H]|[n H]].
  - destruct (supervise_end _ _ _ _ _ _ _ H) as [[? _]|[[? _]|[[? _] _]]]; done.
  - apply observed_upto in H as (r & w1 & E1 & H). pose proof (setup_spec fuel scope name specs k _ _ _ eq_refl E1) as H1. cbv beta in H1. destruct (r =? 0).
    + destruct H as (w2 & E2 & E3). assert (Hq : respects quiet (bm_modify (set_running true))) by (apply quiet_plain; plain_solve). pose proof (monitored_quiet _ Hq _ _ _ H1 E2) as H2.
      destruct (run_upto_spec os n fuel _ _ _ H2 E3) as [[[? _]|[? _]]|[[? _]|[? _]]]; done.
    + subst w'. destruct H1 as [[? _]|[[? _]|[[? _] _]]]; done.
Qed.
End Setup.

(** Elements without a child. *)
Lemma gone_own p : pr_pid p <= 0 -> paired p -> own_pid p = [] /\ own_fd p = [].
Proof.
  intros Hp Hpair. unfold own_pid, own_fd, paired in *. destruct (Z.ltb_spec 0 (pr_pid p)); [lia|].
  destruct (Z.leb_spec 0 (pr_supervision_fd p)); [lia|done].
Qed.
Lemma none_started_empty w : Forall element_ok (b_elements (w_bringup w)) -> none_started w ->
  pids (b_elements (w_bringup w)) = [] /\ sockets (b_elements (w_bringup w)) = [].
Proof.
  unfold none_started, pids, sockets. intros He Hn. induction He as [|e l [Hp _ Hs] _ IH]; [done|].
  apply Forall_cons in Hn as [Hst Hn]. destruct (gone_own (el_process e)) as [E1 E2]; auto.
  destruct (IH Hn) as [E3 E4]. simpl. by rewrite E1, E2, E3, E4.
Qed.
Definition moment_of (k : Kernel) : Moment := {| mo_log := k_log k; mo_children := k_children k |}.
Lemma new_owns w k : w_kernel w = k -> NoDup (k_children k) -> NoDup (k_fds k) -> Forall signal_ok (k_log k) ->
  Forall (fun e => el_process e = new_process) (b_elements (w_bringup w)) -> @owns (moment_of k) (k_children k) (k_fds k) w.
Proof.
  intros <- Hc Hf Hs He.
  assert (pids (b_elements (w_bringup w)) = [] /\ sockets (b_elements (w_bringup w)) = []) as [E1 E2].
  { unfold pids, sockets. induction He as [|e l E _ [IH1 IH2]]; [done|]. simpl. by rewrite E, IH1, IH2. }
  constructor; rewrite ?E1, ?E2; try done; [|apply traced_now]. eapply Forall_impl; [exact He|]. intros e E. constructor; rewrite E; try done. apply new_paired.
Qed.
Lemma observed_owns os fuel scope name specs k w' :
  (forall n, match os_block os n with WaitStatus _ => True | WaitError e => Z.pos e = ECHILD | WaitRunning => False end) ->
  NoDup (k_children k) -> NoDup (k_fds k) -> Forall signal_ok (k_log k) -> observed os fuel scope name specs (new_world k) w' -> @owns (moment_of k) (k_children k) (k_fds k) w'.
Proof.
  intros Hblock Hchildren Hfds Hlog H. set (I := @owns (moment_of k) (k_children k) (k_fds k)).
  assert (Hnew : I (new_world k)) by (apply new_owns; done || constructor). assert (Hsub : @mo_children (moment_of k) ⊆+ k_children k) by done.
  assert (Hprepare : forall w, w_kernel w = k -> Forall (fun e => el_process e = new_process) (b_elements (w_bringup w)) -> w_published w = [] ->
     b_error_history (w_bringup w) = [] -> b_error_sequence (w_bringup w) = 0 -> forall e w2, setup_prepare os scope name w = Some (e, w2) -> if e =? 0 then I w2 else I w2).
  { intros w Ek He _ _ _ e w2 E2. assert (I w2); [|by destruct (e =? 0)]. eapply setup_prepare_owns; [exact E2|]. by apply new_owns. }
  assert (Hlaunch : respects (keeping I) (setup_launch os fuel)) by by apply setup_launch_owns. destruct H as [[r H]|[n H]].
  - eapply (supervise_keeping os I I); [done|done|exact Hprepare|exact Hlaunch|by apply run_owns|exact H].
  - apply observed_upto in H as (r & w1 & E1 & H). pose proof (setup_keeping os I I fuel scope name specs k r w1 ltac:(done) Hnew Hprepare Hlaunch E1) as H1.
    destruct (r =? 0); [|by subst w']. destruct H as (w2 & E2 & E3). eapply run_upto_owns; [done|done|exact E3|]. eapply plain_owns; [|exact E2|exact H1]. plain_solve.
Qed.

(** C14: the application state only moves along the supervisor's state machine
    (INITIALIZING to RUNNING, ERROR or SHUTTING_DOWN; RUNNING to ERROR or
    SHUTTING_DOWN; ERROR to RESETTING or SHUTTING_DOWN; RESETTING to RUNNING, ERROR or
    SHUTTING_DOWN; SHUTTING_DOWN to STOPPED), whatever failures, resets and stop requests
    interleave: so it is in one run of the supervisor ([Setup] once, then [Run] once, with the
    [Shutdown] that [Run] makes), when [Setup] has returned, after every iteration of the loop
    of [Run] and when [Run] has returned.  No snapshot that reports RUNNING reports an
    error, and a run that has returned ends INITIALIZING (rejected before a child was
    started), SHUTTING_DOWN or STOPPED. *)
Theorem bringup_state_machine (os : Os) (fuel : Fuel) (scope name : list Z) (specs : list ElementSpec) (k : Kernel) (w' : World)
    (H : observed os fuel scope name specs (new_world k) w') :
  state_path (w_states w') = true /\ last (w_states w') = Some (b_application_state (w_bringup w')) /\
  Forall snapshot_ok (w_published w') /\
  ((exists r, supervise os fuel scope name specs (new_world k) = Some (r, w')) ->
   b_application_state (w_bringup w') = App.INITIALIZING \/ b_application_state (w_bringup w') = App.SHUTTING_DOWN \/
   b_application_state (w_bringup w') = App.STOPPED).
Proof.
  pose proof (observed_states _ _ _ _ _ _ _ H) as [? ? _ _ _ ?]. split_and!; try done. intros [r Hr].
  destruct (supervise_end _ _ _ _ _ _ _ _ Hr) as [[_ ->]|[[_ ->]|[[_ ->] _]]]; auto.
Qed.

(** C2: every child is accounted for, when [Setup] has returned, after every iteration of the loop
    of [Run] and when [Run] has returned, whatever the kernel answers, except that a
    [waitpid] that blocks ends with the status of the child or with ECHILD: the children not yet
    reaped are those of the program before and exactly one per element that still owns one;
    the open descriptors are those before and the supervision sockets of these children.  By the
    log of the run, every pid that was signalled or reaped was, at that moment, one that the
    supervisor had forked itself and not yet reaped.  When a run has returned and
    reports STOPPED, every child it started has been reaped and every socket closed. *)
Theorem bringup_children_accounted (os : Os) (fuel : Fuel) (scope name : list Z) (specs : list ElementSpec) (k : Kernel) (w' : World)
    (Hblock : forall n, match os_block os n with WaitStatus _ => True | WaitError e => Z.pos e = ECHILD | WaitRunning => False end)
    (Hchildren : NoDup (k_children k)) (Hfds : NoDup (k_fds k)) (Hlog : Forall signal_ok (k_log k))
    (H : observed os fuel scope name specs (new_world k) w') :
  k_children (w_kernel w') ≡ₚ pids (b_elements (w_bringup w')) ++ k_children k /\
  k_fds (w_kernel w') ≡ₚ sockets (b_elements (w_bringup w')) ++ k_fds k /\
  Forall signal_ok (k_log (w_kernel w')) /\
  (exists since mine, k_log (w_kernel w') = k_log k ++ since /\ follow since = Some mine /\ mine ≡ₚ pids (b_elements (w_bringup w'))) /\
  ((exists r, supervise os fuel scope name specs (new_world k) = Some (r, w')) -> b_application_state (w_bringup w') = App.STOPPED ->
   k_children (w_kernel w') ≡ₚ k_children k /\ k_fds (w_kernel w') ≡ₚ k_fds k).
Proof.
  pose proof (observed_owns _ _ _ _ _ _ _ Hblock Hchildren Hfds Hlog H) as [Hc _ Hf _ Hs He [_ (since & mine & El & Ef & Em)]].
  split; [done|]. split; [done|]. split; [done|]. split; [exists since, mine; split; [exact El|]; split; [done|]; apply (Permutation_app_inv_r (k_children k)); by rewrite <- Hc, Em|].
  intros [r Hr] Hstop. assert (none_started w') as Hn.
  { destruct (supervise_end _ _ _ _ _ _ _ _ Hr) as [[_ E]|[[_ E]|[_ ?]]]; [congruence..|done]. }
  rewrite Hc, Hf. destruct (none_started_empty w' He Hn) as [-> ->]. done.
Qed.

(** ** Reported status *)
Record output_ok (w : World) : Prop := {
  oo_numbers : forall i s, w_published w !! i = Some s -> st_sequence s = 2 + Z.of_nat i;
  oo_next : b_status_sequence (w_bringup w) = 1 + Z.of_nat (length (w_published w));
  oo_max : b_status_sequence (w_bringup w) <= UINT64_MAX
}.
(** Consecutive numbers from 2 on, none above the 64-bit maximum. *)
Definition numbered_output (w : World) : Prop :=
  forall i s, w_published w !! i = Some s -> st_sequence s = 2 + Z.of_nat i /\ st_sequence s <= UINT64_MAX.
Lemma output_numbered w : output_ok w -> numbered_output w.
Proof. intros [Hn Hx Hm] i s Hi. pose proof (lookup_lt_Some _ _ _ Hi). rewrite (Hn _ _ Hi). split; [done|lia]. Qed.

Section Output.
Variable os : Os.
Lemma output_same f : (forall b, b_status_sequence (f b) = b_status_sequence b) -> respects (keeping output_ok) (bm_modify f).
Proof. intros Hf. apply respects_keeping. intros w a w' [? ? ?] [= _ <-]. constructor; simpl; rewrite ?Hf; done. Qed.
Lemma output_kernel {A} (m : OsM A) : respects (keeping output_ok) (bm_lift m).
Proof. apply respects_keeping. intros w a w' [? ? ?] E. unfold bm_lift in E. destruct (m (w_kernel w)). injection E as _ <-. by constructor. Qed.
Lemma output_update i f : respects (keeping output_ok) (update_element i f).
Proof. by apply output_same. Qed.
Lemma output_process {A} i (op : Process -> OsM (A * Process)) : respects (keeping output_ok) (on_process i op).
Proof.
  apply respects_bind; [apply _|apply respects_element, _|]. intros e. apply respects_bind; [apply _|apply output_kernel|]. intros [a p].
  apply respects_bind; [apply _|apply output_update|]. intros ?. apply respects_ret, _.
Qed.
Lemma output_plain f : plain f -> respects (keeping output_ok) (bm_modify f).
Proof. intros []. by apply output_same. Qed.
Lemma output_publish : respects (keeping output_ok) (PublishSystemStatus os).
Proof.
  unfold PublishSystemStatus. apply respects_bind; [apply _|by apply output_same|]. intros _.
  apply respects_keeping. intros w a w' [Hn Hx Hm] E. unfold bm_bind, bm_get in E.
  destruct (negb (b_status_owned (w_bringup w))); [injection E as _ <-; by constructor|].
  destruct (Z.eqb_spec (b_status_sequence (w_bringup w)) UINT64_MAX); [injection E as _ <-; by constructor|].
  injection E as _ <-. constructor; simpl.
  - intros i s. rewrite lookup_app. destruct (w_published w !! i) as [s'|] eqn:Ei; [intros [= <-]; auto|].
    apply lookup_ge_None in Ei. intros Hi. destruct (i - length (w_published w))%nat as [|j] eqn:Ej; [|done]. injection Hi as <-.
    unfold status_snapshot. simpl. case_match; simpl; lia.
  - rewrite length_app. simpl. lia.
  - lia.
Qed.
Lemma output_log s : respects (keeping output_ok) (log_state s).
Proof. apply respects_keeping. intros w a w' [? ? ?] [= _ <-]. by constructor. Qed.
Lemma output_launch i : respects (keeping output_ok) (launch_element os i).
Proof.
  unfold launch_element, now. repeat first [ apply output_process | apply output_kernel | apply output_update | apply respects_bind; [apply _| |intros ?]
    | apply respects_element, _ | apply respects_get, _ | apply respects_ret, _ | case_match ].
Qed.
Lemma output_collect i : respects (keeping output_ok) (collect_child os i).
Proof.
  unfold collect_child, UpdateExitInfo. repeat first [ apply output_process | apply output_update | apply respects_bind; [apply _| |intros ?]
    | apply respects_element, _ | apply respects_ret, _ | by apply output_same | case_match ].
Qed.
Ltac output_solve := auto using output_process, output_update, output_plain, output_publish, output_log, output_launch, output_collect, output_same;
  try apply _; try (intros; apply output_kernel).
Lemma run_output fuel : respects (keeping output_ok) (Run os fuel).
Proof. apply run_respects; output_solve. Qed.
Lemma setup_launch_output fuel : respects (keeping output_ok) (setup_launch os fuel).
Proof. apply setup_launch_respects; output_solve. Qed.
End Output.

(** Installing handlers publishes nothing and records nothing. *)
Definition same_output (w w' : World) : Prop :=
  w_published w' = w_published w /\ b_error_history (w_bringup w') = b_error_history (w_bringup w) /\
  b_error_sequence (w_bringup w') = b_error_sequence (w_bringup w).
#[export] Instance same_output_preorder : PreOrder same_output.
Proof. split; unfold same_output; [done|]. intros ? ? ? (? & ? & ?) (? & ? & ?). split_and!; congruence. Qed.

Section Prepare.
Variable os : Os.
Lemma same_output_calm A (m : OsM A) : calm m -> respects same_output (bm_lift m).
Proof. intros _ w a w' E. unfold bm_lift in E. destruct (m (w_kernel w)). by injection E as _ <-. Qed.
Lemma same_output_plain f : plain f -> respects same_output (bm_modify f).
Proof. intros [_ _ _ Hh _ _ _] w a w' [= _ <-]. split; [done|]. apply Hh. Qed.
Lemma prepare_same scope name : respects same_output (setup_prepare os scope name).
Proof. apply setup_prepare_respects; auto using same_output_calm, same_output_plain; try apply _. by intros w u w' [= _ <-]. Qed.

Lemma prepare_output scope name w e w2 : w_published w = [] -> setup_prepare os scope name w = Some (e, w2) ->
  if e =? 0 then output_ok w2 else numbered_output w2.
Proof.
  intros Hp E. destruct (prepare_same _ _ _ _ _ E) as (Hp2 & _). rewrite Hp in Hp2.
  destruct (Z.eqb_spec e 0) as [->|He]; [|intros i s; by rewrite Hp2, lookup_nil].
  assert (b_status_sequence (w_bringup w2) = 1) as Hs.
  { unfold setup_prepare, bm_bind in E. destruct (install_signals os w) as [[a w3]|]; [|done].
    destruct (Z.eqb_spec a 0); cbn [negb] in E; [|unfold bm_ret in E; congruence].
    destruct (sys os w3) as [[c w4]|]; [|done]. destruct (Z.eqb_spec c 0); cbn [negb] in E.
    - by injection E as <-.
    - destruct (RestoreSignalHandlers os w4) as [[? ?]|]; [|done]. unfold bm_ret in E. congruence. }
  constructor; [intros i s; by rewrite Hp2, lookup_nil|by rewrite Hs, Hp2|rewrite Hs; by unfold UINT64_MAX].
Qed.
End Prepare.

(** The snapshots given to the system status are numbered 2, 3, 4, ... without gap,
    repetition or wrap-around (1 is the initial snapshot, created before any child): a
    reader that sees a larger number sees a later state, and at the 64-bit maximum the
    supervisor stops publishing instead of starting over. *)
Theorem bringup_status_sequence (os : Os) (fuel : Fuel) (scope name : list Z) (specs : list ElementSpec) (k : Kernel) (r : Z) (w' : World)
    (H : supervise os fuel scope name specs (new_world k) = Some (r, w')) : numbered_output w'.
Proof.
  eapply (supervise_keeping os numbered_output output_ok); [apply output_numbered|by intros i s| | | |exact H].
  - intros w _ _ Hp _ _ e w2 E. by eapply prepare_output.
  - apply setup_launch_output.
  - apply run_output.
Qed.

(** ** Error history *)
(** The last [length history] of [n] recorded failures, numbered in order. *)
Record history_ok (w : World) : Prop := {
  hi_capacity : (length (b_error_history (w_bringup w)) <= ERROR_HISTORY_CAPACITY)%nat;
  hi_numbers : exists n, b_error_sequence (w_bringup w) = u64 n /\ Z.of_nat (length (b_error_history (w_bringup w))) <= n /\
    (n <= Z.of_nat ERROR_HISTORY_CAPACITY -> Z.of_nat (length (b_error_history (w_bringup w))) = n) /\
    forall j h, b_error_history (w_bringup w) !! j = Some h ->
      he_sequence h = u64 (n - Z.of_nat (length (b_error_history (w_bringup w))) + 1 + Z.of_nat j)
}.

Lemma u64_succ n : u64 (u64 n + 1) = u64 (n + 1).
Proof. unfold u64. apply Zplus_mod_idemp_l. Qed.

Section History.
Variable os : Os.
Lemma history_same f : (forall b, b_error_history (f b) = b_error_history b /\ b_error_sequence (f b) = b_error_sequence b) -> respects (keeping history_ok) (bm_modify f).
Proof.
  intros Hf. apply respects_keeping. intros w a w' [Hc Hn] [= _ <-]. destruct (Hf (w_bringup w)) as [E1 E2].
  constructor; simpl; by rewrite ?E1, ?E2.
Qed.
Lemma history_append t event observed : respects (keeping history_ok) (bm_modify (append_history t event observed)).
Proof.
  apply respects_keeping. intros w a w' [Hc (n & Hs & Hl & Hfull & Hj)] [= _ <-].
  unfold append_history, push_history. cbv zeta. set (h := b_error_history (w_bringup w)) in *.
  set (entry := {| he_sequence := _ |}).
  assert (he_sequence entry = u64 (n + 1)) as Hentry by (unfold entry; simpl; rewrite Hs; apply u64_succ).
  assert (exists kept, (if (length h =? ERROR_HISTORY_CAPACITY)%nat then tail h else h) = kept /\ (length kept < ERROR_HISTORY_CAPACITY)%nat /\
    Z.of_nat (length kept) <= n /\ (n < Z.of_nat ERROR_HISTORY_CAPACITY -> Z.of_nat (length kept) = n) /\
    forall j x, kept !! j = Some x -> he_sequence x = u64 (n - Z.of_nat (length kept) + 1 + Z.of_nat j)) as (kept & -> & Hk & Hkn & Hkf & Hkj).
  { eexists. split; [done|]. destruct (Nat.eqb_spec (length h) ERROR_HISTORY_CAPACITY) as [E|E].
    - destruct h as [|x h]; [done|]. cbn [tail length] in *. split_and!; try lia. intros j y Hy. rewrite (Hj (S j) y Hy). f_equal. lia.
    - split_and!; [lia|lia|lia|done]. }
  clearbody entry. constructor; simpl; rewrite length_app; cbn [length]; [lia|].
  exists (n + 1). split_and!; [rewrite Hs; apply u64_succ|lia|lia|].
  intros j x. rewrite lookup_app. destruct (kept !! j) as [y|] eqn:Ej.
  - intros [= <-]. rewrite (Hkj _ _ Ej). f_equal. lia.
  - apply lookup_ge_None in Ej. intros Hx. destruct (j - length kept)%nat as [|i] eqn:Ei; [|done]. injection Hx as <-. rewrite Hentry. f_equal. lia.
Qed.
Lemma history_records e info : respects (keeping history_ok) (bm_modify (update_records e info)).
Proof.
  apply respects_keeping. intros w a w' [Hc (n & Hs & Hl & Hfull & Hj)] [= _ <-]. constructor; simpl; rewrite length_map; [done|].
  exists n. split_and!; try done. intros j h. rewrite list_lookup_fmap. destruct (b_error_history (w_bringup w) !! j) as [x|] eqn:Ex; [|done].
  intros [= <-]. rewrite <- (Hj _ _ Ex). unfold update_entry. by case_match.
Qed.
Lemma history_kernel {A} (m : OsM A) : respects (keeping history_ok) (bm_lift m).
Proof. apply respects_keeping. intros w a w' [? ?] E. unfold bm_lift in E. destruct (m (w_kernel w)). injection E as _ <-. by constructor. Qed.
Lemma history_update i f : respects (keeping history_ok) (update_element i f).
Proof. by apply history_same. Qed.
Lemma history_process {A} i (op : Process -> OsM (A * Process)) : respects (keeping history_ok) (on_process i op).
Proof.
  apply respects_bind; [apply _|apply respects_element, _|]. intros e. apply respects_bind; [apply _|apply history_kernel|]. intros [a p].
  apply respects_bind; [apply _|apply history_update|]. intros ?. apply respects_ret, _.
Qed.
Lemma history_plain f : plain f -> respects (keeping history_ok) (bm_modify f).
Proof. intros []. by apply history_same. Qed.
Lemma history_publish : respects (keeping history_ok) (PublishSystemStatus os).
Proof.
  unfold PublishSystemStatus, publish_snapshot, PublishIntrospection, sys. repeat first [ apply history_kernel | apply respects_bind; [apply _| |intros ?]
    | apply respects_get, _ | apply respects_ret, _ | by apply history_same | case_match ].
  apply respects_keeping. intros w u w' [? ?] [= _ <-]. by constructor.
Qed.
Lemma history_log s : respects (keeping history_ok) (log_state s).
Proof. apply respects_keeping. intros w a w' [? ?] [= _ <-]. by constructor. Qed.
Lemma history_launch i : respects (keeping history_ok) (launch_element os i).
Proof.
  unfold launch_element, now. repeat first [ apply history_process | apply history_kernel | apply history_update | apply respects_bind; [apply _| |intros ?]
    | apply respects_element, _ | apply respects_get, _ | apply respects_ret, _ | case_match ].
Qed.
Lemma history_collect i : respects (keeping history_ok) (collect_child os i).
Proof.
  unfold collect_child, UpdateExitInfo. repeat first [ apply history_process | apply history_update | apply history_records | apply respects_bind; [apply _| |intros ?]
    | apply respects_element, _ | apply respects_ret, _ | case_match ].
Qed.
Ltac history_solve := auto using history_process, history_update, history_plain, history_publish, history_log, history_launch, history_collect,
  history_append, history_records, history_same; try apply _; try (intros; apply history_kernel).
Lemma run_history fuel : respects (keeping history_ok) (Run os fuel).
Proof. apply run_respects; history_solve. Qed.
Lemma setup_launch_history fuel : respects (keeping history_ok) (setup_launch os fuel).
Proof. apply setup_launch_respects; history_solve. Qed.
End History.

Lemma empty_history w : b_error_history (w_bringup w) = [] -> b_error_sequence (w_bringup w) = 0 -> history_ok w.
Proof. intros Hh Hs. constructor; rewrite Hh; [simpl; lia|]. exists 0. rewrite Hs. split_and!; try done. Qed.

(** The error history keeps the last 64 failures recorded in the life of the
    supervisor, over all its generations: it holds every failure while there are at most
    64, it is ordered oldest first, and the numbers of its entries are consecutive and
    end at the number of the failure recorded last. *)
Theorem bringup_error_history (os : Os) (fuel : Fuel) (scope name : list Z) (specs : list ElementSpec) (k : Kernel) (r : Z) (w' : World)
    (H : supervise os fuel scope name specs (new_world k) = Some (r, w')) : history_ok w'.
Proof.
  eapply (supervise_keeping os history_ok history_ok); [done|by apply empty_history| | | |exact H].
  - intros w _ _ _ Hh Hs e w2 E. destruct (prepare_same _ _ _ _ _ _ E) as (_ & Hh2 & Hs2).
    assert (history_ok w2) by (apply empty_history; congruence). by destruct (e =? 0).
  - apply setup_launch_history.
  - apply run_history.
Qed.
(** ** A run: the second element cannot be executed, the first is stopped at shutdown. *)
Definition run_os : Os :=
  {| os_call := fun _ => 0; os_wait := fun n => if (60 <? n)%nat then WaitStatus SIGTERM else WaitRunning; os_block := fun _ => WaitStatus 0x7f00;
     os_fork := fun n => 100 + Z.of_nat n; os_exec := fun n => if (n <? 12)%nat then ExecClosed else ExecFailed 2; os_send := fun _ => 16;
     os_recv := fun _ => RecvError EAGAIN; os_range := fun _ => (1, 99); os_cpus := fun _ => 4; os_clock := fun n => Z.of_nat n * 1000000;
     os_stop := fun n => (40 <? n)%nat; os_reset := fun _ => false; os_start_ticks := fun _ => 7 |}.
Definition run_spec_of (name : Z) : ElementSpec :=
  {| es_name := [name]; es_executable := [47; name]; es_arguments := []; es_startup_timeout_ms := 5000; es_health_timeout_ms := 2000;
     es_shutdown_timeout_ms := 1500; es_execution_profile := {| ep_policy := INHERIT; ep_priority := 0; ep_cpu_affinity := []; ep_lock_memory := false |} |}.
Definition run_kernel : Kernel := {| k_tick := 0; k_log := []; k_children := []; k_fds := [0; 1; 2]; k_time := 0 |}.
Definition run_fuel : Fuel := {| fu_await := 4; fu_stop := 60; fu_run := 20 |}.
Definition run_specs : list ElementSpec := [run_spec_of 97; run_spec_of 98].
(** The run above, and what it looked like. *)
Lemma run_completes : exists w', supervise run_os run_fuel [] [97] run_specs (new_world run_kernel) = Some (1, w') /\
  w_states w' = [App.INITIALIZING; App.ERROR; App.SHUTTING_DOWN; App.STOPPED] /\
  k_log (w_kernel w') = [Forked 107; Forked 116; Reaped 116; Signalled 107 SIGTERM true; Reaped 107] /\
  b_application_state (w_bringup w') = App.STOPPED /\ length (w_published w') = 7%nat /\ map he_sequence (b_error_history (w_bringup w')) = [1].
Proof. eexists. vm_compute. split_and!; reflexivity. Defined.
Lemma run_block_collects n : match os_block run_os n with WaitStatus _ => True | WaitError e => Z.pos e = ECHILD | WaitRunning => False end.
Proof. exact I. Defined.

Lemma bringup_state_machine_witness : exists w', supervise run_os run_fuel [] [97] run_specs (new_world run_kernel) = Some (1, w') /\ state_path (w_states w') = true /\ Forall snapshot_ok (w_published w').
Proof.
  destruct run_completes as (w' & E & _). exists w'. split; [exact E|].
  destruct (bringup_state_machine run_os run_fuel [] [97] run_specs run_kernel w' (or_introl (ex_intro _ 1 E))) as (Hp & _ & Hs & _).
  split; [exact Hp|exact Hs].
Defined.

Lemma bringup_children_accounted_witness : exists w', supervise run_os run_fuel [] [97] run_specs (new_world run_kernel) = Some (1, w') /\ k_children (w_kernel w') ≡ₚ [] /\ k_fds (w_kernel w') ≡ₚ [0; 1; 2].
Proof.
  destruct run_completes as (w' & E & _ & _ & Hs & _). exists w'. split; [exact E|].
  destruct (bringup_children_accounted run_os run_fuel [] [97] run_specs run_kernel w' run_block_collects) as (_ & _ & _ & _ & H).
  - constructor.
  - repeat (constructor; [vm_compute; intros Hin; repeat (inversion Hin; subst; clear Hin; rename select (_ ∈ _) into Hin)|]). constructor.
  - constructor.
  - left. exists 1. exact E.
  - apply H; [exists 1; exact E|exact Hs].
Defined.

Lemma bringup_status_sequence_witness : exists w', supervise run_os run_fuel [] [97] run_specs (new_world run_kernel) = Some (1, w') /\ numbered_output w' /\ length (w_published w') = 7%nat.
Proof.
  destruct run_completes as (w' & E & _ & _ & _ & Hn & _). exists w'. split; [exact E|]. split; [|exact Hn].
  exact (bringup_status_sequence run_os run_fuel [] [97] run_specs run_kernel 1 w' E).
Defined.

Lemma bringup_error_history_witness : exists w', supervise run_os run_fuel [] [97] run_specs (new_world run_kernel) = Some (1, w') /\ history_ok w' /\ map he_sequence (b_error_history (w_bringup w')) = [1].
Proof.
  destruct run_completes as (w' & E & _ & _ & _ & _ & Hn). exists w'. split; [exact E|]. split; [|exact Hn].
  exact (bringup_error_history run_os run_fuel [] [97] run_specs run_kernel 1 w' E).
Defined.

(** ** Registration *)
Definition spec_ok (s : ElementSpec) : Prop :=
  es_name s <> [] /\ es_executable s <> [] /\ es_startup_timeout_ms s <> 0 /\ es_health_timeout_ms s <> 0 /\ es_shutdown_timeout_ms s <> 0.
(** Registered on their own: well formed, with pairwise different names. *)
Definition specs_ok (l : list ElementSpec) : Prop := Forall spec_ok l /\ NoDup (map es_name l).

(** The first element that can not follow those before it. *)
Lemma validate_step i before spec l : specs_ok before ->
  (spec_ok spec /\ (es_name spec ∉ map es_name before) /\ validate_from i before (spec :: l) = validate_from (S i) (before ++ [spec]) l) \/
  (~ specs_ok (before ++ [spec]) /\ exists field reason, validate_from i before (spec :: l) =
     Some {| re_element_index := Some i; re_element_name := es_name spec; re_field := field; re_reason := reason |}).
Proof.
  intros Hb. cbn [validate_from]. cbv zeta.
  assert (Hbad : (~ spec_ok spec \/ es_name spec ∈ map es_name before) -> ~ specs_ok (before ++ [spec])).
  { intros Hbad [Hf Hn]. apply Forall_app in Hf as [_ Hf]. apply Forall_cons in Hf as [Hs _]. destruct Hbad as [?|Hin]; [done|].
    rewrite map_app in Hn. apply NoDup_app in Hn as (_ & Hdis & _). apply (Hdis _ Hin). apply list_elem_of_singleton. done. }
  case_bool_decide; [right; split; [apply Hbad; left; by intros (? & _)|by eexists _, _]|].
  case_bool_decide; [right; split; [apply Hbad; left; by intros (_ & ? & _)|by eexists _, _]|].
  destruct (Z.eqb_spec (es_startup_timeout_ms spec) 0); [right; split; [apply Hbad; left; by intros (_ & _ & ? & _)|by eexists _, _]|].
  destruct (Z.eqb_spec (es_health_timeout_ms spec) 0); [right; split; [apply Hbad; left; by intros (_ & _ & _ & ? & _)|by eexists _, _]|].
  destruct (Z.eqb_spec (es_shutdown_timeout_ms spec) 0); [right; split; [apply Hbad; left; by intros (_ & _ & _ & _ & ?)|by eexists _, _]|].
  destruct (existsb _ before) eqn:He.
  - right. split; [|by eexists _, _]. apply Hbad. right. apply existsb_exists in He as (x & Hx & E). apply bool_decide_eq_true_1 in E.
    rewrite <- E. apply list_elem_of_fmap. exists x. split; [done|]. by apply list_elem_of_In.
  - left. split_and!; try done. intros Hin. apply list_elem_of_fmap in Hin as (x & E & Hx). apply list_elem_of_In in Hx.
    assert (existsb (fun other => bool_decide (es_name other = es_name spec)) before = true); [|congruence].
    apply existsb_exists. exists x. split; [done|]. by apply bool_decide_eq_true_2.
Qed.

Lemma specs_ok_snoc before spec : specs_ok before -> spec_ok spec -> es_name spec ∉ map es_name before -> specs_ok (before ++ [spec]).
Proof.
  intros [Hf Hn] Hs Hnot. split; [apply Forall_app; split; [done|by constructor]|]. rewrite map_app. apply NoDup_app. split_and!; [done| |apply NoDup_singleton].
  intros x Hx Hx'%list_elem_of_singleton. by subst.
Qed.

Lemma validate_from_spec l i before : specs_ok before -> length before = i ->
  match validate_from i before l with
  | None => specs_ok (before ++ l)
  | Some e => exists j s, re_element_index e = Some (i + j)%nat /\ l !! j = Some s /\ re_element_name e = es_name s /\
      specs_ok (before ++ take j l) /\ ~ specs_ok (before ++ take (S j) l)
  end.
Proof.
  revert i before. induction l as [|spec l IH]; intros i before Hb Hi; [by rewrite app_nil_r|].
  destruct (validate_step i before spec l Hb) as [(Hs & Hn & ->)|(Hbad & field & reason & ->)].
  - specialize (IH (S i) (before ++ [spec]) (specs_ok_snoc _ _ Hb Hs Hn) ltac:(rewrite length_app; simpl; lia)).
    destruct (validate_from (S i) (before ++ [spec]) l) as [e|]; [|by rewrite <- app_assoc in IH].
    destruct IH as (j & s & E1 & E2 & E3 & H1 & H2). exists (S j), s. rewrite <- app_assoc in H1, H2. split_and!; try done. rewrite E1. f_equal. lia.
  - exists 0%nat, spec. split_and!; try done; [simpl; f_equal; lia|by rewrite app_nil_r].
Qed.

(** [ValidateElements] accepts exactly the non-empty lists whose elements have a
    name, an executable and non-zero timeouts and whose names are pairwise different;
    otherwise the error names the first element that can not be registered after those
    before it. *)
Theorem validate_elements_exact (specs : list ElementSpec) :
  (ValidateElements specs = None <-> specs <> [] /\ specs_ok specs) /\
  forall e, ValidateElements specs = Some e -> specs = [] /\ re_element_index e = None \/
    exists j s, re_element_index e = Some j /\ specs !! j = Some s /\ re_element_name e = es_name s /\
      specs_ok (take j specs) /\ ~ specs_ok (take (S j) specs).
Proof.
  assert (specs_ok []) as H0 by (split; constructor).
  pose proof (validate_from_spec specs 0 [] H0 eq_refl) as H. unfold ValidateElements. destruct specs as [|s l].
  - split; [split; [done|by intros [? _]]|]. intros e [= <-]. by left.
  - destruct (validate_from 0 [] (s :: l)) as [e|].
    + destruct H as (j & x & E1 & E2 & E3 & H1 & H2). split.
      * split; [done|]. intros [_ [Hf Hn]]. exfalso. apply H2. cbn [app].
        assert (take (S j) (s :: l) `prefix_of` s :: l) as [rest E] by (exists (drop (S j) (s :: l)); by rewrite take_drop).
        rewrite E in Hf, Hn. rewrite map_app in Hn. split; [by apply Forall_app in Hf as [? _]|by apply NoDup_app in Hn as [? _]].
      * intros e' [= <-]. right. by exists j, x.
    + split; [|done]. split; [done|]. done.
Qed.

(** ** Shutting down again *)
(** A supervisor whose first [Shutdown] collected every child but could not unlink the
    status storage: it is STOPPED and still owns the storage. *)
Definition stopped_world : World :=
  {| w_kernel := run_kernel;
     w_bringup := set_status_owned true (set_status_sequence 9 (set_shutdown_requested true (set_state App.STOPPED 0 new_bringup)));
     w_published := []; w_states := [App.INITIALIZING; App.SHUTTING_DOWN; App.STOPPED] |}.

(** [Shutdown] guards its own change to SHUTTING_DOWN against a supervisor that is already
    STOPPED, but the [StopGeneration] it calls makes the same change without the guard: the
    retry leaves STOPPED, publishes SHUTTING_DOWN and comes back. *)
Theorem shutdown_retry_leaves_stopped :
  exists w', Shutdown run_os 20 stopped_world = Some (tt, w') /\
  w_states w' = [App.INITIALIZING; App.SHUTTING_DOWN; App.STOPPED; App.SHUTTING_DOWN; App.STOPPED] /\
  map st_state (w_published w') = [App.SHUTTING_DOWN; App.STOPPED] /\ state_path (w_states w') = false.
Proof. eexists. split; [vm_compute; reflexivity|]. vm_compute. done. Qed.
