(* ===== verification/BringupProgress.v ===== *)
(** * Bringup supervisor: the waiting loops end *)
From S2P Require Import Prelude ProcessRuntime SystemScope ChildProcess ProcessSafety BringupState Bringup BringupLogic BringupStates.

(** ** Time does not go back *)
Definition forward {A} (m : OsM A) : Prop := forall k, k_time k <= k_time (m k).2.
Lemma forward_bind {A B} (m : OsM A) (f : A -> OsM B) : forward m -> (forall a, forward (f a)) -> forward (os_bind m f).
Proof. intros Hm Hf k. unfold os_bind. specialize (Hm k). destruct (m k) as [a k1]. specialize (Hf a k1). simpl in *. lia. Qed.
Lemma forward_simple {A} (m : OsM A) : (forall k, k_time (m k).2 = k_time k) -> forward m.
Proof. intros H k. rewrite H. lia. Qed.
Lemma calm_forward {A} (m : OsM A) : calm m -> forward m.
Proof. intros H k. apply H. Qed.

Ltac forward :=
  repeat first [ match goal with |- forward (os_bind _ _) => apply forward_bind; [|intros ?] end
    | case_match | by apply forward_simple ].

Section Forward.
Variable os : Os.
Lemma close_supervision_forward p : forward (CloseSupervision p).
Proof. unfold CloseSupervision. forward. Qed.
Lemma collect_forward nohang p : forward (CollectExit os nohang p).
Proof. unfold CollectExit, CloseSupervision. forward. Qed.
Lemma running_forward p : forward (IsRunning os p).
Proof. unfold IsRunning, CollectExit, CloseSupervision. forward. Qed.
Lemma signal_forward signal p : forward (signal_child os signal p).
Proof. unfold signal_child, CollectExit, CloseSupervision. forward. Qed.
Lemma request_forward id p : forward (RequestRuntimeStatus os id p).
Proof. unfold RequestRuntimeStatus. forward. Qed.
Lemma receive_forward p : forward (ReceiveRuntimeStatus os p).
Proof. unfold ReceiveRuntimeStatus. forward. Qed.
End Forward.

(** ** Operations that return *)
(** With [n] elements: a result, as many elements, and time no earlier. *)
Definition runs {A} (n : nat) (m : BringupM A) : Prop :=
  forall w, length (b_elements (w_bringup w)) = n -> exists a w', m w = Some (a, w') /\
    length (b_elements (w_bringup w')) = n /\ k_time (w_kernel w) <= k_time (w_kernel w').

Section Runs.
Variable os : Os.
Variable n : nat.

Lemma runs_ret {A} (a : A) : runs n (bm_ret a).
Proof. intros w Hw. exists a, w. split_and!; done || lia. Qed.
Lemma runs_bind {A B} (m : BringupM A) (f : A -> BringupM B) : runs n m -> (forall a, runs n (f a)) -> runs n (bm_bind m f).
Proof.
  intros Hm Hf w Hw. destruct (Hm w Hw) as (a & w1 & E1 & Hw1 & Ht1). destruct (Hf a w1 Hw1) as (b & w2 & E2 & Hw2 & Ht2).
  exists b, w2. unfold bm_bind. rewrite E1. split_and!; done || lia.
Qed.
Lemma runs_get : runs n bm_get.
Proof. intros w Hw. eexists _, w. split_and!; done || lia. Qed.
Lemma runs_lift {A} (m : OsM A) : forward m -> runs n (bm_lift m).
Proof. intros Hm w Hw. specialize (Hm (w_kernel w)). unfold bm_lift. destruct (m (w_kernel w)) as [a k]. eexists _, _. by split_and!. Qed.
Lemma runs_modify f : (forall b, length (b_elements (f b)) = length (b_elements b)) -> runs n (bm_modify f).
Proof. intros Hf w Hw. eexists _, _. split; [reflexivity|]. simpl. rewrite Hf. split; [done|lia]. Qed.
Lemma runs_log_published s : runs n (log_published s).
Proof. intros w Hw. eexists _, _. split; [reflexivity|]. simpl. split; [done|lia]. Qed.
Lemma runs_log_state s : runs n (log_state s).
Proof. intros w Hw. eexists _, _. split; [reflexivity|]. simpl. split; [done|lia]. Qed.
Lemma runs_when b m : runs n m -> runs n (when b m).
Proof. destruct b; [done|]. intros _. apply runs_ret. Qed.
Lemma runs_element i : (i < n)%nat -> runs n (element i).
Proof.
  intros Hi w Hw. unfold element. destruct (b_elements (w_bringup w) !! i) as [e|] eqn:E; [eexists _, _; split_and!; done || lia|].
  apply lookup_ge_None in E. lia.
Qed.
Lemma runs_update i f : runs n (update_element i f).
Proof. apply runs_modify. intros b. apply length_alter. Qed.
Lemma runs_process {A} i (op : Process -> OsM (A * Process)) : (i < n)%nat -> (forall p, forward (op p)) -> runs n (on_process i op).
Proof.
  intros Hi Hop. apply runs_bind; [by apply runs_element|]. intros e. apply runs_bind; [by apply runs_lift|]. intros [a p].
  apply runs_bind; [apply runs_update|]. intros _. apply runs_ret.
Qed.
Lemma runs_for {S} (body : nat -> S -> BringupM S) s : (forall i s, (i < n)%nat -> runs n (body i s)) -> runs n (for_elements body s).
Proof.
  intros Hb w Hw. unfold for_elements, bm_bind, bm_get. rewrite Hw.
  assert (forall l s w, Forall (fun i => (i < n)%nat) l -> length (b_elements (w_bringup w)) = n ->
    exists a w', for_indices l body s w = Some (a, w') /\ length (b_elements (w_bringup w')) = n /\ k_time (w_kernel w) <= k_time (w_kernel w')) as H.
  { clear s w Hw. induction l as [|i l IH]; intros s w Hl Hw; [apply runs_ret; done|]. apply Forall_cons in Hl as [Hi Hl].
    apply (runs_bind (body i s)); [by apply Hb|intros s1 w1 Hw1; by apply IH|done]. }
  apply H; [|done]. apply Forall_forall. intros i Hi. apply elem_of_seq in Hi. lia.
Qed.

Ltac runs :=
  repeat first
    [ apply runs_ret | apply runs_get | apply runs_log_published | apply runs_log_state | apply runs_update | by apply runs_element
    | apply runs_lift, calm_forward; solve [auto with respects nocore]
    | apply runs_process; [done|intros; first [apply running_forward|apply signal_forward|apply request_forward|apply receive_forward]]
    | apply runs_when | apply runs_modify; intros ?; first [done|solve [repeat case_match; done]]
    | apply runs_for; intros ? ? ? | solve [auto with runs nocore]
    | apply runs_bind; [|intros ?] | progress case_match ].
Create HintDb runs.

Lemma publish_runs : runs n (PublishSystemStatus os).
Proof. unfold PublishSystemStatus, publish_snapshot, PublishIntrospection, sys. runs. Qed.
#[local] Hint Resolve publish_runs : runs.
Lemma state_runs s : runs n (SetApplicationState os s).
Proof. unfold SetApplicationState. runs. Qed.
Lemma shutdown_requested_runs : runs n (ShutdownRequested os).
Proof. unfold ShutdownRequested. runs. Qed.
Lemma exit_runs i : (i < n)%nat -> runs n (UpdateExitInfo i).
Proof. intros Hi. unfold UpdateExitInfo. runs. Qed.
#[local] Hint Resolve state_runs shutdown_requested_runs exit_runs : runs.
Lemma record_runs i kind error : (i < n)%nat -> runs n (RecordFailure os i kind error).
Proof. intros Hi. unfold RecordFailure, now. runs. Qed.
#[local] Hint Resolve record_runs : runs.
Lemma drain_runs packets i : (i < n)%nat -> runs n (drain_responses os packets i).
Proof. intros Hi. induction packets as [|packets IH]; cbn [drain_responses]; unfold now; runs. Qed.
#[local] Hint Resolve drain_runs : runs.
Lemma poll_runs : runs n (PollRuntimeStatuses os).
Proof. unfold PollRuntimeStatuses. runs. Qed.
Lemma startup_check_runs i : (i < n)%nat -> runs n (startup_check os i).
Proof. intros Hi. unfold startup_check, now. runs. Qed.
Lemma stop_child_runs start cycle i s : (i < n)%nat -> runs n (stop_child os start cycle i s).
Proof. intros Hi. unfold stop_child, collect_child, ForceStop. runs. Qed.
#[local] Hint Resolve poll_runs startup_check_runs stop_child_runs : runs.
End Runs.
(** ** Stopping *)
Section Stop.
Variable os : Os.

Lemma now_time n w : length (b_elements (w_bringup w)) = n -> exists t w1, now os w = Some (t, w1) /\ length (b_elements (w_bringup w1)) = n /\
  k_time (w_kernel w) <= t /\ k_time (w_kernel w1) = t.
Proof. intros Hw. unfold now, bm_lift. eexists _, _. split; [reflexivity|]. simpl. split_and!; done || lia. Qed.

(** Run the first operation, which returns. *)
Ltac first_runs lem := let a := fresh "a" in let w := fresh "w" in let E := fresh "E" in let Hl := fresh "Hl" in let Ht := fresh "Ht" in
  edestruct lem as (a & w & E & Hl & Ht); [eassumption|]; unfold bm_bind at 1; rewrite E; clear E.

Lemma stop_cycles_return fuel start deadline failure forced w :
  deadline + milliseconds 100 <= k_time (w_kernel w) + Z.of_nat fuel * milliseconds 100 -> (0 < fuel)%nat ->
  exists r w', stop_cycles os fuel start deadline failure forced w = Some (r, w').
Proof.
  remember (length (b_elements (w_bringup w))) as n eqn:Hn. symmetry in Hn.
  revert failure forced w Hn. induction fuel as [|fuel IH]; intros failure forced w Hn Hd Hf; [lia|]. cbn [stop_cycles].
  destruct (now_time _ w Hn) as (cycle & w1 & E1 & Hl1 & Ht1 & Et1). unfold bm_bind at 1. rewrite E1.
  first_runs (shutdown_requested_runs os n w1). first_runs (runs_when n a (SetApplicationState os App.SHUTTING_DOWN) (state_runs os n _) w0).
  first_runs (runs_for n (stop_child os start cycle) (failure, false, forced) (fun i s => stop_child_runs os n start cycle i s) w2).
  destruct a1 as [[failure' remaining] forced'].
  unfold PublishIntrospection. first_runs (runs_modify n (fun b => set_introspection (introspect b) b) (fun _ => eq_refl) w3).
  destruct remaining; cbn [negb]; [|by eexists _, _].
  destruct (now_time _ w4 Hl3) as (t & w5 & E5 & Hl5 & Ht5 & Et5). unfold bm_bind at 1. rewrite E5.
  destruct (Z.leb_spec deadline t) as [|Hlt]; [by eexists _, _|].
  first_runs (publish_runs os n w5). unfold bm_bind at 1, bm_lift, sleep_until.
  apply IH; simpl; [done|lia|]. destruct fuel; [lia|lia].
Qed.

(** Cycles of 100 ms for the longest shutdown timeout and the second of grace. *)
Definition longest (f : ElementSpec -> Z) (l : list ManagedElement) : Z := foldr (fun e m => Z.max (f (el_spec e)) m) 0 l.
Definition stop_fuel (l : list ManagedElement) : nat := Z.to_nat (longest es_shutdown_timeout_ms l / 100 + 12).

Lemma longest_bound f l e : e ∈ l -> f (el_spec e) <= longest f l.
Proof. induction l as [|x l IH]; intros H; [by apply not_elem_of_nil in H|]. apply elem_of_cons in H as [->|H]; simpl; [lia|]. specialize (IH H). lia. Qed.
Lemma longest_nonneg f l : 0 <= longest f l.
Proof. induction l; simpl; lia. Qed.

Lemma stop_deadline_bound start l : stop_deadline start l <= start + milliseconds (longest es_shutdown_timeout_ms l) + milliseconds 1000.
Proof.
  unfold stop_deadline.
  assert (forall l' d, (forall e, e ∈ l' -> e ∈ l) -> d <= start + milliseconds (longest es_shutdown_timeout_ms l) + milliseconds 1000 ->
    foldl (fun deadline e => if el_started e then Z.max deadline (start + milliseconds (es_shutdown_timeout_ms (el_spec e)) + milliseconds 1000) else deadline) d l'
      <= start + milliseconds (longest es_shutdown_timeout_ms l) + milliseconds 1000) as H.
  { induction l' as [|e l' IH]; intros d Hsub Hd; simpl; [done|]. apply IH; [intros x Hx; apply Hsub, elem_of_cons; by right|].
    pose proof (longest_bound es_shutdown_timeout_ms l e (Hsub e ltac:(apply elem_of_cons; by left))). destruct (el_started e); unfold milliseconds in *; lia. }
  apply H; [done|]. pose proof (longest_nonneg es_shutdown_timeout_ms l). unfold milliseconds in *. lia.
Qed.

Lemma stop_generation_return fuel w : (stop_fuel (b_elements (w_bringup w)) <= fuel)%nat -> exists r w', StopGeneration os fuel w = Some (r, w').
Proof.
  intros Hf. unfold StopGeneration. destruct (now_time _ w eq_refl) as (start & w1 & E1 & Hl1 & Ht1 & Et1). unfold bm_bind at 1. rewrite E1.
  assert (b_elements (w_bringup w1) = b_elements (w_bringup w)) as Eel by (unfold now, bm_lift in E1; by injection E1 as _ <-).
  unfold bm_bind at 1, bm_get at 1. cbv zeta. set (n := length (b_elements (w_bringup w))) in *.
  match goal with |- context [bm_bind (for_elements ?body 0) _] =>
    destruct (runs_for n body 0) with (w := w1) as (failure & w2 & E2 & Hl2 & Ht2); [|done|unfold bm_bind at 1; rewrite E2] end.
  { intros i s Hi. apply runs_bind; [by apply runs_element|]. intros e. case_match; [apply runs_ret|].
    apply runs_bind; [apply runs_process; [done|apply running_forward]|]. intros alive. case_match; [apply runs_ret|].
    apply runs_bind; [apply runs_process; [done|intros; apply signal_forward]|]. intros ?. apply runs_ret. }
  apply stop_cycles_return.
  - rewrite Eel. pose proof (stop_deadline_bound start (b_elements (w_bringup w))). unfold stop_fuel in Hf.
    pose proof (longest_nonneg es_shutdown_timeout_ms (b_elements (w_bringup w))). pose proof (Z.div_mod (longest es_shutdown_timeout_ms (b_elements (w_bringup w))) 100).
    pose proof (Z.mod_pos_bound (longest es_shutdown_timeout_ms (b_elements (w_bringup w))) 100). unfold milliseconds in *. lia.
  - unfold stop_fuel in Hf. pose proof (longest_nonneg es_shutdown_timeout_ms (b_elements (w_bringup w))).
    pose proof (Z.div_pos (longest es_shutdown_timeout_ms (b_elements (w_bringup w))) 100). lia.
Qed.
End Stop.

(** ** Waiting for the elements to run *)
(** The instant at which an element that is not running yet has timed out. *)
Definition due_at (e : ManagedElement) : Z := el_started_at e + milliseconds (es_startup_timeout_ms (el_spec e)).
Definition same_schedule (w w' : World) : Prop :=
  map due_at (b_elements (w_bringup w')) = map due_at (b_elements (w_bringup w)) /\ k_time (w_kernel w) <= k_time (w_kernel w').
#[export] Instance same_schedule_preorder : PreOrder same_schedule.
Proof. split; unfold same_schedule; [split; done || lia|]. intros ? ? ? [? ?] [? ?]. split; [congruence|lia]. Qed.

Lemma ht_pre' {A} (C : Prop) P (m : BringupM A) Q : (C -> ht P m Q) -> ht (fun w => P w /\ C) m Q.
Proof. intros H w a w' [Hw HC] E. by eapply H. Qed.

Section Await.
Variable os : Os.

Lemma schedule_alter f i l : (forall e, due_at (f e) = due_at e) -> map due_at (alter f i l) = map due_at l.
Proof. intros Hf. revert i. induction l as [|x l IH]; intros [|i]; simpl; try done; f_equal; [apply Hf|apply IH]. Qed.
Lemma schedule_lift {A} (m : OsM A) : forward m -> respects same_schedule (bm_lift m).
Proof. intros Hm w a w' E. unfold bm_lift in E. specialize (Hm (w_kernel w)). destruct (m (w_kernel w)). by injection E as _ <-. Qed.
Lemma schedule_calm A (m : OsM A) : calm m -> respects same_schedule (bm_lift m).
Proof. intros Hm. by apply schedule_lift, calm_forward. Qed.
Lemma schedule_update i f : benign f -> respects same_schedule (update_element i f).
Proof.
  intros Hf w a w' [= _ <-]. split; simpl; [|lia]. apply schedule_alter. intros e. destruct (Hf e) as (_ & _ & Es & Et). unfold due_at. by rewrite Es, Et.
Qed.
Lemma schedule_modify f : (forall b, b_elements (f b) = b_elements b) -> respects same_schedule (bm_modify f).
Proof. intros Hf w a w' [= _ <-]. split; simpl; [by rewrite Hf|lia]. Qed.
Lemma schedule_plain f : plain f -> respects same_schedule (bm_modify f).
Proof. intros []. by apply schedule_modify. Qed.
Lemma schedule_log s : respects same_schedule (log_state s).
Proof. intros w a w' [= _ <-]. split; simpl; [done|lia]. Qed.
Lemma schedule_publish : respects same_schedule (PublishSystemStatus os).
Proof.
  unfold PublishSystemStatus, publish_snapshot, PublishIntrospection, sys. repeat first [ apply schedule_lift, calm_forward; solve [auto with respects nocore]
    | apply respects_bind; [apply _| |intros ?] | apply respects_get, _ | apply respects_ret, _ | by apply schedule_modify | case_match ].
  intros w u w' [= _ <-]. split; simpl; [done|lia].
Qed.
Lemma schedule_process {A} i (op : Process -> OsM (A * Process)) : (forall p, forward (op p)) -> respects same_schedule (on_process i op).
Proof.
  intros Hop w a w' E. unfold on_process, bm_bind, element in E. destruct (b_elements (w_bringup w) !! i) as [e|]; [|done].
  unfold bm_lift in E. specialize (Hop (el_process e) (w_kernel w)). destruct (op (el_process e) (w_kernel w)) as [[x p] k]. injection E as _ <-.
  split; simpl; [|done]. by apply schedule_alter.
Qed.
Ltac schedule_solve := auto using schedule_calm, schedule_process, running_forward, signal_forward, request_forward, receive_forward,
  schedule_update, schedule_plain, schedule_publish, schedule_log, schedule_modify; try apply _.
Lemma schedule_poll : respects same_schedule (PollRuntimeStatuses os).
Proof. apply poll_respects; schedule_solve. Qed.
Lemma schedule_shutdown_requested : respects same_schedule (ShutdownRequested os).
Proof. apply shutdown_requested_respects; schedule_solve. Qed.
Lemma schedule_check i : respects same_schedule (startup_check os i).
Proof. apply startup_check_respects; schedule_solve. Qed.
Lemma schedule_record i kind error : respects same_schedule (RecordFailure os i kind error).
Proof. apply record_respects; schedule_solve. Qed.
Lemma schedule_cycle : respects same_schedule (await_cycle os).
Proof. apply await_cycle_respects; schedule_solve. Qed.

(** Every startup timeout has passed. *)
Definition due (w : World) : Prop := Forall (fun t => t <= k_time (w_kernel w)) (map due_at (b_elements (w_bringup w))).
Lemma due_schedule w w' : same_schedule w w' -> due w -> due w'.
Proof. unfold due. intros [-> Ht] H. eapply Forall_impl; [exact H|]. intros t. simpl. lia. Qed.
Lemma due_respects {A} (m : BringupM A) : respects same_schedule m -> ht due m (fun _ => due).
Proof. intros Hm w a w' Hw E. eapply due_schedule; [by eapply Hm|done]. Qed.

Lemma check_due i : ht due (startup_check os i) (fun r w => due w /\ (r.1.1 <> 0 \/ r.2 = true)).
Proof.
  intros w r w' Hw E. split; [by eapply due_respects; [apply schedule_check|..]|].
  unfold startup_check, bm_bind in E. destruct (on_process i (IsRunning os) w) as [[alive w1]|] eqn:E1; [|done].
  assert (due w1) as Hw1 by (eapply due_respects; [apply schedule_process, running_forward|exact Hw|exact E1]).
  destruct alive; cbn [negb] in E; [|injection E as <- _; by left]. unfold element in E.
  destruct (b_elements (w_bringup w1) !! i) as [e|] eqn:Ei; [|done].
  assert (due_at e <= k_time (w_kernel w1)) as He.
  { unfold due in Hw1. rewrite Forall_forall in Hw1. apply Hw1. apply list_elem_of_fmap. exists e. split; [done|]. by eapply list_elem_of_lookup_2. }
  destruct (_ && _); [injection E as <- _; left; simpl; destruct (Z.eqb_spec (rs_runtime_error (el_last_runtime_status e)) 0); [done|done]|].
  destruct (_ || _).
  - unfold now, bm_lift, clock_now in E. destruct (Z.leb_spec (milliseconds (es_startup_timeout_ms (el_spec e))) (Z.max (os_clock os (k_tick (w_kernel w1))) (k_time (w_kernel w1)) - el_started_at e)).
    + injection E as <- _. by left.
    + unfold due_at in He. lia.
  - unfold now, bm_lift, clock_now in E. right. destruct (_ <=? _); by injection E as <- _.
Qed.

Lemma await_cycle_due : ht due (await_cycle os) (fun r _ => r <> None).
Proof.
  unfold await_cycle. eapply ht_bind; [apply due_respects, schedule_shutdown_requested|]. intros [|]; [by apply ht_ret|].
  eapply ht_bind; [apply due_respects, schedule_poll|]. intros polled.
  apply (ht_bind _ _ (fun (x : Z * bool) w => due w /\ (x.1 <> 0 \/ x.2 = true))).
  { eapply ht_conseq; [apply (ht_for _ (fun (x : Z * bool) w => due w /\ (x.1 <> 0 \/ x.2 = true)))|intros w Hw; split; [done|by right]|done].
    intros i [failure ready]. simpl. apply ht_pre'. intros Hfr. eapply ht_bind; [apply check_due|]. intros [[error kind] ok]. simpl.
    apply ht_pre'. intros Heo. destruct (Z.eqb_spec error 0) as [->|He]; simpl.
    - apply ht_ret. intros w Hw. split; [done|]. simpl. destruct Heo as [?| ->]; [done|]. rewrite andb_true_r. done.
    - eapply ht_bind; [apply due_respects, schedule_record|]. intros ?. apply ht_ret. intros w Hw. split; [done|by left]. }
  intros [failure ready]. simpl. apply ht_pre'. intros Hfr. eapply ht_bind; [apply due_respects, schedule_shutdown_requested|].
  intros [|]; [by apply ht_ret|]. destruct (Z.eqb_spec failure 0) as [->|Hf]; simpl; [|by apply ht_ret].
  destruct Hfr as [?| ->]; [done|]. by apply ht_ret.
Qed.

Lemma await_cycle_runs n : runs n (await_cycle os).
Proof.
  unfold await_cycle. apply runs_bind; [apply shutdown_requested_runs|]. intros [|]; [apply runs_ret|].
  apply runs_bind; [apply poll_runs|]. intros polled. apply runs_bind.
  - apply runs_for. intros i s Hi. apply runs_bind; [by apply startup_check_runs|]. intros [[error kind] ok]. case_match; [|apply runs_ret].
    apply runs_bind; [by apply record_runs|]. intros ?. apply runs_ret.
  - intros [failure ready]. apply runs_bind; [apply shutdown_requested_runs|]. intros [|]; [apply runs_ret|].
    case_match; [apply runs_ret|]. case_match; [apply runs_ret|]. apply runs_bind; [apply publish_runs|]. intros ?. apply runs_ret.
Qed.

Lemma await_running_return fuel w bound : Forall (fun t => t <= bound) (map due_at (b_elements (w_bringup w))) ->
  bound + milliseconds 100 <= k_time (w_kernel w) + Z.of_nat fuel * milliseconds 100 -> (0 < fuel)%nat ->
  exists r w', AwaitRunning os fuel w = Some (r, w').
Proof.
  revert w. induction fuel as [|fuel IH]; intros w Hb Hd Hf; [lia|]. cbn [AwaitRunning].
  destruct (now_time os _ w eq_refl) as (cycle & w1 & E1 & Hl1 & Ht1 & Et1). unfold bm_bind at 1. rewrite E1.
  assert (b_elements (w_bringup w1) = b_elements (w_bringup w)) as Eel by (unfold now, bm_lift in E1; by injection E1 as _ <-).
  destruct (await_cycle_runs _ w1 eq_refl) as (r & w2 & E2 & Hl2 & Ht2). unfold bm_bind at 1. rewrite E2.
  destruct r as [result|]; [by eexists _, _|].
  destruct (schedule_cycle _ _ _ E2) as [Es2 _].
  assert (cycle < bound) as Hlt.
  { destruct (Z.lt_ge_cases cycle bound) as [|Hge]; [done|]. exfalso. apply (await_cycle_due w1 None w2); [|done|done].
    unfold due. rewrite Eel. eapply Forall_impl; [exact Hb|]. intros t. simpl. lia. }
  unfold bm_bind at 1, bm_lift, sleep_until. apply IH; simpl; [by rewrite Es2, Eel|lia|]. destruct fuel; [lia|lia].
Qed.
End Await.

(** Stopping a generation is bounded: with one cycle of 100 ms for the longest
    shutdown timeout and the second of grace, [StopGeneration] returns, whatever the
    kernel answers, also when a child ignores SIGTERM and SIGKILL or can not be waited
    for; and the startup barrier [AwaitRunning] returns once the last startup timeout
    has passed, whatever the elements answer. *)
Theorem bringup_waits_bounded (os : Os) (w : World) (stop await : nat)
    (Hstop : (stop_fuel (b_elements (w_bringup w)) <= stop)%nat)
    (Hawait : longest es_startup_timeout_ms (b_elements (w_bringup w)) / 100 + 2 <= Z.of_nat await)
    (Hstarted : Forall (fun e => el_started_at e <= k_time (w_kernel w)) (b_elements (w_bringup w))) :
  (exists r w', StopGeneration os stop w = Some (r, w')) /\ (exists r w', AwaitRunning os await w = Some (r, w')).
Proof.
  split; [by apply stop_generation_return|]. set (l := b_elements (w_bringup w)) in *.
  apply (await_running_return os await w (k_time (w_kernel w) + milliseconds (longest es_startup_timeout_ms l))).
  - apply Forall_forall. intros t Ht. apply list_elem_of_fmap in Ht as (e & -> & He). rewrite Forall_forall in Hstarted.
    specialize (Hstarted e He). pose proof (longest_bound es_startup_timeout_ms l e He). unfold due_at, milliseconds in *. lia.
  - pose proof (Z.div_mod (longest es_startup_timeout_ms l) 100). pose proof (Z.mod_pos_bound (longest es_startup_timeout_ms l) 100).
    unfold milliseconds. lia.
  - pose proof (Z.div_pos (longest es_startup_timeout_ms l) 100). pose proof (longest_nonneg es_startup_timeout_ms l). lia.
Qed.

(** A supervisor with one element that was started at time 0 and never answers. *)
Definition silent_os : Os :=
  {| os_call := fun _ => 0; os_wait := fun _ => WaitRunning; os_block := fun _ => WaitRunning; os_fork := fun _ => 1; os_exec := fun _ => ExecClosed;
     os_send := fun _ => 16; os_recv := fun _ => RecvError EAGAIN; os_range := fun _ => (0, 0); os_cpus := fun _ => 1; os_clock := fun _ => 0;
     os_stop := fun _ => false; os_reset := fun _ => false; os_start_ticks := fun _ => 0 |}.
Definition silent_element : ManagedElement :=
  set_started true (set_process {| pr_pid := 7; pr_exited := false; pr_exit_status := 0; pr_supervision_fd := 3; pr_pending_request := 0 |}
    (new_element {| es_name := [97]; es_executable := [97]; es_arguments := []; es_startup_timeout_ms := 300; es_health_timeout_ms := 200;
                    es_shutdown_timeout_ms := 200; es_execution_profile := {| ep_policy := INHERIT; ep_priority := 0; ep_cpu_affinity := []; ep_lock_memory := false |} |})).
Definition silent_world : World :=
  {| w_kernel := {| k_tick := 0; k_log := []; k_children := [7]; k_fds := [3]; k_time := 0 |}; w_bringup := set_elements [silent_element] new_bringup;
     w_published := []; w_states := [App.INITIALIZING] |}.

Lemma bringup_waits_bounded_witness :
  (exists r w', StopGeneration silent_os 14 silent_world = Some (r, w')) /\ (exists r w', AwaitRunning silent_os 5 silent_world = Some (r, w')).
Proof.
  apply (bringup_waits_bounded silent_os silent_world 14 5).
  - vm_compute. repeat constructor.
  - vm_compute. discriminate.
  - constructor; [vm_compute; discriminate|constructor].
Defined.
