(* ===== verification/TypeDescriptor.v ===== *)
(** * Type descriptors

    [kcf/include/kcf/introspection/type_descriptor.hpp], [ValidateTypeDescriptor] of
    [kcf/src/type_registry.cpp], and the type part of
    [kcf/src/network/parameter_codec.cpp]: the wire type of a descriptor and its
    serialized schema.  A [char] array is the list of all its bytes, the field table the
    list of its 128 entries; the [reserved] fields are never read. *)
From S2P Require Import Prelude Wire NetTypes NetWire.

Definition MAX_TYPE_FIELDS : Z := 128.
Definition MAX_PARAMETER_WIRE : Z := 16384.
Definition FIELD_NAME_SIZE : nat := 96.
Definition TYPE_NAME_SIZE : nat := 160.
Definition sizeof_TypeDescriptor : Z := 192 + 112 * MAX_TYPE_FIELDS.

(** [enum class FieldValueKind : std::uint8_t] *)
Module FieldValueKind.
Definition BOOL := 1.
Definition INT8 := 2.
Definition UINT8 := 3.
Definition INT16 := 4.
Definition UINT16 := 5.
Definition INT32 := 6.
Definition UINT32 := 7.
Definition INT64 := 8.
Definition UINT64 := 9.
Definition FLOAT32 := 10.
Definition FLOAT64 := 11.
End FieldValueKind.

Record TypeFieldInfo := {
  tf_name : list Z;
  tf_kind : Z;
  tf_offset : Z;
  tf_element_size : Z;
  tf_array_count : Z
}.
Definition no_field : TypeFieldInfo :=
  {| tf_name := repeat 0 FIELD_NAME_SIZE; tf_kind := 0; tf_offset := 0; tf_element_size := 0; tf_array_count := 1 |}.

Record TypeDescriptor := {
  td_protocol_version : Z;
  td_struct_size : Z;
  td_type_id : Z;
  td_type_name : list Z;
  td_payload_size : Z;
  td_payload_alignment : Z;
  td_field_count : Z;
  td_fields : list TypeFieldInfo
}.

Definition wf_field (f : TypeFieldInfo) : Prop :=
  length (tf_name f) = FIELD_NAME_SIZE /\ bytes (tf_name f) /\ is_u8 (tf_kind f) /\ is_u32 (tf_offset f) /\
  is_u32 (tf_element_size f) /\ is_u32 (tf_array_count f).
Definition wf_descriptor (d : TypeDescriptor) : Prop :=
  is_u32 (td_protocol_version d) /\ is_u32 (td_struct_size d) /\ is_u64 (td_type_id d) /\
  length (td_type_name d) = TYPE_NAME_SIZE /\ bytes (td_type_name d) /\ is_u32 (td_payload_size d) /\
  is_u32 (td_payload_alignment d) /\ is_u32 (td_field_count d) /\
  length (td_fields d) = Z.to_nat MAX_TYPE_FIELDS /\ Forall wf_field (td_fields d).

(** The fields the loops [for(i=0;i<d.field_count;++i)] visit. *)
Definition used_fields (d : TypeDescriptor) : list TypeFieldInfo := take (Z.to_nat (td_field_count d)) (td_fields d).

(** ** FNV-1a, 64 bits *)
Definition FNV_BASIS : Z := 14695981039346656037.
Definition fnv_byte (hash b : Z) : Z := u64 (Z.lxor hash b * 1099511628211).
Definition StableTypeId (canonical : list Z) : Z := foldl fnv_byte FNV_BASIS canonical.

Definition PrimitiveSize (kind : Z) : Z :=
  if (1 <=? kind) && (kind <=? 3) then 1
  else if (4 <=? kind) && (kind <=? 5) then 2
  else if ((6 <=? kind) && (kind <=? 7)) || (kind =? FieldValueKind.FLOAT32) then 4
  else if ((8 <=? kind) && (kind <=? 9)) || (kind =? FieldValueKind.FLOAT64) then 8
  else 0.

(** ** Validation *)
Definition has_nul (s : list Z) : bool := existsb (fun ch => ch =? 0) s.

(** The inner loop: [f] against the fields before it. *)
Fixpoint field_disjoint (f : TypeFieldInfo) (bytes : Z) (previous : list TypeFieldInfo) : bool :=
  match previous with
  | [] => true
  | p :: rest =>
      if c_str (tf_name f) =?? c_str (tf_name p) then false
      else
        let end_ := tf_offset p + tf_element_size p * tf_array_count p in
        if (tf_offset f <? end_) && (tf_offset p <? tf_offset f + bytes) then false
        else field_disjoint f bytes rest
  end.
Fixpoint validate_fields (payload_size : Z) (previous rest : list TypeFieldInfo) : bool :=
  match rest with
  | [] => true
  | f :: rest =>
      if (first_char (tf_name f) =? 0) || negb (has_nul (tf_name f)) || (PrimitiveSize (tf_kind f) =? 0) ||
         negb (tf_element_size f =? PrimitiveSize (tf_kind f)) || (tf_array_count f =? 0) ||
         (payload_size <? tf_offset f) then false
      else
        let bytes := tf_element_size f * tf_array_count f in
        if payload_size - tf_offset f <? bytes then false
        else if negb (field_disjoint f bytes previous) then false
        else validate_fields payload_size (previous ++ [f]) rest
  end.
Definition ValidateTypeDescriptor (d : TypeDescriptor) : bool :=
  if negb (td_protocol_version d =? 1) || negb (td_struct_size d =? sizeof_TypeDescriptor) || (td_type_id d =? 0) ||
     (first_char (td_type_name d) =? 0) || negb (has_nul (td_type_name d)) ||
     (td_payload_size d =? 0) || (td_payload_alignment d =? 0) ||
     negb (Z.land (td_payload_alignment d) (td_payload_alignment d - 1) =? 0) ||
     negb (td_payload_size d mod td_payload_alignment d =? 0) ||
     (td_field_count d =? 0) || (MAX_TYPE_FIELDS <? td_field_count d) then false
  else if negb (StableTypeId (c_str (td_type_name d)) =? td_type_id d) then false
  else validate_fields (td_payload_size d) [] (used_fields d).

(** [detail::LayoutId] of [storage_identity.hpp]: the fingerprint of a native layout. *)
Definition hash_number (h n : Z) : Z :=
  foldl (fun h i => fnv_byte h (Z.land (Z.shiftr n (8 * Z.of_nat i)) 255)) h (seq 0 8).
Definition hash_name (h : Z) (s : list Z) : Z := fnv_byte (foldl fnv_byte h (c_str s)) 0.
Definition LayoutId (d : TypeDescriptor) : Z :=
  let h := hash_number FNV_BASIS (td_type_id d) in
  let h := hash_name h (td_type_name d) in
  let h := hash_number h (td_payload_size d) in
  let h := hash_number h (td_payload_alignment d) in
  let h := hash_number h (td_field_count d) in
  foldl (fun h f =>
    let h := hash_name h (tf_name f) in
    let h := hash_number h (tf_kind f) in
    let h := hash_number h (tf_offset f) in
    let h := hash_number h (tf_element_size f) in
    hash_number h (tf_array_count f)) h (used_fields d).

(** ** The wire type *)
Definition hash_count (h n : Z) : Z :=
  foldl (fun h j => fnv_byte h (u8 (Z.shiftr n (8 * j)))) h [3; 2; 1; 0].
Definition hash_field (h : Z) (f : TypeFieldInfo) : Z :=
  hash_count (fnv_byte (fnv_byte (foldl fnv_byte h (c_str (tf_name f))) 0) (tf_kind f)) (tf_array_count f).
Definition wire_size (fields : list TypeFieldInfo) : Z :=
  foldl (fun size f => u64 (size + tf_element_size f * tf_array_count f)) 0 fields.

Definition ParameterWireType (d : TypeDescriptor) : result TypeIdentity :=
  if negb (ValidateTypeDescriptor d) || (td_field_count d =? 0) || (MAX_PARAMETER_WIRE <? td_payload_size d)
  then Err (- EINVAL)
  else
    let hash := foldl hash_field FNV_BASIS (used_fields d) in
    let size := wire_size (used_fields d) in
    if (hash =? 0) || (size =? 0) || (MAX_PARAMETER_WIRE <? size) then Err (- EMSGSIZE)
    else Ok {| ty_type_id := td_type_id d; ty_schema_id := hash; ty_encoding_id := 1; ty_payload_size := u32 size |}.

(** [enum class DescriptorRole : std::uint8_t] *)
Module DescriptorRole.
Definition NONE := 0.
Definition VALUE := 1.
Definition REQUEST := 2.
Definition RESPONSE := 3.
Definition FEEDBACK := 4.
End DescriptorRole.
Definition DescriptorType (m : NetworkEndpointMetadata) (role : Z) : result TypeIdentity :=
  if (role =? DescriptorRole.VALUE) && ((md_kind m =? EndpointKind.PARAMETER) || (md_kind m =? EndpointKind.TOPIC))
  then Ok (md_value_type m)
  else if (role =? DescriptorRole.REQUEST) && ((md_kind m =? EndpointKind.SERVICE) || (md_kind m =? EndpointKind.ACTION))
  then Ok (md_request_type m)
  else if (role =? DescriptorRole.RESPONSE) && ((md_kind m =? EndpointKind.SERVICE) || (md_kind m =? EndpointKind.ACTION))
  then Ok (md_response_type m)
  else if (role =? DescriptorRole.FEEDBACK) && (md_kind m =? EndpointKind.ACTION) then Ok (md_feedback_type m)
  else Err (- EINVAL).

(** ** The schema on the wire *)
Definition wText (name : list Z) : list Z := wU (vsize (c_str name)) 2 ++ c_str name.
Definition wField (f : TypeFieldInfo) : list Z := wText (tf_name f) ++ wU (tf_kind f) 1 ++ wU (tf_array_count f) 4.
Definition EncodeTypeDescriptor (d : TypeDescriptor) : result (list Z) :=
  let? _ := ParameterWireType d in
  let bs := wU 1 2 ++ wText (td_type_name d) ++ wU (td_field_count d) 2 ++ flat_map wField (used_fields d) in
  if MAX_PARAMETER_WIRE <? vsize bs then Err (- EMSGSIZE) else Ok bs.

(** [text(name, sizeof(name))]: the array afterwards; a bad length leaves it zero, a
    NUL among the characters is copied and marks the input bad. *)
Definition dText (capacity : nat) : dec (list Z) := fun r =>
  let (length, r) := rU 2 r in
  if negb (ok r) || (length =? 0) || (Z.of_nat capacity <=? length) || (vsize (left r) <? length)
  then Ok (repeat 0 capacity, bad r)
  else
    let n := Z.to_nat length in
    let text := take n (left r) in
    let r := Reader (drop n (left r)) (ok r) in
    Ok (text ++ repeat 0 (capacity - n), if has_nul text then bad r else r).

(** The loop over the fields; [payload] is [d.payload_size] so far. *)
Fixpoint dFields (n : nat) (payload : Z) : dec (list TypeFieldInfo * Z) :=
  match n with
  | O => dret ([], payload)
  | S n =>
      let$ name := dText FIELD_NAME_SIZE in
      let$ kind := dU 1 in
      let$ count := dU 4 in
      let size := PrimitiveSize kind in
      (fun r => if negb (ok r) || (size =? 0) || (count =? 0) || (MAX_PARAMETER_WIRE - payload <? size * count)
                then Err (- EPROTO)
                else (let$ rest := dFields n (payload + size * count) in
                      dret ({| tf_name := name; tf_kind := kind; tf_offset := payload; tf_element_size := size;
                               tf_array_count := count |} :: fst rest, snd rest)) r)
  end.

(** [d] as the decoder fills it: a packed layout. *)
Definition packed_descriptor (name : list Z) (fields : list TypeFieldInfo) (payload : Z) : TypeDescriptor :=
  {| td_protocol_version := 1; td_struct_size := sizeof_TypeDescriptor; td_type_id := StableTypeId (c_str name);
     td_type_name := name; td_payload_size := payload; td_payload_alignment := 1;
     td_field_count := Z.of_nat (length fields);
     td_fields := fields ++ repeat no_field (Z.to_nat MAX_TYPE_FIELDS - length fields) |}.

Definition dDescriptor : dec TypeDescriptor :=
  let$ version := dU 2 in
  guard$ version =? 1 else - EPROTONOSUPPORT in
  let$ name := dText TYPE_NAME_SIZE in
  let$ count := dU 2 in
  fun r => if negb (ok r) || (count =? 0) || (MAX_TYPE_FIELDS <? count) then Err (- EPROTO)
           else (let$ fields := dFields (Z.to_nat count) 0 in
                 dret (packed_descriptor name (fst fields) (snd fields))) r.

Definition DecodeTypeDescriptor (bs : list Z) (expected : TypeIdentity) : result TypeDescriptor :=
  if MAX_PARAMETER_WIRE <? vsize bs then Err (- EMSGSIZE)
  else if bs =?? [] then Err (- EPROTO)
  else
    let? (d, r) := dDescriptor (Reader bs true) in
    if negb (ok r) || negb (left r =?? []) then Err (- EPROTO)
    else match ParameterWireType d with
    | Err _ => Err (- EPROTO)
    | Ok actual => if actual =?? expected then Ok d else Err (- EPROTOTYPE)
    end.
(** ** What validation establishes *)
Definition field_bytes (f : TypeFieldInfo) : Z := tf_element_size f * tf_array_count f.
Definition field_ok (payload : Z) (f : TypeFieldInfo) : Prop :=
  c_str (tf_name f) <> [] /\ 0 ∈ tf_name f /\ PrimitiveSize (tf_kind f) <> 0 /\
  tf_element_size f = PrimitiveSize (tf_kind f) /\ tf_array_count f <> 0 /\
  tf_offset f <= payload /\ tf_offset f + field_bytes f <= payload.
(** Two fields of a descriptor: different names, disjoint bytes. *)
Definition apart (p f : TypeFieldInfo) : Prop :=
  c_str (tf_name f) <> c_str (tf_name p) /\
  (tf_offset p + field_bytes p <= tf_offset f \/ tf_offset f + field_bytes f <= tf_offset p).
Fixpoint all_apart (fields : list TypeFieldInfo) : Prop :=
  match fields with [] => True | f :: rest => Forall (apart f) rest /\ all_apart rest end.

Lemma has_nul_spec s : has_nul s = true <-> 0 ∈ s.
Proof.
  unfold has_nul. rewrite existsb_exists. split.
  - intros (x & Hx & E). bool_to_prop. subst. by apply list_elem_of_In.
  - intros H. exists 0. split; [by apply list_elem_of_In|done].
Qed.

Lemma has_nul_false s : has_nul s = false <-> (0 ∉ s).
Proof. rewrite <- has_nul_spec. by destruct (has_nul s). Qed.

Lemma first_char_c_str s : first_char s = 0 <-> c_str s = [].
Proof. destruct s as [|c s]; cbn; [done|]. by destruct (Z.eqb_spec c 0). Qed.

Lemma field_disjoint_spec f previous :
  field_disjoint f (field_bytes f) previous = true <-> Forall (fun p => apart p f) previous.
Proof.
  induction previous as [|p rest IH]; cbn [field_disjoint]; [by split|].
  rewrite List.Forall_cons_iff. fold (field_bytes p).
  case_bool_decide as Hn; [split; [done|intros [[? _] _]; done]|].
  destruct (_ && _) eqn:E; bool_to_prop.
  - split; [done|]. intros [[_ ?] _]. lia.
  - rewrite IH. apply andb_false_iff in E. unfold apart.
    split; [intros ?|tauto]. split_and!; auto. destruct E; bool_to_prop; lia.
Qed.

Lemma validate_fields_spec payload previous rest :
  validate_fields payload previous rest = true <->
  Forall (field_ok payload) rest /\ Forall (fun f => Forall (fun p => apart p f) previous) rest /\ all_apart rest.
Proof.
  revert previous. induction rest as [|f rest IH]; intros previous; cbn [validate_fields all_apart]; [by repeat split|].
  rewrite !List.Forall_cons_iff.
  assert (Hok : field_ok payload f <->
    ((first_char (tf_name f) =? 0) || negb (has_nul (tf_name f)) || (PrimitiveSize (tf_kind f) =? 0) ||
     negb (tf_element_size f =? PrimitiveSize (tf_kind f)) || (tf_array_count f =? 0) ||
     (payload <? tf_offset f)) || (payload - tf_offset f <? field_bytes f) = false).
  { rewrite !orb_false_iff, !negb_false_iff, !Z.eqb_neq, !Z.ltb_ge, Z.eqb_eq, has_nul_spec, first_char_c_str.
    unfold field_ok. split; intros; repeat match goal with H : _ /\ _ |- _ => destruct H end; split_and!; auto; lia. }
  fold (field_bytes f). rewrite Hok. clear Hok. rewrite <- (field_disjoint_spec f previous).
  destruct (_ || _ || _ || _ || _ || _); [cbn [orb]; split; [done|intros [[? _] _]; done]|]. cbn [orb].
  destruct (_ <? _); [split; [done|intros [[? _] _]; done]|].
  destruct (field_disjoint _ _ _); cbn [negb]; [|split; [done|intros (_ & [? _] & _); done]].
  rewrite IH. setoid_rewrite Forall_app. setoid_rewrite Forall_singleton. rewrite Forall_and. tauto.
Qed.

(** The header part of a valid descriptor. *)
Record header_ok (d : TypeDescriptor) : Prop := {
  ho_version : td_protocol_version d = 1;
  ho_size : td_struct_size d = sizeof_TypeDescriptor;
  ho_id : td_type_id d = StableTypeId (c_str (td_type_name d));
  ho_id0 : td_type_id d <> 0;
  ho_name : c_str (td_type_name d) <> [];
  ho_nul : 0 ∈ td_type_name d;
  ho_payload : td_payload_size d <> 0;
  ho_alignment : td_payload_alignment d <> 0;
  ho_power : Z.land (td_payload_alignment d) (td_payload_alignment d - 1) = 0;
  ho_multiple : td_payload_size d mod td_payload_alignment d = 0;
  ho_count : td_field_count d <> 0;
  ho_fields : td_field_count d <= MAX_TYPE_FIELDS
}.

Lemma ValidateTypeDescriptor_spec d :
  ValidateTypeDescriptor d = true <->
  header_ok d /\ Forall (field_ok (td_payload_size d)) (used_fields d) /\ all_apart (used_fields d).
Proof.
  unfold ValidateTypeDescriptor. split.
  - intros H. repeat (case_check; [done|]). bool_to_prop. rewrite validate_fields_spec in H.
    destruct H as (? & _ & ?). split_and!; auto. constructor; auto; try lia.
    + by rewrite <- first_char_c_str.
    + by apply has_nul_spec.
  - intros ([H1 H2 H3 H4 H5 H6 H7 H8 H9 H10 H11 H12] & Hf & Ha).
    rewrite <- first_char_c_str in H5. rewrite <- has_nul_spec in H6.
    apply Z.eqb_neq in H4, H5, H7, H8, H11. apply Z.ltb_ge in H12.
    rewrite H1, H2, H4, H5, H6, H7, H8, H9, H10, H11, H12, H3, !Z.eqb_refl. cbn [negb orb].
    apply validate_fields_spec. split_and!; auto. apply Forall_forall. by constructor.
Qed.
(** ** Schemas: what the wire carries of a descriptor, free of its native layout. *)
Definition field_schema (f : TypeFieldInfo) : list Z * Z * Z := (c_str (tf_name f), tf_kind f, tf_array_count f).
Definition schema (d : TypeDescriptor) : list Z * list (list Z * Z * Z) :=
  (c_str (td_type_name d), map field_schema (used_fields d)).

(** The packed layout of a schema. *)
Definition pad (capacity : nat) (s : list Z) : list Z := s ++ repeat 0 (capacity - length s).
Fixpoint pack (offset : Z) (fields : list TypeFieldInfo) : list TypeFieldInfo :=
  match fields with
  | [] => []
  | f :: rest =>
      {| tf_name := pad FIELD_NAME_SIZE (c_str (tf_name f)); tf_kind := tf_kind f; tf_offset := offset;
         tf_element_size := PrimitiveSize (tf_kind f); tf_array_count := tf_array_count f |} ::
      pack (offset + PrimitiveSize (tf_kind f) * tf_array_count f) rest
  end.
Definition total_bytes (fields : list TypeFieldInfo) : Z := foldr (fun f n => field_bytes f + n) 0 fields.
Definition packed_form (d : TypeDescriptor) : TypeDescriptor :=
  packed_descriptor (pad TYPE_NAME_SIZE (c_str (td_type_name d))) (pack 0 (used_fields d)) (total_bytes (used_fields d)).

(** A field whose name fits its array and whose element size is that of its kind. *)
Definition field_sane (f : TypeFieldInfo) : Prop :=
  wf_field f /\ c_str (tf_name f) <> [] /\ (length (c_str (tf_name f)) < FIELD_NAME_SIZE)%nat /\
  PrimitiveSize (tf_kind f) <> 0 /\ tf_element_size f = PrimitiveSize (tf_kind f) /\ tf_array_count f <> 0.

Lemma PrimitiveSize_values k : PrimitiveSize k = 0 \/ PrimitiveSize k = 1 \/ PrimitiveSize k = 2 \/ PrimitiveSize k = 4 \/ PrimitiveSize k = 8.
Proof. unfold PrimitiveSize. repeat case_check; auto 6. Qed.

Lemma field_sane_bytes f : field_sane f -> 1 <= field_bytes f.
Proof.
  intros (Hw & _ & _ & Hp & He & Hc). destruct Hw as (_ & _ & _ & _ & _ & Hcount). unfold field_bytes. rewrite He.
  destruct (PrimitiveSize_values (tf_kind f)) as [H|[H|[H|[H|H]]]]; rewrite H in *; unfold_widths; lia.
Qed.

Lemma field_ok_sane payload f : wf_field f -> field_ok payload f -> field_sane f.
Proof.
  intros Hw (Hn & H0 & Hp & He & Hc & _). repeat split; try apply Hw; auto.
  destruct Hw as [<- _]. by apply c_str_short.
Qed.

Lemma total_bytes_nonneg fields : Forall field_sane fields -> 0 <= total_bytes fields.
Proof. induction 1 as [|f l Hf Hl IH]; cbn; [done|]. pose proof (field_sane_bytes _ Hf). fold (total_bytes l). lia. Qed.

Lemma total_bytes_app l k : total_bytes (l ++ k) = total_bytes l + total_bytes k.
Proof. induction l as [|f l IH]; cbn [app]; [done|]. cbn [total_bytes foldr]. fold (total_bytes (l ++ k)) (total_bytes l). lia. Qed.

Lemma total_bytes_bound fields n : Forall (fun f => field_bytes f <= n) fields -> total_bytes fields <= n * Z.of_nat (length fields).
Proof. induction 1 as [|f l Hf Hl IH]; cbn [total_bytes foldr length]; [lia|]. fold (total_bytes l). nia. Qed.

Lemma wire_size_total fields :
  Forall field_sane fields -> total_bytes fields < 2 ^ 64 -> wire_size fields = total_bytes fields.
Proof.
  unfold wire_size. assert (Hgen : forall l n, Forall field_sane l -> 0 <= n -> n + total_bytes l < 2 ^ 64 ->
    foldl (fun size f => u64 (size + field_bytes f)) n l = n + total_bytes l).
  { induction l as [|f l IH]; intros n Hl Hn Hlt; cbn [foldl]; [cbn; lia|].
    apply Forall_cons in Hl as [Hf Hl]. pose proof (field_sane_bytes _ Hf). pose proof (total_bytes_nonneg _ Hl).
    cbn [total_bytes foldr] in *. fold (total_bytes l) in *. rewrite IH; auto; unfold u64; rewrite Z.mod_small; lia. }
  intros. by apply (Hgen fields 0).
Qed.

Lemma length_pad capacity s : (length s <= capacity)%nat -> length (pad capacity s) = capacity.
Proof. intros. unfold pad. rewrite length_app, repeat_length. lia. Qed.

Lemma c_str_pad capacity s : c_str (pad capacity (c_str s)) = c_str s.
Proof. apply c_str_padded, c_str_no_nul. Qed.

Lemma bytes_pad capacity s : bytes s -> bytes (pad capacity s).
Proof. intros. apply bytes_app. split; [done|]. apply Forall_forall. intros x Hx. apply list_elem_of_In, repeat_spec in Hx. subst. unfold_widths. lia. Qed.

Lemma pad_nul capacity s : (length s < capacity)%nat -> 0 ∈ pad capacity s.
Proof. intros. apply elem_of_app. right. destruct (capacity - length s)%nat eqn:E; [lia|]. by constructor. Qed.

Lemma length_pack offset fields : length (pack offset fields) = length fields.
Proof. revert offset. induction fields; intros; cbn; [done|]. by rewrite IHfields. Qed.

Lemma pack_schema offset fields : map field_schema (pack offset fields) = map field_schema fields.
Proof. revert offset. induction fields as [|f l IH]; intros; cbn; [done|]. unfold field_schema at 1 3. cbn. by rewrite c_str_pad, IH. Qed.

(** Packing the fields of a schema again changes nothing. *)
Lemma pack_determined offset l k : map field_schema l = map field_schema k -> pack offset l = pack offset k.
Proof.
  revert offset k. induction l as [|f l IH]; intros offset [|g k] H; simplify_eq/=; [done|].
  unfold field_schema in H. match goal with K : map field_schema l = _ |- _ => rewrite (IH _ _ K) end. congruence.
Qed.

Lemma total_bytes_schema l k : Forall field_sane l -> Forall field_sane k ->
  map field_schema l = map field_schema k -> total_bytes l = total_bytes k.
Proof.
  intros Hl. revert k. induction Hl as [|f l Hf Hl IH]; intros [|g k] Hk E; simplify_eq/=; [done|].
  apply Forall_cons in Hk as [Hg Hk]. fold (total_bytes l) (total_bytes k). erewrite IH by eauto.
  destruct Hf as (_ & _ & _ & _ & Hf & _), Hg as (_ & _ & _ & _ & Hg & _). unfold field_bytes, field_schema in *. congruence.
Qed.

Lemma hash_schema h l k : map field_schema l = map field_schema k -> foldl hash_field h l = foldl hash_field h k.
Proof.
  revert h k. induction l as [|f l IH]; intros h [|g k] E; simplify_eq/=; [done|].
  erewrite IH by eauto. f_equal. unfold hash_field, field_schema in *. congruence.
Qed.

Lemma wField_schema l k : map field_schema l = map field_schema k -> flat_map wField l = flat_map wField k.
Proof.
  revert k. induction l as [|f l IH]; intros [|g k] E; simplify_eq/=; [done|].
  match goal with K : map field_schema l = _ |- _ => rewrite (IH _ K) end. congruence.
Qed.

(** ** The packed layout of a valid descriptor is valid. *)
Definition names (fields : list TypeFieldInfo) : list (list Z) := map (fun f => c_str (tf_name f)) fields.

Lemma names_schema l : names l = map (fun s => fst (fst s)) (map field_schema l).
Proof. unfold names. by rewrite map_map. Qed.

Lemma all_apart_names fields : all_apart fields -> NoDup (names fields).
Proof.
  induction fields as [|f l IH]; intros H; [constructor|]. destruct H as [Hf Hl]. cbn. constructor; [|by apply IH].
  intros Hin. apply list_elem_of_In, in_map_iff in Hin as (g & E & Hg). apply list_elem_of_In in Hg.
  rewrite Forall_forall in Hf. destruct (Hf g Hg) as [Hne _]. congruence.
Qed.

Lemma pack_bounds offset fields :
  Forall field_sane fields ->
  Forall (fun g => offset <= tf_offset g /\ tf_offset g + field_bytes g <= offset + total_bytes fields) (pack offset fields).
Proof.
  intros H. revert offset. induction H as [|f l Hf Hl IH]; intros offset; cbn [pack]; [constructor|].
  pose proof (field_sane_bytes _ Hf) as Hb. pose proof (total_bytes_nonneg _ Hl) as Ht.
  assert (He : PrimitiveSize (tf_kind f) * tf_array_count f = field_bytes f).
  { destruct Hf as (_ & _ & _ & _ & He & _). unfold field_bytes. by rewrite He. }
  cbn [total_bytes foldr]. fold (total_bytes l). constructor.
  - unfold field_bytes at 1. cbn. rewrite He. lia.
  - rewrite He. eapply Forall_impl; [apply IH|]. cbn beta. intros g ?. lia.
Qed.

Lemma pack_apart offset fields :
  Forall field_sane fields -> NoDup (names fields) -> all_apart (pack offset fields).
Proof.
  intros H. revert offset. induction H as [|f l Hf Hl IH]; intros offset Hn; [done|].
  apply NoDup_cons in Hn as [Hnot Hn]. fold (names l) in *. cbn [pack all_apart]. split; [|by apply IH].
  apply Forall_forall. intros g Hg. split; cbn [tf_name tf_offset].
  - rewrite c_str_pad. intros E. apply Hnot. rewrite names_schema, <- (pack_schema (offset + PrimitiveSize (tf_kind f) * tf_array_count f)), <- names_schema.
    apply list_elem_of_In, in_map_iff. exists g. split; [done|]. by apply list_elem_of_In.
  - left. pose proof (pack_bounds (offset + PrimitiveSize (tf_kind f) * tf_array_count f) l Hl) as Hb.
    rewrite Forall_forall in Hb. apply (Hb g Hg).
Qed.

(** What the packed fields keep: their kinds, counts and names. *)
Lemma pack_wf offset fields :
  Forall field_sane fields -> 0 <= offset -> offset + total_bytes fields <= MAX_PARAMETER_WIRE ->
  Forall (fun f => field_sane f /\ 0 ∈ tf_name f) (pack offset fields).
Proof.
  intros H. revert offset. induction H as [|f l Hf Hl IH]; intros offset H0 Hm; cbn [pack]; [constructor|].
  pose proof (field_sane_bytes _ Hf) as Hb. pose proof (total_bytes_nonneg _ Hl) as Ht.
  cbn [total_bytes foldr] in Hm. fold (total_bytes l) in Hm.
  destruct Hf as ((Hlen & Hbytes & Hk & Ho & Hes & Hc) & Hn & Hs & Hp & He & Hcnt).
  assert (PrimitiveSize (tf_kind f) * tf_array_count f = field_bytes f) as HE by (unfold field_bytes; by rewrite He).
  constructor; [|apply IH; rewrite HE; lia].
  unfold field_sane, wf_field. cbn. rewrite c_str_pad. split_and!; auto; try apply length_pad; try lia;
    try (by apply pad_nul); try (apply bytes_pad, c_str_bytes; done); unfold_widths; unfold MAX_PARAMETER_WIRE in *; try lia.
  all: destruct (PrimitiveSize_values (tf_kind f)) as [E|[E|[E|[E|E]]]]; rewrite E in *; lia.
Qed.

Lemma used_packed name fields payload : (length fields <= Z.to_nat MAX_TYPE_FIELDS)%nat ->
  used_fields (packed_descriptor name fields payload) = fields.
Proof. intros H. unfold used_fields. cbn. by rewrite Nat2Z.id, take_app_length. Qed.

Lemma total_bytes_pack offset fields : Forall field_sane fields -> total_bytes (pack offset fields) = total_bytes fields.
Proof.
  intros H. revert offset. induction H as [|f l Hf Hl IH]; intros offset; [done|].
  cbn [pack total_bytes foldr]. fold (total_bytes l). fold (total_bytes (pack (offset + PrimitiveSize (tf_kind f) * tf_array_count f) l)).
  rewrite IH. f_equal. destruct Hf as (_ & _ & _ & _ & He & _). unfold field_bytes. cbn. by rewrite He.
Qed.

(** The conditions on the fields under which the packed layout is a valid descriptor. *)
Definition packable (name : list Z) (fields : list TypeFieldInfo) : Prop :=
  c_str name <> [] /\ (length (c_str name) < TYPE_NAME_SIZE)%nat /\ StableTypeId (c_str name) <> 0 /\
  fields <> [] /\ (length fields <= Z.to_nat MAX_TYPE_FIELDS)%nat /\ Forall field_sane fields /\
  NoDup (names fields) /\ total_bytes fields <= MAX_PARAMETER_WIRE.

Lemma packed_valid name fields :
  packable name fields ->
  ValidateTypeDescriptor (packed_descriptor (pad TYPE_NAME_SIZE (c_str name)) (pack 0 fields) (total_bytes fields)) = true.
Proof.
  intros (Hn & Hlen & Hid & Hne & Hcount & Hs & Hd & Hm). apply ValidateTypeDescriptor_spec.
  rewrite used_packed by (by rewrite length_pack).
  assert (Hpos : 1 <= total_bytes fields).
  { destruct Hs as [|f l Hf Hl]; [done|]. pose proof (field_sane_bytes _ Hf). pose proof (total_bytes_nonneg _ Hl).
    cbn. fold (total_bytes l). lia. }
  assert (Hl1 : (1 <= length fields)%nat) by (destruct fields; cbn; [done|lia]).
  split_and!; [|cbn [packed_descriptor td_payload_size]|by apply pack_apart].
  - constructor; cbn; rewrite ?c_str_pad, ?length_pack; auto; try lia; try (by apply pad_nul).
    by rewrite Z.mod_1_r.
  - pose proof (pack_wf 0 fields Hs ltac:(lia) ltac:(lia)) as Hw. pose proof (pack_bounds 0 fields Hs) as Hb.
    apply Forall_forall. intros f Hf. rewrite Forall_forall in Hw, Hb. destruct (Hw f Hf) as [(Hwf & ? & ? & ? & ? & ?) ?].
    destruct (Hb f Hf). pose proof (field_sane_bytes f ltac:(by apply (Hw f Hf))). repeat split; auto; lia.
Qed.

Lemma used_fields_wf d : wf_descriptor d -> Forall wf_field (used_fields d).
Proof. intros H. apply Forall_take, H. Qed.

Lemma length_used d : wf_descriptor d -> td_field_count d <= MAX_TYPE_FIELDS -> Z.of_nat (length (used_fields d)) = td_field_count d.
Proof.
  intros (_ & _ & _ & _ & _ & _ & _ & Hc & Hl & _) H. unfold used_fields. rewrite length_take.
  unfold_widths. unfold MAX_TYPE_FIELDS in *. lia.
Qed.

(** ** The codec *)
Lemma reads_Text capacity s :
  bytes s -> c_str s <> [] -> (length (c_str s) < capacity)%nat -> Z.of_nat capacity <= 65536 ->
  reads (dText capacity) (wText s) (pad capacity (c_str s)).
Proof.
  intros Hs Hne Hlen Hcap rest. unfold dText, wText. rewrite <- app_assoc. set (t := c_str s) in *.
  pose proof (vsize_nonneg rest). assert (1 <= vsize t < 65536) by (unfold vsize; destruct t; cbn in *; [done|lia]).
  assert (HU : rU 2 (Reader (wU (vsize t) 2 ++ t ++ rest) true) = (vsize t, Reader (t ++ rest) true)).
  { pose proof (reads_U 2 (vsize t) ltac:(lia) ltac:(unfold_widths; simpl; lia) (t ++ rest)) as E. unfold dU in E. congruence. }
  rewrite HU. cbn [ok left negb orb]. rewrite vsize_app.
  destruct (Z.eqb_spec (vsize t) 0); [lia|].
  destruct (Z.leb_spec (Z.of_nat capacity) (vsize t)); [unfold vsize in *; lia|].
  destruct (Z.ltb_spec (vsize t + vsize rest) (vsize t)); [lia|]. cbn [orb].
  unfold vsize. rewrite Nat2Z.id, take_app_length, drop_app_length.
  assert (has_nul t = false) as -> by (apply has_nul_false, c_str_no_nul). done.
Qed.

Lemma consumes_Text capacity : Z.of_nat capacity <= 65536 ->
  consumes (dText capacity) (fun pre s => pre = wText s /\ length s = capacity /\ bytes s /\ c_str s <> [] /\
    (length (c_str s) < capacity)%nat /\ s = pad capacity (c_str s)).
Proof.
  intros Hcap r s r' Hd Hb. unfold dText in Hd. destruct (rU 2 r) as [len r1] eqn:HU.
  destruct (consumes_U 2 ltac:(lia) r len r1 ltac:(unfold dU; congruence) Hb) as [Hb1 K].
  case_check; simplify_eq/=; [done|]. bool_to_prop.
  assert (Hnul : forall q, ok (if has_nul (take (Z.to_nat len) (left r1)) then bad q else q) = true ->
    ok q = true /\ (0 ∉ take (Z.to_nat len) (left r1))).
  { intros q. destruct (has_nul _) eqn:E; [done|]. intros. split; [done|]. by apply has_nul_false. }
  split; [case_check; cbn; auto with kcf|]. intros Hok. apply Hnul in Hok as [Hok Hno]. cbn in Hok.
  destruct (K Hok) as (? & pre & Hl & -> & Hrange). split; [done|].
  set (t := take (Z.to_nat len) (left r1)) in *.
  assert (Hlen : vsize t = len) by (unfold t, vsize in *; rewrite length_take; lia).
  assert (HlenN : length t = Z.to_nat len) by (unfold vsize in *; lia).
  assert (Hpad : t ++ repeat 0 (capacity - Z.to_nat len) = pad capacity t) by (unfold pad; by rewrite HlenN).
  assert (Hc : c_str (pad capacity t) = t) by (apply c_str_padded; done).
  exists (wText (pad capacity t)). rewrite Hpad. unfold wText. rewrite !Hc, Hlen. split.
  { rewrite <- app_assoc. case_check; cbn [left bad]; unfold t; by rewrite take_drop. }
  split_and!; auto.
  - apply length_pad. lia.
  - apply bytes_pad. unfold t. auto with kcf.
  - intros E. rewrite E, vsize_nil in Hlen. lia.
  - lia.
Qed.

Lemma PrimitiveSize_count f : field_sane f -> PrimitiveSize (tf_kind f) * tf_array_count f = field_bytes f.
Proof. intros (_ & _ & _ & _ & He & _). unfold field_bytes. by rewrite He. Qed.

Lemma reads_Fields offset fields :
  Forall field_sane fields -> 0 <= offset -> offset + total_bytes fields <= MAX_PARAMETER_WIRE ->
  reads (dFields (length fields) offset) (flat_map wField fields) (pack offset fields, offset + total_bytes fields).
Proof.
  intros H. revert offset. induction H as [|f l Hf Hl IH]; intros offset H0 Hm.
  { cbn. rewrite Z.add_0_r. apply reads_ret. }
  pose proof (field_sane_bytes _ Hf) as Hb. pose proof (total_bytes_nonneg _ Hl) as Ht.
  pose proof (PrimitiveSize_count _ Hf) as HE.
  cbn [total_bytes foldr] in Hm |- *. fold (total_bytes l) in *.
  destruct Hf as ((Hlen & Hbytes & Hk & Ho & Hes & Hc) & Hn & Hs & Hp & He & Hcnt).
  cbn [flat_map length dFields pack]. unfold wField. rewrite <- !app_assoc.
  eapply reads_bind; [apply reads_Text; auto; unfold FIELD_NAME_SIZE in *; lia|].
  eapply reads_bind; [apply reads_U; [lia|width]|]. eapply reads_bind; [apply reads_U; [lia|width]|].
  apply reads_when.
  - intros r ->. rewrite HE. apply Z.eqb_neq in Hp, Hcnt. rewrite Hp, Hcnt. cbn. apply Z.ltb_ge. lia.
  - rewrite HE. eapply reads_last; [apply IH; lia|]. cbn [fst snd]. rewrite Z.add_assoc. apply reads_ret.
Qed.

Lemma consumes_Fields n offset : offset <= MAX_PARAMETER_WIRE ->
  consumes (dFields n offset) (fun pre out =>
    pre = flat_map wField (fst out) /\ length (fst out) = n /\ fst out = pack offset (fst out) /\
    snd out = offset + total_bytes (fst out) /\ snd out <= MAX_PARAMETER_WIRE /\ (0 <= offset -> Forall field_sane (fst out))).
Proof.
  revert offset. induction n as [|n IH]; intros offset Ho; cbn [dFields].
  { eapply consumes_weaken; [apply consumes_ret|]. intros pre out _ [-> ->]. cbn. split_and!; auto; lia. }
  eapply consumes_weaken.
  { eapply consumes_bind; [apply consumes_Text; unfold FIELD_NAME_SIZE; lia|intros name].
    eapply consumes_bind; [apply consumes_U; lia|intros kind]. eapply consumes_bind; [apply consumes_U; lia|intros count].
    apply (consumes_when _ _ _ (PrimitiveSize kind <> 0 /\ count <> 0 /\
                                PrimitiveSize kind * count <= MAX_PARAMETER_WIRE - offset)).
    { intros r Hg. bool_to_prop. auto. }
    intros (Hp & Hc & Hm). eapply consumes_bind; [|intros rest; apply consumes_ret]. apply IH.
    lia. }
  intros pre out _ (name & p1 & p2 & -> & (-> & Hname & Hb & Hne & Hlen & Hpad) & kind & q1 & q2 & -> & [-> Hk] &
    count & s1 & s2 & -> & [-> Hcount] & (Hp & Hc & Hm) & [l total] & t1 & t2 & -> &
    (-> & Hl & Hpack & Htotal & Hmax & Hsane) & -> & ->). cbn [fst snd] in *.
  set (f := {| tf_name := name; tf_kind := kind; tf_offset := offset; tf_element_size := PrimitiveSize kind; tf_array_count := count |}).
  pose proof (PrimitiveSize_values kind) as Hpv.
  assert (Hpos : 0 <= PrimitiveSize kind * count) by (simpl in Hcount; destruct Hpv as [E|[E|[E|[E|E]]]]; rewrite E; lia).
  rewrite app_nil_r. split_and!; auto.
  - cbn [flat_map]. unfold wField. by rewrite <- !app_assoc.
  - cbn. congruence.
  - unfold f. cbn [pack tf_name tf_kind tf_array_count]. by rewrite <- Hpack, <- Hpad.
  - cbn. fold (total_bytes l). unfold field_bytes. cbn. lia.
  - intros H0. constructor; [|apply Hsane; lia]. unfold field_sane, wf_field. cbn.
    unfold MAX_PARAMETER_WIRE in *. split_and!; auto; width || (destruct Hpv as [E|[E|[E|[E|E]]]]; rewrite E; width).
Qed.


(** Every descriptor with a wire type has a packed form. *)
Lemma wire_type_packable d t :
  wf_descriptor d -> ParameterWireType d = Ok t ->
  packable (td_type_name d) (used_fields d) /\ header_ok d /\ Z.of_nat (length (used_fields d)) = td_field_count d /\
  t = {| ty_type_id := td_type_id d; ty_schema_id := foldl hash_field FNV_BASIS (used_fields d);
         ty_encoding_id := 1; ty_payload_size := total_bytes (used_fields d) |} /\
  foldl hash_field FNV_BASIS (used_fields d) <> 0.
Proof.
  intros Hw H. unfold ParameterWireType in H. repeat (case_check; [done|]). bool_to_prop.
  match goal with K : ValidateTypeDescriptor d = true |- _ => apply ValidateTypeDescriptor_spec in K as (Hh & Hf & Ha) end.
  pose proof (length_used d Hw (ho_fields d Hh)) as Hlen. pose proof (used_fields_wf d Hw) as Hwf.
  assert (Hs : Forall field_sane (used_fields d)).
  { rewrite Forall_forall in *. intros f Hin. eapply field_ok_sane; auto. }
  assert (Ht : total_bytes (used_fields d) < 2 ^ 64).
  { pose proof (total_bytes_bound (used_fields d) MAX_PARAMETER_WIRE) as Hb.
    assert (total_bytes (used_fields d) <= MAX_PARAMETER_WIRE * 128); [|unfold MAX_PARAMETER_WIRE in *; lia].
    etrans; [apply Hb|destruct Hh; unfold MAX_TYPE_FIELDS, MAX_PARAMETER_WIRE in *; lia].
    rewrite Forall_forall in *. intros f Hin. destruct (Hf f Hin) as (_ & _ & _ & _ & _ & _ & ?).
    destruct (Hwf f Hin) as (_ & _ & _ & Ho & _). unfold_widths. lia. }
  rewrite wire_size_total in * by done. pose proof (total_bytes_nonneg _ Hs).
  assert (u32 (total_bytes (used_fields d)) = total_bytes (used_fields d)) as Hu.
  { unfold u32, MAX_PARAMETER_WIRE in *. apply Z.mod_small. lia. }
  rewrite Hu in H. injection H as <-. split_and!; auto. destruct Hh.
  unfold packable. split_and!; auto using all_apart_names.
  - destruct Hw as (_ & _ & _ & <- & _). by apply c_str_short.
  - congruence.
  - intros E. rewrite E in Hlen. change (Z.of_nat (length [])) with 0 in Hlen. lia.
  - lia.
Qed.

Lemma packed_wire_type name fields :
  packable name fields -> foldl hash_field FNV_BASIS fields <> 0 ->
  ParameterWireType (packed_descriptor (pad TYPE_NAME_SIZE (c_str name)) (pack 0 fields) (total_bytes fields)) =
  Ok {| ty_type_id := StableTypeId (c_str name); ty_schema_id := foldl hash_field FNV_BASIS fields;
        ty_encoding_id := 1; ty_payload_size := total_bytes fields |}.
Proof.
  intros Hp Hh. unfold ParameterWireType. rewrite packed_valid by done.
  destruct Hp as (Hn & Hlen & Hid & Hne & Hcount & Hs & Hd & Hm).
  rewrite used_packed by (by rewrite length_pack).
  rewrite (hash_schema _ _ fields) by apply pack_schema.
  pose proof (total_bytes_nonneg _ Hs).
  assert (Hsp : Forall field_sane (pack 0 fields)).
  { eapply Forall_impl; [apply (pack_wf 0 fields); auto; lia|]. by intros ? [? _]. }
  assert (0 < total_bytes fields).
  { destruct Hs as [|f l Hf Hl]; [done|]. pose proof (field_sane_bytes _ Hf). pose proof (total_bytes_nonneg _ Hl).
    cbn. fold (total_bytes l). lia. }
  rewrite wire_size_total by (auto; rewrite total_bytes_pack by done; unfold MAX_PARAMETER_WIRE in *; lia).
  rewrite total_bytes_pack by done. cbn [negb orb packed_descriptor td_field_count td_payload_size td_type_id].
  rewrite length_pack, c_str_pad. apply Z.eqb_neq in Hh. rewrite Hh.
  destruct (Z.eqb_spec (Z.of_nat (length fields)) 0); [destruct fields; [done|cbn in *; lia]|].
  destruct (Z.ltb_spec MAX_PARAMETER_WIRE (total_bytes fields)); [lia|].
  destruct (Z.eqb_spec (total_bytes fields) 0); [lia|]. cbn [orb].
  unfold u32, MAX_PARAMETER_WIRE in *. by rewrite Z.mod_small by lia.
Qed.

Definition descriptor_wire (d : TypeDescriptor) : list Z :=
  wU 1 2 ++ wText (td_type_name d) ++ wU (td_field_count d) 2 ++ flat_map wField (used_fields d).

Lemma reads_Descriptor d :
  wf_descriptor d -> packable (td_type_name d) (used_fields d) -> Z.of_nat (length (used_fields d)) = td_field_count d ->
  reads dDescriptor (descriptor_wire d) (packed_form d).
Proof.
  intros Hw (Hn & Hlen & Hid & Hne & Hcount & Hs & Hd & Hm) Hl. unfold dDescriptor, descriptor_wire.
  assert (Hw' := Hw). destruct Hw as (_ & _ & _ & _ & Hb & _ & _ & Hcw & _).
  assert (1 <= td_field_count d <= MAX_TYPE_FIELDS).
  { rewrite <- Hl. unfold MAX_TYPE_FIELDS in *. destruct (used_fields d); [done|]. cbn [length] in *. lia. }
  unfold MAX_TYPE_FIELDS in *. do 2 read_step.
  eapply reads_bind; [apply reads_Text; auto; unfold TYPE_NAME_SIZE; lia|].
  eapply reads_bind; [apply reads_U; [lia|width]|].
  apply reads_when.
  { intros r ->. destruct (Z.eqb_spec (td_field_count d) 0); [lia|]. cbn [negb orb]. apply Z.ltb_ge. unfold MAX_TYPE_FIELDS. lia. }
  rewrite <- Hl, Nat2Z.id. eapply reads_last; [apply reads_Fields; auto; lia|]. apply reads_ret.
Qed.

Lemma StableTypeId_u64 s : is_u64 (StableTypeId s).
Proof.
  unfold StableTypeId. induction s as [|b s _] using rev_ind; [unfold FNV_BASIS; cbn; unfold_widths; lia|].
  rewrite foldl_app. cbn [foldl]. set (h := foldl _ _ _). clearbody h. unfold fnv_byte.
  pose proof (Z.mod_pos_bound (Z.lxor h b * 1099511628211) (2 ^ 64) ltac:(lia)). unfold_widths. lia.
Qed.

Lemma packed_wf name fields payload :
  length name = TYPE_NAME_SIZE -> bytes name -> Forall field_sane fields ->
  (length fields <= Z.to_nat MAX_TYPE_FIELDS)%nat -> 0 <= payload <= MAX_PARAMETER_WIRE ->
  wf_descriptor (packed_descriptor name fields payload).
Proof.
  intros Hl Hb Hs Hn Hp. pose proof (StableTypeId_u64 (c_str name)) as Hid. unfold wf_descriptor, packed_descriptor.
  cbn [td_protocol_version td_struct_size td_type_id td_type_name td_payload_size td_payload_alignment td_field_count td_fields].
  repeat apply conj; auto; unfold is_u32; unfold MAX_TYPE_FIELDS, MAX_PARAMETER_WIRE, UINT32_MAX in *;
    try (change sizeof_TypeDescriptor with 14528); try apply Hid; try lia.
  - rewrite length_app, repeat_length. lia.
  - apply Forall_app. split; [by eapply Forall_impl; [exact Hs|]; intros ? [? _]|].
    apply Forall_forall. intros f Hf. apply list_elem_of_In, repeat_spec in Hf as ->. unfold no_field, FIELD_NAME_SIZE. solve_wf.
Qed.

Lemma consumes_Descriptor :
  consumes dDescriptor (fun pre d => pre = descriptor_wire d /\ wf_descriptor d /\ d = packed_form d).
Proof.
  eapply consumes_weaken.
  { eapply consumes_bind; [apply consumes_U; lia|intros version]. apply consumes_guard. intros Hv.
    eapply consumes_bind; [apply consumes_Text; unfold TYPE_NAME_SIZE; lia|intros name].
    eapply consumes_bind; [apply consumes_U; lia|intros count].
    apply (consumes_when _ _ _ (count <> 0 /\ count <= MAX_TYPE_FIELDS)).
    { intros r Hg. bool_to_prop. auto. }
    intros _. eapply consumes_bind; [apply consumes_Fields; unfold MAX_PARAMETER_WIRE; lia|intros fields]. apply consumes_ret. }
  intros pre d _ (version & p1 & p2 & -> & [-> _] & Hv & name & q1 & q2 & -> & (-> & Hname & Hb & Hne & Hlen & Hpad) &
    count & s1 & s2 & -> & [-> Hcount] & (Hc0 & Hc) & [fields total] & t1 & t2 & -> &
    (-> & Hl & Hpack & Htotal & Hmax & Hsane) & -> & ->). cbn [fst snd] in *.
  bool_to_prop. subst version. specialize (Hsane ltac:(lia)).
  assert (Hn : (length fields <= Z.to_nat MAX_TYPE_FIELDS)%nat) by (unfold MAX_TYPE_FIELDS in *; lia).
  assert (Hcf : Z.of_nat (length fields) = count) by (simpl in Hcount; lia).
  rewrite Z.add_0_l in Htotal.
  pose proof (total_bytes_nonneg _ Hsane) as H0. split_and!; [|apply packed_wf; auto; lia|].
  - unfold descriptor_wire. rewrite used_packed by done. cbn [packed_descriptor td_type_name td_field_count]. by rewrite Hcf, app_nil_r.
  - unfold packed_form. rewrite used_packed by done. cbn [packed_descriptor td_type_name]. by rewrite <- Hpack, <- Hpad, Htotal.
Qed.

Lemma schema_packed d : (length (used_fields d) <= Z.to_nat MAX_TYPE_FIELDS)%nat -> schema (packed_form d) = schema d.
Proof.
  intros H. unfold schema, packed_form. rewrite used_packed by (by rewrite length_pack).
  cbn [packed_descriptor td_type_name]. by rewrite c_str_pad, pack_schema.
Qed.

(** What [EncodeTypeDescriptor] guarantees about its argument. *)
Lemma EncodeTypeDescriptor_inv d bs :
  wf_descriptor d -> EncodeTypeDescriptor d = Ok bs ->
  exists t, ParameterWireType d = Ok t /\ bs = descriptor_wire d /\ vsize bs <= MAX_PARAMETER_WIRE /\
    packable (td_type_name d) (used_fields d) /\ Z.of_nat (length (used_fields d)) = td_field_count d /\
    ParameterWireType (packed_form d) = Ok t.
Proof.
  intros Hw H. unfold EncodeTypeDescriptor in H. destruct (ParameterWireType d) as [t|] eqn:Ht; [|done]. cbn [bind_result] in H.
  case_check; [done|]. bool_to_prop. injection H as <-.
  destruct (wire_type_packable d t Hw Ht) as (Hp & Hh & Hl & -> & Hhash).
  eexists. split_and!; [done|done| |done|done|]; [assumption|].
  unfold packed_form. rewrite packed_wire_type by done. by rewrite <- (ho_id d Hh).
Qed.

(** A descriptor is sent as its schema.  The receiver, told the wire type the
    sender announced, rebuilds a descriptor with the same type name, field names, kinds
    and counts and the same wire type, laid out without gaps whatever the sender's
    padding; and whatever bytes it accepts are the canonical encoding of a well-formed
    descriptor that has exactly the announced wire type. *)
Theorem type_descriptor_codec :
  (forall d bs, wf_descriptor d -> EncodeTypeDescriptor d = Ok bs ->
     exists t, ParameterWireType d = Ok t /\ DecodeTypeDescriptor bs t = Ok (packed_form d) /\
       schema (packed_form d) = schema d /\ ParameterWireType (packed_form d) = Ok t) /\
  (forall bs t d, bytes bs -> DecodeTypeDescriptor bs t = Ok d ->
     wf_descriptor d /\ packed_form d = d /\ ParameterWireType d = Ok t /\ EncodeTypeDescriptor d = Ok bs).
Proof.
  split.
  - intros d bs Hw H. destruct (EncodeTypeDescriptor_inv d bs Hw H) as (t & Ht & -> & Hsz & Hp & Hl & Hpt).
    exists t. split; [done|]. split; [|split; [apply schema_packed, Hp|done]].
    unfold DecodeTypeDescriptor. apply Z.ltb_ge in Hsz. rewrite Hsz.
    rewrite bool_decide_false by (unfold descriptor_wire; intros E; apply (f_equal length) in E; rewrite length_app, wU_length in E; cbn in E; lia).
    rewrite (reads_reads_all _ _ _ (reads_Descriptor d Hw Hp Hl)). cbn [bind_result ok left negb orb].
    rewrite !bool_decide_true by done. cbn [negb]. rewrite Hpt. by rewrite bool_decide_true.
  - intros bs t d Hb H. unfold DecodeTypeDescriptor in H. do 2 (case_check; [done|]).
    destruct (dDescriptor _) as [[d' r]|] eqn:E; [|done]. cbn [bind_result] in H. case_check; [done|]. bool_to_prop.
    destruct (ParameterWireType d') as [t'|] eqn:Ht; [|done]. case_bool_decide; [|done]. simplify_eq.
    destruct (consumes_Descriptor _ _ _ E Hb) as [_ K]. destruct K as (_ & pre & Hpre & -> & Hw & Hpf); [done|].
    cbn [left] in Hpre. match goal with K : left r = [] |- _ => rewrite K, app_nil_r in Hpre end. subst bs.
    split_and!; auto. unfold EncodeTypeDescriptor. rewrite Ht. cbn [bind_result]. fold (descriptor_wire d).
    match goal with K : vsize _ <= _ |- _ => apply Z.ltb_ge in K; by rewrite K end.
Qed.
