(* ===== verification/ParameterCodec.v ===== *)
(** * Parameter values on the wire

    [EncodeParameterValue] and [DecodeParameterValue] of
    [kcf/src/network/parameter_codec.cpp]: the native bytes of a value, in any valid
    layout and either byte order, against the big-endian elements on the wire.
    [little] is what the two functions compute from the object representation of a
    16-bit 1. *)
From S2P Require Import Prelude Wire NetTypes NetWire TypeDescriptor.

Record DynamicPayload := { dp_type_id : Z; dp_sequence : Z; dp_bytes : list Z }.

(** [p[i]] on a buffer; the loops below stay inside it ([element_in_bounds]). *)
Definition byte_at (l : list Z) (i : Z) : Z := nth (Z.to_nat i) l 0.
Definition put_byte (l : list Z) (i b : Z) : list Z := <[Z.to_nat i := b]> l.

(** [p]: the first byte of element [n] of field [f]; [n*f.element_size] is 32-bit. *)
Definition element_start (f : TypeFieldInfo) (n : Z) : Z := tf_offset f + u32 (n * tf_element_size f).
(** [p[little?f.element_size-1-j:j]] *)
Definition element_index (little : bool) (f : TypeFieldInfo) (n j : Z) : Z :=
  element_start f n + (if little then tf_element_size f - 1 - j else j).

Fixpoint encode_elements (little : bool) (value : list Z) (f : TypeFieldInfo) (k : nat) (n : Z) (out : list Z) : result (list Z) :=
  match k with
  | O => Ok out
  | S k =>
      if (tf_kind f =? FieldValueKind.BOOL) && (1 <? byte_at value (element_start f n)) then Err (- EPROTO)
      else encode_elements little value f k (n + 1)
             (out ++ map (fun j => byte_at value (element_index little f n j)) (seqZ 0 (tf_element_size f)))
  end.
Fixpoint encode_fields (little : bool) (value : list Z) (fields : list TypeFieldInfo) (out : list Z) : result (list Z) :=
  match fields with
  | [] => Ok out
  | f :: rest =>
      let? out := encode_elements little value f (Z.to_nat (tf_array_count f)) 0 out in
      encode_fields little value rest out
  end.
Definition EncodeParameterValue (little : bool) (d : TypeDescriptor) (value : DynamicPayload) : result (list Z) :=
  let? _ := ParameterWireType d in
  if negb (dp_type_id value =? td_type_id d) || negb (vsize (dp_bytes value) =? td_payload_size d) then Err (- EPROTOTYPE)
  else encode_fields little (dp_bytes value) (used_fields d) [].

(** The inner loop: [p[...] = input[cursor++]]. *)
Definition write_element (little : bool) (input : list Z) (cursor : Z) (f : TypeFieldInfo) (n : Z) (value : list Z) : list Z :=
  foldl (fun v j => put_byte v (element_index little f n j) (byte_at input (cursor + j))) value (seqZ 0 (tf_element_size f)).
Fixpoint decode_elements (little : bool) (input : list Z) (f : TypeFieldInfo) (k : nat) (n : Z) (st : list Z * Z) : result (list Z * Z) :=
  match k with
  | O => Ok st
  | S k =>
      let (value, cursor) := st in
      if (tf_kind f =? FieldValueKind.BOOL) && (1 <? byte_at input cursor) then Err (- EPROTO)
      else decode_elements little input f k (n + 1)
             (write_element little input cursor f n value, cursor + tf_element_size f)
  end.
Fixpoint decode_fields (little : bool) (input : list Z) (fields : list TypeFieldInfo) (st : list Z * Z) : result (list Z * Z) :=
  match fields with
  | [] => Ok st
  | f :: rest =>
      let? st := decode_elements little input f (Z.to_nat (tf_array_count f)) 0 st in
      decode_fields little input rest st
  end.
Definition DecodeParameterValue (little : bool) (d : TypeDescriptor) (input : list Z) : result DynamicPayload :=
  let? type := ParameterWireType d in
  if negb (vsize input =? ty_payload_size type) then Err (- EMSGSIZE)
  else
    let? (value, _) := decode_fields little input (used_fields d) (repeat 0 (Z.to_nat (td_payload_size d)), 0) in
    Ok {| dp_type_id := td_type_id d; dp_sequence := 0; dp_bytes := value |}.

(** ** Elements: the loops over fields and array indices, flattened *)
Abbreviation element := (TypeFieldInfo * Z)%type (only parsing).
Definition elements (fields : list TypeFieldInfo) : list element :=
  flat_map (fun f => map (pair f) (seqZ 0 (tf_array_count f))) fields.
(** The bytes of an element in wire order. *)
Definition element_bytes (little : bool) (value : list Z) (e : element) : list Z :=
  map (fun j => byte_at value (element_index little (fst e) (snd e) j)) (seqZ 0 (tf_element_size (fst e))).
Definition bool_bad (value : list Z) (e : element) : bool :=
  (tf_kind (fst e) =? FieldValueKind.BOOL) && (1 <? byte_at value (element_start (fst e) (snd e))).

Lemma elements_cons f l : elements (f :: l) = map (pair f) (seqZ 0 (tf_array_count f)) ++ elements l.
Proof. done. Qed.

Fixpoint decode_list (little : bool) (input : list Z) (els : list element) (st : list Z * Z) : result (list Z * Z) :=
  match els with
  | [] => Ok st
  | (f, n) :: rest =>
      let (value, cursor) := st in
      if (tf_kind f =? FieldValueKind.BOOL) && (1 <? byte_at input cursor) then Err (- EPROTO)
      else decode_list little input rest (write_element little input cursor f n value, cursor + tf_element_size f)
  end.

Lemma decode_list_app little input l k st :
  decode_list little input (l ++ k) st = (let? st := decode_list little input l st in decode_list little input k st).
Proof.
  revert st. induction l as [|[f n] l IH]; intros [v c]; [done|]. cbn [app decode_list]. case_check; [done|]. apply IH.
Qed.

Lemma decode_elements_list little input f k n st :
  decode_elements little input f k n st = decode_list little input (map (pair f) (seqZ n (Z.of_nat k))) st.
Proof.
  revert n st. induction k as [|k IH]; intros n [v c]; [by rewrite seqZ_nil by lia|].
  rewrite seqZ_cons by lia. cbn [map decode_elements decode_list]. case_check; [done|]. rewrite IH. repeat f_equal; lia.
Qed.

Lemma decode_fields_list little input fields st :
  Forall wf_field fields -> decode_fields little input fields st = decode_list little input (elements fields) st.
Proof.
  intros H. revert st. induction H as [|f l Hf Hl IH]; intros st; [done|]. rewrite elements_cons. cbn [decode_fields].
  rewrite decode_list_app, decode_elements_list, Z2Nat.id by (destruct Hf as (_ & _ & _ & _ & _ & ?); unfold_widths; lia).
  destruct (decode_list _ _ _ _); cbn [bind_result]; [apply IH|done].
Qed.

Lemma encode_elements_list little value f k n out :
  encode_elements little value f k n out =
  let els := map (pair f) (seqZ n (Z.of_nat k)) in
  if existsb (bool_bad value) els then Err (- EPROTO) else Ok (out ++ flat_map (element_bytes little value) els).
Proof.
  revert n out. induction k as [|k IH]; intros n out; cbn zeta.
  { rewrite seqZ_nil by lia. cbn. by rewrite app_nil_r. }
  rewrite seqZ_cons by lia. cbn [map existsb flat_map encode_elements]. unfold bool_bad at 1. cbn [fst snd].
  destruct (_ && _); [done|]. cbn [orb]. rewrite IH. cbn zeta. replace (Z.succ n) with (n + 1) by lia.
  replace (Z.pred (Z.of_nat (S k))) with (Z.of_nat k) by lia. case_check; [done|]. by rewrite <- app_assoc.
Qed.

Lemma encode_fields_list little value fields out :
  Forall wf_field fields ->
  encode_fields little value fields out =
  if existsb (bool_bad value) (elements fields) then Err (- EPROTO)
  else Ok (out ++ flat_map (element_bytes little value) (elements fields)).
Proof.
  intros H. revert out. induction H as [|f l Hf Hl IH]; intros out; [cbn; by rewrite app_nil_r|].
  rewrite elements_cons. cbn [encode_fields].
  rewrite encode_elements_list, Z2Nat.id by (destruct Hf as (_ & _ & _ & _ & _ & ?); unfold_widths; lia).
  cbn zeta. rewrite existsb_app, flat_map_app. destruct (existsb _ (map _ _)); [done|]. cbn [bind_result orb]. rewrite IH.
  case_check; [done|]. by rewrite <- app_assoc.
Qed.

(** ** Where elements lie *)
Definition element_size (e : element) : Z := tf_element_size (fst e).
Definition at_ (e : element) : Z := element_start (fst e) (snd e).
Definition clear_of (e e' : element) : Prop := at_ e + element_size e <= at_ e' \/ at_ e' + element_size e' <= at_ e.
Fixpoint pairwise {A} (R : A -> A -> Prop) (l : list A) : Prop :=
  match l with [] => True | x :: rest => Forall (R x) rest /\ pairwise R rest end.
Definition placed (size : Z) (e : element) : Prop :=
  1 <= element_size e /\ 0 <= at_ e /\ at_ e + element_size e <= size /\
  element_size e = PrimitiveSize (tf_kind (fst e)).

Lemma pairwise_app {A} (R : A -> A -> Prop) l k :
  pairwise R (l ++ k) <-> pairwise R l /\ pairwise R k /\ Forall (fun x => Forall (R x) k) l.
Proof.
  induction l as [|x l IH]; cbn [app pairwise]; [split; [by repeat split|tauto]|].
  rewrite Forall_app, IH, List.Forall_cons_iff. tauto.
Qed.

Section Valid.
Context (d : TypeDescriptor) (Hwf : wf_descriptor d) (Hmax : td_payload_size d <= MAX_PARAMETER_WIRE).
Context (Hvalid : ValidateTypeDescriptor d = true).

Lemma valid_field f : f ∈ used_fields d -> wf_field f /\ field_ok (td_payload_size d) f /\ field_sane f.
Proof.
  intros Hin. pose proof (used_fields_wf d Hwf) as Hw. apply ValidateTypeDescriptor_spec in Hvalid as (_ & Hf & _).
  rewrite Forall_forall in Hw, Hf. split_and!; auto. eapply field_ok_sane; eauto.
Qed.

(** No index of the loops wraps, and every element lies inside its field. *)
Lemma element_at f n : f ∈ used_fields d -> 0 <= n < tf_array_count f ->
  at_ (f, n) = tf_offset f + n * tf_element_size f /\ 1 <= tf_element_size f /\
  n * tf_element_size f + tf_element_size f <= field_bytes f.
Proof.
  intros Hin Hn. destruct (valid_field f Hin) as ((_ & _ & _ & Ho & He & Hc) & Hok & Hs).
  assert (1 <= tf_element_size f).
  { destruct Hs as (_ & _ & _ & Hp & E & _). rewrite E. destruct (PrimitiveSize_values (tf_kind f)) as [H|[H|[H|[H|H]]]]; lia. }
  destruct Hok as (_ & _ & _ & _ & _ & _ & Hb). unfold field_bytes in *. split_and!; [|lia|nia].
  unfold at_, element_start. cbn [fst snd]. unfold u32. rewrite Z.mod_small; [done|].
  unfold MAX_PARAMETER_WIRE, is_u32 in *. nia.
Qed.

Lemma elements_lookup fields e : e ∈ elements fields -> fst e ∈ fields /\ 0 <= snd e < tf_array_count (fst e).
Proof.
  unfold elements. intros H. apply list_elem_of_In, in_flat_map in H as (f & Hf & He).
  apply in_map_iff in He as (n & <- & Hn). apply list_elem_of_In in Hn, Hf. apply elem_of_seqZ in Hn. cbn. split; [done|lia].
Qed.

Lemma elements_placed : Forall (placed (td_payload_size d)) (elements (used_fields d)).
Proof.
  apply Forall_forall. intros [f n] He. apply elements_lookup in He as [Hf Hn]. cbn [fst snd] in *.
  destruct (element_at f n Hf Hn) as (E & H1 & H2). destruct (valid_field f Hf) as ((_ & _ & _ & Ho & _) & Hok & Hs).
  destruct Hok as (_ & _ & _ & Hsz & _ & _ & Hb). unfold placed. rewrite E. unfold element_size, is_u32 in *. cbn. nia.
Qed.

Lemma array_clear f m k : f ∈ used_fields d -> 0 <= m -> m + k <= tf_array_count f ->
  pairwise clear_of (map (pair f) (seqZ m k)).
Proof.
  intros Hf Hm Hk. destruct (Z.leb_spec k 0) as [Hle|Hlt]; [by rewrite seqZ_nil by lia|].
  rewrite <- (Z2Nat.id k) in Hk |- * by lia. clear Hlt. revert m Hm Hk. induction (Z.to_nat k) as [|j IH]; intros m Hm Hk.
  { by rewrite seqZ_nil by lia. }
  rewrite seqZ_cons by lia. cbn [map pairwise]. replace (Z.pred (Z.of_nat (S j))) with (Z.of_nat j) by lia.
  split; [|apply IH; lia]. apply Forall_forall. intros e He. apply list_elem_of_In, in_map_iff in He as (n & <- & Hn).
  apply list_elem_of_In, elem_of_seqZ in Hn. left.
  destruct (element_at f m Hf ltac:(lia)) as (-> & ? & _). destruct (element_at f n Hf ltac:(lia)) as (-> & _ & _).
  unfold element_size. cbn. nia.
Qed.

Lemma elements_clear_from fields : (forall f, f ∈ fields -> f ∈ used_fields d) -> all_apart fields -> pairwise clear_of (elements fields).
Proof.
  induction fields as [|f l IH]; intros Hsub Ha; [done|]. destruct Ha as [Hf Ha]. rewrite elements_cons.
  assert (Hff : f ∈ used_fields d) by (apply Hsub; left).
  apply pairwise_app. split_and!; [apply array_clear; auto; lia|apply IH; auto; intros; apply Hsub; by right|].
  apply Forall_forall. intros e He. apply list_elem_of_In, in_map_iff in He as (n & <- & Hn). apply list_elem_of_In, elem_of_seqZ in Hn.
  apply Forall_forall. intros [g m] Hg. apply elements_lookup in Hg as [Hg Hm]. cbn [fst snd] in *.
  rewrite Forall_forall in Hf. destruct (Hf g Hg) as [_ Hor].
  destruct (element_at f n Hff ltac:(lia)) as (E1 & P1 & B1).
  destruct (element_at g m (Hsub g ltac:(by right)) ltac:(lia)) as (E2 & P2 & B2).
  unfold clear_of. rewrite E1, E2. unfold element_size. cbn [fst].
  assert (0 <= n * tf_element_size f /\ 0 <= m * tf_element_size g) by (split; apply Z.mul_nonneg_nonneg; lia). lia.
Qed.

Lemma elements_clear : pairwise clear_of (elements (used_fields d)).
Proof. apply elements_clear_from; [done|]. by apply ValidateTypeDescriptor_spec in Hvalid as (_ & _ & ?). Qed.
End Valid.

(** ** Writes *)
Lemma byte_at_put v i k b : 0 <= i < vsize v -> 0 <= k ->
  byte_at (put_byte v i b) k = if decide (i = k) then b else byte_at v k.
Proof.
  intros Hi Hk. unfold byte_at, put_byte, vsize in *. rewrite !nth_lookup. case_decide as E.
  - subst. by rewrite list_lookup_insert_eq by lia.
  - by rewrite list_lookup_insert_ne by lia.
Qed.

Lemma length_write little input c f n v : length (write_element little input c f n v) = length v.
Proof.
  unfold write_element. generalize (seqZ 0 (tf_element_size f)). intros l. revert v.
  induction l as [|j l IH]; intros v; cbn; [done|]. rewrite IH. unfold put_byte. by rewrite length_insert.
Qed.

(** A run of writes to distinct addresses inside the buffer. *)
Lemma writes_spec (a b : Z -> Z) js v : NoDup (map a js) -> (forall j, j ∈ js -> 0 <= a j < vsize v) ->
  let v' := foldl (fun v j => put_byte v (a j) (b j)) v js in
  (forall k, 0 <= k -> k ∉ map a js -> byte_at v' k = byte_at v k) /\ (forall j, j ∈ js -> byte_at v' (a j) = b j).
Proof.
  revert v. induction js as [|j js IH]; intros v Hn Hr; cbn zeta.
  { split; [done|]. intros j Hj. by apply not_elem_of_nil in Hj. }
  cbn [map foldl] in *. apply NoDup_cons in Hn as [Hj Hn]. assert (Hj0 : 0 <= a j < vsize v) by (apply Hr; left).
  destruct (IH (put_byte v (a j) (b j)) Hn) as [Ho Hi].
  { intros i Hin. unfold vsize, put_byte. rewrite length_insert. apply Hr. by right. }
  split.
  - intros k Hk Hnot. apply not_elem_of_cons in Hnot as [Hne Hnot]. rewrite Ho, byte_at_put by done. by rewrite decide_False.
  - intros i Hin. apply elem_of_cons in Hin as [->|Hin]; [|by apply Hi].
    rewrite Ho, byte_at_put by (done || lia). by rewrite decide_True.
Qed.

Definition index_of (little : bool) (e : element) (j : Z) : Z := element_index little (fst e) (snd e) j.

Lemma index_range little e j : 0 <= j < element_size e -> at_ e <= index_of little e j < at_ e + element_size e.
Proof. unfold index_of, element_index, at_, element_size. destruct little; lia. Qed.

Lemma index_NoDup little e : NoDup (map (index_of little e) (seqZ 0 (element_size e))).
Proof.
  apply NoDup_fmap_2; [|apply NoDup_seqZ]. intros i j. unfold index_of, element_index. destruct little; lia.
Qed.

Lemma element_bytes_ext little v v' e :
  (forall k, at_ e <= k < at_ e + element_size e -> byte_at v' k = byte_at v k) ->
  element_bytes little v' e = element_bytes little v e.
Proof.
  intros H. apply map_ext_in. intros j Hj. apply list_elem_of_In, elem_of_seqZ in Hj. apply H.
  apply (index_range little). unfold element_size. lia.
Qed.

Lemma length_element_bytes little v e : 0 <= element_size e -> vsize (element_bytes little v e) = element_size e.
Proof. intros. unfold element_bytes, vsize. rewrite length_map, length_seqZ. unfold element_size in *. lia. Qed.

(** The bytes of the input at a cursor. *)
Definition window (input : list Z) (c n : Z) : list Z := take (Z.to_nat n) (drop (Z.to_nat c) input).

Lemma window_map input c n : 0 <= c -> 0 <= n -> c + n <= vsize input ->
  window input c n = map (fun j => byte_at input (c + j)) (seqZ 0 n).
Proof.
  intros Hc Hn Hs. apply list_eq. intros i. unfold window, vsize in *. rewrite list_lookup_fmap.
  destruct (decide (i < Z.to_nat n)%nat) as [Hi|Hi].
  - rewrite lookup_take_lt, lookup_drop by done. rewrite lookup_seqZ_lt by lia. cbn [fmap option_fmap option_map].
    unfold byte_at. rewrite nth_lookup. replace (Z.to_nat (c + (0 + Z.of_nat i))) with (Z.to_nat c + i)%nat by lia.
    destruct (lookup_lt_is_Some_2 input (Z.to_nat c + i)) as [x ->]; [lia|done].
  - rewrite lookup_take_ge, lookup_seqZ_ge by lia. done.
Qed.

Lemma write_element_spec little input c e v :
  placed (vsize v) e -> 0 <= c -> c + element_size e <= vsize input ->
  let v' := write_element little input c (fst e) (snd e) v in
  element_bytes little v' e = window input c (element_size e) /\
  (forall e', clear_of e' e -> placed (vsize v) e' -> element_bytes little v' e' = element_bytes little v e').
Proof.
  intros (H1 & H0 & Hin & _) Hc Hs. cbn zeta.
  destruct (writes_spec (index_of little e) (fun j => byte_at input (c + j)) (seqZ 0 (element_size e)) v) as [Ho Hi].
  { apply index_NoDup. }
  { intros j Hj. apply elem_of_seqZ in Hj. pose proof (index_range little e j ltac:(lia)). lia. }
  change (foldl _ _ _) with (write_element little input c (fst e) (snd e) v) in Ho, Hi. split.
  - rewrite window_map by lia. apply map_ext_in. intros j Hj. apply list_elem_of_In in Hj. by apply Hi.
  - intros e' Hclear (H1' & H0' & _). apply element_bytes_ext. intros k Hk. apply Ho; [lia|].
    intros Hmem. apply list_elem_of_In, in_map_iff in Hmem as (j & <- & Hj). apply list_elem_of_In, elem_of_seqZ in Hj.
    pose proof (index_range little e j ltac:(lia)). unfold clear_of in Hclear. lia.
Qed.

(** ** What the wire may carry: the boolean check, on the schema alone *)
Fixpoint wire_bad (kinds : list Z) (input : list Z) : bool :=
  match kinds with
  | [] => false
  | k :: rest => ((k =? FieldValueKind.BOOL) && (1 <? byte_at input 0)) || wire_bad rest (drop (Z.to_nat (PrimitiveSize k)) input)
  end.
Definition kinds (els : list element) : list Z := map (fun e => tf_kind (fst e)) els.
Definition total_size (els : list element) : Z := foldr (fun e n => element_size e + n) 0 els.

Lemma byte_at_drop input c : 0 <= c -> byte_at (drop (Z.to_nat c) input) 0 = byte_at input c.
Proof. intros. unfold byte_at. rewrite !nth_lookup, lookup_drop. by rewrite Nat.add_0_r. Qed.

Lemma total_size_nonneg size els : Forall (placed size) els -> 0 <= total_size els.
Proof. induction 1 as [|e l He Hl IH]; cbn; [done|]. fold (total_size l). destruct He. lia. Qed.

Lemma take_window input c n : 0 <= c -> 0 <= n -> take (Z.to_nat c) input ++ window input c n = take (Z.to_nat (c + n)) input.
Proof. intros. unfold window. rewrite Z2Nat.inj_add, take_take_drop by lia. done. Qed.

Lemma flat_map_ext_in {A B} (f g : A -> list B) l : (forall x, x ∈ l -> f x = g x) -> flat_map f l = flat_map g l.
Proof. induction l as [|x l IH]; intros H; [done|]. cbn. rewrite H, IH; [done| |left]. intros; apply H; by right. Qed.

Lemma decode_list_spec little input els2 : forall els1 v c,
  Forall (placed (vsize v)) (els1 ++ els2) -> pairwise clear_of (els1 ++ els2) -> 0 <= c ->
  c + total_size els2 = vsize input -> flat_map (element_bytes little v) els1 = take (Z.to_nat c) input ->
  if wire_bad (kinds els2) (drop (Z.to_nat c) input) then decode_list little input els2 (v, c) = Err (- EPROTO)
  else exists v', decode_list little input els2 (v, c) = Ok (v', vsize input) /\ length v' = length v /\
    flat_map (element_bytes little v') (els1 ++ els2) = input.
Proof.
  induction els2 as [|[f n] els2 IH]; intros els1 v c Hp Hd Hc Ht Hdone.
  { cbn in *. rewrite Z.add_0_r in Ht. exists v. split_and!; auto; [by rewrite Ht|].
    rewrite app_nil_r, Hdone, Ht. unfold vsize. by rewrite Nat2Z.id, firstn_all. }
  cbn [kinds map wire_bad decode_list fst]. rewrite byte_at_drop by done. fold (kinds els2).
  destruct (_ && _); [done|]. cbn [orb]. rewrite drop_drop.
  set (e := (f, n)) in *. assert (He : placed (vsize v) e) by (rewrite Forall_app in Hp; destruct Hp as [_ Hp]; by inversion Hp).
  assert (Hpos : 0 <= total_size els2).
  { apply (total_size_nonneg (vsize v)). rewrite Forall_app in Hp. destruct Hp as [_ Hp]. by inversion Hp. }
  cbn [total_size foldr] in Ht. fold (total_size els2) in Ht. fold e in Ht.
  destruct He as (H1 & H0 & Hin & Hsz).
  assert (PrimitiveSize (tf_kind f) = element_size e) as -> by (by rewrite Hsz).
  rewrite <- Z2Nat.inj_add by lia.
  destruct (write_element_spec little input c e v ltac:(by repeat split) Hc ltac:(lia)) as [Hw Hkeep].
  change (fst e) with f in Hw, Hkeep. change (snd e) with n in Hw, Hkeep.
  set (v1 := write_element little input c f n v) in *.
  assert (Hlen : vsize v1 = vsize v) by (unfold vsize, v1; by rewrite length_write).
  pose proof (IH (els1 ++ [e]) v1 (c + element_size e)) as IH'. rewrite <- app_assoc, Hlen in IH'.
  assert (Hlenn : length v1 = length v) by apply length_write. rewrite Hlenn in IH'.
  apply IH'; auto; try lia. rewrite flat_map_app. cbn [flat_map]. rewrite app_nil_r, Hw, <- take_window, <- Hdone by lia.
  f_equal. apply flat_map_ext_in. intros e' He'. apply Hkeep.
  - apply pairwise_app in Hd as (_ & _ & Hd). rewrite Forall_forall in Hd. specialize (Hd e' He'). by inversion Hd.
  - rewrite Forall_app, Forall_forall in Hp. destruct Hp as [Hp _]. by apply Hp.
Qed.

Lemma encode_check_wire little v els : Forall (placed (vsize v)) els ->
  existsb (bool_bad v) els = wire_bad (kinds els) (flat_map (element_bytes little v) els).
Proof.
  induction 1 as [|e l He Hl IH]; [done|]. cbn [existsb kinds map wire_bad flat_map]. fold (kinds l).
  destruct He as (H1 & H0 & Hin & Hsz). rewrite drop_app_length'.
  2:{ rewrite <- Hsz. pose proof (length_element_bytes little v e ltac:(lia)). unfold vsize in *. lia. }
  rewrite <- IH. f_equal. unfold bool_bad. destruct (Z.eqb_spec (tf_kind (fst e)) FieldValueKind.BOOL) as [E|]; [|done]. cbn [andb].
  assert (Hes : tf_element_size (fst e) = 1) by (unfold element_size in Hsz; rewrite Hsz, E; done).
  unfold element_bytes. rewrite Hes. change (seqZ 0 1) with [0]. cbn [map app]. unfold element_index. rewrite Hes.
  unfold byte_at at 2. cbn [Z.to_nat nth]. by destruct little; rewrite Z.add_0_r.
Qed.

(** ** The value a payload stands for: per field, its name and the numbers that its elements
    have on the host, as bit patterns.  Element [n] is the [element_size] bytes at
    [offset + n * element_size]; the first of them is the least significant one on a
    little-endian host and the most significant one on a big-endian host. *)
Fixpoint le_value (l : list Z) : Z := match l with [] => 0 | b :: rest => b + 256 * le_value rest end.
Definition native_value (little : bool) (memory : list Z) : Z := if little then le_value memory else be_value memory.
Definition field_values (little : bool) (value : list Z) (f : TypeFieldInfo) : list Z * list Z :=
  (c_str (tf_name f),
   map (fun n => native_value little (window value (tf_offset f + n * tf_element_size f) (tf_element_size f))) (seqZ 0 (tf_array_count f))).
Definition field_values_of (little : bool) (d : TypeDescriptor) (value : DynamicPayload) : list (list Z * list Z) :=
  map (field_values little (dp_bytes value)) (used_fields d).

(** The same numbers from the bytes in wire order. *)
Definition wire_values (little : bool) (value : list Z) (f : TypeFieldInfo) : list Z * list Z :=
  (c_str (tf_name f), map (fun n => be_value (element_bytes little value (f, n))) (seqZ 0 (tf_array_count f))).

Lemma total_size_app l k : total_size (l ++ k) = total_size l + total_size k.
Proof. induction l as [|e l IH]; cbn [app]; [done|]. cbn [total_size foldr]. fold (total_size (l ++ k)) (total_size l). lia. Qed.

Lemma total_size_array f m k : 0 <= k -> total_size (map (pair f) (seqZ m k)) = tf_element_size f * k.
Proof.
  intros Hk. rewrite <- (Z2Nat.id k) by done. revert m. induction (Z.to_nat k) as [|j IH]; intros m; [rewrite seqZ_nil by lia; cbn; lia|].
  rewrite seqZ_cons by lia. cbn [map total_size foldr]. fold (total_size (map (pair f) (seqZ (Z.succ m) (Z.pred (Z.of_nat (S j)))))).
  replace (Z.pred (Z.of_nat (S j))) with (Z.of_nat j) by lia. rewrite IH. unfold element_size. cbn [fst]. lia.
Qed.

Lemma total_size_elements fields : Forall wf_field fields -> total_size (elements fields) = total_bytes fields.
Proof.
  induction 1 as [|f l Hf Hl IH]; [done|]. rewrite elements_cons, total_size_app, IH, total_size_array
    by (destruct Hf as (_ & _ & _ & _ & _ & ?); unfold_widths; lia). done.
Qed.

Lemma kinds_schema l k : map field_schema l = map field_schema k -> kinds (elements l) = kinds (elements k).
Proof.
  revert k. induction l as [|f l IH]; intros [|g k] E; [done|done|done|]. cbn [map] in E. unfold field_schema at 1 3 in E.
  injection E as _ Ek Ec E. rewrite !elements_cons. unfold kinds in *. rewrite !map_app, !map_map. cbn [fst].
  rewrite (IH k E). f_equal. rewrite Ek, Ec. done.
Qed.

(** Equal concatenations of pieces of equal sizes have equal pieces. *)
Lemma flat_map_pieces {A B} (f : A -> list Z) (g : B -> list Z) (n : nat) l k m m' :
  (forall x, x ∈ l -> length (f x) = n) -> (forall y, y ∈ k -> length (g y) = n) -> length l = length k ->
  flat_map f l ++ m = flat_map g k ++ m' -> map f l = map g k /\ m = m'.
Proof.
  revert k. induction l as [|x l IH]; intros [|y k] Hf Hg Hl E; simplify_eq/=; [done|].
  rewrite <- !app_assoc in E. apply app_inj_1 in E as [E1 E2]; [|rewrite Hf, Hg; [done|left|left]].
  destruct (IH k) as [-> ->]; auto; try (intros; (apply Hf || apply Hg); by right). by rewrite E1.
Qed.

Lemma element_bytes_values little1 little2 v1 v2 l k :
  Forall field_sane l -> Forall field_sane k -> map field_schema l = map field_schema k ->
  flat_map (element_bytes little1 v1) (elements l) = flat_map (element_bytes little2 v2) (elements k) ->
  map (wire_values little1 v1) l = map (wire_values little2 v2) k.
Proof.
  intros Hl. revert k. induction Hl as [|f l Hf Hl IH]; intros [|g k] Hk E Hb; [done|done|done|].
  apply Forall_cons in Hk as [Hg Hk]. cbn [map] in E. unfold field_schema at 1 3 in E. injection E as En Ek Ec E.
  rewrite !elements_cons, !flat_map_app in Hb.
  assert (Hes : tf_element_size f = tf_element_size g).
  { destruct Hf as (_ & _ & _ & _ & -> & _), Hg as (_ & _ & _ & _ & -> & _). by rewrite Ek. }
  apply (flat_map_pieces _ _ (Z.to_nat (tf_element_size f))) in Hb as [Hm Hb].
  - cbn [map]. f_equal; [|by apply IH]. unfold wire_values. rewrite En. f_equal.
    rewrite !map_map in Hm. rewrite <- Ec in Hm |- *. clear -Hm. induction (seqZ 0 (tf_array_count f)) as [|n s IHs]; [done|].
    cbn in *. injection Hm as H1 H2. by rewrite H1, IHs.
  - intros x Hx. apply list_elem_of_In, in_map_iff in Hx as (n & <- & _). unfold element_bytes. by rewrite length_map, length_seqZ.
  - intros x Hx. apply list_elem_of_In, in_map_iff in Hx as (n & <- & _). unfold element_bytes. rewrite length_map, length_seqZ. cbn. by rewrite Hes.
  - rewrite !length_map, !length_seqZ. by rewrite Ec.
Qed.

(** A descriptor with a wire type: what the two functions rely on. *)
Lemma wire_type_valid d t : ParameterWireType d = Ok t -> ValidateTypeDescriptor d = true /\ td_payload_size d <= MAX_PARAMETER_WIRE.
Proof. unfold ParameterWireType. intros H. case_check; [done|]. by bool_to_prop. Qed.

Lemma decode_value little d t input :
  wf_descriptor d -> ParameterWireType d = Ok t -> vsize input = ty_payload_size t ->
  if wire_bad (kinds (elements (used_fields d))) input then DecodeParameterValue little d input = Err (- EPROTO)
  else exists value, DecodeParameterValue little d input = Ok value /\ dp_type_id value = td_type_id d /\
    vsize (dp_bytes value) = td_payload_size d /\
    flat_map (element_bytes little (dp_bytes value)) (elements (used_fields d)) = input.
Proof.
  intros Hw Ht Hs. destruct (wire_type_valid d t Ht) as [Hv Hm].
  destruct (wire_type_packable d t Hw Ht) as (Hp & _ & _ & Et & _).
  assert (Hp0 : 0 <= td_payload_size d) by (destruct Hw as (_ & _ & _ & _ & _ & H & _); unfold_widths; lia).
  unfold DecodeParameterValue. rewrite Ht. cbn [bind_result]. rewrite Hs, Z.eqb_refl. cbn [negb].
  rewrite decode_fields_list by (by apply used_fields_wf).
  set (zeros := repeat 0 (Z.to_nat (td_payload_size d))).
  assert (Hz : vsize zeros = td_payload_size d) by (unfold vsize, zeros; rewrite repeat_length; lia).
  pose proof (decode_list_spec little input (elements (used_fields d)) [] zeros 0) as Hd. cbn [app] in Hd. rewrite Hz in Hd.
  rewrite drop_0 in Hd. specialize (Hd (elements_placed d Hw Hm Hv) (elements_clear d Hw Hm Hv) ltac:(lia)).
  rewrite total_size_elements in Hd by (by apply used_fields_wf). rewrite Et in Hs. cbn [ty_payload_size] in Hs.
  specialize (Hd (eq_sym Hs) eq_refl). case_check; [by rewrite Hd|]. destruct Hd as (v & -> & Hl & Hb).
  cbn [bind_result]. eexists. split_and!; [done|done| |done]. cbn. unfold vsize in *. lia.
Qed.

Lemma encode_value little d t value :
  wf_descriptor d -> ParameterWireType d = Ok t -> dp_type_id value = td_type_id d -> vsize (dp_bytes value) = td_payload_size d ->
  let wire := flat_map (element_bytes little (dp_bytes value)) (elements (used_fields d)) in
  EncodeParameterValue little d value =
  if wire_bad (kinds (elements (used_fields d))) wire then Err (- EPROTO) else Ok wire.
Proof.
  intros Hw Ht Hid Hs. destruct (wire_type_valid d t Ht) as [Hv Hm]. unfold EncodeParameterValue. rewrite Ht. cbn [bind_result].
  rewrite Hid, Hs, !Z.eqb_refl. cbn [negb orb]. rewrite encode_fields_list by (by apply used_fields_wf).
  rewrite (encode_check_wire little); [done|]. rewrite Hs. by apply elements_placed.
Qed.

Lemma flat_map_total little v size els : Forall (placed size) els -> vsize (flat_map (element_bytes little v) els) = total_size els.
Proof.
  induction 1 as [|e l He Hl IH]; [done|]. cbn [flat_map total_size foldr]. rewrite vsize_app, IH, length_element_bytes; [done|].
  destruct He. lia.
Qed.

Lemma encode_value_inv little d t value bs :
  wf_descriptor d -> ParameterWireType d = Ok t -> EncodeParameterValue little d value = Ok bs ->
  dp_type_id value = td_type_id d /\ vsize (dp_bytes value) = td_payload_size d /\
  bs = flat_map (element_bytes little (dp_bytes value)) (elements (used_fields d)) /\
  wire_bad (kinds (elements (used_fields d))) bs = false /\ vsize bs = ty_payload_size t.
Proof.
  intros Hw Ht H. assert (H' := H). unfold EncodeParameterValue in H'. rewrite Ht in H'. cbn [bind_result] in H'.
  case_check; [done|]. bool_to_prop. rewrite (encode_value little d t) in H by done. cbn zeta in H. case_check; [done|].
  injection H as <-. split_and!; auto. destruct (wire_type_valid d t Ht).
  destruct (wire_type_packable d t Hw Ht) as (_ & _ & _ & -> & _). cbn [ty_payload_size]. rewrite (flat_map_total _ _ (td_payload_size d)) by (by apply elements_placed).
  by apply total_size_elements, used_fields_wf.
Qed.

Lemma be_value_snoc l b : be_value (l ++ [b]) = 256 * be_value l + b.
Proof.
  induction l as [|a l IH]; [unfold vsize; cbn [app be_value length Z.of_nat]; change (256 ^ vsize []) with 1; lia|]. cbn [app be_value]. rewrite IH, vsize_app.
  replace (vsize l + vsize [b]) with (1 + vsize l) by (unfold vsize; cbn; lia). rewrite Z.pow_add_r by (unfold vsize; lia). lia.
Qed.
Lemma le_value_reverse l : le_value l = be_value (reverse l).
Proof. induction l as [|b l IH]; [done|]. rewrite reverse_cons, be_value_snoc, <- IH. cbn. lia. Qed.
Lemma map_seqZ_reverse (g : Z -> Z) s : 0 <= s -> reverse (map g (seqZ 0 s)) = map (fun j => g (s - 1 - j)) (seqZ 0 s).
Proof.
  intros Hs. apply list_eq. intros i. destruct (decide (i < Z.to_nat s)%nat) as [Hi|Hi].
  - rewrite reverse_lookup by (rewrite length_map, length_seqZ; lia). rewrite length_map, length_seqZ, !list_lookup_fmap, !lookup_seqZ_lt by lia.
    cbn. do 2 f_equal. lia.
  - rewrite !lookup_ge_None_2; [done| |]; rewrite ?length_reverse, length_map, length_seqZ; lia.
Qed.
(** An element inside the value: the loops put its bytes in the order of the wire. *)
Lemma native_element little v e : 1 <= element_size e -> 0 <= at_ e -> at_ e + element_size e <= vsize v ->
  be_value (element_bytes little v e) = native_value little (window v (at_ e) (element_size e)).
Proof.
  intros H1 H0 Hs. rewrite window_map by lia. unfold native_value, element_bytes, element_index, at_, element_size in *. destruct little.
  - rewrite le_value_reverse, map_seqZ_reverse by lia. done.
  - done.
Qed.
Lemma native_values d little v :
  wf_descriptor d -> td_payload_size d <= MAX_PARAMETER_WIRE -> ValidateTypeDescriptor d = true -> vsize v = td_payload_size d ->
  map (field_values little v) (used_fields d) = map (wire_values little v) (used_fields d).
Proof.
  intros Hw Hm Hv Hs. apply map_ext_in. intros f Hf. apply list_elem_of_In in Hf. unfold field_values, wire_values. f_equal.
  apply map_ext_in. intros n Hn. apply list_elem_of_In, elem_of_seqZ in Hn.
  destruct (element_at d Hw Hm Hv f n Hf ltac:(lia)) as (E & _). destruct (valid_field d Hw Hv f Hf) as (_ & _ & _).
  assert (Hp : placed (td_payload_size d) (f, n)).
  { pose proof (elements_placed d Hw Hm Hv) as Hp. rewrite Forall_forall in Hp. apply Hp. unfold elements.
    apply list_elem_of_In, in_flat_map. exists f. split; [by apply list_elem_of_In|]. apply in_map, list_elem_of_In, elem_of_seqZ. lia. }
  destruct Hp as (H1 & H0 & Hb & _). rewrite native_element by lia. by rewrite E.
Qed.

(** Between two valid layouts of one schema, in any byte orders, what one host encodes the
    other decodes to the same field values and encodes back to the same bytes. *)
Lemma parameter_value_transfer little1 little2 d1 d2 t1 t2 v1 bs :
  wf_descriptor d1 -> wf_descriptor d2 -> schema d1 = schema d2 ->
  ParameterWireType d1 = Ok t1 -> ParameterWireType d2 = Ok t2 -> EncodeParameterValue little1 d1 v1 = Ok bs ->
  exists v2, DecodeParameterValue little2 d2 bs = Ok v2 /\
    field_values_of little2 d2 v2 = field_values_of little1 d1 v1 /\ EncodeParameterValue little2 d2 v2 = Ok bs.
Proof.
  intros Hw1 Hw2 Hsch Ht1 Ht2 H. unfold schema in Hsch. injection Hsch as Hname Hsch.
  destruct (wire_type_packable d1 t1 Hw1 Ht1) as (Hp1 & _ & _ & E1 & _).
  destruct (wire_type_packable d2 t2 Hw2 Ht2) as (Hp2 & _ & _ & E2 & _).
  assert (Hs1 : Forall field_sane (used_fields d1)) by apply Hp1.
  assert (Hs2 : Forall field_sane (used_fields d2)) by apply Hp2.
  assert (Hsize : ty_payload_size t1 = ty_payload_size t2) by (rewrite E1, E2; cbn; by apply total_bytes_schema).
  assert (Hk := kinds_schema _ _ Hsch).
  destruct (encode_value_inv little1 d1 t1 v1 bs Hw1 Ht1 H) as (_ & Hv1 & Hbs & Hok & Hs).
  destruct (wire_type_valid d1 t1 Ht1) as [Hval1 Hmax1]. destruct (wire_type_valid d2 t2 Ht2) as [Hval2 Hmax2].
  pose proof (decode_value little2 d2 t2 bs Hw2 Ht2 ltac:(lia)) as Hd. rewrite <- Hk, Hok in Hd.
  destruct Hd as (v2 & Hd & Hid & Hsz & Hb). exists v2. split_and!; [done| |].
  - unfold field_values_of. rewrite !native_values by done. symmetry. apply element_bytes_values; auto. by rewrite Hb.
  - rewrite (encode_value little2 d2 t2) by done. cbn zeta. by rewrite Hb, <- Hk, Hok.
Qed.

(** The wire form of a value is a byte string. *)
Lemma encode_elements_bytes little value f k : bytes value -> forall n out bs,
  bytes out -> encode_elements little value f k n out = Ok bs -> bytes bs.
Proof.
  intros Hv. induction k as [|k IH]; intros n out bs Ho H; cbn [encode_elements] in H; [by injection H as <-|].
  case_check; [done|]. eapply IH; [|exact H]. apply bytes_app. split; [done|]. apply Forall_fmap, Forall_forall. intros j _.
  unfold byte_at. cbn. destruct (nth_in_or_default (Z.to_nat (element_index little f n j)) value 0) as [Hin| ->].
  - unfold bytes in Hv. rewrite Forall_forall in Hv. by apply Hv, list_elem_of_In.
  - unfold_widths. lia.
Qed.
Lemma EncodeParameterValue_bytes little d v bs : bytes (dp_bytes v) -> EncodeParameterValue little d v = Ok bs -> bytes bs.
Proof.
  intros Hv H. unfold EncodeParameterValue in H. destruct (ParameterWireType d); [|done]. cbn [bind_result] in H. case_check; [done|].
  assert (Hn : bytes []) by constructor. revert Hn H. generalize (@nil Z) as out.
  induction (used_fields d) as [|f l IH]; intros out Hn H; cbn [encode_fields] in H; [by injection H as <-|].
  destruct (encode_elements _ _ _ _ _ _) as [out'|] eqn:E; [|done]. cbn [bind_result] in H.
  eapply IH; [|exact H]. by apply (encode_elements_bytes little (dp_bytes v) f (Z.to_nat (tf_array_count f)) Hv 0 out).
Qed.

(** C40: A value survives the trip between two hosts whose compilers lay the type out
    differently and whose byte orders differ: encoded from one valid layout and decoded
    into another one of the same schema, every element of every field has the same value
    (the number that its bytes in memory are in the byte order of the host), and the receiver would send the same bytes again.  Whatever a decoder accepts is the
    encoding of the value it returns, and two hosts with the same schema accept exactly
    the same inputs. *)
Theorem parameter_value_codec little1 little2 d1 d2 t1 t2 :
  wf_descriptor d1 -> wf_descriptor d2 -> schema d1 = schema d2 ->
  ParameterWireType d1 = Ok t1 -> ParameterWireType d2 = Ok t2 ->
  (forall v1 bs, EncodeParameterValue little1 d1 v1 = Ok bs ->
     exists v2, DecodeParameterValue little2 d2 bs = Ok v2 /\
       field_values_of little2 d2 v2 = field_values_of little1 d1 v1 /\ EncodeParameterValue little2 d2 v2 = Ok bs) /\
  (forall input v2, DecodeParameterValue little2 d2 input = Ok v2 -> EncodeParameterValue little2 d2 v2 = Ok input) /\
  (forall input, vsize input = ty_payload_size t1 ->
     (exists v1, DecodeParameterValue little1 d1 input = Ok v1) <-> (exists v2, DecodeParameterValue little2 d2 input = Ok v2)).
Proof.
  intros Hw1 Hw2 Hsch' Ht1 Ht2. assert (Hsch := Hsch'). unfold schema in Hsch. injection Hsch as Hname Hsch.
  destruct (wire_type_packable d1 t1 Hw1 Ht1) as (Hp1 & _ & _ & E1 & _).
  destruct (wire_type_packable d2 t2 Hw2 Ht2) as (Hp2 & _ & _ & E2 & _).
  assert (Hs1 : Forall field_sane (used_fields d1)) by apply Hp1.
  assert (Hs2 : Forall field_sane (used_fields d2)) by apply Hp2.
  assert (Hsize : ty_payload_size t1 = ty_payload_size t2) by (rewrite E1, E2; cbn; by apply total_bytes_schema).
  assert (Hk := kinds_schema _ _ Hsch). split_and!.
  - intros v1 bs. by apply (parameter_value_transfer little1 little2 d1 d2 t1 t2).
  - intros input v2 H. assert (Hs : vsize input = ty_payload_size t2).
    { unfold DecodeParameterValue in H. rewrite Ht2 in H. cbn [bind_result] in H. case_check; [done|]. by bool_to_prop. }
    pose proof (decode_value little2 d2 t2 input Hw2 Ht2 Hs) as Hd. destruct (wire_bad _ _) eqn:Hok; [congruence|].
    destruct Hd as (v & Hd & Hid & Hsz & Hb). rewrite H in Hd. injection Hd as <-.
    rewrite (encode_value little2 d2 t2) by done. cbn zeta. by rewrite Hb, Hok.
  - intros input Hs. pose proof (decode_value little1 d1 t1 input Hw1 Ht1 Hs) as Hd1.
    pose proof (decode_value little2 d2 t2 input Hw2 Ht2 ltac:(lia)) as Hd2. rewrite <- Hk in Hd2.
    destruct (wire_bad _ _); [rewrite Hd1, Hd2; split; by intros [? ?]|].
    destruct Hd1 as (? & ? & _), Hd2 as (? & ? & _). split; eauto.
Qed.

(** A structure [{ bool enabled; uint32_t speed[2]; }] with its three bytes of padding. *)
Definition sample_field (name : list Z) (kind offset size count : Z) : TypeFieldInfo :=
  {| tf_name := pad FIELD_NAME_SIZE name; tf_kind := kind; tf_offset := offset; tf_element_size := size; tf_array_count := count |}.
Definition sample_descriptor : TypeDescriptor :=
  {| td_protocol_version := 1; td_struct_size := sizeof_TypeDescriptor; td_type_id := StableTypeId [116; 46; 67];
     td_type_name := pad TYPE_NAME_SIZE [116; 46; 67]; td_payload_size := 12; td_payload_alignment := 4; td_field_count := 2;
     td_fields := [sample_field [101] FieldValueKind.BOOL 0 1 1; sample_field [115] FieldValueKind.UINT32 4 4 2] ++
                  repeat no_field 126 |}.
Definition sample_value : DynamicPayload :=
  {| dp_type_id := td_type_id sample_descriptor; dp_sequence := 7; dp_bytes := [1; 99; 99; 99; 4; 3; 2; 1; 8; 7; 6; 5] |}.
Definition sample_wire : list Z := [1; 1; 2; 3; 4; 5; 6; 7; 8].

Lemma sample_wf : wf_descriptor sample_descriptor.
Proof.
  unfold wf_descriptor, sample_descriptor.
  cbn [td_protocol_version td_struct_size td_type_id td_type_name td_payload_size td_payload_alignment td_field_count td_fields].
  split; [by split|]. split; [split; vm_compute; discriminate|]. split; [apply StableTypeId_u64|].
  split; [reflexivity|]. split; [apply bytes_pad; repeat constructor; vm_compute; discriminate|].
  do 3 (split; [by split|]). split; [reflexivity|].
  apply Forall_app. split.
  - assert (Hfield : forall c kind offset size count, is_u8 c -> is_u8 kind -> is_u32 offset -> is_u32 size -> is_u32 count ->
      wf_field (sample_field [c] kind offset size count)).
    { intros. unfold wf_field, sample_field. cbn [tf_name tf_kind tf_offset tf_element_size tf_array_count].
      repeat apply conj; auto; try (by apply length_pad; cbn; unfold FIELD_NAME_SIZE; lia); try apply bytes_pad; auto;
        try (by unfold_widths); repeat constructor; auto; unfold_widths; lia. }
    constructor; [|constructor; [|constructor]]; apply Hfield; split; vm_compute; discriminate.
  - apply Forall_forall. intros f Hf. apply list_elem_of_In, repeat_spec in Hf as ->. unfold no_field, FIELD_NAME_SIZE. solve_wf.
Qed.

(** The witness: a little-endian host with padding sends to a big-endian host with a
    packed layout. *)
Lemma parameter_value_codec_witness :
  EncodeParameterValue true sample_descriptor sample_value = Ok sample_wire /\
  exists v2, DecodeParameterValue false (packed_form sample_descriptor) sample_wire = Ok v2 /\ dp_bytes v2 = sample_wire /\
    field_values_of false (packed_form sample_descriptor) v2 = [([101], [1]); ([115], [16909060; 84281096])].
Proof.
  assert (Henc : EncodeParameterValue true sample_descriptor sample_value = Ok sample_wire) by (vm_compute; reflexivity).
  split; [exact Henc|].
  destruct (ParameterWireType sample_descriptor) as [t1|] eqn:Ht1; [|vm_compute in Ht1; discriminate Ht1].
  destruct (EncodeTypeDescriptor sample_descriptor) as [bs|] eqn:He; [|vm_compute in He; discriminate He].
  destruct (EncodeTypeDescriptor_inv _ bs sample_wf He) as (t2 & _ & _ & _ & Hp & _ & Ht2).
  destruct (parameter_value_codec true false sample_descriptor (packed_form sample_descriptor) t1 t2 sample_wf) as [H _].
  - apply packed_wf.
    + reflexivity.
    + apply bytes_pad, c_str_bytes, sample_wf.
    + eapply Forall_impl; [apply (pack_wf 0); [apply Hp|lia|vm_compute; discriminate]|]. by intros ? [? _].
    + vm_compute. lia.
    + split; vm_compute; discriminate.
  - symmetry. apply schema_packed, Hp.
  - exact Ht1.
  - exact Ht2.
  - destruct (H _ _ Henc) as (v2 & Hd & Hv & _). exists v2. split; [exact Hd|]. split.
    + vm_compute in Hd. injection Hd as <-. reflexivity.
    + rewrite Hv. vm_compute. reflexivity.
Defined.
