(* ===== verification/ProxyRecord.v ===== *)
(** * The ownership record of a Topic proxy

    [ProxyRecord] of [kcf/network/detail/proxy_ownership.hpp] with its encoder, its decoder and the
    name of the object that holds it ([kcf/src/network/topic_proxy.cpp]). *)
From S2P Require Import Prelude Wire NetTypes NetWire TypeDescriptor.

Record ProxyOwnership := { po_proxy : RemoteEndpointIdentity; po_source : RemoteEndpointIdentity; po_gateway_session : Z; po_source_session : Z }.
Record ProxyRecord := {
  pr_owner : ProxyOwnership; pr_topic : list Z; pr_type : TypeIdentity;
  pr_size : Z; pr_alignment : Z; pr_layout : Z; pr_device : Z; pr_inode : Z; pr_length : Z
}.
#[export] Instance proxy_ownership_eq_dec : EqDecision ProxyOwnership.
Proof. solve_decision. Defined.
#[export] Instance proxy_record_eq_dec : EqDecision ProxyRecord.
Proof. solve_decision. Defined.
Definition PROXY_RECORD_MAX := 512.
Definition PROXY_MAGIC := 0x4b43464e50525859.
Definition PROXY_HEADER := 206.

(** [Hash] *)
Definition Hash (bs : list Z) : Z := foldl fnv_byte FNV_BASIS bs.
(** [registration_id & (1ull<<61)] *)
Definition proxy_id (id : Z) : bool := negb (Z.land id (2 ^ 61) =? 0).
Definition ownership_ok (o : ProxyOwnership) : bool :=
  ValidEndpoint (po_proxy o) && ValidEndpoint (po_source o) && negb (rt_host (ep_runtime (po_proxy o)) =?? rt_host (ep_runtime (po_source o))) &&
  proxy_id (ep_registration_id (po_proxy o)) && negb (po_gateway_session o =? 0) && negb (po_source_session o =? 0).
Definition ValidRecord (r : ProxyRecord) : bool :=
  ownership_ok (pr_owner r) && Text (pr_topic r) 240 && (1 <? vsize (pr_topic r)) && (first_char (pr_topic r) =? SLASH) && ValidType (pr_type r) &&
  negb (pr_size r =? 0) && (pr_size r <=? 16384) && negb (pr_alignment r =? 0) && (pr_alignment r <=? 4096) && (Z.land (pr_alignment r) (pr_alignment r - 1) =? 0) &&
  negb (pr_layout r =? 0) && negb (pr_inode r =? 0) && negb (pr_length r =? 0).

(** The bytes before the checksum, without and with the name. *)
Definition record_head (r : ProxyRecord) (names : Z) : list Z :=
  wU PROXY_MAGIC 8 ++ wU 1 2 ++ wU 0 2 ++ wU names 2 ++ wEndpoint (po_proxy (pr_owner r)) ++ wEndpoint (po_source (pr_owner r)) ++
  wU (po_gateway_session (pr_owner r)) 8 ++ wU (po_source_session (pr_owner r)) 8 ++ wType (pr_type r) ++
  wU (pr_size r) 8 ++ wU (pr_alignment r) 8 ++ wU (pr_layout r) 8 ++ wU (pr_device r) 8 ++ wU (pr_inode r) 8 ++ wU (pr_length r) 8.
Definition record_body (r : ProxyRecord) : list Z := record_head r (vsize (pr_topic r)) ++ pr_topic r.
Definition EncodeProxyRecord (r : ProxyRecord) : result (list Z) :=
  if negb (ValidRecord r) then Err (- EINVAL)
  else
  let bs := record_body r ++ wU (Hash (record_body r)) 8 in
  if PROXY_RECORD_MAX <? vsize bs then Err (- E2BIG) else Ok bs.

Definition dRecord : dec (ProxyRecord * Z) :=
  let$ magic := dU 8 in
  guard$ magic =? PROXY_MAGIC else - EPROTO in
  let$ version := dU 2 in
  guard$ version =? 1 else - EPROTO in
  let$ reserved := dU 2 in
  guard$ reserved =? 0 else - EPROTO in
  let$ names := dU 2 in
  guard$ names <=? 240 else - EPROTO in
  let$ proxy := dEndpoint in
  let$ source := dEndpoint in
  let$ gateway_session := dU 8 in
  let$ source_session := dU 8 in
  let$ type := dType in
  let$ size := dU 8 in
  let$ alignment := dU 8 in
  let$ layout := dU 8 in
  let$ device := dU 8 in
  let$ inode := dU 8 in
  let$ length := dU 8 in
  dret ({| pr_owner := {| po_proxy := proxy; po_source := source; po_gateway_session := gateway_session; po_source_session := source_session |};
           pr_topic := []; pr_type := type; pr_size := size; pr_alignment := alignment; pr_layout := layout; pr_device := device; pr_inode := inode; pr_length := length |}, names).
Definition with_topic (r : ProxyRecord) (topic : list Z) : ProxyRecord :=
  {| pr_owner := pr_owner r; pr_topic := topic; pr_type := pr_type r; pr_size := pr_size r; pr_alignment := pr_alignment r; pr_layout := pr_layout r;
     pr_device := pr_device r; pr_inode := pr_inode r; pr_length := pr_length r |}.
Definition DecodeProxyRecord (bs : list Z) : result ProxyRecord :=
  if (vsize bs <? 214) || (PROXY_RECORD_MAX <? vsize bs) then Err (- EPROTO)
  else match dRecord (Reader bs true) with
  | Err c => Err c
  | Ok ((r, names), rd) =>
      if negb (ok rd) || negb (names + 8 =? vsize (left rd)) then Err (- EPROTO)
      else
      let topic := take (Z.to_nat names) (left rd) in
      let (hash, rd) := rU 8 (Reader (drop (Z.to_nat names) (left rd)) (ok rd)) in
      let r := with_topic r topic in
      if negb (ok rd) || negb (hash =? Hash (take (Z.to_nat (vsize bs - 8)) bs)) || negb (ValidRecord r) then Err (- EPROTO) else Ok r
  end.

(** [ProxySidecarName]: [/kcf_network_proxy_] and 16 hexadecimal digits. *)
Definition sidecar_char (d : Z) : Z := if d <? 10 then 48 + d else 87 + d.
Fixpoint hex_digits (n : nat) (v : Z) : list Z := match n with O => [] | S m => sidecar_char (Z.shiftr v (4 * Z.of_nat m) mod 16) :: hex_digits m v end.
Definition SIDECAR_PREFIX : list Z := [47; 107; 99; 102; 95; 110; 101; 116; 119; 111; 114; 107; 95; 112; 114; 111; 120; 121; 95].
Definition ProxySidecarName (topic : list Z) : list Z := SIDECAR_PREFIX ++ hex_digits 16 (Hash topic).

(** ** Round trips *)
(** The C++ field types *)
Record wf_record (r : ProxyRecord) : Prop := {
  wr_proxy : wf_endpoint (po_proxy (pr_owner r)); wr_source : wf_endpoint (po_source (pr_owner r));
  wr_sessions : is_u64 (po_gateway_session (pr_owner r)) /\ is_u64 (po_source_session (pr_owner r));
  wr_type : wf_type (pr_type r); wr_topic : bytes (pr_topic r);
  wr_layout : is_u64 (pr_size r) /\ is_u64 (pr_alignment r) /\ is_u64 (pr_layout r) /\ is_u64 (pr_device r) /\ is_u64 (pr_inode r) /\ is_u64 (pr_length r)
}.
Lemma Hash_u64 bs : is_u64 (Hash bs).
Proof.
  unfold Hash. assert (H : is_u64 FNV_BASIS) by (unfold FNV_BASIS; unfold_widths; lia). revert H. generalize FNV_BASIS. induction bs as [|b bs IH]; intros h Hh; [done|]. cbn. apply IH.
  unfold fnv_byte, u64. pose proof (Z.mod_pos_bound (Z.lxor h b * 1099511628211) (2 ^ 64)). unfold_widths. lia.
Qed.
Lemma record_head_vsize r n : wf_record r -> vsize (record_head r n) = PROXY_HEADER.
Proof. intros [H1 H2 _ H3 _ _]. unfold record_head. autorewrite with kcf. reflexivity. Qed.
Lemma ValidRecord_pids r : ValidRecord r = true -> 0 <= rt_pid (ep_runtime (po_proxy (pr_owner r))) /\ 0 <= rt_pid (ep_runtime (po_source (pr_owner r))).
Proof. unfold ValidRecord, ownership_ok. intros H. bool_to_prop. auto with wire. Qed.
Lemma ValidRecord_topic r : ValidRecord r = true -> vsize (pr_topic r) <= 240.
Proof. unfold ValidRecord. intros H. bool_to_prop. by eapply Text_size. Qed.
Lemma reads_record r names : wf_record r -> ValidRecord r = true -> 0 <= names <= 240 -> reads dRecord (record_head r names) (with_topic r [], names).
Proof.
  intros [H1 H2 [H3 H4] H5 _ (H6 & H7 & H8 & H9 & H10 & H11)] Hv Hn. destruct (ValidRecord_pids r Hv). unfold dRecord, record_head. do 7 read_step. eapply reads_guard; [apply Z.leb_le; lia|]. do 10 read_step.
  eapply reads_last; [apply reads_U; [lia|width]|]. destruct r as [[]]. apply reads_ret.
Qed.
Lemma encoded_record r bs : EncodeProxyRecord r = Ok bs -> ValidRecord r = true /\ bs = record_body r ++ wU (Hash (record_body r)) 8.
Proof. unfold EncodeProxyRecord. intros H. repeat case_check; simplify_eq. by bool_to_prop. Qed.
Lemma record_body_vsize r : wf_record r -> vsize (record_body r) = PROXY_HEADER + vsize (pr_topic r).
Proof. intros Hw. unfold record_body. rewrite vsize_app, record_head_vsize by done. lia. Qed.
Lemma record_encodes r : wf_record r -> ValidRecord r = true -> EncodeProxyRecord r = Ok (record_body r ++ wU (Hash (record_body r)) 8).
Proof.
  intros Hw Hv. unfold EncodeProxyRecord. rewrite Hv. cbn [negb]. pose proof (ValidRecord_topic r Hv). destruct (Z.ltb_spec PROXY_RECORD_MAX (vsize (record_body r ++ wU (Hash (record_body r)) 8))); [|done].
  rewrite vsize_app, wU_vsize, record_body_vsize in * by done. unfold PROXY_RECORD_MAX, PROXY_HEADER in *. lia.
Qed.
Lemma rU_wU n v : (n <= 8)%nat -> 0 <= v < 256 ^ Z.of_nat n -> rU n (Reader (wU v n) true) = (v, Reader [] true).
Proof. intros Hn Hv. pose proof (reads_U n v Hn Hv []) as H. rewrite app_nil_r in H. unfold dU in H. by injection H. Qed.
Lemma proxy_record_roundtrip r bs : wf_record r -> EncodeProxyRecord r = Ok bs -> DecodeProxyRecord bs = Ok r.
Proof.
  intros Hw [Hv ->]%encoded_record. pose proof (ValidRecord_topic r Hv) as Ht. pose proof (vsize_nonneg (pr_topic r)) as Hn. set (body := record_body r). set (bs := body ++ _).
  assert (Hs : vsize bs = PROXY_HEADER + vsize (pr_topic r) + 8) by (unfold bs, body; rewrite vsize_app, wU_vsize, record_body_vsize by done; lia).
  unfold DecodeProxyRecord. rewrite Hs. unfold PROXY_HEADER, PROXY_RECORD_MAX in *.
  destruct (Z.ltb_spec (206 + vsize (pr_topic r) + 8) 214); [lia|]. destruct (Z.ltb_spec 512 (206 + vsize (pr_topic r) + 8)); [lia|]. cbn [orb].
  unfold bs at 1, body at 1, record_body. rewrite <- app_assoc, (reads_record r _ Hw Hv) by lia. cbn [ok left negb].
  rewrite vsize_app, wU_vsize, Z.eqb_refl. cbn [negb orb]. assert (Hl : Z.to_nat (vsize (pr_topic r)) = length (pr_topic r)) by (unfold vsize; lia). rewrite Hl, take_app_length, drop_app_length.
  rewrite (rU_wU 8 (Hash body)) by (try lia; pose proof (Hash_u64 body); unfold_widths; simpl Z.pow; lia).
  cbn [ok negb orb]. replace (206 + vsize (pr_topic r) + 8 - 8) with (vsize body) by (unfold body; rewrite record_body_vsize by done; unfold PROXY_HEADER; lia).
  unfold bs, vsize. rewrite Nat2Z.id, take_app_length, Z.eqb_refl. cbn [negb orb]. replace (with_topic (with_topic r []) (pr_topic r)) with r by by destruct r. by rewrite Hv.
Qed.
Lemma consumes_record : consumes dRecord (fun pre '(r, names) => pre = record_head r names /\ 0 <= names <= 240 /\ pr_topic r = [] /\ wf_record r).
Proof.
  unfold dRecord. eapply consumes_weaken; [repeat consume_step|]. intros pre [r names] _ H. consumed. simplify_eq. bool_to_prop. subst.
  unfold record_head. cbn -[wU wEndpoint wType Z.pow Z.le Z.lt]. rewrite ?app_nil_r, ?app_nil_l. split; [done|]. split; [width|]. split; [done|]. constructor; cbn -[Z.pow Z.le Z.lt]; try done; try (split_and!; width); constructor.
Qed.
Lemma proxy_record_canonical bs r : bytes bs -> DecodeProxyRecord bs = Ok r -> wf_record r /\ EncodeProxyRecord r = Ok bs.
Proof.
  intros Hb H. unfold DecodeProxyRecord in H. case_check; [done|]. destruct (dRecord _) as [[[q names] rd]|] eqn:Hd; [|done].
  destruct (consumes_record _ _ _ Hd Hb) as [Hbl K]. case_check; [done|]. destruct (rU 8 _) as [hash rd'] eqn:Eu. case_check; [done|]. injection H as <-. bool_to_prop.
  destruct K as (_ & pre & Hl & -> & Hn & Ht & Hw); [done|]. cbn [left] in Hl. set (topic := take (Z.to_nat names) (left rd)) in *.
  assert (Hlen : vsize topic = names /\ left rd = topic ++ drop (Z.to_nat names) (left rd)).
  { unfold topic, vsize in *. rewrite length_take. split; [lia|by rewrite take_drop]. }
  destruct Hlen as [Hts Hr]. assert (Hbt : bytes topic) by (rewrite Hr in Hbl; by apply bytes_app in Hbl as [? _]).
  assert (Hw' : wf_record (with_topic q topic)) by (destruct Hw; by constructor).
  rewrite record_encodes by done. f_equal.
  assert (Hsz : vsize bs = PROXY_HEADER + names + 8) by (rewrite Hl, vsize_app, record_head_vsize by done; lia).
  assert (Hbody : take (Z.to_nat (vsize bs - 8)) bs = record_body (with_topic q topic)).
  { unfold record_body. cbn [pr_topic with_topic]. rewrite Hts. change (record_head (with_topic q topic) names) with (record_head q names). rewrite Hl at 2. rewrite Hr, app_assoc.
    replace (Z.to_nat (vsize bs - 8)) with (length (record_head q names ++ topic)); [apply take_app_length|].
    pose proof (record_head_vsize q names Hw) as Hh. unfold vsize in *. rewrite length_app. lia. }
  assert (Eh : hash = Hash (record_body (with_topic q topic))) by by rewrite <- Hbody.
  destruct (consumes_U 8 ltac:(lia) (Reader (drop (Z.to_nat names) (left rd)) (ok rd)) hash rd') as [_ K].
  { unfold dU. by rewrite Eu. }
  { cbn. rewrite Hr in Hbl. by apply bytes_app in Hbl as [_ ?]. }
  destruct K as (_ & pre & Hp & -> & _); [done|]. cbn [left] in Hp.
  assert (Hnil : left rd' = []). { apply (f_equal length) in Hp. rewrite length_app, wU_length in Hp. apply nil_length_inv. rewrite length_drop in Hp. unfold vsize in *. lia. }
  rewrite Hnil, app_nil_r in Hp. rewrite Hl, Hr, Hp, Eh, app_assoc. unfold record_body at 1. cbn [pr_topic with_topic]. by rewrite Hts.
Qed.
(** ** A record that was written in part *)
Lemma record_bytes r bs : wf_record r -> EncodeProxyRecord r = Ok bs -> bytes bs.
Proof. intros [H1 H2 _ _ H3 _] [_ ->]%encoded_record. unfold record_body, record_head. repeat match goal with |- bytes (_ ++ _) => apply bytes_app; split end; auto with kcf. Qed.
(** The length of the name, in the bytes 12 and 13, fixes the length of the whole. *)
Lemma record_names r bs : wf_record r -> EncodeProxyRecord r = Ok bs -> take 2 (drop 12 bs) = wU (vsize (pr_topic r)) 2 /\ vsize bs = PROXY_HEADER + vsize (pr_topic r) + 8.
Proof.
  intros Hw [_ ->]%encoded_record. split; [|rewrite vsize_app, wU_vsize, record_body_vsize by done; done].
  unfold record_body, record_head. rewrite <- !app_assoc. rewrite (app_assoc (wU PROXY_MAGIC 8)), (app_assoc (wU PROXY_MAGIC 8 ++ _)).
  rewrite drop_app_length' by (rewrite !length_app, !wU_length; done). apply take_app_length'. by rewrite wU_length.
Qed.
Lemma partial_record r bs cut q : wf_record r -> EncodeProxyRecord r = Ok bs -> (cut < length bs)%nat -> DecodeProxyRecord (take cut bs) <> Ok q.
Proof.
  intros Hw He Hc Hd. apply proxy_record_canonical in Hd as [Hwq Hq]; [|apply Forall_take; by eapply record_bytes].
  destruct (encoded_record _ _ He) as [Hv _]. destruct (encoded_record _ _ Hq) as [Hvq _]. pose proof (ValidRecord_topic r Hv). pose proof (ValidRecord_topic q Hvq).
  pose proof (vsize_nonneg (pr_topic r)). pose proof (vsize_nonneg (pr_topic q)).
  destruct (record_names r bs Hw He) as [N S]. destruct (record_names q _ Hwq Hq) as [Nq Sq].
  unfold PROXY_HEADER, vsize in S, Sq. rewrite length_take in Sq. rewrite take_drop_commute, take_take, Nat.min_l, <- take_drop_commute, N in Nq by lia.
  assert (E : vsize (pr_topic r) = vsize (pr_topic q)); [|unfold vsize in *; lia].
  pose proof (rU_wU 2 (vsize (pr_topic r)) ltac:(lia) ltac:(simpl Z.pow; lia)) as A. rewrite Nq, (rU_wU 2) in A by (simpl Z.pow; lia). by injection A.
Qed.
(** ** The name of the record *)
Lemma sidecar_char_spec d : 0 <= d < 16 -> sidecar_char d <> SLASH /\ sidecar_char d <> 0 /\ is_u8 (sidecar_char d).
Proof. unfold sidecar_char, SLASH. intros H. destruct (Z.ltb_spec d 10); unfold_widths; lia. Qed.
Lemma sidecar_hex topic : exists digits, ProxySidecarName topic = SIDECAR_PREFIX ++ digits /\ length digits = 16%nat /\ Forall (fun c => c <> SLASH /\ c <> 0 /\ is_u8 c) digits.
Proof.
  unfold ProxySidecarName. eexists. split; [done|]. generalize 16%nat as n. induction n as [|n [IH1 IH2]]; [done|]. cbn [hex_digits length]. split; [by rewrite IH1|].
  constructor; [|done]. apply sidecar_char_spec, Z.mod_pos_bound. lia.
Qed.
