(* ===== verification/TopicProxy.v ===== *)
(** * Topic proxies

    The ownership of the local writer behind a forwarded Topic
    ([kcf/src/network/topic_proxy.cpp]): [Create], [Cleanup], and [ProbeProxyOwner], which tells
    from [/proc] whether the process that made a proxy still lives.

    A call works on [/dev/shm] under the lock of its directory, which all who make segments
    take, so a call is one step of the system; within it each system call may fail, and the
    process may die at it ([Dies]); a write that does not complete has written a part.  The stores into the mapped segment are those that a later
    call can tell apart. *)
From stdpp Require Import gmap.
From S2P Require Import Prelude Wire NetTypes NetWire StorageLayout TypeDescriptor ProxyRecord.

(** ** The process behind a record *)
Inductive OwnerLiveness := LIVE | DEAD | UNKNOWN.
Definition is_space (ch : Z) : bool := (ch =? 32) || ((9 <=? ch) && (ch <=? 13)).
Definition stat_digit (ch : Z) : bool := (48 <=? ch) && (ch <=? 57).
Definition CLOSE_PAREN := 41.
(** [substr(rfind(')') + 1)] *)
Fixpoint after_last (ch : Z) (l : list Z) : option (list Z) :=
  match l with
  | [] => None
  | x :: l => match after_last ch l with Some r => Some r | None => if x =? ch then Some l else None end
  end.
(** [input >> field], again and again; [current]: the field that is being read. *)
Fixpoint fields (current l : list Z) : list (list Z) :=
  match l with
  | [] => match current with [] => [] | _ => [current] end
  | x :: l => if is_space x then match current with [] => fields [] l | _ => current :: fields [] l end else fields (current ++ [x]) l
  end.
(** [std::stoull], where the whole text must be used: an optional sign and digits. *)
Definition digits_number (s : list Z) : option Z :=
  if bool_decide (s = []) || negb (forallb stat_digit s) then None
  else let n := foldl (fun n ch => n * 10 + (ch - 48)) 0 s in if UINT64_MAX <? n then None else Some n.
Definition stoull (s : list Z) : option Z :=
  match s with
  | [] => None
  | ch :: r => if ch =? 43 then digits_number r else if ch =? 45 then option_map (fun n => u64 (- n)) (digits_number r) else digits_number s
  end.
(** The start time, field 22 of [/proc/<pid>/stat]. *)
Definition stat_ticks (text : list Z) : option Z := rest ← after_last CLOSE_PAREN text; field ← fields [] rest !! 19%nat; stoull field.
(** [stat]: the error of [open] or what was read; [esrch]: [kill(pid, 0)] fails with [ESRCH]. *)
Definition ProbeProxyOwner (stat : Z + list Z) (esrch : bool) (pid ticks : Z) : OwnerLiveness :=
  if (pid <=? 0) || (ticks =? 0) then UNKNOWN
  else match stat with
  | inl e => if ((e =? ENOENT) || (e =? ESRCH)) && esrch then DEAD else UNKNOWN
  | inr text =>
      if (vsize text =? 0) || (vsize text =? 4096) then UNKNOWN
      else match stat_ticks text with
      | None => UNKNOWN
      | Some observed => if observed =? 0 then UNKNOWN else if observed =? ticks then LIVE else DEAD
      end
  end.

(** ** Objects *)
(** [ChannelHeader] up to [publish_sequence] *)
Record ProxyHeader := { hx_magic : Z; hx_size : Z; hx_alignment : Z; hx_format : Z; hx_initialized : Z; hx_owner_pid : Z; hx_reserved : Z; hx_type_id : Z; hx_layout_id : Z; hx_depth : Z; hx_reserved1 : Z }.
Record ShmFile := {
  ff_private : bool;  (** a regular file of this user with one link, as [fstat] tells *)
  ff_mode : bool;  (** nobody else may read or write it *)
  ff_size : Z;
  ff_bytes : list Z;  (** what a record holds *)
  ff_header : option ProxyHeader;  (** what a segment starts with *)
  ff_locked : bool;  (** somebody holds its lock *)
  ff_maker : option (Z * Z)  (** process id and start time of who made it; never read *)
}.
Definition ff_resize (n : Z) (f : ShmFile) : ShmFile :=
  {| ff_private := ff_private f; ff_mode := ff_mode f; ff_size := n; ff_bytes := ff_bytes f; ff_header := ff_header f;
     ff_locked := ff_locked f; ff_maker := ff_maker f |}.
Definition ff_write_header (h : ProxyHeader) (f : ShmFile) : ShmFile :=
  {| ff_private := ff_private f; ff_mode := ff_mode f; ff_size := ff_size f; ff_bytes := ff_bytes f; ff_header := Some
     h; ff_locked := ff_locked f; ff_maker := ff_maker f |}.
Definition ff_lock (b : bool) (f : ShmFile) : ShmFile :=
  {| ff_private := ff_private f; ff_mode := ff_mode f; ff_size := ff_size f; ff_bytes := ff_bytes f; ff_header :=
     ff_header f; ff_locked := b; ff_maker := ff_maker f |}.
Definition ff_write (bs : list Z) (f : ShmFile) : ShmFile :=
  {| ff_private := ff_private f; ff_mode := ff_mode f; ff_size := vsize bs; ff_bytes := bs; ff_header := ff_header f;
     ff_locked := ff_locked f; ff_maker := ff_maker f |}.
Record Shm := {
  sm_names : gmap (list Z) Z;
  sm_files : gmap Z ShmFile;  (** by inode *)
  sm_next : Z  (** a free inode *)
}.
Definition sm_unlink (n : list Z) (s : Shm) : Shm :=
  {| sm_names := delete n (sm_names s); sm_files := sm_files s; sm_next := sm_next s |}.
Definition sm_on (i : Z) (f : ShmFile -> ShmFile) (s : Shm) : Shm :=
  {| sm_names := sm_names s; sm_files := alter f i (sm_files s); sm_next := sm_next s |}.
Definition new_file (me : Z * Z) : ShmFile := {| ff_private := true; ff_mode := true; ff_size := 0; ff_bytes := []; ff_header := None; ff_locked := false; ff_maker := Some me |}.
Definition sm_make (n : list Z) (me : Z * Z) (s : Shm) : Shm :=
  {| sm_names := <[n := sm_next s]> (sm_names s); sm_files := <[sm_next s := new_file me]> (sm_files s); sm_next :=
     sm_next s + 1 |}.

(** ** Calls that may fail *)
Inductive CallResult := Succeeds | Fails (errno : positive) | Dies.
(** [None]: the process died. *)
Definition run (A : Type) := Shm -> option A * Shm.
Definition ret {A} (a : A) : run A := fun s => (Some a, s).
Definition call {A} (c : CallResult) (done : run A) (failed : Z -> run A) : run A := fun s => match c with Succeeds => done s | Fails e => failed (Z.pos e) s | Dies => (None, s) end.
Definition examine {A} (f : Shm -> run A) : run A := fun s => f s s.
Definition change {A} (f : Shm -> Shm) (k : run A) : run A := fun s => k (f s).
Definition bind {A B} (m : run A) (k : A -> run B) : run B := fun s => match m s with (Some a, s) => k a s | (None, s) => (None, s) end.
(** The calls of [Create], and then of [Cleanup] *)
Inductive Site :=
| LockDirectory | OpenNew | OpenOld | LockOld | RecordOpen (n : nat) | RecordStat (n : nat) | RecordRead (n : nat) | StatOld | ReadOld | NamedOld | UnlinkOld | UnlinkOldRecord | OpenAgain
| StatNew | UnlinkOrphan | LockNew | Truncate | Map | Notify | OpenRecord | WriteRecord | UnlinkRecord | NamedNew | UnlinkNew
| NamedOwn | ReadOwn | UnlinkOwn | UnlinkOwnRecord.

(** ** The proxy *)
Inductive ProxyRecoveryState := NONE | CREATED | LIVE_NETWORK_OWNER | LOCAL_PUBLISHER | UNKNOWN_OWNERSHIP | STALE_DETECTED | RECOVERED | VALIDATION_FAILED | CLEANUP_FAILED.
Record ProxyImpl := { im_name : list Z; im_sidecar : list Z; im_record : ProxyRecord }.
Record TopicProxy := {
  tx_impl : option ProxyImpl;
  tx_state : ProxyRecoveryState;
  tx_stale : bool
}.
Definition tx_reset (x : TopicProxy) : TopicProxy :=
  {| tx_impl := tx_impl x; tx_state := NONE; tx_stale := false |}.
Definition tx_at (state : ProxyRecoveryState) (x : TopicProxy) : TopicProxy :=
  {| tx_impl := tx_impl x; tx_state := state; tx_stale := tx_stale x |}.
Definition tx_mark_stale (x : TopicProxy) : TopicProxy :=
  {| tx_impl := tx_impl x; tx_state := tx_state x; tx_stale := true |}.
Definition tx_found_stale (x : TopicProxy) : TopicProxy :=
  {| tx_impl := tx_impl x; tx_state := STALE_DETECTED; tx_stale := true |}.
Definition tx_own (i : ProxyImpl) (x : TopicProxy) : TopicProxy :=
  {| tx_impl := Some i; tx_state := (if tx_stale x then RECOVERED else CREATED); tx_stale := tx_stale x |}.
Definition tx_release (x : TopicProxy) : TopicProxy :=
  {| tx_impl := None; tx_state := tx_state x; tx_stale := tx_stale x |}.
Definition no_proxy : TopicProxy := {| tx_impl := None; tx_state := NONE; tx_stale := false |}.

Section Proxy.
(** The sizes that come from the ABI, the device of [/dev/shm], what the calls answer, how much a write that fails writes, who calls, and what [/proc] says *)
Context (header_size slot_align data_offset : Z) (device : Z) (io : Site -> CallResult) (written : nat) (me : Z * Z) (probe : Z -> Z -> OwnerLiveness).
Definition PROXY_TOPIC_MAGIC := 0x4b4346545249504c.
(** [shm_unlink] *)
Definition unlink {A} (site : Site) (name : list Z) (done : run A) (failed : Z -> run A) : run A :=
  examine (fun s => match sm_names s !! name with None => failed ENOENT | Some _ => call (io site) (change (sm_unlink name) done) failed end).
Definition proxy_reject (state : ProxyRecoveryState) (code : Z) (x : TopicProxy) : run (Z * TopicProxy) := ret (code, tx_at state x).
(** [NamedObject]: [name] still refers to [inode]. *)
Definition NamedObject (site : Site) (name : list Z) (inode : Z) : run bool := examine (fun s => call (io site) (ret (bool_decide (sm_names s !! name = Some inode))) (fun _ => ret false)).
Definition ReadRecord (n : nat) (name : list Z) : run (result ProxyRecord) :=
  examine (fun s =>
    match sm_names s !! name ≫= fun i => sm_files s !! i with
    | None => ret (Err (- ENOENT))
    | Some f =>
        call (io (RecordOpen n))
          (call (io (RecordStat n))
             (if negb (ff_private f) || negb (ff_mode f) || (PROXY_RECORD_MAX <? ff_size f) then ret (Err (- EPROTO))
              else call (io (RecordRead n)) (ret (DecodeProxyRecord (ff_bytes f))) (fun _ => ret (Err (- EIO))))
             (fun _ => ret (Err (- EPROTO))))
          (fun e => ret (Err (- e)))
    end).
Definition EncodeName (name : list Z) : list Z := SLASH :: concat (escape <$> drop 1 name).
(** The checks before anything is touched: the name of the segment and the record, without the inode. *)
Definition proxy_plan (name : list Z) (d : TypeDescriptor) (owner : ProxyOwnership) : result (list Z * ProxyRecord) :=
  if negb (ValidateTypeDescriptor d) || (16384 <? td_payload_size d) || (4096 <? td_payload_alignment d) || (vsize name <? 2) || (240 <? vsize name) || negb (first_char name =? SLASH) || bool_decide (0 ∈ name)
  then Err (- EINVAL)
  else if negb (ownership_ok owner) then Err (- EINVAL)
  else
  let encoded := EncodeName name in
  if 250 <? vsize encoded then Err (- ENAMETOOLONG)
  else match ComputeChannelLayout header_size slot_align data_offset (td_payload_size d) (td_payload_alignment d) 1 with
  | None => Err (- EINVAL)
  | Some layout =>
      let runtime := ep_runtime (po_proxy owner) in
      match ParameterWireType d with
      | Err _ => Err (- EINVAL)
      | Ok type =>
          if negb (rt_pid runtime =? me.1) then Err (- EINVAL)
          else match probe (rt_pid runtime) (rt_process_start_ticks runtime) with
          | LIVE => Ok (encoded, {| pr_owner := owner; pr_topic := name; pr_type := type; pr_size := td_payload_size d; pr_alignment := td_payload_alignment d;
                                    pr_layout := LayoutId d; pr_device := device; pr_inode := 0; pr_length := ly_length layout |})
          | _ => Err (- EINVAL)
          end
      end
  end.
Definition with_inode (i : Z) (r : ProxyRecord) : ProxyRecord :=
  {| pr_owner := pr_owner r; pr_topic := pr_topic r; pr_type := pr_type r; pr_size := pr_size r; pr_alignment := pr_alignment r; pr_layout := pr_layout r; pr_device := device; pr_inode := i; pr_length := pr_length r |}.
(** The segment [f] with inode [i] under the name is the one of which [old] says that a proxy like [r] made it. *)
Definition same_host (a b : ProxyOwnership) : bool :=
  (rt_host (ep_runtime (po_proxy a)) =?? rt_host (ep_runtime (po_proxy b))) && (rt_boot_id (ep_runtime (po_proxy a)) =?? rt_boot_id (ep_runtime (po_proxy b))).
Definition header_matches (r : ProxyRecord) (pid : Z) (h : ProxyHeader) : bool :=
  (hx_magic h =? PROXY_TOPIC_MAGIC) && (hx_format h =? 4) && (hx_initialized h =? 1) && (hx_depth h =? 1) && (hx_owner_pid h =? pid) &&
  (hx_type_id h =? ty_type_id (pr_type r)) && (hx_layout_id h =? pr_layout r) && (hx_size h =? pr_size r) && (hx_alignment h =? pr_alignment r).
Definition proven (r old : ProxyRecord) (i : Z) (f : ShmFile) : bool :=
  ff_private f && (ff_size f =? pr_length r) && (pr_topic old =?? pr_topic r) && same_host (pr_owner old) (pr_owner r) && (pr_type old =?? pr_type r) &&
  (pr_size old =? pr_size r) && (pr_alignment old =? pr_alignment r) && (pr_layout old =? pr_layout r) && (pr_length old =? pr_length r) && (pr_device old =? device) && (pr_inode old =? i) &&
  match ff_header f with
  | Some h => header_matches r (rt_pid (ep_runtime (po_proxy (pr_owner old)))) h && (hx_reserved h =? 0) && (hx_reserved1 h =? 0)
  | None => false
  end.
(** [fail]: the new segment goes again, if it still has the name. *)
Definition fail_new (name : list Z) (i : Z) (state : ProxyRecoveryState) (code : Z) (x : TopicProxy) : run (Z * TopicProxy) :=
  bind (NamedObject NamedNew name i) (fun same =>
    if same then unlink UnlinkNew name (proxy_reject state code x) (fun _ => proxy_reject state code x) else proxy_reject state code x).
Definition first_stores (r : ProxyRecord) : ProxyHeader :=
  {| hx_magic := 0; hx_size := pr_size r; hx_alignment := pr_alignment r; hx_format := 4; hx_initialized := 0; hx_owner_pid := me.1; hx_reserved := 0; hx_type_id := ty_type_id (pr_type r); hx_layout_id := pr_layout r; hx_depth := 1; hx_reserved1 := 0 |}.
Definition last_stores (r : ProxyRecord) : ProxyHeader :=
  {| hx_magic := PROXY_TOPIC_MAGIC; hx_size := pr_size r; hx_alignment := pr_alignment r; hx_format := 4; hx_initialized := 1; hx_owner_pid := me.1; hx_reserved := 0; hx_type_id := ty_type_id (pr_type r); hx_layout_id := pr_layout r; hx_depth := 1; hx_reserved1 := 0 |}.
(** From the lock of the new segment on: it is initialized, and the record is written. *)
Definition initialize_proxy (name sidecar : list Z) (r : ProxyRecord) (i : Z) (x : TopicProxy) : run (Z * TopicProxy) :=
  let failed state code := fail_new name i state code x in
  call (io LockNew)
    (call (io Truncate)
       (change (sm_on i (ff_resize (pr_length r)))
          (call (io Map)
             (change (sm_on i (ff_write_header (first_stores r)))
                (call (io Notify)
                   (change (sm_on i (ff_write_header (last_stores r)))
                      (match EncodeProxyRecord (with_inode i r) with
                       | Err code => failed VALIDATION_FAILED code
                       | Ok bytes =>
                           examine (fun s =>
                             match sm_names s !! sidecar with
                             | Some _ => failed CLEANUP_FAILED (- EEXIST)
                             | None =>
                                 call (io OpenRecord)
                                   (let j := sm_next s in
                                    change (fun s => sm_on j (ff_write (take (Nat.min written (length bytes - 1)) bytes)) (sm_make sidecar me s))
                                      (call (io WriteRecord)
                                         (change (sm_on j (ff_write bytes)) (ret (0, tx_own {| im_name := name; im_sidecar := sidecar; im_record := with_inode i r |} x)))
                                         (fun e => unlink UnlinkRecord sidecar (failed CLEANUP_FAILED (- e)) (fun _ => failed CLEANUP_FAILED (- e)))))
                                   (fun e => failed CLEANUP_FAILED (- e))
                             end)
                       end))
                   (fun e => failed CLEANUP_FAILED (- e))))
             (fun e => failed CLEANUP_FAILED (- e))))
       (fun e => failed CLEANUP_FAILED (- e)))
    (fun e => failed CLEANUP_FAILED (- e)).
(** From [fstat] of the new segment on: a record that is left over from a cleanup goes first. *)
Definition settle_proxy (name sidecar : list Z) (r : ProxyRecord) (i : Z) (x : TopicProxy) : run (Z * TopicProxy) :=
  call (io StatNew)
    (bind (ReadRecord 1 sidecar) (fun prior =>
       match prior with
       | Ok orphan =>
           let runtime := ep_runtime (po_proxy (pr_owner orphan)) in
           if negb (pr_topic orphan =?? pr_topic r) || negb (same_host (pr_owner orphan) (pr_owner r)) || negb (pr_type orphan =?? pr_type r) ||
              negb (match probe (rt_pid runtime) (rt_process_start_ticks runtime) with DEAD => true | _ => false end)
           then fail_new name i VALIDATION_FAILED (- EEXIST) x
           else unlink UnlinkOrphan sidecar (initialize_proxy name sidecar r i (tx_mark_stale x)) (fun e => fail_new name i CLEANUP_FAILED (- e) x)
       | Err code => if code =? - ENOENT then initialize_proxy name sidecar r i x else fail_new name i VALIDATION_FAILED (- EEXIST) x
       end))
    (fun e => proxy_reject CLEANUP_FAILED (- e) x).
(** The name is taken. *)
Definition replace_proxy (name sidecar : list Z) (r : ProxyRecord) (x : TopicProxy) : run (Z * TopicProxy) :=
  let refuse := proxy_reject VALIDATION_FAILED (- EEXIST) x in
  examine (fun s =>
    match sm_names s !! name with
    | None => refuse
    | Some i =>
        match sm_files s !! i with
        | None => refuse
        | Some f =>
            call (io OpenOld)
              (call (io LockOld)
                 (if ff_locked f then refuse
                  else bind (ReadRecord 0 sidecar) (fun record =>
                    match record with
                    | Err code => proxy_reject (if code =? - ENOENT then UNKNOWN_OWNERSHIP else VALIDATION_FAILED) (- EEXIST) x
                    | Ok old =>
                        call (io StatOld)
                          (call (io ReadOld)
                             (if negb (proven r old i f) then refuse
                              else match probe (rt_pid (ep_runtime (po_proxy (pr_owner old)))) (rt_process_start_ticks (ep_runtime (po_proxy (pr_owner old)))) with
                              | LIVE => proxy_reject LIVE_NETWORK_OWNER (- EEXIST) x
                              | UNKNOWN => refuse
                              | DEAD =>
                                  let x := tx_found_stale x in
                                  bind (NamedObject NamedOld name i) (fun same =>
                                    if negb same then proxy_reject VALIDATION_FAILED (- EEXIST) x
                                    else unlink UnlinkOld name (unlink UnlinkOldRecord sidecar (call (io OpenAgain) (examine (fun s => change (sm_make name me) (settle_proxy name sidecar r (sm_next s) x))) (fun e => proxy_reject CLEANUP_FAILED (- e) x))
                                            (fun e => proxy_reject CLEANUP_FAILED (- e) x))
                                      (fun e => proxy_reject CLEANUP_FAILED (- e) x))
                              end)
                             (fun _ => refuse))
                          (fun _ => refuse)
                    end))
                 (fun _ => refuse))
              (fun _ => refuse)
        end
    end).
Definition CreateProxy (name : list Z) (d : TypeDescriptor) (owner : ProxyOwnership) (x : TopicProxy) : run (Z * TopicProxy) :=
  match tx_impl x with
  | Some _ => ret (- EBUSY, x)
  | None =>
      let x := tx_reset x in
      match proxy_plan name d owner with
      | Err code => ret (code, x)
      | Ok (encoded, r) =>
          let sidecar := ProxySidecarName name in
          call (io LockDirectory)
            (examine (fun s =>
               match sm_names s !! encoded with
               | Some _ => replace_proxy encoded sidecar r x
               | None => call (io OpenNew) (change (sm_make encoded me) (settle_proxy encoded sidecar r (sm_next s) x)) (fun e => if e =? EEXIST then replace_proxy encoded sidecar r x else ret (- e, x))
               end))
            (fun e => ret (- e, x))
      end
  end.
(** [Cleanup]: the record and the segment must be the ones that this proxy made. *)
Definition CleanupProxy (x : TopicProxy) : run (Z * TopicProxy) :=
  match tx_impl x with
  | None => ret (0, x)
  | Some p =>
      let own := im_record p in
      let stale := proxy_reject VALIDATION_FAILED (- ESTALE) x in
      call (io LockDirectory)
        (bind (ReadRecord 2 (im_sidecar p)) (fun record =>
           match record with
           | Err _ => stale
           | Ok r =>
               if negb (r =?? own) then stale
               else bind (NamedObject NamedOwn (im_name p) (pr_inode own)) (fun same =>
                 if negb same then stale
                 else examine (fun s =>
                   let runtime := ep_runtime (po_proxy (pr_owner own)) in
                   if negb (rt_pid runtime =? me.1) || negb (match probe me.1 (rt_process_start_ticks runtime) with LIVE => true | _ => false end) then stale
                   else call (io ReadOwn)
                     (if negb (match sm_files s !! pr_inode own ≫= ff_header with Some h => header_matches own me.1 h | None => false end) then stale
                      else unlink UnlinkOwn (im_name p) (unlink UnlinkOwnRecord (im_sidecar p) (ret (0, tx_release x)) (fun e => proxy_reject CLEANUP_FAILED (- e) x))
                        (fun e => proxy_reject CLEANUP_FAILED (- e) x))
                     (fun _ => stale)))
           end))
        (fun e => proxy_reject CLEANUP_FAILED (- e) x)
  end.
End Proxy.

(** ** The processes of a host *)
(** What the kernel's [/proc/<pid>/stat] holds: the name in parentheses, which may itself contain any character, and then fields without parentheses, of which the twentieth is the start time. *)
Definition stat_field (f : list Z) : Prop := f <> [] /\ Forall (fun ch => is_space ch = false) f.
Definition stat_text (text : list Z) (ticks : Z) : Prop :=
  exists name before number after, text = name ++ CLOSE_PAREN :: concat ((fun f => 32 :: f) <$> before) ++ 32 :: number ++ 32 :: after /\
    length before = 19%nat /\ Forall stat_field before /\ ~ In CLOSE_PAREN (concat before) /\ ~ In CLOSE_PAREN after /\ digits_number number = Some ticks.
(** A process that lives has a readable_record [stat], a call may fail, and [ESRCH] says that there is no such process. *)
Record kernel_proc (live : gmap Z Z) (stat : Z -> Z + list Z) (esrch : Z -> bool) : Prop := {
  kp_stat : forall pid text, stat pid = inr text -> exists ticks, live !! pid = Some ticks /\ stat_text text ticks;
  kp_esrch : forall pid, esrch pid = true -> live !! pid = None
}.
(** [xe_closing]: [Cleanup] was called since the last [Create]; never read. *)
Record ProxyEntry := { xe_who : Z * Z; xe_proxy : TopicProxy; xe_closing : bool }.
(** [xw_live]: the start time by process id. *)
Record ProxyWorld := {
  xw_shm : Shm;
  xw_live : gmap Z Z;
  xw_proxies : gmap nat ProxyEntry
}.
Definition xw_exit (pid : Z) (w : ProxyWorld) : ProxyWorld :=
  {| xw_shm := xw_shm w; xw_live := delete pid (xw_live w); xw_proxies := filter (fun '(_, e) => (xe_who e).1 <> pid)
     (xw_proxies w) |}.
Definition xw_touch (s : Shm) (w : ProxyWorld) : ProxyWorld :=
  {| xw_shm := s; xw_live := xw_live w; xw_proxies := xw_proxies w |}.
Definition xw_spawn (pid ticks : Z) (w : ProxyWorld) : ProxyWorld :=
  {| xw_shm := xw_shm w; xw_live := <[pid := ticks]> (xw_live w); xw_proxies := xw_proxies w |}.
Definition xw_put (k : nat) (e : ProxyEntry) (w : ProxyWorld) : ProxyWorld :=
  {| xw_shm := xw_shm w; xw_live := xw_live w; xw_proxies := <[k := e]> (xw_proxies w) |}.
Definition xw_return (w : ProxyWorld) (k : nat) (me : Z * Z) (closing : bool) (out : option (Z * TopicProxy) * Shm) : ProxyWorld :=
  match out with
  | (Some (_, x), s) => xw_put k {| xe_who := me; xe_proxy := x; xe_closing := closing |} (xw_touch s w)
  | (None, s) => xw_exit me.1 (xw_touch s w)
  end.
(** The C++ types of what [Create] is given *)
Record wf_request (name : list Z) (d : TypeDescriptor) (owner : ProxyOwnership) : Prop := {
  wq_name : bytes name; wq_descriptor : wf_descriptor d; wq_proxy : wf_endpoint (po_proxy owner); wq_source : wf_endpoint (po_source owner);
  wq_sessions : is_u64 (po_gateway_session owner) /\ is_u64 (po_source_session owner)
}.
Definition no_record (bs : list Z) : Prop := forall r, DecodeProxyRecord bs <> Ok r.
Definition is_segment (w : ProxyWorld) (i : Z) : Prop := exists k e p, xw_proxies w !! k = Some e /\ tx_impl (xe_proxy e) = Some p /\ pr_inode (im_record p) = i.
(** What all others do to the objects: they make their own, lock any, remove those whose maker is gone, and write to and remove those that are not of a proxy. *)
Inductive other_step (w : ProxyWorld) : Shm -> Prop :=
| ot_make n who : xw_live w !! who.1 = Some who.2 -> sm_names (xw_shm w) !! n = None -> other_step w (sm_make n who (xw_shm w))
| ot_write i f g : sm_files (xw_shm w) !! i = Some f -> no_record (ff_bytes f) -> ~ is_segment w i -> ff_maker g = ff_maker f -> no_record (ff_bytes g) -> other_step w (sm_on i (fun _ => g) (xw_shm w))
| ot_lock i b : other_step w (sm_on i (ff_lock b) (xw_shm w))
| ot_unlink n i f who : sm_names (xw_shm w) !! n = Some i -> sm_files (xw_shm w) !! i = Some f -> ff_maker f = Some who -> xw_live w !! who.1 <> Some who.2 \/ (no_record (ff_bytes f) /\ ~ is_segment w i) -> other_step w (sm_unlink n (xw_shm w)).
Section World.
Context (header_size slot_align data_offset device : Z).
Inductive proxy_step : ProxyWorld -> ProxyWorld -> Prop :=
| px_spawn w pid ticks : xw_live w !! pid = None -> proxy_step w (xw_spawn pid ticks w)
| px_exit w pid : proxy_step w (xw_exit pid w)
| px_open w k me : xw_live w !! me.1 = Some me.2 -> xw_proxies w !! k = None -> proxy_step w (xw_put k {| xe_who := me; xe_proxy := no_proxy; xe_closing := false |} w)
| px_create w k me x closing io written stat esrch name d owner :
    xw_proxies w !! k = Some {| xe_who := me; xe_proxy := x; xe_closing := closing |} -> kernel_proc (xw_live w) stat esrch -> wf_request name d owner -> sm_next (xw_shm w) < UINT64_MAX ->
    proxy_step w (xw_return w k me (match tx_impl x with Some _ => closing | None => false end)
                    (CreateProxy header_size slot_align data_offset device io written me (fun pid => ProbeProxyOwner (stat pid) (esrch pid) pid) name d owner x (xw_shm w)))
| px_cleanup w k me x closing io stat esrch :
    xw_proxies w !! k = Some {| xe_who := me; xe_proxy := x; xe_closing := closing |} -> kernel_proc (xw_live w) stat esrch ->
    proxy_step w (xw_return w k me true (CleanupProxy io me (fun pid => ProbeProxyOwner (stat pid) (esrch pid) pid) x (xw_shm w)))
| px_other w s : other_step w s -> proxy_step w (xw_touch s w).
End World.
Definition empty_shm : Shm := {| sm_names := ∅; sm_files := ∅; sm_next := 1 |}.
Definition empty_world : ProxyWorld := {| xw_shm := empty_shm; xw_live := ∅; xw_proxies := ∅ |}.
