(* ===== verification/TopicProxySafety.v ===== *)
(** * What the owners of Topic proxies may do to each other

    The calls of [TopicProxy] change only files that they make or own, and remove the names of
    others only if their process is gone ([justified]); the processes of a host keep that up
    ([host_ok]), so a proxy of a living process keeps its two names.  A [Cleanup] that dies
    anywhere leaves what the next [Create] for the Topic takes over. *)
From stdpp Require Import gmap.
From S2P Require Import Prelude Wire NetTypes NetWire StorageLayout TypeDescriptor ParameterCodec ProxyRecord TopicProxy.

(** ** Objects *)
(** Who made the file of a record, and the segment it names. *)
Definition record_maker (r : ProxyRecord) : Z * Z := (rt_pid (ep_runtime (po_proxy (pr_owner r))), rt_process_start_ticks (ep_runtime (po_proxy (pr_owner r)))).
(** A file that holds a record was made by the process that the record names, and so was the segment. *)
Definition record_true (s : Shm) (f : ShmFile) : Prop :=
  forall r, DecodeProxyRecord (ff_bytes f) = Ok r -> ff_maker f = Some (record_maker r) /\ pr_inode r < sm_next s /\ forall g, sm_files s !! pr_inode r = Some g -> ff_maker g = ff_maker f.
Record shm_ok (s : Shm) : Prop := {
  so_files : forall i f, sm_files s !! i = Some f -> 0 < i < sm_next s /\ record_true s f;
  so_names : forall n i, sm_names s !! n = Some i -> is_Some (sm_files s !! i);
  so_next : 0 < sm_next s
}.
Section Justified.
(** [own]: the inodes of which the call may remove the names, [mine]: to which it may write *)
Context (own mine : Z -> Prop) (live : gmap Z Z).
Definition gone (f : ShmFile) : Prop := exists who, ff_maker f = Some who /\ live !! who.1 <> Some who.2.
Record justified (s s' : Shm) : Prop := {
  ju_ok : shm_ok s';
  ju_files : forall i f, sm_files s !! i = Some f -> exists f', sm_files s' !! i = Some f' /\ ff_maker f' = ff_maker f /\ (f' = f \/ mine i);
  ju_names : forall n i f, sm_names s !! n = Some i -> sm_files s !! i = Some f -> sm_names s' !! n = Some i \/ own i \/ gone f;
  ju_next : sm_next s <= sm_next s'
}.
Lemma justified_refl s : shm_ok s -> justified s s.
Proof. intros H. constructor; [done| |auto|done]. intros i f Hf. exists f. auto. Qed.
Lemma justified_trans s1 s2 s3 : justified s1 s2 -> justified s2 s3 -> justified s1 s3.
Proof.
  intros [_ A2 A3 A4] [B1 B2 B3 B4]. constructor; [done|..|lia].
  - intros i f Hf. destruct (A2 i f Hf) as (f1 & H1 & E1 & O1). destruct (B2 i f1 H1) as (f2 & H2 & E2 & O2). exists f2. split; [done|]. split; [congruence|]. naive_solver.
  - intros n i f Hn Hf. destruct (A3 n i f Hn Hf) as [H|H]; [|by right]. destruct (A2 i f Hf) as (f1 & H1 & E1 & _).
    destruct (B3 n i f1 H H1) as [?|[?|(who & E & Hw)]]; [by left|by right; left|]. right. right. exists who. split; [congruence|done].
Qed.
Lemma justified_make n me s : shm_ok s -> sm_names s !! n = None -> justified s (sm_make n me s).
Proof.
  intros [H1 H2 H3] Hn. assert (Hfresh : sm_files s !! sm_next s = None). { destruct (sm_files s !! sm_next s) eqn:E; [|done]. apply H1 in E as [E _]. lia. }
  constructor; [constructor; cbn|cbn|cbn|cbn; lia].
  - intros i f. destruct (decide (sm_next s = i)) as [<-|Hi]; [rewrite lookup_insert_eq; intros [= <-]; split; [lia|by intros r Hr]|].
    rewrite lookup_insert_ne by done. intros Hf. destruct (H1 i f Hf) as [? Ht]. split; [lia|]. intros r Hr. destruct (Ht r Hr) as (T1 & T2 & T3). split; [done|]. split; [cbn; lia|]. cbn. intros g. rewrite lookup_insert_ne by lia. apply T3.
  - intros m i. destruct (decide (n = m)) as [<-|]; [rewrite lookup_insert_eq; intros [= <-]; rewrite lookup_insert_eq; eauto|]. rewrite lookup_insert_ne by done. intros Hi. destruct (H2 m i Hi) as [f Hf]. rewrite lookup_insert_ne; [eauto|]. congruence.
  - lia.
  - intros i f Hf. exists f. rewrite lookup_insert_ne; [auto|congruence].
  - intros m i f Hi _. left. rewrite lookup_insert_ne; [done|congruence].
Qed.
Lemma justified_unlink n s : shm_ok s -> (forall i f, sm_names s !! n = Some i -> sm_files s !! i = Some f -> own i \/ gone f) -> justified s (sm_unlink n s).
Proof.
  intros [H1 H2 H3] Hd. constructor; [constructor; cbn|cbn|cbn|done].
  - intros i f Hf. destruct (H1 i f Hf). done.
  - intros m i [_ Hi]%lookup_delete_Some. by eapply H2.
  - done.
  - intros i f Hf. exists f. auto.
  - intros m i f Hi Hf. destruct (decide (n = m)) as [<-|]; [right; by eapply Hd|left; by rewrite lookup_delete_ne].
Qed.
(** The contents of a file change: its maker stays, and a record that is written is true. *)
Lemma justified_on i g s : shm_ok s -> mine i -> (forall f, sm_files s !! i = Some f -> ff_maker (g f) = ff_maker f /\ (ff_bytes (g f) = ff_bytes f \/ record_true s (g f))) -> justified s (sm_on i g s).
Proof.
  intros [H1 H2 H3] Ho Hg.
  assert (Hmk : forall j f', alter g i (sm_files s) !! j = Some f' -> exists f, sm_files s !! j = Some f /\ ff_maker f' = ff_maker f).
  { intros j f'. destruct (decide (i = j)) as [<-|]; [rewrite lookup_alter_eq|rewrite lookup_alter_ne by done; eauto]. destruct (sm_files s !! i) as [f|] eqn:E; [|done]. cbn. intros [= <-]. exists f. split; [done|]. by apply Hg. }
  assert (Ht : forall f, record_true s f -> record_true (sm_on i g s) f).
  { intros f Hf r Hr. destruct (Hf r Hr) as (T1 & T2 & T3). split; [done|]. split; [done|]. cbn. intros f' Hf'. destruct (Hmk _ _ Hf') as (f0 & E & ->). by apply T3. }
  constructor; [constructor; cbn; [|intros n j Hj|done]|cbn; intros j f Hf|cbn; auto|done].
  - intros j f' Hj. destruct (decide (i = j)) as [<-|]; [rewrite lookup_alter_eq in Hj|rewrite lookup_alter_ne in Hj by done; destruct (H1 j f' Hj); auto].
    destruct (sm_files s !! i) as [f|] eqn:E; [|done]. injection Hj as <-. destruct (H1 i f E) as [? Hf]. split; [done|]. destruct (Hg f eq_refl) as [M [B|B]]; [|auto]. apply Ht. unfold record_true in *. rewrite B, M. apply Hf.
  - apply H2 in Hj. destruct (decide (i = j)) as [<-|]; [rewrite lookup_alter_eq; by apply fmap_is_Some|by rewrite lookup_alter_ne].
  - destruct (decide (i = j)) as [<-|]; [exists (g f); rewrite lookup_alter_eq, Hf; split; [done|]; split; [by apply Hg|auto]|exists f; rewrite lookup_alter_ne by done; auto].
Qed.
End Justified.
(** What the probe says is so. *)
Record honest_probe (live : gmap Z Z) (probe : Z -> Z -> OwnerLiveness) : Prop := {
  hp_dead : forall pid ticks, probe pid ticks = DEAD -> live !! pid <> Some ticks;
  hp_live : forall pid ticks, probe pid ticks = LIVE -> live !! pid = Some ticks
}.

(** ** Calls *)
Section Safe.
Context (own mine : Z -> Prop) (io : Site -> CallResult) (probe : Z -> Z -> OwnerLiveness) (live : gmap Z Z) (Hprobe : honest_probe live probe).
Local Abbreviation justified := (justified own mine live).
(** The call changes what it may, and what it returns is as [Q] says. *)
Definition safe {A} (m : run A) (s : Shm) (Q : A -> Shm -> Prop) : Prop := justified s (m s).2 /\ forall a, (m s).1 = Some a -> Q a (m s).2.
Lemma safe_ret {A} (a : A) s (Q : A -> Shm -> Prop) : shm_ok s -> Q a s -> safe (ret a) s Q.
Proof. intros H1 H2. split; [by apply justified_refl|]. by intros ? [= <-]. Qed.
Lemma safe_died {A} s (Q : A -> Shm -> Prop) : shm_ok s -> justified s s /\ forall a, None = Some a -> Q a s.
Proof. split; [by apply justified_refl|done]. Qed.
Lemma safe_call {A} c (done : run A) failed s Q : shm_ok s -> safe done s Q -> (forall e, 0 < e -> safe (failed e) s Q) -> safe (call c done failed) s Q.
Proof. intros Hs H1 H2. unfold safe, call. destruct c; [done|by apply H2|by apply safe_died]. Qed.
Lemma safe_change {A} f (m : run A) s Q : justified s (f s) -> safe m (f s) Q -> safe (change f m) s Q.
Proof. intros H1 [H2 H3]. unfold safe, change. split; [by eapply justified_trans|done]. Qed.
Lemma safe_look {A} (f : Shm -> run A) s Q : safe (f s) s Q -> safe (examine f) s Q.
Proof. done. Qed.
Lemma safe_unlink {A} site name (done : run A) failed s Q :
  shm_ok s -> (forall i f, sm_names s !! name = Some i -> sm_files s !! i = Some f -> own i \/ gone live f) -> (justified s (sm_unlink name s) -> safe done (sm_unlink name s) Q) -> (forall e, 0 < e -> safe (failed e) s Q) -> safe (unlink io site name done failed) s Q.
Proof.
  intros Hs Hd H1 H2. unfold unlink. apply safe_look. destruct (sm_names s !! name) as [i|] eqn:En; [|by apply H2].
  assert (J : justified s (sm_unlink name s)) by (apply justified_unlink; [done|rewrite En; apply Hd]). apply safe_call; [done| |done]. apply safe_change; [done|]. by apply H1.
Qed.
Definition holds_record (s : Shm) (name : list Z) (r : ProxyRecord) : Prop := exists j f, sm_names s !! name = Some j /\ sm_files s !! j = Some f /\ DecodeProxyRecord (ff_bytes f) = Ok r.
Lemma safe_named {A} site name i (k : bool -> run A) s Q : shm_ok s -> (sm_names s !! name = Some i -> safe (k true) s Q) -> safe (k false) s Q -> safe (bind (NamedObject io site name i) k) s Q.
Proof.
  intros Hs H1 H2. unfold safe, bind, NamedObject, examine, call. destruct (io site); [|apply H2|by apply safe_died]. cbn. case_bool_decide as E; [by apply H1|apply H2].
Qed.
Lemma read_spec n name s : ReadRecord io n name s = (None, s) \/ exists r, ReadRecord io n name s = (Some r, s) /\ (forall p, r = Ok p -> holds_record s name p).
Proof.
  unfold ReadRecord, examine. destruct (sm_names s !! name) as [j|] eqn:En; cbn; [|right; by eexists]. destruct (sm_files s !! j) as [f|] eqn:Ef; [|right; by eexists].
  unfold call, ret. destruct (io (RecordOpen n)); [|right; by eexists|by left]. destruct (io (RecordStat n)); [|right; by eexists|by left]. case_check; [right; by eexists|].
  destruct (io (RecordRead n)); [|right; by eexists|by left]. right. eexists. split; [done|]. intros p Hp. by exists j, f.
Qed.
Lemma safe_read {A} n name (k : result ProxyRecord -> run A) s Q : shm_ok s -> (forall p, holds_record s name p -> safe (k (Ok p)) s Q) -> (forall e, safe (k (Err e)) s Q) -> safe (bind (ReadRecord io n name) k) s Q.
Proof.
  intros Hs H1 H2. unfold safe, bind. destruct (read_spec n name s) as [->|([p|e] & -> & Hr)]; [by apply safe_died|apply H1; by apply Hr|apply H2].
Qed.
(** A record that is read and whose process is dead allows the removal of its segment, and its own. *)
Lemma dead_segment s name r f : shm_ok s -> holds_record s name r -> probe (record_maker r).1 (record_maker r).2 = DEAD -> sm_files s !! pr_inode r = Some f -> gone live f.
Proof.
  intros Hs (i & g & Hi & Hg & Hr) Hd H. apply (hp_dead live probe Hprobe) in Hd. destruct (so_files s Hs i g Hg) as [_ Ht]. destruct (Ht r Hr) as (T1 & T2 & T3). exists (record_maker r). split; [|done]. rewrite <- T1. by apply T3.
Qed.
Lemma dead_record s name r f j : shm_ok s -> holds_record s name r -> probe (record_maker r).1 (record_maker r).2 = DEAD -> sm_names s !! name = Some j -> sm_files s !! j = Some f -> gone live f.
Proof.
  intros Hs (i & g & Hi & Hg & Hr) Hd H Hf. apply (hp_dead live probe Hprobe) in Hd. destruct (so_files s Hs i g Hg) as [_ Ht]. destruct (Ht r Hr) as (T1 & _). rewrite Hi in H. injection H as <-. rewrite Hg in Hf. injection Hf as <-. by exists (record_maker r).
Qed.
End Safe.

(** ** The widths of what a record holds *)
Lemma fnv_u64 h b : is_u64 (fnv_byte h b).
Proof. unfold fnv_byte, u64. pose proof (Z.mod_pos_bound (Z.lxor h b * 1099511628211) (2 ^ 64)). unfold_widths. lia. Qed.
Lemma foldl_u64 {B} (f : Z -> B -> Z) l : (forall h x, is_u64 h -> is_u64 (f h x)) -> forall h, is_u64 h -> is_u64 (foldl f h l).
Proof. intros Hf. induction l as [|x l IH]; intros h Hh; cbn; auto. Qed.
Lemma hash_number_u64 h n : is_u64 h -> is_u64 (hash_number h n).
Proof. unfold hash_number. apply foldl_u64. intros. apply fnv_u64. Qed.
Lemma LayoutId_u64 d : is_u64 (LayoutId d).
Proof. unfold LayoutId. apply foldl_u64; [intros h x Hh; by repeat apply hash_number_u64; apply fnv_u64|]. apply hash_number_u64. repeat apply hash_number_u64. apply fnv_u64. Qed.
Lemma hash_field_u64 h f : is_u64 (hash_field h f).
Proof. unfold hash_field, hash_count. apply foldl_u64; [intros; apply fnv_u64|apply fnv_u64]. Qed.
Lemma wire_type_wf d t : wf_descriptor d -> ParameterWireType d = Ok t -> wf_type t.
Proof.
  intros (_ & _ & Hid & _) H. unfold ParameterWireType in H. repeat (case_check; [done|]). injection H as <-. unfold wf_type. cbn. split; [done|]. split; [apply foldl_u64; [intros; apply hash_field_u64|unfold FNV_BASIS; unfold_widths; lia]|].
  split; [unfold_widths; lia|]. unfold u32. pose proof (Z.mod_pos_bound (wire_size (used_fields d)) (2 ^ 32)). unfold_widths. lia.
Qed.
Lemma layout_length_u64 a b c size alignment depth l : ComputeChannelLayout a b c size alignment depth = Some l -> is_u64 (ly_length l).
Proof.
  unfold ComputeChannelLayout. intros H. case_check; [done|]. destruct (align_up a _) as [slots|]; [|done]. destruct (align_up c _) as [data|]; [|done]. case_check; [done|]. destruct (align_up (u64 _) _) as [stride|]; [|done]. case_check; [done|].
  apply (inj Some) in H as <-. cbn [ly_length]. unfold u64 at 1, is_u64. match goal with |- context [?z mod ?n] => pose proof (Z.mod_pos_bound z n) end. unfold_widths. lia.
Qed.

Lemma result_ok_inj {A} (a b : A) : Ok a = Ok b -> a = b.
Proof. congruence. Qed.

(** ** What a proxy holds *)
Record proxy_held (s : Shm) (me : Z * Z) (p : ProxyImpl) (j : Z) : Prop := {
  he_name : sm_names s !! im_name p = Some (pr_inode (im_record p));
  he_sidecar : sm_names s !! im_sidecar p = Some j;
  he_segment : exists f, sm_files s !! pr_inode (im_record p) = Some f /\ ff_private f = true /\ ff_size f = pr_length (im_record p) /\ ff_header f = Some (last_stores me (im_record p)) /\ ff_maker f = Some me /\ ff_bytes f = [];
  he_record : exists g, sm_files s !! j = Some g /\ ff_private g = true /\ ff_mode g = true /\ ff_size g <= PROXY_RECORD_MAX /\ DecodeProxyRecord (ff_bytes g) = Ok (im_record p) /\ ff_maker g = Some me
}.
(** What a [ProxyImpl] is, whatever has become of its objects *)
Record proxy_of (device : Z) (me : Z * Z) (p : ProxyImpl) : Prop := {
  pf_maker : record_maker (im_record p) = me;
  pf_valid : ValidRecord (im_record p) = true;
  pf_name : im_name p = EncodeName (pr_topic (im_record p));
  pf_sidecar : im_sidecar p = ProxySidecarName (pr_topic (im_record p));
  pf_device : pr_device (im_record p) = device
}.
Section Create.
Context (header_size slot_align data_offset : Z) (device : Z) (io : Site -> CallResult) (written : nat) (me : Z * Z) (probe : Z -> Z -> OwnerLiveness) (live : gmap Z Z) (Hprobe : honest_probe live probe).
(** What the call makes has inodes from [n0] on. *)
Context (n0 : Z).
Definition new_inode (i : Z) : Prop := n0 <= i.
Local Abbreviation safe := (safe new_inode new_inode live).
Local Abbreviation justified := (justified new_inode new_inode live).
Definition created : Z * TopicProxy -> Shm -> Prop := fun '(code, x) s =>
  (code <> 0 /\ tx_impl x = None) \/ exists p j, code = 0 /\ tx_impl x = Some p /\ (tx_state x = CREATED \/ tx_state x = RECOVERED) /\ proxy_held s me p j /\ proxy_of device me p /\ new_inode (pr_inode (im_record p)) /\ new_inode j.
Lemma safe_rejected state code x s : shm_ok s -> code <> 0 -> tx_impl x = None -> safe (proxy_reject state code x) s created.
Proof. intros Hs Hc Hx. apply safe_ret; [done|]. by left. Qed.
(** The call has made the segment [i], which is still as it was made. *)
Definition my_file (s : Shm) (i : Z) : Prop := new_inode i /\ exists f, sm_files s !! i = Some f /\ ff_maker f = Some me /\ ff_private f = true /\ ff_bytes f = [].
Lemma fail_new_safe name i state code x s : shm_ok s -> new_inode i -> code <> 0 -> tx_impl x = None -> safe (fail_new io name i state code x) s created.
Proof.
  intros Hs Hi Hc Hx. unfold fail_new. apply safe_named; [done| |by apply safe_rejected]. intros Hn. apply safe_unlink; [done| | |by intros; apply safe_rejected].
  - intros j f Hj Hf. rewrite Hn in Hj. injection Hj as <-. by left.
  - intros J. apply safe_rejected; [by eapply ju_ok|done..].
Qed.
(** The plan of a record: what [Create] fills in before it has a segment *)
Definition planned (r : ProxyRecord) : Prop := record_maker r = me /\ forall i, is_u64 i -> wf_record (with_inode device i r).
Lemma initialize_record name sidecar r i j bytes x s : my_file s i -> planned r -> is_u64 i -> new_inode j -> i <> j ->
  name = EncodeName (pr_topic r) -> sidecar = ProxySidecarName (pr_topic r) -> name <> sidecar -> EncodeProxyRecord (with_inode device i r) = Ok bytes -> tx_impl x = None ->
  sm_names s !! name = Some i -> forall part, let s3 := sm_on i (ff_write_header (last_stores me r)) (sm_on i (ff_write_header (first_stores me r)) (sm_on i (ff_resize (pr_length r)) s)) in
  sm_next s3 = j -> created (0, tx_own {| im_name := name; im_sidecar := sidecar; im_record := with_inode device i r |} x) (sm_on j (ff_write bytes) (sm_on j (ff_write part) (sm_make sidecar me s3))).
Proof.
  intros (Hi & f & Hf & Hfm & Hfp & Hfb) [Hr Hw] Hi64 Hj Hij Hn Hc Hnc He Hx Hname part s3 Hnext. specialize (Hw i Hi64).
  right. eexists {| im_name := name; im_sidecar := sidecar; im_record := with_inode device i r |}, j. split; [done|]. split; [done|]. split; [cbn; destruct (tx_stale x); auto|]. destruct (encoded_record _ _ He) as [Hv _]. split; [constructor|split; [constructor; done|done]].
  - cbn. by rewrite lookup_insert_ne.
  - cbn. rewrite <- Hnext. apply lookup_insert_eq.
  - exists (ff_write_header (last_stores me r) (ff_write_header (first_stores me r) (ff_resize (pr_length r) f))). split; [|done]. change (sm_next s = j) in Hnext.
    cbn. rewrite !lookup_alter_ne, lookup_insert_ne by congruence. by rewrite !lookup_alter_eq, Hf.
  - exists (ff_write bytes (ff_write part (new_file me))). split; [|].
    + cbn. change (sm_next s = j) in Hnext. by rewrite !lookup_alter_eq, Hnext, lookup_insert_eq.
    + cbn [ff_private ff_mode ff_size ff_bytes ff_maker ff_write new_file]. split; [done|]. split; [done|]. split; [|split; [by apply proxy_record_roundtrip|done]].
      unfold EncodeProxyRecord in He. repeat case_check; simplify_eq. by bool_to_prop.
Qed.
Lemma sm_on_eq i g s : sm_files (sm_on i g s) !! i = g <$> sm_files s !! i.
Proof. apply lookup_alter_eq. Qed.
Lemma sm_on_ne i j g s : i <> j -> sm_files (sm_on i g s) !! j = sm_files s !! j.
Proof. apply lookup_alter_ne. Qed.
Lemma justified_contents i g s : shm_ok s -> new_inode i -> (forall f, ff_maker (g f) = ff_maker f /\ ff_bytes (g f) = ff_bytes f) -> justified s (sm_on i g s).
Proof. intros Hs Hi Hg. apply justified_on; [done|done|]. intros f _. destruct (Hg f). auto. Qed.
Lemma initialize_safe name sidecar r i x s : shm_ok s -> my_file s i -> planned r -> n0 <= sm_next s <= UINT64_MAX -> name = EncodeName (pr_topic r) -> sidecar = ProxySidecarName (pr_topic r) -> tx_impl x = None ->
  sm_names s !! name = Some i -> safe (initialize_proxy device io written me name sidecar r i x) s created.
Proof.
  intros Hs Hi Hr Hn Hname Hside Hx Hni. pose proof Hi as [Hfi (f0 & Hf0 & Hfr)]. destruct (so_files s Hs i f0 Hf0) as [Hi0 _].
  assert (Hi64 : is_u64 i) by (unfold is_u64; lia).
  assert (Hfail : forall s', shm_ok s' -> forall state code, code <> 0 -> safe (fail_new io name i state code x) s' created) by (intros; by apply fail_new_safe).
  unfold initialize_proxy. apply safe_call; [done| |intros; apply Hfail; [done|lia]]. apply safe_call; [done| |intros; apply Hfail; [done|lia]].
  pose proof (justified_contents i (ff_resize (pr_length r)) s Hs Hfi ltac:(done)) as J1. apply safe_change; [done|]. set (s1 := sm_on i _ s) in *. assert (Hs1 : shm_ok s1) by by eapply ju_ok.
  apply safe_call; [done| |intros; apply Hfail; [done|lia]]. pose proof (justified_contents i (ff_write_header (first_stores me r)) s1 Hs1 Hfi ltac:(done)) as J2. apply safe_change; [done|]. set (s2 := sm_on i _ s1) in *. assert (Hs2 : shm_ok s2) by by eapply ju_ok.
  apply safe_call; [done| |intros; apply Hfail; [done|lia]]. pose proof (justified_contents i (ff_write_header (last_stores me r)) s2 Hs2 Hfi ltac:(done)) as J3. apply safe_change; [done|]. set (s3 := sm_on i _ s2) in *. assert (Hs3 : shm_ok s3) by by eapply ju_ok.
  assert (J : justified s s3) by (eapply justified_trans; [exact J1|]; by eapply justified_trans).
  destruct (EncodeProxyRecord (with_inode device i r)) as [bytes|code] eqn:Ee; [|apply Hfail; [done|]; unfold EncodeProxyRecord in Ee; repeat case_check; by simplify_eq].
  apply safe_look. cbv beta zeta. destruct (sm_names s3 !! sidecar) as [?|] eqn:En; [by apply Hfail|].
  apply safe_call; [done| |intros; apply Hfail; [done|lia]]. set (j := sm_next s3). set (part := take _ bytes).
  pose proof (justified_make new_inode new_inode live sidecar me s3 Hs3 En) as J4. set (s4 := sm_make sidecar me s3) in *. assert (Hs4 : shm_ok s4) by by eapply ju_ok.
  assert (Hj : sm_files s4 !! j = Some (new_file me)) by apply lookup_insert_eq. assert (Hfj : new_inode j) by (change (n0 <= sm_next s); lia). assert (Hw : wf_record (with_inode device i r)) by by apply Hr.
  assert (J5 : justified s4 (sm_on j (ff_write part) s4)).
  { apply justified_on; [done|done|]. intros f Hf. rewrite Hj in Hf. injection Hf as <-. split; [done|]. right. intros q Hq. exfalso. apply (partial_record _ _ _ q Hw Ee) in Hq; [done|]. destruct (record_names _ _ Hw Ee) as [_ Hsz]. unfold vsize, PROXY_HEADER in Hsz. lia. }
  apply safe_change; [by eapply justified_trans|]. cbv beta. fold s4. set (s5 := sm_on j _ s4) in *. assert (Hs5 : shm_ok s5) by by eapply ju_ok.
  assert (Hj5 : sm_files s5 !! j = Some (ff_write part (new_file me))) by (apply (eq_trans (sm_on_eq j (ff_write part) s4)); by rewrite Hj).
  assert (Hkeep := ju_files _ _ _ _ _ (justified_trans _ _ _ _ _ _ J (justified_trans _ _ _ _ _ _ J4 J5))). apply safe_call; [done| |intros e He; apply safe_unlink; [done| | |intros; apply Hfail; [done|lia]]].
  - assert (J6 : justified s5 (sm_on j (ff_write bytes) s5)).
    { apply justified_on; [done|done|]. intros f Hf. rewrite Hj5 in Hf. apply (inj Some) in Hf as <-. split; [done|]. right. intros q Hq. cbn in Hq. rewrite (proxy_record_roundtrip _ _ Hw Ee) in Hq. apply result_ok_inj in Hq as <-.
      destruct Hr as [Hr _]. split; [cbn; by rewrite <- Hr|]. destruct (Hkeep i f0 Hf0) as (g & Hg & Hgm & _). cbn [pr_inode with_inode]. destruct (so_files s5 Hs5 i g Hg) as [? _]. split; [lia|]. rewrite Hg. intros g' Hg'. apply (inj Some) in Hg' as <-. rewrite Hgm. by destruct Hfr as [-> _]. }
    apply safe_change; [done|]. apply safe_ret; [by eapply ju_ok|]. apply (initialize_record name sidecar r i j bytes x s); try done; [change (i <> sm_next s); lia|]. intros Hsame. change (sm_names s !! sidecar = None) in En. congruence.
  - intros k f Hk Hf. left. cbn in Hk. rewrite lookup_insert_eq in Hk. by injection Hk as <-.
  - intros J6. apply Hfail; [by eapply ju_ok|lia].
Qed.
Lemma settle_safe name sidecar r i x s : shm_ok s -> my_file s i -> planned r -> n0 <= sm_next s <= UINT64_MAX -> name = EncodeName (pr_topic r) -> sidecar = ProxySidecarName (pr_topic r) -> tx_impl x = None ->
  sm_names s !! name = Some i -> safe (settle_proxy device io written me probe name sidecar r i x) s created.
Proof.
  intros Hs Hi Hr Hn Hname Hside Hx Hni. pose proof Hi as [Hfi (f0 & Hf0 & _ & _ & Hb)]. unfold settle_proxy. apply safe_call; [done| |intros; apply safe_rejected; [done|lia|done]]. apply safe_read; [done|..].
  - intros orphan Ho. case_check; [by apply fail_new_safe|]. bool_to_prop. destruct (probe (rt_pid _) _) eqn:Ep; try done.
    apply safe_unlink; [done| | |intros; apply fail_new_safe; [done|done|lia|done]].
    + intros j f Hj Hf. right. by apply (dead_record probe live Hprobe s sidecar orphan f j).
    + intros J. apply initialize_safe; try done; [by eapply ju_ok|]. cbn. rewrite lookup_delete_ne; [done|]. intros Hsame. destruct Ho as (j & f & Hj & Hf & Hd). rewrite Hsame, Hni in Hj. injection Hj as <-. rewrite Hf0 in Hf. injection Hf as <-. by rewrite Hb in Hd.
  - intros e. case_check; [by apply initialize_safe|by apply fail_new_safe].
Qed.
Lemma make_my_file n s : n0 <= sm_next s -> my_file (sm_make n me s) (sm_next s).
Proof. split; [done|]. exists (new_file me). split; [apply lookup_insert_eq|done]. Qed.
Lemma settle_new name sidecar r x s : shm_ok s -> planned r -> n0 <= sm_next s < UINT64_MAX -> name = EncodeName (pr_topic r) -> sidecar = ProxySidecarName (pr_topic r) -> tx_impl x = None ->
  sm_names s !! name = None -> safe (change (sm_make name me) (settle_proxy device io written me probe name sidecar r (sm_next s) x)) s created.
Proof.
  intros Hs Hr Hn Hname Hside Hx Hnone. pose proof (justified_make new_inode new_inode live name me s Hs Hnone) as J. apply safe_change; [done|].
  apply settle_safe; try done; [by eapply ju_ok|apply make_my_file; lia|cbn; lia|apply lookup_insert_eq].
Qed.
Lemma replace_safe name sidecar r x s : shm_ok s -> planned r -> n0 <= sm_next s < UINT64_MAX -> name = EncodeName (pr_topic r) -> sidecar = ProxySidecarName (pr_topic r) -> tx_impl x = None ->
  safe (replace_proxy device io written me probe name sidecar r x) s created.
Proof.
  intros Hs Hr Hn Hname Hside Hx. unfold replace_proxy. apply safe_look. destruct (sm_names s !! name) as [i|] eqn:Ei; [|by apply safe_rejected]. destruct (sm_files s !! i) as [f|] eqn:Ef; [|by apply safe_rejected].
  apply safe_call; [done| |by intros; apply safe_rejected]. apply safe_call; [done| |by intros; apply safe_rejected]. case_check; [by apply safe_rejected|]. apply safe_read; [done| |by intros; apply safe_rejected].
  intros old Ho. apply safe_call; [done| |by intros; apply safe_rejected]. apply safe_call; [done| |by intros; apply safe_rejected]. case_check; [by apply safe_rejected|]. bool_to_prop.
  destruct (probe (rt_pid _) _) eqn:Ep; [by apply safe_rejected| |by apply safe_rejected]. assert (Hold : pr_inode old = i) by (unfold proven in *; bool_to_prop; done).
  apply safe_named; [done| |by apply safe_rejected]. intros _. cbn [negb].
  apply safe_unlink; [done| | |intros; apply safe_rejected; [done|lia|done]].
  { intros j g Hj Hg. right. rewrite Ei in Hj. injection Hj as <-. apply (dead_segment probe live Hprobe s sidecar old g Hs Ho Ep). by rewrite Hold. }
  intros J1. assert (Hs1 : shm_ok (sm_unlink name s)) by by eapply ju_ok. apply safe_unlink; [done| | |intros; apply safe_rejected; [done|lia|done]].
  { intros j g Hj Hg. right. cbn in Hj, Hg. apply lookup_delete_Some in Hj as [_ Hj]. by apply (dead_record probe live Hprobe s sidecar old g j). }
  intros J2. set (s2 := sm_unlink sidecar _) in *. assert (Hs2 : shm_ok s2) by by eapply ju_ok. apply safe_call; [done| |intros; apply safe_rejected; [done|lia|done]]. apply safe_look.
  apply settle_new; try done. cbn. destruct (decide (sidecar = name)) as [->|]; [apply lookup_delete_eq|rewrite lookup_delete_ne by done; apply lookup_delete_eq].
Qed.
Lemma plan_planned name d owner encoded r : live !! me.1 = Some me.2 -> is_u64 device -> wf_request name d owner -> proxy_plan header_size slot_align data_offset device me probe name d owner = Ok (encoded, r) ->
  planned r /\ encoded = EncodeName (pr_topic r) /\ pr_topic r = name.
Proof.
  intros Hme Hdevice [Q1 Q2 Q3 Q4 [Q5 Q6]] H. unfold proxy_plan in H. repeat (case_check; [done|]). destruct (ComputeChannelLayout _ _ _ _ _ _) as [l|] eqn:El; [|done]. destruct (ParameterWireType d) as [t|] eqn:Et; [|done].
  case_check; [done|]. destruct (probe _ _) eqn:Ep; try done. injection H as <- <-. bool_to_prop. apply (hp_live live probe Hprobe) in Ep. split; [|done]. split.
  - unfold record_maker. cbn. destruct me as [pid ticks]. cbn in *. congruence.
  - intros i Hi. pose proof (wire_type_wf _ _ Q2 Et). destruct Q2 as (_ & _ & _ & _ & _ & ? & ? & _). constructor; [done..|]. cbn -[is_u64 LayoutId Z.le]. pose proof (LayoutId_u64 d). apply layout_length_u64 in El. unfold is_u64, is_u32 in *. unfold_widths. lia.
Qed.
Lemma plan_error name d owner code : proxy_plan header_size slot_align data_offset device me probe name d owner = Err code -> code <> 0.
Proof. unfold proxy_plan. intros H. repeat (case_check; [by simplify_eq|]). destruct (ComputeChannelLayout _ _ _ _ _ _); [|by simplify_eq]. destruct (ParameterWireType d); [|by simplify_eq]. case_check; [by simplify_eq|]. destruct (probe _ _); by simplify_eq. Qed.
Lemma create_safe name d owner x s : live !! me.1 = Some me.2 -> is_u64 device -> wf_request name d owner -> shm_ok s -> n0 <= sm_next s < UINT64_MAX -> tx_impl x = None ->
  safe (CreateProxy header_size slot_align data_offset device io written me probe name d owner x) s created.
Proof.
  intros Hme Hdev Hq Hs Hn Hx. unfold CreateProxy. rewrite Hx. destruct (proxy_plan _ _ _ _ _ _ _ _ _) as [[encoded r]|code] eqn:Ep; [|apply safe_ret; [done|]; left; split; [by eapply plan_error|done]].
  destruct (plan_planned name d owner encoded r Hme Hdev Hq Ep) as (Hr & He & Ht). cbv zeta. rewrite <- Ht. apply safe_call; [done| |intros; apply safe_ret; [done|]; left; split; [lia|done]]. apply safe_look.
  destruct (sm_names s !! encoded) eqn:En; [by apply replace_safe|]. apply safe_call; [done|by apply settle_new|].
  intros e Hpos. case_check; [by apply replace_safe|]. apply safe_ret; [done|]. left. split; [lia|done].
Qed.
End Create.
Section Cleanup.
Context (device : Z) (io : Site -> CallResult) (me : Z * Z) (probe : Z -> Z -> OwnerLiveness) (live : gmap Z Z) (Hme : live !! me.1 = Some me.2) (Hprobe : honest_probe live probe).
(** The segment of the proxy, and a file that holds its record *)
Definition own_file (p : ProxyImpl) (s0 : Shm) (i : Z) : Prop := i = pr_inode (im_record p) \/ exists f, sm_files s0 !! i = Some f /\ DecodeProxyRecord (ff_bytes f) = Ok (im_record p).
Definition cleaned (p : ProxyImpl) : Z * TopicProxy -> Shm -> Prop := fun '(code, x) s =>
  (code <> 0 /\ tx_impl x = Some p) \/ (code = 0 /\ tx_impl x = None /\ sm_names s !! im_name p = None /\ sm_names s !! im_sidecar p = None).
Lemma cleanup_safe x p s : tx_impl x = Some p -> shm_ok s -> safe (own_file p s) (fun _ => False) live (CleanupProxy io me probe x) s (cleaned p).
Proof.
  intros Hx Hs. assert (Hrej : forall state code s', shm_ok s' -> code <> 0 -> safe (own_file p s) (fun _ => False) live (proxy_reject state code x) s' (cleaned p)) by (intros; apply safe_ret; [done|by left]).
  unfold CleanupProxy. rewrite Hx. apply safe_call; [done| |intros; apply Hrej; [done|lia]]. apply safe_read; [done| |by intros; apply Hrej].
  intros r Hr. case_check; [by apply Hrej|]. bool_to_prop. subst r. apply safe_named; [done| |by apply Hrej]. intros Hn. cbn [negb]. apply safe_look. case_check; [by apply Hrej|]. bool_to_prop.
  apply safe_call; [done| |by intros; apply Hrej]. case_check; [by apply Hrej|].
  apply safe_unlink; [done| | |intros; apply Hrej; [done|lia]]. { intros i f Hi Hf. rewrite Hn in Hi. injection Hi as <-. left. by left. }
  intros J. assert (Hs1 : shm_ok (sm_unlink (im_name p) s)) by by eapply ju_ok. apply safe_unlink; [done| | |intros; apply Hrej; [done|lia]].
  { intros i f Hi Hf. left. right. destruct Hr as (j & g & Hj & Hg & Hr). cbn in Hi, Hf. apply lookup_delete_Some in Hi as [_ Hi]. rewrite Hj in Hi. injection Hi as <-. by exists g. }
  intros J2. apply safe_ret; [by eapply ju_ok|]. right. split; [done|]. split; [done|]. cbn. split; [|apply lookup_delete_eq].
  destruct (decide (im_sidecar p = im_name p)) as [->|]; [apply lookup_delete_eq|rewrite lookup_delete_ne by done; apply lookup_delete_eq].
Qed.
End Cleanup.

(** ** What [/proc] says *)
Lemma after_last_app ch a b : ~ In ch b -> after_last ch (a ++ ch :: b) = Some b.
Proof.
  intros Hb. assert (Hnone : after_last ch b = None). { induction b as [|y b IH]; [done|]. cbn. rewrite IH by (intros ?; apply Hb; by right). destruct (Z.eqb_spec y ch) as [->|]; [|done]. exfalso. apply Hb. by left. }
  induction a as [|y a IH]; cbn; [by rewrite Hnone, Z.eqb_refl|by rewrite IH].
Qed.
Lemma fields_word f rest current : Forall (fun ch => is_space ch = false) f -> current ++ f <> [] -> fields current (f ++ 32 :: rest) = (current ++ f) :: fields [] rest.
Proof.
  intros Hf. revert current. induction Hf as [|ch f Hch Hf IH]; intros current Hne; cbn [app fields].
  - rewrite app_nil_r in *. cbn [is_space]. by destruct current.
  - rewrite Hch. rewrite IH by (by destruct current). by rewrite <- app_assoc.
Qed.
Lemma fields_list before tail : Forall stat_field before -> fields [] (concat ((fun f => 32 :: f) <$> before) ++ 32 :: tail) = before ++ fields [] tail.
Proof.
  induction 1 as [|f before [Hne Hf] _ IH]; [done|]. cbn [fmap list_fmap concat].
  assert (Hx : exists X, concat ((fun f => 32 :: f) <$> before) ++ 32 :: tail = 32 :: X) by (destruct before; eexists; done). destruct Hx as [X Hx].
  rewrite <- app_assoc, Hx in *. change (fields [] (f ++ 32 :: X) = (f :: before) ++ fields [] tail). rewrite fields_word by done. cbn [app]. f_equal. exact IH.
Qed.
Lemma digits_field number ticks : digits_number number = Some ticks -> stat_field number /\ Forall (fun ch => 48 <= ch <= 57) number /\ stoull number = Some ticks.
Proof.
  intros H. assert (Hd : number <> [] /\ Forall (fun ch => 48 <= ch <= 57) number).
  { unfold digits_number in H. case_check; [done|]. bool_to_prop. split; [done|]. apply Forall_forall. intros ch Hch%list_elem_of_In. eapply forallb_forall in Hch; [|done]. unfold stat_digit in Hch. bool_to_prop. lia. }
  destruct Hd as [Hne Hd]. split; [split; [done|]|].
  - eapply Forall_impl; [exact Hd|]. intros ch Hch. cbv beta in Hch. unfold is_space. destruct (Z.eqb_spec ch 32), (Z.leb_spec 9 ch), (Z.leb_spec ch 13); try lia; done.
  - split; [done|]. rewrite <- H. destruct number as [|ch r]; [done|]. inversion_clear Hd as [|?? Hch _]. unfold stoull. destruct (Z.eqb_spec ch 43), (Z.eqb_spec ch 45); try lia. done.
Qed.
Lemma stat_text_ticks text ticks : stat_text text ticks -> stat_ticks text = Some ticks.
Proof.
  intros (name & before & number & after & -> & Hlen & Hb & Hp & Ha & Hn). destruct (digits_field number ticks Hn) as ([Hne Hf] & Hd & Hs). unfold stat_ticks.
  rewrite after_last_app.
  - cbn. rewrite fields_list by done. rewrite fields_word by done. cbn [app]. rewrite lookup_app_r by lia. by rewrite Hlen.
  - rewrite !in_app_iff. cbn. rewrite in_app_iff. cbn. intros [H|[H|[H|[H|H]]]]; [|done| |done|done].
    + apply in_concat in H as (g & Hg & Hc). apply in_map_iff in Hg as (f & <- & Hg). cbn in Hc. destruct Hc as [|Hc]; [done|]. apply Hp, in_concat. eauto.
    + rewrite Forall_forall in Hd. specialize (Hd CLOSE_PAREN). rewrite list_elem_of_In in Hd. specialize (Hd H). unfold CLOSE_PAREN in Hd. lia.
Qed.
Lemma probe_honest live stat esrch : kernel_proc live stat esrch -> honest_probe live (fun pid => ProbeProxyOwner (stat pid) (esrch pid) pid).
Proof.
  intros [H1 H2]. constructor; intros pid ticks; unfold ProbeProxyOwner; (case_check; [done|]); destruct (stat pid) as [e|text] eqn:Es.
  - case_check; [|done]. bool_to_prop. intros _. by rewrite H2.
  - case_check; [done|]. destruct (H1 pid text Es) as (observed & Hl & Ht). rewrite (stat_text_ticks _ _ Ht). case_check; [done|]. case_check; [done|]. intros _. bool_to_prop. congruence.
  - by case_check.
  - case_check; [done|]. destruct (H1 pid text Es) as (observed & Hl & Ht). rewrite (stat_text_ticks _ _ Ht). case_check; [done|]. case_check; [|done]. intros _. bool_to_prop. congruence.
Qed.

(** ** The processes of a host *)
Definition segment_of (s : Shm) (p : ProxyImpl) : Prop := exists f, sm_files s !! pr_inode (im_record p) = Some f /\ ff_bytes f = [].
Section Host.
Context (header_size slot_align data_offset device : Z) (Hdevice : is_u64 device).
Record proxy_entry_ok (s : Shm) (e : ProxyEntry) (p : ProxyImpl) : Prop := {
  eo_proxy : proxy_of device (xe_who e) p;
  eo_segment : segment_of s p;
  eo_held : xe_closing e = false -> exists j, proxy_held s (xe_who e) p j
}.
Record host_ok (w : ProxyWorld) : Prop := {
  wo_shm : shm_ok (xw_shm w);
  wo_live : forall k e, xw_proxies w !! k = Some e -> xw_live w !! (xe_who e).1 = Some (xe_who e).2;
  wo_entries : forall k e p, xw_proxies w !! k = Some e -> tx_impl (xe_proxy e) = Some p -> proxy_entry_ok (xw_shm w) e p;
  wo_unique : forall k k' e e' p p', xw_proxies w !! k = Some e -> xw_proxies w !! k' = Some e' -> tx_impl (xe_proxy e) = Some p -> tx_impl (xe_proxy e') = Some p' ->
    pr_inode (im_record p) = pr_inode (im_record p') -> k = k'
}.
(** What a call of others leaves: everything that it does not own. *)
Lemma held_later own mine live s s' me p j : justified own mine live s s' -> live !! me.1 = Some me.2 -> (forall i, i = pr_inode (im_record p) \/ i = j -> ~ own i /\ ~ mine i) -> proxy_held s me p j -> proxy_held s' me p j.
Proof.
  intros [_ J2 J3 _] Hl Ho [H1 H2 (f & Hf & Hfr) (g & Hg & Hgr)].
  assert (Hgone : forall h, ff_maker h = Some me -> ~ gone live h) by (intros h Hm (who & E & Hw); congruence).
  destruct (Ho (pr_inode (im_record p)) ltac:(by left)) as [O1 M1]. destruct (Ho j ltac:(by right)) as [O2 M2].
  destruct (J2 _ f Hf) as (f' & Hf' & _ & [->|?]); [|done]. destruct (J2 _ g Hg) as (g' & Hg' & _ & [->|?]); [|done]. constructor.
  - destruct (J3 _ _ f H1 Hf) as [?|[?|Hgn]]; [done|done|]. exfalso. apply Hgone in Hgn; [done|]. by destruct Hfr as (_ & _ & _ & ? & _).
  - destruct (J3 _ _ g H2 Hg) as [?|[?|Hgn]]; [done|done|]. exfalso. apply Hgone in Hgn; [done|]. by destruct Hgr as (_ & _ & _ & _ & ?).
  - by exists f.
  - by exists g.
Qed.
Lemma segment_later own mine live s s' p : justified own mine live s s' -> ~ mine (pr_inode (im_record p)) -> segment_of s p -> segment_of s' p.
Proof. intros J Hm (f & Hf & Hb). destruct (ju_files _ _ _ _ _ J _ f Hf) as (f' & Hf' & _ & [->|?]); [by exists f|done]. Qed.
Lemma entry_later own mine live s s' e p : justified own mine live s s' -> live !! (xe_who e).1 = Some (xe_who e).2 -> ~ own (pr_inode (im_record p)) -> ~ mine (pr_inode (im_record p)) ->
  (forall j g, sm_files s !! j = Some g -> DecodeProxyRecord (ff_bytes g) = Ok (im_record p) -> ~ own j /\ ~ mine j) -> proxy_entry_ok s e p -> proxy_entry_ok s' e p.
Proof.
  intros J Hl Ho Hm Hj [H1 H2 H3]. constructor; [done|by eapply segment_later|]. intros Hc. destruct (H3 Hc) as [j Hh]. exists j. eapply held_later; [done|done| |done].
  intros i [->| ->]; [done|]. destruct Hh as [_ _ _ (g & Hg & _ & _ & _ & Hd & _)]. by eapply Hj.
Qed.
Lemma empty_host_ok : host_ok empty_world.
Proof. constructor; [|done..]. constructor; done. Qed.
Lemma host_exit_ok w pid : host_ok w -> host_ok (xw_exit pid w).
Proof.
  intros [H1 H2 H3 H4]. constructor; [done|..]; cbn.
  - intros k e [Hk Hp]%map_lookup_filter_Some. rewrite lookup_delete_ne by done. by eapply H2.
  - intros k e p [Hk _]%map_lookup_filter_Some. by apply (H3 k).
  - intros k k' e e' p p' [Hk _]%map_lookup_filter_Some [Hk' _]%map_lookup_filter_Some. by apply H4.
Qed.
(** The objects change, the processes and their proxies do not. *)
Lemma host_touch_ok w s : host_ok w -> shm_ok s -> (forall k e p, xw_proxies w !! k = Some e -> tx_impl (xe_proxy e) = Some p -> proxy_entry_ok s e p) -> host_ok (xw_touch s w).
Proof. intros [H1 H2 H3 H4] Hs He. by constructor. Qed.
Definition spares (own mine : Z -> Prop) (s : Shm) (p : ProxyImpl) : Prop :=
  ~ own (pr_inode (im_record p)) /\ ~ mine (pr_inode (im_record p)) /\ forall j g, sm_files s !! j = Some g -> DecodeProxyRecord (ff_bytes g) = Ok (im_record p) -> ~ own j /\ ~ mine j.
Lemma nothing_spares s p : spares (fun _ => False) (fun _ => False) s p.
Proof. split; [by intros ?|]. split; [by intros ?|]. intros. split; by intros ?. Qed.
(** A call for the proxy [k] that spares the others *)
Lemma host_return_ok w k me x closing c out own mine : host_ok w -> xw_proxies w !! k = Some {| xe_who := me; xe_proxy := x; xe_closing := closing |} -> justified own mine (xw_live w) (xw_shm w) out.2 ->
  (forall k' e' p', k' <> k -> xw_proxies w !! k' = Some e' -> tx_impl (xe_proxy e') = Some p' -> spares own mine (xw_shm w) p') ->
  (forall a p, out.1 = Some a -> tx_impl a.2 = Some p -> proxy_entry_ok out.2 {| xe_who := me; xe_proxy := a.2; xe_closing := c |} p /\
     forall k' e' p', k' <> k -> xw_proxies w !! k' = Some e' -> tx_impl (xe_proxy e') = Some p' -> pr_inode (im_record p) <> pr_inode (im_record p')) ->
  host_ok (xw_return w k me c out).
Proof.
  intros Hw Hk J Hsp Hres. destruct out as [[[code x']|] s']; cbn [fst snd] in *; unfold xw_return; pose proof (wo_live w Hw k _ Hk) as Hl; cbn in Hl.
  all: assert (Hother : forall k' e' p', k' <> k -> xw_proxies w !! k' = Some e' -> tx_impl (xe_proxy e') = Some p' -> proxy_entry_ok s' e' p')
    by (intros k' e' p' Hne Hk' Hp'; destruct (Hsp k' e' p' Hne Hk' Hp') as (S1 & S2 & S3); eapply entry_later; [exact J|by eapply wo_live|done|done|done|by eapply wo_entries]).
  - specialize (Hres (code, x')). constructor; cbn; [by eapply ju_ok|..].
    + intros k' e'. destruct (decide (k = k')) as [<-|]; [rewrite lookup_insert_eq; by intros [= <-]|rewrite lookup_insert_ne by done; apply (wo_live w Hw)].
    + intros k' e' p'. destruct (decide (k = k')) as [<-|]; [rewrite lookup_insert_eq; intros [= <-] Hp; by apply Hres|rewrite lookup_insert_ne by done; apply (Hother k'); congruence].
    + intros k1 k2 e1 e2 p1 p2. destruct (decide (k = k1)) as [<-|N1], (decide (k = k2)) as [<-|N2]; rewrite ?lookup_insert_eq, ?lookup_insert_ne by done; [done|..].
      * intros [= <-] H2 P1 P2 E. destruct (Hres p1 eq_refl P1) as [_ HR]. by destruct (HR k2 e2 p2 (not_eq_sym N2) H2 P2).
      * intros H1 [= <-] P1 P2 E. destruct (Hres p2 eq_refl P2) as [_ HR]. by destruct (HR k1 e1 p1 (not_eq_sym N1) H1 P1).
      * apply (wo_unique w Hw).
  - constructor; cbn; [by eapply ju_ok|..].
    + intros k' e' [Hk' Hp]%map_lookup_filter_Some. rewrite lookup_delete_ne by done. by eapply wo_live.
    + intros k' e' p' [Hk' Hp]%map_lookup_filter_Some. apply (Hother k'); [|done]. intros ->. rewrite Hk in Hk'. by injection Hk' as <-.
    + intros k1 k2 e1 e2 p1 p2 [H1 _]%map_lookup_filter_Some [H2 _]%map_lookup_filter_Some. by apply (wo_unique w Hw).
Qed.
Lemma fresh_spares w k e p : host_ok w -> xw_proxies w !! k = Some e -> tx_impl (xe_proxy e) = Some p -> spares (new_inode (sm_next (xw_shm w))) (new_inode (sm_next (xw_shm w))) (xw_shm w) p.
Proof.
  intros Hw Hk Hp. destruct (wo_entries w Hw k e p Hk Hp) as [_ (f & Hf & _) _]. pose proof (so_files _ (wo_shm w Hw)) as Hfiles. unfold new_inode. destruct (Hfiles _ f Hf) as [? _]. split; [lia|]. split; [lia|].
  intros j g Hg _. destruct (Hfiles j g Hg) as [? _]. lia.
Qed.
Lemma host_create_ok w k me x closing io written probe name d owner : host_ok w -> xw_proxies w !! k = Some {| xe_who := me; xe_proxy := x; xe_closing := closing |} -> honest_probe (xw_live w) probe -> wf_request name d owner -> sm_next (xw_shm w) < UINT64_MAX ->
  host_ok (xw_return w k me (match tx_impl x with Some _ => closing | None => false end) (CreateProxy header_size slot_align data_offset device io written me probe name d owner x (xw_shm w))).
Proof.
  intros Hw Hk Hp Hq Hn. pose proof (wo_live w Hw k _ Hk) as Hl. cbn in Hl. pose proof (wo_shm w Hw) as Hs. destruct (tx_impl x) as [p|] eqn:Ex.
  - unfold CreateProxy. rewrite Ex. apply (host_return_ok w k me x closing _ _ (fun _ => False) (fun _ => False)); [done|done|by apply justified_refl|intros; apply nothing_spares|]. intros [code x'] p' [= <- <-] Hp'. cbn in Hp'. split; [by apply (wo_entries w Hw k {| xe_who := me; xe_proxy := x; xe_closing := closing |})|].
    intros k' e' q Hne Hk' Hq' E. apply Hne. symmetry. by eapply (wo_unique w Hw k k').
  - destruct (create_safe header_size slot_align data_offset device io written me probe (xw_live w) Hp (sm_next (xw_shm w)) name d owner x (xw_shm w)) as [J Q]; [done|done|done|done|lia|done|].
    eapply host_return_ok; [done|done|exact J|intros; by eapply fresh_spares|]. intros [code x'] p Ha Hx'. specialize (Q _ Ha). cbn in Hx'. destruct Q as [[_ Q]|(p' & j & _ & Hx2 & _ & Hh & Hpo & Hf & _)]; [congruence|].
    rewrite Hx' in Hx2. injection Hx2 as <-. split.
    + constructor; [done|destruct Hh as [_ _ (f & ? & _ & _ & _ & _ & ?) _]; by exists f|]. intros _. by exists j.
    + intros k' e' q _ Hk' Hq'. destruct (fresh_spares w k' e' q Hw Hk' Hq') as [Hold _]. intros E. by rewrite E in Hf.
Qed.
Lemma cleanup_spares w k k' e e' p p' : host_ok w -> xw_proxies w !! k = Some e -> tx_impl (xe_proxy e) = Some p -> k' <> k -> xw_proxies w !! k' = Some e' -> tx_impl (xe_proxy e') = Some p' ->
  spares (own_file p (xw_shm w)) (fun _ => False) (xw_shm w) p'.
Proof.
  intros Hw Hk Hp Hne Hk' Hp'. assert (Hi : pr_inode (im_record p') <> pr_inode (im_record p)) by (intros E; apply Hne; by eapply (wo_unique w Hw)).
  destruct (wo_entries w Hw k e p Hk Hp) as [_ (f & Hf & Hb) _]. destruct (wo_entries w Hw k' e' p' Hk' Hp') as [_ (f' & Hf' & Hb') _]. split; [|split; [by intros ?|]].
  - intros [?|(g & Hg & Hd)]; [done|]. rewrite Hf' in Hg. injection Hg as <-. by rewrite Hb' in Hd.
  - intros j g Hg Hd. split; [|by intros ?]. intros [->|(g' & Hg' & Hd')]; [rewrite Hf in Hg; injection Hg as <-; by rewrite Hb in Hd|]. rewrite Hg in Hg'. injection Hg' as <-. rewrite Hd in Hd'. apply result_ok_inj in Hd'. by rewrite Hd' in Hi.
Qed.
Lemma host_cleanup_ok w k me x closing io probe : host_ok w -> xw_proxies w !! k = Some {| xe_who := me; xe_proxy := x; xe_closing := closing |} -> honest_probe (xw_live w) probe ->
  host_ok (xw_return w k me true (CleanupProxy io me probe x (xw_shm w))).
Proof.
  intros Hw Hk Hp. pose proof (wo_live w Hw k _ Hk) as Hl. cbn in Hl. pose proof (wo_shm w Hw) as Hs. destruct (tx_impl x) as [p|] eqn:Ex.
  - destruct (cleanup_safe io me probe (xw_live w) x p (xw_shm w)) as [J Q]; [done|done|]. eapply host_return_ok; [done|done|exact J|intros k' e' p' Hne Hk' Hp'; exact (cleanup_spares w k k' _ e' p p' Hw Hk Ex Hne Hk' Hp')|].
    intros [code x'] q Ha Hx'. specialize (Q _ Ha). cbn in Hx'. destruct Q as [[_ Q]|(_ & Q & _)]; [|congruence]. rewrite Hx' in Q. injection Q as ->. destruct (wo_entries w Hw k _ p Hk Ex) as [E1 E2 _]. split.
    + constructor; [done| |done]. eapply segment_later; [exact J|by intros ?|done].
    + intros k' e' p' Hne Hk' Hp' E. apply Hne. symmetry. by eapply (wo_unique w Hw k k').
  - unfold CleanupProxy. rewrite Ex. apply (host_return_ok w k me x closing _ _ (fun _ => False) (fun _ => False)); [done|done|by apply justified_refl|intros; apply nothing_spares|]. intros [code x'] p' [= <- <-] Hp'. cbn in Hp'. congruence.
Qed.
Lemma host_other_ok w s : host_ok w -> other_step w s -> host_ok (xw_touch s w).
Proof.
  intros Hw Ho. pose proof (wo_shm w Hw) as Hs.
  (* what spares the proxies keeps them *)
  assert (Hkeep : forall own mine, justified own mine (xw_live w) (xw_shm w) s -> (forall k e p, xw_proxies w !! k = Some e -> tx_impl (xe_proxy e) = Some p -> spares own mine (xw_shm w) p) -> host_ok (xw_touch s w)).
  { intros own mine J Hsp. apply host_touch_ok; [done|by eapply ju_ok|]. intros k e p Hk Hp. destruct (Hsp k e p Hk Hp) as (S1 & S2 & S3). eapply entry_later; [exact J|by eapply wo_live|done|done|done|by eapply wo_entries]. }
  (* so does a change to [i], which is no proxy's *)
  assert (Hnot : forall i f own mine, sm_files (xw_shm w) !! i = Some f -> no_record (ff_bytes f) -> ~ is_segment w i -> (forall j, own j -> j = i) -> (forall j, mine j -> j = i) -> forall k e p, xw_proxies w !! k = Some e -> tx_impl (xe_proxy e) = Some p -> spares own mine (xw_shm w) p).
  { intros i f own mine Hf Hnr Hseg Hown Hmine k e p Hk Hp. assert (pr_inode (im_record p) <> i) by (intros E; apply Hseg; by exists k, e, p). split; [intros ?%Hown; done|]. split; [intros ?%Hmine; done|].
    intros j g Hg Hd. assert (j <> i) by (intros ->; rewrite Hf in Hg; injection Hg as <-; by apply Hnr in Hd). split; [by intros ?%Hown|by intros ?%Hmine]. }
  destruct Ho as [n who Hl Hn|i f g Hf Hnr Hseg Hm Hnr'|i b|n i f who Hn Hf Hm Hwhy].
  - eapply (Hkeep (fun _ => False) (fun _ => False)); [by apply justified_make|intros; apply nothing_spares].
  - eapply (Hkeep (fun _ => False) (fun j => j = i)); [|by eapply Hnot]. apply justified_on; [done|done|]. intros f' Hf'. rewrite Hf in Hf'. injection Hf' as <-. split; [done|]. right. intros r Hr. by apply Hnr' in Hr.
  - apply host_touch_ok; [done|eapply (ju_ok (fun _ => False) (fun _ => True) ∅), justified_on; [done|done|]; intros; split; [done|by left]|].
    intros k e p Hk Hp. destruct (wo_entries w Hw k e p Hk Hp) as [E1 (f & Hf & Hb) E3].
    assert (Hall : forall j h, sm_files (xw_shm w) !! j = Some h -> exists h', sm_files (sm_on i (ff_lock b) (xw_shm w)) !! j = Some h' /\ ff_private h' = ff_private h /\ ff_mode h' = ff_mode h /\ ff_size h' = ff_size h /\ ff_bytes h' = ff_bytes h /\ ff_header h' = ff_header h /\ ff_maker h' = ff_maker h).
    { intros j h Hh. destruct (decide (i = j)) as [<-|]; [exists (ff_lock b h); by rewrite sm_on_eq, Hh|exists h; by rewrite sm_on_ne]. }
    constructor; [done|destruct (Hall _ f Hf) as (f' & Hf' & _ & _ & _ & B & _); exists f'; by rewrite B|]. intros Hc. destruct (E3 Hc) as [j [H1 H2 (g & Hg & Hgr) (h & Hh & Hhr)]]. exists j. constructor; [done|done|..].
    + destruct (Hall _ g Hg) as (g' & Hg' & A1 & A2 & A3 & A4 & A5 & A6). exists g'. by rewrite A1, A3, A4, A5, A6.
    + destruct (Hall _ h Hh) as (h' & Hh' & A1 & A2 & A3 & A4 & A5 & A6). exists h'. by rewrite A1, A2, A3, A4, A6.
  - destruct Hwhy as [Hdead|[Hnr Hseg]].
    + eapply (Hkeep (fun _ => False) (fun _ => False)); [|intros; apply nothing_spares]. apply justified_unlink; [done|]. intros j h Hj Hh. right. rewrite Hn in Hj. injection Hj as <-. rewrite Hf in Hh. injection Hh as <-. by exists who.
    + eapply (Hkeep (fun j => j = i) (fun _ => False)); [|by eapply Hnot]. apply justified_unlink; [done|]. intros j h Hj _. left. congruence.
Qed.
Lemma host_step_ok w w' : host_ok w -> proxy_step header_size slot_align data_offset device w w' -> host_ok w'.
Proof.
  intros Hw Hst. destruct Hst as [w pid ticks Hnone|w pid|w k me Hl Hk|w k me x closing io written stat esrch name d owner Hk Hpr Hq Hn|w k me x closing io stat esrch Hk Hpr|w s Ho].
  - destruct Hw as [H1 H2 H3 H4]. constructor; [done| |done|done]. intros k e Hk. cbn. rewrite lookup_insert_ne; [by eapply H2|]. intros ->. specialize (H2 k e Hk). congruence.
  - by apply host_exit_ok.
  - destruct Hw as [H1 H2 H3 H4]. constructor; [done|..]; cbn.
    + intros k' e. destruct (decide (k = k')) as [<-|]; [rewrite lookup_insert_eq; by intros [= <-]|rewrite lookup_insert_ne by done; apply H2].
    + intros k' e p. destruct (decide (k = k')) as [<-|]; [rewrite lookup_insert_eq; by intros [= <-]|rewrite lookup_insert_ne by done; apply H3].
    + intros k1 k2 e1 e2 p1 p2. destruct (decide (k = k1)) as [<-|], (decide (k = k2)) as [<-|]; rewrite ?lookup_insert_eq, ?lookup_insert_ne by done; [done|by intros [= <-]|by intros ? [= <-]|apply H4].
  - apply host_create_ok; try done. by apply probe_honest.
  - eapply host_cleanup_ok; [done|done|]. by apply probe_honest.
  - by apply host_other_ok.
Qed.
Lemma host_reachable_ok w : rtc (proxy_step header_size slot_align data_offset device) empty_world w -> host_ok w.
Proof. apply rtc_invariant; [intros a b; apply host_step_ok|apply empty_host_ok]. Qed.
End Host.

(** ** After a crash *)
Definition all_well : Site -> CallResult := fun _ => Succeeds.
(** [Create] for the Topic of a record, with its type, on its host *)
Definition same_topic (a b : ProxyRecord) : Prop :=
  pr_topic a = pr_topic b /\ same_host (pr_owner a) (pr_owner b) = true /\ pr_type a = pr_type b /\ pr_size a = pr_size b /\ pr_alignment a = pr_alignment b /\ pr_layout a = pr_layout b /\ pr_length a = pr_length b.
(** [P] holds of what is left. *)
Definition leaves {A} (m : run A) (s : Shm) (P : Shm -> Prop) : Prop := P (m s).2.
Lemma leaves_call {A} c (done : run A) failed s (P : Shm -> Prop) : P s -> leaves done s P -> (forall e, leaves (failed e) s P) -> leaves (call c done failed) s P.
Proof. intros H1 H2 H3. unfold leaves, call. destruct c; [done|apply H3|done]. Qed.
Lemma leaves_read {A} io n name (k : result ProxyRecord -> run A) s (P : Shm -> Prop) : P s -> (forall r, leaves (k r) s P) -> leaves (bind (ReadRecord io n name) k) s P.
Proof. intros H1 H2. unfold leaves, bind. destruct (read_spec io n name s) as [->|(r & -> & _)]; [done|apply H2]. Qed.
Lemma leaves_named {A} io site name i (k : bool -> run A) s (P : Shm -> Prop) : P s -> (forall b, leaves (k b) s P) -> leaves (bind (NamedObject io site name i) k) s P.
Proof. intros H1 H2. unfold leaves, bind, NamedObject, examine, call. destruct (io site); [apply H2|apply H2|done]. Qed.
Lemma leaves_unlink {A} io site name (done : run A) failed s (P : Shm -> Prop) : P s -> leaves done (sm_unlink name s) P -> (forall e, leaves (failed e) s P) -> leaves (unlink io site name done failed) s P.
Proof. intros H1 H2 H3. unfold unlink, examine. unfold leaves. destruct (sm_names s !! name); [|apply H3]. by apply leaves_call. Qed.
Lemma cleanup_shapes io me probe x p s : tx_impl x = Some p -> leaves (CleanupProxy io me probe x) s (fun s' => s' = s \/ s' = sm_unlink (im_name p) s \/ s' = sm_unlink (im_sidecar p) (sm_unlink (im_name p) s)).
Proof.
  intros Hx. unfold CleanupProxy. rewrite Hx. apply leaves_call; [by left| |by left]. apply leaves_read; [by left|]. intros [r|e]; [|by left]. case_check; [by left|]. apply leaves_named; [by left|].
  intros []; [|by left]. unfold examine. cbn [negb]. unfold leaves at 1. case_check; [by left|]. apply leaves_call; [by left| |by left]. case_check; [by left|].
  apply leaves_unlink; [by left| |by left]. apply leaves_unlink; [by right; left|by right; right|by right; left].
Qed.
Section Recover.
Context (header_size slot_align data_offset device : Z) (written : nat) (me : Z * Z) (probe : Z -> Z -> OwnerLiveness).
Lemma initialize_succeeds name sidecar r i x s bytes : EncodeProxyRecord (with_inode device i r) = Ok bytes -> sm_names s !! sidecar = None ->
  (initialize_proxy device all_well written me name sidecar r i x s).1 = Some (0, tx_own {| im_name := name; im_sidecar := sidecar; im_record := with_inode device i r |} x).
Proof. intros He Hn. unfold initialize_proxy, call, change, examine, all_well. rewrite He. cbn [sm_names sm_on]. by rewrite Hn. Qed.
(** A record that can be read *)
Definition readable_record (s : Shm) (name : list Z) (r : ProxyRecord) : Prop :=
  exists j g, sm_names s !! name = Some j /\ sm_files s !! j = Some g /\ ff_private g = true /\ ff_mode g = true /\ ff_size g <= PROXY_RECORD_MAX /\ DecodeProxyRecord (ff_bytes g) = Ok r.
Lemma well_call {A} site (done : run A) failed s : call (all_well site) done failed s = done s.
Proof. done. Qed.
Lemma well_unlink {A} site name i (done : run A) failed s : sm_names s !! name = Some i -> unlink all_well site name done failed s = done (sm_unlink name s).
Proof. intros H. unfold unlink, examine. by rewrite H. Qed.
Lemma well_named {A} site name i (k : bool -> run A) s : sm_names s !! name = Some i -> bind (NamedObject all_well site name i) k s = k true s.
Proof. intros H. unfold bind, NamedObject, examine. rewrite well_call. unfold ret. by rewrite bool_decide_eq_true_2. Qed.
Lemma well_read {A} n name r (k : result ProxyRecord -> run A) s : readable_record s name r -> bind (ReadRecord all_well n name) k s = k (Ok r) s.
Proof.
  intros (j & g & Hj & Hg & G1 & G2 & G3 & Hd). unfold bind, ReadRecord, examine. rewrite Hj. cbn [mbind option_bind]. rewrite Hg, !well_call, G1, G2.
  destruct (Z.ltb_spec PROXY_RECORD_MAX (ff_size g)); [lia|]. cbn [negb orb]. by rewrite well_call, Hd.
Qed.
Lemma well_absent {A} n name (k : result ProxyRecord -> run A) s : sm_names s !! name = None -> bind (ReadRecord all_well n name) k s = k (Err (- ENOENT)) s.
Proof. intros H. unfold bind, ReadRecord, examine. by rewrite H. Qed.
(** The name of the record is free, or holds the record of a dead process for the same Topic. *)
Lemma settle_succeeds name sidecar r i x s bytes : EncodeProxyRecord (with_inode device i r) = Ok bytes ->
  (sm_names s !! sidecar = None \/ exists old, readable_record s sidecar old /\ same_topic old r /\ probe (record_maker old).1 (record_maker old).2 = DEAD) ->
  exists x', (settle_proxy device all_well written me probe name sidecar r i x s).1 = Some (0, x') /\ tx_state x' = (if bool_decide (sm_names s !! sidecar = None) && negb (tx_stale x) then CREATED else RECOVERED) /\ im_name <$> tx_impl x' = Some name.
Proof.
  intros He Hs. unfold settle_proxy. rewrite well_call. destruct Hs as [Hn|(old & Hold & (T1 & T2 & T3 & _) & Hdead)].
  - rewrite well_absent, Z.eqb_refl, (initialize_succeeds name sidecar r i x s bytes He Hn), bool_decide_eq_true_2 by done. eexists. split; [done|]. cbn. split; [by destruct (tx_stale x)|done].
  - rewrite (well_read _ _ old) by done. cbv zeta. unfold record_maker in Hdead. cbn [fst snd] in Hdead. rewrite Hdead, T1, T2, T3, !bool_decide_eq_true_2 by done. cbn [negb orb].
    destruct Hold as (j & g & Hj & _). rewrite (well_unlink _ _ j), (initialize_succeeds name sidecar r i (tx_mark_stale x) (sm_unlink sidecar s) bytes He (lookup_delete_eq _ _)), Hj by done. eexists. split; [done|]. by rewrite bool_decide_eq_false_2.
Qed.
Lemma replace_succeeds name sidecar r x s i f old bytes : name <> sidecar -> EncodeProxyRecord (with_inode device (sm_next s) r) = Ok bytes ->
  sm_names s !! name = Some i -> sm_files s !! i = Some f -> ff_locked f = false -> proven device r old i f = true -> readable_record s sidecar old -> probe (record_maker old).1 (record_maker old).2 = DEAD ->
  exists x', (replace_proxy device all_well written me probe name sidecar r x s).1 = Some (0, x') /\ tx_state x' = RECOVERED /\ im_name <$> tx_impl x' = Some name.
Proof.
  intros Hne He Hi Hf Hl Hp Hold Hdead. unfold replace_proxy, examine at 1. rewrite Hi, Hf, !well_call, Hl, (well_read _ _ old), !well_call, Hp by done. cbn [negb]. unfold record_maker in Hdead. cbn [fst snd] in Hdead. rewrite Hdead. cbv zeta. rewrite well_named by done. cbn [negb].
  destruct Hold as (j & g & Hj & _). rewrite (well_unlink _ _ i), (well_unlink _ _ j), well_call by (try done; cbn; by rewrite lookup_delete_ne). unfold examine, change. set (s2 := sm_make _ _ _).
  destruct (settle_succeeds name sidecar r (sm_next s) (tx_found_stale x) s2 bytes He) as (x' & Hx & Hst & Him).
  - left. cbn. rewrite lookup_insert_ne by done. apply lookup_delete_eq.
  - exists x'. split; [exact Hx|]. by rewrite Hst, andb_false_r.
Qed.
Lemma plan_owner name d owner encoded r : proxy_plan header_size slot_align data_offset device me probe name d owner = Ok (encoded, r) -> ownership_ok (pr_owner r) = true.
Proof.
  unfold proxy_plan. intros H. repeat (case_check; [done|]). destruct (ComputeChannelLayout _ _ _ _ _ _); [|done]. destruct (ParameterWireType d); [|done]. case_check; [done|]. destruct (probe _ _); try done. injection H as <- <-. by bool_to_prop.
Qed.
(** The record of the new proxy, for the Topic of an old one *)
Lemma successor_encodes old r i : planned device me r -> ownership_ok (pr_owner r) = true -> ValidRecord old = true -> same_topic old r -> 0 < i <= UINT64_MAX -> exists bytes, EncodeProxyRecord (with_inode device i r) = Ok bytes.
Proof.
  intros [_ Hw] Ho Hv (T1 & _ & T3 & T4 & T5 & T6 & T7) Hi. eexists. apply record_encodes; [apply Hw; unfold is_u64; lia|]. unfold ValidRecord in *. cbn [pr_owner pr_topic pr_type pr_size pr_alignment pr_layout pr_inode pr_length with_inode]. rewrite <- T1, <- T3, <- T4, <- T5, <- T6, <- T7, Ho.
  destruct (Z.eqb_spec i 0); [lia|]. destruct (Z.eqb_spec (pr_inode old) 0), (ownership_ok (pr_owner old)); cbn [negb andb] in *; rewrite ?andb_false_r in Hv; done.
Qed.
End Recover.

(** ** Theorems *)
Lemma held_readable s me p j : proxy_held s me p j -> readable_record s (im_sidecar p) (im_record p).
Proof. intros [_ H2 _ (g & Hg & G1 & G2 & G3 & G4 & _)]. by exists j, g. Qed.
Lemma held_proven device s me p j f r : proxy_held s me p j -> proxy_of device me p -> same_topic (im_record p) r -> sm_files s !! pr_inode (im_record p) = Some f -> proven device r (im_record p) (pr_inode (im_record p)) f = true.
Proof.
  intros [_ _ (g & Hg & G1 & G2 & G3 & _) _] [P1 _ _ _ P5] (T1 & T2 & T3 & T4 & T5 & T6 & T7) Hf. rewrite Hg in Hf. injection Hf as <-. unfold proven. rewrite G1, G2, G3, P5, <- T1, <- T3, <- T4, <- T5, <- T6, <- T7, T2, !bool_decide_eq_true_2, !Z.eqb_refl by done.
  cbn [andb]. unfold header_matches. cbn [hx_magic hx_format hx_initialized hx_depth hx_owner_pid hx_type_id hx_layout_id hx_size hx_alignment hx_reserved hx_reserved1 last_stores].
  rewrite <- T3, <- T4, <- T5, <- T6, !Z.eqb_refl. unfold record_maker in P1. rewrite <- P1. cbn [fst]. by rewrite Z.eqb_refl.
Qed.
Lemma held_names_differ s me p j : proxy_held s me p j -> im_name p <> im_sidecar p.
Proof. intros [H1 H2 (f & Hf & _ & _ & _ & _ & Hb) (g & Hg & _ & _ & _ & Hd & _)] E. rewrite E, H2 in H1. injection H1 as ->. rewrite Hf in Hg. injection Hg as <-. by rewrite Hb in Hd. Qed.
Lemma cleanup_own io me probe x s i f : shm_ok s -> sm_files s !! i = Some f ->
  let s' := (CleanupProxy io me probe x s).2 in sm_files s' !! i = Some f /\ forall n, sm_names s !! n = Some i -> sm_names s' !! n = Some i \/ exists p, tx_impl x = Some p /\ (i = pr_inode (im_record p) \/ DecodeProxyRecord (ff_bytes f) = Ok (im_record p)).
Proof.
  intros Hs Hf s'. unfold s'. destruct (tx_impl x) as [p|] eqn:Ex; [|unfold CleanupProxy; rewrite Ex; auto]. set (live := match ff_maker f with Some who => {[who.1 := who.2]} | None => ∅ end : gmap Z Z).
  destruct (cleanup_safe io me probe live x p s Ex Hs) as [[_ J2 J3 _] _]. split; [by destruct (J2 i f Hf) as (f' & Hf' & _ & [->|[]])|]. intros n Hn. destruct (J3 n i f Hn Hf) as [?|[[?|(g & Hg & Hd)]|(who & Hm & Hwho)]]; [by left|right; eauto|right; exists p|].
  - split; [done|]. right. congruence.
  - exfalso. apply Hwho. unfold live. rewrite Hm. apply lookup_singleton_eq.
Qed.
Section Theorems.
Context (header_size slot_align data_offset device : Z) (Hdevice : is_u64 device).
(** [s]: what a [Cleanup] may have left of [old] *)
Lemma create_recovers me p j old s me' live' probe name d owner encoded r written :
  proxy_held old me p j -> proxy_of device me p -> shm_ok s -> sm_files s = sm_files old -> sm_next s < UINT64_MAX ->
  (sm_names s = sm_names old \/ sm_names s = delete (im_name p) (sm_names old) \/ sm_names s = delete (im_sidecar p) (delete (im_name p) (sm_names old))) ->
  (forall f, sm_files s !! pr_inode (im_record p) = Some f -> ff_locked f = false) -> honest_probe live' probe -> live' !! me'.1 = Some me'.2 -> probe me.1 me.2 = DEAD -> wf_request name d owner ->
  proxy_plan header_size slot_align data_offset device me' probe name d owner = Ok (encoded, r) -> same_topic (im_record p) r ->
  exists x, (CreateProxy header_size slot_align data_offset device all_well written me' probe name d owner no_proxy s).1 = Some (0, x) /\ tx_state x = (if bool_decide (sm_names s !! im_sidecar p = None) then CREATED else RECOVERED) /\ im_name <$> tx_impl x = Some (im_name p).
Proof.
  intros Hh Hpo Hs Hfiles Hn Hshape Hlock Hprobe Hlive Hdead Hq Hplan Hsame. destruct (plan_planned header_size slot_align data_offset device me' probe live' Hprobe name d owner encoded r Hlive Hdevice Hq Hplan) as (Hr & He & Ht).
  pose proof (plan_owner _ _ _ _ _ _ _ _ _ _ _ Hplan) as Hown. pose proof Hpo as [P1 P2 P3 P4 P5]. pose proof Hsame as [T1 Trest]. pose proof (held_names_differ _ _ _ _ Hh) as Hne.
  assert (Hname : im_name p = encoded) by (rewrite P3, He; by rewrite T1). assert (Hside : im_sidecar p = ProxySidecarName name) by (rewrite P4, T1; by rewrite Ht).
  pose proof (so_next s Hs) as Hpos. destruct (successor_encodes device me' (im_record p) r (sm_next s) Hr Hown P2 (conj T1 Trest) ltac:(lia)) as [bytes Hbytes].
  rewrite <- P1 in Hdead. unfold CreateProxy. cbn [tx_impl no_proxy]. rewrite Hplan, well_call, <- Hside, <- Hname. unfold examine.
  pose proof (he_name _ _ _ _ Hh) as Hi. pose proof (he_sidecar _ _ _ _ Hh) as Hj. destruct (held_readable _ _ _ _ Hh) as (j' & g & Hj' & Hg & Hrest).
  destruct Hshape as [Hsh|Hsh]; [rewrite Hsh, Hi|].
  - destruct (he_segment _ _ _ _ Hh) as (f & Hf & _). rewrite <- Hfiles in Hf. rewrite bool_decide_eq_false_2 by (rewrite Hj; done).
    eapply replace_succeeds; [done|done|by rewrite Hsh|done|by apply Hlock| |exists j', g; by rewrite Hsh, Hfiles|done]. eapply held_proven; [exact Hh|by constructor|by split|by rewrite <- Hfiles].
  - assert (Hgone : sm_names s !! im_name p = None) by (destruct Hsh as [->| ->]; [apply lookup_delete_eq|rewrite lookup_delete_ne by done; apply lookup_delete_eq]). rewrite Hgone, well_call. unfold change.
    assert (Hsc : sm_names (sm_make (im_name p) me' s) !! im_sidecar p = sm_names s !! im_sidecar p) by (cbn; by rewrite lookup_insert_ne).
    destruct (settle_succeeds device written me' probe (im_name p) (im_sidecar p) r (sm_next s) (tx_reset no_proxy) (sm_make (im_name p) me' s) bytes Hbytes) as (x & Hx & Hst & Him).
    + rewrite Hsc. destruct Hsh as [Hsh|Hsh]; rewrite Hsh; [right|left; apply lookup_delete_eq]. exists (im_record p). split; [|by split]. exists j', g. rewrite Hsc, Hsh, lookup_delete_ne by done. split; [done|]. split; [|done]. cbn. rewrite lookup_insert_ne; [by rewrite Hfiles|].
      rewrite <- Hfiles in Hg. destruct (so_files s Hs j' g Hg) as [? _]. lia.
    + exists x. split; [done|]. by rewrite Hst, Hsc, andb_true_r.
Qed.
Abbreviation world_step := (proxy_step header_size slot_align data_offset device).
(** C8: whatever the processes of a host do, and at whatever system call one of them dies, a proxy of a process that lives and that was not asked to clean up keeps its two names: the Topic's name still refers to the segment that it made, with the stores of its owner, and the name of the ownership record to the file that it made, which holds its record.  The steps of everyone else on the host are assumed ([other_step]) to write only to objects that are neither a proxy's segment nor an ownership record, and to remove only such objects or those whose maker is gone; they may make and lock any. *)
Theorem proxy_live_kept w k e p : rtc world_step empty_world w -> xw_proxies w !! k = Some e -> tx_impl (xe_proxy e) = Some p -> xe_closing e = false ->
  xw_live w !! (xe_who e).1 = Some (xe_who e).2 /\ proxy_of device (xe_who e) p /\ exists j, proxy_held (xw_shm w) (xe_who e) p j.
Proof.
  intros Hw%host_reachable_ok Hk Hp Hc; [|done]. split; [by eapply wo_live|]. destruct (wo_entries device w Hw k e p Hk Hp) as [E1 _ E3]. auto.
Qed.
(** C9: with [/proc] as the kernel writes it, [Create], with whatever system calls that fail or at which the process dies, removes no name of an object unless the process that made the object is gone, and changes no object that exists; [Cleanup] removes no names but those of its own segment and of the file with its own record, and changes no object. *)
Theorem proxy_removes_only_dead w k e stat esrch io written name d owner : rtc world_step empty_world w -> xw_proxies w !! k = Some e -> kernel_proc (xw_live w) stat esrch -> wf_request name d owner -> sm_next (xw_shm w) < UINT64_MAX ->
  let probe pid := ProbeProxyOwner (stat pid) (esrch pid) pid in
  let s1 := (CreateProxy header_size slot_align data_offset device io written (xe_who e) probe name d owner (xe_proxy e) (xw_shm w)).2 in
  let s2 := (CleanupProxy io (xe_who e) probe (xe_proxy e) (xw_shm w)).2 in
  forall i f, sm_files (xw_shm w) !! i = Some f ->
    sm_files s1 !! i = Some f /\ sm_files s2 !! i = Some f /\
    forall n, sm_names (xw_shm w) !! n = Some i ->
      (sm_names s1 !! n = Some i \/ exists who, ff_maker f = Some who /\ xw_live w !! who.1 <> Some who.2) /\
      (sm_names s2 !! n = Some i \/ exists p, tx_impl (xe_proxy e) = Some p /\ (i = pr_inode (im_record p) \/ DecodeProxyRecord (ff_bytes f) = Ok (im_record p))).
Proof.
  intros Hw%host_reachable_ok Hk Hpr Hq Hn probe s1 s2 i f Hf; [|done]. pose proof (wo_shm device w Hw) as Hs. pose proof (wo_live device w Hw k e Hk) as Hl. pose proof (probe_honest _ _ _ Hpr) as Hh. destruct (so_files _ Hs i f Hf) as [Hi _].
  assert (J1 : justified (new_inode (sm_next (xw_shm w))) (new_inode (sm_next (xw_shm w))) (xw_live w) (xw_shm w) s1).
  { unfold s1. destruct (tx_impl (xe_proxy e)) as [p|] eqn:Ex; [unfold CreateProxy; rewrite Ex; by apply justified_refl|]. eapply create_safe; [exact Hh|done|done|done|done|lia|done]. }
  destruct (cleanup_own io (xe_who e) probe (xe_proxy e) (xw_shm w) i f Hs Hf) as [C1 C2]. split; [|split; [done|intros n Hname; split; [|by apply C2]]].
  - destruct (ju_files _ _ _ _ _ J1 i f Hf) as (f' & Hf' & _ & [->|?]); [done|unfold new_inode in *; lia].
  - destruct (ju_names _ _ _ _ _ J1 n i f Hname Hf) as [?|[?|?]]; [by left|unfold new_inode in *; lia|by right].
Qed.
(** C10: a process that dies anywhere in [Cleanup], or before it (which is to die at its first call), or whose [Cleanup] fails anywhere, leaves what another process takes over: once [/proc] shows that the owner is gone, and nobody holds the lock of the segment, a [Create] of another process for the same Topic and type, whose own calls succeed, returns 0, with the Topic's name on its new segment and its record beside it; its state says [RECOVERED] if the record of the old owner was still there and [CREATED] if not. *)
Theorem proxy_crash_recovers w k e p io probe me live stat esrch name d owner encoded r written :
  rtc world_step empty_world w -> xw_proxies w !! k = Some e -> tx_impl (xe_proxy e) = Some p -> xe_closing e = false ->
  sm_next (xw_shm w) < UINT64_MAX -> (forall f, sm_files (xw_shm w) !! pr_inode (im_record p) = Some f -> ff_locked f = false) ->
  kernel_proc live stat esrch -> live !! me.1 = Some me.2 -> ProbeProxyOwner (stat (xe_who e).1) (esrch (xe_who e).1) (xe_who e).1 (xe_who e).2 = DEAD -> wf_request name d owner ->
  let probe' pid := ProbeProxyOwner (stat pid) (esrch pid) pid in
  proxy_plan header_size slot_align data_offset device me probe' name d owner = Ok (encoded, r) -> same_topic (im_record p) r ->
  let s := (CleanupProxy io (xe_who e) probe (xe_proxy e) (xw_shm w)).2 in
  exists x p' j s', CreateProxy header_size slot_align data_offset device all_well written me probe' name d owner no_proxy s = (Some (0, x), s') /\
    tx_state x = (if bool_decide (sm_names s !! im_sidecar p = None) then CREATED else RECOVERED) /\ tx_impl x = Some p' /\ im_name p' = im_name p /\ proxy_of device me p' /\ proxy_held s' me p' j.
Proof.
  intros Hw%host_reachable_ok Hk Hp Hc Hn Hlock Hpr Hl Hdead Hq probe' Hplan Hsame s; [|done]. pose proof (wo_shm device w Hw) as Hs0. pose proof (probe_honest _ _ _ Hpr) as Hh. destruct (wo_entries device w Hw k e p Hk Hp) as [E1 _ E3]. destruct (E3 Hc) as [j Hheld].
  destruct (cleanup_safe io (xe_who e) probe live (xe_proxy e) p (xw_shm w) Hp Hs0) as [[Hs _ _ _] _]. fold s in Hs. pose proof (cleanup_shapes io (xe_who e) probe (xe_proxy e) p (xw_shm w) Hp) as Hshape. unfold leaves in Hshape. fold s in Hshape.
  assert (Hfn : sm_files s = sm_files (xw_shm w) /\ sm_next s = sm_next (xw_shm w)) by by destruct Hshape as [->|[->| ->]]. destruct Hfn as [Hfiles Hnext].
  destruct (create_recovers (xe_who e) p j (xw_shm w) s me live probe' name d owner encoded r written) as (x & Hx & Hst & Him); try done; [lia|destruct Hshape as [->|[->| ->]]; auto|by rewrite Hfiles|].
  destruct (create_safe header_size slot_align data_offset device all_well written me probe' live Hh (sm_next s) name d owner no_proxy s) as [_ Q]; try done; [lia|].
  specialize (Q _ Hx). destruct Q as [[? _]|(p' & j' & _ & Hx' & _ & Hh' & Hpo' & _)]; [done|]. exists x, p', j', (CreateProxy header_size slot_align data_offset device all_well written me probe' name d owner no_proxy s).2.
  split; [rewrite <- Hx; apply surjective_pairing|]. split; [done|]. split; [done|]. split; [|done]. rewrite Hx' in Him. by injection Him.
Qed.
End Theorems.

(** ** Concrete runs *)
Definition sample_owner (pid ticks : Z) : ProxyOwnership :=
  {| po_proxy := {| ep_runtime := {| rt_host := sample_host 1; rt_boot_id := sample_host 2; rt_pid := pid; rt_process_start_ticks := ticks |}; ep_registration_id := 2 ^ 61 + 1 |};
     po_source := sample_endpoint 5; po_gateway_session := 3; po_source_session := 4 |}.
(** ["7 (g) 0 ... 0 7 0"] *)
Definition sample_stat (ticks : Z) : list Z := [55; 32; 40; 103] ++ CLOSE_PAREN :: concat ((fun f => 32 :: f) <$> repeat [48] 19) ++ 32 :: [48 + ticks] ++ [32; 48].
Definition sample_proc (pid0 ticks pid : Z) : Z + list Z := if pid =? pid0 then inr (sample_stat ticks) else inl ENOENT.
Definition sample_probe (pid0 ticks pid : Z) : Z -> OwnerLiveness := ProbeProxyOwner (sample_proc pid0 ticks pid) (negb (pid =? pid0)) pid.
Lemma sample_proc_kernel pid0 ticks : 0 <= ticks < 10 -> kernel_proc {[pid0 := ticks]} (sample_proc pid0 ticks) (fun pid => negb (pid =? pid0)).
Proof.
  intros Ht. constructor; intros pid; unfold sample_proc; destruct (Z.eqb_spec pid pid0) as [->|Hne]; cbn; try done.
  - intros text H. apply (inj inr) in H as <-. exists ticks. split; [apply lookup_singleton_eq|]. exists [55; 32; 40; 103], (repeat [48] 19), [48 + ticks], [48]. split; [done|]. split; [done|].
    split; [by repeat constructor|]. split; [by vm_compute; intuition|]. split; [by vm_compute; intuition|]. unfold digits_number. cbn -[Z.leb Z.add Z.sub Z.mul Z.ltb]. unfold stat_digit.
    destruct (Z.leb_spec 48 (48 + ticks)); [|lia]. destruct (Z.leb_spec (48 + ticks) 57); [|lia]. cbn -[Z.add Z.sub Z.mul Z.ltb]. destruct (Z.ltb_spec UINT64_MAX (0 * 10 + (48 + ticks - 48))); [unfold_widths; lia|]. f_equal. lia.
  - intros _. by apply lookup_singleton_ne.
Qed.
Lemma sample_request_wf pid ticks : is_i32 pid -> is_u64 ticks -> wf_request sample_name sample_descriptor (sample_owner pid ticks).
Proof.
  intros Hp Ht. assert (Hhost : forall n, is_u8 n -> wf_host (sample_host n)) by (intros n Hn; split; [done|]; constructor; [done|]; apply Forall_forall; intros ? ->%list_elem_of_In%repeat_spec; unfold_widths; lia).
  assert (Hw : forall n m pid ticks id, is_u8 n -> is_u8 m -> is_i32 pid -> is_u64 ticks -> is_u64 id -> wf_endpoint {| ep_runtime := {| rt_host := sample_host n; rt_boot_id := sample_host m; rt_pid := pid; rt_process_start_ticks := ticks |}; ep_registration_id := id |}).
  { intros. split; [|done]. split; [by apply Hhost|]. split; [by apply Hhost|]. done. }
  constructor; [repeat constructor; unfold_widths; lia|apply sample_wf|apply Hw; try done; unfold_widths; lia|apply Hw; unfold_widths; lia|split; unfold_widths; cbn; lia].
Qed.
Definition sample_created (w : ProxyWorld) (k : nat) (me : Z * Z) (io : Site -> CallResult) : ProxyWorld :=
  xw_return w k me false (CreateProxy 256 8 16 1 io 0 me (sample_probe me.1 me.2) sample_name sample_descriptor (sample_owner me.1 me.2) no_proxy (xw_shm w)).
Definition sample_opened : ProxyWorld := xw_put 0 {| xe_who := (100, 7); xe_proxy := no_proxy; xe_closing := false |} (xw_spawn 100 7 empty_world).
Definition sample_host_world : ProxyWorld := sample_created sample_opened 0 (100, 7) all_well.
Definition sample_entry : ProxyEntry := default {| xe_who := (0, 0); xe_proxy := no_proxy; xe_closing := true |} (xw_proxies sample_host_world !! 0%nat).
Definition sample_proxy : ProxyImpl := default {| im_name := []; im_sidecar := []; im_record := {| pr_owner := sample_owner 0 0; pr_topic := []; pr_type := sample_type; pr_size := 0; pr_alignment := 0; pr_layout := 0; pr_device := 0; pr_inode := 0; pr_length := 0 |} |} (tx_impl (xe_proxy sample_entry)).
Lemma sample_facts : xw_proxies sample_host_world !! 0%nat = Some sample_entry /\ tx_impl (xe_proxy sample_entry) = Some sample_proxy /\ xe_closing sample_entry = false /\ xe_who sample_entry = (100, 7).
Proof. split_and!; vm_compute; reflexivity. Qed.
Lemma sample_host_reachable : rtc (proxy_step 256 8 16 1) empty_world sample_host_world.
Proof.
  eapply rtc_l; [apply (px_spawn 256 8 16 1 empty_world 100 7); reflexivity|]. eapply rtc_l; [apply (px_open 256 8 16 1 _ 0%nat (100, 7)); reflexivity|].
  eapply rtc_l; [|apply rtc_refl]. apply (px_create 256 8 16 1 sample_opened 0%nat (100, 7) no_proxy false all_well 0 (sample_proc 100 7) (fun pid => negb (pid =? 100)) sample_name sample_descriptor (sample_owner 100 7)); [reflexivity|by apply (sample_proc_kernel 100 7)|apply sample_request_wf; unfold_widths; lia|reflexivity].
Qed.
Lemma proxy_live_kept_witness : exists j, proxy_held (xw_shm sample_host_world) (100, 7) sample_proxy j.
Proof.
  destruct sample_facts as (H1 & H2 & H3 & H4). destruct (proxy_live_kept 256 8 16 1 ltac:(by split) sample_host_world 0%nat sample_entry sample_proxy sample_host_reachable H1 H2 H3) as (_ & _ & j & Hj). rewrite H4 in Hj. by exists j.
Defined.
(** The first process is gone: the second takes over the name. *)
Definition sample_second : ProxyWorld := xw_put 1 {| xe_who := (200, 9); xe_proxy := no_proxy; xe_closing := false |} (xw_spawn 200 9 (xw_exit 100 sample_host_world)).
Lemma sample_second_reachable : rtc (proxy_step 256 8 16 1) empty_world sample_second.
Proof.
  etrans; [apply sample_host_reachable|]. eapply rtc_l; [apply (px_exit 256 8 16 1 _ 100)|]. eapply rtc_l; [apply (px_spawn 256 8 16 1 _ 200 9); vm_compute; reflexivity|]. eapply rtc_l; [apply (px_open 256 8 16 1 _ 1%nat (200, 9)); vm_compute; reflexivity|apply rtc_refl].
Qed.
Lemma sample_second_live : xw_live sample_second = {[200 := 9]}.
Proof. vm_compute. reflexivity. Qed.
Lemma sample_second_facts : xw_proxies sample_second !! 1%nat = Some {| xe_who := (200, 9); xe_proxy := no_proxy; xe_closing := false |} /\ sm_next (xw_shm sample_second) < UINT64_MAX /\ sm_names (xw_shm sample_second) !! im_name sample_proxy = Some 1.
Proof. split_and!; vm_compute; reflexivity. Qed.
Lemma proxy_removes_only_dead_witness :
  let s := (CreateProxy 256 8 16 1 all_well 0 (200, 9) (sample_probe 200 9) sample_name sample_descriptor (sample_owner 200 9) no_proxy (xw_shm sample_second)).2 in
  sm_names s !! im_name sample_proxy = Some 3 /\ exists f, sm_files (xw_shm sample_second) !! 1 = Some f /\ sm_files s !! 1 = Some f /\
    (sm_names s !! im_name sample_proxy = Some 1 \/ exists who, ff_maker f = Some who /\ xw_live sample_second !! who.1 <> Some who.2).
Proof.
  cbv zeta. split; [vm_compute; reflexivity|]. destruct sample_second_facts as (Hk & Hn & Hname). destruct (so_names _ (wo_shm 1 _ (host_reachable_ok 256 8 16 1 ltac:(by split) _ sample_second_reachable)) _ _ Hname) as [f Hf]. exists f. split; [exact Hf|].
  assert (Hl : kernel_proc (xw_live sample_second) (sample_proc 200 9) (fun pid => negb (pid =? 200))) by (rewrite sample_second_live; apply sample_proc_kernel; lia).
  assert (Hq : wf_request sample_name sample_descriptor (sample_owner 200 9)) by (apply sample_request_wf; unfold_widths; lia).
  pose proof (proxy_removes_only_dead 256 8 16 1 ltac:(by split) sample_second 1%nat _ _ _ all_well 0 _ _ _ sample_second_reachable Hk Hl Hq Hn 1 f Hf) as (H1 & _ & H2). destruct (H2 _ Hname) as [H3 _].
  split; [exact H1|exact H3].
Defined.
(** The first process dies in [Cleanup], after the name of the segment and before that of the record is removed. *)
Lemma proxy_crash_recovers_witness :
  let dies site := match site with UnlinkOwnRecord => Dies | _ => Succeeds end in
  let s := (CleanupProxy dies (100, 7) (sample_probe 100 7) (xe_proxy sample_entry) (xw_shm sample_host_world)).2 in
  exists x p' j s', CreateProxy 256 8 16 1 all_well 0 (200, 9) (sample_probe 200 9) sample_name sample_descriptor (sample_owner 200 9) no_proxy s = (Some (0, x), s') /\ tx_state x = RECOVERED /\ tx_impl x = Some p' /\ proxy_held s' (200, 9) p' j.
Proof.
  intros dies s. destruct sample_facts as (H1 & H2 & H3 & H4). set (plan := proxy_plan 256 8 16 1 (200, 9) (sample_probe 200 9) sample_name sample_descriptor (sample_owner 200 9)). destruct plan as [[encoded r]|] eqn:Hplan; [|vm_compute in Hplan; discriminate Hplan].
  destruct (proxy_crash_recovers 256 8 16 1 ltac:(by split) sample_host_world 0%nat sample_entry sample_proxy dies (sample_probe 100 7) (200, 9) {[200 := 9]} (sample_proc 200 9) (fun pid => negb (pid =? 200)) sample_name sample_descriptor (sample_owner 200 9) encoded r 0 sample_host_reachable H1 H2 H3)
    as (x & p' & j & s' & Hc & Hst & Hx & _ & _ & Hh).
  - vm_compute. reflexivity.
  - intros f Hf. vm_compute in Hf. apply (inj Some) in Hf as <-. reflexivity.
  - apply sample_proc_kernel. lia.
  - apply lookup_singleton_eq.
  - vm_compute. reflexivity.
  - apply sample_request_wf; unfold_widths; lia.
  - exact Hplan.
  - vm_compute in Hplan. apply result_ok_inj in Hplan. injection Hplan as <- <-. repeat split; vm_compute; reflexivity.
  - exists x, p', j, s'. rewrite H4 in *. split; [exact Hc|]. split; [|exact (conj Hx Hh)]. rewrite Hst. vm_compute. reflexivity.
Defined.
