(* ===== verification/ProxyPublish.v ===== *)
(** * What a Topic proxy publishes

    [TopicProxy::Publish] of [kcf/src/network/topic_proxy.cpp]: one writer, three slots, readers
    that pin slots at any time.  What each attempt to take a slot meets ([pins]) and what the
    mutex and the condition variable answer are arguments of the call. *)
From stdpp Require Import list.
From S2P Require Import Prelude TypeDescriptor ParameterCodec.

Record PublishSlot := { ps_version : Z; ps_sequence : Z; ps_data : list Z }.
Record PublishHeader := { ph_publish_sequence : Z; ph_notify_sequence : Z; ph_slots : list PublishSlot }.
(** What the calls of a [Publish] answer *)
Record PublishAnswers := {
  pa_same_object : bool;  (** [Validate]: the name still refers to the mapped object *)
  pa_trylock : Z;
  pa_consistent : Z;
  pa_pins : nat -> Z;  (** the users of a slot when it is tried *)
  pa_broadcast : Z
}.
Definition proxy_filled (previous : Z) (bytes : list Z) (slot : PublishSlot) : PublishSlot :=
  {| ps_version := u32 (u32 (ps_version slot + 1) + 1); ps_sequence := previous + 1; ps_data := bytes |}.
(** The loop over the slots, from [i] on *)
Fixpoint fill_slot (a : PublishAnswers) (previous : Z) (bytes : list Z) (i : nat) (slots : list PublishSlot) : result (list PublishSlot) :=
  match slots with
  | [] => Err (- EAGAIN)
  | slot :: rest =>
      let next := match fill_slot a previous bytes (S i) rest with Ok rest => Ok (slot :: rest) | Err code => Err code end in
      if negb (pa_pins a i =? 0) then next
      else if negb (previous =? 0) && (ps_sequence slot =? previous) then next
      else if negb (pa_broadcast a =? 0) then Err (- pa_broadcast a)
      else Ok (proxy_filled previous bytes slot :: rest)
  end.
(** After the lock *)
Definition publish_locked (a : PublishAnswers) (bytes : list Z) (h : PublishHeader) : Z * PublishHeader :=
  let previous := ph_publish_sequence h in
  if previous =? UINT64_MAX then (- EOVERFLOW, h)
  else match fill_slot a previous bytes 0 (ph_slots h) with
  | Err code => (code, h)
  | Ok slots => (0, {| ph_publish_sequence := previous + 1; ph_notify_sequence := previous + 1; ph_slots := slots |})
  end.
(** [descriptor]: that of the proxy, once it is created; the mutex is free again after every return. *)
Definition PublishProxy (descriptor : option TypeDescriptor) (value : DynamicPayload) (a : PublishAnswers) (h : PublishHeader) : Z * PublishHeader :=
  match descriptor with
  | None => (- EBADF, h)
  | Some d =>
      if negb (dp_type_id value =? td_type_id d) || negb (vsize (dp_bytes value) =? td_payload_size d) then (- EPROTOTYPE, h)
      else if negb (pa_same_object a) then (- ESTALE, h)
      else
      let repaired := {| ph_publish_sequence := ph_publish_sequence h; ph_notify_sequence := ph_publish_sequence h; ph_slots := ph_slots h |} in
      let code := if pa_trylock a =? EOWNERDEAD then pa_consistent a else pa_trylock a in
      let h := if pa_trylock a =? EOWNERDEAD then repaired else h in
      if negb (code =? 0) then (if code =? EBUSY then - EAGAIN else - code, h)
      else publish_locked a (dp_bytes value) h
  end.

(** A slot that takes the value: nobody uses it, and it does not hold the latest. *)
Definition takes (a : PublishAnswers) (previous : Z) (slots : list PublishSlot) (i : nat) (slot : PublishSlot) : Prop :=
  slots !! i = Some slot /\ pa_pins a i = 0 /\ (previous <> 0 -> ps_sequence slot <> previous).
Lemma fill_slot_spec a previous bytes slots : forall i,
  match fill_slot a previous bytes i slots with
  | Ok slots' => pa_broadcast a = 0 /\ exists k slot, slots !! k = Some slot /\ pa_pins a (i + k)%nat = 0 /\ (previous <> 0 -> ps_sequence slot <> previous) /\ slots' = <[k := proxy_filled previous bytes slot]> slots
  | Err code => (code = - EAGAIN /\ forall k slot, slots !! k = Some slot -> pa_pins a (i + k)%nat = 0 -> previous <> 0 /\ ps_sequence slot = previous) \/ (code = - pa_broadcast a /\ pa_broadcast a <> 0)
  end.
Proof.
  induction slots as [|slot slots IH]; intros i; cbn [fill_slot]; [left; split; done|].
  assert (Hskip : (pa_pins a i = 0 -> previous <> 0 /\ ps_sequence slot = previous) ->
    match match fill_slot a previous bytes (S i) slots with Ok rest => Ok (slot :: rest) | Err code => Err code end with
    | Ok slots' => pa_broadcast a = 0 /\ exists k s, (slot :: slots) !! k = Some s /\ pa_pins a (i + k)%nat = 0 /\ (previous <> 0 -> ps_sequence s <> previous) /\ slots' = <[k := proxy_filled previous bytes s]> (slot :: slots)
    | Err code => (code = - EAGAIN /\ forall k s, (slot :: slots) !! k = Some s -> pa_pins a (i + k)%nat = 0 -> previous <> 0 /\ ps_sequence s = previous) \/ (code = - pa_broadcast a /\ pa_broadcast a <> 0)
    end).
  { intros Hs. specialize (IH (S i)). destruct (fill_slot a previous bytes (S i) slots) as [rest|code].
    - destruct IH as (Hb & k & s & Hk & Hp & Hl & ->). split; [done|]. exists (S k), s. rewrite <- plus_n_Sm. done.
    - destruct IH as [[-> IH]|IH]; [left; split; [done|]|by right]. intros [|k] s Hk Hp; [injection Hk as <-; rewrite Nat.add_0_r in Hp; by apply Hs|]. rewrite <- plus_n_Sm in Hp. by apply (IH k). }
  destruct (Z.eqb_spec (pa_pins a i) 0) as [Hp|Hp]; cbn [negb]; [|by apply Hskip].
  destruct (Z.eqb_spec previous 0) as [H0|H0], (Z.eqb_spec (ps_sequence slot) previous) as [Hs|Hs]; cbn [negb andb]; try (by apply Hskip).
  all: destruct (Z.eqb_spec (pa_broadcast a) 0) as [Hb|Hb]; cbn [negb]; [split; [done|]; exists 0%nat, slot; rewrite Nat.add_0_r; done|by right].
Qed.
Definition proxy_published (a : PublishAnswers) (bytes : list Z) (h h' : PublishHeader) : Prop :=
  ph_publish_sequence h < UINT64_MAX /\ ph_publish_sequence h' = ph_publish_sequence h + 1 /\ ph_notify_sequence h' = ph_publish_sequence h + 1 /\
  exists i slot, takes a (ph_publish_sequence h) (ph_slots h) i slot /\ ph_slots h' = <[i := proxy_filled (ph_publish_sequence h) bytes slot]> (ph_slots h).
Lemma publish_locked_exact a bytes h : ph_publish_sequence h <= UINT64_MAX -> 0 <= pa_broadcast a ->
  let out := publish_locked a bytes h in (out.1 = 0 /\ proxy_published a bytes h out.2) \/
    (out.1 < 0 /\ out.2 = h /\ (ph_publish_sequence h < UINT64_MAX -> pa_broadcast a = 0 -> forall i slot, ~ takes a (ph_publish_sequence h) (ph_slots h) i slot)).
Proof.
  intros Hseq Hb. unfold publish_locked. destruct (Z.eqb_spec (ph_publish_sequence h) UINT64_MAX) as [E|E]; [right; cbn; split; [done|]; split; [done|lia]|].
  pose proof (fill_slot_spec a (ph_publish_sequence h) bytes (ph_slots h) 0) as H. destruct (fill_slot _ _ _ _ _) as [slots|code]; cbn [fst snd].
  - left. split; [done|]. destruct H as (_ & k & slot & Hk & Hp & Hl & ->). split; [lia|]. split; [done|]. split; [done|]. by exists k, slot.
  - right. split; [destruct H as [[-> _]|[-> ?]]; [done|lia]|]. split; [done|]. intros _ Hb0 i slot (Hi & Hp & Hl). destruct H as [[_ H]|[_ ?]]; [|done]. destruct (H i slot Hi Hp) as [H1 H2]. by apply Hl.
Qed.
(** A call that returns 0 has put the value into one slot that nobody used and that did not hold the latest value, under the next sequence number; every other call returns an error and leaves the slots and the sequence as they were. *)
Lemma publish_proxy_exact descriptor value a h : ph_publish_sequence h <= UINT64_MAX -> 0 <= pa_broadcast a -> 0 <= pa_trylock a -> 0 <= pa_consistent a ->
  let out := PublishProxy descriptor value a h in
  (out.1 = 0 /\ proxy_published a (dp_bytes value) h out.2) \/ (out.1 < 0 /\ ph_publish_sequence out.2 = ph_publish_sequence h /\ ph_slots out.2 = ph_slots h).
Proof.
  intros Hseq Hb Hl Hc. unfold PublishProxy. destruct descriptor as [d|]; [|by right]. case_check; [by right|]. case_check; [by right|]. cbv zeta. set (code := if pa_trylock a =? EOWNERDEAD then pa_consistent a else pa_trylock a). match goal with |- context [publish_locked a _ ?x] => set (h1 := x) end.
  assert (Hcode : 0 <= code) by (unfold code; by case_check). assert (Hh : ph_publish_sequence h1 = ph_publish_sequence h /\ ph_slots h1 = ph_slots h) by (unfold h1; by case_check). destruct Hh as [Hs1 Hs2].
  destruct (Z.eqb_spec code 0) as [E|E]; cbn [negb].
  - unfold proxy_published. rewrite <- Hs1, <- Hs2. destruct (publish_locked_exact a (dp_bytes value) h1) as [H|(H1 & H2 & _)]; [lia|done|by left|right; by rewrite H2].
  - right. cbn [fst snd]. split; [|done]. case_check; [done|lia].
Qed.
(** If the mutex is free or was left by a dead owner, and there is such a slot, the call publishes. *)
Lemma publish_proxy_progress d value a h i slot : dp_type_id value = td_type_id d -> vsize (dp_bytes value) = td_payload_size d -> pa_same_object a = true -> pa_trylock a = 0 \/ (pa_trylock a = EOWNERDEAD /\ pa_consistent a = 0) -> pa_broadcast a = 0 ->
  ph_publish_sequence h < UINT64_MAX -> takes a (ph_publish_sequence h) (ph_slots h) i slot -> (PublishProxy (Some d) value a h).1 = 0.
Proof.
  intros H1 H2 H3 H4 H5 H6 H7. unfold PublishProxy. rewrite H1, H2, H3, !Z.eqb_refl. cbn [negb orb]. cbv zeta.
  destruct H4 as [H4|[H4 H4']]; rewrite H4; [change (0 =? EOWNERDEAD) with false|rewrite Z.eqb_refl, H4']; cbn [negb Z.eqb].
  - destruct (publish_locked_exact a (dp_bytes value) h) as [[? _]|(_ & _ & H)]; [lia|lia|done|]. by destruct (H ltac:(lia) H5 i slot).
  - match goal with |- (publish_locked a _ ?h1).1 = 0 => destruct (publish_locked_exact a (dp_bytes value) h1) as [[? _]|(_ & _ & H)] end; [cbn; lia|lia|done|]. by destruct (H ltac:(cbn; lia) H5 i slot).
Qed.
