(* ===== verification/LocalMetadata.v ===== *)
(** * Local endpoints and what of them is exposed

    [kcf/src/network/local_metadata.cpp]: the policy by which Topics are exposed to other hosts,
    and [CollectLocalMetadata], which turns the registrations of the processes of this host into
    the endpoint metadata that the discovery announces.  The registrations come from
    [IntrospectionClient], whose answers are the argument [Introspection].  Strings are lists of
    bytes; a [char] array is the bytes before its NUL.

    [topic_exposure_exact]: the policy is the one on path segments that its documentation
    describes.  [collected_metadata_sound]: what is announced is valid, of the registered types,
    remote only as configured, and has distinct identities. *)
From S2P Require Import Prelude Wire NetTypes Compatibility DiscoveryProtocol TypeDescriptor ParameterCodec.

(** ** The exposure of Topics *)
Definition CanonicalPrefix (p : list Z) : list Z := if (1 <? vsize p) && (List.last p 0 =? SLASH) then removelast p else p.
Fixpoint double_slash (p : list Z) : bool :=
  match p with
  | a :: (b :: _) as r => ((a =? SLASH) && (b =? SLASH)) || double_slash r
  | _ => false
  end.
(** [" *?[]\\"] *)
Definition glob_character (c : Z) : bool := (c =? 32) || (c =? 42) || (c =? 63) || (c =? 91) || (c =? 93) || (c =? 92).
(** The characters up to the next slash, and what follows it. *)
Fixpoint next_part (l : list Z) : list Z * option (list Z) :=
  match l with
  | [] => ([], None)
  | c :: r => if c =? SLASH then ([], Some r) else let (part, rest) := next_part r in (c :: part, rest)
  end.
Definition good_part (part : list Z) : bool := negb (part =?? []) && negb (part =?? [46]) && negb (part =?? [46; 46]).
Fixpoint good_parts (fuel : nat) (l : list Z) : bool :=
  match fuel with
  | O => false
  | S fuel =>
      if l =?? [] then false
      else let (part, rest) := next_part l in
           if negb (good_part part) then false else match rest with None => true | Some rest => good_parts fuel rest end
  end.
Definition PrefixValid (p : list Z) : bool :=
  if negb (Text p 240) || negb (first_char p =? SLASH) || double_slash p || existsb glob_character p then false
  else
    let view := CanonicalPrefix p in
    if view =?? [SLASH] then true else good_parts (S (length view)) (drop 1 view).
Definition Matches (name prefix : list Z) : bool :=
  let p := CanonicalPrefix prefix in
  (p =?? [SLASH]) || ((take (length p) name =?? p) && ((vsize name =? vsize p) || (nth (length p) name 0 =? SLASH))).

Record TopicExposurePolicy := { xp_enabled : bool; xp_allow_prefixes : list (list Z); xp_exclude_prefixes : list (list Z) }.
Record MetadataConfig := {
  mc_remote_topics : list (list Z); mc_remote_actions : list (list Z); mc_host : HostIdentity; mc_boot_id : HostIdentity;
  mc_remote_services : list (list Z); mc_remote_parameters : list (list Z); mc_groups : list (list Z); mc_runtime_pids : list Z;
  mc_topic_exposure : TopicExposurePolicy
}.
Definition has_name (l : list (list Z)) (name : list Z) : bool := existsb (fun n => n =?? name) l.
Definition TopicScope (c : MetadataConfig) (name : list Z) (role : Z) : Z :=
  let policy := mc_topic_exposure c in
  let allowed := has_name (mc_remote_topics c) name in
  let scope := fun allowed : bool => if allowed then NetworkScope.REMOTE else NetworkScope.LOCAL in
  if xp_enabled policy && (role =? EndpointRole.PROVIDER) then
    if existsb (Matches name) (xp_exclude_prefixes policy) then NetworkScope.LOCAL
    else scope (allowed || existsb (Matches name) (xp_allow_prefixes policy))
  else scope allowed.
(** The rules of one list, each against the earlier ones. *)
Fixpoint check_rules (earlier rules : list (list Z)) : Z :=
  match rules with
  | [] => 0
  | p :: rest => if negb (PrefixValid p) then - EINVAL
                 else if existsb (fun q => CanonicalPrefix p =?? CanonicalPrefix q) earlier then - EEXIST
                 else check_rules (earlier ++ [p]) rest
  end.
Definition check_list (rules : list (list Z)) : Z := if 64 <? Z.of_nat (length rules) then - E2BIG else check_rules [] rules.
Definition ValidateTopicExposurePolicy (policy : TopicExposurePolicy) : Z :=
  let code := check_list (xp_allow_prefixes policy) in
  if negb (code =? 0) then code else check_list (xp_exclude_prefixes policy).
Definition EvaluateTopicExposure (config : MetadataConfig) (name : list Z) (role : Z) : result Z :=
  let code := ValidateTopicExposurePolicy (mc_topic_exposure config) in
  if negb (code =? 0) then Err code
  else if negb (Text name 240) || negb (first_char name =? SLASH) || (negb (role =? EndpointRole.PROVIDER) && negb (role =? EndpointRole.CONSUMER)) then Err (- EINVAL)
  else Ok (TopicScope config name role).

(** ** Registrations *)
Module ProcessStates.
Definition STARTING := 1.
Definition RUNNING := 2.
End ProcessStates.
Module RegisteredKind.
Definition TOPIC := 1.
Definition PARAMETER := 2.
End RegisteredKind.
Module RegisteredRole.
Definition PUBLISHER := 1.
Definition SUBSCRIBER := 2.
Definition PARAMETER_OWNER := 3.
Definition PARAMETER_CLIENT := 4.
End RegisteredRole.
Record RuntimeInfo := { ri_pid : Z; ri_process_start_ticks : Z; ri_state : Z; ri_executable : list Z }.
Record EndpointInfo := { ei_registration_id : Z; ei_kind : Z; ei_role : Z; ei_payload_size : Z; ei_type_id : Z; ei_name : list Z }.
Record ServiceInfo := {
  si_registration_id : Z; si_name : list Z; si_port : Z; si_service_id : Z; si_request_size : Z; si_response_size : Z;
  si_request_type_id : Z; si_response_type_id : Z
}.
Record ActionEndpointIds := { ai_goal_service_id : Z; ai_cancel_service_id : Z; ai_result_service_id : Z }.
Record ActionInfo := {
  an_registration_id : Z; an_name : list Z; an_port : Z; an_ids : ActionEndpointIds; an_goal_type_id : Z; an_feedback_type_id : Z; an_result_type_id : Z;
  an_goal_request_size : Z; an_goal_offset : Z; an_status_size : Z; an_feedback_offset : Z; an_result_response_size : Z; an_result_offset : Z
}.
Record SupervisorElement := { se_name : list Z; se_pid : Z; se_process_start_ticks : Z }.
(** [sp_elements]: the first [element_count] elements. *)
Record SupervisorRecord := { sp_pid : Z; sp_process_start_ticks : Z; sp_application_name : list Z; sp_elements : list SupervisorElement }.
(** The answers of [IntrospectionClient]. A failed list is empty where the caller ignores the
    error. *)
Record Introspection := {
  is_runtimes : result (list RuntimeInfo);
  is_supervisors : result (list SupervisorRecord);
  is_endpoints : RuntimeInfo -> list EndpointInfo;
  is_services : RuntimeInfo -> list ServiceInfo;
  is_actions : RuntimeInfo -> list ActionInfo;
  is_type : RuntimeInfo -> Z -> result TypeDescriptor
}.
Definition no_descriptor : TypeDescriptor :=
  {| td_protocol_version := 1; td_struct_size := sizeof_TypeDescriptor; td_type_id := 0; td_type_name := pad TYPE_NAME_SIZE []; td_payload_size := 0;
     td_payload_alignment := 0; td_field_count := 0; td_fields := repeat no_field 128 |}.
Definition no_action_info : ActionInfo :=
  {| an_registration_id := 0; an_name := []; an_port := 0; an_ids := {| ai_goal_service_id := 0; ai_cancel_service_id := 0; ai_result_service_id := 0 |};
     an_goal_type_id := 0; an_feedback_type_id := 0; an_result_type_id := 0; an_goal_request_size := 0; an_goal_offset := 0; an_status_size := 0;
     an_feedback_offset := 0; an_result_response_size := 0; an_result_offset := 0 |}.
(** [LocalEndpoint] *)
Record LocalEntry := {
  en_metadata : NetworkEndpointMetadata; en_descriptor : TypeDescriptor; en_response_descriptor : TypeDescriptor;
  en_feedback_descriptor : TypeDescriptor; en_action : ActionInfo; en_service_registration : Z; en_service_port : Z; en_service_id : Z
}.

(** ** Collection *)
(** [std::sort] by a key; the order of equal keys, which the registries do not have, is that of
    the input. *)
Fixpoint sort_insert {A} (key : A -> Z) (x : A) (l : list A) : list A :=
  match l with [] => [x] | y :: r => if key x <? key y then x :: l else y :: sort_insert key x r end.
Definition sort_by {A} (key : A -> Z) (l : list A) : list A := foldl (fun acc x => sort_insert key x acc) [] l.
Definition runtime_identity (c : MetadataConfig) (r : RuntimeInfo) : RemoteRuntimeIdentity :=
  {| rt_host := mc_host c; rt_boot_id := mc_boot_id c; rt_pid := ri_pid r; rt_process_start_ticks := ri_process_start_ticks r |}.
(** The application and element a runtime belongs to: the last supervisor entry that names it. *)
Definition owner_step (c : MetadataConfig) (r : RuntimeInfo) (s : SupervisorRecord) (acc : RemoteRuntimeIdentity * list Z * list Z) (e : SupervisorElement) :=
  if negb (se_pid e =? ri_pid r) || negb (se_process_start_ticks e =? ri_process_start_ticks r) then acc
  else ({| rt_host := mc_host c; rt_boot_id := mc_boot_id c; rt_pid := sp_pid s; rt_process_start_ticks := sp_process_start_ticks s |}, sp_application_name s, se_name e).
Definition runtime_owner (c : MetadataConfig) (r : RuntimeInfo) (supervisors : list SupervisorRecord) : RemoteRuntimeIdentity * list Z * list Z :=
  foldl (fun acc s => foldl (owner_step c r s) acc (sp_elements s)) (no_runtime, [], ri_executable r) supervisors.
Definition local_metadata (c : MetadataConfig) (r : RuntimeInfo) (supervisors : list SupervisorRecord) (registration kind role scope : Z) (name : list Z)
    (value request response feedback : TypeIdentity) : NetworkEndpointMetadata :=
  let '(application, application_name, element) := runtime_owner c r supervisors in
  {| md_protocol_version := PROTOCOL_VERSION; md_identity := {| ep_runtime := runtime_identity c r; ep_registration_id := registration |};
     md_application := application; md_host_name := []; md_application_name := application_name; md_element_name := element; md_name := name;
     md_groups := mc_groups c; md_kind := kind; md_role := role; md_scope := scope; md_value_type := value; md_request_type := request;
     md_response_type := response; md_feedback_type := feedback |}.
Definition listed_scope (l : list (list Z)) (name : list Z) : Z := if has_name l name then NetworkScope.REMOTE else NetworkScope.LOCAL.

(** What happens to one registration: it ends the collection, is skipped or is added. *)
Inductive Collected := Fatal (code : Z) | Skipped | Added (e : LocalEntry).
Definition typed (i : Introspection) (r : RuntimeInfo) (id : Z) : option (TypeDescriptor * TypeIdentity) :=
  match is_type i r id with
  | Err _ => None
  | Ok d => match ParameterWireType d with Err _ => None | Ok t => Some (d, t) end
  end.
Definition collect_endpoint (c : MetadataConfig) (i : Introspection) (supervisors : list SupervisorRecord) (r : RuntimeInfo) (e : EndpointInfo) : Collected :=
  if 2 ^ 62 <=? ei_registration_id e then Fatal (- EOVERFLOW)
  else if ei_type_id e =? 0 then Skipped
  else match typed i r (ei_type_id e) with
  | None => Skipped
  | Some (d, t) =>
      if negb (td_payload_size d =? ei_payload_size e) then Skipped
      else
        let kind := if ei_kind e =? RegisteredKind.PARAMETER then EndpointKind.PARAMETER else EndpointKind.TOPIC in
        let role := if (ei_role e =? RegisteredRole.PARAMETER_OWNER) || (ei_role e =? RegisteredRole.PUBLISHER) then EndpointRole.PROVIDER else EndpointRole.CONSUMER in
        let scope := if kind =? EndpointKind.TOPIC then TopicScope c (ei_name e) role
                     else if role =? EndpointRole.PROVIDER then listed_scope (mc_remote_parameters c) (ei_name e) else NetworkScope.LOCAL in
        Added {| en_metadata := local_metadata c r supervisors (ei_registration_id e) kind role scope (ei_name e) t no_type no_type no_type;
                 en_descriptor := d; en_response_descriptor := no_descriptor; en_feedback_descriptor := no_descriptor; en_action := no_action_info; en_service_registration := 0;
                 en_service_port := 0; en_service_id := 0 |}
  end.
Definition collect_service (c : MetadataConfig) (i : Introspection) (supervisors : list SupervisorRecord) (r : RuntimeInfo) (s : ServiceInfo) : Collected :=
  if 2 ^ 63 <=? si_registration_id s then Fatal (- EOVERFLOW)
  else if (si_request_type_id s =? 0) || (si_response_type_id s =? 0) then Skipped
  else match typed i r (si_request_type_id s), typed i r (si_response_type_id s) with
  | Some (d, t), Some (d', t') =>
      if negb (td_payload_size d =? si_request_size s) || negb (td_payload_size d' =? si_response_size s) then Skipped
      else Added {| en_metadata := local_metadata c r supervisors (Z.lor (si_registration_id s) (2 ^ 63)) EndpointKind.SERVICE EndpointRole.PROVIDER
                      (listed_scope (mc_remote_services c) (si_name s)) (si_name s) no_type t t' no_type;
                    en_descriptor := d; en_response_descriptor := d'; en_feedback_descriptor := no_descriptor; en_action := no_action_info;
                    en_service_registration := si_registration_id s; en_service_port := si_port s; en_service_id := si_service_id s |}
  | _, _ => Skipped
  end.
Definition collect_action (c : MetadataConfig) (i : Introspection) (supervisors : list SupervisorRecord) (r : RuntimeInfo) (a : ActionInfo) : Collected :=
  if 2 ^ 62 <=? an_registration_id a then Fatal (- EOVERFLOW)
  else match typed i r (an_goal_type_id a), typed i r (an_feedback_type_id a), typed i r (an_result_type_id a) with
  | Some (d, t), Some (df, tf), Some (dr, tr) =>
      if (an_goal_request_size a <? an_goal_offset a + td_payload_size d) || (an_status_size a <? an_feedback_offset a + td_payload_size df) ||
         (an_result_response_size a <? an_result_offset a + td_payload_size dr) then Skipped
      else Added {| en_metadata := local_metadata c r supervisors (Z.lor (an_registration_id a) (2 ^ 62)) EndpointKind.ACTION EndpointRole.PROVIDER
                      (listed_scope (mc_remote_actions c) (an_name a)) (an_name a) no_type t tr tf;
                    en_descriptor := d; en_response_descriptor := dr; en_feedback_descriptor := df; en_action := a;
                    en_service_registration := 0; en_service_port := 0; en_service_id := 0 |}
  | _, _, _ => Skipped
  end.
(** The body of the loops: an entry is checked, added, and the number of entries checked. *)
Definition collect_step (found : list LocalEntry) (x : Collected) : result (list LocalEntry) :=
  match x with
  | Fatal code => Err code
  | Skipped => Ok found
  | Added e =>
      if negb (ValidMetadata (en_metadata e)) then Err (- EINVAL)
      else if DISCOVERY_MAX_ENDPOINTS <? Z.of_nat (length (found ++ [e])) then Err (- E2BIG) else Ok (found ++ [e])
  end.
Fixpoint collect_all (xs : list Collected) (found : list LocalEntry) : result (list LocalEntry) :=
  match xs with
  | [] => Ok found
  | x :: rest => let? found := collect_step found x in collect_all rest found
  end.
Definition runtime_selected (c : MetadataConfig) (r : RuntimeInfo) : bool :=
  ((ri_state r =? ProcessStates.RUNNING) || (ri_state r =? ProcessStates.STARTING)) &&
  ((mc_runtime_pids c =?? []) || existsb (Z.eqb (ri_pid r)) (mc_runtime_pids c)).
Definition collect_runtime (c : MetadataConfig) (i : Introspection) (supervisors : list SupervisorRecord) (r : RuntimeInfo) : list Collected :=
  map (collect_endpoint c i supervisors r) (sort_by ei_registration_id (is_endpoints i r)) ++
  map (collect_service c i supervisors r) (sort_by si_registration_id (is_services i r)) ++
  map (collect_action c i supervisors r) (sort_by an_registration_id (is_actions i r)).
Definition CollectLocalMetadata (c : MetadataConfig) (i : Introspection) : result (list LocalEntry) :=
  if negb (ValidHost (mc_host c)) || negb (ValidHost (mc_boot_id c)) then Err (- EINVAL)
  else
    let policy_error := ValidateTopicExposurePolicy (mc_topic_exposure c) in
    if negb (policy_error =? 0) then Err policy_error
    else
      let? runtimes := is_runtimes i in
      let? supervisors := is_supervisors i in
      collect_all (flat_map (collect_runtime c i supervisors) (filter (fun r => runtime_selected c r = true) (sort_by ri_pid runtimes))) [].

(** ** Revalidation before access *)
(** [ValidateLocalTopicEndpoint], [ValidateLocalParameterEndpoint]: the registration, and the
    header of the storage, as [shm_open] and [pread] give it. *)
Record StorageHeader := { sh_count : Z; sh_magic : Z; sh_format : Z; sh_initialized : Z; sh_owner_pid : Z }.
Definition header_stale (length magic format : Z) (pid : Z) (h : StorageHeader) : bool :=
  negb (sh_count h =? length) || negb (sh_owner_pid h =? pid) || negb (sh_magic h =? magic) || negb (sh_format h =? format) || negb (sh_initialized h =? 1).
(** The name of the segment: slashes after the first character and percent signs are encoded. *)
Definition encode_character (c : Z) : list Z := if c =? SLASH then [37; 50; 70] else if c =? 37 then [37; 50; 53] else [c].
Definition storage_name (name : list Z) : list Z := SLASH :: flat_map encode_character (drop 1 name).
Definition entry_pid (e : LocalEntry) : Z := rt_pid (ep_runtime (md_identity (en_metadata e))).
Definition registered_topic (e : LocalEntry) (publisher : bool) (x : EndpointInfo) : bool :=
  (ei_registration_id x =? ep_registration_id (md_identity (en_metadata e))) && (ei_kind x =? RegisteredKind.TOPIC) &&
  (ei_role x =? if publisher then RegisteredRole.PUBLISHER else RegisteredRole.SUBSCRIBER) && (ei_name x =?? md_name (en_metadata e)) &&
  (ei_type_id x =? td_type_id (en_descriptor e)) && (ei_payload_size x =? td_payload_size (en_descriptor e)).
(** [length], [magic], [format]: of the Topic header. [storage] gives the header by name. *)
Definition ValidateLocalTopicEndpoint (length magic format : Z) (endpoints : result (list EndpointInfo)) (storage : list Z -> result StorageHeader)
    (e : LocalEntry) (publisher : bool) : Z :=
  match endpoints with
  | Err code => code
  | Ok l =>
      if negb (existsb (registered_topic e publisher) l) then - ESTALE
      else if negb publisher then 0
      else match storage (storage_name (md_name (en_metadata e))) with
           | Err code => code
           | Ok h => if header_stale length magic format (entry_pid e) h then - ESTALE else 0
           end
  end.
Definition registered_parameter (e : LocalEntry) (x : EndpointInfo) : bool :=
  (ei_registration_id x =? ep_registration_id (md_identity (en_metadata e))) && (ei_kind x =? RegisteredKind.PARAMETER) &&
  (ei_role x =? RegisteredRole.PARAMETER_OWNER) && (ei_name x =?? md_name (en_metadata e)) && (ei_type_id x =? td_type_id (en_descriptor e)).
Definition ValidateLocalParameterEndpoint (length magic format : Z) (endpoints : result (list EndpointInfo)) (storage : list Z -> result StorageHeader) (e : LocalEntry) : Z :=
  match endpoints with
  | Err code => code
  | Ok l =>
      if negb (existsb (registered_parameter e) l) then - ESTALE
      else match storage (storage_name (md_name (en_metadata e))) with
           | Err code => code
           | Ok h => if header_stale length magic format (entry_pid e) h then - ESTALE else 0
           end
  end.
Definition same_service (e : LocalEntry) (s : ServiceInfo) : bool :=
  let d := en_response_descriptor e in
  (si_registration_id s =? en_service_registration e) && (si_port s =? en_service_port e) && (si_service_id s =? en_service_id e) &&
  (si_name s =?? md_name (en_metadata e)) && (si_request_type_id s =? td_type_id (en_descriptor e)) && (si_response_type_id s =? td_type_id d) &&
  (si_request_size s =? td_payload_size (en_descriptor e)) && (si_response_size s =? td_payload_size d).
Definition ValidateLocalServiceEndpoint (services : result (list ServiceInfo)) (e : LocalEntry) : Z :=
  match services with Err code => code | Ok l => if existsb (same_service e) l then 0 else - ESTALE end.
Definition same_action (e : LocalEntry) (a : ActionInfo) : bool :=
  let x := en_action e in
  (an_registration_id a =? an_registration_id x) && (an_port a =? an_port x) &&
  (ai_goal_service_id (an_ids a) =? ai_goal_service_id (an_ids x)) && (ai_cancel_service_id (an_ids a) =? ai_cancel_service_id (an_ids x)) &&
  (ai_result_service_id (an_ids a) =? ai_result_service_id (an_ids x)) && (an_name a =?? md_name (en_metadata e)) &&
  (an_goal_type_id a =? td_type_id (en_descriptor e)) && (an_feedback_type_id a =? td_type_id (en_feedback_descriptor e)) &&
  (an_result_type_id a =? td_type_id (en_response_descriptor e)).
Definition ValidateLocalActionEndpoint (actions : result (list ActionInfo)) (e : LocalEntry) : Z :=
  match actions with Err code => code | Ok l => if existsb (same_action e) l then 0 else - ESTALE end.

(** ** The policy on segments *)
(** The segments of a path: those between its slashes; the root has none. *)
Fixpoint split (l : list Z) : list (list Z) :=
  match l with
  | [] => [[]]
  | c :: r => if c =? SLASH then [] :: split r else match split r with [] => [[c]] | h :: t => (c :: h) :: t end
  end.
Definition segments (path : list Z) : list (list Z) := let rest := drop 1 path in if rest =?? [] then [] else split rest.
(** [name] is the path of the rule or lies below it. *)
Definition below (name rule : list Z) : bool := bool_decide (segments (CanonicalPrefix rule) `prefix_of` segments name).
Definition exposed (c : MetadataConfig) (name : list Z) (role : Z) : bool :=
  let policy := mc_topic_exposure c in
  let applies := xp_enabled policy && (role =? EndpointRole.PROVIDER) in
  (has_name (mc_remote_topics c) name || (applies && existsb (below name) (xp_allow_prefixes policy))) &&
  negb (applies && existsb (below name) (xp_exclude_prefixes policy)).
Lemma split_cons l : exists h t, split l = h :: t.
Proof. destruct l as [|c r]; cbn; [by eexists _, _|]. destruct (c =? SLASH); [by eexists _, _|]. destruct (split r); by eexists _, _. Qed.
Lemma prefix_cons_iff {A} (x y : A) l l' : (x :: l) `prefix_of` (y :: l') <-> x = y /\ l `prefix_of` l'.
Proof. split; [intros H; split; [by eapply prefix_cons_inv_1|by eapply prefix_cons_inv_2]|]. intros [-> H]. by apply prefix_cons. Qed.
Lemma split_prefix r : forall n, split r `prefix_of` split n <-> take (length r) n = r /\ (length n = length r \/ nth (length r) n 0 = SLASH).
Proof.
  induction r as [|c r IH]; intros n.
  - cbn. destruct n as [|d n]; [split; [auto|by intros _]|]. cbn [split nth length take]. destruct (Z.eqb_spec d SLASH) as [->|Hd].
    + split; [auto|]. intros _. apply prefix_cons, prefix_nil.
    + destruct (split_cons n) as (h & t & ->). rewrite prefix_cons_iff. split; [by intros [? _]|]. intros [_ [?|?]]; [done|congruence].
  - destruct n as [|d n].
    { cbn [split take length]. split; [|by intros [? _]]. destruct (c =? SLASH); [|destruct (split_cons r) as (h & t & ->); by intros [? _]%prefix_cons_iff].
      intros [_ H]%prefix_cons_iff. destruct (split_cons r) as (h & t & E). rewrite E in H. by apply prefix_nil_not in H. }
    cbn [split take length nth]. destruct (Z.eqb_spec c SLASH) as [->|Hc], (Z.eqb_spec d SLASH) as [->|Hd].
    + rewrite prefix_cons_iff, IH. split; [intros [_ [-> ?]]; split; [done|lia]|]. intros [E ?]. injection E as E. split; [done|]. split; [done|lia].
    + destruct (split_cons n) as (h & t & ->). split; [by intros [? _]%prefix_cons_iff|]. intros [E _]. injection E. congruence.
    + destruct (split_cons r) as (h & t & ->). split; [by intros [? _]%prefix_cons_iff|]. intros [E _]. injection E. congruence.
    + specialize (IH n). destruct (split_cons r) as (h & t & Er), (split_cons n) as (h' & t' & En). rewrite Er, En in *. rewrite prefix_cons_iff in *. split.
      * intros [E Hp]. injection E as -> ->. destruct (proj1 IH) as [E1 E2]; [done|]. rewrite E1. split; [done|lia].
      * intros [E Hn]. injection E as -> E1. destruct (proj2 IH) as [-> ?]; [split; [done|lia]|]. done.
Qed.
Lemma Matches_below name rule : first_char name = SLASH -> first_char rule = SLASH -> Matches name rule = below name rule.
Proof.
  intros Hn Hr. unfold Matches, below. set (p := CanonicalPrefix rule). assert (Hp : first_char p = SLASH).
  { unfold p, CanonicalPrefix. case_check; [|done]. bool_to_prop. destruct rule as [|c [|d r]]; cbn in *; [unfold vsize in *; cbn in *; lia..|done]. }
  destruct p as [|c r]; [done|]. destruct name as [|d n]; [done|]. cbn in Hp, Hn. subst c d. unfold segments. change (drop 1 (SLASH :: ?x)) with x.
  destruct (decide (r = [])) as [->|Hne].
  { rewrite !bool_decide_true by done. cbn. symmetry. apply bool_decide_eq_true. apply prefix_nil. }
  rewrite (bool_decide_false (SLASH :: r = [SLASH])), (bool_decide_false (r = [])) by congruence. cbn [orb length take nth]. apply eq_true_iff_eq. rewrite bool_decide_eq_true.
  rewrite andb_true_iff, bool_decide_eq_true, orb_true_iff, Z.eqb_eq, Z.eqb_eq. destruct (decide (n = [])) as [->|Hnn].
  { rewrite (bool_decide_true (@nil Z = [])) by done. cbn. split; [intros [E _]; injection E as E; rewrite take_nil in E; congruence|]. intros H. destruct (split_cons r) as (h & t & E). rewrite E in H. by apply prefix_nil_not in H. }
  rewrite (bool_decide_false (n = [])), split_prefix by done. unfold vsize. cbn [length]. split.
  - intros [E H]. injection E as E. split; [done|]. destruct H; [left; lia|by right].
  - intros [E H]. rewrite E. split; [done|]. destruct H; [left; lia|by right].
Qed.
Lemma PrefixValid_slash p : PrefixValid p = true -> first_char p = SLASH.
Proof. unfold PrefixValid. destruct (first_char p =? SLASH) eqn:E; [by apply Z.eqb_eq in E|]. cbn [negb]. by rewrite orb_true_r. Qed.
Definition rules_ok (rules : list (list Z)) : Prop :=
  (length rules <= 64)%nat /\ Forall (fun p => PrefixValid p = true) rules /\ NoDup (CanonicalPrefix <$> rules).
Lemma check_rules_zero rules : forall earlier, check_rules earlier rules = 0 <->
  Forall (fun p => PrefixValid p = true) rules /\ NoDup (CanonicalPrefix <$> rules) /\ Forall (fun p => CanonicalPrefix p ∉ CanonicalPrefix <$> earlier) rules.
Proof.
  induction rules as [|p rules IH]; intros earlier; cbn [check_rules].
  { split; [intros _; split_and!; constructor|done]. }
  rewrite fmap_cons, NoDup_cons, !Forall_cons. destruct (PrefixValid p); cbn [negb]; [|split; [done|by intros [[? _] _]]].
  assert (Hex : existsb (fun q => CanonicalPrefix p =?? CanonicalPrefix q) earlier = true <-> CanonicalPrefix p ∈ CanonicalPrefix <$> earlier).
  { rewrite existsb_exists, list_elem_of_fmap. split.
    - intros (q & Hq & E). apply bool_decide_eq_true in E. exists q. split; [done|by apply list_elem_of_In].
    - intros (q & E & Hq). exists q. split; [by apply list_elem_of_In|by apply bool_decide_eq_true]. }
  destruct (existsb _ earlier) eqn:E.
  { split; [done|]. intros (_ & _ & [H _]). destruct H. by apply Hex. }
  assert (Hn : CanonicalPrefix p ∉ CanonicalPrefix <$> earlier) by (intros H; apply Hex in H; congruence).
  rewrite IH. setoid_rewrite fmap_app. setoid_rewrite not_elem_of_app. cbn. split.
  - intros (H1 & H2 & H3). split_and!; auto; [|eapply Forall_impl; [exact H3|]; by intros q [? _]].
    intros H. apply list_elem_of_fmap in H as (q & Eq & Hq). rewrite Forall_forall in H3. destruct (H3 q Hq) as [_ H]. apply H. rewrite Eq. by apply list_elem_of_singleton.
  - intros ([_ H1] & [H2 H3] & [_ H4]). split_and!; auto. apply Forall_forall. intros q Hq. rewrite Forall_forall in H4. split; [by apply H4|].
    intros Hs. apply list_elem_of_singleton in Hs. apply H2. rewrite <- Hs. by apply list_elem_of_fmap_2.
Qed.
Lemma check_list_zero rules : check_list rules = 0 <-> rules_ok rules.
Proof.
  unfold check_list, rules_ok. destruct (Z.ltb_spec 64 (Z.of_nat (length rules))); [split; [done|]; intros [? _]; lia|]. rewrite check_rules_zero. split.
  - intros (H1 & H2 & _). split; [lia|done].
  - intros (_ & H1 & H2). split_and!; auto. apply Forall_forall. intros q _. apply not_elem_of_nil.
Qed.
Lemma existsb_same {A} (f g : A -> bool) l : Forall (fun x => f x = g x) l -> existsb f l = existsb g l.
Proof. induction 1 as [|x l H _ IH]; cbn; [done|]. by rewrite H, IH. Qed.
(** Topics are exposed exactly as the policy is documented, on the segments of paths.  A
    policy is accepted when each list has at most 64 well-formed rules with distinct canonical
    forms; then a name is remote when it is listed, or, for a Publisher under an enabled
    policy, when it equals or lies below an allowed path, and never when it equals or lies
    below an excluded one: [/robot] covers [/robot/arm] and not [/robot2]. *)
Theorem topic_exposure_exact c name role :
  (ValidateTopicExposurePolicy (mc_topic_exposure c) = 0 <-> rules_ok (xp_allow_prefixes (mc_topic_exposure c)) /\ rules_ok (xp_exclude_prefixes (mc_topic_exposure c))) /\
  EvaluateTopicExposure c name role =
    let code := ValidateTopicExposurePolicy (mc_topic_exposure c) in
    if negb (code =? 0) then Err code
    else if negb (Text name 240) || negb (first_char name =? SLASH) || (negb (role =? EndpointRole.PROVIDER) && negb (role =? EndpointRole.CONSUMER)) then Err (- EINVAL)
    else Ok (if exposed c name role then NetworkScope.REMOTE else NetworkScope.LOCAL).
Proof.
  set (policy := mc_topic_exposure c).
  assert (Hv : ValidateTopicExposurePolicy policy = 0 <-> rules_ok (xp_allow_prefixes policy) /\ rules_ok (xp_exclude_prefixes policy)).
  { unfold ValidateTopicExposurePolicy. rewrite <- !check_list_zero. destruct (Z.eqb_spec (check_list (xp_allow_prefixes policy)) 0) as [E|E]; cbn [negb]; tauto. }
  split; [exact Hv|]. unfold EvaluateTopicExposure. fold policy. cbn zeta. destruct (Z.eqb_spec (ValidateTopicExposurePolicy policy) 0) as [E|E]; [|done]. cbn [negb].
  destruct (Z.eqb_spec (first_char name) SLASH) as [En|En]; [|cbn [negb]; rewrite orb_true_r; done]. destruct (_ || _); [done|]. f_equal.
  apply Hv in E as [(_ & Ha & _) (_ & Hx & _)]. unfold TopicScope, exposed. fold policy.
  assert (Hm : forall l, Forall (fun p => PrefixValid p = true) l -> existsb (Matches name) l = existsb (below name) l).
  { intros l Hl. apply existsb_same. eapply Forall_impl; [exact Hl|]. intros p Hp. apply Matches_below; [done|by apply PrefixValid_slash]. }
  rewrite !Hm by done. destruct (xp_enabled policy && _); cbn [andb negb]; [|by rewrite orb_false_r, andb_true_r]. destruct (existsb (below name) (xp_exclude_prefixes policy)); cbn [negb]; [by rewrite andb_false_r|by rewrite andb_true_r].
Qed.

(** ** What is collected *)
Definition added (x : Collected) : option LocalEntry := match x with Added e => Some e | _ => None end.
Definition identity (e : LocalEntry) : RemoteEndpointIdentity := md_identity (en_metadata e).
Definition registration (e : LocalEntry) : Z := ep_registration_id (identity e).
(** What the code makes remote. *)
Definition scoped (c : MetadataConfig) (m : NetworkEndpointMetadata) : bool :=
  if md_kind m =? EndpointKind.TOPIC then TopicScope c (md_name m) (md_role m) =? NetworkScope.REMOTE
  else if md_kind m =? EndpointKind.PARAMETER then (md_role m =? EndpointRole.PROVIDER) && has_name (mc_remote_parameters c) (md_name m)
  else if md_kind m =? EndpointKind.SERVICE then has_name (mc_remote_services c) (md_name m)
  else has_name (mc_remote_actions c) (md_name m).
(** What the configuration makes remote.  A rule covers the paths that its own segments begin; a
    slash at its end says nothing. *)
Definition covers (name rule : list Z) : Prop := filter (fun part => part <> []) (split (drop 1 rule)) `prefix_of` split (drop 1 name).
Definition topic_remote (c : MetadataConfig) (name : list Z) (role : Z) : Prop :=
  let policy := mc_topic_exposure c in
  let applies := xp_enabled policy = true /\ role = EndpointRole.PROVIDER in
  (name ∈ mc_remote_topics c \/ applies /\ Exists (covers name) (xp_allow_prefixes policy)) /\ ~ (applies /\ Exists (covers name) (xp_exclude_prefixes policy)).
Definition configured (c : MetadataConfig) (m : NetworkEndpointMetadata) : Prop :=
  (md_kind m = EndpointKind.TOPIC /\ topic_remote c (md_name m) (md_role m)) \/
  (md_kind m = EndpointKind.PARAMETER /\ md_role m = EndpointRole.PROVIDER /\ md_name m ∈ mc_remote_parameters c) \/
  (md_kind m = EndpointKind.SERVICE /\ md_name m ∈ mc_remote_services c) \/
  (md_kind m = EndpointKind.ACTION /\ md_name m ∈ mc_remote_actions c).
Lemma split_next l : split l = fst (next_part l) :: match snd (next_part l) with Some r => split r | None => [] end.
Proof.
  induction l as [|c l IH]; [done|]. cbn [split next_part]. destruct (c =? SLASH); [done|]. rewrite IH. by destruct (next_part l) as [part rest].
Qed.
Lemma good_parts_split fuel : forall l, good_parts fuel l = true -> Forall (fun part => part <> []) (split l).
Proof.
  induction fuel as [|fuel IH]; intros l H; [done|]. cbn [good_parts] in H. case_bool_decide; [done|]. rewrite split_next. destruct (next_part l) as [part rest]. cbn [fst snd].
  unfold good_part in H. destruct (part =?? []) eqn:E; [done|]. apply bool_decide_eq_false in E. constructor; [done|]. destruct (negb _); [done|]. destruct rest as [r|]; [by apply IH|constructor].
Qed.
Lemma split_snoc l : split (l ++ [SLASH]) = split l ++ [[]].
Proof. induction l as [|c l IH]; [done|]. cbn [split app]. rewrite IH. destruct (c =? SLASH); [done|]. destruct (split_cons l) as (h & t & ->). done. Qed.
Lemma filter_all (l : list (list Z)) : Forall (fun part => part <> []) l -> filter (fun part => part <> []) l = l.
Proof. induction 1 as [|x l Hx _ IH]; [done|]. rewrite filter_cons, decide_True by done. by rewrite IH. Qed.
Lemma rule_parts rule : PrefixValid rule = true -> segments (CanonicalPrefix rule) = filter (fun part => part <> []) (split (drop 1 rule)).
Proof.
  intros Hv. pose proof (PrefixValid_slash rule Hv) as Hs. unfold PrefixValid in Hv. destruct (_ || existsb _ _) eqn:E in Hv; [done|]. apply orb_false_iff in E as [E _]. apply orb_false_iff in E as [_ Hd].
  destruct rule as [|c r]; [done|]. cbn in Hs. subst c. cbv zeta in Hv.
  assert (Hgood : forall view, view <> [SLASH] -> (if view =?? [SLASH] then true else good_parts (S (length view)) (drop 1 view)) = true -> Forall (fun part => part <> []) (split (drop 1 view))).
  { intros view Hne H. rewrite bool_decide_false in H by done. by eapply good_parts_split. }
  unfold CanonicalPrefix in *. destruct ((1 <? vsize (SLASH :: r)) && (List.last (SLASH :: r) 0 =? SLASH)) eqn:Ec.
  - apply andb_true_iff in Ec as [Hl%Z.ltb_lt El%Z.eqb_eq]. destruct r as [|d r _] using rev_ind; [done|]. change (SLASH :: r ++ [d]) with ((SLASH :: r) ++ [d]) in *. rewrite last_last in El. subst d.
    rewrite removelast_last in *. cbn [drop] in *. unfold segments. cbn [drop app]. destruct (decide (r = [])) as [->|Hne]; [done|]. rewrite bool_decide_false by done.
    rewrite !drop_0, split_snoc, filter_app, filter_all; [by rewrite app_nil_r|]. apply (Hgood (SLASH :: r)); [congruence|done].
  - unfold segments. cbn [drop]. destruct (decide (r = [])) as [->|Hne]; [done|]. rewrite bool_decide_false by done. rewrite drop_0, filter_all; [done|]. apply (Hgood (SLASH :: r)); [congruence|done].
Qed.
Lemma Matches_covers name rule : first_char name = SLASH -> PrefixValid rule = true -> Matches name rule = true <-> covers name rule.
Proof.
  intros Hn Hv. rewrite (Matches_below name rule Hn (PrefixValid_slash rule Hv)). unfold below, covers. rewrite bool_decide_eq_true, rule_parts by done. unfold segments. case_bool_decide as E; [|done]. rewrite E. cbn [split].
  set (l := filter _ _). assert (Hl : Forall (fun part => part <> []) l) by (apply Forall_forall; by intros part [? _]%list_elem_of_filter). destruct l as [|part l]; [split; intros _; apply prefix_nil|].
  apply Forall_cons in Hl as [Hp _]. split; [by intros ?%prefix_nil_not|]. intros [? _]%prefix_cons_iff. done.
Qed.
Lemma has_name_in l name : has_name l name = true <-> name ∈ l.
Proof.
  unfold has_name. rewrite existsb_exists. split; [intros (x & Hx & E); apply bool_decide_eq_true in E as ->; by apply list_elem_of_In|]. intros H. exists name. split; [by apply list_elem_of_In|by apply bool_decide_eq_true].
Qed.
Lemma matches_exist name rules : first_char name = SLASH -> Forall (fun p => PrefixValid p = true) rules -> existsb (Matches name) rules = true <-> Exists (covers name) rules.
Proof.
  intros Hn Hr. rewrite existsb_exists, Exists_exists. setoid_rewrite <- list_elem_of_In. split; intros (p & Hp & H); exists p; (split; [done|]); rewrite Forall_forall in Hr; by apply Matches_covers; auto.
Qed.
Lemma TopicScope_remote c name role : ValidateTopicExposurePolicy (mc_topic_exposure c) = 0 -> first_char name = SLASH ->
  (TopicScope c name role =? NetworkScope.REMOTE) = true <-> topic_remote c name role.
Proof.
  intros Hp Hn. unfold ValidateTopicExposurePolicy in Hp. destruct (Z.eqb_spec (check_list (xp_allow_prefixes (mc_topic_exposure c))) 0) as [Ha%check_list_zero|]; [|done].
  apply check_list_zero in Hp as (_ & Hx & _). destruct Ha as (_ & Ha & _). pose proof (matches_exist name _ Hn Ha) as Ma. pose proof (matches_exist name _ Hn Hx) as Mx.
  pose proof (has_name_in (mc_remote_topics c) name) as Ml. unfold TopicScope, topic_remote. cbv zeta. set (policy := mc_topic_exposure c) in *.
  assert (Hap : xp_enabled policy && (role =? EndpointRole.PROVIDER) = true <-> xp_enabled policy = true /\ role = EndpointRole.PROVIDER) by (by rewrite andb_true_iff, Z.eqb_eq).
  destruct (xp_enabled policy && (role =? EndpointRole.PROVIDER)).
  - destruct (existsb (Matches name) (xp_exclude_prefixes policy)); [split; [done|]; intros [_ H]; exfalso; apply H; tauto|].
    assert (Hnx : ~ Exists (covers name) (xp_exclude_prefixes policy)) by (intros H; apply Mx in H; done).
    destruct (has_name _ name), (existsb (Matches name) (xp_allow_prefixes policy)); cbn; split; try done; try tauto; intros [[?|?] _]; try tauto; exfalso; naive_solver.
  - assert (Hna : ~ (xp_enabled policy = true /\ role = EndpointRole.PROVIDER)) by (intros H; apply Hap in H; done).
    destruct (has_name _ name); cbn; split; try done; try tauto; intros [[?|?] _]; try tauto; exfalso; naive_solver.
Qed.
Lemma scoped_configured c m : ValidateTopicExposurePolicy (mc_topic_exposure c) = 0 -> ValidMetadata m = true -> scoped c m = true <-> configured c m.
Proof.
  intros Hp Hv. assert (Hf : first_char (md_name m) = SLASH /\ md_kind m ∈ [EndpointKind.TOPIC; EndpointKind.PARAMETER; EndpointKind.SERVICE; EndpointKind.ACTION]).
  { unfold ValidMetadata in Hv. destruct (Z.eqb_spec (first_char (md_name m)) SLASH) as [E|E]; [|cbn [negb] in Hv; rewrite !orb_true_r in Hv; done]. split; [done|].
    rewrite !elem_of_cons. destruct (Z.eqb_spec (md_kind m) EndpointKind.TOPIC), (Z.eqb_spec (md_kind m) EndpointKind.PARAMETER), (Z.eqb_spec (md_kind m) EndpointKind.SERVICE), (Z.eqb_spec (md_kind m) EndpointKind.ACTION); auto 6.
    exfalso. repeat case_check; done. }
  destruct Hf as [Hf Hk]. unfold scoped, configured. rewrite !elem_of_cons, elem_of_nil in Hk. destruct Hk as [Hk|[Hk|[Hk|[Hk|[]]]]]; rewrite Hk; cbn [Z.eqb Pos.eqb EndpointKind.TOPIC EndpointKind.PARAMETER EndpointKind.SERVICE EndpointKind.ACTION].
  - rewrite TopicScope_remote by done. naive_solver.
  - rewrite andb_true_iff, Z.eqb_eq, has_name_in. naive_solver.
  - rewrite has_name_in. naive_solver.
  - rewrite has_name_in. naive_solver.
Qed.
(** A descriptor of the type registry of process [r], and its type on the wire. *)
Definition type_of (i : Introspection) (r : RuntimeInfo) (id : Z) (d : TypeDescriptor) (t : TypeIdentity) : Prop := is_type i r id = Ok d /\ ParameterWireType d = Ok t.
(** The entry is the one of a registration of process [r]: its number, tagged by its kind, its
    name, kind and role, and its types. *)
Inductive entry_of (c : MetadataConfig) (i : Introspection) (r : RuntimeInfo) (e : LocalEntry) : Prop :=
| entry_endpoint x : x ∈ is_endpoints i r -> identity e = {| ep_runtime := runtime_identity c r; ep_registration_id := ei_registration_id x |} ->
    md_name (en_metadata e) = ei_name x ->
    md_kind (en_metadata e) = (if ei_kind x =? RegisteredKind.PARAMETER then EndpointKind.PARAMETER else EndpointKind.TOPIC) ->
    (md_role (en_metadata e) = EndpointRole.PROVIDER <-> ei_role x = RegisteredRole.PARAMETER_OWNER \/ ei_role x = RegisteredRole.PUBLISHER) ->
    type_of i r (ei_type_id x) (en_descriptor e) (md_value_type (en_metadata e)) -> td_payload_size (en_descriptor e) = ei_payload_size x -> entry_of c i r e
| entry_service x : x ∈ is_services i r -> identity e = {| ep_runtime := runtime_identity c r; ep_registration_id := Z.lor (si_registration_id x) (2 ^ 63) |} ->
    md_name (en_metadata e) = si_name x -> md_kind (en_metadata e) = EndpointKind.SERVICE -> md_role (en_metadata e) = EndpointRole.PROVIDER ->
    type_of i r (si_request_type_id x) (en_descriptor e) (md_request_type (en_metadata e)) -> td_payload_size (en_descriptor e) = si_request_size x ->
    type_of i r (si_response_type_id x) (en_response_descriptor e) (md_response_type (en_metadata e)) -> td_payload_size (en_response_descriptor e) = si_response_size x ->
    en_service_port e = si_port x -> en_service_id e = si_service_id x -> entry_of c i r e
| entry_action x : x ∈ is_actions i r -> identity e = {| ep_runtime := runtime_identity c r; ep_registration_id := Z.lor (an_registration_id x) (2 ^ 62) |} ->
    md_name (en_metadata e) = an_name x -> md_kind (en_metadata e) = EndpointKind.ACTION -> md_role (en_metadata e) = EndpointRole.PROVIDER ->
    type_of i r (an_goal_type_id x) (en_descriptor e) (md_request_type (en_metadata e)) ->
    type_of i r (an_result_type_id x) (en_response_descriptor e) (md_response_type (en_metadata e)) ->
    type_of i r (an_feedback_type_id x) (en_feedback_descriptor e) (md_feedback_type (en_metadata e)) -> en_action e = x -> entry_of c i r e.
Definition entry_scoped (c : MetadataConfig) (e : LocalEntry) : Prop := md_scope (en_metadata e) = if scoped c (en_metadata e) then NetworkScope.REMOTE else NetworkScope.LOCAL.
(** The entry of a live process that the configuration selects, remote exactly as configured. *)
Record entry_sound (c : MetadataConfig) (i : Introspection) (runtimes : list RuntimeInfo) (e : LocalEntry) : Prop := {
  es_registered : exists r, r ∈ runtimes /\ (ri_state r = ProcessStates.RUNNING \/ ri_state r = ProcessStates.STARTING) /\
    (mc_runtime_pids c = [] \/ ri_pid r ∈ mc_runtime_pids c) /\ entry_of c i r e;
  es_remote : configured c (en_metadata e) -> md_scope (en_metadata e) = NetworkScope.REMOTE;
  es_local : ~ configured c (en_metadata e) -> md_scope (en_metadata e) = NetworkScope.LOCAL
}.
Lemma collect_all_added xs : forall found found', collect_all xs found = Ok found' ->
  found' = found ++ omap added xs /\ Forall (fun e => ValidMetadata (en_metadata e) = true) (omap added xs) /\ (Z.of_nat (length found) <= DISCOVERY_MAX_ENDPOINTS -> Z.of_nat (length found') <= DISCOVERY_MAX_ENDPOINTS) /\
  Forall (fun x => match x with Fatal _ => False | _ => True end) xs.
Proof.
  induction xs as [|x xs IH]; intros found found' H; cbn [collect_all] in H.
  { injection H as <-. rewrite app_nil_r. split_and!; auto; constructor. }
  destruct x as [code| |e]; cbn [collect_step bind_result] in H; [done| |].
  - apply IH in H as (-> & H1 & H2 & H3). cbn. split_and!; auto.
  - destruct (ValidMetadata (en_metadata e)) eqn:Hv; cbn [negb] in H; [|done]. destruct (Z.ltb_spec DISCOVERY_MAX_ENDPOINTS (Z.of_nat (length (found ++ [e])))); [done|].
    cbn [bind_result] in H. apply IH in H as (-> & H1 & H2 & H3). cbn. split_and!; auto. by rewrite <- app_assoc.
Qed.
Lemma TopicScope_two c name role : TopicScope c name role = if TopicScope c name role =? NetworkScope.REMOTE then NetworkScope.REMOTE else NetworkScope.LOCAL.
Proof. unfold TopicScope. destruct (xp_enabled _ && _); [destruct (existsb _ _); [done|]|]; by destruct (has_name _ _); [|try destruct (existsb _ _)]. Qed.
Lemma typed_type i r id d t : typed i r id = Some (d, t) -> type_of i r id d t.
Proof. unfold typed, type_of. destruct (is_type i r id) as [d'|]; [|done]. destruct (ParameterWireType d') eqn:E; [|done]. intros H. by injection H as <- <-. Qed.
Lemma local_metadata_fields c r sup reg kind role scope name v rq rs fb : let m := local_metadata c r sup reg kind role scope name v rq rs fb in
  md_identity m = {| ep_runtime := runtime_identity c r; ep_registration_id := reg |} /\ md_kind m = kind /\ md_role m = role /\ md_scope m = scope /\ md_name m = name /\
  md_value_type m = v /\ md_request_type m = rq /\ md_response_type m = rs /\ md_feedback_type m = fb.
Proof. unfold local_metadata. by destruct (runtime_owner c r sup) as [[a b] d]. Qed.
(** An entry that is added: its identity, its scope, and its registration. *)
Definition added_as (c : MetadataConfig) (i : Introspection) (r : RuntimeInfo) (reg : Z) (e : LocalEntry) : Prop :=
  identity e = {| ep_runtime := runtime_identity c r; ep_registration_id := reg |} /\ entry_scoped c e /\ entry_of c i r e.
Lemma endpoint_added c i sup r x e : x ∈ is_endpoints i r -> collect_endpoint c i sup r x = Added e -> ei_registration_id x < 2 ^ 62 /\ added_as c i r (ei_registration_id x) e.
Proof.
  intros Hx. unfold collect_endpoint, added_as, entry_scoped. destruct (Z.leb_spec (2 ^ 62) (ei_registration_id x)); [done|]. destruct (_ =? 0); [done|]. destruct (typed i r _) as [[d t]|] eqn:Et; [|done].
  destruct (Z.eqb_spec (td_payload_size d) (ei_payload_size x)) as [Ez|]; [|done]. cbn [negb]. cbn zeta. intros E. injection E as <-. unfold identity, scoped. cbn [en_metadata].
  match goal with |- context [local_metadata ?a ?b ?d ?f ?g ?h ?j ?k ?l ?m ?n ?o] => destruct (local_metadata_fields a b d f g h j k l m n o) as (E1 & E2 & E3 & E4 & E5 & E6 & E7 & E8 & E9) end.
  split; [done|]. split; [exact E1|]. split.
  - rewrite E2, E3, E4, E5. destruct (ei_kind x =? RegisteredKind.PARAMETER); [|apply TopicScope_two]. unfold listed_scope. change (EndpointKind.PARAMETER =? EndpointKind.TOPIC) with false.
    rewrite Z.eqb_refl. destruct (_ =? EndpointRole.PROVIDER); cbn [andb]; [done|done].
  - eapply (entry_endpoint _ _ _ _ x); unfold identity; cbn [en_metadata en_descriptor]; rewrite ?E1, ?E2, ?E3, ?E5, ?E6; auto using typed_type.
    destruct (Z.eqb_spec (ei_role x) RegisteredRole.PARAMETER_OWNER), (Z.eqb_spec (ei_role x) RegisteredRole.PUBLISHER); cbn; split; try tauto; try done.
Qed.
Lemma service_added c i sup r x e : x ∈ is_services i r -> collect_service c i sup r x = Added e -> si_registration_id x < 2 ^ 63 /\ added_as c i r (Z.lor (si_registration_id x) (2 ^ 63)) e.
Proof.
  intros Hx. unfold collect_service, added_as, entry_scoped. destruct (Z.leb_spec (2 ^ 63) (si_registration_id x)); [done|]. destruct (_ || _); [done|].
  destruct (typed i r (si_request_type_id x)) as [[d t]|] eqn:Et; [|done]. destruct (typed i r (si_response_type_id x)) as [[d' t']|] eqn:Et'; [|done].
  destruct (_ || _) eqn:Es; [done|]. apply orb_false_iff in Es as [Z1%negb_false_iff%Z.eqb_eq Z2%negb_false_iff%Z.eqb_eq]. intros E. injection E as <-. unfold identity, scoped. cbn [en_metadata].
  match goal with |- context [local_metadata ?a ?b ?d ?f ?g ?h ?j ?k ?l ?m ?n ?o] => destruct (local_metadata_fields a b d f g h j k l m n o) as (E1 & E2 & E3 & E4 & E5 & E6 & E7 & E8 & E9) end.
  split; [done|]. split; [exact E1|]. split; [by rewrite E2, E4, E5|].
  eapply (entry_service _ _ _ _ x); unfold identity; cbn [en_metadata en_descriptor en_response_descriptor]; rewrite ?E1, ?E2, ?E3, ?E5, ?E7, ?E8; auto using typed_type.
Qed.
Lemma action_added c i sup r x e : x ∈ is_actions i r -> collect_action c i sup r x = Added e -> an_registration_id x < 2 ^ 62 /\ added_as c i r (Z.lor (an_registration_id x) (2 ^ 62)) e.
Proof.
  intros Hx. unfold collect_action, added_as, entry_scoped. destruct (Z.leb_spec (2 ^ 62) (an_registration_id x)); [done|]. destruct (typed i r (an_goal_type_id x)) as [[d t]|] eqn:Et; [|done].
  destruct (typed i r (an_feedback_type_id x)) as [[d' t']|] eqn:Et'; [|done]. destruct (typed i r (an_result_type_id x)) as [[d'' t'']|] eqn:Et''; [|done]. destruct (_ || _); [done|]. intros E. injection E as <-.
  unfold identity, scoped. cbn [en_metadata].
  match goal with |- context [local_metadata ?a ?b ?d ?f ?g ?h ?j ?k ?l ?m ?n ?o] => destruct (local_metadata_fields a b d f g h j k l m n o) as (E1 & E2 & E3 & E4 & E5 & E6 & E7 & E8 & E9) end.
  split; [done|]. split; [exact E1|]. split; [by rewrite E2, E4, E5|].
  eapply (entry_action _ _ _ _ x); unfold identity; cbn [en_metadata en_descriptor en_response_descriptor en_feedback_descriptor]; rewrite ?E1, ?E2, ?E3, ?E5, ?E7, ?E8, ?E9; auto using typed_type.
Qed.

(** *** Identities *)
Lemma sort_insert_perm {A} (key : A -> Z) x l : sort_insert key x l ≡ₚ x :: l.
Proof. induction l as [|y l IH]; cbn; [done|]. case_check; [done|]. rewrite IH. constructor. Qed.
Lemma sort_by_perm {A} (key : A -> Z) l : sort_by key l ≡ₚ l.
Proof.
  unfold sort_by. assert (H : forall acc, foldl (fun acc x => sort_insert key x acc) acc l ≡ₚ acc ++ l); [|by rewrite H].
  induction l as [|x l IH]; intros acc; cbn; [by rewrite app_nil_r|]. rewrite IH, sort_insert_perm. cbn. apply Permutation_middle.
Qed.
Lemma tag_range x n : 0 <= x < 2 ^ n -> 0 <= n -> Z.lor x (2 ^ n) = x + 2 ^ n.
Proof.
  intros Hx Hn. assert (H : Z.land x (2 ^ n) = 0).
  { rewrite <- (Z.mod_small x (2 ^ n)) by done. rewrite <- Z.land_ones by done. rewrite <- Z.land_assoc, (Z.land_comm (Z.ones n)), Z.land_ones by done.
    rewrite Z.mod_same by (apply Z.pow_nonzero; lia). apply Z.land_0_r. }
  by rewrite Z.add_nocarry_lxor, Z.lxor_lor.
Qed.
(** Registrations of one kind: distinct numbers give distinct identities. *)
Lemma NoDup_added {A} (key : A -> Z) (g : Z -> Z) (bound : Z) (f : A -> Collected) l :
  (forall x e, x ∈ l -> f x = Added e -> key x < bound /\ registration e = g (key x)) -> (forall a b, 0 <= a < bound -> 0 <= b < bound -> g a = g b -> a = b) ->
  Forall (fun x => 0 <= key x) l -> NoDup (key <$> l) -> NoDup (registration <$> omap added (map f l)) /\
  Forall (fun n => exists k, 0 <= k < bound /\ n = g k) (registration <$> omap added (map f l)).
Proof.
  intros Hf Hg Hpos Hn. induction l as [|x l IH]; [split; constructor|]. specialize (IH (fun y e Hy => Hf y e (list_elem_of_further _ _ _ Hy))). inversion Hpos as [|? ? Hx Hl]; subst. rewrite fmap_cons in Hn. apply NoDup_cons in Hn as [Hnx Hn].
  destruct (IH Hl Hn) as [IH1 IH2]. cbn. destruct (f x) as [code| |e] eqn:Ex; cbn; [done|done|]. destruct (Hf x e (list_elem_of_here _ _) Ex) as [Hb He]. split.
  - apply NoDup_cons. split; [|done]. rewrite He. intros Hin. apply list_elem_of_fmap in Hin as (e' & E & Hin). apply list_elem_of_omap in Hin as (y & Hy & Ey).
    apply list_elem_of_fmap in Hy as (z & -> & Hz). destruct (f z) as [| |e''] eqn:Ez; try done. cbn in Ey. injection Ey as ->. destruct (Hf z e' (list_elem_of_further _ _ _ Hz) Ez) as [Hb' He']. rewrite He' in E.
    apply Hg in E; [|split; [done|done]|split; [|done]]; [|rewrite Forall_forall in Hl; by apply Hl]. apply Hnx. rewrite E. by apply list_elem_of_fmap_2.
  - constructor; [|done]. by exists (key x).
Qed.
(** What the registries promise: registrations of a process have distinct numbers, processes
    distinct identities. *)
Record registries_ok (i : Introspection) : Prop := {
  ro_runtimes : forall l, is_runtimes i = Ok l -> NoDup ((fun r => (ri_pid r, ri_process_start_ticks r)) <$> l);
  ro_endpoints : forall r, NoDup (ei_registration_id <$> is_endpoints i r) /\ Forall (fun x => 0 <= ei_registration_id x) (is_endpoints i r);
  ro_services : forall r, NoDup (si_registration_id <$> is_services i r) /\ Forall (fun x => 0 <= si_registration_id x) (is_services i r);
  ro_actions : forall r, NoDup (an_registration_id <$> is_actions i r) /\ Forall (fun x => 0 <= an_registration_id x) (is_actions i r)
}.
Lemma sorted_ok {A} (key : A -> Z) l : NoDup (key <$> l) /\ Forall (fun x => 0 <= key x) l -> NoDup (key <$> sort_by key l) /\ Forall (fun x => 0 <= key x) (sort_by key l).
Proof. intros [H1 H2]. rewrite !sort_by_perm. done. Qed.
Lemma runtime_registrations c i sup r : registries_ok i -> NoDup (registration <$> omap added (collect_runtime c i sup r)).
Proof.
  intros [_ He Hs Ha]. specialize (He r). specialize (Hs r). specialize (Ha r). apply sorted_ok in He as [He1 He2], Hs as [Hs1 Hs2], Ha as [Ha1 Ha2].
  assert (E := fun Ha Hb => NoDup_added ei_registration_id id (2 ^ 62) (collect_endpoint c i sup r) (sort_by ei_registration_id (is_endpoints i r)) Ha Hb He2 He1).
  destruct E as [E1 E2].
  { intros x e Hi Hx. rewrite sort_by_perm in Hi. destruct (endpoint_added _ _ _ _ _ _ Hi Hx) as (? & E & _). split; [done|]. unfold registration. by rewrite E. }
  { done. }
  assert (S := fun Ha Hb => NoDup_added si_registration_id (fun x => Z.lor x (2 ^ 63)) (2 ^ 63) (collect_service c i sup r) (sort_by si_registration_id (is_services i r)) Ha Hb Hs2 Hs1).
  destruct S as [S1 S2].
  { intros x e Hi Hx. rewrite sort_by_perm in Hi. destruct (service_added _ _ _ _ _ _ Hi Hx) as (? & E & _). split; [done|]. unfold registration. by rewrite E. }
  { intros a b Hx Hy. rewrite !tag_range by lia. lia. }
  assert (A := fun Ha Hb => NoDup_added an_registration_id (fun x => Z.lor x (2 ^ 62)) (2 ^ 62) (collect_action c i sup r) (sort_by an_registration_id (is_actions i r)) Ha Hb Ha2 Ha1).
  destruct A as [A1 A2].
  { intros x e Hi Hx. rewrite sort_by_perm in Hi. destruct (action_added _ _ _ _ _ _ Hi Hx) as (? & E & _). split; [done|]. unfold registration. by rewrite E. }
  { intros a b Hx Hy. rewrite !tag_range by lia. lia. }
  unfold collect_runtime. rewrite !omap_app, !fmap_app. rewrite Forall_forall in E2, S2, A2. apply NoDup_app. split_and!; [done| |].
  - intros n Hn Hx. destruct (E2 n Hn) as (k & Hk & ->). apply elem_of_app in Hx as [Hx|Hx]; [apply S2 in Hx|apply A2 in Hx]; destruct Hx as (k' & Hk' & E); unfold id in E; rewrite tag_range in E by lia; lia.
  - apply NoDup_app. split_and!; [done| |done]. intros n Hn Hx. destruct (S2 n Hn) as (k & Hk & ->). apply A2 in Hx as (k' & Hk' & E). rewrite !tag_range in E by lia. lia.
Qed.
Lemma runtime_entries c i sup r e : e ∈ omap added (collect_runtime c i sup r) -> ep_runtime (identity e) = runtime_identity c r /\ entry_scoped c e /\ entry_of c i r e.
Proof.
  intros H. apply list_elem_of_omap in H as (x & Hx & Ex). destruct x as [| |y]; try done. injection Ex as ->. unfold collect_runtime in Hx. rewrite !elem_of_app in Hx.
  destruct Hx as [Hx|[Hx|Hx]]; apply list_elem_of_fmap in Hx as (z & Ez & Hz); symmetry in Ez; rewrite sort_by_perm in Hz;
    [apply endpoint_added in Ez|apply service_added in Ez|apply action_added in Ez]; try done; destruct Ez as (_ & E & Hs); by rewrite E.
Qed.
Lemma runtimes_identities c i sup rs : registries_ok i -> NoDup ((fun r => (ri_pid r, ri_process_start_ticks r)) <$> rs) ->
  NoDup (identity <$> omap added (flat_map (collect_runtime c i sup) rs)) /\ Forall (entry_scoped c) (omap added (flat_map (collect_runtime c i sup) rs)) /\
  Forall (fun e => exists r, r ∈ rs /\ ep_runtime (identity e) = runtime_identity c r /\ entry_of c i r e) (omap added (flat_map (collect_runtime c i sup) rs)).
Proof.
  intros Hok Hn. induction rs as [|r rs IH]; [split_and!; constructor|]. rewrite fmap_cons in Hn. apply NoDup_cons in Hn as [Hnr Hn]. destruct (IH Hn) as (IH1 & IH2 & IH3).
  cbn [flat_map]. rewrite omap_app, fmap_app, !Forall_app. rewrite Forall_forall in IH3. split_and!.
  - apply NoDup_app. split_and!; [|intros x Hx Hy|done].
    + apply (NoDup_fmap_1 ep_registration_id). rewrite <- list_fmap_compose. by apply runtime_registrations.
    + apply list_elem_of_fmap in Hx as (e & -> & He). apply runtime_entries in He as [He _]. apply list_elem_of_fmap in Hy as (e' & E & He'). destruct (IH3 e' He') as (r' & Hr' & E' & _).
      rewrite <- E, He in E'. injection E' as E1 E2. apply Hnr. apply list_elem_of_fmap. exists r'. split; [by rewrite E1, E2|done].
  - apply Forall_forall. intros e He. by apply runtime_entries in He as (_ & ? & _).
  - done.
  - apply Forall_forall. intros e He. exists r. split; [constructor|]. by apply runtime_entries in He as (? & _ & ?).
  - apply Forall_forall. intros e He. destruct (IH3 e He) as (r' & Hr' & E). exists r'. split; [by constructor|done].
Qed.
(** C32: What this host announces is sound: at most 64 endpoints, all valid; each is the entry of a registration of a listed, live and
    selected process of this host and boot, with its name, kind and role and the wire types of the descriptors that
    the process has registered under the type ids of the registration; it is remote exactly when the configuration
    says so (its name is in the list of its kind; for a Topic also when an allowed path covers the name of a Publisher, but never
    when an excluded path does) and local otherwise; and no two have the same identity, although endpoints,
    services and actions are numbered separately, because the numbers are tagged by kind.  The registries are assumed to
    give the processes of the host and the registrations of a process distinct numbers. *)
Theorem collected_metadata_sound c i found : registries_ok i -> CollectLocalMetadata c i = Ok found ->
  Z.of_nat (length found) <= DISCOVERY_MAX_ENDPOINTS /\ Forall (fun e => ValidMetadata (en_metadata e) = true) found /\
  (exists runtimes, is_runtimes i = Ok runtimes /\ Forall (entry_sound c i runtimes) found) /\ NoDup (identity <$> found).
Proof.
  intros Hok H. unfold CollectLocalMetadata in H. destruct (_ || _); [done|]. cbn zeta in H. destruct (Z.eqb_spec (ValidateTopicExposurePolicy (mc_topic_exposure c)) 0) as [Hp|]; [|done]. cbn [negb] in H.
  destruct (is_runtimes i) as [rs|] eqn:Er; [|done]. destruct (is_supervisors i) as [sup|]; [|done]. cbn [bind_result] in H. apply collect_all_added in H as (-> & Hv & Hl & _). rewrite app_nil_l in *.
  destruct (runtimes_identities c i sup (filter (fun r => runtime_selected c r = true) (sort_by ri_pid rs)) Hok) as (H1 & H2 & H3).
  { eapply sublist_NoDup; [|apply fmap_sublist, sublist_filter]. rewrite sort_by_perm. by apply Hok. }
  split_and!; auto; [apply Hl; done|]. exists rs. split; [done|]. apply Forall_forall. intros e He. rewrite Forall_forall in Hv, H2, H3.
  pose proof (scoped_configured c (en_metadata e) Hp (Hv e He)) as Hs. specialize (H2 e He). unfold entry_scoped in H2. split.
  - destruct (H3 e He) as (r & [Hsel Hr]%list_elem_of_filter & _ & Hent). rewrite sort_by_perm in Hr. exists r. split; [done|]. unfold runtime_selected in Hsel. apply andb_true_iff in Hsel as [Hst Hpid]. split_and!; [..|done].
    + apply orb_true_iff in Hst as [?%Z.eqb_eq|?%Z.eqb_eq]; auto.
    + apply orb_true_iff in Hpid as [?%bool_decide_eq_true|(p & Hx & ->%Z.eqb_eq)%existsb_exists]; [by left|right; by apply list_elem_of_In].
  - intros Hc. apply Hs in Hc. by rewrite H2, Hc.
  - intros Hc. destruct (scoped c (en_metadata e)); [|done]. exfalso. by apply Hc, Hs.
Qed.

(** A process with a Parameter, a service and an action, each the first of its registry. *)
Definition one_runtime : RuntimeInfo := {| ri_pid := 100; ri_process_start_ticks := 7; ri_state := ProcessStates.RUNNING; ri_executable := [101] |}.
Definition one_registry : Introspection :=
  {| is_runtimes := Ok [one_runtime]; is_supervisors := Ok [];
     is_endpoints := fun _ => [{| ei_registration_id := 1; ei_kind := RegisteredKind.PARAMETER; ei_role := RegisteredRole.PARAMETER_OWNER;
                                  ei_payload_size := td_payload_size sample_descriptor; ei_type_id := td_type_id sample_descriptor; ei_name := sample_name |}];
     is_services := fun _ => [{| si_registration_id := 1; si_name := sample_name; si_port := 9; si_service_id := 1; si_request_size := td_payload_size sample_descriptor;
                                 si_response_size := td_payload_size sample_descriptor; si_request_type_id := td_type_id sample_descriptor; si_response_type_id := td_type_id sample_descriptor |}];
     is_actions := fun _ => [{| an_registration_id := 1; an_name := sample_name; an_port := 9; an_ids := {| ai_goal_service_id := 2; ai_cancel_service_id := 3; ai_result_service_id := 4 |};
                                an_goal_type_id := td_type_id sample_descriptor; an_feedback_type_id := td_type_id sample_descriptor; an_result_type_id := td_type_id sample_descriptor;
                                an_goal_request_size := 4096; an_goal_offset := 0; an_status_size := 4096; an_feedback_offset := 0; an_result_response_size := 4096; an_result_offset := 0 |}];
     is_type := fun _ _ => Ok sample_descriptor |}.
Definition one_config : MetadataConfig :=
  {| mc_remote_topics := []; mc_remote_actions := []; mc_host := sample_host 1; mc_boot_id := sample_host 2; mc_remote_services := [sample_name]; mc_remote_parameters := [];
     mc_groups := []; mc_runtime_pids := []; mc_topic_exposure := {| xp_enabled := false; xp_allow_prefixes := []; xp_exclude_prefixes := [] |} |}.
Lemma one_registry_ok : registries_ok one_registry.
Proof. split; [intros l H; injection H as <-; apply NoDup_singleton|intros r; split; [apply NoDup_singleton|by repeat constructor]..]. Qed.
(** Three entries; the service is remote. *)
Lemma collected_metadata_sound_witness : exists found, CollectLocalMetadata one_config one_registry = Ok found /\
  md_scope <$> (en_metadata <$> found) = [NetworkScope.LOCAL; NetworkScope.REMOTE; NetworkScope.LOCAL] /\ NoDup (identity <$> found).
Proof.
  assert (Hx : match CollectLocalMetadata one_config one_registry with
               | Ok found => bool_decide (md_scope <$> (en_metadata <$> found) = [NetworkScope.LOCAL; NetworkScope.REMOTE; NetworkScope.LOCAL]) | Err _ => false end = true) by (vm_compute; reflexivity).
  destruct (CollectLocalMetadata one_config one_registry) as [found|] eqn:E; [|discriminate Hx]. apply bool_decide_eq_true in Hx. exists found.
  split; [reflexivity|]. split; [exact Hx|]. destruct (collected_metadata_sound one_config one_registry found one_registry_ok E) as (_ & _ & _ & H). exact H.
Defined.
