(* ===== verification/Registries.v ===== *)
(** * Registries of a process

    What a process publishes about itself for introspection: its types
    ([kcf/src/type_registry.cpp]) and its Topic and Parameter endpoints
    ([kcf/src/endpoint_registry.cpp], with the worker that registers types again), and how
    another process lists them ([kcf/src/introspection_client.cpp]).

    Each definition is one critical section of the registry's mutex; callers interleave at them.
    The answers of the shared memory are arguments (0 or an errno: [create] of [Create] and
    [TryCreate], [publish] of [TryPublishSnapshot], [set] of [Set]).  A registry keeps what is
    in its segment in [ty_published] and [er_published].  [struct_size], a constant of the layout,
    is left out of the snapshots. *)
From Stdlib Require Import String.
From S2P Require Import Prelude Wire NetTypes SystemScope TypeDescriptor ParameterCodec LocalMetadata.

(** ** Types *)
Inductive TypeRegistrationFailure := NO_FAILURE | INVALID_DESCRIPTOR | SCHEMA_CONFLICT | CAPACITY | STORAGE_CREATE | SNAPSHOT_PUBLISH | INACTIVE | RESOURCE.
#[export] Instance type_failure_eq_dec : EqDecision TypeRegistrationFailure.
Proof. solve_decision. Defined.
Record TypeRegistrationResult := { tq_type_id : Z; tq_error : Z; tq_failure : TypeRegistrationFailure }.
Definition Retryable (r : TypeRegistrationResult) : bool :=
  (tq_error r =? - EAGAIN) && (bool_decide (tq_failure r = STORAGE_CREATE) || bool_decide (tq_failure r = SNAPSHOT_PUBLISH)).
Definition type_failed (error : Z) (failure : TypeRegistrationFailure) : TypeRegistrationResult := {| tq_type_id := 0; tq_error := error; tq_failure := failure |}.
Definition type_registered (id : Z) : TypeRegistrationResult := {| tq_type_id := id; tq_error := 0; tq_failure := NO_FAILURE |}.
Definition MAX_TYPES := 64.
(** [ty_types]: the snapshot that the registry keeps; [ty_published]: the last one in the segment. *)
Record TypeRegistry := {
  ty_owner_pid : Z;
  ty_owner_ticks : Z;
  ty_storage : bool;
  ty_types : list TypeDescriptor;
  ty_published : option (list TypeDescriptor)
}.
Definition ty_set_owner (pid : Z) (ticks : Z) (t : TypeRegistry) : TypeRegistry :=
  {| ty_owner_pid := pid; ty_owner_ticks := ticks; ty_storage := ty_storage t; ty_types := ty_types t; ty_published :=
     ty_published t |}.
Definition ty_create (t : TypeRegistry) : TypeRegistry :=
  {| ty_owner_pid := ty_owner_pid t; ty_owner_ticks := ty_owner_ticks t; ty_storage := true; ty_types := [];
     ty_published := None |}.
Definition ty_publish (l : list TypeDescriptor) (t : TypeRegistry) : TypeRegistry :=
  {| ty_owner_pid := ty_owner_pid t; ty_owner_ticks := ty_owner_ticks t; ty_storage := ty_storage t; ty_types := l;
     ty_published := Some l |}.
Definition ty_close (t : TypeRegistry) : TypeRegistry :=
  {| ty_owner_pid := ty_owner_pid t; ty_owner_ticks := ty_owner_ticks t; ty_storage := false; ty_types := [];
     ty_published := None |}.
Definition equal_field (x y : TypeFieldInfo) : bool :=
  (c_str (tf_name x) =?? c_str (tf_name y)) && (tf_kind x =? tf_kind y) && (tf_offset x =? tf_offset y) && (tf_element_size x =? tf_element_size y) && (tf_array_count x =? tf_array_count y).
Fixpoint equal_fields (xs ys : list TypeFieldInfo) : bool :=
  match xs, ys with [], [] => true | x :: xs, y :: ys => equal_field x y && equal_fields xs ys | _, _ => false end.
Definition Equal (a b : TypeDescriptor) : bool :=
  (td_type_id a =? td_type_id b) && (c_str (td_type_name a) =?? c_str (td_type_name b)) && (td_payload_size a =? td_payload_size b) &&
  (td_payload_alignment a =? td_payload_alignment b) && (td_field_count a =? td_field_count b) && equal_fields (used_fields a) (used_fields b).
Definition normalize_field (f : TypeFieldInfo) : TypeFieldInfo :=
  {| tf_name := pad FIELD_NAME_SIZE (c_str (tf_name f)); tf_kind := tf_kind f; tf_offset := tf_offset f; tf_element_size := tf_element_size f; tf_array_count := tf_array_count f |}.
Definition Normalize (d : TypeDescriptor) : TypeDescriptor :=
  {| td_protocol_version := 1; td_struct_size := sizeof_TypeDescriptor; td_type_id := td_type_id d; td_type_name := pad TYPE_NAME_SIZE (c_str (td_type_name d));
     td_payload_size := td_payload_size d; td_payload_alignment := td_payload_alignment d; td_field_count := td_field_count d;
     td_fields := map normalize_field (used_fields d) ++ repeat no_field (Z.to_nat MAX_TYPE_FIELDS - length (used_fields d)) |}.
Section Process.
(** [getpid()] *)
Context (self : Z).
Definition BeginTypeRegistry (pid ticks : Z) (t : TypeRegistry) : TypeRegistry := if ty_storage t then t else ty_set_owner pid ticks t.
Definition find_type (id : Z) (l : list TypeDescriptor) : option TypeDescriptor := List.find (fun d => td_type_id d =? id) l.
(** With a segment. *)
Definition register_stored (publish : Z) (d : TypeDescriptor) (t : TypeRegistry) : TypeRegistrationResult * TypeRegistry :=
  match find_type (td_type_id d) (ty_types t) with
  | Some old => (if Equal old d then type_registered (td_type_id d) else type_failed (- EEXIST) SCHEMA_CONFLICT, t)
  | None =>
      if MAX_TYPES <=? Z.of_nat (length (ty_types t)) then (type_failed (- ENOSPC) CAPACITY, t)
      else if negb (publish =? 0) then (type_failed publish SNAPSHOT_PUBLISH, t)
      else (type_registered (td_type_id d), ty_publish (ty_types t ++ [Normalize d]) t)
  end.
Definition RegisterTypeDetailed (create publish : Z) (d : TypeDescriptor) (t : TypeRegistry) : TypeRegistrationResult * TypeRegistry :=
  if negb (ValidateTypeDescriptor d) then (type_failed (- EINVAL) INVALID_DESCRIPTOR, t)
  else if negb (ty_owner_pid t =? self) || (ty_owner_ticks t =? 0) then (type_failed (- ESHUTDOWN) INACTIVE, t)
  else if ty_storage t then register_stored publish d t
  else if negb (create =? 0) then (type_failed create STORAGE_CREATE, t)
  else register_stored publish d (ty_create t).
Definition EndTypeRegistry (t : TypeRegistry) : TypeRegistry :=
  if negb (ty_owner_pid t =? self) then t else ty_set_owner 0 0 (if ty_storage t then ty_close t else t).

(** ** Endpoints *)
Definition MAX_ENDPOINTS := 128.
Definition ENDPOINT_NAME_SIZE := 241.
Record EndpointRegistrySnapshot := { ns_protocol_version : Z; ns_pid : Z; ns_process_start_ticks : Z; ns_revision : Z; ns_endpoints : list EndpointInfo }.
Record Recovery := {
  rc_id : Z; rc_initial : TypeRegistrationResult; rc_latest : TypeRegistrationResult; rc_attempts : Z; rc_pending : bool; rc_recovered : bool; rc_descriptor : option TypeDescriptor
}.
Definition no_recovery : Recovery :=
  {| rc_id := 0; rc_initial := type_registered 0; rc_latest := type_registered 0; rc_attempts := 0; rc_pending := false; rc_recovered := false; rc_descriptor := None |}.
Record EndpointRegistry := {
  er_storage : bool;
  er_snapshot : EndpointRegistrySnapshot;
  er_published : option EndpointRegistrySnapshot;
  er_last_id : Z;
  er_recoveries : list Recovery;
  er_stopping : bool;
  er_worker : bool
}.
Definition er_set_stopping (b : bool) (s : EndpointRegistry) : EndpointRegistry :=
  {| er_storage := er_storage s; er_snapshot := er_snapshot s; er_published := er_published s; er_last_id :=
     er_last_id s; er_recoveries := er_recoveries s; er_stopping := b; er_worker := er_worker s |}.
Definition er_set_worker (b : bool) (s : EndpointRegistry) : EndpointRegistry :=
  {| er_storage := er_storage s; er_snapshot := er_snapshot s; er_published := er_published s; er_last_id :=
     er_last_id s; er_recoveries := er_recoveries s; er_stopping := er_stopping s; er_worker := b |}.
Definition er_set_recoveries (l : list Recovery) (s : EndpointRegistry) : EndpointRegistry :=
  {| er_storage := er_storage s; er_snapshot := er_snapshot s; er_published := er_published s; er_last_id :=
     er_last_id s; er_recoveries := l; er_stopping := er_stopping s; er_worker := er_worker s |}.
Definition er_begin (n : EndpointRegistrySnapshot) (created : bool) (s : EndpointRegistry) : EndpointRegistry :=
  {| er_storage := created; er_snapshot := n; er_published := (if created then Some n else None); er_last_id :=
     er_last_id s; er_recoveries := er_recoveries s; er_stopping := er_stopping s; er_worker := er_worker s |}.
Definition er_unlink (s : EndpointRegistry) : EndpointRegistry :=
  {| er_storage := false; er_snapshot := er_snapshot s; er_published := None; er_last_id := er_last_id s;
     er_recoveries := er_recoveries s; er_stopping := er_stopping s; er_worker := er_worker s |}.
Definition er_commit (n : EndpointRegistrySnapshot) (s : EndpointRegistry) : EndpointRegistry :=
  {| er_storage := er_storage s; er_snapshot := n; er_published := Some n; er_last_id := er_last_id s; er_recoveries
     := er_recoveries s; er_stopping := er_stopping s; er_worker := er_worker s |}.
Definition er_keep (n : EndpointRegistrySnapshot) (s : EndpointRegistry) : EndpointRegistry :=
  {| er_storage := er_storage s; er_snapshot := n; er_published := er_published s; er_last_id := er_last_id s;
     er_recoveries := er_recoveries s; er_stopping := er_stopping s; er_worker := er_worker s |}.
Definition er_next_id (s : EndpointRegistry) : EndpointRegistry :=
  {| er_storage := er_storage s; er_snapshot := er_snapshot s; er_published := er_published s; er_last_id :=
     er_last_id s + 1; er_recoveries := er_recoveries s; er_stopping := er_stopping s; er_worker := er_worker s |}.
Definition with_endpoints (revision : Z) (l : list EndpointInfo) (n : EndpointRegistrySnapshot) : EndpointRegistrySnapshot :=
  {| ns_protocol_version := ns_protocol_version n; ns_pid := ns_pid n; ns_process_start_ticks := ns_process_start_ticks n; ns_revision := revision; ns_endpoints := l |}.
Definition first_snapshot (pid ticks : Z) : EndpointRegistrySnapshot := {| ns_protocol_version := 2; ns_pid := pid; ns_process_start_ticks := ticks; ns_revision := 0; ns_endpoints := [] |}.
Definition new_registry : EndpointRegistry :=
  {| er_storage := false; er_snapshot := first_snapshot 0 0; er_published := None; er_last_id := 0; er_recoveries := repeat no_recovery (Z.to_nat MAX_ENDPOINTS);
     er_stopping := false; er_worker := false |}.
Definition Active (s : EndpointRegistry) : bool := er_storage s && (ns_pid (er_snapshot s) =? self).
(** The snapshot is set; a segment that refuses it is given up. *)
Definition store (set : Z) (n : EndpointRegistrySnapshot) (s : EndpointRegistry) : EndpointRegistry :=
  if set =? 0 then er_commit n s else er_unlink (er_keep n s).
Definition BeginEndpointRegistry (pid ticks create : Z) (s : EndpointRegistry) : EndpointRegistry :=
  if er_storage s then s else er_begin (first_snapshot pid ticks) (create =? 0) (er_set_stopping false s).
(** [EndEndpointRegistry] before and behind the join of the worker. *)
Definition end_request (s : EndpointRegistry) : EndpointRegistry := er_set_stopping true s.
Definition end_finish (s : EndpointRegistry) : EndpointRegistry :=
  let s := er_set_recoveries (repeat no_recovery (length (er_recoveries s))) (er_set_worker false s) in
  if Active s then er_unlink s else s.
(** [typed]: a diagnostic type name is given. *)
Definition RegisterEndpoint (kind role : Z) (name : list Z) (payload_size : Z) (typed : bool) (type_id set : Z) (s : EndpointRegistry) : Z * EndpointRegistry :=
  let n := er_snapshot s in
  if er_stopping s || negb (Active s) || (MAX_ENDPOINTS <=? Z.of_nat (length (ns_endpoints n))) || (er_last_id s =? UINT64_MAX) || (ns_revision n =? UINT64_MAX) ||
     (name =?? []) || (ENDPOINT_NAME_SIZE <=? vsize name) || has_nul name || negb typed then (0, s)
  else
    let info := {| ei_registration_id := er_last_id s + 1; ei_kind := kind; ei_role := role; ei_payload_size := payload_size; ei_type_id := type_id; ei_name := name |} in
    let s := store set (with_endpoints (ns_revision n + 1) (ns_endpoints n ++ [info]) n) (er_next_id s) in
    (if set =? 0 then ei_registration_id info else 0, s).
(** [snapshot.endpoints[i]=snapshot.endpoints[--endpoint_count]] for the first entry with the id. *)
Definition is_id (id : Z) (e : EndpointInfo) : bool := ei_registration_id e =? id.
Definition find_index (id : Z) (l : list EndpointInfo) : option nat := fst <$> list_find (fun e => is_id id e = true) l.
Definition swap_remove (i : nat) (l : list EndpointInfo) : list EndpointInfo :=
  match last l with Some e => take (length l - 1) (<[i:=e]> l) | None => l end.
Definition drop_recovery (id : Z) (r : Recovery) : Recovery := if rc_id r =? id then no_recovery else r.
Definition UnregisterEndpoint (id set : Z) (s : EndpointRegistry) : EndpointRegistry :=
  if id =? 0 then s
  else
    let s := er_set_recoveries (map (drop_recovery id) (er_recoveries s)) s in
    if negb (Active s) then s
    else
      let n := er_snapshot s in
      match find_index id (ns_endpoints n) with
      | None => s
      | Some i =>
          let l := swap_remove i (ns_endpoints n) in
          if ns_revision n =? UINT64_MAX then er_unlink (er_keep (with_endpoints (ns_revision n) l n) s)
          else store set (with_endpoints (ns_revision n + 1) l n) s
      end.
(** The last part of [RegisterEndpointWithType]: the result of the type registration is kept in a free slot and, if it
    may be tried again, the worker is started; [resources]: the copy of the descriptor and the thread. *)
Definition track (id : Z) (result : TypeRegistrationResult) (d : TypeDescriptor) (resources : bool) : Recovery :=
  if Retryable result then
    if resources then {| rc_id := id; rc_initial := result; rc_latest := result; rc_attempts := 0; rc_pending := true; rc_recovered := false; rc_descriptor := Some d |}
    else {| rc_id := id; rc_initial := result; rc_latest := type_failed (- ENOMEM) RESOURCE; rc_attempts := 0; rc_pending := false; rc_recovered := false; rc_descriptor := None |}
  else {| rc_id := id; rc_initial := result; rc_latest := result; rc_attempts := 0; rc_pending := false; rc_recovered := false; rc_descriptor := None |}.
Definition track_type (id : Z) (result : TypeRegistrationResult) (d : TypeDescriptor) (resources : bool) (s : EndpointRegistry) : EndpointRegistry :=
  if er_stopping s || negb (Active s) then s
  else if negb (existsb (is_id id) (ns_endpoints (er_snapshot s))) then s
  else match list_find (fun r => rc_id r = 0) (er_recoveries s) with
  | None => s
  | Some (i, _) =>
      let s := er_set_recoveries (<[i := track id result d resources]> (er_recoveries s)) s in
      if Retryable result && resources then er_set_worker true s else s
  end.
(** The parts of [RegisterEndpointWithType] in a row. *)
Definition RegisterEndpointWithType (kind role : Z) (name : list Z) (size : Z) (diagnostic : bool) (descriptor : option TypeDescriptor) (create publish set : Z) (resources : bool)
    (s : EndpointRegistry) (t : TypeRegistry) : Z * EndpointRegistry * TypeRegistry :=
  match descriptor with
  | None => let (id, s) := RegisterEndpoint kind role name size diagnostic 0 set s in (id, s, t)
  | Some d =>
      let (result, t) := RegisterTypeDetailed create publish d t in
      let (id, s) := RegisterEndpoint kind role name size diagnostic (tq_type_id result) set s in
      if id =? 0 then (0, s, t) else (id, track_type id result d resources s, t)
  end.
(** One entry of the pass of [Recover]; [answers]: of the two registries' segments. *)
Definition rc_stop (r : Recovery) : Recovery :=
  {| rc_id := rc_id r; rc_initial := rc_initial r; rc_latest := rc_latest r; rc_attempts := rc_attempts r; rc_pending := false; rc_recovered := rc_recovered r; rc_descriptor := None |}.
Definition rc_update (latest : TypeRegistrationResult) (pending recovered : bool) (r : Recovery) : Recovery :=
  {| rc_id := rc_id r; rc_initial := rc_initial r; rc_latest := latest; rc_attempts := u32 (rc_attempts r + 1); rc_pending := pending; rc_recovered := recovered;
     rc_descriptor := if pending then rc_descriptor r else None |}.
Definition set_type (id : Z) (e : EndpointInfo) : EndpointInfo :=
  {| ei_registration_id := ei_registration_id e; ei_kind := ei_kind e; ei_role := ei_role e; ei_payload_size := ei_payload_size e; ei_type_id := id; ei_name := ei_name e |}.
Record RecoverAnswers := { ra_create : Z; ra_publish : Z; ra_set : Z }.
Definition recover_one (a : RecoverAnswers) (r : Recovery) (s : EndpointRegistry) (t : TypeRegistry) : Recovery * EndpointRegistry * TypeRegistry :=
  match rc_pending r, rc_descriptor r with
  | true, Some d =>
      if negb (Active s) then (rc_stop r, s, t)
      else
        let n := er_snapshot s in
        match find_index (rc_id r) (ns_endpoints n) with
        | None => (no_recovery, s, t)
        | Some i =>
            let (result, t) := RegisterTypeDetailed (ra_create a) (ra_publish a) d t in
            if negb (tq_type_id result =? 0) then
              if ns_revision n =? UINT64_MAX then (rc_update (type_failed (- EOVERFLOW) RESOURCE) false (rc_recovered r) r, s, t)
              else
                let s := store (ra_set a) (with_endpoints (ns_revision n + 1) (alter (set_type (tq_type_id result)) i (ns_endpoints n)) n) s in
                (if ra_set a =? 0 then rc_update result false true r else rc_update (type_failed (ra_set a) SNAPSHOT_PUBLISH) false (rc_recovered r) r, s, t)
            else (rc_update result (Retryable result && (u32 (rc_attempts r + 1) <? 64)) (rc_recovered r) r, s, t)
        end
  | _, _ => (r, s, t)
  end.
Fixpoint recover_all (answers : list RecoverAnswers) (rs : list Recovery) (s : EndpointRegistry) (t : TypeRegistry) : list Recovery * EndpointRegistry * TypeRegistry :=
  match rs with
  | [] => ([], s, t)
  | r :: rs =>
      let a := hd {| ra_create := 0; ra_publish := 0; ra_set := 0 |} answers in
      let '(r, s, t) := recover_one a r s t in
      let '(rs, s, t) := recover_all (tl answers) rs s t in (r :: rs, s, t)
  end.
Definition Recover (answers : list RecoverAnswers) (s : EndpointRegistry) (t : TypeRegistry) : EndpointRegistry * TypeRegistry :=
  let '(rs, s, t) := recover_all answers (er_recoveries s) s t in (er_set_recoveries rs s, t).
Definition GetEndpointTypeRegistrationStatus (id : Z) (s : EndpointRegistry) : option Recovery :=
  if id =? 0 then None else List.find (fun r => rc_id r =? id) (er_recoveries s).

(** ** Listing, in another process *)
(** [identity]: the start of the process before and after, [None] when it is gone; [opened], [read]: of the segment. *)
Record Inspection (A : Type) := { ix_before : option Z; ix_opened : Z; ix_read : result A; ix_after : option Z }.
Arguments ix_before {A}. Arguments ix_opened {A}. Arguments ix_read {A}. Arguments ix_after {A}.
Definition same_start (identity : option Z) (r : RuntimeInfo) : bool := match identity with Some ticks => ticks =? ri_process_start_ticks r | None => false end.
Definition role_valid (e : EndpointInfo) : bool :=
  ((ei_kind e =? RegisteredKind.TOPIC) && ((ei_role e =? RegisteredRole.PUBLISHER) || (ei_role e =? RegisteredRole.SUBSCRIBER))) ||
  ((ei_kind e =? RegisteredKind.PARAMETER) && ((ei_role e =? RegisteredRole.PARAMETER_OWNER) || (ei_role e =? RegisteredRole.PARAMETER_CLIENT))).
Definition entry_valid (e : EndpointInfo) : bool :=
  role_valid e && negb (ei_registration_id e =? 0) && negb (ei_payload_size e =? 0) && negb (ei_name e =?? []) && (vsize (ei_name e) <? ENDPOINT_NAME_SIZE).
Fixpoint check_entries (found rest : list EndpointInfo) : result (list EndpointInfo) :=
  match rest with
  | [] => Ok found
  | e :: rest => if negb (entry_valid e) then Err (- EPROTO)
                 else if existsb (is_id (ei_registration_id e)) found then Err (- EPROTO)
                 else check_entries (found ++ [e]) rest
  end.
(** The steps that the lists share: the process is the one meant before and after, [check] judges the snapshot. *)
Definition inspect {A B} (r : RuntimeInfo) (x : Inspection A) (check : A -> result B) : result B :=
  if (ri_pid r <=? 0) || (ri_process_start_ticks r =? 0) then Err (- EINVAL)
  else if negb (same_start (ix_before x) r) then Err (- ENOENT)
  else if negb (ix_opened x =? 0) then Err (ix_opened x)
  else
    let? snapshot := ix_read x in
    let? found := check snapshot in
    if negb (same_start (ix_after x) r) then Err (- ENOENT) else Ok found.
Definition ListEndpoints (r : RuntimeInfo) (x : Inspection EndpointRegistrySnapshot) : result (list EndpointInfo) :=
  inspect r x (fun n =>
    if negb (ns_protocol_version n =? 2) || negb (ns_pid n =? ri_pid r) || negb (ns_process_start_ticks n =? ri_process_start_ticks r) ||
       (MAX_ENDPOINTS <? Z.of_nat (length (ns_endpoints n))) then Err (- EPROTO)
    else check_entries [] (ns_endpoints n)).
Record TypeRegistrySnapshot := { nt_protocol_version : Z; nt_pid : Z; nt_process_start_ticks : Z; nt_types : list TypeDescriptor }.
Fixpoint check_types (found rest : list TypeDescriptor) : result (list TypeDescriptor) :=
  match rest with
  | [] => Ok found
  | d :: rest => if negb (ValidateTypeDescriptor d) then Err (- EPROTO)
                 else if existsb (fun p => td_type_id p =? td_type_id d) found then Err (- EPROTO)
                 else check_types (found ++ [d]) rest
  end.
Definition ListTypes (r : RuntimeInfo) (x : Inspection TypeRegistrySnapshot) : result (list TypeDescriptor) :=
  inspect r x (fun n =>
    if negb (nt_protocol_version n =? 1) || negb (nt_pid n =? ri_pid r) || negb (nt_process_start_ticks n =? ri_process_start_ticks r) ||
       (MAX_TYPES <? Z.of_nat (length (nt_types n))) then Err (- EPROTO)
    else check_types [] (nt_types n)).
Definition GetType (r : RuntimeInfo) (x : Inspection TypeRegistrySnapshot) (type_id : Z) : result TypeDescriptor :=
  if type_id =? 0 then Err (- EINVAL)
  else let? types := ListTypes r x in match find_type type_id types with Some d => Ok d | None => Err (- ENOENT) end.

(** ** The machine of the two registries *)
Record Registries := { rg_types : TypeRegistry; rg_endpoints : EndpointRegistry }.
Definition new_types : TypeRegistry := {| ty_owner_pid := 0; ty_owner_ticks := 0; ty_storage := false; ty_types := []; ty_published := None |}.
Definition new_registries : Registries := {| rg_types := new_types; rg_endpoints := new_registry |}.
Inductive RegistryEvent :=
| RgBegin (pid ticks create : Z)
| RgType (d : TypeDescriptor) (create publish : Z)
| RgRegister (kind role : Z) (name : list Z) (payload_size : Z) (typed : bool) (type_id set : Z)
| RgTrack (id : Z) (result : TypeRegistrationResult) (d : TypeDescriptor) (resources : bool)
| RgRecover (answers : list RecoverAnswers)
| RgUnregister (id set : Z)
| RgEndRequest
| RgEndFinish
| RgEndTypes.
Definition on_endpoints (f : EndpointRegistry -> EndpointRegistry) (g : Registries) : Registries := {| rg_types := rg_types g; rg_endpoints := f (rg_endpoints g) |}.
Definition on_types (f : TypeRegistry -> TypeRegistry) (g : Registries) : Registries := {| rg_types := f (rg_types g); rg_endpoints := rg_endpoints g |}.
Definition registry_event (g : Registries) (e : RegistryEvent) : Registries :=
  match e with
  | RgBegin pid ticks create => on_endpoints (BeginEndpointRegistry pid ticks create) (on_types (BeginTypeRegistry pid ticks) g)
  | RgType d create publish => on_types (fun t => snd (RegisterTypeDetailed create publish d t)) g
  | RgRegister kind role name size typed type_id set => on_endpoints (fun s => snd (RegisterEndpoint kind role name size typed type_id set s)) g
  | RgTrack id result d resources => on_endpoints (track_type id result d resources) g
  | RgRecover answers =>
      if er_worker (rg_endpoints g) && negb (er_stopping (rg_endpoints g))
      then let (s, t) := Recover answers (rg_endpoints g) (rg_types g) in {| rg_types := t; rg_endpoints := s |} else g
  | RgUnregister id set => on_endpoints (UnregisterEndpoint id set) g
  | RgEndRequest => on_endpoints end_request g
  | RgEndFinish => on_endpoints end_finish g
  | RgEndTypes => on_types EndTypeRegistry g
  end.
Definition registry_run (es : list RegistryEvent) : Registries := foldl registry_event new_registries es.

(** ** The table of endpoints *)
(** What the callers know is registered, from what they ask for and the answers they get: a
    registration that returns an id adds the endpoint asked for under that id, a removal ends the
    one with the id, a runtime that begins starts with none.  A pass of the recovery worker gives an
    endpoint the type that its status shows as recovered. *)
Definition retype (l : list EndpointInfo) (x : Recovery * Recovery) : list EndpointInfo :=
  let (r, r') := x in
  if rc_pending r && rc_recovered r' then map (fun e => if is_id (rc_id r) e then set_type (tq_type_id (rc_latest r')) e else e) l else l.
Record Account := { ac_registered : list EndpointInfo; ac_ids : list Z }.
Definition account_step (x : Registries * Account) (e : RegistryEvent) : Registries * Account :=
  let (g, a) := x in
  let g' := registry_event g e in
  (g', match e with
       | RgBegin _ _ _ => if er_storage (rg_endpoints g) then a else {| ac_registered := []; ac_ids := ac_ids a |}
       | RgRegister kind role name size typed type_id set =>
           let id := fst (RegisterEndpoint kind role name size typed type_id set (rg_endpoints g)) in
           if id =? 0 then a
           else {| ac_registered := ac_registered a ++ [{| ei_registration_id := id; ei_kind := kind; ei_role := role; ei_payload_size := size; ei_type_id := type_id; ei_name := name |}];
                   ac_ids := ac_ids a ++ [id] |}
       | RgUnregister id _ => {| ac_registered := filter (fun e => ei_registration_id e <> id) (ac_registered a); ac_ids := ac_ids a |}
       | RgRecover _ =>
           {| ac_registered := foldl retype (ac_registered a) (zip (er_recoveries (rg_endpoints g)) (er_recoveries (rg_endpoints g'))); ac_ids := ac_ids a |}
       | _ => a
       end).
Definition account (es : list RegistryEvent) : Account := snd (foldl account_step (new_registries, {| ac_registered := []; ac_ids := [] |}) es).
Definition ids (l : list EndpointInfo) : list Z := map ei_registration_id l.
Definition name_valid (e : EndpointInfo) : Prop := ei_name e <> [] /\ vsize (ei_name e) < ENDPOINT_NAME_SIZE.
Definition kind_valid (e : EndpointInfo) : Prop := role_valid e = true /\ ei_payload_size e <> 0.
Record table_ok (last : Z) (l : list EndpointInfo) : Prop := {
  to_ids : NoDup (ids l) /\ Forall (fun id => 1 <= id <= last) (ids l);
  to_size : Z.of_nat (length l) <= MAX_ENDPOINTS;
  to_entries : Forall (fun e => name_valid e /\ kind_valid e) l
}.
Definition undecided (r : Recovery) : Prop := rc_pending r = true -> rc_recovered r = false.
Abbreviation table s := (ns_endpoints (er_snapshot s)).
Record er_ok (s : EndpointRegistry) : Prop := {
  eo_table : table_ok (er_last_id s) (table s);
  eo_last : 0 <= er_last_id s <= UINT64_MAX;
  eo_protocol : ns_protocol_version (er_snapshot s) = 2;
  eo_published : er_published s = if er_storage s then Some (er_snapshot s) else None;
  eo_own : er_storage s = true -> ns_pid (er_snapshot s) = self
}.
Lemma find_index_spec id l i : find_index id l = Some i -> exists e, l !! i = Some e /\ ei_registration_id e = id.
Proof.
  unfold find_index. intros H. destruct (list_find _ l) as [[j e]|] eqn:E; [|done]. cbn in H. apply (inj Some) in H as <-. apply list_find_Some in E as (H1 & H2 & _).
  exists e. split; [done|]. by apply Z.eqb_eq in H2.
Qed.
Lemma swap_remove_perm i l e : l !! i = Some e -> e :: swap_remove i l ≡ₚ l.
Proof.
  intros Hi. unfold swap_remove. destruct (last l) as [x|] eqn:El; [|by apply last_None in El; subst]. apply last_Some in El as [k ->]. rewrite length_app. cbn [length].
  replace (length k + 1 - 1)%nat with (length k) by lia. destruct (decide (i < length k)%nat) as [Hl|Hl].
  - rewrite lookup_app_l in Hi by done. rewrite insert_app_l by done. rewrite take_app_le by (rewrite length_insert; lia). rewrite take_ge by (rewrite length_insert; lia).
    destruct (list_elem_of_split_length _ _ _ Hi) as (a & b & -> & ->). rewrite insert_app_r_alt, Nat.sub_diag by lia. cbn. solve_Permutation.
  - rewrite lookup_app_r in Hi by lia. destruct (i - length k)%nat as [|m] eqn:Em; [|done]. cbn in Hi. apply (inj Some) in Hi as ->. rewrite insert_app_r_alt, Em by lia. cbn. rewrite take_app_length. solve_Permutation.
Qed.
Lemma ids_perm l k : l ≡ₚ k -> ids l ≡ₚ ids k.
Proof. intros H. unfold ids. by rewrite H. Qed.
Lemma ids_other id l : id ∉ ids l -> filter (fun e => ei_registration_id e <> id) l = l.
Proof.
  intros H. induction l as [|e l IH]; [done|]. cbn in H. apply not_elem_of_cons in H as [H1 H2]. rewrite filter_cons. case_decide; [by rewrite IH|]. exfalso. auto.
Qed.
Lemma swap_remove_filter i l e : NoDup (ids l) -> l !! i = Some e -> swap_remove i l ≡ₚ filter (fun x => ei_registration_id x <> ei_registration_id e) l.
Proof.
  intros Hn Hi. pose proof (swap_remove_perm i l e Hi) as Hp. rewrite <- (ids_perm _ _ Hp) in Hn. cbn in Hn. trans (filter (fun x => ei_registration_id x <> ei_registration_id e) (e :: swap_remove i l)); [|by rewrite Hp].
  rewrite filter_cons. case_decide; [done|]. apply NoDup_cons in Hn as [Hn _]. by rewrite ids_other.
Qed.
Lemma ids_alter f i l : (forall e, ei_registration_id (f e) = ei_registration_id e) -> ids (alter f i l) = ids l.
Proof. intros Hf. revert i. induction l as [|e l IH]; intros [|i]; cbn; [done..|by rewrite Hf|]. f_equal. apply IH. Qed.
Lemma alter_map f i l e : NoDup (ids l) -> l !! i = Some e -> alter f i l = map (fun x => if is_id (ei_registration_id e) x then f x else x) l.
Proof.
  revert i. induction l as [|x l IH]; intros [|i] Hn Hi; cbn in Hn, Hi; try done; apply NoDup_cons in Hn as [Hx Hn].
  - apply (inj Some) in Hi as ->. cbn. unfold is_id at 1. rewrite Z.eqb_refl. f_equal. clear -Hx. induction l as [|y l IH]; [done|]. cbn in Hx. apply not_elem_of_cons in Hx as [H1 H2]. cbn.
    rewrite <- IH by done. unfold is_id. by rewrite (proj2 (Z.eqb_neq _ _)).
  - cbn. assert (Hne : ei_registration_id x <> ei_registration_id e). { intros E. apply Hx. rewrite E. apply list_elem_of_fmap. exists e. split; [done|]. by eapply list_elem_of_lookup_2. }
    unfold is_id at 1. rewrite (proj2 (Z.eqb_neq _ _)) by done. f_equal. by apply IH.
Qed.
Lemma map_typed_perm id t l k : l ≡ₚ k -> map (fun x => if is_id id x then set_type t x else x) l ≡ₚ map (fun x => if is_id id x then set_type t x else x) k.
Proof. intros H. by rewrite H. Qed.
(** ** The operations keep the invariant *)
Lemma er_ok_members s s' : er_snapshot s' = er_snapshot s -> er_published s' = er_published s -> er_storage s' = er_storage s -> er_last_id s' = er_last_id s -> er_ok s -> er_ok s'.
Proof. intros E1 E2 E3 E4 []. constructor; rewrite ?E1, ?E2, ?E3, ?E4; auto. Qed.
Lemma er_ok_unlink s : er_ok s -> er_ok (er_unlink s).
Proof. intros []. constructor; cbn [er_unlink er_snapshot er_published er_storage er_last_id]; auto; done. Qed.
Lemma active_storage s : er_ok s -> Active s = er_storage s.
Proof. intros []. unfold Active. destruct (er_storage s); [|done]. by rewrite eo_own0, Z.eqb_refl. Qed.
(** A new table is set, or given up with the segment. *)
Lemma er_ok_kept s last l revision s1 : er_ok s -> er_storage s = true -> table_ok last l -> er_last_id s <= last <= UINT64_MAX -> er_snapshot s1 = er_snapshot s -> er_last_id s1 = last ->
  er_ok (er_unlink (er_keep (with_endpoints revision l (er_snapshot s1)) s1)).
Proof. intros [] Hst Ht Hl E1 E2. constructor; cbn; rewrite ?E1, ?E2; auto; try done; lia. Qed.
Lemma er_ok_store s last l set revision s1 : er_ok s -> er_storage s = true -> table_ok last l -> er_last_id s <= last <= UINT64_MAX -> er_snapshot s1 = er_snapshot s ->
  er_storage s1 = er_storage s -> er_last_id s1 = last -> er_ok (store set (with_endpoints revision l (er_snapshot s1)) s1).
Proof.
  intros Hs Hst Ht Hl E1 E2 E3. unfold store. destruct (set =? 0); [|by eapply er_ok_kept]. destruct Hs. constructor; cbn; rewrite ?E1, ?E2, ?E3, ?Hst; auto; lia.
Qed.
Lemma store_table set revision l n s : er_storage (store set (with_endpoints revision l n) s) = true -> set = 0 /\ table (store set (with_endpoints revision l n) s) = l.
Proof. unfold store. destruct (Z.eqb_spec set 0); done. Qed.
Lemma er_ok_begin ticks create s : er_ok s -> er_ok (BeginEndpointRegistry self ticks create s).
Proof.
  intros H. unfold BeginEndpointRegistry. destruct (er_storage s); [done|]. destruct H. constructor; cbn; auto. constructor; cbn; [split; constructor|unfold MAX_ENDPOINTS; lia|constructor].
Qed.
Lemma er_ok_end s : er_ok s -> er_ok (end_finish s).
Proof.
  intros H. unfold end_finish. set (s1 := er_set_recoveries _ _). assert (H1 : er_ok s1) by (eapply (er_ok_members s); done). destruct (Active s1); [by apply er_ok_unlink|done].
Qed.
Definition caller_endpoint (kind role payload_size : Z) : Prop := role_valid {| ei_registration_id := 0; ei_kind := kind; ei_role := role; ei_payload_size := payload_size; ei_type_id := 0; ei_name := [] |} = true /\ payload_size <> 0.
(** A registration: refused, or an id above all given before, in the table if the segment takes it. *)
Lemma register_spec kind role name size typed type_id set s : er_ok s -> caller_endpoint kind role size ->
  let (id, s') := RegisterEndpoint kind role name size typed type_id set s in
  er_ok s' /\ er_last_id s <= er_last_id s' /\ (id <> 0 -> er_last_id s < id <= er_last_id s') /\
  (er_storage s' = true -> er_storage s = true /\
     table s' = if id =? 0 then table s
                else table s ++ [{| ei_registration_id := id; ei_kind := kind; ei_role := role; ei_payload_size := size; ei_type_id := type_id; ei_name := name |}]).
Proof.
  intros H [Hr Hz]. unfold RegisterEndpoint. match goal with |- context[if ?b then _ else _] => destruct b eqn:Eb end; [by split_and!|].
  rewrite !orb_false_iff in Eb. destruct Eb as ((((((((_ & Ha) & Hl) & Hid) & _) & Hne) & Hn) & _) & _). apply negb_false_iff in Ha. apply Z.leb_gt in Hl, Hn. apply Z.eqb_neq in Hid. apply bool_decide_eq_false in Hne.
  rewrite (active_storage s H) in Ha. set (info := Build_EndpointInfo _ _ _ _ _ _). pose proof (eo_last s H) as Hlast.
  assert (Ht : table_ok (er_last_id s + 1) (table s ++ [info])).
  { destruct H. destruct eo_table0 as [[I1 I2] T1 T2]. constructor.
    - unfold ids. rewrite map_app. cbn. split.
      + apply NoDup_snoc; [done|]. intros Hx. rewrite Forall_forall in I2. specialize (I2 _ Hx). cbn in I2. lia.
      + apply Forall_app. split; [eapply Forall_impl; [exact I2|]; cbn; intros; lia|]. repeat constructor; cbn; lia.
    - rewrite length_app. cbn. lia.
    - apply Forall_app. split; [done|]. constructor; [|constructor]. split; [by split|]. by split. }
  assert (El : er_last_id (store set (with_endpoints (ns_revision (er_snapshot s) + 1) (table s ++ [info]) (er_snapshot s)) (er_next_id s)) = er_last_id s + 1)
    by (unfold store; by destruct (set =? 0)).
  split; [by apply (er_ok_store s (er_last_id s + 1) _ set _ (er_next_id s)); try done; lia|]. rewrite El. split; [lia|]. split.
  - cbn [ei_registration_id info]. destruct (set =? 0); cbn; lia.
  - intros [-> Et]%store_table. split; [done|]. rewrite Et. cbn [ei_registration_id info Z.eqb]. change (0 =? 0) with true. destruct (Z.eqb_spec (er_last_id s + 1) 0); [lia|done].
Qed.
Lemma er_ok_unregister id set s : er_ok s -> let s' := UnregisterEndpoint id set s in er_ok s' /\ er_last_id s' = er_last_id s /\
  (er_storage s' = true -> er_storage s = true /\ table s' ≡ₚ filter (fun e => ei_registration_id e <> id) (table s)).
Proof.
  intros H. cbv zeta. unfold UnregisterEndpoint. pose proof (to_ids _ _ (eo_table _ H)) as [I1 I2]. destruct (Z.eqb_spec id 0) as [->|Hz].
  { split_and!; auto. intros Hs. split; [done|]. rewrite ids_other; [done|]. intros Hx. rewrite Forall_forall in I2. apply I2 in Hx. lia. }
  set (s1 := er_set_recoveries _ _). assert (H1 : er_ok s1) by (eapply (er_ok_members s); done).
  assert (E1 : er_last_id s1 = er_last_id s /\ er_storage s1 = er_storage s /\ er_snapshot s1 = er_snapshot s) by done. destruct E1 as (El & Es & En). rewrite <- El, <- Es, <- En in *. clearbody s1. clear s H El Es En.
  rewrite (active_storage s1 H1). destruct (er_storage s1) eqn:Hst; cbn [negb]; [|by rewrite Hst]. destruct (find_index id (table s1)) as [i|] eqn:Ei.
  2:{ split_and!; auto. intros _. split; [done|]. rewrite ids_other; [done|]. unfold find_index in Ei. intros (e & He & Hx)%list_elem_of_fmap. destruct (list_find _ (table s1)) as [?|] eqn:Ef; [done|].
      apply list_find_None in Ef. rewrite Forall_forall in Ef. apply (Ef e Hx). apply Z.eqb_eq. by rewrite He. }
  destruct (find_index_spec _ _ _ Ei) as (e & Hi & He). pose proof (swap_remove_perm _ _ _ Hi) as Hp. pose proof (swap_remove_filter _ _ _ I1 Hi) as Hf. rewrite He in Hf.
  assert (Ht : table_ok (er_last_id s1) (swap_remove i (table s1))).
  { pose proof (ids_perm _ _ Hp) as Hip. cbn in Hip. rewrite <- Hip in I1, I2. destruct (eo_table _ H1) as [_ T1 T2]. constructor.
    - apply NoDup_cons in I1 as [_ I1]. apply Forall_cons in I2 as [_ I2]. done.
    - apply Permutation_length in Hp. cbn in Hp. lia.
    - rewrite <- Hp in T2. by apply Forall_cons in T2 as [_ ?]. }
  pose proof (eo_last _ H1). destruct (ns_revision (er_snapshot s1) =? UINT64_MAX).
  - split; [eapply (er_ok_kept s1); try done; lia|]. split; [done|]. done.
  - split; [eapply (er_ok_store s1); try done; lia|]. split; [unfold store; by destruct (set =? 0)|]. intros [_ Et]%store_table. split; [done|]. by rewrite Et.
Qed.
(** One entry of a pass of the worker. *)
Lemma recover_one_spec a r s t : er_ok s -> undecided r -> let '(r', s', _) := recover_one a r s t in
  er_ok s' /\ er_last_id s' = er_last_id s /\ undecided r' /\ (er_storage s' = true -> er_storage s = true /\ table s' = retype (table s) (r, r')).
Proof.
  intros H Hu. assert (Hsame : forall r', rc_recovered r' = false -> table s = retype (table s) (r, r')) by (intros r' E; cbn; by rewrite E, andb_false_r).
  unfold recover_one. destruct (rc_pending r) eqn:Ep; [|split_and!; auto; intros ?; split; [done|]; cbn; by rewrite Ep]. specialize (Hu Ep). rename Hu into Hr.
  assert (Hu : undecided r) by (by intros _). destruct (rc_descriptor r) as [d|]; [|split_and!; auto].
  rewrite (active_storage s H). destruct (er_storage s) eqn:Hst; cbn [negb]; [|rewrite Hst; by split_and!].
  destruct (find_index (rc_id r) (table s)) as [i|] eqn:Ei; [|split_and!; auto; done]. destruct (RegisterTypeDetailed _ _ d t) as [result t']. destruct (Z.eqb_spec (tq_type_id result) 0) as [E|E]; cbn [negb].
  { split_and!; auto. by intros _. }
  destruct (ns_revision (er_snapshot s) =? UINT64_MAX); [split_and!; auto; done|]. destruct (find_index_spec _ _ _ Ei) as (e & Hl & He). destruct (eo_table _ H) as [[I1 I2] T1 T2]. pose proof (eo_last _ H).
  assert (Ea : alter (set_type (tq_type_id result)) i (table s) = map (fun e => if is_id (rc_id r) e then set_type (tq_type_id result) e else e) (table s)) by (by rewrite (alter_map _ _ _ e), He).
  assert (Ht : table_ok (er_last_id s) (alter (set_type (tq_type_id result)) i (table s))).
  { constructor; [by rewrite ids_alter|by rewrite length_alter|]. rewrite Ea. apply Forall_fmap. eapply Forall_impl; [exact T2|]. intros x Hx. cbn. by destruct (is_id _ x). }
  split; [eapply (er_ok_store s); try done; lia|]. split; [unfold store; by destruct (ra_set a =? 0)|]. split; [by destruct (ra_set a =? 0)|].
  intros [Es Et]%store_table. split; [done|]. rewrite Et, Ea, Es. cbn. by rewrite Ep.
Qed.
Lemma recover_all_spec rs : forall answers s t, er_ok s -> Forall undecided rs -> let '(rs', s', _) := recover_all answers rs s t in
  er_ok s' /\ er_last_id s' = er_last_id s /\ Forall undecided rs' /\ (er_storage s' = true -> er_storage s = true /\ table s' = foldl retype (table s) (zip rs rs')).
Proof.
  induction rs as [|r rs IH]; intros answers s t H Hu; cbn [recover_all]; [by split_and!|]. apply Forall_cons in Hu as [Hr Hu].
  pose proof (recover_one_spec (hd {| ra_create := 0; ra_publish := 0; ra_set := 0 |} answers) r s t H Hr) as H1. destruct (recover_one _ r s t) as [[r' s1] t1]. destruct H1 as (H1 & L1 & U1 & T1).
  specialize (IH (tl answers) s1 t1 H1 Hu). destruct (recover_all _ rs s1 t1) as [[rs' s2] t2]. destruct IH as (H2 & L2 & U2 & T2). split_and!; [done|by rewrite L2|by constructor|].
  intros Hs. destruct (T2 Hs) as [Hs1 ->]. destruct (T1 Hs1) as [Hs0 ->]. done.
Qed.
Definition caller_ok (e : RegistryEvent) : Prop :=
  match e with
  | RgBegin pid _ _ => pid = self
  | RgRegister kind role _ size _ _ _ => caller_endpoint kind role size
  | _ => True
  end.
(** The registry against what the callers know. *)
Record account_ok (g : Registries) (a : Account) : Prop := {
  cc_ok : er_ok (rg_endpoints g);
  cc_recoveries : Forall undecided (er_recoveries (rg_endpoints g));
  cc_table : er_storage (rg_endpoints g) = true -> table (rg_endpoints g) ≡ₚ ac_registered a;
  cc_ids : NoDup (ac_ids a) /\ Forall (fun id => id <= er_last_id (rg_endpoints g)) (ac_ids a)
}.
Lemma retypes_perm xs : forall l k, l ≡ₚ k -> foldl retype l xs ≡ₚ foldl retype k xs.
Proof. induction xs as [|[r r'] xs IH]; intros l k H; [done|]. cbn [foldl]. apply IH. cbn. destruct (_ && _); [by apply map_typed_perm|done]. Qed.
Lemma account_same g g' a : er_ok (rg_endpoints g') -> Forall undecided (er_recoveries (rg_endpoints g')) -> er_last_id (rg_endpoints g') = er_last_id (rg_endpoints g) ->
  (er_storage (rg_endpoints g') = true -> er_storage (rg_endpoints g) = true /\ table (rg_endpoints g') = table (rg_endpoints g)) -> account_ok g a -> account_ok g' a.
Proof.
  intros H1 H2 H3 H4 []. constructor; auto; [|by rewrite H3]. intros Hs. destruct (H4 Hs) as [? ->]. auto.
Qed.
Lemma undecided_blank (l : list Recovery) : Forall undecided (repeat no_recovery (length l)).
Proof. apply Forall_forall. intros r Hx. by apply list_elem_of_In, repeat_spec in Hx as ->. Qed.
Lemma undecided_skip rs l : Forall undecided rs -> foldl retype l (zip rs rs) = l.
Proof. revert l. induction rs as [|r rs IH]; intros l H; [done|]. apply Forall_cons in H as [Hr H]. cbn. rewrite IH by done. destruct (rc_pending r) eqn:E; [|done]. by rewrite (Hr E). Qed.
Lemma account_event g a e : caller_ok e -> account_ok g a -> let (g', a') := account_step (g, a) e in account_ok g' a'.
Proof.
  intros Hc H. pose proof H as [H1 H2 H3 [H4 H5]]. destruct e as [pid ticks create|d create publish|kind role name size typed type_id set|id result d resources|answers|id set| | |];
    cbn [account_step registry_event]; unfold on_endpoints, on_types; cbn [rg_endpoints rg_types]; try (destruct H; by constructor).
  - cbn in Hc. subst pid. pose proof (er_ok_begin ticks create _ H1) as Hb. unfold BeginEndpointRegistry in *.
    destruct (er_storage (rg_endpoints g)) eqn:Es; [by constructor; cbn; rewrite ?Es|]. constructor; cbn in *; auto.
  - pose proof (register_spec kind role name size typed type_id set _ H1 Hc) as Hs. destruct (RegisterEndpoint _ _ _ _ _ _ _ _) as [id s'] eqn:E. destruct Hs as (S1 & S2 & S3 & S4). cbn [fst snd].
    assert (Er : er_recoveries s' = er_recoveries (rg_endpoints g)).
    { replace s' with (snd (RegisterEndpoint kind role name size typed type_id set (rg_endpoints g))) by (by rewrite E). unfold RegisterEndpoint. match goal with |- context[if ?b then _ else _] => destruct b end; [done|].
      unfold store. by destruct (set =? 0). }
    destruct (Z.eqb_spec id 0) as [Ez|Ez].
    + constructor; cbn; [done|by rewrite Er|intros Hs; destruct (S4 Hs) as [? ->]; auto|]. split; [done|]. eapply Forall_impl; [exact H5|]. cbn. intros. lia.
    + constructor; cbn; [done|by rewrite Er| |].
      * intros Hs. destruct (S4 Hs) as [Hs0 ->]. by rewrite (H3 Hs0).
      * specialize (S3 Ez). split.
        { apply NoDup_snoc; [done|]. intros Hx. rewrite Forall_forall in H5. apply H5 in Hx. lia. }
        apply Forall_app. split; [eapply Forall_impl; [exact H5|]; cbn; intros; lia|]. apply Forall_singleton. lia.
  - assert (Hg : account_ok {| rg_types := rg_types g; rg_endpoints := rg_endpoints g |} a) by (by destruct g).
    unfold track_type. destruct (er_stopping _ || _); [exact Hg|]. destruct (negb _); [exact Hg|]. destruct (list_find _ _) as [[i x]|]; [|exact Hg].
    assert (Hx : Forall undecided (<[i:=track id result d resources]> (er_recoveries (rg_endpoints g)))). { apply Forall_insert; [done|]. unfold track, undecided. by destruct (Retryable result), resources. }
    eapply account_same; [..|exact H]; destruct (Retryable result && resources); cbn; auto; by apply (er_ok_members (rg_endpoints g)).
  - destruct (er_worker _ && _).
    + unfold Recover. pose proof (recover_all_spec (er_recoveries (rg_endpoints g)) answers _ (rg_types g) H1 H2) as Hr. destruct (recover_all _ _ _ _) as [[rs s'] t']. destruct Hr as (R1 & R2 & R3 & R4).
      constructor; cbn; [by apply (er_ok_members s')|done| |by rewrite R2]. intros Hs. destruct (R4 Hs) as [Hs0 ->]. by apply retypes_perm, H3.
    + rewrite undecided_skip by done. by destruct a.
  - destruct (er_ok_unregister id set _ H1) as (U1 & U2 & U3). cbv zeta in *.
    assert (Er : Forall undecided (er_recoveries (UnregisterEndpoint id set (rg_endpoints g)))).
    { unfold UnregisterEndpoint. case_check; [done|]. set (s1 := er_set_recoveries _ _). assert (Hx : Forall undecided (er_recoveries s1)).
      { cbn. apply Forall_fmap. eapply Forall_impl; [exact H2|]. intros r Hx. unfold compose, drop_recovery. by destruct (rc_id r =? id). }
      clearbody s1. case_check; [done|]. destruct (find_index _ _); [|done]. case_check; [done|]. unfold store. by destruct (set =? 0). }
    constructor; cbn; [done|done| |by rewrite U2]. intros Hs. destruct (U3 Hs) as [Hs0 ->]. by rewrite (H3 Hs0).
  - eapply account_same; [..|exact H]; cbn; auto. by apply (er_ok_members (rg_endpoints g)).
  - eapply account_same; [by apply er_ok_end|..|exact H]; unfold end_finish; cbn; destruct (Active _); cbn; auto using undecided_blank; done.
Qed.
Lemma account_run es : Forall caller_ok es -> account_ok (registry_run es) (account es).
Proof.
  intros Hc. assert (H : foldl account_step (new_registries, {| ac_registered := []; ac_ids := [] |}) es = (registry_run es, account es) /\ account_ok (registry_run es) (account es)); [|by destruct H].
  induction es as [|e es IH] using rev_ind.
  - split; [done|]. constructor; cbn; auto; [|apply Forall_forall; intros r Hx; by apply list_elem_of_In, repeat_spec in Hx as ->|by split; constructor].
    constructor; cbn; try done. constructor; cbn; [split; constructor|unfold MAX_ENDPOINTS; lia|constructor].
  - apply Forall_app in Hc as [Hc He]. apply Forall_cons in He as [He _]. destruct (IH Hc) as [E H]. unfold registry_run, account in *. rewrite !foldl_app, E. cbn [foldl].
    set (g := foldl registry_event new_registries es) in *. set (a := snd _) in *. pose proof (account_event g a e He H) as Hs. assert (Eg : fst (account_step (g, a) e) = registry_event g e) by done.
    destruct (account_step (g, a) e) as [g' a']. cbn in Eg |- *. subst g'. done.
Qed.

(** ** What a listing shows *)
Lemma check_entries_ok l : forall found, NoDup (ids (found ++ l)) -> Forall (fun e => entry_valid e = true) l -> check_entries found l = Ok (found ++ l).
Proof.
  induction l as [|e l IH]; intros found Hn Hv; cbn [check_entries]; [by rewrite app_nil_r|]. apply Forall_cons in Hv as [-> Hv]. cbn [negb].
  destruct (existsb (is_id (ei_registration_id e)) found) eqn:E.
  - exfalso. apply existsb_exists in E as (x & Hx & Ei). apply Z.eqb_eq in Ei. unfold ids in Hn. rewrite map_app in Hn. apply NoDup_app in Hn as (_ & Hd & _).
    apply (Hd (ei_registration_id x)); [apply list_elem_of_fmap; exists x; split; [done|by apply list_elem_of_In]|]. rewrite Ei. by left.
  - rewrite IH; [by rewrite <- app_assoc|by rewrite <- app_assoc|done].
Qed.
(** An inspection that finds the process alive all along and reads [a]. *)
Record inspects {A} (r : RuntimeInfo) (x : Inspection A) (a : A) : Prop := {
  in_runtime : 0 < ri_pid r /\ ri_process_start_ticks r <> 0;
  in_alive : ix_before x = Some (ri_process_start_ticks r) /\ ix_after x = Some (ri_process_start_ticks r);
  in_read : ix_opened x = 0 /\ ix_read x = Ok a
}.
Lemma inspect_ok {A B} r (x : Inspection A) a (check : A -> result B) : inspects r x a -> inspect r x check = check a.
Proof.
  intros [[H1 H2] [H3 H4] [H5 H6]]. unfold inspect. rewrite H3, H4, H5, H6. unfold same_start. rewrite Z.eqb_refl. destruct (Z.leb_spec (ri_pid r) 0); [lia|]. destruct (Z.eqb_spec (ri_process_start_ticks r) 0); [done|].
  cbn. by destruct (check a).
Qed.
(** C29: A process is listed with exactly the endpoints it has registered: after any interleaving of registrations,
    removals, passes of the recovery worker and runtimes that begin and end, an inspection of a segment that is there succeeds and
    gives, in some order, the endpoints whose registration has returned an id since the runtime began and that no removal was asked
    for since, as they were asked for, each with its latest type (the one its status shows as recovered, if any); their ids are
    distinct, and no id is ever returned twice, not even across runtimes of the process, so a wrapper that outlives its runtime cannot
    remove an endpoint that is not its own.  A segment that refuses a snapshot is given up, nothing stale is listed.  The callers are
    assumed to begin a runtime with the pid of the process, and to ask for endpoints of a matching kind and role and a size other than 0,
    as the runtime and the wrappers of Topics and Parameters do. *)
Theorem endpoint_listing_exact es : Forall caller_ok es ->
  let s := rg_endpoints (registry_run es) in
  NoDup (ac_ids (account es)) /\
  er_published s = (if er_storage s then Some (er_snapshot s) else None) /\
  (forall r x n, er_published s = Some n -> inspects r x n -> ns_pid n = ri_pid r -> ns_process_start_ticks n = ri_process_start_ticks r ->
     exists l, ListEndpoints r x = Ok l /\ l ≡ₚ ac_registered (account es) /\ NoDup (ids l)).
Proof.
  intros Hc s. destruct (account_run es Hc) as [H _ Ht [Hn _]]. fold s in H, Ht. split; [done|]. split; [apply H|].
  intros r x n Hp Hi H1 H2. destruct H. rewrite eo_published0 in Hp. destruct (er_storage s); [|done]. apply (inj Some) in Hp as <-. destruct eo_table0 as [[I1 I2] T1 T2]. exists (table s).
  split; [|split; [by apply Ht|done]]. unfold ListEndpoints. rewrite (inspect_ok _ _ _ _ Hi), eo_protocol0, H1, H2, !Z.eqb_refl. destruct (Z.ltb_spec MAX_ENDPOINTS (Z.of_nat (length (table s)))); [lia|].
  cbn [negb orb Z.eqb Pos.eqb]. rewrite check_entries_ok; [done|done|]. apply Forall_forall. intros e He. rewrite Forall_forall in T2. destruct (T2 e He) as [[N1 N2] [K1 K2]].
  unfold ids in I2. rewrite Forall_fmap, Forall_forall in I2. specialize (I2 e He). cbn in I2. unfold entry_valid. rewrite K1, bool_decide_eq_false_2 by done.
  rewrite (proj2 (Z.eqb_neq _ _)) by lia. rewrite (proj2 (Z.eqb_neq _ _)) by done. by rewrite (proj2 (Z.ltb_lt _ _)).
Qed.

(** ** The table of types *)
Lemma used_normalized d : wf_descriptor d -> ValidateTypeDescriptor d = true -> used_fields (Normalize d) = map normalize_field (used_fields d).
Proof.
  intros (_ & _ & _ & _ & _ & _ & _ & Hc & Hl & _) Hv. assert (Hm : 0 <= td_field_count d <= MAX_TYPE_FIELDS).
  { unfold ValidateTypeDescriptor in Hv. case_check; [done|]. bool_to_prop. unfold is_u32 in Hc. lia. }
  assert (E : length (map normalize_field (used_fields d)) = Z.to_nat (td_field_count d)). { unfold used_fields. rewrite length_map, length_take, Hl. unfold MAX_TYPE_FIELDS in *. lia. }
  unfold used_fields at 1, Normalize. cbn [td_fields td_field_count]. rewrite <- E. by rewrite take_app_length.
Qed.
Lemma has_nul_pad n s : length s = n -> has_nul s = true -> has_nul (pad n (c_str s)) = true.
Proof.
  intros Hl Hn. apply existsb_exists in Hn as (z & Hz & E). apply Z.eqb_eq in E as ->. apply list_elem_of_In in Hz. pose proof (c_str_short s Hz). apply existsb_exists. exists 0. split; [|done]. apply list_elem_of_In, pad_nul. lia.
Qed.
Lemma first_char_pad n s : (first_char (pad n (c_str s)) =? 0) = (first_char s =? 0).
Proof. apply eq_bool_prop_intro. rewrite !Is_true_true, !Z.eqb_eq, !first_char_c_str, c_str_pad. done. Qed.
Lemma c_str_normalized f : c_str (tf_name (normalize_field f)) = c_str (tf_name f).
Proof. apply c_str_pad. Qed.
Lemma validate_normalized p rest : forall prev, Forall wf_field rest -> validate_fields p prev rest = true -> validate_fields p (map normalize_field prev) (map normalize_field rest) = true.
Proof.
  induction rest as [|f rest IH]; intros prev Hw H; cbn [map validate_fields] in *; [done|]. apply Forall_cons in Hw as [(Hl & _) Hw]. cbn [normalize_field tf_name tf_kind tf_element_size tf_array_count tf_offset]. rewrite first_char_pad.
  destruct (has_nul (tf_name f)) eqn:En; [|by rewrite !orb_true_r in H]. rewrite has_nul_pad by done. match goal with H : (if ?b then _ else _) = true |- _ => destruct b; [done|] end.
  match goal with H : (if ?b then _ else _) = true |- _ => destruct b; [done|] end. assert (E : forall b, field_disjoint (normalize_field f) b (map normalize_field prev) = field_disjoint f b prev).
  { clear. intros b. induction prev as [|x prev IHp]; [done|]. cbn [map field_disjoint]. by rewrite IHp, (c_str_normalized f), (c_str_normalized x). }
  fold (normalize_field f). rewrite E. destruct (field_disjoint f _ prev); [|done]. cbn [negb] in *. apply IH in H; [|done]. by rewrite map_app in H.
Qed.
Lemma normalize_valid d : wf_descriptor d -> ValidateTypeDescriptor d = true -> ValidateTypeDescriptor (Normalize d) = true.
Proof.
  intros Hw Hv. pose proof (used_normalized d Hw Hv) as Hu. destruct Hw as (_ & _ & _ & Hl & _ & _ & _ & _ & _ & Hf). unfold ValidateTypeDescriptor in *. rewrite Hu.
  cbn [Normalize td_protocol_version td_struct_size td_type_id td_type_name td_payload_size td_payload_alignment td_field_count]. rewrite first_char_pad, c_str_pad, !Z.eqb_refl.
  destruct (has_nul (td_type_name d)) eqn:En; [|rewrite !orb_true_r in Hv; done]. rewrite has_nul_pad by done.
  match type of Hv with (if ?b then _ else _) = true => destruct b eqn:Hg; [done|] end.
  rewrite !orb_false_iff in Hg. destruct Hg as ((((((((((_ & _) & ->) & ->) & _) & ->) & ->) & ->) & ->) & ->) & ->). cbn [negb orb]. case_check; [done|]. apply (validate_normalized _ _ []); [|done]. by apply Forall_take.
Qed.
Lemma equal_normalized d : wf_descriptor d -> ValidateTypeDescriptor d = true -> Equal (Normalize d) d = true.
Proof.
  intros Hw Hv. unfold Equal. rewrite used_normalized by done. cbn [Normalize td_type_id td_type_name td_payload_size td_payload_alignment td_field_count]. rewrite (c_str_pad TYPE_NAME_SIZE (td_type_name d)), !Z.eqb_refl, bool_decide_eq_true_2 by done. cbn [andb].
  induction (used_fields d) as [|f l IH]; [done|]. cbn [map equal_fields]. rewrite IH, andb_true_r. unfold equal_field, normalize_field. cbn [tf_name tf_kind tf_offset tf_element_size tf_array_count]. by rewrite (c_str_pad FIELD_NAME_SIZE (tf_name f)), !Z.eqb_refl, bool_decide_eq_true_2.
Qed.
Record ty_ok (t : TypeRegistry) : Prop := {
  yo_ids : NoDup (map td_type_id (ty_types t));
  yo_valid : Forall (fun d => ValidateTypeDescriptor d = true) (ty_types t);
  yo_size : Z.of_nat (length (ty_types t)) <= MAX_TYPES;
  yo_published : match ty_published t with Some l => l = ty_types t /\ ty_storage t = true | None => ty_types t = [] end
}.
Lemma find_type_none id l : find_type id l = None -> id ∉ map td_type_id l.
Proof. unfold find_type. intros H Hx. apply list_elem_of_fmap in Hx as (d & -> & Hd). apply list_elem_of_In in Hd. eapply find_none in H; [|exact Hd]. cbn in H. by rewrite Z.eqb_refl in H. Qed.
Lemma find_type_some id l d : find_type id l = Some d -> d ∈ l /\ td_type_id d = id.
Proof. unfold find_type. intros H. apply find_some in H as [H1 H2]. split; [by apply list_elem_of_In|by apply Z.eqb_eq]. Qed.
Lemma find_type_app id l d : find_type id l = None -> td_type_id d = id -> find_type id (l ++ [d]) = Some d.
Proof. unfold find_type. induction l as [|x l IH]; intros Hn Hd; cbn in *; [by rewrite Hd, Z.eqb_refl|]. destruct (td_type_id x =? id); [done|auto]. Qed.
(** What a successful registration gives: the type is published, as it was given. *)
Lemma register_stored_spec publish d t : ty_ok t -> ty_storage t = true -> wf_descriptor d -> ValidateTypeDescriptor d = true ->
  let (r, t') := register_stored publish d t in
  ty_ok t' /\ (tq_type_id r <> 0 -> tq_type_id r = td_type_id d /\ exists l d', ty_published t' = Some l /\ find_type (td_type_id d) l = Some d' /\ Equal d' d = true).
Proof.
  intros H Hs Hw Hv. unfold register_stored. destruct (find_type (td_type_id d) (ty_types t)) as [old|] eqn:Ef.
  - destruct (Equal old d) eqn:Ee; (split; [done|]); [|done]. intros _. split; [done|]. destruct (find_type_some _ _ _ Ef) as [Ho _]. exists (ty_types t), old. destruct H. destruct (ty_published t) as [l|].
    + destruct yo_published0 as [-> _]. done.
    + rewrite yo_published0 in Ho. by apply elem_of_nil in Ho.
  - destruct (Z.leb_spec MAX_TYPES (Z.of_nat (length (ty_types t)))); [done|]. destruct (publish =? 0); [|done]. cbn [negb]. destruct H. split.
    + constructor; cbn [ty_publish ty_types ty_published ty_storage]; rewrite ?map_app, ?length_app; cbn; auto; try lia.
      * apply NoDup_snoc; [done|]. by apply find_type_none.
      * apply Forall_app. split; [done|]. constructor; [by apply normalize_valid|constructor].
    + intros _. split; [done|]. eexists _, (Normalize d). split; [done|]. split; [by apply find_type_app|by apply equal_normalized].
Qed.
Lemma register_type_spec create publish d t : ty_ok t -> wf_descriptor d ->
  let (r, t') := RegisterTypeDetailed create publish d t in
  ty_ok t' /\ (tq_type_id r <> 0 -> tq_type_id r = td_type_id d /\ exists l d', ty_published t' = Some l /\ find_type (td_type_id d) l = Some d' /\ Equal d' d = true).
Proof.
  intros H Hw. unfold RegisterTypeDetailed. destruct (ValidateTypeDescriptor d) eqn:Hv; [|done]. cbn [negb]. case_check; [done|]. destruct (ty_storage t) eqn:Hs; [by apply register_stored_spec|]. destruct (create =? 0); [|done]. cbn [negb].
  apply register_stored_spec; auto. constructor; cbn; try done; constructor.
Qed.
Definition rec_wf (r : Recovery) : Prop := forall d, rc_descriptor r = Some d -> wf_descriptor d.
Lemma rec_wf_none : rec_wf no_recovery.
Proof. done. Qed.
Lemma store_recoveries set n s : er_recoveries (store set n s) = er_recoveries s.
Proof. unfold store. by destruct (set =? 0). Qed.
Lemma recover_one_types a r s t : ty_ok t -> rec_wf r -> let '(r', s', t') := recover_one a r s t in ty_ok t' /\ rec_wf r' /\ er_recoveries s' = er_recoveries s.
Proof.
  intros Ht Hr. unfold recover_one. destruct (rc_pending r); [|done]. destruct (rc_descriptor r) as [d|] eqn:Ed; [|done]. case_check; [done|]. destruct (find_index _ _) as [i|]; [|done].
  pose proof (register_type_spec (ra_create a) (ra_publish a) d t Ht (Hr d Ed)) as Hs. destruct (RegisterTypeDetailed _ _ d t) as [result t']. destruct Hs as [Ht' _]. destruct (tq_type_id result =? 0); cbn [negb].
  - split; [done|]. split; [|done]. intros d'. unfold rc_update. cbn. case_check; [|done]. rewrite Ed. intros [= <-]. by apply Hr.
  - case_check; [done|]. split; [done|]. split; [by destruct (ra_set a =? 0)|apply store_recoveries].
Qed.
Lemma recover_all_types answers rs : forall s t, ty_ok t -> Forall rec_wf rs -> let '(rs', s', t') := recover_all answers rs s t in ty_ok t' /\ Forall rec_wf rs'.
Proof.
  revert answers. induction rs as [|r rs IH]; intros answers s t Ht Hr; cbn [recover_all]; [done|]. apply Forall_cons in Hr as [Hr Hrs]. pose proof (recover_one_types (hd {| ra_create := 0; ra_publish := 0; ra_set := 0 |} answers) r s t Ht Hr) as H1.
  destruct (recover_one _ r s t) as [[r' s'] t']. destruct H1 as (H1 & H2 & _). specialize (IH (tl answers) s' t' H1 Hrs). destruct (recover_all _ rs s' t') as [[rs' s''] t'']. destruct IH as [I1 I2]. split; [done|]. by constructor.
Qed.
Definition event_wf (e : RegistryEvent) : Prop := match e with RgType d _ _ | RgTrack _ _ d _ => wf_descriptor d | _ => True end.
Definition types_ok (g : Registries) : Prop := ty_ok (rg_types g) /\ Forall rec_wf (er_recoveries (rg_endpoints g)).
Lemma types_event g e : event_wf e -> types_ok g -> types_ok (registry_event g e).
Proof.
  intros He [Ht Hr]. destruct e as [pid ticks create|d create publish|kind role name size typed type_id set|id result d resources|answers|id set| | |]; unfold types_ok; cbn [registry_event on_endpoints on_types rg_endpoints rg_types].
  - split; [|unfold BeginEndpointRegistry; by destruct (er_storage _)]. unfold BeginTypeRegistry. destruct (ty_storage (rg_types g)) eqn:E; [done|]. destruct Ht. by constructor.
  - pose proof (register_type_spec create publish d _ Ht He) as Hs. destruct (RegisterTypeDetailed _ _ _ _). by destruct Hs.
  - split; [done|]. unfold RegisterEndpoint. case_check; [done|]. cbn [snd]. by rewrite store_recoveries.
  - split; [done|]. unfold track_type. case_check; [done|]. case_check; [done|]. destruct (list_find _ _) as [[i x]|]; [|done].
    assert (Hx : Forall rec_wf (<[i:=track id result d resources]> (er_recoveries (rg_endpoints g)))). { apply Forall_insert; [done|]. unfold track. intros d'. by destruct (Retryable result), resources; cbn; intros [= <-]. }
    by destruct (Retryable result && resources).
  - case_check; [|done]. unfold Recover. pose proof (recover_all_types answers (er_recoveries (rg_endpoints g)) (rg_endpoints g) (rg_types g) Ht Hr) as H1. by destruct (recover_all _ _ _ _) as [[rs s'] t'].
  - split; [done|]. unfold UnregisterEndpoint. case_check; [done|]. set (s1 := er_set_recoveries _ _). assert (H1 : Forall rec_wf (er_recoveries s1)).
    { cbn. apply Forall_fmap. eapply Forall_impl; [exact Hr|]. intros r Hx. unfold compose, drop_recovery. by destruct (rc_id r =? id). }
    clearbody s1. case_check; [done|]. destruct (find_index _ _); [|done]. case_check; [done|]. by rewrite store_recoveries.
  - done.
  - split; [done|]. unfold end_finish. set (s1 := er_set_recoveries _ _). assert (H1 : Forall rec_wf (er_recoveries s1)) by (cbn; apply Forall_replicate, rec_wf_none || (apply Forall_forall; intros r Hx; apply list_elem_of_In, repeat_spec in Hx as ->; apply rec_wf_none)).
    clearbody s1. by destruct (Active s1).
  - split; [|done]. unfold EndTypeRegistry. case_check; [done|]. destruct (ty_storage (rg_types g)) eqn:E; [constructor; cbn; try done; constructor|]. destruct Ht. by constructor.
Qed.
Lemma types_run es : Forall event_wf es -> types_ok (registry_run es).
Proof.
  induction es as [|e es IH] using rev_ind; intros Hc.
  - split; [constructor; cbn; try done; constructor|]. cbn. apply Forall_forall. intros r Hx. apply list_elem_of_In, repeat_spec in Hx as ->. apply rec_wf_none.
  - apply Forall_app in Hc as [Hc He]. apply Forall_cons in He as [He _]. unfold registry_run in *. rewrite foldl_app. cbn [foldl]. apply types_event; auto.
Qed.
Lemma check_types_ok l : forall found, NoDup (map td_type_id (found ++ l)) -> Forall (fun d => ValidateTypeDescriptor d = true) l -> check_types found l = Ok (found ++ l).
Proof.
  induction l as [|e l IH]; intros found Hn Hv; cbn [check_types]; [by rewrite app_nil_r|]. apply Forall_cons in Hv as [-> Hv]. cbn [negb]. destruct (existsb (fun p => td_type_id p =? td_type_id e) found) eqn:E.
  - exfalso. apply existsb_exists in E as (x & Hx & Ei). apply Z.eqb_eq in Ei. rewrite map_app in Hn. apply NoDup_app in Hn as (_ & Hd & _).
    apply (Hd (td_type_id x)); [apply list_elem_of_fmap; exists x; split; [done|by apply list_elem_of_In]|]. rewrite Ei. by left.
  - rewrite IH; [by rewrite <- app_assoc|by rewrite <- app_assoc|done].
Qed.
Lemma list_types_ok r x t l : ty_ok t -> ty_published t = Some l -> inspects r x {| nt_protocol_version := 1; nt_pid := ri_pid r; nt_process_start_ticks := ri_process_start_ticks r; nt_types := l |} -> ListTypes r x = Ok l.
Proof.
  intros [] Hp Hi. rewrite Hp in yo_published0. destruct yo_published0 as [-> _]. unfold ListTypes. rewrite (inspect_ok _ _ _ _ Hi). cbn [nt_protocol_version nt_pid nt_process_start_ticks nt_types]. rewrite !Z.eqb_refl.
  destruct (Z.ltb_spec MAX_TYPES (Z.of_nat (length (ty_types t)))); [lia|]. cbn [negb orb]. by rewrite check_types_ok.
Qed.
(** A registered type can be looked up as it was given: after any history of the two registries, when the registration of a
    descriptor succeeds, by its caller or by the recovery worker, the published table is valid for every reader, has one entry per
    type id, and the entry of the id agrees with the descriptor in every field that has a meaning; a second registration with the
    same id and another schema is refused, and a failed publication leaves the table as it was. *)
Theorem type_listing_exact es create publish d : Forall event_wf es -> wf_descriptor d ->
  let t := rg_types (registry_run es) in
  let (result, t') := RegisterTypeDetailed create publish d t in
  (tq_type_id result <> 0 -> tq_type_id result = td_type_id d /\
     forall r x l, ty_published t' = Some l -> inspects r x {| nt_protocol_version := 1; nt_pid := ri_pid r; nt_process_start_ticks := ri_process_start_ticks r; nt_types := l |} ->
       ListTypes r x = Ok l /\ NoDup (map td_type_id l) /\ exists d', GetType r x (td_type_id d) = Ok d' /\ Equal d' d = true) /\
  (tq_type_id result = 0 -> ty_types t' = ty_types t \/ (ty_storage t = false /\ ty_types t' = [])) /\
  (forall old, find_type (td_type_id d) (ty_types t) = Some old -> ValidateTypeDescriptor d = true -> ty_storage t = true -> ty_owner_pid t = self -> ty_owner_ticks t <> 0 ->
     Equal old d = false -> result = type_failed (- EEXIST) SCHEMA_CONFLICT /\ t' = t).
Proof.
  intros He Hw t. destruct (types_run es He) as [Ht _]. fold t in Ht. pose proof (register_type_spec create publish d t Ht Hw) as Hs.
  destruct (RegisterTypeDetailed create publish d t) as [result t'] eqn:Er. destruct Hs as [Ht' Hs]. split_and!.
  - intros Hn. destruct (Hs Hn) as (H1 & l & d' & H2 & H3 & H4). split; [done|]. intros r x l' Hp Hi. rewrite H2 in Hp. apply (inj Some) in Hp as <-. pose proof (list_types_ok r x t' l Ht' H2 Hi) as Hl.
    split; [done|]. split; [destruct Ht'; rewrite H2 in yo_published0; by destruct yo_published0 as [-> _]|]. exists d'. split; [|done]. unfold GetType. rewrite H1 in Hn. destruct (Z.eqb_spec (td_type_id d) 0); [done|]. rewrite Hl. cbn. by rewrite H3.
  - intros Hz. unfold RegisterTypeDetailed, register_stored in Er. repeat (case_check; [injection Er as <- <-; by left|]).
    destruct (ty_storage t) eqn:Est; [|case_check; [injection Er as <- <-; by left|right; split; [done|]]]; (destruct (find_type _ _) as [old|]; [by injection Er as <- <-; try left|]); (case_check; [by injection Er as <- <-; try left|]);
      (case_check; [by injection Er as <- <-; try left|]); injection Er as <- <-; cbn in Hz; exfalso; unfold ValidateTypeDescriptor in *; by rewrite Hz, !orb_true_r in *.
  - intros old Hf Hv Hst Ho Hk Hq. unfold RegisterTypeDetailed, register_stored in Er. rewrite Hv, Hst, Ho, Z.eqb_refl, (proj2 (Z.eqb_neq _ _) Hk), Hf, Hq in Er. cbn in Er. by injection Er as <- <-.
Qed.
End Process.
Arguments ix_before {A}.
Arguments ix_opened {A}.
Arguments ix_read {A}.
Arguments ix_after {A}.

(** ** Names of the segments *)
Definition DIRECTORY_PREFIX : list Z := text "kcf_introspection_runtime_".
(** [RuntimeRegistryName] and the like without the leading slash, as in [/dev/shm]. *)
Definition registry_name (prefix : list Z) (pid ticks : Z) : list Z := prefix ++ to_string pid ++ [UNDERSCORE] ++ to_string ticks.
(** [Number] of a type with this maximum. *)
Definition Number (limit : Z) (s : list Z) : option Z := match from_chars limit s with Some n => if 0 <? n then Some n else None | None => None end.
Definition ParseDiscoveryName (name prefix : list Z) : option (Z * Z) :=
  if negb (take (length prefix) name =?? prefix) then None
  else match split_scope (drop (length prefix) name) with
  | None => None
  | Some (p, t) =>
      if negb (p =?? []) && negb (t =?? []) && negb (first_char p =? 48) && negb (first_char t =? 48) then
        match Number INT32_MAX p, Number UINT64_MAX t with Some pid, Some ticks => Some (pid, ticks) | _, _ => None end
      else None
  end.
Definition digits_value (s : list Z) : Z := foldl (fun acc c => acc * 10 + (c - 48)) 0 s.
Lemma digits_value_snoc s c : digits_value (s ++ [c]) = digits_value s * 10 + (c - 48).
Proof. unfold digits_value. by rewrite foldl_app. Qed.
(** A decimal numeral without a leading zero is the printed form of its value. *)
Lemma to_digits_canonical s : forall fuel, Forall is_digit s -> s <> [] -> first_char s <> 48 -> (length s <= fuel)%nat -> 1 <= digits_value s /\ to_digits fuel (digits_value s) = s.
Proof.
  induction s as [|c s IH] using rev_ind; intros fuel Hd Hne Hf Hl; [done|]. apply Forall_app in Hd as [Hs Hc]. apply Forall_cons in Hc as [Hc _]. unfold is_digit in Hc. rewrite digits_value_snoc. rewrite length_app in Hl. cbn in Hl.
  destruct fuel as [|fuel]; [lia|]. destruct s as [|x s].
  { cbn in Hf. change (digits_value []) with 0. split; [lia|]. cbn [to_digits]. destruct (Z.ltb_spec (0 * 10 + (c - 48)) 10); [cbn [app]; f_equal; lia|lia]. }
  destruct (IH fuel) as [H1 H2]; [done|done|exact Hf|lia|]. split; [lia|]. cbn [to_digits]. destruct (Z.ltb_spec (digits_value (x :: s) * 10 + (c - 48)) 10); [lia|].
  rewrite Z.div_add_l, (Z.div_small (c - 48)), Z.add_0_r, H2 by lia. assert (Em : (digits_value (x :: s) * 10 + (c - 48)) mod 10 = c - 48) by (rewrite Z.add_comm, Z.mod_add, Z.mod_small; lia). rewrite Em. do 2 f_equal. lia.
Qed.
Lemma digits_value_large s : Forall is_digit s -> s <> [] -> first_char s <> 48 -> 10 ^ (Z.of_nat (length s) - 1) <= digits_value s.
Proof.
  induction s as [|c s IH] using rev_ind; intros Hd Hne Hf; [done|]. apply Forall_app in Hd as [Hs Hc]. apply Forall_cons in Hc as [Hc _]. unfold is_digit in Hc. rewrite digits_value_snoc, length_app. cbn [length].
  destruct s as [|x s]; [cbn in Hf |- *; lia|]. assert (IH' : 10 ^ (Z.of_nat (length (x :: s)) - 1) <= digits_value (x :: s)) by (by apply IH). replace (Z.of_nat (length (x :: s) + 1) - 1) with (Z.succ (Z.of_nat (length (x :: s)) - 1)) by lia.
  rewrite Z.pow_succ_r by (cbn [length]; lia). lia.
Qed.
Lemma number_canonical limit s n : limit <= UINT64_MAX -> first_char s <> 48 -> Number limit s = Some n -> 0 < n <= limit /\ s = to_string n.
Proof.
  intros Hl Hf. unfold Number, from_chars. destruct s as [|c s]; [done|]. set (t := c :: s) in *. destruct (forallb _ t) eqn:Ed; [|done]. change (foldl _ 0 t) with (digits_value t).
  destruct (Z.leb_spec (digits_value t) limit); [|done]. destruct (Z.ltb_spec 0 (digits_value t)); [|done]. intros [= <-]. split; [lia|].
  assert (Hd : Forall is_digit t) by (apply Forall_forall; intros x Hx; rewrite forallb_forall in Ed; apply list_elem_of_In in Hx; specialize (Ed x Hx); unfold is_digit; lia).
  destruct (to_digits_canonical t 20 Hd) as [_ E]; try done. pose proof (digits_value_large t Hd ltac:(done) Hf) as Hg. destruct (decide (length t <= 20)%nat) as [|Hb]; [done|].
  assert (10 ^ 20 <= 10 ^ (Z.of_nat (length t) - 1)) by (apply Z.pow_le_mono_r; lia). unfold UINT64_MAX in *. lia.
Qed.
Lemma to_digits_first fuel n : 0 < n < 10 ^ Z.of_nat fuel -> first_char (to_digits fuel n) <> 48.
Proof.
  revert n. induction fuel as [|fuel IH]; intros n Hn; [cbn in Hn; lia|]. cbn [to_digits]. destruct (Z.ltb_spec n 10); [cbn; lia|]. rewrite Nat2Z.inj_succ, Z.pow_succ_r in Hn by lia.
  assert (Hq : 0 < n / 10 < 10 ^ Z.of_nat fuel). { split; [apply Z.div_str_pos; lia|apply Z.div_lt_upper_bound; lia]. } specialize (IH (n / 10) Hq).
  assert (Hne : to_digits fuel (n / 10) <> []) by (destruct fuel; [cbn in Hq; lia|]; cbn [to_digits]; destruct (_ <? 10); [done|]; by intros [_ ?]%app_nil). by destruct (to_digits fuel (n / 10)).
Qed.
Lemma number_printed limit n : limit <= UINT64_MAX -> 0 < n <= limit -> Number limit (to_string n) = Some n /\ first_char (to_string n) <> 48.
Proof.
  intros Hl Hn. split; [unfold Number; rewrite from_to_string by lia; by rewrite (proj2 (Z.ltb_lt 0 n)) by lia|]. apply to_digits_first. unfold UINT64_MAX in *. lia.
Qed.
Lemma split_scope_spec s a b : split_scope s = Some (a, b) -> s = a ++ [UNDERSCORE] ++ b.
Proof.
  revert a. induction s as [|c s IH]; intros a H; cbn in H; [done|]. destruct (Z.eqb_spec c UNDERSCORE) as [->|]; [by injection H as <- <-|]. destruct (split_scope s) as [[a' b']|]; [|done]. injection H as <- <-. cbn. f_equal. by apply IH.
Qed.
Definition identity_in_range (pid ticks : Z) : Prop := 0 < pid <= INT32_MAX /\ 0 < ticks <= UINT64_MAX.
Lemma parse_name_exact name prefix pid ticks : ParseDiscoveryName name prefix = Some (pid, ticks) <-> identity_in_range pid ticks /\ name = registry_name prefix pid ticks.
Proof.
  unfold ParseDiscoveryName. split.
  - case_bool_decide as Hp; [|done]. cbn [negb]. destruct (split_scope _) as [[p t]|] eqn:Es; [|done]. case_check; [|done]. bool_to_prop. destruct (Number INT32_MAX p) as [x|] eqn:Ep; [|done]. destruct (Number UINT64_MAX t) as [y|] eqn:Et; [|done].
    intros [= <- <-]. apply number_canonical in Ep as [H5 ->]; [|by vm_compute|done]. apply number_canonical in Et as [H7 ->]; [|done..]. apply split_scope_spec in Es. split; [done|]. unfold registry_name. rewrite <- Es. by rewrite <- Hp at 1; rewrite take_drop.
  - intros [[Hp Ht] ->]. unfold registry_name. rewrite take_app_length, drop_app_length, bool_decide_eq_true_2 by done. cbn [negb]. rewrite split_scope_app by (apply to_string_digits; lia).
    destruct (number_printed INT32_MAX pid) as [Ep Fp]; [by vm_compute|done|]. destruct (number_printed UINT64_MAX ticks) as [Et Ft]; [done|done|]. rewrite Ep, Et, !bool_decide_eq_false_2 by apply to_string_nonempty.
    by rewrite !(proj2 (Z.eqb_neq _ _)).
Qed.

(** ** The runtimes of a host *)
(** What is in the segment of a runtime; [rx_terminated]: the name of the executable ends in its array. *)
Record RuntimeSegment := { rx_info : RuntimeInfo; rx_protocol_version : Z; rx_mode : Z; rx_terminated : bool }.
(** An entry of [/dev/shm] with what the listing finds for it. *)
Record ShmEntry := { sh_name : list Z; sh_inspection : Inspection RuntimeSegment }.
Definition segment_valid (pid ticks : Z) (x : RuntimeSegment) : bool :=
  (ri_pid (rx_info x) =? pid) && (ri_process_start_ticks (rx_info x) =? ticks) && (rx_protocol_version x =? 1) && ((rx_mode x =? 0) || (rx_mode x =? 1)) &&
  ((0 <=? ri_state (rx_info x)) && (ri_state (rx_info x) <=? 4)) && rx_terminated x.
Definition is_start (identity : option Z) (ticks : Z) : bool := match identity with Some t => t =? ticks | None => false end.
(** One turn of the loop: an entry is skipped, listed or ends the listing. *)
Definition list_entry (e : ShmEntry) : result (option RuntimeInfo) :=
  match ParseDiscoveryName (sh_name e) DIRECTORY_PREFIX with
  | None => Ok None
  | Some (pid, ticks) =>
      let x := sh_inspection e in
      if negb (is_start (ix_before x) ticks) then Ok None
      else if ix_opened x =? - ENOMEM then Err (- ENOMEM)
      else if negb (ix_opened x =? 0) then Ok None
      else match ix_read x with
      | Err code => if code =? - ENOMEM then Err code else Ok None
      | Ok segment =>
          if negb (segment_valid pid ticks segment) then Ok None
          else if negb (is_start (ix_after x) ticks) then Ok None else Ok (Some (rx_info segment))
      end
  end.
Fixpoint list_entries (found : list RuntimeInfo) (es : list ShmEntry) : result (list RuntimeInfo) :=
  match es with
  | [] => Ok found
  | e :: es => let? r := list_entry e in list_entries (found ++ match r with Some i => [i] | None => [] end) es
  end.
(** [directory]: the answer of [opendir] and [readdir]. *)
Definition ListRuntimes (directory : result (list ShmEntry)) : result (list RuntimeInfo) := let? es := directory in list_entries [] es.
(** The entry is the segment of the runtime [i], whose process was alive before and after the segment was read. *)
Definition shows (e : ShmEntry) (i : RuntimeInfo) : Prop :=
  identity_in_range (ri_pid i) (ri_process_start_ticks i) /\ sh_name e = registry_name DIRECTORY_PREFIX (ri_pid i) (ri_process_start_ticks i) /\
  ix_before (sh_inspection e) = Some (ri_process_start_ticks i) /\ ix_after (sh_inspection e) = Some (ri_process_start_ticks i) /\
  exists segment, ix_opened (sh_inspection e) = 0 /\ ix_read (sh_inspection e) = Ok segment /\ rx_info segment = i /\ segment_valid (ri_pid i) (ri_process_start_ticks i) segment = true.
Lemma is_start_spec identity ticks : is_start identity ticks = true <-> identity = Some ticks.
Proof. unfold is_start. destruct identity as [t|]; [|done]. rewrite Z.eqb_eq. split; [by intros ->|by intros [= ->]]. Qed.
Lemma list_entry_spec e i : list_entry e = Ok (Some i) <-> shows e i.
Proof.
  unfold list_entry, shows. split.
  - destruct (ParseDiscoveryName _ _) as [[pid ticks]|] eqn:Ep; [|done]. apply parse_name_exact in Ep as [Hr Hn]. destruct (is_start (ix_before _) ticks) eqn:Eb; [|done]. cbn [negb].
    destruct (_ =? - ENOMEM); [done|]. destruct (Z.eqb_spec (ix_opened (sh_inspection e)) 0) as [Eo|]; [|done]. cbn [negb]. destruct (ix_read _) as [segment|code]; [|by destruct (code =? - ENOMEM)].
    destruct (segment_valid pid ticks segment) eqn:Ev; [|done]. cbn [negb]. destruct (is_start (ix_after _) ticks) eqn:Ea; [|done]. cbn [negb]. intros [= <-]. pose proof Ev as Ev'. unfold segment_valid in Ev'. bool_to_prop. subst.
    apply is_start_spec in Eb, Ea. split_and!; try done; try apply Hr. exists segment. done.
  - intros (Hr & Hn & Hb & Ha & segment & Ho & Hs & Hi & Hv). rewrite (proj2 (parse_name_exact _ _ _ _) (conj Hr Hn)). rewrite (proj2 (is_start_spec _ _) Hb), (proj2 (is_start_spec _ _) Ha), Ho, Hs, Hv. cbn. by rewrite Hi.
Qed.
Lemma list_entries_spec es : forall found l, list_entries found es = Ok l -> exists k, l = found ++ k /\ (forall i, i ∈ k <-> exists e, e ∈ es /\ shows e i) /\ (length k <= length es)%nat.
Proof.
  induction es as [|e es IH]; intros found l H; cbn [list_entries] in H.
  - injection H as <-. exists []. rewrite app_nil_r. split; [done|]. split; [|cbn; lia]. intros i. split; [intros Hi; by apply elem_of_nil in Hi|intros (x & Hx & _); by apply elem_of_nil in Hx].
  - destruct (list_entry e) as [r|code] eqn:Er; [|done]. cbn [bind_result] in H. apply IH in H as (k & -> & Hk & Hl). rewrite <- app_assoc. eexists. split; [done|]. split; [|rewrite length_app; destruct r; cbn; lia].
    intros i. rewrite elem_of_app, Hk. split.
    + intros [Hi|(x & Hx & Hs)]; [|exists x; split; [by right|done]]. destruct r as [j|]; [|by apply elem_of_nil in Hi]. apply list_elem_of_singleton in Hi as ->. exists e. split; [by left|by apply list_entry_spec].
    + intros (x & Hx & Hs). apply elem_of_cons in Hx as [->|Hx]; [left|right; eauto]. apply list_entry_spec in Hs. rewrite Er in Hs. injection Hs as ->. by left.
Qed.
(** The runtimes of a host are found by name and checked to be the ones named: the name of a segment determines
    the process (its pid and start time, in range) and is the only name that does, so no numeral with a sign, a leading
    zero or an overflow is taken for another process; a listing consists of exactly the runtimes whose segment has their own name and
    valid contents and whose process was alive with this start time both before and after its segment was read, so a process id
    that was reused in between is not listed. *)
Theorem runtime_listing_exact es l : ListRuntimes (Ok es) = Ok l ->
  (forall i, i ∈ l <-> exists e, e ∈ es /\ shows e i) /\ (length l <= length es)%nat /\
  (forall name prefix pid ticks, ParseDiscoveryName name prefix = Some (pid, ticks) <-> identity_in_range pid ticks /\ name = registry_name prefix pid ticks).
Proof. intros H. apply list_entries_spec in H as (k & -> & H1 & H2). split; [done|]. split; [done|]. apply parse_name_exact. Qed.
(** A runtime and a segment of a process that is gone. *)
Lemma runtime_listing_exact_witness :
  let i := {| ri_pid := 42; ri_process_start_ticks := 77; ri_state := 2; ri_executable := text "arm" |} in
  let segment := {| rx_info := i; rx_protocol_version := 1; rx_mode := 0; rx_terminated := true |} in
  let entry name before := {| sh_name := text name; sh_inspection := {| ix_before := before; ix_opened := 0; ix_read := Ok segment; ix_after := Some 77 |} |} in
  let es := [entry "kcf_introspection_runtime_42_77"%string (Some 77); entry "kcf_introspection_runtime_43_5"%string None; entry "kcf_introspection_runtime_042_77"%string (Some 77)] in
  ListRuntimes (Ok es) = Ok [i] /\ exists e, e ∈ es /\ shows e i.
Proof.
  intros i segment entry es. assert (H : ListRuntimes (Ok es) = Ok [i]) by (vm_compute; reflexivity). split; [exact H|].
  destruct (runtime_listing_exact es [i] H) as [H1 _]. apply H1. by left.
Defined.
Definition registry_sample : list RegistryEvent :=
  [RgBegin 42 77 0; RgType sample_descriptor 0 0; RgRegister RegisteredKind.TOPIC RegisteredRole.PUBLISHER (text "/a") 12 true (td_type_id sample_descriptor) 0;
   RgRegister RegisteredKind.PARAMETER RegisteredRole.PARAMETER_OWNER (text "/b") 8 true 0 0; RgTrack 2 (type_failed (- EAGAIN) STORAGE_CREATE) sample_descriptor true;
   RgUnregister 1 0; RgRecover []].
Lemma endpoint_listing_exact_witness :
  NoDup (ac_ids (account 42 registry_sample)) /\ ac_ids (account 42 registry_sample) = [1; 2] /\ ids (ac_registered (account 42 registry_sample)) = [2].
Proof.
  destruct (endpoint_listing_exact 42 registry_sample) as [H _].
  { repeat constructor; cbn; try (by vm_compute); done. }
  split; [exact H|]. split; vm_compute; reflexivity.
Defined.
Lemma type_listing_exact_witness :
  let (result, t') := RegisterTypeDetailed 42 0 0 sample_descriptor (rg_types (registry_run 42 [RgBegin 42 77 0])) in
  tq_type_id result = td_type_id sample_descriptor /\ ty_published t' = Some [Normalize sample_descriptor].
Proof.
  pose proof (type_listing_exact 42 [RgBegin 42 77 0] 0 0 sample_descriptor ltac:(by repeat constructor) sample_wf) as H. cbv zeta in H.
  destruct (RegisterTypeDetailed 42 0 0 sample_descriptor _) as [result t'] eqn:E. destruct H as [H _].
  assert (Hn : (tq_type_id (fst (result, t')) =? 0) = false) by (rewrite <- E; vm_compute; reflexivity). apply Z.eqb_neq in Hn.
  split; [exact (proj1 (H Hn))|]. change t' with (snd (result, t')). rewrite <- E. vm_compute. reflexivity.
Defined.
