(* ===== verification/NetworkDiagnostics.v ===== *)
(** * Network diagnostics snapshots

    [kcf/include/kcf/network/network_diagnostics.hpp] and
    [kcf/src/network/network_diagnostics.cpp]: the routes of the Topic data plane as a
    bounded snapshot, its encoder, which keeps the longest prefix that fits 16 KiB, and
    its decoder. *)
From S2P Require Import Prelude Wire NetTypes NetWire Compatibility.

(** [enum class TopicRouteState : std::uint8_t] *)
Module TopicRouteState.
Definition WAITING_SUBSCRIBER := 0.
Definition ACTIVE := 1.
Definition REJECTED := 2.
Definition CLOSED := 3.
End TopicRouteState.

(** [enum class ProxyRecoveryState : std::uint8_t], its last constant. *)
Definition CLEANUP_FAILED : Z := 8.

Record TopicRouteInfo := {
  ri_source : RemoteEndpointIdentity;
  ri_destination : RemoteEndpointIdentity;
  ri_name : list Z;
  ri_source_session : Z;
  ri_destination_session : Z;
  ri_route_id : Z;
  ri_proxy_recovery : Z;
  ri_sending : bool;
  ri_state : Z;
  ri_error : Z;
  ri_reason : Z;
  ri_packets_sent : Z;
  ri_packets_received : Z;
  ri_samples_published : Z;
  ri_dropped : Z;
  ri_duplicate : Z;
  ri_out_of_order : Z;
  ri_missed_sequence : Z;
  ri_malformed : Z;
  ri_local_samples_skipped : Z
}.

Record NetworkDiagnosticsSnapshot := {
  nd_gateway_host : HostIdentity;
  nd_gateway_boot_id : HostIdentity;
  nd_gateway_session : Z;
  nd_total_routes : Z;
  nd_truncated : bool;
  nd_routes : list TopicRouteInfo
}.

Definition wf_route (r : TopicRouteInfo) : Prop :=
  wf_endpoint (ri_source r) /\ wf_endpoint (ri_destination r) /\ bytes (ri_name r) /\
  is_u64 (ri_source_session r) /\ is_u64 (ri_destination_session r) /\ is_u64 (ri_route_id r) /\
  is_u8 (ri_proxy_recovery r) /\ is_u8 (ri_state r) /\ is_i32 (ri_error r) /\ is_u8 (ri_reason r) /\
  is_u64 (ri_packets_sent r) /\ is_u64 (ri_packets_received r) /\ is_u64 (ri_samples_published r) /\
  is_u64 (ri_dropped r) /\ is_u64 (ri_duplicate r) /\ is_u64 (ri_out_of_order r) /\
  is_u64 (ri_missed_sequence r) /\ is_u64 (ri_malformed r) /\ is_u64 (ri_local_samples_skipped r).
Definition wf_snapshot (s : NetworkDiagnosticsSnapshot) : Prop :=
  wf_host (nd_gateway_host s) /\ wf_host (nd_gateway_boot_id s) /\ is_u64 (nd_gateway_session s) /\
  is_u32 (nd_total_routes s) /\ Forall wf_route (nd_routes s).

Definition NETWORK_DIAGNOSTICS_MAGIC : Z := 1263420465. (* 0x4b4e4431 *)
Definition NETWORK_DIAGNOSTICS_VERSION : Z := 1.
Definition DIAGNOSTICS_HEADER : Z := 60.
Definition ROUTE_FIXED : Z := 210.
Definition MAX_NETWORK_DIAGNOSTICS_PAYLOAD : Z := 16384.

(** ** Validity *)
Definition ValidRoute (r : TopicRouteInfo) : bool :=
  if negb (ValidEndpoint (ri_source r)) || negb (Text (ri_name r) 240) || negb (first_char (ri_name r) =? SLASH) ||
     (TopicRouteState.CLOSED <? ri_state r) || (CompatibilityReason.UNKNOWN_ENDPOINT <? ri_reason r) ||
     (CLEANUP_FAILED <? ri_proxy_recovery r) || (ri_error r <? - INT32_MAX - 1) || (INT32_MAX <? ri_error r) then false
  else if ri_destination r =?? no_endpoint then
    ((ri_state r =? TopicRouteState.WAITING_SUBSCRIBER) || (ri_state r =? TopicRouteState.REJECTED)) &&
    negb (ri_sending r) && (ri_source_session r =? 0) && (ri_destination_session r =? 0) && (ri_route_id r =? 0)
  else
    ValidEndpoint (ri_destination r) &&
    negb (rt_host (ep_runtime (ri_source r)) =?? rt_host (ep_runtime (ri_destination r))) &&
    negb (ri_source_session r =? 0) && negb (ri_destination_session r =? 0) && negb (ri_route_id r =? 0).

Definition ValidSnapshotHeader (s : NetworkDiagnosticsSnapshot) : bool :=
  let size := Z.of_nat (length (nd_routes s)) in
  ValidHost (nd_gateway_host s) && ValidHost (nd_gateway_boot_id s) && negb (nd_gateway_session s =? 0) &&
  (size <=? nd_total_routes s) && Bool.eqb (nd_truncated s) (size <? nd_total_routes s).

Definition route_size (r : TopicRouteInfo) : Z := ROUTE_FIXED + vsize (ri_name r).

(** [Prefix]: how many routes fit, and the size of the payload with them. *)
Fixpoint prefix_from (routes : list TopicRouteInfo) (count size : Z) (full : bool) : result (Z * Z) :=
  match routes with
  | [] => Ok (count, size)
  | r :: rest =>
      if negb (ValidRoute r) then Err (- EINVAL)
      else
        let full := full || (MAX_NETWORK_DIAGNOSTICS_PAYLOAD - size <? route_size r) in
        if full then prefix_from rest count size full
        else prefix_from rest (count + 1) (size + route_size r) full
  end.
Definition Prefix (routes : list TopicRouteInfo) : result (Z * Z) := prefix_from routes 0 DIAGNOSTICS_HEADER false.

Definition MakeNetworkDiagnosticsSnapshot (host boot : HostIdentity) (session : Z) (routes : list TopicRouteInfo) :
    result NetworkDiagnosticsSnapshot :=
  if negb (ValidHost host) || negb (ValidHost boot) || (session =? 0) then Err (- EINVAL)
  else if UINT32_MAX <? Z.of_nat (length routes) then Err (- EMSGSIZE)
  else
    let? (count, size) := Prefix routes in
    Ok {| nd_gateway_host := host; nd_gateway_boot_id := boot; nd_gateway_session := session;
          nd_total_routes := Z.of_nat (length routes); nd_truncated := count <? Z.of_nat (length routes);
          nd_routes := take (Z.to_nat count) routes |}.

(** ** Encoder *)
Definition counters (r : TopicRouteInfo) : list Z :=
  [ri_packets_sent r; ri_packets_received r; ri_samples_published r; ri_dropped r; ri_duplicate r; ri_out_of_order r;
   ri_missed_sequence r; ri_malformed r; ri_local_samples_skipped r].
Definition wRoute (r : TopicRouteInfo) : list Z :=
  wEndpoint (ri_source r) ++ wEndpoint (ri_destination r) ++
  wU (ri_source_session r) 8 ++ wU (ri_destination_session r) 8 ++ wU (ri_route_id r) 8 ++
  wU (ri_state r) 1 ++ wU (if ri_sending r then 1 else 0) 1 ++ wU (ri_reason r) 1 ++ wU (ri_proxy_recovery r) 1 ++
  wU (u32 (ri_error r)) 4 ++ flat_map (fun c => wU c 8) (counters r) ++
  wU (vsize (ri_name r)) 2 ++ ri_name r.
Definition EncodeNetworkDiagnosticsSnapshot (s : NetworkDiagnosticsSnapshot) : result (list Z) :=
  if negb (ValidSnapshotHeader s) then Err (- EINVAL)
  else
    let? (count, size) := Prefix (nd_routes s) in
    Ok (wU NETWORK_DIAGNOSTICS_MAGIC 4 ++ wU NETWORK_DIAGNOSTICS_VERSION 2 ++
        wU (if count <? nd_total_routes s then 1 else 0) 2 ++ wU size 4 ++
        wHost (nd_gateway_host s) ++ wHost (nd_gateway_boot_id s) ++ wU (nd_gateway_session s) 8 ++
        wU (nd_total_routes s) 4 ++ wU count 4 ++ flat_map wRoute (take (Z.to_nat count) (nd_routes s))).

(** ** Decoder *)
(** [Reader::Endpoint] of this file leaves the pid zero when it is out of range. *)
Definition dRouteEndpoint : dec RemoteEndpointIdentity :=
  let$ host := dHost in
  let$ boot := dHost in
  let$ pid := dU 4 in
  let$ _ := dmark (pid <=? INT32_MAX) in
  let$ ticks := dU 8 in
  let$ registration := dU 8 in
  dret {| ep_runtime := {| rt_host := host; rt_boot_id := boot; rt_pid := if pid <=? INT32_MAX then pid else 0;
                           rt_process_start_ticks := ticks |};
          ep_registration_id := registration |}.
Definition dRouteName : dec (list Z) := fun r =>
  let (length, r) := rU 2 r in
  if negb (ok r) || (length =? 0) || (240 <? length) || (vsize (left r) <? length) then Err (- EPROTO)
  else Ok (take (Z.to_nat length) (left r), Reader (drop (Z.to_nat length) (left r)) (ok r)).
Definition dRoute : dec TopicRouteInfo :=
  let$ source := dRouteEndpoint in
  let$ destination := dRouteEndpoint in
  let$ source_session := dU 8 in
  let$ destination_session := dU 8 in
  let$ route_id := dU 8 in
  let$ state := dU 1 in
  let$ sending := dU 1 in
  guard$ sending <=? 1 else - EPROTO in
  let$ reason := dU 1 in
  let$ recovery := dU 1 in
  let$ error := dU 4 in
  let$ c1 := dU 8 in
  let$ c2 := dU 8 in
  let$ c3 := dU 8 in
  let$ c4 := dU 8 in
  let$ c5 := dU 8 in
  let$ c6 := dU 8 in
  let$ c7 := dU 8 in
  let$ c8 := dU 8 in
  let$ c9 := dU 8 in
  let$ name := dRouteName in
  let route := {| ri_source := source; ri_destination := destination; ri_name := name; ri_source_session := source_session;
                  ri_destination_session := destination_session; ri_route_id := route_id; ri_proxy_recovery := recovery;
                  ri_sending := negb (sending =? 0); ri_state := state;
                  ri_error := if error <=? INT32_MAX then error else error - 2 ^ 32; ri_reason := reason;
                  ri_packets_sent := c1; ri_packets_received := c2; ri_samples_published := c3; ri_dropped := c4;
                  ri_duplicate := c5; ri_out_of_order := c6; ri_missed_sequence := c7; ri_malformed := c8;
                  ri_local_samples_skipped := c9 |} in
  guard$ ValidRoute route else - EPROTO in
  dret route.
Fixpoint dRoutes (n : nat) : dec (list TopicRouteInfo) :=
  match n with
  | O => dret []
  | S n => let$ route := dRoute in let$ rest := dRoutes n in dret (route :: rest)
  end.
Definition dSnapshot (size : Z) : dec NetworkDiagnosticsSnapshot :=
  let$ magic := dU 4 in
  guard$ magic =? NETWORK_DIAGNOSTICS_MAGIC else - EPROTO in
  let$ version := dU 2 in
  guard$ version =? NETWORK_DIAGNOSTICS_VERSION else - EPROTONOSUPPORT in
  let$ flags := dU 2 in
  guard$ flags <=? 1 else - EPROTO in
  let$ length := dU 4 in
  guard$ length =? size else - EPROTO in
  let$ host := dHost in
  let$ boot := dHost in
  let$ session := dU 8 in
  let$ total := dU 4 in
  let$ count := dU 4 in
  fun r =>
    if (total <? count) || (vsize (left r) / (ROUTE_FIXED + 1) <? count) then Err (- EPROTO)
    else (let$ routes := dRoutes (Z.to_nat count) in
          dret {| nd_gateway_host := host; nd_gateway_boot_id := boot; nd_gateway_session := session;
                  nd_total_routes := total; nd_truncated := negb (flags =? 0); nd_routes := routes |}) r.

(** [data] is [None] for a null pointer. *)
Definition DecodeNetworkDiagnosticsSnapshot (data : option (list Z)) : result NetworkDiagnosticsSnapshot :=
  match data with
  | None => Err (- EINVAL)
  | Some bs =>
      if (vsize bs <? DIAGNOSTICS_HEADER) || (MAX_NETWORK_DIAGNOSTICS_PAYLOAD <? vsize bs) then Err (- EMSGSIZE)
      else
        let? (s, r) := dSnapshot (vsize bs) (Reader bs true) in
        if negb (ok r) || negb (left r =?? []) || negb (ValidSnapshotHeader s) then Err (- EPROTO) else Ok s
  end.

(** ** Prefixes *)
Definition total_route_size (routes : list TopicRouteInfo) : Z := foldr (fun r n => route_size r + n) 0 routes.

Lemma route_size_pos r : ROUTE_FIXED <= route_size r.
Proof. unfold route_size. pose proof (vsize_nonneg (ri_name r)). lia. Qed.

Lemma total_route_size_cons r l : total_route_size (r :: l) = route_size r + total_route_size l.
Proof. done. Qed.

Lemma total_route_size_nonneg l : 0 <= total_route_size l.
Proof. induction l as [|r l IH]; [done|]. rewrite total_route_size_cons. pose proof (route_size_pos r). unfold ROUTE_FIXED in *. lia. Qed.

(** [Prefix] keeps the longest prefix that fits, after validating every route. *)
Lemma prefix_from_spec routes count size full count' size' :
  prefix_from routes count size full = Ok (count', size') -> size <= MAX_NETWORK_DIAGNOSTICS_PAYLOAD ->
  Forall (fun r => ValidRoute r = true) routes /\
  exists k, (k <= length routes)%nat /\ count' = count + Z.of_nat k /\
    size' = size + total_route_size (take k routes) /\ size' <= MAX_NETWORK_DIAGNOSTICS_PAYLOAD /\
    (full = true -> k = 0%nat) /\
    (full = false -> forall r, routes !! k = Some r -> MAX_NETWORK_DIAGNOSTICS_PAYLOAD < size' + route_size r).
Proof.
  revert count size full. induction routes as [|r rest IH]; intros count size full H Hs; cbn [prefix_from] in H.
  { simplify_eq. split; [constructor|]. exists 0%nat. cbn. split_and!; auto; try lia. by intros. }
  destruct (ValidRoute r) eqn:Hv; [|done]. cbn [negb] in H.
  destruct (full || _) eqn:Hf.
  - apply IH in H as (Hall & k & Hk & -> & -> & Hmax & H0 & _); [|done]. split; [by constructor|].
    specialize (H0 eq_refl). subst k. cbn [take total_route_size foldr] in *. exists 0%nat. cbn [take total_route_size foldr length]. split_and!; auto; try lia.
    intros Hff q Hq. rewrite Hff in Hf. cbn [orb] in Hf. injection Hq as <-. bool_to_prop. change (total_route_size (take 0 rest)) with 0. lia.
  - bool_to_prop. subst full. apply IH in H as (Hall & k & Hk & -> & -> & Hmax & _ & Hnext); [|lia]. split; [by constructor|].
    exists (S k). cbn [take length]. rewrite total_route_size_cons. repeat apply conj; [lia|lia|lia|lia|done|].
    intros _ q Hq. specialize (Hnext eq_refl q Hq). lia.
Qed.

Lemma Prefix_spec routes count size :
  Prefix routes = Ok (count, size) ->
  Forall (fun r => ValidRoute r = true) routes /\ 0 <= count <= Z.of_nat (length routes) /\
  size = DIAGNOSTICS_HEADER + total_route_size (take (Z.to_nat count) routes) /\ size <= MAX_NETWORK_DIAGNOSTICS_PAYLOAD /\
  (forall r, routes !! Z.to_nat count = Some r -> MAX_NETWORK_DIAGNOSTICS_PAYLOAD < size + route_size r).
Proof.
  intros H. apply prefix_from_spec in H as (Hv & k & Hk & -> & -> & Hm & _ & Hn); [|done].
  rewrite Z.add_0_l, Nat2Z.id. split_and!; auto; lia.
Qed.

Lemma prefix_from_all routes count size :
  Forall (fun r => ValidRoute r = true) routes -> size + total_route_size routes <= MAX_NETWORK_DIAGNOSTICS_PAYLOAD ->
  prefix_from routes count size false = Ok (count + Z.of_nat (length routes), size + total_route_size routes).
Proof.
  intros H. revert count size. induction H as [|r l Hr Hl IH]; intros count size Hs; cbn [prefix_from length].
  { do 2 f_equal; cbn; lia. }
  rewrite total_route_size_cons in *. rewrite Hr. cbn [negb orb]. pose proof (total_route_size_nonneg l).
  destruct (Z.ltb_spec (MAX_NETWORK_DIAGNOSTICS_PAYLOAD - size) (route_size r)); [lia|].
  rewrite IH by lia. do 2 f_equal; lia.
Qed.

(** ** The codec *)
Lemma reads_RouteEndpoint e : wf_endpoint e -> 0 <= rt_pid (ep_runtime e) -> reads dRouteEndpoint (wEndpoint e) e.
Proof.
  intros [(Hh & Hb & Hp & Ht) Hreg] Hpos. unfold dRouteEndpoint, wEndpoint, wRuntime. rewrite <- !app_assoc.
  eapply reads_bind; [by apply reads_Host|]. eapply reads_bind; [by apply reads_Host|].
  assert (u64 (rt_pid (ep_runtime e)) = rt_pid (ep_runtime e)) as -> by (unfold u64; apply Z.mod_small; unfold_widths; lia).
  read_U. assert (Hle : (rt_pid (ep_runtime e) <=? INT32_MAX) = true) by (apply Z.leb_le; width).
  apply reads_mark; [done|]. rewrite Hle. read_U. eapply reads_last; [apply reads_U; [lia|width]|].
  destruct e as [[] ?]; apply reads_ret.
Qed.

Lemma consumes_RouteEndpoint : consumes dRouteEndpoint (fun pre e => pre = wEndpoint e /\ wf_endpoint e /\ 0 <= rt_pid (ep_runtime e)).
Proof.
  unfold dRouteEndpoint. eapply consumes_weaken; [repeat consume_step|].
  intros pre e _ H. consumed. match goal with K : (?p <=? INT32_MAX) = true |- _ => rename p into pid; rewrite ?K end. bool_to_prop.
  unfold wEndpoint, wRuntime, wf_endpoint, wf_runtime. cbn [ep_runtime ep_registration_id rt_host rt_boot_id rt_pid rt_process_start_ticks].
  replace (u64 pid) with pid by (unfold u64; rewrite Z.mod_small; width).
  rewrite app_nil_r, <- ?app_assoc. split_and!; auto; width.
Qed.

Lemma reads_RouteName s : bytes s -> 1 <= vsize s <= 240 -> reads dRouteName (wU (vsize s) 2 ++ s) s.
Proof.
  intros Hs Hl rest. unfold dRouteName. rewrite <- app_assoc. pose proof (vsize_nonneg rest).
  assert (HU : rU 2 (Reader (wU (vsize s) 2 ++ s ++ rest) true) = (vsize s, Reader (s ++ rest) true)).
  { pose proof (reads_U 2 (vsize s) ltac:(lia) ltac:(unfold_widths; simpl; lia) (s ++ rest)) as E. unfold dU in E. congruence. }
  rewrite HU. cbn [ok left negb orb]. rewrite vsize_app.
  destruct (Z.eqb_spec (vsize s) 0); [lia|]. destruct (Z.ltb_spec 240 (vsize s)); [lia|].
  destruct (Z.ltb_spec (vsize s + vsize rest) (vsize s)); [lia|]. cbn [orb].
  unfold vsize. by rewrite Nat2Z.id, take_app_length, drop_app_length.
Qed.

Lemma consumes_RouteName : consumes dRouteName (fun pre s => pre = wU (vsize s) 2 ++ s /\ bytes s /\ 1 <= vsize s <= 240).
Proof.
  intros r s r' Hd Hb. unfold dRouteName in Hd. destruct (rU 2 r) as [len r1] eqn:HU.
  destruct (consumes_U 2 ltac:(lia) r len r1 ltac:(unfold dU; congruence) Hb) as [Hb1 K].
  case_check; [done|]. simplify_eq. bool_to_prop. cbn [left ok]. split; [auto with kcf|]. intros Hok.
  destruct (K Hok) as (? & pre & Hl & -> & Hrange). split; [done|].
  assert (Hlen : vsize (take (Z.to_nat len) (left r1)) = len) by (unfold vsize in *; rewrite length_take; lia).
  exists (wU len 2 ++ take (Z.to_nat len) (left r1)). rewrite Hlen. split_and!; auto with kcf; try lia.
  by rewrite <- app_assoc, take_drop.
Qed.

Lemma ValidRoute_inv r : ValidRoute r = true ->
  0 <= rt_pid (ep_runtime (ri_source r)) /\ 0 <= rt_pid (ep_runtime (ri_destination r)) /\ 1 <= vsize (ri_name r) <= 240.
Proof.
  intros H. unfold ValidRoute in H. case_check; [done|]. bool_to_prop.
  match goal with K : Text _ _ = true |- _ => unfold Text in K; bool_to_prop end.
  split; [by apply ValidEndpoint_pid|]. split.
  - case_bool_decide as E; [rewrite E; done|]. bool_to_prop. by apply ValidEndpoint_pid.
  - split; [|done]. unfold vsize. destruct (ri_name r); [done|]. cbn. lia.
Qed.

(** Two's complement: the bits of a 32-bit integer give it back. *)
Lemma i32_wrap z : is_i32 z -> (if u32 z <=? INT32_MAX then u32 z else u32 z - 2 ^ 32) = z.
Proof.
  unfold is_i32, u32, INT32_MAX. intros H. destruct (Z.leb_spec 0 z).
  - rewrite Z.mod_small by lia. case_check; bool_to_prop; lia.
  - rewrite <- (Z.mod_unique_pos z (2 ^ 32) (-1) (z + 2 ^ 32)) by lia. case_check; bool_to_prop; lia.
Qed.

Lemma reads_Route r : wf_route r -> ValidRoute r = true -> reads dRoute (wRoute r) r.
Proof.
  intros (? & ? & ? & ? & ? & ? & ? & ? & He & ? & ? & ? & ? & ? & ? & ? & ? & ? & ?) Hv.
  destruct (ValidRoute_inv r Hv) as (? & ? & ?).
  unfold dRoute, wRoute, counters. cbn [flat_map]. rewrite <- ?app_assoc. change (?l ++ [] ++ ?m) with (l ++ m).
  do 2 (eapply reads_bind; [by apply reads_RouteEndpoint|]). do 4 read_U.
  eapply reads_bind; [apply reads_U; [lia|destruct (ri_sending r); width]|]. apply reads_guard; [by destruct (ri_sending r)|].
  do 2 read_U. eapply reads_bind; [apply reads_U; [lia|]|].
  { change (256 ^ Z.of_nat 4) with (2 ^ 32). apply Z.mod_pos_bound. lia. }
  do 9 read_U. eapply reads_last; [by apply reads_RouteName|].
  assert ((if u32 (ri_error r) <=? INT32_MAX then u32 (ri_error r) else u32 (ri_error r) - 2 ^ 32) = ri_error r) as Herr.
  { by apply i32_wrap. }
  rewrite Herr. cbn zeta.
  replace (negb ((if ri_sending r then 1 else 0) =? 0)) with (ri_sending r) by by destruct (ri_sending r).
  match goal with |- context [dguard (ValidRoute ?q)] => replace q with r by by destruct r end.
  apply reads_guard; [done|]. apply reads_ret.
Qed.

Lemma consumes_Route : consumes dRoute (fun pre r => pre = wRoute r /\ wf_route r /\ ValidRoute r = true).
Proof.
  unfold dRoute. eapply consumes_weaken.
  { do 2 (eapply consumes_bind; [apply consumes_RouteEndpoint|intro]). repeat consume_step.
    all: cbn beta; eapply consumes_bind; [apply consumes_RouteName|intro]; cbn zeta; consume_step; consume_step. }
  intros pre r _ H. consumed. bool_to_prop.
  match goal with K : ?x <= 1 |- _ => rename x into sending end.
  match goal with |- context [if ?x <=? INT32_MAX then _ else _] => rename x into error end.
  assert (Hs : (if negb (sending =? 0) then 1 else 0) = sending).
  { destruct (Z.eqb_spec sending 0); cbn; lia. }
  assert (0 <= error < 2 ^ 32) by (change (256 ^ Z.of_nat 4) with (2 ^ 32) in *; lia).
  assert (He : u32 (if error <=? INT32_MAX then error else error - 2 ^ 32) = error).
  { unfold u32. case_check; bool_to_prop; [apply Z.mod_small; lia|].
    replace (error - 2 ^ 32) with (error + (-1) * 2 ^ 32) by lia. rewrite Z_mod_plus_full. apply Z.mod_small. lia. }
  unfold wRoute, counters, wf_route.
  cbn [ri_source ri_destination ri_name ri_source_session ri_destination_session ri_route_id ri_proxy_recovery ri_sending
    ri_state ri_error ri_reason ri_packets_sent ri_packets_received ri_samples_published ri_dropped ri_duplicate
    ri_out_of_order ri_missed_sequence ri_malformed ri_local_samples_skipped flat_map].
  rewrite Hs, He, ?app_nil_r, <- ?app_assoc. split_and!; auto; try width.
  unfold is_i32, INT32_MAX in *. case_check; bool_to_prop; lia.
Qed.

Lemma reads_Routes l : Forall wf_route l -> Forall (fun r => ValidRoute r = true) l -> reads (dRoutes (length l)) (flat_map wRoute l) l.
Proof.
  induction 1 as [|r l Hr Hl IH]; intros Hv; [apply reads_ret|]. apply Forall_cons in Hv as [Hv Hvl].
  cbn [length dRoutes flat_map]. eapply reads_bind; [by apply reads_Route|]. eapply reads_last; [by apply IH|]. apply reads_ret.
Qed.

Lemma consumes_Routes n : consumes (dRoutes n) (fun pre l =>
  pre = flat_map wRoute l /\ length l = n /\ Forall wf_route l /\ Forall (fun r => ValidRoute r = true) l).
Proof.
  induction n as [|n IH]; cbn [dRoutes].
  { eapply consumes_weaken; [apply consumes_ret|]. intros pre l _ [-> ->]. by repeat constructor. }
  eapply consumes_weaken.
  { eapply consumes_bind; [apply consumes_Route|intros r]. eapply consumes_bind; [apply IH|intros l]. apply consumes_ret. }
  intros pre l _ (r & p1 & p2 & -> & (-> & Hw & Hv) & l' & q1 & q2 & -> & (-> & <- & Hwl & Hvl) & -> & ->).
  cbn [flat_map]. rewrite app_nil_r. split_and!; auto.
Qed.

Lemma wRoute_vsize r : wf_route r -> vsize (wRoute r) = route_size r.
Proof.
  intros (? & ? & _). unfold wRoute, counters. cbn [flat_map]. autorewrite with kcf. unfold route_size, ROUTE_FIXED. lia.
Qed.

Lemma wRoutes_vsize l : Forall wf_route l -> vsize (flat_map wRoute l) = total_route_size l.
Proof. induction 1 as [|r l Hr Hl IH]; [done|]. cbn [flat_map]. by rewrite vsize_app, wRoute_vsize, IH. Qed.

Lemma total_route_size_count l : Forall (fun r => ValidRoute r = true) l -> (ROUTE_FIXED + 1) * Z.of_nat (length l) <= total_route_size l.
Proof.
  induction 1 as [|r l Hr Hl IH]; [done|]. rewrite total_route_size_cons. destruct (ValidRoute_inv r Hr) as (_ & _ & ?).
  unfold route_size. cbn [length]. unfold ROUTE_FIXED in *. lia.
Qed.

(** The snapshot the receiver sees: the routes that fit. *)
Definition truncate_snapshot (s : NetworkDiagnosticsSnapshot) (count : Z) : NetworkDiagnosticsSnapshot :=
  {| nd_gateway_host := nd_gateway_host s; nd_gateway_boot_id := nd_gateway_boot_id s; nd_gateway_session := nd_gateway_session s;
     nd_total_routes := nd_total_routes s; nd_truncated := count <? nd_total_routes s;
     nd_routes := take (Z.to_nat count) (nd_routes s) |}.
Definition snapshot_wire (s : NetworkDiagnosticsSnapshot) : list Z :=
  wU NETWORK_DIAGNOSTICS_MAGIC 4 ++ wU NETWORK_DIAGNOSTICS_VERSION 2 ++ wU (if nd_truncated s then 1 else 0) 2 ++
  wU (DIAGNOSTICS_HEADER + total_route_size (nd_routes s)) 4 ++ wHost (nd_gateway_host s) ++ wHost (nd_gateway_boot_id s) ++
  wU (nd_gateway_session s) 8 ++ wU (nd_total_routes s) 4 ++ wU (Z.of_nat (length (nd_routes s))) 4 ++ flat_map wRoute (nd_routes s).

Lemma snapshot_wire_vsize s : wf_snapshot s -> vsize (snapshot_wire s) = DIAGNOSTICS_HEADER + total_route_size (nd_routes s).
Proof.
  intros (? & ? & _ & _ & Hr). unfold snapshot_wire. autorewrite with kcf. rewrite wRoutes_vsize by done. unfold DIAGNOSTICS_HEADER. lia.
Qed.

(** A snapshot all of whose routes fit: what the encoder keeps and the decoder returns. *)
Definition fits (s : NetworkDiagnosticsSnapshot) : Prop :=
  wf_snapshot s /\ ValidSnapshotHeader s = true /\ Forall (fun r => ValidRoute r = true) (nd_routes s) /\
  DIAGNOSTICS_HEADER + total_route_size (nd_routes s) <= MAX_NETWORK_DIAGNOSTICS_PAYLOAD.

Lemma encode_fits s : fits s -> EncodeNetworkDiagnosticsSnapshot s = Ok (snapshot_wire s).
Proof.
  intros (Hw & Hh & Hv & Hm). unfold EncodeNetworkDiagnosticsSnapshot. rewrite Hh. cbn [negb]. unfold Prefix.
  rewrite prefix_from_all by done. cbn [bind_result]. rewrite Z.add_0_l, Nat2Z.id, firstn_all. unfold snapshot_wire.
  assert (nd_truncated s = (Z.of_nat (length (nd_routes s)) <? nd_total_routes s)) as ->; [|done].
  unfold ValidSnapshotHeader in Hh. bool_to_prop. by apply Bool.eqb_prop.
Qed.

Lemma decode_fits s : fits s -> DecodeNetworkDiagnosticsSnapshot (Some (snapshot_wire s)) = Ok s.
Proof.
  intros (Hw & Hh & Hv & Hm). pose proof (snapshot_wire_vsize s Hw) as Hsz. pose proof (total_route_size_nonneg (nd_routes s)).
  pose proof (total_route_size_count _ Hv) as Hcount.
  unfold DecodeNetworkDiagnosticsSnapshot. rewrite Hsz. assert (Hh' := Hh). unfold ValidSnapshotHeader in Hh'. bool_to_prop.
  destruct (Z.ltb_spec (DIAGNOSTICS_HEADER + total_route_size (nd_routes s)) DIAGNOSTICS_HEADER); [lia|].
  destruct (Z.ltb_spec MAX_NETWORK_DIAGNOSTICS_PAYLOAD (DIAGNOSTICS_HEADER + total_route_size (nd_routes s))); [lia|]. cbn [orb].
  assert (Hread : reads_all (dSnapshot (DIAGNOSTICS_HEADER + total_route_size (nd_routes s))) (snapshot_wire s) s).
  { destruct Hw as (Hw1 & Hw2 & Hw3 & Hw4 & Hwr). unfold dSnapshot, snapshot_wire.
    unfold MAX_NETWORK_DIAGNOSTICS_PAYLOAD, DIAGNOSTICS_HEADER, ROUTE_FIXED in *.
    assert (Hguard : forall {B} (b : bool) c (k : unit -> dec B) bs x, b = true -> reads_all (k tt) bs x -> reads_all (dbind (dguard b c) k) bs x)
      by (by intros ? ? ? ? ? ? -> ?).
    eapply reads_all_bind; [apply reads_U; [lia|width]|]. apply Hguard; [done|].
    eapply reads_all_bind; [apply reads_U; [lia|width]|]. apply Hguard; [done|].
    eapply reads_all_bind; [apply reads_U; [lia|destruct (nd_truncated s); width]|]. apply Hguard; [by destruct (nd_truncated s)|].
    eapply reads_all_bind; [apply reads_U; [lia|width]|]. apply Hguard; [by apply Z.eqb_eq|].
    do 2 (eapply reads_all_bind; [by apply reads_Host|]). do 3 (eapply reads_all_bind; [apply reads_U; [lia|width]|]).
    unfold reads_all. cbn [left]. rewrite wRoutes_vsize by done.
    destruct (Z.ltb_spec (nd_total_routes s) (Z.of_nat (length (nd_routes s)))); [lia|].
    destruct (Z.ltb_spec (total_route_size (nd_routes s) / (210 + 1)) (Z.of_nat (length (nd_routes s)))) as [Hd|_].
    { assert (Z.of_nat (length (nd_routes s)) <= total_route_size (nd_routes s) / (210 + 1)); [|lia]. apply Z.div_le_lower_bound; lia. }
    cbn [orb]. rewrite Nat2Z.id. unfold dbind at 1. rewrite (reads_reads_all _ _ _ (reads_Routes _ Hwr Hv)). unfold dret.
    replace (negb ((if nd_truncated s then 1 else 0) =? 0)) with (nd_truncated s) by by destruct (nd_truncated s). by destruct s. }
  rewrite Hread. cbn [bind_result ok left]. rewrite bool_decide_true by done. by rewrite Hh.
Qed.

Lemma consumes_Snapshot size :
  consumes (dSnapshot size) (fun pre s => wf_snapshot s /\ Forall (fun r => ValidRoute r = true) (nd_routes s) /\
    exists flags, 0 <= flags <= 1 /\ nd_truncated s = negb (flags =? 0) /\
    pre = wU NETWORK_DIAGNOSTICS_MAGIC 4 ++ wU NETWORK_DIAGNOSTICS_VERSION 2 ++ wU flags 2 ++ wU size 4 ++
      wHost (nd_gateway_host s) ++ wHost (nd_gateway_boot_id s) ++ wU (nd_gateway_session s) 8 ++ wU (nd_total_routes s) 4 ++
      wU (Z.of_nat (length (nd_routes s))) 4 ++ flat_map wRoute (nd_routes s)).
Proof.
  unfold dSnapshot. eapply consumes_weaken.
  { do 13 consume_step. all: cbn beta.
    match goal with |- consumes (fun r => if (?t <? ?c) || _ then _ else _) _ => apply (consumes_when _ _ _ (c <= t)) end.
    { intros r Hg. bool_to_prop. lia. }
    intros _. eapply consumes_bind; [apply consumes_Routes|intros routes]. apply consumes_ret. }
  intros pre s _ H. consumed. bool_to_prop. subst. cbn [nd_gateway_host nd_gateway_boot_id nd_gateway_session nd_total_routes nd_truncated nd_routes].
  unfold wf_snapshot. cbn [nd_gateway_host nd_gateway_boot_id nd_gateway_session nd_total_routes nd_truncated nd_routes].
  split_and!; auto; try width. eexists. split_and!; [| |done|]; [done|done|].
  match goal with K : length _ = Z.to_nat _ |- _ => rewrite K end. by rewrite app_nil_r, Z2Nat.id by lia.
Qed.

Lemma DecodeNetworkDiagnosticsSnapshot_inv bs s :
  bytes bs -> DecodeNetworkDiagnosticsSnapshot (Some bs) = Ok s -> fits s /\ bs = snapshot_wire s.
Proof.
  intros Hb H. unfold DecodeNetworkDiagnosticsSnapshot in H. case_check; [done|]. bool_to_prop.
  destruct (dSnapshot _ _) as [[s' r]|] eqn:E; [|done]. cbn [bind_result] in H. case_check; [done|]. simplify_eq. bool_to_prop.
  destruct (consumes_Snapshot _ _ _ _ E Hb) as [_ K]. destruct K as (_ & pre & Hpre & Hw & Hv & flags & Hf & Htr & ->); [done|].
  cbn [left] in Hpre. match goal with K : left r = [] |- _ => rewrite K, app_nil_r in Hpre end.
  assert (Hsz : vsize bs = DIAGNOSTICS_HEADER + total_route_size (nd_routes s)).
  { rewrite Hpre at 1. autorewrite with kcf. rewrite wRoutes_vsize by apply Hw. destruct Hw as (? & ? & _).
    autorewrite with kcf. unfold DIAGNOSTICS_HEADER. lia. }
  split; [repeat apply conj; auto; try apply Hw; lia|].
  rewrite Hpre at 1. unfold snapshot_wire. rewrite <- Hsz, Htr. repeat f_equal. destruct (Z.eqb_spec flags 0); cbn; lia.
Qed.

Lemma truncate_fits s count size :
  wf_snapshot s -> ValidSnapshotHeader s = true -> Prefix (nd_routes s) = Ok (count, size) -> fits (truncate_snapshot s count).
Proof.
  intros (H1 & H2 & H3 & H4 & H5) Hh Hp. apply Prefix_spec in Hp as (Hv & Hc & -> & Hm & _).
  unfold ValidSnapshotHeader in Hh. bool_to_prop. unfold fits, wf_snapshot, ValidSnapshotHeader, truncate_snapshot.
  cbn [nd_gateway_host nd_gateway_boot_id nd_gateway_session nd_total_routes nd_truncated nd_routes].
  assert (Hl : Z.of_nat (length (take (Z.to_nat count) (nd_routes s))) = count) by (rewrite length_take; lia). rewrite Hl.
  split; [split; [|split; [|split; [|split]]]; auto; by apply Forall_take|]. split; [|split; [by apply Forall_take|done]].
  rewrite !andb_true_iff, negb_true_iff, Z.eqb_neq, Z.leb_le. split_and!; auto; try lia; apply Bool.eqb_reflx.
Qed.

(** A diagnostics snapshot is always sent in at most 16 KiB: the encoder keeps the
    longest prefix of the routes that fits, the receiver gets exactly these routes with the
    true total and the truncation flag, whatever the decoder accepts is the canonical
    encoding of a valid snapshot, and a snapshot made from the data plane's routes reaches
    the receiver without losing anything more. *)
Theorem diagnostics_snapshot_codec :
  (forall s bs, wf_snapshot s -> EncodeNetworkDiagnosticsSnapshot s = Ok bs ->
     exists count, 0 <= count <= Z.of_nat (length (nd_routes s)) /\ vsize bs <= MAX_NETWORK_DIAGNOSTICS_PAYLOAD /\
       DecodeNetworkDiagnosticsSnapshot (Some bs) = Ok (truncate_snapshot s count) /\
       (forall r, nd_routes s !! Z.to_nat count = Some r -> MAX_NETWORK_DIAGNOSTICS_PAYLOAD < vsize bs + route_size r)) /\
  (forall bs s, bytes bs -> DecodeNetworkDiagnosticsSnapshot (Some bs) = Ok s ->
     wf_snapshot s /\ EncodeNetworkDiagnosticsSnapshot s = Ok bs) /\
  (forall host boot session routes s, wf_host host -> wf_host boot -> is_u64 session -> Forall wf_route routes ->
     MakeNetworkDiagnosticsSnapshot host boot session routes = Ok s ->
     nd_total_routes s = Z.of_nat (length routes) /\
     exists bs, EncodeNetworkDiagnosticsSnapshot s = Ok bs /\ DecodeNetworkDiagnosticsSnapshot (Some bs) = Ok s).
Proof.
  split_and!.
  - intros s bs Hw H. unfold EncodeNetworkDiagnosticsSnapshot in H. case_check; [done|]. bool_to_prop.
    destruct (Prefix (nd_routes s)) as [[count size]|] eqn:Hp; [|done]. cbn [bind_result] in H. injection H as <-.
    assert (Hf : fits (truncate_snapshot s count)) by (by eapply truncate_fits).
    apply Prefix_spec in Hp as (Hv & Hc & Hs & Hm & Hn). exists count.
    match goal with |- context [vsize ?bs <= _] => assert (Heq : bs = snapshot_wire (truncate_snapshot s count)) end.
    { unfold snapshot_wire, truncate_snapshot. cbn [nd_gateway_host nd_gateway_boot_id nd_gateway_session nd_total_routes nd_truncated nd_routes].
      assert (Hl : Z.of_nat (length (take (Z.to_nat count) (nd_routes s))) = count) by (rewrite length_take; lia). by rewrite <- Hs, Hl. }
    rewrite Heq. rewrite snapshot_wire_vsize by apply Hf. cbn [truncate_snapshot nd_routes]. rewrite <- Hs.
    split_and!; auto; try lia. by apply decode_fits.
  - intros bs s Hb H. destruct (DecodeNetworkDiagnosticsSnapshot_inv bs s Hb H) as [Hf ->]. split; [apply Hf|by apply encode_fits].
  - intros host boot session routes s Hh Hb Hs Hr H. unfold MakeNetworkDiagnosticsSnapshot in H. do 2 (case_check; [done|]). bool_to_prop.
    destruct (Prefix routes) as [[count size]|] eqn:Hp; [|done]. cbn [bind_result] in H.
    set (all := {| nd_gateway_host := host; nd_gateway_boot_id := boot; nd_gateway_session := session;
      nd_total_routes := Z.of_nat (length routes); nd_truncated := false; nd_routes := routes |}).
    assert (Hf : fits (truncate_snapshot all count)).
    { apply (truncate_fits all count size); auto.
      - unfold wf_snapshot, all. cbn. split_and!; auto. unfold_widths. lia.
      - unfold ValidSnapshotHeader, all. cbn [nd_gateway_host nd_gateway_boot_id nd_gateway_session nd_total_routes nd_truncated nd_routes].
        rewrite Z.leb_refl, Z.ltb_irrefl, !andb_true_iff, negb_true_iff, Z.eqb_neq. by split_and!. }
    assert (s = truncate_snapshot all count) as -> by (by injection H as <-).
    split; [done|]. eexists. split; [by apply encode_fits|by apply decode_fits].
Qed.
