(* ===== verification/ControlFrame.v ===== *)
(** * Control frames

    [kcf/include/kcf/network/control_frame.hpp] and [kcf/src/network/control_frame.cpp]:
    the messages of the control connection (greeting, Parameter, Service, Action,
    diagnostics and descriptor requests), their validity, the size prefix a stream
    reader validates first, and the codec. *)
From S2P Require Import Prelude Wire NetTypes NetWire Compatibility TypeDescriptor NetworkDiagnostics.

Definition CONTROL_MAGIC : Z := 1262700099. (* 0x4b434643 *)
Definition CONTROL_WIRE_VERSION : Z := 1.
Definition CONTROL_PREFIX_SIZE : Z := 16.
Definition MAX_CONTROL_FRAME : Z := MAX_PARAMETER_WIRE + 1024.

(** [enum class ControlMessage : std::uint16_t] *)
Module ControlMessage.
Definition HELLO := 1.
Definition PARAM_GET_REQUEST := 2.
Definition PARAM_GET_RESPONSE := 3.
Definition PARAM_SET_REQUEST := 4.
Definition PARAM_SET_RESPONSE := 5.
Definition SERVICE_REQUEST := 6.
Definition SERVICE_RESPONSE := 7.
Definition ACTION_GOAL_REQUEST := 8.
Definition ACTION_GOAL_RESPONSE := 9.
Definition ACTION_FEEDBACK := 10.
Definition ACTION_RESULT := 11.
Definition ACTION_CANCEL_REQUEST := 12.
Definition ACTION_CANCEL_RESPONSE := 13.
Definition DIAGNOSTICS_REQUEST := 14.
Definition DIAGNOSTICS_RESPONSE := 15.
Definition DESCRIPTOR_REQUEST := 16.
Definition DESCRIPTOR_RESPONSE := 17.
End ControlMessage.

(** [enum class ActionState : std::uint8_t] as the wire carries it. *)
Module WireActionState.
Definition IDLE := 0.
Definition ACCEPTED := 1.
Definition RUNNING := 2.
Definition SUCCEEDED := 3.
Definition FAILED := 4.
Definition CANCELED := 5.
End WireActionState.
Definition WireActionTerminal (state : Z) : bool :=
  (state =? WireActionState.SUCCEEDED) || (state =? WireActionState.FAILED) || (state =? WireActionState.CANCELED).

Record RemoteGoalIdentity := { rg_source : RemoteRuntimeIdentity; rg_goal_id : Z; rg_session_id : Z }.
Definition no_goal : RemoteGoalIdentity := {| rg_source := no_runtime; rg_goal_id := 0; rg_session_id := 0 |}.
#[export] Instance goal_eq_dec : EqDecision RemoteGoalIdentity.
Proof. solve_decision. Defined.

Definition IsActionMessage (op : Z) : bool := (ControlMessage.ACTION_GOAL_REQUEST <=? op) && (op <=? ControlMessage.ACTION_CANCEL_RESPONSE).
Definition IsDiagnosticsMessage (op : Z) : bool := (op =? ControlMessage.DIAGNOSTICS_REQUEST) || (op =? ControlMessage.DIAGNOSTICS_RESPONSE).
Definition IsDescriptorMessage (op : Z) : bool := (op =? ControlMessage.DESCRIPTOR_REQUEST) || (op =? ControlMessage.DESCRIPTOR_RESPONSE).
(** [service] of the functions below. *)
Definition IsServiceMessage (op : Z) : bool := (op =? ControlMessage.SERVICE_REQUEST) || (op =? ControlMessage.SERVICE_RESPONSE).

Record ControlFrame := {
  cf_operation : Z;
  cf_source : RemoteRuntimeIdentity;
  cf_session_id : Z;
  cf_request_id : Z;
  cf_endpoint : RemoteEndpointIdentity;
  cf_target : Z;
  cf_name : list Z;
  cf_type : TypeIdentity;
  cf_response_type : TypeIdentity;
  cf_feedback_type : TypeIdentity;
  cf_goal : RemoteGoalIdentity;
  cf_action_state : Z;
  cf_outcome_unknown : bool;
  cf_feedback_sequence : Z;
  cf_timeout_ms : Z;
  cf_status : Z;
  cf_reason : Z;
  cf_payload : list Z;
  cf_descriptor_role : Z
}.

Definition wf_goal (g : RemoteGoalIdentity) : Prop := wf_runtime (rg_source g) /\ is_u64 (rg_goal_id g) /\ is_u64 (rg_session_id g).
Definition wf_frame (f : ControlFrame) : Prop :=
  is_u16 (cf_operation f) /\ wf_runtime (cf_source f) /\ is_u64 (cf_session_id f) /\ is_u64 (cf_request_id f) /\
  wf_endpoint (cf_endpoint f) /\ is_u8 (cf_target f) /\ bytes (cf_name f) /\ wf_type (cf_type f) /\
  wf_type (cf_response_type f) /\ wf_type (cf_feedback_type f) /\ wf_goal (cf_goal f) /\ is_u8 (cf_action_state f) /\
  is_u64 (cf_feedback_sequence f) /\ is_u32 (cf_timeout_ms f) /\ is_i32 (cf_status f) /\ is_u8 (cf_reason f) /\
  bytes (cf_payload f) /\ is_u8 (cf_descriptor_role f).

(** ** Validity *)
Definition small_type (t : TypeIdentity) : bool := ValidType t && (ty_payload_size t <=? MAX_PARAMETER_WIRE).
Definition request_timeout (f : ControlFrame) : bool := (0 <? cf_timeout_ms f) && (cf_timeout_ms f <=? 60000).
Definition compatible (f : ControlFrame) : bool := cf_reason f =? CompatibilityReason.COMPATIBLE.
Definition no_status (f : ControlFrame) : bool := cf_status f =? 0.
Definition no_payload (f : ControlFrame) : bool := cf_payload f =?? [].
Definition absolute (name : list Z) : bool := Text name 240 && (first_char name =? SLASH).

(** The block of the descriptor messages. *)
Definition ValidDescriptorFrame (f : ControlFrame) : bool :=
  if (cf_descriptor_role f <? DescriptorRole.VALUE) || (DescriptorRole.FEEDBACK <? cf_descriptor_role f) ||
     (cf_request_id f =? 0) || negb (ValidEndpoint (cf_endpoint f)) || negb (cf_target f =? TargetScope.ENDPOINT) ||
     negb (absolute (cf_name f)) || negb (small_type (cf_type f)) then false
  else if cf_operation f =? ControlMessage.DESCRIPTOR_REQUEST then
    request_timeout f && no_status f && compatible f && no_payload f
  else if negb (cf_timeout_ms f =? 0) || (0 <? cf_status f) || negb (compatible f) then false
  else if negb (no_status f) then no_payload f
  else match DecodeTypeDescriptor (cf_payload f) (cf_type f) with Ok _ => true | Err _ => false end.

(** The block of the diagnostics messages. *)
Definition ValidDiagnosticsFrame (f : ControlFrame) : bool :=
  if (cf_request_id f =? 0) || negb (cf_endpoint f =?? no_endpoint) || negb (cf_name f =?? []) ||
     negb (cf_type f =?? no_type) || negb (cf_target f =? TargetScope.HOST) ||
     (MAX_NETWORK_DIAGNOSTICS_PAYLOAD <? vsize (cf_payload f)) then false
  else if cf_operation f =? ControlMessage.DIAGNOSTICS_REQUEST then
    request_timeout f && no_status f && compatible f && no_payload f
  else if negb (cf_timeout_ms f =? 0) || (0 <? cf_status f) || (CompatibilityReason.UNKNOWN_ENDPOINT <? cf_reason f) then false
  else if negb (no_status f) then no_payload f
  else if negb (compatible f) then false
  else match DecodeNetworkDiagnosticsSnapshot (Some (cf_payload f)) with
  | Err _ => false
  | Ok s => (nd_gateway_host s =?? rt_host (cf_source f)) && (nd_gateway_boot_id s =?? rt_boot_id (cf_source f)) &&
            (nd_gateway_session s =? cf_session_id f)
  end.

(** The block of the Action messages. *)
Definition ValidActionFrame (f : ControlFrame) : bool :=
  let op := cf_operation f in
  let g := cf_goal f in
  if negb (ValidRuntime (rg_source g)) || (rg_goal_id g =? 0) || (rg_session_id g =? 0) ||
     negb (small_type (cf_feedback_type f)) || (WireActionState.CANCELED <? cf_action_state f) then false
  else if cf_outcome_unknown f &&
     (no_status f || negb ((op =? ControlMessage.ACTION_GOAL_RESPONSE) || (op =? ControlMessage.ACTION_CANCEL_RESPONSE))) then false
  else if (op =? ControlMessage.ACTION_GOAL_REQUEST) || (op =? ControlMessage.ACTION_CANCEL_REQUEST) then
    (rg_source g =?? cf_source f) && (rg_session_id g =? cf_session_id f) && no_status f && compatible f && request_timeout f &&
    (cf_action_state f =? WireActionState.IDLE) && (cf_feedback_sequence f =? 0) &&
    (if op =? ControlMessage.ACTION_GOAL_REQUEST then vsize (cf_payload f) =? ty_payload_size (cf_type f) else no_payload f)
  else if negb (cf_timeout_ms f =? 0) || (0 <? cf_status f) || (CompatibilityReason.UNKNOWN_ENDPOINT <? cf_reason f) then false
  else if op =? ControlMessage.ACTION_FEEDBACK then
    (cf_request_id f =? 0) && no_status f && compatible f && negb (cf_feedback_sequence f =? 0) &&
    (cf_action_state f =? WireActionState.RUNNING) && (vsize (cf_payload f) =? ty_payload_size (cf_feedback_type f))
  else if op =? ControlMessage.ACTION_RESULT then
    (cf_request_id f =? 0) && WireActionTerminal (cf_action_state f) &&
    (if negb (no_status f) then no_payload f else vsize (cf_payload f) =? ty_payload_size (cf_response_type f))
  else no_payload f && (cf_feedback_sequence f =? 0) &&
       (cf_action_state f =? (if negb (no_status f) then WireActionState.IDLE else WireActionState.ACCEPTED)).

(** The fields only Action messages carry. *)
Definition no_action_fields (f : ControlFrame) : bool :=
  (cf_feedback_type f =?? no_type) && (cf_goal f =?? no_goal) && (cf_action_state f =? WireActionState.IDLE) &&
  (cf_feedback_sequence f =? 0).

Definition ValidFrame (f : ControlFrame) : bool :=
  let op := cf_operation f in
  let action := IsActionMessage op in
  let service := IsServiceMessage op in
  if negb (ValidRuntime (cf_source f)) || (cf_session_id f =? 0) || (MAX_PARAMETER_WIRE <? vsize (cf_payload f)) then false
  else if (if service || action then negb (small_type (cf_response_type f)) else negb (cf_response_type f =?? no_type)) then false
  else if negb action && (negb (no_action_fields f) || cf_outcome_unknown f) then false
  else if IsDescriptorMessage op then ValidDescriptorFrame f
  else if negb (cf_descriptor_role f =? DescriptorRole.NONE) then false
  else if IsDiagnosticsMessage op then ValidDiagnosticsFrame f
  else if op =? ControlMessage.HELLO then
    (cf_request_id f =? 0) && (cf_endpoint f =?? no_endpoint) && (cf_name f =?? []) && (cf_type f =?? no_type) &&
    (cf_timeout_ms f =? 0) && no_status f && no_payload f && (cf_target f =? TargetScope.ENDPOINT) && compatible f
  else if ((cf_request_id f =? 0) && negb (op =? ControlMessage.ACTION_FEEDBACK) && negb (op =? ControlMessage.ACTION_RESULT)) ||
     negb (ValidEndpoint (cf_endpoint f)) || negb (absolute (cf_name f)) || negb (small_type (cf_type f)) ||
     (TargetCapability (cf_target f) =? 0) then false
  else if action then ValidActionFrame f
  else if negb (no_action_fields f) then false
  else
    let request := (op =? ControlMessage.PARAM_GET_REQUEST) || (op =? ControlMessage.PARAM_SET_REQUEST) || (op =? ControlMessage.SERVICE_REQUEST) in
    let response := (op =? ControlMessage.PARAM_GET_RESPONSE) || (op =? ControlMessage.PARAM_SET_RESPONSE) || (op =? ControlMessage.SERVICE_RESPONSE) in
    if negb request && negb response then false
    else if request then
      no_status f && compatible f && request_timeout f &&
      (if op =? ControlMessage.PARAM_GET_REQUEST then no_payload f else vsize (cf_payload f) =? ty_payload_size (cf_type f))
    else if negb (cf_timeout_ms f =? 0) || (0 <? cf_status f) || (CompatibilityReason.UNKNOWN_ENDPOINT <? cf_reason f) then false
    else if negb (no_status f) then no_payload f
    else compatible f &&
      (if op =? ControlMessage.SERVICE_RESPONSE then vsize (cf_payload f) =? ty_payload_size (cf_response_type f)
       else if op =? ControlMessage.PARAM_GET_RESPONSE then vsize (cf_payload f) =? ty_payload_size (cf_type f)
       else no_payload f).

(** ** The size prefix *)
Definition dPrefix : dec (Z * Z) :=
  let$ magic := dU 4 in
  guard$ magic =? CONTROL_MAGIC else - EPROTO in
  let$ version := dU 2 in
  guard$ version =? CONTROL_WIRE_VERSION else - EPROTONOSUPPORT in
  let$ op := dU 2 in
  guard$ (1 <=? op) && (op <=? 17) else - EPROTO in
  let$ length := dU 4 in
  guard$ (172 <=? length) && (length <=? MAX_CONTROL_FRAME) else - EMSGSIZE in
  guard$ negb (op =? ControlMessage.DIAGNOSTICS_REQUEST) || (length =? 172) else - EMSGSIZE in
  guard$ negb (op =? ControlMessage.DIAGNOSTICS_RESPONSE) || (length <=? 172 + MAX_NETWORK_DIAGNOSTICS_PAYLOAD) else - EMSGSIZE in
  let$ reserved := dU 4 in
  guard$ reserved =? 0 else - EPROTO in
  dret (op, length).
(** [data] is [None] for a null pointer. *)
Definition ControlFrameSize (data : option (list Z)) : result Z :=
  match data with
  | None => Err (- EINVAL)
  | Some bs =>
      if vsize bs <? CONTROL_PREFIX_SIZE then Err (- EAGAIN)
      else let? (out, _) := dPrefix (Reader bs true) in Ok (snd out)
  end.

(** ** Encoder *)
Definition frame_size (f : ControlFrame) : Z :=
  172 + (if IsServiceMessage (cf_operation f) then 24 else 0) + (if IsActionMessage (cf_operation f) then 120 else 0) +
  (if IsDescriptorMessage (cf_operation f) then 4 else 0) + vsize (cf_name f) + vsize (cf_payload f).
Definition frame_prefix (op length : Z) : list Z :=
  wU CONTROL_MAGIC 4 ++ wU CONTROL_WIRE_VERSION 2 ++ wU op 2 ++ wU length 4 ++ wU 0 4.
Definition frame_common (f : ControlFrame) (names payload : Z) : list Z :=
  wRuntime (cf_source f) ++ wU (cf_session_id f) 8 ++ wU (cf_request_id f) 8 ++ wEndpoint (cf_endpoint f) ++
  wU (cf_target f) 1 ++ wU (cf_reason f) 1 ++ wU 0 2 ++ wType (cf_type f) ++
  wU (cf_timeout_ms f) 4 ++ wU (u32 (cf_status f)) 4 ++ wU names 2 ++ wU 0 2 ++ wU payload 4.
Definition action_extension (f : ControlFrame) : list Z :=
  wType (cf_feedback_type f) ++ wRuntime (rg_source (cf_goal f)) ++ wU (rg_goal_id (cf_goal f)) 8 ++
  wU (rg_session_id (cf_goal f)) 8 ++ wU (cf_action_state f) 1 ++ wU (if cf_outcome_unknown f then 1 else 0) 1 ++ wU 0 2 ++
  wU (cf_feedback_sequence f) 8.
Definition frame_extensions (f : ControlFrame) : list Z :=
  (if IsServiceMessage (cf_operation f) || IsActionMessage (cf_operation f) then wType (cf_response_type f) else []) ++
  (if IsActionMessage (cf_operation f) then action_extension f else []) ++
  (if IsDescriptorMessage (cf_operation f) then wU (cf_descriptor_role f) 1 ++ wU 0 3 else []).
Definition frame_wire (f : ControlFrame) : list Z :=
  frame_prefix (cf_operation f) (frame_size f) ++ frame_common f (vsize (cf_name f)) (vsize (cf_payload f)) ++
  frame_extensions f ++ cf_name f ++ cf_payload f.
Definition EncodeControlFrame (f : ControlFrame) : result (list Z) :=
  if negb (ValidFrame f) then Err (- EINVAL) else Ok (frame_wire f).

(** ** Decoder *)
Record action_fields := {
  af_feedback_type : TypeIdentity;
  af_goal : RemoteGoalIdentity;
  af_state : Z;
  af_unknown : bool;
  af_sequence : Z
}.
Definition no_action : action_fields :=
  {| af_feedback_type := no_type; af_goal := no_goal; af_state := WireActionState.IDLE; af_unknown := false; af_sequence := 0 |}.
Definition dAction : dec action_fields :=
  let$ feedback := dType in
  let$ source := dRuntime in
  let$ goal := dU 8 in
  let$ session := dU 8 in
  let$ state := dU 1 in
  let$ unknown := dU 1 in
  guard$ unknown <=? 1 else - EPROTO in
  let$ reserved := dU 2 in
  guard$ reserved =? 0 else - EPROTO in
  let$ sequence := dU 8 in
  dret {| af_feedback_type := feedback; af_goal := {| rg_source := source; rg_goal_id := goal; rg_session_id := session |};
          af_state := state; af_unknown := negb (unknown =? 0); af_sequence := sequence |}.
Definition dRole : dec Z :=
  let$ role := dU 1 in
  let$ reserved := dU 3 in
  guard$ reserved =? 0 else - EPROTO in
  dret role.
(** The fields after the prefix, up to the texts: the frame without them, and their sizes. *)
Definition dFrame (op : Z) : dec (ControlFrame * Z * Z) :=
  let$ source := dRuntime in
  let$ session := dU 8 in
  let$ request := dU 8 in
  let$ endpoint := dEndpoint in
  let$ target := dU 1 in
  let$ reason := dU 1 in
  let$ reserved := dU 2 in
  guard$ reserved =? 0 else - EPROTO in
  let$ type := dType in
  let$ timeout := dU 4 in
  let$ status := dU 4 in
  let$ names := dU 2 in
  let$ reserved := dU 2 in
  guard$ reserved =? 0 else - EPROTO in
  let$ payload := dU 4 in
  let$ response := (if IsServiceMessage op || IsActionMessage op then dType else dret no_type) in
  let$ action := (if IsActionMessage op then dAction else dret no_action) in
  let$ role := (if IsDescriptorMessage op then dRole else dret DescriptorRole.NONE) in
  dret ({| cf_operation := op; cf_source := source; cf_session_id := session; cf_request_id := request; cf_endpoint := endpoint;
           cf_target := target; cf_name := []; cf_type := type; cf_response_type := response;
           cf_feedback_type := af_feedback_type action; cf_goal := af_goal action; cf_action_state := af_state action;
           cf_outcome_unknown := af_unknown action; cf_feedback_sequence := af_sequence action; cf_timeout_ms := timeout;
           cf_status := if status <=? INT32_MAX then status else -1 - (UINT32_MAX - status);
           cf_reason := reason; cf_payload := []; cf_descriptor_role := role |}, names, payload).
Definition with_texts (f : ControlFrame) (name payload : list Z) : ControlFrame :=
  {| cf_operation := cf_operation f; cf_source := cf_source f; cf_session_id := cf_session_id f; cf_request_id := cf_request_id f;
     cf_endpoint := cf_endpoint f; cf_target := cf_target f; cf_name := name; cf_type := cf_type f;
     cf_response_type := cf_response_type f; cf_feedback_type := cf_feedback_type f; cf_goal := cf_goal f;
     cf_action_state := cf_action_state f; cf_outcome_unknown := cf_outcome_unknown f;
     cf_feedback_sequence := cf_feedback_sequence f; cf_timeout_ms := cf_timeout_ms f; cf_status := cf_status f;
     cf_reason := cf_reason f; cf_payload := payload; cf_descriptor_role := cf_descriptor_role f |}.
(** The decoder from byte 6 on. *)
Definition dBody : dec (ControlFrame * Z * Z) :=
  let$ op := dU 2 in
  let$ _ := dU 8 in
  dFrame op.
Definition DecodeControlFrame (data : option (list Z)) : result ControlFrame :=
  let? length := ControlFrameSize data in
  let bs := default [] data in
  if negb (length =? vsize bs) then Err (- EMSGSIZE)
  else
    let? (out, r) := dBody (Reader (drop 6 bs) true) in
    let '(f, names, payload) := out in
    if negb (ok r) || (240 <? names) || (MAX_PARAMETER_WIRE <? payload) || negb (names + payload =? vsize (left r)) then Err (- EPROTO)
    else
      let f := with_texts f (take (Z.to_nat names) (left r)) (take (Z.to_nat payload) (drop (Z.to_nat names) (left r))) in
      if negb (ValidFrame f) then Err (- EPROTO) else Ok f.

(** ** Round trips *)
Ltac frame_cbn := cbn [cf_operation cf_source cf_session_id cf_request_id cf_endpoint cf_target cf_name cf_type cf_response_type
  cf_feedback_type cf_goal cf_action_state cf_outcome_unknown cf_feedback_sequence cf_timeout_ms cf_status cf_reason cf_payload
  cf_descriptor_role af_feedback_type af_goal af_state af_unknown af_sequence rg_source rg_goal_id rg_session_id with_texts].

Lemma ValidRuntime_not_pid r : ValidRuntime r = true \/ r = no_runtime -> 0 <= rt_pid r.
Proof. intros [H| ->]; [by apply ValidRuntime_pid|done]. Qed.
Lemma ValidEndpoint_not_pid e : ValidEndpoint e = true \/ e = no_endpoint -> 0 <= rt_pid (ep_runtime e).
Proof. intros [H| ->]; [by apply ValidEndpoint_pid|done]. Qed.

(** What every valid frame has, whatever its operation. *)
Record frame_bounds (f : ControlFrame) : Prop := {
  fb_source : ValidRuntime (cf_source f) = true;
  fb_payload : vsize (cf_payload f) <= MAX_PARAMETER_WIRE;
  fb_name : vsize (cf_name f) <= 240;
  fb_endpoint : ValidEndpoint (cf_endpoint f) = true \/ cf_endpoint f = no_endpoint;
  fb_goal : ValidRuntime (rg_source (cf_goal f)) = true \/ rg_source (cf_goal f) = no_runtime;
  fb_response : IsServiceMessage (cf_operation f) || IsActionMessage (cf_operation f) = false -> cf_response_type f = no_type;
  fb_action : IsActionMessage (cf_operation f) = false ->
    no_action_fields f = true /\ cf_outcome_unknown f = false;
  fb_role : IsDescriptorMessage (cf_operation f) = false -> cf_descriptor_role f = DescriptorRole.NONE;
  fb_operation : 1 <= cf_operation f <= 17;
  fb_diagnostics : cf_operation f = ControlMessage.DIAGNOSTICS_REQUEST \/ cf_operation f = ControlMessage.DIAGNOSTICS_RESPONSE ->
    cf_name f = [] /\ vsize (cf_payload f) <= MAX_NETWORK_DIAGNOSTICS_PAYLOAD /\
    (cf_operation f = ControlMessage.DIAGNOSTICS_REQUEST -> cf_payload f = [])
}.

Lemma absolute_size name : absolute name = true -> vsize name <= 240.
Proof. unfold absolute, Text. intros H. bool_to_prop. lia. Qed.

Lemma ValidFrame_common f : ValidFrame f = true ->
  ValidRuntime (cf_source f) = true /\ vsize (cf_payload f) <= MAX_PARAMETER_WIRE /\
  (IsServiceMessage (cf_operation f) || IsActionMessage (cf_operation f) = false -> cf_response_type f = no_type) /\
  (IsActionMessage (cf_operation f) = false -> no_action_fields f = true /\ cf_outcome_unknown f = false) /\
  (IsDescriptorMessage (cf_operation f) = false -> cf_descriptor_role f = DescriptorRole.NONE).
Proof.
  unfold ValidFrame. intros H. cbn zeta in H. destruct (_ || _ || (MAX_PARAMETER_WIRE <? _)) eqn:E1; [done|].
  destruct (if _ || _ then _ else _) eqn:E2; [done|]. destruct (negb _ && _) eqn:E3; [done|]. bool_to_prop.
  split_and!; auto.
  - intros Hs. rewrite Hs in E2. by bool_to_prop.
  - intros Ha. rewrite Ha in E3. cbn [negb andb] in E3. by bool_to_prop.
  - intros Hd. rewrite Hd in H. case_check; [done|]. by bool_to_prop.
Qed.

Lemma ValidFrame_bounds f : ValidFrame f = true -> frame_bounds f.
Proof.
  intros Hv. destruct (ValidFrame_common f Hv) as (Hs & Hp & Hr & Ha & Hd).
  assert (Hrest : vsize (cf_name f) <= 240 /\ (ValidEndpoint (cf_endpoint f) = true \/ cf_endpoint f = no_endpoint) /\
    (ValidRuntime (rg_source (cf_goal f)) = true \/ IsActionMessage (cf_operation f) = false) /\ 1 <= cf_operation f <= 17 /\
    (cf_operation f = ControlMessage.DIAGNOSTICS_REQUEST \/ cf_operation f = ControlMessage.DIAGNOSTICS_RESPONSE ->
     cf_name f = [] /\ vsize (cf_payload f) <= MAX_NETWORK_DIAGNOSTICS_PAYLOAD /\
     (cf_operation f = ControlMessage.DIAGNOSTICS_REQUEST -> cf_payload f = []))).
  2:{ destruct Hrest as (H1 & H2 & H3 & H4 & H5). constructor; auto. destruct H3 as [H3|H3]; [by left|]. right.
      destruct (Ha H3) as [Hn _]. unfold no_action_fields in Hn. bool_to_prop.
      match goal with K : cf_goal f = no_goal |- _ => by rewrite K end. }
  unfold ValidFrame in Hv. cbn zeta in Hv. do 3 (case_check; [done|]).
  destruct (IsDescriptorMessage (cf_operation f)) eqn:Edesc.
  { unfold ValidDescriptorFrame in Hv. case_check; [done|]. unfold IsDescriptorMessage in Edesc. bool_to_prop.
    apply orb_true_iff in Edesc. split_and!; [by apply absolute_size|by left|right| | |];
      unfold IsActionMessage, ControlMessage.DESCRIPTOR_REQUEST, ControlMessage.DESCRIPTOR_RESPONSE, ControlMessage.DIAGNOSTICS_REQUEST,
        ControlMessage.DIAGNOSTICS_RESPONSE in *; destruct Edesc as [E|E]; bool_to_prop; try lia; rewrite E; done. }
  case_check; [done|]. destruct (IsDiagnosticsMessage (cf_operation f)) eqn:Ediag.
  { unfold ValidDiagnosticsFrame in Hv. case_check; [done|]. unfold IsDiagnosticsMessage in Ediag. bool_to_prop.
    apply orb_true_iff in Ediag.
    assert (IsActionMessage (cf_operation f) = false /\ 1 <= cf_operation f <= 17) as [Hna Hop].
    { unfold IsActionMessage, ControlMessage.DIAGNOSTICS_REQUEST, ControlMessage.DIAGNOSTICS_RESPONSE in *.
      destruct Ediag as [E|E]; bool_to_prop; rewrite E; done. }
    match goal with K : cf_name f = [] |- _ => rewrite K end. split_and!; auto; try lia; [done|].
    intros _. split_and!; auto. intros Hreq. rewrite Hreq, Z.eqb_refl in Hv. unfold no_payload in Hv. by bool_to_prop. }
  assert (Hnd : ~ (cf_operation f = ControlMessage.DIAGNOSTICS_REQUEST \/ cf_operation f = ControlMessage.DIAGNOSTICS_RESPONSE)).
  { intros [E|E]; rewrite E in Ediag; done. }
  destruct (cf_operation f =? ControlMessage.HELLO) eqn:Ehello.
  { bool_to_prop. match goal with K : cf_name f = [] |- _ => rewrite K end. rewrite Ehello. by split_and!; auto. }
  case_check; [done|]. bool_to_prop.
  assert (Hop : 1 <= cf_operation f <= 17).
  { destruct (IsActionMessage _) eqn:Eact.
    { unfold IsActionMessage, ControlMessage.ACTION_GOAL_REQUEST, ControlMessage.ACTION_CANCEL_RESPONSE in *. bool_to_prop. lia. }
    do 2 (case_check; [done|]). bool_to_prop.
    match goal with K : negb _ && negb _ = false |- _ => apply andb_false_iff in K as [K|K]; apply negb_false_iff in K end;
    repeat match goal with K : _ || _ = true |- _ => apply orb_true_iff in K as [K|K] end; bool_to_prop;
    match goal with K : cf_operation f = _ |- _ => rewrite K; done end. }
  split_and!; [by apply absolute_size|by left| |lia|lia|done].
  destruct (IsActionMessage _); [|by right]. left. unfold ValidActionFrame in Hv. case_check; [done|]. by bool_to_prop.
Qed.

Lemma reads_option {A} (b : bool) (d : dec A) bs x y :
  (b = true -> reads d bs x) -> (b = false -> x = y) -> reads (if b then d else dret y) (if b then bs else []) x.
Proof. destruct b; intros H1 H2; [by apply H1|]. rewrite H2 by done. apply reads_ret. Qed.

Lemma consumes_option {A} (b : bool) (d : dec A) y Q :
  consumes d Q -> consumes (if b then d else dret y) (fun pre x => if b then Q pre x else pre = [] /\ x = y).
Proof. destruct b; [done|]. intros _. apply consumes_ret. Qed.

Definition action_of (f : ControlFrame) : action_fields :=
  {| af_feedback_type := cf_feedback_type f; af_goal := cf_goal f; af_state := cf_action_state f;
     af_unknown := cf_outcome_unknown f; af_sequence := cf_feedback_sequence f |}.

Lemma reads_Action f : wf_frame f -> 0 <= rt_pid (rg_source (cf_goal f)) -> reads dAction (action_extension f) (action_of f).
Proof.
  intros (_ & _ & _ & _ & _ & _ & _ & _ & _ & Hft & (Hg1 & Hg2 & Hg3) & Hst & Hseq & _) Hpid. unfold dAction, action_extension.
  do 5 read_step. eapply reads_bind; [apply reads_U; [lia|destruct (cf_outcome_unknown f); width]|].
  apply reads_guard; [by destruct (cf_outcome_unknown f)|]. do 2 read_step.
  eapply reads_last; [apply reads_U; [lia|width]|]. unfold action_of.
  replace (negb ((if cf_outcome_unknown f then 1 else 0) =? 0)) with (cf_outcome_unknown f) by by destruct (cf_outcome_unknown f).
  destruct (cf_goal f); apply reads_ret.
Qed.

Lemma status_wrap z : is_i32 z -> (if u32 z <=? INT32_MAX then u32 z else -1 - (UINT32_MAX - u32 z)) = z.
Proof. intros H. rewrite <- (i32_wrap z H) at 4. case_check; [done|]. unfold UINT32_MAX. lia. Qed.

Lemma reads_Frame f names payload :
  wf_frame f -> ValidFrame f = true -> is_u16 names -> is_u32 payload ->
  reads (dFrame (cf_operation f)) (frame_common f names payload ++ frame_extensions f) (with_texts f [] [], names, payload).
Proof.
  intros Hw Hv Hn Hp. destruct (ValidFrame_bounds f Hv) as [Hs _ _ He Hg Hresp Hact Hrole _ _].
  pose proof (ValidRuntime_pid _ Hs). pose proof (ValidEndpoint_not_pid _ He). pose proof (ValidRuntime_not_pid _ Hg).
  assert (Hw' := Hw). destruct Hw' as (? & ? & ? & ? & ? & ? & ? & ? & ? & ? & ? & ? & ? & ? & Hst & ? & ? & ?).
  unfold dFrame, frame_common, frame_extensions. rewrite <- !app_assoc. do 10 read_step.
  eapply reads_bind; [apply reads_U; [lia|]|].
  { change (256 ^ Z.of_nat 4) with (2 ^ 32). apply Z.mod_pos_bound. lia. }
  do 4 read_step. eapply reads_bind; [by apply reads_option; [intros; apply reads_Type|apply Hresp]|].
  eapply reads_bind.
  { apply reads_option; [intros _; by apply reads_Action|]. intros Ha. destruct (Hact Ha) as [Hn' Hu].
    unfold no_action_fields in Hn'. bool_to_prop. unfold action_of, no_action. congruence. }
  eapply reads_last.
  { apply reads_option; [|apply Hrole]. intros _. unfold dRole. read_step. eapply reads_last; [apply reads_U; [lia|width]|].
    apply reads_guard; [done|]. apply reads_ret. }
  frame_cbn. rewrite status_wrap by done. destruct f; apply reads_ret.
Qed.

(** The wire form of the Action fields. *)
Definition wAction (a : action_fields) : list Z :=
  wType (af_feedback_type a) ++ wRuntime (rg_source (af_goal a)) ++ wU (rg_goal_id (af_goal a)) 8 ++
  wU (rg_session_id (af_goal a)) 8 ++ wU (af_state a) 1 ++ wU (if af_unknown a then 1 else 0) 1 ++ wU 0 2 ++ wU (af_sequence a) 8.
Definition wf_action (a : action_fields) : Prop :=
  wf_type (af_feedback_type a) /\ wf_goal (af_goal a) /\ is_u8 (af_state a) /\ is_u64 (af_sequence a).

Lemma flag_wire x : 0 <= x <= 1 -> (if negb (x =? 0) then 1 else 0) = x.
Proof. intros. destruct (Z.eqb_spec x 0); cbn; lia. Qed.

Lemma consumes_Action : consumes dAction (fun pre a => pre = wAction a /\ wf_action a).
Proof.
  unfold dAction. eapply consumes_weaken; [repeat consume_step|]. intros pre a _ H. consumed. bool_to_prop. subst.
  unfold wAction, wf_action, wf_goal. frame_cbn. rewrite flag_wire by lia. rewrite app_nil_r. split_and!; auto; width.
Qed.

Lemma consumes_Role : consumes dRole (fun pre role => pre = wU role 1 ++ wU 0 3 /\ is_u8 role).
Proof.
  unfold dRole. eapply consumes_weaken; [repeat consume_step|]. intros pre a _ H. consumed. bool_to_prop. subst.
  rewrite app_nil_r. split_and!; auto; width.
Qed.

Lemma status_bits s : 0 <= s < 2 ^ 32 ->
  u32 (if s <=? INT32_MAX then s else -1 - (UINT32_MAX - s)) = s /\ is_i32 (if s <=? INT32_MAX then s else -1 - (UINT32_MAX - s)).
Proof.
  intros H. unfold u32, is_i32, UINT32_MAX, INT32_MAX. case_check; bool_to_prop; [rewrite Z.mod_small; lia|]. split; [|lia].
  symmetry. apply (Z.mod_unique_pos _ _ (-1)); lia.
Qed.

Lemma no_type_wf : wf_type no_type.
Proof. solve_wf. Qed.
Lemma no_action_wf : wf_action no_action.
Proof. unfold wf_action, wf_goal, no_action, no_goal, no_runtime. repeat split; try reflexivity; repeat constructor; try (vm_compute; discriminate). Qed.

Lemma consumes_Frame op : is_u16 op ->
  consumes (dFrame op) (fun pre '(f, names, payload) =>
    pre = frame_common f names payload ++ frame_extensions f /\ is_u16 names /\ is_u32 payload /\ wf_frame f /\
    cf_operation f = op).
Proof.
  intros Hop. unfold dFrame. eapply consumes_weaken.
  { do 15 consume_step. all: cbn beta.
    eapply consumes_bind; [apply consumes_option, consumes_Type|intros response].
    eapply consumes_bind; [apply consumes_option, consumes_Action|intros action].
    eapply consumes_bind; [apply consumes_option, consumes_Role|intros role]. apply consumes_ret. }
  intros pre [[f names] payload] _
    (source & p1 & q1 & -> & (-> & Hsrc & _) & session & p2 & q2 & -> & [-> Hses] & request & p3 & q3 & -> & [-> Hreq] &
     endpoint & p4 & q4 & -> & (-> & Hep & _) & target & p5 & q5 & -> & [-> Htgt] & reason & p6 & q6 & -> & [-> Hrea] &
     reserved & p7 & q7 & -> & [-> _] & Hres & type & p8 & q8 & -> & [-> Hty] & timeout & p9 & q9 & -> & [-> Hti] &
     status & p10 & q10 & -> & [-> Hst] & names' & p11 & q11 & -> & [-> Hna] & reserved2 & p12 & q12 & -> & [-> _] & Hres2 &
     payload' & p13 & q13 & -> & [-> Hpa] & response & p14 & q14 & -> & Hresp & action & p15 & q15 & -> & Hact &
     role & p16 & q16 & -> & Hrole & -> & Heq). bool_to_prop. subst. injection Heq as -> -> ->.
  destruct (status_bits status Hst) as [Hsb Hsi]. unfold frame_common, frame_extensions, wf_frame. frame_cbn. rewrite Hsb, app_nil_r.
  assert (p14 = (if IsServiceMessage op || IsActionMessage op then wType response else []) /\ wf_type response) as [-> ?].
  { destruct (_ || _); [done|]. destruct Hresp as [-> ->]. split; [done|apply no_type_wf]. }
  assert (p15 = (if IsActionMessage op then wAction action else []) /\ wf_action action) as [-> (? & ? & ? & ?)].
  { destruct (IsActionMessage op); [done|]. destruct Hact as [-> ->]. split; [done|apply no_action_wf]. }
  assert (p16 = (if IsDescriptorMessage op then wU role 1 ++ wU 0 3 else []) /\ is_u8 role) as [-> ?].
  { destruct (IsDescriptorMessage op); [done|]. destruct Hrole as [-> ->]. split; [done|by split]. }
  split; [by rewrite <- !app_assoc|]. split_and!; auto; try width; try constructor.
Qed.

(** ** The prefix *)
Definition prefix_ok (op length : Z) : Prop :=
  1 <= op <= 17 /\ 172 <= length <= MAX_CONTROL_FRAME /\ (op = ControlMessage.DIAGNOSTICS_REQUEST -> length = 172) /\
  (op = ControlMessage.DIAGNOSTICS_RESPONSE -> length <= 172 + MAX_NETWORK_DIAGNOSTICS_PAYLOAD).

Lemma split_U n bs : (n <= 8)%nat -> bytes bs -> (n <= length bs)%nat ->
  exists v rest, bs = wU v n ++ rest /\ 0 <= v < 256 ^ Z.of_nat n /\ bytes rest.
Proof.
  intros Hn Hb Hl. pose proof (consumes_U n Hn (Reader bs true)) as H. unfold dU, rU in H. cbn [left ok] in H.
  destruct (Nat.ltb_spec (length bs) n); [lia|].
  destruct (H _ _ eq_refl Hb) as [Hr K]. destruct (K eq_refl) as (_ & pre & E & -> & Hv). eauto.
Qed.

Lemma dU_step {B} n v rest (k : Z -> dec B) : (n <= 8)%nat -> 0 <= v < 256 ^ Z.of_nat n ->
  dbind (dU n) k (Reader (wU v n ++ rest) true) = k v (Reader rest true).
Proof. intros Hn Hv. unfold dbind. by rewrite (reads_U n v Hn Hv rest). Qed.

Lemma dguard_step {B} b c (k : unit -> dec B) r : dbind (dguard b c) k r = if b then k tt r else Err c.
Proof. by destruct b. Qed.

Lemma frame_prefix_length op len : length (frame_prefix op len) = 16%nat.
Proof. unfold frame_prefix. by rewrite !length_app, !wU_length. Qed.

Lemma prefix_vsize op len rest : (vsize (frame_prefix op len ++ rest) <? CONTROL_PREFIX_SIZE) = false.
Proof.
  apply Z.ltb_ge. rewrite vsize_app. unfold vsize. rewrite frame_prefix_length. unfold CONTROL_PREFIX_SIZE. lia.
Qed.

Lemma ControlFrameSize_prefix op len rest : prefix_ok op len -> ControlFrameSize (Some (frame_prefix op len ++ rest)) = Ok len.
Proof.
  intros (Hop & Hlen & Hreq & Hresp). unfold ControlFrameSize. rewrite prefix_vsize.
  unfold frame_prefix, dPrefix, MAX_CONTROL_FRAME, MAX_PARAMETER_WIRE in *. rewrite <- !app_assoc.
  rewrite dU_step, dguard_step by (lia || width). rewrite Z.eqb_refl. rewrite dU_step, dguard_step by (lia || width). rewrite Z.eqb_refl.
  rewrite dU_step, dguard_step by (lia || width).
  destruct (Z.leb_spec 1 op); [|lia]. destruct (Z.leb_spec op 17); [|lia]. cbn [andb].
  rewrite dU_step, !dguard_step by (lia || width).
  destruct (Z.leb_spec 172 len); [|lia]. destruct (Z.leb_spec len (16384 + 1024)); [|lia]. cbn [andb].
  assert (negb (op =? ControlMessage.DIAGNOSTICS_REQUEST) || (len =? 172) = true) as ->.
  { destruct (Z.eqb_spec op ControlMessage.DIAGNOSTICS_REQUEST); [|done]. apply Z.eqb_eq. auto. }
  assert (negb (op =? ControlMessage.DIAGNOSTICS_RESPONSE) || (len <=? 172 + MAX_NETWORK_DIAGNOSTICS_PAYLOAD) = true) as ->.
  { destruct (Z.eqb_spec op ControlMessage.DIAGNOSTICS_RESPONSE); [|done]. apply Z.leb_le. auto. }
  rewrite dU_step, dguard_step by (lia || width). done.
Qed.

Lemma ControlFrameSize_inv bs len : bytes bs -> ControlFrameSize (Some bs) = Ok len ->
  exists op rest, bs = frame_prefix op len ++ rest /\ prefix_ok op len /\ bytes rest.
Proof.
  intros Hb H. unfold ControlFrameSize in H. case_check; [done|]. bool_to_prop. unfold CONTROL_PREFIX_SIZE, vsize in *.
  destruct (split_U 4 bs) as (magic & bs1 & -> & Hm & Hb1); [lia|done|lia|]. rewrite length_app, wU_length in *.
  destruct (split_U 2 bs1) as (version & bs2 & -> & Hv & Hb2); [lia|done|lia|]. rewrite length_app, wU_length in *.
  destruct (split_U 2 bs2) as (op & bs3 & -> & Hop & Hb3); [lia|done|lia|]. rewrite length_app, wU_length in *.
  destruct (split_U 4 bs3) as (length & bs4 & -> & Hl & Hb4); [lia|done|lia|]. rewrite length_app, wU_length in *.
  destruct (split_U 4 bs4) as (reserved & rest & -> & Hr & Hb5); [lia|done|lia|].
  unfold dPrefix in H. rewrite dU_step, dguard_step in H by (lia || done). case_check; [|done].
  rewrite dU_step, dguard_step in H by (lia || done). case_check; [|done].
  rewrite dU_step, dguard_step in H by (lia || done). case_check; [|done].
  rewrite dU_step, dguard_step in H by (lia || done). case_check; [|done].
  rewrite dguard_step in H. case_check; [|done]. rewrite dguard_step in H. case_check; [|done].
  rewrite dU_step, dguard_step in H by (lia || done). case_check; [|done]. injection H as <-. bool_to_prop. subst.
  exists op, rest. unfold frame_prefix. rewrite <- !app_assoc. split_and!; auto. unfold prefix_ok. split_and!; auto.
  - intros ->. match goal with K : negb (_ =? ControlMessage.DIAGNOSTICS_REQUEST) || _ = true |- _ => rewrite Z.eqb_refl in K; cbn [negb orb] in K end.
    by bool_to_prop.
  - intros ->. match goal with K : negb (_ =? ControlMessage.DIAGNOSTICS_RESPONSE) || _ = true |- _ => rewrite Z.eqb_refl in K; cbn [negb orb] in K end.
    by bool_to_prop.
Qed.

Lemma dBody_prefix op len rest : prefix_ok op len ->
  dBody (Reader (drop 6 (frame_prefix op len ++ rest)) true) = dFrame op (Reader rest true).
Proof.
  intros (Hop & Hlen & _). unfold frame_prefix, dBody, MAX_CONTROL_FRAME, MAX_PARAMETER_WIRE in *. rewrite <- !app_assoc, (app_assoc (wU CONTROL_MAGIC 4)).
  rewrite drop_app_length' by (by rewrite length_app, !wU_length). rewrite dU_step by (lia || width).
  rewrite app_assoc. destruct (split_U 8 (wU len 4 ++ wU 0 4)) as (x & r & E & Hx & _).
  - lia.
  - apply bytes_app. split; apply wU_bytes.
  - rewrite length_app, !wU_length. lia.
  - assert (r = []) as -> by (apply (f_equal length) in E; rewrite !length_app, !wU_length in E; destruct r; [done|cbn in E; lia]).
    rewrite E, app_nil_r. by rewrite dU_step.
Qed.

Lemma frame_common_vsize f a b : wf_frame f -> vsize (frame_common f a b) = 156.
Proof. intros (_ & ? & _ & _ & ? & _). unfold frame_common. autorewrite with kcf. reflexivity. Qed.

Lemma frame_wire_vsize f : wf_frame f -> vsize (frame_wire f) = frame_size f.
Proof.
  intros Hw. assert (Hw' := Hw). destruct Hw' as (_ & _ & _ & _ & _ & _ & _ & _ & _ & _ & (? & _) & _). unfold frame_wire, frame_size.
  rewrite !vsize_app, frame_common_vsize by done. unfold vsize at 1. rewrite frame_prefix_length.
  unfold frame_extensions. rewrite !vsize_app.
  assert (Hact : vsize (action_extension f) = 96) by (unfold action_extension; autorewrite with kcf; reflexivity).
  assert (Hrole : vsize (wU (cf_descriptor_role f) 1 ++ wU 0 3) = 4) by (autorewrite with kcf; reflexivity).
  assert (Hx : IsServiceMessage (cf_operation f) = true -> IsActionMessage (cf_operation f) = false).
  { unfold IsServiceMessage, IsActionMessage. intros [E|E]%orb_true_iff; bool_to_prop; by rewrite E. }
  destruct (IsServiceMessage _) eqn:E1; [rewrite Hx by done|]; cbn [orb]; destruct (IsActionMessage _); destruct (IsDescriptorMessage _);
    rewrite ?Hact, ?Hrole, ?wType_vsize, ?vsize_nil; lia.
Qed.

Lemma frame_prefix_ok f : wf_frame f -> ValidFrame f = true -> prefix_ok (cf_operation f) (frame_size f).
Proof.
  intros Hw Hv. destruct (ValidFrame_bounds f Hv) as [_ Hp Hn _ _ _ _ _ Hop Hd].
  pose proof (vsize_nonneg (cf_payload f)). pose proof (vsize_nonneg (cf_name f)).
  unfold prefix_ok, frame_size, MAX_CONTROL_FRAME, MAX_PARAMETER_WIRE in *.
  split; [done|]. split.
  { destruct (IsServiceMessage _), (IsActionMessage _), (IsDescriptorMessage _); lia. }
  split; intros E; destruct Hd as (Hname & Hmax & Hreq); auto; rewrite Hname, E.
  - rewrite Hreq by done. reflexivity.
  - change (IsServiceMessage _) with false. change (IsActionMessage _) with false. change (IsDescriptorMessage _) with false.
    rewrite vsize_nil. lia.
Qed.

Lemma decode_frame_wire f : wf_frame f -> ValidFrame f = true -> DecodeControlFrame (Some (frame_wire f)) = Ok f.
Proof.
  intros Hw Hv. pose proof (frame_prefix_ok f Hw Hv) as Hok. destruct (ValidFrame_bounds f Hv) as [_ Hp Hn _ _ _ _ _ _ _].
  pose proof (vsize_nonneg (cf_payload f)). pose proof (vsize_nonneg (cf_name f)).
  unfold DecodeControlFrame. cbn zeta. change (default [] (Some (frame_wire f))) with (frame_wire f).
  rewrite frame_wire_vsize by done. unfold frame_wire. rewrite ControlFrameSize_prefix by done. cbn [bind_result]. rewrite Z.eqb_refl. cbn [negb].
  rewrite dBody_prefix by done. rewrite app_assoc.
  rewrite (reads_Frame f _ _ Hw Hv) by (unfold MAX_PARAMETER_WIRE in *; unfold_widths; lia).
  cbn [bind_result ok left negb orb]. rewrite vsize_app, Z.eqb_refl.
  destruct (Z.ltb_spec 240 (vsize (cf_name f))); [lia|]. destruct (Z.ltb_spec MAX_PARAMETER_WIRE (vsize (cf_payload f))); [lia|]. cbn [orb negb].
  unfold vsize. rewrite !Nat2Z.id, take_app_length, drop_app_length, firstn_all.
  replace (with_texts _ _ _) with f by by destruct f. by rewrite Hv.
Qed.

Lemma DecodeControlFrame_inv bs f : bytes bs -> DecodeControlFrame (Some bs) = Ok f -> wf_frame f /\ ValidFrame f = true /\ bs = frame_wire f.
Proof.
  intros Hb H. unfold DecodeControlFrame in H. destruct (ControlFrameSize (Some bs)) as [len|] eqn:Hs; [|done]. cbn [bind_result] in H.
  cbn zeta in H. change (default [] (Some bs)) with bs in H. case_check; [done|]. bool_to_prop. subst len.
  destruct (ControlFrameSize_inv bs _ Hb Hs) as (op & rest & Hbs & Hok & Hbr). rewrite Hbs in H at 1. rewrite dBody_prefix in H by done.
  destruct (dFrame op (Reader rest true)) as [[[[g names] payload] r]|] eqn:Hd; [|done]. cbn [bind_result] in H.
  case_check; [done|]. case_check; [done|]. simplify_eq. bool_to_prop.
  assert (Hop : is_u16 op) by (destruct Hok as (? & _); unfold_widths; lia).
  destruct (consumes_Frame op Hop _ _ _ Hd Hbr) as [Hbl K]. destruct K as (_ & pre & Hrest & -> & Hnames & Hpay & Hw & Hopg); [done|].
  cbn [left] in Hrest. set (name := take (Z.to_nat names) (left r)) in *. set (body := take (Z.to_nat payload) (drop (Z.to_nat names) (left r))) in *.
  assert (Hbody : body = drop (Z.to_nat names) (left r)).
  { unfold body. apply take_ge. rewrite length_drop. unfold vsize, is_u16, is_u32 in *. lia. }
  assert (Hn : vsize name = names) by (unfold name, vsize, is_u16, is_u32 in *; rewrite length_take; lia).
  assert (Hp : vsize body = payload) by (rewrite Hbody; unfold vsize, is_u16, is_u32 in *; rewrite length_drop; lia).
  assert (Hwf : wf_frame (with_texts g name body)).
  { destruct Hw as (? & ? & ? & ? & ? & ? & ? & ? & ? & ? & ? & ? & ? & ? & ? & ? & ? & ?).
    unfold wf_frame. frame_cbn. unfold name, body. split_and!; auto with kcf. }
  split_and!; [done|done|]. pose proof (frame_wire_vsize _ Hwf) as Hsz. unfold frame_wire in Hsz |- *. revert Hsz.
  replace (frame_common (with_texts g name body) (vsize (cf_name (with_texts g name body))) (vsize (cf_payload (with_texts g name body))))
    with (frame_common g names payload) by (frame_cbn; rewrite Hn, Hp; done).
  change (frame_extensions (with_texts g name body)) with (frame_extensions g).
  change (cf_operation (with_texts g name body)) with (cf_operation g). rewrite Hopg. frame_cbn. intros Hsz.
  rewrite Hbs at 1. rewrite Hrest at 1. rewrite <- app_assoc.
  assert (Hleft : left r = name ++ body) by (rewrite Hbody; unfold name; by rewrite take_drop).
  rewrite Hleft at 1. f_equal. f_equal. rewrite <- Hsz. rewrite Hbs at 1. rewrite Hrest at 1. rewrite Hleft at 1. rewrite <- app_assoc.
  unfold vsize. rewrite !length_app, !frame_prefix_length. done.
Qed.

Lemma ControlFrameSize_take f n : wf_frame f -> ValidFrame f = true -> (16 <= n)%nat ->
  ControlFrameSize (Some (take n (frame_wire f))) = Ok (frame_size f).
Proof.
  intros Hw Hv Hn. unfold frame_wire. rewrite take_app, take_ge by (rewrite frame_prefix_length; lia).
  apply ControlFrameSize_prefix. by apply frame_prefix_ok.
Qed.

(** Control frames survive the wire: a frame the encoder accepts fits the frame
    limit, its first 16 bytes already announce its exact size to a stream reader that has
    any longer prefix of it, and the decoder gives the same frame back; whatever the
    decoder accepts is the canonical encoding of a valid frame, so no two byte strings
    decode to the same frame; and fewer than 16 bytes are never mistaken for an error. *)
Theorem control_frame_codec :
  (forall f bs, wf_frame f -> EncodeControlFrame f = Ok bs ->
     vsize bs <= MAX_CONTROL_FRAME /\ DecodeControlFrame (Some bs) = Ok f /\
     forall n, (16 <= n)%nat -> ControlFrameSize (Some (take n bs)) = Ok (vsize bs)) /\
  (forall bs f, bytes bs -> DecodeControlFrame (Some bs) = Ok f -> wf_frame f /\ EncodeControlFrame f = Ok bs) /\
  (forall bs, vsize bs < CONTROL_PREFIX_SIZE -> ControlFrameSize (Some bs) = Err (- EAGAIN)).
Proof.
  split_and!.
  - intros f bs Hw H. unfold EncodeControlFrame in H. case_check; [done|]. injection H as <-. bool_to_prop.
    rewrite frame_wire_vsize by done. split_and!; [|by apply decode_frame_wire|intros n Hn; by apply ControlFrameSize_take].
    apply (frame_prefix_ok f); done.
  - intros bs f Hb H. destruct (DecodeControlFrame_inv bs f Hb H) as (Hw & Hv & ->). split; [done|].
    unfold EncodeControlFrame. by rewrite Hv.
  - intros bs H. unfold ControlFrameSize. apply Z.ltb_lt in H. by rewrite H.
Qed.
