(* ===== verification/WireFormats.v ===== *)
(** * Wire formats: the interface of the codecs

    [WireFormat] is what a sender and a receiver rely on when they exchange values of a type:
    an encoder, a decoder, the value that arrives, and the two laws that connect them.  The
    Topic and discovery packets, the metadata of a host, control frames, diagnostics snapshots,
    type descriptors and the ownership records of Topic proxies are instances, each by the lemmas of its codec; what follows from the
    laws is proved once, for any format. *)
From S2P Require Import Prelude Wire NetTypes NetWire Compatibility TopicProtocol DiscoveryProtocol TypeDescriptor ProxyRecord NetworkDiagnostics ControlFrame.

(** [wf_ok]: the fields are in the ranges of their C++ types.  [wf_arrives x y]: the receiver of
    [x] gets [y], which is [x] up to what the format does not carry. *)
Class WireFormat (A : Type) := {
  wf_ok : A -> Prop;
  wf_encode : A -> result (list Z);
  wf_decode : list Z -> result A;
  wf_arrives : A -> A -> Prop;
  wf_roundtrip : forall x bs, wf_ok x -> wf_encode x = Ok bs -> exists y, wf_decode bs = Ok y /\ wf_arrives x y;
  wf_canonical : forall bs x, bytes bs -> wf_decode bs = Ok x -> wf_ok x /\ wf_encode x = Ok bs
}.
Section Laws.
Context `{WireFormat A}.
(** What arrives arrives unchanged when it is sent on. *)
Lemma arrives_stable bs x : bytes bs -> wf_decode bs = Ok x -> wf_arrives x x.
Proof.
  intros Hb Hx. destruct (wf_canonical bs x Hb Hx) as [Ho He]. destruct (wf_roundtrip x bs Ho He) as (y & Hy & Ha). rewrite Hx in Hy. by injection Hy as <-.
Qed.
(** A value has one encoding that is accepted. *)
Lemma decode_injective bs bs' x : bytes bs -> bytes bs' -> wf_decode bs = Ok x -> wf_decode bs' = Ok x -> bs = bs'.
Proof.
  intros Hb Hb' Hx Hx'. destruct (wf_canonical bs x Hb Hx) as [_ He]. destruct (wf_canonical bs' x Hb' Hx') as [_ He']. rewrite He in He'. by injection He' as <-.
Qed.
(** Values with the same encoding arrive as the same value. *)
Lemma encode_determines x x' bs : wf_ok x -> wf_ok x' -> wf_encode x = Ok bs -> wf_encode x' = Ok bs -> exists y, wf_decode bs = Ok y /\ wf_arrives x y /\ wf_arrives x' y.
Proof.
  intros Ho Ho' He He'. destruct (wf_roundtrip x bs Ho He) as (y & Hy & Ha). destruct (wf_roundtrip x' bs Ho' He') as (y' & Hy' & Ha').
  rewrite Hy in Hy'. injection Hy' as <-. by exists y.
Qed.
End Laws.

(** ** The formats *)
#[export, program] Instance topic_packet_format : WireFormat TopicPacket := {|
  wf_ok := wf_packet; wf_encode := EncodeTopicPacket; wf_decode := fun bs => DecodeTopicPacket (Some bs); wf_arrives := eq
|}.
Next Obligation. intros x bs Hx He. exists x. split; [|done]. by apply topic_packet_codec. Qed.
Next Obligation. intros bs x Hb Hd. by destruct (proj2 topic_packet_codec bs x Hb Hd) as (? & ? & ?). Qed.
#[export, program] Instance discovery_packet_format : WireFormat DiscoveryPacket := {|
  wf_ok := wf_discovery; wf_encode := EncodeDiscoveryPacket; wf_decode := fun bs => DecodeDiscoveryPacket (Some bs); wf_arrives := fun p q => q = normalize p
|}.
Next Obligation. intros x bs Hx He. exists (normalize x). split; [|done]. by apply discovery_packet_codec. Qed.
Next Obligation. intros bs x Hb Hd. by destruct (proj2 discovery_packet_codec bs x Hb Hd) as (? & ? & ?). Qed.
#[export, program] Instance metadata_format : WireFormat (list NetworkEndpointMetadata) := {|
  wf_ok := Forall wf_metadata; wf_encode := EncodeDiscoveryMetadata; wf_decode := fun bs => DecodeDiscoveryMetadata (Some bs); wf_arrives := eq
|}.
Next Obligation. intros x bs Hx He. exists x. split; [|done]. by apply discovery_metadata_codec. Qed.
Next Obligation.
  intros bs x Hb Hd. destruct (proj2 discovery_metadata_codec bs x Hb Hd) as (Hf & _ & He). split; [|done].
  eapply Forall_impl; [exact Hf|]. by intros m [? _].
Qed.
#[export, program] Instance control_frame_format : WireFormat ControlFrame := {|
  wf_ok := wf_frame; wf_encode := EncodeControlFrame; wf_decode := fun bs => DecodeControlFrame (Some bs); wf_arrives := eq
|}.
Next Obligation.
  intros f bs Hw He. exists f. split; [|done]. unfold EncodeControlFrame in He. case_check; [done|]. injection He as <-. bool_to_prop. by apply decode_frame_wire.
Qed.
Next Obligation.
  intros bs f Hb Hd. destruct (DecodeControlFrame_inv bs f Hb Hd) as (Hw & Hv & ->). split; [done|]. unfold EncodeControlFrame. by rewrite Hv.
Qed.
(** The routes that fit: the longest prefix; the next route would make the payload too long. *)
Definition arrives_truncated (s t : NetworkDiagnosticsSnapshot) : Prop :=
  exists count, 0 <= count <= Z.of_nat (length (nd_routes s)) /\ t = truncate_snapshot s count /\
    (forall bs r, EncodeNetworkDiagnosticsSnapshot s = Ok bs -> nd_routes s !! Z.to_nat count = Some r -> MAX_NETWORK_DIAGNOSTICS_PAYLOAD < vsize bs + route_size r).
#[export, program] Instance diagnostics_format : WireFormat NetworkDiagnosticsSnapshot := {|
  wf_ok := wf_snapshot; wf_encode := EncodeNetworkDiagnosticsSnapshot; wf_decode := fun bs => DecodeNetworkDiagnosticsSnapshot (Some bs); wf_arrives := arrives_truncated
|}.
Next Obligation. intros s bs Hs He. destruct (proj1 diagnostics_snapshot_codec s bs Hs He) as (count & Hc & _ & Hd & Hn). eexists. split; [exact Hd|]. exists count. split_and!; [lia|lia|done|]. intros bs' r He'. rewrite He in He'. injection He' as <-. apply Hn. Qed.
Next Obligation. intros bs s Hb Hd. by apply diagnostics_snapshot_codec. Qed.
(** The receiver of a descriptor knows its wire type [t] from the metadata; it has the schema,
    not the layout, of the sender. *)
#[export, program] Instance descriptor_format (t : TypeIdentity) : WireFormat TypeDescriptor := {|
  wf_ok := fun d => wf_descriptor d /\ ParameterWireType d = Ok t; wf_encode := EncodeTypeDescriptor; wf_decode := fun bs => DecodeTypeDescriptor bs t;
  wf_arrives := fun d d' => d' = packed_form d /\ schema d' = schema d
|}.
Next Obligation.
  intros t d bs [Hw Ht] He. destruct (proj1 type_descriptor_codec d bs Hw He) as (t' & Ht' & Hd & Hs & _). rewrite Ht in Ht'. injection Ht' as <-.
  exists (packed_form d). done.
Qed.
Next Obligation. intros t bs d Hb Hd. destruct (proj2 type_descriptor_codec bs t d Hb Hd) as (Hw & _ & Ht & He). done. Qed.

#[export, program] Instance proxy_record_format : WireFormat ProxyRecord := {|
  wf_ok := wf_record; wf_encode := EncodeProxyRecord; wf_decode := DecodeProxyRecord; wf_arrives := eq
|}.
Next Obligation. intros r bs Hr He. exists r. split; [|done]. by apply proxy_record_roundtrip. Qed.
Next Obligation. intros bs r Hb Hd. by apply proxy_record_canonical. Qed.

(** What a receiver may conclude from accepted bytes, and a sender from sending. *)
Definition format_exact {A} (F : WireFormat A) : Prop :=
  (forall x bs, wf_ok x -> wf_encode x = Ok bs -> exists y, wf_decode bs = Ok y /\ wf_arrives x y) /\
  (forall bs x, bytes bs -> wf_decode bs = Ok x -> wf_ok x /\ wf_encode x = Ok bs /\ wf_arrives x x) /\
  (forall bs bs' x, bytes bs -> bytes bs' -> wf_decode bs = Ok x -> wf_decode bs' = Ok x -> bs = bs').
Lemma wire_format_exact {A} (F : WireFormat A) : format_exact F.
Proof.
  split_and!; [apply wf_roundtrip|intros bs x Hb Hd; destruct (wf_canonical bs x Hb Hd); split_and!; auto; by apply (arrives_stable bs)|apply decode_injective].
Qed.
(** C35: Every wire format is exact, in both directions.  Topic packets, control frames, host
    metadata and the ownership records of proxies arrive as they were sent; discovery packets up to the profile that only an
    announcement carries, diagnostics snapshots up to the routes that do not fit (the longest prefix of them
    arrives), type descriptors up
    to the layout.  Whatever bytes a decoder accepts are the encoding of a well-formed value,
    which arrives unchanged when it is sent on, and no other accepted bytes give that value. *)
Theorem wire_formats_exact (t : TypeIdentity) :
  format_exact topic_packet_format /\ format_exact discovery_packet_format /\ format_exact metadata_format /\
  format_exact control_frame_format /\ format_exact diagnostics_format /\ format_exact (descriptor_format t) /\ format_exact proxy_record_format.
Proof. split_and!; apply wire_format_exact. Qed.
