(* ===== verification/ControlStream.v ===== *)
(** * The control connection, client side

    [kcf/src/network/control_client_io.hpp]: frames over a byte stream.  The kernel is a
    sequence of arbitrary answers, one per iteration of a loop: it may cut the stream into
    any pieces, interrupt a call, report that nothing can be moved now, close the
    connection or fail; [cn_incoming] is everything the peer will ever send.  A loop has a
    number of iterations it may take; [None] means it has not returned within them. *)
From S2P Require Import Prelude Wire NetTypes NetWire Compatibility TypeDescriptor NetworkDiagnostics ControlFrame.

(** What [poll] says; an errno is never 0. *)
Inductive PollAnswer := PollErrno (e : positive) | PollNothing | PollReady (nval : bool).
(** What [send] or [recv] says: up to [S k] bytes moved, end of file, or an error. *)
Inductive IoAnswer := IoData (k : nat) | IoClosed | IoErrno (e : positive).
Record Answer := { an_canceled : bool; an_now : Z; an_poll : PollAnswer; an_io : IoAnswer }.

Record Conn := { cn_tick : nat; cn_incoming : list Z; cn_sent : list Z }.
Definition tick (c : Conn) : Conn := {| cn_tick := S (cn_tick c); cn_incoming := cn_incoming c; cn_sent := cn_sent c |}.

(** The result of one [send] or [recv]. *)
Inductive IoResult := IoCount (data : list Z) | IoError (e : Z).
Definition sys_send (a : IoAnswer) (bs : list Z) (c : Conn) : IoResult * Conn :=
  match a with
  | IoData k => let data := take (S k) bs in
                (IoCount data, {| cn_tick := cn_tick c; cn_incoming := cn_incoming c; cn_sent := cn_sent c ++ data |})
  | IoClosed => (IoCount [], c)
  | IoErrno e => (IoError (Z.pos e), c)
  end.
(** An open connection with nothing to read is not at its end. *)
Definition sys_recv (a : IoAnswer) (n : nat) (c : Conn) : IoResult * Conn :=
  match a with
  | IoData k =>
      match take (Nat.min (S k) n) (cn_incoming c) with
      | [] => (IoError EAGAIN, c)
      | data => (IoCount data, {| cn_tick := cn_tick c; cn_incoming := drop (length data) (cn_incoming c); cn_sent := cn_sent c |})
      end
  | IoClosed => (IoCount [], c)
  | IoErrno e => (IoError (Z.pos e), c)
  end.

Section Io.
Context (env : nat -> Answer).

(** [Wait]; [cancelable]: the caller passed a flag.  The time given to [poll] only bounds
    how long one call blocks. *)
Fixpoint Wait (fuel : nat) (cancelable : bool) (deadline : Z) (c : Conn) : option (Z * Conn) :=
  match fuel with
  | O => None
  | S fuel =>
      let a := env (cn_tick c) in
      let c := tick c in
      if cancelable && an_canceled a then Some (- ECANCELED, c)
      else if deadline <=? an_now a then Some (- ETIMEDOUT, c)
      else match an_poll a with
           | PollErrno e => if Z.pos e =? EINTR then Wait fuel cancelable deadline c else Some (- Z.pos e, c)
           | PollNothing => Wait fuel cancelable deadline c
           | PollReady nval => Some (if nval then - EBADF else 0, c)
           end
  end.

(** [Transfer]: the code and the buffer, of which [offset] bytes are done. *)
Fixpoint Transfer (fuel : nat) (sending cancelable : bool) (deadline : Z) (buffer : list Z) (offset : nat) (c : Conn) :
    option (Z * list Z * Conn) :=
  match fuel with
  | O => None
  | S fuel =>
      if (length buffer <=? offset)%nat then Some (0, buffer, c)
      else
        let a := env (cn_tick c) in
        let c := tick c in
        if cancelable && an_canceled a then Some (- ECANCELED, buffer, c)
        else if deadline <=? an_now a then Some (- ETIMEDOUT, buffer, c)
        else
          let (r, c) := if sending then sys_send (an_io a) (drop offset buffer) c
                        else sys_recv (an_io a) (length buffer - offset) c in
          match r with
          | IoCount [] => Some (- ECONNRESET, buffer, c)
          | IoCount data =>
              let buffer := if sending then buffer else take offset buffer ++ data ++ drop (offset + length data) buffer in
              Transfer fuel sending cancelable deadline buffer (offset + length data) c
          | IoError e =>
              if e =? EINTR then Transfer fuel sending cancelable deadline buffer offset c
              else if negb (e =? EAGAIN) then Some (- e, buffer, c)
              else match Wait fuel cancelable deadline c with
                   | None => None
                   | Some (code, c) => if negb (code =? 0) then Some (code, buffer, c)
                                       else Transfer fuel sending cancelable deadline buffer offset c
                   end
          end
  end.

Definition SendFrame (fuel : nat) (frame : ControlFrame) (cancelable : bool) (deadline : Z) (c : Conn) : option (Z * Conn) :=
  match EncodeControlFrame frame with
  | Err code => Some (code, c)
  | Ok bs => match Transfer fuel true cancelable deadline bs 0 c with Some (code, _, c) => Some (code, c) | None => None end
  end.

(** The operation in the prefix: [(unsigned(bytes[6])<<8)|bytes[7]]. *)
Definition prefix_operation (bs : list Z) : Z := Z.lor (Z.shiftl (nth 6 bs 0) 8) (nth 7 bs 0).
Definition frame_limit (expected : Z) : Z :=
  if expected =? ControlMessage.HELLO then 172
  else if expected =? ControlMessage.DIAGNOSTICS_RESPONSE then 172 + MAX_NETWORK_DIAGNOSTICS_PAYLOAD
  else MAX_CONTROL_FRAME.
Definition ReceiveFrame (fuel : nat) (expected : Z) (cancelable : bool) (deadline : Z) (c : Conn) : option (result ControlFrame * Conn) :=
  match Transfer fuel false cancelable deadline (repeat 0 (Z.to_nat CONTROL_PREFIX_SIZE)) 0 c with
  | None => None
  | Some (code, bs, c) =>
      if negb (code =? 0) then Some (Err code, c)
      else match ControlFrameSize (Some bs) with
      | Err code => Some (Err code, c)
      | Ok size =>
          if negb (prefix_operation bs =? expected) then Some (Err (- EPROTO), c)
          else if frame_limit expected <? size then Some (Err (- EMSGSIZE), c)
          else match Transfer fuel false cancelable deadline (repeat 0 (Z.to_nat (size - CONTROL_PREFIX_SIZE))) 0 c with
          | None => None
          | Some (code, body, c) =>
              if negb (code =? 0) then Some (Err code, c) else Some (DecodeControlFrame (Some (bs ++ body)), c)
          end
      end
  end.

(** What the calls of [ConnectHello] before the first frame answer: an errno or success;
    [ce_local] and [ce_remote] are whether [inet_pton] accepts the two addresses, [ce_error]
    the SO_ERROR of the connected socket. *)
Record ConnectEnv := {
  ce_socket : option positive;
  ce_local : bool;
  ce_bind : option positive;
  ce_remote : bool;
  ce_now : Z;
  ce_connect : option positive;
  ce_getsockopt : option positive;
  ce_error : Z
}.
Definition connect_result (fuel : nat) (ce : ConnectEnv) (cancelable : bool) (deadline : Z) (c : Conn) : option (Z * Conn) :=
  match ce_connect ce with
  | None => Some (0, c)
  | Some e =>
      if negb (Z.pos e =? EINPROGRESS) && negb (Z.pos e =? EINTR) && negb (Z.pos e =? EAGAIN) then Some (- Z.pos e, c)
      else match Wait fuel cancelable deadline c with
           | None => None
           | Some (code, c) =>
               if negb (code =? 0) then Some (code, c)
               else match ce_getsockopt ce with Some e => Some (- Z.pos e, c) | None => Some (- ce_error ce, c) end
           end
  end.
Definition ConnectHello (fuel : nat) (ce : ConnectEnv) (hello : ControlFrame) (cancelable : bool) (deadline : Z) (c : Conn) :
    option (result ControlFrame * Conn) :=
  match ce_socket ce with
  | Some e => Some (Err (- Z.pos e), c)
  | None =>
      if negb (ce_local ce) then Some (Err (- EINVAL), c)
      else match ce_bind ce with
      | Some e => Some (Err (- Z.pos e), c)
      | None =>
          if negb (ce_remote ce) then Some (Err (- EPROTO), c)
          else if deadline <=? ce_now ce then Some (Err (- ETIMEDOUT), c)
          else match connect_result fuel ce cancelable deadline c with
          | None => None
          | Some (code, c) =>
              if negb (code =? 0) then Some (Err code, c)
              else match SendFrame fuel hello cancelable deadline c with
              | None => None
              | Some (code, c) =>
                  if negb (code =? 0) then Some (Err code, c)
                  else ReceiveFrame fuel ControlMessage.HELLO cancelable deadline c
              end
          end
      end
  end.

(** ** The incremental reader *)
Record FrameReader := { fr_bytes : list Z; fr_target : Z }.
Definition new_reader : FrameReader := {| fr_bytes := []; fr_target := CONTROL_PREFIX_SIZE |}.

(** What the top of the loop does with a complete prefix or frame: continue with this
    reader, or return. *)
Inductive TopStep := TopContinue (r : FrameReader) | TopReturn (out : Z * option ControlFrame) (r : FrameReader).
Definition reader_top (r : FrameReader) : TopStep :=
  if vsize (fr_bytes r) =? fr_target r then
    if fr_target r =? CONTROL_PREFIX_SIZE then
      match ControlFrameSize (Some (fr_bytes r)) with
      | Err code => TopReturn (code, None) r
      | Ok target =>
          let r := {| fr_bytes := fr_bytes r; fr_target := target |} in
          if MAX_CONTROL_FRAME <? target then TopReturn (- EMSGSIZE, None) r else TopContinue r
      end
    else match DecodeControlFrame (Some (fr_bytes r)) with
         | Err code => TopReturn (code, None) new_reader
         | Ok frame => TopReturn (1, Some frame) new_reader
         end
  else TopContinue r.

Fixpoint Read (fuel : nat) (r : FrameReader) (c : Conn) : option (Z * option ControlFrame * FrameReader * Conn) :=
  match fuel with
  | O => None
  | S fuel =>
      match reader_top r with
      | TopReturn (code, frame) r => Some (code, frame, r, c)
      | TopContinue r =>
          let (result, c) := sys_recv (an_io (env (cn_tick c))) (Nat.min 4096 (Z.to_nat (fr_target r - vsize (fr_bytes r)))) (tick c) in
          match result with
          | IoCount [] => Some (- ECONNRESET, None, r, c)
          | IoCount data => Read fuel {| fr_bytes := fr_bytes r ++ data; fr_target := fr_target r |} c
          | IoError e =>
              if e =? EINTR then Read fuel r c
              else if e =? EAGAIN then Some (0, None, r, c)
              else Some (- e, None, r, c)
          end
      end
  end.

(** Up to [n] calls of [Read], until one fails: the frames they returned, in order, and the
    last code. *)
Fixpoint read_calls (n fuel : nat) (r : FrameReader) (c : Conn) : option (list ControlFrame * Z * FrameReader * Conn) :=
  match n with
  | O => Some ([], 0, r, c)
  | S n =>
      match Read fuel r c with
      | None => None
      | Some (code, frame, r, c) =>
          if code <? 0 then Some ([], code, r, c)
          else match read_calls n fuel r c with
               | None => None
               | Some (frames, code, r, c) => Some (option_list frame ++ frames, code, r, c)
               end
      end
  end.
End Io.

(** ** Transfers *)
Lemma take_drop_data {A} n (l : list A) : take n l ++ drop (length (take n l)) l = l.
Proof.
  rewrite length_take. destruct (Nat.le_gt_cases n (length l)).
  - rewrite Nat.min_l by done. apply take_drop.
  - rewrite Nat.min_r, take_ge, drop_all by lia. apply app_nil_r.
Qed.

Section TransferFacts.
Context (env : nat -> Answer).

Lemma Wait_conn fuel cancelable deadline c code c' :
  Wait env fuel cancelable deadline c = Some (code, c') ->
  cn_incoming c' = cn_incoming c /\ cn_sent c' = cn_sent c /\ (cn_tick c < cn_tick c')%nat.
Proof.
  revert c. induction fuel as [|fuel IH]; intros c H; [done|]. cbn [Wait] in H.
  assert (Hnow : cn_incoming (tick c) = cn_incoming c /\ cn_sent (tick c) = cn_sent c /\ (cn_tick c < cn_tick (tick c))%nat) by (cbn; auto).
  assert (Hrec : Wait env fuel cancelable deadline (tick c) = Some (code, c') ->
    cn_incoming c' = cn_incoming c /\ cn_sent c' = cn_sent c /\ (cn_tick c < cn_tick c')%nat).
  { intros K. apply IH in K as (-> & -> & Ht). cbn in *. split_and!; auto; lia. }
  do 2 (case_check; [by simplify_eq|]). destruct (an_poll _); [case_check| |]; auto; by simplify_eq.
Qed.

(** Sending: some first part of the buffer has reached the connection, all of it on success. *)
Lemma Transfer_send fuel cancelable deadline buffer offset c code buffer' c' :
  Transfer env fuel true cancelable deadline buffer offset c = Some (code, buffer', c') -> (offset <= length buffer)%nat ->
  buffer' = buffer /\ cn_incoming c' = cn_incoming c /\
  exists pre post, drop offset buffer = pre ++ post /\ cn_sent c' = cn_sent c ++ pre /\ (code = 0 -> post = []).
Proof.
  revert offset c. induction fuel as [|fuel IH]; intros offset c H Ho; [done|]. cbn [Transfer] in H.
  assert (Hstop : code <> 0 -> buffer' = buffer -> c' = tick c -> buffer' = buffer /\ cn_incoming c' = cn_incoming c /\
    exists pre post, drop offset buffer = pre ++ post /\ cn_sent c' = cn_sent c ++ pre /\ (code = 0 -> post = [])).
  { intros Hc -> ->. split_and!; auto. exists [], (drop offset buffer). rewrite app_nil_r. split_and!; auto. done. }
  destruct (Nat.leb_spec (length buffer) offset).
  { simplify_eq. split_and!; auto. exists [], []. rewrite !app_nil_r, drop_ge by done. done. }
  do 2 (case_check; [simplify_eq; by apply Hstop|]).
  destruct (an_io _) as [k| |e]; cbn [sys_send] in H.
  - set (data := take (S k) (drop offset buffer)) in *.
    assert (Hlen : length data = Nat.min (S k) (length buffer - offset)) by (unfold data; by rewrite length_take, length_drop).
    destruct data as [|b rest] eqn:E; [cbn [length] in Hlen; lia|]. rewrite <- E in *.
    apply IH in H as (-> & Hi & pre & post & Hd & Hs & Hdone); [|lia]. split_and!; [done|done|].
    exists (data ++ pre), post. split_and!; auto.
    + rewrite <- app_assoc, <- Hd, <- drop_drop. subst data. symmetry. apply take_drop_data.
    + rewrite Hs. cbn. by rewrite app_assoc.
  - simplify_eq. by apply Hstop.
  - destruct (_ =? EINTR); [by apply IH in H|]. case_check; [simplify_eq; by apply Hstop|].
    destruct (Wait _ _ _ _ _) as [[code1 c1]|] eqn:Hw; [|done]. apply Wait_conn in Hw as (Hi1 & Hs1 & _). cbn in Hi1, Hs1.
    case_check.
    + injection H as <- <- <-. bool_to_prop. split_and!; auto. exists [], (drop offset buffer). rewrite Hs1, app_nil_r. split_and!; auto. done.
    + apply IH in H as (-> & Hi & pre & post & Hd & Hs & Hdone); [|done]. rewrite Hi, Hi1, Hs, Hs1. eauto 10.
Qed.

(** Receiving: the buffer is filled from the front with what the connection delivers. *)
Lemma Transfer_recv fuel cancelable deadline buffer offset c code buffer' c' :
  Transfer env fuel false cancelable deadline buffer offset c = Some (code, buffer', c') -> (offset <= length buffer)%nat ->
  cn_sent c' = cn_sent c /\ exists data, cn_incoming c = data ++ cn_incoming c' /\ (length data <= length buffer - offset)%nat /\
    (code = 0 -> buffer' = take offset buffer ++ data /\ (length data = length buffer - offset)%nat).
Proof.
  revert buffer offset c. induction fuel as [|fuel IH]; intros buffer offset c H Ho; [done|]. cbn [Transfer] in H.
  assert (Hstop : forall c1, cn_sent c1 = cn_sent c -> cn_incoming c1 = cn_incoming c -> code <> 0 -> c' = c1 ->
    cn_sent c' = cn_sent c /\ exists data, cn_incoming c = data ++ cn_incoming c' /\ (length data <= length buffer - offset)%nat /\
    (code = 0 -> buffer' = take offset buffer ++ data /\ (length data = length buffer - offset)%nat)).
  { intros c1 Hs1 Hi1 Hc ->. split; [done|]. exists []. rewrite Hi1. split_and!; auto; [cbn; lia|done]. }
  destruct (Nat.leb_spec (length buffer) offset).
  { simplify_eq. split; [done|]. exists []. split_and!; auto; [cbn; lia|]. intros _. rewrite take_ge, app_nil_r by done. split; [done|cbn; lia]. }
  do 2 (case_check; [simplify_eq; by apply (Hstop (tick c))|]).
  assert (Herr : forall e, 0 < e -> (if e =? EINTR then Transfer env fuel false cancelable deadline buffer offset (tick c)
      else if negb (e =? EAGAIN) then Some (- e, buffer, tick c)
      else match Wait env fuel cancelable deadline (tick c) with
           | None => None
           | Some (code, c) => if negb (code =? 0) then Some (code, buffer, c)
                               else Transfer env fuel false cancelable deadline buffer offset c
           end) = Some (code, buffer', c') ->
    cn_sent c' = cn_sent c /\ exists data, cn_incoming c = data ++ cn_incoming c' /\ (length data <= length buffer - offset)%nat /\
    (code = 0 -> buffer' = take offset buffer ++ data /\ (length data = length buffer - offset)%nat)).
  { intros e He K. destruct (e =? EINTR); [by apply IH in K|]. case_check; [injection K as <- <- <-; apply (Hstop (tick c)); done || lia|].
    destruct (Wait _ _ _ _ _) as [[code1 c1]|] eqn:Hw; [|done]. apply Wait_conn in Hw as (Hi1 & Hs1 & _). cbn in Hi1, Hs1.
    case_check; [injection K as <- <- <-; bool_to_prop; by apply (Hstop c1)|].
    apply IH in K as (Hs & data & Hd & Hrest); [|done]. rewrite Hs, Hs1, <- Hi1. eauto. }
  destruct (an_io _) as [k| |e]; cbn [sys_recv] in H.
  - set (data := take (Nat.min (S k) (length buffer - offset)) (cn_incoming (tick c))) in *.
    assert (Hlen : (length data <= length buffer - offset)%nat) by (unfold data; rewrite length_take; lia).
    assert (Hsplit : data ++ drop (length data) (cn_incoming c) = cn_incoming c) by apply take_drop_data.
    clearbody data. destruct data as [|b rest]; [by eapply (Herr EAGAIN)|]. set (data := b :: rest) in *.
    assert (Hnew : length (take offset buffer ++ data ++ drop (offset + length data) buffer) = length buffer).
    { rewrite !length_app, length_take, length_drop. lia. }
    apply IH in H as (Hs & more & Hd & Hm & Hdone); [|lia]. rewrite Hnew in *. cbn [cn_sent cn_incoming tick] in *. split; [done|].
    exists (data ++ more). rewrite <- app_assoc, <- Hd. split_and!; [done|rewrite length_app; lia|].
    intros Hc. destruct (Hdone Hc) as [-> Hml]. split; [|rewrite length_app; lia].
    rewrite (app_assoc (take offset buffer)), take_app_length' by (rewrite length_app, length_take; lia). by rewrite <- app_assoc.
  - simplify_eq. by apply (Hstop (tick c)).
  - eapply Herr; [|exact H]. lia.
Qed.
End TransferFacts.

Lemma sys_send_tick a bs c r c' : sys_send a bs c = (r, c') -> cn_tick c' = cn_tick c.
Proof. destruct a; cbn; intros; by simplify_eq. Qed.
Lemma sys_recv_tick a n c r c' : sys_recv a n c = (r, c') -> cn_tick c' = cn_tick c.
Proof. destruct a; cbn [sys_recv]; [destruct (take _ _)|..]; intros; by simplify_eq. Qed.

Lemma Transfer_ticks env fuel sending cancelable deadline buffer offset c code buffer' c' :
  Transfer env fuel sending cancelable deadline buffer offset c = Some (code, buffer', c') -> (cn_tick c <= cn_tick c')%nat.
Proof.
  revert buffer offset c. induction fuel as [|fuel IH]; intros buffer offset c H; [done|]. cbn [Transfer] in H.
  case_check; [by simplify_eq|]. do 2 (case_check; [simplify_eq; cbn; lia|]). destruct (if sending then _ else _) as [r c1] eqn:E.
  assert (Ht : cn_tick c1 = S (cn_tick c)).
  { destruct sending; [apply sys_send_tick in E|apply sys_recv_tick in E]; by rewrite E. }
  destruct r as [[|b data]|e]; [simplify_eq; lia|apply IH in H; lia|]. case_check; [apply IH in H; lia|]. case_check; [simplify_eq; lia|].
  destruct (Wait _ _ _ _ _) as [[code1 c2]|] eqn:Hw; [|done]. apply Wait_conn in Hw as (_ & _ & ?).
  case_check; [simplify_eq; lia|apply IH in H; lia].
Qed.

Section Deadlines.
Context (env : nat -> Answer) (deadline : Z) (N : nat).
(** From its [N]th reading on, the clock is past the deadline. *)
Context (Hclock : forall n, (N <= n)%nat -> deadline <= an_now (env n)).

Lemma Wait_returns fuel cancelable c : (N - cn_tick c < fuel)%nat -> is_Some (Wait env fuel cancelable deadline c).
Proof.
  revert c. induction fuel as [|fuel IH]; intros c Hf; [lia|]. cbn [Wait]. case_check; [eauto|].
  destruct (Z.leb_spec deadline (an_now (env (cn_tick c)))); [eauto|].
  assert (cn_tick c < N)%nat by (destruct (Nat.le_gt_cases N (cn_tick c)) as [Hn|]; [specialize (Hclock _ Hn); lia|done]).
  assert (is_Some (Wait env fuel cancelable deadline (tick c))) by (apply IH; cbn; lia).
  destruct (an_poll _); [case_check|..]; eauto.
Qed.

Lemma Transfer_returns fuel sending cancelable buffer offset c :
  (N - cn_tick c < fuel)%nat -> is_Some (Transfer env fuel sending cancelable deadline buffer offset c).
Proof.
  revert buffer offset c. induction fuel as [|fuel IH]; intros buffer offset c Hf; [lia|]. cbn [Transfer]. do 2 (case_check; [eauto|]).
  destruct (Z.leb_spec deadline (an_now (env (cn_tick c)))); [eauto|].
  assert (cn_tick c < N)%nat by (destruct (Nat.le_gt_cases N (cn_tick c)) as [Hn|]; [specialize (Hclock _ Hn); lia|done]).
  destruct (if sending then _ else _) as [r c1] eqn:E.
  assert (Ht : cn_tick c1 = S (cn_tick c)).
  { destruct sending; [apply sys_send_tick in E|apply sys_recv_tick in E]; by rewrite E. }
  destruct r as [[|b data]|e]; [eauto|apply IH; lia|]. destruct (e =? EINTR); [apply IH; lia|]. case_check; [eauto|].
  destruct (Wait_returns fuel cancelable c1) as [[code c2] Hw]; [lia|]. rewrite Hw. apply Wait_conn in Hw as (_ & _ & Ht2).
  case_check; [eauto|]. apply IH. lia.
Qed.
End Deadlines.

(** ** Frames over the connection *)
Lemma prefix_operation_frame op len rest : is_u16 op -> prefix_operation (frame_prefix op len ++ rest) = op.
Proof.
  intros Hop. unfold prefix_operation, frame_prefix. rewrite <- !app_assoc.
  assert (Hw : exists a b, wU op 2 = [a; b] /\ is_u8 a /\ is_u8 b).
  { pose proof (wU_length op 2) as Hl. pose proof (wU_bytes op 2) as Hb. destruct (wU op 2) as [|a [|b [|]]]; try done.
    apply bytes_cons in Hb as [? Hb]. apply bytes_cons in Hb as [? _]. eauto. }
  destruct Hw as (a & b & Hw & Ha & Hb). rewrite Hw.
  rewrite (app_assoc (wU CONTROL_MAGIC 4)).
  assert (Hn : forall i m, nth (6 + i) ((wU CONTROL_MAGIC 4 ++ wU CONTROL_WIRE_VERSION 2) ++ m) 0 = nth i m 0).
  { intros i m. rewrite app_nth2; rewrite length_app, !wU_length; [f_equal; lia|lia]. }
  rewrite (Hn 0%nat), (Hn 1%nat). cbn [app nth].
  pose proof (accumulate_value a b Hb) as Hacc. unfold accumulate, u64 in Hacc. rewrite Z.mod_small in Hacc.
  2:{ rewrite Z.shiftl_mul_pow2 by lia. unfold_widths. lia. }
  rewrite Hacc by (unfold_widths; lia). pose proof (be_value_wU op 2) as Hv. rewrite Hw in Hv. cbn [be_value] in Hv.
  change (256 ^ vsize [b]) with 256 in Hv. change (256 ^ vsize []) with 1 in Hv. change (256 ^ Z.of_nat 2) with 65536 in Hv.
  rewrite Z.mod_small in Hv by (unfold_widths; lia). lia.
Qed.

Section Frames.
Context (env : nat -> Answer).

Lemma SendFrame_sent fuel frame cancelable deadline c code c' :
  SendFrame env fuel frame cancelable deadline c = Some (code, c') ->
  cn_incoming c' = cn_incoming c /\
  ((exists bs pre post, EncodeControlFrame frame = Ok bs /\ bs = pre ++ post /\ cn_sent c' = cn_sent c ++ pre /\ (code = 0 -> post = [])) \/
   (ValidFrame frame = false /\ code = - EINVAL /\ c' = c)).
Proof.
  unfold SendFrame. destruct (EncodeControlFrame frame) as [bs|e] eqn:He; intros H.
  - destruct (Transfer _ _ _ _ _ _ _ _) as [[[code1 buffer] c1]|] eqn:Ht; [|done]. simplify_eq.
    apply Transfer_send in Ht as (_ & Hi & pre & post & Hd & Hs & Hdone); [|lia]. rewrite drop_0 in Hd. split; [done|]. left. eauto 10.
  - simplify_eq. split; [done|]. right. unfold EncodeControlFrame in He. case_check; [|done]. simplify_eq. by bool_to_prop.
Qed.

(** In any case, a first part of the frame is out: all of it on success. *)
Lemma SendFrame_prefix fuel frame cancelable deadline c code c' :
  SendFrame env fuel frame cancelable deadline c = Some (code, c') ->
  cn_incoming c' = cn_incoming c /\
  exists pre post, pre ++ post = frame_wire frame /\ cn_sent c' = cn_sent c ++ pre /\ (code = 0 -> post = []).
Proof.
  intros H. apply SendFrame_sent in H as [Hi [(bs & pre & post & He & -> & Hs & Hdone)|(_ & -> & ->)]]; split; auto.
  - unfold EncodeControlFrame in He. destruct (ValidFrame frame); [|done]. injection He as He. eauto 10.
  - exists [], (frame_wire frame). rewrite app_nil_r. by split_and!.
Qed.

Lemma ReceiveFrame_received fuel expected cancelable deadline c out c' :
  ReceiveFrame env fuel expected cancelable deadline c = Some (out, c') -> bytes (cn_incoming c) ->
  cn_sent c' = cn_sent c /\ exists data, cn_incoming c = data ++ cn_incoming c' /\ vsize data <= MAX_CONTROL_FRAME /\
    forall f, out = Ok f -> data = frame_wire f /\ wf_frame f /\ ValidFrame f = true /\ cf_operation f = expected /\ vsize data <= frame_limit expected.
Proof.
  unfold ReceiveFrame. intros H Hb.
  destruct (Transfer _ _ _ _ _ (repeat 0 (Z.to_nat CONTROL_PREFIX_SIZE)) _ _) as [[[code1 bs] c1]|] eqn:Ht1; [|done].
  apply Transfer_recv in Ht1 as (Hs1 & head & Hi1 & Hl1 & Hdone1); [|lia]. rewrite repeat_length in *. change (Z.to_nat CONTROL_PREFIX_SIZE) with 16%nat in *.
  assert (Hstop : forall e, out = Err e -> c' = c1 -> cn_sent c' = cn_sent c /\ exists data, cn_incoming c = data ++ cn_incoming c' /\ vsize data <= MAX_CONTROL_FRAME /\
    forall f, out = Ok f -> data = frame_wire f /\ wf_frame f /\ ValidFrame f = true /\ cf_operation f = expected /\ vsize data <= frame_limit expected).
  { intros e -> ->. split; [done|]. exists head. split_and!; [done|unfold vsize, MAX_CONTROL_FRAME, MAX_PARAMETER_WIRE; lia|done]. }
  case_check; [simplify_eq; by eapply Hstop|]. bool_to_prop. destruct (Hdone1 ltac:(done)) as [-> Hlen1]. change (take 0 (repeat 0 16) ++ head) with head in H.
  destruct (ControlFrameSize (Some head)) as [size|e] eqn:Hsize; [|injection H as <- <-; by apply (Hstop e)].
  case_check; [injection H as <- <-; by eapply Hstop|]. case_check; [injection H as <- <-; by eapply Hstop|]. bool_to_prop.
  destruct (Transfer _ _ _ _ _ (repeat _ _) _ _) as [[[code2 body] c2]|] eqn:Ht2; [|done].
  apply Transfer_recv in Ht2 as (Hs2 & data & Hi2 & Hl2 & Hdone2); [|lia]. rewrite repeat_length, Nat.sub_0_r in *. change (take 0 ?l ++ data) with data in Hdone2.
  rewrite Hi1 in Hb. apply bytes_app in Hb as [Hbh Hb]. rewrite Hi2 in Hb. apply bytes_app in Hb as [Hbd _].
  destruct (ControlFrameSize_inv head size Hbh Hsize) as (op & rest & -> & Hok & _).
  assert (rest = []) as -> by (rewrite length_app, frame_prefix_length in Hlen1; destruct rest; [done|cbn in Hlen1; lia]).
  assert (Htotal : vsize (frame_prefix op size ++ [] ++ data) <= size).
  { unfold vsize. rewrite !length_app, frame_prefix_length. destruct Hok as (_ & ? & _). unfold CONTROL_PREFIX_SIZE in *. cbn [length]. lia. }
  assert (Hmax : size <= MAX_CONTROL_FRAME) by apply Hok.
  assert (Hall : cn_incoming c = (frame_prefix op size ++ [] ++ data) ++ cn_incoming c2) by (rewrite Hi1, Hi2, <- !app_assoc; done).
  case_check; simplify_eq.
  { split; [congruence|]. exists (frame_prefix op size ++ [] ++ data). split_and!; [done|lia|done]. }
  split; [congruence|]. exists (frame_prefix op size ++ [] ++ data). split_and!; [done|lia|]. intros f Hf. bool_to_prop.
  destruct (Hdone2 ltac:(done)) as [-> Hlen2]. rewrite <- app_assoc in Hf.
  assert (Hbytes : bytes (frame_prefix op size ++ [] ++ data)) by (rewrite app_nil_r in Hbh; apply bytes_app; by split).
  destruct (DecodeControlFrame_inv _ f Hbytes Hf) as (Hwf & Hv & Hwire).
  split_and!; auto; [|lia].
  assert (Hop1 : prefix_operation (frame_prefix op size ++ []) = op) by (apply prefix_operation_frame; destruct Hok as (? & _); unfold_widths; lia).
  rewrite <- (prefix_operation_frame (cf_operation f) (frame_size f) (frame_common f (vsize (cf_name f)) (vsize (cf_payload f)) ++
    frame_extensions f ++ cf_name f ++ cf_payload f)) by apply Hwf.
  fold (frame_wire f). rewrite <- Hwire. rewrite prefix_operation_frame; [congruence|]. destruct Hok as (? & _). unfold_widths. lia.
Qed.
End Frames.

(** ** The incremental reader *)
Definition reader_ok (r : FrameReader) : Prop :=
  (fr_target r = CONTROL_PREFIX_SIZE /\ vsize (fr_bytes r) <= CONTROL_PREFIX_SIZE) \/
  (ControlFrameSize (Some (fr_bytes r)) = Ok (fr_target r) /\ CONTROL_PREFIX_SIZE <= vsize (fr_bytes r) <= fr_target r).

Lemma new_reader_ok : reader_ok new_reader.
Proof. left. done. Qed.

(** The size does not change while the body arrives. *)
Lemma ControlFrameSize_app bs more size : bytes bs -> ControlFrameSize (Some bs) = Ok size -> ControlFrameSize (Some (bs ++ more)) = Ok size.
Proof.
  intros Hb H. destruct (ControlFrameSize_inv bs size Hb H) as (op & rest & -> & Hok & _). rewrite <- app_assoc. by apply ControlFrameSize_prefix.
Qed.

Lemma ControlFrameSize_range bs size : bytes bs -> ControlFrameSize (Some bs) = Ok size -> 172 <= size <= MAX_CONTROL_FRAME.
Proof. intros Hb H. by destruct (ControlFrameSize_inv bs size Hb H) as (op & rest & _ & (_ & ? & _) & _). Qed.

(** What the top of the loop leaves for [recv]. *)
Lemma reader_top_continue r r1 : bytes (fr_bytes r) -> reader_ok r -> reader_top r = TopContinue r1 ->
  fr_bytes r1 = fr_bytes r /\ reader_ok r1 /\ vsize (fr_bytes r) < fr_target r1.
Proof.
  intros Hb Hok H. unfold reader_top in H. destruct (Z.eqb_spec (vsize (fr_bytes r)) (fr_target r)) as [E|E].
  - destruct (Z.eqb_spec (fr_target r) CONTROL_PREFIX_SIZE) as [E2|]; [|by case_match].
    destruct (ControlFrameSize _) as [target|] eqn:Hs; [|done]. case_check; [done|]. simplify_eq. cbn.
    pose proof (ControlFrameSize_range _ _ Hb Hs). unfold CONTROL_PREFIX_SIZE in *. split_and!; auto; [|lia]. right. cbn. split; [done|]. unfold CONTROL_PREFIX_SIZE. lia.
  - simplify_eq. split_and!; auto. destruct Hok as [[? ?]|[_ ?]]; lia.
Qed.

(** A complete prefix or frame that does not parse. *)
Definition parse_error (bs : list Z) (code : Z) : Prop :=
  (CONTROL_PREFIX_SIZE <= vsize bs /\ ControlFrameSize (Some bs) = Err code) \/
  (ControlFrameSize (Some bs) = Ok (vsize bs) /\ DecodeControlFrame (Some bs) = Err code).

Lemma reader_top_return r code frame r1 : bytes (fr_bytes r) -> reader_ok r -> reader_top r = TopReturn (code, frame) r1 ->
  match frame with
  | Some f => code = 1 /\ r1 = new_reader /\ fr_bytes r = frame_wire f /\ wf_frame f /\ ValidFrame f = true
  | None => parse_error (fr_bytes r) code
  end.
Proof.
  intros Hb Hok H. unfold reader_top in H. case_check; [|done]. bool_to_prop. destruct (Z.eqb_spec (fr_target r) CONTROL_PREFIX_SIZE).
  - destruct (ControlFrameSize _) as [target|e1] eqn:Hs; [|simplify_eq; left; split; [lia|done]].
    pose proof (ControlFrameSize_range _ _ Hb Hs). case_check; [|done]. bool_to_prop. lia.
  - destruct (DecodeControlFrame _) as [f|e1] eqn:Hd; simplify_eq; [|destruct Hok as [[? _]|[? _]]; [done|]; right; split; [congruence|done]].
    destruct (DecodeControlFrame_inv _ _ Hb Hd) as (? & ? & ?). by split_and!.
Qed.

(** Every error of the frame codec is a negative errno. *)
Definition errs {A} (d : dec A) : Prop := forall r e, d r = Err e -> e < 0.
Lemma errs_ret {A} (a : A) : errs (dret a).
Proof. by intros r e H. Qed.
Lemma errs_bind {A B} (d : dec A) (k : A -> dec B) : errs d -> (forall a, errs (k a)) -> errs (dbind d k).
Proof. intros Hd Hk r e H. unfold dbind in H. destruct (d r) as [[a r1]|] eqn:E; [by eapply Hk|]. simplify_eq. by eapply Hd. Qed.
Lemma errs_U n : errs (dU n).
Proof. by intros r e H. Qed.
Lemma errs_mark b : errs (dmark b).
Proof. by intros r e H. Qed.
Lemma errs_guard b c : c < 0 -> errs (dguard b c).
Proof. intros Hc r e H. unfold dguard in H. case_check; by simplify_eq. Qed.
Lemma errs_if {A} (b : bool) (d d' : dec A) : errs d -> errs d' -> errs (if b then d else d').
Proof. by destruct b. Qed.
Lemma errs_Bytes n : errs (dBytes n).
Proof. induction n; cbn [dBytes]; [apply errs_ret|]. apply errs_bind; [apply errs_U|intros]. apply errs_bind; [done|intros]. apply errs_ret. Qed.
Ltac errs_step := first [apply errs_ret | apply errs_U | apply errs_mark | apply errs_Bytes | apply errs_guard; done | apply errs_if | apply errs_bind; [|intro]].
Lemma errs_Frame op : errs (dFrame op).
Proof. unfold dFrame, dAction, dRole, dRuntime, dEndpoint, dRuntime, dType, dHost. repeat errs_step. Qed.
Lemma ControlFrameSize_error bs e : ControlFrameSize (Some bs) = Err e -> e < 0.
Proof.
  unfold ControlFrameSize. case_check; [by intros [= <-]|]. destruct (dPrefix _) as [[? ?]|e1] eqn:E; [done|]. intros [= <-].
  revert E. apply (fun H : errs dPrefix => H). unfold dPrefix. repeat errs_step.
Qed.
Lemma DecodeControlFrame_error bs e : DecodeControlFrame (Some bs) = Err e -> e < 0.
Proof.
  unfold DecodeControlFrame. intros H. destruct (ControlFrameSize _) as [size|e1] eqn:Hs; [|injection H as ->; by apply ControlFrameSize_error in Hs].
  cbn [bind_result] in H. case_check; [by simplify_eq|].
  destruct (dBody _) as [[[[f names] payload] r]|e1] eqn:E; cbn [bind_result] in H.
  - repeat case_check; by simplify_eq.
  - injection H as <-. revert E. apply (fun H : errs dBody => H). unfold dBody. repeat first [apply errs_Frame | errs_step].
Qed.
Lemma control_errors bs e : parse_error bs e -> e < 0.
Proof. intros [[_ H]|[_ H]]; [by apply ControlFrameSize_error in H|by apply DecodeControlFrame_error in H]. Qed.

Section ReaderFacts.
Context (env : nat -> Answer).

Lemma sys_recv_data a n c data c' : sys_recv a n c = (IoCount data, c') ->
  cn_incoming c = data ++ cn_incoming c' /\ (length data <= n)%nat /\ cn_sent c' = cn_sent c.
Proof.
  destruct a; cbn [sys_recv]; intros H; [|simplify_eq; split_and!; [done|apply Nat.le_0_l|done]|done].
  assert (Hm : (Nat.min (S k) n <= n)%nat) by lia. generalize dependent (Nat.min (S k) n). intros m H Hm.
  destruct (take _ _) as [|b rest] eqn:E; [done|]. rewrite <- E in H. injection H as <- <-. cbn [cn_incoming cn_sent].
  split_and!; [symmetry; apply take_drop_data|rewrite length_take; lia|done].
Qed.

Lemma sys_recv_error a n c e c' : sys_recv a n c = (IoError e, c') -> c' = c /\ (e = EAGAIN \/ exists p, a = IoErrno p /\ e = Z.pos p).
Proof. destruct a; cbn [sys_recv]; [destruct (take _ _)|..]; intros; simplify_eq; eauto 10. Qed.

(** One call of [Read]: a frame is exactly the bytes read for it; otherwise everything
    read is still in the reader. *)
Lemma Read_sound fuel r c code frame r' c' :
  Read env fuel r c = Some (code, frame, r', c') -> reader_ok r -> bytes (fr_bytes r ++ cn_incoming c) ->
  match frame with
  | Some f => code = 1 /\ wf_frame f /\ ValidFrame f = true /\ r' = new_reader /\
              fr_bytes r ++ cn_incoming c = frame_wire f ++ cn_incoming c'
  | None => (code = 0 -> reader_ok r' /\ fr_bytes r ++ cn_incoming c = fr_bytes r' ++ cn_incoming c') /\
            (code = 0 \/ code = - ECONNRESET \/ (exists k p, an_io (env k) = IoErrno p /\ code = - Z.pos p) \/
             exists bs, bs `prefix_of` fr_bytes r ++ cn_incoming c /\ parse_error bs code)
  end.
Proof.
  revert r c. induction fuel as [|fuel IH]; intros r c H Hok Hb; [done|]. cbn [Read] in H.
  assert (Hbr : bytes (fr_bytes r)) by (by apply bytes_app in Hb as [? _]).
  destruct (reader_top r) as [r1|[code1 frame1] r1] eqn:Htop.
  - destruct (reader_top_continue r r1 Hbr Hok Htop) as (Hb1 & Hok1 & Hlt). rewrite <- Hb1 in *.
    destruct (sys_recv _ _ _) as [[[|b data]|e] c1] eqn:Hrecv.
    + simplify_eq. apply sys_recv_data in Hrecv as (Hi & _). split; [done|]. auto.
    + apply sys_recv_data in Hrecv as (Hi & Hl & _). cbn [cn_incoming tick] in Hi.
      assert (Hstream : fr_bytes r1 ++ cn_incoming c = (fr_bytes r1 ++ b :: data) ++ cn_incoming c1) by (by rewrite Hi, <- app_assoc).
      rewrite Hstream in *. apply IH in H; auto.
      assert (Hgrow : vsize (fr_bytes r1 ++ b :: data) <= fr_target r1) by (rewrite vsize_app; unfold vsize in *; lia).
      destruct Hok1 as [[Ht ?]|[Hs ?]]; [left|right]; cbn [fr_target fr_bytes]; [split; [done|lia]|].
      split; [by apply ControlFrameSize_app|]. rewrite vsize_app in *. pose proof (vsize_nonneg (b :: data)). lia.
    + apply sys_recv_error in Hrecv as [-> He]. case_check; [apply IH in H; auto|].
      case_check; simplify_eq; [split; auto|]. destruct He as [->|(p & Hp & ->)]; [done|]. split; [intros E; lia|]. eauto 10.
  - simplify_eq. pose proof (reader_top_return r _ _ _ Hbr Hok Htop) as Hret. destruct frame as [f|].
    + destruct Hret as (-> & -> & -> & ? & ?). by split_and!.
    + pose proof (control_errors (fr_bytes r) code Hret). split; [lia|].
      right. right. right. exists (fr_bytes r). split; [by eexists|done].
Qed.

Lemma read_calls_sound n fuel r c frames code r' c' :
  read_calls env n fuel r c = Some (frames, code, r', c') -> reader_ok r -> bytes (fr_bytes r ++ cn_incoming c) ->
  Forall (fun f => wf_frame f /\ ValidFrame f = true) frames /\
  exists rest, fr_bytes r ++ cn_incoming c = flat_map frame_wire frames ++ rest /\
    (code = 0 -> reader_ok r' /\ rest = fr_bytes r' ++ cn_incoming c') /\
    (code = 0 \/ code = - ECONNRESET \/ (exists k p, an_io (env k) = IoErrno p /\ code = - Z.pos p) \/
     exists bs, bs `prefix_of` rest /\ parse_error bs code).
Proof.
  revert r c frames. induction n as [|n IH]; intros r c frames H Hok Hb; cbn [read_calls] in H.
  { simplify_eq. split; [constructor|]. exists (fr_bytes r' ++ cn_incoming c'). split_and!; auto. }
  destruct (Read env fuel r c) as [[[[code1 frame] r1] c1]|] eqn:Hr; [|done]. apply Read_sound in Hr; auto. case_check.
  { simplify_eq. destruct frame as [f|]; [destruct Hr as (-> & _); bool_to_prop; lia|]. destruct Hr as [_ Hr].
    split; [constructor|]. exists (fr_bytes r ++ cn_incoming c). bool_to_prop. split_and!; [done|lia|done]. }
  destruct (read_calls env n fuel r1 c1) as [[[[frames1 code2] r2] c2]|] eqn:Hrec; [|done]. simplify_eq. bool_to_prop.
  destruct frame as [f|].
  - destruct Hr as (_ & Hw & Hv & -> & Hs). rewrite Hs in *. apply bytes_app in Hb as [_ Hb].
    apply IH in Hrec as (Hall & rest & Hrest & Hend); [|apply new_reader_ok|done]. 
    change (option_list (Some f) ++ frames1) with (f :: frames1). cbn [flat_map].
    split; [by constructor|]. exists rest. cbn [new_reader fr_bytes app] in Hrest. rewrite <- app_assoc, <- Hrest. by split.
  - destruct Hr as [Hr Hcode]. assert (code1 = 0) as ->.
    { destruct Hcode as [?|[->|[(k & p & _ & ->)|(bs & _ & Herr)]]]; [done|done|lia|]. apply control_errors in Herr. lia. }
    destruct (Hr eq_refl) as [Hok1 Hs]. rewrite Hs in *. by apply IH in Hrec.
Qed.

(** ** Streams of valid frames *)
Definition valid_frames (fs : list ControlFrame) : Prop := Forall (fun f => wf_frame f /\ ValidFrame f = true) fs.

Lemma frame_size_range f : wf_frame f -> ValidFrame f = true -> 172 <= frame_size f <= MAX_CONTROL_FRAME.
Proof. intros Hw Hv. by destruct (frame_prefix_ok f Hw Hv) as (_ & ? & _). Qed.

(** No valid frame is the beginning of another one. *)
Lemma frame_wire_inj f g x y : wf_frame f -> ValidFrame f = true -> wf_frame g -> ValidFrame g = true ->
  frame_wire f ++ x = frame_wire g ++ y -> f = g /\ x = y.
Proof.
  intros Hwf Hvf Hwg Hvg E. assert (Hs : frame_size f = frame_size g).
  { assert (H1 : ControlFrameSize (Some (frame_wire f ++ x)) = Ok (frame_size f)).
    { unfold frame_wire. rewrite <- app_assoc. by apply ControlFrameSize_prefix, frame_prefix_ok. }
    rewrite E in H1. unfold frame_wire in H1. rewrite <- app_assoc, ControlFrameSize_prefix in H1 by (by apply frame_prefix_ok). congruence. }
  apply app_inj_1 in E as [E ->].
  - split; [|done]. pose proof (decode_frame_wire f Hwf Hvf) as H1. rewrite E, decode_frame_wire in H1 by done. congruence.
  - pose proof (frame_wire_vsize f Hwf). pose proof (frame_wire_vsize g Hwg). unfold vsize in *. lia.
Qed.

Lemma frames_prefix fs gs rest : valid_frames fs -> valid_frames gs -> flat_map frame_wire fs = flat_map frame_wire gs ++ rest ->
  exists hs, fs = gs ++ hs /\ rest = flat_map frame_wire hs.
Proof.
  intros Hf Hg. revert fs Hf. induction Hg as [|g gs [Hwg Hvg] Hg IH]; intros fs Hf E; [by exists fs|].
  destruct Hf as [|f fs [Hwf Hvf] Hf]; cbn [flat_map] in E.
  { pose proof (frame_wire_vsize g Hwg). pose proof (frame_size_range g Hwg Hvg). apply (f_equal length) in E.
    rewrite !length_app in E. unfold vsize in *. cbn in E. lia. }
  rewrite <- app_assoc in E. apply frame_wire_inj in E as [-> E]; auto. destruct (IH fs Hf E) as (hs & -> & ->). by exists hs.
Qed.

(** A beginning of a valid stream that is long enough never fails to parse. *)
Lemma stream_no_error fs bs e : valid_frames fs -> bs `prefix_of` flat_map frame_wire fs ->
  ~ parse_error bs e.
Proof.
  intros Hf Hp. destruct Hf as [|f fs [Hw Hv] Hf].
  { destruct bs; [|by apply prefix_nil_not in Hp]. by intros [[H _]|[H _]]. }
  cbn [flat_map] in Hp. destruct Hp as [more E]. pose proof (frame_wire_vsize f Hw) as Hsz. pose proof (frame_size_range f Hw Hv).
  assert (Hbs : bs = take (length bs) (frame_wire f ++ flat_map frame_wire fs)) by (rewrite E; by rewrite take_app_length).
  assert (Hlong : CONTROL_PREFIX_SIZE <= vsize bs -> ControlFrameSize (Some bs) = Ok (frame_size f)).
  { intros Hl. rewrite Hbs. unfold frame_wire. rewrite <- app_assoc, take_app.
    rewrite take_ge by (rewrite frame_prefix_length; unfold vsize, CONTROL_PREFIX_SIZE in *; lia). by apply ControlFrameSize_prefix, frame_prefix_ok. }
  intros [[Hl Hs]|[Hs Hd]]; [rewrite Hlong in Hs by done; done|].
  assert (Hl : CONTROL_PREFIX_SIZE <= vsize bs) by (unfold ControlFrameSize in Hs; case_check; [done|]; by bool_to_prop).
  rewrite Hlong in Hs by done. injection Hs as Hs. assert (bs = frame_wire f) as ->.
  { rewrite Hbs. apply take_app_length'. unfold vsize in *. lia. }
  rewrite decode_frame_wire in Hd by done. done.
Qed.

Lemma frame_wire_bytes f : wf_frame f -> bytes (frame_wire f).
Proof.
  intros (_ & _ & _ & _ & _ & _ & Hn & _ & _ & _ & _ & _ & _ & _ & _ & _ & Hp & _).
  unfold frame_wire, frame_prefix, frame_common, frame_extensions, action_extension, wEndpoint.
  repeat match goal with
  | |- bytes (_ ++ _) => apply bytes_app; split
  | |- bytes (wU _ _) => apply wU_bytes
  | |- bytes (wRuntime _) => apply wRuntime_bytes
  | |- bytes (wType _) => apply wType_bytes
  | |- bytes (if ?b then _ else _) => destruct b; [|constructor]
  end; assumption.
Qed.
Lemma frames_bytes fs : valid_frames fs -> bytes (flat_map frame_wire fs).
Proof. induction 1 as [|f fs [Hw _] _ IH]; [constructor|]. cbn [flat_map]. apply bytes_app. split; [by apply frame_wire_bytes|done]. Qed.

Lemma reader_ok_grow r1 data : bytes (fr_bytes r1) -> reader_ok r1 -> vsize (fr_bytes r1 ++ data) <= fr_target r1 ->
  reader_ok {| fr_bytes := fr_bytes r1 ++ data; fr_target := fr_target r1 |}.
Proof.
  intros Hb [[Ht ?]|[Hs ?]] Hgrow; [left|right]; cbn [fr_target fr_bytes]; [split; [done|lia]|].
  split; [by apply ControlFrameSize_app|]. rewrite vsize_app in *. pose proof (vsize_nonneg data). lia.
Qed.

(** The reader never wants more than the frame it is in. *)
Lemma reader_target f rest r c : wf_frame f -> ValidFrame f = true -> reader_ok r -> bytes (fr_bytes r) ->
  fr_bytes r ++ cn_incoming c = frame_wire f ++ rest -> fr_target r <= frame_size f.
Proof.
  intros Hw Hv [[-> _]|[Hs _]] Hb E; [pose proof (frame_size_range f Hw Hv); unfold CONTROL_PREFIX_SIZE; lia|].
  apply (ControlFrameSize_app _ (cn_incoming c)) in Hs; [|done]. rewrite E in Hs. unfold frame_wire in Hs.
  rewrite <- app_assoc, ControlFrameSize_prefix in Hs by (by apply frame_prefix_ok). injection Hs as <-. done.
Qed.

(** While the kernel delivers, a call returns the next frame, after at most as many
    iterations as the frame has bytes left. *)
Lemma Read_next fuel f fs r c :
  (forall k, exists j, an_io (env k) = IoData j) -> valid_frames (f :: fs) -> reader_ok r ->
  bytes (fr_bytes r) -> fr_bytes r ++ cn_incoming c = flat_map frame_wire (f :: fs) ->
  (Z.to_nat (frame_size f - vsize (fr_bytes r)) < fuel)%nat ->
  exists c', Read env fuel r c = Some (1, Some f, new_reader, c') /\ cn_incoming c' = flat_map frame_wire fs.
Proof.
  intros Hdata Hf. assert (Hf' := Hf). apply Forall_cons in Hf' as [[Hw Hv] Hfs].
  revert r c. induction fuel as [|fuel IH]; intros r c Hok Hbr E Hfuel; [lia|]. cbn [Read].
  destruct (reader_top r) as [r1|[code frame] r1] eqn:Htop.
  - destruct (reader_top_continue r r1 Hbr Hok Htop) as (Hb1 & Hok1 & Hlt). rewrite <- Hb1 in *.
    pose proof (reader_target f (flat_map frame_wire fs) r1 c Hw Hv Hok1 Hbr E) as Ht.
    pose proof (frame_wire_vsize f Hw) as Hsz.
    assert (Hne : (0 < length (cn_incoming c))%nat).
    { apply (f_equal length) in E. cbn [flat_map] in E. rewrite !length_app in E. unfold vsize in *. lia. }
    destruct (Hdata (cn_tick c)) as [j ->]. destruct (sys_recv _ _ _) as [[data|e] c1] eqn:Hrecv.
    + assert (Hpos : data <> []).
      { intros ->. cbn [sys_recv cn_incoming tick] in Hrecv. by destruct (take _ _). }
      apply sys_recv_data in Hrecv as (Hi & Hl & _). cbn [cn_incoming tick] in Hi. destruct data as [|b data]; [done|].
      assert (Hgrow : vsize (fr_bytes r1 ++ b :: data) <= fr_target r1) by (rewrite vsize_app; unfold vsize in *; lia).
      assert (Hstream : (fr_bytes r1 ++ b :: data) ++ cn_incoming c1 = flat_map frame_wire (f :: fs)) by (by rewrite <- app_assoc, <- Hi).
      apply IH; cbn [fr_bytes]; auto.
      * by apply reader_ok_grow.
      * pose proof (frames_bytes (f :: fs) Hf) as Hall. rewrite <- Hstream in Hall. by apply bytes_app in Hall as [? _].
      * rewrite vsize_app in *. unfold vsize in *. cbn [length] in *. lia.
    + exfalso. cbn [sys_recv cn_incoming tick] in Hrecv. destruct (take _ _) as [|b0 l0] eqn:Ed; [|done].
      apply (f_equal length) in Ed. rewrite length_take in Ed. cbn [length] in Ed. unfold vsize in *. lia.
  - pose proof (reader_top_return r code frame r1 Hbr Hok Htop) as Hret. destruct frame as [g|].
    + destruct Hret as (-> & -> & Hg & Hwg & Hvg). rewrite Hg in E. cbn [flat_map] in E.
      apply frame_wire_inj in E as [-> E]; auto. eauto.
    + exfalso. eapply (stream_no_error (f :: fs)); [done| |exact Hret]. rewrite <- E. by eexists.
Qed.

Lemma read_calls_deliver fuel fs c :
  (forall k, exists j, an_io (env k) = IoData j) -> valid_frames fs -> cn_incoming c = flat_map frame_wire fs ->
  (Z.to_nat MAX_CONTROL_FRAME < fuel)%nat ->
  exists c', read_calls env (length fs) fuel new_reader c = Some (fs, 0, new_reader, c') /\ cn_incoming c' = [].
Proof.
  intros Hdata Hf. revert c. induction Hf as [|f fs [Hw Hv] Hf IH]; intros c Hi Hfuel; [by exists c|].
  assert (Hall : valid_frames (f :: fs)) by (by constructor). pose proof (frame_size_range f Hw Hv).
  destruct (Read_next fuel f fs new_reader c Hdata Hall new_reader_ok) as (c1 & Hr & Hi1); [constructor|done| |].
  { cbn [new_reader fr_bytes]. rewrite vsize_nil. lia. }
  destruct (IH c1 Hi1 Hfuel) as (c2 & Hrec & Hend). exists c2. split; [|done]. cbn [length read_calls]. rewrite Hr. cbn [Z.ltb Z.compare].
  by rewrite Hrec.
Qed.
End ReaderFacts.

(** C34: The incremental reader reassembles the peer's frames under every fragmentation:
    whatever pieces, interruptions and pauses the kernel makes of a stream of valid frames,
    any sequence of calls returns exactly the first frames of it, in order, none lost,
    merged or invented, and a failing call has the kernel's error or the end of the
    connection, never a protocol error; and if the kernel only ever delivers data, one
    byte at a time or more, a call per frame returns them all. *)
Theorem control_stream_exact env fs :
  valid_frames fs ->
  (forall n fuel c frames code r c', cn_incoming c = flat_map frame_wire fs ->
     read_calls env n fuel new_reader c = Some (frames, code, r, c') ->
     (exists later, fs = frames ++ later) /\
     (code = 0 \/ code = - ECONNRESET \/ exists k p, an_io (env k) = IoErrno p /\ code = - Z.pos p)) /\
  (forall c fuel, (forall k, exists j, an_io (env k) = IoData j) -> cn_incoming c = flat_map frame_wire fs ->
     (Z.to_nat MAX_CONTROL_FRAME < fuel)%nat ->
     exists c', read_calls env (length fs) fuel new_reader c = Some (fs, 0, new_reader, c') /\ cn_incoming c' = []).
Proof.
  intros Hf. split; [|intros; by apply read_calls_deliver].
  intros n fuel c frames code r c' Hi H.
  apply read_calls_sound in H as (Hv & rest & E & _ & Hcode); [|apply new_reader_ok|cbn; rewrite Hi; by apply frames_bytes].
  cbn [new_reader fr_bytes app] in E. rewrite Hi in E. destruct (frames_prefix fs frames rest Hf Hv E) as (later & -> & ->).
  split; [by exists later|]. destruct Hcode as [?|[?|[?|(bs & Hp & Herr)]]]; auto. exfalso.
  apply Forall_app in Hf as [_ Hf]. by apply (stream_no_error later bs code).
Qed.

(** ** Exchanges *)
(** What ends a call for a reason that is not in the bytes. *)
Definition io_error (env : nat -> Answer) (code : Z) : Prop :=
  code = - ECANCELED \/ code = - ETIMEDOUT \/ code = - ECONNRESET \/ code = - EBADF \/
  (exists k p, code = - Z.pos p /\ (an_io (env k) = IoErrno p \/ an_poll (env k) = PollErrno p)).

Lemma Wait_code env fuel cancelable deadline c code c' :
  Wait env fuel cancelable deadline c = Some (code, c') -> code = 0 \/ io_error env code.
Proof.
  unfold io_error. revert c. induction fuel as [|fuel IH]; intros c H; [done|]. cbn [Wait] in H.
  do 2 (case_check; [simplify_eq; auto 6|]). destruct (an_poll _) eqn:Hp; [case_check|..]; eauto.
  - simplify_eq. right. do 4 right. eauto 10.
  - case_check; simplify_eq; auto 7.
Qed.

Lemma Transfer_code env fuel sending cancelable deadline buffer offset c code buffer' c' :
  Transfer env fuel sending cancelable deadline buffer offset c = Some (code, buffer', c') -> code = 0 \/ io_error env code.
Proof.
  unfold io_error. revert buffer offset c. induction fuel as [|fuel IH]; intros buffer offset c H; [done|]. cbn [Transfer] in H.
  do 3 (case_check; [simplify_eq; auto 6|]). destruct (if sending then _ else _) as [r c1] eqn:E.
  assert (Herr : forall e, r = IoError e -> e = EAGAIN \/ exists p, an_io (env (cn_tick c)) = IoErrno p /\ e = Z.pos p).
  { intros e ->. destruct sending; [|by apply sys_recv_error in E as [_ ?]].
    destruct (an_io _); cbn [sys_send] in E; simplify_eq; eauto. }
  destruct r as [[|b data]|e]; [simplify_eq; auto 6|eauto|]. case_check; [eauto|]. case_check.
  - simplify_eq. bool_to_prop. destruct (Herr e eq_refl) as [->|(p & Hp & ->)]; [done|]. right. do 4 right. eauto 10.
  - destruct (Wait _ _ _ _ _) as [[code1 c2]|] eqn:Hw; [|done]. case_check; [|eauto]. simplify_eq. by apply Wait_code in Hw.
Qed.

Lemma app_same_prefix {A} (a b x y : list A) : a ++ x = b ++ y -> (length a <= length b)%nat -> exists z, b = a ++ z /\ x = z ++ y.
Proof.
  revert b. induction a as [|h a IH]; intros b E Hl; [by exists b|]. destruct b as [|k b]; [cbn in Hl; lia|]. cbn in E. simplify_eq.
  cbn in Hl. destruct (IH b) as (z & -> & ->); [done|lia|]. by exists z.
Qed.

Lemma frame_wire_split f : wf_frame f ->
  exists body, frame_wire f = frame_prefix (cf_operation f) (frame_size f) ++ body /\ vsize body = frame_size f - CONTROL_PREFIX_SIZE.
Proof.
  intros Hw. pose proof (frame_wire_vsize f Hw) as Hs. unfold frame_wire in Hs |- *. eexists. split; [done|].
  rewrite vsize_app in Hs. unfold vsize at 1 in Hs. rewrite frame_prefix_length in Hs. unfold CONTROL_PREFIX_SIZE. lia.
Qed.

Lemma ReceiveFrame_complete env fuel f cancelable deadline c out c' later :
  ReceiveFrame env fuel (cf_operation f) cancelable deadline c = Some (out, c') -> wf_frame f -> ValidFrame f = true ->
  frame_size f <= frame_limit (cf_operation f) -> cn_incoming c = frame_wire f ++ later ->
  (out = Ok f /\ cn_incoming c' = later) \/ exists e, out = Err e /\ io_error env e.
Proof.
  unfold ReceiveFrame. intros H Hw Hv Hlim Hi. destruct (frame_wire_split f Hw) as (body & Hwire & Hbody).
  pose proof (frame_prefix_ok f Hw Hv) as Hok. assert (Hop : is_u16 (cf_operation f)) by apply Hw.
  assert (Hrange := frame_size_range f Hw Hv).
  destruct (Transfer _ _ _ _ _ (repeat 0 (Z.to_nat CONTROL_PREFIX_SIZE)) _ _) as [[[code1 bs] c1]|] eqn:Ht1; [|done].
  pose proof (Transfer_code _ _ _ _ _ _ _ _ _ _ _ Ht1) as Hc1.
  apply Transfer_recv in Ht1 as (_ & head & Hi1 & _ & Hd1); [|lia]. rewrite repeat_length in Hd1. change (Z.to_nat CONTROL_PREFIX_SIZE) with 16%nat in Hd1.
  case_check. { bool_to_prop. injection H as <- <-. right. destruct Hc1; [done|eauto]. }
  bool_to_prop. destruct (Hd1 ltac:(done)) as [-> Hl1]. change (take 0 (repeat 0 16) ++ head) with head in H.
  rewrite Hi, Hwire, <- app_assoc in Hi1. apply app_inj_1 in Hi1 as [<- Hi1]; [|by rewrite frame_prefix_length].
  rewrite <- (app_nil_r (frame_prefix _ _)), ControlFrameSize_prefix, prefix_operation_frame in H by done. rewrite Z.eqb_refl in H. cbn [negb] in H.
  case_check; [bool_to_prop; lia|].
  destruct (Transfer _ _ _ _ _ (repeat _ _) _ _) as [[[code2 body'] c2]|] eqn:Ht2; [|done].
  pose proof (Transfer_code _ _ _ _ _ _ _ _ _ _ _ Ht2) as Hc2.
  apply Transfer_recv in Ht2 as (_ & data & Hi2 & _ & Hd2); [|lia]. rewrite repeat_length in Hd2.
  case_check. { bool_to_prop. injection H as <- <-. right. destruct Hc2; [done|eauto]. }
  bool_to_prop. destruct (Hd2 ltac:(done)) as [-> Hl2]. change (take 0 ?l ++ data) with data in H. apply (inj Some), pair_equal_spec in H as [<- <-].
  rewrite <- Hi1 in Hi2. apply app_inj_1 in Hi2 as [<- <-]; [|unfold vsize, CONTROL_PREFIX_SIZE in *; lia].
  left. split; [|done]. rewrite app_nil_r, <- Hwire. by apply decode_frame_wire.
Qed.

Lemma connect_result_conn env fuel ce cancelable deadline c code c' :
  connect_result env fuel ce cancelable deadline c = Some (code, c') -> cn_incoming c' = cn_incoming c /\ cn_sent c' = cn_sent c.
Proof.
  unfold connect_result. intros K. destruct (ce_connect ce); [|by simplify_eq]. case_check; [by simplify_eq|].
  destruct (Wait _ _ _ _ _) as [[code2 c2]|] eqn:Hw; [|done]. apply Wait_conn in Hw as (? & ? & _).
  case_check; [by simplify_eq|]. destruct (ce_getsockopt ce); by simplify_eq.
Qed.

Lemma ReceiveFrame_error env fuel expected cancelable deadline c out c' :
  ReceiveFrame env fuel expected cancelable deadline c = Some (out, c') -> forall e, out = Err e -> e <> 0.
Proof.
  unfold ReceiveFrame. intros H e ->. destruct (Transfer _ _ _ _ _ _ _ _) as [[[code1 bs] c1]|]; [|done].
  case_check; [bool_to_prop; congruence|]. destruct (ControlFrameSize (Some bs)) as [size|e1] eqn:Hs.
  2:{ injection H as -> <-. apply ControlFrameSize_error in Hs. lia. }
  do 2 (case_check; [by simplify_eq|]). destruct (Transfer _ _ _ _ _ _ _ _) as [[[code2 body] c2]|]; [|done].
  case_check; [bool_to_prop; congruence|]. apply (inj Some), pair_equal_spec in H as [Hd _]. apply DecodeControlFrame_error in Hd. lia.
Qed.

(** A greeting that succeeds: our HELLO went out in full, and theirs was read. *)
Lemma ConnectHello_greeting env fuel ce hello cancelable deadline c g c' :
  ConnectHello env fuel ce hello cancelable deadline c = Some (Ok g, c') -> bytes (cn_incoming c) ->
  ValidFrame hello = true /\ cn_sent c' = cn_sent c ++ frame_wire hello /\ cn_incoming c = frame_wire g ++ cn_incoming c' /\
  wf_frame g /\ ValidFrame g = true /\ cf_operation g = ControlMessage.HELLO.
Proof.
  unfold ConnectHello. intros H Hb. destruct (ce_socket ce); [done|]. case_check; [done|]. destruct (ce_bind ce); [done|]. do 2 (case_check; [done|]).
  destruct (connect_result _ _ _ _ _ _) as [[code1 c1]|] eqn:Hc; [|done]. apply connect_result_conn in Hc as [Hi1 Hs1]. case_check; [done|].
  destruct (SendFrame _ _ _ _ _ _) as [[code2 c2]|] eqn:Hsend; [|done]. case_check; [done|]. bool_to_prop.
  apply SendFrame_sent in Hsend as [Hi2 [(bs & pre & post & He & -> & Hs2 & Hdone)|(_ & -> & _)]]; [|done].
  rewrite (Hdone ltac:(done)), app_nil_r in He. unfold EncodeControlFrame in He. case_check; [done|]. injection He as <-. bool_to_prop.
  apply ReceiveFrame_received in H as (Hs3 & data & Hd & _ & Hok); [|by rewrite Hi2, Hi1].
  destruct (Hok g eq_refl) as (-> & Hw & Hv & Hop & _). rewrite Hs3, Hs2, Hs1. rewrite <- Hi1, <- Hi2. by split_and!.
Qed.

(** A control exchange is exact: when [SendFrame] succeeds the peer has been given
    exactly the frame's bytes after what was sent before, and a failed one has given it
    only a beginning of them; a [ReceiveFrame] at the other end returns only a frame that
    was sent, with the operation the caller expected and within its size limit, leaving
    the following bytes unread; and when the expected frame is what was sent, it returns
    that frame or fails for a reason of the connection (cancellation, deadline, reset,
    kernel error), never because of its contents. *)
Theorem control_exchange_exact env env' fuel fuel' f expected cancelable cancelable' deadline deadline' c c' code d out d' later :
  wf_frame f -> SendFrame env fuel f cancelable deadline c = Some (code, c') ->
  cn_sent c = [] -> bytes later -> cn_incoming d = cn_sent c' ++ later ->
  ReceiveFrame env' fuel' expected cancelable' deadline' d = Some (out, d') ->
  (exists unsent, ValidFrame f = true -> frame_wire f = cn_sent c' ++ unsent) /\
  (code = 0 -> ValidFrame f = true /\ cn_sent c' = frame_wire f /\
     (forall g, out = Ok g -> g = f /\ expected = cf_operation f /\ frame_size f <= frame_limit expected /\ cn_incoming d' = later) /\
     (expected = cf_operation f -> frame_size f <= frame_limit expected ->
      (out = Ok f /\ cn_incoming d' = later) \/ exists e, out = Err e /\ io_error env' e)).
Proof.
  intros Hw Hs Hc Hb Hi Hr. apply SendFrame_sent in Hs as [_ [(bs & pre & post & He & -> & Hsent & Hdone)|(Hv & -> & ->)]].
  2:{ split; [|done]. exists []. by rewrite Hv. }
  rewrite Hc in Hsent. cbn [app] in Hsent. unfold EncodeControlFrame in He. case_check; [done|]. injection He as He. bool_to_prop.
  split; [exists post; intros _; by rewrite Hsent|]. intros Hcode. rewrite (Hdone Hcode), app_nil_r in He. subst pre.
  rewrite Hsent in *. split_and!; auto.
  - intros g ->. apply ReceiveFrame_received in Hr as (_ & data & Hd & _ & Hok).
    2:{ rewrite Hi. apply bytes_app. split; [by apply frame_wire_bytes|done]. }
    destruct (Hok g eq_refl) as (-> & Hwg & Hvg & Hop & Hlim). rewrite Hi in Hd. apply frame_wire_inj in Hd as [<- Hd]; auto.
    rewrite frame_wire_vsize in Hlim by done. by split_and!.
  - intros -> Hlim. by eapply ReceiveFrame_complete.
Qed.

(** No call waits past its deadline: once the clock readings are past it, [Wait],
    [SendFrame] and [ReceiveFrame] return after at most one more reading, whatever the
    kernel answers; the loops need no more iterations than there were readings before. *)
Theorem control_io_deadline env deadline N :
  (forall n, (N <= n)%nat -> deadline <= an_now (env n)) ->
  forall fuel cancelable c, (N - cn_tick c < fuel)%nat ->
  is_Some (Wait env fuel cancelable deadline c) /\
  (forall f, is_Some (SendFrame env fuel f cancelable deadline c)) /\
  (forall expected, is_Some (ReceiveFrame env fuel expected cancelable deadline c)).
Proof.
  intros Hclock fuel cancelable c Hf. split_and!; [by eapply Wait_returns|intros f|intros expected].
  - unfold SendFrame. destruct (EncodeControlFrame f) as [bs|]; [|eauto].
    destruct (Transfer_returns env deadline N Hclock fuel true cancelable bs 0 c Hf) as [[[code bs'] c'] ->]. eauto.
  - unfold ReceiveFrame.
    destruct (Transfer_returns env deadline N Hclock fuel false cancelable (repeat 0 (Z.to_nat CONTROL_PREFIX_SIZE)) 0 c Hf) as [[[code bs] c1] Ht].
    rewrite Ht. case_check; [eauto|]. destruct (ControlFrameSize _); [|eauto]. do 2 (case_check; [eauto|]).
    destruct (Transfer_returns env deadline N Hclock fuel false cancelable (repeat 0 (Z.to_nat (a - CONTROL_PREFIX_SIZE))) 0 c1) as [[[code2 bs2] c2] ->].
    { apply Transfer_ticks in Ht. lia. }
    case_check; eauto.
Qed.

(** ** Concrete exchanges *)
Definition greeting_host : HostIdentity := repeat 7 16.
Definition sample_source : RemoteRuntimeIdentity := {| rt_host := greeting_host; rt_boot_id := greeting_host; rt_pid := 42; rt_process_start_ticks := 9 |}.
Definition sample_hello (session : Z) : ControlFrame :=
  {| cf_operation := ControlMessage.HELLO; cf_source := sample_source; cf_session_id := session; cf_request_id := 0;
     cf_endpoint := no_endpoint; cf_target := TargetScope.ENDPOINT; cf_name := []; cf_type := no_type; cf_response_type := no_type;
     cf_feedback_type := no_type; cf_goal := no_goal; cf_action_state := 0; cf_outcome_unknown := false; cf_feedback_sequence := 0;
     cf_timeout_ms := 0; cf_status := 0; cf_reason := 0; cf_payload := []; cf_descriptor_role := 0 |}.

Definition byte_list (l : list Z) : bool := forallb (fun b => (0 <=? b) && (b <=? 255)) l.
Lemma byte_list_bytes l : byte_list l = true -> bytes l.
Proof.
  intros H. apply Forall_forall. intros b Hb. unfold byte_list in H. rewrite forallb_forall in H. apply list_elem_of_In in Hb.
  specialize (H b Hb). bool_to_prop. unfold_widths. lia.
Qed.

(** A frame that its own encoding decodes to is well formed and valid. *)
Lemma frame_check f : byte_list (frame_wire f) = true -> DecodeControlFrame (Some (frame_wire f)) = Ok f -> wf_frame f /\ ValidFrame f = true.
Proof. intros Hb H. by destruct (DecodeControlFrame_inv _ f (byte_list_bytes _ Hb) H) as (? & ? & _). Qed.

(** A kernel that moves one byte per call, and a clock that passes 5 at its tenth reading. *)
Definition byte_env : nat -> Answer := fun _ => {| an_canceled := false; an_now := 0; an_poll := PollNothing; an_io := IoData 0 |}.
Definition slow_env : nat -> Answer := fun n => {| an_canceled := false; an_now := Z.of_nat (n / 2); an_poll := PollNothing; an_io := IoErrno 11 |}.

(** The witness: two greetings, one byte at a time. *)
Lemma control_stream_exact_witness :
  exists c', read_calls byte_env 2 (Z.to_nat (MAX_CONTROL_FRAME + 1)) new_reader
      {| cn_tick := 0; cn_incoming := flat_map frame_wire [sample_hello 1; sample_hello 2]; cn_sent := [] |} =
    Some ([sample_hello 1; sample_hello 2], 0, new_reader, c') /\ cn_incoming c' = [].
Proof.
  assert (Hvalid : valid_frames [sample_hello 1; sample_hello 2]).
  { constructor; [apply frame_check; vm_compute; reflexivity|]. constructor; [apply frame_check; vm_compute; reflexivity|constructor]. }
  destruct (control_stream_exact byte_env [sample_hello 1; sample_hello 2] Hvalid) as [_ Hlive].
  apply Hlive; [intros k; by exists 0%nat|reflexivity|apply Z2Nat.inj_lt; vm_compute; done || discriminate].
Defined.

(** The witness: a greeting sent and received one byte at a time. *)
Lemma control_exchange_exact_witness :
  exists c' d', SendFrame byte_env 200 (sample_hello 1) false 5 {| cn_tick := 0; cn_incoming := []; cn_sent := [] |} = Some (0, c') /\
    ReceiveFrame byte_env 200 ControlMessage.HELLO false 5 {| cn_tick := 0; cn_incoming := cn_sent c' ++ []; cn_sent := [] |} =
      Some (Ok (sample_hello 1), d') /\ cn_incoming d' = [].
Proof.
  destruct (SendFrame byte_env 200 (sample_hello 1) false 5 {| cn_tick := 0; cn_incoming := []; cn_sent := [] |}) as [[code c']|] eqn:Hs;
    [|vm_compute in Hs; discriminate Hs].
  set (d := {| cn_tick := 0; cn_incoming := cn_sent c' ++ []; cn_sent := [] |}).
  assert (Hcode : code = 0) by (vm_compute in Hs; injection Hs as <- _; reflexivity).
  destruct (ReceiveFrame byte_env 200 ControlMessage.HELLO false 5 d) as [[out d']|] eqn:Hr.
  2:{ exfalso. vm_compute in Hs. injection Hs as _ <-. vm_compute in Hr. discriminate Hr. }
  destruct (frame_check (sample_hello 1)) as [Hw _]; [vm_compute; reflexivity|vm_compute; reflexivity|].
  destruct (control_exchange_exact byte_env byte_env 200 200 (sample_hello 1) ControlMessage.HELLO false false 5 5 _ c' code d out d' [] Hw Hs
    eq_refl (Forall_nil_2 _) eq_refl Hr) as [_ Hx].
  destruct (Hx Hcode) as (_ & _ & _ & Hout). destruct (Hout eq_refl) as [[Ho Hi]|(e & Ho & _)]; [vm_compute; discriminate| |].
  - exists c', d'. rewrite Ho in Hr. split; [rewrite Hcode; reflexivity|]. split; [exact Hr|exact Hi].
  - exfalso. rewrite Ho in Hr. vm_compute in Hs. injection Hs as _ <-. vm_compute in Hr. discriminate Hr.
Defined.

(** The witness: a peer that never becomes ready. *)
Lemma control_io_deadline_witness :
  is_Some (ReceiveFrame slow_env 11 ControlMessage.HELLO false 5 {| cn_tick := 0; cn_incoming := []; cn_sent := [] |}).
Proof.
  apply (control_io_deadline slow_env 5 10); [|cbn; lia].
  intros n Hn. unfold slow_env. cbn [an_now]. assert (5 <= n / 2)%nat by (apply Nat.div_le_lower_bound; lia). lia.
Defined.
