(* ===== verification/RemoteControl.v ===== *)
(** * The remote control client: one request

    [RemoteControlClient] of [kcf/src/network/remote_control_client.cpp]: Parameter get
    and set, Service call and descriptor query, each one connection, one request and one
    response, under the identity of the gateway that discovery selected.

    The connection is the one of [ControlStream]; discovery is read three times, before
    connecting, before sending and after the response, and each reading is a [View] of its
    own.  Times are nanoseconds.  Allocation failure ([std::bad_alloc]) is not modelled. *)
From S2P Require Import Prelude Wire NetTypes NetWire Compatibility DiscoveryProtocol TypeDescriptor NetworkDiagnostics ControlFrame ControlStream PeerDiscovery.

(** What one reading of the client's flags and of discovery gives. *)
Record View := {
  vw_canceled : bool;          (** [canceled_||generation_!=generation] *)
  vw_session : Z;              (** [discovery_.GetSessionId()] *)
  vw_error : Z;                (** [discovery_.GetLastError()] *)
  vw_peers : list PeerInfo     (** [discovery_.GetPeers()] *)
}.

(** The counter of request ids; [previous] is its value when the exchange succeeds. *)
Definition NextRequest (previous : Z) : result Z :=
  if previous =? UINT64_MAX then Err (- EOVERFLOW) else Ok (previous + 1).

(** ** The selected gateway *)
Definition usable_address (address : list Z) : bool :=
  match inet_pton address with
  | None => false
  | Some ip => negb (ip =? 0) && negb (ip =? INADDR_BROADCAST) && negb (IN_MULTICAST ip)
  end.
Definition Peer (config : DiscoveryConfig) (v : View) (host : HostIdentity) (capability : Z) : result PeerInfo :=
  if negb (vw_error v =? 0) then Err (vw_error v)
  else match List.find (fun p => pi_host p =?? host) (vw_peers v) with
  | None => Err (- ENOENT)
  | Some p =>
      if negb (pi_state p =?? ONLINE) then Err (- ENOTCONN)
      else if negb (Compatible (CheckPeerCompatibility (dc_profile config) (pi_profile p) (dc_compatibility_policy config)))
      then Err (- EPROTONOSUPPORT)
      else if Z.land (pf_capabilities (pi_profile p)) capability =? 0 then Err (- ENOTSUP)
      else if negb (ValidHost (pi_host p)) || negb (ValidHost (pi_boot_id p)) || (pi_session_id p =? 0) || (pi_port p =? 0) ||
              negb (usable_address (pi_address p)) then Err (- EPROTO)
      else Ok p
  end.
Definition Identity (f : ControlFrame) (p : PeerInfo) : bool :=
  (rt_host (cf_source f) =?? pi_host p) && (rt_boot_id (cf_source f) =?? pi_boot_id p) && (cf_session_id f =? pi_session_id p).

(** ** Requests *)
(** The arguments of [ControlRequest]; null pointers are [None]. *)
Record Request := {
  ra_endpoint : RemoteEndpointIdentity;
  ra_session : Z;
  ra_name : list Z;
  ra_type : TypeIdentity;
  ra_timeout : Z;
  ra_payload : option (list Z);
  ra_response_type : option TypeIdentity;
  ra_role : Z
}.
Definition is_descriptor (a : Request) : bool := negb (ra_role a =? DescriptorRole.NONE).
Definition is_service (a : Request) : bool := match ra_response_type a with Some _ => true | None => false end.
Definition is_write (a : Request) : bool := match ra_payload a with Some _ => true | None => false end.
Definition request_capability (a : Request) : Z :=
  if is_descriptor a then Capability.TYPE_DESCRIPTOR_QUERY
  else if is_service a then Capability.REMOTE_SERVICE else Capability.REMOTE_PARAMETER.

(** The checks before anything is done. *)
Definition check_arguments (config : DiscoveryConfig) (a : Request) : Z :=
  if match ra_response_type a with Some t => negb (ValidType t) || (MAX_PARAMETER_WIRE <? ty_payload_size t) | None => false end
  then - EINVAL
  else if match ra_payload a with
          | Some p => negb (vsize p =? ty_payload_size (ra_type a)) || (MAX_PARAMETER_WIRE <? vsize p)
          | None => false
          end then - EMSGSIZE
  else if (ra_timeout a <? 1) || (60000 <? ra_timeout a) || negb (ValidEndpoint (ra_endpoint a)) || (ra_session a =? 0) ||
          (rt_host (ep_runtime (ra_endpoint a)) =?? dc_host config) || negb (Text (ra_name a) 240) ||
          negb (first_char (ra_name a) =? SLASH) || negb (ValidType (ra_type a)) || (MAX_PARAMETER_WIRE <? ty_payload_size (ra_type a))
  then - EINVAL
  else 0.

(** [selected]: whether the peer still advertises what is asked for. *)
Definition selected_endpoint (a : Request) (e : NetworkEndpointMetadata) : Z :=
  if is_descriptor a then
    if negb (md_name e =?? ra_name a) then - ENOENT
    else if negb (md_scope e =? NetworkScope.REMOTE) then - EACCES
    else match DescriptorType e (ra_role a) with
         | Err error => error
         | Ok t => if t =?? ra_type a then 0 else - EPROTOTYPE
         end
  else if negb (md_kind e =? (if is_service a then EndpointKind.SERVICE else EndpointKind.PARAMETER)) ||
          negb (md_role e =? EndpointRole.PROVIDER) || negb (md_name e =?? ra_name a) then - ENOENT
  else if negb (md_scope e =? NetworkScope.REMOTE) then - EACCES
  else if match ra_response_type a with
          | Some t => negb (md_request_type e =?? ra_type a) || negb (md_response_type e =?? t)
          | None => negb (md_value_type e =?? ra_type a)
          end then - EPROTOTYPE
  else 0.
Definition selected (a : Request) (p : PeerInfo) : Z :=
  if negb (pi_boot_id p =?? rt_boot_id (ep_runtime (ra_endpoint a))) || negb (pi_session_id p =? ra_session a) then - ESTALE
  else if negb (pi_metadata_ready p) then - EAGAIN
  else match List.find (fun e => md_identity e =?? ra_endpoint a) (pi_endpoints p) with
  | None => - ENOENT
  | Some e => selected_endpoint a e
  end.

(** [request_fresh]: nothing the request relies on has changed. *)
Definition request_fresh (config : DiscoveryConfig) (a : Request) (session : Z) (peer : PeerInfo) (v : View) : Z :=
  if vw_canceled v then - ECANCELED
  else if negb (vw_session v =? session) then - ESTALE
  else match Peer config v (rt_host (ep_runtime (ra_endpoint a))) (request_capability a) with
  | Err error => error
  | Ok current =>
      let error := selected a current in
      if negb (error =? 0) then error
      else if (pi_boot_id current =?? pi_boot_id peer) && (pi_session_id current =? pi_session_id peer) &&
              (pi_address current =?? pi_address peer) && (pi_port current =? pi_port peer) then 0 else - ESTALE
  end.

(** ** The frames *)
Definition hello_frame (config : DiscoveryConfig) (pid ticks session : Z) : ControlFrame :=
  {| cf_operation := ControlMessage.HELLO;
     cf_source := {| rt_host := dc_host config; rt_boot_id := dc_boot_id config; rt_pid := pid; rt_process_start_ticks := ticks |};
     cf_session_id := session; cf_request_id := 0; cf_endpoint := no_endpoint; cf_target := TargetScope.ENDPOINT; cf_name := [];
     cf_type := no_type; cf_response_type := no_type; cf_feedback_type := no_type; cf_goal := no_goal; cf_action_state := WireActionState.IDLE;
     cf_outcome_unknown := false; cf_feedback_sequence := 0; cf_timeout_ms := 0; cf_status := 0; cf_reason := CompatibilityReason.COMPATIBLE;
     cf_payload := []; cf_descriptor_role := DescriptorRole.NONE |}.
Definition request_operation (a : Request) : Z :=
  if is_descriptor a then ControlMessage.DESCRIPTOR_REQUEST
  else if is_service a then ControlMessage.SERVICE_REQUEST
  else if is_write a then ControlMessage.PARAM_SET_REQUEST else ControlMessage.PARAM_GET_REQUEST.
Definition response_operation (a : Request) : Z :=
  if is_descriptor a then ControlMessage.DESCRIPTOR_RESPONSE
  else if is_service a then ControlMessage.SERVICE_RESPONSE
  else if is_write a then ControlMessage.PARAM_SET_RESPONSE else ControlMessage.PARAM_GET_RESPONSE.
Definition request_frame (hello : ControlFrame) (a : Request) (timeout_ms id : Z) : ControlFrame :=
  {| cf_operation := request_operation a; cf_source := cf_source hello; cf_session_id := cf_session_id hello; cf_request_id := id;
     cf_endpoint := ra_endpoint a; cf_target := TargetScope.ENDPOINT; cf_name := ra_name a; cf_type := ra_type a;
     cf_response_type := default (cf_response_type hello) (ra_response_type a); cf_feedback_type := cf_feedback_type hello; cf_goal := cf_goal hello;
     cf_action_state := cf_action_state hello; cf_outcome_unknown := cf_outcome_unknown hello;
     cf_feedback_sequence := cf_feedback_sequence hello; cf_timeout_ms := timeout_ms; cf_status := cf_status hello;
     cf_reason := cf_reason hello; cf_payload := default (cf_payload hello) (ra_payload a); cf_descriptor_role := ra_role a |}.

(** The response belongs to the request. *)
Definition correlated (a : Request) (id : Z) (r : ControlFrame) : bool :=
  (cf_descriptor_role r =? ra_role a) && (cf_request_id r =? id) && (cf_endpoint r =?? ra_endpoint a) && (cf_name r =?? ra_name a) &&
  (cf_type r =?? ra_type a) && match ra_response_type a with Some t => cf_response_type r =?? t | None => true end &&
  (cf_target r =? TargetScope.ENDPOINT).

(** ** One request *)
(** What surrounds the request: the flags and clock readings in order of use. *)
Record CallEnv := {
  ca_running : bool;                      (** [running_] at the start *)
  ca_start : Z;                           (** the clock that sets the deadline *)
  ca_tries : list (bool * bool * Z);      (** per try of the lock: taken; stopped; the clock *)
  ca_stopped : bool;                      (** [!running_||generation_!=generation] with the lock *)
  ca_before : View;
  ca_pid : Z;
  ca_ticks : option Z;                    (** [ReadProcessIdentity] *)
  ca_connect : ConnectEnv;
  ca_greeted : View;
  ca_request_now : Z;
  ca_previous : Z;                        (** [next_request] *)
  ca_answered : View;
  ca_checked_now : Z;
  ca_final_now : Z
}.
(** [try_lock_for] until taken; [None]: still waiting. *)
Fixpoint take_lock (tries : list (bool * bool * Z)) (deadline : Z) : option Z :=
  match tries with
  | [] => None
  | (taken, stopped, now) :: rest =>
      if taken then Some 0
      else if (stopped : bool) then Some (- ECANCELED)
      else if deadline <=? now then Some (- ETIMEDOUT)
      else take_lock rest deadline
  end.

(** [value] is [None] while the caller's output is unchanged. *)
Record Outcome := { oc_error : Z; oc_value : option (list Z); oc_unknown : bool; oc_received : bool }.
Definition returns (unknown received : bool) (error : Z) : Outcome :=
  {| oc_error := error; oc_value := None; oc_unknown := unknown; oc_received := received |}.

Section Request.
Context (env : nat -> Answer) (config : DiscoveryConfig).

(** From the accepted response on. *)
Definition conclude (a : Request) (ca : CallEnv) (deadline : Z) (r : ControlFrame) : Outcome :=
  let unknown := is_write a in
  if deadline <=? ca_checked_now ca then returns unknown false (- ETIMEDOUT)
  else match ra_payload a with
  | Some _ =>
      let unknown := negb ((cf_status r =? 0) || (cf_status r =? - EACCES)) in
      match ra_response_type a with
      | Some t =>
          if cf_status r =? 0 then
            if negb (vsize (cf_payload r) =? ty_payload_size t) then returns true true (- EMSGSIZE)
            else {| oc_error := 0; oc_value := Some (cf_payload r); oc_unknown := unknown; oc_received := true |}
          else returns unknown true (cf_status r)
      | None => returns unknown true (cf_status r)
      end
  | None =>
      if negb (cf_status r =? 0) then returns false false (cf_status r)
      else if negb (is_descriptor a) && negb (vsize (cf_payload r) =? ty_payload_size (ra_type a)) then returns false false (- EMSGSIZE)
      else if deadline <=? ca_final_now ca then returns false false (- ETIMEDOUT)
      else {| oc_error := 0; oc_value := Some (cf_payload r); oc_unknown := false; oc_received := false |}
  end.

(** From the request that is ready to be sent on. *)
Definition transact (fuel : nat) (a : Request) (ca : CallEnv) (session deadline : Z) (peer : PeerInfo) (greeting request : ControlFrame)
    (c : Conn) : option (Outcome * Conn) :=
  match (if is_write a then EncodeControlFrame request else Ok []) with
  | Err code => Some (returns false false code, c)
  | Ok _ =>
      let unknown := is_write a in
      match SendFrame env fuel request true deadline c with
      | None => None
      | Some (code, c) =>
          if negb (code =? 0) then Some (returns unknown false code, c)
          else match ReceiveFrame env fuel (response_operation a) true deadline c with
          | None => None
          | Some (Err code, c) => Some (returns unknown false code, c)
          | Some (Ok r, c) =>
              Some (if negb (correlated a (cf_request_id request) r) then returns unknown false (- EPROTO)
                    else if negb (Identity r peer) || negb (cf_source r =?? cf_source greeting) then returns unknown false (- ESTALE)
                    else let code := request_fresh config a session peer (ca_answered ca) in
                    if negb (code =? 0) then returns unknown false code else conclude a ca deadline r, c)
          end
      end
  end.

Definition ControlRequest (fuel : nat) (a : Request) (ca : CallEnv) (c : Conn) : option (Outcome * Conn) :=
  let fail := fun error => Some (returns false false error, c) in
  let code := check_arguments config a in
  if negb (code =? 0) then fail code
  else if negb (ca_running ca) then fail (- ENOTCONN)
  else
    let deadline := ca_start ca + ra_timeout a * millisecond in
    match take_lock (ca_tries ca) deadline with
    | None => None
    | Some code =>
        if negb (code =? 0) then fail code
        else if ca_stopped ca then fail (- ECANCELED)
        else
          let session := vw_session (ca_before ca) in
          if session =? 0 then fail (- ENOTCONN)
          else match Peer config (ca_before ca) (rt_host (ep_runtime (ra_endpoint a))) (request_capability a) with
          | Err code => fail code
          | Ok peer =>
              let code := selected a peer in
              if negb (code =? 0) then fail code
              else match ca_ticks ca with
              | None => fail (- ESRCH)
              | Some ticks =>
                  let hello := hello_frame config (ca_pid ca) ticks session in
                  match ConnectHello env fuel (ca_connect ca) hello true deadline c with
                  | None => None
                  | Some (Err code, c) => Some (returns false false code, c)
                  | Some (Ok greeting, c) =>
                      if negb (Identity greeting peer) then Some (returns false false (- ESTALE), c)
                      else let code := request_fresh config a session peer (ca_greeted ca) in
                      if negb (code =? 0) then Some (returns false false code, c)
                      else
                        let remaining := Z.quot (deadline - ca_request_now ca) millisecond in
                        if remaining <? 1 then Some (returns false false (- ETIMEDOUT), c)
                        else match NextRequest (ca_previous ca) with
                        | Err code => Some (returns false false code, c)
                        | Ok id => transact fuel a ca session deadline peer greeting (request_frame hello a (u32 remaining) id) c
                        end
                  end
              end
          end
    end.

(** ** The public calls *)
Definition read_request (endpoint : RemoteEndpointIdentity) (session : Z) (name : list Z) (type : TypeIdentity) (timeout role : Z) : Request :=
  {| ra_endpoint := endpoint; ra_session := session; ra_name := name; ra_type := type; ra_timeout := timeout;
     ra_payload := None; ra_response_type := None; ra_role := role |}.
Definition write_request (endpoint : RemoteEndpointIdentity) (session : Z) (name : list Z) (type : TypeIdentity) (timeout : Z)
    (payload : list Z) (response : option TypeIdentity) : Request :=
  {| ra_endpoint := endpoint; ra_session := session; ra_name := name; ra_type := type; ra_timeout := timeout;
     ra_payload := Some payload; ra_response_type := response; ra_role := DescriptorRole.NONE |}.

Definition GetParameter (fuel : nat) (ca : CallEnv) (c : Conn) endpoint session name type timeout : option (Outcome * Conn) :=
  ControlRequest fuel (read_request endpoint session name type timeout DescriptorRole.NONE) ca c.
Definition SetParameter (fuel : nat) (ca : CallEnv) (c : Conn) endpoint session name type timeout payload : option (Outcome * Conn) :=
  ControlRequest fuel (write_request endpoint session name type timeout payload None) ca c.
Definition CallService (fuel : nat) (ca : CallEnv) (c : Conn) endpoint session name type timeout payload response : option (Outcome * Conn) :=
  ControlRequest fuel (write_request endpoint session name type timeout payload (Some response)) ca c.
Definition QueryTypeDescriptor (fuel : nat) (ca : CallEnv) (c : Conn) endpoint session name role type timeout :
    option (result TypeDescriptor * Conn) :=
  if (role <? DescriptorRole.VALUE) || (DescriptorRole.FEEDBACK <? role) then Some (Err (- EINVAL), c)
  else match ControlRequest fuel (read_request endpoint session name type timeout role) ca c with
  | None => None
  | Some (o, c) => Some (if negb (oc_error o =? 0) then Err (oc_error o) else DecodeTypeDescriptor (default [] (oc_value o)) type, c)
  end.
End Request.

(** ** What was sent and received *)
Lemma ConnectHello_any env fuel ce hello cancelable deadline c out c' :
  ConnectHello env fuel ce hello cancelable deadline c = Some (out, c') -> bytes (cn_incoming c) ->
  (exists pre, pre `prefix_of` frame_wire hello /\ cn_sent c' = cn_sent c ++ pre) /\ (forall e, out = Err e -> e <> 0) /\
  (exists data, cn_incoming c = data ++ cn_incoming c').
Proof.
  unfold ConnectHello. intros H Hb.
  assert (Hstop : forall e c1, e <> 0 -> cn_sent c1 = cn_sent c -> cn_incoming c1 = cn_incoming c -> Some (Err e, c1) = Some (out, c') ->
    (exists pre, pre `prefix_of` frame_wire hello /\ cn_sent c' = cn_sent c ++ pre) /\ (forall e, out = Err e -> e <> 0) /\
    (exists data, cn_incoming c = data ++ cn_incoming c')).
  { intros e c1 He Hs1 Hi1 K. injection K as <- <-. split_and!; [exists []; rewrite app_nil_r; split; [apply prefix_nil|done]|congruence|].
    exists []. by rewrite Hi1. }
  destruct (ce_socket ce); [by apply (Hstop _ c) in H|]. case_check; [by apply (Hstop _ c) in H|].
  destruct (ce_bind ce); [by apply (Hstop _ c) in H|]. do 2 (case_check; [by apply (Hstop _ c) in H|]).
  destruct (connect_result _ _ _ _ _ _) as [[code1 c1]|] eqn:Hc; [|done]. apply connect_result_conn in Hc as [Hi1 Hs1].
  case_check; [bool_to_prop; by apply (Hstop _ c1) in H|].
  destruct (SendFrame _ _ _ _ _ _) as [[code2 c2]|] eqn:Hsend; [|done].
  apply SendFrame_sent in Hsend as [Hi2 [(bs & pre & post & He & -> & Hs2 & _)|(_ & -> & ->)]].
  2:{ cbn in H. by apply (Hstop _ c1) in H. }
  unfold EncodeControlFrame in He. destruct (ValidFrame hello); [|done]. injection He as He. rewrite Hs1 in Hs2.
  assert (Hpre : exists pre, pre `prefix_of` frame_wire hello /\ cn_sent c2 = cn_sent c ++ pre) by (exists pre; split; [rewrite He; by eexists|done]).
  case_check.
  { bool_to_prop. injection H as <- <-. split_and!; [done|congruence|]. exists []. by rewrite Hi2, Hi1. }
  assert (Hne := ReceiveFrame_error _ _ _ _ _ _ _ _ H). apply ReceiveFrame_received in H as (Hs3 & data & Hd & _); [|by rewrite Hi2, Hi1].
  rewrite Hs3. split_and!; [done|done|]. exists data. by rewrite <- Hd, Hi2, Hi1.
Qed.

Lemma Peer_inv config v host capability p : Peer config v host capability = Ok p -> pi_host p = host /\ p ∈ vw_peers v /\ pi_state p = ONLINE.
Proof.
  unfold Peer. intros H. case_check; [done|]. destruct (List.find _ _) as [q|] eqn:E; [|done]. apply find_some in E as [Hin Eq].
  repeat (case_check; [done|]). simplify_eq. bool_to_prop. split_and!; auto. by apply list_elem_of_In.
Qed.

Lemma Peer_error config v host capability e : Peer config v host capability = Err e -> e <> 0.
Proof. unfold Peer. intros H. case_check; [bool_to_prop; congruence|]. destruct (List.find _ _); repeat case_check; by simplify_eq. Qed.

Lemma selected_inv a p : selected a p = 0 -> pi_boot_id p = rt_boot_id (ep_runtime (ra_endpoint a)) /\ pi_session_id p = ra_session a.
Proof. unfold selected. intros H. case_check; [done|]. by bool_to_prop. Qed.

(** The response comes from the process that greeted, under the identity asked for. *)
Definition answers (a : Request) (id : Z) (greeting r : ControlFrame) : Prop :=
  wf_frame r /\ ValidFrame r = true /\ cf_operation r = response_operation a /\ cf_request_id r = id /\ cf_endpoint r = ra_endpoint a /\
  cf_name r = ra_name a /\ cf_type r = ra_type a /\ cf_descriptor_role r = ra_role a /\
  (forall t, ra_response_type a = Some t -> cf_response_type r = t) /\ cf_source r = cf_source greeting /\
  rt_host (cf_source r) = rt_host (ep_runtime (ra_endpoint a)) /\ rt_boot_id (cf_source r) = rt_boot_id (ep_runtime (ra_endpoint a)) /\
  cf_session_id r = ra_session a.

(** What [conclude] returns, given the response. *)
Lemma conclude_spec a ca deadline r :
  let o := conclude a ca deadline r in
  (oc_error o = 0 -> cf_status r = 0 /\ oc_unknown o = false /\ (forall v, oc_value o = Some v -> v = cf_payload r) /\
     (is_write a = false -> oc_value o = Some (cf_payload r) /\ (is_descriptor a = false -> vsize (cf_payload r) = ty_payload_size (ra_type a))) /\
     (forall t, is_write a = true -> ra_response_type a = Some t -> oc_value o = Some (cf_payload r) /\ vsize (cf_payload r) = ty_payload_size t)) /\
  (oc_error o <> 0 -> oc_value o = None) /\
  (is_write a = true -> oc_unknown o = false -> oc_error o <> 0 -> cf_status r = - EACCES /\ oc_received o = true /\ oc_error o = - EACCES).
Proof.
  unfold conclude, is_write. cbn zeta. destruct (ra_payload a) as [payload|].
  - case_check; [cbn; split_and!; done|]. destruct (ra_response_type a) as [t|].
    + destruct (Z.eqb_spec (cf_status r) 0) as [E|E].
      * destruct (Z.eqb_spec (vsize (cf_payload r)) (ty_payload_size t)); cbn [negb]; [|cbn; split_and!; done].
        cbn. split_and!; try done. intros _. split_and!; try done; intros; by simplify_eq.
      * cbn. split_and!; [done|done|]. destruct (Z.eqb_spec (cf_status r) (- EACCES)); cbn; done.
    + cbn. split_and!.
      * intros E. rewrite E. cbn. by split_and!.
      * done.
      * destruct (Z.eqb_spec (cf_status r) 0); [done|]. destruct (Z.eqb_spec (cf_status r) (- EACCES)); cbn; done.
  - repeat case_check; cbn; split_and!; try done; bool_to_prop; try done. intros _. split_and!; try done; [by intros ? [= <-]|].
    intros _. split; [done|]. intros Hd. rewrite Hd in *. cbn [negb andb] in *. by bool_to_prop.
Qed.

(** What a successful call means. *)
Definition succeeded (a : Request) (o : Outcome) (r : ControlFrame) : Prop :=
  cf_status r = 0 /\ oc_unknown o = false /\ (forall v, oc_value o = Some v -> v = cf_payload r) /\
  (is_write a = false -> oc_value o = Some (cf_payload r) /\ (is_descriptor a = false -> vsize (cf_payload r) = ty_payload_size (ra_type a))) /\
  (forall t, is_write a = true -> ra_response_type a = Some t -> oc_value o = Some (cf_payload r) /\ vsize (cf_payload r) = ty_payload_size t).

(** A write that the gateway refused. *)
Definition refused (o : Outcome) (r : ControlFrame) : Prop := cf_status r = - EACCES /\ oc_received o = true /\ oc_error o = - EACCES.

Lemma correlated_inv a id r : correlated a id r = true ->
  cf_request_id r = id /\ cf_endpoint r = ra_endpoint a /\ cf_name r = ra_name a /\ cf_type r = ra_type a /\ cf_descriptor_role r = ra_role a /\
  (forall t, ra_response_type a = Some t -> cf_response_type r = t).
Proof.
  unfold correlated. intros H. bool_to_prop. split_and!; auto. intros t Ht.
  match goal with K : match ra_response_type a with _ => _ end = true |- _ => rewrite Ht in K; by bool_to_prop end.
Qed.

Lemma transact_spec env config fuel a ca session deadline peer greeting request c o c' :
  transact env config fuel a ca session deadline peer greeting request c = Some (o, c') -> bytes (cn_incoming c) ->
  pi_host peer = rt_host (ep_runtime (ra_endpoint a)) -> selected a peer = 0 ->
  (exists pre, pre `prefix_of` frame_wire request /\ cn_sent c' = cn_sent c ++ pre) /\
  (is_write a = true -> oc_unknown o = false -> oc_error o <> 0 -> cn_sent c' = cn_sent c \/
     exists r, cn_incoming c = frame_wire r ++ cn_incoming c' /\ answers a (cf_request_id request) greeting r /\ refused o r) /\
  (oc_error o <> 0 -> oc_value o = None) /\
  (oc_error o = 0 -> cn_sent c' = cn_sent c ++ frame_wire request /\
     exists r, cn_incoming c = frame_wire r ++ cn_incoming c' /\ answers a (cf_request_id request) greeting r /\ succeeded a o r).
Proof.
  unfold transact. intros H Hb Hhost Hsel.
  destruct (if is_write a then _ else _) as [|e0] eqn:Henc.
  2:{ injection H as <- <-. destruct (is_write a); [|done]. unfold EncodeControlFrame in Henc. destruct (ValidFrame request); [done|]. injection Henc as <-.
      split_and!; try done; [|auto]. exists []. rewrite app_nil_r. split; [apply prefix_nil|done]. }
  destruct (SendFrame _ _ _ _ _ _) as [[code1 c1]|] eqn:Hsend; [|done].
  apply SendFrame_prefix in Hsend as [Hi1 (pre & post & Hreq & Hs1 & Hdone)].
  assert (Hstop : forall received e c2, e <> 0 -> cn_sent c2 = cn_sent c1 -> Some (returns (is_write a) received e, c2) = Some (o, c') ->
    (exists pre, pre `prefix_of` frame_wire request /\ cn_sent c' = cn_sent c ++ pre) /\
    (is_write a = true -> oc_unknown o = false -> oc_error o <> 0 -> cn_sent c' = cn_sent c \/
     exists r, cn_incoming c = frame_wire r ++ cn_incoming c' /\ answers a (cf_request_id request) greeting r /\ refused o r) /\
    (oc_error o <> 0 -> oc_value o = None) /\
    (oc_error o = 0 -> cn_sent c' = cn_sent c ++ frame_wire request /\
       exists r, cn_incoming c = frame_wire r ++ cn_incoming c' /\ answers a (cf_request_id request) greeting r /\ succeeded a o r)).
  { intros received e c2 He Hs2 K. injection K as <- <-. cbn. split_and!; try done; [|intros ->; done]. exists pre. split; [rewrite <- Hreq; by eexists|congruence]. }
  case_check; [bool_to_prop; by apply (Hstop false code1 c1) in H|]. bool_to_prop.
  destruct (ReceiveFrame _ _ _ _ _ _) as [[[r|code2] c2]|] eqn:Hrecv; [| |done].
  2:{ pose proof (ReceiveFrame_error _ _ _ _ _ _ _ _ Hrecv code2 eq_refl). apply ReceiveFrame_received in Hrecv as (Hs2 & _); [|by rewrite Hi1].
      by apply (Hstop false code2 c2) in H. }
  apply ReceiveFrame_received in Hrecv as (Hs2 & data & Hd & _ & Hok); [|by rewrite Hi1].
  destruct (Hok r eq_refl) as (-> & Hwf & Hv & Hop & _). clear Hok.
  destruct (correlated a (cf_request_id request) r) eqn:Hcor; cbn [negb] in H; [|by apply (Hstop false (- EPROTO) c2) in H].
  destruct (negb (Identity r peer) || _) eqn:Hid; [by apply (Hstop false (- ESTALE) c2) in H|].
  destruct (negb (request_fresh _ _ _ _ _ =? 0)) eqn:Hfresh; [bool_to_prop; by apply (Hstop false (request_fresh config a session peer (ca_answered ca)) c2) in H|].
  injection H as <- <-. destruct (conclude_spec a ca deadline r) as (Hz & Hnone & Hunk).
  rewrite Hs2, Hs1. rewrite (Hdone ltac:(done)), app_nil_r in Hreq. rewrite Hreq in *.
  assert (Hans : answers a (cf_request_id request) greeting r).
  { apply correlated_inv in Hcor as (? & ? & ? & ? & ? & ?). unfold Identity in Hid. bool_to_prop. apply selected_inv in Hsel as [? ?]. unfold answers. split_and!; auto; congruence. }
  split_and!; auto.
  - exists (frame_wire request). split; [done|done].
  - intros Hw Hu He. right. exists r. split; [by rewrite <- Hi1|]. split; [done|exact (Hunk Hw Hu He)].
  - intros Hzero. split; [done|]. exists r. split; [by rewrite <- Hi1|]. split; [done|exact (Hz Hzero)].
Qed.

(** C30: A remote request is sent at most once, and its outcome is never overstated.
    Whatever the network and discovery do, of a call that returns: what goes out is a beginning of
    the greeting followed by one request; a Parameter set or a service call, the requests that have
    an effect, that reports an error without the execution-unknown flag has sent nothing of its request,
    or the frame behind the greeting is the gateway's answer to this very request, with
    the status EACCES that the call reports (for getting a Parameter or a descriptor, which has no
    effect, nothing is claimed here); a call that reports success was answered, after
    the greeting, by a valid response frame for this very request (id, endpoint, name,
    types), with status 0, from the same process on the selected host, boot and session,
    and returns exactly its payload; a failed call leaves the caller's output alone. *)
Theorem remote_request_effects env config fuel a ca c o c' :
  ControlRequest env config fuel a ca c = Some (o, c') -> bytes (cn_incoming c) -> cn_sent c = [] ->
  exists hello request, cf_operation hello = ControlMessage.HELLO /\ cf_operation request = request_operation a /\
    cf_endpoint request = ra_endpoint a /\ cf_name request = ra_name a /\ cf_type request = ra_type a /\
    (forall p, ra_payload a = Some p -> cf_payload request = p) /\
    cn_sent c' `prefix_of` frame_wire hello ++ frame_wire request /\
    (is_write a = true -> oc_unknown o = false -> oc_error o <> 0 ->
       cn_sent c' `prefix_of` frame_wire hello \/
       exists greeting r, cn_incoming c = frame_wire greeting ++ frame_wire r ++ cn_incoming c' /\ answers a (cf_request_id request) greeting r /\ refused o r) /\
    (oc_error o <> 0 -> oc_value o = None) /\
    (oc_error o = 0 -> cn_sent c' = frame_wire hello ++ frame_wire request /\
       exists greeting r, cn_incoming c = frame_wire greeting ++ frame_wire r ++ cn_incoming c' /\
         answers a (cf_request_id request) greeting r /\ succeeded a o r).
Proof.
  intros H Hb Hsent. unfold ControlRequest in H. cbn zeta in H.
  set (hello := hello_frame config (ca_pid ca) (default 0 (ca_ticks ca)) (vw_session (ca_before ca))).
  set (deadline := ca_start ca + ra_timeout a * millisecond) in *.
  set (remaining := Z.quot (deadline - ca_request_now ca) millisecond) in *.
  exists hello, (request_frame hello a (u32 remaining) (default 0 (match NextRequest (ca_previous ca) with Ok id => Some id | Err _ => None end))).
  set (request := request_frame _ _ _ _).
  split; [done|]. do 4 (split; [done|]). split; [by intros p Hp; unfold request, request_frame; cbn [cf_payload]; rewrite Hp|].
  assert (Hstop : forall e c1, e <> 0 -> cn_sent c1 `prefix_of` frame_wire hello -> Some (returns false false e, c1) = Some (o, c') ->
    cn_sent c' `prefix_of` frame_wire hello ++ frame_wire request /\
    (is_write a = true -> oc_unknown o = false -> oc_error o <> 0 -> cn_sent c' `prefix_of` frame_wire hello \/
       exists greeting r, cn_incoming c = frame_wire greeting ++ frame_wire r ++ cn_incoming c' /\ answers a (cf_request_id request) greeting r /\ refused o r) /\
    (oc_error o <> 0 -> oc_value o = None) /\
    (oc_error o = 0 -> cn_sent c' = frame_wire hello ++ frame_wire request /\
       exists greeting r, cn_incoming c = frame_wire greeting ++ frame_wire r ++ cn_incoming c' /\
         answers a (cf_request_id request) greeting r /\ succeeded a o r)).
  { intros e c1 He Hp K. injection K as <- <-. cbn. split_and!; auto; try done. by apply prefix_app_r. }
  assert (Hempty : cn_sent c `prefix_of` frame_wire hello) by (rewrite Hsent; apply prefix_nil).
  case_check; [bool_to_prop; by eapply Hstop in H|]. case_check; [by eapply Hstop in H|].
  destruct (take_lock _ _) as [code|]; [|done]. case_check; [bool_to_prop; by eapply Hstop in H|]. do 2 (case_check; [by eapply Hstop in H|]).
  destruct (Peer _ _ _ _) as [peer|e1] eqn:Hpeer; [|pose proof (Peer_error _ _ _ _ _ Hpeer); by eapply Hstop in H]. apply Peer_inv in Hpeer as (Hhost & _ & _).
  case_check; [bool_to_prop; by eapply Hstop in H|]. destruct (ca_ticks ca) as [ticks|] eqn:Hticks; [|by eapply Hstop in H].
  change (hello_frame config (ca_pid ca) ticks (vw_session (ca_before ca))) with hello in H.
  destruct (ConnectHello _ _ _ _ _ _ _) as [[[greeting|e2] c1]|] eqn:Hconn; [| |done].
  2:{ destruct (ConnectHello_any _ _ _ _ _ _ _ _ _ Hconn Hb) as ((pre & Hpre & Hs) & Hne & _). rewrite Hsent in Hs.
      eapply Hstop in H; [done|by apply Hne|by rewrite Hs]. }
  destruct (ConnectHello_greeting _ _ _ _ _ _ _ _ _ Hconn Hb) as (Hvh & Hs1 & Hi1 & Hwg & Hvg & _). rewrite Hsent in Hs1. cbn [app] in Hs1.
  assert (Hfull : cn_sent c1 `prefix_of` frame_wire hello) by (by rewrite Hs1).
  case_check; [by eapply Hstop in H|]. case_check; [bool_to_prop; by eapply Hstop in H|]. case_check; [by eapply Hstop in H|].
  destruct (NextRequest _) as [id|e3] eqn:Hnext; [|unfold NextRequest in Hnext; destruct (ca_previous ca =? UINT64_MAX); [injection Hnext as <-; by eapply Hstop in H|done]].
  change (request_frame hello a (u32 remaining) id) with request in H. bool_to_prop.
  apply transact_spec in H as ((pre & Hpre & Hs) & Hunk & Hnone & Hzero); auto.
  2:{ rewrite Hi1 in Hb. by apply bytes_app in Hb as [_ ?]. }
  rewrite Hs1 in *. split_and!; auto.
  - rewrite Hs. by apply prefix_app.
  - intros Hw Hu He. destruct (Hunk Hw Hu He) as [->|(r & Hi2 & Hans & Href)]; [by left|right]. exists greeting, r. rewrite Hi1, Hi2. by split_and!.
  - intros Hz. destruct (Hzero Hz) as (Hs2 & r & Hi2 & Hans & Hsucc). split; [done|]. exists greeting, r. rewrite Hi1, Hi2. by split_and!.
Qed.

(** ** A concrete call *)
Definition client_config : DiscoveryConfig :=
  {| dc_host := sample_host 9; dc_boot_id := sample_host 10; dc_profile := default_profile;
     dc_compatibility_policy := CompatibilityPolicy.NETWORK_PROTOCOL; dc_interface_address := []; dc_multicast_group := []; dc_port := 37651;
     dc_metadata_port := 0; dc_announce_interval := 1000; dc_peer_timeout := 4000; dc_metadata_retry := 200; dc_max_peers := 64 |}.
(** The gateway, at ["1.2.3.4"]. *)
Definition gateway_peer : PeerInfo :=
  {| pi_host := sample_host 1; pi_boot_id := sample_host 2; pi_session_id := 70; pi_address := [49; 46; 50; 46; 51; 46; 52]; pi_port := 5000;
     pi_last_seen := 0; pi_metadata_revision := 1; pi_state := ONLINE;
     pi_profile := {| pf_framework := pf_framework default_profile; pf_network := pf_network default_profile;
                      pf_capabilities := Z.lor Capability.DISCOVERY (Z.lor Capability.REMOTE_PARAMETER Capability.REMOTE_ACTION) |};
     pi_compatibility := CheckPeerCompatibility default_profile default_profile CompatibilityPolicy.NETWORK_PROTOCOL; pi_metadata_ready := true;
     pi_endpoints := [sample_metadata 1 EndpointKind.PARAMETER EndpointRole.PROVIDER] |}.
Definition steady_view : View := {| vw_canceled := false; vw_session := 80; vw_error := 0; vw_peers := [gateway_peer] |}.
Definition open_socket : ConnectEnv :=
  {| ce_socket := None; ce_local := true; ce_bind := None; ce_remote := true; ce_now := 0; ce_connect := None; ce_getsockopt := None; ce_error := 0 |}.
Definition steady_call : CallEnv :=
  {| ca_running := true; ca_start := 0; ca_tries := [(false, false, 0); (true, false, 0)]; ca_stopped := false; ca_before := steady_view;
     ca_pid := 100; ca_ticks := Some 7; ca_connect := open_socket; ca_greeted := steady_view; ca_request_now := 0; ca_previous := 4;
     ca_answered := steady_view; ca_checked_now := 0; ca_final_now := 0 |}.
Definition sample_set : Request := write_request (sample_endpoint 1) 70 sample_name sample_type 1000 [5; 6] None.

(** What the gateway sends: its greeting, and its answer to the request it was sent. *)
Definition gateway_hello : ControlFrame :=
  let f := sample_hello 70 in
  {| cf_operation := ControlMessage.HELLO; cf_source := sample_runtime 1; cf_session_id := 70; cf_request_id := 0;
     cf_endpoint := no_endpoint; cf_target := cf_target f; cf_name := []; cf_type := no_type; cf_response_type := no_type;
     cf_feedback_type := no_type; cf_goal := no_goal; cf_action_state := 0; cf_outcome_unknown := false; cf_feedback_sequence := 0;
     cf_timeout_ms := 0; cf_status := 0; cf_reason := 0; cf_payload := []; cf_descriptor_role := 0 |}.
Definition gateway_answer (status : Z) : ControlFrame :=
  {| cf_operation := ControlMessage.PARAM_SET_RESPONSE; cf_source := sample_runtime 1; cf_session_id := 70; cf_request_id := 5;
     cf_endpoint := sample_endpoint 1; cf_target := TargetScope.ENDPOINT; cf_name := sample_name; cf_type := sample_type; cf_response_type := no_type;
     cf_feedback_type := no_type; cf_goal := no_goal; cf_action_state := 0; cf_outcome_unknown := false; cf_feedback_sequence := 0;
     cf_timeout_ms := 0; cf_status := status; cf_reason := 0; cf_payload := []; cf_descriptor_role := 0 |}.
Definition answered_conn (status : Z) : Conn :=
  {| cn_tick := 0; cn_incoming := frame_wire gateway_hello ++ frame_wire (gateway_answer status); cn_sent := [] |}.

(** The witness: a Parameter set that the gateway confirms. *)
Lemma remote_request_effects_witness :
  exists o c', ControlRequest byte_env client_config 500 sample_set steady_call (answered_conn 0) = Some (o, c') /\ oc_error o = 0 /\
    exists greeting r, cn_incoming (answered_conn 0) = frame_wire greeting ++ frame_wire r ++ cn_incoming c' /\ succeeded sample_set o r.
Proof.
  assert (Hx : match ControlRequest byte_env client_config 500 sample_set steady_call (answered_conn 0) with
               | Some (o, _) => oc_error o =? 0 | None => false end = true) by (vm_compute; reflexivity).
  destruct (ControlRequest byte_env client_config 500 sample_set steady_call (answered_conn 0)) as [[o c']|] eqn:Hr; [|discriminate Hx].
  apply Z.eqb_eq in Hx. exists o, c'. split; [reflexivity|]. split; [exact Hx|].
  destruct (remote_request_effects byte_env client_config 500 sample_set steady_call (answered_conn 0) o c' Hr) as
    (hello & request & _ & _ & _ & _ & _ & _ & _ & _ & _ & Hok); [apply byte_list_bytes; vm_compute; reflexivity|reflexivity|].
  destruct (Hok Hx) as (_ & greeting & r & Hin & _ & Hs). exists greeting, r. split; [exact Hin|exact Hs].
Defined.
