(* ===== verification/RemoteAction.v ===== *)
(** * The remote control client: Actions

    [RunAction], [CancelAction] and the admission part of [StartAction] of
    [kcf/src/network/remote_control_client.cpp]: one worker and one connection per goal.

    The handle's [State] is shared between the worker and the callers of [CancelAction] and
    [Snapshot], under its mutex.  The worker is a machine whose steps are [EvConnect] (up to the
    section that marks the goal as sent), [EvSend], [EvLoop] (one turn of the loop up to
    [reader.Read]), [EvRead] (the rest of the turn) and [EvFinish]; between any two of them
    [CancelAction] may run its critical section ([EvCancel]).  No step but [EvFinish] has
    two sections that another thread could separate: what [CancelAction] looks at changes at
    most once in a step.  Each reading of the clock, of discovery and of the counter of
    request ids is an argument of the step.  Allocation failure is not modelled. *)
From S2P Require Import Prelude Wire NetTypes NetWire Compatibility DiscoveryProtocol TypeDescriptor NetworkDiagnostics ControlFrame ControlStream PeerDiscovery RemoteControl.

(** ** The handle *)
Record RemoteActionSnapshot := {
  sn_goal : RemoteGoalIdentity;
  sn_endpoint : RemoteEndpointIdentity;
  sn_accepted : bool;
  sn_terminal : bool;
  sn_communication_lost : bool;
  sn_execution_unknown : bool;
  sn_cancel_unknown : bool;
  sn_cancel_accepted : bool;
  sn_error : Z;
  sn_state : Z;
  sn_feedback_sequence : Z;
  sn_feedback : list Z;
  sn_result : list Z
}.
Record RemoteActionCancelResult := { rr_error : Z; rr_response_received : bool; rr_cancel_unknown : bool; rr_accepted : bool }.
Record Cancel := { cl_result : RemoteActionCancelResult; cl_deadline : Z; cl_id : Z; cl_sent : bool; cl_done : bool }.
Record Ack := { ak_done : bool; ak_received : bool; ak_unknown : bool; ak_error : Z }.

(** [hs_cancels] are the Cancel objects made so far; [hs_cancel] is the pointer. *)
Record HandleState := {
  hs_snapshot : RemoteActionSnapshot;
  hs_ack : Ack;
  hs_goal_sent : bool;
  hs_done : bool;
  hs_cancels : list Cancel;
  hs_cancel : option nat
}.

(** The arguments of [StartAction]. *)
Record Goal := {
  ga_endpoint : RemoteEndpointIdentity;
  ga_session : Z;
  ga_name : list Z;
  ga_goal : TypeIdentity;
  ga_feedback : TypeIdentity;
  ga_result : TypeIdentity;
  ga_payload : list Z;
  ga_timeout : Z;
  ga_tracking : Z
}.
Definition no_result : RemoteActionCancelResult := {| rr_error := 0; rr_response_received := false; rr_cancel_unknown := false; rr_accepted := false |}.
Definition new_cancel (deadline : Z) : Cancel := {| cl_result := no_result; cl_deadline := deadline; cl_id := 0; cl_sent := false; cl_done := false |}.
Definition new_snapshot (endpoint : RemoteEndpointIdentity) : RemoteActionSnapshot :=
  {| sn_goal := no_goal; sn_endpoint := endpoint; sn_accepted := false; sn_terminal := false; sn_communication_lost := false;
     sn_execution_unknown := false; sn_cancel_unknown := false; sn_cancel_accepted := false; sn_error := 0; sn_state := WireActionState.IDLE;
     sn_feedback_sequence := 0; sn_feedback := []; sn_result := [] |}.
Definition new_handle (g : Goal) : HandleState :=
  {| hs_snapshot := new_snapshot (ga_endpoint g); hs_ack := {| ak_done := false; ak_received := false; ak_unknown := false; ak_error := 0 |};
     hs_goal_sent := false; hs_done := false; hs_cancels := []; hs_cancel := None |}.

(** ** Changes of the snapshot *)
Definition snap_goal (s : RemoteActionSnapshot) (goal : RemoteGoalIdentity) : RemoteActionSnapshot :=
  {| sn_goal := goal; sn_endpoint := sn_endpoint s; sn_accepted := sn_accepted s; sn_terminal := sn_terminal s;
     sn_communication_lost := sn_communication_lost s; sn_execution_unknown := sn_execution_unknown s; sn_cancel_unknown := sn_cancel_unknown s;
     sn_cancel_accepted := sn_cancel_accepted s; sn_error := sn_error s; sn_state := sn_state s; sn_feedback_sequence := sn_feedback_sequence s;
     sn_feedback := sn_feedback s; sn_result := sn_result s |}.
Definition snap_ack (s : RemoteActionSnapshot) (f : ControlFrame) : RemoteActionSnapshot :=
  {| sn_goal := sn_goal s; sn_endpoint := sn_endpoint s; sn_accepted := cf_status f =? 0; sn_terminal := sn_terminal s;
     sn_communication_lost := sn_communication_lost s; sn_execution_unknown := cf_outcome_unknown f; sn_cancel_unknown := sn_cancel_unknown s;
     sn_cancel_accepted := sn_cancel_accepted s; sn_error := cf_status f; sn_state := cf_action_state f;
     sn_feedback_sequence := sn_feedback_sequence s; sn_feedback := sn_feedback s; sn_result := sn_result s |}.
Definition snap_feedback (s : RemoteActionSnapshot) (f : ControlFrame) : RemoteActionSnapshot :=
  {| sn_goal := sn_goal s; sn_endpoint := sn_endpoint s; sn_accepted := sn_accepted s; sn_terminal := sn_terminal s;
     sn_communication_lost := sn_communication_lost s; sn_execution_unknown := sn_execution_unknown s; sn_cancel_unknown := sn_cancel_unknown s;
     sn_cancel_accepted := sn_cancel_accepted s; sn_error := sn_error s; sn_state := cf_action_state f;
     sn_feedback_sequence := cf_feedback_sequence f; sn_feedback := cf_payload f; sn_result := sn_result s |}.
Definition snap_result (s : RemoteActionSnapshot) (f : ControlFrame) : RemoteActionSnapshot :=
  {| sn_goal := sn_goal s; sn_endpoint := sn_endpoint s; sn_accepted := sn_accepted s; sn_terminal := true;
     sn_communication_lost := sn_communication_lost s; sn_execution_unknown := sn_execution_unknown s; sn_cancel_unknown := sn_cancel_unknown s;
     sn_cancel_accepted := sn_cancel_accepted s; sn_error := sn_error s; sn_state := cf_action_state f;
     sn_feedback_sequence := sn_feedback_sequence s; sn_feedback := sn_feedback s; sn_result := cf_payload f |}.
Definition snap_cancel (s : RemoteActionSnapshot) (accepted unknown : bool) : RemoteActionSnapshot :=
  {| sn_goal := sn_goal s; sn_endpoint := sn_endpoint s; sn_accepted := sn_accepted s; sn_terminal := sn_terminal s;
     sn_communication_lost := sn_communication_lost s; sn_execution_unknown := sn_execution_unknown s; sn_cancel_unknown := sn_cancel_unknown s || unknown;
     sn_cancel_accepted := accepted; sn_error := sn_error s; sn_state := sn_state s; sn_feedback_sequence := sn_feedback_sequence s;
     sn_feedback := sn_feedback s; sn_result := sn_result s |}.
(** [lost] is what [communication_lost] and [execution_unknown] become, if they change. *)
Definition snap_error (s : RemoteActionSnapshot) (error : Z) (lost : option bool) : RemoteActionSnapshot :=
  {| sn_goal := sn_goal s; sn_endpoint := sn_endpoint s; sn_accepted := sn_accepted s; sn_terminal := sn_terminal s;
     sn_communication_lost := default (sn_communication_lost s) lost; sn_execution_unknown := default (sn_execution_unknown s) lost;
     sn_cancel_unknown := sn_cancel_unknown s; sn_cancel_accepted := sn_cancel_accepted s; sn_error := error; sn_state := sn_state s;
     sn_feedback_sequence := sn_feedback_sequence s; sn_feedback := sn_feedback s; sn_result := sn_result s |}.

Definition with_snapshot (st : HandleState) (s : RemoteActionSnapshot) : HandleState :=
  {| hs_snapshot := s; hs_ack := hs_ack st; hs_goal_sent := hs_goal_sent st; hs_done := hs_done st; hs_cancels := hs_cancels st; hs_cancel := hs_cancel st |}.
Definition with_cancel (st : HandleState) (k : nat) (c : Cancel) : HandleState :=
  {| hs_snapshot := hs_snapshot st; hs_ack := hs_ack st; hs_goal_sent := hs_goal_sent st; hs_done := hs_done st;
     hs_cancels := <[k:=c]> (hs_cancels st); hs_cancel := hs_cancel st |}.
Definition the_cancel (st : HandleState) (p : option nat) : option (nat * Cancel) :=
  match p with None => None | Some k => match hs_cancels st !! k with Some c => Some (k, c) | None => None end end.

(** The Cancel gets its result without an answer. *)
Definition cancel_over (c : Cancel) (error : Z) : Cancel :=
  {| cl_result := {| rr_error := error; rr_response_received := rr_response_received (cl_result c); rr_cancel_unknown := cl_sent c;
                     rr_accepted := rr_accepted (cl_result c) |};
     cl_deadline := cl_deadline c; cl_id := cl_id c; cl_sent := cl_sent c; cl_done := true |}.
Definition drop_cancel (st : HandleState) (k : nat) (c : Cancel) (error : Z) : HandleState :=
  let st := with_cancel st k (cancel_over c error) in
  with_snapshot st (snap_cancel (hs_snapshot st) (sn_cancel_accepted (hs_snapshot st)) (cl_sent c)).

(** [finish]: the last section of the worker. *)
Definition finish_action (st : HandleState) (error : Z) : HandleState :=
  let ack := if ak_done (hs_ack st) then hs_ack st
             else {| ak_done := true; ak_received := ak_received (hs_ack st); ak_unknown := hs_goal_sent st; ak_error := error |} in
  let s := hs_snapshot st in
  let s := if negb (error =? 0) && negb (sn_terminal s)
           then snap_error s error (if negb (ak_received (hs_ack st)) || sn_accepted s then Some (hs_goal_sent st) else None)
           else s in
  let st := {| hs_snapshot := s; hs_ack := ack; hs_goal_sent := hs_goal_sent st; hs_done := hs_done st; hs_cancels := hs_cancels st; hs_cancel := hs_cancel st |} in
  let st := match the_cancel st (hs_cancel st) with
            | Some (k, c) => if cl_done c then st else drop_cancel st k c (if negb (error =? 0) then error else - EALREADY)
            | None => st
            end in
  {| hs_snapshot := hs_snapshot st; hs_ack := hs_ack st; hs_goal_sent := hs_goal_sent st; hs_done := true; hs_cancels := hs_cancels st; hs_cancel := hs_cancel st |}.

(** ** What the worker checks *)
Definition validate_endpoint (g : Goal) (e : NetworkEndpointMetadata) : Z :=
  if negb (md_kind e =? EndpointKind.ACTION) || negb (md_role e =? EndpointRole.PROVIDER) || negb (md_name e =?? ga_name g) then - ENOENT
  else if negb (md_scope e =? NetworkScope.REMOTE) then - EACCES
  else if negb (md_request_type e =?? ga_goal g) || negb (md_feedback_type e =?? ga_feedback g) || negb (md_response_type e =?? ga_result g) then - EPROTOTYPE
  else 0.
Definition validate (g : Goal) (p : PeerInfo) : Z :=
  if negb (pi_boot_id p =?? rt_boot_id (ep_runtime (ga_endpoint g))) || negb (pi_session_id p =? ga_session g) then - ESTALE
  else if negb (pi_metadata_ready p) then - EAGAIN
  else match List.find (fun e => md_identity e =?? ga_endpoint g) (pi_endpoints p) with
  | None => - ENOENT
  | Some e => validate_endpoint g e
  end.
Definition action_fresh (config : DiscoveryConfig) (g : Goal) (session : Z) (peer : PeerInfo) (v : View) : Z :=
  if vw_canceled v then - ECANCELED
  else if (session =? 0) || negb (vw_session v =? session) then - ESTALE
  else match Peer config v (rt_host (ep_runtime (ga_endpoint g))) Capability.REMOTE_ACTION with
  | Err error => error
  | Ok p =>
      let error := validate g p in
      if negb (error =? 0) then error
      else if (pi_address p =?? pi_address peer) && (pi_port p =? pi_port peer) then 0 else - ESTALE
  end.

(** ** Frames *)
Definition goal_frame (g : Goal) (hello : ControlFrame) (id timeout_ms : Z) : ControlFrame :=
  {| cf_operation := ControlMessage.ACTION_GOAL_REQUEST; cf_source := cf_source hello; cf_session_id := cf_session_id hello; cf_request_id := id;
     cf_endpoint := ga_endpoint g; cf_target := TargetScope.ENDPOINT; cf_name := ga_name g; cf_type := ga_goal g; cf_response_type := ga_result g;
     cf_feedback_type := ga_feedback g; cf_goal := {| rg_source := cf_source hello; rg_goal_id := id; rg_session_id := cf_session_id hello |};
     cf_action_state := WireActionState.IDLE; cf_outcome_unknown := false; cf_feedback_sequence := 0; cf_timeout_ms := timeout_ms;
     cf_status := 0; cf_reason := CompatibilityReason.COMPATIBLE; cf_payload := ga_payload g; cf_descriptor_role := DescriptorRole.NONE |}.
Definition cancel_frame (r : ControlFrame) (id timeout_ms : Z) : ControlFrame :=
  {| cf_operation := ControlMessage.ACTION_CANCEL_REQUEST; cf_source := cf_source r; cf_session_id := cf_session_id r; cf_request_id := id;
     cf_endpoint := cf_endpoint r; cf_target := cf_target r; cf_name := cf_name r; cf_type := cf_type r; cf_response_type := cf_response_type r;
     cf_feedback_type := cf_feedback_type r; cf_goal := cf_goal r; cf_action_state := cf_action_state r; cf_outcome_unknown := cf_outcome_unknown r;
     cf_feedback_sequence := cf_feedback_sequence r; cf_timeout_ms := timeout_ms; cf_status := cf_status r; cf_reason := cf_reason r;
     cf_payload := []; cf_descriptor_role := cf_descriptor_role r |}.
(** The frame is about this goal. *)
Definition about_goal (request f : ControlFrame) : bool :=
  (cf_goal f =?? cf_goal request) && (cf_endpoint f =?? cf_endpoint request) && (cf_name f =?? cf_name request) &&
  (cf_target f =? TargetScope.ENDPOINT) && (cf_type f =?? cf_type request) && (cf_feedback_type f =?? cf_feedback_type request) &&
  (cf_response_type f =?? cf_response_type request).

(** ** The worker *)
(** Its local variables: the connection's, and the loop's. *)
Record Link := { lk_peer : PeerInfo; lk_session : Z; lk_greeting : ControlFrame; lk_request : ControlFrame; lk_ack_deadline : Z }.
Record Loop := { lp_link : Link; lp_reader : FrameReader; lp_accepted : bool; lp_terminal : bool; lp_tracking : option Z }.
Inductive Pc := PcConnect | PcSend (k : Link) | PcLoop (l : Loop) | PcRead (l : Loop) (cancel : option nat) | PcFinish (error : Z) | PcDone.
Record ActionWorld := { wd_state : HandleState; wd_pc : Pc; wd_conn : Conn }.
Definition initial (g : Goal) (c : Conn) : ActionWorld := {| wd_state := new_handle g; wd_pc := PcConnect; wd_conn := c |}.

Definition expired (l : Loop) (now1 now2 : Z) : bool :=
  (negb (lp_accepted l) && (lk_ack_deadline (lp_link l) <=? now1)) ||
  (negb (lp_terminal l) && match lp_tracking l with Some t => t <=? now2 | None => false end).

(** What [EvConnect] reads: [sc_start] is the clock of [StartAction]. *)
Record ConnectCall := {
  sc_start : Z;
  sc_before : View;
  sc_session : Z;
  sc_pid : Z;
  sc_ticks : option Z;
  sc_connect : ConnectEnv;
  sc_greeted : View;
  sc_previous : Z;
  sc_now : Z
}.
Inductive HandleEvent :=
| EvConnect (s : ConnectCall)
| EvSend
| EvLoop (v : View) (now previous : Z)
| EvRead (poll : option positive) (v : View) (now1 now2 acked : Z)
| EvFinish
| EvCancel (listed running : bool) (now timeout : Z).

Section Worker.
Context (env : nat -> Answer) (config : DiscoveryConfig) (fuel : nat) (g : Goal).

Definition connect_step (s : ConnectCall) (st : HandleState) (c : Conn) : option ActionWorld :=
  let stop := fun error c => Some {| wd_state := st; wd_pc := PcFinish error; wd_conn := c |} in
  match Peer config (sc_before s) (rt_host (ep_runtime (ga_endpoint g))) Capability.REMOTE_ACTION with
  | Err code => stop code c
  | Ok peer =>
      let code := validate g peer in
      if negb (code =? 0) then stop code c
      else match sc_ticks s with
      | None => stop (- ESRCH) c
      | Some ticks =>
          let hello := hello_frame config (sc_pid s) ticks (sc_session s) in
          let deadline := sc_start s + ga_timeout g * millisecond in
          match ConnectHello env fuel (sc_connect s) hello true deadline c with
          | None => None
          | Some (Err code, c) => stop code c
          | Some (Ok greeting, c) =>
              if negb (Identity greeting peer) then stop (- ESTALE) c
              else let code := action_fresh config g (sc_session s) peer (sc_greeted s) in
              if negb (code =? 0) then stop code c
              else match NextRequest (sc_previous s) with
              | Err code => stop code c
              | Ok id =>
                  let remaining := Z.quot (deadline - sc_now s) millisecond in
                  if remaining <? 1 then stop (- ETIMEDOUT) c
                  else let request := goal_frame g hello id (u32 remaining) in
                  match EncodeControlFrame request with
                  | Err code => stop code c
                  | Ok _ =>
                      Some {| wd_state := {| hs_snapshot := snap_goal (hs_snapshot st) (cf_goal request); hs_ack := hs_ack st; hs_goal_sent := true;
                                             hs_done := hs_done st; hs_cancels := hs_cancels st; hs_cancel := hs_cancel st |};
                              wd_pc := PcSend {| lk_peer := peer; lk_session := sc_session s; lk_greeting := greeting; lk_request := request;
                                                 lk_ack_deadline := deadline |};
                              wd_conn := c |}
                  end
              end
          end
      end
  end.
Definition send_step (k : Link) (st : HandleState) (c : Conn) : option ActionWorld :=
  match SendFrame env fuel (lk_request k) true (lk_ack_deadline k) c with
  | None => None
  | Some (code, c) =>
      Some {| wd_state := st; wd_conn := c;
              wd_pc := if negb (code =? 0) then PcFinish code
                       else PcLoop {| lp_link := k; lp_reader := new_reader; lp_accepted := false; lp_terminal := false; lp_tracking := None |} |}
  end.

(** The pending Cancel: drop it, or send it.  The first component is the error to finish
    with. *)
Definition cancel_turn (l : Loop) (now previous : Z) (cancel : option nat) (st : HandleState) (c : Conn) : option (Z * HandleState * Conn) :=
  match the_cancel st cancel with
  | Some (k, cl) =>
      if cl_done cl then Some (0, st, c)
      else if (cl_deadline cl <=? now) || (lp_terminal l && negb (cl_sent cl)) then
        Some (0, drop_cancel st k cl (if lp_terminal l && negb (cl_sent cl) then - EALREADY else - ETIMEDOUT), c)
      else if cl_sent cl then Some (0, st, c)
      else match NextRequest previous with
      | Err code => Some (code, st, c)
      | Ok id =>
          let frame := cancel_frame (lk_request (lp_link l)) id (u32 (Z.max 1 (Z.quot (cl_deadline cl - now) millisecond))) in
          let st := with_cancel st k {| cl_result := cl_result cl; cl_deadline := cl_deadline cl; cl_id := id; cl_sent := true; cl_done := cl_done cl |} in
          match SendFrame env fuel frame true (cl_deadline cl) c with
          | None => None
          | Some (code, c) => Some (code, st, c)
          end
      end
  | None => Some (0, st, c)
  end.
Definition loop_step (v : View) (now previous : Z) (l : Loop) (st : HandleState) (c : Conn) : option ActionWorld :=
  let k := lp_link l in
  let code := action_fresh config g (lk_session k) (lk_peer k) v in
  if negb (code =? 0) then Some {| wd_state := st; wd_pc := PcFinish code; wd_conn := c |}
  else if expired l now now then Some {| wd_state := st; wd_pc := PcFinish (- ETIMEDOUT); wd_conn := c |}
  else
    let cancel := hs_cancel st in
    match cancel_turn l now previous cancel st c with
    | None => None
    | Some (code, st, c) =>
        Some {| wd_state := st; wd_conn := c;
                wd_pc := if negb (code =? 0) then PcFinish code
                         else if lp_terminal l && match the_cancel st cancel with Some (_, cl) => cl_done cl | None => true end then PcFinish 0
                         else PcRead l cancel |}
    end.

(** The dispatch on a frame that passed the checks. *)
Definition dispatch (acked : Z) (l : Loop) (cancel : option nat) (f : ControlFrame) (st : HandleState) : HandleState * Pc :=
  let s := hs_snapshot st in
  let op := cf_operation f in
  if op =? ControlMessage.ACTION_GOAL_RESPONSE then
    if negb (cf_request_id f =? cf_request_id (lk_request (lp_link l))) then (st, PcFinish (- EPROTO))
    else if lp_accepted l then (st, PcLoop l)
    else
      let st := {| hs_snapshot := snap_ack s f;
                   hs_ack := {| ak_done := true; ak_received := true; ak_unknown := cf_outcome_unknown f; ak_error := cf_status f |};
                   hs_goal_sent := hs_goal_sent st; hs_done := hs_done st; hs_cancels := hs_cancels st; hs_cancel := hs_cancel st |} in
      (st, if negb (cf_status f =? 0) then PcFinish (cf_status f)
           else PcLoop {| lp_link := lp_link l; lp_reader := lp_reader l; lp_accepted := true; lp_terminal := lp_terminal l;
                          lp_tracking := Some (acked + ga_tracking g * millisecond) |})
  else if (op =? ControlMessage.ACTION_FEEDBACK) || (op =? ControlMessage.ACTION_RESULT) then
    if negb (lp_accepted l) || negb (cf_request_id f =? 0) then (st, PcFinish (- EPROTO))
    else if sn_terminal s then (st, PcLoop l)
    else if op =? ControlMessage.ACTION_FEEDBACK then
      (if sn_feedback_sequence s <? cf_feedback_sequence f then with_snapshot st (snap_feedback s f) else st, PcLoop l)
    else if negb (cf_status f =? 0) then (st, if cf_status f <? 0 then PcFinish (cf_status f) else PcLoop l)
    else (with_snapshot st (snap_result s f),
          PcLoop {| lp_link := lp_link l; lp_reader := lp_reader l; lp_accepted := lp_accepted l; lp_terminal := true; lp_tracking := lp_tracking l |})
  else if op =? ControlMessage.ACTION_CANCEL_RESPONSE then
    if negb (lp_accepted l) then (st, PcFinish (- EPROTO))
    else (match the_cancel st cancel with
          | Some (k, cl) =>
              if negb (cl_done cl) && cl_sent cl && (cf_request_id f =? cl_id cl) then
                let st := with_cancel st k {| cl_result := {| rr_error := cf_status f; rr_response_received := true; rr_cancel_unknown := cf_outcome_unknown f;
                                                              rr_accepted := cf_status f =? 0 |};
                                              cl_deadline := cl_deadline cl; cl_id := cl_id cl; cl_sent := cl_sent cl; cl_done := true |} in
                with_snapshot st (snap_cancel (hs_snapshot st) (cf_status f =? 0) (cf_outcome_unknown f))
              else st
          | None => st
          end, PcLoop l)
  else (st, PcFinish (- EPROTO)).
Definition frame_step (v : View) (now1 now2 acked : Z) (l : Loop) (cancel : option nat) (f : ControlFrame) (st : HandleState) : HandleState * Pc :=
  let k := lp_link l in
  let code := action_fresh config g (lk_session k) (lk_peer k) v in
  if negb (code =? 0) then (st, PcFinish code)
  else if expired l now1 now2 then (st, PcFinish (- ETIMEDOUT))
  else if negb (Identity f (lk_peer k)) || negb (cf_source f =?? cf_source (lk_greeting k)) then (st, PcFinish (- ESTALE))
  else if negb (about_goal (lk_request k) f) then (st, PcFinish (- EPROTO))
  else dispatch acked l cancel f st.
Definition with_reader (l : Loop) (r : FrameReader) : Loop :=
  {| lp_link := lp_link l; lp_reader := r; lp_accepted := lp_accepted l; lp_terminal := lp_terminal l; lp_tracking := lp_tracking l |}.
Definition read_step (poll : option positive) (v : View) (now1 now2 acked : Z) (l : Loop) (cancel : option nat) (st : HandleState) (c : Conn) : option ActionWorld :=
  match Read env fuel (lp_reader l) c with
  | None => None
  | Some (code, frame, r, c) =>
      let l := with_reader l r in
      match frame with
      | Some f => let (st, pc) := frame_step v now1 now2 acked l cancel f st in Some {| wd_state := st; wd_pc := pc; wd_conn := c |}
      | None =>
          Some {| wd_state := st; wd_conn := c;
                  wd_pc := if code <? 0 then PcFinish code
                           else match poll with
                                | Some e => if negb (Z.pos e =? EINTR) then PcFinish (- Z.pos e) else PcLoop l
                                | None => PcLoop l
                                end |}
      end
  end.

(** [CancelAction]: the error it returns at once, or the Cancel it waits for. *)
Definition CancelAction (listed running : bool) (now timeout : Z) (st : HandleState) : result nat * HandleState :=
  if (timeout <? 1) || (60000 <? timeout) then (Err (- EINVAL), st)
  else if negb listed then (Err (- ENOENT), st)
  else if negb running then (Err (- ECANCELED), st)
  else if hs_done st || sn_terminal (hs_snapshot st) || negb (sn_accepted (hs_snapshot st)) then (Err (- EALREADY), st)
  else if match the_cancel st (hs_cancel st) with Some (_, cl) => negb (cl_done cl) | None => false end then (Err (- EBUSY), st)
  else (Ok (length (hs_cancels st)),
        {| hs_snapshot := hs_snapshot st; hs_ack := hs_ack st; hs_goal_sent := hs_goal_sent st; hs_done := hs_done st;
           hs_cancels := hs_cancels st ++ [new_cancel (now + timeout * millisecond)]; hs_cancel := Some (length (hs_cancels st)) |}).

Definition track_step (e : HandleEvent) (w : ActionWorld) : option ActionWorld :=
  let st := wd_state w in
  let c := wd_conn w in
  match e, wd_pc w with
  | EvConnect s, PcConnect => connect_step s st c
  | EvSend, PcSend k => send_step k st c
  | EvLoop v now previous, PcLoop l => loop_step v now previous l st c
  | EvRead poll v now1 now2 acked, PcRead l cancel => read_step poll v now1 now2 acked l cancel st c
  | EvFinish, PcFinish error => Some {| wd_state := finish_action st error; wd_pc := PcDone; wd_conn := c |}
  | EvCancel listed running now timeout, pc =>
      Some {| wd_state := snd (CancelAction listed running now timeout st); wd_pc := pc; wd_conn := c |}
  | _, _ => None
  end.
Fixpoint track_run (es : list HandleEvent) (w : ActionWorld) : option ActionWorld :=
  match es with
  | [] => Some w
  | e :: es => match track_step e w with Some w => track_run es w | None => None end
  end.
End Worker.

(** ** Admission *)
(** [StartAction] up to the worker: [actions] are the handles with their [done] flags, newest
    last.  [spawned]: the thread could be created. *)
Definition valid_goal (config : DiscoveryConfig) (g : Goal) : bool :=
  negb (negb (ValidEndpoint (ga_endpoint g)) || (ga_session g =? 0) || (rt_host (ep_runtime (ga_endpoint g)) =?? dc_host config) ||
        negb (Text (ga_name g) 240) || negb (first_char (ga_name g) =? SLASH) || negb (ValidType (ga_goal g)) || negb (ValidType (ga_feedback g)) ||
        negb (ValidType (ga_result g)) || (MAX_PARAMETER_WIRE <? ty_payload_size (ga_goal g)) || (MAX_PARAMETER_WIRE <? ty_payload_size (ga_feedback g)) ||
        (MAX_PARAMETER_WIRE <? ty_payload_size (ga_result g)) || negb (vsize (ga_payload g) =? ty_payload_size (ga_goal g)) ||
        (ga_timeout g <? 1) || (60000 <? ga_timeout g) || (ga_tracking g <? 1) || (3600000 <? ga_tracking g)).
Definition StartAction (config : DiscoveryConfig) (running spawned : bool) (g : Goal) (id : nat) (actions : list (nat * bool)) : Z * list (nat * bool) :=
  if negb (valid_goal config g) then (- EINVAL, actions)
  else if negb running then (- ENOTCONN, actions)
  else
    let actions := List.filter (fun a => negb (snd a)) actions in
    if 4 <=? Z.of_nat (length actions) then (- EAGAIN, actions)
    else if negb spawned then (- EAGAIN, actions)
    else (0, actions ++ [(id, false)]).
