(* ===== verification/RemoteActionSafety.v ===== *)
(** * Remote Actions: what a handle means

    Proofs about [RemoteAction]: an invariant of the worker and of the callers of
    [CancelAction] that ties the handle's state to the frames the connection delivered and to
    the frames it sent, kept by every step.  From it: the snapshot is what the frames say, the
    outcome is never overstated, and the handle ends at its deadlines. *)
From S2P Require Import Prelude Wire NetTypes NetWire Compatibility DiscoveryProtocol TypeDescriptor NetworkDiagnostics ControlFrame ControlStream PeerDiscovery RemoteControl RemoteAction.

(** ** Valid Action frames *)
Lemma valid_action f : ValidFrame f = true ->
  cf_operation f ∈ [ControlMessage.ACTION_GOAL_RESPONSE; ControlMessage.ACTION_FEEDBACK; ControlMessage.ACTION_RESULT; ControlMessage.ACTION_CANCEL_RESPONSE] ->
  ValidActionFrame f = true.
Proof.
  intros H Hop. unfold ValidFrame in H. rewrite !elem_of_cons in Hop.
  destruct Hop as [E|[E|[E|[E|E]]]]; [..|by apply not_elem_of_nil in E]; rewrite E in H; repeat (case_check; [done|]);
    change (IsActionMessage _) with true in H; change (IsDescriptorMessage _) with false in H; change (IsDiagnosticsMessage _) with false in H;
    cbn [negb andb] in H; repeat (case_check; try done).
  all: match goal with K : IsActionMessage _ = false |- _ => discriminate K end.
Qed.

Lemma valid_goal_response f : ValidFrame f = true -> cf_operation f = ControlMessage.ACTION_GOAL_RESPONSE ->
  cf_action_state f = (if cf_status f =? 0 then WireActionState.ACCEPTED else WireActionState.IDLE) /\ (cf_status f = 0 -> cf_outcome_unknown f = false) /\
  cf_status f <= 0.
Proof.
  intros H E. assert (Ha : ValidActionFrame f = true) by (apply valid_action; [done|rewrite E; apply list_elem_of_In; cbn; tauto]). clear H.
  unfold ValidActionFrame, no_status in Ha. rewrite E in Ha. destruct (_ || (WireActionState.CANCELED <? _)); [done|].
  destruct (cf_outcome_unknown f && _) eqn:Hu; [done|]. change (_ || (_ =? ControlMessage.ACTION_CANCEL_REQUEST)) with false in Ha. cbn iota in Ha.
  destruct (_ || (CompatibilityReason.UNKNOWN_ENDPOINT <? _)) eqn:Hneg; [done|]. change (ControlMessage.ACTION_GOAL_RESPONSE =? _) with false in Ha. cbn iota in Ha. bool_to_prop.
  split_and!; [|intros Hs|lia].
  - destruct (cf_status f =? 0); cbn [negb] in *; done.
  - destruct (cf_outcome_unknown f); [|done]. rewrite Hs in Hu. done.
Qed.

Lemma valid_feedback f : ValidFrame f = true -> cf_operation f = ControlMessage.ACTION_FEEDBACK ->
  cf_feedback_sequence f <> 0 /\ cf_action_state f = WireActionState.RUNNING /\ vsize (cf_payload f) = ty_payload_size (cf_feedback_type f).
Proof.
  intros H E. assert (Ha : ValidActionFrame f = true) by (apply valid_action; [done|rewrite E; apply list_elem_of_In; cbn; tauto]). clear H.
  unfold ValidActionFrame in Ha. rewrite E in Ha. case_check; [done|]. case_check; [done|].
  change (_ || (_ =? ControlMessage.ACTION_CANCEL_REQUEST)) with false in Ha. cbn iota in Ha. case_check; [done|].
  change (ControlMessage.ACTION_FEEDBACK =? ControlMessage.ACTION_FEEDBACK) with true in Ha. cbn iota in Ha. bool_to_prop. auto.
Qed.

Lemma valid_result f : ValidFrame f = true -> cf_operation f = ControlMessage.ACTION_RESULT ->
  cf_status f <= 0 /\ WireActionTerminal (cf_action_state f) = true /\ (cf_status f = 0 -> vsize (cf_payload f) = ty_payload_size (cf_response_type f)).
Proof.
  intros H E. assert (Ha : ValidActionFrame f = true) by (apply valid_action; [done|rewrite E; apply list_elem_of_In; cbn; tauto]). clear H.
  unfold ValidActionFrame in Ha. rewrite E in Ha. case_check; [done|]. case_check; [done|].
  change (_ || (_ =? ControlMessage.ACTION_CANCEL_REQUEST)) with false in Ha. cbn iota in Ha. destruct (_ || (CompatibilityReason.UNKNOWN_ENDPOINT <? _)) eqn:Hs; [done|].
  change (ControlMessage.ACTION_RESULT =? ControlMessage.ACTION_FEEDBACK) with false in Ha.
  change (ControlMessage.ACTION_RESULT =? ControlMessage.ACTION_RESULT) with true in Ha. cbn iota in Ha.
  apply andb_true_iff in Ha as [Ha Hp]. bool_to_prop. split_and!; [lia|done|]. intros Hz. unfold no_status in Hp. rewrite Hz in Hp. cbn in Hp. by bool_to_prop.
Qed.

(** ** What a list of frames says about a goal *)
Definition is_accept (f : ControlFrame) : bool := (cf_operation f =? ControlMessage.ACTION_GOAL_RESPONSE) && (cf_status f =? 0).
Definition is_result (f : ControlFrame) : bool := (cf_operation f =? ControlMessage.ACTION_RESULT) && (cf_status f =? 0).
(** The frames before the first result. *)
Fixpoint live (fs : list ControlFrame) : list ControlFrame :=
  match fs with [] => [] | f :: fs => if is_result f then [] else f :: live fs end.
(** The feedback with the highest sequence, the first of them. *)
Definition newer (best : option ControlFrame) (f : ControlFrame) : option ControlFrame :=
  if cf_operation f =? ControlMessage.ACTION_FEEDBACK then
    match best with Some b => if cf_feedback_sequence b <? cf_feedback_sequence f then Some f else best | None => Some f end
  else best.
Definition newest (fs : list ControlFrame) : option ControlFrame := fold_left newer fs None.

Record Observation := { ob_accepted : bool; ob_terminal : bool; ob_state : Z; ob_sequence : Z; ob_feedback : list Z; ob_result : list Z }.
Definition observe (fs : list ControlFrame) : Observation :=
  let accepted := existsb is_accept fs in
  let feedback := newest (live fs) in
  let result := List.find is_result fs in
  {| ob_accepted := accepted;
     ob_terminal := match result with Some _ => true | None => false end;
     ob_state := match result, feedback with
                 | Some r, _ => cf_action_state r
                 | None, Some _ => WireActionState.RUNNING
                 | None, None => if accepted then WireActionState.ACCEPTED else WireActionState.IDLE
                 end;
     ob_sequence := match feedback with Some f => cf_feedback_sequence f | None => 0 end;
     ob_feedback := match feedback with Some f => cf_payload f | None => [] end;
     ob_result := match result with Some r => cf_payload r | None => [] end |}.
Definition observation (s : RemoteActionSnapshot) : Observation :=
  {| ob_accepted := sn_accepted s; ob_terminal := sn_terminal s; ob_state := sn_state s; ob_sequence := sn_feedback_sequence s;
     ob_feedback := sn_feedback s; ob_result := sn_result s |}.

Lemma find_snoc {A} (p : A -> bool) l x : List.find p (l ++ [x]) = match List.find p l with Some y => Some y | None => if p x then Some x else None end.
Proof. induction l as [|y l IH]; cbn; [done|]. by destruct (p y). Qed.
Lemma live_snoc fs f : live (fs ++ [f]) =
  match List.find is_result fs with Some _ => live fs | None => if is_result f then fs else fs ++ [f] end.
Proof.
  assert (Hall : forall fs, List.find is_result fs = None -> live fs = fs).
  { intros l. induction l as [|x l IH]; cbn; [done|]. destruct (is_result x); [done|]. intros H. by rewrite IH. }
  induction fs as [|x fs IH]; cbn; [by destruct (is_result f)|]. destruct (is_result x); [done|]. rewrite IH.
  destruct (List.find is_result fs) eqn:E; [done|]. by destruct (is_result f).
Qed.
Lemma live_none fs : List.find is_result fs = None -> live fs = fs.
Proof. induction fs as [|x fs IH]; cbn; [done|]. destruct (is_result x); [done|]. intros H. by rewrite IH. Qed.
Lemma newest_snoc fs f : newest (fs ++ [f]) = newer (newest fs) f.
Proof. unfold newest. by rewrite fold_left_app. Qed.
Lemma newest_feedback fs f : newest fs = Some f -> f ∈ fs /\ cf_operation f = ControlMessage.ACTION_FEEDBACK.
Proof.
  revert f. induction fs as [|x fs IH] using rev_ind; intros f; [done|]. rewrite newest_snoc, elem_of_app, list_elem_of_singleton. unfold newer.
  destruct (Z.eqb_spec (cf_operation x) ControlMessage.ACTION_FEEDBACK); [|intros H; apply IH in H; naive_solver].
  destruct (newest fs) as [b|]; [destruct (cf_feedback_sequence b <? cf_feedback_sequence x)|]; intros H; injection H as ->; auto.
  destruct (IH f eq_refl); auto.
Qed.

(** An acknowledgement, a feedback frame or a result adds what it says; other frames nothing. *)
Lemma observe_ack f : cf_operation f = ControlMessage.ACTION_GOAL_RESPONSE ->
  observe [f] = {| ob_accepted := cf_status f =? 0; ob_terminal := false; ob_state := if cf_status f =? 0 then WireActionState.ACCEPTED else WireActionState.IDLE;
                   ob_sequence := 0; ob_feedback := []; ob_result := [] |}.
Proof.
  intros E. assert (Hr : is_result f = false) by (unfold is_result; by rewrite E).
  assert (Ha : is_accept f = (cf_status f =? 0)) by (unfold is_accept; by rewrite E).
  unfold observe. cbn [List.find live existsb]. rewrite Hr, Ha, orb_false_r. unfold newest. cbn [fold_left]. unfold newer. by rewrite E.
Qed.

Lemma observe_skip fs f : (is_result f = true -> ob_terminal (observe fs) = true) ->
  (is_accept f = true -> ob_accepted (observe fs) = true) ->
  (cf_operation f = ControlMessage.ACTION_FEEDBACK -> ob_terminal (observe fs) = true \/ (newest fs <> None /\ cf_feedback_sequence f <= ob_sequence (observe fs))) ->
  observe (fs ++ [f]) = observe fs.
Proof.
  intros Hr Ha Hf. unfold observe in *. cbn in *. rewrite find_snoc, live_snoc, existsb_app. cbn [existsb].
  assert (Hacc : existsb is_accept fs || (is_accept f || false) = existsb is_accept fs).
  { destruct (is_accept f); [by rewrite Ha|]. by rewrite orb_false_r. }
  rewrite Hacc. destruct (List.find is_result fs) eqn:E; [done|]. destruct (is_result f); [by specialize (Hr eq_refl)|].
  assert (Hn : newest (fs ++ [f]) = newest (live fs)); [|by rewrite Hn].
  rewrite newest_snoc, (live_none fs E) in *. unfold newer. destruct (Z.eqb_spec (cf_operation f) ControlMessage.ACTION_FEEDBACK) as [Ef|]; [|done].
  destruct (Hf Ef) as [|[Hb Hseq]]; [done|]. destruct (newest fs) as [b|]; [|done]. destruct (Z.ltb_spec (cf_feedback_sequence b) (cf_feedback_sequence f)); [lia|done].
Qed.

Lemma observe_feedback fs f : cf_operation f = ControlMessage.ACTION_FEEDBACK -> cf_action_state f = WireActionState.RUNNING ->
  ob_terminal (observe fs) = false -> (newest fs = None \/ ob_sequence (observe fs) < cf_feedback_sequence f) ->
  observe (fs ++ [f]) = {| ob_accepted := ob_accepted (observe fs); ob_terminal := false; ob_state := cf_action_state f;
                           ob_sequence := cf_feedback_sequence f; ob_feedback := cf_payload f; ob_result := ob_result (observe fs) |}.
Proof.
  intros Hop Hst Ht Hs. unfold observe in *. cbn in *. rewrite find_snoc, live_snoc, existsb_app. cbn [existsb].
  assert (Hr : is_result f = false) by (unfold is_result; by rewrite Hop). assert (Ha : is_accept f = false) by (unfold is_accept; by rewrite Hop).
  rewrite Hr, Ha, !orb_false_r. destruct (List.find is_result fs) eqn:E; [done|]. rewrite newest_snoc, (live_none fs E) in *. unfold newer. rewrite Hop, Hst. cbn.
  destruct (newest fs) as [b|]; [|done]. destruct Hs as [|Hs]; [done|]. destruct (Z.ltb_spec (cf_feedback_sequence b) (cf_feedback_sequence f)); [done|lia].
Qed.

Lemma observe_result fs f : is_result f = true -> ob_terminal (observe fs) = false ->
  observe (fs ++ [f]) = {| ob_accepted := ob_accepted (observe fs); ob_terminal := true; ob_state := cf_action_state f;
                           ob_sequence := ob_sequence (observe fs); ob_feedback := ob_feedback (observe fs); ob_result := cf_payload f |}.
Proof.
  intros Hr Ht. unfold observe in *. cbn in *. rewrite find_snoc, live_snoc, existsb_app. cbn [existsb].
  destruct (List.find is_result fs) eqn:E; [done|]. rewrite Hr. rewrite (live_none fs E).
  assert (is_accept f = false) as ->; [|by rewrite orb_false_r]. unfold is_result in Hr. bool_to_prop. unfold is_accept.
  match goal with H : cf_operation f = _ |- _ => by rewrite H end.
Qed.

(** ** The Cancels of a handle *)
(** A Cancel without an answer reports an error, and is unknown exactly when it was sent. *)
Definition cancel_ok (cl : Cancel) : Prop :=
  let r := cl_result cl in
  (cl_done cl = false -> r = no_result) /\
  (rr_response_received r = true -> cl_sent cl = true /\ rr_accepted r = (rr_error r =? 0)) /\
  (cl_done cl = true -> rr_response_received r = false -> rr_error r <> 0 /\ rr_cancel_unknown r = cl_sent cl /\ rr_accepted r = false).
(** Only the newest, which the pointer is at, may be pending. *)
Definition cancels_ok (st : HandleState) : Prop :=
  Forall cancel_ok (hs_cancels st) /\ hs_cancel st = match hs_cancels st with [] => None | _ => Some (length (hs_cancels st) - 1)%nat end /\
  (forall i cl, hs_cancels st !! i = Some cl -> cl_done cl = false -> S i = length (hs_cancels st)).
(** The ids of the Cancels that were sent, in order. *)
Definition sent_ids (cls : list Cancel) : list Z := cl_id <$> List.filter cl_sent cls.

Lemma the_cancel_lookup st p k cl : the_cancel st p = Some (k, cl) -> p = Some k /\ hs_cancels st !! k = Some cl.
Proof. unfold the_cancel. destruct p as [n|]; [|done]. destruct (hs_cancels st !! n) eqn:E; [|done]. intros H. by simplify_eq. Qed.

Lemma sent_ids_app a b : sent_ids (a ++ b) = sent_ids a ++ sent_ids b.
Proof. unfold sent_ids. by rewrite List.filter_app, fmap_app. Qed.
Lemma sent_ids_last cls k cl cl' : cls !! k = Some cl -> S k = length cls -> cl_sent cl = false -> cl_sent cl' = true ->
  sent_ids (<[k:=cl']> cls) = sent_ids cls ++ [cl_id cl'].
Proof.
  intros Hk Hl Hs Hs'. rewrite <- (take_drop_middle cls k cl Hk) at 2. rewrite insert_take_drop by lia. rewrite !drop_ge by lia.
  rewrite !sent_ids_app. unfold sent_ids at 2 4. cbn. rewrite Hs, Hs'. cbn. by rewrite app_nil_r.
Qed.
Lemma sent_ids_same cls k cl cl' : cls !! k = Some cl -> cl_sent cl' = cl_sent cl -> cl_id cl' = cl_id cl -> sent_ids (<[k:=cl']> cls) = sent_ids cls.
Proof.
  intros Hk Hs Hi. rewrite <- (take_drop_middle cls k cl Hk) at 2. rewrite insert_take_drop by (by eapply lookup_lt_Some). rewrite !sent_ids_app. f_equal.
  unfold sent_ids. cbn. rewrite Hs. destruct (cl_sent cl); cbn; [by rewrite Hi|done].
Qed.

Lemma cancels_ok_update st k cl cl' : cancels_ok st -> hs_cancels st !! k = Some cl -> cl_done cl = false -> cancel_ok cl' -> cancels_ok (with_cancel st k cl').
Proof.
  intros (Hall & Hp & Hlast) Hk Hd Hok. assert (Hlen : S k = length (hs_cancels st)) by eauto. unfold cancels_ok. cbn. split_and!.
  - by apply Forall_insert.
  - rewrite length_insert. destruct (hs_cancels st) eqn:E; [done|]. rewrite <- E in *. rewrite Hp. destruct (<[k:=cl']> (hs_cancels st)) eqn:E'; [|done].
    apply (f_equal length) in E'. rewrite length_insert in E'. cbn in E'. lia.
  - intros i x Hi Hx. rewrite length_insert. destruct (decide (i = k)) as [->|Hne]; [done|]. rewrite list_lookup_insert_ne in Hi by done. eauto.
Qed.
Lemma cancels_ok_snapshot st s : cancels_ok st -> cancels_ok (with_snapshot st s).
Proof. done. Qed.

Lemma cancel_over_ok cl error : cancel_ok cl -> cl_done cl = false -> error <> 0 -> cancel_ok (cancel_over cl error).
Proof. intros (Hn & _ & _) Hd He. specialize (Hn Hd). unfold cancel_ok, cancel_over. cbn. rewrite Hn. by split_and!. Qed.

Lemma drop_cancel_facts st k cl error : cancels_ok st -> hs_cancels st !! k = Some cl -> cl_done cl = false -> error <> 0 ->
  let st' := drop_cancel st k cl error in
  cancels_ok st' /\ sent_ids (hs_cancels st') = sent_ids (hs_cancels st) /\ hs_ack st' = hs_ack st /\ hs_goal_sent st' = hs_goal_sent st /\
  hs_done st' = hs_done st /\ hs_cancel st' = hs_cancel st /\ hs_cancels st' !! k = Some (cancel_over cl error).
Proof.
  intros Hok Hk Hd He st'. assert (Hcl : cancel_ok cl) by (destruct Hok as (Hall & _); by eapply Forall_lookup_1 in Hall).
  assert (Hlt : (k < length (hs_cancels st))%nat) by (by eapply lookup_lt_Some). unfold st', drop_cancel. split_and!; try done.
  - apply cancels_ok_snapshot. eapply cancels_ok_update; eauto using cancel_over_ok.
  - cbn. by eapply sent_ids_same.
  - cbn. by apply list_lookup_insert_eq.
Qed.

(** [CancelAction] adds one pending Cancel to a live, accepted goal, or changes nothing. *)
Lemma CancelAction_effect listed running now timeout st :
  snd (CancelAction listed running now timeout st) = st \/
  (sn_accepted (hs_snapshot st) = true /\ sn_terminal (hs_snapshot st) = false /\ hs_done st = false /\
   (forall k cl, the_cancel st (hs_cancel st) = Some (k, cl) -> cl_done cl = true) /\
   fst (CancelAction listed running now timeout st) = Ok (length (hs_cancels st)) /\
   snd (CancelAction listed running now timeout st) =
     {| hs_snapshot := hs_snapshot st; hs_ack := hs_ack st; hs_goal_sent := hs_goal_sent st; hs_done := hs_done st;
        hs_cancels := hs_cancels st ++ [new_cancel (now + timeout * millisecond)]; hs_cancel := Some (length (hs_cancels st)) |}).
Proof.
  unfold CancelAction. repeat (case_check; [by left|]). right. bool_to_prop. split_and!; auto. intros k cl Hc. rewrite Hc in *. by bool_to_prop.
Qed.
Lemma cancels_ok_new st st' : cancels_ok st -> (forall k cl, the_cancel st (hs_cancel st) = Some (k, cl) -> cl_done cl = true) -> forall deadline,
  hs_cancels st' = hs_cancels st ++ [new_cancel deadline] -> hs_cancel st' = Some (length (hs_cancels st)) ->
  cancels_ok st' /\ sent_ids (hs_cancels st') = sent_ids (hs_cancels st).
Proof.
  intros (Hall & Hp & Hlast) Hdone deadline E Ep. rewrite E. split; [|by rewrite sent_ids_app, app_nil_r]. unfold cancels_ok. rewrite E, Ep. split_and!.
  - apply Forall_app. split; [done|]. apply Forall_cons. split; [|constructor]. by split_and!.
  - rewrite length_app. cbn. destruct (hs_cancels st); cbn; [done|]. f_equal. lia.
  - intros i cl Hi Hd. rewrite length_app. cbn. destruct (decide (i < length (hs_cancels st))%nat) as [Hl|Hl].
    + rewrite lookup_app_l in Hi by done. exfalso. assert (Hi' := Hlast i cl Hi Hd). specialize (Hdone i cl).
      rewrite Hdone in Hd; [done|]. rewrite Hp. destruct (hs_cancels st) eqn:El; [done|]. rewrite <- El in *. unfold the_cancel.
      replace (length (hs_cancels st) - 1)%nat with i by lia. by rewrite Hi.
    + apply lookup_lt_Some in Hi. rewrite length_app in Hi. cbn in Hi. lia.
Qed.

(** ** The invariant *)
Definition no_ack : Ack := {| ak_done := false; ak_received := false; ak_unknown := false; ak_error := 0 |}.
Definition ack_accepted : Ack := {| ak_done := true; ak_received := true; ak_unknown := false; ak_error := 0 |}.

(** A frame the worker acted upon: about this goal, from the process that greeted, which is
    the selected gateway. *)
Definition genuine (k : Link) (f : ControlFrame) : Prop :=
  wf_frame f /\ ValidFrame f = true /\ about_goal (lk_request k) f = true /\ Identity f (lk_peer k) = true /\
  cf_source f = cf_source (lk_greeting k) /\
  (cf_operation f = ControlMessage.ACTION_GOAL_RESPONSE -> cf_request_id f = cf_request_id (lk_request k)).
Definition is_link (g : Goal) (k : Link) (hello : ControlFrame) : Prop :=
  cf_operation hello = ControlMessage.HELLO /\ (exists id t, lk_request k = goal_frame g hello id t) /\
  pi_host (lk_peer k) = rt_host (ep_runtime (ga_endpoint g)) /\ validate g (lk_peer k) = 0.

Record handle_tracks (g : Goal) (k : Link) (hello : ControlFrame) (fs cs : list ControlFrame) (st : HandleState) : Prop := {
  tk_link : is_link g k hello;
  tk_genuine : Forall (genuine k) fs;
  tk_cancels : Forall2 (fun id f => exists t, f = cancel_frame (lk_request k) id t) (sent_ids (hs_cancels st)) cs;
  tk_observed : observation (hs_snapshot st) = observe fs;
  tk_goal : sn_goal (hs_snapshot st) = cf_goal (lk_request k);
  tk_sent : hs_goal_sent st = true;
  tk_ok : cancels_ok st
}.

Section Invariant.
#[local] Set Default Proof Using "Type".
Context (env : nat -> Answer) (config : DiscoveryConfig) (fuel : nat) (g : Goal) (c0 : Conn).

(** In the loop nothing is unknown, and nothing was received before the acknowledgement. *)
Definition loop_ok (k : Link) (hello : ControlFrame) (fs cs : list ControlFrame) (l : Loop) (st : HandleState) (c : Conn) : Prop :=
  let s := hs_snapshot st in
  lp_link l = k /\ reader_ok (lp_reader l) /\
  cn_incoming c0 = frame_wire (lk_greeting k) ++ flat_map frame_wire fs ++ fr_bytes (lp_reader l) ++ cn_incoming c /\
  cn_sent c = frame_wire hello ++ frame_wire (lk_request k) ++ flat_map frame_wire cs /\
  lp_accepted l = sn_accepted s /\ lp_terminal l = sn_terminal s /\
  (sn_accepted s = false -> fs = [] /\ hs_ack st = no_ack) /\ (sn_accepted s = true -> hs_ack st = ack_accepted) /\
  sn_execution_unknown s = false /\ hs_done st = false.

(** How the acknowledgement stands when the worker is about to finish with [error]. *)
Definition ack_stands (st : HandleState) (error : Z) : Prop :=
  let s := hs_snapshot st in
  (sn_accepted s = false /\ hs_ack st = no_ack) \/
  (sn_accepted s = false /\ error < 0 /\ hs_ack st = {| ak_done := true; ak_received := true; ak_unknown := sn_execution_unknown s; ak_error := error |}) \/
  (sn_accepted s = true /\ hs_ack st = ack_accepted /\ sn_execution_unknown s = false).
Definition ended (k : Link) (hello : ControlFrame) (fs cs : list ControlFrame) (c : Conn) : Prop :=
  (exists rest, cn_incoming c0 = frame_wire (lk_greeting k) ++ flat_map frame_wire fs ++ rest) /\
  cn_sent c `prefix_of` frame_wire hello ++ frame_wire (lk_request k) ++ flat_map frame_wire cs.

(** What a finished handle says. *)
Definition settled (st : HandleState) : Prop :=
  let s := hs_snapshot st in
  hs_done st = true /\ ak_done (hs_ack st) = true /\ Forall (fun cl => cl_done cl = true) (hs_cancels st) /\
  (sn_execution_unknown s = false -> sn_terminal s = true \/ (sn_accepted s = false /\ ak_received (hs_ack st) = true /\ ak_error (hs_ack st) < 0)) /\
  (sn_accepted s = true -> sn_terminal s = false -> sn_communication_lost s = true /\ sn_execution_unknown s = true) /\
  (ak_received (hs_ack st) = false -> ak_unknown (hs_ack st) = true).

Definition after_send (w : ActionWorld) : Prop :=
  let st := wd_state w in
  let c := wd_conn w in
  exists k hello fs cs, handle_tracks g k hello fs cs st /\
    match wd_pc w with
    | PcConnect => False
    | PcSend k' => k' = k /\ fs = [] /\ cs = [] /\ cn_incoming c0 = frame_wire (lk_greeting k) ++ cn_incoming c /\ cn_sent c = frame_wire hello /\
                   sn_accepted (hs_snapshot st) = false /\ sn_terminal (hs_snapshot st) = false /\ hs_ack st = no_ack /\
                   sn_execution_unknown (hs_snapshot st) = false /\ hs_done st = false
    | PcLoop l | PcRead l _ => loop_ok k hello fs cs l st c
    | PcFinish error => ended k hello fs cs c /\ ack_stands st error /\ (error = 0 -> sn_terminal (hs_snapshot st) = true) /\ hs_done st = false
    | PcDone => ended k hello fs cs c /\ settled st
    end.
(** Before the goal is marked as sent. *)
Definition before_send (w : ActionWorld) : Prop :=
  (exists hello, cf_operation hello = ControlMessage.HELLO /\ cn_sent (wd_conn w) `prefix_of` frame_wire hello) /\
  match wd_pc w with
  | PcConnect => wd_state w = new_handle g /\ wd_conn w = c0
  | PcFinish error => error <> 0 /\ wd_state w = new_handle g
  | PcDone => exists error, error <> 0 /\ wd_state w = finish_action (new_handle g) error
  | _ => False
  end.
Definition action_inv (w : ActionWorld) : Prop := before_send w \/ after_send w.

(** *** Each step keeps it *)
Lemma cancel_keeps listed running now timeout w : action_inv w ->
  action_inv {| wd_state := snd (CancelAction listed running now timeout (wd_state w)); wd_pc := wd_pc w; wd_conn := wd_conn w |}.
Proof.
  intros Hinv. destruct (CancelAction_effect listed running now timeout (wd_state w)) as [E|(Ha & Ht & Hd & Hnone & _ & E)]; rewrite E.
  { by destruct w. }
  destruct Hinv as [[_ Hb]|(k & hello & fs & cs & Htk & Hpc)].
  { exfalso. destruct (wd_pc w); try done.
    - destruct Hb as [Hb _]. by rewrite Hb in Ha.
    - destruct Hb as [_ Hb]. by rewrite Hb in Ha.
    - destruct Hb as (e & _ & Hb). by rewrite Hb in Hd. }
  right. destruct (cancels_ok_new (wd_state w) (snd (CancelAction listed running now timeout (wd_state w))) (tk_ok _ _ _ _ _ _ Htk) Hnone
    (now + timeout * millisecond)) as [Hok Hids]; [by rewrite E|by rewrite E|]. rewrite E in Hok, Hids. exists k, hello, fs, cs. split.
  - destruct Htk. cbn [wd_state]. split; auto. by rewrite Hids.
  - cbn [wd_pc wd_state wd_conn]. destruct (wd_pc w); auto. destruct Hpc as (_ & Hset). destruct Hset as (Hset & _). by rewrite Hset in Hd.
Qed.

Lemma connect_keeps s c w' : bytes (cn_incoming c0) -> cn_sent c0 = [] -> c = c0 ->
  connect_step env config fuel g s (new_handle g) c = Some w' -> action_inv w'.
Proof.
  intros Hb Hs0 -> H. unfold connect_step in H. cbn zeta in H.
  assert (Hstop : forall error c1, error <> 0 -> (exists hello, cf_operation hello = ControlMessage.HELLO /\ cn_sent c1 `prefix_of` frame_wire hello) ->
    Some {| wd_state := new_handle g; wd_pc := PcFinish error; wd_conn := c1 |} = Some w' -> action_inv w').
  { intros error c1 He Hp K. injection K as <-. left. by split. }
  assert (Hnone : exists hello, cf_operation hello = ControlMessage.HELLO /\ cn_sent c0 `prefix_of` frame_wire hello).
  { exists (hello_frame config 0 0 0). rewrite Hs0. split; [done|apply prefix_nil]. }
  destruct (Peer _ _ _ _) as [peer|e1] eqn:Hpeer; [|pose proof (Peer_error _ _ _ _ _ Hpeer); by eapply Hstop in H]. apply Peer_inv in Hpeer as (Hhost & _ & _).
  destruct (negb (validate g peer =? 0)) eqn:Hval; [bool_to_prop; by eapply Hstop in H|]. destruct (sc_ticks s) as [ticks|]; [|by eapply Hstop in H].
  set (hello := hello_frame config (sc_pid s) ticks (sc_session s)) in *.
  destruct (ConnectHello _ _ _ _ _ _ _) as [[[greeting|e2] c1]|] eqn:Hconn; [| |done].
  2:{ destruct (ConnectHello_any _ _ _ _ _ _ _ _ _ Hconn Hb) as ((pre & Hpre & Hs) & Hne & _). rewrite Hs0 in Hs.
      eapply Hstop in H; [done|by apply Hne|]. exists hello. by rewrite Hs. }
  destruct (ConnectHello_greeting _ _ _ _ _ _ _ _ _ Hconn Hb) as (Hvh & Hs1 & Hi1 & Hwg & Hvg & _). rewrite Hs0 in Hs1. cbn [app] in Hs1.
  assert (Hfull : exists hello, cf_operation hello = ControlMessage.HELLO /\ cn_sent c1 `prefix_of` frame_wire hello) by (exists hello; by rewrite Hs1).
  destruct (negb (Identity greeting peer)); [by eapply Hstop in H|]. destruct (negb (action_fresh _ _ _ _ _ =? 0)) eqn:Hf; [bool_to_prop; by eapply Hstop in H|].
  destruct (NextRequest _) as [id|e3] eqn:Hnext; [|unfold NextRequest in Hnext; destruct (sc_previous s =? UINT64_MAX); [injection Hnext as <-; by eapply Hstop in H|done]].
  destruct (_ <? 1); [by eapply Hstop in H|]. destruct (EncodeControlFrame _) as [bs|e4] eqn:Henc.
  2:{ unfold EncodeControlFrame in Henc. destruct (ValidFrame _); [done|]. injection Henc as <-. by eapply Hstop in H. }
  injection H as <-. right. eexists _, hello, [], []. split; [|by cbn]. bool_to_prop. split; try done.
  split_and!; [done|by eexists _, _|done|done].
Qed.

Lemma send_keeps k st c w' : after_send {| wd_state := st; wd_pc := PcSend k; wd_conn := c |} -> send_step env fuel k st c = Some w' -> action_inv w'.
Proof.
  intros (k' & hello & fs & cs & Htk & -> & -> & -> & Hi & Hs & Ha & Ht & Hack & Hu & Hd) H. cbn [wd_state wd_conn] in *. unfold send_step in H.
  destruct (SendFrame _ _ _ _ _ _) as [[code c1]|] eqn:Hsend; [|done]. injection H as <-. apply SendFrame_prefix in Hsend as [Hi1 Hpre]. rewrite Hs in Hpre.
  destruct Hpre as (pre & post & Hreq & Hs2 & Hdone). right. exists k', hello, [], []. split; [done|]. cbn [wd_pc wd_state wd_conn].
  destruct (Z.eqb_spec code 0) as [Hz|Hz]; cbn [negb].
  - rewrite (Hdone Hz), app_nil_r in Hreq. subst pre. unfold loop_ok. cbn. rewrite Hi1, app_nil_r. split_and!; auto using new_reader_ok; congruence.
  - split_and!; [|left; done|done|done]. split; [exists (cn_incoming c); done|]. rewrite Hs2, app_nil_r, <- Hreq. apply prefix_app. by eexists.
Qed.

Lemma loop_ended k hello fs cs l st c : loop_ok k hello fs cs l st c -> ended k hello fs cs c.
Proof. intros (_ & _ & Hi & Hs & _). split; [by eexists|by rewrite Hs]. Qed.
Lemma loop_ack k hello fs cs l st c error : loop_ok k hello fs cs l st c -> ack_stands st error.
Proof.
  intros (_ & _ & _ & _ & _ & _ & Hn & Hy & Hu & _). unfold ack_stands. destruct (sn_accepted (hs_snapshot st)).
  - right; right. auto.
  - left. by destruct (Hn eq_refl).
Qed.
(** Leaving the loop with an error, with nothing changed. *)
Lemma loop_stops k hello fs cs l st c error : handle_tracks g k hello fs cs st -> loop_ok k hello fs cs l st c -> error <> 0 ->
  action_inv {| wd_state := st; wd_pc := PcFinish error; wd_conn := c |}.
Proof.
  intros Htk Hl He. right. exists k, hello, fs, cs. split; [done|]. cbn. split_and!; [by eapply loop_ended|by eapply loop_ack|done|]. by destruct Hl as (_ & _ & _ & _ & _ & _ & _ & _ & _ & ?).
Qed.

Lemma action_fresh_error session peer v : negb (action_fresh config g session peer v =? 0) = true -> action_fresh config g session peer v <> 0.
Proof. intros H. by bool_to_prop. Qed.

(** What the turn of a pending Cancel does. *)
Lemma cancel_turn_keeps k hello fs cs l st c now previous code st' c' : handle_tracks g k hello fs cs st -> loop_ok k hello fs cs l st c ->
  cancel_turn env fuel l now previous (hs_cancel st) st c = Some (code, st', c') ->
  exists cs', handle_tracks g k hello fs cs' st' /\ ack_stands st' code /\ sn_terminal (hs_snapshot st') = sn_terminal (hs_snapshot st) /\ hs_done st' = false /\
    ended k hello fs cs' c' /\ (code = 0 -> loop_ok k hello fs cs' l st' c').
Proof.
  intros Htk Hl H. unfold cancel_turn in H.
  assert (Hsame : forall code, (code, st, c) = (code, st', c') -> exists cs', handle_tracks g k hello fs cs' st' /\ ack_stands st' code /\
    sn_terminal (hs_snapshot st') = sn_terminal (hs_snapshot st) /\ hs_done st' = false /\ ended k hello fs cs' c' /\ (code = 0 -> loop_ok k hello fs cs' l st' c')).
  { intros code' K. injection K as <- <-. exists cs. split_and!; auto; [by eapply loop_ack| |by eapply loop_ended]. by destruct Hl as (_ & _ & _ & _ & _ & _ & _ & _ & _ & ?). }
  destruct (the_cancel st (hs_cancel st)) as [[i cl]|] eqn:Hc; [|injection H as <- <- <-; by apply Hsame].
  apply the_cancel_lookup in Hc as [Hptr Hlook]. destruct (cl_done cl) eqn:Hdone; [injection H as <- <- <-; by apply Hsame|].
  destruct (_ || _).
  { injection H as <- <- <-.
    destruct (drop_cancel_facts st i cl (if lp_terminal l && negb (cl_sent cl) then - EALREADY else - ETIMEDOUT) (tk_ok _ _ _ _ _ _ Htk) Hlook Hdone)
      as (Hok & Hids & Hack & Hgs & Hd & _); [by destruct (_ && _)|].
    assert (Hl' : loop_ok k hello fs cs l (drop_cancel st i cl (if lp_terminal l && negb (cl_sent cl) then - EALREADY else - ETIMEDOUT)) c) by exact Hl.
    exists cs. split_and!; auto.
    - destruct Htk. split; auto. by rewrite Hids.
    - by eapply loop_ack.
    - by destruct Hl as (_ & _ & _ & _ & _ & _ & _ & _ & _ & ?).
    - by eapply loop_ended. }
  destruct (cl_sent cl) eqn:Hsent; [injection H as <- <- <-; by apply Hsame|].
  destruct (NextRequest previous) as [id|e]; [|injection H as <- <- <-; by apply Hsame].
  set (frame := cancel_frame _ _ _) in H. set (cl' := {| cl_result := cl_result cl; cl_id := id |}) in H.
  destruct (SendFrame _ _ _ _ _ _) as [[code1 c1]|] eqn:Hsend; [|done]. injection H as <- <- <-. apply SendFrame_prefix in Hsend as [Hi1 Hpre].
  destruct Hpre as (pre & post & Hfr & Hs2 & Hz). assert (Hok := tk_ok _ _ _ _ _ _ Htk). assert (Hlen : S i = length (hs_cancels st)) by (destruct Hok as (_ & _ & Hx); eauto).
  assert (Hcl : cancel_ok cl) by (destruct Hok as (Hall & _); by eapply Forall_lookup_1 in Hall).
  assert (Hk : lp_link l = k) by (by destruct Hl as (? & _)).
  exists (cs ++ [frame]). split_and!.
  - destruct Htk. split; auto.
    + cbn [with_cancel hs_cancels]. rewrite (sent_ids_last _ _ cl) by done. apply Forall2_app; [done|]. constructor; [|constructor]. rewrite <- Hk. by eexists.
    + apply (cancels_ok_update _ _ cl); auto. destruct Hcl as (Hn & _). specialize (Hn Hdone). unfold cancel_ok, cl'. cbn. rewrite Hn. by split_and!.
  - by eapply loop_ack in Hl.
  - done.
  - by destruct Hl as (_ & _ & _ & _ & _ & _ & _ & _ & _ & ?).
  - destruct Hl as (_ & _ & Hi & Hs & _). split; [by eexists|]. rewrite Hs2, Hs, flat_map_app, <- !app_assoc. do 3 apply prefix_app. cbn. rewrite app_nil_r, <- Hfr. by eexists.
  - intros Hz0. rewrite (Hz Hz0), app_nil_r in Hfr. destruct Hl as (? & ? & Hi & Hs & Hrest). split_and!; auto; try apply Hrest.
    + by rewrite Hi1.
    + rewrite Hs2, Hs, flat_map_app, <- !app_assoc. cbn. by rewrite app_nil_r, Hfr.
Qed.

Lemma loop_keeps v now previous l st c w' : after_send {| wd_state := st; wd_pc := PcLoop l; wd_conn := c |} ->
  loop_step env config fuel g v now previous l st c = Some w' -> action_inv w'.
Proof.
  intros (k & hello & fs & cs & Htk & Hl) H. cbn [wd_state wd_conn wd_pc] in *. unfold loop_step in H.
  destruct (negb (action_fresh _ _ _ _ _ =? 0)) eqn:Hf; [injection H as <-; eapply loop_stops; eauto using action_fresh_error|].
  destruct (expired l now now); [injection H as <-; by eapply loop_stops|].
  destruct (cancel_turn _ _ _ _ _ _ _ _) as [[[code st1] c1]|] eqn:Hturn; [|done]. injection H as <-.
  destruct (cancel_turn_keeps _ _ _ _ _ _ _ _ _ _ _ _ Htk Hl Hturn) as (cs' & Htk' & Hack & Hterm & Hd & Hend & Hz).
  right. exists k, hello, fs, cs'. split; [done|]. cbn [wd_pc wd_state wd_conn]. destruct (Z.eqb_spec code 0) as [->|Hne]; cbn [negb]; [|by split_and!].
  specialize (Hz eq_refl). destruct (lp_terminal l) eqn:Ht; cbn [andb]; [|done]. destruct (match the_cancel st1 _ with Some _ => _ | None => _ end); [|done].
  split_and!; auto. intros _. rewrite Hterm. destruct Hl as (_ & _ & _ & _ & _ & Hlt & _). congruence.
Qed.

(** A frame has been read, and not acted upon yet. *)
Definition received (k : Link) (hello : ControlFrame) (fs cs : list ControlFrame) (l : Loop) (st : HandleState) (c : Conn) (f : ControlFrame) : Prop :=
  exists c1, loop_ok k hello fs cs l st c1 /\ cn_incoming c1 = frame_wire f ++ cn_incoming c /\ cn_sent c = cn_sent c1 /\ lp_reader l = new_reader.
Lemma received_ended k hello fs cs l st c f : received k hello fs cs l st c f -> ended k hello (fs ++ [f]) cs c /\ ended k hello fs cs c.
Proof.
  intros (c1 & (_ & _ & Hi & Hs & _) & Hi1 & Hs1 & Hr). unfold ended. rewrite Hs1, Hs, Hi, Hi1, Hr. cbn [new_reader fr_bytes app].
  split; (split; [|done]); [exists (cn_incoming c)|by eexists]. rewrite flat_map_app. cbn. by rewrite app_nil_r, <- !app_assoc.
Qed.
Lemma received_stops k hello fs cs l st c f error : handle_tracks g k hello fs cs st -> received k hello fs cs l st c f -> error <> 0 ->
  action_inv {| wd_state := st; wd_pc := PcFinish error; wd_conn := c |}.
Proof.
  intros Htk Hr He. destruct (received_ended _ _ _ _ _ _ _ _ Hr) as [_ Hend]. destruct Hr as (c1 & Hl & _). right. exists k, hello, fs, cs.
  split; [done|]. cbn. split_and!; [done|by eapply loop_ack|done|]. by destruct Hl as (_ & _ & _ & _ & _ & _ & _ & _ & _ & ?).
Qed.
(** The frame joins those acted upon, and the loop goes on. *)
Lemma received_loop k hello fs cs l st c f l' st' : received k hello fs cs l st c f -> handle_tracks g k hello (fs ++ [f]) cs st' -> sn_accepted (hs_snapshot st') = true ->
  hs_ack st' = ack_accepted -> sn_execution_unknown (hs_snapshot st') = false -> hs_done st' = false -> lp_link l' = lp_link l -> lp_reader l' = lp_reader l ->
  lp_accepted l' = true -> lp_terminal l' = sn_terminal (hs_snapshot st') ->
  action_inv {| wd_state := st'; wd_pc := PcLoop l'; wd_conn := c |}.
Proof.
  intros (c1 & (Hk & _ & Hi & Hs & _) & Hi1 & Hs1 & Hr) Htk Ha Hack Hu Hd El Er Ela Elt. right. exists k, hello, (fs ++ [f]), cs. split; [done|].
  cbn. unfold loop_ok. rewrite Er, Hr in *. split_and!; auto using new_reader_ok; try congruence; cbn [new_reader fr_bytes app] in *.
  - by rewrite Hi, Hi1, flat_map_app, <- !app_assoc; cbn; rewrite app_nil_r.
Qed.

Lemma tracked_snoc k hello fs cs st st' f : handle_tracks g k hello fs cs st -> genuine k f -> hs_cancels st' = hs_cancels st -> hs_cancel st' = hs_cancel st ->
  hs_goal_sent st' = hs_goal_sent st -> sn_goal (hs_snapshot st') = sn_goal (hs_snapshot st) -> observation (hs_snapshot st') = observe (fs ++ [f]) ->
  handle_tracks g k hello (fs ++ [f]) cs st'.
Proof.
  intros [] Hf Hc Hp Hg Hgo Ho. split; try congruence.
  - apply Forall_app. auto.
  - unfold cancels_ok in *. by rewrite Hc, Hp.
Qed.

(** The observation so far, field by field. *)
Lemma observed_fields s fs : observation s = observe fs ->
  ob_accepted (observe fs) = sn_accepted s /\ ob_terminal (observe fs) = sn_terminal s /\ ob_sequence (observe fs) = sn_feedback_sequence s /\
  ob_feedback (observe fs) = sn_feedback s /\ ob_result (observe fs) = sn_result s /\ ob_state (observe fs) = sn_state s.
Proof. intros <-. by split_and!. Qed.

Lemma frame_sequence_range f : wf_frame f -> 0 <= cf_feedback_sequence f.
Proof. intros (_ & _ & _ & _ & _ & _ & _ & _ & _ & _ & _ & _ & H & _). unfold_widths. lia. Qed.

Lemma ack_keeps acked k hello fs cs l st c f : handle_tracks g k hello fs cs st -> received k hello fs cs l st c f -> genuine k f ->
  cf_operation f = ControlMessage.ACTION_GOAL_RESPONSE -> sn_accepted (hs_snapshot st) = false -> forall st' pc,
  ({| hs_snapshot := snap_ack (hs_snapshot st) f;
      hs_ack := {| ak_done := true; ak_received := true; ak_unknown := cf_outcome_unknown f; ak_error := cf_status f |};
      hs_goal_sent := hs_goal_sent st; hs_done := hs_done st; hs_cancels := hs_cancels st; hs_cancel := hs_cancel st |},
   if negb (cf_status f =? 0) then PcFinish (cf_status f)
   else PcLoop {| lp_link := lp_link l; lp_reader := lp_reader l; lp_accepted := true; lp_terminal := lp_terminal l;
                  lp_tracking := Some (acked + ga_tracking g * millisecond) |}) = (st', pc) ->
  action_inv {| wd_state := st'; wd_pc := pc; wd_conn := c |}.
Proof.
  intros Htk Hr Hg Hop Ha st' pc E. injection E as <- <-. destruct Hg as (Hw & Hv & Hrest). assert (Hg : genuine k f) by done.
  destruct (valid_goal_response f Hv Hop) as (Hst & Hunk & Hneg).
  assert (Hl := Hr). destruct Hl as (c1 & (_ & _ & _ & _ & _ & Hlt & Hn & _ & Hu & Hd) & _). destruct (Hn Ha) as [-> Hack].
  assert (Hobs := tk_observed _ _ _ _ _ _ Htk). destruct (observed_fields _ _ Hobs) as (_ & Ht & Hseq & Hfb & Hres & _). cbn in Ht, Hseq, Hfb, Hres.
  assert (Htk' : handle_tracks g k hello [f] cs {| hs_snapshot := snap_ack (hs_snapshot st) f;
      hs_ack := {| ak_done := true; ak_received := true; ak_unknown := cf_outcome_unknown f; ak_error := cf_status f |};
      hs_goal_sent := hs_goal_sent st; hs_done := hs_done st; hs_cancels := hs_cancels st; hs_cancel := hs_cancel st |}).
  { apply (tracked_snoc k hello [] cs st); try done. cbn [app]. rewrite (observe_ack f Hop). unfold observation. cbn. by rewrite <- Ht, <- Hseq, <- Hfb, <- Hres, Hst. }
  destruct (Z.eqb_spec (cf_status f) 0) as [Hz|Hz]; cbn [negb].
  - apply (received_loop k hello [] cs l st c f); auto; cbn; auto; [by rewrite Hz|]. by rewrite Hz, (Hunk Hz).
  - right. exists k, hello, [f], cs. split; [done|]. cbn. destruct (received_ended _ _ _ _ _ _ _ _ Hr) as [Hend _]. split_and!; try done.
    right; left. cbn. destruct (Z.eqb_spec (cf_status f) 0); [done|]. split_and!; [done|lia|done].
Qed.

Lemma event_keeps k hello fs cs l st c f : handle_tracks g k hello fs cs st -> received k hello fs cs l st c f -> genuine k f ->
  lp_accepted l = true -> (cf_operation f = ControlMessage.ACTION_FEEDBACK \/ cf_operation f = ControlMessage.ACTION_RESULT) -> forall st' pc,
  (if sn_terminal (hs_snapshot st) then (st, PcLoop l)
   else if cf_operation f =? ControlMessage.ACTION_FEEDBACK then
     (if sn_feedback_sequence (hs_snapshot st) <? cf_feedback_sequence f then with_snapshot st (snap_feedback (hs_snapshot st) f) else st, PcLoop l)
   else if negb (cf_status f =? 0) then (st, if cf_status f <? 0 then PcFinish (cf_status f) else PcLoop l)
   else (with_snapshot st (snap_result (hs_snapshot st) f),
         PcLoop {| lp_link := lp_link l; lp_reader := lp_reader l; lp_accepted := lp_accepted l; lp_terminal := true; lp_tracking := lp_tracking l |})) = (st', pc) ->
  action_inv {| wd_state := st'; wd_pc := pc; wd_conn := c |}.
Proof.
  intros Htk Hr Hg Hla Hop st' pc E. assert (Hv : ValidFrame f = true) by (by destruct Hg as (_ & ? & _)).
  assert (Hl := Hr). destruct Hl as (c1 & (_ & _ & _ & _ & Hlacc & Hlt & _ & Hy & Hu & Hd) & _). rewrite Hla in Hlacc. symmetry in Hlacc. specialize (Hy Hlacc).
  assert (Hobs := tk_observed _ _ _ _ _ _ Htk). destruct (observed_fields _ _ Hobs) as (Hoa & Hot & Hos & Hof & Hor & Host).
  assert (Hskip : observe (fs ++ [f]) = observe fs -> action_inv {| wd_state := st; wd_pc := PcLoop l; wd_conn := c |}).
  { intros Hsk. apply (received_loop k hello fs cs l st c f); auto. apply (tracked_snoc k hello fs cs st); auto. by rewrite Hsk. }
  destruct (sn_terminal (hs_snapshot st)) eqn:Ht.
  { injection E as <- <-. apply Hskip. apply observe_skip; intros _; [by rewrite Hot|by rewrite Hoa|left; by rewrite Hot]. }
  destruct (Z.eqb_spec (cf_operation f) ControlMessage.ACTION_FEEDBACK) as [Hf|Hf].
  - destruct (valid_feedback f Hv Hf) as (Hne & Hrun & _).
    assert (Hr' : is_result f = false) by (unfold is_result; by rewrite Hf). assert (Ha' : is_accept f = false) by (unfold is_accept; by rewrite Hf).
    destruct (Z.ltb_spec (sn_feedback_sequence (hs_snapshot st)) (cf_feedback_sequence f)) as [Hlt'|Hge]; injection E as <- <-.
    + apply (received_loop k hello fs cs l st c f); auto; [|cbn; congruence]. apply (tracked_snoc k hello fs cs st); auto.
      rewrite (observe_feedback fs f) by (auto; right; lia). rewrite Hoa, Hor. unfold observation, with_snapshot, snap_feedback. cbn [hs_snapshot sn_accepted sn_terminal sn_state sn_feedback_sequence sn_feedback sn_result]. by rewrite Ht.
    + apply Hskip. apply observe_skip; [by rewrite Hr'|by rewrite Ha'|]. intros _. right. rewrite Hos. split; [|done]. intros Hnew.
      assert (Hz : ob_sequence (observe fs) = 0).
      { unfold observe in Hot |- *. cbn in *. destruct (List.find is_result fs) eqn:Ef; [done|]. by rewrite (live_none fs Ef), Hnew. }
      destruct Hg as (Hw & _). pose proof (frame_sequence_range f Hw). lia.
  - destruct Hop as [|Hop]; [done|]. destruct (valid_result f Hv Hop) as (Hneg & _). destruct (Z.eqb_spec (cf_status f) 0) as [Hz|Hz]; cbn [negb] in E; injection E as <- <-.
    + assert (Hok : is_result f = true) by (unfold is_result; by rewrite Hop, Hz). apply (received_loop k hello fs cs l st c f); auto.
      apply (tracked_snoc k hello fs cs st); auto. rewrite (observe_result fs f) by auto. by rewrite Hoa, Hos, Hof.
    + destruct (Z.ltb_spec (cf_status f) 0); [|lia]. eapply received_stops; eauto.
Qed.

Lemma Read_sent r c code frame r' c' : Read env fuel r c = Some (code, frame, r', c') -> cn_sent c' = cn_sent c.
Proof.
  revert r c. induction fuel as [|n IH]; intros r c H; [done|]. cbn [Read] in H. destruct (reader_top r) as [r1|[code1 frame1] r1]; [|by simplify_eq].
  destruct (sys_recv _ _ _) as [result c1] eqn:E. assert (Hs : cn_sent c1 = cn_sent c).
  { unfold sys_recv in E. destruct (an_io _); [destruct (take _ _)|..]; by simplify_eq. }
  destruct result as [[|x data]|e]; [by simplify_eq|apply IH in H; congruence|].
  repeat case_check; try (apply IH in H); simplify_eq; congruence.
Qed.

Lemma cancel_answer_keeps k hello fs cs l st c f cancel : handle_tracks g k hello fs cs st -> received k hello fs cs l st c f -> genuine k f ->
  lp_accepted l = true -> cf_operation f = ControlMessage.ACTION_CANCEL_RESPONSE ->
  action_inv {| wd_state := match the_cancel st cancel with
          | Some (i, cl) =>
              if negb (cl_done cl) && cl_sent cl && (cf_request_id f =? cl_id cl) then
                let st := with_cancel st i {| cl_result := {| rr_error := cf_status f; rr_response_received := true; rr_cancel_unknown := cf_outcome_unknown f;
                                                              rr_accepted := cf_status f =? 0 |};
                                              cl_deadline := cl_deadline cl; cl_id := cl_id cl; cl_sent := cl_sent cl; cl_done := true |} in
                with_snapshot st (snap_cancel (hs_snapshot st) (cf_status f =? 0) (cf_outcome_unknown f))
              else st
          | None => st
          end; wd_pc := PcLoop l; wd_conn := c |}.
Proof.
  intros Htk Hr Hg Hla Hop.
  assert (Hl := Hr). destruct Hl as (c1 & (_ & _ & _ & _ & Hlacc & Hlt & _ & Hy & Hu & Hd) & _). rewrite Hla in Hlacc. symmetry in Hlacc. specialize (Hy Hlacc).
  assert (Hsame : observe (fs ++ [f]) = observe fs).
  { apply observe_skip; unfold is_result, is_accept; rewrite Hop; done. }
  assert (Hobs := tk_observed _ _ _ _ _ _ Htk).
  assert (Hskip : action_inv {| wd_state := st; wd_pc := PcLoop l; wd_conn := c |}).
  { apply (received_loop k hello fs cs l st c f); auto. apply (tracked_snoc k hello fs cs st); auto. by rewrite Hsame. }
  destruct (the_cancel st cancel) as [[i cl]|] eqn:Hc; [|done]. apply the_cancel_lookup in Hc as [_ Hlook].
  destruct (negb (cl_done cl) && cl_sent cl && _) eqn:Hb; [|done]. bool_to_prop. cbv zeta.
  apply (received_loop k hello fs cs l st c f); auto.
  assert (Hok := tk_ok _ _ _ _ _ _ Htk).
  destruct Htk. split; cbn [with_snapshot with_cancel hs_cancels hs_snapshot hs_goal_sent]; try done.
  - apply Forall_app. auto.
  - by rewrite (sent_ids_same _ _ cl).
  - rewrite Hsame. exact Hobs.
  - apply cancels_ok_snapshot. apply (cancels_ok_update _ _ cl); auto. by unfold cancel_ok.
Qed.

Lemma read_keeps poll v now1 now2 acked l cancel st c w' : bytes (cn_incoming c0) ->
  after_send {| wd_state := st; wd_pc := PcRead l cancel; wd_conn := c |} ->
  read_step env config fuel g poll v now1 now2 acked l cancel st c = Some w' -> action_inv w'.
Proof.
  intros Hb (k & hello & fs & cs & Htk & Hl) H. cbn [wd_state wd_conn wd_pc] in *. unfold read_step in H.
  destruct (Read _ _ _ _) as [[[[code frame] r] c1]|] eqn:Hread; [|done].
  assert (Hl' := Hl). destruct Hl' as (Hk & Hrok & Hi & Hs & Hrest). subst k. set (k := lp_link l) in *.
  assert (Hsent1 : cn_sent c1 = cn_sent c) by (by eapply Read_sent).
  apply Read_sound in Hread; [|done|rewrite Hi in Hb; by do 2 apply bytes_app in Hb as [_ Hb]].
  destruct frame as [f|].
  - destruct Hread as (_ & Hw & Hv & -> & Hsplit). set (l1 := with_reader l new_reader) in *.
    assert (Hr : received k hello fs cs l1 st c1 f).
    { exists {| cn_tick := cn_tick c; cn_incoming := frame_wire f ++ cn_incoming c1; cn_sent := cn_sent c |}. split_and!; try done.
      unfold loop_ok. cbn. rewrite Hi, Hsplit. split_and!; auto using new_reader_ok; apply Hrest. }
    destruct (frame_step _ _ _ _ _ _ _ _ _ _) as [st1 pc] eqn:Hstep. injection H as <-. unfold frame_step in Hstep.
    destruct (negb (action_fresh _ _ _ _ _ =? 0)) eqn:Hf; [injection Hstep as <- <-; eapply received_stops; eauto using action_fresh_error|].
    destruct (expired l1 now1 now2); [injection Hstep as <- <-; by eapply received_stops|].
    destruct (negb (Identity f (lk_peer (lp_link l1))) || _) eqn:Hid; [injection Hstep as <- <-; by eapply received_stops|].
    destruct (negb (about_goal _ f)) eqn:Hab; [injection Hstep as <- <-; by eapply received_stops|].
    change (lp_link l1) with k in *. bool_to_prop.
    assert (Hg : (cf_operation f = ControlMessage.ACTION_GOAL_RESPONSE -> cf_request_id f = cf_request_id (lk_request k)) -> genuine k f) by (by intros; split_and!).
    unfold dispatch in Hstep. cbv zeta in Hstep. change (lp_link l1) with k in Hstep.
    destruct (Z.eqb_spec (cf_operation f) ControlMessage.ACTION_GOAL_RESPONSE) as [Hop|Hop].
    { destruct (Z.eqb_spec (cf_request_id f) (cf_request_id (lk_request k))) as [Hreq|]; cbn [negb] in Hstep; [|injection Hstep as <- <-; by eapply received_stops].
      specialize (Hg (fun _ => Hreq)). destruct (lp_accepted l1) eqn:Hla.
      - injection Hstep as <- <-. assert (Hobs := tk_observed _ _ _ _ _ _ Htk). destruct (observed_fields _ _ Hobs) as (Hoa & _).
        destruct Hrest as (Hacc & Hlt & _ & Hy & Hu & Hd). change (lp_accepted l1) with (lp_accepted l) in Hla. rewrite Hla in Hacc. symmetry in Hacc.
        apply (received_loop k hello fs cs l1 st c1 f); auto. apply (tracked_snoc k hello fs cs st); auto.
        rewrite Hobs. symmetry. apply observe_skip; unfold is_result, is_accept; rewrite Hop; try done. by rewrite Hoa.
      - destruct Hrest as (Hacc & _). change (lp_accepted l1) with (lp_accepted l) in Hla. rewrite Hla in Hacc.
        refine (ack_keeps acked k hello fs cs l1 st c1 f Htk Hr Hg Hop _ st1 pc Hstep). done. }
    specialize (Hg ltac:(done)). destruct (_ || (cf_operation f =? ControlMessage.ACTION_RESULT)) eqn:Hop2.
    { destruct (_ || negb (cf_request_id f =? 0)) eqn:Hguard; [injection Hstep as <- <-; by eapply received_stops|]. bool_to_prop.
      refine (event_keeps k hello fs cs l1 st c1 f Htk Hr Hg _ _ st1 pc Hstep); [done|]. apply orb_true_iff in Hop2 as [?|?]; bool_to_prop; auto. }
    destruct (Z.eqb_spec (cf_operation f) ControlMessage.ACTION_CANCEL_RESPONSE) as [Hop3|]; [|injection Hstep as <- <-; by eapply received_stops].
    destruct (lp_accepted l1) eqn:Hla; cbn [negb] in Hstep; [|injection Hstep as <- <-; by eapply received_stops].
    injection Hstep as <- <-. by eapply cancel_answer_keeps.
  - destruct Hread as [Hgo Hcode]. apply (inj Some) in H as <-.
    assert (Hfin : forall error, error <> 0 -> action_inv {| wd_state := st; wd_pc := PcFinish error; wd_conn := c1 |}).
    { intros error He. right. exists k, hello, fs, cs. split; [done|]. cbn. destruct (loop_ended _ _ _ _ _ _ _ Hl) as [Hrest1 Hp]. 
      split_and!; [split; [done|by rewrite Hsent1]|by eapply loop_ack|done|apply Hrest]. }
    destruct (Z.ltb_spec code 0); [apply Hfin; lia|]. assert (Hz : code = 0).
    { destruct Hcode as [|[->|[(? & p & _ & ->)|(bs & _ & Hp)]]]; [done|unfold ECONNRESET in *; lia|lia|apply control_errors in Hp; lia]. }
    destruct (Hgo Hz) as [Hrok' Hsplit].
    assert (Hloop : action_inv {| wd_state := st; wd_pc := PcLoop (with_reader l r); wd_conn := c1 |}).
    { right. exists k, hello, fs, cs. split; [done|]. cbn. unfold loop_ok. cbn. rewrite Hsent1, <- Hsplit. split_and!; auto; apply Hrest. }
    destruct poll as [e|]; [|exact Hloop]. destruct (negb (Z.pos e =? EINTR)); [apply Hfin; lia|exact Hloop].
Qed.

(** The section of [finish_action] that completes the pending Cancel. *)
Lemma finish_cancels st error : cancels_ok st -> hs_goal_sent st = true ->
  let st' := finish_action st error in
  cancels_ok st' /\ sent_ids (hs_cancels st') = sent_ids (hs_cancels st) /\ Forall (fun cl => cl_done cl = true) (hs_cancels st').
Proof.
  intros Hok Hg. unfold finish_action. cbv zeta.
  set (s := if negb (error =? 0) && _ then _ else _). set (a := if ak_done _ then _ else _).
  set (st1 := {| hs_snapshot := s; hs_ack := a |}). assert (Hok1 : cancels_ok st1) by exact Hok.
  assert (Hrest : forall i cl, hs_cancels st !! i = Some cl -> (forall n, hs_cancel st = Some n -> n <> i) -> cl_done cl = true).
  { intros i cl Hi Hn. destruct (cl_done cl) eqn:Hd; [done|]. destruct Hok as (_ & Hp & Hlast). specialize (Hlast i cl Hi Hd).
    destruct (hs_cancels st) eqn:E; [done|]. rewrite <- E in *. exfalso. apply (Hn _ Hp). lia. }
  destruct (the_cancel st1 (hs_cancel st1)) as [[i cl]|] eqn:Hc.
  - apply the_cancel_lookup in Hc as [Hp Hlook]. destruct (cl_done cl) eqn:Hd.
    + split_and!; [done|done|]. apply Forall_lookup. intros j x Hj. destruct (decide (j = i)) as [->|Hne]; [cbn in Hlook, Hj; congruence|].
      apply (Hrest j x Hj). intros n Hn. cbn in Hp. congruence.
    + assert (He : (if negb (error =? 0) then error else - EALREADY) <> 0) by (destruct (Z.eqb_spec error 0); cbn; [done|done]).
      destruct (drop_cancel_facts st1 i cl _ Hok1 Hlook Hd He) as (Hok2 & Hids & _ & _ & _ & _ & Hnew).
      split_and!; [exact Hok2|exact Hids|]. apply Forall_lookup. intros j x Hj. cbn [hs_cancels] in Hj. destruct (decide (j = i)) as [->|Hne].
      * rewrite Hnew in Hj. by injection Hj as <-.
      * cbn in Hj. rewrite list_lookup_insert_ne in Hj by done. apply (Hrest j x Hj). intros n Hn. cbn in Hp. congruence.
  - split_and!; [done|done|]. apply Forall_lookup. intros j x Hj. apply (Hrest j x Hj). intros n Hn ->. unfold the_cancel in Hc. cbn in Hc, Hj. by rewrite Hn, Hj in Hc.
Qed.

Lemma finish_snapshot st error :
  let st' := finish_action st error in
  let s := hs_snapshot st in
  observation (hs_snapshot st') = observation s /\ sn_goal (hs_snapshot st') = sn_goal s /\ hs_goal_sent st' = hs_goal_sent st /\ hs_done st' = true /\
  hs_ack st' = (if ak_done (hs_ack st) then hs_ack st
                else {| ak_done := true; ak_received := ak_received (hs_ack st); ak_unknown := hs_goal_sent st; ak_error := error |}) /\
  let lost := negb (error =? 0) && negb (sn_terminal s) && (negb (ak_received (hs_ack st)) || sn_accepted s) in
  sn_execution_unknown (hs_snapshot st') = (if lost then hs_goal_sent st else sn_execution_unknown s) /\
  sn_communication_lost (hs_snapshot st') = (if lost then hs_goal_sent st else sn_communication_lost s).
Proof.
  unfold finish_action. cbv zeta. set (a := if ak_done _ then _ else _).
  destruct (negb (error =? 0) && negb (sn_terminal (hs_snapshot st))); destruct (negb (ak_received _) || _);
    (destruct (the_cancel _ _) as [[i cl]|]; [destruct (cl_done cl)|]; by split_and!).
Qed.

Lemma finish_keeps error st c : action_inv {| wd_state := st; wd_pc := PcFinish error; wd_conn := c |} ->
  action_inv {| wd_state := finish_action st error; wd_pc := PcDone; wd_conn := c |}.
Proof.
  intros [[Hpre [He Hst]]|(k & hello & fs & cs & Htk & Hend & Hack & Hz & Hd)]; cbn [wd_state wd_pc wd_conn] in *.
  { left. split; [done|]. cbn. exists error. by rewrite Hst. }
  right. exists k, hello, fs, cs. cbn [wd_state wd_pc wd_conn].
  destruct (finish_cancels st error (tk_ok _ _ _ _ _ _ Htk) (tk_sent _ _ _ _ _ _ Htk)) as (Hok & Hids & Hall).
  destruct (finish_snapshot st error) as (Hobs & Hgoal & Hgs & Hdone & Ha & Hunk & Hlost). cbv zeta in *.
  assert (Hacc : sn_accepted (hs_snapshot (finish_action st error)) = sn_accepted (hs_snapshot st)) by (by injection Hobs).
  assert (Hter : sn_terminal (hs_snapshot (finish_action st error)) = sn_terminal (hs_snapshot st)) by (by injection Hobs).
  split; [|split; [done|]].
  { destruct Htk. split; auto; [by rewrite Hids|by rewrite Hobs|by rewrite Hgoal|by rewrite Hgs]. }
  assert (Hgs1 := tk_sent _ _ _ _ _ _ Htk). rewrite Hgs1 in *. unfold settled. rewrite Ha, Hunk, Hlost, Hacc, Hter, Hdone.
  destruct (Z.eqb_spec error 0) as [E0|E0]; cbn [negb andb].
  { specialize (Hz E0). rewrite Hz. destruct Hack as [[Hx Hy]|[(Hx & Hlt & Hy)|(Hx & Hy & Hu)]]; rewrite Hy, ?Hx; cbn; split_and!; auto; try done; lia. }
  destruct Hack as [[Hx Hy]|[(Hx & Hlt & Hy)|(Hx & Hy & Hu)]]; rewrite Hy, Hx; cbn [ak_received ak_done no_ack ack_accepted negb orb ak_error ak_unknown].
  - destruct (sn_terminal (hs_snapshot st)); cbn; split_and!; auto; done.
  - rewrite andb_false_r. cbn. split_and!; auto; done.
  - destruct (sn_terminal (hs_snapshot st)); cbn; split_and!; auto; done.
Qed.

Lemma action_step_inv e w w' : bytes (cn_incoming c0) -> cn_sent c0 = [] -> action_inv w -> track_step env config fuel g e w = Some w' -> action_inv w'.
Proof.
  intros Hb Hs Hinv H. destruct w as [st pc c]. unfold track_step in H. cbn [wd_state wd_pc wd_conn] in H.
  destruct e, pc; try discriminate H; try (injection H as <-; by apply (cancel_keeps _ _ _ _ _ Hinv)).
  - destruct Hinv as [[_ [Hst Hc]]|(? & ? & ? & ? & _ & [])]. cbn in Hst, Hc. rewrite Hst in H. by eapply connect_keeps in H.
  - destruct Hinv as [[_ []]|Hafter]. by eapply send_keeps.
  - destruct Hinv as [[_ []]|Hafter]. by eapply loop_keeps.
  - destruct Hinv as [[_ []]|Hafter]. by eapply read_keeps.
  - injection H as <-. by apply finish_keeps.
Qed.
Lemma action_run_inv es w w' : bytes (cn_incoming c0) -> cn_sent c0 = [] -> action_inv w -> track_run env config fuel g es w = Some w' -> action_inv w'.
Proof.
  intros Hb Hs. revert w. induction es as [|e es IH]; intros w Hinv H; cbn in H; [by injection H as <-|].
  destruct (track_step _ _ _ _ _ _) as [w1|] eqn:E; [|done]. eapply IH; [|exact H]. by eapply action_step_inv.
Qed.
Lemma initial_inv : cn_sent c0 = [] -> action_inv (initial g c0).
Proof using config g c0. intros Hs. left. split; [|done]. exists (hello_frame config 0 0 0). cbn. rewrite Hs. split; [done|apply prefix_nil]. Qed.
End Invariant.

(** ** What the invariant says of the snapshot *)
Lemma validate_inv g p : validate g p = 0 -> pi_boot_id p = rt_boot_id (ep_runtime (ga_endpoint g)) /\ pi_session_id p = ga_session g.
Proof. unfold validate. intros H. case_check; [done|]. by bool_to_prop. Qed.
Lemma before_observation g c w : before_send g c w ->
  observation (hs_snapshot (wd_state w)) = observe [] /\ sn_terminal (hs_snapshot (wd_state w)) = false.
Proof.
  intros [_ Hb]. destruct (wd_pc w); try done; [destruct Hb as [-> _]|destruct Hb as [_ ->]|destruct Hb as (e & _ & ->)]; try done.
  destruct (finish_snapshot (new_handle g) e) as (Ho & _). split; [by rewrite Ho|]. exact (f_equal ob_terminal Ho).
Qed.
Lemma after_frames g c w : after_send g c w -> exists k hello fs, is_link g k hello /\ Forall (genuine k) fs /\
  observation (hs_snapshot (wd_state w)) = observe fs /\ sn_goal (hs_snapshot (wd_state w)) = cf_goal (lk_request k) /\
  exists rest, cn_incoming c = frame_wire (lk_greeting k) ++ flat_map frame_wire fs ++ rest.
Proof.
  intros (k & hello & fs & cs & [Hl Hg _ Ho Hgo _ _] & Hpc). exists k, hello, fs. split_and!; auto. destruct (wd_pc w); try done.
  - destruct Hpc as (_ & -> & _ & -> & _). by eexists.
  - by destruct (loop_ended _ _ _ _ _ _ _ _ Hpc) as [? _].
  - by destruct (loop_ended _ _ _ _ _ _ _ _ Hpc) as [? _].
  - by destruct Hpc as [[? _] _].
  - by destruct Hpc as [[? _] _].
Qed.

(** The payloads shown have the sizes of the types asked for. *)
Lemma live_sublist fs f : f ∈ live fs -> f ∈ fs.
Proof. induction fs as [|x fs IH]; cbn; [done|]. destruct (is_result x); [by intros ?%elem_of_nil|]. rewrite !elem_of_cons. naive_solver. Qed.
Lemma about_types g k hello f : is_link g k hello -> about_goal (lk_request k) f = true -> cf_feedback_type f = ga_feedback g /\ cf_response_type f = ga_result g.
Proof. intros (_ & (id & t & Hreq) & _) Hab. unfold about_goal in Hab. bool_to_prop. rewrite Hreq in *. cbn in *. split; congruence. Qed.
Lemma observed_result_fits g k hello fs : is_link g k hello -> Forall (genuine k) fs -> ob_terminal (observe fs) = true ->
  WireActionTerminal (ob_state (observe fs)) = true /\ vsize (ob_result (observe fs)) = ty_payload_size (ga_result g).
Proof.
  intros Hlink Hall. cbn. destruct (List.find is_result fs) as [r|] eqn:Ef; [|done]. intros _. apply find_some in Ef as [Hin Hok]. apply list_elem_of_In in Hin.
  eapply Forall_forall in Hall as (_ & Hv & Hab & _); [|exact Hin]. unfold is_result in Hok. bool_to_prop.
  destruct (valid_result r Hv) as (_ & Hterm & Hsz); [done|]. destruct (about_types _ _ _ _ Hlink Hab) as [_ <-]. split; [done|by apply Hsz].
Qed.
Lemma observed_feedback_fits g k hello fs : is_link g k hello -> Forall (genuine k) fs -> ob_sequence (observe fs) <> 0 ->
  vsize (ob_feedback (observe fs)) = ty_payload_size (ga_feedback g).
Proof.
  intros Hlink Hall. cbn. destruct (newest (live fs)) as [f|] eqn:Ef; [|done]. intros _. apply newest_feedback in Ef as [Hin%live_sublist Hop].
  eapply Forall_forall in Hall as (_ & Hv & Hab & _); [|exact Hin]. destruct (valid_feedback f Hv Hop) as (_ & _ & ->).
  by destruct (about_types _ _ _ _ Hlink Hab) as [-> _].
Qed.

(** ** Stability of what the handle says *)
Lemma cancel_turn_observation env fuel l now previous cancel st c code st' c' : cancel_turn env fuel l now previous cancel st c = Some (code, st', c') ->
  observation (hs_snapshot st') = observation (hs_snapshot st).
Proof.
  unfold cancel_turn. intros H. destruct (the_cancel st cancel) as [[i cl]|]; [|by simplify_eq]. do 2 (case_check; [by simplify_eq|]).
  case_check; [by simplify_eq|]. destruct (NextRequest previous); [|by simplify_eq]. destruct (SendFrame _ _ _ _ _ _) as [[? ?]|]; by simplify_eq.
Qed.
Lemma dispatch_observation g acked l cancel f st st' pc : dispatch g acked l cancel f st = (st', pc) ->
  let s := hs_snapshot st in
  let s' := hs_snapshot st' in
  (lp_accepted l = true -> sn_terminal s = true -> observation s' = observation s) /\ sn_feedback_sequence s <= sn_feedback_sequence s'.
Proof.
  unfold dispatch. cbv zeta. intros H.
  destruct (cf_operation f =? ControlMessage.ACTION_GOAL_RESPONSE).
  { destruct (negb _); [by injection H as <- <-|]. destruct (lp_accepted l); [by injection H as <- <-|]. injection H as <- <-. cbn. split; [done|lia]. }
  destruct (_ || (_ =? ControlMessage.ACTION_RESULT)).
  { destruct (_ || _); [by injection H as <- <-|]. destruct (sn_terminal _); [by injection H as <- <-|].
    destruct (cf_operation f =? ControlMessage.ACTION_FEEDBACK).
    - destruct (Z.ltb_spec (sn_feedback_sequence (hs_snapshot st)) (cf_feedback_sequence f)); injection H as <- <-; cbn; split; (done || lia).
    - destruct (negb _); injection H as <- <-; cbn; split; (done || lia). }
  destruct (_ =? ControlMessage.ACTION_CANCEL_RESPONSE); [|by injection H as <- <-]. destruct (negb _); [by injection H as <- <-|]. injection H as <- <-.
  destruct (the_cancel st cancel) as [[i cl]|]; [destruct (_ && _)|]; cbn; split; (done || lia).
Qed.

Lemma action_step_stable env config fuel g c0 e w w' : action_inv g c0 w -> track_step env config fuel g e w = Some w' ->
  let s := hs_snapshot (wd_state w) in
  let s' := hs_snapshot (wd_state w') in
  (sn_terminal s = true -> observation s' = observation s) /\ sn_feedback_sequence s <= sn_feedback_sequence s'.
Proof.
  intros Hinv H. destruct w as [st pc c]. unfold track_step in H. cbn [wd_state wd_pc wd_conn] in *.
  assert (Hsame : observation (hs_snapshot (wd_state w')) = observation (hs_snapshot st) ->
    (sn_terminal (hs_snapshot st) = true -> observation (hs_snapshot (wd_state w')) = observation (hs_snapshot st)) /\
    sn_feedback_sequence (hs_snapshot st) <= sn_feedback_sequence (hs_snapshot (wd_state w'))).
  { intros E. split; [done|]. injection E as _ _ _ E _ _. lia. }
  destruct e, pc; try discriminate H; try (apply Hsame; apply (inj Some) in H as <-; cbn [wd_state];
    destruct (CancelAction_effect listed running now timeout st) as [->|(_ & _ & _ & _ & _ & ->)]; done).
  - apply Hsame. unfold connect_step in H. cbv zeta in H. repeat (case_match; try (by simplify_eq)).
  - apply Hsame. unfold send_step in H. destruct (SendFrame _ _ _ _ _ _) as [[? ?]|]; by simplify_eq.
  - apply Hsame. unfold loop_step in H. cbv zeta in H. do 2 (case_check; [by simplify_eq|]).
    destruct (cancel_turn _ _ _ _ _ _ _ _) as [[[? ?] ?]|] eqn:E; [|done]. apply cancel_turn_observation in E. apply (inj Some) in H as <-. exact E.
  - destruct Hinv as [[_ []]|(k & hello & fs & cs & Htk & Hl)]. cbn [wd_state wd_pc wd_conn] in *. unfold read_step in H.
    destruct (Read _ _ _ _) as [[[[code frame] r] c1]|]; [|done]. destruct frame as [f|]; [|apply Hsame; by simplify_eq].
    destruct (frame_step _ _ _ _ _ _ _ _ _ _) as [st1 pc1] eqn:E. apply (inj Some) in H as <-. cbn [wd_state] in *. unfold frame_step in E. cbv zeta in E.
    do 4 (case_check; [apply Hsame; by simplify_eq|]). apply dispatch_observation in E as [Hobs Hseq]. split; [|done]. intros Ht. apply Hobs; [|done].
    destruct Hl as (_ & _ & _ & _ & Hla & _ & Hn & _). cbn. rewrite Hla. destruct (sn_accepted (hs_snapshot st)) eqn:Ha; [done|].
    destruct (Hn eq_refl) as [-> _]. apply tk_observed in Htk. injection Htk as _ Htt _ _ _ _. cbn in Htt. congruence.
  - apply Hsame. apply (inj Some) in H as <-. cbn [wd_state]. by destruct (finish_snapshot st error) as (? & _).
Qed.

(** ** The claims *)
(** C18: What an Action handle shows is exactly what the gateway said, in order.  Whatever the network, discovery, the clock and the callers of CancelAction do,
    the snapshot's accepted and terminal flags, state, feedback and result are those of a list of valid frames that the connection delivered, in order, right
    after the greeting: all from the process that greeted, on the selected host, boot and session, and about this goal, endpoint, name and types, with the
    acknowledgement answering this request.  Accepted means that one of them acknowledges the goal with status 0; the result is the payload of the first
    successful result frame; the feedback is the one with the highest sequence before it.  Once the snapshot is terminal, that part of it (accepted, terminal, state, feedback and result)
    never changes again, while the answer to a Cancel may still be recorded in its cancel flags; the feedback sequence never decreases; a terminal snapshot's state
    is a terminal one and its result has the payload size of the result type asked for; and a feedback that was received (its sequence is not 0) has the payload
    size of the feedback type asked for. *)
Theorem remote_action_tracks env config fuel g c es w :
  track_run env config fuel g es (initial g c) = Some w -> bytes (cn_incoming c) -> cn_sent c = [] ->
  let s := hs_snapshot (wd_state w) in
  (exists fs, observation s = observe fs /\
     (fs <> [] -> exists greeting request rest, sn_goal s = cf_goal request /\ cn_incoming c = frame_wire greeting ++ flat_map frame_wire fs ++ rest /\
        cf_endpoint request = ga_endpoint g /\ cf_name request = ga_name g /\ cf_type request = ga_goal g /\ cf_payload request = ga_payload g /\
        cf_feedback_type request = ga_feedback g /\ cf_response_type request = ga_result g /\
        Forall (fun f => ValidFrame f = true /\ about_goal request f = true /\ cf_source f = cf_source greeting /\
                  rt_host (cf_source f) = rt_host (ep_runtime (ga_endpoint g)) /\ rt_boot_id (cf_source f) = rt_boot_id (ep_runtime (ga_endpoint g)) /\
                  cf_session_id f = ga_session g /\
                  (cf_operation f = ControlMessage.ACTION_GOAL_RESPONSE -> cf_request_id f = cf_request_id request)) fs)) /\
  (sn_terminal s = true -> WireActionTerminal (sn_state s) = true /\ vsize (sn_result s) = ty_payload_size (ga_result g)) /\
  (sn_feedback_sequence s <> 0 -> vsize (sn_feedback s) = ty_payload_size (ga_feedback g)) /\
  (forall e w', track_step env config fuel g e w = Some w' ->
     (sn_terminal s = true -> observation (hs_snapshot (wd_state w')) = observation s) /\ sn_feedback_sequence s <= sn_feedback_sequence (hs_snapshot (wd_state w'))).
Proof.
  intros H Hb Hs s. assert (Hinv := action_run_inv env config fuel g c es _ _ Hb Hs (initial_inv config g c Hs) H).
  split; [|split; [|split; [|intros e w' He; exact (action_step_stable _ _ _ _ _ _ _ _ Hinv He)]]].
  - destruct Hinv as [Hb4|Haf].
    + exists []. split; [|done]. destruct (before_observation g c w Hb4) as [Ho _]. exact Ho.
    + destruct (after_frames g c w Haf) as (k & hello & fs & Hlink & Hall & Hobs & Hgoal & rest & Hin). exists fs. split; [exact Hobs|]. intros _.
      exists (lk_greeting k), (lk_request k), rest. destruct Hlink as (_ & (id & t & Hreq) & Hhost & Hval).
      split; [exact Hgoal|]. split; [exact Hin|]. rewrite Hreq. do 6 (split; [done|]). rewrite <- Hreq.
      eapply Forall_impl; [exact Hall|]. intros f (_ & Hv & Hab & Hid & Hsrc & Hack). unfold Identity in Hid. bool_to_prop. apply validate_inv in Hval as [? ?].
      split_and!; auto; congruence.
  - intros Ht. destruct Hinv as [Hb4|Haf]; [destruct (before_observation g c w Hb4) as [_ Hterm]; unfold s in Ht; congruence|].
    destruct (after_frames g c w Haf) as (k & hello & fs & Hlink & Hall & Hobs & _). destruct (observed_fields _ _ Hobs) as (_ & Et & _ & _ & Er & Est).
    fold s in Et, Er, Est. rewrite <- Er, <- Est. apply (observed_result_fits g k hello fs Hlink Hall). by rewrite Et.
  - intros Hseq. destruct Hinv as [Hb4|Haf].
    { destruct (before_observation g c w Hb4) as [Ho _]. destruct (observed_fields _ _ Ho) as (_ & _ & Es & _). by fold s in Es. }
    destruct (after_frames g c w Haf) as (k & hello & fs & Hlink & Hall & Hobs & _). destruct (observed_fields _ _ Hobs) as (_ & _ & Es & Ef & _).
    fold s in Es, Ef. rewrite <- Ef. apply (observed_feedback_fits g k hello fs Hlink Hall). by rewrite Es.
Qed.

(** An Action handle never overstates what it knows, and nobody waits for it in vain.  The goal request goes out at most once, after one greeting, followed by
    one Cancel frame, in order, for each Cancel marked as sent.  Every Cancel that got no answer reports an error and is unknown exactly when it was sent; one that was answered was sent, and is accepted exactly when its
    status is 0.  Once the worker is done, the caller of StartAction and every caller of CancelAction has its answer; the outcome is reported as known only if
    nothing of the goal was sent, the result arrived, or the gateway refused the goal with a negative status; an accepted goal without a result is reported as lost and unknown; and a goal that
    was sent and never acknowledged is reported as unknown. *)
Theorem remote_action_outcome env config fuel g c es w :
  track_run env config fuel g es (initial g c) = Some w -> bytes (cn_incoming c) -> cn_sent c = [] ->
  let st := wd_state w in
  let s := hs_snapshot st in
  (exists hello, cf_operation hello = ControlMessage.HELLO /\
     (hs_goal_sent st = false -> cn_sent (wd_conn w) `prefix_of` frame_wire hello /\ hs_cancels st = []) /\
     (hs_goal_sent st = true -> exists request cs, cf_operation request = ControlMessage.ACTION_GOAL_REQUEST /\ cf_goal request = sn_goal s /\
        cf_endpoint request = ga_endpoint g /\ cf_payload request = ga_payload g /\
        cn_sent (wd_conn w) `prefix_of` frame_wire hello ++ frame_wire request ++ flat_map frame_wire cs /\
        Forall2 (fun id f => exists t, f = cancel_frame request id t) (sent_ids (hs_cancels st)) cs)) /\
  Forall cancel_ok (hs_cancels st) /\
  (hs_done st = true ->
     ak_done (hs_ack st) = true /\ Forall (fun cl => cl_done cl = true) (hs_cancels st) /\
     (sn_execution_unknown s = false ->
        hs_goal_sent st = false \/ sn_terminal s = true \/ (sn_accepted s = false /\ ak_received (hs_ack st) = true /\ ak_error (hs_ack st) < 0)) /\
     (sn_accepted s = true -> sn_terminal s = false -> sn_communication_lost s = true /\ sn_execution_unknown s = true) /\
     (hs_goal_sent st = true -> ak_received (hs_ack st) = false -> ak_unknown (hs_ack st) = true)).
Proof.
  intros H Hb Hs st s. assert (Hinv := action_run_inv env config fuel g c es _ _ Hb Hs (initial_inv config g c Hs) H).
  destruct Hinv as [Hbef|Haf].
  - destruct Hbef as [(hello & Hop & Hpre) Hpc]. assert (Hst : hs_goal_sent st = false /\ hs_cancels st = [] /\ (hs_done st = true -> ak_done (hs_ack st) = true) /\ sn_accepted s = false).
    { unfold s, st. destruct (wd_pc w); try done; [destruct Hpc as [-> _]|destruct Hpc as [_ ->]|destruct Hpc as (e & He & ->)]; try done.
      destruct (finish_snapshot (new_handle g) e) as (Ho & _ & Hg & _ & Hack & _). rewrite Hg, Hack. split_and!; try done. exact (f_equal ob_accepted Ho). }
    destruct Hst as (Hg & Hc & Hd & Ha). split_and!.
    + exists hello. rewrite Hg. by split_and!.
    + by rewrite Hc.
    + intros Hdone. rewrite Hg, Hc, Ha. by split_and!; auto.
  - destruct Haf as (k & hello & fs & cs & Htk & Hpc). fold st in Htk.
    assert (Hsent : cn_sent (wd_conn w) `prefix_of` frame_wire hello ++ frame_wire (lk_request k) ++ flat_map frame_wire cs).
    { destruct (wd_pc w); try done.
      - destruct Hpc as (_ & _ & _ & _ & -> & _). by apply prefix_app_r.
      - by destruct (loop_ended _ _ _ _ _ _ _ _ Hpc) as [_ ?].
      - by destruct (loop_ended _ _ _ _ _ _ _ _ Hpc) as [_ ?].
      - by destruct Hpc as [[_ ?] _].
      - by destruct Hpc as [[_ ?] _]. }
    assert (Hset : hs_done st = true -> settled st).
    { intros Hd. destruct (wd_pc w); try done.
      - destruct Hpc as (_ & _ & _ & _ & _ & _ & _ & _ & _ & Hn). unfold st in Hd. congruence.
      - destruct Hpc as (_ & _ & _ & _ & _ & _ & _ & _ & _ & Hn). unfold st in Hd. congruence.
      - destruct Hpc as (_ & _ & _ & _ & _ & _ & _ & _ & _ & Hn). unfold st in Hd. congruence.
      - destruct Hpc as (_ & _ & _ & Hn). unfold st in Hd. congruence.
      - by destruct Hpc as [_ ?]. }
    destruct Htk as [(Hop & (id & t & Hreq) & _) _ Hcs _ Hgoal Hgs Hok]. split_and!.
    + exists hello. split; [done|]. rewrite Hgs. split; [done|]. intros _. exists (lk_request k), cs. rewrite Hreq in Hgoal |- *. by rewrite Hreq in Hcs, Hsent; split_and!.
    + by destruct Hok as [? _].
    + intros Hd. destruct (Hset Hd) as (_ & Ha & Hall & Hknown & Hlost & Hunk). split_and!; auto.
Qed.

(** ** Deadlines *)
Definition tracking_ok (pc : Pc) : Prop := match pc with PcLoop l | PcRead l _ => lp_accepted l = true -> lp_tracking l <> None | _ => True end.
Lemma dispatch_tracking g acked l cancel f st st' pc : tracking_ok (PcLoop l) -> dispatch g acked l cancel f st = (st', pc) -> tracking_ok pc.
Proof. unfold dispatch. cbv zeta. intros Hl H. repeat case_check; by simplify_eq. Qed.
Lemma action_step_tracking env config fuel g e w w' : tracking_ok (wd_pc w) -> track_step env config fuel g e w = Some w' -> tracking_ok (wd_pc w').
Proof.
  intros Hl H. destruct w as [st pc c]. unfold track_step in H. cbn [wd_state wd_pc wd_conn] in *. destruct e, pc; try discriminate H; try (by apply (inj Some) in H as <-).
  - unfold connect_step in H. cbv zeta in H. repeat (case_match; try (by simplify_eq)).
  - unfold send_step in H. destruct (SendFrame _ _ _ _ _ _) as [[? ?]|]; [|done]. apply (inj Some) in H as <-. cbn. by case_check.
  - unfold loop_step in H. cbv zeta in H. do 2 (case_check; [by simplify_eq|]).
    destruct (cancel_turn _ _ _ _ _ _ _ _) as [[[? ?] ?]|]; [|done]. apply (inj Some) in H as <-. cbn [wd_pc]. by repeat case_check.
  - unfold read_step in H. destruct (Read _ _ _ _) as [[[[code frame] r] c1]|]; [|done]. destruct frame as [f|].
    + destruct (frame_step _ _ _ _ _ _ _ _ _ _) as [st1 pc1] eqn:E. apply (inj Some) in H as <-. cbn [wd_pc]. unfold frame_step in E. cbv zeta in E.
      do 4 (case_check; [by simplify_eq|]). by eapply dispatch_tracking in E.
    + apply (inj Some) in H as <-. cbn [wd_pc]. case_check; [done|]. destruct poll; [case_check|]; done.
Qed.
Lemma action_run_tracking env config fuel g es w w' : tracking_ok (wd_pc w) -> track_run env config fuel g es w = Some w' -> tracking_ok (wd_pc w').
Proof.
  revert w. induction es as [|e es IH]; intros w Hl H; cbn in H; [by injection H as <-|]. destruct (track_step _ _ _ _ _ _) as [w1|] eqn:E; [|done].
  eapply IH; [|exact H]. by eapply action_step_tracking.
Qed.

(** An Action handle ends at its deadlines: in any state the worker can reach at the top of its loop, a turn at or after the acknowledgement deadline (while
    the goal is not accepted), the tracking deadline and the deadline of a pending Cancel is the last one: without any further input or output, whatever
    discovery says, the worker finishes, and then the caller of StartAction and every caller of CancelAction has its answer. *)
Theorem remote_action_deadline env config fuel g c es w l v now previous :
  track_run env config fuel g es (initial g c) = Some w -> bytes (cn_incoming c) -> cn_sent c = [] -> wd_pc w = PcLoop l ->
  (lp_accepted l = false -> lk_ack_deadline (lp_link l) <= now) -> (forall t, lp_tracking l = Some t -> t <= now) ->
  (forall k cl, the_cancel (wd_state w) (hs_cancel (wd_state w)) = Some (k, cl) -> cl_done cl = false -> cl_deadline cl <= now) ->
  exists w', track_run env config fuel g [EvLoop v now previous; EvFinish] w = Some w' /\ wd_pc w' = PcDone /\ wd_conn w' = wd_conn w /\
    hs_done (wd_state w') = true /\ ak_done (hs_ack (wd_state w')) = true /\ Forall (fun cl => cl_done cl = true) (hs_cancels (wd_state w')).
Proof.
  intros H Hb Hs Hpc Hack Htrack Hcancel. assert (Hinv := action_run_inv env config fuel g c es _ _ Hb Hs (initial_inv config g c Hs) H).
  assert (Htk := action_run_tracking env config fuel g es (initial g c) w I H). rewrite Hpc in Htk. cbn [tracking_ok] in Htk.
  assert (Hstep : exists st error, track_step env config fuel g (EvLoop v now previous) w = Some {| wd_state := st; wd_pc := PcFinish error; wd_conn := wd_conn w |}).
  { unfold track_step. rewrite Hpc. unfold loop_step. cbv zeta. case_check; [by eexists _, _|]. destruct (expired l now now) eqn:Hexp; [by eexists _, _|].
    assert (Hterm : lp_terminal l = true).
    { unfold expired in Hexp. destruct (lp_terminal l); [done|]. apply orb_false_iff in Hexp as [E1 E2]. cbn [negb andb] in E2.
      destruct (lp_accepted l); [|cbn in E1; bool_to_prop; specialize (Hack eq_refl); lia]. destruct (lp_tracking l) as [t|]; [|by destruct (Htk eq_refl)].
      specialize (Htrack t eq_refl). bool_to_prop. lia. }
    unfold cancel_turn. rewrite Hterm. destruct (the_cancel (wd_state w) (hs_cancel (wd_state w))) as [[i cl]|] eqn:Hc; [|cbn; rewrite Hc; by eexists _, _].
    destruct (cl_done cl) eqn:Hd; [cbn; rewrite Hc, Hd; by eexists _, _|]. specialize (Hcancel i cl eq_refl Hd).
    destruct (Z.leb_spec (cl_deadline cl) now); [|lia]. cbn [orb]. apply the_cancel_lookup in Hc as [Hp Hlook]. rewrite Hp. unfold the_cancel. cbn.
    rewrite list_lookup_insert_eq by (by eapply lookup_lt_Some). by eexists _, _. }
  destruct Hstep as (st & error & Hstep). assert (Hinv1 := action_step_inv env config fuel g c _ _ _ Hb Hs Hinv Hstep).
  assert (Hinv2 := finish_keeps g c error st (wd_conn w) Hinv1).
  exists {| wd_state := finish_action st error; wd_pc := PcDone; wd_conn := wd_conn w |}. cbn [track_run]. rewrite Hstep. cbn [track_step wd_pc wd_state wd_conn].
  split; [done|]. split; [done|]. split; [done|]. destruct Hinv2 as [[_ Hbef]|(k & hello & fs & cs & _ & _ & Hset)].
  - destruct Hinv as [[_ Hw]|Haf]; [by rewrite Hpc in Hw|]. destruct Hbef as (e & _ & E). cbn [wd_state] in E. rewrite E.
    destruct (finish_snapshot (new_handle g) e) as (_ & _ & _ & Hd & Ha & _). rewrite Hd, Ha. split_and!; [done|done|]. unfold finish_action. cbn. by repeat case_check.
  - destruct Hset as (? & ? & ? & _). by split_and!.
Qed.

(** ** Admission *)
Definition live_actions (actions : list (nat * bool)) : list (nat * bool) := List.filter (fun a => negb (snd a)) actions.
(** At most four live goals; an admission keeps every live handle, in order, and a refused one
    changes nothing but the finished handles it removes. *)
Lemma StartAction_admission config running spawned g id actions error actions' :
  StartAction config running spawned g id actions = (error, actions') ->
  live_actions actions' = live_actions actions ++ (if error =? 0 then [(id, false)] else []) /\
  (error = 0 -> (length (live_actions actions') <= 4)%nat /\ valid_goal config g = true) /\
  (running = true -> valid_goal config g = true -> spawned = true -> (length (live_actions actions) < 4)%nat -> error = 0).
Proof.
  unfold StartAction. fold (live_actions actions). intros H.
  assert (Hidem : forall l, live_actions (live_actions l) = live_actions l).
  { intros l. unfold live_actions. induction l as [|[i d] l IH]; [done|]. cbn. destruct d; cbn; [done|]. by rewrite IH. }
  destruct (negb (valid_goal config g)) eqn:Hv; [injection H as <- <-; bool_to_prop; rewrite app_nil_r; split_and!; (done || congruence)|].
  destruct (negb running) eqn:Hr; [injection H as <- <-; bool_to_prop; rewrite app_nil_r; split_and!; (done || congruence)|].
  destruct (Z.leb_spec 4 (Z.of_nat (length (live_actions actions)))); [injection H as <- <-; rewrite app_nil_r, Hidem; split_and!; (done || lia)|].
  destruct (negb spawned) eqn:Hsp; [injection H as <- <-; bool_to_prop; rewrite app_nil_r, Hidem; split_and!; (done || congruence)|].
  injection H as <- <-. bool_to_prop. assert (Happ : live_actions (live_actions actions ++ [(id, false)]) = live_actions actions ++ [(id, false)]).
  { unfold live_actions at 1. rewrite List.filter_app. fold (live_actions (live_actions actions)). by rewrite Hidem. }
  rewrite Happ. split_and!; [done| |done]. intros _. rewrite length_app. cbn. split; [lia|done].
Qed.

(** ** A concrete goal *)
Definition action_metadata : NetworkEndpointMetadata :=
  {| md_protocol_version := PROTOCOL_VERSION; md_identity := sample_endpoint 1; md_application := no_runtime; md_host_name := [];
     md_application_name := []; md_element_name := [101]; md_name := sample_name; md_groups := []; md_kind := EndpointKind.ACTION;
     md_role := EndpointRole.PROVIDER; md_scope := NetworkScope.REMOTE; md_value_type := no_type; md_request_type := sample_type;
     md_response_type := sample_type; md_feedback_type := sample_type |}.
Definition action_peer : PeerInfo :=
  {| pi_host := pi_host gateway_peer; pi_boot_id := pi_boot_id gateway_peer; pi_session_id := pi_session_id gateway_peer; pi_address := pi_address gateway_peer;
     pi_port := pi_port gateway_peer; pi_last_seen := 0; pi_metadata_revision := 1; pi_state := ONLINE; pi_profile := pi_profile gateway_peer;
     pi_compatibility := pi_compatibility gateway_peer; pi_metadata_ready := true; pi_endpoints := [action_metadata] |}.
Definition action_view : View := {| vw_canceled := false; vw_session := 80; vw_error := 0; vw_peers := [action_peer] |}.
Definition sample_goal : Goal :=
  {| ga_endpoint := sample_endpoint 1; ga_session := 70; ga_name := sample_name; ga_goal := sample_type; ga_feedback := sample_type; ga_result := sample_type;
     ga_payload := [1; 2]; ga_timeout := 1000; ga_tracking := 2000 |}.
Definition gateway_says (op id state sequence : Z) (payload : list Z) : ControlFrame :=
  {| cf_operation := op; cf_source := sample_runtime 1; cf_session_id := 70; cf_request_id := id; cf_endpoint := sample_endpoint 1;
     cf_target := TargetScope.ENDPOINT; cf_name := sample_name; cf_type := sample_type; cf_response_type := sample_type; cf_feedback_type := sample_type;
     cf_goal := {| rg_source := {| rt_host := dc_host client_config; rt_boot_id := dc_boot_id client_config; rt_pid := 100; rt_process_start_ticks := 7 |};
                   rg_goal_id := 5; rg_session_id := 80 |};
     cf_action_state := state; cf_outcome_unknown := false; cf_feedback_sequence := sequence; cf_timeout_ms := 0; cf_status := 0;
     cf_reason := CompatibilityReason.COMPATIBLE; cf_payload := payload; cf_descriptor_role := 0 |}.
Definition gateway_frames : list ControlFrame :=
  [gateway_says ControlMessage.ACTION_GOAL_RESPONSE 5 WireActionState.ACCEPTED 0 [];
   gateway_says ControlMessage.ACTION_FEEDBACK 0 WireActionState.RUNNING 1 [7; 7];
   gateway_says ControlMessage.ACTION_CANCEL_RESPONSE 9 WireActionState.ACCEPTED 0 [];
   gateway_says ControlMessage.ACTION_RESULT 0 WireActionState.CANCELED 0 [8; 9]].
Definition goal_conn : Conn := {| cn_tick := 0; cn_incoming := frame_wire gateway_hello ++ flat_map frame_wire gateway_frames; cn_sent := [] |}.
Definition goal_connect : HandleEvent :=
  EvConnect {| sc_start := 0; sc_before := action_view; sc_session := 80; sc_pid := 100; sc_ticks := Some 7%Z; sc_connect := open_socket;
               sc_greeted := action_view; sc_previous := 4; sc_now := 0 |}.
Definition goal_turn : list HandleEvent := [EvLoop action_view 0 8; EvRead None action_view 0 0 0].
(** Accepted; a Cancel is asked for, sent and acknowledged; feedback; the result. *)
Definition goal_events : list HandleEvent :=
  [goal_connect; EvSend] ++ goal_turn ++ [EvCancel true true 0 1000] ++ goal_turn ++ goal_turn ++ goal_turn ++ [EvLoop action_view 0 8; EvFinish].

Lemma goal_bytes : bytes (cn_incoming goal_conn).
Proof. apply byte_list_bytes. vm_compute. reflexivity. Qed.

Lemma remote_action_tracks_witness :
  exists w fs, track_run byte_env client_config 700 sample_goal goal_events (initial sample_goal goal_conn) = Some w /\
    sn_terminal (hs_snapshot (wd_state w)) = true /\ sn_result (hs_snapshot (wd_state w)) = [8; 9] /\
    observation (hs_snapshot (wd_state w)) = observe fs.
Proof.
  assert (Hx : match track_run byte_env client_config 700 sample_goal goal_events (initial sample_goal goal_conn) with
               | Some w => sn_terminal (hs_snapshot (wd_state w)) && (sn_result (hs_snapshot (wd_state w)) =?? [8; 9]) | None => false end = true)
    by (vm_compute; reflexivity).
  destruct (track_run byte_env client_config 700 sample_goal goal_events (initial sample_goal goal_conn)) as [w|] eqn:Hr; [|discriminate Hx].
  apply andb_true_iff in Hx as [Ht Hres]. apply bool_decide_eq_true in Hres.
  destruct (remote_action_tracks byte_env client_config 700 sample_goal goal_conn goal_events w Hr goal_bytes eq_refl) as ((fs & Hobs & _) & _).
  exists w, fs. split; [reflexivity|]. split; [exact Ht|]. split; [exact Hres|exact Hobs].
Defined.

Lemma remote_action_outcome_witness :
  exists w, track_run byte_env client_config 700 sample_goal goal_events (initial sample_goal goal_conn) = Some w /\
    sent_ids (hs_cancels (wd_state w)) = [9] /\ Forall cancel_ok (hs_cancels (wd_state w)).
Proof.
  assert (Hx : match track_run byte_env client_config 700 sample_goal goal_events (initial sample_goal goal_conn) with
               | Some w => sent_ids (hs_cancels (wd_state w)) =?? [9] | None => false end = true) by (vm_compute; reflexivity).
  destruct (track_run byte_env client_config 700 sample_goal goal_events (initial sample_goal goal_conn)) as [w|] eqn:Hr; [|discriminate Hx].
  apply bool_decide_eq_true in Hx. exists w. split; [reflexivity|]. split; [exact Hx|].
  exact (proj1 (proj2 (remote_action_outcome byte_env client_config 700 sample_goal goal_conn goal_events w Hr goal_bytes eq_refl))).
Defined.

(** The witness: the goal is sent and never answered. *)
Lemma remote_action_deadline_witness :
  exists w w', track_run byte_env client_config 700 sample_goal [goal_connect; EvSend] (initial sample_goal goal_conn) = Some w /\
    track_run byte_env client_config 700 sample_goal [EvLoop action_view 1000000000 8; EvFinish] w = Some w' /\
    hs_done (wd_state w') = true.
Proof.
  assert (Hx : match track_run byte_env client_config 700 sample_goal [goal_connect; EvSend] (initial sample_goal goal_conn) with
               | Some {| wd_state := st; wd_pc := PcLoop l |} =>
                   negb (lp_accepted l) && (lk_ack_deadline (lp_link l) =? 1000000000) && (match lp_tracking l with None => true | Some _ => false end) &&
                   (match the_cancel st (hs_cancel st) with None => true | Some _ => false end)
               | _ => false end = true) by (vm_compute; reflexivity).
  destruct (track_run byte_env client_config 700 sample_goal [goal_connect; EvSend] (initial sample_goal goal_conn)) as [[st pc c]|] eqn:Hr; [|discriminate Hx].
  destruct pc as [|k|l| | |]; try discriminate Hx.
  apply andb_true_iff in Hx as [Hx Hcl]. apply andb_true_iff in Hx as [Hx Htr]. apply andb_true_iff in Hx as [_ Hdl]. apply Z.eqb_eq in Hdl.
  destruct (remote_action_deadline byte_env client_config 700 sample_goal goal_conn [goal_connect; EvSend] {| wd_state := st; wd_pc := PcLoop l; wd_conn := c |} l
    action_view 1000000000 8 Hr goal_bytes eq_refl eq_refl) as (w' & Hrun & _ & _ & Hdone & _).
  - intros _. rewrite Hdl. apply Z.le_refl.
  - intros t Ht. rewrite Ht in Htr. discriminate Htr.
  - intros k cl Hk _. cbn [wd_state] in Hk. rewrite Hk in Hcl. discriminate Hcl.
  - exists {| wd_state := st; wd_pc := PcLoop l; wd_conn := c |}, w'. split; [reflexivity|]. split; [exact Hrun|exact Hdone].
Defined.
