(* ===== verification/DiagnosticsClient.v ===== *)
(** * The network diagnostics client

    [NetworkDiagnosticsClient::Query] of [kcf/src/network/network_diagnostics_client.cpp]: one
    connection, one request for the snapshot of a gateway's Topic routes, one response.  The
    selection of the peer is [Peer] of [RemoteControl] at another capability (the two sources
    have the same function), and the connection is [ConnectHello] without a cancel flag. *)
From S2P Require Import Prelude Wire NetTypes NetWire Compatibility DiscoveryProtocol TypeDescriptor NetworkDiagnostics ControlFrame ControlStream PeerDiscovery RemoteControl.

(** What a call reads, in order.  The [vw_canceled] flag of a view is not used here. *)
Record QueryEnv := {
  qe_start : Z;
  qe_locked : bool;                 (** [try_lock_until(deadline)] *)
  qe_before : View;
  qe_pid : Z;
  qe_ticks : option Z;
  qe_connect : ConnectEnv;
  qe_greeted : View;
  qe_request_now : Z;
  qe_previous : Z;
  qe_answered : View;
  qe_checked_now : Z;
  qe_final_now : Z
}.

Section Query.
Context (env : nat -> Answer) (config : DiscoveryConfig).

Definition DiagnosticsPeer (v : View) (gateway : HostIdentity) : result PeerInfo := Peer config v gateway Capability.NETWORK_DIAGNOSTICS.
Definition query_fresh (gateway : HostIdentity) (session : Z) (peer : PeerInfo) (v : View) : Z :=
  if negb (vw_session v =? session) then - ESTALE
  else match DiagnosticsPeer v gateway with
  | Err error => error
  | Ok current =>
      if (pi_boot_id current =?? pi_boot_id peer) && (pi_session_id current =? pi_session_id peer) &&
         (pi_address current =?? pi_address peer) && (pi_port current =? pi_port peer) then 0 else - ESTALE
  end.
Definition diagnostics_request (hello : ControlFrame) (timeout_ms id : Z) : ControlFrame :=
  {| cf_operation := ControlMessage.DIAGNOSTICS_REQUEST; cf_source := cf_source hello; cf_session_id := cf_session_id hello; cf_request_id := id;
     cf_endpoint := cf_endpoint hello; cf_target := TargetScope.HOST; cf_name := cf_name hello; cf_type := cf_type hello;
     cf_response_type := cf_response_type hello; cf_feedback_type := cf_feedback_type hello; cf_goal := cf_goal hello;
     cf_action_state := cf_action_state hello; cf_outcome_unknown := cf_outcome_unknown hello; cf_feedback_sequence := cf_feedback_sequence hello;
     cf_timeout_ms := timeout_ms; cf_status := cf_status hello; cf_reason := cf_reason hello; cf_payload := cf_payload hello;
     cf_descriptor_role := cf_descriptor_role hello |}.

(** From the accepted response on. *)
Definition accept_snapshot (q : QueryEnv) (deadline : Z) (peer : PeerInfo) (r : ControlFrame) : result NetworkDiagnosticsSnapshot :=
  if deadline <=? qe_checked_now q then Err (- ETIMEDOUT)
  else if negb (cf_status r =? 0) then Err (cf_status r)
  else match DecodeNetworkDiagnosticsSnapshot (Some (cf_payload r)) with
  | Err code => Err code
  | Ok s =>
      if negb (nd_gateway_host s =?? pi_host peer) || negb (nd_gateway_boot_id s =?? pi_boot_id peer) || negb (nd_gateway_session s =? pi_session_id peer)
      then Err (- ESTALE)
      else if deadline <=? qe_final_now q then Err (- ETIMEDOUT)
      else Ok s
  end.
(** The request and its response. *)
Definition diagnostics_exchange (fuel : nat) (q : QueryEnv) (gateway : HostIdentity) (session deadline : Z) (peer : PeerInfo)
    (greeting request : ControlFrame) (c : Conn) : option (result NetworkDiagnosticsSnapshot * Conn) :=
  match SendFrame env fuel request false deadline c with
  | None => None
  | Some (code, c) =>
      if negb (code =? 0) then Some (Err code, c)
      else match ReceiveFrame env fuel ControlMessage.DIAGNOSTICS_RESPONSE false deadline c with
      | None => None
      | Some (Err code, c) => Some (Err code, c)
      | Some (Ok r, c) =>
          Some (if negb (cf_request_id r =? cf_request_id request) then Err (- EPROTO)
                else if negb (Identity r peer) || negb (cf_source r =?? cf_source greeting) then Err (- ESTALE)
                else let code := query_fresh gateway session peer (qe_answered q) in
                if negb (code =? 0) then Err code else accept_snapshot q deadline peer r, c)
      end
  end.
Definition Query (fuel : nat) (q : QueryEnv) (gateway : HostIdentity) (timeout : Z) (c : Conn) : option (result NetworkDiagnosticsSnapshot * Conn) :=
  if (timeout <? 1) || (60000 <? timeout) || negb (ValidHost gateway) || (gateway =?? dc_host config) || negb (ValidHost (dc_host config)) ||
     negb (ValidHost (dc_boot_id config)) || negb (IsObserverProfile (dc_profile config)) then Some (Err (- EINVAL), c)
  else
    let deadline := qe_start q + timeout * millisecond in
    if negb (qe_locked q) then Some (Err (- ETIMEDOUT), c)
    else
      let session := vw_session (qe_before q) in
      if session =? 0 then Some (Err (- ENOTCONN), c)
      else match DiagnosticsPeer (qe_before q) gateway with
      | Err code => Some (Err code, c)
      | Ok peer =>
          match qe_ticks q with
          | None => Some (Err (- ESRCH), c)
          | Some ticks =>
              let hello := hello_frame config (qe_pid q) ticks session in
              match ConnectHello env fuel (qe_connect q) hello false deadline c with
              | None => None
              | Some (Err code, c) => Some (Err code, c)
              | Some (Ok greeting, c) =>
                  if negb (Identity greeting peer) then Some (Err (- ESTALE), c)
                  else let code := query_fresh gateway session peer (qe_greeted q) in
                  if negb (code =? 0) then Some (Err code, c)
                  else
                    let remaining := Z.quot (deadline - qe_request_now q) millisecond in
                    if remaining <? 1 then Some (Err (- ETIMEDOUT), c)
                    else match NextRequest (qe_previous q) with
                    | Err code => Some (Err code, c)
                    | Ok id => diagnostics_exchange fuel q gateway session deadline peer greeting (diagnostics_request hello (u32 remaining) id) c
                    end
              end
          end
      end.
End Query.

Lemma accept_snapshot_ok q deadline peer r s : bytes (cf_payload r) -> accept_snapshot q deadline peer r = Ok s ->
  cf_status r = 0 /\ EncodeNetworkDiagnosticsSnapshot s = Ok (cf_payload r) /\ nd_gateway_host s = pi_host peer /\
  nd_gateway_boot_id s = pi_boot_id peer /\ nd_gateway_session s = pi_session_id peer.
Proof.
  intros Hb H. unfold accept_snapshot in H. do 2 (case_check; [done|]). destruct (DecodeNetworkDiagnosticsSnapshot _) as [s'|] eqn:Hd; [|done].
  do 2 (case_check; [done|]). injection H as ->. bool_to_prop. apply DecodeNetworkDiagnosticsSnapshot_inv in Hd as [Hf Hw]; [|done].
  rewrite Hw. split_and!; auto using encode_fits.
Qed.

Lemma diagnostics_exchange_spec env config fuel q gateway session deadline peer greeting request c out c' :
  diagnostics_exchange env config fuel q gateway session deadline peer greeting request c = Some (out, c') -> bytes (cn_incoming c) ->
  (exists pre, pre `prefix_of` frame_wire request /\ cn_sent c' = cn_sent c ++ pre) /\
  (forall s, out = Ok s -> cn_sent c' = cn_sent c ++ frame_wire request /\
     exists r, cn_incoming c = frame_wire r ++ cn_incoming c' /\ ValidFrame r = true /\ cf_operation r = ControlMessage.DIAGNOSTICS_RESPONSE /\
       cf_request_id r = cf_request_id request /\ cf_source r = cf_source greeting /\ Identity r peer = true /\
       query_fresh config gateway session peer (qe_answered q) = 0 /\ bytes (cf_payload r) /\ accept_snapshot q deadline peer r = Ok s).
Proof.
  unfold diagnostics_exchange. intros H Hb. destruct (SendFrame _ _ _ _ _ _) as [[code1 c1]|] eqn:Hsend; [|done].
  apply SendFrame_prefix in Hsend as [Hi1 Hpre].
  destruct Hpre as (pre & post & Hreq & Hs2 & Hdone). assert (Hsome : exists pre, pre `prefix_of` frame_wire request /\ cn_sent c1 = cn_sent c ++ pre).
  { exists pre. split; [rewrite <- Hreq; by eexists|done]. }
  destruct (Z.eqb_spec code1 0) as [Hz|]; cbn [negb] in H; [|apply (inj Some), pair_equal_spec in H as [<- <-]; by split].
  rewrite (Hdone Hz), app_nil_r in Hreq. subst pre.
  destruct (ReceiveFrame _ _ _ _ _ _) as [[[r|code2] c2]|] eqn:Hrecv; [| |done];
    apply ReceiveFrame_received in Hrecv as (Hs3 & data & Hd & _ & Hok); try (by rewrite Hi1); apply (inj Some), pair_equal_spec in H as [Hout <-]; rewrite Hs3.
  2:{ subst out. by split. }
  destruct (Hok r eq_refl) as (-> & Hwf & Hv & Hop & _). split; [done|]. intros s ->. split; [done|]. exists r. rewrite <- Hi1.
  destruct (negb (cf_request_id r =? cf_request_id request)) eqn:E1; [done|]. destruct (_ || _) eqn:E2; [done|].
  destruct (negb (query_fresh _ _ _ _ _ =? 0)) eqn:E3; [done|]. bool_to_prop. split_and!; auto.
  by destruct Hwf as (_ & _ & _ & _ & _ & _ & _ & _ & _ & _ & _ & _ & _ & _ & _ & _ & ? & _).
Qed.

(** A diagnostics query returns the gateway's own snapshot or an error.  Whatever the
    network and discovery do, a successful query has sent exactly one greeting and one
    request, and returns the snapshot whose canonical encoding is the payload of a response
    with status 0 to this request, received after the greeting from the process that greeted,
    which is the selected gateway: the host asked for, in the boot and session that discovery
    shows before connecting, before sending and after the answer, and the snapshot names
    that same gateway.  Nothing is sent beyond a greeting and one request. *)
Theorem diagnostics_query_exact env config fuel q gateway timeout c out c' :
  Query env config fuel q gateway timeout c = Some (out, c') -> bytes (cn_incoming c) -> cn_sent c = [] ->
  exists hello request, cf_operation hello = ControlMessage.HELLO /\ cf_operation request = ControlMessage.DIAGNOSTICS_REQUEST /\
    cn_sent c' `prefix_of` frame_wire hello ++ frame_wire request /\
    (forall s, out = Ok s -> cn_sent c' = frame_wire hello ++ frame_wire request /\
       exists peer greeting r, peer ∈ vw_peers (qe_before q) /\ pi_host peer = gateway /\ pi_state peer = ONLINE /\
         cn_incoming c = frame_wire greeting ++ frame_wire r ++ cn_incoming c' /\ ValidFrame r = true /\
         cf_operation r = ControlMessage.DIAGNOSTICS_RESPONSE /\ cf_request_id r = cf_request_id request /\ cf_status r = 0 /\
         cf_source r = cf_source greeting /\ Identity greeting peer = true /\ Identity r peer = true /\
         EncodeNetworkDiagnosticsSnapshot s = Ok (cf_payload r) /\ nd_gateway_host s = gateway /\
         nd_gateway_boot_id s = pi_boot_id peer /\ nd_gateway_session s = pi_session_id peer /\
         query_fresh config gateway (vw_session (qe_before q)) peer (qe_greeted q) = 0 /\
         query_fresh config gateway (vw_session (qe_before q)) peer (qe_answered q) = 0).
Proof.
  intros H Hb Hs. unfold Query in H. cbv zeta in H.
  set (remaining := Z.quot (qe_start q + timeout * millisecond - qe_request_now q) millisecond) in *.
  set (hello := hello_frame config (qe_pid q) (default 0 (qe_ticks q)) (vw_session (qe_before q))).
  exists hello, (diagnostics_request hello (u32 remaining) (default 0 (match NextRequest (qe_previous q) with Ok id => Some id | Err _ => None end))).
  set (request := diagnostics_request _ _ _). split; [done|]. split; [done|].
  match goal with |- ?goal => assert (Hstop : forall e c1, cn_sent c1 `prefix_of` frame_wire hello -> Some (Err e, c1) = Some (out, c') -> goal) end.
  { intros e c1 Hp K. apply (inj Some), pair_equal_spec in K as [<- <-]. split; [by apply prefix_app_r|done]. }
  assert (Hempty : cn_sent c `prefix_of` frame_wire hello) by (rewrite Hs; apply prefix_nil).
  do 3 (match type of H with (if ?b then _ else _) = _ => destruct b end; [by eapply Hstop in H|]).
  unfold DiagnosticsPeer in H. destruct (Peer _ _ _ _) as [peer|e1] eqn:Hpeer; [|by eapply Hstop in H]. apply Peer_inv in Hpeer as (Hhost & Hin & Hon).
  destruct (qe_ticks q) as [ticks|]; [|by eapply Hstop in H]. change (hello_frame config (qe_pid q) ticks (vw_session (qe_before q))) with hello in H.
  destruct (ConnectHello _ _ _ _ _ _ _) as [[[greeting|e2] c1]|] eqn:Hconn; [| |done].
  2:{ destruct (ConnectHello_any _ _ _ _ _ _ _ _ _ Hconn Hb) as ((pre & Hpre & Hs1) & _). rewrite Hs in Hs1. eapply Hstop in H; [done|by rewrite Hs1]. }
  destruct (ConnectHello_greeting _ _ _ _ _ _ _ _ _ Hconn Hb) as (_ & Hs1 & Hi1 & _). rewrite Hs in Hs1. cbn [app] in Hs1.
  assert (Hfull : cn_sent c1 `prefix_of` frame_wire hello) by (by rewrite Hs1).
  destruct (negb (Identity greeting peer)) eqn:Hid; [by eapply Hstop in H|]. destruct (negb (query_fresh _ _ _ _ _ =? 0)) eqn:Hf; [by eapply Hstop in H|].
  destruct (remaining <? 1); [by eapply Hstop in H|]. destruct (NextRequest _) as [id|]; [|by eapply Hstop in H].
  change (diagnostics_request hello (u32 remaining) id) with request in H. bool_to_prop.
  apply diagnostics_exchange_spec in H as ((pre & Hpre & Hsent) & Hok); [|rewrite Hi1 in Hb; by apply bytes_app in Hb as [_ ?]].
  rewrite Hs1 in *. split; [rewrite Hsent; by apply prefix_app|]. intros s Hs'. destruct (Hok s Hs') as (Hs2 & r & Hi2 & Hv & Hop & Hreq & Hsrc & Hidr & Hfr & Hpb & Hacc).
  apply accept_snapshot_ok in Hacc as (Hst & Henc & Hh & Hbt & Hse); [|done]. split; [done|]. exists peer, greeting, r. rewrite Hi1, Hi2. split_and!; auto; congruence.
Qed.

(** ** A concrete query *)
Definition diagnostics_peer : PeerInfo :=
  {| pi_host := pi_host gateway_peer; pi_boot_id := pi_boot_id gateway_peer; pi_session_id := pi_session_id gateway_peer; pi_address := pi_address gateway_peer;
     pi_port := pi_port gateway_peer; pi_last_seen := 0; pi_metadata_revision := 1; pi_state := ONLINE;
     pi_profile := {| pf_framework := pf_framework default_profile; pf_network := pf_network default_profile;
                      pf_capabilities := Z.lor Capability.DISCOVERY Capability.NETWORK_DIAGNOSTICS |};
     pi_compatibility := pi_compatibility gateway_peer; pi_metadata_ready := true; pi_endpoints := [] |}.
Definition diagnostics_view : View := {| vw_canceled := false; vw_session := 80; vw_error := 0; vw_peers := [diagnostics_peer] |}.
Definition steady_query : QueryEnv :=
  {| qe_start := 0; qe_locked := true; qe_before := diagnostics_view; qe_pid := 100; qe_ticks := Some 7; qe_connect := open_socket; qe_greeted := diagnostics_view;
     qe_request_now := 0; qe_previous := 4; qe_answered := diagnostics_view; qe_checked_now := 0; qe_final_now := 0 |}.
Definition empty_snapshot : NetworkDiagnosticsSnapshot :=
  {| nd_gateway_host := sample_host 1; nd_gateway_boot_id := sample_host 2; nd_gateway_session := 70; nd_total_routes := 0; nd_truncated := false; nd_routes := [] |}.
Definition diagnostics_answer : ControlFrame :=
  {| cf_operation := ControlMessage.DIAGNOSTICS_RESPONSE; cf_source := sample_runtime 1; cf_session_id := 70; cf_request_id := 5; cf_endpoint := no_endpoint;
     cf_target := TargetScope.HOST; cf_name := []; cf_type := no_type; cf_response_type := no_type; cf_feedback_type := no_type; cf_goal := no_goal;
     cf_action_state := 0; cf_outcome_unknown := false; cf_feedback_sequence := 0; cf_timeout_ms := 0; cf_status := 0; cf_reason := 0;
     cf_payload := snapshot_wire empty_snapshot; cf_descriptor_role := 0 |}.
Definition diagnostics_conn : Conn := {| cn_tick := 0; cn_incoming := frame_wire gateway_hello ++ frame_wire diagnostics_answer; cn_sent := [] |}.

Lemma diagnostics_query_exact_witness :
  exists out c', Query byte_env client_config 700 steady_query (sample_host 1) 1000 diagnostics_conn = Some (out, c') /\ out = Ok empty_snapshot /\
    exists r, EncodeNetworkDiagnosticsSnapshot empty_snapshot = Ok (cf_payload r) /\ ValidFrame r = true.
Proof.
  destruct (Query byte_env client_config 700 steady_query (sample_host 1) 1000 diagnostics_conn) as [[out c']|] eqn:Hr; [|vm_compute in Hr; discriminate Hr].
  assert (Hout : out = Ok empty_snapshot) by (vm_compute in Hr; injection Hr as <- _; reflexivity).
  exists out, c'. split; [reflexivity|]. split; [exact Hout|].
  destruct (diagnostics_query_exact byte_env client_config 700 steady_query (sample_host 1) 1000 diagnostics_conn out c' Hr) as (hello & request & _ & _ & _ & Hok);
    [apply byte_list_bytes; vm_compute; reflexivity|reflexivity|].
  destruct (Hok empty_snapshot Hout) as (_ & peer & greeting & r & _ & _ & _ & _ & Hv & _ & _ & _ & _ & _ & _ & Henc & _).
  exists r. split; [exact Henc|exact Hv].
Defined.
