(* ===== verification/TopicPlane.v ===== *)
(** * The Topic data plane

    [TopicDataPlane] of [kcf/src/network/topic_data_plane.cpp]: the worker that forwards the
    latest samples of local Topics to remote consumers ([Outgoing] routes, opened and kept
    alive by INTEREST datagrams) and publishes the samples of remote Topics under a local
    proxy ([Incoming] routes, which send the INTEREST datagrams), with explicit
    subscriptions of a receive-only client.

    [Plane] is the worker's state.  The worker holds [subscription_mutex] during a turn, so a
    turn, [Subscribe], [Unsubscribe] and the end of the worker are the steps.  Times are
    nanoseconds since the clock's epoch.  What is outside the file is an answer each call
    gets, one per loop position: [ValidateLocalTopicEndpoint], the topic reader
    ([DynamicTopicReader]), the proxy writer ([TopicProxy]), [FreshBaseline],
    [UnregisterConsumer], the clock and the socket.  A rate limit appears as the period in
    nanoseconds that the code computes from it.  [pl_wire], [pl_reads] and [pl_delivered] log
    the datagrams handed to the kernel, the samples read and the values published.
    Allocation failure and the trace output are not modelled. *)
From S2P Require Import Prelude Wire NetTypes NetWire Compatibility TopicProtocol DiscoveryProtocol TypeDescriptor ParameterCodec NetworkDiagnostics PeerDiscovery.

(** ** Routes *)
(** The fields of [LocalEndpoint] that the data plane uses. *)
Record LocalEndpoint := { le_metadata : NetworkEndpointMetadata; le_descriptor : TypeDescriptor }.
Definition is_topic (e : NetworkEndpointMetadata) (role : Z) : bool :=
  (md_kind e =? EndpointKind.TOPIC) && (md_role e =? role) && (md_scope e =? NetworkScope.REMOTE).
Definition SameRoute (a b : TopicPacket) : bool :=
  (tp_source a =?? tp_source b) && (tp_destination a =?? tp_destination b) && (tp_source_session a =? tp_source_session b) &&
  (tp_destination_session a =? tp_destination_session b) && (tp_route_id a =? tp_route_id b).

Definition close_info (i : TopicRouteInfo) : TopicRouteInfo :=
  {| ri_source := ri_source i; ri_destination := ri_destination i; ri_name := ri_name i; ri_source_session :=
     ri_source_session i; ri_destination_session := ri_destination_session i; ri_route_id := ri_route_id i;
     ri_proxy_recovery := ri_proxy_recovery i; ri_sending := ri_sending i; ri_state := TopicRouteState.CLOSED;
     ri_error := ri_error i; ri_reason := ri_reason i; ri_packets_sent := ri_packets_sent i; ri_packets_received :=
     ri_packets_received i; ri_samples_published := ri_samples_published i; ri_dropped := ri_dropped i; ri_duplicate
     := ri_duplicate i; ri_out_of_order := ri_out_of_order i; ri_missed_sequence := ri_missed_sequence i; ri_malformed
     := ri_malformed i; ri_local_samples_skipped := ri_local_samples_skipped i |}.
Definition activate (i : TopicRouteInfo) : TopicRouteInfo :=
  {| ri_source := ri_source i; ri_destination := ri_destination i; ri_name := ri_name i; ri_source_session :=
     ri_source_session i; ri_destination_session := ri_destination_session i; ri_route_id := ri_route_id i;
     ri_proxy_recovery := ri_proxy_recovery i; ri_sending := ri_sending i; ri_state := TopicRouteState.ACTIVE;
     ri_error := ri_error i; ri_reason := ri_reason i; ri_packets_sent := ri_packets_sent i; ri_packets_received :=
     ri_packets_received i; ri_samples_published := ri_samples_published i; ri_dropped := ri_dropped i; ri_duplicate
     := ri_duplicate i; ri_out_of_order := ri_out_of_order i; ri_missed_sequence := ri_missed_sequence i; ri_malformed
     := ri_malformed i; ri_local_samples_skipped := ri_local_samples_skipped i |}.
Definition wait_info (i : TopicRouteInfo) : TopicRouteInfo :=
  {| ri_source := ri_source i; ri_destination := ri_destination i; ri_name := ri_name i; ri_source_session :=
     ri_source_session i; ri_destination_session := ri_destination_session i; ri_route_id := ri_route_id i;
     ri_proxy_recovery := ri_proxy_recovery i; ri_sending := ri_sending i; ri_state :=
     TopicRouteState.WAITING_SUBSCRIBER; ri_error := ri_error i; ri_reason := ri_reason i; ri_packets_sent :=
     ri_packets_sent i; ri_packets_received := ri_packets_received i; ri_samples_published := ri_samples_published i;
     ri_dropped := ri_dropped i; ri_duplicate := ri_duplicate i; ri_out_of_order := ri_out_of_order i;
     ri_missed_sequence := ri_missed_sequence i; ri_malformed := ri_malformed i; ri_local_samples_skipped :=
     ri_local_samples_skipped i |}.
Definition set_info_error (error : Z) (i : TopicRouteInfo) : TopicRouteInfo :=
  {| ri_source := ri_source i; ri_destination := ri_destination i; ri_name := ri_name i; ri_source_session :=
     ri_source_session i; ri_destination_session := ri_destination_session i; ri_route_id := ri_route_id i;
     ri_proxy_recovery := ri_proxy_recovery i; ri_sending := ri_sending i; ri_state := ri_state i; ri_error := error;
     ri_reason := ri_reason i; ri_packets_sent := ri_packets_sent i; ri_packets_received := ri_packets_received i;
     ri_samples_published := ri_samples_published i; ri_dropped := ri_dropped i; ri_duplicate := ri_duplicate i;
     ri_out_of_order := ri_out_of_order i; ri_missed_sequence := ri_missed_sequence i; ri_malformed := ri_malformed i;
     ri_local_samples_skipped := ri_local_samples_skipped i |}.
Definition set_recovery (recovery : Z) (i : TopicRouteInfo) : TopicRouteInfo :=
  {| ri_source := ri_source i; ri_destination := ri_destination i; ri_name := ri_name i; ri_source_session :=
     ri_source_session i; ri_destination_session := ri_destination_session i; ri_route_id := ri_route_id i;
     ri_proxy_recovery := recovery; ri_sending := ri_sending i; ri_state := ri_state i; ri_error := ri_error i;
     ri_reason := ri_reason i; ri_packets_sent := ri_packets_sent i; ri_packets_received := ri_packets_received i;
     ri_samples_published := ri_samples_published i; ri_dropped := ri_dropped i; ri_duplicate := ri_duplicate i;
     ri_out_of_order := ri_out_of_order i; ri_missed_sequence := ri_missed_sequence i; ri_malformed := ri_malformed i;
     ri_local_samples_skipped := ri_local_samples_skipped i |}.
Definition count_malformed (i : TopicRouteInfo) : TopicRouteInfo :=
  {| ri_source := ri_source i; ri_destination := ri_destination i; ri_name := ri_name i; ri_source_session :=
     ri_source_session i; ri_destination_session := ri_destination_session i; ri_route_id := ri_route_id i;
     ri_proxy_recovery := ri_proxy_recovery i; ri_sending := ri_sending i; ri_state := ri_state i; ri_error :=
     ri_error i; ri_reason := ri_reason i; ri_packets_sent := ri_packets_sent i; ri_packets_received :=
     ri_packets_received i; ri_samples_published := ri_samples_published i; ri_dropped := ri_dropped i; ri_duplicate
     := ri_duplicate i; ri_out_of_order := ri_out_of_order i; ri_missed_sequence := ri_missed_sequence i; ri_malformed
     := u64 (ri_malformed i + 1); ri_local_samples_skipped := ri_local_samples_skipped i |}.
Definition count_duplicate (i : TopicRouteInfo) : TopicRouteInfo :=
  {| ri_source := ri_source i; ri_destination := ri_destination i; ri_name := ri_name i; ri_source_session :=
     ri_source_session i; ri_destination_session := ri_destination_session i; ri_route_id := ri_route_id i;
     ri_proxy_recovery := ri_proxy_recovery i; ri_sending := ri_sending i; ri_state := ri_state i; ri_error :=
     ri_error i; ri_reason := ri_reason i; ri_packets_sent := ri_packets_sent i; ri_packets_received :=
     ri_packets_received i; ri_samples_published := ri_samples_published i; ri_dropped := ri_dropped i; ri_duplicate
     := u64 (ri_duplicate i + 1); ri_out_of_order := ri_out_of_order i; ri_missed_sequence := ri_missed_sequence i;
     ri_malformed := ri_malformed i; ri_local_samples_skipped := ri_local_samples_skipped i |}.
Definition count_out_of_order (i : TopicRouteInfo) : TopicRouteInfo :=
  {| ri_source := ri_source i; ri_destination := ri_destination i; ri_name := ri_name i; ri_source_session :=
     ri_source_session i; ri_destination_session := ri_destination_session i; ri_route_id := ri_route_id i;
     ri_proxy_recovery := ri_proxy_recovery i; ri_sending := ri_sending i; ri_state := ri_state i; ri_error :=
     ri_error i; ri_reason := ri_reason i; ri_packets_sent := ri_packets_sent i; ri_packets_received :=
     ri_packets_received i; ri_samples_published := ri_samples_published i; ri_dropped := ri_dropped i; ri_duplicate
     := ri_duplicate i; ri_out_of_order := u64 (ri_out_of_order i + 1); ri_missed_sequence := ri_missed_sequence i;
     ri_malformed := ri_malformed i; ri_local_samples_skipped := ri_local_samples_skipped i |}.
Definition count_received (missed : Z) (dropped : bool) (i : TopicRouteInfo) : TopicRouteInfo :=
  {| ri_source := ri_source i; ri_destination := ri_destination i; ri_name := ri_name i; ri_source_session :=
     ri_source_session i; ri_destination_session := ri_destination_session i; ri_route_id := ri_route_id i;
     ri_proxy_recovery := ri_proxy_recovery i; ri_sending := ri_sending i; ri_state := ri_state i; ri_error :=
     ri_error i; ri_reason := ri_reason i; ri_packets_sent := ri_packets_sent i; ri_packets_received := u64
     (ri_packets_received i + 1); ri_samples_published := ri_samples_published i; ri_dropped := if dropped then u64
     (ri_dropped i + 1) else ri_dropped i; ri_duplicate := ri_duplicate i; ri_out_of_order := ri_out_of_order i;
     ri_missed_sequence := u64 (ri_missed_sequence i + missed); ri_malformed := ri_malformed i;
     ri_local_samples_skipped := ri_local_samples_skipped i |}.
Definition count_dropped (error : Z) (i : TopicRouteInfo) : TopicRouteInfo :=
  {| ri_source := ri_source i; ri_destination := ri_destination i; ri_name := ri_name i; ri_source_session :=
     ri_source_session i; ri_destination_session := ri_destination_session i; ri_route_id := ri_route_id i;
     ri_proxy_recovery := ri_proxy_recovery i; ri_sending := ri_sending i; ri_state := ri_state i; ri_error := error;
     ri_reason := ri_reason i; ri_packets_sent := ri_packets_sent i; ri_packets_received := ri_packets_received i;
     ri_samples_published := ri_samples_published i; ri_dropped := u64 (ri_dropped i + 1); ri_duplicate :=
     ri_duplicate i; ri_out_of_order := ri_out_of_order i; ri_missed_sequence := ri_missed_sequence i; ri_malformed :=
     ri_malformed i; ri_local_samples_skipped := ri_local_samples_skipped i |}.
Definition count_published (i : TopicRouteInfo) : TopicRouteInfo :=
  {| ri_source := ri_source i; ri_destination := ri_destination i; ri_name := ri_name i; ri_source_session :=
     ri_source_session i; ri_destination_session := ri_destination_session i; ri_route_id := ri_route_id i;
     ri_proxy_recovery := ri_proxy_recovery i; ri_sending := ri_sending i; ri_state := TopicRouteState.ACTIVE;
     ri_error := 0; ri_reason := ri_reason i; ri_packets_sent := ri_packets_sent i; ri_packets_received :=
     ri_packets_received i; ri_samples_published := u64 (ri_samples_published i + 1); ri_dropped := ri_dropped i;
     ri_duplicate := ri_duplicate i; ri_out_of_order := ri_out_of_order i; ri_missed_sequence := ri_missed_sequence i;
     ri_malformed := ri_malformed i; ri_local_samples_skipped := ri_local_samples_skipped i |}.
Definition count_sent (i : TopicRouteInfo) : TopicRouteInfo :=
  {| ri_source := ri_source i; ri_destination := ri_destination i; ri_name := ri_name i; ri_source_session :=
     ri_source_session i; ri_destination_session := ri_destination_session i; ri_route_id := ri_route_id i;
     ri_proxy_recovery := ri_proxy_recovery i; ri_sending := ri_sending i; ri_state := ri_state i; ri_error := 0;
     ri_reason := ri_reason i; ri_packets_sent := u64 (ri_packets_sent i + 1); ri_packets_received :=
     ri_packets_received i; ri_samples_published := ri_samples_published i; ri_dropped := ri_dropped i; ri_duplicate
     := ri_duplicate i; ri_out_of_order := ri_out_of_order i; ri_missed_sequence := ri_missed_sequence i; ri_malformed
     := ri_malformed i; ri_local_samples_skipped := ri_local_samples_skipped i |}.
Definition count_skipped (n : Z) (i : TopicRouteInfo) : TopicRouteInfo :=
  {| ri_source := ri_source i; ri_destination := ri_destination i; ri_name := ri_name i; ri_source_session :=
     ri_source_session i; ri_destination_session := ri_destination_session i; ri_route_id := ri_route_id i;
     ri_proxy_recovery := ri_proxy_recovery i; ri_sending := ri_sending i; ri_state := ri_state i; ri_error :=
     ri_error i; ri_reason := ri_reason i; ri_packets_sent := ri_packets_sent i; ri_packets_received :=
     ri_packets_received i; ri_samples_published := ri_samples_published i; ri_dropped := ri_dropped i; ri_duplicate
     := ri_duplicate i; ri_out_of_order := ri_out_of_order i; ri_missed_sequence := ri_missed_sequence i; ri_malformed
     := ri_malformed i; ri_local_samples_skipped := u64 (ri_local_samples_skipped i + n) |}.
Definition no_info : TopicRouteInfo :=
  {| ri_source := no_endpoint; ri_destination := no_endpoint; ri_name := []; ri_source_session := 0; ri_destination_session := 0; ri_route_id := 0;
     ri_proxy_recovery := 0; ri_sending := false; ri_state := TopicRouteState.WAITING_SUBSCRIBER; ri_error := 0;
     ri_reason := CompatibilityReason.COMPATIBLE; ri_packets_sent := 0; ri_packets_received := 0; ri_samples_published := 0; ri_dropped := 0;
     ri_duplicate := 0; ri_out_of_order := 0; ri_missed_sequence := 0; ri_malformed := 0; ri_local_samples_skipped := 0 |}.
Definition Info (p : TopicPacket) (sending : bool) : TopicRouteInfo :=
  {| ri_source := tp_source p; ri_destination := tp_destination p; ri_name := tp_name p; ri_source_session := tp_source_session p;
     ri_destination_session := tp_destination_session p; ri_route_id := tp_route_id p; ri_proxy_recovery := 0; ri_sending := sending;
     ri_state := TopicRouteState.ACTIVE; ri_error := 0; ri_reason := CompatibilityReason.COMPATIBLE; ri_packets_sent := 0; ri_packets_received := 0;
     ri_samples_published := 0; ri_dropped := 0; ri_duplicate := 0; ri_out_of_order := 0; ri_missed_sequence := 0; ri_malformed := 0;
     ri_local_samples_skipped := 0 |}.

Definition as_data (p : TopicPacket) : TopicPacket :=
  {| tp_kind := TopicMessage.DATA; tp_source := tp_source p; tp_destination := tp_destination p; tp_source_session :=
     tp_source_session p; tp_destination_session := tp_destination_session p; tp_route_id := tp_route_id p;
     tp_sequence := tp_sequence p; tp_sample_sequence := tp_sample_sequence p; tp_type := tp_type p; tp_name :=
     tp_name p; tp_payload := tp_payload p |}.
Definition as_interest (p : TopicPacket) : TopicPacket :=
  {| tp_kind := tp_kind p; tp_source := tp_source p; tp_destination := tp_destination p; tp_source_session :=
     tp_source_session p; tp_destination_session := tp_destination_session p; tp_route_id := tp_route_id p;
     tp_sequence := 0; tp_sample_sequence := 0; tp_type := tp_type p; tp_name := tp_name p; tp_payload := [] |}.
Definition set_route_id (id : Z) (p : TopicPacket) : TopicPacket :=
  {| tp_kind := tp_kind p; tp_source := tp_source p; tp_destination := tp_destination p; tp_source_session :=
     tp_source_session p; tp_destination_session := tp_destination_session p; tp_route_id := id; tp_sequence :=
     tp_sequence p; tp_sample_sequence := tp_sample_sequence p; tp_type := tp_type p; tp_name := tp_name p; tp_payload
     := tp_payload p |}.
Definition set_sequences (sequence sample : Z) (p : TopicPacket) : TopicPacket :=
  {| tp_kind := tp_kind p; tp_source := tp_source p; tp_destination := tp_destination p; tp_source_session :=
     tp_source_session p; tp_destination_session := tp_destination_session p; tp_route_id := tp_route_id p;
     tp_sequence := sequence; tp_sample_sequence := sample; tp_type := tp_type p; tp_name := tp_name p; tp_payload :=
     tp_payload p |}.
Definition set_payload (payload : list Z) (p : TopicPacket) : TopicPacket :=
  {| tp_kind := tp_kind p; tp_source := tp_source p; tp_destination := tp_destination p; tp_source_session :=
     tp_source_session p; tp_destination_session := tp_destination_session p; tp_route_id := tp_route_id p;
     tp_sequence := tp_sequence p; tp_sample_sequence := tp_sample_sequence p; tp_type := tp_type p; tp_name :=
     tp_name p; tp_payload := payload |}.

(** [in_subscription] points into [pl_states]. *)
Record Incoming := {
  in_subscription : option nat;
  in_packet : TopicPacket;
  in_consumer : LocalEndpoint;
  in_proxy : nat;
  in_interest : Z;
  in_stats : TopicRouteInfo;
  in_latest : option TopicPacket
}.
Definition in_set_stats (i : TopicRouteInfo) (r : Incoming) : Incoming :=
  {| in_subscription := in_subscription r; in_packet := in_packet r; in_consumer := in_consumer r; in_proxy :=
     in_proxy r; in_interest := in_interest r; in_stats := i; in_latest := in_latest r |}.
Definition in_set_consumer (e : LocalEndpoint) (r : Incoming) : Incoming :=
  {| in_subscription := in_subscription r; in_packet := in_packet r; in_consumer := e; in_proxy := in_proxy r;
     in_interest := in_interest r; in_stats := in_stats r; in_latest := in_latest r |}.
Definition in_set_interest (t : Z) (r : Incoming) : Incoming :=
  {| in_subscription := in_subscription r; in_packet := in_packet r; in_consumer := in_consumer r; in_proxy :=
     in_proxy r; in_interest := t; in_stats := in_stats r; in_latest := in_latest r |}.
Definition in_receive (p : TopicPacket) (r : Incoming) : Incoming :=
  {| in_subscription := in_subscription r; in_packet := set_sequences (tp_sequence p) (tp_sample_sequence p)
     (in_packet r); in_consumer := in_consumer r; in_proxy := in_proxy r; in_interest := in_interest r; in_stats :=
     count_received (u64 (tp_sequence p - tp_sequence (in_packet r) - 1)) (match in_latest r with Some _ => true |
     None => false end) (in_stats r); in_latest := Some p |}.
Definition in_deliver (i : TopicRouteInfo) (r : Incoming) : Incoming :=
  {| in_subscription := in_subscription r; in_packet := in_packet r; in_consumer := in_consumer r; in_proxy :=
     in_proxy r; in_interest := in_interest r; in_stats := i; in_latest := None |}.

Record Outgoing := {
  og_packet : TopicPacket;
  og_publisher : LocalEndpoint;
  og_expires : Z;
  og_next : Z;
  og_fresh_start : bool;
  og_baseline : Z;
  og_address : list Z;
  og_port : Z;
  og_stats : TopicRouteInfo
}.
Definition og_set_stats (i : TopicRouteInfo) (o : Outgoing) : Outgoing :=
  {| og_packet := og_packet o; og_publisher := og_publisher o; og_expires := og_expires o; og_next := og_next o;
     og_fresh_start := og_fresh_start o; og_baseline := og_baseline o; og_address := og_address o; og_port := og_port
     o; og_stats := i |}.
Definition og_renew (t : Z) (o : Outgoing) : Outgoing :=
  {| og_packet := og_packet o; og_publisher := og_publisher o; og_expires := t; og_next := og_next o; og_fresh_start
     := og_fresh_start o; og_baseline := og_baseline o; og_address := og_address o; og_port := og_port o; og_stats :=
     activate (og_stats o) |}.
Definition og_set_next (t : Z) (o : Outgoing) : Outgoing :=
  {| og_packet := og_packet o; og_publisher := og_publisher o; og_expires := og_expires o; og_next := t;
     og_fresh_start := og_fresh_start o; og_baseline := og_baseline o; og_address := og_address o; og_port := og_port
     o; og_stats := og_stats o |}.
Definition og_sample (sample : Z) (o : Outgoing) : Outgoing :=
  {| og_packet := set_sequences (tp_sequence (og_packet o) + 1) sample (og_packet o); og_publisher := og_publisher o;
     og_expires := og_expires o; og_next := og_next o; og_fresh_start := og_fresh_start o; og_baseline := og_baseline
     o; og_address := og_address o; og_port := og_port o; og_stats := if tp_sample_sequence (og_packet o) =? 0 then
     og_stats o else count_skipped (u64 (sample - tp_sample_sequence (og_packet o) - 1)) (og_stats o) |}.
Definition og_set_payload (payload : list Z) (o : Outgoing) : Outgoing :=
  {| og_packet := set_payload payload (og_packet o); og_publisher := og_publisher o; og_expires := og_expires o;
     og_next := og_next o; og_fresh_start := og_fresh_start o; og_baseline := og_baseline o; og_address := og_address
     o; og_port := og_port o; og_stats := og_stats o |}.

(** [Proxy]; the writer is outside the model. *)
Record Proxy := { px_name : list Z; px_source : RemoteEndpointIdentity; px_identity : RemoteEndpointIdentity; px_type : TypeIdentity;
                  px_recovery : Z; px_stale_detected : bool; px_descriptor : TypeDescriptor }.

(** [enum class RemoteTopicState] *)
Inductive RemoteTopicState := WAITING_ROUTE | TOPIC_ACTIVE | TOPIC_LOST | STALE | ERROR | TOPIC_CLOSED.
(** [RemoteTopicSubscription::State] with its snapshot; [sb_writer]: the writer is owned. *)
Record Subscription := {
  sb_consumer : NetworkEndpointMetadata;
  sb_source : NetworkEndpointMetadata;
  sb_descriptor : TypeDescriptor;
  sb_writer : bool;
  sb_local_session : Z;
  sb_state : RemoteTopicState;
  sb_error : Z;
  sb_has_value : bool;
  sb_payload : list Z;
  sb_sequence : Z;
  sb_sample_sequence : Z;
  sb_route : TopicRouteInfo
}.
Definition sb_set_route (i : TopicRouteInfo) (error : Z) (b : Subscription) : Subscription :=
  {| sb_consumer := sb_consumer b; sb_source := sb_source b; sb_descriptor := sb_descriptor b; sb_writer := sb_writer
     b; sb_local_session := sb_local_session b; sb_state := sb_state b; sb_error := error; sb_has_value :=
     sb_has_value b; sb_payload := sb_payload b; sb_sequence := sb_sequence b; sb_sample_sequence :=
     sb_sample_sequence b; sb_route := i |}.
Definition sb_closing (i : TopicRouteInfo) (b : Subscription) : Subscription :=
  {| sb_consumer := sb_consumer b; sb_source := sb_source b; sb_descriptor := sb_descriptor b; sb_writer := sb_writer
     b; sb_local_session := sb_local_session b; sb_state := sb_state b; sb_error := sb_error b; sb_has_value :=
     sb_has_value b; sb_payload := sb_payload b; sb_sequence := sb_sequence b; sb_sample_sequence :=
     sb_sample_sequence b; sb_route := close_info i |}.
Definition sb_close (status : RemoteTopicState) (code : Z) (b : Subscription) : Subscription :=
  {| sb_consumer := sb_consumer b; sb_source := sb_source b; sb_descriptor := sb_descriptor b; sb_writer := false;
     sb_local_session := sb_local_session b; sb_state := status; sb_error := code; sb_has_value := sb_has_value b;
     sb_payload := sb_payload b; sb_sequence := sb_sequence b; sb_sample_sequence := sb_sample_sequence b; sb_route :=
     sb_route b |}.
Definition sb_value (i : TopicRouteInfo) (p : TopicPacket) (b : Subscription) : Subscription :=
  {| sb_consumer := sb_consumer b; sb_source := sb_source b; sb_descriptor := sb_descriptor b; sb_writer := sb_writer
     b; sb_local_session := sb_local_session b; sb_state := TOPIC_ACTIVE; sb_error := 0; sb_has_value := true;
     sb_payload := tp_payload p; sb_sequence := tp_sequence p; sb_sample_sequence := tp_sample_sequence p; sb_route :=
     i |}.

Record TopicDatagram := { dg_bytes : list Z; dg_address : list Z; dg_port : Z }.
(** A published value: the packet it came with, the consumer's descriptor, the value. *)
Record TopicDelivery := { dv_packet : TopicPacket; dv_descriptor : TypeDescriptor; dv_value : DynamicPayload }.

Record Plane := {
  pl_session : Z;
  pl_next_route : Z;
  pl_next_proxy : Z;
  pl_states : list Subscription;
  pl_subscriptions : list nat;
  pl_proxies : list Proxy;
  pl_incoming : list Incoming;
  pl_outgoing : list Outgoing;
  pl_history : list TopicRouteInfo;
  pl_notices : list TopicRouteInfo;
  pl_malformed : Z;
  pl_stale : Z;
  pl_resource_drops : Z;
  pl_socket_errors : Z;
  pl_error : Z;
  pl_wire : list TopicDatagram;
  pl_reads : list (RemoteEndpointIdentity * DynamicPayload);
  pl_delivered : list TopicDelivery
}.
Definition set_session (session : Z) (s : Plane) : Plane :=
  {| pl_session := session; pl_next_route := pl_next_route s; pl_next_proxy := pl_next_proxy s; pl_states := pl_states
     s; pl_subscriptions := pl_subscriptions s; pl_proxies := pl_proxies s; pl_incoming := pl_incoming s; pl_outgoing
     := pl_outgoing s; pl_history := pl_history s; pl_notices := pl_notices s; pl_malformed := pl_malformed s;
     pl_stale := pl_stale s; pl_resource_drops := pl_resource_drops s; pl_socket_errors := pl_socket_errors s;
     pl_error := pl_error s; pl_wire := pl_wire s; pl_reads := pl_reads s; pl_delivered := pl_delivered s |}.
Definition set_next_proxy (n : Z) (s : Plane) : Plane :=
  {| pl_session := pl_session s; pl_next_route := pl_next_route s; pl_next_proxy := n; pl_states := pl_states s;
     pl_subscriptions := pl_subscriptions s; pl_proxies := pl_proxies s; pl_incoming := pl_incoming s; pl_outgoing :=
     pl_outgoing s; pl_history := pl_history s; pl_notices := pl_notices s; pl_malformed := pl_malformed s; pl_stale
     := pl_stale s; pl_resource_drops := pl_resource_drops s; pl_socket_errors := pl_socket_errors s; pl_error :=
     pl_error s; pl_wire := pl_wire s; pl_reads := pl_reads s; pl_delivered := pl_delivered s |}.
Definition set_states (l : list Subscription) (s : Plane) : Plane :=
  {| pl_session := pl_session s; pl_next_route := pl_next_route s; pl_next_proxy := pl_next_proxy s; pl_states := l;
     pl_subscriptions := pl_subscriptions s; pl_proxies := pl_proxies s; pl_incoming := pl_incoming s; pl_outgoing :=
     pl_outgoing s; pl_history := pl_history s; pl_notices := pl_notices s; pl_malformed := pl_malformed s; pl_stale
     := pl_stale s; pl_resource_drops := pl_resource_drops s; pl_socket_errors := pl_socket_errors s; pl_error :=
     pl_error s; pl_wire := pl_wire s; pl_reads := pl_reads s; pl_delivered := pl_delivered s |}.
Definition set_subscriptions (l : list nat) (s : Plane) : Plane :=
  {| pl_session := pl_session s; pl_next_route := pl_next_route s; pl_next_proxy := pl_next_proxy s; pl_states :=
     pl_states s; pl_subscriptions := l; pl_proxies := pl_proxies s; pl_incoming := pl_incoming s; pl_outgoing :=
     pl_outgoing s; pl_history := pl_history s; pl_notices := pl_notices s; pl_malformed := pl_malformed s; pl_stale
     := pl_stale s; pl_resource_drops := pl_resource_drops s; pl_socket_errors := pl_socket_errors s; pl_error :=
     pl_error s; pl_wire := pl_wire s; pl_reads := pl_reads s; pl_delivered := pl_delivered s |}.
Definition set_proxies (l : list Proxy) (s : Plane) : Plane :=
  {| pl_session := pl_session s; pl_next_route := pl_next_route s; pl_next_proxy := pl_next_proxy s; pl_states :=
     pl_states s; pl_subscriptions := pl_subscriptions s; pl_proxies := l; pl_incoming := pl_incoming s; pl_outgoing
     := pl_outgoing s; pl_history := pl_history s; pl_notices := pl_notices s; pl_malformed := pl_malformed s;
     pl_stale := pl_stale s; pl_resource_drops := pl_resource_drops s; pl_socket_errors := pl_socket_errors s;
     pl_error := pl_error s; pl_wire := pl_wire s; pl_reads := pl_reads s; pl_delivered := pl_delivered s |}.
Definition set_incoming (l : list Incoming) (s : Plane) : Plane :=
  {| pl_session := pl_session s; pl_next_route := pl_next_route s; pl_next_proxy := pl_next_proxy s; pl_states :=
     pl_states s; pl_subscriptions := pl_subscriptions s; pl_proxies := pl_proxies s; pl_incoming := l; pl_outgoing :=
     pl_outgoing s; pl_history := pl_history s; pl_notices := pl_notices s; pl_malformed := pl_malformed s; pl_stale
     := pl_stale s; pl_resource_drops := pl_resource_drops s; pl_socket_errors := pl_socket_errors s; pl_error :=
     pl_error s; pl_wire := pl_wire s; pl_reads := pl_reads s; pl_delivered := pl_delivered s |}.
Definition set_outgoing (l : list Outgoing) (s : Plane) : Plane :=
  {| pl_session := pl_session s; pl_next_route := pl_next_route s; pl_next_proxy := pl_next_proxy s; pl_states :=
     pl_states s; pl_subscriptions := pl_subscriptions s; pl_proxies := pl_proxies s; pl_incoming := pl_incoming s;
     pl_outgoing := l; pl_history := pl_history s; pl_notices := pl_notices s; pl_malformed := pl_malformed s;
     pl_stale := pl_stale s; pl_resource_drops := pl_resource_drops s; pl_socket_errors := pl_socket_errors s;
     pl_error := pl_error s; pl_wire := pl_wire s; pl_reads := pl_reads s; pl_delivered := pl_delivered s |}.
Definition plane_history (l : list TopicRouteInfo) (s : Plane) : Plane :=
  {| pl_session := pl_session s; pl_next_route := pl_next_route s; pl_next_proxy := pl_next_proxy s; pl_states :=
     pl_states s; pl_subscriptions := pl_subscriptions s; pl_proxies := pl_proxies s; pl_incoming := pl_incoming s;
     pl_outgoing := pl_outgoing s; pl_history := l; pl_notices := pl_notices s; pl_malformed := pl_malformed s;
     pl_stale := pl_stale s; pl_resource_drops := pl_resource_drops s; pl_socket_errors := pl_socket_errors s;
     pl_error := pl_error s; pl_wire := pl_wire s; pl_reads := pl_reads s; pl_delivered := pl_delivered s |}.
Definition set_notices (l : list TopicRouteInfo) (s : Plane) : Plane :=
  {| pl_session := pl_session s; pl_next_route := pl_next_route s; pl_next_proxy := pl_next_proxy s; pl_states :=
     pl_states s; pl_subscriptions := pl_subscriptions s; pl_proxies := pl_proxies s; pl_incoming := pl_incoming s;
     pl_outgoing := pl_outgoing s; pl_history := pl_history s; pl_notices := l; pl_malformed := pl_malformed s;
     pl_stale := pl_stale s; pl_resource_drops := pl_resource_drops s; pl_socket_errors := pl_socket_errors s;
     pl_error := pl_error s; pl_wire := pl_wire s; pl_reads := pl_reads s; pl_delivered := pl_delivered s |}.
Definition plane_malformed (s : Plane) : Plane :=
  {| pl_session := pl_session s; pl_next_route := pl_next_route s; pl_next_proxy := pl_next_proxy s; pl_states :=
     pl_states s; pl_subscriptions := pl_subscriptions s; pl_proxies := pl_proxies s; pl_incoming := pl_incoming s;
     pl_outgoing := pl_outgoing s; pl_history := pl_history s; pl_notices := pl_notices s; pl_malformed := u64
     (pl_malformed s + 1); pl_stale := pl_stale s; pl_resource_drops := pl_resource_drops s; pl_socket_errors :=
     pl_socket_errors s; pl_error := pl_error s; pl_wire := pl_wire s; pl_reads := pl_reads s; pl_delivered :=
     pl_delivered s |}.
Definition plane_stale (s : Plane) : Plane :=
  {| pl_session := pl_session s; pl_next_route := pl_next_route s; pl_next_proxy := pl_next_proxy s; pl_states :=
     pl_states s; pl_subscriptions := pl_subscriptions s; pl_proxies := pl_proxies s; pl_incoming := pl_incoming s;
     pl_outgoing := pl_outgoing s; pl_history := pl_history s; pl_notices := pl_notices s; pl_malformed :=
     pl_malformed s; pl_stale := u64 (pl_stale s + 1); pl_resource_drops := pl_resource_drops s; pl_socket_errors :=
     pl_socket_errors s; pl_error := pl_error s; pl_wire := pl_wire s; pl_reads := pl_reads s; pl_delivered :=
     pl_delivered s |}.
Definition plane_resource_drop (s : Plane) : Plane :=
  {| pl_session := pl_session s; pl_next_route := pl_next_route s; pl_next_proxy := pl_next_proxy s; pl_states :=
     pl_states s; pl_subscriptions := pl_subscriptions s; pl_proxies := pl_proxies s; pl_incoming := pl_incoming s;
     pl_outgoing := pl_outgoing s; pl_history := pl_history s; pl_notices := pl_notices s; pl_malformed :=
     pl_malformed s; pl_stale := pl_stale s; pl_resource_drops := u64 (pl_resource_drops s + 1); pl_socket_errors :=
     pl_socket_errors s; pl_error := pl_error s; pl_wire := pl_wire s; pl_reads := pl_reads s; pl_delivered :=
     pl_delivered s |}.
Definition plane_socket_error (s : Plane) : Plane :=
  {| pl_session := pl_session s; pl_next_route := pl_next_route s; pl_next_proxy := pl_next_proxy s; pl_states :=
     pl_states s; pl_subscriptions := pl_subscriptions s; pl_proxies := pl_proxies s; pl_incoming := pl_incoming s;
     pl_outgoing := pl_outgoing s; pl_history := pl_history s; pl_notices := pl_notices s; pl_malformed :=
     pl_malformed s; pl_stale := pl_stale s; pl_resource_drops := pl_resource_drops s; pl_socket_errors := u64
     (pl_socket_errors s + 1); pl_error := pl_error s; pl_wire := pl_wire s; pl_reads := pl_reads s; pl_delivered :=
     pl_delivered s |}.
Definition plane_error (error : Z) (s : Plane) : Plane :=
  {| pl_session := pl_session s; pl_next_route := pl_next_route s; pl_next_proxy := pl_next_proxy s; pl_states :=
     pl_states s; pl_subscriptions := pl_subscriptions s; pl_proxies := pl_proxies s; pl_incoming := pl_incoming s;
     pl_outgoing := pl_outgoing s; pl_history := pl_history s; pl_notices := pl_notices s; pl_malformed :=
     pl_malformed s; pl_stale := pl_stale s; pl_resource_drops := pl_resource_drops s; pl_socket_errors :=
     pl_socket_errors s; pl_error := error; pl_wire := pl_wire s; pl_reads := pl_reads s; pl_delivered := pl_delivered
     s |}.
Definition add_route (r : Incoming) (s : Plane) : Plane :=
  {| pl_session := pl_session s; pl_next_route := pl_next_route s + 1; pl_next_proxy := pl_next_proxy s; pl_states :=
     pl_states s; pl_subscriptions := pl_subscriptions s; pl_proxies := pl_proxies s; pl_incoming := pl_incoming s ++
     [r]; pl_outgoing := pl_outgoing s; pl_history := pl_history s; pl_notices := pl_notices s; pl_malformed :=
     pl_malformed s; pl_stale := pl_stale s; pl_resource_drops := pl_resource_drops s; pl_socket_errors :=
     pl_socket_errors s; pl_error := pl_error s; pl_wire := pl_wire s; pl_reads := pl_reads s; pl_delivered :=
     pl_delivered s |}.
Definition log_wire (d : TopicDatagram) (s : Plane) : Plane :=
  {| pl_session := pl_session s; pl_next_route := pl_next_route s; pl_next_proxy := pl_next_proxy s; pl_states :=
     pl_states s; pl_subscriptions := pl_subscriptions s; pl_proxies := pl_proxies s; pl_incoming := pl_incoming s;
     pl_outgoing := pl_outgoing s; pl_history := pl_history s; pl_notices := pl_notices s; pl_malformed :=
     pl_malformed s; pl_stale := pl_stale s; pl_resource_drops := pl_resource_drops s; pl_socket_errors :=
     pl_socket_errors s; pl_error := pl_error s; pl_wire := pl_wire s ++ [d]; pl_reads := pl_reads s; pl_delivered :=
     pl_delivered s |}.
Definition log_read (source : RemoteEndpointIdentity) (v : DynamicPayload) (s : Plane) : Plane :=
  {| pl_session := pl_session s; pl_next_route := pl_next_route s; pl_next_proxy := pl_next_proxy s; pl_states :=
     pl_states s; pl_subscriptions := pl_subscriptions s; pl_proxies := pl_proxies s; pl_incoming := pl_incoming s;
     pl_outgoing := pl_outgoing s; pl_history := pl_history s; pl_notices := pl_notices s; pl_malformed :=
     pl_malformed s; pl_stale := pl_stale s; pl_resource_drops := pl_resource_drops s; pl_socket_errors :=
     pl_socket_errors s; pl_error := pl_error s; pl_wire := pl_wire s; pl_reads := pl_reads s ++ [(source, v)];
     pl_delivered := pl_delivered s |}.
Definition log_delivery (d : TopicDelivery) (s : Plane) : Plane :=
  {| pl_session := pl_session s; pl_next_route := pl_next_route s; pl_next_proxy := pl_next_proxy s; pl_states :=
     pl_states s; pl_subscriptions := pl_subscriptions s; pl_proxies := pl_proxies s; pl_incoming := pl_incoming s;
     pl_outgoing := pl_outgoing s; pl_history := pl_history s; pl_notices := pl_notices s; pl_malformed :=
     pl_malformed s; pl_stale := pl_stale s; pl_resource_drops := pl_resource_drops s; pl_socket_errors :=
     pl_socket_errors s; pl_error := pl_error s; pl_wire := pl_wire s; pl_reads := pl_reads s; pl_delivered :=
     pl_delivered s ++ [d] |}.

(** ** Configuration *)
(** [TopicConfig] with [DiscoveryConfig], [MetadataConfig::remote_topics], the node's own
    identity and its byte order.  [tc_period] and [tc_limits] are the periods of [max_hz] and
    [rate_limits]. *)
Record PlaneConfig := {
  tc_discovery : DiscoveryConfig;
  tc_self : RemoteRuntimeIdentity;
  tc_little : bool;
  tc_port : Z;
  tc_period : Z;
  tc_limits : list (list Z * Z);
  tc_local_types : list (list Z * TypeDescriptor);
  tc_max_routes : Z;
  tc_max_proxies : Z;
  tc_receive_only : bool;
  tc_fresh_start : list (list Z);
  tc_remote_topics : list (list Z)
}.
(** The last matching limit decides. *)
Definition route_period (c : PlaneConfig) (name : list Z) : Z :=
  foldl (fun period limit => if fst limit =?? name then snd limit else period) (tc_period c) (tc_limits c).

Section Plane.
Context (config : PlaneConfig).

(** ** Gates *)
Definition find_host (peers : list PeerInfo) (host : HostIdentity) : option PeerInfo := List.find (fun p => pi_host p =?? host) peers.
Definition find_local (entries : list LocalEndpoint) (id : RemoteEndpointIdentity) : option LocalEndpoint :=
  List.find (fun e => md_identity (le_metadata e) =?? id) entries.
Definition supports (p : PeerProfile) : bool :=
  negb (Z.land (pf_capabilities p) Capability.TARGET_ENDPOINT =? 0) &&
  negb (Z.land (pf_capabilities p) (Z.lor Capability.REMOTE_TOPIC Capability.REMOTE_TOPIC_RECEIVER) =? 0).
Definition PeerGate (p : PeerInfo) : CompatibilityResult :=
  let dc := tc_discovery config in
  let result := CheckPeerCompatibility (dc_profile dc) (pi_profile p) (dc_compatibility_policy dc) in
  if negb (pi_state p =?? ONLINE) then with_reason CompatibilityReason.PEER_LOST result
  else if Compatible result && (negb (supports (pi_profile p)) || negb (supports (dc_profile dc)))
  then with_reason CompatibilityReason.CAPABILITY_MISSING result
  else result.
Definition RouteGate (peer : PeerInfo) (local : NetworkEndpointMetadata) (remote : RemoteEndpointIdentity) : CompatibilityResult :=
  CheckRouteCompatibility (tc_discovery config) peer local remote TargetScope.ENDPOINT.
Definition Gate (peer : PeerInfo) (local : NetworkEndpointMetadata) (remote : RemoteEndpointIdentity) : bool :=
  Compatible (PeerGate peer) && Compatible (RouteGate peer local remote).

(** ** Bookkeeping *)
Definition Archive (info : TopicRouteInfo) (s : Plane) : Plane :=
  let history := if (length (pl_history s) =? 64)%nat then tl (pl_history s) else pl_history s in
  plane_history (history ++ [close_info info]) s.
Definition Notice (source : NetworkEndpointMetadata) (code reason state recovery : Z) (s : Plane) : Plane :=
  if (64 <=? length (pl_notices s))%nat then s
  else set_notices (pl_notices s ++
    [{| ri_source := md_identity source; ri_destination := no_endpoint; ri_name := md_name source; ri_source_session := 0; ri_destination_session := 0;
        ri_route_id := 0; ri_proxy_recovery := recovery; ri_sending := false; ri_state := state; ri_error := code; ri_reason := reason;
        ri_packets_sent := 0; ri_packets_received := 0; ri_samples_published := 0; ri_dropped := 0; ri_duplicate := 0; ri_out_of_order := 0;
        ri_missed_sequence := 0; ri_malformed := 0; ri_local_samples_skipped := 0 |}]) s.
Definition Reject (source : NetworkEndpointMetadata) (code : Z) (s : Plane) : Plane :=
  Notice source code CompatibilityReason.COMPATIBLE TopicRouteState.REJECTED 0 s.
(** ["network_topic_gateway"] *)
Definition gateway_element : list Z :=
  [110; 101; 116; 119; 111; 114; 107; 95; 116; 111; 112; 105; 99; 95; 103; 97; 116; 101; 119; 97; 121].
Definition Consumer (source : NetworkEndpointMetadata) : NetworkEndpointMetadata :=
  {| md_protocol_version := PROTOCOL_VERSION; md_identity := {| ep_runtime := tc_self config; ep_registration_id := 1 |}; md_application := no_runtime;
     md_host_name := []; md_application_name := []; md_element_name := gateway_element; md_name := md_name source; md_groups := [];
     md_kind := EndpointKind.TOPIC; md_role := EndpointRole.CONSUMER; md_scope := NetworkScope.REMOTE; md_value_type := md_value_type source;
     md_request_type := no_type; md_response_type := no_type; md_feedback_type := no_type |}.
Definition Descriptor (name : list Z) (type : TypeIdentity) (entries : list LocalEndpoint) : option TypeDescriptor :=
  match List.find (fun b => fst b =?? name) (tc_local_types config) with
  | Some (_, d) => match ParameterWireType d with Ok t => if t =?? type then Some d else None | Err _ => None end
  | None =>
      match List.find (fun e => (md_name (le_metadata e) =?? name) && (md_role (le_metadata e) =? EndpointRole.CONSUMER) &&
                                (md_value_type (le_metadata e) =?? type)) entries with
      | Some e => Some (le_descriptor e)
      | None => None
      end
  end.

(** [ProxyFor]; [created] is what [TopicProxy::Create] answers: code, recovery state, stale. *)
Definition ProxyFor (source : NetworkEndpointMetadata) (d : TypeDescriptor) (created : Z * Z * bool) (s : Plane) : result nat * Z * Plane :=
  match list_find (fun p => px_name p = md_name source) (pl_proxies s) with
  | Some (i, p) =>
      if negb (LayoutId (px_descriptor p) =? LayoutId d) then (Err (- EPROTOTYPE), 0, s)
      else (Ok i, 0, set_proxies (<[i := {| px_name := px_name p; px_source := md_identity source; px_identity := px_identity p; px_type := px_type p;
                                            px_recovery := px_recovery p; px_stale_detected := px_stale_detected p; px_descriptor := px_descriptor p |}]>
                                   (pl_proxies s)) s)
  | None =>
      if tc_max_proxies config <=? Z.of_nat (length (pl_proxies s)) then (Err (- ENOSPC), 0, s)
      else
        let next := u64 (pl_next_proxy s + 1) in
        let s := set_next_proxy next s in
        let '(code, recovery, stale) := created in
        if negb (code =? 0) then (Err code, recovery, s)
        else (Ok (length (pl_proxies s)), recovery,
              set_proxies (pl_proxies s ++
                [{| px_name := md_name source; px_source := md_identity source;
                    px_identity := {| ep_runtime := tc_self config; ep_registration_id := Z.lor (Z.shiftl 1 61) next |};
                    px_type := md_value_type source; px_recovery := recovery; px_stale_detected := stale; px_descriptor := d |}]) s)
  end.

(** ** Refresh *)
(** The answers of one [Refresh]: validation of entry [j] for name [i], [Create] for name [i],
    the clock for outgoing route [i]. *)
Record RefreshEnv := { rf_valid : nat -> nat -> Z; rf_create : nat -> Z * Z * bool; rf_now : nat -> Z }.

(** The remote publishers of [name]: the last admissible one and their number. *)
Definition scan_endpoint (name : list Z) (acc : option (PeerInfo * NetworkEndpointMetadata) * nat * Plane) (pe : PeerInfo * NetworkEndpointMetadata) :
    option (PeerInfo * NetworkEndpointMetadata) * nat * Plane :=
  let '(found, matches, s) := acc in
  let (peer, e) := pe in
  if negb (md_name e =?? name) || negb (is_topic e EndpointRole.PROVIDER) || negb (pi_metadata_ready peer) then acc
  else
    let gate := RouteGate peer (Consumer e) (md_identity e) in
    if negb (Compatible gate) then (found, matches, Notice e (- EACCES) (cr_reason gate) TopicRouteState.REJECTED 0 s)
    else if MAX_TOPIC_WIRE_PAYLOAD <? ty_payload_size (md_value_type e) then (found, matches, Reject e (- EMSGSIZE) s)
    else (Some (peer, e), S matches, s).
Definition scan_peers (name : list Z) (peers : list PeerInfo) (s : Plane) : option (PeerInfo * NetworkEndpointMetadata) * nat * Plane :=
  foldl (scan_endpoint name) (None, O, s) (flat_map (fun p => map (fun e => (p, e)) (pi_endpoints p)) peers).

(** The local consumer with the lowest registration id. *)
Fixpoint choose_consumer (valid : nat -> Z) (owner : PeerInfo) (source : NetworkEndpointMetadata) (d : TypeDescriptor) (name : list Z)
    (entries : list LocalEndpoint) (j : nat) (best : option LocalEndpoint) (s : Plane) : option LocalEndpoint * Plane :=
  match entries with
  | [] => (best, s)
  | e :: rest =>
      let next := choose_consumer valid owner source d name rest (S j) in
      if negb (md_name (le_metadata e) =?? name) || negb (is_topic (le_metadata e) EndpointRole.CONSUMER) then next best s
      else if negb (Gate owner (le_metadata e) (md_identity source))
      then next best (Notice source (- EPROTOTYPE) CompatibilityReason.TYPE_MISMATCH TopicRouteState.REJECTED 0 s)
      else if negb (LayoutId (le_descriptor e) =? LayoutId d) then next best (Reject source (- EPROTOTYPE) s)
      else if negb (valid j =? 0) then next best s
      else match best with
           | Some b => if ep_registration_id (md_identity (le_metadata e)) <? ep_registration_id (md_identity (le_metadata b))
                       then next (Some e) s else next best s
           | None => next (Some e) s
           end
  end.

(** The existing route, with its position. *)
Fixpoint find_route (packet : TopicPacket) (routes : list Incoming) (i : nat) : option (nat * Incoming) :=
  match routes with
  | [] => None
  | r :: rest => if SameRoute (set_route_id (tp_route_id (in_packet r)) packet) (in_packet r) then Some (i, r) else find_route packet rest (S i)
  end.

(** One name of [remote_topics]; [keep] marks the incoming routes that stay. *)
Definition route_packet (source : NetworkEndpointMetadata) (owner : PeerInfo) (consumer : LocalEndpoint) (name : list Z) (s : Plane) : TopicPacket :=
  {| tp_kind := TopicMessage.INTEREST; tp_source := md_identity source; tp_destination := md_identity (le_metadata consumer);
     tp_source_session := pi_session_id owner; tp_destination_session := pl_session s; tp_route_id := 0; tp_sequence := 0; tp_sample_sequence := 0;
     tp_type := md_value_type source; tp_name := name; tp_payload := [] |}.
Definition place_route (source : NetworkEndpointMetadata) (owner : PeerInfo) (consumer : LocalEndpoint) (proxy : nat) (name : list Z)
    (keep : list bool) (s : Plane) : list bool * Plane :=
  let packet := route_packet source owner consumer name s in
  match find_route packet (pl_incoming s) 0 with
  | Some (k, r) => (<[k := true]> keep, set_incoming (<[k := in_set_consumer consumer r]> (pl_incoming s)) s)
  | None =>
      if (tc_max_routes config <=? Z.of_nat (length (pl_incoming s) + length (pl_outgoing s))) || (pl_next_route s =? UINT64_MAX)
      then (keep, plane_resource_drop (Reject source (- ENOSPC) s))
      else
        let packet := set_route_id (pl_next_route s + 1) packet in
        (keep ++ [true],
         add_route {| in_subscription := None; in_packet := packet; in_consumer := consumer; in_proxy := proxy; in_interest := 0;
                      in_stats := Info packet false; in_latest := None |} s)
  end.
Definition refresh_topic (rf : RefreshEnv) (peers : list PeerInfo) (entries : list LocalEndpoint) (i : nat) (name : list Z)
    (keep : list bool) (s : Plane) : list bool * Plane :=
  let '(found, matches, s) := scan_peers name peers s in
  match found with
  | None => (keep, s)
  | Some (owner, source) =>
      if negb (matches =? 1)%nat then (keep, Reject source (- EADDRINUSE) s)
      else if existsb (fun e => (md_name (le_metadata e) =?? name) && (md_role (le_metadata e) =? EndpointRole.PROVIDER)) entries
      then (keep, Notice source (- EEXIST) CompatibilityReason.COMPATIBLE TopicRouteState.REJECTED 3 s)
      else match Descriptor name (md_value_type source) entries with
      | None =>
          let declared := existsb (fun b => fst b =?? name) (tc_local_types config) in
          (keep, Notice source (if declared then - EPROTOTYPE else - ENODATA)
                   (if declared then CompatibilityReason.TYPE_MISMATCH else CompatibilityReason.COMPATIBLE) TopicRouteState.REJECTED 0 s)
      | Some d =>
          let '(proxy, recovery, s) := ProxyFor source d (rf_create rf i) s in
          match proxy with
          | Err code => (keep, Notice source code CompatibilityReason.COMPATIBLE TopicRouteState.REJECTED recovery s)
          | Ok proxy =>
              let (consumer, s) := choose_consumer (rf_valid rf i) owner source d name entries 0 None s in
              match consumer with
              | None => (keep, Notice source 0 CompatibilityReason.COMPATIBLE TopicRouteState.WAITING_SUBSCRIBER 0 s)
              | Some consumer => place_route source owner consumer proxy name keep s
              end
          end
      end
  end.
Fixpoint refresh_topics (rf : RefreshEnv) (peers : list PeerInfo) (entries : list LocalEndpoint) (i : nat) (names : list (list Z))
    (keep : list bool) (s : Plane) : list bool * Plane :=
  match names with
  | [] => (keep, s)
  | name :: rest => let (keep, s) := refresh_topic rf peers entries i name keep s in refresh_topics rf peers entries (S i) rest keep s
  end.
(** The routes that were not kept, from the last to the first. *)
Fixpoint drop_incoming (routes : list Incoming) (keep : list bool) (s : Plane) : list Incoming * Plane :=
  match routes with
  | [] => ([], s)
  | r :: rest =>
      let (rest, s) := drop_incoming rest (tl keep) s in
      if negb (hd false keep) && match in_subscription r with None => true | Some _ => false end then (rest, Archive (in_stats r) s) else (r :: rest, s)
  end.
Fixpoint drop_outgoing (now : nat -> Z) (peers : list PeerInfo) (entries : list LocalEndpoint) (routes : list Outgoing) (i : nat) (s : Plane) :
    list Outgoing * Plane :=
  match routes with
  | [] => ([], s)
  | r :: rest =>
      let (rest, s) := drop_outgoing now peers entries rest (S i) s in
      let p := og_packet r in
      match find_host peers (rt_host (ep_runtime (tp_destination p))), find_local entries (tp_source p) with
      | Some peer, Some entry =>
          if negb (pi_session_id peer =? tp_destination_session p) || negb (is_topic (le_metadata entry) EndpointRole.PROVIDER) ||
             negb (Gate peer (le_metadata entry) (tp_destination p)) then (rest, Archive (og_stats r) s)
          else if og_expires r <=? now i then (og_set_stats (close_info (og_stats r)) r :: rest, s)
          else (r :: rest, s)
      | _, _ => (rest, Archive (og_stats r) s)
      end
  end.
Definition oversized (entries : list LocalEndpoint) (s : Plane) : Plane :=
  foldl (fun s e => if is_topic (le_metadata e) EndpointRole.PROVIDER && (MAX_TOPIC_WIRE_PAYLOAD <? ty_payload_size (md_value_type (le_metadata e)))
                    then Reject (le_metadata e) (- EMSGSIZE) s else s) s entries.
Definition Refresh (rf : RefreshEnv) (peers : list PeerInfo) (entries : list LocalEndpoint) (s : Plane) : Plane :=
  let s := oversized entries (set_notices [] s) in
  let keep := repeat false (length (pl_incoming s)) in
  let (keep, s) := if tc_receive_only config then (keep, s) else refresh_topics rf peers entries 0 (tc_remote_topics config) keep s in
  let (incoming, s) := drop_incoming (pl_incoming s) keep s in
  let s := set_incoming incoming s in
  let (outgoing, s) := drop_outgoing (rf_now rf) peers entries (pl_outgoing s) 0 s in
  set_outgoing outgoing s.

(** ** Sending a datagram *)
(** [sendto]: all of it, a part, or an errno. *)
Inductive SendAnswer := SentAll | SentPart | SentError (e : positive).
Definition SendPacket (packet : TopicPacket) (ip : list Z) (port : Z) (answer : SendAnswer) (s : Plane) : Z * Plane :=
  match EncodeTopicPacket packet with
  | Err code => (code, s)
  | Ok bytes =>
      match inet_pton ip with
      | None => (- EINVAL, s)
      | Some _ =>
          let s := log_wire {| dg_bytes := bytes; dg_address := ip; dg_port := if port =? 0 then tc_port config else port |} s in
          (match answer with SentAll => 0 | SentPart => - EIO | SentError e => - Z.pos e end, s)
      end
  end.

(** ** Receiving *)
(** The answers an [Interest] may need: validation, the clock, [Open], [FreshBaseline]. *)
Record InterestEnv := { ix_valid : Z; ix_now : Z; ix_open : Z; ix_baseline : Z * Z }.
Definition interest_lease : Z := 750 * millisecond.

(** The older routes between the two endpoints make way, from the last to the first; [None]:
    the datagram is stale. *)
Fixpoint supersede (packet : TopicPacket) (receiver : bool) (routes : list Outgoing) (s : Plane) : bool * list Outgoing * Plane :=
  match routes with
  | [] => (true, [], s)
  | o :: rest =>
      let '(go, rest, s) := supersede packet receiver rest s in
      if negb go then (false, o :: rest, s)
      else
        let p := og_packet o in
        if negb (tp_source p =?? tp_source packet) || negb (tp_destination p =?? tp_destination packet) then (true, o :: rest, s)
        else if receiver && (tp_destination_session p =? tp_destination_session packet) then (false, o :: rest, s)
        else if (tp_destination_session p =? tp_destination_session packet) && (tp_route_id packet <=? tp_route_id p) then (false, o :: rest, s)
        else (true, rest, Archive (og_stats o) s)
  end.
Definition is_receiver (peer : PeerInfo) : bool := negb (Z.land (pf_capabilities (pi_profile peer)) Capability.REMOTE_TOPIC_RECEIVER =? 0).
Definition new_outgoing (packet : TopicPacket) (entry : LocalEndpoint) (peer : PeerInfo) (port : Z) (fresh : bool) (baseline expires : Z) : Outgoing :=
  {| og_packet := as_data packet; og_publisher := entry; og_expires := expires; og_next := 0; og_fresh_start := fresh; og_baseline := baseline;
     og_address := pi_address peer; og_port := port; og_stats := Info packet true |}.
Definition open_route (ix : InterestEnv) (packet : TopicPacket) (entry : LocalEndpoint) (peer : PeerInfo) (port : Z) (s : Plane) : Plane :=
  let '(go, outgoing, s) := supersede packet (is_receiver peer) (pl_outgoing s) s in
  let s := set_outgoing outgoing s in
  if negb go then plane_stale s
  else if tc_max_routes config <=? Z.of_nat (length (pl_incoming s) + length (pl_outgoing s)) then plane_resource_drop s
  else if negb (ix_open ix =? 0) then Reject (le_metadata entry) (ix_open ix) s
  else
    let fresh := existsb (fun name => name =?? tp_name packet) (tc_fresh_start config) in
    let (code, baseline) := if fresh then ix_baseline ix else (0, 0) in
    if negb (code =? 0) then Reject (le_metadata entry) code s
    else set_outgoing (pl_outgoing s ++ [new_outgoing packet entry peer port fresh baseline (ix_now ix + interest_lease)]) s.
Definition Interest (ix : InterestEnv) (packet : TopicPacket) (peer : PeerInfo) (entries : list LocalEndpoint) (port : Z) (s : Plane) : Plane :=
  if tc_receive_only config then s
  else match find_local entries (tp_source packet) with
  | None => plane_stale s
  | Some entry =>
      if negb (tp_source_session packet =? pl_session s) || negb (tp_destination_session packet =? pi_session_id peer) ||
         negb (is_topic (le_metadata entry) EndpointRole.PROVIDER) || negb (md_name (le_metadata entry) =?? tp_name packet) ||
         negb (md_value_type (le_metadata entry) =?? tp_type packet) || negb (Gate peer (le_metadata entry) (tp_destination packet)) ||
         negb (ix_valid ix =? 0) then plane_stale s
      else match list_find (fun o => SameRoute (og_packet o) packet = true) (pl_outgoing s) with
      | Some (i, o) =>
          if negb (og_port o =? port) then plane_stale s
          else set_outgoing (<[i := og_renew (ix_now ix + interest_lease) o]> (pl_outgoing s)) s
      | None => open_route ix packet entry peer port s
      end
  end.
Definition Data (packet : TopicPacket) (peer : PeerInfo) (s : Plane) : Plane :=
  match list_find (fun r => SameRoute (in_packet r) packet = true) (pl_incoming s) with
  | None => plane_stale s
  | Some (i, r) =>
      let put := fun r s => set_incoming (<[i := r]> (pl_incoming s)) s in
      if negb (tp_name packet =?? tp_name (in_packet r)) || negb (tp_type packet =?? tp_type (in_packet r)) ||
         negb (Gate peer (le_metadata (in_consumer r)) (tp_source packet))
      then plane_malformed (put (in_set_stats (count_malformed (in_stats r)) r) s)
      else if tp_sequence packet =? tp_sequence (in_packet r) then put (in_set_stats (count_duplicate (in_stats r)) r) s
      else if (tp_sequence packet <? tp_sequence (in_packet r)) || (tp_sample_sequence packet <=? tp_sample_sequence (in_packet r))
      then put (in_set_stats (count_out_of_order (in_stats r)) r) s
      else match DecodeParameterValue (tc_little config) (le_descriptor (in_consumer r)) (tp_payload packet) with
      | Err _ => plane_malformed (put (in_set_stats (count_malformed (in_stats r)) r) s)
      | Ok _ => put (in_receive packet r) s
      end
  end.

(** One [recvfrom]: an errno, or a datagram of [count] bytes, of which [bytes] fit. *)
Inductive PlaneRecv := RecvError (e : positive) | RecvData (count : Z) (bytes : list Z) (ip : list Z) (port : Z).
Definition admitted (peer : option PeerInfo) (packet : TopicPacket) (ip : list Z) (port : Z) : bool :=
  match peer with
  | None => false
  | Some peer =>
      pi_metadata_ready peer && Compatible (PeerGate peer) && (pi_address peer =?? ip) &&
      ((is_receiver peer && (tp_kind packet =? TopicMessage.INTEREST)) || (port =? tc_port config))
  end.
Definition receive_one (ix : InterestEnv) (peers : list PeerInfo) (entries : list LocalEndpoint) (count : Z) (bytes ip : list Z) (port : Z) (s : Plane) : Plane :=
  if MAX_TOPIC_DATAGRAM <? count then plane_malformed s
  else match DecodeTopicPacket (Some bytes) with
  | Err _ => plane_malformed s
  | Ok packet =>
      let interest := tp_kind packet =? TopicMessage.INTEREST in
      let peer := find_host peers (rt_host (ep_runtime (if interest then tp_destination packet else tp_source packet))) in
      match peer with
      | Some p => if negb (admitted peer packet ip port) then plane_stale s
                  else if interest then Interest ix packet p entries port s else Data packet p s
      | None => plane_stale s
      end
  end.
Fixpoint ReceiveAll (budget : nat) (answers : list (PlaneRecv * InterestEnv)) (peers : list PeerInfo) (entries : list LocalEndpoint) (s : Plane) : Plane :=
  match budget, answers with
  | S budget, (RecvData count bytes ip port, ix) :: rest => ReceiveAll budget rest peers entries (receive_one ix peers entries count bytes ip port s)
  | S _, (RecvError e, _) :: _ =>
      if (Z.pos e =? EBADF) || (Z.pos e =? ENOTSOCK) then plane_error (- Z.pos e) s
      else if negb (Z.pos e =? EAGAIN) && negb (Z.pos e =? EINTR) then plane_socket_error s else s
  | _, _ => s
  end.

(** ** Delivering *)
(** For route [i]: validation of the local consumer, and the proxy's [Publish]. *)
Record DeliverEnv := { dl_valid : nat -> Z; dl_publish : nat -> Z }.
Definition subscription_result (r : Incoming) (p : TopicPacket) (code : Z) (stats : TopicRouteInfo) (s : Plane) : Plane :=
  match in_subscription r with
  | None => s
  | Some k => match pl_states s !! k with
              | None => s
              | Some b => set_states (<[k := if code =? 0 then sb_value stats p b else sb_set_route stats code b]> (pl_states s)) s
              end
  end.
Definition deliver_route (dl : DeliverEnv) (i : nat) (r : Incoming) (s : Plane) : Incoming * Plane :=
  match in_latest r with
  | None => (r, s)
  | Some p =>
      let code := match in_subscription r with Some _ => 0 | None => dl_valid dl i end in
      let value := if negb (code =? 0) then Err code else DecodeParameterValue (tc_little config) (le_descriptor (in_consumer r)) (tp_payload p) in
      let '(code, s) := match value with
                        | Err code => (code, s)
                        | Ok v => if dl_publish dl i =? 0
                                  then (0, log_delivery {| dv_packet := p; dv_descriptor := le_descriptor (in_consumer r); dv_value := v |} s)
                                  else (dl_publish dl i, s)
                        end in
      let stats := if negb (code =? 0) then count_dropped code (in_stats r) else count_published (in_stats r) in
      (in_deliver stats r, subscription_result r p code stats s)
  end.
Fixpoint deliver_routes (dl : DeliverEnv) (i : nat) (routes : list Incoming) (s : Plane) : list Incoming * Plane :=
  match routes with
  | [] => ([], s)
  | r :: rest => let (r, s) := deliver_route dl i r s in let (rest, s) := deliver_routes dl (S i) rest s in (r :: rest, s)
  end.
Definition Deliver (dl : DeliverEnv) (s : Plane) : Plane :=
  let (incoming, s) := deliver_routes dl 0 (pl_incoming s) s in set_incoming incoming s.

(** ** Transmitting *)
(** [tx_now], and for route [i]: the send of an INTEREST; for an outgoing route the clock at
    the test and at the end, validation, [ReadLatest], the send. *)
Record TransmitEnv := {
  tx_now : Z;
  tx_interest : nat -> SendAnswer;
  tx_due : nat -> Z;
  tx_end : nat -> Z;
  tx_valid : nat -> Z;
  tx_read : nat -> result DynamicPayload;
  tx_send : nat -> SendAnswer
}.
Definition interest_interval : Z := 200 * millisecond.
Definition send_interest (tx : TransmitEnv) (peers : list PeerInfo) (i : nat) (r : Incoming) (s : Plane) : Incoming * Plane :=
  if tx_now tx <? in_interest r then (r, s)
  else
    let p := in_packet r in
    let (r, s) :=
      match find_host peers (rt_host (ep_runtime (tp_source p))) with
      | None => (r, s)
      | Some peer =>
          if Gate peer (le_metadata (in_consumer r)) (tp_source p) then
            let (code, s) := SendPacket (as_interest p) (pi_address peer) 0 (tx_interest tx i) s in
            (if negb (code =? 0) then in_set_stats (set_info_error code (in_stats r)) r else r, s)
          else (r, s)
      end in
    (in_set_interest (tx_now tx + interest_interval) r, s).
Fixpoint send_interests (tx : TransmitEnv) (peers : list PeerInfo) (i : nat) (routes : list Incoming) (s : Plane) : list Incoming * Plane :=
  match routes with
  | [] => ([], s)
  | r :: rest => let (r, s) := send_interest tx peers i r s in let (rest, s) := send_interests tx peers (S i) rest s in (r :: rest, s)
  end.

(** The sample of a route that is due; [og_next] is set by the caller. *)
Definition send_sample (tx : TransmitEnv) (i : nat) (o : Outgoing) (s : Plane) : Outgoing * Plane :=
  let fail := fun code => (if code =? - EAGAIN then o else og_set_stats (set_info_error code (og_stats o)) o, s) in
  if negb (tx_valid tx i =? 0) then fail (tx_valid tx i)
  else match tx_read tx i with
  | Err code => fail code
  | Ok value =>
      let p := og_packet o in
      let s := log_read (md_identity (le_metadata (og_publisher o))) value s in
      if og_fresh_start o && (dp_sequence value <=? og_baseline o) then (o, s)
      else if dp_sequence value =? tp_sample_sequence p then (o, s)
      else if (dp_sequence value <? tp_sample_sequence p) || (tp_sequence p =? UINT64_MAX)
      then (og_set_stats (set_info_error (- ESTALE) (og_stats o)) o, s)
      else
        let o := og_sample (dp_sequence value) o in
        let '(code, o, s) :=
          match EncodeParameterValue (tc_little config) (le_descriptor (og_publisher o)) value with
          | Err code => (code, o, s)
          | Ok payload =>
              let o := og_set_payload payload o in
              let (code, s) := SendPacket (og_packet o) (og_address o) (og_port o) (tx_send tx i) s in (code, o, s)
          end in
        (og_set_stats (if negb (code =? 0) then count_dropped code (og_stats o) else count_sent (og_stats o)) o, s)
  end.
(** The phase is kept, missed periods are skipped. *)
Definition first_due (next due : Z) : Z := if next =? 0 then due else next.
Definition last_deadline (next due period : Z) : Z := next + Z.quot (due - next) period * period.
Definition next_deadline (deadline stop period : Z) : Z := deadline + (Z.quot (stop - deadline) period + 1) * period.
Definition send_data (tx : TransmitEnv) (i : nat) (o : Outgoing) (s : Plane) : Outgoing * Plane :=
  let due := tx_due tx i in
  if negb (ri_state (og_stats o) =? TopicRouteState.ACTIVE) || (due <? og_next o) then (o, s)
  else
    let period := route_period config (tp_name (og_packet o)) in
    let deadline := last_deadline (first_due (og_next o) due) due period in
    let (o, s) := send_sample tx i o s in
    (og_set_next (next_deadline deadline (tx_end tx i) period) o, s).
Fixpoint send_routes (tx : TransmitEnv) (i : nat) (routes : list Outgoing) (s : Plane) : list Outgoing * Plane :=
  match routes with
  | [] => ([], s)
  | o :: rest => let (o, s) := send_data tx i o s in let (rest, s) := send_routes tx (S i) rest s in (o :: rest, s)
  end.
Definition Transmit (tx : TransmitEnv) (peers : list PeerInfo) (s : Plane) : Plane :=
  let (incoming, s) := send_interests tx peers 0 (pl_incoming s) s in
  let s := set_incoming incoming s in
  let (outgoing, s) := send_routes tx 0 (pl_outgoing s) s in
  set_outgoing outgoing s.

(** ** Subscriptions *)
(** The routes of subscription [k] close, from the last to the first. *)
Fixpoint close_routes (k : nat) (routes : list Incoming) (s : Plane) : list Incoming * Plane :=
  match routes with
  | [] => ([], s)
  | r :: rest =>
      let (rest, s) := close_routes k rest s in
      if in_subscription r =?? Some k then
        let s := match pl_states s !! k with Some b => set_states (<[k := sb_closing (in_stats r) b]> (pl_states s)) s | None => s end in
        (rest, Archive (in_stats r) s)
      else (r :: rest, s)
  end.
(** [cleanup] and [removed] are what [Cleanup] and [UnregisterConsumer] return. *)
Definition CloseSubscription (k : nat) (status : RemoteTopicState) (code cleanup removed : Z) (s : Plane) : Plane :=
  let (incoming, s) := close_routes k (pl_incoming s) s in
  let s := set_incoming incoming s in
  match pl_states s !! k with
  | None => s
  | Some b =>
      let code := if sb_writer b && negb (cleanup =? 0) && (code =? 0) then cleanup else code in
      let code := if negb (removed =? 0) && negb (removed =? - ENOENT) && negb (removed =? - ESTALE) && (code =? 0) then removed else code in
      set_states (<[k := sb_close status code b]> (pl_states s)) s
  end.
(** What ends a subscription: [None] while it stays. *)
Definition subscription_ends (session : Z) (peers : list PeerInfo) (b : Subscription) : option (RemoteTopicState * Z) :=
  let source := md_identity (sb_source b) in
  if negb (session =? sb_local_session b) then Some (STALE, - ESTALE)
  else match find_host peers (rt_host (ep_runtime source)) with
  | None => Some (TOPIC_LOST, - ENOTCONN)
  | Some peer =>
      if pi_state peer =?? LOST then Some (TOPIC_LOST, - ENOTCONN)
      else if negb (pi_session_id peer =? ri_source_session (sb_route b)) || negb (pi_boot_id peer =?? rt_boot_id (ep_runtime source)) then Some (STALE, - ESTALE)
      else if pi_metadata_ready peer && negb (Gate peer (sb_consumer b) source) then
        if existsb (fun e => (md_identity e =?? source) && negb (md_value_type e =?? md_value_type (sb_source b))) (pi_endpoints peer)
        then Some (ERROR, - EPROTOTYPE) else Some (STALE, - ESTALE)
      else None
  end.
(** [answers i]: [GetSessionId], [Cleanup], [UnregisterConsumer] for the subscription at place [i]. *)
Fixpoint check_subscriptions (answers : nat -> Z * Z * Z) (peers : list PeerInfo) (i : nat) (ks : list nat) (s : Plane) : Plane :=
  match ks with
  | [] => s
  | k :: rest =>
      let '(session, cleanup, removed) := answers i in
      let s := match pl_states s !! k with
               | Some b =>
                   if negb (sb_writer b) then s
                   else match subscription_ends session peers b with
                        | Some (status, code) => CloseSubscription k status code cleanup removed s
                        | None => s
                        end
               | None => s
               end in
      check_subscriptions answers peers (S i) rest s
  end.

(** [Export] copies the statistics into the snapshots of the subscriptions. *)
Definition export_route (s : Plane) (r : Incoming) : Plane :=
  match in_subscription r with
  | None => s
  | Some k => match pl_states s !! k with
              | Some b => set_states (<[k := sb_set_route (in_stats r) (ri_error (in_stats r)) b]> (pl_states s)) s
              | None => s
              end
  end.
Definition Export (s : Plane) : Plane := foldl export_route s (pl_incoming s).

(** The answers of [Subscribe]: the next id, [GetSessionId], [Create], [RegisterConsumer]. *)
Record SubscribeEnv := { se_id : Z; se_session : Z; se_created : Z; se_registered : Z }.
Definition with_identity (e : NetworkEndpointMetadata) (id : RemoteEndpointIdentity) : NetworkEndpointMetadata :=
  {| md_protocol_version := md_protocol_version e; md_identity := id; md_application := md_application e; md_host_name := md_host_name e;
     md_application_name := md_application_name e; md_element_name := md_element_name e; md_name := md_name e; md_groups := md_groups e;
     md_kind := md_kind e; md_role := md_role e; md_scope := md_scope e; md_value_type := md_value_type e; md_request_type := md_request_type e;
     md_response_type := md_response_type e; md_feedback_type := md_feedback_type e |}.
Definition subscription_route (source : NetworkEndpointMetadata) (consumer : NetworkEndpointMetadata) (d : TypeDescriptor) (type : TypeIdentity)
    (expected id : Z) (k : nat) (s : Plane) : Incoming :=
  let packet := {| tp_kind := TopicMessage.INTEREST; tp_source := md_identity source; tp_destination := md_identity consumer; tp_source_session := expected;
                   tp_destination_session := pl_session s; tp_route_id := id; tp_sequence := 0; tp_sample_sequence := 0; tp_type := type;
                   tp_name := md_name source; tp_payload := [] |} in
  {| in_subscription := Some k; in_packet := packet; in_consumer := {| le_metadata := consumer; le_descriptor := d |}; in_proxy := 0; in_interest := 0;
     in_stats := wait_info (Info packet false); in_latest := None |}.
Definition Subscribe (se : SubscribeEnv) (running : bool) (peers : list PeerInfo) (source : NetworkEndpointMetadata) (expected : Z) (d : TypeDescriptor)
    (s : Plane) : result nat * Plane :=
  if negb running || negb (tc_receive_only config) then (Err (- ENOTCONN), s)
  else if tc_max_routes config <=? Z.of_nat (length (pl_subscriptions s)) then (Err (- ENOSPC), s)
  else match ParameterWireType d with
  | Err code => (Err code, s)
  | Ok type =>
      if negb (type =?? md_value_type source) || (MAX_TOPIC_WIRE_PAYLOAD <? ty_payload_size type) then (Err (- EPROTOTYPE), s)
      else match find_host peers (rt_host (ep_runtime (md_identity source))) with
      | None => (Err (- ENOTCONN), s)
      | Some peer =>
          if negb (pi_state peer =?? ONLINE) then (Err (- ENOTCONN), s)
          else if negb (pi_session_id peer =? expected) || negb (pi_boot_id peer =?? rt_boot_id (ep_runtime (md_identity source))) then (Err (- ESTALE), s)
          else if Z.land (pf_capabilities (pi_profile peer)) Capability.TOPIC_ENDPOINT_SUBSCRIPTION =? 0 then (Err (- ENOTSUP), s)
          else if Z.shiftl 1 60 <=? se_id se then (Err (- EOVERFLOW), s)
          else if negb (se_session se =? pl_session s) then (Err (- ESTALE), s)
          else
            let consumer := with_identity (Consumer source) {| ep_runtime := tc_self config; ep_registration_id := Z.lor (Z.shiftl 1 60) (se_id se) |} in
            if negb (Gate peer consumer (md_identity source)) then (Err (- EPROTOTYPE), s)
            else if negb (se_created se =? 0) then (Err (se_created se), s)
            else if negb (se_registered se =? 0) then (Err (se_registered se), s)
            else
              let k := length (pl_states s) in
              let route := subscription_route source consumer d type expected (se_id se) k s in
              (Ok k,
               set_incoming (pl_incoming s ++ [route])
                 (set_subscriptions (pl_subscriptions s ++ [k])
                   (set_states (pl_states s ++
                     [{| sb_consumer := consumer; sb_source := source; sb_descriptor := d; sb_writer := true; sb_local_session := se_session se;
                         sb_state := WAITING_ROUTE; sb_error := 0; sb_has_value := false; sb_payload := []; sb_sequence := 0; sb_sample_sequence := 0;
                         sb_route := in_stats route |}]) s)))
      end
  end.
Definition Unsubscribe (k : nat) (cleanup removed : Z) (s : Plane) : result Z * Plane :=
  match list_find (fun j => j = k) (pl_subscriptions s) with
  | None => (Err (- ENOENT), s)
  | Some (i, _) =>
      let s := CloseSubscription k TOPIC_CLOSED 0 cleanup removed s in
      let s := Export (set_subscriptions (delete i (pl_subscriptions s)) s) in
      (Ok (match pl_states s !! k with Some b => sb_error b | None => 0 end), s)
  end.

(** ** The worker *)
(** The part of a turn that runs every 20 ms. *)
Record RefreshTurn := { rt_checks : nat -> Z * Z * Z; rt_env : RefreshEnv; rt_peers : list PeerInfo; rt_entries : list LocalEndpoint }.
(** [pr_peers] and [pr_entries] are those of the last refresh. *)
Record Turn := {
  tu_refresh : option RefreshTurn;
  tu_peers : list PeerInfo;
  tu_entries : list LocalEndpoint;
  tu_receive : list (PlaneRecv * InterestEnv);
  tu_deliver : DeliverEnv;
  tu_transmit : TransmitEnv
}.
Definition refresh_turn (t : Turn) (s : Plane) : Plane :=
  match tu_refresh t with
  | None => s
  | Some r => Export (Refresh (rt_env r) (rt_peers r) (rt_entries r) (check_subscriptions (rt_checks r) (rt_peers r) 0 (pl_subscriptions s) s))
  end.
Definition run_turn (t : Turn) (s : Plane) : Plane :=
  let s := refresh_turn t s in
  Transmit (tu_transmit t) (tu_peers t) (Deliver (tu_deliver t) (ReceiveAll 64 (tu_receive t) (tu_peers t) (tu_entries t) s)).
(** The end of the worker: every subscription closes, every route is archived. *)
Fixpoint close_all (answers : nat -> Z * Z) (status : RemoteTopicState) (code : Z) (i : nat) (ks : list nat) (s : Plane) : Plane :=
  match ks with
  | [] => s
  | k :: rest => close_all answers status code (S i) rest (CloseSubscription k status code (fst (answers i)) (snd (answers i)) s)
  end.
Definition end_worker (answers : nat -> Z * Z) (s : Plane) : Plane :=
  let failed := negb (pl_error s =? 0) in
  let s := close_all answers (if failed then ERROR else TOPIC_CLOSED) (if failed then pl_error s else - ECANCELED) 0 (pl_subscriptions s) s in
  let s := set_subscriptions [] s in
  let s := foldl (fun s r => Archive (in_stats r) s) s (pl_incoming s) in
  let s := foldl (fun s o => Archive (og_stats o) s) s (pl_outgoing s) in
  set_outgoing [] (set_incoming [] s).

Inductive PlaneEvent :=
| PeTurn (t : Turn)
| PeSubscribe (se : SubscribeEnv) (running : bool) (peers : list PeerInfo) (source : NetworkEndpointMetadata) (expected : Z) (d : TypeDescriptor)
| PeUnsubscribe (k : nat) (cleanup removed : Z)
| PeEnd (answers : nat -> Z * Z).
Definition plane_step (e : PlaneEvent) (s : Plane) : Plane :=
  match e with
  | PeTurn t => run_turn t s
  | PeSubscribe se running peers source expected d => snd (Subscribe se running peers source expected d s)
  | PeUnsubscribe k cleanup removed => snd (Unsubscribe k cleanup removed s)
  | PeEnd answers => end_worker answers s
  end.
Definition plane_run (es : list PlaneEvent) (s : Plane) : Plane := foldl (fun s e => plane_step e s) s es.

(** The state after [Start]; the proxies of an earlier run stay. *)
Definition started_plane (session next_route next_proxy : Z) (proxies : list Proxy) : Plane :=
  {| pl_session := session; pl_next_route := next_route; pl_next_proxy := next_proxy; pl_states := []; pl_subscriptions := []; pl_proxies := proxies;
     pl_incoming := []; pl_outgoing := []; pl_history := []; pl_notices := []; pl_malformed := 0; pl_stale := 0; pl_resource_drops := 0;
     pl_socket_errors := 0; pl_error := 0; pl_wire := []; pl_reads := []; pl_delivered := [] |}.
End Plane.
