(* ===== verification/TopicPlaneRoutes.v ===== *)
(** * The routes of the data plane as an abstract machine

    [PlaneCore] keeps of a [Plane] what forwarding depends on: the packets of the routes, the
    pending samples, the subscriptions and the logs.  [core_step] is the abstract machine:
    routes open and close, samples are taken, delivered and sent.  [plane_refines_routes]
    shows that every run of the worker is a run of that machine; [TopicPlaneSafety] proves its
    invariants by induction on the steps. *)
From S2P Require Import Prelude Wire NetTypes NetWire Compatibility TopicProtocol DiscoveryProtocol TypeDescriptor ParameterCodec NetworkDiagnostics PeerDiscovery TopicPlane.

(** ** The routes without their bookkeeping *)
(** [InCore], [OutCore] and [PlaneCore] are what forwarding depends on; [c_last] is the last
    subscription id the process has drawn. *)
Record InCore := { ic_sub : option nat; ic_packet : TopicPacket; ic_latest : option TopicPacket }.
Record OutCore := { oc_packet : TopicPacket; oc_publisher : LocalEndpoint }.
Record PlaneCore := {
  c_last : Z; c_next : Z; c_states : nat; c_subs : list nat; c_in : list InCore; c_out : list OutCore;
  c_wire : list TopicDatagram; c_reads : list (RemoteEndpointIdentity * DynamicPayload); c_delivered : list TopicDelivery
}.
Definition in_core (r : Incoming) : InCore := {| ic_sub := in_subscription r; ic_packet := in_packet r; ic_latest := in_latest r |}.
Definition out_core (o : Outgoing) : OutCore := {| oc_packet := og_packet o; oc_publisher := og_publisher o |}.
Definition core (last : Z) (s : Plane) : PlaneCore :=
  {| c_last := last; c_next := pl_next_route s; c_states := length (pl_states s); c_subs := pl_subscriptions s; c_in := map in_core (pl_incoming s);
     c_out := map out_core (pl_outgoing s); c_wire := pl_wire s; c_reads := pl_reads s; c_delivered := pl_delivered s |}.

Definition c_set_in (l : list InCore) (c : PlaneCore) : PlaneCore :=
  {| c_last := c_last c; c_next := c_next c; c_states := c_states c; c_subs := c_subs c; c_in := l; c_out := c_out c; c_wire := c_wire c;
     c_reads := c_reads c; c_delivered := c_delivered c |}.
Definition c_set_out (l : list OutCore) (c : PlaneCore) : PlaneCore :=
  {| c_last := c_last c; c_next := c_next c; c_states := c_states c; c_subs := c_subs c; c_in := c_in c; c_out := l; c_wire := c_wire c;
     c_reads := c_reads c; c_delivered := c_delivered c |}.
Definition c_set_subs (l : list nat) (c : PlaneCore) : PlaneCore :=
  {| c_last := c_last c; c_next := c_next c; c_states := c_states c; c_subs := l; c_in := c_in c; c_out := c_out c; c_wire := c_wire c;
     c_reads := c_reads c; c_delivered := c_delivered c |}.
Definition c_log (sent : list TopicDatagram) (read : list (RemoteEndpointIdentity * DynamicPayload)) (delivered : list TopicDelivery) (c : PlaneCore) : PlaneCore :=
  {| c_last := c_last c; c_next := c_next c; c_states := c_states c; c_subs := c_subs c; c_in := c_in c; c_out := c_out c; c_wire := c_wire c ++ sent;
     c_reads := c_reads c ++ read; c_delivered := c_delivered c ++ delivered |}.
Definition c_set_last (n : Z) (c : PlaneCore) : PlaneCore :=
  {| c_last := n; c_next := c_next c; c_states := c_states c; c_subs := c_subs c; c_in := c_in c; c_out := c_out c; c_wire := c_wire c;
     c_reads := c_reads c; c_delivered := c_delivered c |}.
Definition c_open (p : TopicPacket) (c : PlaneCore) : PlaneCore :=
  {| c_last := c_last c; c_next := c_next c + 1; c_states := c_states c; c_subs := c_subs c;
     c_in := c_in c ++ [{| ic_sub := None; ic_packet := p; ic_latest := None |}]; c_out := c_out c; c_wire := c_wire c; c_reads := c_reads c;
     c_delivered := c_delivered c |}.
Definition c_subscribe (p : TopicPacket) (c : PlaneCore) : PlaneCore :=
  {| c_last := tp_route_id p; c_next := c_next c; c_states := S (c_states c); c_subs := c_subs c ++ [c_states c];
     c_in := c_in c ++ [{| ic_sub := Some (c_states c); ic_packet := p; ic_latest := None |}]; c_out := c_out c; c_wire := c_wire c;
     c_reads := c_reads c; c_delivered := c_delivered c |}.

(** The key of a route: what [SameRoute] compares. *)
Definition route_key (p : TopicPacket) : RemoteEndpointIdentity * RemoteEndpointIdentity * Z * Z * Z :=
  (tp_source p, tp_destination p, tp_source_session p, tp_destination_session p, tp_route_id p).
Lemma SameRoute_key a b : SameRoute a b = true <-> route_key a = route_key b.
Proof.
  unfold SameRoute, route_key. split.
  - intros H. bool_to_prop. congruence.
  - intros H. injection H as -> -> -> -> ->. rewrite !bool_decide_true, !Z.eqb_refl by done. done.
Qed.
Definition route_ends (p : TopicPacket) : RemoteEndpointIdentity * RemoteEndpointIdentity := (tp_source p, tp_destination p).

(** The local publisher a route reads. *)
Definition publishes (entry : LocalEndpoint) (p : TopicPacket) : Prop :=
  md_identity (le_metadata entry) = tp_source p /\ md_name (le_metadata entry) = tp_name p /\ md_value_type (le_metadata entry) = tp_type p.

(** A sample the reader may return. *)
Definition typed_value (v : DynamicPayload) : Prop := is_u64 (dp_sequence v) /\ bytes (dp_bytes v).

(** [datagram] is what the network may deliver. *)
Section Routes.
Context (config : PlaneConfig) (datagram : list Z -> Prop).
Definition arrived (p : TopicPacket) : Prop := exists bs, datagram bs /\ DecodeTopicPacket (Some bs) = Ok p.

Definition has_room (c : PlaneCore) : Prop := Z.of_nat (length (c_in c) + length (c_out c)) < tc_max_routes config.
(** One sample on an outgoing route: the route after it and the datagram it put on the wire. *)
Definition samples (o : OutCore) (v : DynamicPayload) (o' : OutCore) (sent : list TopicDatagram) : Prop :=
  let p := set_sequences (tp_sequence (oc_packet o) + 1) (dp_sequence v) (oc_packet o) in
  tp_sample_sequence (oc_packet o) < dp_sequence v /\ tp_sequence (oc_packet o) <> UINT64_MAX /\ oc_publisher o' = oc_publisher o /\
  ((oc_packet o' = p /\ sent = []) \/
   (exists payload, EncodeParameterValue (tc_little config) (le_descriptor (oc_publisher o)) v = Ok payload /\ oc_packet o' = set_payload payload p /\
     (sent = [] \/ exists d, sent = [d] /\ EncodeTopicPacket (oc_packet o') = Ok (dg_bytes d)))).

Inductive core_step (c : PlaneCore) : PlaneCore -> Prop :=
| core_drop_in l : sublist l (c_in c) -> core_step c (c_set_in l c)
| core_drop_out l : sublist l (c_out c) -> core_step c (c_set_out l c)
| core_open_in p : tc_receive_only config = false -> has_room c -> c_next c <> UINT64_MAX -> tp_kind p = TopicMessage.INTEREST ->
    tp_route_id p = c_next c + 1 -> core_step c (c_open p c)
| core_subscribe p : tc_receive_only config = true -> Z.of_nat (length (c_subs c)) < tc_max_routes config -> tp_kind p = TopicMessage.INTEREST ->
    c_last c < tp_route_id p -> core_step c (c_subscribe p c)
| core_tick n : c_last c <= n -> core_step c (c_set_last n c)
| core_release l : sublist l (c_subs c) -> Forall (fun r => match ic_sub r with Some k => k ∈ c_subs c -> k ∈ l | None => True end) (c_in c) ->
    core_step c (c_set_subs l c)
| core_take i r p : c_in c !! i = Some r -> arrived p -> tp_kind p = TopicMessage.DATA -> route_key p = route_key (ic_packet r) -> tp_sequence (ic_packet r) < tp_sequence p ->
    tp_sample_sequence (ic_packet r) < tp_sample_sequence p ->
    core_step c (c_set_in (<[i := {| ic_sub := ic_sub r; ic_packet := set_sequences (tp_sequence p) (tp_sample_sequence p) (ic_packet r); ic_latest := Some p |}]> (c_in c)) c)
| core_deliver i r p dv : c_in c !! i = Some r -> ic_latest r = Some p -> Forall (fun d => dv_packet d = p /\
      DecodeParameterValue (tc_little config) (dv_descriptor d) (tp_payload p) = Ok (dv_value d)) dv -> (length dv <= 1)%nat ->
    core_step c (c_log [] [] dv (c_set_in (<[i := {| ic_sub := ic_sub r; ic_packet := ic_packet r; ic_latest := None |}]> (c_in c)) c))
| core_interest i r d : c_in c !! i = Some r -> EncodeTopicPacket (as_interest (ic_packet r)) = Ok (dg_bytes d) -> core_step c (c_log [d] [] [] c)
| core_open_out p entry : tc_receive_only config = false -> has_room c -> arrived p -> tp_kind p = TopicMessage.INTEREST ->
    Forall (fun o => route_ends (oc_packet o) <> route_ends p) (c_out c) -> publishes entry p ->
    core_step c (c_set_out (c_out c ++ [{| oc_packet := as_data p; oc_publisher := entry |}]) c)
| core_read i o v : c_out c !! i = Some o -> typed_value v -> core_step c (c_log [] [(md_identity (le_metadata (oc_publisher o)), v)] [] c)
| core_sample i o v o' sent : c_out c !! i = Some o -> typed_value v -> samples o v o' sent ->
    core_step c (c_log sent [(md_identity (le_metadata (oc_publisher o)), v)] [] (c_set_out (<[i := o']> (c_out c)) c)).
Abbreviation core_steps := (rtc core_step).

(** ** Bookkeeping that leaves the routes alone *)
Definition undisturbed (s s' : Plane) : Prop :=
  (forall last, core last s' = core last s) /\ pl_incoming s' = pl_incoming s /\ pl_outgoing s' = pl_outgoing s /\
  ((length (pl_history s) <= 64)%nat -> (length (pl_history s') <= 64)%nat) /\ ((length (pl_notices s) <= 64)%nat -> (length (pl_notices s') <= 64)%nat).
#[global] Instance calm_preorder : PreOrder undisturbed.
Proof. unfold undisturbed. split; [intros s; by split_and!|]. intros a b c (Hab & ? & ? & ? & ?) (Hbc & ? & ? & ? & ?).
  split; [intros; by rewrite Hbc, Hab|]. split_and!; auto; congruence. Qed.

Lemma calm_Archive i s : undisturbed s (Archive i s).
Proof.
  unfold Archive. split_and!; try done. cbn. rewrite length_app. cbn.
  destruct (Nat.eqb_spec (length (pl_history s)) 64) as [H|]; [|lia]. destruct (pl_history s); cbn in *; lia.
Qed.
Lemma calm_Notice e code reason st rec s : undisturbed s (Notice e code reason st rec s).
Proof. unfold Notice. destruct (Nat.leb_spec 64 (length (pl_notices s))); [done|]. split_and!; try done. cbn. rewrite length_app. cbn. lia. Qed.

Lemma calm_core last s s' : undisturbed s s' -> core last s' = core last s.
Proof. intros [H _]. apply H. Qed.
Lemma calm_foldl {A} (f : Plane -> A -> Plane) l s : (forall s x, undisturbed s (f s x)) -> undisturbed s (foldl f s l).
Proof. intros H. revert s. induction l as [|x l IH]; intros s; cbn; [done|]. etrans; [apply H|apply IH]. Qed.
Lemma calm_oversized entries s : undisturbed s (oversized entries s).
Proof. apply calm_foldl. intros s' e. case_check; [apply calm_Notice|done]. Qed.
Lemma calm_scan name peers s : undisturbed s (snd (scan_peers config name peers s)).
Proof.
  unfold scan_peers. generalize (flat_map (fun p => map (fun e => (p, e)) (pi_endpoints p)) peers) as l.
  generalize (@None (PeerInfo * NetworkEndpointMetadata)) as found. generalize O as n. intros n found l. revert n found s.
  induction l as [|[p e] l IH]; intros n found s; cbn [foldl]; [done|].
  unfold scan_endpoint at 2. cbn zeta. repeat case_check; try apply IH.
  all: etrans; [|apply IH]; apply calm_Notice.
Qed.
Lemma calm_choose valid owner source d name entries : forall j best s,
  undisturbed s (snd (choose_consumer config valid owner source d name entries j best s)).
Proof.
  induction entries as [|e l IH]; intros j best s; cbn [choose_consumer]; [done|].
  repeat first [case_check | destruct best]; try apply IH; (etrans; [apply calm_Notice|apply IH]).
Qed.
Lemma calm_proxies l s : undisturbed s (set_proxies l s).
Proof. by split_and!. Qed.
Lemma calm_next_proxy n s : undisturbed s (set_next_proxy n s).
Proof. by split_and!. Qed.
Lemma calm_ProxyFor source d created s : undisturbed s (snd (ProxyFor config source d created s)).
Proof.
  unfold ProxyFor. destruct (list_find _ _) as [[i p]|]; [case_check; [done|apply calm_proxies]|]. case_check; [done|].
  destruct created as [[code rec] st]. cbn zeta. destruct (negb (code =? 0)); [apply calm_next_proxy|].
  etrans; [apply calm_next_proxy|apply calm_proxies].
Qed.

(** ** Refresh *)
Lemma find_route_lookup packet l : forall i j r, find_route packet l i = Some (j, r) -> exists n, j = (i + n)%nat /\ l !! n = Some r.
Proof.
  induction l as [|r0 l IH]; intros i j r H; cbn in H; [done|]. case_check.
  - injection H as <- <-. exists O. split; [lia|done].
  - apply IH in H as (n & -> & Hn). exists (S n). split; [lia|done].
Qed.
Lemma calm_place source owner consumer proxy name keep s last :
  tc_receive_only config = false -> core_steps (core last s) (core last (snd (place_route config source owner consumer proxy name keep s))).
Proof.
  intros Hm. unfold place_route. destruct (find_route _ _ _) as [[k r]|] eqn:Hf.
  - apply find_route_lookup in Hf as (n & -> & Hn). cbn [snd plus].
    replace (core last (set_incoming _ s)) with (core last s); [done|]. unfold core. cbn. f_equal.
    rewrite list_fmap_insert. symmetry. apply list_insert_id. change (fmap in_core) with (map in_core). rewrite list_lookup_fmap, Hn. done.
  - case_check; cbn [snd].
    + change (core last (plane_resource_drop ?x)) with (core last x). unfold Reject. by rewrite (calm_core _ _ _ (calm_Notice _ _ _ _ _ s)).
    + bool_to_prop. apply rtc_once.
      replace (core last (add_route _ s)) with (c_open (set_route_id (pl_next_route s + 1) (route_packet source owner consumer name s)) (core last s)).
      * apply core_open_in; try done. unfold has_room. cbn. rewrite !length_map. done.
      * unfold core, c_open. cbn. f_equal. by rewrite map_app.
Qed.
Lemma sim_refresh_topic rf peers entries i name keep s last :
  tc_receive_only config = false -> core_steps (core last s) (core last (snd (refresh_topic config rf peers entries i name keep s))).
Proof.
  intros Hm. unfold refresh_topic. pose proof (calm_scan name peers s) as Hq.
  destruct (scan_peers config name peers s) as [[found n] s1]. cbn [snd] in Hq. rewrite <- (calm_core last _ _ Hq).
  assert (Hn : forall e a b c d s', undisturbed s1 s' -> core_steps (core last s1) (core last (Notice e a b c d s'))).
  { intros e a b c d s' H. rewrite (calm_core _ _ _ (calm_Notice e a b c d s')), (calm_core _ _ _ H). done. }
  destruct found as [[owner source]|]; [|done]. case_check; [by apply Hn|]. case_check; [by apply Hn|].
  destruct (Descriptor _ _ _ _) as [d|]; [|by apply Hn].
  pose proof (calm_ProxyFor source d (rf_create rf i) s1) as Hp. destruct (ProxyFor _ _ _ _ _) as [[proxy rec] s2]. cbn [snd] in Hp.
  destruct proxy as [proxy|code]; [|by apply Hn].
  pose proof (calm_choose (rf_valid rf i) owner source d name entries 0 None s2) as Hc.
  destruct (choose_consumer _ _ _ _ _ _ _ _ _) as [consumer s3]. cbn [snd] in Hc. assert (Hq3 : undisturbed s1 s3) by by etrans.
  destruct consumer as [consumer|]; [|by apply Hn]. rewrite <- (calm_core last _ _ Hq3). by apply calm_place.
Qed.
Lemma sim_refresh_topics rf peers entries names : forall i keep s last,
  tc_receive_only config = false -> core_steps (core last s) (core last (snd (refresh_topics config rf peers entries i names keep s))).
Proof.
  induction names as [|name l IH]; intros i keep s last Hm; cbn [refresh_topics]; [done|].
  pose proof (sim_refresh_topic rf peers entries i name keep s last Hm) as H.
  destruct (refresh_topic _ _ _ _ _ _ _ _) as [keep1 s1]. etrans; [exact H|by apply IH].
Qed.
Lemma drop_incoming_sub routes : forall keep s,
  sublist (fst (drop_incoming routes keep s)) routes /\ undisturbed s (snd (drop_incoming routes keep s)).
Proof.
  induction routes as [|r l IH]; intros keep s; cbn [drop_incoming]; [done|].
  destruct (IH (tl keep) s) as [H1 H2]. destruct (drop_incoming l (tl keep) s) as [l' s']. cbn [fst snd] in *.
  case_check; cbn [fst snd]; split; auto using sublist_cons, sublist_skip. etrans; [done|apply calm_Archive].
Qed.
Lemma drop_outgoing_sub now peers entries routes : forall i s,
  sublist (map out_core (fst (drop_outgoing config now peers entries routes i s))) (map out_core routes) /\
  undisturbed s (snd (drop_outgoing config now peers entries routes i s)).
Proof.
  induction routes as [|r l IH]; intros i s; cbn [drop_outgoing]; [done|].
  destruct (IH (S i) s) as [H1 H2]. destruct (drop_outgoing _ _ _ _ l _ s) as [l' s']. cbn [fst snd map] in *.
  repeat first [case_check | destruct (find_host _ _) | destruct (find_local _ _)]; cbn [fst snd map]; split; auto using sublist_cons, sublist_skip.
  all: first [etrans; [done|apply calm_Archive] | by apply (sublist_skip (out_core r))].
Qed.
(** Replacing a list of routes and keeping the rest. *)
Lemma core_set_incoming last l s : core last (set_incoming l s) = c_set_in (map in_core l) (core last s).
Proof. done. Qed.
Lemma core_set_outgoing last l s : core last (set_outgoing l s) = c_set_out (map out_core l) (core last s).
Proof. done. Qed.
Lemma sublist_map {A B} (f : A -> B) l k : sublist l k -> sublist (map f l) (map f k).
Proof. induction 1; cbn; auto using sublist_cons, sublist_skip, sublist_nil. Qed.
Lemma sim_drop_incoming keep s last :
  core_steps (core last s) (core last (set_incoming (fst (drop_incoming (pl_incoming s) keep s)) (snd (drop_incoming (pl_incoming s) keep s)))).
Proof.
  destruct (drop_incoming_sub (pl_incoming s) keep s) as [H1 H2]. rewrite core_set_incoming, (calm_core _ _ _ H2).
  apply rtc_once, core_drop_in. by apply sublist_map.
Qed.
Lemma sim_Refresh rf peers entries s last : core_steps (core last s) (core last (Refresh config rf peers entries s)).
Proof.
  unfold Refresh. set (s1 := oversized entries (set_notices [] s)).
  assert (H1 : core last s1 = core last s). { unfold s1. by rewrite (calm_core _ _ _ (calm_oversized _ _)). }
  rewrite <- H1. clear H1. clearbody s1. set (keep := repeat false _). clearbody keep.
  destruct (if tc_receive_only config then _ else _) as [keep2 s2] eqn:E2.
  assert (H2 : core_steps (core last s1) (core last s2)).
  { destruct (tc_receive_only config) eqn:Hm; [by injection E2 as <- <-|].
    pose proof (sim_refresh_topics rf peers entries (tc_remote_topics config) 0 keep s1 last Hm) as H. by rewrite E2 in H. }
  etrans; [exact H2|]. pose proof (sim_drop_incoming keep2 s2 last) as H3.
  destruct (drop_incoming (pl_incoming s2) keep2 s2) as [inc s3]. cbn [fst snd] in H3. etrans; [exact H3|].
  set (s4 := set_incoming inc s3). destruct (drop_outgoing_sub (rf_now rf) peers entries (pl_outgoing s4) 0 s4) as [H5 H6].
  destruct (drop_outgoing _ _ _ _ _ _ _) as [out s5]. cbn [fst snd] in *. rewrite core_set_outgoing, (calm_core _ _ _ H6).
  apply rtc_once, core_drop_out. done.
Qed.
(** ** Receive *)
Lemma supersede_spec packet receiver routes : forall s, let '(go, l, s') := supersede packet receiver routes s in
  sublist l routes /\ undisturbed s s' /\ (go = true -> Forall (fun o => route_ends (og_packet o) <> route_ends packet) l).
Proof.
  induction routes as [|o l IH]; intros s; cbn [supersede]; [done|].
  specialize (IH s). destruct (supersede packet receiver l s) as [[go l'] s']. destruct IH as (H1 & H2 & H3).
  destruct go; cbn [negb]; [|by split_and!; [apply sublist_skip| |]]. specialize (H3 eq_refl).
  destruct (negb (tp_source _ =?? _) || negb _) eqn:Ee.
  - split_and!; [by apply sublist_skip|done|]. intros _. constructor; [|done]. unfold route_ends. intros [= E1 E2].
    apply orb_true_iff in Ee as [Ee|Ee]; bool_to_prop; congruence.
  - do 2 (case_check; [by split_and!; [apply sublist_skip| |]|]). split_and!; [by apply sublist_cons| |done]. etrans; [done|apply calm_Archive].
Qed.
Lemma sim_open_route ix packet entry peer port s last :
  tc_receive_only config = false -> arrived packet -> tp_kind packet = TopicMessage.INTEREST -> publishes entry packet ->
  core_steps (core last s) (core last (open_route config ix packet entry peer port s)).
Proof.
  intros Hm Ha Hk Hid. unfold open_route. pose proof (supersede_spec packet (is_receiver peer) (pl_outgoing s) s) as H.
  destruct (supersede _ _ _ _) as [[go l] s1]. destruct H as (H1 & H2 & H3).
  assert (Hl : core_steps (core last s) (core last (set_outgoing l s1))).
  { rewrite core_set_outgoing, (calm_core _ _ _ H2). apply rtc_once, core_drop_out. by apply sublist_map. }
  set (s2 := set_outgoing l s1) in *. etrans; [exact Hl|]. destruct go; cbn [negb]; [|done]. specialize (H3 eq_refl).
  case_check; [done|]. bool_to_prop.
  assert (Hn : forall code, core last (Reject (le_metadata entry) code s2) = core last s2). { intros. apply calm_core, calm_Notice. }
  case_check; [by rewrite Hn|]. destruct (if existsb _ _ then _ else _) as [code baseline]. case_check; [by rewrite Hn|].
  rewrite core_set_outgoing, map_app. cbn [map]. apply rtc_once, core_open_out; auto.
  - unfold has_room. cbn [core c_in c_out]. by rewrite !length_map.
  - cbn [core c_out s2 set_outgoing pl_outgoing]. by apply Forall_fmap.
Qed.
Lemma find_local_identity entries id e : find_local entries id = Some e -> md_identity (le_metadata e) = id.
Proof. intros H. apply List.find_some in H as [_ H]. by bool_to_prop. Qed.
Lemma sim_Interest ix packet peer entries port s last : arrived packet -> tp_kind packet = TopicMessage.INTEREST ->
  core_steps (core last s) (core last (Interest config ix packet peer entries port s)).
Proof.
  intros Ha Hk. unfold Interest. destruct (tc_receive_only config) eqn:Hm; [done|].
  destruct (find_local entries (tp_source packet)) as [entry|] eqn:Hf; [|done]. apply find_local_identity in Hf.
  case_check; [done|]. bool_to_prop. destruct (list_find _ _) as [[i o]|] eqn:Hi; [|by apply sim_open_route].
  case_check; [done|]. apply list_find_Some in Hi as (Hi & _). rewrite core_set_outgoing.
  replace (c_set_out _ _) with (core last s); [done|]. unfold core, c_set_out. cbn. f_equal.
  change (map out_core) with (fmap (M := list) out_core). rewrite list_fmap_insert. symmetry. apply list_insert_id. by rewrite list_lookup_fmap, Hi.
Qed.
(** A change of the statistics of a route. *)
Lemma core_set_stats last i r r' s : pl_incoming s !! i = Some r -> in_core r' = in_core r ->
  core last (set_incoming (<[i := r']> (pl_incoming s)) s) = core last s.
Proof.
  intros Hi E. rewrite core_set_incoming. unfold core, c_set_in. cbn. f_equal.
  change (map in_core) with (fmap (M := list) in_core). rewrite list_fmap_insert. apply list_insert_id. by rewrite list_lookup_fmap, Hi, E.
Qed.
Lemma sim_Data packet peer s last : arrived packet -> tp_kind packet = TopicMessage.DATA -> core_steps (core last s) (core last (Data config packet peer s)).
Proof.
  intros Ha Hk. unfold Data. destruct (list_find _ _) as [[i r]|] eqn:Hi; [|done]. apply list_find_Some in Hi as (Hi & Hs & _).
  apply SameRoute_key in Hs. assert (Hstat : forall st, core last (set_incoming (<[i := in_set_stats st r]> (pl_incoming s)) s) = core last s).
  { intros. by apply (core_set_stats _ _ r). }
  case_check; [change (core last (plane_malformed ?x)) with (core last x); by rewrite Hstat|].
  case_check; [by rewrite Hstat|]. case_check; [by rewrite Hstat|]. bool_to_prop.
  destruct (DecodeParameterValue _ _ _) as [v|]; [|change (core last (plane_malformed ?x)) with (core last x); by rewrite Hstat].
  rewrite core_set_incoming. change (map in_core) with (fmap (M := list) in_core). rewrite list_fmap_insert. apply rtc_once.
  change (in_core (in_receive packet r)) with {| ic_sub := ic_sub (in_core r); ic_packet := set_sequences (tp_sequence packet) (tp_sample_sequence packet) (ic_packet (in_core r)); ic_latest := Some packet |}.
  apply (core_take (core last s)); cbn; auto; try lia. change (map in_core) with (fmap (M := list) in_core). by rewrite list_lookup_fmap, Hi.
Qed.
Definition arrivals (l : list (PlaneRecv * InterestEnv)) : Prop :=
  Forall (fun '(a, _) => match a with RecvData _ bs _ _ => datagram bs | RecvError _ => True end) l.
Lemma decoded_kind bs p : DecodeTopicPacket (Some bs) = Ok p -> tp_kind p = TopicMessage.INTEREST \/ tp_kind p = TopicMessage.DATA.
Proof.
  unfold DecodeTopicPacket. intros H. case_check; [done|]. destruct (dTopicHeader _ _) as [[[[q names] payload] r]|]; [|done].
  case_check; [done|]. destruct (ValidTopicPacket _) eqn:Hv; [|done]. injection H as <-. unfold ValidTopicPacket in Hv.
  apply andb_true_iff in Hv as [_ Hv]. apply orb_true_iff in Hv as [Hv|Hv]; bool_to_prop; auto.
Qed.
Lemma sim_Receive budget : forall replies peers entries s last, arrivals replies ->
  core_steps (core last s) (core last (ReceiveAll config budget replies peers entries s)).
Proof.
  induction budget as [|n IH]; intros [|[[e|count bs ip port] ix] rest] peers entries s last Ha; cbn [ReceiveAll]; try done.
  - by repeat case_check.
  - apply List.Forall_cons_iff in Ha as [Ha Hr]. etrans; [|by apply IH]. unfold receive_one. case_check; [done|].
    destruct (DecodeTopicPacket _) as [p|] eqn:Hd; [|done]. assert (Hp : arrived p) by (by exists bs). destruct (find_host _ _); [|done]. case_check; [done|].
    destruct (tp_kind p =? TopicMessage.INTEREST) eqn:Hk; bool_to_prop; [by apply sim_Interest|].
    apply sim_Data; [done|]. by destruct (decoded_kind bs p Hd).
Qed.

(** ** Deliver *)
Lemma core_subscription_result last r p code st s : core last (subscription_result r p code st s) = core last s.
Proof.
  unfold subscription_result. destruct (in_subscription r) as [k|]; [|done]. destruct (pl_states s !! k); [|done]. unfold core. cbn. by rewrite length_insert.
Qed.
Lemma sim_deliver_route dl i r s pre post last :
  core_steps (core last (set_incoming (pre ++ r :: post) s))
    (core last (set_incoming (pre ++ fst (deliver_route config dl i r s) :: post) (snd (deliver_route config dl i r s)))).
Proof.
  unfold deliver_route. destruct (in_latest r) as [p|] eqn:Hl; [|done]. cbn zeta.
  destruct (match (if _ : bool then Err _ else _) with Ok _ => _ | Err _ => _ end) as [code s1] eqn:E. cbn [fst snd].
  rewrite (core_set_incoming _ (_ ++ in_deliver _ _ :: _)), core_subscription_result. apply rtc_once.
  assert (Hs : exists dv, core last s1 = c_log [] [] dv (core last s) /\ (length dv <= 1)%nat /\ Forall (fun d => dv_packet d = p /\
    DecodeParameterValue (tc_little config) (dv_descriptor d) (tp_payload p) = Ok (dv_value d)) dv).
  { assert (Hnil : core last s = c_log [] [] [] (core last s)). { unfold c_log, core. cbn. by rewrite !app_nil_r. }
    destruct (if _ : bool then Err _ else _) as [v|c] eqn:Ev; [|injection E as <- <-; exists []; split_and!; [done|cbn; lia|constructor]].
    destruct (negb _); [done|]. case_check; injection E as <- <-; [|exists []; split_and!; [done|cbn; lia|constructor]].
    exists [{| dv_packet := p; dv_descriptor := le_descriptor (in_consumer r); dv_value := v |}].
    split_and!; [unfold core, log_delivery, c_log; cbn; by rewrite !app_nil_r|cbn; lia|by repeat constructor]. }
  destruct Hs as (dv & -> & Hlen & Hdv).
  replace (c_set_in _ (c_log _ _ _ _)) with (c_log [] [] dv (c_set_in (<[length pre := {| ic_sub := in_subscription r; ic_packet := in_packet r; ic_latest := None |}]>
    (c_in (core last (set_incoming (pre ++ r :: post) s)))) (core last (set_incoming (pre ++ r :: post) s)))).
  - apply (core_deliver _ _ (in_core r) p); auto. cbn. rewrite map_app, lookup_app_r by (by rewrite length_map). by rewrite length_map, Nat.sub_diag.
  - unfold c_log, c_set_in. cbn. f_equal. rewrite !map_app. rewrite insert_app_r_alt by (by rewrite length_map). by rewrite length_map, Nat.sub_diag.
Qed.
Lemma sim_deliver_routes dl routes : forall i s pre last,
  core_steps (core last (set_incoming (pre ++ routes) s))
    (core last (set_incoming (pre ++ fst (deliver_routes config dl i routes s)) (snd (deliver_routes config dl i routes s)))).
Proof.
  induction routes as [|r l IH]; intros i s pre last; cbn [deliver_routes]; [done|].
  pose proof (sim_deliver_route dl i r s pre l last) as H. destruct (deliver_route config dl i r s) as [r1 s1]. cbn [fst snd] in H.
  etrans; [exact H|]. specialize (IH (S i) s1 (pre ++ [r1]) last). destruct (deliver_routes config dl (S i) l s1) as [l2 s2].
  cbn [fst snd] in *. rewrite <- !app_assoc in IH. exact IH.
Qed.
Lemma sim_Deliver dl s last : core_steps (core last s) (core last (Deliver config dl s)).
Proof.
  unfold Deliver. pose proof (sim_deliver_routes dl (pl_incoming s) 0 s [] last) as H. destruct (deliver_routes _ _ _ _ _) as [l s1]. exact H.
Qed.
(** ** Transmit *)
Lemma send_packet_cases packet ip port answer s last : let '(code, s') := SendPacket config packet ip port answer s in
  exists sent, core last s' = c_log sent [] [] (core last s) /\ (sent = [] \/ exists d, sent = [d] /\ EncodeTopicPacket packet = Ok (dg_bytes d)) /\
  pl_outgoing s' = pl_outgoing s /\ pl_incoming s' = pl_incoming s.
Proof.
  unfold SendPacket. assert (Hnil : core last s = c_log [] [] [] (core last s)). { unfold c_log, core. cbn. by rewrite !app_nil_r. }
  destruct (EncodeTopicPacket packet) as [bs|]; [|exists []; split_and!; auto].
  destruct (inet_pton ip); [|exists []; split_and!; auto]. eexists [_]. split_and!; try done; [unfold core, c_log; cbn; by rewrite !app_nil_r|].
  right. eexists. by split.
Qed.
Lemma c_log_nil c : c_log [] [] [] c = c.
Proof. destruct c. unfold c_log. cbn. by rewrite !app_nil_r. Qed.
Lemma c_log_set_in sent read l c : c_set_in l (c_log sent read [] c) = c_log sent read [] (c_set_in l c).
Proof. done. Qed.
Lemma sim_send_interest tx peers i r s pre post last :
  core_steps (core last (set_incoming (pre ++ r :: post) s))
    (core last (set_incoming (pre ++ fst (send_interest config tx peers i r s) :: post) (snd (send_interest config tx peers i r s)))).
Proof.
  unfold send_interest. case_check; [done|]. cbn zeta.
  destruct (match find_host _ _ with Some _ => _ | None => _ end) as [r1 s1] eqn:E. cbn [fst snd].
  assert (H : in_core r1 = in_core r /\ exists sent, core last s1 = c_log sent [] [] (core last s) /\
    (sent = [] \/ exists d, sent = [d] /\ EncodeTopicPacket (as_interest (in_packet r)) = Ok (dg_bytes d))).
  { assert (Hnone : exists sent, core last s = c_log sent [] [] (core last s) /\
      (sent = [] \/ exists d, sent = [d] /\ EncodeTopicPacket (as_interest (in_packet r)) = Ok (dg_bytes d))).
    { exists []. rewrite c_log_nil. auto. }
    destruct (find_host _ _) as [peer|]; [|by injection E as <- <-]. destruct (Gate _ _ _ _); [|by injection E as <- <-].
    pose proof (send_packet_cases (as_interest (in_packet r)) (pi_address peer) 0 (tx_interest tx i) s last) as H.
    destruct (SendPacket _ _ _ _ _ _) as [code s2]. destruct H as (sent & H1 & H2 & _). injection E as <- <-.
    split; [by case_check|eauto]. }
  destruct H as (Hr & sent & Hs & Hsent). rewrite (core_set_incoming _ (_ ++ in_set_interest _ _ :: _)), Hs, c_log_set_in.
  replace (c_set_in _ (core last s)) with (core last (set_incoming (pre ++ r :: post) s)).
  - destruct Hsent as [->|(d & -> & He)]; [by rewrite c_log_nil|]. apply rtc_once, (core_interest _ (length pre) (in_core r)); [|done].
    cbn. rewrite map_app, lookup_app_r by (by rewrite length_map). by rewrite length_map, Nat.sub_diag.
  - rewrite core_set_incoming. f_equal. rewrite !map_app. cbn [map]. change (in_core (in_set_interest ?t r1)) with (in_core r1). by rewrite Hr.
Qed.
Lemma sim_send_interests tx peers routes : forall i s pre last,
  core_steps (core last (set_incoming (pre ++ routes) s))
    (core last (set_incoming (pre ++ fst (send_interests config tx peers i routes s)) (snd (send_interests config tx peers i routes s)))).
Proof.
  induction routes as [|r l IH]; intros i s pre last; cbn [send_interests]; [done|].
  pose proof (sim_send_interest tx peers i r s pre l last) as H. destruct (send_interest config tx peers i r s) as [r1 s1]. cbn [fst snd] in H.
  etrans; [exact H|]. specialize (IH (S i) s1 (pre ++ [r1]) last). destruct (send_interests config tx peers (S i) l s1) as [l2 s2].
  cbn [fst snd] in *. rewrite <- !app_assoc in IH. exact IH.
Qed.
(** What one visit of an outgoing route does to the route and the logs. *)
Definition sampled (tx : TransmitEnv) (i : nat) (o o' : Outgoing) (c c' : PlaneCore) : Prop :=
  (out_core o' = out_core o /\ (c' = c \/ exists v, tx_read tx i = Ok v /\ c' = c_log [] [(md_identity (le_metadata (og_publisher o)), v)] [] c)) \/
  (exists v sent, tx_read tx i = Ok v /\ samples (out_core o) v (out_core o') sent /\ c' = c_log sent [(md_identity (le_metadata (og_publisher o)), v)] [] c).
Lemma send_sample_cases tx i o s last :
  sampled tx i o (fst (send_sample config tx i o s)) (core last s) (core last (snd (send_sample config tx i o s))).
Proof.
  unfold send_sample. cbn zeta.
  assert (Hfail : forall code, sampled tx i o (fst (if code =? - EAGAIN then o else og_set_stats (set_info_error code (og_stats o)) o, s))
    (core last s) (core last (snd (if code =? - EAGAIN then o else og_set_stats (set_info_error code (og_stats o)) o, s)))).
  { intros code. left. cbn [fst snd]. split; [by case_check|by left]. }
  case_check; [apply Hfail|]. destruct (tx_read tx i) as [v|code] eqn:Hr; [|apply Hfail]. clear Hfail.
  set (s1 := log_read _ v s). assert (Hs1 : core last s1 = c_log [] [(md_identity (le_metadata (og_publisher o)), v)] [] (core last s)).
  { unfold s1, core, c_log. cbn. by rewrite !app_nil_r. }
  assert (Hlog : forall o', out_core o' = out_core o -> sampled tx i o o' (core last s) (core last s1)).
  { intros o' E. left. split; [done|right]. eauto. }
  case_check; [by apply Hlog|]. case_check; [by apply Hlog|]. case_check; [by apply Hlog|]. clear Hlog. bool_to_prop. right.
  destruct (EncodeParameterValue _ _ _) as [payload|code] eqn:Hp.
  - pose proof (send_packet_cases (og_packet (og_set_payload payload (og_sample (dp_sequence v) o))) (og_address (og_set_payload payload (og_sample (dp_sequence v) o)))
      (og_port (og_set_payload payload (og_sample (dp_sequence v) o))) (tx_send tx i) s1 last) as Hw.
    destruct (SendPacket _ _ _ _ _ s1) as [code s2]. destruct Hw as (sent & H1 & H2 & _). cbn [fst snd]. exists v, sent. split_and!; [done| |].
    + split_and!; cbn; [lia|done|done|]. right. exists payload. auto.
    + rewrite H1, Hs1. unfold c_log. cbn. by rewrite !app_nil_r.
  - cbn [fst snd]. exists v, []. split_and!; [done| |done]. split_and!; cbn; [lia|done|done|]. by left.
Qed.
Definition typed_reads (tx : TransmitEnv) : Prop := forall i v, tx_read tx i = Ok v -> typed_value v.
Lemma sim_send_data tx i o s pre post last : typed_reads tx ->
  core_steps (core last (set_outgoing (pre ++ o :: post) s))
    (core last (set_outgoing (pre ++ fst (send_data config tx i o s) :: post) (snd (send_data config tx i o s)))).
Proof.
  intros Ht. unfold send_data. case_check; [done|]. cbn zeta. pose proof (send_sample_cases tx i o s last) as H.
  destruct (send_sample config tx i o s) as [o1 s1]. cbn [fst snd] in *.
  rewrite (core_set_outgoing _ (_ ++ og_set_next _ _ :: _)), map_app. cbn [map]. change (out_core (og_set_next ?t o1)) with (out_core o1).
  set (c0 := core last (set_outgoing (pre ++ o :: post) s)).
  assert (Hi : c_out c0 !! length pre = Some (out_core o)).
  { unfold c0. cbn. rewrite map_app, lookup_app_r by (by rewrite length_map). by rewrite length_map, Nat.sub_diag. }
  assert (Hmap : map out_core pre ++ out_core o1 :: map out_core post = <[length pre := out_core o1]> (c_out c0)).
  { unfold c0. cbn. rewrite map_app, insert_app_r_alt by (by rewrite length_map). by rewrite length_map, Nat.sub_diag. }
  destruct H as [(E & [->|(v & Hv & ->)])|(v & sent & Hv & Hs & ->)].
  - replace (c_set_out _ _) with c0; [done|]. unfold c0. rewrite core_set_outgoing, map_app. by rewrite E.
  - apply rtc_once. replace (c_set_out _ _) with (c_log [] [(md_identity (le_metadata (og_publisher o)), v)] [] c0).
    + eapply (core_read _ _ (out_core o)); eauto.
    + unfold c0. rewrite core_set_outgoing, map_app. by rewrite E.
  - apply rtc_once. rewrite Hmap. eapply (core_sample c0 _ (out_core o)); eauto.
Qed.
Lemma sim_send_routes tx routes : typed_reads tx -> forall i s pre last,
  core_steps (core last (set_outgoing (pre ++ routes) s))
    (core last (set_outgoing (pre ++ fst (send_routes config tx i routes s)) (snd (send_routes config tx i routes s)))).
Proof.
  intros Ht. induction routes as [|o l IH]; intros i s pre last; cbn [send_routes]; [done|].
  pose proof (sim_send_data tx i o s pre l last Ht) as H. destruct (send_data config tx i o s) as [o1 s1]. cbn [fst snd] in H.
  etrans; [exact H|]. specialize (IH (S i) s1 (pre ++ [o1]) last). destruct (send_routes config tx (S i) l s1) as [l2 s2].
  cbn [fst snd] in *. rewrite <- !app_assoc in IH. exact IH.
Qed.
Lemma sim_Transmit tx peers s last : typed_reads tx -> core_steps (core last s) (core last (Transmit config tx peers s)).
Proof.
  intros Ht. unfold Transmit. pose proof (sim_send_interests tx peers (pl_incoming s) 0 s [] last) as H.
  destruct (send_interests _ _ _ _ _ _) as [l s1]. etrans; [exact H|]. cbn [fst snd app] in *. set (s2 := set_incoming l s1).
  pose proof (sim_send_routes tx (pl_outgoing s2) Ht 0 s2 [] last) as H2. destruct (send_routes _ _ _ _ _) as [l3 s3]. exact H2.
Qed.
(** ** Subscriptions and the worker *)
Lemma calm_states k b s : undisturbed s (set_states (<[k := b]> (pl_states s)) s).
Proof. split_and!; try done. intros. unfold core. cbn. by rewrite length_insert. Qed.
Lemma close_routes_sub k routes : forall s, sublist (fst (close_routes k routes s)) routes /\ undisturbed s (snd (close_routes k routes s)) /\
  Forall (fun r => in_subscription r <> Some k) (fst (close_routes k routes s)).
Proof.
  induction routes as [|r l IH]; intros s; cbn [close_routes]; [done|].
  destruct (IH s) as (H1 & H2 & H3). destruct (close_routes k l s) as [l' s']. cbn [fst snd] in *.
  destruct (in_subscription r =?? Some k) eqn:E; cbn [fst snd]; bool_to_prop.
  - split_and!; [by apply sublist_cons| |done]. etrans; [done|]. destruct (pl_states s' !! k); [|apply calm_Archive].
    etrans; [apply calm_states|apply calm_Archive].
  - split_and!; auto using sublist_skip.
Qed.
Lemma CloseSubscription_effect k status code cleanup removed s : let s' := CloseSubscription k status code cleanup removed s in
  exists l s1, undisturbed s s1 /\ undisturbed (set_incoming l s1) s' /\ sublist l (pl_incoming s) /\ Forall (fun r => in_subscription r <> Some k) l.
Proof.
  unfold CloseSubscription. pose proof (close_routes_sub k (pl_incoming s) s) as (H1 & H2 & H3).
  destruct (close_routes k (pl_incoming s) s) as [l s1]. cbn [fst snd] in *. exists l, s1. split_and!; try done.
  destruct (pl_states (set_incoming l s1) !! k); [apply calm_states|done].
Qed.
Lemma sim_Close k status code cleanup removed s last : core_steps (core last s) (core last (CloseSubscription k status code cleanup removed s)).
Proof.
  destruct (CloseSubscription_effect k status code cleanup removed s) as (l & s1 & H1 & H2 & H3 & _).
  rewrite (calm_core _ _ _ H2), core_set_incoming, (calm_core _ _ _ H1). apply rtc_once, core_drop_in. by apply sublist_map.
Qed.
Lemma sim_check replies peers ks : forall i s last, core_steps (core last s) (core last (check_subscriptions config replies peers i ks s)).
Proof.
  induction ks as [|k l IH]; intros i s last; cbn [check_subscriptions]; [done|]. destruct (replies i) as [[session cleanup] removed].
  etrans; [|apply IH]. destruct (pl_states s !! k) as [b|]; [|done]. case_check; [done|].
  destruct (subscription_ends _ _ _ _) as [[status code]|]; [apply sim_Close|done].
Qed.
Lemma calm_Export s : undisturbed s (Export s).
Proof.
  unfold Export. apply calm_foldl. intros s' r. unfold export_route. destruct (in_subscription r) as [k|]; [|done].
  destruct (pl_states s' !! k); [apply calm_states|done].
Qed.
Lemma sim_close_all replies status code ks : forall i s last, core_steps (core last s) (core last (close_all replies status code i ks s)).
Proof. induction ks as [|k l IH]; intros i s last; cbn [close_all]; [done|]. etrans; [apply sim_Close|apply IH]. Qed.
Lemma sublist_nil_in {A} (l : list A) : sublist [] l.
Proof. apply sublist_nil_l. Qed.

Lemma sim_Subscribe se running peers source expected d s last : last < se_id se ->
  core_steps (core last s) (core (se_id se) (snd (Subscribe config se running peers source expected d s))).
Proof.
  intros Hid. assert (Htick : core_steps (core last s) (core (se_id se) s)).
  { apply rtc_once. change (core (se_id se) s) with (c_set_last (se_id se) (core last s)). apply core_tick. cbn. lia. }
  unfold Subscribe. case_check; [done|]. bool_to_prop. case_check; [done|]. bool_to_prop. destruct (ParameterWireType d) as [type|]; [|done].
  case_check; [done|]. destruct (find_host _ _) as [peer|]; [|done]. do 5 (case_check; [done|]). cbn zeta. do 3 (case_check; [done|]).
  cbn [snd]. apply rtc_once. match goal with |- core_step _ (core _ (set_incoming (_ ++ [?r]) _)) => set (route := r) end.
  replace (core (se_id se) _) with (c_subscribe (in_packet route) (core last s)).
  - apply core_subscribe; try done.
  - unfold c_subscribe, core. cbn. rewrite map_app, length_app. cbn. f_equal. lia.
Qed.
Lemma sim_release l s last : sublist l (pl_subscriptions s) ->
  Forall (fun r => match in_subscription r with Some k => k ∈ pl_subscriptions s -> k ∈ l | None => True end) (pl_incoming s) ->
  core_steps (core last s) (core last (set_subscriptions l s)).
Proof.
  intros Hl Hr. apply rtc_once. change (core last (set_subscriptions l s)) with (c_set_subs l (core last s)). apply core_release; [done|].
  cbn. by apply Forall_fmap.
Qed.
Lemma elem_of_delete_ne {A} `{EqDecision A} (l : list A) i x y : l !! i = Some x -> y <> x -> y ∈ l -> y ∈ delete i l.
Proof.
  intros Hi Hne Hy. apply list_elem_of_lookup in Hy as [j Hj]. rewrite delete_take_drop. apply elem_of_app.
  destruct (decide (j < i)%nat); [left|right]; apply list_elem_of_lookup.
  - exists j. by rewrite lookup_take_lt.
  - exists (j - S i)%nat. rewrite lookup_drop. replace (S i + (j - S i))%nat with j; [done|]. assert (j <> i) by congruence. lia.
Qed.
Lemma sim_Unsubscribe k cleanup removed s last : core_steps (core last s) (core last (snd (Unsubscribe k cleanup removed s))).
Proof.
  unfold Unsubscribe. destruct (list_find _ _) as [[i k']|] eqn:Hi; [|done]. apply list_find_Some in Hi as (Hi & -> & _). cbn [snd].
  rewrite (calm_core _ _ _ (calm_Export _)). etrans; [apply (sim_Close k TOPIC_CLOSED 0 cleanup removed)|].
  destruct (CloseSubscription_effect k TOPIC_CLOSED 0 cleanup removed s) as (l & s1 & H1 & H2 & H3 & H4).
  set (s2 := CloseSubscription _ _ _ _ _ s) in *.
  assert (Hsub : pl_subscriptions s2 = pl_subscriptions s).
  { change (c_subs (core last s2) = c_subs (core last s)). rewrite (calm_core _ _ _ H2), core_set_incoming, (calm_core _ _ _ H1). done. }
  destruct H2 as (_ & Hin & _). cbn in Hin. apply sim_release.
  - rewrite delete_take_drop. rewrite <- (take_drop_middle (pl_subscriptions s2) i k) at 3 by (by rewrite Hsub).
    apply sublist_app; [done|by apply sublist_cons].
  - rewrite Hin. eapply Forall_impl; [exact H4|]. intros r Hr. destruct (in_subscription r) as [k'|] eqn:E; [|done]. intros Hk.
    apply (elem_of_delete_ne _ i k); [by rewrite Hsub|congruence|done].
Qed.
Lemma sim_end replies s last : core_steps (core last s) (core last (end_worker replies s)).
Proof.
  unfold end_worker. set (s1 := close_all _ _ _ _ _ s). assert (H1 : core_steps (core last s) (core last s1)) by apply sim_close_all.
  etrans; [exact H1|]. clearbody s1. etrans; [apply rtc_once, (core_drop_in _ [] (sublist_nil_in _))|].
  etrans; [apply rtc_once, (core_drop_out _ [] (sublist_nil_in _))|].
  etrans; [apply rtc_once, (core_release _ [] (sublist_nil_in _)); constructor|].
  assert (Hq : forall l1 l2 s0, undisturbed s0 (foldl (fun s o => Archive (og_stats o) s) (foldl (fun s r => Archive (in_stats r) s) s0 l1) l2)).
  { intros. etrans; [|apply calm_foldl; intros; apply calm_Archive]. apply calm_foldl. intros. apply calm_Archive. }
  rewrite core_set_outgoing, core_set_incoming, (calm_core _ _ _ (Hq _ _ _)). done.
Qed.

(** ** The worker implements the abstract routes *)
Definition typed_turn (t : Turn) : Prop := arrivals (tu_receive t) /\ typed_reads (tu_transmit t).
(** The ids drawn grow; what arrives is a [datagram], what is read is [typed_value]. *)
Fixpoint typed_events (last : Z) (es : list PlaneEvent) : Prop :=
  match es with
  | [] => True
  | PeTurn t :: rest => typed_turn t /\ typed_events last rest
  | PeSubscribe se _ _ _ _ _ :: rest => last < se_id se /\ typed_events (se_id se) rest
  | _ :: rest => typed_events last rest
  end.
Lemma sim_turn t s last : typed_turn t -> core_steps (core last s) (core last (run_turn config t s)).
Proof.
  intros [Ha Hr]. unfold run_turn. etrans; [|by apply sim_Transmit]. etrans; [|apply sim_Deliver]. etrans; [|by apply sim_Receive].
  unfold refresh_turn. destruct (tu_refresh t) as [r|]; [|done]. rewrite (calm_core _ _ _ (calm_Export _)). etrans; [|apply sim_Refresh]. apply sim_check.
Qed.
Lemma plane_refines_routes es : forall last s, typed_events last es ->
  exists last', last <= last' /\ core_steps (core last s) (core last' (plane_run config es s)).
Proof.
  induction es as [|e es IH]; intros last s He; [by exists last|]. change (plane_run config (e :: es) s) with (plane_run config es (plane_step config e s)).
  destruct e as [t|se running peers source expected d|k cleanup removed|replies]; cbn [typed_events] in He; try destruct He as [He0 He].
  - destruct (IH last (plane_step config (PeTurn t) s) He) as (n & Hn & H). exists n. split; [done|]. etrans; [by apply sim_turn|exact H].
  - destruct (IH _ (plane_step config (PeSubscribe se running peers source expected d) s) He) as (n & Hn & H). exists n. split; [lia|]. etrans; [by apply sim_Subscribe|exact H].
  - destruct (IH last (plane_step config (PeUnsubscribe k cleanup removed) s) He) as (n & Hn & H). exists n. split; [done|]. etrans; [by apply sim_Unsubscribe|exact H].
  - destruct (IH last (plane_step config (PeEnd replies) s) He) as (n & Hn & H). exists n. split; [done|]. etrans; [by apply sim_end|exact H].
Qed.
End Routes.
