(* ===== verification/TopicPlaneSafety.v ===== *)
(** * Safety of the Topic data plane

    Invariants of the abstract routes of [TopicPlaneRoutes], by induction on its steps:
    [capacity] (sizes and modes), [receiving] (what a route has taken and delivered) and
    [sends] (what is on the wire).  With [plane_refines_routes] they hold of every run of the
    worker; the claims compose the planes of two hosts over a network that loses, repeats
    and reorders datagrams.  [tidy] bounds the diagnostics, [paced] is the pacing of a
    route. *)
From S2P Require Import Prelude Wire NetTypes NetWire Compatibility TopicProtocol DiscoveryProtocol TypeDescriptor ParameterCodec NetworkDiagnostics ControlStream PeerDiscovery TopicPlane TopicPlaneRoutes.

(** ** Codec facts *)
(** An INTEREST packet is read back as one, whatever its fields hold. *)
Definition yields {A} (d : dec A) (Q : A -> Prop) : Prop := forall r a r', d r = Ok (a, r') -> Q a.
Lemma yields_bind {A B} (d : dec A) (k : A -> dec B) Q : (forall a, yields (k a) Q) -> yields (dbind d k) Q.
Proof. intros H r b r'. unfold dbind. destruct (d r) as [[a r1]|]; [|done]. apply H. Qed.
Lemma read_U {B} n v (k : Z -> dec B) rest : (n <= 8)%nat -> 0 <= v < 256 ^ Z.of_nat n ->
  dbind (dU n) k (Reader (wU v n ++ rest) true) = k v (Reader rest true).
Proof. intros Hn Hv. unfold dbind. by rewrite reads_U. Qed.
Lemma header_kind size q : tp_kind q = TopicMessage.INTEREST -> forall p a b r,
  dTopicHeader size (Reader (topic_wire q) true) = Ok (p, a, b, r) -> tp_kind p = TopicMessage.INTEREST.
Proof.
  intros Hk p a b r H. unfold dTopicHeader, topic_wire in H. rewrite Hk in H.
  rewrite read_U in H by (first [lia | split; [vm_compute; discriminate|reflexivity]]). unfold dbind at 1, dguard at 1 in H. rewrite Z.eqb_refl in H.
  rewrite read_U in H by (first [lia | split; [vm_compute; discriminate|reflexivity]]). unfold dbind at 1, dguard at 1 in H. rewrite Z.eqb_refl in H.
  rewrite read_U in H by (first [lia | split; [vm_compute; discriminate|reflexivity]]).
  match type of H with ?d _ = _ => assert (Hy : yields d (fun x => tp_kind (fst (fst x)) = TopicMessage.INTEREST)) end.
  { repeat (apply yields_bind; intros ?). intros r0 x r1 E. unfold dret in E. by injection E as <- _. }
  apply (Hy _ _ _ H).
Qed.
Lemma interest_kind q bs p : tp_kind q = TopicMessage.INTEREST -> EncodeTopicPacket q = Ok bs -> DecodeTopicPacket (Some bs) = Ok p ->
  tp_kind p = TopicMessage.INTEREST.
Proof.
  intros Hk [_ ->]%EncodeTopicPacket_Ok H. unfold DecodeTopicPacket in H. case_check; [done|].
  destruct (dTopicHeader _ _) as [[[[h names] payload] r]|] eqn:Hd; [|done]. repeat case_check; try done. injection H as <-. cbn [with_text tp_kind].
  by apply header_kind in Hd.
Qed.

(** ** Lists *)
Lemma map_insert_same {A B} (f : A -> B) l i x y : l !! i = Some x -> f y = f x -> map f (<[i := y]> l) = map f l.
Proof.
  intros Hi E. change (map f) with (fmap (M := list) f). rewrite list_fmap_insert, E. apply list_insert_id. by rewrite list_lookup_fmap, Hi.
Qed.
Lemma sublist_elem {A} (l k : list A) x : sublist l k -> x ∈ l -> x ∈ k.
Proof. intros H Hx. eapply elem_of_submseteq; [exact Hx|]. by apply sublist_submseteq. Qed.
Lemma sublist_NoDup {A} (l k : list A) : sublist l k -> NoDup k -> NoDup l.
Proof.
  induction 1 as [|x l k Hs IH|x l k Hs IH]; intros Hn; [done| |]; apply NoDup_cons in Hn as [Hx Hn]; [|auto].
  apply NoDup_cons. split; [|auto]. intros Hin. apply Hx. by eapply sublist_elem.
Qed.
Lemma elem_of_insert_cases {A} (l : list A) i x y : x ∈ <[i := y]> l -> x = y \/ x ∈ l.
Proof.
  intros H. apply list_elem_of_lookup in H as [j Hj]. destruct (decide (i = j)) as [<-|Hne].
  - apply list_lookup_insert_Some in Hj as [(_ & -> & _)|(Hf & _)]; [auto|done].
  - rewrite list_lookup_insert_ne in Hj by done. right. by eapply list_elem_of_lookup_2.
Qed.

Section Safety.
Context (config : PlaneConfig) (datagram : list Z -> Prop).
Abbreviation arrived := (TopicPlaneRoutes.arrived datagram).
#[local] Set Default Proof Using "Type".
Abbreviation step := (core_step config datagram).

(** ** Capacity and modes *)
(** A receive-only plane has one route per subscription at most and sends nothing; another
    plane has no subscriptions. *)
Definition capacity (c : PlaneCore) : Prop :=
  if tc_receive_only config then
    c_out c = [] /\ Z.of_nat (length (c_subs c)) <= tc_max_routes config /\ Forall (fun k => (k < c_states c)%nat) (c_subs c) /\
    NoDup (map ic_sub (c_in c)) /\ Forall (fun r => exists k, ic_sub r = Some k /\ k ∈ c_subs c) (c_in c)
  else c_subs c = [] /\ Forall (fun r => ic_sub r = None) (c_in c) /\ Z.of_nat (length (c_in c) + length (c_out c)) <= tc_max_routes config.
Lemma capacity_receiver c c' : tc_receive_only config = true -> capacity c -> step c c' -> capacity c'.
Proof.
  unfold capacity. intros Hmode. rewrite Hmode. intros (Ho & Hl & Hk & Hn & Hs) Hstep.
  destruct Hstep as [l Hsub|l Hsub|p Hm|p Hm Hroom Hkind Hid|n Hlast|l Hsub Hr|i r p Hi|i r p dv Hi|i r d Hi|p entry Hm|i o v Hi|i o v o' sent Hi]; cbn; try congruence.
  - split_and!; try done; [by eapply sublist_NoDup, Hn; apply sublist_map|]. apply Forall_forall. intros r Hr. rewrite Forall_forall in Hs. by eapply Hs, sublist_elem.
  - rewrite Ho in Hsub. apply sublist_nil_r in Hsub as ->. done.
  - split_and!; [done|rewrite length_app; cbn; lia|..].
    + apply Forall_app. split; [eapply Forall_impl; [exact Hk|cbn; lia]|constructor; [lia|constructor]].
    + rewrite map_app. apply NoDup_snoc; [done|]. intros Hin. apply list_elem_of_fmap in Hin as (r & E & Hr). rewrite Forall_forall in Hs. rewrite Forall_forall in Hk.
      destruct (Hs r Hr) as (k & Ek & Hin). specialize (Hk k Hin). cbn in E. assert (k = c_states c) by congruence. lia.
    + apply Forall_app. split; [|constructor; [|constructor]; exists (c_states c); split; [done|apply elem_of_app; right; by apply list_elem_of_singleton]].
      eapply Forall_impl; [exact Hs|]. intros r (k & E & Hin). exists k. split; [done|]. apply elem_of_app. by left.
  - done.
  - split_and!; [done|apply sublist_length in Hsub; lia|..]; [apply Forall_forall; intros k Hin; rewrite Forall_forall in Hk; by eapply Hk, sublist_elem|done|].
    rewrite Forall_forall in Hs. rewrite Forall_forall in Hr. apply Forall_forall. intros r Hin. destruct (Hs r Hin) as (k & E & Hin2). specialize (Hr r Hin). rewrite E in Hr. eauto.
  - split_and!; [done..| |]; [by rewrite (map_insert_same ic_sub _ _ r)|]. apply Forall_insert; [done|]. rewrite Forall_lookup in Hs. by apply (Hs i r).
  - split_and!; [done..| |]; [by rewrite (map_insert_same ic_sub _ _ r)|]. apply Forall_insert; [done|]. rewrite Forall_lookup in Hs. by apply (Hs i r).
  - done.
  - by rewrite Ho in Hi.
  - by rewrite Ho in Hi.
Qed.
Lemma capacity_sender c c' : tc_receive_only config = false -> capacity c -> step c c' -> capacity c'.
Proof.
  unfold capacity. intros Hmode. rewrite Hmode. intros (Ho & Hs & Hl) Hstep.
  destruct Hstep as [l Hsub|l Hsub|p Hm Hroom|p Hm Hroom Hkind Hid|n Hlast|l Hsub Hr|i r p Hi|i r p dv Hi|i r d Hi|p entry Hm Hroom|i o v Hi|i o v o' sent Hi];
    cbn; try congruence; try done; unfold has_room in *.
  - apply sublist_length in Hsub as Hsl. split_and!; [done| |lia]. apply Forall_forall. intros r Hr. rewrite Forall_forall in Hs. by eapply Hs, sublist_elem.
  - apply sublist_length in Hsub. split_and!; [done..|lia].
  - split_and!; [done| |rewrite length_app; cbn; lia]. apply Forall_app. split; [done|by constructor].
  - rewrite Ho in Hsub. by apply sublist_nil_r in Hsub as ->.
  - split_and!; [done| |by rewrite length_insert]. apply Forall_insert; [done|]. rewrite Forall_lookup in Hs. by apply (Hs i r).
  - split_and!; [done| |by rewrite length_insert]. apply Forall_insert; [done|]. rewrite Forall_lookup in Hs. by apply (Hs i r).
  - split_and!; [done..|rewrite length_app; cbn; lia].
  - split_and!; [done..|by rewrite length_insert].
Qed.
Lemma capacity_step c c' : capacity c -> step c c' -> capacity c'.
Proof. destruct (tc_receive_only config) eqn:Hm; [by apply capacity_receiver|by apply capacity_sender]. Qed.
Lemma capacity_bound c : capacity c -> Z.of_nat (length (c_in c) + length (c_out c)) <= tc_max_routes config.
Proof.
  unfold capacity. destruct (tc_receive_only config); [|tauto]. intros (-> & Hl & _ & Hn & Hs).
  assert (Hle : (length (map ic_sub (c_in c)) <= length (map Some (c_subs c)))%nat).
  { apply NoDup_incl_length; [by apply NoDup_ListNoDup|]. intros o Ho. apply in_map_iff in Ho as (r & <- & Hr).
    rewrite Forall_forall in Hs. destruct (Hs r) as (k & -> & Hk); [by apply list_elem_of_In|]. apply in_map. by apply list_elem_of_In. }
  rewrite !length_map in Hle. cbn. lia.
Qed.

(** ** What a route has received *)
(** No route id above [top] has been used. *)
Definition top (c : PlaneCore) : Z := if tc_receive_only config then c_last c else c_next c.
Definition after_packet (p q : TopicPacket) : Prop := tp_sequence p < tp_sequence q /\ tp_sample_sequence p < tp_sample_sequence q.
Definition not_after (p q : TopicPacket) : Prop := tp_sequence p <= tp_sequence q /\ tp_sample_sequence p <= tp_sample_sequence q.
(** The pending sample of a route is the newest one it has seen. *)
Definition pending_ok (r : InCore) : Prop := forall p, ic_latest r = Some p ->
  arrived p /\ tp_kind p = TopicMessage.DATA /\ route_key p = route_key (ic_packet r) /\ tp_sequence p = tp_sequence (ic_packet r) /\ tp_sample_sequence p = tp_sample_sequence (ic_packet r).
(** Against what was delivered: everything older, strictly when a sample is pending. *)
Definition past_ok (del : list TopicDelivery) (r : InCore) : Prop := forall d, d ∈ del -> route_key (dv_packet d) = route_key (ic_packet r) ->
  not_after (dv_packet d) (ic_packet r) /\ (ic_latest r <> None -> after_packet (dv_packet d) (ic_packet r)).
Definition delivery_ok (d : TopicDelivery) : Prop :=
  arrived (dv_packet d) /\ tp_kind (dv_packet d) = TopicMessage.DATA /\ DecodeParameterValue (tc_little config) (dv_descriptor d) (tp_payload (dv_packet d)) = Ok (dv_value d).
Definition ordered (del : list TopicDelivery) : Prop := forall i j d e, (i < j)%nat -> del !! i = Some d -> del !! j = Some e ->
  route_key (dv_packet d) = route_key (dv_packet e) -> after_packet (dv_packet d) (dv_packet e).
Record receiving (c : PlaneCore) : Prop := {
  rv_keys : NoDup (map (fun r => route_key (ic_packet r)) (c_in c));
  rv_top : Forall (fun r => tp_route_id (ic_packet r) <= top c) (c_in c);
  rv_del_top : Forall (fun d => tp_route_id (dv_packet d) <= top c) (c_delivered c);
  rv_pending : Forall pending_ok (c_in c);
  rv_past : Forall (past_ok (c_delivered c)) (c_in c);
  rv_delivered : Forall delivery_ok (c_delivered c);
  rv_ordered : ordered (c_delivered c)
}.
Lemma route_key_id p q : route_key p = route_key q -> tp_route_id p = tp_route_id q.
Proof. unfold route_key. congruence. Qed.
(** The invariant depends on the routes, the deliveries and the largest id only. *)
Lemma received_keep c c' l : receiving c -> sublist l (c_in c) -> c_in c' = l -> c_delivered c' = c_delivered c -> top c <= top c' -> receiving c'.
Proof.
  intros [Hk Ht Hd Hp Ha He Ho] Hl Ei Ed Htop. split; rewrite ?Ei, ?Ed; try done.
  - by eapply sublist_NoDup, Hk; apply sublist_map.
  - apply Forall_forall. intros r Hr. rewrite Forall_forall in Ht. specialize (Ht r (sublist_elem _ _ _ Hl Hr)). cbn in Ht. lia.
  - eapply Forall_impl; [exact Hd|]. cbn. lia.
  - apply Forall_forall. intros r Hr. rewrite Forall_forall in Hp. by apply Hp, (sublist_elem _ _ _ Hl).
  - apply Forall_forall. intros r Hr. rewrite Forall_forall in Ha. by apply Ha, (sublist_elem _ _ _ Hl).
Qed.
(** A new route has an id that no route and no delivery has. *)
Lemma received_new c c' r : receiving c -> ic_latest r = None -> top c < tp_route_id (ic_packet r) -> top c' = tp_route_id (ic_packet r) ->
  c_in c' = c_in c ++ [r] -> c_delivered c' = c_delivered c -> receiving c'.
Proof.
  intros [Hk Ht Hd Hp Ha He Ho] Hn Hlt Htop Ei Ed. split; rewrite ?Ei, ?Ed; try done.
  - rewrite map_app. apply NoDup_snoc; [done|]. intros Hin. apply list_elem_of_fmap in Hin as (r' & E & Hr). rewrite Forall_forall in Ht.
    specialize (Ht r' Hr). cbn in Ht. apply route_key_id in E. lia.
  - apply Forall_app. split; [eapply Forall_impl; [exact Ht|cbn; lia]|constructor; [lia|constructor]].
  - eapply Forall_impl; [exact Hd|cbn; lia].
  - apply Forall_app. split; [done|constructor; [|constructor]]. intros p E. congruence.
  - apply Forall_app. split; [done|constructor; [|constructor]]. intros d Hin E. rewrite Forall_forall in Hd. specialize (Hd d Hin). cbn in Hd.
    apply route_key_id in E. lia.
Qed.
Lemma received_take c i r p : receiving c -> c_in c !! i = Some r -> arrived p -> tp_kind p = TopicMessage.DATA -> route_key p = route_key (ic_packet r) -> after_packet (ic_packet r) p ->
  receiving (c_set_in (<[i := {| ic_sub := ic_sub r; ic_packet := set_sequences (tp_sequence p) (tp_sample_sequence p) (ic_packet r); ic_latest := Some p |}]> (c_in c)) c).
Proof.
  intros [Hk Ht Hd Hp Ha He Ho] Hi Harr Hdata Hkey [Hn1 Hn2]. split; cbn [c_in c_set_in c_delivered]; try done.
  - by rewrite (map_insert_same _ _ _ r).
  - apply Forall_insert; [done|]. rewrite Forall_lookup in Ht. by apply (Ht i r).
  - apply Forall_insert; [done|]. intros q [= <-]. by split_and!.
  - apply Forall_insert; [done|]. intros d Hin E. rewrite Forall_lookup in Ha. destruct (Ha i r Hi d Hin E) as [[H1 H2] _].
    unfold not_after, after_packet. cbn. lia.
Qed.
Lemma received_deliver c i r p dv : receiving c -> c_in c !! i = Some r -> ic_latest r = Some p ->
  Forall (fun d => dv_packet d = p /\ DecodeParameterValue (tc_little config) (dv_descriptor d) (tp_payload p) = Ok (dv_value d)) dv -> (length dv <= 1)%nat ->
  receiving (c_log [] [] dv (c_set_in (<[i := {| ic_sub := ic_sub r; ic_packet := ic_packet r; ic_latest := None |}]> (c_in c)) c)).
Proof.
  intros [Hk Ht Hd Hp Ha He Ho] Hi Hlat Hdv Hlen. rewrite Forall_lookup in Hp. destruct (Hp i r Hi p Hlat) as (Harr & Hdata & Hkey & Hs1 & Hs2).
  assert (Hri : tp_route_id p <= top c). { rewrite Forall_lookup in Ht. specialize (Ht i r Hi). cbn in Ht. apply route_key_id in Hkey. lia. }
  split; cbn [c_in c_set_in c_log c_delivered].
  - by rewrite (map_insert_same _ _ _ r).
  - apply Forall_insert; [done|]. rewrite Forall_lookup in Ht. by apply (Ht i r).
  - apply Forall_app. split; [done|]. eapply Forall_impl; [exact Hdv|]. intros d [-> _]. done.
  - apply Forall_insert; [by apply Forall_lookup|]. by intros q.
  - apply Forall_lookup. intros j r' Hj. apply list_lookup_insert_Some in Hj as [(-> & <- & _)|(Hne & Hj)]; intros d Hin E; apply elem_of_app in Hin as [Hin|Hin].
    + rewrite Forall_lookup in Ha. destruct (Ha j r Hi d Hin E) as [H1 _]. by split.
    + rewrite Forall_forall in Hdv. destruct (Hdv d Hin) as [-> _]. split; [|by intros H]. unfold not_after. cbn [ic_packet]. lia.
    + rewrite Forall_lookup in Ha. by apply (Ha j r' Hj).
    + rewrite Forall_forall in Hdv. destruct (Hdv d Hin) as [Ep _]. rewrite Ep in E. exfalso. apply Hne.
      eapply (NoDup_lookup _ i j (route_key p)); [exact Hk|..]; change (map ?f) with (fmap (M := list) f); rewrite list_lookup_fmap; [rewrite Hi|rewrite Hj]; cbn; congruence.
  - apply Forall_app. split; [done|]. eapply Forall_impl; [exact Hdv|]. intros d [E1 E2]. unfold delivery_ok. by rewrite E1.
  - intros a b d e Hab Hda Heb E. apply lookup_app_Some in Heb as [Heb|[Hge Heb]].
    + apply (Ho a b); auto. apply lookup_lt_Some in Heb. by rewrite lookup_app_l in Hda by lia.
    + rewrite Forall_lookup in Hdv. destruct (Hdv _ _ Heb) as [Ep _]. apply lookup_lt_Some in Heb. rewrite lookup_app_l in Hda by lia.
      rewrite Forall_lookup in Ha. destruct (Ha i r Hi d) as [_ H]; [by eapply list_elem_of_lookup_2|congruence|].
      specialize (H ltac:(congruence)). unfold after_packet in *. rewrite Ep, Hs1, Hs2. exact H.
Qed.
Lemma received_step c c' : receiving c -> step c c' -> receiving c'.
Proof.
  intros Hrv Hstep. assert (Hid : forall l : list InCore, sublist l l) by done.
  destruct Hstep as [l Hsub|l Hsub|p Hm Hroom Hnx Hkind Hid'|p Hm Hroom Hkind Hid'|n Hlast|l Hsub Hr|i r p Hi Harr Hdata Hkey H1 H2|i r p dv Hi Hl Hdv Hlen|i r d Hi|p entry Hm Hroom|i o v Hi|i o v o' sent Hi].
  - by eapply received_keep.
  - by eapply received_keep.
  - eapply (received_new c _ {| ic_sub := None; ic_packet := p; ic_latest := None |}); unfold top; rewrite ?Hm; cbn; auto; lia.
  - eapply (received_new c _ {| ic_sub := Some (c_states c); ic_packet := p; ic_latest := None |}); unfold top; rewrite ?Hm; cbn; auto; lia.
  - eapply received_keep; [exact Hrv|apply Hid|done..|]. unfold top. cbn. case_check; lia.
  - by eapply received_keep.
  - by apply received_take.
  - by eapply received_deliver.
  - eapply received_keep; [exact Hrv|apply Hid|done| |done]. cbn. by rewrite app_nil_r.
  - by eapply received_keep.
  - eapply received_keep; [exact Hrv|apply Hid|done| |done]. cbn. by rewrite app_nil_r.
  - eapply received_keep; [exact Hrv|apply Hid|done| |done]. cbn. by rewrite app_nil_r.
Qed.

(** ** What a route has sent *)
Context (datagram_bytes : forall bs, datagram bs -> bytes bs).
Lemma arrived_wf p : arrived p -> wf_packet p.
Proof using datagram_bytes. intros (bs & Hb & Hd). apply (topic_packet_canonical bs p); auto. Qed.
(** A DATA datagram carries a sample that was read at its source: the source's descriptor
    encodes the sample to the payload, and the packet has the sample's sequence number. *)
Definition sample_of (reads : list (RemoteEndpointIdentity * DynamicPayload)) (p : TopicPacket) (entry : LocalEndpoint) (v : DynamicPayload) : Prop :=
  publishes entry p /\ (tp_source p, v) ∈ reads /\ dp_sequence v = tp_sample_sequence p /\
  EncodeParameterValue (tc_little config) (le_descriptor entry) v = Ok (tp_payload p).
Definition wire_ok (reads : list (RemoteEndpointIdentity * DynamicPayload)) (d : TopicDatagram) : Prop := forall p,
  DecodeTopicPacket (Some (dg_bytes d)) = Ok p -> tp_kind p = TopicMessage.DATA -> exists entry v, sample_of reads p entry v.
Definition sender_ok (o : OutCore) : Prop := wf_packet (oc_packet o) /\ publishes (oc_publisher o) (oc_packet o).
Record sends (c : PlaneCore) : Prop := {
  sd_interest : Forall (fun r => tp_kind (ic_packet r) = TopicMessage.INTEREST) (c_in c);
  sd_out : Forall sender_ok (c_out c);
  sd_ends : NoDup (map (fun o => route_ends (oc_packet o)) (c_out c));
  sd_wire : Forall (wire_ok (c_reads c)) (c_wire c)
}.
Lemma wire_ok_mono reads more d : wire_ok reads d -> wire_ok (reads ++ more) d.
Proof.
  intros H p Hd Hk. destruct (H p Hd Hk) as (entry & v & Hp & Hin & Hs). exists entry, v. split; [done|]. split; [apply elem_of_app; by left|done].
Qed.
Lemma wf_set_sequences a b p : wf_packet p -> is_u64 a -> is_u64 b -> wf_packet (set_sequences a b p).
Proof. unfold wf_packet, set_sequences. cbn. tauto. Qed.
Lemma wf_set_payload l p : wf_packet p -> bytes l -> wf_packet (set_payload l p).
Proof. unfold wf_packet, set_payload. cbn. tauto. Qed.
Lemma wf_as_data p : wf_packet p -> wf_packet (as_data p).
Proof. unfold wf_packet, as_data. cbn. unfold_widths. intros (? & ? & ? & ? & ? & ? & ? & ? & ? & ? & ?). split_and!; try done; unfold TopicMessage.DATA; lia. Qed.
Lemma samples_ok o v o' sent reads : sender_ok o -> typed_value v -> samples config o v o' sent ->
  sender_ok o' /\ route_ends (oc_packet o') = route_ends (oc_packet o) /\
  Forall (wire_ok (reads ++ [(md_identity (le_metadata (oc_publisher o)), v)])) sent.
Proof.
  intros [Hw Hp] Hv (Hlt & Hmax & Epub & Hcase). destruct Hv as [Hvs Hvb].
  assert (Hw1 : wf_packet (set_sequences (tp_sequence (oc_packet o) + 1) (dp_sequence v) (oc_packet o))).
  { apply wf_set_sequences; [done| |done]. destruct Hw as (_ & _ & _ & _ & _ & _ & Hs & _). unfold_widths. lia. }
  destruct Hcase as [[Ep ->]|(payload & He & Ep & Hsent)].
  - unfold sender_ok. rewrite Ep, Epub. split_and!; [done|apply Hp..|done|done].
  - assert (Hw2 : wf_packet (oc_packet o')). { rewrite Ep. apply wf_set_payload; [done|]. by eapply EncodeParameterValue_bytes. }
    split_and!; [split; [done|rewrite Ep, Epub; apply Hp]|by rewrite Ep|]. destruct Hsent as [->|(d & -> & Henc)]; [constructor|]. constructor; [|constructor].
    intros p Hd _. destruct (topic_packet_roundtrip _ _ Hw2 Henc) as [_ Hd2]. rewrite Hd2 in Hd. injection Hd as <-.
    exists (oc_publisher o), v. rewrite Ep. split_and!; [apply Hp..| |done|done]. cbn. destruct Hp as (<- & _). apply elem_of_app. right. by apply list_elem_of_singleton.
Qed.
Lemma sends_step c c' : sends c -> step c c' -> sends c'.
Proof using datagram_bytes.
  intros [Hin Hout Hends Hwire] Hstep.
  assert (Hsub : forall {A} (P : A -> Prop) l k, sublist l k -> Forall P k -> Forall P l).
  { intros A P l k Hs Hf. apply Forall_forall. intros x Hx. rewrite Forall_forall in Hf. by eapply Hf, sublist_elem. }
  destruct Hstep as [l Hl|l Hl|p Hm Hroom Hnx Hkind Hid'|p Hm Hroom Hkind Hid'|n Hlast|l Hl Hr|i r p Hi Harr Hdata Hkey H1 H2|i r p dv Hi Hl Hdv Hlen|i r d Hi He|p entry Hm Hroom Harr Hkind Hne Hpub|i o v Hi Hv|i o v o' sent Hi Hv Hs];
    split; cbn [c_in c_out c_wire c_reads c_set_in c_set_out c_set_last c_set_subs c_open c_subscribe c_log]; rewrite ?app_nil_r; try done.
  - by eapply Hsub.
  - by eapply Hsub.
  - by eapply sublist_NoDup, Hends; apply sublist_map.
  - apply Forall_app. split; [done|by constructor].
  - apply Forall_app. split; [done|by constructor].
  - apply Forall_insert; [done|]. rewrite Forall_lookup in Hin. by apply (Hin i r).
  - apply Forall_insert; [done|]. rewrite Forall_lookup in Hin. by apply (Hin i r).
  - apply Forall_app. split; [done|constructor; [|constructor]]. intros p Hd Hk. exfalso.
    rewrite Forall_lookup in Hin. apply (interest_kind (as_interest (ic_packet r))) in Hd; [|by apply (Hin i r)|done]. unfold TopicMessage.DATA, TopicMessage.INTEREST in *. lia.
  - apply Forall_app. split; [done|constructor; [|constructor]]. split; [by apply wf_as_data, arrived_wf|done].
  - rewrite map_app. apply NoDup_snoc; [done|]. intros Hel. apply list_elem_of_fmap in Hel as (o & E & Ho). rewrite Forall_forall in Hne. by apply (Hne o Ho).
  - eapply Forall_impl; [exact Hwire|]. apply wire_ok_mono.
  - apply Forall_insert; [done|]. rewrite Forall_lookup in Hout. by eapply (samples_ok o v o' sent []); [apply (Hout i o)|..].
  - rewrite Forall_lookup in Hout. rewrite (map_insert_same _ _ _ o); [done..|]. by eapply (samples_ok o v o' sent []); [apply (Hout i o)|..].
  - rewrite Forall_lookup in Hout. apply Forall_app. split; [eapply Forall_impl; [exact Hwire|apply wire_ok_mono]|].
    by eapply samples_ok; [apply (Hout i o)|..].
Qed.
End Safety.

(** ** Diagnostics stay small *)
Definition tidy (s s' : Plane) : Prop :=
  (length (pl_history s) <= 64)%nat /\ (length (pl_notices s) <= 64)%nat -> (length (pl_history s') <= 64)%nat /\ (length (pl_notices s') <= 64)%nat.
#[local] Instance tidy_preorder : PreOrder tidy.
Proof. unfold tidy. split; [by intros s|]. intros a b c. tauto. Qed.
Lemma calm_tidy s s' : undisturbed s s' -> tidy s s'.
Proof. intros (_ & _ & _ & H1 & H2) [H3 H4]. auto. Qed.
Lemma same_tidy s s' : pl_history s' = pl_history s -> pl_notices s' = pl_notices s -> tidy s s'.
Proof. unfold tidy. by intros -> ->. Qed.
Create HintDb tidy.
#[local] Hint Resolve calm_tidy calm_Archive calm_Notice calm_scan calm_choose calm_ProxyFor calm_oversized calm_Export calm_states : tidy.
#[local] Hint Extern 2 (tidy _ _) => apply same_tidy; reflexivity : tidy.
#[local] Hint Extern 1 (undisturbed _ (Reject _ _ _)) => apply calm_Notice : tidy.
Ltac tidied := cbn [fst snd]; solve [auto with tidy].
Section Tidy.
Context (config : PlaneConfig).
Lemma tidy_topic rf peers entries i name keep s : tidy s (snd (refresh_topic config rf peers entries i name keep s)).
Proof.
  unfold refresh_topic. pose proof (calm_scan config name peers s) as Hq. destruct (scan_peers config name peers s) as [[found n] s1].
  cbn [snd] in Hq. apply calm_tidy in Hq. etrans; [exact Hq|]. clear Hq s. destruct found as [[owner source]|]; [|done].
  case_check; [tidied|]. case_check; [tidied|]. destruct (Descriptor _ _ _ _) as [d|]; [|tidied].
  pose proof (calm_ProxyFor config source d (rf_create rf i) s1) as Hp. destruct (ProxyFor _ _ _ _ _) as [[proxy rec] s2]. cbn [snd] in Hp.
  apply calm_tidy in Hp. etrans; [exact Hp|]. clear Hp s1. destruct proxy as [proxy|code]; [|tidied].
  pose proof (calm_choose config (rf_valid rf i) owner source d name entries 0 None s2) as Hc.
  destruct (choose_consumer _ _ _ _ _ _ _ _ _) as [consumer s3]. cbn [snd] in Hc. apply calm_tidy in Hc. etrans; [exact Hc|].
  destruct consumer as [consumer|]; [|tidied]. unfold place_route. destruct (find_route _ _ _) as [[k r]|]; [tidied|].
  case_check; [|tidied]. cbn [snd]. etrans; [apply calm_tidy, calm_Notice|]. by apply same_tidy.
Qed.
Lemma tidy_topics rf peers entries names : forall i keep s, tidy s (snd (refresh_topics config rf peers entries i names keep s)).
Proof.
  induction names as [|name l IH]; intros i keep s; cbn [refresh_topics]; [done|].
  pose proof (tidy_topic rf peers entries i name keep s) as H. destruct (refresh_topic _ _ _ _ _ _ _ _). etrans; [exact H|apply IH].
Qed.
Lemma tidy_Refresh rf peers entries s : tidy s (Refresh config rf peers entries s).
Proof.
  unfold Refresh. etrans; [|etrans; [apply calm_tidy, (calm_oversized entries (set_notices [] s))|]].
  { intros [H _]. split; [done|cbn; lia]. }
  set (s1 := oversized _ _). clearbody s1. destruct (if tc_receive_only config then _ else _) as [keep2 s2] eqn:E2.
  assert (H2 : tidy s1 s2).
  { destruct (tc_receive_only config); [by injection E2 as <- <-|].
    pose proof (tidy_topics rf peers entries (tc_remote_topics config) 0 (repeat false (length (pl_incoming s1))) s1) as H. by rewrite E2 in H. }
  etrans; [exact H2|]. destruct (drop_incoming_sub (pl_incoming s2) keep2 s2) as [_ H3]. destruct (drop_incoming _ _ _) as [inc s3]. cbn [snd] in H3.
  apply calm_tidy in H3. etrans; [exact H3|]. destruct (drop_outgoing_sub config (rf_now rf) peers entries (pl_outgoing (set_incoming inc s3)) 0 (set_incoming inc s3)) as [_ H4].
  destruct (drop_outgoing _ _ _ _ _ _ _) as [out s5]. cbn [snd] in H4. apply calm_tidy in H4. etrans; [|etrans; [exact H4|]]; by apply same_tidy.
Qed.
Lemma tidy_Interest ix packet peer entries port s : tidy s (Interest config ix packet peer entries port s).
Proof.
  unfold Interest. case_check; [done|]. destruct (find_local _ _); [|tidied]. case_check; [tidied|].
  destruct (list_find _ _) as [[i o]|]; [case_check; tidied|]. unfold open_route.
  pose proof (supersede_spec packet (is_receiver peer) (pl_outgoing s) s) as H. destruct (supersede _ _ _ _) as [[go l0] s1]. destruct H as (_ & H & _).
  apply calm_tidy in H. etrans; [exact H|]. clear H. case_check; [tidied|]. case_check; [tidied|].
  assert (Hr : forall e c, tidy s1 (Reject e c (set_outgoing l0 s1))).
  { intros. etrans; [|apply calm_tidy, calm_Notice]. by apply same_tidy. }
  case_check; [apply Hr|]. destruct (if existsb _ _ then _ else _) as [code b]. case_check; [apply Hr|tidied].
Qed.
Lemma tidy_Receive budget : forall replies peers entries s, tidy s (ReceiveAll config budget replies peers entries s).
Proof.
  induction budget as [|n IH]; intros [|[[e|count bs ip port] ix] rest] peers entries s; cbn [ReceiveAll]; try done.
  - repeat case_check; tidied.
  - etrans; [|apply IH]. unfold receive_one. case_check; [tidied|]. destruct (DecodeTopicPacket _); [|tidied].
    destruct (find_host _ _); [|tidied]. case_check; [tidied|]. case_check; [apply tidy_Interest|].
    unfold Data. destruct (list_find _ _) as [[i r]|]; [|tidied]. do 3 (case_check; [tidied|]). destruct (DecodeParameterValue _ _ _); tidied.
Qed.
Lemma tidy_result r p code st s : tidy s (subscription_result r p code st s).
Proof. unfold subscription_result. destruct (in_subscription r) as [k|]; [|done]. destruct (pl_states s !! k); [|done]. tidied. Qed.
Lemma tidy_Deliver dl s : tidy s (Deliver config dl s).
Proof.
  unfold Deliver. assert (H : forall l i s0, tidy s0 (snd (deliver_routes config dl i l s0))).
  { induction l as [|r l IH]; intros i s0; cbn [deliver_routes]; [done|].
    assert (H : tidy s0 (snd (deliver_route config dl i r s0))).
    { unfold deliver_route. destruct (in_latest r) as [p|]; [|done]. cbn zeta.
      destruct (match (if _ : bool then Err _ else _) with Ok _ => _ | Err _ => _ end) as [code s1] eqn:E. cbn [snd].
      trans s1; [|apply tidy_result]. destruct (if _ : bool then Err _ else _); [|injection E as _ <-; tidied].
      destruct (dl_publish dl i =? 0); injection E as _ <-; tidied. }
    destruct (deliver_route config dl i r s0) as [r1 s1]. cbn [snd] in H. specialize (IH (S i) s1). destruct (deliver_routes _ _ _ _ _). etrans; [exact H|exact IH]. }
  specialize (H (pl_incoming s) 0%nat s). destruct (deliver_routes _ _ _ _ _) as [l s1]. etrans; [exact H|]. by apply same_tidy.
Qed.
Lemma tidy_send p ip port a s : tidy s (snd (SendPacket config p ip port a s)).
Proof. unfold SendPacket. destruct (EncodeTopicPacket p); [|done]. destruct (inet_pton ip); tidied. Qed.
Lemma tidy_Transmit tx peers s : tidy s (Transmit config tx peers s).
Proof.
  unfold Transmit. assert (H : forall l i s0, tidy s0 (snd (send_interests config tx peers i l s0))).
  { induction l as [|r l IH]; intros i s0; cbn [send_interests]; [done|]. destruct (send_interest _ _ _ _ _ _) as [r1 s1] eqn:E.
    assert (H : tidy s0 s1).
    { unfold send_interest in E. case_check; [by injection E as _ <-|]. destruct (find_host _ _) as [peer|]; [|by injection E as _ <-].
      destruct (Gate _ _ _ _); [|by injection E as _ <-]. pose proof (tidy_send (as_interest (in_packet r)) (pi_address peer) 0 (tx_interest tx i) s0) as H.
      destruct (SendPacket _ _ _ _ _ _). by injection E as _ <-. }
    specialize (IH (S i) s1). destruct (send_interests _ _ _ _ _ _). etrans; [exact H|exact IH]. }
  assert (H2 : forall l i s0, tidy s0 (snd (send_routes config tx i l s0))).
  { induction l as [|o l IH]; intros i s0; cbn [send_routes]; [done|]. destruct (send_data _ _ _ _ _) as [o1 s1] eqn:E.
    assert (H2 : tidy s0 s1).
    { unfold send_data in E. case_check; [by injection E as _ <-|]. destruct (send_sample _ _ _ _ _) as [o2 s2] eqn:E2. injection E as _ <-.
      unfold send_sample in E2. cbn zeta in E2. case_check; [by injection E2 as _ <-|]. destruct (tx_read tx i) as [v|]; [|by injection E2 as _ <-].
      do 3 (case_check; [injection E2 as _ <-; tidied|]). destruct (EncodeParameterValue _ _ _) as [pl|]; [|injection E2 as _ <-; tidied].
      match type of E2 with context [SendPacket _ ?p ?a ?b ?c ?s1] => pose proof (tidy_send p a b c s1) as Hs; destruct (SendPacket _ p a b c s1) end.
      injection E2 as _ <-. etrans; [|exact Hs]. by apply same_tidy. }
    specialize (IH (S i) s1). destruct (send_routes _ _ _ _ _). etrans; [exact H2|exact IH]. }
  specialize (H (pl_incoming s) 0%nat s). destruct (send_interests _ _ _ _ _ _) as [l s1]. etrans; [exact H|]. cbn [snd].
  specialize (H2 (pl_outgoing (set_incoming l s1)) 0%nat (set_incoming l s1)). destruct (send_routes _ _ _ _ _) as [l2 s2]. etrans; [|etrans; [exact H2|]]; by apply same_tidy.
Qed.
Lemma tidy_Close k status code cleanup removed s : tidy s (CloseSubscription k status code cleanup removed s).
Proof.
  destruct (CloseSubscription_effect k status code cleanup removed s) as (l & s1 & H1 & H2 & _). apply calm_tidy in H1, H2.
  etrans; [exact H1|]. etrans; [|exact H2]. by apply same_tidy.
Qed.
Lemma tidy_close_all replies st c ks : forall i s, tidy s (close_all replies st c i ks s).
Proof. induction ks as [|k l IH]; intros i s; cbn [close_all]; [done|]. etrans; [apply tidy_Close|apply IH]. Qed.
Lemma tidy_step e s : tidy s (plane_step config e s).
Proof.
  destruct e as [t|se running peers source expected d|k cleanup removed|replies]; cbn [plane_step].
  - unfold run_turn. etrans; [|apply tidy_Transmit]. etrans; [|apply tidy_Deliver]. etrans; [|apply tidy_Receive]. unfold refresh_turn.
    destruct (tu_refresh t) as [r|]; [|done]. etrans; [|apply calm_tidy, calm_Export]. etrans; [|apply tidy_Refresh].
    generalize (pl_subscriptions s) as ks. generalize O as i. intros i ks. revert i s. induction ks as [|k l IH]; intros i s; cbn [check_subscriptions]; [done|].
    destruct (rt_checks r i) as [[session cleanup] removed]. etrans; [|apply IH]. destruct (pl_states s !! k); [|done]. case_check; [done|].
    destruct (subscription_ends _ _ _ _) as [[? ?]|]; [apply tidy_Close|done].
  - unfold Subscribe. do 2 (case_check; [done|]). destruct (ParameterWireType d) as [type|]; [|done]. case_check; [done|].
    destruct (find_host _ _) as [peer|]; [|done]. do 5 (case_check; [done|]). cbn zeta. do 3 (case_check; [done|]). by apply same_tidy.
  - unfold Unsubscribe. destruct (list_find _ _) as [[i k']|]; [|done]. cbn [snd]. etrans; [apply tidy_Close|]. etrans; [|apply calm_tidy, calm_Export]. by apply same_tidy.
  - unfold end_worker. set (s1 := close_all _ _ _ _ _ s). assert (H1 : tidy s s1).
    { apply tidy_close_all. }
    etrans; [exact H1|]. clearbody s1. trans (set_subscriptions [] s1); [by apply same_tidy|].
    match goal with |- tidy _ (set_outgoing [] (set_incoming [] ?x)) => assert (Hq : tidy (set_subscriptions [] s1) x); [|etrans; [exact Hq|by apply same_tidy]] end.
    apply calm_tidy. etrans; [|apply calm_foldl; intros; apply calm_Archive]. apply calm_foldl. intros. apply calm_Archive.
Qed.
Lemma tidy_run es : forall s, tidy s (plane_run config es s).
Proof. induction es as [|e es IH]; intros s; [done|]. etrans; [apply (tidy_step e)|apply IH]. Qed.
End Tidy.

(** ** Runs of the worker *)
Record plane_ok (config : PlaneConfig) (datagram : list Z -> Prop) (c : PlaneCore) : Prop := {
  po_capacity : capacity config c; po_received : receiving config datagram c; po_sends : sends config c
}.
Lemma started_plane_ok config datagram last session next_route next_proxy proxies : 0 <= tc_max_routes config ->
  plane_ok config datagram (core last (started_plane session next_route next_proxy proxies)).
Proof.
  intros Hm. split.
  - unfold capacity. case_check; cbn; split_and!; auto using NoDup_nil_2; lia.
  - split; cbn; auto using NoDup_nil_2. by intros i j d e _ Hi.
  - split; cbn; auto using NoDup_nil_2.
Qed.
Lemma plane_run_ok config datagram es last s : (forall bs, datagram bs -> bytes bs) -> plane_ok config datagram (core last s) ->
  typed_events datagram last es -> exists last', plane_ok config datagram (core last' (plane_run config es s)).
Proof.
  intros Hb H0 He. destruct (plane_refines_routes config datagram es last s He) as (last' & Hle & Hrun). exists last'.
  eapply rtc_invariant; [|exact H0|exact Hrun]. intros c c' [H1 H2 H3] Hstep.
  split; [by eapply capacity_step|by eapply received_step|by eapply sends_step].
Qed.

(** C27: Whatever arrives and however subscriptions come and go, the data plane stays within its
    configured size: at most [max_routes] routes, at most 64 closed routes and 64 notices in
    the diagnostics.  No two incoming routes have the same key and no two outgoing routes the
    same pair of endpoints.  A receive-only plane has no outgoing routes, which are what Topic
    data is sent on (it does ask for data with INTEREST datagrams), and at most one route per
    live subscription; any other plane has no subscriptions. *)
Theorem topic_plane_bounded config datagram last es session next_route next_proxy proxies :
  0 <= tc_max_routes config -> (forall bs, datagram bs -> bytes bs) -> typed_events datagram last es ->
  let s := plane_run config es (started_plane session next_route next_proxy proxies) in
  Z.of_nat (length (pl_incoming s) + length (pl_outgoing s)) <= tc_max_routes config /\
  (length (pl_history s) <= 64)%nat /\ (length (pl_notices s) <= 64)%nat /\
  NoDup (map (fun r => route_key (in_packet r)) (pl_incoming s)) /\ NoDup (map (fun o => route_ends (og_packet o)) (pl_outgoing s)) /\
  (if tc_receive_only config then pl_outgoing s = [] /\ NoDup (map in_subscription (pl_incoming s)) /\
     Forall (fun r => exists k, in_subscription r = Some k /\ k ∈ pl_subscriptions s) (pl_incoming s)
   else pl_subscriptions s = [] /\ Forall (fun r => in_subscription r = None) (pl_incoming s)).
Proof.
  intros Hm Hb He s. assert (H0 : plane_ok config datagram (core last (started_plane session next_route next_proxy proxies))) by by apply started_plane_ok.
  destruct (plane_run_ok config datagram es last _ Hb H0 He) as (last' & [Hc Hr Hs]). fold s in Hc, Hr, Hs.
  destruct (tidy_run config es (started_plane session next_route next_proxy proxies)) as [Hh Hn]; [cbn; lia|].
  split_and!; try done.
  - apply capacity_bound in Hc. cbn in Hc. by rewrite !length_map in Hc.
  - destruct Hr as [Hk _ _ _ _ _ _]. cbn in Hk. by rewrite map_map in Hk.
  - destruct Hs as [_ _ Hk _]. cbn in Hk. by rewrite map_map in Hk.
  - unfold capacity in Hc. case_check; cbn in Hc.
    + destruct Hc as (Ho & _ & _ & Hd & Hf). rewrite map_map in Hd. split_and!; [by apply map_eq_nil in Ho|done|]. exact (proj1 (Forall_fmap in_core _ _) Hf).
    + destruct Hc as (Ho & Hf & _). split; [done|]. exact (proj1 (Forall_fmap in_core _ _) Hf).
Qed.

(** C26: From one host to another: when the DATA datagrams that reach the receiver are datagrams the
    sender's plane put on the wire -- lost, repeated and reordered at will -- then every value
    the receiver publishes for a Topic is the decoding of a payload that the source's own
    descriptor produced from a sample read at that source, with the sample's sequence number;
    where the two descriptors have the same schema, all field values are equal.  On a route
    the values come in the order in which they were written: sequence numbers and sample
    numbers grow strictly, so no sample is published twice and none after a later one. *)
Theorem topic_route_integrity sender receiver out last1 last2 es1 es2 session1 session2 route1 route2 proxy1 proxy2 proxies1 proxies2 :
  0 <= tc_max_routes sender -> 0 <= tc_max_routes receiver ->
  (forall bs, out bs -> bytes bs) -> typed_events out last1 es1 ->
  let s1 := plane_run sender es1 (started_plane session1 route1 proxy1 proxies1) in
  let network := fun bs => bytes bs /\
    (forall p, DecodeTopicPacket (Some bs) = Ok p -> tp_kind p = TopicMessage.DATA -> bs ∈ map dg_bytes (pl_wire s1)) in
  typed_events network last2 es2 ->
  let s2 := plane_run receiver es2 (started_plane session2 route2 proxy2 proxies2) in
  (forall d, d ∈ pl_delivered s2 -> exists entry v,
     sample_of sender (pl_reads s1) (dv_packet d) entry v /\
     DecodeParameterValue (tc_little receiver) (dv_descriptor d) (tp_payload (dv_packet d)) = Ok (dv_value d) /\
     (forall t t', wf_descriptor (le_descriptor entry) -> wf_descriptor (dv_descriptor d) -> schema (le_descriptor entry) = schema (dv_descriptor d) ->
        ParameterWireType (le_descriptor entry) = Ok t -> ParameterWireType (dv_descriptor d) = Ok t' ->
        field_values_of (tc_little receiver) (dv_descriptor d) (dv_value d) = field_values_of (tc_little sender) (le_descriptor entry) v)) /\
  ordered (pl_delivered s2).
Proof.
  intros Hm1 Hm2 Hb He1 s1 network He2 s2.
  destruct (plane_run_ok sender out es1 last1 _ Hb (started_plane_ok sender out last1 session1 route1 proxy1 proxies1 Hm1) He1) as (n1 & [_ _ Hs]).
  assert (Hnb : forall bs, network bs -> bytes bs) by (intros bs [H _]; exact H).
  destruct (plane_run_ok receiver network es2 last2 _ Hnb (started_plane_ok receiver network last2 session2 route2 proxy2 proxies2 Hm2) He2) as (n2 & [_ Hr _]).
  fold s1 in Hs. fold s2 in Hr. destruct Hr as [_ _ _ _ _ Hd Ho]. cbn in Hd, Ho. split; [|exact Ho]. intros d Hin.
  rewrite Forall_forall in Hd. destruct (Hd d Hin) as ((bs & [_ Hw] & Hdec) & Hk & Hval). specialize (Hw _ Hdec Hk).
  apply list_elem_of_fmap in Hw as (g & -> & Hg). destruct Hs as [_ _ _ Hwire]. cbn in Hwire. rewrite Forall_forall in Hwire.
  destruct (Hwire g Hg _ Hdec Hk) as (entry & v & Hsample). exists entry, v. split_and!; [done..|].
  intros t t' Hw1 Hw2 Hsch Ht Ht'. destruct Hsample as (_ & _ & _ & Henc).
  destruct (parameter_value_transfer _ (tc_little receiver) _ _ _ _ _ _ Hw1 Hw2 Hsch Ht Ht' Henc) as (v2 & Hv2 & Hf & _). congruence.
Qed.

(** ** Pacing *)
(** Visits of one outgoing route; the clock does not go back. *)
Fixpoint visit_route (config : PlaneConfig) (visits : list TransmitEnv) (o : Outgoing) (s : Plane) : Outgoing * Plane :=
  match visits with
  | [] => (o, s)
  | tx :: rest => let (o, s) := send_data config tx 0 o s in visit_route config rest o s
  end.
Fixpoint clocked (t : Z) (visits : list TransmitEnv) (stop : Z) : Prop :=
  match visits with
  | [] => t <= stop
  | tx :: rest => t <= tx_due tx 0%nat /\ tx_due tx 0%nat <= tx_end tx 0%nat /\ clocked (tx_end tx 0%nat) rest stop
  end.
Lemma send_sample_wire config tx i o s : let (o', s') := send_sample config tx i o s in
  (length (pl_wire s') <= S (length (pl_wire s)))%nat /\ tp_name (og_packet o') = tp_name (og_packet o).
Proof.
  pose proof (send_sample_cases config tx i o s 0) as H. destruct (send_sample config tx i o s) as [o' s']. cbn [fst snd] in H.
  destruct H as [(E & [Hc|(v & _ & Hc)])|(v & sent & _ & Hs & Hc)]; apply (f_equal c_wire) in Hc; cbn in Hc; rewrite Hc.
  - split; [lia|]. by injection E as -> _.
  - rewrite app_nil_r. split; [lia|]. by injection E as -> _.
  - destruct Hs as (_ & _ & _ & [[E ->]|(payload & _ & E & Hsent)]); cbn in E; rewrite E; cbn [set_payload set_sequences tp_name]; split; try done; rewrite length_app.
    + cbn. lia.
    + destruct Hsent as [->|(d & -> & _)]; cbn; lia.
Qed.
(** [n] datagrams were sent: the next deadline is [m] periods after the first sample, at most
    one period ahead. *)
Definition paced (period t n : Z) (now : Z) (o : Outgoing) : Prop :=
  (og_next o = 0 /\ n <= 0) \/ (exists phase m, t <= phase /\ og_next o = phase + m * period /\ n <= m /\ 0 < og_next o /\ (m - 1) * period <= now - phase).
Lemma send_data_paced config tx o s t n now : let period := route_period config (tp_name (og_packet o)) in
  0 < period -> 0 < t -> t <= now -> now <= tx_due tx 0%nat -> tx_due tx 0%nat <= tx_end tx 0%nat -> paced period t n now o ->
  let (o', s') := send_data config tx 0 o s in
  tp_name (og_packet o') = tp_name (og_packet o) /\
  paced period t (n + Z.of_nat (length (pl_wire s')) - Z.of_nat (length (pl_wire s))) (tx_end tx 0%nat) o'.
Proof.
  intros period Hp Ht Hnow Hd He Hpace. unfold send_data. destruct (negb _ || _) eqn:Hg.
  { split; [done|]. replace (n + _ - _) with n by lia. destruct Hpace as [H|(phase & m & H1 & H2 & H3 & H4 & H5)]; [by left|right]. exists phase, m. split_and!; try done. lia. }
  apply orb_false_iff in Hg as [_ Hg]. apply Z.ltb_ge in Hg. fold period.
  pose proof (send_sample_wire config tx 0 o s) as Hw. destruct (send_sample config tx 0 o s) as [o' s']. destruct Hw as [Hw Hname].
  split; [done|]. right. set (due := tx_due tx 0%nat) in *. set (stop := tx_end tx 0%nat) in *.
  unfold last_deadline, next_deadline, first_due. cbn [og_set_next og_next].
  assert (Hq : forall a, 0 <= a -> Z.quot a period * period <= a < (Z.quot a period + 1) * period /\ 0 <= Z.quot a period).
  { intros a Ha. rewrite Z.quot_div_nonneg by lia. pose proof (Z.mul_div_le a period Hp). pose proof (Z.mul_succ_div_gt a period Hp).
    pose proof (Z.div_pos a period Ha Hp). nia. }
  destruct Hpace as [[E Hn]|(phase & m & H1 & H2 & H3 & H4 & H5)].
  - rewrite E. cbn [Z.eqb]. rewrite Z.sub_diag, Z.quot_0_l, Z.mul_0_l, Z.add_0_r by lia.
    destruct (Hq (stop - due) ltac:(lia)) as [[Ha Hb] Hc]. exists due, (Z.quot (stop - due) period + 1). split_and!; nia.
  - destruct (Z.eqb_spec (og_next o) 0); [lia|]. rewrite H2.
    destruct (Hq (due - (phase + m * period)) ltac:(lia)) as [[Ha Hb] Hc]. set (q1 := Z.quot (due - (phase + m * period)) period) in *.
    destruct (Hq (stop - (phase + m * period + q1 * period)) ltac:(lia)) as [[Hx Hy] Hz]. set (q2 := Z.quot (stop - _) period) in *.
    assert (0 <= q1 * period) by (apply Z.mul_nonneg_nonneg; lia). assert (0 <= q2 * period) by (apply Z.mul_nonneg_nonneg; lia).
    exists phase, (m + q1 + q2 + 1). split_and!; lia.
Qed.
Lemma visit_paced config visits : forall o s t n now stop, let period := route_period config (tp_name (og_packet o)) in
  0 < period -> 0 < t -> t <= now -> clocked now visits stop -> paced period t n now o ->
  let (o', s') := visit_route config visits o s in
  exists now', now' <= stop /\ paced period t (n + Z.of_nat (length (pl_wire s')) - Z.of_nat (length (pl_wire s))) now' o'.
Proof.
  induction visits as [|tx rest IH]; intros o s t n now stop period Hp Ht Hnow Hc Hpace; cbn [visit_route clocked] in *.
  { exists now. split; [done|]. by replace (n + _ - _) with n by lia. }
  destruct Hc as (H1 & H2 & H3). pose proof (send_data_paced config tx o s t n now Hp Ht Hnow H1 H2 Hpace) as H.
  destruct (send_data config tx 0 o s) as [o1 s1]. destruct H as [En H].
  specialize (IH o1 s1 t (n + Z.of_nat (length (pl_wire s1)) - Z.of_nat (length (pl_wire s))) (tx_end tx 0%nat) stop). cbn zeta in IH. rewrite En in IH.
  specialize (IH Hp Ht ltac:(lia) H3 H). destruct (visit_route config rest o1 s1) as [o2 s2]. destruct IH as (now' & Hn & IH). exists now'. split; [done|].
  replace (n + Z.of_nat (length (pl_wire s2)) - Z.of_nat (length (pl_wire s))) with
    (n + Z.of_nat (length (pl_wire s1)) - Z.of_nat (length (pl_wire s)) + Z.of_nat (length (pl_wire s2)) - Z.of_nat (length (pl_wire s1))) by lia.
  exact IH.
Qed.
(** Rate limit: a route that was opened before time [t] sends, over any sequence of visits by
    the worker up to time [stop] and however irregular their times, at most one datagram per
    period and one at the start: the [n] datagrams take at least [n - 1] periods, there is
    never a burst that catches up.  The next deadline stays on the grid of the first sample. *)
Theorem topic_rate_limit config visits o s t stop : let period := route_period config (tp_name (og_packet o)) in
  0 < period -> 0 < t -> clocked t visits stop -> og_next o = 0 ->
  let (o', s') := visit_route config visits o s in
  let n := Z.of_nat (length (pl_wire s')) - Z.of_nat (length (pl_wire s)) in
  (n - 1) * period <= stop - t /\ (og_next o' = 0 \/ exists phase m, t <= phase /\ og_next o' = phase + m * period /\ og_next o' <= stop + period).
Proof.
  intros period Hp Ht Hc E. pose proof (visit_paced config visits o s t 0 t stop Hp Ht ltac:(lia) Hc ltac:(left; split; [done|lia])) as H.
  destruct (visit_route config visits o s) as [o' s']. destruct H as (now' & Hn & H). fold period in H. set (n := _ - _ : Z) in *.
  assert (Hts : t <= stop). { clear -Hc. revert t Hc. induction visits as [|tx rest IH]; cbn; intros t Hc; [done|]. destruct Hc as (? & ? & Hc). apply IH in Hc. lia. }
  cbn zeta. destruct H as [[E' Hz]|(phase & m & H1 & H2 & H3 & H4 & H5)].
  - split; [nia|by left].
  - split; [nia|right]. exists phase, m. split_and!; [done..|nia].
Qed.

(** ** A concrete exchange *)
(** Host 1 publishes a Topic of [sample_descriptor]; host 2 has a subscriber with the packed
    layout, and the other byte order. *)
Definition topic_profile : PeerProfile :=
  {| pf_framework := pf_framework default_profile; pf_network := pf_network default_profile;
     pf_capabilities := Z.lor Capability.DISCOVERY (Z.lor Capability.REMOTE_TOPIC Capability.TARGET_ENDPOINT) |}.
Definition topic_type : TypeIdentity := match ParameterWireType sample_descriptor with Ok t => t | Err _ => no_type end.
Definition topic_metadata (n role : Z) : NetworkEndpointMetadata :=
  {| md_protocol_version := PROTOCOL_VERSION; md_identity := sample_endpoint n; md_application := no_runtime; md_host_name := []; md_application_name := [];
     md_element_name := [101]; md_name := sample_name; md_groups := []; md_kind := EndpointKind.TOPIC; md_role := role; md_scope := NetworkScope.REMOTE;
     md_value_type := topic_type; md_request_type := no_type; md_response_type := no_type; md_feedback_type := no_type |}.
Definition topic_entry (n role : Z) (d : TypeDescriptor) : LocalEndpoint := {| le_metadata := topic_metadata n role; le_descriptor := d |}.
Definition topic_address (n : Z) : list Z := [49; 48; 46; 48; 46; 48; 46; 48 + n].
Definition topic_peer (n role : Z) : PeerInfo :=
  {| pi_host := sample_host n; pi_boot_id := rt_boot_id (sample_runtime n); pi_session_id := 70 + n; pi_address := topic_address n; pi_port := 5000;
     pi_last_seen := 0; pi_metadata_revision := 1; pi_state := ONLINE; pi_profile := topic_profile;
     pi_compatibility := CheckPeerCompatibility topic_profile topic_profile CompatibilityPolicy.NETWORK_PROTOCOL; pi_metadata_ready := true;
     pi_endpoints := [topic_metadata n role] |}.
Definition topic_config (n : Z) (little : bool) : PlaneConfig :=
  {| tc_discovery := {| dc_host := sample_host n; dc_boot_id := rt_boot_id (sample_runtime n); dc_profile := topic_profile;
       dc_compatibility_policy := CompatibilityPolicy.NETWORK_PROTOCOL; dc_interface_address := []; dc_multicast_group := []; dc_port := 37651;
       dc_metadata_port := 0; dc_announce_interval := 1000; dc_peer_timeout := 4000; dc_metadata_retry := 200; dc_max_peers := 64 |};
     tc_self := sample_runtime n; tc_little := little; tc_port := 37652; tc_period := 10 * millisecond; tc_limits := []; tc_local_types := [];
     tc_max_routes := 8; tc_max_proxies := 8; tc_receive_only := false; tc_fresh_start := []; tc_remote_topics := if n =? 2 then [sample_name] else [] |}.
Definition calm_interest : InterestEnv := {| ix_valid := 0; ix_now := (1000 * millisecond); ix_open := 0; ix_baseline := (0, 0) |}.
Definition topic_turn (at_ : Z) (refresh : bool) (peer : PeerInfo) (entry : LocalEndpoint) (receiving : list (list Z)) (from : Z) (read : result DynamicPayload) : Turn :=
  {| tu_refresh := if refresh then Some {| rt_checks := fun _ => (0, 0, 0); rt_env := {| rf_valid := fun _ _ => 0; rf_create := fun _ => (0, 0, false); rf_now := fun _ => at_ |};
                                           rt_peers := [peer]; rt_entries := [entry] |} else None;
     tu_peers := [peer]; tu_entries := [entry];
     tu_receive := map (fun bs => (RecvData (vsize bs) bs (topic_address from) 37652, calm_interest)) receiving ++ [(RecvError 11, calm_interest)];
     tu_deliver := {| dl_valid := fun _ => 0; dl_publish := fun _ => 0 |};
     tu_transmit := {| tx_now := at_; tx_interest := fun _ => SentAll; tx_due := fun _ => at_; tx_end := fun _ => at_; tx_valid := fun _ => 0;
                       tx_read := fun _ => read; tx_send := fun _ => SentAll |} |}.
Definition consumer_entry : LocalEndpoint := topic_entry 2 EndpointRole.CONSUMER (packed_form sample_descriptor).
Definition provider_entry : LocalEndpoint := topic_entry 1 EndpointRole.PROVIDER sample_descriptor.
Definition wire_bytes (s : Plane) : list (list Z) := map dg_bytes (pl_wire s).
Definition asks : list PlaneEvent := [PeTurn (topic_turn (1000 * millisecond) true (topic_peer 1 EndpointRole.PROVIDER) consumer_entry [] 1 (Err (- EAGAIN)))].
Definition asked : Plane := plane_run (topic_config 2 false) asks (started_plane 72 0 0 []).
Definition replies : list PlaneEvent :=
  [PeTurn (topic_turn (1000 * millisecond) true (topic_peer 2 EndpointRole.CONSUMER) provider_entry (wire_bytes asked) 2 (Ok sample_value))].
Abbreviation answered := (plane_run (topic_config 1 true) replies (started_plane 71 0 0 [])).
(** The DATA datagram arrives twice. *)
Definition hears : list PlaneEvent :=
  asks ++ [PeTurn (topic_turn ((1000 * millisecond) + millisecond) false (topic_peer 1 EndpointRole.PROVIDER) consumer_entry (wire_bytes answered ++ wire_bytes answered) 1 (Err (- EAGAIN)))].
Abbreviation heard := (plane_run (topic_config 2 false) hears (started_plane 72 0 0 [])).

Lemma typed_turn_intro datagram at_ refresh peer entry rcv from read : Forall datagram rcv -> (forall v, read = Ok v -> typed_value v) ->
  typed_turn datagram (topic_turn at_ refresh peer entry rcv from read).
Proof.
  intros H Hr. split; [|intros i v; apply Hr]. cbn. apply Forall_app. split; [|by repeat constructor]. apply Forall_fmap. eapply Forall_impl; [exact H|done].
Qed.
Lemma sample_readable v : Ok sample_value = Ok v -> typed_value v.
Proof. intros [= <-]. split; [by vm_compute|]. apply byte_list_bytes. by vm_compute. Qed.
Lemma not_read code v : Err code = Ok v -> typed_value v.
Proof. done. Qed.
Lemma all_bytes l : forallb byte_list l = true -> Forall bytes l.
Proof.
  intros H. apply Forall_forall. intros bs Hbs. apply byte_list_bytes. rewrite forallb_forall in H. apply H. by apply list_elem_of_In.
Qed.
Lemma Forall_self {A} (P : A -> Prop) l : Forall P l -> Forall (fun x => P x /\ x ∈ l) l.
Proof. intros H. apply Forall_forall. intros x Hx. rewrite Forall_forall in H. auto. Qed.
Lemma elem_of_single {A} (l : list A) x : l = [x] -> x ∈ l.
Proof. intros ->. by apply list_elem_of_singleton. Qed.
Lemma answers_typed : typed_events bytes 0 replies.
Proof.
  split; [|done]. apply typed_turn_intro; [|apply sample_readable]. apply all_bytes. vm_compute. reflexivity.
Qed.

(** The witness: the sender of the exchange below, after it answered. *)
Lemma topic_plane_bounded_witness :
  length (pl_outgoing answered) = 1%nat /\ Z.of_nat (length (pl_incoming answered) + length (pl_outgoing answered)) <= 8.
Proof.
  split; [vm_compute; reflexivity|].
  refine (proj1 (topic_plane_bounded (topic_config 1 true) bytes 0 replies 71 0 0 [] _ (fun bs H => H) answers_typed)). vm_compute. discriminate.
Defined.

Lemma heard_typed (network : list Z -> Prop) : (forall bs, bytes bs -> bs ∈ wire_bytes answered -> network bs) -> typed_events network 0 hears.
Proof.
  intros Hn. split; [apply typed_turn_intro; [constructor|apply not_read]|]. split; [|done]. apply typed_turn_intro; [|apply not_read].
  assert (H : Forall network (wire_bytes answered)).
  { eapply Forall_impl; [apply Forall_self, all_bytes; vm_compute; reflexivity|]. intros bs [H1 H2]. by apply Hn. }
  by apply Forall_app.
Qed.
(** The witness: the sample of host 1 is published once on host 2, in the packed layout. *)
Lemma topic_route_integrity_witness :
  exists d, pl_delivered heard = [d] /\ dp_bytes (dv_value d) = sample_wire /\
  exists entry v, sample_of (topic_config 1 true) (pl_reads answered) (dv_packet d) entry v.
Proof.
  destruct (pl_delivered heard) as [|d [|]] eqn:Hd; try (vm_compute in Hd; discriminate Hd). exists d. split; [reflexivity|]. split.
  { assert (H : map (fun d => dp_bytes (dv_value d)) (pl_delivered heard) = [sample_wire]) by (vm_compute; reflexivity). rewrite Hd in H. by injection H. }
  destruct (topic_route_integrity (topic_config 1 true) (topic_config 2 false) bytes 0 0 replies hears 71 72 0 0 0 0 [] []) as [H _];
    [vm_compute; discriminate|vm_compute; discriminate|exact (fun bs H => H)|exact answers_typed|apply heard_typed; intros bs H1 H2; split; [exact H1|intros _ _ _; exact H2]|].
  destruct (H d) as (entry & v & Hs & _); [exact (elem_of_single _ _ Hd)|]. exists entry, v. exact Hs.
Defined.

(** The witness: three visits at 1000, 1003 and 1012 ms with a period of 10 ms. *)
Definition visit_at (ms : Z) : TransmitEnv := tu_transmit (topic_turn (ms * millisecond) false (topic_peer 2 EndpointRole.CONSUMER) provider_entry [] 2 (Ok sample_value)).
Definition sample_route : Outgoing :=
  new_outgoing (set_sequences 0 0 {| tp_kind := TopicMessage.INTEREST; tp_source := sample_endpoint 1; tp_destination := sample_endpoint 2; tp_source_session := 71;
    tp_destination_session := 72; tp_route_id := 1; tp_sequence := 0; tp_sample_sequence := 0; tp_type := topic_type; tp_name := sample_name; tp_payload := [] |})
    provider_entry (topic_peer 2 EndpointRole.CONSUMER) 37652 false 0 (2000 * millisecond).
Lemma topic_rate_limit_witness :
  let (o', s') := visit_route (topic_config 1 true) [visit_at 1000; visit_at 1003; visit_at 1012] sample_route (started_plane 71 0 0 []) in
  og_next o' = 1020 * millisecond /\ length (pl_wire s') = 1%nat /\
  (Z.of_nat (length (pl_wire s')) - Z.of_nat (length (pl_wire (started_plane 71 0 0 []))) - 1) * (10 * millisecond) <= 1012 * millisecond - 1000 * millisecond.
Proof.
  pose proof (topic_rate_limit (topic_config 1 true) [visit_at 1000; visit_at 1003; visit_at 1012] sample_route (started_plane 71 0 0 [])
    (1000 * millisecond) (1012 * millisecond) ltac:(vm_compute; reflexivity) ltac:(vm_compute; reflexivity)
    ltac:(repeat split; vm_compute; discriminate) ltac:(reflexivity)) as H.
  assert (H2 : let (o', s') := visit_route (topic_config 1 true) [visit_at 1000; visit_at 1003; visit_at 1012] sample_route (started_plane 71 0 0 []) in
    og_next o' = 1020 * millisecond /\ length (pl_wire s') = 1%nat) by (vm_compute; split; reflexivity).
  destruct (visit_route _ _ _ _) as [o' s']. destruct H2 as [H2 H3]. split; [exact H2|]. split; [exact H3|]. exact (proj1 H).
Defined.
