(* ===== verification/ControlNode.v ===== *)
(** * The control node: the thread that serves the connections

    [ControlNode] of [kcf/src/network/control_node.cpp], the part that the [IO] thread runs:
    the batches of requests that the application submits, the connections to other gateways
    and from observers, the admission of their requests, the replies.  [ControlBackend] has
    the thread and the workers that execute the requests.

    [Node] is the state.  The vectors and queues are lists; a [std::shared_ptr] to a batch or
    to an action session is its index in [nd_batches] or [nd_actions]; [std::promise] keeps
    the list of what was set ([bt_fulfilled]).  A turn of the loop is one step: the other
    threads touch only the submissions, jobs, replies, local endpoints, incoming goals and the
    two sets of connections, each under the mutex.  Times are nanoseconds.  The peers, the
    clock and what the kernel answers are arguments.  [nd_admitted] and [nd_requests] log the
    requests that were received and those that were queued, [cx_frames] the frames
    of a connection and [cx_wire] the bytes that the kernel took.  Allocation failure is not modelled. *)
From S2P Require Import Prelude Wire NetTypes NetWire Compatibility DiscoveryProtocol TypeDescriptor NetworkDiagnostics ControlFrame PeerDiscovery RemoteAction.

Definition MAX_PENDING : Z := 256.
Definition MAX_CONNECTIONS : Z := 64.
Definition MAX_QUEUE_BYTES : Z := 256 * 1024.
Definition MAX_DIAGNOSTICS_CONNECTIONS : Z := 8.
Definition MAX_DIAGNOSTICS_JOBS : Z := 8.
Definition MAX_DIAGNOSTICS_QUEUE_BYTES : Z := 32 * 1024.
Definition MAX_DIAGNOSTICS_FRAMES : Z := 16.

(** ** Small functions *)
(** [a.bytes < b.bytes] of [std::array]: lexicographic. *)
Fixpoint Lower (a b : HostIdentity) : bool :=
  match a, b with
  | x :: a, y :: b => if x =? y then Lower a b else x <? y
  | [], _ :: _ => true
  | _, [] => false
  end.
Definition Select (t : RemoteTarget) (e : NetworkEndpointMetadata) : bool :=
  let s := tg_scope t in
  if s =? TargetScope.ENDPOINT then tg_endpoint t =?? md_identity e
  else if s =? TargetScope.HOST then tg_host t =?? rt_host (ep_runtime (md_identity e))
  else if s =? TargetScope.APPLICATION then tg_application t =?? md_application e
  else if s =? TargetScope.GROUP then existsb (fun g => g =?? tg_group t) (md_groups e)
  else s =? TargetScope.ALL.
(** ["network_control"] *)
Definition control_element : list Z := [110; 101; 116; 119; 111; 114; 107; 95; 99; 111; 110; 116; 114; 111; 108].
Definition ControlConsumer (source : RemoteRuntimeIdentity) (name : list Z) (type response feedback : TypeIdentity) : NetworkEndpointMetadata :=
  let plain := response =?? no_type in
  {| md_protocol_version := PROTOCOL_VERSION; md_identity := {| ep_runtime := source; ep_registration_id := 1 |}; md_application := no_runtime;
     md_host_name := []; md_application_name := []; md_element_name := control_element; md_name := name; md_groups := [];
     md_kind := if negb (feedback =?? no_type) then EndpointKind.ACTION else if plain then EndpointKind.PARAMETER else EndpointKind.SERVICE;
     md_role := EndpointRole.CONSUMER; md_scope := NetworkScope.REMOTE; md_value_type := if plain then type else no_type;
     md_request_type := if plain then no_type else type; md_response_type := response; md_feedback_type := feedback |}.
Definition IsRequest (op : Z) : bool :=
  (op =? ControlMessage.DESCRIPTOR_REQUEST) || (op =? ControlMessage.PARAM_GET_REQUEST) || (op =? ControlMessage.PARAM_SET_REQUEST) ||
  (op =? ControlMessage.SERVICE_REQUEST) || (op =? ControlMessage.ACTION_GOAL_REQUEST) || (op =? ControlMessage.ACTION_CANCEL_REQUEST).
Definition ResponseOperation (op : Z) : Z :=
  if op =? ControlMessage.DESCRIPTOR_REQUEST then ControlMessage.DESCRIPTOR_RESPONSE
  else if op =? ControlMessage.ACTION_GOAL_REQUEST then ControlMessage.ACTION_GOAL_RESPONSE
  else if op =? ControlMessage.ACTION_CANCEL_REQUEST then ControlMessage.ACTION_CANCEL_RESPONSE
  else if op =? ControlMessage.SERVICE_REQUEST then ControlMessage.SERVICE_RESPONSE
  else if op =? ControlMessage.PARAM_GET_REQUEST then ControlMessage.PARAM_GET_RESPONSE
  else ControlMessage.PARAM_SET_RESPONSE.
Definition ReasonError (r : Z) : Z :=
  if r =? CompatibilityReason.TYPE_MISMATCH then - EPROTOTYPE else if r =? CompatibilityReason.PEER_LOST then - ENOTCONN else - EACCES.

(** ** Frames *)
(** A frame with every other field at its default. *)
Definition blank_frame (self : RemoteRuntimeIdentity) (session : Z) : ControlFrame :=
  {| cf_operation := ControlMessage.HELLO; cf_source := self; cf_session_id := session; cf_request_id := 0; cf_endpoint := no_endpoint;
     cf_target := TargetScope.ENDPOINT; cf_name := []; cf_type := no_type; cf_response_type := no_type; cf_feedback_type := no_type; cf_goal := no_goal;
     cf_action_state := WireActionState.IDLE; cf_outcome_unknown := false; cf_feedback_sequence := 0; cf_timeout_ms := 0; cf_status := 0;
     cf_reason := CompatibilityReason.COMPATIBLE; cf_payload := []; cf_descriptor_role := DescriptorRole.NONE |}.
(** [response=request; response.source=self; ...; response.operation=op; response.timeout_ms=0; response.status=code] *)
Definition reply_frame (self : RemoteRuntimeIdentity) (session op code : Z) (f : ControlFrame) : ControlFrame :=
  {| cf_operation := op; cf_source := self; cf_session_id := session; cf_request_id := cf_request_id f; cf_endpoint :=
     cf_endpoint f; cf_target := cf_target f; cf_name := cf_name f; cf_type := cf_type f; cf_response_type :=
     cf_response_type f; cf_feedback_type := cf_feedback_type f; cf_goal := cf_goal f; cf_action_state :=
     cf_action_state f; cf_outcome_unknown := cf_outcome_unknown f; cf_feedback_sequence := cf_feedback_sequence f;
     cf_timeout_ms := 0; cf_status := code; cf_reason := cf_reason f; cf_payload := cf_payload f; cf_descriptor_role
     := cf_descriptor_role f |}.
Definition without_payload (f : ControlFrame) : ControlFrame :=
  {| cf_operation := cf_operation f; cf_source := cf_source f; cf_session_id := cf_session_id f; cf_request_id :=
     cf_request_id f; cf_endpoint := cf_endpoint f; cf_target := cf_target f; cf_name := cf_name f; cf_type := cf_type
     f; cf_response_type := cf_response_type f; cf_feedback_type := cf_feedback_type f; cf_goal := cf_goal f;
     cf_action_state := cf_action_state f; cf_outcome_unknown := cf_outcome_unknown f; cf_feedback_sequence :=
     cf_feedback_sequence f; cf_timeout_ms := cf_timeout_ms f; cf_status := cf_status f; cf_reason := cf_reason f;
     cf_payload := []; cf_descriptor_role := cf_descriptor_role f |}.
Definition frame_payload (payload : list Z) (f : ControlFrame) : ControlFrame :=
  {| cf_operation := cf_operation f; cf_source := cf_source f; cf_session_id := cf_session_id f; cf_request_id :=
     cf_request_id f; cf_endpoint := cf_endpoint f; cf_target := cf_target f; cf_name := cf_name f; cf_type := cf_type
     f; cf_response_type := cf_response_type f; cf_feedback_type := cf_feedback_type f; cf_goal := cf_goal f;
     cf_action_state := cf_action_state f; cf_outcome_unknown := cf_outcome_unknown f; cf_feedback_sequence :=
     cf_feedback_sequence f; cf_timeout_ms := cf_timeout_ms f; cf_status := cf_status f; cf_reason := cf_reason f;
     cf_payload := payload; cf_descriptor_role := cf_descriptor_role f |}.
Definition frame_state (state : Z) (f : ControlFrame) : ControlFrame :=
  {| cf_operation := cf_operation f; cf_source := cf_source f; cf_session_id := cf_session_id f; cf_request_id :=
     cf_request_id f; cf_endpoint := cf_endpoint f; cf_target := cf_target f; cf_name := cf_name f; cf_type := cf_type
     f; cf_response_type := cf_response_type f; cf_feedback_type := cf_feedback_type f; cf_goal := cf_goal f;
     cf_action_state := state; cf_outcome_unknown := cf_outcome_unknown f; cf_feedback_sequence :=
     cf_feedback_sequence f; cf_timeout_ms := cf_timeout_ms f; cf_status := cf_status f; cf_reason := cf_reason f;
     cf_payload := cf_payload f; cf_descriptor_role := cf_descriptor_role f |}.
Definition frame_reason (reason : Z) (f : ControlFrame) : ControlFrame :=
  {| cf_operation := cf_operation f; cf_source := cf_source f; cf_session_id := cf_session_id f; cf_request_id :=
     cf_request_id f; cf_endpoint := cf_endpoint f; cf_target := cf_target f; cf_name := cf_name f; cf_type := cf_type
     f; cf_response_type := cf_response_type f; cf_feedback_type := cf_feedback_type f; cf_goal := cf_goal f;
     cf_action_state := cf_action_state f; cf_outcome_unknown := cf_outcome_unknown f; cf_feedback_sequence :=
     cf_feedback_sequence f; cf_timeout_ms := cf_timeout_ms f; cf_status := cf_status f; cf_reason := reason;
     cf_payload := cf_payload f; cf_descriptor_role := cf_descriptor_role f |}.
Definition frame_unknown (unknown : bool) (f : ControlFrame) : ControlFrame :=
  {| cf_operation := cf_operation f; cf_source := cf_source f; cf_session_id := cf_session_id f; cf_request_id :=
     cf_request_id f; cf_endpoint := cf_endpoint f; cf_target := cf_target f; cf_name := cf_name f; cf_type := cf_type
     f; cf_response_type := cf_response_type f; cf_feedback_type := cf_feedback_type f; cf_goal := cf_goal f;
     cf_action_state := cf_action_state f; cf_outcome_unknown := unknown; cf_feedback_sequence := cf_feedback_sequence
     f; cf_timeout_ms := cf_timeout_ms f; cf_status := cf_status f; cf_reason := cf_reason f; cf_payload := cf_payload
     f; cf_descriptor_role := cf_descriptor_role f |}.
Definition frame_timeout (ms : Z) (f : ControlFrame) : ControlFrame :=
  {| cf_operation := cf_operation f; cf_source := cf_source f; cf_session_id := cf_session_id f; cf_request_id :=
     cf_request_id f; cf_endpoint := cf_endpoint f; cf_target := cf_target f; cf_name := cf_name f; cf_type := cf_type
     f; cf_response_type := cf_response_type f; cf_feedback_type := cf_feedback_type f; cf_goal := cf_goal f;
     cf_action_state := cf_action_state f; cf_outcome_unknown := cf_outcome_unknown f; cf_feedback_sequence :=
     cf_feedback_sequence f; cf_timeout_ms := ms; cf_status := cf_status f; cf_reason := cf_reason f; cf_payload :=
     cf_payload f; cf_descriptor_role := cf_descriptor_role f |}.

(** ** The replay window of a client *)
(** [std::bitset<256>] as the integer of its bits. *)
Record Window := { wn_high : Z; wn_bits : Z }.
Definition new_window : Window := {| wn_high := 0; wn_bits := 0 |}.
Definition AdmitId (w : Window) (id : Z) : bool * Window :=
  let w := if wn_high w <? id then
             let delta := id - wn_high w in
             {| wn_high := id; wn_bits := if 256 <=? delta then 0 else Z.land (Z.shiftl (wn_bits w) delta) (Z.ones 256) |}
           else w in
  let offset := wn_high w - id in
  if (256 <=? offset) || Z.testbit (wn_bits w) offset then (false, w)
  else (true, {| wn_high := wn_high w; wn_bits := Z.setbit (wn_bits w) offset |}).

(** ** Data *)
(** [ParameterEndpointResult], [Impl::Batch] with its promise, [Impl::Pending]. *)
Record EndpointResult := {
  er_endpoint : RemoteEndpointIdentity; er_error : Z; er_reason : Z; er_value : list Z; er_action : option nat; er_cancel_unknown : bool;
  er_execution_unknown : bool
}.
Definition new_result (endpoint : RemoteEndpointIdentity) (action : option nat) : EndpointResult :=
  {| er_endpoint := endpoint; er_error := 0; er_reason := CompatibilityReason.COMPATIBLE; er_value := []; er_action := action;
     er_cancel_unknown := false; er_execution_unknown := false |}.
Record Batch := {
  bt_target : RemoteTarget;
  bt_name : list Z;
  bt_type : TypeIdentity;
  bt_response_type : TypeIdentity;
  bt_feedback_type : TypeIdentity;
  bt_cancel : option nat;
  bt_value : list Z;
  bt_set : bool;
  bt_service : bool;
  bt_action : bool;
  bt_deadline : Z;
  bt_error : Z;
  bt_endpoints : list EndpointResult;
  bt_left : Z;
  bt_fulfilled : list (Z * list EndpointResult)
}.
Definition fail_batch (code : Z) (b : Batch) : Batch :=
  {| bt_target := bt_target b; bt_name := bt_name b; bt_type := bt_type b; bt_response_type := bt_response_type b;
     bt_feedback_type := bt_feedback_type b; bt_cancel := bt_cancel b; bt_value := bt_value b; bt_set := bt_set b;
     bt_service := bt_service b; bt_action := bt_action b; bt_deadline := bt_deadline b; bt_error := code;
     bt_endpoints := bt_endpoints b; bt_left := bt_left b; bt_fulfilled := bt_fulfilled b ++ [(code, bt_endpoints b)] |}.
Definition expand_batch (l : list EndpointResult) (b : Batch) : Batch :=
  {| bt_target := bt_target b; bt_name := bt_name b; bt_type := bt_type b; bt_response_type := bt_response_type b;
     bt_feedback_type := bt_feedback_type b; bt_cancel := bt_cancel b; bt_value := bt_value b; bt_set := bt_set b;
     bt_service := bt_service b; bt_action := bt_action b; bt_deadline := bt_deadline b; bt_error := bt_error b;
     bt_endpoints := l; bt_left := Z.of_nat (length l); bt_fulfilled := bt_fulfilled b |}.
(** The result at place [i] is set, and the promise when it was the last one. *)
Definition settle_batch (i : nat) (r : EndpointResult) (b : Batch) : Batch :=
  {| bt_target := bt_target b; bt_name := bt_name b; bt_type := bt_type b; bt_response_type := bt_response_type b;
     bt_feedback_type := bt_feedback_type b; bt_cancel := bt_cancel b; bt_value := bt_value b; bt_set := bt_set b;
     bt_service := bt_service b; bt_action := bt_action b; bt_deadline := bt_deadline b; bt_error := bt_error b;
     bt_endpoints := <[i := r]> (bt_endpoints b); bt_left := u64 (bt_left b - 1); bt_fulfilled := if u64 (bt_left b -
     1) =? 0 then bt_fulfilled b ++ [(bt_error b, <[i := r]> (bt_endpoints b))] else bt_fulfilled b |}.

Record Pending := {
  pe_batch : nat;
  pe_index : nat;
  pe_frame : ControlFrame;
  pe_sent : bool;
  pe_connection : Z
}.
Definition pending_sent (ms connection : Z) (p : Pending) : Pending :=
  {| pe_batch := pe_batch p; pe_index := pe_index p; pe_frame := frame_timeout ms (pe_frame p); pe_sent := true;
     pe_connection := connection |}.
Definition pending_timeout (ms : Z) (p : Pending) : Pending :=
  {| pe_batch := pe_batch p; pe_index := pe_index p; pe_frame := frame_timeout ms (pe_frame p); pe_sent := pe_sent p;
     pe_connection := pe_connection p |}.

Record Connection := {
  cx_id : Z;
  cx_connecting : bool;
  cx_ready : bool;
  cx_outbound : bool;
  cx_hello_sent : bool;
  cx_host : HostIdentity;
  cx_session : Z;
  cx_address : list Z;
  cx_deadline : Z;
  cx_diagnostics_only : bool;
  cx_diagnostics_pending : bool;
  cx_observer_source : RemoteRuntimeIdentity;
  cx_input : list Z;
  cx_output : list (list Z);
  cx_offset : Z;
  cx_queued : Z;
  cx_wire : list Z;
  cx_frames : list ControlFrame
}.
Definition cx_enqueue (f : ControlFrame) (bytes : list Z) (c : Connection) : Connection :=
  {| cx_id := cx_id c; cx_connecting := cx_connecting c; cx_ready := cx_ready c; cx_outbound := cx_outbound c;
     cx_hello_sent := cx_hello_sent c; cx_host := cx_host c; cx_session := cx_session c; cx_address := cx_address c;
     cx_deadline := cx_deadline c; cx_diagnostics_only := cx_diagnostics_only c; cx_diagnostics_pending :=
     cx_diagnostics_pending c; cx_observer_source := cx_observer_source c; cx_input := cx_input c; cx_output :=
     cx_output c ++ [bytes]; cx_offset := cx_offset c; cx_queued := cx_queued c + vsize bytes; cx_wire := cx_wire c;
     cx_frames := cx_frames c ++ [f] |}.
Definition cx_hello (sent : bool) (c : Connection) : Connection :=
  {| cx_id := cx_id c; cx_connecting := cx_connecting c; cx_ready := cx_ready c; cx_outbound := cx_outbound c;
     cx_hello_sent := sent; cx_host := cx_host c; cx_session := cx_session c; cx_address := cx_address c; cx_deadline
     := cx_deadline c; cx_diagnostics_only := cx_diagnostics_only c; cx_diagnostics_pending := cx_diagnostics_pending
     c; cx_observer_source := cx_observer_source c; cx_input := cx_input c; cx_output := cx_output c; cx_offset :=
     cx_offset c; cx_queued := cx_queued c; cx_wire := cx_wire c; cx_frames := cx_frames c |}.
Definition cx_set_input (bytes : list Z) (c : Connection) : Connection :=
  {| cx_id := cx_id c; cx_connecting := cx_connecting c; cx_ready := cx_ready c; cx_outbound := cx_outbound c;
     cx_hello_sent := cx_hello_sent c; cx_host := cx_host c; cx_session := cx_session c; cx_address := cx_address c;
     cx_deadline := cx_deadline c; cx_diagnostics_only := cx_diagnostics_only c; cx_diagnostics_pending :=
     cx_diagnostics_pending c; cx_observer_source := cx_observer_source c; cx_input := bytes; cx_output := cx_output
     c; cx_offset := cx_offset c; cx_queued := cx_queued c; cx_wire := cx_wire c; cx_frames := cx_frames c |}.
Definition cx_observe (observer : bool) (source : RemoteRuntimeIdentity) (c : Connection) : Connection :=
  {| cx_id := cx_id c; cx_connecting := cx_connecting c; cx_ready := cx_ready c; cx_outbound := cx_outbound c;
     cx_hello_sent := cx_hello_sent c; cx_host := cx_host c; cx_session := cx_session c; cx_address := cx_address c;
     cx_deadline := cx_deadline c; cx_diagnostics_only := observer; cx_diagnostics_pending := cx_diagnostics_pending
     c; cx_observer_source := source; cx_input := cx_input c; cx_output := cx_output c; cx_offset := cx_offset c;
     cx_queued := cx_queued c; cx_wire := cx_wire c; cx_frames := cx_frames c |}.
Definition cx_identify (host : HostIdentity) (session : Z) (c : Connection) : Connection :=
  {| cx_id := cx_id c; cx_connecting := cx_connecting c; cx_ready := cx_ready c; cx_outbound := cx_outbound c;
     cx_hello_sent := cx_hello_sent c; cx_host := host; cx_session := session; cx_address := cx_address c; cx_deadline
     := cx_deadline c; cx_diagnostics_only := cx_diagnostics_only c; cx_diagnostics_pending := cx_diagnostics_pending
     c; cx_observer_source := cx_observer_source c; cx_input := cx_input c; cx_output := cx_output c; cx_offset :=
     cx_offset c; cx_queued := cx_queued c; cx_wire := cx_wire c; cx_frames := cx_frames c |}.
Definition cx_set_ready (c : Connection) : Connection :=
  {| cx_id := cx_id c; cx_connecting := cx_connecting c; cx_ready := true; cx_outbound := cx_outbound c; cx_hello_sent
     := cx_hello_sent c; cx_host := cx_host c; cx_session := cx_session c; cx_address := cx_address c; cx_deadline :=
     cx_deadline c; cx_diagnostics_only := cx_diagnostics_only c; cx_diagnostics_pending := cx_diagnostics_pending c;
     cx_observer_source := cx_observer_source c; cx_input := cx_input c; cx_output := cx_output c; cx_offset :=
     cx_offset c; cx_queued := cx_queued c; cx_wire := cx_wire c; cx_frames := cx_frames c |}.
Definition cx_connected (c : Connection) : Connection :=
  {| cx_id := cx_id c; cx_connecting := false; cx_ready := cx_ready c; cx_outbound := cx_outbound c; cx_hello_sent :=
     cx_hello_sent c; cx_host := cx_host c; cx_session := cx_session c; cx_address := cx_address c; cx_deadline :=
     cx_deadline c; cx_diagnostics_only := cx_diagnostics_only c; cx_diagnostics_pending := cx_diagnostics_pending c;
     cx_observer_source := cx_observer_source c; cx_input := cx_input c; cx_output := cx_output c; cx_offset :=
     cx_offset c; cx_queued := cx_queued c; cx_wire := cx_wire c; cx_frames := cx_frames c |}.
Definition cx_set_pending (pending : bool) (c : Connection) : Connection :=
  {| cx_id := cx_id c; cx_connecting := cx_connecting c; cx_ready := cx_ready c; cx_outbound := cx_outbound c;
     cx_hello_sent := cx_hello_sent c; cx_host := cx_host c; cx_session := cx_session c; cx_address := cx_address c;
     cx_deadline := cx_deadline c; cx_diagnostics_only := cx_diagnostics_only c; cx_diagnostics_pending := pending;
     cx_observer_source := cx_observer_source c; cx_input := cx_input c; cx_output := cx_output c; cx_offset :=
     cx_offset c; cx_queued := cx_queued c; cx_wire := cx_wire c; cx_frames := cx_frames c |}.
(** [n] bytes of the first buffer were sent. *)
Definition cx_advance (n : Z) (done : bool) (c : Connection) : Connection :=
  {| cx_id := cx_id c; cx_connecting := cx_connecting c; cx_ready := cx_ready c; cx_outbound := cx_outbound c;
     cx_hello_sent := cx_hello_sent c; cx_host := cx_host c; cx_session := cx_session c; cx_address := cx_address c;
     cx_deadline := cx_deadline c; cx_diagnostics_only := cx_diagnostics_only c; cx_diagnostics_pending :=
     cx_diagnostics_pending c; cx_observer_source := cx_observer_source c; cx_input := cx_input c; cx_output := if
     done then tl (cx_output c) else cx_output c; cx_offset := if done then 0 else cx_offset c + n; cx_queued :=
     cx_queued c - n; cx_wire := cx_wire c ++ take (Z.to_nat n) (drop (Z.to_nat (cx_offset c)) (hd [] (cx_output c)));
     cx_frames := cx_frames c |}.
Definition new_connection (id : Z) (outbound connecting : bool) (host : HostIdentity) (session : Z) (address : list Z) (deadline : Z) : Connection :=
  {| cx_id := id; cx_connecting := connecting; cx_ready := false; cx_outbound := outbound; cx_hello_sent := false; cx_host := host; cx_session := session;
     cx_address := address; cx_deadline := deadline; cx_diagnostics_only := false; cx_diagnostics_pending := false; cx_observer_source := no_runtime;
     cx_input := []; cx_output := []; cx_offset := 0; cx_queued := 0; cx_wire := []; cx_frames := [] |}.

Record Job := { jb_connection : Z; jb_frame : ControlFrame; jb_deadline : Z }.
Record NodeReply := { rp_connection : Z; rp_frame : ControlFrame }.
Record Seen := { se_host : HostIdentity; se_session : Z; se_last : Z; se_last_goal : Z }.
Record DiagnosticsSeen := { ds_host : HostIdentity; ds_boot : HostIdentity; ds_session : Z; ds_last : Z; ds_next : Z }.
Record ClientSeen := { cs_host : HostIdentity; cs_boot : HostIdentity; cs_session : Z; cs_requests : Window; cs_goals : Window }.
(** [RemoteActionSession]: its snapshot and the goal request. *)
Record ActionSession := { as_snapshot : RemoteActionSnapshot; as_request : ControlFrame }.
(** [Impl::Outgoing]: a goal whose feedback and result are expected. *)
Record OutgoingGoal := { go_action : nat; go_connection : Z }.
(** A request that was looked up in the records: through which kind of connection it came, from
    which session, and whether it became a job. *)
Record Admission := { ad_observer : bool; ad_host : HostIdentity; ad_session : Z; ad_frame : ControlFrame; ad_accepted : bool }.

Record Node := {
  nd_self : RemoteRuntimeIdentity;
  nd_session : Z;
  nd_running : bool;
  nd_error : Z;
  nd_batches : list Batch;
  nd_actions : list ActionSession;
  nd_submissions : list nat;
  nd_jobs : list Job;
  nd_replies : list NodeReply;
  nd_live : list Z;
  nd_abort : list Z;
  nd_pending : list Pending;
  nd_connections : list Connection;
  nd_seen : list Seen;
  nd_client_seen : list ClientSeen;
  nd_diagnostics_jobs : list Job;
  nd_diagnostics_seen : list DiagnosticsSeen;
  nd_observer_seen : list DiagnosticsSeen;
  nd_next_diagnostics : Z;
  nd_outgoing : list OutgoingGoal;
  nd_next_request : Z;
  nd_next_connection : Z;
  nd_next_goal : Z;
  nd_connected : Z;
  nd_sent : Z;
  nd_ignored : Z;
  nd_rejected : Z;
  nd_admitted : list Admission;
  nd_requests : list (Z * ControlFrame);
  nd_drawn : Z
}.
Definition nd_set_batches (l : list Batch) (s : Node) : Node :=
  {| nd_self := nd_self s; nd_session := nd_session s; nd_running := nd_running s; nd_error := nd_error s; nd_batches
     := l; nd_actions := nd_actions s; nd_submissions := nd_submissions s; nd_jobs := nd_jobs s; nd_replies :=
     nd_replies s; nd_live := nd_live s; nd_abort := nd_abort s; nd_pending := nd_pending s; nd_connections :=
     nd_connections s; nd_seen := nd_seen s; nd_client_seen := nd_client_seen s; nd_diagnostics_jobs :=
     nd_diagnostics_jobs s; nd_diagnostics_seen := nd_diagnostics_seen s; nd_observer_seen := nd_observer_seen s;
     nd_next_diagnostics := nd_next_diagnostics s; nd_outgoing := nd_outgoing s; nd_next_request := nd_next_request s;
     nd_next_connection := nd_next_connection s; nd_next_goal := nd_next_goal s; nd_connected := nd_connected s;
     nd_sent := nd_sent s; nd_ignored := nd_ignored s; nd_rejected := nd_rejected s; nd_admitted := nd_admitted s;
     nd_requests := nd_requests s; nd_drawn := nd_drawn s |}.
Definition nd_set_actions (l : list ActionSession) (s : Node) : Node :=
  {| nd_self := nd_self s; nd_session := nd_session s; nd_running := nd_running s; nd_error := nd_error s; nd_batches
     := nd_batches s; nd_actions := l; nd_submissions := nd_submissions s; nd_jobs := nd_jobs s; nd_replies :=
     nd_replies s; nd_live := nd_live s; nd_abort := nd_abort s; nd_pending := nd_pending s; nd_connections :=
     nd_connections s; nd_seen := nd_seen s; nd_client_seen := nd_client_seen s; nd_diagnostics_jobs :=
     nd_diagnostics_jobs s; nd_diagnostics_seen := nd_diagnostics_seen s; nd_observer_seen := nd_observer_seen s;
     nd_next_diagnostics := nd_next_diagnostics s; nd_outgoing := nd_outgoing s; nd_next_request := nd_next_request s;
     nd_next_connection := nd_next_connection s; nd_next_goal := nd_next_goal s; nd_connected := nd_connected s;
     nd_sent := nd_sent s; nd_ignored := nd_ignored s; nd_rejected := nd_rejected s; nd_admitted := nd_admitted s;
     nd_requests := nd_requests s; nd_drawn := nd_drawn s |}.
Definition nd_set_submissions (l : list nat) (s : Node) : Node :=
  {| nd_self := nd_self s; nd_session := nd_session s; nd_running := nd_running s; nd_error := nd_error s; nd_batches
     := nd_batches s; nd_actions := nd_actions s; nd_submissions := l; nd_jobs := nd_jobs s; nd_replies := nd_replies
     s; nd_live := nd_live s; nd_abort := nd_abort s; nd_pending := nd_pending s; nd_connections := nd_connections s;
     nd_seen := nd_seen s; nd_client_seen := nd_client_seen s; nd_diagnostics_jobs := nd_diagnostics_jobs s;
     nd_diagnostics_seen := nd_diagnostics_seen s; nd_observer_seen := nd_observer_seen s; nd_next_diagnostics :=
     nd_next_diagnostics s; nd_outgoing := nd_outgoing s; nd_next_request := nd_next_request s; nd_next_connection :=
     nd_next_connection s; nd_next_goal := nd_next_goal s; nd_connected := nd_connected s; nd_sent := nd_sent s;
     nd_ignored := nd_ignored s; nd_rejected := nd_rejected s; nd_admitted := nd_admitted s; nd_requests :=
     nd_requests s; nd_drawn := nd_drawn s |}.
Definition nd_set_jobs (l : list Job) (s : Node) : Node :=
  {| nd_self := nd_self s; nd_session := nd_session s; nd_running := nd_running s; nd_error := nd_error s; nd_batches
     := nd_batches s; nd_actions := nd_actions s; nd_submissions := nd_submissions s; nd_jobs := l; nd_replies :=
     nd_replies s; nd_live := nd_live s; nd_abort := nd_abort s; nd_pending := nd_pending s; nd_connections :=
     nd_connections s; nd_seen := nd_seen s; nd_client_seen := nd_client_seen s; nd_diagnostics_jobs :=
     nd_diagnostics_jobs s; nd_diagnostics_seen := nd_diagnostics_seen s; nd_observer_seen := nd_observer_seen s;
     nd_next_diagnostics := nd_next_diagnostics s; nd_outgoing := nd_outgoing s; nd_next_request := nd_next_request s;
     nd_next_connection := nd_next_connection s; nd_next_goal := nd_next_goal s; nd_connected := nd_connected s;
     nd_sent := nd_sent s; nd_ignored := nd_ignored s; nd_rejected := nd_rejected s; nd_admitted := nd_admitted s;
     nd_requests := nd_requests s; nd_drawn := nd_drawn s |}.
Definition nd_set_replies (l : list NodeReply) (s : Node) : Node :=
  {| nd_self := nd_self s; nd_session := nd_session s; nd_running := nd_running s; nd_error := nd_error s; nd_batches
     := nd_batches s; nd_actions := nd_actions s; nd_submissions := nd_submissions s; nd_jobs := nd_jobs s; nd_replies
     := l; nd_live := nd_live s; nd_abort := nd_abort s; nd_pending := nd_pending s; nd_connections := nd_connections
     s; nd_seen := nd_seen s; nd_client_seen := nd_client_seen s; nd_diagnostics_jobs := nd_diagnostics_jobs s;
     nd_diagnostics_seen := nd_diagnostics_seen s; nd_observer_seen := nd_observer_seen s; nd_next_diagnostics :=
     nd_next_diagnostics s; nd_outgoing := nd_outgoing s; nd_next_request := nd_next_request s; nd_next_connection :=
     nd_next_connection s; nd_next_goal := nd_next_goal s; nd_connected := nd_connected s; nd_sent := nd_sent s;
     nd_ignored := nd_ignored s; nd_rejected := nd_rejected s; nd_admitted := nd_admitted s; nd_requests :=
     nd_requests s; nd_drawn := nd_drawn s |}.
Definition nd_set_live (l : list Z) (s : Node) : Node :=
  {| nd_self := nd_self s; nd_session := nd_session s; nd_running := nd_running s; nd_error := nd_error s; nd_batches
     := nd_batches s; nd_actions := nd_actions s; nd_submissions := nd_submissions s; nd_jobs := nd_jobs s; nd_replies
     := nd_replies s; nd_live := l; nd_abort := nd_abort s; nd_pending := nd_pending s; nd_connections :=
     nd_connections s; nd_seen := nd_seen s; nd_client_seen := nd_client_seen s; nd_diagnostics_jobs :=
     nd_diagnostics_jobs s; nd_diagnostics_seen := nd_diagnostics_seen s; nd_observer_seen := nd_observer_seen s;
     nd_next_diagnostics := nd_next_diagnostics s; nd_outgoing := nd_outgoing s; nd_next_request := nd_next_request s;
     nd_next_connection := nd_next_connection s; nd_next_goal := nd_next_goal s; nd_connected := nd_connected s;
     nd_sent := nd_sent s; nd_ignored := nd_ignored s; nd_rejected := nd_rejected s; nd_admitted := nd_admitted s;
     nd_requests := nd_requests s; nd_drawn := nd_drawn s |}.
Definition nd_set_abort (l : list Z) (s : Node) : Node :=
  {| nd_self := nd_self s; nd_session := nd_session s; nd_running := nd_running s; nd_error := nd_error s; nd_batches
     := nd_batches s; nd_actions := nd_actions s; nd_submissions := nd_submissions s; nd_jobs := nd_jobs s; nd_replies
     := nd_replies s; nd_live := nd_live s; nd_abort := l; nd_pending := nd_pending s; nd_connections :=
     nd_connections s; nd_seen := nd_seen s; nd_client_seen := nd_client_seen s; nd_diagnostics_jobs :=
     nd_diagnostics_jobs s; nd_diagnostics_seen := nd_diagnostics_seen s; nd_observer_seen := nd_observer_seen s;
     nd_next_diagnostics := nd_next_diagnostics s; nd_outgoing := nd_outgoing s; nd_next_request := nd_next_request s;
     nd_next_connection := nd_next_connection s; nd_next_goal := nd_next_goal s; nd_connected := nd_connected s;
     nd_sent := nd_sent s; nd_ignored := nd_ignored s; nd_rejected := nd_rejected s; nd_admitted := nd_admitted s;
     nd_requests := nd_requests s; nd_drawn := nd_drawn s |}.
Definition nd_set_pending (l : list Pending) (s : Node) : Node :=
  {| nd_self := nd_self s; nd_session := nd_session s; nd_running := nd_running s; nd_error := nd_error s; nd_batches
     := nd_batches s; nd_actions := nd_actions s; nd_submissions := nd_submissions s; nd_jobs := nd_jobs s; nd_replies
     := nd_replies s; nd_live := nd_live s; nd_abort := nd_abort s; nd_pending := l; nd_connections := nd_connections
     s; nd_seen := nd_seen s; nd_client_seen := nd_client_seen s; nd_diagnostics_jobs := nd_diagnostics_jobs s;
     nd_diagnostics_seen := nd_diagnostics_seen s; nd_observer_seen := nd_observer_seen s; nd_next_diagnostics :=
     nd_next_diagnostics s; nd_outgoing := nd_outgoing s; nd_next_request := nd_next_request s; nd_next_connection :=
     nd_next_connection s; nd_next_goal := nd_next_goal s; nd_connected := nd_connected s; nd_sent := nd_sent s;
     nd_ignored := nd_ignored s; nd_rejected := nd_rejected s; nd_admitted := nd_admitted s; nd_requests :=
     nd_requests s; nd_drawn := nd_drawn s |}.
Definition nd_set_connections (l : list Connection) (s : Node) : Node :=
  {| nd_self := nd_self s; nd_session := nd_session s; nd_running := nd_running s; nd_error := nd_error s; nd_batches
     := nd_batches s; nd_actions := nd_actions s; nd_submissions := nd_submissions s; nd_jobs := nd_jobs s; nd_replies
     := nd_replies s; nd_live := nd_live s; nd_abort := nd_abort s; nd_pending := nd_pending s; nd_connections := l;
     nd_seen := nd_seen s; nd_client_seen := nd_client_seen s; nd_diagnostics_jobs := nd_diagnostics_jobs s;
     nd_diagnostics_seen := nd_diagnostics_seen s; nd_observer_seen := nd_observer_seen s; nd_next_diagnostics :=
     nd_next_diagnostics s; nd_outgoing := nd_outgoing s; nd_next_request := nd_next_request s; nd_next_connection :=
     nd_next_connection s; nd_next_goal := nd_next_goal s; nd_connected := nd_connected s; nd_sent := nd_sent s;
     nd_ignored := nd_ignored s; nd_rejected := nd_rejected s; nd_admitted := nd_admitted s; nd_requests :=
     nd_requests s; nd_drawn := nd_drawn s |}.
Definition nd_set_seen (l : list Seen) (s : Node) : Node :=
  {| nd_self := nd_self s; nd_session := nd_session s; nd_running := nd_running s; nd_error := nd_error s; nd_batches
     := nd_batches s; nd_actions := nd_actions s; nd_submissions := nd_submissions s; nd_jobs := nd_jobs s; nd_replies
     := nd_replies s; nd_live := nd_live s; nd_abort := nd_abort s; nd_pending := nd_pending s; nd_connections :=
     nd_connections s; nd_seen := l; nd_client_seen := nd_client_seen s; nd_diagnostics_jobs := nd_diagnostics_jobs s;
     nd_diagnostics_seen := nd_diagnostics_seen s; nd_observer_seen := nd_observer_seen s; nd_next_diagnostics :=
     nd_next_diagnostics s; nd_outgoing := nd_outgoing s; nd_next_request := nd_next_request s; nd_next_connection :=
     nd_next_connection s; nd_next_goal := nd_next_goal s; nd_connected := nd_connected s; nd_sent := nd_sent s;
     nd_ignored := nd_ignored s; nd_rejected := nd_rejected s; nd_admitted := nd_admitted s; nd_requests :=
     nd_requests s; nd_drawn := nd_drawn s |}.
Definition nd_set_client_seen (l : list ClientSeen) (s : Node) : Node :=
  {| nd_self := nd_self s; nd_session := nd_session s; nd_running := nd_running s; nd_error := nd_error s; nd_batches
     := nd_batches s; nd_actions := nd_actions s; nd_submissions := nd_submissions s; nd_jobs := nd_jobs s; nd_replies
     := nd_replies s; nd_live := nd_live s; nd_abort := nd_abort s; nd_pending := nd_pending s; nd_connections :=
     nd_connections s; nd_seen := nd_seen s; nd_client_seen := l; nd_diagnostics_jobs := nd_diagnostics_jobs s;
     nd_diagnostics_seen := nd_diagnostics_seen s; nd_observer_seen := nd_observer_seen s; nd_next_diagnostics :=
     nd_next_diagnostics s; nd_outgoing := nd_outgoing s; nd_next_request := nd_next_request s; nd_next_connection :=
     nd_next_connection s; nd_next_goal := nd_next_goal s; nd_connected := nd_connected s; nd_sent := nd_sent s;
     nd_ignored := nd_ignored s; nd_rejected := nd_rejected s; nd_admitted := nd_admitted s; nd_requests :=
     nd_requests s; nd_drawn := nd_drawn s |}.
Definition nd_set_diagnostics_jobs (l : list Job) (s : Node) : Node :=
  {| nd_self := nd_self s; nd_session := nd_session s; nd_running := nd_running s; nd_error := nd_error s; nd_batches
     := nd_batches s; nd_actions := nd_actions s; nd_submissions := nd_submissions s; nd_jobs := nd_jobs s; nd_replies
     := nd_replies s; nd_live := nd_live s; nd_abort := nd_abort s; nd_pending := nd_pending s; nd_connections :=
     nd_connections s; nd_seen := nd_seen s; nd_client_seen := nd_client_seen s; nd_diagnostics_jobs := l;
     nd_diagnostics_seen := nd_diagnostics_seen s; nd_observer_seen := nd_observer_seen s; nd_next_diagnostics :=
     nd_next_diagnostics s; nd_outgoing := nd_outgoing s; nd_next_request := nd_next_request s; nd_next_connection :=
     nd_next_connection s; nd_next_goal := nd_next_goal s; nd_connected := nd_connected s; nd_sent := nd_sent s;
     nd_ignored := nd_ignored s; nd_rejected := nd_rejected s; nd_admitted := nd_admitted s; nd_requests :=
     nd_requests s; nd_drawn := nd_drawn s |}.
Definition nd_set_diagnostics_seen (l : list DiagnosticsSeen) (s : Node) : Node :=
  {| nd_self := nd_self s; nd_session := nd_session s; nd_running := nd_running s; nd_error := nd_error s; nd_batches
     := nd_batches s; nd_actions := nd_actions s; nd_submissions := nd_submissions s; nd_jobs := nd_jobs s; nd_replies
     := nd_replies s; nd_live := nd_live s; nd_abort := nd_abort s; nd_pending := nd_pending s; nd_connections :=
     nd_connections s; nd_seen := nd_seen s; nd_client_seen := nd_client_seen s; nd_diagnostics_jobs :=
     nd_diagnostics_jobs s; nd_diagnostics_seen := l; nd_observer_seen := nd_observer_seen s; nd_next_diagnostics :=
     nd_next_diagnostics s; nd_outgoing := nd_outgoing s; nd_next_request := nd_next_request s; nd_next_connection :=
     nd_next_connection s; nd_next_goal := nd_next_goal s; nd_connected := nd_connected s; nd_sent := nd_sent s;
     nd_ignored := nd_ignored s; nd_rejected := nd_rejected s; nd_admitted := nd_admitted s; nd_requests :=
     nd_requests s; nd_drawn := nd_drawn s |}.
Definition nd_set_observer_seen (l : list DiagnosticsSeen) (s : Node) : Node :=
  {| nd_self := nd_self s; nd_session := nd_session s; nd_running := nd_running s; nd_error := nd_error s; nd_batches
     := nd_batches s; nd_actions := nd_actions s; nd_submissions := nd_submissions s; nd_jobs := nd_jobs s; nd_replies
     := nd_replies s; nd_live := nd_live s; nd_abort := nd_abort s; nd_pending := nd_pending s; nd_connections :=
     nd_connections s; nd_seen := nd_seen s; nd_client_seen := nd_client_seen s; nd_diagnostics_jobs :=
     nd_diagnostics_jobs s; nd_diagnostics_seen := nd_diagnostics_seen s; nd_observer_seen := l; nd_next_diagnostics
     := nd_next_diagnostics s; nd_outgoing := nd_outgoing s; nd_next_request := nd_next_request s; nd_next_connection
     := nd_next_connection s; nd_next_goal := nd_next_goal s; nd_connected := nd_connected s; nd_sent := nd_sent s;
     nd_ignored := nd_ignored s; nd_rejected := nd_rejected s; nd_admitted := nd_admitted s; nd_requests :=
     nd_requests s; nd_drawn := nd_drawn s |}.
Definition nd_set_next_diagnostics (t : Z) (s : Node) : Node :=
  {| nd_self := nd_self s; nd_session := nd_session s; nd_running := nd_running s; nd_error := nd_error s; nd_batches
     := nd_batches s; nd_actions := nd_actions s; nd_submissions := nd_submissions s; nd_jobs := nd_jobs s; nd_replies
     := nd_replies s; nd_live := nd_live s; nd_abort := nd_abort s; nd_pending := nd_pending s; nd_connections :=
     nd_connections s; nd_seen := nd_seen s; nd_client_seen := nd_client_seen s; nd_diagnostics_jobs :=
     nd_diagnostics_jobs s; nd_diagnostics_seen := nd_diagnostics_seen s; nd_observer_seen := nd_observer_seen s;
     nd_next_diagnostics := t; nd_outgoing := nd_outgoing s; nd_next_request := nd_next_request s; nd_next_connection
     := nd_next_connection s; nd_next_goal := nd_next_goal s; nd_connected := nd_connected s; nd_sent := nd_sent s;
     nd_ignored := nd_ignored s; nd_rejected := nd_rejected s; nd_admitted := nd_admitted s; nd_requests :=
     nd_requests s; nd_drawn := nd_drawn s |}.
Definition nd_set_outgoing (l : list OutgoingGoal) (s : Node) : Node :=
  {| nd_self := nd_self s; nd_session := nd_session s; nd_running := nd_running s; nd_error := nd_error s; nd_batches
     := nd_batches s; nd_actions := nd_actions s; nd_submissions := nd_submissions s; nd_jobs := nd_jobs s; nd_replies
     := nd_replies s; nd_live := nd_live s; nd_abort := nd_abort s; nd_pending := nd_pending s; nd_connections :=
     nd_connections s; nd_seen := nd_seen s; nd_client_seen := nd_client_seen s; nd_diagnostics_jobs :=
     nd_diagnostics_jobs s; nd_diagnostics_seen := nd_diagnostics_seen s; nd_observer_seen := nd_observer_seen s;
     nd_next_diagnostics := nd_next_diagnostics s; nd_outgoing := l; nd_next_request := nd_next_request s;
     nd_next_connection := nd_next_connection s; nd_next_goal := nd_next_goal s; nd_connected := nd_connected s;
     nd_sent := nd_sent s; nd_ignored := nd_ignored s; nd_rejected := nd_rejected s; nd_admitted := nd_admitted s;
     nd_requests := nd_requests s; nd_drawn := nd_drawn s |}.
Definition nd_count_connected (s : Node) : Node :=
  {| nd_self := nd_self s; nd_session := nd_session s; nd_running := nd_running s; nd_error := nd_error s; nd_batches
     := nd_batches s; nd_actions := nd_actions s; nd_submissions := nd_submissions s; nd_jobs := nd_jobs s; nd_replies
     := nd_replies s; nd_live := nd_live s; nd_abort := nd_abort s; nd_pending := nd_pending s; nd_connections :=
     nd_connections s; nd_seen := nd_seen s; nd_client_seen := nd_client_seen s; nd_diagnostics_jobs :=
     nd_diagnostics_jobs s; nd_diagnostics_seen := nd_diagnostics_seen s; nd_observer_seen := nd_observer_seen s;
     nd_next_diagnostics := nd_next_diagnostics s; nd_outgoing := nd_outgoing s; nd_next_request := nd_next_request s;
     nd_next_connection := nd_next_connection s; nd_next_goal := nd_next_goal s; nd_connected := u64 (nd_connected s +
     1); nd_sent := nd_sent s; nd_ignored := nd_ignored s; nd_rejected := nd_rejected s; nd_admitted := nd_admitted s;
     nd_requests := nd_requests s; nd_drawn := nd_drawn s |}.
Definition nd_count_sent (s : Node) : Node :=
  {| nd_self := nd_self s; nd_session := nd_session s; nd_running := nd_running s; nd_error := nd_error s; nd_batches
     := nd_batches s; nd_actions := nd_actions s; nd_submissions := nd_submissions s; nd_jobs := nd_jobs s; nd_replies
     := nd_replies s; nd_live := nd_live s; nd_abort := nd_abort s; nd_pending := nd_pending s; nd_connections :=
     nd_connections s; nd_seen := nd_seen s; nd_client_seen := nd_client_seen s; nd_diagnostics_jobs :=
     nd_diagnostics_jobs s; nd_diagnostics_seen := nd_diagnostics_seen s; nd_observer_seen := nd_observer_seen s;
     nd_next_diagnostics := nd_next_diagnostics s; nd_outgoing := nd_outgoing s; nd_next_request := nd_next_request s;
     nd_next_connection := nd_next_connection s; nd_next_goal := nd_next_goal s; nd_connected := nd_connected s;
     nd_sent := u64 (nd_sent s + 1); nd_ignored := nd_ignored s; nd_rejected := nd_rejected s; nd_admitted :=
     nd_admitted s; nd_requests := nd_requests s; nd_drawn := nd_drawn s |}.
Definition nd_count_ignored (s : Node) : Node :=
  {| nd_self := nd_self s; nd_session := nd_session s; nd_running := nd_running s; nd_error := nd_error s; nd_batches
     := nd_batches s; nd_actions := nd_actions s; nd_submissions := nd_submissions s; nd_jobs := nd_jobs s; nd_replies
     := nd_replies s; nd_live := nd_live s; nd_abort := nd_abort s; nd_pending := nd_pending s; nd_connections :=
     nd_connections s; nd_seen := nd_seen s; nd_client_seen := nd_client_seen s; nd_diagnostics_jobs :=
     nd_diagnostics_jobs s; nd_diagnostics_seen := nd_diagnostics_seen s; nd_observer_seen := nd_observer_seen s;
     nd_next_diagnostics := nd_next_diagnostics s; nd_outgoing := nd_outgoing s; nd_next_request := nd_next_request s;
     nd_next_connection := nd_next_connection s; nd_next_goal := nd_next_goal s; nd_connected := nd_connected s;
     nd_sent := nd_sent s; nd_ignored := u64 (nd_ignored s + 1); nd_rejected := nd_rejected s; nd_admitted :=
     nd_admitted s; nd_requests := nd_requests s; nd_drawn := nd_drawn s |}.
Definition nd_count_rejected (s : Node) : Node :=
  {| nd_self := nd_self s; nd_session := nd_session s; nd_running := nd_running s; nd_error := nd_error s; nd_batches
     := nd_batches s; nd_actions := nd_actions s; nd_submissions := nd_submissions s; nd_jobs := nd_jobs s; nd_replies
     := nd_replies s; nd_live := nd_live s; nd_abort := nd_abort s; nd_pending := nd_pending s; nd_connections :=
     nd_connections s; nd_seen := nd_seen s; nd_client_seen := nd_client_seen s; nd_diagnostics_jobs :=
     nd_diagnostics_jobs s; nd_diagnostics_seen := nd_diagnostics_seen s; nd_observer_seen := nd_observer_seen s;
     nd_next_diagnostics := nd_next_diagnostics s; nd_outgoing := nd_outgoing s; nd_next_request := nd_next_request s;
     nd_next_connection := nd_next_connection s; nd_next_goal := nd_next_goal s; nd_connected := nd_connected s;
     nd_sent := nd_sent s; nd_ignored := nd_ignored s; nd_rejected := u64 (nd_rejected s + 1); nd_admitted :=
     nd_admitted s; nd_requests := nd_requests s; nd_drawn := nd_drawn s |}.
Definition nd_set_error (error : Z) (s : Node) : Node :=
  {| nd_self := nd_self s; nd_session := nd_session s; nd_running := nd_running s; nd_error := error; nd_batches :=
     nd_batches s; nd_actions := nd_actions s; nd_submissions := nd_submissions s; nd_jobs := nd_jobs s; nd_replies :=
     nd_replies s; nd_live := nd_live s; nd_abort := nd_abort s; nd_pending := nd_pending s; nd_connections :=
     nd_connections s; nd_seen := nd_seen s; nd_client_seen := nd_client_seen s; nd_diagnostics_jobs :=
     nd_diagnostics_jobs s; nd_diagnostics_seen := nd_diagnostics_seen s; nd_observer_seen := nd_observer_seen s;
     nd_next_diagnostics := nd_next_diagnostics s; nd_outgoing := nd_outgoing s; nd_next_request := nd_next_request s;
     nd_next_connection := nd_next_connection s; nd_next_goal := nd_next_goal s; nd_connected := nd_connected s;
     nd_sent := nd_sent s; nd_ignored := nd_ignored s; nd_rejected := nd_rejected s; nd_admitted := nd_admitted s;
     nd_requests := nd_requests s; nd_drawn := nd_drawn s |}.
Definition nd_stop (s : Node) : Node :=
  {| nd_self := nd_self s; nd_session := nd_session s; nd_running := false; nd_error := nd_error s; nd_batches :=
     nd_batches s; nd_actions := nd_actions s; nd_submissions := nd_submissions s; nd_jobs := nd_jobs s; nd_replies :=
     nd_replies s; nd_live := nd_live s; nd_abort := nd_abort s; nd_pending := nd_pending s; nd_connections :=
     nd_connections s; nd_seen := nd_seen s; nd_client_seen := nd_client_seen s; nd_diagnostics_jobs :=
     nd_diagnostics_jobs s; nd_diagnostics_seen := nd_diagnostics_seen s; nd_observer_seen := nd_observer_seen s;
     nd_next_diagnostics := nd_next_diagnostics s; nd_outgoing := nd_outgoing s; nd_next_request := nd_next_request s;
     nd_next_connection := nd_next_connection s; nd_next_goal := nd_next_goal s; nd_connected := nd_connected s;
     nd_sent := nd_sent s; nd_ignored := nd_ignored s; nd_rejected := nd_rejected s; nd_admitted := nd_admitted s;
     nd_requests := nd_requests s; nd_drawn := nd_drawn s |}.
Definition nd_draw_request (s : Node) : Node :=
  {| nd_self := nd_self s; nd_session := nd_session s; nd_running := nd_running s; nd_error := nd_error s; nd_batches
     := nd_batches s; nd_actions := nd_actions s; nd_submissions := nd_submissions s; nd_jobs := nd_jobs s; nd_replies
     := nd_replies s; nd_live := nd_live s; nd_abort := nd_abort s; nd_pending := nd_pending s; nd_connections :=
     nd_connections s; nd_seen := nd_seen s; nd_client_seen := nd_client_seen s; nd_diagnostics_jobs :=
     nd_diagnostics_jobs s; nd_diagnostics_seen := nd_diagnostics_seen s; nd_observer_seen := nd_observer_seen s;
     nd_next_diagnostics := nd_next_diagnostics s; nd_outgoing := nd_outgoing s; nd_next_request := nd_next_request s
     + 1; nd_next_connection := nd_next_connection s; nd_next_goal := nd_next_goal s; nd_connected := nd_connected s;
     nd_sent := nd_sent s; nd_ignored := nd_ignored s; nd_rejected := nd_rejected s; nd_admitted := nd_admitted s;
     nd_requests := nd_requests s; nd_drawn := nd_drawn s |}.
Definition nd_draw_goal (s : Node) : Node :=
  {| nd_self := nd_self s; nd_session := nd_session s; nd_running := nd_running s; nd_error := nd_error s; nd_batches
     := nd_batches s; nd_actions := nd_actions s; nd_submissions := nd_submissions s; nd_jobs := nd_jobs s; nd_replies
     := nd_replies s; nd_live := nd_live s; nd_abort := nd_abort s; nd_pending := nd_pending s; nd_connections :=
     nd_connections s; nd_seen := nd_seen s; nd_client_seen := nd_client_seen s; nd_diagnostics_jobs :=
     nd_diagnostics_jobs s; nd_diagnostics_seen := nd_diagnostics_seen s; nd_observer_seen := nd_observer_seen s;
     nd_next_diagnostics := nd_next_diagnostics s; nd_outgoing := nd_outgoing s; nd_next_request := nd_next_request s;
     nd_next_connection := nd_next_connection s; nd_next_goal := nd_next_goal s + 1; nd_connected := nd_connected s;
     nd_sent := nd_sent s; nd_ignored := nd_ignored s; nd_rejected := nd_rejected s; nd_admitted := nd_admitted s;
     nd_requests := nd_requests s; nd_drawn := nd_drawn s |}.
(** [++next_connection]; [nd_drawn] counts how often. *)
Definition nd_draw_connection (s : Node) : Node :=
  {| nd_self := nd_self s; nd_session := nd_session s; nd_running := nd_running s; nd_error := nd_error s; nd_batches
     := nd_batches s; nd_actions := nd_actions s; nd_submissions := nd_submissions s; nd_jobs := nd_jobs s; nd_replies
     := nd_replies s; nd_live := nd_live s; nd_abort := nd_abort s; nd_pending := nd_pending s; nd_connections :=
     nd_connections s; nd_seen := nd_seen s; nd_client_seen := nd_client_seen s; nd_diagnostics_jobs :=
     nd_diagnostics_jobs s; nd_diagnostics_seen := nd_diagnostics_seen s; nd_observer_seen := nd_observer_seen s;
     nd_next_diagnostics := nd_next_diagnostics s; nd_outgoing := nd_outgoing s; nd_next_request := nd_next_request s;
     nd_next_connection := u64 (nd_next_connection s + 1); nd_next_goal := nd_next_goal s; nd_connected :=
     nd_connected s; nd_sent := nd_sent s; nd_ignored := nd_ignored s; nd_rejected := nd_rejected s; nd_admitted :=
     nd_admitted s; nd_requests := nd_requests s; nd_drawn := nd_drawn s + 1 |}.
Definition nd_log_admission (a : Admission) (s : Node) : Node :=
  {| nd_self := nd_self s; nd_session := nd_session s; nd_running := nd_running s; nd_error := nd_error s; nd_batches
     := nd_batches s; nd_actions := nd_actions s; nd_submissions := nd_submissions s; nd_jobs := nd_jobs s; nd_replies
     := nd_replies s; nd_live := nd_live s; nd_abort := nd_abort s; nd_pending := nd_pending s; nd_connections :=
     nd_connections s; nd_seen := nd_seen s; nd_client_seen := nd_client_seen s; nd_diagnostics_jobs :=
     nd_diagnostics_jobs s; nd_diagnostics_seen := nd_diagnostics_seen s; nd_observer_seen := nd_observer_seen s;
     nd_next_diagnostics := nd_next_diagnostics s; nd_outgoing := nd_outgoing s; nd_next_request := nd_next_request s;
     nd_next_connection := nd_next_connection s; nd_next_goal := nd_next_goal s; nd_connected := nd_connected s;
     nd_sent := nd_sent s; nd_ignored := nd_ignored s; nd_rejected := nd_rejected s; nd_admitted := nd_admitted s ++
     [a]; nd_requests := nd_requests s; nd_drawn := nd_drawn s |}.
Definition nd_log_request (connection : Z) (f : ControlFrame) (s : Node) : Node :=
  {| nd_self := nd_self s; nd_session := nd_session s; nd_running := nd_running s; nd_error := nd_error s; nd_batches
     := nd_batches s; nd_actions := nd_actions s; nd_submissions := nd_submissions s; nd_jobs := nd_jobs s; nd_replies
     := nd_replies s; nd_live := nd_live s; nd_abort := nd_abort s; nd_pending := nd_pending s; nd_connections :=
     nd_connections s; nd_seen := nd_seen s; nd_client_seen := nd_client_seen s; nd_diagnostics_jobs :=
     nd_diagnostics_jobs s; nd_diagnostics_seen := nd_diagnostics_seen s; nd_observer_seen := nd_observer_seen s;
     nd_next_diagnostics := nd_next_diagnostics s; nd_outgoing := nd_outgoing s; nd_next_request := nd_next_request s;
     nd_next_connection := nd_next_connection s; nd_next_goal := nd_next_goal s; nd_connected := nd_connected s;
     nd_sent := nd_sent s; nd_ignored := nd_ignored s; nd_rejected := nd_rejected s; nd_admitted := nd_admitted s;
     nd_requests := nd_requests s ++ [(connection, f)]; nd_drawn := nd_drawn s |}.

Definition set_insert (x : Z) (l : list Z) : list Z := if bool_decide (x ∈ l) then l else l ++ [x].
Definition set_erase (x : Z) (l : list Z) : list Z := filter (fun y => y <> x) l.

(** ** Configuration *)
Record NodeConfig := {
  nc_discovery : DiscoveryConfig;
  nc_topics_enabled : bool;
  nc_diagnostics_enabled : bool;
  nc_topic_observer_enabled : bool;
  nc_parameter_get_clients : list HostIdentity;
  nc_parameter_set_clients : list HostIdentity;
  nc_service_call_clients : list HostIdentity;
  nc_action_goal_clients : list HostIdentity;
  nc_action_cancel_clients : list HostIdentity;
  nc_descriptor_query_clients : list HostIdentity;
  nc_connect_timeout : Z
}.

Section Node.
Context (config : NodeConfig).

(** ** Who may do what *)
Abbreviation discovery := (nc_discovery config).
Definition peer_of (peers : list PeerInfo) (host : HostIdentity) : option PeerInfo := List.find (fun p => pi_host p =?? host) peers.
Definition peer_online (p : PeerInfo) : bool := pi_state p =?? ONLINE.
Definition observer_peer (p : PeerInfo) : bool :=
  IsObserverProfile (pi_profile p) && Compatible (CheckPeerCompatibility (dc_profile discovery) (pi_profile p) (dc_compatibility_policy discovery)).
Definition listed (host : HostIdentity) (hosts : list HostIdentity) : bool := existsb (fun h => h =?? host) hosts.
Definition Allowed (p : PeerInfo) : bool :=
  let result := CheckCapability (dc_profile discovery) (pi_profile p) Capability.TARGET_ENDPOINT (dc_compatibility_policy discovery) in
  peer_online p && Compatible result &&
  negb (Z.land (cr_common_capabilities result) (Z.lor (Z.lor Capability.REMOTE_PARAMETER Capability.REMOTE_SERVICE) Capability.REMOTE_ACTION) =? 0).
Definition ObserverAllowed (p : PeerInfo) : bool := nc_diagnostics_enabled config && peer_online p && observer_peer p.
Definition ReadClientAllowed (p : PeerInfo) : bool := peer_online p && observer_peer p && listed (pi_host p) (nc_parameter_get_clients config).
Definition WriteClientAllowed (p : PeerInfo) : bool := peer_online p && observer_peer p && listed (pi_host p) (nc_parameter_set_clients config).
Definition ParameterClientAllowed (p : PeerInfo) (f : ControlFrame) : bool :=
  (cf_target f =? TargetScope.ENDPOINT) &&
  (((cf_operation f =? ControlMessage.PARAM_GET_REQUEST) && ReadClientAllowed p) || ((cf_operation f =? ControlMessage.PARAM_SET_REQUEST) && WriteClientAllowed p)).
Definition ServiceClientAllowed (p : PeerInfo) : bool := peer_online p && observer_peer p && listed (pi_host p) (nc_service_call_clients config).
Definition ServiceClientRequest (p : PeerInfo) (f : ControlFrame) : bool :=
  (cf_target f =? TargetScope.ENDPOINT) && (cf_operation f =? ControlMessage.SERVICE_REQUEST) && ServiceClientAllowed p.
Definition ActionClientAllowed (p : PeerInfo) (cancel : bool) : bool :=
  peer_online p && observer_peer p && listed (pi_host p) (if cancel then nc_action_cancel_clients config else nc_action_goal_clients config).
Definition ActionClientRequest (p : PeerInfo) (f : ControlFrame) : bool :=
  (cf_target f =? TargetScope.ENDPOINT) &&
  (((cf_operation f =? ControlMessage.ACTION_GOAL_REQUEST) && ActionClientAllowed p false) ||
   ((cf_operation f =? ControlMessage.ACTION_CANCEL_REQUEST) && ActionClientAllowed p true)).
Definition DescriptorClientAllowed (p : PeerInfo) : bool :=
  peer_online p && observer_peer p && (nc_topic_observer_enabled config || listed (pi_host p) (nc_descriptor_query_clients config)).
Definition LimitedAllowed (p : PeerInfo) : bool :=
  DescriptorClientAllowed p || ObserverAllowed p || ReadClientAllowed p || WriteClientAllowed p || ServiceClientAllowed p || ActionClientAllowed p false ||
  ActionClientAllowed p true.

(** ** Requests of this node *)
Definition sn_canceling (unknown accepted : bool) (a : RemoteActionSnapshot) : RemoteActionSnapshot :=
  {| sn_goal := sn_goal a; sn_endpoint := sn_endpoint a; sn_accepted := sn_accepted a; sn_terminal := sn_terminal a;
     sn_communication_lost := sn_communication_lost a; sn_execution_unknown := sn_execution_unknown a;
     sn_cancel_unknown := unknown; sn_cancel_accepted := accepted; sn_error := sn_error a; sn_state := sn_state a;
     sn_feedback_sequence := sn_feedback_sequence a; sn_feedback := sn_feedback a; sn_result := sn_result a |}.
Definition sn_finished (code : Z) (unknown : bool) (a : RemoteActionSnapshot) : RemoteActionSnapshot :=
  {| sn_goal := sn_goal a; sn_endpoint := sn_endpoint a; sn_accepted := (code =? 0); sn_terminal := sn_terminal a;
     sn_communication_lost := if code =? 0 then sn_communication_lost a else unknown; sn_execution_unknown := unknown;
     sn_cancel_unknown := sn_cancel_unknown a; sn_cancel_accepted := sn_cancel_accepted a; sn_error := code; sn_state
     := if code =? 0 then WireActionState.ACCEPTED else WireActionState.IDLE; sn_feedback_sequence :=
     sn_feedback_sequence a; sn_feedback := sn_feedback a; sn_result := sn_result a |}.
Definition sn_lost (code : Z) (a : RemoteActionSnapshot) : RemoteActionSnapshot :=
  {| sn_goal := sn_goal a; sn_endpoint := sn_endpoint a; sn_accepted := sn_accepted a; sn_terminal := sn_terminal a;
     sn_communication_lost := true; sn_execution_unknown := sn_execution_unknown a; sn_cancel_unknown :=
     sn_cancel_unknown a; sn_cancel_accepted := sn_cancel_accepted a; sn_error := code; sn_state := sn_state a;
     sn_feedback_sequence := sn_feedback_sequence a; sn_feedback := sn_feedback a; sn_result := sn_result a |}.
Definition sn_progress (sequence : Z) (feedback : list Z) (a : RemoteActionSnapshot) : RemoteActionSnapshot :=
  {| sn_goal := sn_goal a; sn_endpoint := sn_endpoint a; sn_accepted := sn_accepted a; sn_terminal := sn_terminal a;
     sn_communication_lost := sn_communication_lost a; sn_execution_unknown := sn_execution_unknown a;
     sn_cancel_unknown := sn_cancel_unknown a; sn_cancel_accepted := sn_cancel_accepted a; sn_error := sn_error a;
     sn_state := WireActionState.RUNNING; sn_feedback_sequence := sequence; sn_feedback := feedback; sn_result :=
     sn_result a |}.
Definition sn_ended (state : Z) (result : list Z) (a : RemoteActionSnapshot) : RemoteActionSnapshot :=
  {| sn_goal := sn_goal a; sn_endpoint := sn_endpoint a; sn_accepted := sn_accepted a; sn_terminal := true;
     sn_communication_lost := sn_communication_lost a; sn_execution_unknown := sn_execution_unknown a;
     sn_cancel_unknown := sn_cancel_unknown a; sn_cancel_accepted := sn_cancel_accepted a; sn_error := 0; sn_state :=
     state; sn_feedback_sequence := sn_feedback_sequence a; sn_feedback := sn_feedback a; sn_result := result |}.
Definition update_action (k : nat) (g : RemoteActionSnapshot -> RemoteActionSnapshot) (s : Node) : Node :=
  match nd_actions s !! k with
  | Some a => nd_set_actions (<[k := {| as_snapshot := g (as_snapshot a); as_request := as_request a |}]> (nd_actions s)) s
  | None => s
  end.
Definition drop_outgoing_goal (k : nat) (s : Node) : Node := nd_set_outgoing (filter (fun o => go_action o <> k) (nd_outgoing s)) s.

(** [Finish]: the pending request at [index] gets its result. *)
Definition FinishPending (index : nat) (code reason : Z) (value : list Z) (confirmed unknown : bool) (s : Node) : Node :=
  match nd_pending s !! index with
  | None => s
  | Some p =>
      let s := nd_set_pending (delete index (nd_pending s)) s in
      match nd_batches s !! pe_batch p with
      | None => s
      | Some b =>
          match bt_endpoints b !! pe_index p with
          | None => s
          | Some out =>
              let failed := negb (code =? 0) in
              let cancel := match bt_cancel b with Some _ => true | None => false end in
              let execution_unknown := pe_sent p && failed && (bt_service b || (bt_action b && negb cancel && (negb confirmed || unknown))) in
              let cancel_unknown := cancel && pe_sent p && failed && (negb confirmed || unknown) in
              let s := match er_action out with
                       | None => s
                       | Some k =>
                           if cancel then update_action k (sn_canceling cancel_unknown (negb failed)) s
                           else
                             let s := update_action k (sn_finished code execution_unknown) s in
                             if failed then
                               let s := drop_outgoing_goal k s in
                               if execution_unknown && bool_decide (pe_connection p ∈ nd_live s)
                               then nd_set_abort (set_insert (pe_connection p) (nd_abort s)) s else s
                             else s
                       end in
              let out := {| er_endpoint := er_endpoint out; er_error := code; er_reason := reason; er_value := value; er_action := er_action out;
                            er_cancel_unknown := cancel_unknown; er_execution_unknown := execution_unknown |} in
              nd_set_batches (<[pe_batch p := settle_batch (pe_index p) out b]> (nd_batches s)) s
          end
      end
  end.
Definition Fail (index : nat) (code : Z) (s : Node) : Node := FinishPending index code CompatibilityReason.COMPATIBLE [] false false s.

(** The pending requests that satisfy [test], from the last to the first. *)
Fixpoint finish_where (test : Pending -> bool) (code : Z) (n : nat) (s : Node) : Node :=
  match n with
  | O => s
  | S i => finish_where test code i (match nd_pending s !! i with Some p => if test p then Fail i code s else s | None => s end)
  end.
Definition lose_goals (id : Z) (s : Node) : Node :=
  let s := foldl (fun s o => if go_connection o =? id then update_action (go_action o) (sn_lost (- ECONNRESET)) s else s) s (nd_outgoing s) in
  nd_set_outgoing (filter (fun o => go_connection o <> id) (nd_outgoing s)) s.
Definition DropConnection (index : nat) (s : Node) : Node :=
  match nd_connections s !! index with
  | None => s
  | Some c =>
      let s := nd_set_diagnostics_jobs (filter (fun j => jb_connection j <> cx_id c) (nd_diagnostics_jobs s)) s in
      let s := nd_set_abort (set_erase (cx_id c) (nd_abort s)) (nd_set_live (set_erase (cx_id c) (nd_live s)) s) in
      let s := lose_goals (cx_id c) s in
      let s := finish_where (fun p => pe_sent p && (pe_connection p =? cx_id c)) (- ECONNRESET) (length (nd_pending s)) s in
      nd_set_connections (delete index (nd_connections s)) s
  end.

Definition QueueFrame (c : Connection) (f : ControlFrame) : bool * Connection :=
  match EncodeControlFrame f with
  | Err _ => (false, c)
  | Ok bytes =>
      let limit := if cx_diagnostics_only c then MAX_DIAGNOSTICS_QUEUE_BYTES else MAX_QUEUE_BYTES in
      if (limit <? cx_queued c + vsize bytes) || (cx_diagnostics_only c && (MAX_DIAGNOSTICS_FRAMES <=? Z.of_nat (length (cx_output c))))
      then (false, c) else (true, cx_enqueue f bytes c)
  end.
(** [Queue] on the connection at [i]. *)
Definition queue_at (i : nat) (f : ControlFrame) (s : Node) : bool * Node :=
  match nd_connections s !! i with
  | None => (false, s)
  | Some c => let (good, c) := QueueFrame c f in (good, nd_set_connections (<[i := c]> (nd_connections s)) s)
  end.
Definition SendHello (i : nat) (s : Node) : bool * Node :=
  let (good, s) := queue_at i (blank_frame (nd_self s) (nd_session s)) s in
  match nd_connections s !! i with
  | None => (good, s)
  | Some c => (good, nd_set_connections (<[i := cx_hello good c]> (nd_connections s)) s)
  end.

(** [Admit]: one submitted batch becomes one pending request per selected endpoint. *)
Definition batch_kind (b : Batch) : Z := if bt_action b then EndpointKind.ACTION else if bt_service b then EndpointKind.SERVICE else EndpointKind.PARAMETER.
Definition select_endpoints (b : Batch) (peers : list PeerInfo) : list NetworkEndpointMetadata :=
  filter (fun e => (md_kind e =? batch_kind b) && (md_role e =? EndpointRole.PROVIDER) && (md_name e =?? bt_name b) && Select (bt_target b) e = true)
    (flat_map pi_endpoints peers).
Definition nothing_selected (b : Batch) (peers : list PeerInfo) : Z :=
  let scope := tg_scope (bt_target b) in
  if (scope =? TargetScope.ENDPOINT) || (scope =? TargetScope.HOST) then
    match peer_of peers (if scope =? TargetScope.HOST then tg_host (bt_target b) else rt_host (ep_runtime (tg_endpoint (bt_target b)))) with
    | None => - ENOTCONN
    | Some peer => if pi_state peer =?? LOST then - ENOTCONN else if negb (pi_metadata_ready peer) then - EAGAIN else - ENOENT
    end
  else - ENOENT.
Definition is_goal (b : Batch) : bool := bt_action b && match bt_cancel b with Some _ => false | None => true end.
Definition batch_operation (b : Batch) : Z :=
  if bt_action b then match bt_cancel b with Some _ => ControlMessage.ACTION_CANCEL_REQUEST | None => ControlMessage.ACTION_GOAL_REQUEST end
  else if bt_service b then ControlMessage.SERVICE_REQUEST else if bt_set b then ControlMessage.PARAM_SET_REQUEST else ControlMessage.PARAM_GET_REQUEST.
Definition batch_frame (b : Batch) (goal : RemoteGoalIdentity) (e : NetworkEndpointMetadata) (s : Node) : ControlFrame :=
  let f := blank_frame (nd_self s) (nd_session s) in
  {| cf_operation := batch_operation b; cf_source := cf_source f; cf_session_id := cf_session_id f; cf_request_id := nd_next_request s;
     cf_endpoint := md_identity e; cf_target := tg_scope (bt_target b); cf_name := bt_name b; cf_type := bt_type b;
     cf_response_type := bt_response_type b; cf_feedback_type := bt_feedback_type b; cf_goal := goal; cf_action_state := cf_action_state f;
     cf_outcome_unknown := cf_outcome_unknown f; cf_feedback_sequence := cf_feedback_sequence f; cf_timeout_ms := cf_timeout_ms f;
     cf_status := cf_status f; cf_reason := cf_reason f; cf_payload := bt_value b; cf_descriptor_role := cf_descriptor_role f |}.
(** One endpoint of batch [k]: the result with its action, and the pending request. *)
Definition admit_endpoint (k : nat) (b : Batch) (i : nat) (e : NetworkEndpointMetadata) (s : Node) : EndpointResult * Node :=
  let s := nd_draw_request s in
  if bt_action b then
    match bt_cancel b with
    | Some a =>
        let goal := match nd_actions s !! a with Some x => cf_goal (as_request x) | None => no_goal end in
        (new_result (md_identity e) (Some a),
         nd_set_pending (nd_pending s ++ [{| pe_batch := k; pe_index := i; pe_frame := batch_frame b goal e s; pe_sent := false; pe_connection := 0 |}]) s)
    | None =>
        let s := nd_draw_goal s in
        let goal := {| rg_source := nd_self s; rg_goal_id := nd_next_goal s; rg_session_id := nd_session s |} in
        let f := batch_frame b goal e s in
        let s := nd_set_actions (nd_actions s ++ [{| as_snapshot := snap_goal (new_snapshot (md_identity e)) goal; as_request := f |}]) s in
        (new_result (md_identity e) (Some (length (nd_actions s) - 1)%nat),
         nd_set_pending (nd_pending s ++ [{| pe_batch := k; pe_index := i; pe_frame := f; pe_sent := false; pe_connection := 0 |}]) s)
    end
  else
    (new_result (md_identity e) None,
     nd_set_pending (nd_pending s ++ [{| pe_batch := k; pe_index := i; pe_frame := batch_frame b no_goal e s; pe_sent := false; pe_connection := 0 |}]) s).
Fixpoint admit_endpoints (k : nat) (b : Batch) (i : nat) (es : list NetworkEndpointMetadata) (s : Node) : list EndpointResult * Node :=
  match es with
  | [] => ([], s)
  | e :: rest => let (r, s) := admit_endpoint k b i e s in let (l, s) := admit_endpoints k b (S i) rest s in (r :: l, s)
  end.
Definition admit_batch (peers : list PeerInfo) (k : nat) (s : Node) : Node :=
  match nd_batches s !! k with
  | None => s
  | Some b =>
      let fail := fun code => nd_set_batches (<[k := fail_batch code b]> (nd_batches s)) s in
      let selected := select_endpoints b peers in
      let n := Z.of_nat (length selected) in
      if n =? 0 then fail (nothing_selected b peers)
      else
        let request_over := UINT64_MAX - n <? nd_next_request s in
        let goal_over := is_goal b && (UINT64_MAX - n <? nd_next_goal s) in
        if (MAX_PENDING <? n + Z.of_nat (length (nd_pending s))) ||
           (is_goal b && (MAX_PENDING <? n + Z.of_nat (length (nd_pending s)) + Z.of_nat (length (nd_outgoing s)))) || goal_over || request_over
        then fail (if request_over || goal_over then - EOVERFLOW else - EAGAIN)
        else
          let (results, s) := admit_endpoints k b 0 selected s in
          nd_set_batches (<[k := expand_batch results b]> (nd_batches s)) s
  end.
Definition AdmitBatches (peers : list PeerInfo) (s : Node) : Node :=
  foldl (fun s k => admit_batch peers k s) (nd_set_submissions [] s) (nd_submissions s).

(** ** Diagnostics *)
Definition diagnostics_reply (s : Node) (request : ControlFrame) (code : Z) : ControlFrame :=
  reply_frame (nd_self s) (nd_session s) ControlMessage.DIAGNOSTICS_RESPONSE code request.
Definition DiagnosticsError (i : nat) (request : ControlFrame) (code : Z) (s : Node) : bool * Node :=
  queue_at i (without_payload (diagnostics_reply s request code)) s.
Definition ReclaimObserverDiagnostics (peers : list PeerInfo) (s : Node) : Node :=
  nd_set_observer_seen (filter (fun e =>
    match peer_of peers (ds_host e) with
    | Some peer => peer_online peer && (pi_boot_id peer =?? ds_boot e) && (pi_session_id peer =? ds_session e)
    | None => false
    end || existsb (fun c => (cx_host c =?? ds_host e) && (cx_session c =? ds_session e)) (nd_connections s) = true) (nd_observer_seen s)) s.
(** The record of the connection's host, created or reset for its session: [None] when there is
    no room. *)
Definition diagnostics_record (c : Connection) (f : ControlFrame) (records : list DiagnosticsSeen) : option (nat * DiagnosticsSeen * list DiagnosticsSeen) :=
  let fresh := {| ds_host := cx_host c; ds_boot := rt_boot_id (cf_source f); ds_session := cx_session c; ds_last := 0; ds_next := 0 |} in
  match list_find (fun e => ds_host e = cx_host c) records with
  | Some (k, e) =>
      let e := if negb (ds_boot e =?? rt_boot_id (cf_source f)) || negb (ds_session e =? cx_session c) then fresh else e in Some (k, e, records)
  | None => if MAX_CONNECTIONS <=? Z.of_nat (length records) then None else Some (length records, fresh, records ++ [fresh])
  end.
Definition AdmitDiagnostics (i : nat) (f : ControlFrame) (now : Z) (s : Node) : bool * Node :=
  match nd_connections s !! i with
  | None => (false, s)
  | Some c =>
      if negb (nc_diagnostics_enabled config) then DiagnosticsError i f (- ENOTSUP) s
      else
        let observer := cx_diagnostics_only c in
        let put := fun l s => if observer then nd_set_observer_seen l s else nd_set_diagnostics_seen l s in
        match diagnostics_record c f (if observer then nd_observer_seen s else nd_diagnostics_seen s) with
        | None => DiagnosticsError i f (- ENOSPC) s
        | Some (k, e, records) =>
            if cf_request_id f <=? ds_last e then DiagnosticsError i f (- EALREADY) (nd_count_ignored (put (<[k := e]> records) s))
            else
              let e := {| ds_host := ds_host e; ds_boot := ds_boot e; ds_session := ds_session e; ds_last := cf_request_id f; ds_next := ds_next e |} in
              if cx_diagnostics_pending c || (now <? ds_next e) || (MAX_DIAGNOSTICS_JOBS <=? Z.of_nat (length (nd_diagnostics_jobs s)))
              then DiagnosticsError i f (- EAGAIN) (put (<[k := e]> records) s)
              else
                let e := {| ds_host := ds_host e; ds_boot := ds_boot e; ds_session := ds_session e; ds_last := ds_last e; ds_next := now + 100 * millisecond |} in
                let s := put (<[k := e]> records) s in
                let s := nd_set_connections (<[i := cx_set_pending true c]> (nd_connections s)) s in
                (true, nd_set_diagnostics_jobs (nd_diagnostics_jobs s ++
                         [{| jb_connection := cx_id c; jb_frame := f; jb_deadline := now + cf_timeout_ms f * millisecond |}]) s)
        end
  end.
(** [dg_now]: the three readings of the clock; [dg_routes] is [TopicSnapshot()]. *)
Record DispatchEnv := { dg_now : Z; dg_now2 : Z; dg_now3 : Z; dg_routes : list TopicRouteInfo }.
Definition find_connection (id : Z) (s : Node) : option (nat * Connection) := list_find (fun c => cx_id c = id) (nd_connections s).
Definition node_diagnostics_answer (dg : DispatchEnv) (job : Job) (s : Node) : ControlFrame :=
  let payload :=
    if jb_deadline job <=? dg_now2 dg then Err (- ETIMEDOUT)
    else
      let? snapshot := MakeNetworkDiagnosticsSnapshot (rt_host (nd_self s)) (rt_boot_id (nd_self s)) (nd_session s) (dg_routes dg) in
      EncodeNetworkDiagnosticsSnapshot snapshot in
  let payload := if jb_deadline job <=? dg_now3 dg then Err (- ETIMEDOUT) else payload in
  match payload with
  | Ok bytes => frame_payload bytes (diagnostics_reply s (jb_frame job) 0)
  | Err code => without_payload (diagnostics_reply s (jb_frame job) code)
  end.
Definition DispatchDiagnostics (dg : DispatchEnv) (peers : list PeerInfo) (s : Node) : Node :=
  if dg_now dg <? nd_next_diagnostics s then s
  else
    let s := nd_set_next_diagnostics (dg_now dg + 20 * millisecond) s in
    match nd_diagnostics_jobs s with
    | [] => s
    | job :: rest =>
        let s := nd_set_diagnostics_jobs rest s in
        match find_connection (jb_connection job) s with
        | None => s
        | Some (i, c) =>
            let s := nd_set_connections (<[i := cx_set_pending false c]> (nd_connections s)) s in
            match peer_of peers (cx_host c) with
            | Some peer =>
                if (if cx_diagnostics_only c then ObserverAllowed peer else Allowed peer) && (pi_boot_id peer =?? rt_boot_id (cf_source (jb_frame job))) &&
                   (pi_session_id peer =? cf_session_id (jb_frame job))
                then let (good, s) := queue_at i (node_diagnostics_answer dg job s) s in if good then s else DropConnection i s
                else DropConnection i s
            | None => DropConnection i s
            end
        end
    end.

(** ** A received frame *)
Definition is_kind (f : ControlFrame) (op : Z) : bool := cf_operation f =? op.
(** The reply that refuses a request. *)
Definition refuse (i : nat) (f : ControlFrame) (code : Z) (s : Node) : bool * Node :=
  queue_at i (frame_state WireActionState.IDLE (without_payload (reply_frame (nd_self s) (nd_session s) (ResponseOperation (cf_operation f)) code f))) s.
Definition count_observers (s : Node) : Z := Z.of_nat (length (filter (fun c => cx_diagnostics_only c = true) (nd_connections s))).
Definition other_connection (c : Connection) (f : ControlFrame) (observer : bool) (s : Node) : bool :=
  existsb (fun o => negb (cx_id o =? cx_id c) && (cx_host o =?? rt_host (cf_source f)) &&
                    (negb observer || negb (cx_diagnostics_only o) || negb (cx_session o =? cf_session_id f) || negb (cx_observer_source o =?? cf_source f)))
    (nd_connections s).
Definition put_connection (i : nat) (c : Connection) (s : Node) : Node := nd_set_connections (<[i := c]> (nd_connections s)) s.
Definition become_ready (i : nat) (s : Node) : Node :=
  match nd_connections s !! i with
  | None => s
  | Some c => nd_count_connected (nd_set_live (set_insert (cx_id c) (nd_live s)) (put_connection i (cx_set_ready c) s))
  end.
Definition receive_hello (i : nat) (c : Connection) (f : ControlFrame) (observer : bool) (s : Node) : bool * Node :=
  if cx_ready c then (false, s)
  else if cx_outbound c then if negb (cx_host c =?? rt_host (cf_source f)) then (false, s) else (true, become_ready i s)
  else if negb observer && negb (Lower (rt_host (cf_source f)) (rt_host (nd_self s))) then (false, s)
  else if observer && (MAX_DIAGNOSTICS_CONNECTIONS <=? count_observers s) then (false, s)
  else
    let c := cx_observe observer (cf_source f) c in
    let s := put_connection i c s in
    if other_connection c f observer s then (false, s)
    else
      let (good, s) := SendHello i (put_connection i (cx_identify (rt_host (cf_source f)) (cf_session_id f) c) s) in
      if good then (true, become_ready i s) else (false, s).

(** What an observer may ask on its connection: [None] when the frame goes on. *)
Definition observer_filter (i : nat) (c : Connection) (peer : PeerInfo) (f : ControlFrame) (s : Node) : option (bool * Node) :=
  let get := (is_kind f ControlMessage.DESCRIPTOR_REQUEST && DescriptorClientAllowed peer) || ParameterClientAllowed peer f || ServiceClientRequest peer f ||
             ActionClientRequest peer f in
  if negb (cf_source f =?? cx_observer_source c) then Some (false, s)
  else if is_kind f ControlMessage.SERVICE_REQUEST && negb get && negb (ReadClientAllowed peer) && negb (WriteClientAllowed peer) &&
          negb (ServiceClientAllowed peer) then Some (false, s)
  else if (is_kind f ControlMessage.PARAM_SET_REQUEST || is_kind f ControlMessage.SERVICE_REQUEST) && negb get
  then Some (queue_at i (without_payload (reply_frame (nd_self s) (nd_session s) (ResponseOperation (cf_operation f)) (- EACCES) f)) s)
  else if negb get && (is_kind f ControlMessage.ACTION_GOAL_REQUEST || is_kind f ControlMessage.ACTION_CANCEL_REQUEST) &&
          (ReadClientAllowed peer || WriteClientAllowed peer || ServiceClientAllowed peer || ActionClientAllowed peer false || ActionClientAllowed peer true)
  then Some (refuse i f (- EACCES) s)
  else if negb get && negb (is_kind f ControlMessage.DIAGNOSTICS_REQUEST && ObserverAllowed peer) then Some (false, s)
  else None.

(** FEEDBACK and RESULT of a goal of this node. *)
Definition tracks_goal (id : Z) (f : ControlFrame) (s : Node) (o : OutgoingGoal) : bool :=
  (go_connection o =? id) && match nd_actions s !! go_action o with Some a => cf_goal (as_request a) =?? cf_goal f | None => false end.
Definition goal_event (c : Connection) (f : ControlFrame) (s : Node) : bool * Node :=
  match list_find (fun o => tracks_goal (cx_id c) f s o = true) (nd_outgoing s) with
  | None => (true, nd_count_ignored s)
  | Some (k, o) =>
      match nd_actions s !! go_action o with
      | None => (true, s)
      | Some a =>
          let r := as_request a in
          if negb (cf_endpoint f =?? cf_endpoint r) || negb (cf_name f =?? cf_name r) || negb (cf_type f =?? cf_type r) ||
             negb (cf_feedback_type f =?? cf_feedback_type r) || negb (cf_response_type f =?? cf_response_type r) || negb (cf_target f =? cf_target r)
          then (false, s)
          else if negb (sn_accepted (as_snapshot a)) then (false, s)
          else if is_kind f ControlMessage.ACTION_FEEDBACK then
            if cf_feedback_sequence f <=? sn_feedback_sequence (as_snapshot a) then (true, nd_count_ignored s)
            else (true, update_action (go_action o) (sn_progress (cf_feedback_sequence f) (cf_payload f)) s)
          else
            let s := update_action (go_action o) (if negb (cf_status f =? 0) then sn_lost (cf_status f) else sn_ended (cf_action_state f) (cf_payload f)) s in
            (true, nd_set_outgoing (delete k (nd_outgoing s)) s)
      end
  end.

(** Has the request of a gateway been seen?  The records after it; [None] when there is no room
    for its host. *)
Definition gateway_admits (c : Connection) (f : ControlFrame) (seen : list Seen) : option (bool * list Seen) :=
  let new := {| se_host := cx_host c; se_session := cx_session c; se_last := 0; se_last_goal := 0 |} in
  let found := match list_find (fun e => se_host e = cx_host c) seen with
               | Some (k, e) => Some (k, e, seen)
               | None => if MAX_CONNECTIONS <=? Z.of_nat (length seen) then None else Some (length seen, new, seen ++ [new])
               end in
  match found with
  | None => None
  | Some (k, e, seen) =>
      let e := if negb (se_session e =? cx_session c) then {| se_host := se_host e; se_session := cx_session c; se_last := 0; se_last_goal := 0 |} else e in
      if cf_request_id f <=? se_last e then Some (false, <[k := e]> seen)
      else
        let e := {| se_host := se_host e; se_session := se_session e; se_last := cf_request_id f; se_last_goal := se_last_goal e |} in
        if is_kind f ControlMessage.ACTION_GOAL_REQUEST then
          if rg_goal_id (cf_goal f) <=? se_last_goal e then Some (false, <[k := e]> seen)
          else Some (true, <[k := {| se_host := se_host e; se_session := se_session e; se_last := se_last e; se_last_goal := rg_goal_id (cf_goal f) |}]> seen)
        else Some (true, <[k := e]> seen)
  end.
(** The same for a client with its windows. *)
Definition client_admits (c : Connection) (f : ControlFrame) (seen : list ClientSeen) : option (bool * list ClientSeen) :=
  let fresh := {| cs_host := cx_host c; cs_boot := rt_boot_id (cf_source f); cs_session := cx_session c; cs_requests := new_window; cs_goals := new_window |} in
  let found := match list_find (fun e => cs_host e = cx_host c) seen with
               | Some (k, e) => Some (k, e, seen)
               | None => if 192 <=? Z.of_nat (length seen) then None else Some (length seen, fresh, seen ++ [fresh])
               end in
  match found with
  | None => None
  | Some (k, e, seen) =>
      let e := if negb (cs_boot e =?? rt_boot_id (cf_source f)) || negb (cs_session e =? cx_session c) then fresh else e in
      let (new, requests) := AdmitId (cs_requests e) (cf_request_id f) in
      let (new, goals) := if new && is_kind f ControlMessage.ACTION_GOAL_REQUEST then AdmitId (cs_goals e) (rg_goal_id (cf_goal f)) else (new, cs_goals e) in
      Some (new, <[k := {| cs_host := cs_host e; cs_boot := cs_boot e; cs_session := cs_session e; cs_requests := requests; cs_goals := goals |}]> seen)
  end.
Definition log_request (c : Connection) (f : ControlFrame) (accepted : bool) (s : Node) : Node :=
  nd_log_admission {| ad_observer := cx_diagnostics_only c; ad_host := cx_host c; ad_session := cx_session c; ad_frame := f; ad_accepted := accepted |} s.
Definition push_job (c : Connection) (f : ControlFrame) (now : Z) (s : Node) : bool * Node :=
  if 64 <=? Z.of_nat (length (nd_jobs s)) then (false, log_request c f false s)
  else (true, log_request c f true
                (nd_set_jobs (nd_jobs s ++ [{| jb_connection := cx_id c; jb_frame := f; jb_deadline := now + cf_timeout_ms f * millisecond |}]) s)).
Definition accept_request (i : nat) (c : Connection) (f : ControlFrame) (now : Z) (s : Node) : bool * Node :=
  let runtime := ep_runtime (cf_endpoint f) in
  if negb (rt_host runtime =?? rt_host (nd_self s)) || negb (rt_boot_id runtime =?? rt_boot_id (nd_self s)) then (false, s)
  else if cx_diagnostics_only c then
    match client_admits c f (nd_client_seen s) with
    | None => (false, s)
    | Some (false, seen) => refuse i f (- EALREADY) (nd_count_ignored (log_request c f false (nd_set_client_seen seen s)))
    | Some (true, seen) => push_job c f now (nd_set_client_seen seen s)
    end
  else
    match gateway_admits c f (nd_seen s) with
    | None => (false, s)
    | Some (false, seen) => (true, nd_count_ignored (log_request c f false (nd_set_seen seen s)))
    | Some (true, seen) => push_job c f now (nd_set_seen seen s)
    end.

(** A response to a pending request. *)
Definition answers_pending (p f : ControlFrame) : bool :=
  (cf_endpoint f =?? cf_endpoint p) && (cf_name f =?? cf_name p) && (cf_type f =?? cf_type p) && (cf_target f =? cf_target p) &&
  (cf_response_type f =?? cf_response_type p) && (cf_feedback_type f =?? cf_feedback_type p) && (cf_goal f =?? cf_goal p) &&
  (cf_operation f =? ResponseOperation (cf_operation p)).
Definition receive_response_frame (c : Connection) (f : ControlFrame) (now : Z) (s : Node) : bool * Node :=
  match list_find (fun p => pe_sent p = true /\ pe_connection p = cx_id c /\ cf_request_id (pe_frame p) = cf_request_id f) (nd_pending s) with
  | None => (true, nd_count_ignored s)
  | Some (k, p) =>
      if negb (answers_pending (pe_frame p) f) then (false, s)
      else
        let deadline := match nd_batches s !! pe_batch p with Some b => bt_deadline b | None => 0 end in
        if deadline <=? now then (true, nd_count_ignored (Fail k (- ETIMEDOUT) s))
        else (true, FinishPending k (cf_status f) (cf_reason f) (cf_payload f) true (cf_outcome_unknown f) s)
  end.
(** [Receive]; [false] closes the connection. *)
Definition HandleFrame (i : nat) (f : ControlFrame) (peers : list PeerInfo) (now : Z) (s : Node) : bool * Node :=
  match nd_connections s !! i, peer_of peers (rt_host (cf_source f)) with
  | Some c, Some peer =>
      if negb (pi_boot_id peer =?? rt_boot_id (cf_source f)) || negb (pi_session_id peer =? cf_session_id f) || negb (pi_address peer =?? cx_address c)
      then (false, s)
      else
        let observer := if cx_ready c then cx_diagnostics_only c else negb (cx_outbound c) && LimitedAllowed peer in
        if negb (if observer then LimitedAllowed peer else Allowed peer) then (false, s)
        else if is_kind f ControlMessage.HELLO then receive_hello i c f observer s
        else if negb (cx_ready c) || negb (cx_host c =?? rt_host (cf_source f)) || negb (cx_session c =? cf_session_id f) then (false, s)
        else if is_kind f ControlMessage.DESCRIPTOR_REQUEST && negb (DescriptorClientAllowed peer)
        then queue_at i (reply_frame (nd_self s) (nd_session s) ControlMessage.DESCRIPTOR_RESPONSE (- EACCES) f) s
        else match (if cx_diagnostics_only c then observer_filter i c peer f s else None) with
        | Some answer => answer
        | None =>
            if is_kind f ControlMessage.DIAGNOSTICS_REQUEST then AdmitDiagnostics i f now s
            else if is_kind f ControlMessage.ACTION_FEEDBACK || is_kind f ControlMessage.ACTION_RESULT then goal_event c f s
            else if IsRequest (cf_operation f) then accept_request i c f now s
            else receive_response_frame c f now s
        end
  | _, _ => (false, s)
  end.

(** ** Reading and writing *)
(** One [recv]: bytes with the clock at each frame, the end, or an errno. *)
Inductive ReadAnswer := ReadBytes (data : list Z) (clock : nat -> Z) | ReadEnd | ReadErrno (e : positive).
Definition would_block (e : positive) : bool := (Z.pos e =? EAGAIN) || (Z.pos e =? EINTR).
(** The frames that are complete; [None] closes the connection. *)
Fixpoint drain_frames (fuel : nat) (i k : nat) (clock : nat -> Z) (peers : list PeerInfo) (s : Node) : bool * Node :=
  match fuel with
  | O => (true, s)
  | S fuel =>
      match nd_connections s !! i with
      | None => (false, s)
      | Some c =>
          if vsize (cx_input c) <? CONTROL_PREFIX_SIZE then (true, s)
          else match ControlFrameSize (Some (cx_input c)) with
          | Err _ => (false, s)
          | Ok size =>
              if vsize (cx_input c) <? size then (true, s)
              else match DecodeControlFrame (Some (take (Z.to_nat size) (cx_input c))) with
              | Err _ => (false, s)
              | Ok f =>
                  let (good, s) := HandleFrame i f peers (clock k) s in
                  if negb good then (false, s)
                  else match nd_connections s !! i with
                  | None => (false, s)
                  | Some c => drain_frames fuel i (S k) clock peers (put_connection i (cx_set_input (drop (Z.to_nat size) (cx_input c)) c) s)
                  end
              end
          end
      end
  end.
Fixpoint ReadConnection (attempts : nat) (answers : list ReadAnswer) (i : nat) (peers : list PeerInfo) (s : Node) : bool * Node :=
  match attempts, answers with
  | S n, ReadBytes data clock :: rest =>
      match nd_connections s !! i with
      | None => (false, s)
      | Some c =>
          if data =?? [] then (false, s) else
          let s := put_connection i (cx_set_input (cx_input c ++ data) c) s in
          let (good, s) := drain_frames (S (length (cx_input c ++ data))) i 0 clock peers s in
          if negb good then (false, s)
          else match nd_connections s !! i with
          | None => (false, s)
          | Some c => if MAX_CONTROL_FRAME <? vsize (cx_input c) then (false, s) else ReadConnection n rest i peers s
          end
      end
  | S _, ReadEnd :: _ => (false, s)
  | S _, ReadErrno e :: _ => (would_block e, s)
  | _, _ => (true, s)
  end.
(** One [send]: [n] bytes of what is offered, or an errno. *)
Inductive WriteAnswer := WriteCount (n : nat) | WriteErrno (e : positive).
Fixpoint WriteConnection (attempts : nat) (answers : list WriteAnswer) (c : Connection) : bool * Connection :=
  match attempts, cx_output c, answers with
  | S k, bytes :: _, WriteCount n :: rest =>
      let n := Z.min (Z.of_nat n) (vsize bytes - cx_offset c) in
      if n =? 0 then (false, c)
      else WriteConnection k rest (cx_advance n (cx_offset c + n =? vsize bytes) c)
  | S _, _ :: _, WriteErrno e :: _ => (would_block e, c)
  | _, _, _ => (true, c)
  end.

(** ** Connections *)
(** What the kernel answers for a peer that is to be connected. *)
Inductive ConnectAnswer := NoSocket (e : positive) | NoBind | Refused | InProgress | Connected.
Definition connect_peer (self_host : HostIdentity) (answer : ConnectAnswer) (now : Z) (p : PeerInfo) (s : Node) : Node :=
  if (MAX_CONNECTIONS <=? Z.of_nat (length (nd_connections s))) || negb (Allowed p) || negb (Lower self_host (pi_host p)) then s
  else if existsb (fun c => cx_host c =?? pi_host p) (nd_connections s) then s
  else
    let add := fun connecting =>
      let s := nd_draw_connection s in
      nd_set_connections (nd_connections s ++
        [new_connection (nd_next_connection s) true connecting (pi_host p) (pi_session_id p) (pi_address p) (now + nc_connect_timeout config)]) s in
    match answer with
    | NoSocket e => nd_set_error (- Z.pos e) s
    | NoBind | Refused => s
    | InProgress => add true
    | Connected =>
        let s := add false in
        let last := (length (nd_connections s) - 1)%nat in
        let (good, s) := SendHello last s in if good then s else DropConnection last s
    end.
Fixpoint ConnectPeers (answers : nat -> ConnectAnswer) (now : Z) (i : nat) (peers : list PeerInfo) (s : Node) : Node :=
  match peers with
  | [] => s
  | p :: rest => ConnectPeers answers now (S i) rest (connect_peer (rt_host (nd_self s)) (answers i) now p s)
  end.
(** The accepted connections, by address, at most 16 at a time. *)
Fixpoint AcceptConnections (budget : nat) (addresses : list (list Z)) (now : Z) (s : Node) : Node :=
  match budget, addresses with
  | S n, ip :: rest =>
      if MAX_CONNECTIONS <=? Z.of_nat (length (nd_connections s)) then AcceptConnections n rest now s
      else
        let s := nd_draw_connection s in
        AcceptConnections n rest now
          (nd_set_connections (nd_connections s ++ [new_connection (nd_next_connection s) false false no_host_id 0 ip (now + nc_connect_timeout config)]) s)
  | _, _ => s
  end.

(** ** One turn of the loop *)
(** Connections that were aborted, have not greeted in time or whose peer is gone, from the
    last to the first. *)
Definition must_drop (c : Connection) (peers : list PeerInfo) (now : Z) (s : Node) : bool :=
  bool_decide (cx_id c ∈ nd_abort s) || (negb (cx_ready c) && (cx_deadline c <=? now)) ||
  (ValidHost (cx_host c) &&
   match peer_of peers (cx_host c) with
   | None => true
   | Some peer => negb (if cx_diagnostics_only c then LimitedAllowed peer else Allowed peer) || negb (pi_session_id peer =? cx_session c) ||
                  (cx_diagnostics_only c && negb (pi_boot_id peer =?? rt_boot_id (cx_observer_source c)))
   end).
Fixpoint sweep_connections (peers : list PeerInfo) (now : Z) (n : nat) (s : Node) : Node :=
  match n with
  | O => s
  | S i => sweep_connections peers now i
             (match nd_connections s !! i with Some c => if must_drop c peers now s then DropConnection i s else s | None => s end)
  end.
Definition pending_deadline (p : Pending) (s : Node) : Z := match nd_batches s !! pe_batch p with Some b => bt_deadline b | None => 0 end.
(** Requests that expired or whose endpoint is no longer reachable, from the last to the first. *)
Definition expire_pending (i : nat) (p : Pending) (peers : list PeerInfo) (now : Z) (s : Node) : Node :=
  let f := pe_frame p in
  if pending_deadline p s <=? now then Fail i (- ETIMEDOUT) s
  else match peer_of peers (rt_host (ep_runtime (cf_endpoint f))) with
  | None => FinishPending i (- ENOTCONN) CompatibilityReason.PEER_LOST [] false false s
  | Some peer =>
      let gate := CheckRouteCompatibility discovery peer (ControlConsumer (nd_self s) (cf_name f) (cf_type f) (cf_response_type f) (cf_feedback_type f))
                    (cf_endpoint f) (cf_target f) in
      if Compatible gate then s else FinishPending i (ReasonError (cr_reason gate)) (cr_reason gate) [] false false s
  end.
Fixpoint sweep_pending (peers : list PeerInfo) (now : Z) (n : nat) (s : Node) : Node :=
  match n with
  | O => s
  | S i => sweep_pending peers now i (match nd_pending s !! i with Some p => expire_pending i p peers now s | None => s end)
  end.
(** The request at [i] goes to the first ready connection of its host; [false]: it was erased. *)
Definition remaining_ms (deadline now : Z) : Z := Z.max 1 (Z.quot (deadline - now) millisecond).
Definition send_pending (i : nat) (p : Pending) (now : Z) (s : Node) : bool * Node :=
  if pe_sent p then (true, s)
  else match list_find (fun c => (cx_host c =?? rt_host (ep_runtime (cf_endpoint (pe_frame p)))) && cx_ready c = true) (nd_connections s) with
  | None => (true, s)
  | Some (k, c) =>
      let ms := remaining_ms (pending_deadline p s) now in
      let s := nd_set_pending (<[i := pending_timeout ms p]> (nd_pending s)) s in
      let (good, s) := queue_at k (frame_timeout ms (pe_frame p)) s in
      if negb good then (false, Fail i (- EAGAIN) s)
      else
        let s := nd_set_pending (<[i := pending_sent ms (cx_id c) p]> (nd_pending s)) s in
        let s := match nd_batches s !! pe_batch p with
                 | Some b => if is_goal b then
                               match bt_endpoints b !! pe_index p with
                               | Some r => match er_action r with
                                           | Some a => nd_set_outgoing (nd_outgoing s ++ [{| go_action := a; go_connection := cx_id c |}]) s
                                           | None => s
                                           end
                               | None => s
                               end
                             else s
                 | None => s
                 end in
        (true, nd_log_request (cx_id c) (frame_timeout ms (pe_frame p)) (nd_count_sent s))
  end.
Fixpoint send_pendings (fuel i : nat) (now : Z) (s : Node) : Node :=
  match fuel with
  | O => s
  | S fuel => match nd_pending s !! i with
              | None => s
              | Some p => let (kept, s) := send_pending i p now s in send_pendings fuel (if kept then S i else i) now s
              end
  end.
(** A reply of the backend goes to its connection, if it still exists. *)
Definition send_reply (s : Node) (r : NodeReply) : Node :=
  match find_connection (rp_connection r) s with
  | None => s
  | Some (i, _) =>
      let (good, s) := queue_at i (rp_frame r) s in
      if negb good && negb (is_kind (rp_frame r) ControlMessage.ACTION_FEEDBACK) then DropConnection i s else s
  end.
(** What [poll] reported for a connection and what the calls on it answered. *)
Record ConnectionEvents := {
  ce_in : bool; ce_out : bool; ce_bad : bool; ce_connected : bool; ce_reads : list ReadAnswer; ce_writes : list WriteAnswer
}.
Definition finish_connect (i : nat) (ev : ConnectionEvents) (s : Node) : bool * Node :=
  match nd_connections s !! i with
  | Some c => if cx_connecting c && ce_out ev then
                let s := put_connection i (cx_connected c) s in
                if ce_connected ev then SendHello i s else (false, s)
              else (true, s)
  | None => (true, s)
  end.
Definition write_out (i : nat) (ev : ConnectionEvents) (s : Node) : bool * Node :=
  match nd_connections s !! i with
  | Some c => if ce_out ev && negb (cx_connecting c) then let (good, c) := WriteConnection 16 (ce_writes ev) c in (good, put_connection i c s) else (true, s)
  | None => (true, s)
  end.
Definition serve_connection (i : nat) (ev : ConnectionEvents) (peers : list PeerInfo) (s : Node) : Node :=
  let (good, s) := finish_connect i ev s in
  let (good, s) := if good && ce_in ev then ReadConnection 16 (ce_reads ev) i peers s else (good, s) in
  let (good, s) := if good then write_out i ev s else (good, s) in
  if negb good || ce_bad ev then DropConnection i (if negb good then nd_count_rejected s else s) else s.
Fixpoint serve_connections (events : nat -> ConnectionEvents) (peers : list PeerInfo) (n : nat) (s : Node) : Node :=
  match n with
  | O => s
  | S i => serve_connections events peers i (serve_connection i (events i) peers s)
  end.
(** The answers of one turn; [tn_poll]: [None] when [poll] failed. *)
Record NodeTurn := {
  tn_peers : list PeerInfo;
  tn_now : Z;
  tn_dispatch : DispatchEnv;
  tn_connect : option (nat -> ConnectAnswer);
  tn_poll : bool;
  tn_events : nat -> ConnectionEvents;
  tn_accepted : list (list Z)
}.
Definition io_admit (t : NodeTurn) (s : Node) : Node :=
  let peers := tn_peers t in
  let s := AdmitBatches peers s in
  let s := sweep_connections peers (tn_now t) (length (nd_connections s)) s in
  let s := DispatchDiagnostics (tn_dispatch t) peers (ReclaimObserverDiagnostics peers s) in
  match tn_connect t with Some answers => ConnectPeers answers (tn_now t) 0 peers s | None => s end.
Definition io_expire (t : NodeTurn) (s : Node) : Node :=
  let s := io_admit t s in
  sweep_pending (tn_peers t) (tn_now t) (length (nd_pending s)) s.
Definition io_front (t : NodeTurn) (s : Node) : Node :=
  let s := io_expire t s in
  let s := send_pendings (length (nd_pending s)) 0 (tn_now t) s in
  foldl send_reply (nd_set_replies [] s) (nd_replies s).
Definition io_turn (t : NodeTurn) (s : Node) : Node :=
  let s := io_front t s in
  if negb (tn_poll t) then s
  else
    let s := serve_connections (tn_events t) (tn_peers t) (length (nd_connections s)) s in
    AcceptConnections 16 (tn_accepted t) (tn_now t) s.
(** The end of the thread: everything that waits is told so. *)
Definition io_end (s : Node) : Node :=
  let s := finish_where (fun _ => true) (- ECANCELED) (length (nd_pending s)) (nd_stop s) in
  let s := foldr DropConnection s (seq 0 (length (nd_connections s))) in
  let s := foldl (fun s k => match nd_batches s !! k with Some b => nd_set_batches (<[k := fail_batch (- ECANCELED) b]> (nd_batches s)) s | None => s end)
             s (nd_submissions s) in
  nd_set_submissions [] s.

(** ** Submission *)
Definition Submit (target : RemoteTarget) (name : list Z) (type : TypeIdentity) (value : list Z) (set : bool) (timeout now : Z)
    (response feedback : TypeIdentity) (cancel : option nat) (s : Node) : nat * Node :=
  let action := negb (feedback =?? no_type) in
  let service := negb action && negb (response =?? no_type) in
  let goal := action && match cancel with Some _ => false | None => true end in
  let bad :=
    ((service || action) && (negb (ValidType response) || (MAX_PARAMETER_WIRE <? ty_payload_size response))) ||
    negb (ValidTarget target) || negb (Text name 240) || negb (first_char name =? SLASH) || negb (ValidType type) ||
    (MAX_PARAMETER_WIRE <? ty_payload_size type) || (timeout <? 1) || (60000 <? timeout) ||
    (if set || service || goal then negb (vsize value =? ty_payload_size type) else negb (value =?? [])) ||
    (action && (negb (ValidType feedback) || (MAX_PARAMETER_WIRE <? ty_payload_size feedback))) in
  let code := if bad then - EINVAL else if negb (nd_running s) then - ENOTCONN
              else if 64 <=? Z.of_nat (length (nd_submissions s)) then - EAGAIN else 0 in
  let b := {| bt_target := target; bt_name := name; bt_type := type; bt_response_type := response; bt_feedback_type := feedback; bt_cancel := cancel;
              bt_value := value; bt_set := set; bt_service := service; bt_action := action; bt_deadline := now + timeout * millisecond; bt_error := 0;
              bt_endpoints := []; bt_left := 0; bt_fulfilled := [] |} in
  let k := length (nd_batches s) in
  if negb (code =? 0) then (k, nd_set_batches (nd_batches s ++ [fail_batch code b]) s)
  else (k, nd_set_submissions (nd_submissions s ++ [k]) (nd_set_batches (nd_batches s ++ [b]) s)).
(** [CancelAction] on a session: the check, then a batch with one endpoint. *)
Definition cancel_check (a : ActionSession) (s : Node) : Z :=
  if negb (rg_source (cf_goal (as_request a)) =?? nd_self s) || negb (cf_session_id (as_request a) =? nd_session s) then - EACCES
  else if negb (sn_accepted (as_snapshot a)) || sn_terminal (as_snapshot a) || sn_communication_lost (as_snapshot a) then - ENOENT else 0.
Definition endpoint_target (e : RemoteEndpointIdentity) : RemoteTarget :=
  {| tg_scope := TargetScope.ENDPOINT; tg_endpoint := e; tg_host := no_host_id; tg_application := no_runtime; tg_group := [] |}.
Definition NodeCancelAction (k : nat) (timeout now : Z) (s : Node) : result nat * Node :=
  match nd_actions s !! k with
  | None => (Err (- EINVAL), s)
  | Some a =>
      if negb (cancel_check a s =? 0) then (Err (cancel_check a s), s)
      else
        let r := as_request a in
        let (b, s) := Submit (endpoint_target (cf_endpoint r)) (cf_name r) (cf_type r) [] false timeout now (cf_response_type r) (cf_feedback_type r) (Some k) s in
        (Ok b, s)
  end.

(** ** What the other threads do under the mutex *)
(** The reply of a job; [ActionReply] keeps the newest feedback of a goal only and reserves
    room for results. *)
Definition push_reply (r : NodeReply) (s : Node) : Node :=
  if Z.of_nat (length (nd_replies s)) <? 64 then nd_set_replies (nd_replies s ++ [r]) s else s.
Definition abort_connection (id : Z) (s : Node) : Node := nd_set_abort (set_insert id (nd_abort s)) s.
Definition abort_live (id : Z) (s : Node) : Node := if bool_decide (id ∈ nd_live s) then abort_connection id s else s.
Definition Live (id : Z) (s : Node) : bool := nd_running s && bool_decide (id ∈ nd_live s) && negb (bool_decide (id ∈ nd_abort s)).
Definition same_feedback (id : Z) (f : ControlFrame) (r : NodeReply) : bool :=
  (rp_connection r =? id) && is_kind (rp_frame r) ControlMessage.ACTION_FEEDBACK && (cf_goal (rp_frame r) =?? cf_goal f).
Definition ActionReply (id : Z) (f : ControlFrame) (s : Node) : Node :=
  let r := {| rp_connection := id; rp_frame := f |} in
  if negb (nd_running s) || negb (bool_decide (id ∈ nd_live s)) then s
  else
    let feedback := is_kind f ControlMessage.ACTION_FEEDBACK in
    match (if feedback then list_find (fun r => same_feedback id f r = true) (nd_replies s) else None) with
    | Some (k, _) => nd_set_replies (<[k := r]> (nd_replies s)) s
    | None =>
        if feedback && (48 <=? Z.of_nat (length (nd_replies s))) then s
        else if 64 <=? Z.of_nat (length (nd_replies s)) then abort_connection id s
        else nd_set_replies (nd_replies s ++ [r]) s
    end.
Definition take_job (s : Node) : option (Job * Node) :=
  match nd_jobs s with [] => None | j :: rest => Some (j, nd_set_jobs rest s) end.

(** ** The node *)
Inductive NodeEvent :=
| NeTurn (t : NodeTurn)
| NeEnd
| NeSubmit (target : RemoteTarget) (name : list Z) (type : TypeIdentity) (value : list Z) (set : bool) (timeout now : Z) (response feedback : TypeIdentity)
| NeCancel (k : nat) (timeout now : Z)
| NeTake
| NeReply (r : NodeReply)
| NeActionReply (id : Z) (f : ControlFrame)
| NeAbort (id : Z).
Definition node_step (e : NodeEvent) (s : Node) : Node :=
  match e with
  | NeTurn t => io_turn t s
  | NeEnd => io_end s
  | NeSubmit target name type value set timeout now response feedback => snd (Submit target name type value set timeout now response feedback None s)
  | NeCancel k timeout now => snd (NodeCancelAction k timeout now s)
  | NeTake => match take_job s with Some (_, s) => s | None => s end
  | NeReply r => push_reply r s
  | NeActionReply id f => ActionReply id f s
  | NeAbort id => abort_connection id s
  end.
Definition node_run (es : list NodeEvent) (s : Node) : Node := foldl (fun s e => node_step e s) s es.
(** The state [Start] leaves; the counters of requests, goals and connections go on. *)
Definition started_node (self : RemoteRuntimeIdentity) (session request goal connection now : Z) : Node :=
  {| nd_self := self; nd_session := session; nd_running := true; nd_error := 0; nd_batches := []; nd_actions := []; nd_submissions := []; nd_jobs := [];
     nd_replies := []; nd_live := []; nd_abort := []; nd_pending := []; nd_connections := []; nd_seen := []; nd_client_seen := [];
     nd_diagnostics_jobs := []; nd_diagnostics_seen := []; nd_observer_seen := []; nd_next_diagnostics := now; nd_outgoing := [];
     nd_next_request := request; nd_next_connection := connection; nd_next_goal := goal; nd_connected := 0; nd_sent := 0; nd_ignored := 0;
     nd_rejected := 0; nd_admitted := []; nd_requests := []; nd_drawn := 0 |}.
End Node.
