(* ===== verification/ControlNodeCore.v ===== *)
(** * The control node as an abstract machine

    [NodeCore] keeps of a [Node] the batches, pending requests, connections, records of seen
    requests and bounded queues; [core_move] is the abstract machine of what may happen to
    them.  [node_refines_core] shows that every run of the node is a run of that machine;
    [ControlNodeSafety] proves its invariants by induction on the moves. *)
From S2P Require Import Prelude Wire NetTypes NetWire Compatibility DiscoveryProtocol TypeDescriptor NetworkDiagnostics ControlFrame PeerDiscovery RemoteAction ControlNode.

(** ** The node as an abstract machine *)
(** [kn_waiting]: the submitted batches that have not been admitted; those of [w] were taken
    from the queue in this turn. *)
Record NodeCore := {
  kn_waiting : list nat;
  kn_batches : list Batch;
  kn_pending : list Pending;
  kn_connections : list Connection;
  kn_next_connection : Z;
  kn_next_request : Z;
  kn_next_goal : Z;
  kn_requests : list (Z * ControlFrame);
  kn_admitted : list Admission;
  kn_seen : list Seen;
  kn_client_seen : list ClientSeen;
  kn_jobs : list Job;
  kn_replies : list NodeReply;
  kn_diagnostics_jobs : list Job;
  kn_diagnostics_seen : list DiagnosticsSeen;
  kn_observer_seen : list DiagnosticsSeen;
  kn_drawn : Z
}.
Definition ncore (w : list nat) (s : Node) : NodeCore :=
  {| kn_waiting := w ++ nd_submissions s; kn_batches := nd_batches s; kn_pending := nd_pending s; kn_connections := nd_connections s; kn_next_connection := nd_next_connection s;
     kn_next_request := nd_next_request s; kn_next_goal := nd_next_goal s; kn_requests := nd_requests s; kn_admitted := nd_admitted s; kn_seen := nd_seen s;
     kn_client_seen := nd_client_seen s; kn_jobs := nd_jobs s; kn_replies := nd_replies s; kn_diagnostics_jobs := nd_diagnostics_jobs s;
     kn_diagnostics_seen := nd_diagnostics_seen s; kn_observer_seen := nd_observer_seen s; kn_drawn := nd_drawn s |}.
Definition kn_set_batches (w : list nat) (l : list Batch) (k : NodeCore) : NodeCore :=
  {| kn_waiting := w; kn_batches := l; kn_pending := kn_pending k; kn_connections := kn_connections k;
     kn_next_connection := kn_next_connection k; kn_next_request := kn_next_request k; kn_next_goal := kn_next_goal k;
     kn_requests := kn_requests k; kn_admitted := kn_admitted k; kn_seen := kn_seen k; kn_client_seen :=
     kn_client_seen k; kn_jobs := kn_jobs k; kn_replies := kn_replies k; kn_diagnostics_jobs := kn_diagnostics_jobs k;
     kn_diagnostics_seen := kn_diagnostics_seen k; kn_observer_seen := kn_observer_seen k; kn_drawn := kn_drawn k |}.
Definition kn_set_pending (l : list Pending) (k : NodeCore) : NodeCore :=
  {| kn_waiting := kn_waiting k; kn_batches := kn_batches k; kn_pending := l; kn_connections := kn_connections k;
     kn_next_connection := kn_next_connection k; kn_next_request := kn_next_request k; kn_next_goal := kn_next_goal k;
     kn_requests := kn_requests k; kn_admitted := kn_admitted k; kn_seen := kn_seen k; kn_client_seen :=
     kn_client_seen k; kn_jobs := kn_jobs k; kn_replies := kn_replies k; kn_diagnostics_jobs := kn_diagnostics_jobs k;
     kn_diagnostics_seen := kn_diagnostics_seen k; kn_observer_seen := kn_observer_seen k; kn_drawn := kn_drawn k |}.
Definition kn_set_connections (l : list Connection) (k : NodeCore) : NodeCore :=
  {| kn_waiting := kn_waiting k; kn_batches := kn_batches k; kn_pending := kn_pending k; kn_connections := l;
     kn_next_connection := kn_next_connection k; kn_next_request := kn_next_request k; kn_next_goal := kn_next_goal k;
     kn_requests := kn_requests k; kn_admitted := kn_admitted k; kn_seen := kn_seen k; kn_client_seen :=
     kn_client_seen k; kn_jobs := kn_jobs k; kn_replies := kn_replies k; kn_diagnostics_jobs := kn_diagnostics_jobs k;
     kn_diagnostics_seen := kn_diagnostics_seen k; kn_observer_seen := kn_observer_seen k; kn_drawn := kn_drawn k |}.
Definition kn_open (l : list Connection) (k : NodeCore) : NodeCore :=
  {| kn_waiting := kn_waiting k; kn_batches := kn_batches k; kn_pending := kn_pending k; kn_connections := l;
     kn_next_connection := u64 (kn_next_connection k + 1); kn_next_request := kn_next_request k; kn_next_goal :=
     kn_next_goal k; kn_requests := kn_requests k; kn_admitted := kn_admitted k; kn_seen := kn_seen k; kn_client_seen
     := kn_client_seen k; kn_jobs := kn_jobs k; kn_replies := kn_replies k; kn_diagnostics_jobs := kn_diagnostics_jobs
     k; kn_diagnostics_seen := kn_diagnostics_seen k; kn_observer_seen := kn_observer_seen k; kn_drawn := kn_drawn k +
     1 |}.
Definition kn_set_requests (l : list (Z * ControlFrame)) (k : NodeCore) : NodeCore :=
  {| kn_waiting := kn_waiting k; kn_batches := kn_batches k; kn_pending := kn_pending k; kn_connections :=
     kn_connections k; kn_next_connection := kn_next_connection k; kn_next_request := kn_next_request k; kn_next_goal
     := kn_next_goal k; kn_requests := l; kn_admitted := kn_admitted k; kn_seen := kn_seen k; kn_client_seen :=
     kn_client_seen k; kn_jobs := kn_jobs k; kn_replies := kn_replies k; kn_diagnostics_jobs := kn_diagnostics_jobs k;
     kn_diagnostics_seen := kn_diagnostics_seen k; kn_observer_seen := kn_observer_seen k; kn_drawn := kn_drawn k |}.
Definition kn_set_counters (request goal : Z) (k : NodeCore) : NodeCore :=
  {| kn_waiting := kn_waiting k; kn_batches := kn_batches k; kn_pending := kn_pending k; kn_connections :=
     kn_connections k; kn_next_connection := kn_next_connection k; kn_next_request := request; kn_next_goal := goal;
     kn_requests := kn_requests k; kn_admitted := kn_admitted k; kn_seen := kn_seen k; kn_client_seen :=
     kn_client_seen k; kn_jobs := kn_jobs k; kn_replies := kn_replies k; kn_diagnostics_jobs := kn_diagnostics_jobs k;
     kn_diagnostics_seen := kn_diagnostics_seen k; kn_observer_seen := kn_observer_seen k; kn_drawn := kn_drawn k |}.
Definition kn_set_jobs (seen : list Seen) (clients : list ClientSeen) (jobs : list Job) (admitted : list Admission) (k : NodeCore) : NodeCore :=
  {| kn_waiting := kn_waiting k; kn_batches := kn_batches k; kn_pending := kn_pending k; kn_connections :=
     kn_connections k; kn_next_connection := kn_next_connection k; kn_next_request := kn_next_request k; kn_next_goal
     := kn_next_goal k; kn_requests := kn_requests k; kn_admitted := admitted; kn_seen := seen; kn_client_seen :=
     clients; kn_jobs := jobs; kn_replies := kn_replies k; kn_diagnostics_jobs := kn_diagnostics_jobs k;
     kn_diagnostics_seen := kn_diagnostics_seen k; kn_observer_seen := kn_observer_seen k; kn_drawn := kn_drawn k |}.
Definition kn_set_side (replies : list NodeReply) (jobs : list Job) (seen observers : list DiagnosticsSeen) (k : NodeCore) : NodeCore :=
  {| kn_waiting := kn_waiting k; kn_batches := kn_batches k; kn_pending := kn_pending k; kn_connections :=
     kn_connections k; kn_next_connection := kn_next_connection k; kn_next_request := kn_next_request k; kn_next_goal
     := kn_next_goal k; kn_requests := kn_requests k; kn_admitted := kn_admitted k; kn_seen := kn_seen k;
     kn_client_seen := kn_client_seen k; kn_jobs := kn_jobs k; kn_replies := replies; kn_diagnostics_jobs := jobs;
     kn_diagnostics_seen := seen; kn_observer_seen := observers; kn_drawn := kn_drawn k |}.
(** A bounded list stays so. *)
Definition capped {A} (cap : Z) (old new : list A) : Prop := (length new <= length old)%nat \/ Z.of_nat (length new) <= cap.

(** The host a request goes to, and whether some connection can take it. *)
Definition pe_host (p : Pending) : HostIdentity := rt_host (ep_runtime (cf_endpoint (pe_frame p))).
Definition serves (p : Pending) (c : Connection) : bool := (cx_host c =?? pe_host p) && cx_ready c.
(** The number of a request and, of a goal, the number of the goal. *)
Definition frame_key (f : ControlFrame) : Z * option Z :=
  (cf_request_id f, if is_kind f ControlMessage.ACTION_GOAL_REQUEST then Some (rg_goal_id (cf_goal f)) else None).
Definition pe_key (p : Pending) : Z * option Z := frame_key (pe_frame p).

(** What may happen to a connection; its identity stays once it is ready. *)
Inductive conn_change (c : Connection) : Connection -> Prop :=
| ch_queue f bytes : EncodeControlFrame f = Ok bytes -> cx_queued c + vsize bytes <= MAX_QUEUE_BYTES -> conn_change c (cx_enqueue f bytes c)
| ch_hello sent : conn_change c (cx_hello sent c)
| ch_input bytes : conn_change c (cx_set_input bytes c)
| ch_observe observer source : cx_ready c = false -> conn_change c (cx_observe observer source c)
| ch_identify host session : cx_ready c = false -> conn_change c (cx_identify host session c)
| ch_ready : conn_change c (cx_set_ready c)
| ch_connected : conn_change c (cx_connected c)
| ch_pending b : conn_change c (cx_set_pending b c)
| ch_advance bytes rest n : cx_output c = bytes :: rest -> n <= vsize bytes - cx_offset c -> (cx_offset c <= vsize bytes -> 0 < n) ->
    conn_change c (cx_advance n (cx_offset c + n =? vsize bytes) c).

(** The requests that batch [k] turns into. *)
Definition batch_key (goals : bool) (next goal : Z) (i : nat) : Z * option Z :=
  (next + 1 + Z.of_nat i, if goals then Some (goal + 1 + Z.of_nat i) else None).
Definition batch_pending (k start : nat) (goals : bool) (next goal : Z) (ps : list Pending) : Prop :=
  forall i p, ps !! i = Some p -> pe_batch p = k /\ pe_index p = (start + i)%nat /\ pe_sent p = false /\ pe_key p = batch_key goals next goal i.

(** The admission of a request on connection [c]: whether it is new, and the records after it. *)
Definition admits (c : Connection) (f : ControlFrame) (k : NodeCore) (new : bool) (seen : list Seen) (clients : list ClientSeen) : Prop :=
  if cx_diagnostics_only c then client_admits c f (kn_client_seen k) = Some (new, clients) /\ seen = kn_seen k
  else gateway_admits c f (kn_seen k) = Some (new, seen) /\ clients = kn_client_seen k.

Definition admission (c : Connection) (f : ControlFrame) (accepted : bool) : Admission :=
  {| ad_observer := cx_diagnostics_only c; ad_host := cx_host c; ad_session := cx_session c; ad_frame := f; ad_accepted := accepted |}.

(** What the thread may do after it has taken the submissions. *)
Inductive io_move (k : NodeCore) : NodeCore -> Prop :=
| mv_finish i p b out out' : kn_pending k !! i = Some p -> kn_batches k !! pe_batch p = Some b -> bt_endpoints b !! pe_index p = Some out ->
    io_move k (kn_set_batches (kn_waiting k) (<[pe_batch p := settle_batch (pe_index p) out' b]> (kn_batches k)) (kn_set_pending (delete i (kn_pending k)) k))
| mv_orphan i p : kn_pending k !! i = Some p -> (kn_batches k !! pe_batch p = None \/ exists b, kn_batches k !! pe_batch p = Some b /\ bt_endpoints b !! pe_index p = None) ->
    io_move k (kn_set_pending (delete i (kn_pending k)) k)
| mv_connection i c c' : kn_connections k !! i = Some c -> conn_change c c' ->
    io_move k (kn_set_connections (<[i := c']> (kn_connections k)) k)
| mv_close i : io_move k (kn_set_connections (delete i (kn_connections k)) k)
| mv_open outbound connecting host session address deadline : Z.of_nat (length (kn_connections k)) < MAX_CONNECTIONS ->
    io_move k (kn_open (kn_connections k ++ [new_connection (u64 (kn_next_connection k + 1)) outbound connecting host session address deadline]) k)
| mv_retime i p ms : kn_pending k !! i = Some p -> io_move k (kn_set_pending (<[i := pending_timeout ms p]> (kn_pending k)) k)
| mv_send i p j c ms : kn_pending k !! i = Some p -> pe_sent p = false -> kn_connections k !! j = Some c -> serves p c = true ->
    (forall i' q, (i' < i)%nat -> kn_pending k !! i' = Some q -> pe_sent q = false -> Forall (fun c => serves q c = false) (kn_connections k)) ->
    io_move k (kn_set_requests (kn_requests k ++ [(cx_id c, frame_timeout ms (pe_frame p))])
                   (kn_set_pending (<[i := pending_sent ms (cx_id c) p]> (kn_pending k)) k))
| mv_seen c f new seen clients : admits c f k new seen clients ->
    io_move k (kn_set_jobs seen clients (kn_jobs k) (kn_admitted k ++ [admission c f false]) k)
| mv_job c f seen clients deadline : admits c f k true seen clients -> Z.of_nat (length (kn_jobs k)) < 64 ->
    io_move k (kn_set_jobs seen clients (kn_jobs k ++ [{| jb_connection := cx_id c; jb_frame := f; jb_deadline := deadline |}])
       (kn_admitted k ++ [admission c f true]) k)
| mv_side r j d o : capped 64 (kn_replies k) r -> capped MAX_DIAGNOSTICS_JOBS (kn_diagnostics_jobs k) j ->
    capped MAX_CONNECTIONS (kn_diagnostics_seen k) d -> capped MAX_CONNECTIONS (kn_observer_seen k) o -> io_move k (kn_set_side r j d o k)
| mv_take j l : kn_jobs k = j :: l -> io_move k (kn_set_jobs (kn_seen k) (kn_client_seen k) l (kn_admitted k) k).

Inductive core_move (k : NodeCore) : NodeCore -> Prop :=
| mv_io k' : io_move k k' -> core_move k k'
| mv_reject n b w code : kn_waiting k = n :: w -> kn_batches k !! n = Some b ->
    core_move k (kn_set_batches w (<[n := fail_batch code b]> (kn_batches k)) k)
| mv_lost n w : kn_waiting k = n :: w -> kn_batches k !! n = None -> core_move k (kn_set_batches w (kn_batches k) k)
| mv_admit n b w results ps goals : kn_waiting k = n :: w -> kn_batches k !! n = Some b -> length results = length ps -> (0 < length ps)%nat ->
    Z.of_nat (length ps + length (kn_pending k)) <= MAX_PENDING -> kn_next_request k + Z.of_nat (length ps) <= UINT64_MAX ->
    batch_pending n 0 goals (kn_next_request k) (kn_next_goal k) ps ->
    core_move k (kn_set_batches w (<[n := expand_batch results b]> (kn_batches k))
                   (kn_set_counters (kn_next_request k + Z.of_nat (length ps)) (if goals then kn_next_goal k + Z.of_nat (length ps) else kn_next_goal k)
                     (kn_set_pending (kn_pending k ++ ps) k)))
| mv_submit b : bt_endpoints b = [] -> bt_left b = 0 -> bt_fulfilled b = [] ->
    core_move k (kn_set_batches (kn_waiting k ++ [length (kn_batches k)]) (kn_batches k ++ [b]) k)
| mv_refuse b code : bt_endpoints b = [] -> bt_left b = 0 -> bt_fulfilled b = [] ->
    core_move k (kn_set_batches (kn_waiting k) (kn_batches k ++ [fail_batch code b]) k).
Abbreviation moves := (rtc core_move).

(** ** Simulation *)
Definition sim (s s' : Node) : Prop := forall w, rtc io_move (ncore w s) (ncore w s').
#[export] Instance sim_preorder : PreOrder sim.
Proof. split; [by intros s w|]. intros a b c Hab Hbc w. etrans; [apply Hab|apply Hbc]. Qed.
Lemma sim_same s s' : (forall w, ncore w s' = ncore w s) -> sim s s'.
Proof. intros H w. by rewrite H. Qed.
Lemma sim_once s s' : (forall w, io_move (ncore w s) (ncore w s')) -> sim s s'.
Proof. intros H w. by apply rtc_once. Qed.
Lemma capped_refl {A} cap (l : list A) : capped cap l l.
Proof. by left. Qed.
Lemma capped_filter {A} cap (l : list A) (P : A -> Prop) `{!forall x, Decision (P x)} : capped cap l (filter P l).
Proof. left. apply length_filter. Qed.
#[export] Hint Resolve capped_refl capped_filter : kcf.
Lemma sim_side s r j d o : capped 64 (nd_replies s) r -> capped MAX_DIAGNOSTICS_JOBS (nd_diagnostics_jobs s) j ->
  capped MAX_CONNECTIONS (nd_diagnostics_seen s) d -> capped MAX_CONNECTIONS (nd_observer_seen s) o ->
  sim s (nd_set_replies r (nd_set_diagnostics_jobs j (nd_set_diagnostics_seen d (nd_set_observer_seen o s)))).
Proof. intros. apply sim_once. intros w. by apply (mv_side (ncore w s)). Qed.
Lemma sim_diagnostics_jobs s l : capped MAX_DIAGNOSTICS_JOBS (nd_diagnostics_jobs s) l -> sim s (nd_set_diagnostics_jobs l s).
Proof. intros H. etrans; [apply (sim_side s (nd_replies s) l (nd_diagnostics_seen s) (nd_observer_seen s)); auto with kcf|]. by apply sim_same. Qed.
Lemma sim_replies s l : capped 64 (nd_replies s) l -> sim s (nd_set_replies l s).
Proof. intros H. etrans; [apply (sim_side s l (nd_diagnostics_jobs s) (nd_diagnostics_seen s) (nd_observer_seen s)); auto with kcf|]. by apply sim_same. Qed.
Lemma sim_diagnostics_seen s l : capped MAX_CONNECTIONS (nd_diagnostics_seen s) l -> sim s (nd_set_diagnostics_seen l s).
Proof. intros H. etrans; [apply (sim_side s (nd_replies s) (nd_diagnostics_jobs s) l (nd_observer_seen s)); auto with kcf|]. by apply sim_same. Qed.
Lemma sim_observer_seen s l : capped MAX_CONNECTIONS (nd_observer_seen s) l -> sim s (nd_set_observer_seen l s).
Proof. intros H. etrans; [apply (sim_side s (nd_replies s) (nd_diagnostics_jobs s) (nd_diagnostics_seen s) l); auto with kcf|]. by apply sim_same. Qed.

(** *** Requests of this node *)
Lemma core_update_action w k g s : ncore w (update_action k g s) = ncore w s.
Proof. unfold update_action. by destruct (nd_actions s !! k). Qed.
Lemma fields_update_action k g s : nd_pending (update_action k g s) = nd_pending s /\ nd_batches (update_action k g s) = nd_batches s.
Proof. unfold update_action. by destruct (nd_actions s !! k). Qed.
Lemma sim_Finish index code reason value confirmed unknown s : sim s (FinishPending index code reason value confirmed unknown s).
Proof.
  unfold FinishPending. destruct (nd_pending s !! index) as [p|] eqn:Hp; [|done]. set (s1 := nd_set_pending _ s).
  destruct (nd_batches s1 !! pe_batch p) as [b|] eqn:Hb.
  2:{ apply sim_once. intros w. apply (mv_orphan (ncore w s) index p); [done|by left]. }
  destruct (bt_endpoints b !! pe_index p) as [out|] eqn:Ho.
  2:{ apply sim_once. intros w. apply (mv_orphan (ncore w s) index p); [done|right; by exists b]. }
  cbn zeta. match goal with |- sim s (nd_set_batches (<[_ := settle_batch _ ?o b]> (nd_batches ?x)) _) => set (s2 := x); set (out' := o) end.
  assert (H2 : forall w, ncore w s2 = ncore w s1).
  { intros w. unfold s2. destruct (er_action out) as [k|]; [|done]. destruct (bt_cancel b); [by rewrite core_update_action|].
    case_check; [|by rewrite core_update_action]. case_check; unfold drop_outgoing_goal, nd_set_abort, nd_set_outgoing; cbn; unfold ncore; cbn; apply (core_update_action w k). }
  apply sim_once. intros w.
  replace (ncore w (nd_set_batches _ s2)) with (kn_set_batches (kn_waiting (ncore w s1)) (<[pe_batch p := settle_batch (pe_index p) out' b]> (nd_batches s)) (ncore w s1)).
  - by apply (mv_finish (ncore w s) index p b out).
  - specialize (H2 w). rewrite <- H2. unfold kn_set_batches, ncore. cbn. f_equal. f_equal. assert (E := f_equal kn_batches H2). cbn in E. by rewrite E.
Qed.
Lemma sim_finish_where test code n : forall s, sim s (finish_where test code n s).
Proof.
  induction n as [|i IH]; intros s; cbn [finish_where]; [done|]. etrans; [|apply IH]. destruct (nd_pending s !! i) as [p|]; [|done].
  destruct (test p); [apply sim_Finish|done].
Qed.
Lemma sim_lose_goals id s : sim s (lose_goals id s).
Proof.
  unfold lose_goals. match goal with |- sim s (nd_set_outgoing _ ?x) => set (s1 := x) end.
  trans s1; [|by apply sim_same]. unfold s1. clear s1. generalize (nd_outgoing s) as l. intros l. revert s.
  induction l as [|o l IH]; intros s; cbn [foldl]; [done|]. etrans; [|apply IH]. case_check; [|done]. apply sim_same. intros w. apply core_update_action.
Qed.
Lemma sim_delete_connection i s : sim s (nd_set_connections (delete i (nd_connections s)) s).
Proof. apply sim_once. intros w. apply (mv_close (ncore w s)). Qed.
Lemma sim_Drop i s : sim s (DropConnection i s).
Proof.
  unfold DropConnection. destruct (nd_connections s !! i) as [c|]; [|done]. etrans; [|apply sim_delete_connection].
  etrans; [|apply sim_finish_where]. etrans; [|apply sim_lose_goals]. etrans; [eapply sim_diagnostics_jobs, (capped_filter _ _ (fun j => jb_connection j <> cx_id c))|by apply sim_same].
Qed.
(** *** One connection *)
Lemma sim_put i c c' s : nd_connections s !! i = Some c -> conn_change c c' -> sim s (put_connection i c' s).
Proof. intros Hi Hc. apply sim_once. intros w. by apply (mv_connection (ncore w s) i c). Qed.
Lemma put_same i c s : nd_connections s !! i = Some c -> nd_set_connections (<[i := c]> (nd_connections s)) s = s.
Proof. intros H. destruct s. unfold nd_set_connections. cbn in *. by rewrite list_insert_id. Qed.
Lemma QueueFrame_cases c f : let (good, c') := QueueFrame c f in
  if good then exists bytes, EncodeControlFrame f = Ok bytes /\ cx_queued c + vsize bytes <= MAX_QUEUE_BYTES /\ c' = cx_enqueue f bytes c else c' = c.
Proof.
  unfold QueueFrame. destruct (EncodeControlFrame f) as [bytes|]; [|done]. case_check; [done|]. bool_to_prop. exists bytes. split_and!; auto.
  unfold MAX_DIAGNOSTICS_QUEUE_BYTES, MAX_QUEUE_BYTES in *. destruct (cx_diagnostics_only c); lia.
Qed.
Lemma sim_queue_at i f s : sim s (snd (queue_at i f s)).
Proof.
  unfold queue_at. destruct (nd_connections s !! i) as [c|] eqn:Hi; [|done]. pose proof (QueueFrame_cases c f) as H.
  destruct (QueueFrame c f) as [[|] c']; cbn [snd].
  - destruct H as (bytes & He & Hq & ->). apply (sim_put i c); [done|by eapply ch_queue].
  - subst. by rewrite put_same.
Qed.
Lemma sim_SendHello i s : sim s (snd (SendHello i s)).
Proof.
  unfold SendHello. pose proof (sim_queue_at i (blank_frame (nd_self s) (nd_session s)) s) as H. destruct (queue_at _ _ s) as [good s1]. cbn [snd] in H.
  etrans; [exact H|]. destruct (nd_connections s1 !! i) as [c|] eqn:Hi; [|done]. apply (sim_put i c); [done|constructor].
Qed.

(** *** Admission of batches *)
Lemma goal_operation b : (batch_operation b =? ControlMessage.ACTION_GOAL_REQUEST) = is_goal b.
Proof. unfold batch_operation, is_goal. destruct (bt_action b), (bt_cancel b), (bt_service b), (bt_set b); reflexivity. Qed.
Definition draws (b : Batch) (n : Z) (ps : list Pending) (s : Node) (w : list nat) : NodeCore :=
  kn_set_counters (nd_next_request s + n) (if is_goal b then nd_next_goal s + n else nd_next_goal s) (kn_set_pending (nd_pending s ++ ps) (ncore w s)).
Lemma admit_endpoint_core k b i e s : exists p, pe_batch p = k /\ pe_index p = i /\ pe_sent p = false /\
  pe_key p = batch_key (is_goal b) (nd_next_request s) (nd_next_goal s) 0 /\ forall w, ncore w (snd (admit_endpoint k b i e s)) = draws b 1 [p] s w.
Proof.
  pose proof (goal_operation b) as Hg. unfold admit_endpoint, draws, pe_key, frame_key, batch_key, is_kind.
  destruct (bt_action b) eqn:Ea; [destruct (bt_cancel b) as [a|] eqn:Ec|]; cbn [snd];
    (assert (Ei : is_goal b = bt_action b && match bt_cancel b with Some _ => false | None => true end) by done; rewrite Ea, ?Ec in Ei; cbn in Ei);
    rewrite Ei in *; eexists; (split_and!; [..|intros w; reflexivity]); try reflexivity; cbn [pe_frame batch_frame cf_operation cf_request_id cf_goal rg_goal_id]; rewrite Hg, !Z.add_0_r; reflexivity.
Qed.
Lemma draws_counters b n ps s w s' : ncore w s' = draws b n ps s w -> nd_next_request s' = nd_next_request s + n /\
  nd_next_goal s' = (if is_goal b then nd_next_goal s + n else nd_next_goal s) /\ nd_pending s' = nd_pending s ++ ps.
Proof. intros H. split_and!; [exact (f_equal kn_next_request H)|exact (f_equal kn_next_goal H)|exact (f_equal kn_pending H)]. Qed.
Lemma admit_endpoints_core k b es : forall i s, let (results, s') := admit_endpoints k b i es s in
  length results = length es /\ exists ps, length ps = length es /\ batch_pending k i (is_goal b) (nd_next_request s) (nd_next_goal s) ps /\
  forall w, ncore w s' = draws b (Z.of_nat (length es)) ps s w.
Proof.
  induction es as [|e es IH]; intros i s; cbn [admit_endpoints].
  { split; [done|]. exists []. split_and!; [done|by intros j p|]. intros w. unfold draws. rewrite app_nil_r, !Z.add_0_r. by destruct (is_goal b). }
  destruct (admit_endpoint_core k b i e s) as (p & H1 & H2 & H3 & H4 & H5). destruct (admit_endpoint k b i e s) as [r s1]. cbn [snd] in H5.
  specialize (IH (S i) s1). destruct (admit_endpoints k b (S i) es s1) as [l s2]. destruct IH as (Hl & ps & Hlen & Hps & Hc).
  destruct (draws_counters _ _ _ _ _ _ (H5 [])) as (En & Eg & Ep). split; [cbn; lia|]. exists (p :: ps). split_and!; [cbn; lia| |].
  - intros [|j] q Hq; cbn in Hq; [injection Hq as <-; split_and!; auto; lia|]. destruct (Hps j q Hq) as (? & ? & ? & Hk). split_and!; auto; [lia|].
    rewrite Hk, En, Eg. unfold batch_key. destruct (is_goal b); [f_equal; [lia|f_equal; lia]|f_equal; lia].
  - intros w. rewrite Hc. unfold draws. rewrite H5, En, Eg, Ep, <- app_assoc. unfold draws. destruct (is_goal b); cbn -[Z.of_nat]; unfold kn_set_counters, kn_set_pending; cbn -[Z.of_nat]; f_equal; lia.
Qed.
Lemma sim_admit_batch peers k s w : moves (ncore (k :: w) s) (ncore w (admit_batch peers k s)).
Proof.
  unfold admit_batch. destruct (nd_batches s !! k) as [b|] eqn:Hb; [|apply rtc_once; by apply (mv_lost (ncore (k :: w) s) k)].
  cbn zeta. assert (Hfail : forall code, moves (ncore (k :: w) s) (ncore w (nd_set_batches (<[k := fail_batch code b]> (nd_batches s)) s))).
  { intros code. apply rtc_once. by apply (mv_reject (ncore (k :: w) s)). }
  case_check; [apply Hfail|]. case_check; [apply Hfail|]. bool_to_prop.
  pose proof (admit_endpoints_core k b (select_endpoints b peers) 0 s) as Hadm. destruct (admit_endpoints _ _ _ _ _) as [results s1].
  destruct Hadm as (Hl & ps & Hlen & Hps & Hc). apply rtc_once. specialize (Hc w).
  assert (Eb : nd_batches s1 = nd_batches s) by exact (f_equal kn_batches Hc).
  assert (Ew : nd_submissions s1 = nd_submissions s) by exact (app_inv_head _ _ _ (f_equal kn_waiting Hc)).
  replace (ncore w (nd_set_batches _ s1)) with (kn_set_batches (w ++ nd_submissions s) (<[k := expand_batch results b]> (kn_batches (ncore (k :: w) s)))
    (draws b (Z.of_nat (length ps)) ps s (k :: w))).
  - apply (mv_admit (ncore (k :: w) s) k b (w ++ nd_submissions s) results ps (is_goal b)); cbn; auto; try lia.
  - rewrite Eb. change (ncore w (nd_set_batches ?l s1)) with (kn_set_batches (w ++ nd_submissions s1) l (ncore w s1)). rewrite Hc, Hlen, Ew. done.
Qed.
Lemma sim_AdmitBatches peers s : moves (ncore [] s) (ncore [] (AdmitBatches peers s)).
Proof.
  unfold AdmitBatches. replace (ncore [] s) with (ncore (nd_submissions s) (nd_set_submissions [] s)) by (unfold ncore; cbn; by rewrite app_nil_r).
  generalize (nd_set_submissions [] s) as s0. generalize (nd_submissions s) as l. clear s.
  induction l as [|k l IH]; intros s; cbn [foldl]; [done|]. etrans; [apply sim_admit_batch|apply IH].
Qed.

(** *** Diagnostics *)
Section Simulation.
Context (config : NodeConfig).
Lemma diagnostics_record_capped c f records k e l : diagnostics_record c f records = Some (k, e, l) -> forall e', capped MAX_CONNECTIONS records (<[k := e']> l).
Proof.
  unfold diagnostics_record, capped. intros H e'. rewrite length_insert. destruct (list_find _ _) as [[j x]|].
  - left. by injection H as <- _ <-.
  - case_check; [done|]. bool_to_prop. injection H as <- _ <-. right. rewrite length_app. cbn. lia.
Qed.
Lemma sim_DiagnosticsError i f code s : sim s (snd (DiagnosticsError i f code s)).
Proof. apply sim_queue_at. Qed.
Lemma sim_AdmitDiagnostics i f now s : sim s (snd (AdmitDiagnostics config i f now s)).
Proof.
  unfold AdmitDiagnostics. destruct (nd_connections s !! i) as [c|] eqn:Hi; [|done]. case_check; [apply sim_DiagnosticsError|]. cbn zeta.
  set (records := if cx_diagnostics_only c then nd_observer_seen s else nd_diagnostics_seen s).
  destruct (diagnostics_record c f records) as [[[k e] l]|] eqn:Hd; [|apply sim_DiagnosticsError].
  assert (Hput : forall e', sim s (if cx_diagnostics_only c then nd_set_observer_seen (<[k := e']> l) s else nd_set_diagnostics_seen (<[k := e']> l) s)).
  { intros e'. pose proof (diagnostics_record_capped _ _ _ _ _ _ Hd e') as Hc. unfold records in Hc.
    destruct (cx_diagnostics_only c); [by apply sim_observer_seen|by apply sim_diagnostics_seen]. }
  case_check; [etrans; [|apply sim_DiagnosticsError]; etrans; [apply Hput|by apply sim_same]|].
  case_check; [etrans; [|apply sim_DiagnosticsError]; apply Hput|]. bool_to_prop. cbn [snd].
  match goal with |- sim s (nd_set_diagnostics_jobs _ (nd_set_connections _ ?x)) => set (s1 := x); assert (Hs1 : sim s s1) by apply Hput end.
  assert (E1 : nd_connections s1 = nd_connections s /\ nd_diagnostics_jobs s1 = nd_diagnostics_jobs s) by (unfold s1; by destruct (cx_diagnostics_only c)).
  clearbody s1. destruct E1 as [E1 E2]. etrans; [exact Hs1|]. etrans; [apply (sim_put i c (cx_set_pending true c)); [by rewrite E1|constructor]|].
  apply sim_diagnostics_jobs. right. cbn. rewrite length_app, E2. cbn. lia.
Qed.
Lemma find_connection_lookup id s i c : find_connection id s = Some (i, c) -> nd_connections s !! i = Some c /\ cx_id c = id.
Proof. unfold find_connection. intros H. apply list_find_Some in H as (? & ? & _). done. Qed.
Lemma sim_Dispatch dg peers s : sim s (DispatchDiagnostics config dg peers s).
Proof.
  unfold DispatchDiagnostics. case_check; [done|]. cbn zeta. trans (nd_set_next_diagnostics (dg_now dg + 20 * millisecond) s); [by apply sim_same|].
  set (s1 := nd_set_next_diagnostics _ s). destruct (nd_diagnostics_jobs s1) as [|job rest] eqn:Hj; [done|].
  etrans; [apply (sim_diagnostics_jobs s1 rest); left; rewrite Hj; cbn; lia|]. destruct (find_connection _ _) as [[i c]|] eqn:Hf; [|done].
  apply find_connection_lookup in Hf as [Hf _]. etrans; [apply (sim_put i c (cx_set_pending false c)); [done|constructor]|].
  set (s2 := put_connection _ _ _). destruct (peer_of _ _) as [peer|]; [|apply sim_Drop]. case_check; [|apply sim_Drop].
  pose proof (sim_queue_at i (node_diagnostics_answer dg job s2) s2) as H. unfold s2, put_connection in *. destruct (queue_at _ _ _) as [[|] s3]; cbn [snd] in H; [exact H|].
  etrans; [exact H|apply sim_Drop].
Qed.

(** *** Frames *)
Lemma sim_become_ready i s : sim s (become_ready i s).
Proof.
  unfold become_ready. destruct (nd_connections s !! i) as [c|] eqn:Hi; [|done].
  etrans; [apply (sim_put i c (cx_set_ready c)); [done|constructor]|]. by apply sim_same.
Qed.
Lemma lookup_put i c c' s : nd_connections s !! i = Some c -> nd_connections (put_connection i c' s) !! i = Some c'.
Proof. intros H. cbn. apply list_lookup_insert_eq. by eapply lookup_lt_Some. Qed.
Lemma sim_hello i c f observer s : nd_connections s !! i = Some c -> sim s (snd (receive_hello i c f observer s)).
Proof.
  intros Hi. unfold receive_hello. case_check; [done|]. do 2 (case_check; [first [done | case_check; [done|apply sim_become_ready]]|]). do 1 (case_check; [done|]).
  cbn zeta. set (c1 := cx_observe observer (cf_source f) c). assert (H1 : sim s (put_connection i c1 s)) by (apply (sim_put i c); [done|by constructor]).
  case_check; [exact H1|]. set (c2 := cx_identify _ _ c1).
  assert (H2 : sim s (put_connection i c2 (put_connection i c1 s))).
  { etrans; [exact H1|]. apply (sim_put i c1); [by eapply lookup_put|by constructor]. }
  pose proof (sim_SendHello i (put_connection i c2 (put_connection i c1 s))) as H3. destruct (SendHello _ _) as [[|] s3]; cbn [snd] in *.
  - etrans; [exact H2|]. etrans; [exact H3|]. apply sim_become_ready.
  - etrans; [exact H2|exact H3].
Qed.
Lemma sim_filter i c peer f s answer : observer_filter config i c peer f s = Some answer -> sim s (snd answer).
Proof.
  unfold observer_filter. cbn zeta. intros H. repeat (case_check; [apply (inj Some) in H as <-; first [done | apply sim_queue_at]|]). done.
Qed.
Lemma sim_goal_event c f s : sim s (snd (goal_event c f s)).
Proof.
  unfold goal_event. destruct (list_find _ _) as [[k o]|]; [|by apply sim_same]. destruct (nd_actions s !! go_action o) as [a|]; [|done].
  cbn zeta. do 2 (case_check; [done|]). case_check; [case_check; [by apply sim_same|apply sim_same; intros; apply core_update_action]|].
  apply sim_same. intros w. apply (core_update_action w (go_action o)).
Qed.
Lemma sim_push_job c f now s : forall seen clients, (forall w, admits c f (ncore w s) true seen clients) ->
  sim s (snd (push_job c f now (nd_set_seen seen (nd_set_client_seen clients s)))).
Proof.
  intros seen clients Ha. unfold push_job. case_check; cbn [snd].
  - apply sim_once. intros w. by apply (mv_seen (ncore w s) c f true).
  - bool_to_prop. apply sim_once. intros w. by apply (mv_job (ncore w s) c f seen clients).
Qed.
Lemma nd_seen_id s : nd_set_seen (nd_seen s) s = s.
Proof. by destruct s. Qed.
Lemma nd_client_seen_id s : nd_set_client_seen (nd_client_seen s) s = s.
Proof. by destruct s. Qed.
Lemma sim_request i c f now s : sim s (snd (accept_request i c f now s)).
Proof.
  unfold accept_request. cbn zeta. case_check; [done|]. destruct (cx_diagnostics_only c) eqn:Hd.
  - destruct (client_admits c f (nd_client_seen s)) as [[[|] l]|] eqn:Ha; [| |done].
    + pose proof (sim_push_job c f now s (nd_seen s) l) as H. change (nd_set_seen (nd_seen s) (nd_set_client_seen l s)) with (nd_set_client_seen l s) in H.
      apply H. intros w. unfold admits. by rewrite Hd.
    + etrans; [|apply sim_queue_at]. apply sim_once. intros w. apply (mv_seen (ncore w s) c f false (nd_seen s) l). unfold admits. by rewrite Hd.
  - destruct (gateway_admits c f (nd_seen s)) as [[[|] l]|] eqn:Ha; [| |done].
    + pose proof (sim_push_job c f now s l (nd_client_seen s)) as H. rewrite nd_client_seen_id in H. apply H. intros w. unfold admits. by rewrite Hd.
    + apply sim_once. intros w. apply (mv_seen (ncore w s) c f false l (nd_client_seen s)). unfold admits. by rewrite Hd.
Qed.
Lemma sim_response c f now s : sim s (snd (receive_response_frame c f now s)).
Proof.
  unfold receive_response_frame. destruct (list_find _ _) as [[k p]|]; [|by apply sim_same]. case_check; [done|]. cbn zeta.
  case_check; [etrans; [apply sim_Finish|by apply sim_same]|apply sim_Finish].
Qed.
Lemma sim_HandleFrame i f peers now s : sim s (snd (HandleFrame config i f peers now s)).
Proof.
  unfold HandleFrame. destruct (nd_connections s !! i) as [c|] eqn:Hi; [|done]. destruct (peer_of _ _) as [peer|]; [|done].
  case_check; [done|]. cbn zeta. case_check; [done|]. case_check; [by apply sim_hello|]. destruct (negb (cx_ready c) || _ || _) eqn:Hc; [done|].
  case_check; [apply sim_queue_at|].
  destruct (if cx_diagnostics_only c then _ else _) as [answer|] eqn:Ho.
  { destruct (cx_diagnostics_only c); [|done]. by eapply sim_filter. }
  case_check; [apply sim_AdmitDiagnostics|]. case_check; [apply sim_goal_event|]. case_check; [|apply sim_response].
  apply sim_request.
Qed.

(** *** Reading and writing *)
Lemma sim_drain fuel : forall i k clock peers s, sim s (snd (drain_frames config fuel i k clock peers s)).
Proof.
  induction fuel as [|fuel IH]; intros i k clock peers s; cbn [drain_frames]; [done|].
  destruct (nd_connections s !! i) as [c|]; [|done]. case_check; [done|]. destruct (ControlFrameSize _) as [size|]; [|done].
  case_check; [done|]. destruct (DecodeControlFrame _) as [f|]; [|done]. pose proof (sim_HandleFrame i f peers (clock k) s) as Hh.
  destruct (HandleFrame _ _ _ _ _ _) as [[|] s1]; cbn [snd negb] in *; [|done].
  destruct (nd_connections s1 !! i) as [c1|] eqn:Hc1; [|done]. etrans; [exact Hh|]. etrans; [|apply IH]. apply (sim_put i c1); [done|constructor].
Qed.
Lemma sim_Read attempts : forall answers i peers s, sim s (snd (ReadConnection config attempts answers i peers s)).
Proof.
  induction attempts as [|n IH]; intros answers i peers s; cbn [ReadConnection]; [done|]. destruct answers as [|[data clock| |e] rest]; try done.
  destruct (nd_connections s !! i) as [c|] eqn:Hc; [|done]. destruct (data =?? []); [done|].
  pose proof (sim_put i c (cx_set_input (cx_input c ++ data) c) s Hc (ch_input _ _)) as Hp.
  pose proof (sim_drain (S (length (cx_input c ++ data))) i 0 clock peers (put_connection i (cx_set_input (cx_input c ++ data) c) s)) as Hd.
  destruct (drain_frames _ _ _ _ _ _ _) as [[|] s1]; cbn [snd negb] in *; [|by etrans].
  destruct (nd_connections s1 !! i) as [c1|]; [|by etrans]. case_check; [by etrans|]. etrans; [exact Hp|]. etrans; [exact Hd|apply IH].
Qed.
Lemma write_changes attempts : forall answers c, rtc conn_change c (snd (WriteConnection attempts answers c)).
Proof.
  induction attempts as [|k IH]; intros answers c; cbn [WriteConnection]; [done|]. destruct (cx_output c) as [|bytes rest] eqn:Ho; [done|].
  destruct answers as [|[n|e] answers]; try done. case_check; [done|]. bool_to_prop.
  eapply rtc_l; [|apply IH]. apply (ch_advance c bytes rest); [done|lia..].
Qed.
Lemma sim_puts i c c' : rtc conn_change c c' -> forall s, nd_connections s !! i = Some c -> sim s (put_connection i c' s).
Proof.
  induction 1 as [c|c c1 c2 H1 _ IH]; intros s Hi; [unfold put_connection; by rewrite put_same|].
  etrans; [by apply (sim_put i c c1)|]. etrans; [eapply IH; by eapply lookup_put|]. apply sim_same. intros w. unfold put_connection, ncore. cbn. by rewrite list_insert_insert_eq.
Qed.
Lemma sim_write_out i ev s : sim s (snd (write_out i ev s)).
Proof.
  unfold write_out. destruct (nd_connections s !! i) as [c|] eqn:Hi; [|done]. case_check; [|done].
  pose proof (write_changes 16 (ce_writes ev) c) as Hw. destruct (WriteConnection _ _ _) as [good c1]. by apply (sim_puts i c).
Qed.
Lemma sim_finish_connect i ev s : sim s (snd (finish_connect i ev s)).
Proof.
  unfold finish_connect. destruct (nd_connections s !! i) as [c|] eqn:Hi; [|done]. case_check; [|done]. cbn zeta.
  assert (Hp : sim s (put_connection i (cx_connected c) s)) by (apply (sim_put i c); [done|constructor]).
  case_check; [|exact Hp]. etrans; [exact Hp|apply sim_SendHello].
Qed.
Lemma sim_serve i ev peers s : sim s (serve_connection config i ev peers s).
Proof.
  unfold serve_connection. pose proof (sim_finish_connect i ev s) as H1. destruct (finish_connect i ev s) as [good s1]. cbn [snd] in H1. etrans; [exact H1|].
  assert (H2 : sim s1 (snd (if good && ce_in ev then ReadConnection config 16 (ce_reads ev) i peers s1 else (good, s1)))) by (case_check; [apply sim_Read|done]).
  destruct (if good && ce_in ev then _ else _) as [good2 s2]. cbn [snd] in H2. etrans; [exact H2|].
  assert (H3 : sim s2 (snd (if good2 then write_out i ev s2 else (good2, s2)))) by (destruct good2; [apply sim_write_out|done]).
  destruct (if good2 then _ else _) as [good3 s3]. cbn [snd] in H3. etrans; [exact H3|].
  case_check; [|done]. etrans; [|apply sim_Drop]. case_check; [by apply sim_same|done].
Qed.
Lemma sim_serves events peers n : forall s, sim s (serve_connections config events peers n s).
Proof. induction n as [|i IH]; intros s; cbn [serve_connections]; [done|]. etrans; [apply sim_serve|apply IH]. Qed.

(** *** Connections *)
Lemma sim_open outbound connecting host session address deadline s : (MAX_CONNECTIONS <=? Z.of_nat (length (nd_connections s))) = false ->
  sim s (nd_set_connections (nd_connections (nd_draw_connection s) ++ [new_connection (nd_next_connection (nd_draw_connection s)) outbound connecting host session address deadline]) (nd_draw_connection s)).
Proof. intros H. bool_to_prop. apply sim_once. intros w. by apply (mv_open (ncore w s)). Qed.
Lemma sim_connect_peer self_host answer now p s : sim s (connect_peer config self_host answer now p s).
Proof.
  unfold connect_peer. destruct (MAX_CONNECTIONS <=? _) eqn:Hm; [done|]. cbn [orb]. case_check; [done|]. case_check; [done|]. cbn zeta.
  destruct answer; try done; try (by apply sim_same); [by apply sim_open|].
  match goal with |- sim s (let (_, _) := SendHello ?l ?x in _) => pose proof (sim_SendHello l x) as Hh; assert (Ho : sim s x) by (by apply sim_open); destruct (SendHello l x) as [[|] s1] end;
    cbn [snd] in Hh; (etrans; [exact Ho|]); [exact Hh|]. etrans; [exact Hh|apply sim_Drop].
Qed.
Lemma sim_ConnectPeers answers now peers : forall i s, sim s (ConnectPeers config answers now i peers s).
Proof. induction peers as [|p peers IH]; intros i s; cbn [ConnectPeers]; [done|]. etrans; [apply sim_connect_peer|apply IH]. Qed.
Lemma sim_Accept budget : forall addresses now s, sim s (AcceptConnections config budget addresses now s).
Proof.
  induction budget as [|n IH]; intros addresses now s; cbn [AcceptConnections]; [done|]. destruct addresses as [|ip rest]; [done|].
  destruct (MAX_CONNECTIONS <=? _) eqn:Hm; [apply IH|]. cbn zeta. etrans; [by apply sim_open|apply IH].
Qed.
Lemma sim_sweep_connections peers now n : forall s, sim s (sweep_connections config peers now n s).
Proof.
  induction n as [|i IH]; intros s; cbn [sweep_connections]; [done|]. etrans; [|apply IH].
  destruct (nd_connections s !! i) as [c|]; [|done]. case_check; [apply sim_Drop|done].
Qed.
Lemma sim_sweep_pending peers now n : forall s, sim s (sweep_pending config peers now n s).
Proof.
  induction n as [|i IH]; intros s; cbn [sweep_pending]; [done|]. etrans; [|apply IH].
  destruct (nd_pending s !! i) as [p|]; [|done]. unfold expire_pending. case_check; [apply sim_Finish|].
  destruct (peer_of _ _); [|apply sim_Finish]. cbn zeta. case_check; [done|apply sim_Finish].
Qed.

(** *** Sending requests in order *)
(** No connection can take a request before place [i] that has not been sent. *)
Definition settled_below (i : nat) (s : Node) : Prop :=
  forall j q, (j < i)%nat -> nd_pending s !! j = Some q -> pe_sent q = false -> Forall (fun c => serves q c = false) (nd_connections s).
Lemma queue_at_serves k f s q : Forall (fun c => serves q c = false) (nd_connections s) -> Forall (fun c => serves q c = false) (nd_connections (snd (queue_at k f s))).
Proof.
  intros H. unfold queue_at. destruct (nd_connections s !! k) as [c|] eqn:Hk; [|done]. pose proof (QueueFrame_cases c f) as Hc.
  pose proof (Forall_lookup_1 _ _ _ _ H Hk) as Hs. destruct (QueueFrame c f) as [[|] c']; cbn [snd].
  - destruct Hc as (bytes & _ & _ & ->). apply Forall_insert; [exact H|exact Hs].
  - subst c'. by apply Forall_insert.
Qed.
Lemma queue_at_pending k f s : nd_pending (snd (queue_at k f s)) = nd_pending s.
Proof. unfold queue_at. destruct (nd_connections s !! k); [|done]. by destruct (QueueFrame _ _). Qed.
Lemma Finish_pending i code reason value confirmed unknown s :
  nd_pending (FinishPending i code reason value confirmed unknown s) = (if decide (is_Some (nd_pending s !! i)) then delete i (nd_pending s) else nd_pending s) /\
  nd_connections (FinishPending i code reason value confirmed unknown s) = nd_connections s.
Proof.
  unfold FinishPending. destruct (nd_pending s !! i) as [p|] eqn:Hp; [|by rewrite decide_False by (by intros [? ?])]. rewrite decide_True by done.
  set (s1 := nd_set_pending _ s). destruct (nd_batches s1 !! pe_batch p) as [b|]; [|done]. destruct (bt_endpoints b !! pe_index p) as [out|]; [|done]. cbn zeta.
  destruct (er_action out) as [k|]; [|done]. unfold update_action. destruct (bt_cancel b); destruct (nd_actions s1 !! k); try done;
    (destruct (negb (code =? 0)); [|done]); by destruct (_ && bool_decide _).
Qed.
Lemma settled_delete i s s' : settled_below i s -> nd_connections s' = nd_connections s -> nd_pending s' = delete i (nd_pending s) -> settled_below i s'.
Proof. intros H Hc Hp j q Hj Hq. rewrite Hc. rewrite Hp, list_lookup_delete_lt in Hq by done. by eapply H. Qed.
Lemma settled_next i p s s' : settled_below i s -> nd_pending s !! i = Some p -> nd_pending s' = nd_pending s -> nd_connections s' = nd_connections s ->
  (pe_sent p = false -> Forall (fun c => serves p c = false) (nd_connections s)) -> settled_below (S i) s'.
Proof.
  intros H Hi Hp Hc Hn j q Hj Hq Hs. rewrite Hc. rewrite Hp in Hq. destruct (decide (j = i)) as [->|]; [|eapply H; [|done..]; lia].
  rewrite Hi in Hq. injection Hq as ->. auto.
Qed.
Lemma settled_insert i p s : settled_below i s -> settled_below i (nd_set_pending (<[i := p]> (nd_pending s)) s).
Proof. intros H j q Hj Hq. cbn in Hq. rewrite list_lookup_insert_ne in Hq by lia. by eapply H. Qed.
Lemma settled_queue i k f s : settled_below i s -> settled_below i (snd (queue_at k f s)).
Proof. intros H j q Hj Hq Hs. rewrite queue_at_pending in Hq. apply queue_at_serves. by eapply H. Qed.
Lemma sim_mark i p ms k c s : nd_pending s !! i = Some (pending_timeout ms p) -> pe_sent p = false -> nd_connections s !! k = Some c -> serves p c = true ->
  settled_below i s -> forall s', (forall w, ncore w s' = kn_set_requests (nd_requests s ++ [(cx_id c, frame_timeout ms (pe_frame p))])
    (kn_set_pending (<[i := pending_sent ms (cx_id c) p]> (nd_pending s)) (ncore w s))) -> sim s s'.
Proof.
  intros Hp Hs Hk Hc Hb s' Hs'. apply sim_once. intros w. rewrite Hs'. exact (mv_send (ncore w s) i (pending_timeout ms p) k c ms Hp Hs Hk Hc Hb).
Qed.
Lemma queue_at_found k f s c : nd_connections s !! k = Some c -> fst (queue_at k f s) = true ->
  exists c', nd_connections (snd (queue_at k f s)) !! k = Some c' /\ cx_id c' = cx_id c /\ forall q, serves q c' = serves q c.
Proof.
  intros Hk. unfold queue_at. rewrite Hk. pose proof (QueueFrame_cases c f) as Hc. destruct (QueueFrame c f) as [[|] c']; cbn [fst snd]; [|done].
  destruct Hc as (bytes & _ & _ & ->). intros _. exists (cx_enqueue f bytes c). split; [|done]. cbn. apply list_lookup_insert_eq. by eapply lookup_lt_Some.
Qed.
Lemma send_pending_spec i p now s : nd_pending s !! i = Some p -> settled_below i s ->
  sim s (snd (send_pending i p now s)) /\ settled_below (if fst (send_pending i p now s) then S i else i) (snd (send_pending i p now s)).
Proof.
  intros Hi Hb. unfold send_pending. destruct (pe_sent p) eqn:Hs; [cbn [fst snd]; split; [done|eapply settled_next; [done..|congruence]]|].
  destruct (list_find _ _) as [[k c]|] eqn:Hf.
  2:{ apply list_find_None in Hf. cbn [fst snd]. split; [done|]. eapply settled_next; [done..|]. intros _. eapply Forall_impl; [exact Hf|]. cbn. intros c Hc. unfold serves, pe_host. by apply not_true_is_false. }
  apply list_find_Some in Hf as (Hk & Hc & _). cbn zeta. set (ms := remaining_ms _ _). set (s1 := nd_set_pending _ s).
  assert (H1 : sim s s1) by (apply sim_once; intros w; by apply (mv_retime (ncore w s) i p ms)).
  assert (B1 : settled_below i s1) by (by apply settled_insert).
  pose proof (sim_queue_at k (frame_timeout ms (pe_frame p)) s1) as H2. pose proof (settled_queue i k (frame_timeout ms (pe_frame p)) s1 B1) as B2.
  pose proof (queue_at_pending k (frame_timeout ms (pe_frame p)) s1) as P2. pose proof (queue_at_found k (frame_timeout ms (pe_frame p)) s1 c Hk) as F2.
  destruct (queue_at _ _ s1) as [good s2]. cbn [fst snd] in H2, B2, P2, F2.
  assert (L2 : nd_pending s2 !! i = Some (pending_timeout ms p)) by (rewrite P2; cbn; apply list_lookup_insert_eq; by eapply lookup_lt_Some).
  destruct good; cbn [negb].
  - destruct (F2 eq_refl) as (c' & Hk' & Hid & Hsv). cbn [fst snd]. match goal with |- sim s ?x /\ _ => set (s3 := x) end.
    assert (C3 : forall w, ncore w s3 = kn_set_requests (nd_requests s2 ++ [(cx_id c', frame_timeout ms (pe_frame p))])
      (kn_set_pending (<[i := pending_sent ms (cx_id c') p]> (nd_pending s2)) (ncore w s2))).
    { intros w. unfold s3. rewrite Hid. destruct (nd_batches _ !! _) as [b|]; [|done]. case_check; [|done].
      destruct (bt_endpoints b !! pe_index p) as [r|]; [|done]. by destruct (er_action r). }
    split; [etrans; [exact H1|]; etrans; [exact H2|]; eapply (sim_mark i p ms k c'); eauto; by rewrite Hsv|].
    assert (P3 := f_equal kn_pending (C3 [])). assert (N3 := f_equal kn_connections (C3 [])). cbn in P3, N3.
    eapply (settled_next i (pending_sent ms (cx_id c') p) (nd_set_pending (<[i := pending_sent ms (cx_id c') p]> (nd_pending s2)) s2)); [by apply settled_insert| |done..].
    cbn. apply list_lookup_insert_eq. by eapply lookup_lt_Some.
  - cbn [fst snd]. split; [etrans; [exact H1|]; etrans; [exact H2|]; apply sim_Finish|].
    unfold Fail. destruct (Finish_pending i (- EAGAIN) CompatibilityReason.COMPATIBLE [] false false s2) as [Hp Hn].
    rewrite decide_True in Hp by done. by eapply settled_delete.
Qed.
Lemma sim_send_pendings fuel now : forall i s, settled_below i s -> sim s (send_pendings fuel i now s).
Proof.
  induction fuel as [|fuel IH]; intros i s Hb; cbn [send_pendings]; [done|]. destruct (nd_pending s !! i) as [p|] eqn:Hi; [|done].
  destruct (send_pending_spec i p now s Hi Hb) as [H1 H2]. destruct (send_pending i p now s) as [kept s1]. cbn [fst snd] in *. etrans; [exact H1|by apply IH].
Qed.
Lemma sim_send_reply r s : sim s (send_reply s r).
Proof.
  unfold send_reply. destruct (find_connection _ _) as [[i c]|]; [|done]. pose proof (sim_queue_at i (rp_frame r) s) as H. destruct (queue_at _ _ s) as [good s1].
  cbn [snd] in H. etrans; [exact H|]. case_check; [apply sim_Drop|done].
Qed.
Lemma sim_send_replies l : forall s, sim s (foldl send_reply s l).
Proof. induction l as [|r l IH]; intros s; cbn [foldl]; [done|]. etrans; [apply sim_send_reply|apply IH]. Qed.

(** *** The node *)
Definition csim (s s' : Node) : Prop := moves (ncore [] s) (ncore [] s').
#[export] Instance csim_preorder : PreOrder csim.
Proof. split; [intros s; apply rtc_refl|]. intros a b c Hab Hbc. unfold csim in *. by etrans. Qed.
Lemma sim_csim s s' : sim s s' -> csim s s'.
Proof. intros H. apply (rtc_subrel io_move); [|apply H]. by constructor. Qed.
Lemma sim_admitted t s : sim (AdmitBatches (tn_peers t) s) (io_admit config t s).
Proof.
  unfold io_admit. cbn zeta. generalize (AdmitBatches (tn_peers t) s). clear s. intros s.
  etrans; [apply (sim_sweep_connections (tn_peers t) (tn_now t) (length (nd_connections s)))|].
  generalize (sweep_connections config (tn_peers t) (tn_now t) (length (nd_connections s)) s). clear s. intros s.
  trans (ReclaimObserverDiagnostics (tn_peers t) s); [unfold ReclaimObserverDiagnostics; apply sim_observer_seen; apply capped_filter|].
  etrans; [apply (sim_Dispatch (tn_dispatch t) (tn_peers t))|]. destruct (tn_connect t); [apply sim_ConnectPeers|done].
Qed.
Lemma sim_expire t s : sim (AdmitBatches (tn_peers t) s) (io_expire config t s).
Proof. etrans; [apply (sim_admitted t)|]. apply sim_sweep_pending. Qed.
Lemma sim_front t s : sim (io_expire config t s) (io_front config t s).
Proof.
  unfold io_front. cbn zeta. generalize (io_expire config t s). clear s. intros s.
  trans (send_pendings (length (nd_pending s)) 0 (tn_now t) s); [apply sim_send_pendings; intros j q Hj; lia|]. generalize (send_pendings (length (nd_pending s)) 0 (tn_now t) s).
  clear s. intros s. etrans; [|apply sim_send_replies]. apply sim_replies. left. cbn. lia.
Qed.
Lemma sim_served t s : sim (io_expire config t s) (io_turn config t s).
Proof. unfold io_turn. cbn zeta. etrans; [apply sim_front|]. case_check; [done|]. etrans; [apply sim_serves|apply sim_Accept]. Qed.
Lemma node_sim_turn t s : csim s (io_turn config t s).
Proof. etrans; [apply (sim_AdmitBatches (tn_peers t))|]. apply sim_csim. etrans; [apply sim_expire|apply sim_served]. Qed.
Lemma sim_submit b (s : Node) : bt_endpoints b = [] -> bt_left b = 0 -> bt_fulfilled b = [] ->
  csim s (nd_set_submissions (nd_submissions s ++ [length (nd_batches s)]) (nd_set_batches (nd_batches s ++ [b]) s)) /\
  forall code, csim s (nd_set_batches (nd_batches s ++ [fail_batch code b]) s).
Proof. intros H1 H2 H3. split; [|intros code]; apply rtc_once; [by apply (mv_submit (ncore [] s))|by apply (mv_refuse (ncore [] s))]. Qed.
Lemma sim_Submit target name type value set timeout now response feedback cancel s :
  csim s (snd (Submit target name type value set timeout now response feedback cancel s)).
Proof. unfold Submit. cbn zeta. case_check; cbn [snd]; by apply sim_submit. Qed.
Lemma sim_ActionReply id f s : sim s (ActionReply id f s).
Proof.
  unfold ActionReply. cbn zeta. case_check; [done|]. destruct (if is_kind f _ then _ else _) as [[k r]|]; [apply sim_replies; left; by rewrite length_insert|].
  case_check; [done|]. case_check; [by apply sim_same|]. bool_to_prop. apply sim_replies. right. rewrite length_app. cbn. lia.
Qed.
Lemma sim_drop_all n s : sim s (foldr DropConnection s (seq 0 n)).
Proof.
  revert s. induction n as [|n IH] using nat_ind; intros s; [done|]. rewrite seq_S, foldr_app. cbn [foldr Nat.add]. etrans; [apply sim_Drop|apply IH].
Qed.
Lemma node_sim_end s : csim s (io_end s).
Proof.
  unfold io_end. cbn zeta. trans (nd_stop s); [apply sim_csim; by apply sim_same|].
  etrans; [apply sim_csim, (sim_finish_where (fun _ => true) (- ECANCELED) (length (nd_pending s)))|]. set (s1 := finish_where _ _ _ _). clearbody s1.
  etrans; [apply sim_csim, (sim_drop_all (length (nd_connections s1)))|]. set (s2 := foldr _ _ _). clearbody s2. clear s s1.
  unfold csim. replace (ncore [] s2) with (ncore (nd_submissions s2) (nd_set_submissions [] s2)) by (unfold ncore; cbn; by rewrite app_nil_r).
  match goal with |- moves _ (ncore [] (nd_set_submissions [] (foldl ?g s2 _))) => set (step := g);
    assert (H : forall l s, moves (ncore l (nd_set_submissions [] s)) (ncore [] (nd_set_submissions [] (foldl step s l)))); [|apply H] end.
  induction l as [|k l IH]; intros s; cbn [foldl]; [done|]. etrans; [|apply IH]. apply rtc_once. unfold step at 1.
  destruct (nd_batches s !! k) as [b|] eqn:Hb; [by apply (mv_reject (ncore (k :: l) (nd_set_submissions [] s)))|by apply (mv_lost (ncore (k :: l) (nd_set_submissions [] s)) k)].
Qed.
Lemma sim_step e s : csim s (node_step config e s).
Proof.
  destruct e as [t| |target name type value set timeout now response feedback|k timeout now| |r|id f|id]; cbn [node_step].
  - apply node_sim_turn.
  - apply node_sim_end.
  - apply sim_Submit.
  - unfold NodeCancelAction. destruct (nd_actions s !! k) as [a|]; [|done]. case_check; [done|]. cbn zeta.
    match goal with |- csim s (snd (let (_, _) := Submit ?t ?n ?ty ?v ?st ?to ?nw ?re ?fe ?ca s in _)) => pose proof (sim_Submit t n ty v st to nw re fe ca s) as H; by destruct (Submit t n ty v st to nw re fe ca s) end.
  - unfold take_job. destruct (nd_jobs s) as [|j rest] eqn:Hj; [done|]. apply sim_csim, sim_once. intros w. by apply (mv_take (ncore w s) j).
  - unfold push_reply. case_check; [|done]. bool_to_prop. apply sim_csim, sim_replies. right. rewrite length_app. cbn. lia.
  - apply sim_csim, sim_ActionReply.
  - by apply sim_csim, sim_same.
Qed.

Lemma run_moves es : forall s, csim s (node_run config es s).
Proof. induction es as [|e es IH]; intros s; [done|]. etrans; [apply sim_step|]. apply IH. Qed.
End Simulation.
