(* ===== verification/ControlNodeRequests.v ===== *)
(** * The requests of a control node: settled once, in time, in order

    Invariants of the abstract machine of [ControlNodeCore] over the batches, the pending
    requests and the log of what was sent, and what they say of every run of [ControlNode]:
    [control_batches_settle], [control_batches_expire], [control_stream_accepted]. *)
From S2P Require Import Prelude Wire NetTypes NetWire Compatibility DiscoveryProtocol TypeDescriptor NetworkDiagnostics ControlFrame PeerDiscovery RemoteAction ControlNode ControlNodeCore.

Ltac core_cbn := cbn [kn_waiting kn_batches kn_pending kn_connections kn_next_connection kn_drawn kn_next_request kn_requests kn_admitted kn_seen kn_client_seen kn_jobs
  kn_replies kn_diagnostics_jobs kn_diagnostics_seen kn_observer_seen kn_set_batches kn_set_pending kn_set_connections kn_open kn_set_requests kn_set_counters kn_next_goal kn_set_jobs kn_set_side ncore].
(** ** Batches *)
(** The requests of batch [n] that are pending. *)
Definition mine (n : nat) (ps : list Pending) : list Pending := filter (fun p => pe_batch p = n) ps.
Definition waiting_batch (b : Batch) : Prop := bt_endpoints b = [] /\ bt_left b = 0 /\ bt_fulfilled b = [].
(** A batch of [left] requests: its promise is set when the last one is done. *)
Record batch_state (b : Batch) (ps : list Pending) : Prop := {
  bs_left : bt_left b = Z.of_nat (length ps);
  bs_room : Z.of_nat (length ps) <= MAX_PENDING;
  bs_done : bt_fulfilled b = if bt_left b =? 0 then [(bt_error b, bt_endpoints b)] else [];
  bs_index : NoDup (pe_index <$> ps);
  bs_inside : Forall (fun p => (pe_index p < length (bt_endpoints b))%nat) ps
}.
Record batches_inv (k : NodeCore) : Prop := {
  bi_waiting : NoDup (kn_waiting k);
  bi_fresh : forall n, n ∈ kn_waiting k -> (n < length (kn_batches k))%nat /\ mine n (kn_pending k) = [];
  bi_batch : forall n b, kn_batches k !! n = Some b -> if decide (n ∈ kn_waiting k) then waiting_batch b else batch_state b (mine n (kn_pending k));
  bi_pending : Forall (fun p => (pe_batch p < length (kn_batches k))%nat) (kn_pending k);
  bi_room : Z.of_nat (length (kn_pending k)) <= MAX_PENDING
}.
Lemma mine_app n l l' : mine n (l ++ l') = mine n l ++ mine n l'.
Proof. apply filter_app. Qed.
Lemma mine_split n i p l : l !! i = Some p -> mine n l = mine n (take i l) ++ (if decide (pe_batch p = n) then [p] else []) ++ mine n (drop (S i) l) /\
  mine n (delete i l) = mine n (take i l) ++ mine n (drop (S i) l) /\
  forall q, mine n (<[i := q]> l) = mine n (take i l) ++ (if decide (pe_batch q = n) then [q] else []) ++ mine n (drop (S i) l).
Proof.
  intros H. split_and!.
  - rewrite <- (take_drop_middle l i p H) at 1. unfold mine. rewrite filter_app, filter_cons. by case_decide.
  - by rewrite delete_take_drop, mine_app.
  - intros q. rewrite insert_take_drop by (by eapply lookup_lt_Some). unfold mine. rewrite filter_app, filter_cons. by case_decide.
Qed.
Lemma batch_state_same b ps ps' : pe_index <$> ps' = pe_index <$> ps -> batch_state b ps -> batch_state b ps'.
Proof.
  intros E [H1 H2 H3 H4 H5]. assert (L : length ps' = length ps) by (rewrite <- (length_fmap pe_index ps'), E; apply length_fmap).
  split; [congruence|congruence|done|by rewrite E|].
  apply (proj1 (Forall_fmap pe_index (fun i => (i < length (bt_endpoints b))%nat) ps')). rewrite E. by apply (proj2 (Forall_fmap pe_index _ ps)).
Qed.
(** Requests that change without changing their batch and place. *)
Lemma batches_pending k ps log : batches_inv k -> Forall2 (fun p q => pe_batch q = pe_batch p /\ pe_index q = pe_index p) (kn_pending k) ps ->
  batches_inv (kn_set_requests log (kn_set_pending ps k)).
Proof.
  intros [H1 H2 H3 H4 H5] Hf.
  assert (M : forall n, pe_index <$> mine n ps = pe_index <$> mine n (kn_pending k)).
  { intros n. clear -Hf. induction Hf as [|p q l l' [Hb Hi] _ IH]; [done|]. unfold mine in *. rewrite !filter_cons, Hb. case_decide; [|done].
    rewrite !fmap_cons, Hi. by f_equal. }
  split; core_cbn; auto.
  - intros n Hn. destruct (H2 n Hn) as [? E]. split; [done|]. specialize (M n). rewrite E in M. by apply fmap_nil_inv in M.
  - intros n b Hb. specialize (H3 n b Hb). case_decide; [done|]. by apply (batch_state_same _ _ _ (M n)).
  - clear -H4 Hf. induction Hf as [|p q l l' [Hb _] _ IH]; [done|]. inversion H4; subst. constructor; [by rewrite Hb|by apply IH].
  - by rewrite <- (Forall2_length _ _ _ Hf).
Qed.
Lemma Forall2_insert_self {A} (R : A -> A -> Prop) l i x y : Reflexive R -> l !! i = Some x -> R x y -> Forall2 R l (<[i := y]> l).
Proof. intros HR Hi Hxy. rewrite <- (list_insert_id l i x Hi) at 1. apply Forall2_insert; [apply (reflexivity (R := Forall2 R))|done]. Qed.
Lemma batches_same k k' : kn_waiting k' = kn_waiting k -> kn_batches k' = kn_batches k -> kn_pending k' = kn_pending k -> batches_inv k -> batches_inv k'.
Proof. intros E1 E2 E3 [H1 H2 H3 H4 H5]. split; rewrite ?E1, ?E2, ?E3; auto. Qed.
Lemma settle_state i out b ps1 p ps2 : pe_index p = i -> batch_state b (ps1 ++ [p] ++ ps2) -> batch_state (settle_batch i out b) (ps1 ++ ps2).
Proof.
  intros Hi [H1 H2 H3 H4 H5]. assert (L : length (ps1 ++ [p] ++ ps2) = S (length (ps1 ++ ps2))) by (rewrite !length_app; cbn; lia).
  rewrite L in *. assert (U : u64 (bt_left b - 1) = Z.of_nat (length (ps1 ++ ps2))).
  { rewrite H1. unfold u64. rewrite Z.mod_small; [lia|]. unfold MAX_PENDING in *. lia. }
  assert (N : (bt_left b =? 0) = false) by (apply Z.eqb_neq; lia). rewrite N in H3.
  assert (P : ps1 ++ [p] ++ ps2 ≡ₚ p :: ps1 ++ ps2) by (symmetry; apply Permutation_middle).
  split; cbn; rewrite ?U; [done|lia| | |].
  - rewrite H3. by case_check.
  - assert (Q : pe_index <$> (ps1 ++ [p] ++ ps2) ≡ₚ pe_index <$> p :: ps1 ++ ps2) by (by rewrite P). rewrite Q in H4. by inversion H4.
  - rewrite P in H5. inversion H5; subst. rewrite length_insert. done.
Qed.
Lemma batches_finish k i p b out out' : kn_pending k !! i = Some p -> kn_batches k !! pe_batch p = Some b -> bt_endpoints b !! pe_index p = Some out ->
  batches_inv k -> batches_inv (kn_set_batches (kn_waiting k) (<[pe_batch p := settle_batch (pe_index p) out' b]> (kn_batches k)) (kn_set_pending (delete i (kn_pending k)) k)).
Proof.
  intros Hi Hb Ho [H1 H2 H3 H4 H5]. assert (Hn : pe_batch p ∉ kn_waiting k).
  { intros Hw. destruct (H2 _ Hw) as [_ E]. destruct (mine_split (pe_batch p) i p _ Hi) as (M & _ & _). rewrite E in M. rewrite decide_True in M by done.
    by destruct (mine _ (take i _)). }
  split; core_cbn; auto.
  - intros n Hw. destruct (H2 n Hw) as [? E]. rewrite length_insert. split; [done|]. destruct (mine_split n i p _ Hi) as (M & -> & _). rewrite E in M.
    symmetry in M. apply app_eq_nil in M as [-> M]. by apply app_eq_nil in M as [_ ->].
  - intros n b' Hb'. destruct (mine_split n i p _ Hi) as (M & -> & _). destruct (decide (n = pe_batch p)) as [->|Hne].
    + rewrite list_lookup_insert_eq in Hb' by (by eapply lookup_lt_Some). apply (inj Some) in Hb' as <-. specialize (H3 _ _ Hb). rewrite decide_False in * by done.
      rewrite M, decide_True in H3 by done. by apply (settle_state _ _ _ _ p).
    + rewrite list_lookup_insert_ne in Hb' by done. specialize (H3 _ _ Hb'). rewrite decide_False in M by congruence. rewrite M in H3. exact H3.
  - rewrite length_insert. by apply Forall_delete.
  - rewrite length_delete by done. lia.
Qed.
(** A pending request has a place in its batch. *)
Lemma no_orphan k i p : batches_inv k -> kn_pending k !! i = Some p ->
  (kn_batches k !! pe_batch p = None \/ exists b, kn_batches k !! pe_batch p = Some b /\ bt_endpoints b !! pe_index p = None) -> False.
Proof.
  intros [H1 H2 H3 H4 H5] Hi Ho. pose proof (Forall_lookup_1 _ _ _ _ H4 Hi) as Hlt. cbn in Hlt. destruct Ho as [Hn|(b & Hb & Hn)].
  { apply lookup_ge_None in Hn. lia. }
  specialize (H3 _ _ Hb). destruct (mine_split (pe_batch p) i p _ Hi) as (M & _ & _). rewrite decide_True in M by done. destruct (decide (pe_batch p ∈ kn_waiting k)) as [Hw|Hw].
  - destruct (H2 _ Hw) as [_ E]. rewrite E in M. by destruct (mine _ (take i _)).
  - destruct H3 as [_ _ _ _ H]. rewrite M, !Forall_app, Forall_singleton in H. apply lookup_ge_None in Hn. lia.
Qed.
Lemma io_batches k k' : io_move k k' -> batches_inv k -> batches_inv k'.
Proof.
  intros H I. destruct H as [i p b out out' Hi Hb Ho|i p Hi Ho| | | |i p ms Hi|i p j c ms Hi| | | |]; try (by apply (batches_same k)).
  - by eapply batches_finish.
  - by exfalso; eapply no_orphan.
  - apply (batches_pending k (<[i := pending_timeout ms p]> (kn_pending k)) (kn_requests k)); [done|]. eapply Forall2_insert_self; [done|exact Hi|done].
  - apply (batches_pending k); [done|]. eapply Forall2_insert_self; [done|exact Hi|done].
Qed.
Lemma fresh_waiting k n w b : kn_waiting k = n :: w -> kn_batches k !! n = Some b -> batches_inv k -> waiting_batch b /\ mine n (kn_pending k) = [] /\ n ∉ w.
Proof.
  intros Hw Hb [H1 H2 H3 _ _]. rewrite Hw in *. assert (Hin : n ∈ n :: w) by constructor. specialize (H3 _ _ Hb). rewrite decide_True in H3 by done.
  split; [done|]. split; [by apply H2|]. by inversion H1.
Qed.
Lemma mine_uniform n ps : Forall (fun p => pe_batch p = n) ps -> forall m, mine m ps = if decide (m = n) then ps else [].
Proof.
  intros H m. induction H as [|p l <- _ IH]; [by case_decide|]. unfold mine in *. rewrite filter_cons, IH.
  destruct (decide (m = pe_batch p)) as [->|Hne]; [by rewrite decide_True|]. by rewrite decide_False by congruence.
Qed.
(** The first batch that waits becomes [b']. *)
Lemma batches_pop k n w b b' ps next goal : kn_waiting k = n :: w -> kn_batches k !! n = Some b -> batches_inv k ->
  Forall (fun p => pe_batch p = n) ps -> Z.of_nat (length ps + length (kn_pending k)) <= MAX_PENDING -> batch_state b' ps ->
  batches_inv (kn_set_batches w (<[n := b']> (kn_batches k)) (kn_set_counters next goal (kn_set_pending (kn_pending k ++ ps) k))).
Proof.
  intros Hw Hb I Hps Hroom Hb'. destruct (fresh_waiting k n w b Hw Hb I) as (_ & Hm & Hn). destruct I as [H1 H2 H3 H4 H5]. rewrite Hw in *.
  assert (M : forall m, mine m ps = if decide (m = n) then ps else []) by (intros m; by apply mine_uniform).
  split; core_cbn; auto.
  - by inversion H1.
  - intros m Hin. destruct (H2 m) as [Hl Hm0]; [by constructor|]. rewrite length_insert, mine_app, Hm0, M, decide_False; [done|]. intros ->. done.
  - intros m x Hx. destruct (decide (m = n)) as [->|Hne].
    + rewrite list_lookup_insert_eq in Hx by (by eapply lookup_lt_Some). apply (inj Some) in Hx as <-. rewrite decide_False by done. by rewrite mine_app, Hm, M, decide_True.
    + rewrite list_lookup_insert_ne in Hx by done. specialize (H3 _ _ Hx). rewrite mine_app, M, (decide_False (P := m = n)), app_nil_r by done.
      destruct (decide (m ∈ w)) as [Hi|Hi]; [rewrite decide_True in H3 by (by constructor); done|]. rewrite decide_False in H3; [done|]. rewrite elem_of_cons. tauto.
  - rewrite length_insert. apply Forall_app. split; [done|]. eapply Forall_impl; [exact Hps|]. cbn. intros p ->. by eapply lookup_lt_Some.
  - rewrite length_app. lia.
Qed.
Lemma batches_push k w b : batches_inv k -> (w = kn_waiting k /\ batch_state b []) \/ (w = kn_waiting k ++ [length (kn_batches k)] /\ waiting_batch b) ->
  batches_inv (kn_set_batches w (kn_batches k ++ [b]) k).
Proof.
  intros [H1 H2 H3 H4 H5] Hc. set (n := length (kn_batches k)) in *.
  assert (Hn : n ∉ kn_waiting k) by (intros Hn; apply H2 in Hn; lia).
  assert (Hm : mine n (kn_pending k) = []).
  { clear -H4. induction H4 as [|p l Hp _ IH]; [done|]. unfold mine in *. rewrite filter_cons, decide_False by lia. exact IH. }
  assert (Hw : forall m, m ∈ w -> m ∈ kn_waiting k \/ m = n).
  { destruct Hc as [[-> _]|[-> _]]; intros m; [by left|]. rewrite elem_of_app, list_elem_of_singleton. done. }
  assert (Hw' : forall m, m ∈ kn_waiting k -> m ∈ w) by (destruct Hc as [[-> _]|[-> _]]; intros m; rewrite ?elem_of_app; auto).
  split; core_cbn; auto.
  - destruct Hc as [[-> _]|[-> _]]; [done|]. apply NoDup_app. split; [done|]. split; [|apply NoDup_singleton]. intros m Hm' Hs. apply list_elem_of_singleton in Hs as ->. done.
  - intros m Hin. rewrite length_app. destruct (Hw m Hin) as [Ho| ->]; [destruct (H2 m Ho); split; [lia|done]|]. cbn. split; [lia|done].
  - intros m x Hx. apply lookup_snoc_Some in Hx as [[Hlt Hx]|[Em Ex]].
    + specialize (H3 _ _ Hx). destruct (decide (m ∈ w)) as [Hi|Hi]; [|rewrite decide_False in H3 by auto; done].
      destruct (Hw m Hi) as [Ho| ->]; [|lia]. by rewrite decide_True in H3 by done.
    + subst m x. fold n. rewrite Hm. destruct Hc as [[-> Hb]|[-> Hb]]; [by rewrite decide_False|]. rewrite decide_True; [done|]. rewrite elem_of_app, list_elem_of_singleton. auto.
  - eapply Forall_impl; [exact H4|]. cbn. intros p Hp. rewrite length_app. lia.
Qed.
Lemma core_batches k k' : core_move k k' -> batches_inv k -> batches_inv k'.
Proof.
  intros H I. destruct H as [k' H|n b w code Hw Hb|n w Hw Hb|n b w results ps goals Hw Hb Hl Hpos Hroom Hov Hps|b E1 E2 E3|b code E1 E2 E3].
  - by eapply io_batches.
  - destruct (fresh_waiting k n w b Hw Hb I) as ((E1 & E2 & E3) & Hm & Hn).
    pose proof (batches_pop k n w b (fail_batch code b) [] (kn_next_request k) (kn_next_goal k) Hw Hb I) as H. rewrite app_nil_r in H.
    apply H; [done|apply I|]. split; cbn; rewrite ?E1, ?E2, ?E3; done || constructor.
  - exfalso. destruct I as [_ H2 _ _ _]. destruct (H2 n) as [Hlt _]; [rewrite Hw; constructor|]. apply lookup_ge_None in Hb. lia.
  - destruct (fresh_waiting k n w b Hw Hb I) as ((E1 & E2 & E3) & Hm & Hn). apply (batches_pop k n w b); auto.
    + apply Forall_lookup. intros i p Hp. by apply (Hps i p).
    + assert (Hix : pe_index <$> ps = seq 0 (length ps)).
      { apply list_eq. intros i. rewrite list_lookup_fmap. destruct (ps !! i) as [p|] eqn:Hp; cbn.
        - destruct (Hps i p Hp) as (_ & -> & _). symmetry. apply lookup_seq. split; [done|]. by eapply lookup_lt_Some.
        - symmetry. apply lookup_ge_None_2. rewrite length_seq. by apply lookup_ge_None in Hp. }
      split; cbn; rewrite ?Hl; [done|unfold MAX_PENDING in *; lia| | |].
      * rewrite E3. case_check; [|done]. bool_to_prop. lia.
      * rewrite Hix. apply NoDup_seq.
      * apply (proj1 (Forall_fmap pe_index (fun i => (i < length ps)%nat) ps)). rewrite Hix. apply Forall_seq. intros j Hj. lia.
  - apply batches_push; [done|]. right. done.
  - apply batches_push; [done|]. left. split; [done|]. split; cbn; rewrite ?E1, ?E2, ?E3; done || constructor.
Qed.
Lemma batches_moves k k' : moves k k' -> batches_inv k -> batches_inv k'.
Proof. induction 1; eauto using core_batches. Qed.

(** *** What the thread keeps while it works *)
Record io_keeps (k k' : NodeCore) : Prop := {
  ik_waiting : kn_waiting k' = kn_waiting k;
  ik_deadlines : bt_deadline <$> kn_batches k' = bt_deadline <$> kn_batches k;
  ik_pending : (pe_batch <$> kn_pending k') `sublist_of` (pe_batch <$> kn_pending k)
}.
#[export] Instance io_keeps_preorder : PreOrder io_keeps.
Proof. split; [by intros k; split|]. intros a b c [A1 A2 A3] [B1 B2 B3]. split; [congruence|congruence|by etrans]. Qed.
Lemma sublist_delete_fmap {A B} (g : A -> B) i (l : list A) : (g <$> delete i l) `sublist_of` (g <$> l).
Proof. rewrite list_fmap_delete. apply sublist_delete. Qed.
Lemma fmap_insert_same {A B} (g : A -> B) (l : list A) (i : nat) x y : l !! i = Some x -> g y = g x -> g <$> <[i := y]> l = g <$> l.
Proof. intros Hi E. rewrite list_fmap_insert, E. apply list_insert_id. by rewrite list_lookup_fmap, Hi. Qed.
Lemma io_move_keeps k k' : io_move k k' -> io_keeps k k'.
Proof.
  intros H. destruct H as [i p b out out' Hi Hb Ho|i p Hi Ho| | | |i p ms Hi|i p j c ms Hi| | | |]; split; core_cbn; try done; try (by apply sublist_delete_fmap).
  - by eapply fmap_insert_same.
  - by rewrite (fmap_insert_same pe_batch _ i p).
  - by rewrite (fmap_insert_same pe_batch _ i p).
Qed.
Lemma sim_keeps s s' : sim s s' -> io_keeps (ncore [] s) (ncore [] s').
Proof. intros H. specialize (H []). induction H as [|a b c Hab _ IH]; [done|]. etrans; [by apply io_move_keeps|exact IH]. Qed.
Lemma sim_submissions s s' : sim s s' -> nd_submissions s' = nd_submissions s.
Proof. intros H. exact (ik_waiting _ _ (sim_keeps _ _ H)). Qed.
Lemma batch_deadline_lookup (l l' : list Batch) n b : bt_deadline <$> l' = bt_deadline <$> l -> l' !! n = Some b -> exists b0, l !! n = Some b0 /\ bt_deadline b0 = bt_deadline b.
Proof.
  intros E H. assert (Hd : (bt_deadline <$> l) !! n = Some (bt_deadline b)) by (rewrite <- E, list_lookup_fmap, H; done).
  apply list_lookup_fmap_Some in Hd as (b0 & -> & ->). by exists b0.
Qed.
Lemma pending_deadline_same s s' p : sim s s' -> pending_deadline p s' = pending_deadline p s.
Proof.
  intros H. pose proof (ik_deadlines _ _ (sim_keeps _ _ H)) as E. cbn in E. unfold pending_deadline.
  assert (L : (bt_deadline <$> nd_batches s') !! pe_batch p = (bt_deadline <$> nd_batches s) !! pe_batch p) by (by rewrite E). rewrite !list_lookup_fmap in L.
  destruct (nd_batches s' !! _), (nd_batches s !! _); cbn in L; congruence.
Qed.
(** The sweep leaves no request whose time is over. *)
Lemma sweep_expires config peers now n : forall s, (forall j p, (n <= j)%nat -> nd_pending s !! j = Some p -> now < pending_deadline p s) ->
  forall p, p ∈ nd_pending (sweep_pending config peers now n s) -> now < pending_deadline p (sweep_pending config peers now n s).
Proof.
  induction n as [|i IH]; intros s Hs p Hp; cbn [sweep_pending] in *.
  { apply list_elem_of_lookup in Hp as [j Hj]. by apply (Hs j); [lia|]. }
  revert p Hp. destruct (nd_pending s !! i) as [q|] eqn:Hq.
  2:{ apply IH. intros j p Hj Hp. destruct (decide (j = i)) as [->|]; [congruence|]. apply (Hs j); [lia|done]. }
  apply IH. clear IH. unfold expire_pending.
  assert (Hfin : forall code reason, forall j p, (i <= j)%nat -> nd_pending (FinishPending i code reason [] false false s) !! j = Some p ->
    now < pending_deadline p (FinishPending i code reason [] false false s)).
  { intros code reason j p Hj Hp. destruct (Finish_pending i code reason [] false false s) as [E _]. rewrite decide_True in E by done.
    rewrite E, list_lookup_delete_ge in Hp by done. rewrite (pending_deadline_same _ _ p (sim_Finish i code reason [] false false s)). apply (Hs (S j)); [lia|done]. }
  case_check; [apply Hfin|]. bool_to_prop.
  assert (Hkeep : forall j p, (i <= j)%nat -> nd_pending s !! j = Some p -> now < pending_deadline p s).
  { intros j p Hj Hp. destruct (decide (j = i)) as [->|]; [congruence|]. apply (Hs j); [lia|done]. }
  destruct (peer_of _ _); [|apply Hfin]. cbn zeta. case_check; [exact Hkeep|apply Hfin].
Qed.
Lemma admit_submissions peers s : nd_submissions (AdmitBatches peers s) = [].
Proof.
  unfold AdmitBatches. assert (H0 : nd_submissions (nd_set_submissions [] s) = []) by done. revert H0. generalize (nd_set_submissions [] s). generalize (nd_submissions s).
  clear s. intros l. induction l as [|k l IH]; intros s Hs; cbn [foldl]; [done|]. apply IH. unfold admit_batch. destruct (nd_batches s !! k) as [b|]; [|done].
  case_check; [done|]. case_check; [done|]. pose proof (admit_endpoints_core k b (select_endpoints b peers) 0 s) as H.
  destruct (admit_endpoints _ _ _ _ _) as [results s1]. destruct H as (_ & ps & _ & _ & Hc). cbn. pose proof (f_equal kn_waiting (Hc [])) as E. cbn in E. congruence.
Qed.
Lemma finish_all code n : forall s, (n <= length (nd_pending s))%nat -> nd_pending (finish_where (fun _ => true) code n s) = drop n (nd_pending s).
Proof.
  induction n as [|i IH]; intros s Hn; cbn [finish_where]; [by rewrite drop_0|]. destruct (lookup_lt_is_Some_2 (nd_pending s) i) as [p Hp]; [lia|]. rewrite Hp.
  unfold Fail. destruct (Finish_pending i code CompatibilityReason.COMPATIBLE [] false false s) as [E _]. rewrite decide_True in E by done.
  rewrite IH; rewrite E; [|rewrite length_delete by done; lia]. rewrite delete_take_drop, drop_app_ge; rewrite length_take_le by lia; [|done]. by rewrite Nat.sub_diag, drop_0.
Qed.
Lemma end_clean s : nd_pending (io_end s) = [] /\ nd_submissions (io_end s) = [] /\ length (nd_batches (io_end s)) = length (nd_batches s).
Proof.
  unfold io_end. cbn zeta. set (s1 := finish_where _ _ _ _). set (s2 := foldr _ _ _).
  assert (K1 := sim_keeps _ _ (sim_finish_where (fun _ => true) (- ECANCELED) (length (nd_pending s)) (nd_stop s))). fold s1 in K1.
  assert (K2 := sim_keeps _ _ (sim_drop_all (length (nd_connections s1)) s1)). fold s2 in K2.
  assert (P1 : nd_pending s1 = []) by (unfold s1; rewrite finish_all by done; apply drop_all).
  assert (P2 : nd_pending s2 = []).
  { pose proof (ik_pending _ _ K2) as H. cbn in H. rewrite P1 in H. apply sublist_nil_r in H. by apply fmap_nil_inv in H. }
  assert (L2 : length (nd_batches s2) = length (nd_batches s)).
  { pose proof (f_equal length (ik_deadlines _ _ K1)) as A. pose proof (f_equal length (ik_deadlines _ _ K2)) as B. rewrite !length_fmap in A, B. cbn in A, B. congruence. }
  split_and!; [|done|].
  - cbn. rewrite <- P2. generalize (nd_submissions s2). intros l. generalize s2. induction l as [|n l IH]; intros x; [done|]. cbn [foldl]. rewrite IH. by destruct (nd_batches x !! n).
  - cbn. rewrite <- L2. generalize (nd_submissions s2). intros l. generalize s2. induction l as [|n l IH]; intros x; [done|]. cbn [foldl]. rewrite IH.
    destruct (nd_batches x !! n); [|done]. cbn. apply length_insert.
Qed.
Lemma batches_start self session request goal connection now : batches_inv (ncore [] (started_node self session request goal connection now)).
Proof. split; cbn; [constructor|by intros n Hn%not_elem_of_nil|done|constructor|done]. Qed.
Lemma run_batches config self session request goal connection now es :
  batches_inv (ncore [] (node_run config es (started_node self session request goal connection now))).
Proof. eapply batches_moves; [apply run_moves|apply batches_start]. Qed.
Lemma unsettled s n b : batches_inv (ncore [] s) -> nd_batches s !! n = Some b ->
  bt_fulfilled b = if bool_decide (n ∈ nd_submissions s) || existsb (fun p => pe_batch p =? n)%nat (nd_pending s) then [] else [(bt_error b, bt_endpoints b)].
Proof.
  intros [H1 H2 H3 H4 H5] Hb. specialize (H3 n b Hb). cbn [ncore kn_waiting kn_batches kn_pending app] in *. case_decide as Hw; [by destruct H3 as (_ & _ & ->); rewrite bool_decide_true|].
  rewrite bool_decide_false by done. destruct H3 as [L _ F _ _]. rewrite F, L. cbn [orb]. replace (existsb _ _) with (negb (Z.of_nat (length (mine n (nd_pending s))) =? 0)).
  { by destruct (Z.of_nat _ =? 0). }
  clear. induction (nd_pending s) as [|p l IH]; [done|]. unfold mine in *. rewrite filter_cons. cbn [existsb]. case_decide as E; [by rewrite E, Nat.eqb_refl|].
  rewrite <- IH. by rewrite (proj2 (Nat.eqb_neq _ _) E).
Qed.
(** C19: The promise of every batch of requests is set exactly once.  At any time, whatever the
    peers, the kernel and the other threads did, the promise of a batch is unset as long as it
    waits or one of its requests is pending, and was set once, with the results as they stand,
    otherwise; when the thread ends, nothing waits or is pending, so every promise is set. *)
Theorem control_batches_settle config self session request goal connection now es :
  let s := node_run config es (started_node self session request goal connection now) in
  (forall n b, nd_batches s !! n = Some b ->
     bt_fulfilled b = if bool_decide (n ∈ nd_submissions s) || existsb (fun p => pe_batch p =? n)%nat (nd_pending s) then [] else [(bt_error b, bt_endpoints b)]) /\
  length (nd_batches (io_end s)) = length (nd_batches s) /\
  Forall (fun b => bt_fulfilled b = [(bt_error b, bt_endpoints b)]) (nd_batches (io_end s)).
Proof.
  intros s. split; [intros n b; apply unsettled, run_batches|]. destruct (end_clean s) as (P & W & L). split; [exact L|].
  apply Forall_lookup. intros n b Hb. assert (I : batches_inv (ncore [] (io_end s))) by (eapply batches_moves; [apply node_sim_end|apply run_batches]).
  rewrite (unsettled _ n b I Hb), P, W. done.
Qed.
Lemma turn_expires config t s p : p ∈ nd_pending (io_turn config t s) -> tn_now t < pending_deadline p (io_turn config t s).
Proof.
  intros Hp. pose proof (sim_served config t s) as S. rewrite (pending_deadline_same _ _ p S).
  pose proof (ik_pending _ _ (sim_keeps _ _ S)) as Hsub. cbn in Hsub.
  assert (Hq : pe_batch p ∈ pe_batch <$> nd_pending (io_expire config t s)) by (eapply elem_of_submseteq; [|by apply sublist_submseteq]; by apply list_elem_of_fmap_2).
  apply list_elem_of_fmap in Hq as (q & E & Hq). unfold pending_deadline. rewrite E. apply (sweep_expires config (tn_peers t) (tn_now t) (length (nd_pending (io_admit config t s)))); [|done].
  intros j x Hj Hx. apply lookup_lt_Some in Hx. lia.
Qed.
(** Requests do not outlive their deadline: after every turn of the thread, a batch whose
    deadline is not after the time of that turn has its promise set, with the results as they
    stand - even when no peer ever answered. *)
Theorem control_batches_expire config self session request goal connection now es t :
  Forall (fun b => bt_deadline b <= tn_now t -> bt_fulfilled b = [(bt_error b, bt_endpoints b)])
    (nd_batches (node_run config (es ++ [NeTurn t]) (started_node self session request goal connection now))).
Proof.
  apply Forall_lookup. intros n b Hb Hd. pose proof (run_batches config self session request goal connection now (es ++ [NeTurn t])) as I.
  revert Hb I. unfold node_run. rewrite foldl_app. cbn [foldl node_step]. set (s0 := foldl _ _ es). intros Hb I. rewrite (unsettled _ n b I Hb).
  assert (W : nd_submissions (io_turn config t s0) = []).
  { rewrite (sim_submissions _ _ (sim_served config t s0)), (sim_submissions _ _ (sim_expire config t s0)). apply admit_submissions. }
  rewrite W. cbn [orb bool_decide]. rewrite bool_decide_false by apply not_elem_of_nil. cbn [orb].
  destruct (existsb _ _) eqn:E; [|done]. exfalso. apply existsb_exists in E as (p & Hp & E). apply Nat.eqb_eq in E. apply list_elem_of_In in Hp.
  apply turn_expires in Hp. unfold pending_deadline in Hp. rewrite E, Hb in Hp. lia.
Qed.

(** ** The order of requests *)
(** Of two requests, the first was drawn before the second. *)
Definition key_below (a b : Z * option Z) : Prop :=
  fst a < fst b /\ match snd a, snd b with Some x, Some y => x < y | _, _ => True end.
Definition key_bounded (next goal : Z) (a : Z * option Z) : Prop := 0 < fst a <= next /\ match snd a with Some x => 0 < x <= goal | None => True end.
Definition ascending {A} (R : A -> A -> Prop) (l : list A) : Prop := forall i j a b, (i < j)%nat -> l !! i = Some a -> l !! j = Some b -> R a b.
Lemma ascending_sublist {A} (R : A -> A -> Prop) l l' : l' `sublist_of` l -> ascending R l -> ascending R l'.
Proof.
  intros H Ha. assert (P : forall l : list A, ascending R l <-> match l with [] => True | x :: r => Forall (R x) r /\ ascending R r end).
  { clear. intros [|x r]; [split; [done|by intros _ i j a b]|]. split.
    - intros H. split; [apply Forall_lookup; intros i y Hy; by apply (H 0%nat (S i)); [lia|..]|]. intros i j a b Hij Hi Hj. by apply (H (S i) (S j)); [lia|..].
    - intros [H1 H2] [|i] [|j] a b Hij Hi Hj; cbn in *; try lia; [injection Hi as <-; by apply (Forall_lookup_1 _ _ _ _ H1 Hj)|]. by apply (H2 i j); [lia|..]. }
  induction H as [|x l' l H IH|x l' l H IH]; [done| |].
  - rewrite P in Ha. destruct Ha as [H1 H2]. apply P. split; [|auto]. rewrite Forall_forall in H1 |- *. intros y Hy. apply H1.
    eapply elem_of_submseteq; [exact Hy|by apply sublist_submseteq].
  - rewrite P in Ha. destruct Ha. auto.
Qed.
Lemma ascending_snoc {A} (R : A -> A -> Prop) l x : ascending R l -> Forall (fun a => R a x) l -> ascending R (l ++ [x]).
Proof.
  intros H Hx i j a b Hij Hi Hj. apply lookup_snoc_Some in Hj as [[Hl Hj]|[-> <-]]; [rewrite lookup_app_l in Hi by lia; exact (H i j a b Hij Hi Hj)|].
  rewrite lookup_app_l in Hi by lia. by apply (Forall_lookup_1 _ _ _ _ Hx Hi).
Qed.
Definition request_host (r : Z * ControlFrame) : HostIdentity := rt_host (ep_runtime (cf_endpoint (snd r))).
Definition same_host_below (a b : Z * ControlFrame) : Prop := request_host a = request_host b -> key_below (frame_key (snd a)) (frame_key (snd b)).
Record order_inv (k : NodeCore) : Prop := {
  oi_counters : 0 <= kn_next_request k /\ 0 <= kn_next_goal k;
  oi_pending : ascending key_below (pe_key <$> kn_pending k);
  oi_bounded : Forall (key_bounded (kn_next_request k) (kn_next_goal k)) (pe_key <$> kn_pending k);
  oi_log : ascending same_host_below (kn_requests k);
  oi_unsent : forall r p, r ∈ kn_requests k -> p ∈ kn_pending k -> pe_sent p = false -> request_host r = pe_host p -> key_below (frame_key (snd r)) (pe_key p);
  oi_sent : Forall (key_bounded (kn_next_request k) (kn_next_goal k)) ((fun r => frame_key (snd r)) <$> kn_requests k)
}.
Lemma order_same k k' : pe_key <$> kn_pending k' = pe_key <$> kn_pending k -> kn_requests k' = kn_requests k -> kn_next_request k' = kn_next_request k -> kn_next_goal k' = kn_next_goal k ->
  (forall p, p ∈ kn_pending k' -> pe_sent p = false -> exists q, q ∈ kn_pending k /\ pe_sent q = false /\ pe_host q = pe_host p /\ pe_key q = pe_key p) -> order_inv k -> order_inv k'.
Proof.
  intros E1 E2 E3 E4 Hp [H0 H1 H2 H3 H4 H5]. split; rewrite ?E1, ?E2, ?E3, ?E4; auto.
  intros r p Hr Hin Hs Hh. destruct (Hp p Hin Hs) as (q & Hq & Hqs & Hqh & <-). apply H4; auto. congruence.
Qed.
Lemma order_delete k i l w : order_inv k -> order_inv (kn_set_batches w l (kn_set_pending (delete i (kn_pending k)) k)).
Proof.
  intros [H0 H1 H2 H3 H4 H5]. split; core_cbn; auto.
  - eapply ascending_sublist; [apply sublist_delete_fmap|done].
  - rewrite list_fmap_delete. by apply Forall_delete.
  - intros r p Hr Hp. apply H4; [done|]. eapply elem_of_submseteq; [exact Hp|]. apply sublist_submseteq, sublist_delete.
Qed.
Lemma elem_of_insert {A} (l : list A) i x y : y ∈ <[i := x]> l -> y = x \/ y ∈ l.
Proof. intros H. apply list_elem_of_lookup in H as [j Hj]. apply list_lookup_insert_Some in Hj as [(-> & -> & _)|[_ Hj]]; [by left|right]. by eapply list_elem_of_lookup_2. Qed.
Lemma order_retime k i p ms : kn_pending k !! i = Some p -> order_inv k -> order_inv (kn_set_pending (<[i := pending_timeout ms p]> (kn_pending k)) k).
Proof.
  intros Hi. apply order_same; try done; core_cbn; [by apply (fmap_insert_same pe_key _ i p)|].
  intros q Hq Hs. apply elem_of_insert in Hq as [->|Hq]; [|by exists q]. exists p. split; [by eapply list_elem_of_lookup_2|done].
Qed.
Lemma order_send k i p j c ms : kn_pending k !! i = Some p -> pe_sent p = false -> kn_connections k !! j = Some c -> serves p c = true ->
  (forall i' q, (i' < i)%nat -> kn_pending k !! i' = Some q -> pe_sent q = false -> Forall (fun c => serves q c = false) (kn_connections k)) -> order_inv k ->
  order_inv (kn_set_requests (kn_requests k ++ [(cx_id c, frame_timeout ms (pe_frame p))]) (kn_set_pending (<[i := pending_sent ms (cx_id c) p]> (kn_pending k)) k)).
Proof.
  intros Hi Hs Hj Hc Hb [H0 H1 H2 H3 H4 H5]. set (r := (cx_id c, frame_timeout ms (pe_frame p))).
  assert (Hin : p ∈ kn_pending k) by (by eapply list_elem_of_lookup_2).
  assert (Ek : pe_key <$> <[i := pending_sent ms (cx_id c) p]> (kn_pending k) = pe_key <$> kn_pending k) by (by apply (fmap_insert_same pe_key _ i p)).
  split; core_cbn; rewrite ?Ek; auto.
  - apply ascending_snoc; [done|]. apply Forall_forall. intros x Hx Hh. by apply (H4 x p).
  - intros x q Hx Hq Hqs Hh. apply list_elem_of_lookup in Hq as [m Hm]. apply list_lookup_insert_Some in Hm as [(-> & <- & _)|[Hne Hm]]; [done|].
    assert (Hqin : q ∈ kn_pending k) by (by eapply list_elem_of_lookup_2). apply elem_of_app in Hx as [Hx|Hx]; [by apply H4|]. apply list_elem_of_singleton in Hx as ->.
    destruct (decide (m < i)%nat) as [Hlt|Hge].
    + exfalso. pose proof (Forall_lookup_1 _ _ _ _ (Hb m q Hlt Hm Hqs) Hj) as Hn. cbn in Hn. unfold serves in Hc, Hn.
      change (request_host r) with (pe_host p) in Hh. rewrite <- Hh in Hn. congruence.
    + apply (H1 i m); [lia|by rewrite list_lookup_fmap, Hi|by rewrite list_lookup_fmap, Hm].
  - rewrite fmap_app. apply Forall_app. split; [done|]. apply Forall_singleton. rewrite Forall_fmap in H2. rewrite Forall_forall in H2. apply (H2 p Hin).
Qed.
Lemma io_order k k' : io_move k k' -> order_inv k -> order_inv k'.
Proof.
  intros H I. destruct H as [i p b out out' Hi Hb Ho|i p Hi Ho| | | |i p ms Hi|i p j c ms Hi Hs Hj Hc Hb| | | |];
    try (by destruct I; split).
  - by apply order_delete.
  - exact (order_delete k i (kn_batches k) (kn_waiting k) I).
  - by apply order_retime.
  - by apply (order_send k i p j c ms).
Qed.
Lemma key_bounded_more next goal next' goal' a : next <= next' -> goal <= goal' -> key_bounded next goal a -> key_bounded next' goal' a.
Proof. intros Hn Hg [H1 H2]. split; [lia|]. destruct (snd a); [lia|done]. Qed.
Lemma order_admit k n goals ps w l : batch_pending n 0 goals (kn_next_request k) (kn_next_goal k) ps -> order_inv k ->
  order_inv (kn_set_batches w l (kn_set_counters (kn_next_request k + Z.of_nat (length ps)) (if goals then kn_next_goal k + Z.of_nat (length ps) else kn_next_goal k)
    (kn_set_pending (kn_pending k ++ ps) k))).
Proof.
  intros Hps [H0 H1 H2 H3 H4 H5]. set (next' := kn_next_request k + _). set (goal' := if goals then _ else _).
  assert (Hn : kn_next_request k <= next') by lia. assert (Hg : kn_next_goal k <= goal') by (unfold goal'; destruct goals; lia).
  assert (Kps : pe_key <$> ps = batch_key goals (kn_next_request k) (kn_next_goal k) <$> seq 0 (length ps)).
  { apply list_eq. intros i. rewrite !list_lookup_fmap. destruct (ps !! i) as [p|] eqn:Hp; cbn.
    - rewrite lookup_seq_lt by (by eapply lookup_lt_Some). cbn. f_equal. by apply (Hps i p).
    - by rewrite lookup_seq_ge by (by apply lookup_ge_None). }
  assert (Bel : forall a i, key_bounded (kn_next_request k) (kn_next_goal k) a -> key_below a (batch_key goals (kn_next_request k) (kn_next_goal k) i)).
  { intros a i [B1 B2]. unfold key_below, batch_key. cbn. split; [lia|]. destruct (snd a), goals; try done. lia. }
  assert (Old : forall l, Forall (key_bounded (kn_next_request k) (kn_next_goal k)) l -> Forall (key_bounded next' goal') l).
  { intros x Hx. eapply Forall_impl; [exact Hx|]. intros a. by apply key_bounded_more. }
  split; core_cbn; auto; [lia|..].
  - rewrite fmap_app, Kps. intros i j a b Hij Hi Hj. destruct (decide (j < length (pe_key <$> kn_pending k))%nat) as [Hjl|Hjl].
    { rewrite lookup_app_l in Hi, Hj by lia. exact (H1 i j a b Hij Hi Hj). }
    rewrite lookup_app_r in Hj by lia. apply list_lookup_fmap_Some in Hj as (y & -> & Hy). apply lookup_seq in Hy as [-> Hy].
    destruct (decide (i < length (pe_key <$> kn_pending k))%nat) as [Hil|Hil].
    + rewrite lookup_app_l in Hi by lia. apply Bel. by apply (Forall_lookup_1 _ _ _ _ H2 Hi).
    + rewrite lookup_app_r in Hi by lia. apply list_lookup_fmap_Some in Hi as (x & -> & Hx). apply lookup_seq in Hx as [-> Hx].
      unfold key_below, batch_key. cbn. split; [lia|]. destruct goals; [lia|done].
  - rewrite fmap_app, Kps. apply Forall_app. split; [by apply Old|]. apply Forall_fmap, Forall_seq. intros j Hj. unfold key_bounded, batch_key, next', goal'. cbn.
    split; [lia|]. destruct goals; [lia|done].
  - intros r p Hr Hp Hs Hh. apply elem_of_app in Hp as [Hp|Hp]; [by apply H4|]. apply list_elem_of_lookup in Hp as [i Hp].
    destruct (Hps i p Hp) as (_ & _ & _ & ->). apply Bel. rewrite Forall_fmap, Forall_forall in H5. by apply (H5 r).
Qed.
Lemma core_order k k' : core_move k k' -> order_inv k -> order_inv k'.
Proof.
  intros H I. destruct H as [k' H| | |n b w results ps goals Hw Hb Hl Hpos Hroom Hov Hps| |]; try (by destruct I; split).
  - by eapply io_order.
  - by apply (order_admit k n).
Qed.
Lemma order_moves k k' : moves k k' -> order_inv k -> order_inv k'.
Proof. induction 1; eauto using core_order. Qed.
Lemma run_order config self session request goal connection now es :
  order_inv (ncore [] (node_run config es (started_node self session (Z.of_N request) (Z.of_N goal) connection now))).
Proof. eapply order_moves; [apply run_moves|]. split; cbn; [lia|by intros i|constructor|by intros i|by intros r p Hr%not_elem_of_nil|constructor]. Qed.

(** *** The gateway that receives them *)
(** The requests sent to host [h]. *)
Definition requests_to (h : HostIdentity) (s : Node) : list ControlFrame := snd <$> filter (fun r => request_host r = h) (nd_requests s).
(** Does a gateway take every frame that arrives on [c], in this order, as new? *)
Fixpoint admit_all (c : Connection) (fs : list ControlFrame) (seen : list Seen) : bool :=
  match fs with
  | [] => true
  | f :: rest => match gateway_admits c f seen with Some (true, seen) => admit_all c rest seen | _ => false end
  end.
(** The record of a connection's host and session: at most [last] and [goal]. *)
Definition record_below (c : Connection) (seen : list Seen) (f : ControlFrame) : Prop :=
  match list_find (fun e => se_host e = cx_host c) seen with
  | Some (_, e) => se_session e = cx_session c /\ key_below (se_last e, Some (se_last_goal e)) (frame_key f)
  | None => (length seen < 64)%nat /\ key_below (0, Some 0) (frame_key f)
  end.
Lemma find_insert_found {A} (P : A -> Prop) `{Hdec : !forall x, Decision (P x)} l i x y : list_find P l = Some (i, x) -> P y -> list_find P (<[i := y]> l) = Some (i, y).
Proof.
  intros H Hy. apply list_find_Some in H as (Hi & _ & Hb). apply list_find_Some. split_and!; [apply list_lookup_insert_eq; by eapply lookup_lt_Some|done|].
  intros j z Hj Hlt. rewrite list_lookup_insert_ne in Hj by lia. by eapply Hb.
Qed.
Lemma find_snoc_found {A} (P : A -> Prop) `{Hdec : !forall x, Decision (P x)} l x y : list_find P l = None -> P y -> list_find P (<[length l := y]> (l ++ [x])) = Some (length l, y).
Proof.
  intros H Hy. rewrite insert_app_r_alt, Nat.sub_diag by lia. cbn. rewrite (list_find_app_r _ _ _ H). cbn. rewrite decide_True by done. reflexivity.
Qed.
Lemma gateway_step c f seen : record_below c seen f -> exists seen', gateway_admits c f seen = Some (true, seen') /\
  forall g, record_below c seen g -> key_below (frame_key f) (frame_key g) -> record_below c seen' g.
Proof.
  unfold record_below, gateway_admits. intros Hf.
  set (found := match list_find _ seen with Some (k, e) => Some (k, e, seen) | None => _ end).
  assert (Hfound : exists k e l, found = Some (k, e, l) /\ (forall e', se_host e' = cx_host c -> list_find (fun e => se_host e = cx_host c) (<[k := e']> l) = Some (k, e')) /\
    se_host e = cx_host c /\ se_session e = cx_session c /\ key_below (se_last e, Some (se_last_goal e)) (frame_key f) /\
    forall g, record_below c seen g -> key_below (se_last e, Some (se_last_goal e)) (frame_key g)).
  { unfold found, record_below. destruct (list_find (fun e => se_host e = cx_host c) seen) as [[k e]|] eqn:E.
    - exists k, e, seen. destruct Hf as [Hs Hk]. split_and!; auto; [intros e'; by apply (find_insert_found (fun e => se_host e = cx_host c) seen k e)| |by intros g [_ ?]]. by apply list_find_Some in E as (_ & ? & _).
    - destruct Hf as [Hl Hk]. rewrite (proj2 (Z.leb_gt _ _)) by (unfold MAX_CONNECTIONS; lia). eexists _, _, _. split; [reflexivity|]. cbn.
      split_and!; auto; [|by intros g [_ ?]]. intros e' He'. by apply (find_snoc_found (fun e => se_host e = cx_host c)). }
  destruct Hfound as (k & e & l & -> & Hfind & Hh & Hs & Hk & Hg). rewrite Hs, Z.eqb_refl. cbn [negb].
  assert (Hid : (cf_request_id f <=? se_last e) = false) by (apply Z.leb_gt; apply Hk). rewrite Hid.
  unfold frame_key in Hk. cbn in Hk. destruct (is_kind f ControlMessage.ACTION_GOAL_REQUEST) eqn:Eg.
  - cbn [se_last_goal]. rewrite (proj2 (Z.leb_gt _ _)) by apply Hk. eexists. split; [reflexivity|]. intros g Hb Hfg. rewrite Hfind by done.
    split; [done|]. cbn [se_last se_last_goal]. unfold frame_key in Hfg at 1. by rewrite Eg in Hfg.
  - eexists. split; [reflexivity|]. intros g Hb Hfg. rewrite Hfind by done. split; [done|]. cbn [se_last se_last_goal]. destruct (Hg g Hb) as [_ ?], Hfg as [? _]. done.
Qed.
Lemma admit_all_ascending c fs : forall seen, Forall (record_below c seen) fs -> ascending (fun f g => key_below (frame_key f) (frame_key g)) fs -> admit_all c fs seen = true.
Proof.
  induction fs as [|f fs IH]; intros seen Hr Ha; cbn [admit_all]; [done|]. inversion Hr as [|? ? H1 H2]; subst. destruct (gateway_step c f seen H1) as (seen' & -> & Hs).
  apply IH; [|eapply ascending_sublist; [|exact Ha]; by apply sublist_cons]. apply Forall_lookup. intros i g Hg. apply Hs; [by apply (Forall_lookup_1 _ _ _ _ H2 Hg)|].
  by apply (Ha 0%nat (S i)); [lia|..].
Qed.
(** Requests reach the other gateway in an order it accepts.  Of two requests that were sent
    to the same host, the later one has the greater number, and the greater goal number when
    both are goals; so a gateway that has just started takes everything that it receives of
    them on a connection as new, whatever part of them was lost. *)
Theorem control_stream_accepted config self session request goal connection now es :
  let s := node_run config es (started_node self session (Z.of_N request) (Z.of_N goal) connection now) in
  ascending same_host_below (nd_requests s) /\
  forall h c (keep : ControlFrame -> bool), admit_all c (filter (fun f => keep f = true) (requests_to h s)) [] = true.
Proof.
  intros s. pose proof (run_order config self session request goal connection now es) as [_ _ _ H3 _ H5]. split; [exact H3|]. intros h c keep.
  apply admit_all_ascending.
  - apply Forall_forall. intros f Hf. apply list_elem_of_filter in Hf as [_ Hf]. apply list_elem_of_fmap in Hf as (r & -> & Hr). apply list_elem_of_filter in Hr as [_ Hr].
    rewrite Forall_fmap, Forall_forall in H5. destruct (H5 r Hr) as [B1 B2]. split; [cbn; lia|]. cbn in B1, B2. unfold key_below. cbn. split; [lia|].
    destruct (is_kind (snd r) _); [lia|done].
  - eapply ascending_sublist; [apply sublist_filter|]. intros i j a b Hij Hi Hj. unfold requests_to in Hi, Hj.
    apply list_lookup_fmap_Some in Hi as (x & -> & Hi). apply list_lookup_fmap_Some in Hj as (y & -> & Hj).
    assert (Ha : ascending same_host_below (filter (fun r => request_host r = h) (nd_requests s))) by (eapply ascending_sublist; [apply sublist_filter|exact H3]).
    apply (Ha i j x y Hij Hi Hj). apply list_elem_of_lookup_2, list_elem_of_filter in Hi as [-> _]. apply list_elem_of_lookup_2, list_elem_of_filter in Hj as [-> _]. done.
Qed.
