(* ===== verification/ControlNodeAdmission.v ===== *)
(** * What a control node accepts, and its bounds

    The replay window of a client against its specification ([window_equivalent]), requests
    that are accepted once ([accepted_once_run]) and only from whom they may come
    ([control_access]), and the bounds of the node ([control_node_bounded],
    [control_output_intact]), by induction on the moves of [ControlNodeCore]. *)
From S2P Require Import Prelude Wire NetTypes NetWire Compatibility DiscoveryProtocol TypeDescriptor NetworkDiagnostics ControlFrame PeerDiscovery RemoteAction ControlNode ControlNodeCore ControlNodeRequests.

(** ** The window of a client *)
(** What a window has to do: a number is admitted when it was not admitted before and is less
    than 256 below the greatest admitted one. *)
Definition greatest (l : list Z) : Z := foldr Z.max 0 l.
Definition admissible (l : list Z) (id : Z) : bool := negb (bool_decide (id ∈ l)) && (greatest l - id <? 256).
(** [w] stands for the admitted numbers [l]. *)
Record window_of (w : Window) (l : list Z) : Prop := {
  wo_high : wn_high w = greatest l;
  wo_bits : forall i, 0 <= i -> Z.testbit (wn_bits w) i = (i <? 256) && bool_decide (wn_high w - i ∈ l)
}.
Lemma greatest_max l x : x ∈ l -> x <= greatest l.
Proof. unfold greatest. induction l as [|y l IH]; [by intros ?%not_elem_of_nil|]. rewrite elem_of_cons. cbn. intros [->|H]; [lia|]. apply IH in H. lia. Qed.
Lemma greatest_snoc l x : greatest (l ++ [x]) = Z.max (greatest l) x.
Proof. unfold greatest. rewrite foldr_app. cbn. induction l as [|y l IH]; cbn; lia. Qed.
Lemma window_new : window_of new_window [].
Proof. split; [done|]. intros i Hi. rewrite Z.bits_0. by rewrite bool_decide_false, andb_false_r by apply not_elem_of_nil. Qed.
Lemma window_raise w l id : window_of w l -> wn_high w < id ->
  forall i, 0 <= i -> Z.testbit (if 256 <=? id - wn_high w then 0 else Z.land (Z.shiftl (wn_bits w) (id - wn_high w)) (Z.ones 256)) i = (i <? 256) && bool_decide (id - i ∈ l).
Proof.
  intros [Hh Hb] Hid i Hi. set (d := id - wn_high w). assert (Hd : 0 < d) by (unfold d; lia).
  assert (Hno : i < d -> bool_decide (id - i ∈ l) = false).
  { intros Hlt. apply bool_decide_eq_false. intros Hin%greatest_max. lia. }
  case_check; bool_to_prop.
  - rewrite Z.bits_0. destruct (Z.ltb_spec i 256); [|done]. by rewrite Hno by lia.
  - rewrite Z.land_spec, Z.shiftl_spec, Z.testbit_ones_nonneg, (andb_comm _ (i <? 256)) by lia. destruct (Z.ltb_spec i 256); [|done]. cbn [andb].
    destruct (decide (i < d)) as [Hlt|Hge]; [by rewrite Z.testbit_neg_r, Hno by lia|]. rewrite Hb by lia. rewrite (proj2 (Z.ltb_lt _ _)) by lia. cbn [andb].
    by replace (wn_high w - (i - d)) with (id - i) by (unfold d; lia).
Qed.
Lemma AdmitId_window w l id : window_of w l ->
  fst (AdmitId w id) = admissible l id /\ window_of (snd (AdmitId w id)) (if admissible l id then l ++ [id] else l).
Proof.
  intros Hw. unfold AdmitId. set (w' := if wn_high w <? id then _ else w).
  assert (Hw' : forall i, 0 <= i -> Z.testbit (wn_bits w') i = (i <? 256) && bool_decide (wn_high w' - i ∈ l)).
  { unfold w'. destruct (Z.ltb_spec (wn_high w) id); [cbn; by apply window_raise|apply Hw]. }
  assert (Hh : wn_high w' = Z.max (greatest l) id) by (unfold w'; rewrite <- (wo_high _ _ Hw); destruct (Z.ltb_spec (wn_high w) id); cbn; lia).
  assert (Hg : greatest (l ++ [id]) = Z.max (greatest l) id) by apply greatest_snoc.
  clearbody w'. set (offset := wn_high w' - id). assert (Ho : offset = wn_high w' - id /\ 0 <= offset) by lia.
  clearbody offset. destruct Ho as [Eo Ho].
  assert (Hc : (256 <=? offset) || Z.testbit (wn_bits w') offset = negb (admissible l id)).
  { rewrite Hw' by done. unfold admissible. replace (wn_high w' - offset) with id by lia. destruct (Z.leb_spec 256 offset); destruct (Z.ltb_spec offset 256); try lia; cbn [orb andb].
    replace (greatest l - id <? 256) with true by (symmetry; apply Z.ltb_lt; lia). by rewrite andb_true_r, negb_involutive. }
  rewrite Hc. destruct (admissible l id) eqn:Ea; cbn [negb fst snd]; (split; [done|]).
  - split; cbn [wn_high wn_bits]; [lia|]. intros i Hi. rewrite Z.setbit_eqb, Hw' by done. destruct (Z.eqb_spec offset i) as [<-|Hne]; cbn [orb].
    + replace (wn_high w' - offset) with id by lia. rewrite bool_decide_true by (rewrite elem_of_app, list_elem_of_singleton; auto).
      apply orb_false_iff in Hc as [Hlt _]. bool_to_prop. by rewrite (proj2 (Z.ltb_lt _ _)) by lia.
    + f_equal. apply bool_decide_ext. rewrite elem_of_app, list_elem_of_singleton. split; [auto|]. intros [?|?]; [done|lia].
  - split; [|exact Hw']. rewrite Hh. unfold admissible in Ea. apply andb_false_iff in Ea as [Ea|Ea].
    + apply negb_false_iff, bool_decide_eq_true in Ea. apply greatest_max in Ea. lia.
    + bool_to_prop. lia.
Qed.
(** The answers of a window, and those of the specification. *)
Fixpoint window_run (w : Window) (ids : list Z) : list bool :=
  match ids with [] => [] | id :: rest => let (new, w) := AdmitId w id in new :: window_run w rest end.
Fixpoint reference_run (l : list Z) (ids : list Z) : list bool :=
  match ids with [] => [] | id :: rest => admissible l id :: reference_run (if admissible l id then l ++ [id] else l) rest end.
(** The replay window of a client, a shifted 256-bit set below the highest number, is
    equivalent to its specification on a list: on every sequence of numbers it admits exactly
    those that were not admitted before and are less than 256 below the greatest one admitted. *)
Theorem window_equivalent (ids : list Z) : window_run new_window ids = reference_run [] ids.
Proof.
  generalize window_new. generalize new_window, (@nil Z). induction ids as [|id ids IH]; intros w l Hw; [done|]. cbn [window_run reference_run].
  destruct (AdmitId_window w l id Hw) as [H1 H2]. destruct (AdmitId w id) as [new w1]. cbn [fst snd] in *. rewrite <- H1 in *. f_equal. by apply IH.
Qed.

(** ** Records by host *)
Section Look.
Context {A : Type} (host : A -> HostIdentity).
Definition look (h : HostIdentity) (l : list A) : option A := snd <$> list_find (fun e => host e = h) l.
Lemma find_other (P : A -> Prop) `{Hdec : !forall x, Decision (P x)} l : forall k x y, l !! k = Some x -> ~ P x -> ~ P y -> snd <$> list_find P (<[k := y]> l) = snd <$> list_find P l.
Proof.
  induction l as [|z l IH]; intros k x y Hk Hx Hy; [done|]. destruct k as [|k]; cbn in *.
  - injection Hk as ->. by rewrite !decide_False.
  - case_decide; [done|]. specialize (IH k x y Hk Hx Hy). change (list_insert k y l) with (<[k := y]> l). destruct (list_find P (<[k := y]> l)) as [[? ?]|], (list_find P l) as [[? ?]|]; cbn in *; congruence.
Qed.
Lemma look_put h0 l k e e' : list_find (fun e => host e = h0) l = Some (k, e) -> host e' = h0 -> forall h, look h (<[k := e']> l) = if decide (h = h0) then Some e' else look h l.
Proof.
  intros Hf He h. unfold look. case_decide as Eh.
  - subst h. by rewrite (find_insert_found (fun e => host e = h0) l k e e' Hf He).
  - apply list_find_Some in Hf as (Hk & Hh & _). eapply find_other; [exact Hk|congruence..].
Qed.
Lemma look_snoc h0 l x e' : list_find (fun e => host e = h0) l = None -> host x = h0 -> host e' = h0 ->
  forall h, look h (<[length l := e']> (l ++ [x])) = if decide (h = h0) then Some e' else look h l.
Proof.
  intros Hf Hx He h. unfold look. case_decide as Eh.
  - subst h. by rewrite (find_snoc_found (fun e => host e = h0) l x e' Hf He).
  - rewrite (find_other _ _ _ x) by (rewrite ?lookup_app_r, ?Nat.sub_diag by lia; congruence || done).
    destruct (list_find (fun e => host e = h) l) as [[i y]|] eqn:E.
    + by rewrite (list_find_app_l _ _ _ _ _ E).
    + rewrite (list_find_app_r _ _ _ E). cbn. by rewrite decide_False by congruence.
Qed.
End Look.

(** ** Requests are accepted once *)
Definition gateway_fresh (c : Connection) : Seen := {| se_host := cx_host c; se_session := cx_session c; se_last := 0; se_last_goal := 0 |}.
(** The record that [gateway_admits] compares with, and the one it leaves. *)
Definition gateway_base (c : Connection) (old : option Seen) : Seen :=
  match old with Some e => if se_session e =? cx_session c then e else gateway_fresh c | None => gateway_fresh c end.
Definition gateway_next (f : ControlFrame) (e : Seen) : bool * Seen :=
  if cf_request_id f <=? se_last e then (false, e)
  else if is_kind f ControlMessage.ACTION_GOAL_REQUEST then
    if rg_goal_id (cf_goal f) <=? se_last_goal e then (false, {| se_host := se_host e; se_session := se_session e; se_last := cf_request_id f; se_last_goal := se_last_goal e |})
    else (true, {| se_host := se_host e; se_session := se_session e; se_last := cf_request_id f; se_last_goal := rg_goal_id (cf_goal f) |})
  else (true, {| se_host := se_host e; se_session := se_session e; se_last := cf_request_id f; se_last_goal := se_last_goal e |}).
Lemma gateway_next_host f e : se_host (snd (gateway_next f e)) = se_host e /\ se_session (snd (gateway_next f e)) = se_session e.
Proof. unfold gateway_next. repeat case_check; done. Qed.
Lemma look_found {A} (host : A -> HostIdentity) h l k e : list_find (fun e => host e = h) l = Some (k, e) -> look host h l = Some e /\ host e = h.
Proof. intros H. unfold look. rewrite H. split; [done|]. by apply list_find_Some in H as (_ & ? & _). Qed.
Lemma next_unfold f e (k : nat) (l : list Seen) :
  (if cf_request_id f <=? se_last e then Some (false, <[k := e]> l)
   else
     let e := {| se_host := se_host e; se_session := se_session e; se_last := cf_request_id f; se_last_goal := se_last_goal e |} in
     if is_kind f ControlMessage.ACTION_GOAL_REQUEST then
       if rg_goal_id (cf_goal f) <=? se_last_goal e then Some (false, <[k := e]> l)
       else Some (true, <[k := {| se_host := se_host e; se_session := se_session e; se_last := se_last e; se_last_goal := rg_goal_id (cf_goal f) |}]> l)
     else Some (true, <[k := e]> l)) = (let (new, e') := gateway_next f e in Some (new, <[k := e']> l)).
Proof. unfold gateway_next. cbn. destruct (_ <=? se_last e); [done|]. destruct (is_kind f _); [|done]. by destruct (_ <=? se_last_goal e). Qed.
Lemma gateway_admits_next c f seen new seen' : gateway_admits c f seen = Some (new, seen') ->
  let e := gateway_base c (look se_host (cx_host c) seen) in
  new = fst (gateway_next f e) /\ forall h, look se_host h seen' = if decide (h = cx_host c) then Some (snd (gateway_next f e)) else look se_host h seen.
Proof.
  intros H e. assert (Hb : se_host e = cx_host c).
  { unfold e, gateway_base, look. destruct (list_find _ seen) as [[k x]|] eqn:E; cbn; [|done]. case_check; [|done]. by apply list_find_Some in E as (_ & ? & _). }
  assert (Hput : exists k l, (forall e', se_host e' = cx_host c -> forall h, look se_host h (<[k := e']> l) = if decide (h = cx_host c) then Some e' else look se_host h seen) /\
    Some (new, seen') = (let (new, e') := gateway_next f e in Some (new, <[k := e']> l))).
  { unfold gateway_admits in H. unfold e, look. clear e Hb. destruct (list_find (fun e => se_host e = cx_host c) seen) as [[k x]|] eqn:E; cbn [fmap option_fmap option_map snd].
    - exists k, seen. split; [intros e' He'; by apply (look_put se_host (cx_host c) seen k x)|]. rewrite <- H. apply list_find_Some in E as (_ & Ex & _).
      replace (if negb (se_session x =? cx_session c) then _ else x) with (gateway_base c (Some x)) by (unfold gateway_base, gateway_fresh; rewrite Ex; by destruct (_ =? _)).
      apply next_unfold.
    - case_check; [done|]. eexists _, _. split; [intros e' He'; apply (look_snoc se_host (cx_host c) seen (gateway_fresh c)); done|]. rewrite <- H.
      cbn [se_session gateway_base]. rewrite Z.eqb_refl. cbn [negb]. apply (next_unfold f (gateway_fresh c)). }
  destruct Hput as (k & l & Hl & Heq). pose proof (proj1 (gateway_next_host f e)) as Hn. destruct (gateway_next f e) as [new' e']. injection Heq as -> ->. cbn [fst snd] in *.
  split; [done|]. apply Hl. congruence.
Qed.
Definition client_fresh (c : Connection) (f : ControlFrame) : ClientSeen :=
  {| cs_host := cx_host c; cs_boot := rt_boot_id (cf_source f); cs_session := cx_session c; cs_requests := new_window; cs_goals := new_window |}.
Definition client_base (c : Connection) (f : ControlFrame) (old : option ClientSeen) : ClientSeen :=
  match old with
  | Some e => if negb (cs_boot e =?? rt_boot_id (cf_source f)) || negb (cs_session e =? cx_session c) then client_fresh c f else e
  | None => client_fresh c f
  end.
Definition client_next (f : ControlFrame) (e : ClientSeen) : bool * ClientSeen :=
  let (new, requests) := AdmitId (cs_requests e) (cf_request_id f) in
  let (new, goals) := if new && is_kind f ControlMessage.ACTION_GOAL_REQUEST then AdmitId (cs_goals e) (rg_goal_id (cf_goal f)) else (new, cs_goals e) in
  (new, {| cs_host := cs_host e; cs_boot := cs_boot e; cs_session := cs_session e; cs_requests := requests; cs_goals := goals |}).
Lemma client_next_host f e : let e' := snd (client_next f e) in cs_host e' = cs_host e /\ cs_boot e' = cs_boot e /\ cs_session e' = cs_session e.
Proof. unfold client_next. destruct (AdmitId _ _). by destruct (if _ && _ then _ else _). Qed.
Lemma client_admits_next c f seen new seen' : client_admits c f seen = Some (new, seen') ->
  let e := client_base c f (look cs_host (cx_host c) seen) in
  new = fst (client_next f e) /\ forall h, look cs_host h seen' = if decide (h = cx_host c) then Some (snd (client_next f e)) else look cs_host h seen.
Proof.
  intros H e. assert (Hb : cs_host e = cx_host c).
  { unfold e, client_base, look. destruct (list_find _ seen) as [[k x]|] eqn:E; cbn; [|done]. case_check; [done|]. by apply list_find_Some in E as (_ & ? & _). }
  assert (Hput : exists k l, (forall e', cs_host e' = cx_host c -> forall h, look cs_host h (<[k := e']> l) = if decide (h = cx_host c) then Some e' else look cs_host h seen) /\
    Some (new, seen') = (let (new, e') := client_next f e in Some (new, <[k := e']> l))).
  { unfold client_admits in H. unfold client_next, e, client_base, look in *. destruct (list_find (fun e => cs_host e = cx_host c) seen) as [[k x]|] eqn:E.
    - exists k, seen. split; [intros e' He'; by apply (look_put cs_host (cx_host c) seen k x)|]. rewrite <- H. cbn [fmap option_fmap option_map snd]. fold (client_fresh c f).
      destruct (AdmitId _ _). by destruct (if _ && _ then _ else _).
    - case_check; [done|]. eexists _, _. split; [intros e' He'; apply (look_snoc cs_host (cx_host c) seen (client_fresh c f)); done|]. rewrite <- H. cbn [fmap option_fmap option_map snd].
      fold (client_fresh c f). destruct (_ || _); destruct (AdmitId _ _); by destruct (if _ && _ then _ else _). }
  destruct Hput as (k & l & Hl & Heq). pose proof (proj1 (client_next_host f e)) as Hn. destruct (client_next f e) as [new' e']. injection Heq as -> ->. cbn [fst snd] in *.
  split; [done|]. apply Hl. congruence.
Qed.
(** The incarnation a record belongs to: the session and, of a client, the boot. *)
Definition incarnation (a : Admission) : HostIdentity * Z := (if ad_observer a then rt_boot_id (cf_source (ad_frame a)) else [], ad_session a).
Definition from_source (observer : bool) (h : HostIdentity) (a : Admission) : Prop := ad_observer a = observer /\ ad_host a = h.
(** What was accepted from a host since its incarnation last changed. *)
Definition epoch_step (observer : bool) (h : HostIdentity) (acc : option ((HostIdentity * Z) * list ControlFrame)) (a : Admission) :=
  if decide (from_source observer h a) then
    Some (incarnation a, (match acc with Some (inc, fs) => if decide (inc = incarnation a) then fs else [] | None => [] end) ++ (if ad_accepted a then [ad_frame a] else []))
  else acc.
Definition epoch (observer : bool) (h : HostIdentity) (log : list Admission) : option ((HostIdentity * Z) * list ControlFrame) := foldl (epoch_step observer h) None log.
Definition current (a : Admission) (log : list Admission) : list ControlFrame :=
  match epoch (ad_observer a) (ad_host a) log with Some (inc, fs) => if decide (inc = incarnation a) then fs else [] | None => [] end.
Lemma epoch_snoc observer h log a : epoch observer h (log ++ [a]) =
  if decide (from_source observer h a) then Some (incarnation a, current a log ++ (if ad_accepted a then [ad_frame a] else [])) else epoch observer h log.
Proof.
  unfold epoch, current. rewrite foldl_app. cbn [foldl]. unfold epoch_step at 1. case_decide as H; [|done]. destruct H as [<- <-]. done.
Qed.
Definition is_goal_request (f : ControlFrame) : bool := is_kind f ControlMessage.ACTION_GOAL_REQUEST.
Definition distinct_requests (f g : ControlFrame) : Prop :=
  cf_request_id f <> cf_request_id g /\ (is_goal_request f = true -> is_goal_request g = true -> rg_goal_id (cf_goal f) <> rg_goal_id (cf_goal g)).
Definition gateway_covers (e : Seen) (f : ControlFrame) : Prop := cf_request_id f <= se_last e /\ (is_goal_request f = true -> rg_goal_id (cf_goal f) <= se_last_goal e).
Definition client_covers (ids goals : list Z) (f : ControlFrame) : Prop := cf_request_id f ∈ ids /\ (is_goal_request f = true -> rg_goal_id (cf_goal f) ∈ goals).
Definition gateway_ok (log : list Admission) (h : HostIdentity) (r : option Seen) : Prop :=
  match r with
  | None => epoch false h log = None
  | Some e => exists fs, epoch false h log = Some (([], se_session e), fs) /\ Forall (gateway_covers e) fs
  end.
Definition client_record_ok (log : list Admission) (h : HostIdentity) (r : option ClientSeen) : Prop :=
  match r with
  | None => epoch true h log = None
  | Some e => exists fs ids goals, epoch true h log = Some ((cs_boot e, cs_session e), fs) /\ window_of (cs_requests e) ids /\ window_of (cs_goals e) goals /\ Forall (client_covers ids goals) fs
  end.
Record admitted_inv (k : NodeCore) : Prop := {
  ai_gateway : forall h, gateway_ok (kn_admitted k) h (look se_host h (kn_seen k));
  ai_client : forall h, client_record_ok (kn_admitted k) h (look cs_host h (kn_client_seen k));
  ai_distinct : forall l1 a l2, kn_admitted k = l1 ++ a :: l2 -> ad_accepted a = true -> Forall (fun f => distinct_requests f (ad_frame a)) (current a l1)
}.
(** The record that is compared with covers what was accepted before; a new request differs
    from all of that, and the next record covers it too. *)
Lemma gateway_current c f log seen accepted : cx_diagnostics_only c = false -> gateway_ok log (cx_host c) (look se_host (cx_host c) seen) ->
  Forall (gateway_covers (gateway_base c (look se_host (cx_host c) seen))) (current (admission c f accepted) log).
Proof.
  intros Hd Hok. unfold current, incarnation. cbn. rewrite Hd. destruct (look se_host (cx_host c) seen) as [e|]; cbn in *.
  - destruct Hok as (fs & -> & Hfs). case_decide as E; [|constructor]. injection E as ->. by rewrite Z.eqb_refl.
  - by rewrite Hok.
Qed.
Lemma gateway_new f e g : gateway_covers e g -> fst (gateway_next f e) = true -> distinct_requests g f.
Proof.
  unfold gateway_next, gateway_covers, distinct_requests, is_goal_request. intros [H1 H2]. destruct (Z.leb_spec (cf_request_id f) (se_last e)); [done|].
  destruct (is_kind f _); [|intros _; split; [lia|done]]. destruct (Z.leb_spec (rg_goal_id (cf_goal f)) (se_last_goal e)); [done|].
  intros _. split; [lia|]. intros Hg _. specialize (H2 Hg). lia.
Qed.
Lemma gateway_grows f e g : gateway_covers e g -> gateway_covers (snd (gateway_next f e)) g.
Proof.
  unfold gateway_next, gateway_covers. intros [H1 H2]. destruct (Z.leb_spec (cf_request_id f) (se_last e)); [done|].
  destruct (is_kind f _); [|split; cbn; [lia|auto]]. destruct (Z.leb_spec (rg_goal_id (cf_goal f)) (se_last_goal e)); split; cbn; try lia; auto. intros Hg. specialize (H2 Hg). lia.
Qed.
Lemma gateway_takes f e : fst (gateway_next f e) = true -> gateway_covers (snd (gateway_next f e)) f.
Proof.
  unfold gateway_next, gateway_covers, is_goal_request. destruct (Z.leb_spec (cf_request_id f) (se_last e)); [done|].
  destruct (is_kind f _); [|intros _; cbn; split; [lia|done]]. destruct (Z.leb_spec (rg_goal_id (cf_goal f)) (se_last_goal e)); [done|]. cbn. lia.
Qed.
Lemma gateway_ok_step c f log seen accepted : cx_diagnostics_only c = false -> gateway_ok log (cx_host c) (look se_host (cx_host c) seen) ->
  let e := gateway_base c (look se_host (cx_host c) seen) in (accepted = true -> fst (gateway_next f e) = true) ->
  gateway_ok (log ++ [admission c f accepted]) (cx_host c) (Some (snd (gateway_next f e))).
Proof.
  intros Hd Hok e Hacc. pose proof (gateway_current c f log seen accepted Hd Hok) as Hc. fold e in Hc. cbn. rewrite epoch_snoc, decide_True by done. eexists. split.
  - unfold incarnation. cbn. rewrite Hd. do 2 f_equal. destruct (gateway_next_host f e) as [_ ->]. f_equal. unfold e, gateway_base.
    destruct (look se_host (cx_host c) seen) as [x|]; [|done]. destruct (Z.eqb_spec (se_session x) (cx_session c)); done.
  - apply Forall_app. split; [eapply Forall_impl; [exact Hc|]; intros g; apply gateway_grows|]. cbn. destruct accepted; [|constructor]. apply Forall_singleton. by apply gateway_takes, Hacc.
Qed.
Lemma client_current c f log seen accepted : cx_diagnostics_only c = true -> client_record_ok log (cx_host c) (look cs_host (cx_host c) seen) ->
  let e := client_base c f (look cs_host (cx_host c) seen) in
  exists ids goals, window_of (cs_requests e) ids /\ window_of (cs_goals e) goals /\ Forall (client_covers ids goals) (current (admission c f accepted) log).
Proof.
  intros Hd Hok. unfold current, incarnation, client_base. cbn. rewrite Hd. destruct (look cs_host (cx_host c) seen) as [e|]; cbn in *.
  - destruct Hok as (fs & ids & goals & -> & Hr & Hg & Hfs). case_decide as E.
    + injection E as E1 E2. rewrite E1, E2, Z.eqb_refl, bool_decide_true by done. by exists ids, goals.
    + case_check; [exists [], []; split_and!; [apply window_new..|constructor]|]. by exists ids, goals.
  - rewrite Hok. exists [], []. split_and!; [apply window_new..|constructor].
Qed.
Lemma admissible_fresh l id : admissible l id = true -> id ∉ l.
Proof. unfold admissible. intros H. apply andb_true_iff in H as [H _]. by apply negb_true_iff, bool_decide_eq_false in H. Qed.
(** One request on a client's record: the numbers its windows stand for afterwards. *)
Lemma client_next_covers f e ids goals : window_of (cs_requests e) ids -> window_of (cs_goals e) goals ->
  exists ids' goals', window_of (cs_requests (snd (client_next f e))) ids' /\ window_of (cs_goals (snd (client_next f e))) goals' /\
    (forall g, client_covers ids goals g -> client_covers ids' goals' g) /\
    (fst (client_next f e) = true -> client_covers ids' goals' f /\ forall g, client_covers ids goals g -> distinct_requests g f).
Proof.
  intros Hr Hg. unfold client_next. destruct (AdmitId_window _ _ (cf_request_id f) Hr) as [A1 A2]. destruct (AdmitId (cs_requests e) (cf_request_id f)) as [new requests]. cbn [fst snd] in *.
  assert (Hin : forall x (b : bool) y, x ∈ y -> x ∈ (if b then y ++ [cf_request_id f] else y)) by (intros x [|] y; rewrite ?elem_of_app; auto).
  destruct (new && is_kind f ControlMessage.ACTION_GOAL_REQUEST) eqn:En.
  - apply andb_true_iff in En as [-> Ek]. destruct (AdmitId_window _ _ (rg_goal_id (cf_goal f)) Hg) as [B1 B2]. destruct (AdmitId (cs_goals e) _) as [new2 goals2]. cbn [fst snd] in *.
    rewrite <- A1 in A2. cbn in A2. exists (ids ++ [cf_request_id f]), (if new2 then goals ++ [rg_goal_id (cf_goal f)] else goals). rewrite <- B1 in B2. split_and!; [done..| |].
    + intros g [C1 C2]. split; [rewrite elem_of_app; auto|]. intros Hgo. specialize (C2 Hgo). destruct new2; rewrite ?elem_of_app; auto.
    + intros Hn. rewrite Hn in *. symmetry in A1, B1. apply admissible_fresh in A1, B1. split; [split; [|intros _]; rewrite elem_of_app, list_elem_of_singleton; auto|].
      intros g [C1 C2]. split; [congruence|]. intros Hgo _ Heq. apply B1. rewrite <- Heq. auto.
  - cbn [fst snd]. eexists _, goals. split_and!; [exact A2|exact Hg| |].
    + intros g [C1 C2]. split; auto.
    + intros Hn. rewrite Hn in *. cbn in En. rewrite <- A1. symmetry in A1. apply admissible_fresh in A1. split; [split; [rewrite elem_of_app, list_elem_of_singleton; auto|]|].
      * unfold is_goal_request. rewrite En. done.
      * intros g [C1 C2]. split; [congruence|]. unfold is_goal_request. rewrite En. done.
Qed.
Lemma client_record_step c f log seen accepted : cx_diagnostics_only c = true -> client_record_ok log (cx_host c) (look cs_host (cx_host c) seen) ->
  let e := client_base c f (look cs_host (cx_host c) seen) in (accepted = true -> fst (client_next f e) = true) ->
  client_record_ok (log ++ [admission c f accepted]) (cx_host c) (Some (snd (client_next f e))) /\
  (fst (client_next f e) = true -> Forall (fun g => distinct_requests g f) (current (admission c f accepted) log)).
Proof.
  intros Hd Hok e Hacc. destruct (client_current c f log seen accepted Hd Hok) as (ids & goals & Hr & Hg & Hc). fold e in Hr, Hg.
  destruct (client_next_covers f e ids goals Hr Hg) as (ids' & goals' & Hr' & Hg' & Hgrow & Hnew). split.
  - cbn. rewrite epoch_snoc, decide_True by done. eexists _, ids', goals'. split_and!; [|done..|].
    + unfold incarnation. cbn. rewrite Hd. do 2 f_equal. destruct (client_next_host f e) as (_ & -> & ->). unfold e, client_base.
      destruct (look cs_host (cx_host c) seen) as [x|]; [|done]. destruct (negb (cs_boot x =?? _) || _) eqn:Eb; [done|]. bool_to_prop. by f_equal.
    + apply Forall_app. split; [eapply Forall_impl; [exact Hc|exact Hgrow]|]. cbn. destruct accepted; [|constructor]. apply Forall_singleton. by apply Hnew, Hacc.
  - intros Hn. eapply Forall_impl; [exact Hc|]. by apply Hnew.
Qed.
Lemma ok_other log h a : ~ from_source false h a -> forall r, gateway_ok log h r -> gateway_ok (log ++ [a]) h r.
Proof. intros Hn [e|]; cbn; by rewrite epoch_snoc, decide_False by done. Qed.
Lemma client_record_other log h a : ~ from_source true h a -> forall r, client_record_ok log h r -> client_record_ok (log ++ [a]) h r.
Proof. intros Hn [e|]; cbn; by rewrite epoch_snoc, decide_False by done. Qed.
Lemma distinct_snoc log a : (forall l1 x l2, log = l1 ++ x :: l2 -> ad_accepted x = true -> Forall (fun f => distinct_requests f (ad_frame x)) (current x l1)) ->
  (ad_accepted a = true -> Forall (fun f => distinct_requests f (ad_frame a)) (current a log)) ->
  forall l1 x l2, log ++ [a] = l1 ++ x :: l2 -> ad_accepted x = true -> Forall (fun f => distinct_requests f (ad_frame x)) (current x l1).
Proof.
  intros Hold Hnew l1 x l2 E Hx. destruct (decide (l2 = [])) as [->|Hne].
  - apply app_inj_tail in E as [<- <-]. auto.
  - destruct (exists_last Hne) as (l3 & z & ->). rewrite app_comm_cons, app_assoc in E. apply app_inj_tail in E as [E _]. by eapply Hold.
Qed.
Lemma admitted_step k c f new seen clients accepted jobs : admits c f k new seen clients -> (accepted = true -> new = true) -> admitted_inv k ->
  admitted_inv (kn_set_jobs seen clients jobs (kn_admitted k ++ [admission c f accepted]) k).
Proof.
  intros Ha Hacc [I1 I2 I3]. unfold admits in Ha. destruct (cx_diagnostics_only c) eqn:Hd; destruct Ha as [Ha ->].
  - destruct (client_admits_next _ _ _ _ _ Ha) as [-> Hl]. destruct (client_record_step c f _ _ accepted Hd (I2 (cx_host c)) Hacc) as [Hok Hdis]. split; core_cbn.
    + intros h. apply ok_other; [|apply I1]. intros [E _]. cbn in E. congruence.
    + intros h. rewrite Hl. case_decide as Eh; [by subst h|]. apply client_record_other; [|apply I2]. intros [_ E]. cbn in E. congruence.
    + apply distinct_snoc; [exact I3|]. cbn. auto.
  - destruct (gateway_admits_next _ _ _ _ _ Ha) as [-> Hl]. split; core_cbn.
    + intros h. rewrite Hl. case_decide as Eh; [subst h; by apply gateway_ok_step|]. apply ok_other; [|apply I1]. intros [_ E]. cbn in E. congruence.
    + intros h. apply client_record_other; [|apply I2]. intros [E _]. cbn in E. congruence.
    + apply distinct_snoc; [exact I3|]. cbn. intros Ht. eapply Forall_impl; [by apply (gateway_current c f _ (kn_seen k))|]. intros g Hg. eapply gateway_new; [exact Hg|auto].
Qed.
Lemma core_admitted k k' : core_move k k' -> admitted_inv k -> admitted_inv k'.
Proof.
  intros H I. destruct H as [k' H| | | | |]; try (by destruct I; split). destruct H as [| | | | | | |c f new seen clients Ha|c f seen clients deadline Ha| |]; try (by destruct I; split).
  - by eapply admitted_step.
  - by eapply admitted_step.
Qed.
Lemma run_admitted config self session request goal connection now es : admitted_inv (ncore [] (node_run config es (started_node self session request goal connection now))).
Proof.
  assert (H0 : admitted_inv (ncore [] (started_node self session request goal connection now))).
  { split; cbn; [done|done|]. intros l1 a l2 E. by destruct l1. }
  pose proof (run_moves config es (started_node self session request goal connection now)) as Hm. revert H0. unfold csim in Hm. induction Hm; eauto using core_admitted.
Qed.
(** Two accepted requests of the same incarnation of a host, with none of another incarnation
    of it in between, differ in number, and in goal number when both are goals. *)
Definition accepted_once (log : list Admission) : Prop :=
  forall i j a b, (i < j)%nat -> log !! i = Some a -> log !! j = Some b -> ad_accepted a = true -> ad_accepted b = true ->
  from_source (ad_observer b) (ad_host b) a -> incarnation a = incarnation b ->
  (forall m x, (i < m < j)%nat -> log !! m = Some x -> from_source (ad_observer b) (ad_host b) x -> incarnation x = incarnation b) ->
  distinct_requests (ad_frame a) (ad_frame b).
Lemma current_keeps b f tail : forall log, f ∈ current b log -> (forall x, x ∈ tail -> from_source (ad_observer b) (ad_host b) x -> incarnation x = incarnation b) -> f ∈ current b (log ++ tail).
Proof.
  induction tail as [|x tail IH]; intros log Hf Ht; [by rewrite app_nil_r|]. rewrite (cons_middle x log tail), app_assoc. apply IH; [|intros y Hy; apply Ht; by constructor].
  unfold current in *. rewrite epoch_snoc. case_decide as Hs; [|done]. destruct Hs as [Eo Eh]. assert (Ei : incarnation x = incarnation b) by (apply Ht; [constructor|done]).
  rewrite Ei, decide_True by done. apply elem_of_app. left. unfold current. by rewrite Eo, Eh, Ei.
Qed.
Lemma current_last b a log : ad_accepted a = true -> from_source (ad_observer b) (ad_host b) a -> incarnation a = incarnation b -> ad_frame a ∈ current b (log ++ [a]).
Proof.
  intros Ha Hs Hi. unfold current. rewrite epoch_snoc, decide_True, decide_True by done. rewrite Ha, elem_of_app. right. apply list_elem_of_singleton. done.
Qed.
(** Every request is accepted at most once.  In every run, of the requests that became jobs
    no two of the same incarnation of a gateway or client have the same number, nor two goals
    the same goal number: a request that is repeated or replayed, on the same or on another
    connection, is not accepted again until the peer changes its session. *)
Lemma accepted_once_run config self session request goal connection now es :
  accepted_once (nd_admitted (node_run config es (started_node self session request goal connection now))).
Proof.
  destruct (run_admitted config self session request goal connection now es) as [_ _ I]. cbn in I. intros i j a b Hij Hi Hj Ha Hb Hs Hinc Hmid.
  set (log := nd_admitted _) in *. pose proof (take_drop_middle log j b Hj) as E. specialize (I _ _ _ (eq_sym E) Hb). rewrite Forall_forall in I. apply I.
  assert (Hti : take j log !! i = Some a) by (rewrite lookup_take_lt by lia; done). rewrite <- (take_drop_middle _ i a Hti), cons_middle, app_assoc.
  apply current_keeps; [by apply current_last|]. intros x Hx Hf. apply list_elem_of_lookup in Hx as [m Hm]. rewrite lookup_drop in Hm.
  apply lookup_take_Some in Hm as [Hm Hlt]. apply (Hmid (S i + m)%nat x); [lia|done..].
Qed.

(** ** Who may have a request executed *)
(** A peer that is online and speaks the same network protocol, and runs the same framework
    where the policy asks for it. *)
Definition agreeing (config : NodeConfig) (p : PeerInfo) : Prop :=
  let local := dc_profile (nc_discovery config) in
  let remote := pi_profile p in
  pi_state p = ONLINE /\ np_major (pf_network local) <> 0 /\ np_major (pf_network remote) = np_major (pf_network local) /\
  (dc_compatibility_policy (nc_discovery config) = CompatibilityPolicy.NETWORK_PROTOCOL \/
   dc_compatibility_policy (nc_discovery config) = CompatibilityPolicy.EXACT_FRAMEWORK_VERSION /\ pf_framework remote = pf_framework local).
Definition has_capability (p : PeerProfile) (capability : Z) : Prop := Z.land (pf_capabilities p) capability <> 0.
Definition control_capabilities : list Z := [Capability.REMOTE_PARAMETER; Capability.REMOTE_SERVICE; Capability.REMOTE_ACTION].
(** A gateway with a control capability: this node and the peer both have it, and both serve
    single endpoints. *)
Definition gateway_granted (config : NodeConfig) (p : PeerInfo) (capability : Z) : Prop :=
  agreeing config p /\ forall c, c ∈ [Capability.TARGET_ENDPOINT; capability] -> has_capability (dc_profile (nc_discovery config)) c /\ has_capability (pi_profile p) c.
(** The configured list of an operation. *)
Definition operation_clients (config : NodeConfig) (operation : Z) : list HostIdentity :=
  if operation =? ControlMessage.PARAM_GET_REQUEST then nc_parameter_get_clients config
  else if operation =? ControlMessage.PARAM_SET_REQUEST then nc_parameter_set_clients config
  else if operation =? ControlMessage.SERVICE_REQUEST then nc_service_call_clients config
  else if operation =? ControlMessage.ACTION_GOAL_REQUEST then nc_action_goal_clients config
  else if operation =? ControlMessage.ACTION_CANCEL_REQUEST then nc_action_cancel_clients config
  else if operation =? ControlMessage.DESCRIPTOR_REQUEST then nc_descriptor_query_clients config
  else [].
(** A client: it has no control capability, and its host is in the list of the operation;
    descriptors are for everybody where Topics may be observed. *)
Definition client_granted (config : NodeConfig) (p : PeerInfo) (operation : Z) : Prop :=
  agreeing config p /\ Forall (fun c => ~ has_capability (pi_profile p) c) control_capabilities /\
  (pi_host p ∈ operation_clients config operation \/ operation = ControlMessage.DESCRIPTOR_REQUEST /\ nc_topic_observer_enabled config = true).
(** The grant of a request that arrives on a connection. *)
Definition granted (config : NodeConfig) (c : Connection) (p : PeerInfo) (f : ControlFrame) : Prop :=
  if cx_diagnostics_only c then
    cf_source f = cx_observer_source c /\ client_granted config p (cf_operation f) /\
    (cf_operation f <> ControlMessage.DESCRIPTOR_REQUEST -> cf_target f = TargetScope.ENDPOINT)
  else cf_operation f <> ControlMessage.DESCRIPTOR_REQUEST /\ Exists (gateway_granted config p) control_capabilities.
(** The peer is the one that the discovery knows: its boot, session and address. *)
Definition identified (c : Connection) (p : PeerInfo) (f : ControlFrame) (self : RemoteRuntimeIdentity) : bool :=
  cx_ready c && (cx_host c =?? pi_host p) && (cx_session c =? pi_session_id p) && (cx_address c =?? pi_address p) &&
  (rt_host (cf_source f) =?? pi_host p) && (rt_boot_id (cf_source f) =?? pi_boot_id p) && (cf_session_id f =? pi_session_id p) &&
  (rt_host (ep_runtime (cf_endpoint f)) =?? rt_host self) && (rt_boot_id (ep_runtime (cf_endpoint f)) =?? rt_boot_id self).
(** What the checks of the code give. *)
Lemma compatible_agrees config p : peer_online p = true ->
  Compatible (CheckPeerCompatibility (dc_profile (nc_discovery config)) (pi_profile p) (dc_compatibility_policy (nc_discovery config))) = true -> agreeing config p.
Proof.
  unfold peer_online, CheckPeerCompatibility, ValidProfile, agreeing. cbn zeta. intros Hon H. apply bool_decide_eq_true in Hon. split; [done|]. repeat case_check; try done.
  bool_to_prop. split; [done|]. split; [congruence|].
  match goal with K : negb _ && negb _ = false |- _ => apply andb_false_iff in K as [K|K]; apply negb_false_iff, Z.eqb_eq in K end; [by left|right]. split; [done|].
  match goal with K : _ && negb _ = false |- _ => apply andb_false_iff in K as [K|K]; bool_to_prop end; congruence.
Qed.
Lemma land_common a b known c : Z.land (Z.land (Z.land a b) known) c <> 0 -> Z.land a c <> 0 /\ Z.land b c <> 0.
Proof.
  intros H. split; intros E; apply H.
  - replace (Z.land (Z.land (Z.land a b) known) c) with (Z.land (Z.land a c) (Z.land b known)); [by rewrite E|]. apply Z.bits_inj'. intros i _. rewrite !Z.land_spec.
    by destruct (Z.testbit a i), (Z.testbit b i), (Z.testbit c i), (Z.testbit known i).
  - replace (Z.land (Z.land (Z.land a b) known) c) with (Z.land (Z.land b c) (Z.land a known)); [by rewrite E|]. apply Z.bits_inj'. intros i _. rewrite !Z.land_spec.
    by destruct (Z.testbit a i), (Z.testbit b i), (Z.testbit c i), (Z.testbit known i).
Qed.
Lemma capability_shared local remote required policy c : Compatible (CheckCapability local remote required policy) = true -> c <> 0 -> Z.land required c = c ->
  has_capability local c /\ has_capability remote c.
Proof.
  unfold CheckCapability, has_capability. intros H Hc Hr. destruct (Compatible (CheckPeerCompatibility local remote policy)) eqn:Hp; cbn in H; [|congruence].
  unfold Compatible in H at 1. cbn in H. destruct (Z.eqb_spec (Z.land required (Z.lnot (cr_common_capabilities (CheckPeerCompatibility local remote policy)))) 0) as [E|]; [|done].
  apply land_lnot_0 in E. assert (Hz : Z.land (cr_common_capabilities (CheckPeerCompatibility local remote policy)) c <> 0).
  { intros Z0. apply Hc. rewrite <- Hr, <- E, <- Z.land_assoc, Z0. apply Z.land_0_r. }
  unfold CheckPeerCompatibility in Hz, Hp. repeat case_check; cbn in *; try done. by apply land_common in Hz.
Qed.
Lemma Allowed_granted config p : Allowed config p = true -> Exists (gateway_granted config p) control_capabilities.
Proof.
  unfold Allowed. cbn zeta. intros H. apply andb_true_iff in H as [H Hany]. apply andb_true_iff in H as [Hon Hc].
  destruct (CheckCapability_common _ _ _ _ Hc) as [Hp _]. pose proof (compatible_agrees config p Hon Hp) as Hag.
  assert (Ht : has_capability (dc_profile (nc_discovery config)) Capability.TARGET_ENDPOINT /\ has_capability (pi_profile p) Capability.TARGET_ENDPOINT)
    by (by eapply capability_shared).
  apply negb_true_iff, Z.eqb_neq in Hany. set (common := cr_common_capabilities _) in Hany. rewrite !Z.land_lor_distr_r in Hany.
  assert (Hcc : forall c, Z.land common c <> 0 -> gateway_granted config p c).
  { intros c Hcc. split; [done|]. intros c'. rewrite elem_of_cons, list_elem_of_singleton. intros [->| ->]; [done|]. clear -Hcc. unfold common, CheckCapability in Hcc.
    unfold has_capability. destruct (Compatible _) eqn:Hp; cbn [negb cr_common_capabilities] in Hcc; unfold CheckPeerCompatibility in Hcc, Hp; repeat case_check; cbn in *; try done;
      by apply land_common in Hcc. }
  unfold control_capabilities. rewrite !Exists_cons. destruct (Z.eq_dec (Z.land common Capability.REMOTE_PARAMETER) 0) as [E1|E1]; [|left; by apply Hcc].
  destruct (Z.eq_dec (Z.land common Capability.REMOTE_SERVICE) 0) as [E2|E2]; [|right; left; by apply Hcc].
  right; right; left. apply Hcc. intros E3. apply Hany. by rewrite E1, E2, E3.
Qed.
Lemma observer_controls_nothing p : IsObserverProfile p = true -> Forall (fun c => ~ has_capability p c) control_capabilities.
Proof.
  unfold IsObserverProfile, has_capability. cbn zeta. intros H.
  assert (K : forall c, Z.land KNOWN_CAPABILITIES c = c -> Z.land (pf_capabilities p) c = Z.land (Z.land (pf_capabilities p) KNOWN_CAPABILITIES) c)
    by (intros c E; by rewrite <- Z.land_assoc, E).
  unfold control_capabilities. rewrite !Forall_cons, Forall_nil. rewrite (K Capability.REMOTE_PARAMETER), (K Capability.REMOTE_SERVICE), (K Capability.REMOTE_ACTION) by done.
  apply orb_true_iff in H as [->%Z.eqb_eq| ->%Z.eqb_eq]; split_and!; try done; intros N; by apply N.
Qed.
Lemma listed_in h hosts : listed h hosts = true -> h ∈ hosts.
Proof. unfold listed. intros (x & Hx & E)%existsb_exists. apply bool_decide_eq_true in E as ->. by apply list_elem_of_In. Qed.
Lemma observer_client config p operation : peer_online p && observer_peer config p = true ->
  pi_host p ∈ operation_clients config operation \/ operation = ControlMessage.DESCRIPTOR_REQUEST /\ nc_topic_observer_enabled config = true -> client_granted config p operation.
Proof.
  unfold observer_peer. intros [Hon Ho]%andb_true_iff Hl. apply andb_true_iff in Ho as [Ho Hc]. split; [by apply compatible_agrees|]. split; [by apply observer_controls_nothing|done].
Qed.
Lemma DescriptorClient_granted config p : DescriptorClientAllowed config p = true -> client_granted config p ControlMessage.DESCRIPTOR_REQUEST.
Proof.
  unfold DescriptorClientAllowed. intros [H Hl]%andb_true_iff. apply observer_client; [done|]. apply orb_true_iff in Hl as [?|?%listed_in]; auto.
Qed.
Lemma ParameterClient_granted config p f : ParameterClientAllowed config p f = true -> cf_target f = TargetScope.ENDPOINT /\
  cf_operation f ∈ [ControlMessage.PARAM_GET_REQUEST; ControlMessage.PARAM_SET_REQUEST] /\ client_granted config p (cf_operation f).
Proof.
  unfold ParameterClientAllowed, ReadClientAllowed, WriteClientAllowed. intros [->%Z.eqb_eq H]%andb_true_iff. split; [done|].
  apply orb_true_iff in H as [H|H]; apply andb_true_iff in H as [->%Z.eqb_eq H]; apply andb_true_iff in H as [H Hl%listed_in];
    (split; [set_solver|apply observer_client; auto]).
Qed.
Lemma ServiceClient_granted config p f : ServiceClientRequest config p f = true -> cf_target f = TargetScope.ENDPOINT /\
  cf_operation f ∈ [ControlMessage.SERVICE_REQUEST] /\ client_granted config p (cf_operation f).
Proof.
  unfold ServiceClientRequest, ServiceClientAllowed. intros [H1 H2]%andb_true_iff. apply andb_true_iff in H1 as [->%Z.eqb_eq ->%Z.eqb_eq].
  apply andb_true_iff in H2 as [H Hl%listed_in]. split_and!; [done|set_solver|apply observer_client; auto].
Qed.
Lemma ActionClient_granted config p f : ActionClientRequest config p f = true -> cf_target f = TargetScope.ENDPOINT /\
  cf_operation f ∈ [ControlMessage.ACTION_GOAL_REQUEST; ControlMessage.ACTION_CANCEL_REQUEST] /\ client_granted config p (cf_operation f).
Proof.
  unfold ActionClientRequest, ActionClientAllowed. intros [->%Z.eqb_eq H]%andb_true_iff. split; [done|].
  apply orb_true_iff in H as [H|H]; apply andb_true_iff in H as [->%Z.eqb_eq H]; apply andb_true_iff in H as [H Hl%listed_in];
    (split; [set_solver|apply observer_client; auto]).
Qed.
Lemma queue_at_jobs i f s : nd_jobs (snd (queue_at i f s)) = nd_jobs s.
Proof. unfold queue_at. destruct (nd_connections s !! i); [|done]. by destruct (QueueFrame _ _). Qed.
Lemma Finish_jobs i code reason value confirmed unknown s : nd_jobs (FinishPending i code reason value confirmed unknown s) = nd_jobs s.
Proof.
  unfold FinishPending. destruct (nd_pending s !! i) as [p|]; [|done]. cbn zeta. destruct (nd_batches _ !! _) as [b|]; [|done]. destruct (bt_endpoints b !! pe_index p) as [out|]; [|done].
  destruct (er_action out) as [k|]; [|done]. unfold update_action. cbn [nd_actions nd_set_pending]. destruct (bt_cancel b); destruct (nd_actions s !! k); try done;
    (destruct (negb (code =? 0)); [|done]); by destruct (_ && bool_decide _).
Qed.
Lemma hello_jobs i c f observer s : nd_jobs (snd (receive_hello i c f observer s)) = nd_jobs s.
Proof.
  assert (Hr : forall s, nd_jobs (become_ready i s) = nd_jobs s) by (intros x; unfold become_ready; by destruct (nd_connections x !! i)).
  assert (Hs : forall s, nd_jobs (snd (SendHello i s)) = nd_jobs s).
  { intros x. unfold SendHello. pose proof (queue_at_jobs i (blank_frame (nd_self x) (nd_session x)) x) as H. destruct (queue_at _ _ x) as [good y]. cbn [snd] in H. by destruct (nd_connections y !! i). }
  unfold receive_hello. destruct (cx_ready c); [done|]. destruct (cx_outbound c); [destruct (negb _); [done|apply Hr]|]. destruct (negb observer && _); [done|]. destruct (observer && _); [done|].
  cbn zeta. destruct (other_connection _ _ _ _); [done|]. match goal with |- context [SendHello i ?x] => pose proof (Hs x) as H; destruct (SendHello i x) as [[|] y] end; cbn [snd] in *; [by rewrite Hr|done].
Qed.
Lemma diagnostics_jobs_same config i f now s : nd_jobs (snd (AdmitDiagnostics config i f now s)) = nd_jobs s.
Proof.
  unfold AdmitDiagnostics, DiagnosticsError. destruct (nd_connections s !! i) as [c|]; [|done]. destruct (negb _); [apply queue_at_jobs|]. cbn zeta.
  destruct (diagnostics_record _ _ _) as [[[k e] l]|]; [|apply queue_at_jobs]. destruct (_ <=? _); [rewrite queue_at_jobs; by destruct (cx_diagnostics_only c)|].
  destruct (_ || _); [rewrite queue_at_jobs|cbn [snd]]; by destruct (cx_diagnostics_only c).
Qed.
Lemma goal_jobs c f s : nd_jobs (snd (goal_event c f s)) = nd_jobs s.
Proof.
  assert (Hu : forall k g s, nd_jobs (update_action k g s) = nd_jobs s) by (intros k g x; unfold update_action; by destruct (nd_actions x !! k)).
  unfold goal_event. destruct (list_find _ _) as [[k o]|]; [|done]. destruct (nd_actions s !! go_action o) as [a|]; [|done]. cbn zeta.
  destruct (_ || _); [done|]. destruct (negb _); [done|]. destruct (is_kind _ _); [destruct (_ <=? _); [done|apply Hu]|]. cbn [snd nd_jobs nd_set_outgoing]. apply Hu.
Qed.
Lemma filter_jobs config i c peer f s answer : observer_filter config i c peer f s = Some answer -> nd_jobs (snd answer) = nd_jobs s.
Proof.
  unfold observer_filter. cbn zeta. intros H. repeat (case_check; [apply (inj Some) in H as <-; first [done | apply queue_at_jobs]|]). done.
Qed.
Lemma filter_grants config i c peer f s : observer_filter config i c peer f s = None -> is_kind f ControlMessage.DIAGNOSTICS_REQUEST = false ->
  cf_source f = cx_observer_source c /\ client_granted config peer (cf_operation f) /\
  (cf_operation f <> ControlMessage.DESCRIPTOR_REQUEST -> cf_target f = TargetScope.ENDPOINT).
Proof.
  unfold observer_filter. cbn zeta. set (get := _ || _ || _ || _). intros H Hd. case_bool_decide as Hs; [|done]. cbn [negb andb] in *. split; [done|].
  destruct (_ && negb get && _ && _ && _); [done|]. destruct (_ && negb get); [done|]. destruct (negb get && _ && _); [done|]. rewrite Hd in H. destruct get eqn:Hget; [|done]. clear H.
  unfold get in Hget. apply orb_true_iff in Hget as [Hget|(? & _ & ?)%ActionClient_granted]; [|done]. apply orb_true_iff in Hget as [Hget|(? & _ & ?)%ServiceClient_granted]; [|done].
  apply orb_true_iff in Hget as [[Hk Hget]%andb_true_iff|(? & _ & ?)%ParameterClient_granted]; [|done]. unfold is_kind in Hk. apply Z.eqb_eq in Hk as ->.
  split; [by apply DescriptorClient_granted|done].
Qed.
Lemma client_no_gateway config p operation : client_granted config p operation -> ~ Exists (gateway_granted config p) control_capabilities.
Proof.
  intros (_ & Hn & _) (c & Hc & _ & Hg)%Exists_exists. rewrite Forall_forall in Hn. apply (Hn c Hc). apply (Hg c). set_solver.
Qed.
Lemma request_jobs i c f now s : nd_jobs (snd (accept_request i c f now s)) = nd_jobs s \/
  nd_jobs (snd (accept_request i c f now s)) = nd_jobs s ++ [{| jb_connection := cx_id c; jb_frame := f; jb_deadline := now + cf_timeout_ms f * millisecond |}] /\
  (rt_host (ep_runtime (cf_endpoint f)) =?? rt_host (nd_self s)) && (rt_boot_id (ep_runtime (cf_endpoint f)) =?? rt_boot_id (nd_self s)) = true.
Proof.
  unfold accept_request. cbn zeta. destruct (rt_host (ep_runtime (cf_endpoint f)) =?? _), (rt_boot_id (ep_runtime (cf_endpoint f)) =?? _); cbn [negb orb andb]; try (by left).
  assert (Hp : forall s', nd_jobs s' = nd_jobs s -> nd_jobs (snd (push_job c f now s')) = nd_jobs s \/
    nd_jobs (snd (push_job c f now s')) = nd_jobs s ++ [{| jb_connection := cx_id c; jb_frame := f; jb_deadline := now + cf_timeout_ms f * millisecond |}] /\ true = true).
  { intros s' Hs'. unfold push_job. destruct (_ <=? _); cbn; rewrite Hs'; auto. }
  destruct (cx_diagnostics_only c).
  - destruct (client_admits _ _ _) as [[[|] l]|]; [by apply Hp|left; unfold refuse; by rewrite queue_at_jobs|by left].
  - destruct (gateway_admits _ _ _) as [[[|] l]|]; [by apply Hp|by left|by left].
Qed.
(** C22: A frame becomes a job only when it is a request for this runtime, on a connection that has
    greeted, from the peer that the discovery knows with this boot, session and address, and
    when that peer, which is online and agrees on the network protocol, was granted it.  A
    client, which has none of the control capabilities, is in the configured list of exactly
    this operation (getting a Parameter, setting one, calling a service, sending a goal,
    canceling one, asking for a descriptor, where a node whose Topics may be observed answers
    all clients) and asks from the process that greeted.  A gateway is admitted to any request
    but that for a descriptor when it shares one of the three control capabilities with this
    node, not necessarily that of the operation, which is checked when the request is executed
    ([control_execution_authorized]).  The job is that frame, for that connection, with the
    deadline that it asks for. *)
Theorem control_access config i f peers now s :
  let s' := snd (HandleFrame config i f peers now s) in
  nd_jobs s' = nd_jobs s \/
  exists c p, nd_connections s !! i = Some c /\ peer_of peers (rt_host (cf_source f)) = Some p /\ IsRequest (cf_operation f) = true /\
    identified c p f (nd_self s) = true /\ granted config c p f /\
    nd_jobs s' = nd_jobs s ++ [{| jb_connection := cx_id c; jb_frame := f; jb_deadline := now + cf_timeout_ms f * millisecond |}].
Proof.
  cbn zeta. unfold HandleFrame. destruct (nd_connections s !! i) as [c|] eqn:Hi; [|by left]. destruct (peer_of peers (rt_host (cf_source f))) as [p|] eqn:Hp; [|by left].
  assert (Hh : pi_host p = rt_host (cf_source f)) by (unfold peer_of in Hp; apply find_some in Hp as [_ Hp]; by apply bool_decide_eq_true in Hp).
  destruct (pi_boot_id p =?? _) eqn:E1; [|by left]. destruct (pi_session_id p =? _) eqn:E2; [|by left]. destruct (pi_address p =?? _) eqn:E3; [|by left]. cbn [negb orb].
  set (observer := if cx_ready c then _ else _). destruct (negb (if observer then _ else _)) eqn:Eo; [by left|]. destruct (is_kind f ControlMessage.HELLO); [left; apply hello_jobs|].
  destruct (cx_ready c) eqn:Er; [|by left]. destruct (cx_host c =?? _) eqn:E4; [|by left]. destruct (cx_session c =? _) eqn:E5; [|by left]. cbn [negb orb].
  destruct (is_kind f ControlMessage.DESCRIPTOR_REQUEST && negb (DescriptorClientAllowed config p)) eqn:Ed; [left; apply queue_at_jobs|].
  destruct (if cx_diagnostics_only c then observer_filter config i c p f s else None) as [answer|] eqn:Ef; [left; destruct (cx_diagnostics_only c); [by eapply filter_jobs|done]|].
  destruct (is_kind f ControlMessage.DIAGNOSTICS_REQUEST) eqn:Eg; [left; apply diagnostics_jobs_same|]. destruct (is_kind f _ || is_kind f _); [left; apply goal_jobs|].
  destruct (IsRequest (cf_operation f)) eqn:Eq.
  - destruct (request_jobs i c f now s) as [H|[H1 H2]]; [by left|right]. exists c, p. split_and!; auto.
    + unfold identified. rewrite Er. bool_to_prop. rewrite !bool_decide_true by congruence. rewrite !(proj2 (Z.eqb_eq _ _)) by congruence. done.
    + unfold granted. unfold observer in Eo. destruct (cx_diagnostics_only c); [by eapply filter_grants|]. apply negb_false_iff, Allowed_granted in Eo. split; [|done].
      intros Hk. unfold is_kind in Ed. rewrite Hk in Ed. cbn in Ed. apply negb_false_iff, DescriptorClient_granted, client_no_gateway in Ed. done.
  - left. unfold receive_response_frame. destruct (list_find _ _) as [[k q]|]; [|done]. destruct (negb (answers_pending _ _)); [done|]. cbn zeta. destruct (_ <=? _); [|apply Finish_jobs]. cbn [snd nd_jobs nd_count_ignored]. apply Finish_jobs.
Qed.

(** ** Bounds *)
Definition frame_bytes (f : ControlFrame) : list Z := match EncodeControlFrame f with Ok bytes => bytes | Err _ => [] end.
Definition stream_of (fs : list ControlFrame) : list Z := flat_map frame_bytes fs.
(** What is left of the output, behind the bytes of the first buffer that were sent. *)
Definition unsent (c : Connection) : list Z := drop (Z.to_nat (cx_offset c)) (concat (cx_output c)).
Record connection_ok (c : Connection) : Prop := {
  ck_offset : 0 <= cx_offset c <= vsize (hd [] (cx_output c));
  ck_stream : cx_wire c ++ unsent c = stream_of (cx_frames c);
  ck_queued : cx_queued c = vsize (unsent c);
  ck_room : cx_queued c <= MAX_QUEUE_BYTES
}.
Record bounded_inv (k : NodeCore) : Prop := {
  bd_connections : Z.of_nat (length (kn_connections k)) <= MAX_CONNECTIONS;
  bd_ids : kn_drawn k <= 2 ^ 64 -> NoDup (cx_id <$> kn_connections k);
  bd_next : Forall (fun id => exists d, 0 <= d < kn_drawn k /\ id = u64 (kn_next_connection k - d)) (cx_id <$> kn_connections k);
  bd_drawn : 0 <= kn_drawn k;
  bd_each : Forall connection_ok (kn_connections k);
  bd_jobs : Z.of_nat (length (kn_jobs k)) <= 64;
  bd_replies : Z.of_nat (length (kn_replies k)) <= 64;
  bd_diagnostics : Z.of_nat (length (kn_diagnostics_jobs k)) <= MAX_DIAGNOSTICS_JOBS;
  bd_seen : Z.of_nat (length (kn_seen k)) <= MAX_CONNECTIONS;
  bd_clients : Z.of_nat (length (kn_client_seen k)) <= 192;
  bd_diagnostics_seen : Z.of_nat (length (kn_diagnostics_seen k)) <= MAX_CONNECTIONS;
  bd_observer_seen : Z.of_nat (length (kn_observer_seen k)) <= MAX_CONNECTIONS
}.
Lemma capped_le {A} cap (l l' : list A) : capped cap l l' -> Z.of_nat (length l) <= cap -> Z.of_nat (length l') <= cap.
Proof. intros [H|H] Hl; lia. Qed.
Lemma enqueue_ok c f bytes : EncodeControlFrame f = Ok bytes -> cx_queued c + vsize bytes <= MAX_QUEUE_BYTES -> connection_ok c -> connection_ok (cx_enqueue f bytes c).
Proof.
  intros He Hq [H1 H2 H3 H4]. assert (Hl : (Z.to_nat (cx_offset c) <= length (concat (cx_output c)))%nat).
  { unfold vsize in H1. destruct (cx_output c) as [|b l]; cbn in *; [lia|]. rewrite length_app. lia. }
  assert (U : unsent (cx_enqueue f bytes c) = unsent c ++ bytes) by (unfold unsent; cbn; rewrite concat_app, drop_app_le by done; cbn; by rewrite app_nil_r).
  split; [|rewrite U..|].
  - cbn. unfold vsize in *. destruct (cx_output c) as [|b l]; cbn in *; lia.
  - cbn. unfold stream_of. rewrite flat_map_app. cbn. unfold frame_bytes at 2. rewrite He, app_nil_r, app_assoc, H2. done.
  - cbn. unfold vsize in *. rewrite length_app. lia.
  - cbn. done.
Qed.
Lemma advance_ok c bytes rest n : cx_output c = bytes :: rest -> n <= vsize bytes - cx_offset c -> (cx_offset c <= vsize bytes -> 0 < n) -> connection_ok c ->
  connection_ok (cx_advance n (cx_offset c + n =? vsize bytes) c).
Proof.
  intros Ho Hn Hpos [H1 H2 H3 H4]. rewrite Ho in H1. cbn [hd] in H1. specialize (Hpos (proj2 H1)). unfold unsent in *. rewrite Ho in H2, H3. cbn [concat] in H2, H3.
  set (o := Z.to_nat (cx_offset c)) in *. set (m := Z.to_nat n). assert (Hm : Z.of_nat m = n /\ Z.of_nat o = cx_offset c) by (unfold m, o; lia).
  assert (Hlen : (o + m <= length bytes)%nat) by (unfold vsize in *; lia).
  assert (D : drop o (bytes ++ concat rest) = take m (drop o bytes) ++ drop (o + m) bytes ++ concat rest).
  { rewrite drop_app_le by lia. rewrite <- (take_drop m (drop o bytes)) at 1. by rewrite drop_drop, app_assoc. }
  assert (U : drop (Z.to_nat (cx_offset (cx_advance n (cx_offset c + n =? vsize bytes) c))) (concat (cx_output (cx_advance n (cx_offset c + n =? vsize bytes) c))) = drop (o + m) bytes ++ concat rest).
  { cbn. rewrite Ho. destruct (Z.eqb_spec (cx_offset c + n) (vsize bytes)) as [E|E]; cbn [tl concat].
    - rewrite drop_0, (drop_ge bytes) by (unfold vsize in *; lia). done.
    - rewrite drop_app_le by (unfold vsize in *; lia). do 2 f_equal. lia. }
  assert (L : length (drop o (bytes ++ concat rest)) = (m + length (drop (o + m) bytes ++ concat rest))%nat) by (rewrite D, length_app, length_take, length_drop; lia).
  split; [|unfold unsent; rewrite U..|].
  - cbn. rewrite Ho. destruct (Z.eqb_spec (cx_offset c + n) (vsize bytes)); cbn [tl hd]; [unfold vsize; lia|lia].
  - cbn. rewrite Ho. cbn [hd]. fold o m. rewrite <- app_assoc, <- D. exact H2.
  - cbn. rewrite H3. unfold vsize. rewrite L. lia.
  - cbn. lia.
Qed.
Lemma change_ok c c' : conn_change c c' -> connection_ok c -> connection_ok c' /\ cx_id c' = cx_id c.
Proof.
  intros H I. destruct H; try (split; [by destruct I|done]); split; try done; [by apply enqueue_ok|by eapply advance_ok].
Qed.
Lemma gateway_admits_length c f seen new seen' : gateway_admits c f seen = Some (new, seen') -> capped MAX_CONNECTIONS seen seen'.
Proof.
  intros H. assert (Hput : exists k l e, Some (new, seen') = Some (new, <[k := e]> l) /\ capped MAX_CONNECTIONS seen l).
  { unfold gateway_admits in H. destruct (list_find _ seen) as [[k e]|].
    - rewrite (next_unfold f _ k seen) in H. destruct (gateway_next _ _) as [n e']. injection H as <- <-. exists k, seen, e'. split; [done|by left].
    - destruct (MAX_CONNECTIONS <=? _) eqn:E; [done|]. bool_to_prop. rewrite next_unfold in H. destruct (gateway_next _ _) as [n e']. injection H as <- <-.
      eexists _, _, e'. split; [reflexivity|]. right. rewrite length_app. cbn. lia. }
  destruct Hput as (k & l & e & Heq & Hc). injection Heq as ->. unfold capped in *. by rewrite length_insert.
Qed.
Lemma client_admits_length c f seen new seen' : client_admits c f seen = Some (new, seen') -> capped 192 seen seen'.
Proof.
  intros H. assert (Hput : exists k l e, seen' = <[k := e]> l /\ capped 192 seen l).
  { unfold client_admits in H. destruct (list_find _ seen) as [[k e]|].
    - destruct (AdmitId _ _) as [n r]. destruct (if n && _ then _ else _) as [n2 g]. injection H as <- <-. eexists k, seen, _. split; [done|by left].
    - destruct (192 <=? _) eqn:E; [done|]. bool_to_prop. destruct (AdmitId _ _) as [n r]. destruct (if n && _ then _ else _) as [n2 g]. injection H as <- <-.
      eexists _, _, _. split; [reflexivity|]. right. rewrite length_app. cbn. lia. }
  destruct Hput as (k & l & e & -> & Hc). unfold capped in *. by rewrite length_insert.
Qed.
Lemma admits_bounded c f k new seen clients : admits c f k new seen clients -> bounded_inv k -> Z.of_nat (length seen) <= MAX_CONNECTIONS /\ Z.of_nat (length clients) <= 192.
Proof.
  intros Ha I. unfold admits in Ha. destruct (cx_diagnostics_only c); destruct Ha as [Ha ->]; split; try apply I.
  - eapply capped_le; [by eapply client_admits_length|apply I].
  - eapply capped_le; [by eapply gateway_admits_length|apply I].
Qed.
(** A new identity is that of no connection among the last 2^64 - 1 drawn. *)
Lemma drawn_before next d : u64 (next - d) = u64 (u64 (next + 1) - (d + 1)).
Proof. unfold u64. rewrite Zminus_mod_idemp_l. f_equal. lia. Qed.
Lemma drawn_fresh next d : 0 <= d < 2 ^ 64 - 1 -> u64 (next + 1) <> u64 (next - d).
Proof.
  unfold u64. intros Hd E. assert (Hz : ((next + 1) - (next - d)) mod 2 ^ 64 = 0) by (by rewrite Zminus_mod, E, Z.sub_diag).
  replace (next + 1 - (next - d)) with (d + 1) in Hz by lia. rewrite Z.mod_small in Hz by lia. lia.
Qed.
Lemma io_bounded k k' : io_move k k' -> bounded_inv k -> bounded_inv k'.
Proof.
  intros H I. pose proof I as [B1 B2 B3 B12 B4 B5 B6 B7 B8 B9 B10 B11]. destruct H as [| |i c c' Hi Hc|i|out con h ses ad dl Hroom| | |c f new seen clients Ha|c f seen clients dl Ha Hj|r j d o Hr Hj Hd Ho|j l Hj];
    try (split; core_cbn; done).
  - destruct (change_ok c c' Hc (Forall_lookup_1 _ _ _ _ B4 Hi)) as [Hok Hid].
    assert (E : cx_id <$> <[i := c']> (kn_connections k) = cx_id <$> kn_connections k) by (by apply (fmap_insert_same cx_id _ i c)).
    split; core_cbn; rewrite ?length_insert, ?E; try done. by apply Forall_insert.
  - split; core_cbn; try done.
    + pose proof (sublist_length _ _ (sublist_delete (kn_connections k) i)). lia.
    + intros Hd. eapply sublist_NoDup; [|apply (sublist_delete_fmap cx_id i)]. auto.
    + rewrite list_fmap_delete. by apply Forall_delete.
    + by apply Forall_delete.
  - split; core_cbn; try done.
    + rewrite length_app. cbn. unfold MAX_CONNECTIONS in *. lia.
    + intros Hd. rewrite fmap_app. apply NoDup_app. split; [apply B2; lia|]. split; [|apply NoDup_singleton]. intros x Hx Hs. apply list_elem_of_singleton in Hs as ->.
      rewrite Forall_forall in B3. apply B3 in Hx as (d & Hr & E). cbn in E. apply drawn_fresh in E; [done|lia].
    + rewrite fmap_app. apply Forall_app. split.
      * eapply Forall_impl; [exact B3|]. intros x (d & Hr & ->). exists (d + 1). split; [lia|apply drawn_before].
      * apply Forall_singleton. exists 0. split; [|cbn; unfold u64; by rewrite Z.sub_0_r, Z.mod_mod]. lia.
    + lia.
    + apply Forall_app. split; [done|]. apply Forall_singleton. split; cbn; done || (unfold MAX_QUEUE_BYTES, vsize; cbn; lia).
  - destruct (admits_bounded _ _ _ _ _ _ Ha I). split; core_cbn; done.
  - destruct (admits_bounded _ _ _ _ _ _ Ha I). split; core_cbn; try done. rewrite length_app. cbn. lia.
  - split; core_cbn; try done; (eapply capped_le; [eassumption|done]).
  - split; core_cbn; try done. rewrite Hj in B5. cbn in B5. lia.
Qed.
Lemma core_bounded k k' : core_move k k' -> bounded_inv k -> bounded_inv k'.
Proof. intros H I. destruct H; [by eapply io_bounded|by destruct I; split..]. Qed.
Lemma run_bounded config self session request goal connection now es : bounded_inv (ncore [] (node_run config es (started_node self session request goal connection now))).
Proof.
  assert (H0 : bounded_inv (ncore [] (started_node self session request goal connection now))) by (split; cbn; try done; constructor).
  pose proof (run_moves config es (started_node self session request goal connection now)) as Hm. revert H0. unfold csim in Hm. induction Hm; eauto using core_bounded.
Qed.
(** C31: The node stays within its bounds, whatever the peers and clients do: at most 64
    connections, 256 pending requests, 64 jobs, 64 replies and 8 diagnostics jobs, and records
    of at most 64 gateways and 192 clients.  The connections have distinct identities unless
    the 64-bit counter they are drawn from has gone around: as long as at most 2^64 of them
    were drawn since the start. *)
Theorem control_node_bounded config self session request goal connection now es :
  let s := node_run config es (started_node self session request goal connection now) in
  Z.of_nat (length (nd_connections s)) <= MAX_CONNECTIONS /\ (nd_drawn s <= 2 ^ 64 -> NoDup (cx_id <$> nd_connections s)) /\ Z.of_nat (length (nd_pending s)) <= MAX_PENDING /\
  Z.of_nat (length (nd_jobs s)) <= 64 /\ Z.of_nat (length (nd_replies s)) <= 64 /\ Z.of_nat (length (nd_diagnostics_jobs s)) <= MAX_DIAGNOSTICS_JOBS /\
  Z.of_nat (length (nd_seen s)) <= MAX_CONNECTIONS /\ Z.of_nat (length (nd_client_seen s)) <= 192 /\
  Z.of_nat (length (nd_diagnostics_seen s)) <= MAX_CONNECTIONS /\ Z.of_nat (length (nd_observer_seen s)) <= MAX_CONNECTIONS.
Proof.
  intros s. destruct (run_bounded config self session request goal connection now es). pose proof (bi_room _ (run_batches config self session request goal connection now es)). split_and!; done.
Qed.
(** The output of a connection is what was queued: at any time the bytes that the kernel has
    taken, followed by those that wait, are the encodings of the queued frames in order; the
    count of waiting bytes is exact and at most 256 KiB. *)
Theorem control_output_intact config self session request goal connection now es :
  Forall (fun c => cx_wire c ++ unsent c = stream_of (cx_frames c) /\ cx_queued c = vsize (unsent c) /\ cx_queued c <= MAX_QUEUE_BYTES)
    (nd_connections (node_run config es (started_node self session request goal connection now))).
Proof. eapply Forall_impl; [exact (bd_each _ (run_bounded config self session request goal connection now es))|]. intros c [_ H2 H3 H4]. done. Qed.

(** ** Two nodes *)
(** Gateways 1 and 2, which know each other, and a Parameter of the second: its value is asked
    for, once, on a connection over which the bytes are carried unchanged. *)
Definition pair_profile : PeerProfile :=
  {| pf_framework := pf_framework default_profile; pf_network := pf_network default_profile;
     pf_capabilities := Z.lor Capability.DISCOVERY (Z.lor Capability.REMOTE_PARAMETER Capability.TARGET_ENDPOINT) |}.
Definition pair_config (n : Z) : NodeConfig :=
  {| nc_discovery := {| dc_host := sample_host n; dc_boot_id := sample_host (n + 1); dc_profile := pair_profile;
       dc_compatibility_policy := CompatibilityPolicy.NETWORK_PROTOCOL; dc_interface_address := []; dc_multicast_group := []; dc_port := 37651;
       dc_metadata_port := 0; dc_announce_interval := 1000; dc_peer_timeout := 4000; dc_metadata_retry := 200; dc_max_peers := 64 |};
     nc_topics_enabled := false; nc_diagnostics_enabled := false; nc_topic_observer_enabled := false; nc_parameter_get_clients := [];
     nc_parameter_set_clients := []; nc_service_call_clients := []; nc_action_goal_clients := []; nc_action_cancel_clients := [];
     nc_descriptor_query_clients := []; nc_connect_timeout := 1000 * millisecond |}.
Definition pair_address (n : Z) : list Z := [49; 48; 46; 48; 46; 48; 46; 48 + n].
Definition pair_peer (n : Z) : PeerInfo :=
  {| pi_host := sample_host n; pi_boot_id := sample_host (n + 1); pi_session_id := 70 + n; pi_address := pair_address n; pi_port := 5000;
     pi_last_seen := 0; pi_metadata_revision := 1; pi_state := ONLINE; pi_profile := pair_profile;
     pi_compatibility := CheckPeerCompatibility pair_profile pair_profile CompatibilityPolicy.NETWORK_PROTOCOL; pi_metadata_ready := true;
     pi_endpoints := [sample_metadata n EndpointKind.PARAMETER EndpointRole.PROVIDER] |}.
Definition pair_start (n : Z) : Node := started_node (sample_runtime n) (70 + n) 0 0 0 0.
(** A turn at time [now] in which [n] hears [bytes] and writes what it can. *)
Definition pair_turn (n now : Z) (connect : bool) (accepted : list (list Z)) (bytes : list Z) : NodeEvent :=
  NeTurn {| tn_peers := [pair_peer n]; tn_now := now; tn_dispatch := {| dg_now := now; dg_now2 := now; dg_now3 := now; dg_routes := [] |};
            tn_connect := if connect then Some (fun _ => Connected) else None; tn_poll := true;
            tn_events := fun _ => {| ce_in := negb (bytes =?? []); ce_out := true; ce_bad := false; ce_connected := true;
                                     ce_reads := [ReadBytes bytes (fun _ => now); ReadErrno 11]; ce_writes := [WriteCount 5000; WriteCount 5000] |};
            tn_accepted := accepted |}.
Definition wire_of (s : Node) : list Z := flat_map cx_wire (nd_connections s).
(** What [s'] has written_since since [s]. *)
Definition written_since (s s' : Node) : list Z := drop (length (wire_of s)) (wire_of s').
Definition node1 (s : Node) (e : NodeEvent) : Node := node_step (pair_config 1) e s.
Definition node2 (s : Node) (e : NodeEvent) : Node := node_step (pair_config 2) e s.
(** The exchange: node 1 connects, both greet, node 1 asks; the same bytes arrive twice at
    node 2, which answers the one job it has. *)
Definition exchange : Node * Node :=
  let a0 := node1 (pair_start 1) (NeSubmit (endpoint_target (sample_endpoint 2)) sample_name sample_type [] false 1000 0 no_type no_type) in
  let a1 := node1 a0 (pair_turn 2 0 true [] []) in
  let b1 := node2 (pair_start 2) (pair_turn 1 0 false [pair_address 1] []) in
  let b2 := node2 b1 (pair_turn 1 1 false [] (written_since a0 a1)) in
  let b3 := node2 b2 (pair_turn 1 2 false [] []) in
  let a2 := node1 a1 (pair_turn 2 2 false [] (written_since b1 b3)) in
  let a3 := node1 a2 (pair_turn 2 3 false [] []) in
  let b4 := node2 b3 (pair_turn 1 3 false [] (written_since a2 a3)) in
  let b5 := node2 b4 (pair_turn 1 4 false [] (written_since a2 a3)) in
  let reply := match nd_jobs b5 with
               | j :: _ => [NeReply {| rp_connection := jb_connection j; rp_frame := frame_payload [5; 6] (reply_frame (sample_runtime 2) 72 ControlMessage.PARAM_GET_RESPONSE 0 (jb_frame j)) |}]
               | [] => []
               end in
  let b6 := node2 (foldl node2 b5 (NeTake :: reply)) (pair_turn 1 5 false [] []) in
  (node1 a3 (pair_turn 2 5 false [] (written_since b5 b6)), b6).
(** Node 1 has its answer; node 2 accepted the request once. *)
Example exchange_answers :
  let (a, b) := exchange in
  bt_fulfilled <$> nd_batches a = [[(0, [{| er_endpoint := sample_endpoint 2; er_error := 0; er_reason := CompatibilityReason.COMPATIBLE; er_value := [5; 6];
    er_action := None; er_cancel_unknown := false; er_execution_unknown := false |}])]] /\
  (fun x => (cf_request_id (ad_frame x), ad_accepted x)) <$> nd_admitted b = [(1, true); (1, false)].
Proof. vm_compute. split; reflexivity. Qed.
