(* ===== verification/ControlBackend.v ===== *)
(** * The control node: the threads that execute requests

    [ControlNode] of [kcf/src/network/control_node.cpp], the part that executes the jobs which
    the [IO] thread accepted ([ControlNode]): Parameter access and descriptor queries on the
    [Backend] thread, service calls, goals and cancels on worker threads, 32 of each kind.

    [Backend] is the node with the lists that these threads share.  What the local clients, the
    registries and the clock answer are arguments: [DynamicParameterClient],
    [DynamicServiceClient] and [DynamicActionClient] appear as the codes and values that their
    calls return, and [Access] names the call that was made on a local endpoint.  Times are
    nanoseconds; [little] is the byte order of the host. *)
From S2P Require Import Prelude Wire NetTypes NetWire Compatibility DiscoveryProtocol TypeDescriptor ParameterCodec LocalMetadata NetworkDiagnostics ControlFrame PeerDiscovery RemoteAction ControlNode.

(** ** Accesses to local endpoints *)
Inductive Access :=
| AccessGet (e : LocalEntry)
| AccessSet (e : LocalEntry) (value : DynamicPayload)
| AccessCall (e : LocalEntry) (input : DynamicPayload) (timeout : Z)
| AccessGoal (e : LocalEntry) (goal : DynamicPayload)
| AccessCancel (local_goal : Z).

Section Execution.
Context (config : NodeConfig) (little : bool).
Abbreviation local_profile := (dc_profile (nc_discovery config)).
Abbreviation policy := (dc_compatibility_policy (nc_discovery config)).

Definition find_entry (entries : list LocalEntry) (id : RemoteEndpointIdentity) : option LocalEntry :=
  List.find (fun e => md_identity (en_metadata e) =?? id) entries.
(** [profile.capabilities|=...] *)
Definition widen (p : PeerProfile) (grant : bool) (capability : Z) : PeerProfile :=
  if grant then {| pf_framework := pf_framework p; pf_network := pf_network p;
                   pf_capabilities := Z.lor (pf_capabilities p) (Z.lor capability Capability.TARGET_ENDPOINT) |} else p.
(** The peer of a request, as the discovery knows it now. *)
Definition current_peer (peers : list PeerInfo) (f : ControlFrame) : option PeerInfo :=
  match peer_of peers (rt_host (cf_source f)) with
  | None => None
  | Some p => if (pi_boot_id p =?? rt_boot_id (cf_source f)) && (pi_session_id p =? cf_session_id f) then Some p else None
  end.
Definition whole_ms (d : Z) : Z := Z.quot d millisecond.

(** ** Parameters *)
(** [pv_ticks]: [ReadProcessIdentity] of the owner; [pv_open], [pv_validate]: the codes of
    [Open] and [ValidateLocalParameterEndpoint]. *)
Record ParameterEnv := {
  pv_now : Z; pv_peers : list PeerInfo; pv_ticks : option Z; pv_open : Z; pv_validate : Z;
  pv_get : result DynamicPayload; pv_set : DynamicPayload -> Z
}.
(** A refusal: the status and, from the compatibility check, the reason. *)
Definition refusal : Type := Z * option Z.
Definition parameter_gate (local : list LocalEntry) (v : ParameterEnv) (j : Job) : refusal + LocalEntry :=
  let f := jb_frame j in
  if jb_deadline j <=? pv_now v then inl (- ETIMEDOUT, None)
  else match current_peer (pv_peers v) f with
  | None => inl (- ENOTCONN, None)
  | Some p =>
      if negb (Allowed config p || ParameterClientAllowed config p f) then inl (- ENOTCONN, None)
      else match find_entry local (cf_endpoint f) with
      | None => inl (- ENOENT, None)
      | Some e =>
          let gate := CheckKindCompatibility EndpointKind.PARAMETER local_profile
                        (widen (pi_profile p) (ParameterClientAllowed config p f) Capability.REMOTE_PARAMETER) (en_metadata e)
                        (ControlConsumer (cf_source f) (cf_name f) (cf_type f) no_type no_type) policy (cf_target f) in
          if negb (Compatible gate) then inl (ReasonError (cr_reason gate), Some (cr_reason gate))
          else match pv_ticks v with
               | Some t => if t =? rt_process_start_ticks (ep_runtime (md_identity (en_metadata e))) then inr e else inl (- ESTALE, None)
               | None => inl (- ESTALE, None)
               end
      end
  end.
(** The access: the payload of the answer, the access made, the opened storages. *)
Definition parameter_access (v : ParameterEnv) (f : ControlFrame) (e : LocalEntry) (storage : list RemoteEndpointIdentity) :
    result (list Z) * option Access * list RemoteEndpointIdentity :=
  let known := existsb (fun s => s =?? cf_endpoint f) storage in
  if negb known && negb (pv_open v =? 0) then (Err (pv_open v), None, storage)
  else
    let storage := if known then storage else storage ++ [cf_endpoint f] in
    if negb (pv_validate v =? 0) then (Err (pv_validate v), None, storage)
    else if is_kind f ControlMessage.PARAM_GET_REQUEST then
      (let? value := pv_get v in EncodeParameterValue little (en_descriptor e) value, Some (AccessGet e), storage)
    else match DecodeParameterValue little (en_descriptor e) (cf_payload f) with
         | Err code => (Err code, None, storage)
         | Ok value => ((if pv_set v value =? 0 then Ok [] else Err (pv_set v value)), Some (AccessSet e value), storage)
         end.
Definition reply_status (code : Z) (payload : list Z) (f : ControlFrame) : ControlFrame :=
  frame_payload (if code =? 0 then payload else []) f.
(** [Execute]: the reply, the access and the opened storages. *)
Definition ExecuteParameter (self : RemoteRuntimeIdentity) (session : Z) (local : list LocalEntry) (v : ParameterEnv) (j : Job) (storage : list RemoteEndpointIdentity) :
    ControlFrame * option Access * list RemoteEndpointIdentity :=
  let f := jb_frame j in
  let op := if is_kind f ControlMessage.PARAM_GET_REQUEST then ControlMessage.PARAM_GET_RESPONSE else ControlMessage.PARAM_SET_RESPONSE in
  match parameter_gate local v j with
  | inl (code, reason) =>
      let r := reply_status code [] (reply_frame self session op code f) in
      (match reason with Some reason => frame_reason reason r | None => r end, None, storage)
  | inr e =>
      let '(answer, access, storage) := parameter_access v f e storage in
      let (code, payload) := match answer with Ok payload => (0, payload) | Err code => (code, []) end in
      (reply_status code payload (reply_frame self session op code f), access, storage)
  end.

(** ** Services and descriptors *)
Definition service_reply (self : RemoteRuntimeIdentity) (session : Z) (f : ControlFrame) (code reason : Z) (payload : list Z) : ControlFrame :=
  let r := frame_reason reason (reply_status code payload (reply_frame self session (ResponseOperation (cf_operation f)) code f)) in
  if IsActionMessage (cf_operation r) then frame_state (if code =? 0 then WireActionState.ACCEPTED else WireActionState.IDLE) r else r.
(** [sv_now]: the clock after the checks; [sv_call]: [Call] with the input and the timeout. *)
Record ServiceEnv := {
  sv_now : Z; sv_peers : list PeerInfo; sv_validate : Z; sv_open : Z; sv_call : DynamicPayload -> Z -> result DynamicPayload
}.
Definition service_gate (running : bool) (local : list LocalEntry) (v : ServiceEnv) (f : ControlFrame) : refusal + LocalEntry :=
  match current_peer (sv_peers v) f with
  | None => inl (- ENOTCONN, None)
  | Some p =>
      if negb running || negb (Allowed config p || ServiceClientRequest config p f) then inl (- ENOTCONN, None)
      else match find_entry local (cf_endpoint f) with
      | None => inl (- ESTALE, None)
      | Some e =>
          let gate := CheckKindCompatibility EndpointKind.SERVICE local_profile
                        (widen (pi_profile p) (ServiceClientRequest config p f) Capability.REMOTE_SERVICE) (en_metadata e)
                        (ControlConsumer (cf_source f) (cf_name f) (cf_type f) (cf_response_type f) no_type) policy (cf_target f) in
          if negb (Compatible gate) then inl (ReasonError (cr_reason gate), Some (cr_reason gate)) else inr e
      end
  end.
(** The call: no call, or its answer. *)
Definition service_call (v : ServiceEnv) (j : Job) (e : LocalEntry) : result (list Z) * option Access :=
  match DecodeParameterValue little (en_descriptor e) (cf_payload (jb_frame j)) with
  | Err code => (Err code, None)
  | Ok input =>
      let remaining := whole_ms (jb_deadline j - sv_now v) in
      if negb (sv_validate v =? 0) then (Err (sv_validate v), None)
      else if remaining <=? 0 then (Err (- ETIMEDOUT), None)
      else if negb (sv_open v =? 0) then (Err (sv_open v), None)
      else (let? output := sv_call v input remaining in EncodeParameterValue little (en_response_descriptor e) output, Some (AccessCall e input remaining))
  end.
Definition ExecuteService (self : RemoteRuntimeIdentity) (session : Z) (running : bool) (local : list LocalEntry) (v : ServiceEnv) (j : Job) : ControlFrame * option Access :=
  match service_gate running local v (jb_frame j) with
  | inl (code, reason) => (service_reply self session (jb_frame j) code (default CompatibilityReason.COMPATIBLE reason) [], None)
  | inr e =>
      let (answer, access) := service_call v j e in
      (match answer with
       | Ok payload => service_reply self session (jb_frame j) 0 CompatibilityReason.COMPATIBLE payload
       | Err code => service_reply self session (jb_frame j) code CompatibilityReason.COMPATIBLE []
       end, access)
  end.
(** [de_validate], [de_validate2]: the two validations of the endpoint; [de_type]: [GetType]. *)
Record DescriptorEnv := {
  de_now : Z; de_peers : list PeerInfo; de_validate : Z; de_type : result TypeDescriptor; de_validate2 : Z; de_now2 : Z
}.
Definition descriptor_answer (local : list LocalEntry) (v : DescriptorEnv) (j : Job) : result (list Z) :=
  let f := jb_frame j in
  if jb_deadline j <=? de_now v then Err (- ETIMEDOUT)
  else match current_peer (de_peers v) f with
  | None => Err (- ESTALE)
  | Some p =>
      if negb (DescriptorClientAllowed config p) then Err (- EACCES)
      else match find_entry local (cf_endpoint f) with
      | None => Err (- ENOENT)
      | Some e =>
          let m := en_metadata e in
          if negb (md_name m =?? cf_name f) then Err (- ENOENT)
          else if negb (md_scope m =? NetworkScope.REMOTE) then Err (- EACCES)
          else if negb (listed (pi_host p) (nc_descriptor_query_clients config)) &&
                  negb (nc_topic_observer_enabled config && (cf_target f =? TargetScope.ENDPOINT) && (md_kind m =? EndpointKind.TOPIC) &&
                        (md_role m =? EndpointRole.PROVIDER) && (cf_descriptor_role f =? DescriptorRole.VALUE)) then Err (- EACCES)
          else
            let? type := DescriptorType m (cf_descriptor_role f) in
            check (type =?? cf_type f) (- EPROTOTYPE) (
            check (de_validate v =? 0) (de_validate v) (
            let? d := de_type v in
            let? actual := ParameterWireType d in
            check (actual =?? type) (- EPROTOTYPE) (
            let? bytes := EncodeTypeDescriptor d in
            check (de_validate2 v =? 0) (de_validate2 v) (Ok bytes))))
      end
  end.
Definition ExecuteDescriptor (self : RemoteRuntimeIdentity) (session : Z) (local : list LocalEntry) (v : DescriptorEnv) (j : Job) : ControlFrame :=
  let answer := if jb_deadline j <=? de_now2 v then Err (- ETIMEDOUT) else descriptor_answer local v j in
  match answer with
  | Ok bytes => service_reply self session (jb_frame j) 0 CompatibilityReason.COMPATIBLE bytes
  | Err code => service_reply self session (jb_frame j) code CompatibilityReason.COMPATIBLE []
  end.

(** ** Goals *)
Definition action_blank (state : Z) (f : ControlFrame) : ControlFrame :=
  {| cf_operation := cf_operation f; cf_source := cf_source f; cf_session_id := cf_session_id f; cf_request_id :=
     cf_request_id f; cf_endpoint := cf_endpoint f; cf_target := cf_target f; cf_name := cf_name f; cf_type := cf_type
     f; cf_response_type := cf_response_type f; cf_feedback_type := cf_feedback_type f; cf_goal := cf_goal f;
     cf_action_state := state; cf_outcome_unknown := cf_outcome_unknown f; cf_feedback_sequence := 0; cf_timeout_ms :=
     cf_timeout_ms f; cf_status := cf_status f; cf_reason := cf_reason f; cf_payload := []; cf_descriptor_role :=
     cf_descriptor_role f |}.
Definition action_response (self : RemoteRuntimeIdentity) (session : Z) (f : ControlFrame) (op status : Z) : ControlFrame :=
  action_blank (if status =? 0 then WireActionState.ACCEPTED else WireActionState.IDLE) (reply_frame self session op status f).
Definition action_event (state sequence status : Z) (payload : list Z) (f : ControlFrame) : ControlFrame :=
  {| cf_operation := cf_operation f; cf_source := cf_source f; cf_session_id := cf_session_id f; cf_request_id := 0;
     cf_endpoint := cf_endpoint f; cf_target := cf_target f; cf_name := cf_name f; cf_type := cf_type f;
     cf_response_type := cf_response_type f; cf_feedback_type := cf_feedback_type f; cf_goal := cf_goal f;
     cf_action_state := state; cf_outcome_unknown := cf_outcome_unknown f; cf_feedback_sequence := sequence;
     cf_timeout_ms := cf_timeout_ms f; cf_status := status; cf_reason := cf_reason f; cf_payload := payload;
     cf_descriptor_role := cf_descriptor_role f |}.
(** [ag_validate]: [ValidateLocalActionEndpoint]; [live]: [Live] of the connection. *)
Record ActionGateEnv := { ag_now : Z; ag_peers : list PeerInfo; ag_validate : Z }.
Definition ActionGate (live : bool) (local : list LocalEntry) (v : ActionGateEnv) (j : Job) : refusal + LocalEntry :=
  let f := jb_frame j in
  match current_peer (ag_peers v) f with
  | None => inl (- ENOTCONN, None)
  | Some p =>
      if negb live || negb (Allowed config p || ActionClientRequest config p f) then inl (- ENOTCONN, None)
      else match find_entry local (cf_endpoint f) with
      | None => inl (- ESTALE, None)
      | Some e =>
          let gate := CheckKindCompatibility EndpointKind.ACTION local_profile
                        (widen (pi_profile p) (ActionClientRequest config p f) Capability.REMOTE_ACTION) (en_metadata e)
                        (ControlConsumer (cf_source f) (cf_name f) (cf_type f) (cf_response_type f) (cf_feedback_type f)) policy (cf_target f) in
          if negb (Compatible gate) then inl (ReasonError (cr_reason gate), Some (cr_reason gate))
          else if jb_deadline j <=? ag_now v then inl (- ETIMEDOUT, None)
          else if negb (ag_validate v =? 0) then inl (ag_validate v, None) else inr e
      end
  end.
(** [gv_live]: [Live] before the goal is sent; [gv_send]: [SendGoal], its code, the local goal and whether the outcome is unknown. *)
Record GoalEnv := {
  gv_gate : ActionGateEnv; gv_now : Z; gv_open : Z; gv_validate : Z; gv_live : bool; gv_send : DynamicPayload -> Z * Z * bool
}.
(** The first part of [ExecuteAction]: the reply, the local goal when it was accepted, the access. *)
Definition begin_goal (live : bool) (local : list LocalEntry) (v : GoalEnv) (j : Job) : refusal + (LocalEntry * DynamicPayload) :=
  match ActionGate live local (gv_gate v) j with
  | inl r => inl r
  | inr e =>
      match DecodeParameterValue little (en_descriptor e) (cf_payload (jb_frame j)) with
      | Err code => inl (code, None)
      | Ok goal =>
          if whole_ms (jb_deadline j - gv_now v) <=? 0 then inl (- ETIMEDOUT, None)
          else if negb (gv_open v =? 0) then inl (gv_open v, None)
          else if negb (gv_validate v =? 0) then inl (gv_validate v, None)
          else if negb (gv_live v) then inl (- ENOTCONN, None) else inr (e, goal)
      end
  end.
Definition ExecuteGoal (self : RemoteRuntimeIdentity) (session : Z) (live : bool) (local : list LocalEntry) (v : GoalEnv) (j : Job) : ControlFrame * option (LocalEntry * Z) * option Access :=
  let f := jb_frame j in
  let response := fun code reason unknown =>
    frame_unknown unknown (frame_reason reason (action_response self session f ControlMessage.ACTION_GOAL_RESPONSE code)) in
  match begin_goal live local v j with
  | inl (code, reason) => (response code (default CompatibilityReason.COMPATIBLE reason) false, None, None)
  | inr (e, goal) =>
      let '(code, local, unknown) := gv_send v goal in
      (response code CompatibilityReason.COMPATIBLE unknown, if code =? 0 then Some (e, local) else None, Some (AccessGoal e goal))
  end.
(** One turn of the loop of [ExecuteAction]: the frames that are sent, whether the loop ends,
    the last feedback and the time of the next result query. *)
Record FeedbackHeader := { fh_goal_id : Z; fh_feedback_sequence : Z; fh_state : Z }.
Record TurnEnv := {
  tv_validate : Z; tv_feedback : result (FeedbackHeader * DynamicPayload); tv_now : Z; tv_result : result (Z * DynamicPayload); tv_now2 : Z
}.
Record GoalTrack := { gt_local : Z; gt_sequence : Z; gt_next_result : Z }.
Definition feedback_part (self : RemoteRuntimeIdentity) (session : Z) (v : TurnEnv) (j : Job) (e : LocalEntry) (g : GoalTrack) : Z * list ControlFrame * GoalTrack :=
  match tv_feedback v with
  | Err code => (if code =? - EAGAIN then 0 else code, [], g)
  | Ok (h, value) =>
      if (fh_goal_id h =? gt_local g) && (gt_sequence g <? fh_feedback_sequence h) && (fh_state h =? WireActionState.RUNNING) then
        match EncodeParameterValue little (en_feedback_descriptor e) value with
        | Err code => (if code =? - EAGAIN then 0 else code, [], g)
        | Ok bytes => (0, [action_event WireActionState.RUNNING (fh_feedback_sequence h) 0 bytes (action_response self session (jb_frame j) ControlMessage.ACTION_FEEDBACK 0)],
                       {| gt_local := gt_local g; gt_sequence := fh_feedback_sequence h; gt_next_result := gt_next_result g |})
        end
      else (0, [], g)
  end.
Definition result_event (self : RemoteRuntimeIdentity) (session : Z) (j : Job) (e : LocalEntry) (state : Z) (value : DynamicPayload) : ControlFrame :=
  let r := action_response self session (jb_frame j) ControlMessage.ACTION_RESULT 0 in
  match EncodeParameterValue little (en_response_descriptor e) value with
  | Ok bytes => action_event state 0 0 bytes r
  | Err code => action_event state 0 code [] r
  end.
Definition failed_event (self : RemoteRuntimeIdentity) (session : Z) (j : Job) (code : Z) : ControlFrame :=
  action_event WireActionState.FAILED 0 code [] (action_response self session (jb_frame j) ControlMessage.ACTION_RESULT code).
Definition follow_turn (self : RemoteRuntimeIdentity) (session : Z) (v : TurnEnv) (j : Job) (e : LocalEntry) (g : GoalTrack) : list ControlFrame * bool * GoalTrack :=
  if negb (tv_validate v =? 0) then ([failed_event self session j (tv_validate v)], true, g)
  else
    let '(code, frames, g) := feedback_part self session v j e g in
    if negb (code =? 0) then (frames ++ [failed_event self session j code], true, g)
    else if tv_now v <? gt_next_result g then (frames, false, g)
    else
      let g := {| gt_local := gt_local g; gt_sequence := gt_sequence g; gt_next_result := tv_now2 v + 50 * millisecond |} in
      match tv_result v with
      | Ok (state, value) => (frames ++ [result_event self session j e state value], true, g)
      | Err code => if code =? - EINPROGRESS then (frames, false, g) else (frames ++ [failed_event self session j code], true, g)
      end.
End Execution.

(** ** The threads *)
(** Where the worker of a goal is: before [SendGoal], in the loop, behind it. *)
Inductive GoalStage := Sending | Following | Over.
(** [Incoming]: a goal that a worker executes; [ic_entry]: the endpoint and the progress once
    the goal was accepted. *)
Record IncomingGoal := {
  ic_id : nat;
  ic_job : Job;
  ic_stage : GoalStage;
  ic_entry : option (LocalEntry * GoalTrack);
  ic_done : bool
}.
Definition ic_follow (stage : GoalStage) (e : LocalEntry) (g : GoalTrack) (x : IncomingGoal) : IncomingGoal :=
  {| ic_id := ic_id x; ic_job := ic_job x; ic_stage := stage; ic_entry := Some (e, g); ic_done := ic_done x |}.
Definition ic_refused (x : IncomingGoal) : IncomingGoal :=
  {| ic_id := ic_id x; ic_job := ic_job x; ic_stage := Over; ic_entry := ic_entry x; ic_done := ic_done x |}.
Definition ic_finish (x : IncomingGoal) : IncomingGoal :=
  {| ic_id := ic_id x; ic_job := ic_job x; ic_stage := ic_stage x; ic_entry := ic_entry x; ic_done := true |}.
(** [bk_services]: the job of each service task that is not done; [bk_actions]: the goal of each
    action task that is not done; [bk_accesses]: the accesses that were made, each with the job
    it was made for; [bk_error]: [error], as the [Backend] thread sets it. *)
Record Backend := {
  bk_node : Node;
  bk_local : list LocalEntry;
  bk_storage : list RemoteEndpointIdentity;
  bk_services : list (option Job);
  bk_actions : list (option nat);
  bk_incoming : list IncomingGoal;
  bk_next : nat;
  bk_accesses : list (Job * Access);
  bk_error : Z
}.
Definition bk_set_node (s : Node) (b : Backend) : Backend :=
  {| bk_node := s; bk_local := bk_local b; bk_storage := bk_storage b; bk_services := bk_services b; bk_actions :=
     bk_actions b; bk_incoming := bk_incoming b; bk_next := bk_next b; bk_accesses := bk_accesses b; bk_error :=
     bk_error b |}.
Definition bk_refresh (local : list LocalEntry) (storage : list RemoteEndpointIdentity) (error : Z) (b : Backend) : Backend :=
  {| bk_node := bk_node b; bk_local := local; bk_storage := storage; bk_services := bk_services b; bk_actions :=
     bk_actions b; bk_incoming := bk_incoming b; bk_next := bk_next b; bk_accesses := bk_accesses b; bk_error := error |}.
Definition bk_set_storage (l : list RemoteEndpointIdentity) (b : Backend) : Backend :=
  {| bk_node := bk_node b; bk_local := bk_local b; bk_storage := l; bk_services := bk_services b; bk_actions :=
     bk_actions b; bk_incoming := bk_incoming b; bk_next := bk_next b; bk_accesses := bk_accesses b; bk_error :=
     bk_error b |}.
Definition bk_set_services (l : list (option Job)) (b : Backend) : Backend :=
  {| bk_node := bk_node b; bk_local := bk_local b; bk_storage := bk_storage b; bk_services := l; bk_actions :=
     bk_actions b; bk_incoming := bk_incoming b; bk_next := bk_next b; bk_accesses := bk_accesses b; bk_error :=
     bk_error b |}.
Definition bk_set_actions (l : list (option nat)) (b : Backend) : Backend :=
  {| bk_node := bk_node b; bk_local := bk_local b; bk_storage := bk_storage b; bk_services := bk_services b;
     bk_actions := l; bk_incoming := bk_incoming b; bk_next := bk_next b; bk_accesses := bk_accesses b; bk_error :=
     bk_error b |}.
Definition bk_set_incoming (l : list IncomingGoal) (b : Backend) : Backend :=
  {| bk_node := bk_node b; bk_local := bk_local b; bk_storage := bk_storage b; bk_services := bk_services b;
     bk_actions := bk_actions b; bk_incoming := l; bk_next := bk_next b; bk_accesses := bk_accesses b; bk_error :=
     bk_error b |}.
Definition bk_draw (b : Backend) : Backend :=
  {| bk_node := bk_node b; bk_local := bk_local b; bk_storage := bk_storage b; bk_services := bk_services b;
     bk_actions := bk_actions b; bk_incoming := bk_incoming b; bk_next := S (bk_next b); bk_accesses := bk_accesses b;
     bk_error := bk_error b |}.
Definition bk_access (j : Job) (a : option Access) (b : Backend) : Backend :=
  {| bk_node := bk_node b; bk_local := bk_local b; bk_storage := bk_storage b; bk_services := bk_services b;
     bk_actions := bk_actions b; bk_incoming := bk_incoming b; bk_next := bk_next b; bk_accesses := match a with Some
     a => bk_accesses b ++ [(j, a)] | None => bk_accesses b end; bk_error := bk_error b |}.
Definition started_backend (s : Node) : Backend :=
  {| bk_node := s; bk_local := []; bk_storage := []; bk_services := repeat None 32; bk_actions := repeat None 32; bk_incoming := []; bk_next := 0; bk_accesses := []; bk_error := 0 |}.

Section Threads.
Context (config : NodeConfig) (little : bool).
Definition bk_event (e : NodeEvent) (b : Backend) : Backend := bk_set_node (node_step config e (bk_node b)) b.
Definition bk_reply (connection : Z) (f : ControlFrame) (b : Backend) : Backend := bk_event (NeReply {| rp_connection := connection; rp_frame := f |}) b.
Definition bk_action_reply (connection : Z) (f : ControlFrame) (b : Backend) : Backend := bk_event (NeActionReply connection f) b.
Abbreviation self b := (nd_self (bk_node b)).
Abbreviation session b := (nd_session (bk_node b)).
(** [ServiceReply] *)
Definition bk_service_reply (j : Job) (code : Z) (b : Backend) : Backend :=
  bk_reply (jb_connection j) (service_reply (self b) (session b) (jb_frame j) code CompatibilityReason.COMPATIBLE []) b.
Definition first_free {A} (l : list (option A)) : option nat := fst <$> list_find (fun x => x = None) l.
(** [spawned]: whether the thread could be created. *)
Definition LaunchService (j : Job) (spawned : bool) (b : Backend) : Backend :=
  match first_free (bk_services b) with
  | Some k => if spawned then bk_set_services (<[k := Some j]> (bk_services b)) b else bk_service_reply j (- EAGAIN) b
  | None => bk_service_reply j (- EAGAIN) b
  end.
Definition refuse_goal (j : Job) (b : Backend) : Backend :=
  bk_action_reply (jb_connection j) (action_response (self b) (session b) (jb_frame j) ControlMessage.ACTION_GOAL_RESPONSE (- EAGAIN)) b.
Definition LaunchAction (j : Job) (spawned : bool) (b : Backend) : Backend :=
  let b := bk_set_incoming (filter (fun x => ic_done x = false) (bk_incoming b)) b in
  if existsb (fun x => cf_goal (jb_frame (ic_job x)) =?? cf_goal (jb_frame j)) (bk_incoming b) then bk_event (NeAbort (jb_connection j)) b
  else match first_free (bk_actions b) with
  | None => refuse_goal j b
  | Some k =>
      let x := {| ic_id := bk_next b; ic_job := j; ic_stage := Sending; ic_entry := None; ic_done := false |} in
      let b := bk_draw b in
      if spawned then bk_set_actions (<[k := Some (ic_id x)]> (bk_actions b)) (bk_set_incoming (bk_incoming b ++ [x]) b)
      else refuse_goal j (bk_set_incoming (bk_incoming b ++ [ic_finish x]) b)
  end.
(** [cv_cancel]: [Cancel] of the local goal, its code and whether the outcome is unknown. *)
Record CancelEnv := { cv_gate : ActionGateEnv; cv_now : Z; cv_cancel : Z -> Z * bool }.
Definition cancel_target (j : Job) (x : IncomingGoal) : bool :=
  (jb_connection (ic_job x) =? jb_connection j) && (cf_goal (jb_frame (ic_job x)) =?? cf_goal (jb_frame j)) &&
  (cf_endpoint (jb_frame (ic_job x)) =?? cf_endpoint (jb_frame j)) && match ic_entry x with Some _ => true | None => false end && negb (ic_done x).
(** [ExecuteCancel]: the frame and the access. *)
Definition ExecuteCancel (v : CancelEnv) (j : Job) (b : Backend) : ControlFrame * option Access :=
  let response := fun code reason unknown =>
    frame_unknown unknown (frame_reason reason (action_response (self b) (session b) (jb_frame j) ControlMessage.ACTION_CANCEL_RESPONSE code)) in
  match ActionGate config (Live (jb_connection j) (bk_node b)) (bk_local b) (cv_gate v) j with
  | inl (code, reason) => (response code (default CompatibilityReason.COMPATIBLE reason) false, None)
  | inr _ =>
      match List.find (cancel_target j) (bk_incoming b) with
      | None => (response (- ENOENT) CompatibilityReason.COMPATIBLE false, None)
      | Some x =>
          let local := match ic_entry x with Some (_, g) => gt_local g | None => 0 end in
          if jb_deadline j <=? cv_now v then (response (- ETIMEDOUT) CompatibilityReason.COMPATIBLE false, None)
          else let (code, unknown) := cv_cancel v local in (response code CompatibilityReason.COMPATIBLE unknown, Some (AccessCancel local))
      end
  end.
(** The next job of the queue. *)
Definition DispatchJob (p : ParameterEnv) (d : DescriptorEnv) (spawned : bool) (b : Backend) : Backend :=
  match take_job (bk_node b) with
  | None => b
  | Some (j, _) =>
      let b := bk_event NeTake b in
      let f := jb_frame j in
      if is_kind f ControlMessage.ACTION_GOAL_REQUEST then LaunchAction j spawned b
      else if is_kind f ControlMessage.SERVICE_REQUEST || is_kind f ControlMessage.ACTION_CANCEL_REQUEST then LaunchService j spawned b
      else if is_kind f ControlMessage.DESCRIPTOR_REQUEST then bk_reply (jb_connection j) (ExecuteDescriptor config (self b) (session b) (bk_local b) d j) b
      else
        let '(r, access, storage) := ExecuteParameter config little (self b) (session b) (bk_local b) p j (bk_storage b) in
        bk_reply (jb_connection j) r (bk_access j access (bk_set_storage storage b))
  end.
(** The metadata of the host, collected anew; storages of endpoints that are gone are closed.
    [update]: the code of [UpdateMetadata], which hands the list to the discovery. *)
Definition RefreshLocal (collected : result (list LocalEntry)) (update : Z) (b : Backend) : Backend :=
  let local := match collected with Ok l => l | Err _ => [] end in
  let error := match collected with Ok _ => bk_error b | Err code => code end in
  let error := if negb (update =? 0) && nd_running (bk_node b) then update else error in
  bk_refresh local (filter (fun s => existsb (fun e => md_identity (en_metadata e) =?? s) local = true) (bk_storage b)) error b.
(** The worker of service task [k]; [None]: it threw. *)
Definition service_worker (k : nat) (v : option (ServiceEnv * CancelEnv)) (b : Backend) : Backend :=
  match bk_services b !! k with
  | Some (Some j) =>
      let cancel := is_kind (jb_frame j) ControlMessage.ACTION_CANCEL_REQUEST in
      let b := bk_set_services (<[k := None]> (bk_services b)) b in
      match v with
      | None => if cancel then if bool_decide (jb_connection j ∈ nd_live (bk_node b)) then bk_event (NeAbort (jb_connection j)) b else b
                else bk_service_reply j (- EIO) b
      | Some (sv, cv) =>
          if cancel then let (r, access) := ExecuteCancel cv j b in bk_action_reply (jb_connection j) r (bk_access j access b)
          else let (r, access) := ExecuteService config little (self b) (session b) (nd_running (bk_node b)) (bk_local b) sv j in bk_reply (jb_connection j) r (bk_access j access b)
      end
  | _ => b
  end.
Definition update_incoming (id : nat) (g : IncomingGoal -> IncomingGoal) (b : Backend) : Backend :=
  bk_set_incoming (map (fun x => if (ic_id x =? id)%nat then g x else x) (bk_incoming b)) b.
Definition find_incoming (id : nat) (b : Backend) : option IncomingGoal := List.find (fun x => (ic_id x =? id)%nat) (bk_incoming b).
(** The worker of action task [k]: the goal is sent, its progress followed, the worker ends. *)
Definition goal_worker (k : nat) (v : GoalEnv) (b : Backend) : Backend :=
  match bk_actions b !! k with
  | Some (Some id) =>
      match find_incoming id b with
      | Some x =>
          match ic_stage x with
          | Sending =>
              let '(r, local, access) := ExecuteGoal config little (self b) (session b) (Live (jb_connection (ic_job x)) (bk_node b)) (bk_local b) v (ic_job x) in
              let g := match local with
                       | Some (e, goal) => ic_follow Following e {| gt_local := goal; gt_sequence := 0; gt_next_result := 0 |}
                       | None => ic_refused
                       end in
              bk_action_reply (jb_connection (ic_job x)) r (update_incoming id g (bk_access (ic_job x) access b))
          | _ => b
          end
      | None => b
      end
  | _ => b
  end.
Definition turn_worker (k : nat) (v : TurnEnv) (b : Backend) : Backend :=
  match bk_actions b !! k with
  | Some (Some id) =>
      match find_incoming id b with
      | Some x =>
          match ic_stage x, ic_entry x with
          | Following, Some (e, g) =>
              if Live (jb_connection (ic_job x)) (bk_node b) then
                let '(frames, over, g) := follow_turn little (self b) (session b) v (ic_job x) e g in
                foldl (fun b f => bk_action_reply (jb_connection (ic_job x)) f b) (update_incoming id (ic_follow (if over then Over else Following) e g) b) frames
              else update_incoming id (ic_follow Over e g) b
          | _, _ => b
          end
      | None => b
      end
  | _ => b
  end.
(** The end of the worker; [thrown]: it threw. *)
Definition end_goal (k : nat) (thrown : bool) (b : Backend) : Backend :=
  match bk_actions b !! k with
  | Some (Some id) =>
      match find_incoming id b with
      | Some x =>
          let over := match ic_stage x with Over => true | _ => false end in
          if thrown || over then
            let b := if thrown && bool_decide (jb_connection (ic_job x) ∈ nd_live (bk_node b)) then bk_event (NeAbort (jb_connection (ic_job x))) b else b in
            bk_set_actions (<[k := None]> (bk_actions b)) (bk_set_incoming (filter (fun x => ic_id x <> id) (bk_incoming b)) b)
          else b
      | None => b
      end
  | _ => b
  end.
(** Steps of the node that only these threads make. *)
Definition own_thread (e : NodeEvent) : bool :=
  match e with NeTake | NeReply _ | NeActionReply _ _ | NeAbort _ => true | _ => false end.
Inductive BackendEvent :=
| BeNode (e : NodeEvent)
| BeRefresh (collected : result (list LocalEntry)) (update : Z)
| BeDispatch (p : ParameterEnv) (d : DescriptorEnv) (spawned : bool)
| BeService (k : nat) (v : option (ServiceEnv * CancelEnv))
| BeGoal (k : nat) (v : GoalEnv)
| BeTurn (k : nat) (v : TurnEnv)
| BeEnd (k : nat) (thrown : bool).
Definition backend_step (b : Backend) (e : BackendEvent) : Backend :=
  match e with
  | BeNode e => if own_thread e then b else bk_event e b
  | BeRefresh collected update => RefreshLocal collected update b
  | BeDispatch p d spawned => DispatchJob p d spawned b
  | BeService k v => service_worker k v b
  | BeGoal k v => goal_worker k v b
  | BeTurn k v => turn_worker k v b
  | BeEnd k thrown => end_goal k thrown b
  end.
Definition backend_run (es : list BackendEvent) (b : Backend) : Backend := foldl backend_step b es.
End Threads.
