(* ===== verification/ControlBackendSafety.v ===== *)
(** * What the threads of a control node do to local endpoints

    Every access was authorized when it was made ([control_execution_authorized]); an accepted
    request leads to at most one access ([control_executed_once]); a goal is executed by one
    task at a time, within the number of tasks ([control_goals_exclusive]).  What the threads do
    to the node is a run of the node ([reach_run]), so that what [ControlNodeRequests] and
    [ControlNodeAdmission] show of every run of a node holds of a node with its threads. *)
From S2P Require Import Prelude Wire NetTypes NetWire Compatibility DiscoveryProtocol TypeDescriptor ParameterCodec LocalMetadata NetworkDiagnostics ControlFrame PeerDiscovery RemoteAction ControlNode ControlNodeCore ControlNodeRequests ControlNodeAdmission ControlBackend.


Section Placed.
Context (config : NodeConfig) (little : bool).
End Placed.
Section Accesses.
Context (config : NodeConfig) (little : bool).
End Accesses.

(** ** The threads and the node *)
(** What the threads do to the node is a run of the node. *)
Definition node_reach (config : NodeConfig) (s s' : Node) : Prop := exists es, s' = node_run config es s.
#[export] Instance node_reach_preorder config : PreOrder (node_reach config).
Proof.
  split; [by exists []|]. intros a b c [es ->] [es' ->]. exists (es ++ es'). unfold node_run. by rewrite foldl_app.
Qed.
Lemma reach_event config e b : node_reach config (bk_node b) (bk_node (bk_event config e b)).
Proof. by exists [e]. Qed.
#[export] Hint Resolve reach_event : kcf.
Section Threads.
Context (config : NodeConfig) (little : bool).
Abbreviation reach := (node_reach config).
Lemma reach_launch_service j spawned b : reach (bk_node b) (bk_node (LaunchService config j spawned b)).
Proof. unfold LaunchService, bk_service_reply, bk_reply. destruct (first_free _); [destruct spawned|]; auto with kcf; reflexivity. Qed.
Lemma reach_launch_action j spawned b : reach (bk_node b) (bk_node (LaunchAction config j spawned b)).
Proof.
  unfold LaunchAction, refuse_goal, bk_action_reply. cbn zeta. destruct (existsb _ _); [apply (reach_event config _ (bk_set_incoming _ b))|].
  destruct (first_free _); [destruct spawned|]; [reflexivity|..]; match goal with |- reach _ (bk_node (bk_event _ ?e ?x)) => apply (reach_event config e x) end.
Qed.
Lemma reach_dispatch p d spawned b : reach (bk_node b) (bk_node (DispatchJob config little p d spawned b)).
Proof.
  unfold DispatchJob, bk_reply. destruct (take_job _) as [[j rest]|]; [|reflexivity]. cbn zeta. trans (bk_node (bk_event config NeTake b)); [auto with kcf|].
  destruct (is_kind _ _); [apply reach_launch_action|]. destruct (_ || _); [apply reach_launch_service|]. destruct (is_kind _ _); [auto with kcf|].
  destruct (ExecuteParameter _ _ _ _ _ _ _ _) as [[r a] l]. match goal with |- reach _ (bk_node (bk_event _ ?e ?x)) => apply (reach_event config e x) end.
Qed.
Lemma reach_service k v b : reach (bk_node b) (bk_node (service_worker config little k v b)).
Proof.
  unfold service_worker, bk_service_reply, bk_action_reply, bk_reply. destruct (bk_services b !! k) as [[j|]|]; [|reflexivity..]. cbn zeta.
  destruct v as [[sv cv]|]; [destruct (is_kind _ _); [destruct (ExecuteCancel _ _ _ _)|destruct (ExecuteService _ _ _ _ _ _ _ _)]|destruct (is_kind _ _); [case_bool_decide|]];
    try reflexivity; match goal with |- reach _ (bk_node (bk_event _ ?e ?x)) => apply (reach_event config e x) end.
Qed.
Lemma reach_replies id frames : forall b, reach (bk_node b) (bk_node (foldl (fun b f => bk_action_reply config id f b) b frames)).
Proof. induction frames as [|f frames IH]; intros b; cbn [foldl]; [reflexivity|]. etrans; [|apply IH]. apply reach_event. Qed.
Lemma reach_step b e : reach (bk_node b) (bk_node (backend_step config little b e)).
Proof.
  destruct e as [e|c u|p d sp|k v|k v|k v|k t]; cbn [backend_step]; [destruct (own_thread e); [reflexivity|auto with kcf]|reflexivity|apply reach_dispatch|apply reach_service|..].
  - unfold goal_worker. destruct (bk_actions b !! k) as [[i|]|]; [|reflexivity..]. destruct (find_incoming i b) as [x|]; [|reflexivity]. destruct (ic_stage x); [|reflexivity..].
    destruct (ExecuteGoal _ _ _ _ _ _ _ _) as [[r l] a]. unfold bk_action_reply. match goal with |- reach _ (bk_node (bk_event _ ?e ?x)) => apply (reach_event config e x) end.
  - unfold turn_worker. destruct (bk_actions b !! k) as [[i|]|]; [|reflexivity..]. destruct (find_incoming i b) as [x|]; [|reflexivity]. destruct (ic_stage x); [reflexivity| |reflexivity].
    destruct (ic_entry x) as [[e g]|]; [|reflexivity]. destruct (Live _ _); [|reflexivity]. destruct (follow_turn _ _ _ _ _ _ _) as [[frames over] g'].
    match goal with |- reach _ (bk_node (foldl _ ?x _)) => apply (reach_replies _ frames x) end.
  - unfold end_goal. destruct (bk_actions b !! k) as [[i|]|]; [|reflexivity..]. destruct (find_incoming i b) as [x|]; [|reflexivity]. cbn zeta. destruct (t || _); [|reflexivity].
    destruct (t && _); [|reflexivity]. cbn. by exists [NeAbort (jb_connection (ic_job x))].
Qed.
Lemma reach_run es : forall b, reach (bk_node b) (bk_node (backend_run config little es b)).
Proof. induction es as [|e es IH]; intros b; [reflexivity|]. etrans; [apply reach_step|]. apply IH. Qed.
End Threads.

(** ** A request is executed once *)
Definition accepted_frames (log : list Admission) : list ControlFrame := ad_frame <$> filter (fun a => ad_accepted a = true) log.

#[export] Instance stage_eq_dec : EqDecision GoalStage.
Proof. solve_decision. Defined.
Abbreviation sending l := (filter (fun x => ic_stage x = Sending) l).
Definition executed (b : Backend) : list ControlFrame := (fun x => jb_frame (fst x)) <$> bk_accesses b.
(** Requests that a thread holds and has not executed. *)
Definition held (b : Backend) : list ControlFrame :=
  (jb_frame <$> omap id (bk_services b)) ++ ((fun x => jb_frame (ic_job x)) <$> sending (bk_incoming b)).
Definition queued (s : Node) : list ControlFrame := jb_frame <$> nd_jobs s.
(** All that was accepted and not dropped. *)
Definition owed (b : Backend) : list ControlFrame := executed b ++ held b ++ queued (bk_node b).
Lemma accepted_snoc log a : accepted_frames (log ++ [a]) = accepted_frames log ++ (if ad_accepted a then [ad_frame a] else []).
Proof. unfold accepted_frames. rewrite filter_app, fmap_app. f_equal. rewrite filter_cons, filter_nil. by destruct (ad_accepted a). Qed.
Lemma core_queued X k k' : core_move k k' -> X ++ (jb_frame <$> kn_jobs k) ⊆+ accepted_frames (kn_admitted k) -> X ++ (jb_frame <$> kn_jobs k') ⊆+ accepted_frames (kn_admitted k').
Proof.
  intros Hm H. destruct Hm as [k' Hm| | | | |]; try exact H. destruct Hm; try exact H; core_cbn.
  - rewrite accepted_snoc. cbn [ad_accepted admission]. by rewrite app_nil_r.
  - rewrite accepted_snoc, fmap_app, app_assoc. cbn [ad_accepted admission ad_frame]. by apply submseteq_skips_r.
  - etrans; [|exact H]. rewrite H0. cbn. apply submseteq_skips_l. by apply submseteq_cons.
Qed.
Lemma reach_queued config X s s' : node_reach config s s' -> X ++ queued s ⊆+ accepted_frames (nd_admitted s) -> X ++ queued s' ⊆+ accepted_frames (nd_admitted s').
Proof.
  intros [es ->]. pose proof (run_moves config es s) as Hm. unfold csim in Hm. change (nd_admitted s) with (kn_admitted (ncore [] s)).
  change (queued s) with (jb_frame <$> kn_jobs (ncore [] s)). change (nd_admitted (node_run config es s)) with (kn_admitted (ncore [] (node_run config es s))).
  change (queued (node_run config es s)) with (jb_frame <$> kn_jobs (ncore [] (node_run config es s))). induction Hm; eauto using core_queued.
Qed.
Lemma first_free_slot {A} (l : list (option A)) k : first_free l = Some k -> l !! k = Some None.
Proof. unfold first_free. destruct (list_find _ _) as [[i x]|] eqn:E; [|done]. cbn. intros H. injection H as <-. apply list_find_Some in E as (E & -> & _). done. Qed.
Lemma omap_insert_slot {A} (l : list (option A)) k (x : A) : l !! k = Some None -> omap id (<[k := Some x]> l) ≡ₚ x :: omap id l.
Proof.
  intros H. rewrite <- (take_drop_middle l k None H) at 2. rewrite insert_take_drop by (by eapply lookup_lt_Some). rewrite !omap_app. cbn. by rewrite <- Permutation_middle.
Qed.
Lemma omap_clear_slot {A} (l : list (option A)) k (x : A) : l !! k = Some (Some x) -> omap id l ≡ₚ x :: omap id (<[k := None]> l).
Proof.
  intros H. rewrite <- (take_drop_middle l k _ H) at 1. rewrite insert_take_drop by (by eapply lookup_lt_Some). rewrite !omap_app. cbn. by rewrite <- Permutation_middle.
Qed.
Lemma sending_kept i (g : IncomingGoal -> IncomingGoal) l : (forall y, ic_stage (g y) <> Sending) ->
  ((fun y => jb_frame (ic_job y)) <$> sending (map (fun y => if (ic_id y =? i)%nat then g y else y) l)) ⊆+ (fun y => jb_frame (ic_job y)) <$> sending l.
Proof.
  intros Hg. induction l as [|y l IH]; [done|]. cbn [map]. rewrite !filter_cons. destruct (ic_id y =? i)%nat.
  - rewrite decide_False by done. destruct (decide _); [apply submseteq_cons|]; done.
  - destruct (decide _); [cbn; by apply submseteq_skip|done].
Qed.
Lemma sending_update i (g : IncomingGoal -> IncomingGoal) l x : (forall y, ic_stage (g y) <> Sending) -> List.find (fun y => (ic_id y =? i)%nat) l = Some x -> ic_stage x = Sending ->
  jb_frame (ic_job x) :: ((fun y => jb_frame (ic_job y)) <$> sending (map (fun y => if (ic_id y =? i)%nat then g y else y) l)) ⊆+ (fun y => jb_frame (ic_job y)) <$> sending l.
Proof.
  intros Hg. induction l as [|y l IH]; [done|]. cbn [List.find map]. rewrite !filter_cons. destruct (ic_id y =? i)%nat eqn:E; intros Hf Hs.
  - injection Hf as ->. rewrite decide_False, decide_True by done. cbn. by apply submseteq_skip, sending_kept.
  - specialize (IH Hf Hs). destruct (decide _); [|done]. cbn. etrans; [|apply submseteq_skip, IH]. by rewrite Permutation_swap.
Qed.
Lemma sending_filter (P : IncomingGoal -> Prop) `{!forall x, Decision (P x)} l :
  ((fun y => jb_frame (ic_job y)) <$> sending (filter P l)) ⊆+ (fun y => jb_frame (ic_job y)) <$> sending l.
Proof.
  apply fmap_submseteq. induction l as [|y l IH]; [done|]. rewrite (filter_cons P), (filter_cons (fun x => ic_stage x = Sending) y l). destruct (decide (P y)).
  - rewrite filter_cons. destruct (decide (ic_stage y = Sending)); [by apply submseteq_skip|done].
  - destruct (decide (ic_stage y = Sending)); [by apply submseteq_cons|done].
Qed.
Section Once.
Context (config : NodeConfig) (little : bool).
Abbreviation once b := (owed b ⊆+ accepted_frames (nd_admitted (bk_node b))).
Lemma once_keep b b' : once b -> node_reach config (bk_node b) (bk_node b') -> executed b' ++ held b' ⊆+ executed b ++ held b -> once b'.
Proof.
  unfold owed. rewrite !app_assoc. intros H Hr Hs. apply (reach_queued config _ _ _ Hr). etrans; [|exact H]. by apply submseteq_app.
Qed.
Lemma held_service k j b b' : bk_services b !! k = Some None -> bk_services b' = <[k := Some j]> (bk_services b) -> bk_incoming b' = bk_incoming b -> held b' ≡ₚ jb_frame j :: held b.
Proof. intros H E E'. unfold held. by rewrite E, E', (omap_insert_slot _ _ _ H). Qed.
(** A launch adds the job to the held ones at most. *)
Lemma launch_service_held j spawned b : let b' := LaunchService config j spawned b in executed b' = executed b /\ held b' ⊆+ jb_frame j :: held b.
Proof.
  cbn zeta. unfold LaunchService. destruct (first_free _) as [k|] eqn:Hk; [destruct spawned|]; (split; [done|]); [|by apply submseteq_cons..].
  apply first_free_slot in Hk. by rewrite (held_service k j b (bk_set_services (<[k := Some j]> (bk_services b)) b) Hk).
Qed.
Lemma launch_action_held j spawned b : let b' := LaunchAction config j spawned b in executed b' = executed b /\ held b' ⊆+ jb_frame j :: held b.
Proof.
  cbn zeta. unfold LaunchAction. cbn zeta. set (l := filter (fun x => ic_done x = false) (bk_incoming b)).
  assert (Hl : held (bk_set_incoming l b) ⊆+ held b) by (unfold held; apply submseteq_skips_l, sending_filter).
  destruct (existsb _ _); [split; [done|]; by apply submseteq_cons_r; left|]. destruct (first_free _); [destruct spawned|]; (split; [done|]); [..|by apply submseteq_cons_r; left].
  - etrans; [|apply submseteq_skip, Hl]. unfold held. cbn. rewrite filter_app, fmap_app, filter_cons, filter_nil. cbn. rewrite app_assoc. by rewrite Permutation_app_comm.
  - etrans; [|apply submseteq_skip, Hl]. unfold held. cbn. rewrite filter_app, fmap_app, filter_cons, filter_nil. cbn. rewrite app_assoc. by rewrite Permutation_app_comm.
Qed.
Lemma access_executed j a b : executed (bk_access j a b) ⊆+ executed b ++ [jb_frame j].
Proof. unfold executed, bk_access. cbn. destruct a; [by rewrite fmap_app|by apply submseteq_inserts_r]. Qed.
Lemma once_dispatch p d spawned b : once b -> once (DispatchJob config little p d spawned b).
Proof.
  intros H. unfold DispatchJob. destruct (take_job (bk_node b)) as [[j rest]|] eqn:Hj; [|done]. cbn zeta. set (b1 := bk_event config NeTake b).
  assert (Hq : queued (bk_node b) = jb_frame j :: queued (bk_node b1)).
  { unfold b1, bk_event. cbn. rewrite Hj. unfold take_job in Hj. destruct (nd_jobs (bk_node b)) as [|x l] eqn:E; [done|]. injection Hj as -> <-. unfold queued. by rewrite E. }
  assert (Ha : nd_admitted (bk_node b1) = nd_admitted (bk_node b)).
  { unfold b1, bk_event. cbn. rewrite Hj. unfold take_job in Hj. destruct (nd_jobs (bk_node b)); [done|]. injection Hj as -> <-. done. }
  assert (K : forall b', node_reach config (bk_node b1) (bk_node b') -> executed b' ++ held b' ⊆+ jb_frame j :: executed b1 ++ held b1 -> once b').
  { intros b' Hr Hs. unfold owed. rewrite app_assoc. apply (reach_queued config _ _ _ Hr). rewrite Ha. etrans; [|exact H]. unfold owed. rewrite Hq, !app_assoc, <- Permutation_middle.
    change (jb_frame j :: (executed b ++ held b) ++ queued (bk_node b1)) with ((jb_frame j :: executed b1 ++ held b1) ++ queued (bk_node b1)). by apply submseteq_app. }
  destruct (is_kind _ _).
  { destruct (launch_action_held j spawned b1) as [E Hh]. apply K; [apply reach_launch_action|]. rewrite E, Permutation_middle. by apply submseteq_skips_l. }
  destruct (_ || _).
  { destruct (launch_service_held j spawned b1) as [E Hh]. apply K; [apply reach_launch_service|]. rewrite E, Permutation_middle. by apply submseteq_skips_l. }
  destruct (is_kind _ _); [apply K; [apply reach_event|by apply submseteq_cons]|].
  destruct (ExecuteParameter _ _ _ _ _ _ _ _) as [[r a] l]. apply K; [by apply (reach_event config _ (bk_access j a (bk_set_storage l b1)))|].
  change (executed (bk_reply config (jb_connection j) r (bk_access j a (bk_set_storage l b1)))) with (executed (bk_access j a (bk_set_storage l b1))).
  change (held (bk_reply config (jb_connection j) r (bk_access j a (bk_set_storage l b1)))) with (held b1).
  etrans; [apply submseteq_app; [apply access_executed|reflexivity]|]. change (executed (bk_set_storage l b1)) with (executed b1). by rewrite <- app_assoc, Permutation_middle.
Qed.
Lemma once_service k v b : once b -> once (service_worker config little k v b).
Proof.
  intros H. pose proof (reach_service config little k v b) as Hr. apply (once_keep b); [done..|]. clear H Hr. unfold service_worker. destruct (bk_services b !! k) as [[j|]|] eqn:Hk; [|done..]. cbn zeta.
  set (b1 := bk_set_services _ b). assert (Hh : held b ≡ₚ jb_frame j :: held b1) by (unfold held; by rewrite (omap_clear_slot _ _ _ Hk)). rewrite Hh.
  assert (Ha : forall a b', executed b' = executed (bk_access j a b1) -> held b' = held b1 -> executed b' ++ held b' ⊆+ executed b ++ jb_frame j :: held b1).
  { intros a b' -> ->. etrans; [apply submseteq_app; [apply access_executed|reflexivity]|]. by rewrite <- app_assoc. }
  destruct v as [[sv cv]|].
  - destruct (is_kind _ _); [destruct (ExecuteCancel _ _ _ _) as [r a]|destruct (ExecuteService _ _ _ _ _ _ _ _) as [r a]]; by apply (Ha a).
  - destruct (is_kind _ _); [case_bool_decide|]; by apply (Ha None).
Qed.
Lemma once_goal k v b : once b -> once (goal_worker config little k v b).
Proof.
  intros H. pose proof (reach_step config little b (BeGoal k v)) as Hr. cbn [backend_step] in Hr. apply (once_keep b); [done..|]. clear H Hr. unfold goal_worker.
  destruct (bk_actions b !! k) as [[i|]|]; [|done..]. destruct (find_incoming i b) as [x|] eqn:Hx; [|done]. destruct (ic_stage x) eqn:Hs; [|done..].
  destruct (ExecuteGoal _ _ _ _ _ _ _ _) as [[r l] a]. set (g := match l with Some _ => _ | None => _ end).
  change (executed (bk_action_reply config (jb_connection (ic_job x)) r (update_incoming i g (bk_access (ic_job x) a b)))) with (executed (bk_access (ic_job x) a b)).
  change (held (bk_action_reply config (jb_connection (ic_job x)) r (update_incoming i g (bk_access (ic_job x) a b)))) with (held (update_incoming i g b)).
  etrans; [apply submseteq_app; [apply access_executed|reflexivity]|]. rewrite <- app_assoc. apply submseteq_skips_l. unfold held. cbn [app]. rewrite Permutation_middle. apply submseteq_skips_l.
  apply sending_update; [|done|done]. intros y. unfold g. by destruct l as [[e goal]|].
Qed.
Lemma executed_replies id frames : forall b, let b' := foldl (fun b f => bk_action_reply config id f b) b frames in executed b' = executed b /\ held b' = held b.
Proof. induction frames as [|f frames IH]; intros b; [done|]. cbn [foldl]. cbn zeta in *. destruct (IH (bk_action_reply config id f b)) as [-> ->]. done. Qed.
Lemma update_held i g b : (forall y, ic_stage (g y) <> Sending) -> held (update_incoming i g b) ⊆+ held b.
Proof. intros Hg. unfold held, update_incoming. cbn. by apply submseteq_skips_l, sending_kept. Qed.
Lemma once_turn k v b : once b -> once (turn_worker config little k v b).
Proof.
  intros H. pose proof (reach_step config little b (BeTurn k v)) as Hr. cbn [backend_step] in Hr. apply (once_keep b); [done..|]. clear H Hr. unfold turn_worker.
  destruct (bk_actions b !! k) as [[i|]|]; [|done..]. destruct (find_incoming i b) as [x|]; [|done]. destruct (ic_stage x); [done| |done].
  destruct (ic_entry x) as [[e g]|]; [|done]. destruct (Live _ _); [destruct (follow_turn _ _ _ _ _ _ _) as [[frames over] g']|]; [|by apply submseteq_skips_l, update_held].
  match goal with |- context [executed (foldl (fun b f => bk_action_reply _ ?id f b) ?y ?fs)] => destruct (executed_replies id fs y) as [-> ->] end.
  apply submseteq_skips_l, update_held. intros y. by destruct over.
Qed.
Lemma once_end k t b : once b -> once (end_goal config k t b).
Proof.
  intros H. pose proof (reach_step config little b (BeEnd k t)) as Hr. cbn [backend_step] in Hr. apply (once_keep b); [done..|]. clear H Hr. unfold end_goal.
  destruct (bk_actions b !! k) as [[i|]|]; [|done..]. destruct (find_incoming i b) as [x|]; [|done]. cbn zeta. destruct (t || _); [|done].
  destruct (t && _); unfold held; cbn; apply submseteq_skips_l, submseteq_skips_l, sending_filter.
Qed.
Lemma once_step b e : once b -> once (backend_step config little b e).
Proof.
  destruct e as [e|c u|p d sp|k v|k v|k v|k t]; cbn [backend_step]; [|done|apply once_dispatch|apply once_service|apply once_goal|apply once_turn|apply once_end].
  intros H. destruct (own_thread e); [done|]. apply (once_keep b); [done|apply reach_event|done].
Qed.
Lemma once_run es : forall b, once b -> once (backend_run config little es b).
Proof. induction es as [|e es IH]; intros b H; [done|]. apply IH, once_step, H. Qed.
End Once.
(** C20: Every accepted request is executed at most once.  In every run of a node with its threads,
    the requests for which a local endpoint was accessed are, with their multiplicities, among
    the requests that the node accepted and that no thread holds any more; and of the accepted
    requests no two of one incarnation of a gateway or client have the same number, nor two
    goals the same goal number: a request that is repeated or replayed, on the same or another
    connection, causes no second access until the peer changes its session. *)
Theorem control_executed_once config little self session request goal connection now es :
  let b := backend_run config little es (started_backend (started_node self session request goal connection now)) in
  executed b ++ held b ++ queued (bk_node b) ⊆+ accepted_frames (nd_admitted (bk_node b)) /\ accepted_once (nd_admitted (bk_node b)).
Proof.
  cbn zeta. split; [by apply once_run|]. destruct (reach_run config little es (started_backend (started_node self session request goal connection now))) as [es' ->].
  apply accepted_once_run.
Qed.

(** ** Goals and tasks *)
Abbreviation goal_of x := (cf_goal (jb_frame (ic_job x))).
Abbreviation active l := (filter (fun x => ic_done x = false) l).
Record goals_ok (b : Backend) : Prop := {
  go_goals : NoDup ((fun x => goal_of x) <$> bk_incoming b);
  go_ids : NoDup (ic_id <$> bk_incoming b);
  go_fresh : Forall (fun x => (ic_id x < bk_next b)%nat) (bk_incoming b);
  go_tasks : omap id (bk_actions b) ≡ₚ ic_id <$> active (bk_incoming b);
  go_actions : length (bk_actions b) = 32%nat;
  go_services : length (bk_services b) = 32%nat
}.
Lemma goals_same b b' : bk_incoming b' = bk_incoming b -> bk_next b' = bk_next b -> bk_actions b' = bk_actions b -> length (bk_services b') = length (bk_services b) -> goals_ok b -> goals_ok b'.
Proof. intros E1 E2 E3 E4 []. split; rewrite ?E1, ?E2, ?E3, ?E4; done. Qed.
Lemma goals_filter (P : IncomingGoal -> Prop) `{!forall x, Decision (P x)} b actions : goals_ok b -> omap id actions ≡ₚ ic_id <$> active (filter P (bk_incoming b)) -> length actions = 32%nat ->
  goals_ok (bk_set_actions actions (bk_set_incoming (filter P (bk_incoming b)) b)).
Proof.
  intros [] Ha Hl. split; cbn; try done.
  - eapply sublist_NoDup; [done|apply fmap_sublist, sublist_filter].
  - eapply sublist_NoDup; [done|apply fmap_sublist, sublist_filter].
  - rewrite Forall_forall in *. intros x [_ Hx]%list_elem_of_filter. auto.
Qed.
Lemma map_same {A B} (h : A -> B) (g : A -> A) l : (forall x, h (g x) = h x) -> h <$> map g l = h <$> l.
Proof. intros H. induction l as [|x l IH]; [done|]. cbn. rewrite H. by f_equal. Qed.
Lemma goals_update i g b : (forall x, ic_id (g x) = ic_id x /\ ic_job (g x) = ic_job x /\ ic_done (g x) = ic_done x) -> goals_ok b -> goals_ok (update_incoming i g b).
Proof.
  intros Hg []. set (g' := fun x => if (ic_id x =? i)%nat then g x else x).
  assert (Hg' : forall x, ic_id (g' x) = ic_id x /\ ic_job (g' x) = ic_job x /\ ic_done (g' x) = ic_done x) by (intros x; unfold g'; destruct (_ =? _)%nat; [apply Hg|done]).
  split; cbn; fold g'; try done.
  - rewrite map_same; [done|]. intros x. by destruct (Hg' x) as (_ & -> & _).
  - rewrite map_same; [done|]. intros x. apply Hg'.
  - rewrite Forall_forall in *. intros x (y & -> & Hy)%list_elem_of_fmap. pose proof (proj1 (Hg' y)) as E. pose proof (go_fresh0 y Hy) as Hf. cbn beta in *. rewrite E. exact Hf.
  - rewrite go_tasks0. clear - Hg'. induction (bk_incoming b) as [|x l IH]; [done|]. cbn [map]. rewrite !filter_cons. destruct (Hg' x) as (E1 & _ & E3).
    rewrite (decide_ext (ic_done (g' x) = false) (ic_done x = false)) by (by rewrite E3). destruct (decide _); [rewrite !fmap_cons, E1, IH; done|done].
Qed.
Lemma without_task i (l : list IncomingGoal) ids : NoDup (ic_id <$> l) -> i :: ids ≡ₚ ic_id <$> l -> ids ≡ₚ ic_id <$> filter (fun x => ic_id x <> i) l.
Proof.
  intros Hn Hp. assert (Hd : NoDup (i :: ids)) by by rewrite Hp. apply NoDup_cons in Hd as [Hi Hd]. apply NoDup_Permutation; [done| |].
  - eapply sublist_NoDup; [exact Hn|apply fmap_sublist, sublist_filter].
  - intros k. rewrite list_elem_of_fmap. setoid_rewrite list_elem_of_filter. assert (Hk : k ∈ i :: ids <-> k ∈ ic_id <$> l) by by rewrite Hp.
    rewrite elem_of_cons, list_elem_of_fmap in Hk. split.
    + intros H. destruct (proj1 Hk (or_intror H)) as (y & -> & Hy). exists y. split_and!; auto. intros E. rewrite E in H. done.
    + intros (y & -> & Hne & Hy). destruct (proj2 Hk) as [E|?]; [by exists y| |done]. done.
Qed.
Section Goals.
Context (config : NodeConfig) (little : bool).
Lemma goals_launch j spawned b : goals_ok b -> goals_ok (LaunchAction config j spawned b).
Proof.
  intros H. unfold LaunchAction. cbn zeta. set (b1 := bk_set_incoming (active (bk_incoming b)) b).
  assert (H1 : goals_ok b1).
  { apply (goals_same (bk_set_actions (bk_actions b) b1)); try done. apply goals_filter; [done| |apply H]. rewrite list_filter_filter_l by auto. apply H. }
  destruct (existsb _ _) eqn:Hx; [by eapply goals_same, H1|]. destruct (first_free (bk_actions b1)) as [k|] eqn:Hk; [|by eapply goals_same, H1]. apply first_free_slot in Hk.
  set (x := {| ic_id := bk_next b1; ic_job := j; ic_stage := Sending; ic_entry := None; ic_done := false |}).
  assert (Hn : forall y, y ∈ bk_incoming b1 -> goal_of y <> cf_goal (jb_frame j) /\ ic_id y <> bk_next b1).
  { intros y Hy. split.
    - intros E. apply not_true_iff_false in Hx. apply Hx, existsb_exists. exists y. split; [by apply list_elem_of_In|]. by apply bool_decide_eq_true.
    - pose proof (go_fresh _ H1) as Hf. rewrite Forall_forall in Hf. specialize (Hf y Hy). lia. }
  assert (Hcore : forall z, ic_id z = bk_next b1 -> ic_job z = j ->
    NoDup ((fun x => goal_of x) <$> bk_incoming b1 ++ [z]) /\ NoDup (ic_id <$> bk_incoming b1 ++ [z]) /\ Forall (fun x => (ic_id x < S (bk_next b1))%nat) (bk_incoming b1 ++ [z])).
  { intros z Ei Ej. rewrite !fmap_app. cbn [fmap list_fmap]. rewrite Ei, Ej. split_and!.
    - apply NoDup_app. split_and!; [apply H1| |apply NoDup_singleton]. intros q (y & -> & Hy)%list_elem_of_fmap. rewrite list_elem_of_singleton. by apply Hn.
    - apply NoDup_app. split_and!; [apply H1| |apply NoDup_singleton]. intros q (y & -> & Hy)%list_elem_of_fmap. rewrite list_elem_of_singleton. by apply Hn.
    - apply Forall_app. split; [|constructor; [lia|done]]. eapply Forall_impl; [apply H1|]. intros y Hy. cbn beta in *. lia. }
  destruct spawned.
  - destruct (Hcore x eq_refl eq_refl) as (C1 & C2 & C3). split; cbn; auto; [|rewrite length_insert; apply H1|apply H1].
    rewrite (omap_insert_slot (bk_actions b) k _ Hk), filter_app, fmap_app. cbn. rewrite Permutation_app_comm. cbn. apply perm_skip. apply H1.
  - destruct (Hcore (ic_finish x) eq_refl eq_refl) as (C1 & C2 & C3). split; cbn; auto; [|apply H1..]. rewrite filter_app, filter_cons, filter_nil. cbn. rewrite app_nil_r. apply H1.
Qed.
Lemma goals_replies id frames : forall b, goals_ok b -> goals_ok (foldl (fun b f => bk_action_reply config id f b) b frames).
Proof. induction frames as [|f frames IH]; intros b H; [done|]. apply IH. by eapply goals_same, H. Qed.
Lemma goals_end k t b : goals_ok b -> goals_ok (end_goal config k t b).
Proof.
  intros H. unfold end_goal. destruct (bk_actions b !! k) as [[i|]|] eqn:Hk; [|done..]. destruct (find_incoming i b) as [x|] eqn:Hx; [|done]. cbn zeta. destruct (t || _); [|done].
  match goal with |- goals_ok (bk_set_actions _ (bk_set_incoming _ ?x)) => set (b1 := x) end. assert (Hb : bk_incoming b1 = bk_incoming b /\ bk_actions b1 = bk_actions b /\ goals_ok b1) by (unfold b1; destruct (t && _); split_and!; auto; by eapply goals_same, H).
  destruct Hb as (Ei & Ea & H1). apply goals_filter; [done| |rewrite length_insert; apply H1]. rewrite Ea, Ei.
  pose proof (go_tasks _ H) as Hp. rewrite (omap_clear_slot _ _ _ Hk) in Hp.
  rewrite list_filter_filter, (list_filter_iff _ (fun x => ic_id x <> i /\ ic_done x = false)), <- list_filter_filter by tauto. apply without_task; [|done].
  eapply sublist_NoDup; [apply (go_ids _ H)|apply fmap_sublist, sublist_filter].
Qed.
Lemma goals_step b e : goals_ok b -> goals_ok (backend_step config little b e).
Proof.
  intros H. destruct e as [e|c u|p d sp|k v|k v|k v|k t]; cbn [backend_step]; [destruct (own_thread e); [done|]; by eapply goals_same, H|by eapply goals_same, H|..].
  - unfold DispatchJob. destruct (take_job _) as [[j rest]|]; [|done]. cbn zeta. assert (H1 : goals_ok (bk_event config NeTake b)) by (by eapply goals_same, H).
    destruct (is_kind _ _); [by apply goals_launch|]. destruct (_ || _).
    + unfold LaunchService. destruct (first_free _) as [k|]; [destruct sp|]; (eapply goals_same; [..|exact H1]; try done). apply length_insert.
    + destruct (is_kind _ _); [by eapply goals_same, H1|]. destruct (ExecuteParameter _ _ _ _ _ _ _ _) as [[r a] l]. by eapply goals_same, H1.
  - unfold service_worker. destruct (bk_services b !! k) as [[j|]|]; [|done..]. cbn zeta.
    destruct v as [[sv cv]|]; [destruct (is_kind _ _); [destruct (ExecuteCancel _ _ _ _) as [r a]|destruct (ExecuteService _ _ _ _ _ _ _ _) as [r a]]|destruct (is_kind _ _); [case_bool_decide|]];
      (eapply goals_same; [..|exact H]; try done; apply length_insert).
  - unfold goal_worker. destruct (bk_actions b !! k) as [[i|]|]; [|done..]. destruct (find_incoming i b) as [x|]; [|done]. destruct (ic_stage x); [|done..].
    destruct (ExecuteGoal _ _ _ _ _ _ _ _) as [[r l] a]. set (g := match l with Some _ => _ | None => _ end).
    apply (goals_same (update_incoming i g b)); try done. apply goals_update; [|done]. intros y. unfold g. by destruct l as [[e goal]|].
  - unfold turn_worker. destruct (bk_actions b !! k) as [[i|]|]; [|done..]. destruct (find_incoming i b) as [x|]; [|done]. destruct (ic_stage x); [done| |done].
    destruct (ic_entry x) as [[e g]|]; [|done]. destruct (Live _ _); [destruct (follow_turn _ _ _ _ _ _ _) as [[frames over] g']; apply goals_replies|]; by apply goals_update.
  - by apply goals_end.
Qed.
Lemma goals_run es : forall b, goals_ok b -> goals_ok (backend_run config little es b).
Proof. induction es as [|e es IH]; intros b H; [done|]. apply IH, goals_step, H. Qed.
End Goals.
Lemma omap_length_le {A} (l : list (option A)) : (length (omap id l) <= length l)%nat.
Proof. induction l as [|[x|] l IH]; cbn; lia. Qed.
(** A goal is executed by one task at a time.  In every run the goals in progress have distinct
    goal numbers, the busy action tasks are one for one the goals that are not done, and there
    are never more than 32 of them, nor more than 32 services and cancels in execution. *)
Theorem control_goals_exclusive config little s es :
  let b := backend_run config little es (started_backend s) in
  NoDup ((fun x => goal_of x) <$> bk_incoming b) /\ NoDup (omap id (bk_actions b)) /\
  omap id (bk_actions b) ≡ₚ ic_id <$> active (bk_incoming b) /\ (length (active (bk_incoming b)) <= 32)%nat /\ (length (omap id (bk_services b)) <= 32)%nat.
Proof.
  cbn zeta. assert (H : goals_ok (started_backend s)) by (split; try constructor; done). apply (goals_run config little es) in H. set (b := backend_run _ _ _ _) in *.
  pose proof (omap_length_le (bk_actions b)) as Ha. pose proof (omap_length_le (bk_services b)) as Hs. rewrite (go_actions _ H) in Ha. rewrite (go_services _ H) in Hs.
  assert (Hn : NoDup (ic_id <$> active (bk_incoming b))) by (eapply sublist_NoDup; [apply (go_ids _ H)|apply fmap_sublist, sublist_filter]).
  pose proof (go_tasks _ H) as Ht. split_and!; [apply H|by rewrite Ht|done| |done]. rewrite Ht, length_fmap in Ha. done.
Qed.
