(* ===== verification/GatewayNetwork.v ===== *)
(** * The gateway's network: interface selection and generations

    [kcf/src/network/network_interface.cpp]: which interface of the host a gateway uses.
    [NetworkLifecycle] of [gateway/src/network_lifecycle.hpp]: a control node is started on the
    selected interface, stopped when the interface changes or the node fails, and started
    again; a started node is a generation.

    The hooks of the lifecycle are the environment of a step: what they answer, with the
    [stopping] hook asked at several places ([lh_stopping k] is its answer at place [k]).  What
    the step calls is logged in [nl_calls].  Times are milliseconds. *)
From S2P Require Import Prelude Wire NetTypes PeerDiscovery.

(** ** Interfaces *)
Record NetworkInterfaceInfo := {
  ni_name : list Z; ni_address : list Z; ni_index : Z; ni_up : bool; ni_running : bool; ni_multicast : bool; ni_loopback : bool; ni_point_to_point : bool
}.
Record NetworkInterfaceOptions := { no_interface_name : list Z; no_address : list Z; no_allow_loopback : bool }.
Record Selection := { sl_name : list Z; sl_address : list Z; sl_index : Z; sl_automatic : bool }.
#[export] Instance selection_eq_dec : EqDecision Selection.
Proof. solve_decision. Defined.
Definition IFNAMSIZ := 16.
Definition interface_name (name : list Z) : bool :=
  negb (name =?? []) && (vsize name <? IFNAMSIZ) && forallb (fun c => negb ((c =? 0) || (c =? 47) || (c =? 58) || (c <=? 32) || (c =? 127))) name.

(** [Address]: valid, and whether it is a loopback address. *)
Definition unicast_address (text : list Z) : option bool :=
  if existsb (fun c => c =? 0) text then None
  else match inet_pton text with
  | None => None
  | Some value => if negb (Z.shiftr value 24 =? 0) && (Z.shiftr value 28 <? 14) then Some (Z.shiftr value 24 =? 127) else None
  end.
(** [Options] *)
Definition interface_options (o : NetworkInterfaceOptions) : Z :=
  if negb (no_interface_name o =?? []) && negb (no_address o =?? []) then - EINVAL
  else if negb (no_interface_name o =?? []) && negb (interface_name (no_interface_name o)) then - EINVAL
  else if negb (no_address o =?? []) && match unicast_address (no_address o) with None => true | Some _ => false end then - EINVAL
  else 0.
Definition automatic (o : NetworkInterfaceOptions) : bool := (no_interface_name o =?? []) && (no_address o =?? []).
(** A row that the override, if any, names. *)
Definition row_matches (o : NetworkInterfaceOptions) (nic : NetworkInterfaceInfo) : bool :=
  ((no_interface_name o =?? []) || (ni_name nic =?? no_interface_name o)) && ((no_address o =?? []) || (ni_address nic =?? no_address o)).
Definition row_eligible (o : NetworkInterfaceOptions) (nic : NetworkInterfaceInfo) : bool :=
  match unicast_address (ni_address nic) with
  | None => false
  | Some lo =>
      let lo := lo || ni_loopback nic in
      interface_name (ni_name nic) && negb (ni_index nic =? 0) && ni_up nic && ni_running nic &&
      negb (lo && (automatic o || negb (no_allow_loopback o))) &&
      (ni_multicast nic || (lo && negb (automatic o) && no_allow_loopback o)) && negb (automatic o && ni_point_to_point nic)
  end.
Definition row_key (nic : NetworkInterfaceInfo) : list Z * Z * list Z := (ni_name nic, ni_index nic, ni_address nic).
(** The loop: whether a row matched, the rows seen, the last selection and their number. *)
Record Scan := { sc_matched : bool; sc_seen : list (list Z * Z * list Z); sc_selected : option Selection; sc_count : Z }.
Definition scan_row (o : NetworkInterfaceOptions) (s : Scan) (nic : NetworkInterfaceInfo) : Scan :=
  if negb (row_matches o nic) then s
  else if negb (row_eligible o nic) then {| sc_matched := true; sc_seen := sc_seen s; sc_selected := sc_selected s; sc_count := sc_count s |}
  else if bool_decide (row_key nic ∈ sc_seen s) then {| sc_matched := true; sc_seen := sc_seen s; sc_selected := sc_selected s; sc_count := sc_count s |}
  else {| sc_matched := true; sc_seen := row_key nic :: sc_seen s;
          sc_selected := Some {| sl_name := ni_name nic; sl_address := ni_address nic; sl_index := ni_index nic; sl_automatic := automatic o |}; sc_count := sc_count s + 1 |}.
Definition no_scan : Scan := {| sc_matched := false; sc_seen := []; sc_selected := None; sc_count := 0 |}.
Definition SelectNetworkInterface (interfaces : list NetworkInterfaceInfo) (o : NetworkInterfaceOptions) : result Selection :=
  let error := interface_options o in
  if negb (error =? 0) then Err error
  else
    let s := foldl (scan_row o) no_scan interfaces in
    if negb (sc_matched s) && negb (automatic o) then Err (if no_interface_name o =?? [] then - EADDRNOTAVAIL else - ENODEV)
    else if sc_count s =? 0 then Err (- ENETDOWN)
    else if negb (sc_count s =? 1) then Err (- ENOTUNIQ)
    else match sc_selected s with Some x => Ok x | None => Err (- ENETDOWN) end.
(** [enumerated]: the answer of [EnumerateNetworkInterfaces]. *)
Definition ResolveNetworkInterface (o : NetworkInterfaceOptions) (enumerated : result (list NetworkInterfaceInfo)) : result Selection :=
  let error := interface_options o in
  if negb (error =? 0) then Err error else let? interfaces := enumerated in SelectNetworkInterface interfaces o.

(** ** Generations *)
Inductive NetworkState := WAITING_NETWORK | REBINDING | NET_RUNNING | NET_ERROR.
#[export] Instance network_state_eq_dec : EqDecision NetworkState.
Proof. solve_decision. Defined.
Inductive LifecycleCall :=
| CallsStart (now : Z) (nic : Selection) (code : Z)
| CallsStop
| CallsReport (state : NetworkState) (error : Z).
Record LifecycleHooks := { lh_stopping : nat -> bool; lh_error : Z; lh_resolve : result Selection; lh_start : Selection -> Z }.
Record NetworkLifecycle := {
  nl_state : NetworkState;
  nl_active : bool;
  nl_pending : bool;
  nl_attempts : Z;
  nl_starts : Z;
  nl_failures : Z;
  nl_last_error : Z;
  nl_recovery_error : Z;
  nl_selected : option Selection;
  nl_candidate : option Selection;
  nl_next_poll : Z;
  nl_retry_at : Z;
  nl_stable_since : Z;
  nl_running_since : Z;
  nl_calls : list LifecycleCall
}.
Definition nl_log (c : LifecycleCall) (s : NetworkLifecycle) : NetworkLifecycle :=
  {| nl_state := nl_state s; nl_active := nl_active s; nl_pending := nl_pending s; nl_attempts := nl_attempts s;
     nl_starts := nl_starts s; nl_failures := nl_failures s; nl_last_error := nl_last_error s; nl_recovery_error :=
     nl_recovery_error s; nl_selected := nl_selected s; nl_candidate := nl_candidate s; nl_next_poll := nl_next_poll
     s; nl_retry_at := nl_retry_at s; nl_stable_since := nl_stable_since s; nl_running_since := nl_running_since s;
     nl_calls := nl_calls s ++ [c] |}.
Definition nl_closed (s : NetworkLifecycle) : NetworkLifecycle :=
  {| nl_state := nl_state s; nl_active := false; nl_pending := nl_pending s; nl_attempts := nl_attempts s; nl_starts
     := nl_starts s; nl_failures := nl_failures s; nl_last_error := nl_last_error s; nl_recovery_error :=
     nl_recovery_error s; nl_selected := nl_selected s; nl_candidate := nl_candidate s; nl_next_poll := nl_next_poll
     s; nl_retry_at := nl_retry_at s; nl_stable_since := nl_stable_since s; nl_running_since := nl_running_since s;
     nl_calls := nl_calls s |}.
Definition nl_set_pending (b : bool) (s : NetworkLifecycle) : NetworkLifecycle :=
  {| nl_state := nl_state s; nl_active := nl_active s; nl_pending := b; nl_attempts := nl_attempts s; nl_starts :=
     nl_starts s; nl_failures := nl_failures s; nl_last_error := nl_last_error s; nl_recovery_error :=
     nl_recovery_error s; nl_selected := nl_selected s; nl_candidate := nl_candidate s; nl_next_poll := nl_next_poll
     s; nl_retry_at := nl_retry_at s; nl_stable_since := nl_stable_since s; nl_running_since := nl_running_since s;
     nl_calls := nl_calls s |}.
Definition nl_set_failures (n : Z) (s : NetworkLifecycle) : NetworkLifecycle :=
  {| nl_state := nl_state s; nl_active := nl_active s; nl_pending := nl_pending s; nl_attempts := nl_attempts s;
     nl_starts := nl_starts s; nl_failures := n; nl_last_error := nl_last_error s; nl_recovery_error :=
     nl_recovery_error s; nl_selected := nl_selected s; nl_candidate := nl_candidate s; nl_next_poll := nl_next_poll
     s; nl_retry_at := nl_retry_at s; nl_stable_since := nl_stable_since s; nl_running_since := nl_running_since s;
     nl_calls := nl_calls s |}.
Definition nl_set_poll (t : Z) (s : NetworkLifecycle) : NetworkLifecycle :=
  {| nl_state := nl_state s; nl_active := nl_active s; nl_pending := nl_pending s; nl_attempts := nl_attempts s;
     nl_starts := nl_starts s; nl_failures := nl_failures s; nl_last_error := nl_last_error s; nl_recovery_error :=
     nl_recovery_error s; nl_selected := nl_selected s; nl_candidate := nl_candidate s; nl_next_poll := t; nl_retry_at
     := nl_retry_at s; nl_stable_since := nl_stable_since s; nl_running_since := nl_running_since s; nl_calls :=
     nl_calls s |}.
Definition nl_retry (t : Z) (s : NetworkLifecycle) : NetworkLifecycle :=
  {| nl_state := nl_state s; nl_active := nl_active s; nl_pending := nl_pending s; nl_attempts := nl_attempts s;
     nl_starts := nl_starts s; nl_failures := nl_failures s; nl_last_error := nl_last_error s; nl_recovery_error :=
     nl_recovery_error s; nl_selected := nl_selected s; nl_candidate := nl_candidate s; nl_next_poll := t; nl_retry_at
     := t; nl_stable_since := nl_stable_since s; nl_running_since := nl_running_since s; nl_calls := nl_calls s |}.
Definition nl_set_candidate (nic : Selection) (now : Z) (s : NetworkLifecycle) : NetworkLifecycle :=
  {| nl_state := nl_state s; nl_active := nl_active s; nl_pending := true; nl_attempts := nl_attempts s; nl_starts :=
     nl_starts s; nl_failures := nl_failures s; nl_last_error := nl_last_error s; nl_recovery_error :=
     nl_recovery_error s; nl_selected := nl_selected s; nl_candidate := Some nic; nl_next_poll := nl_next_poll s;
     nl_retry_at := nl_retry_at s; nl_stable_since := now; nl_running_since := nl_running_since s; nl_calls :=
     nl_calls s |}.
Definition nl_attempt (s : NetworkLifecycle) : NetworkLifecycle :=
  {| nl_state := nl_state s; nl_active := nl_active s; nl_pending := nl_pending s; nl_attempts := u32 (nl_attempts s +
     1); nl_starts := nl_starts s; nl_failures := nl_failures s; nl_last_error := nl_last_error s; nl_recovery_error
     := nl_recovery_error s; nl_selected := nl_selected s; nl_candidate := nl_candidate s; nl_next_poll :=
     nl_next_poll s; nl_retry_at := nl_retry_at s; nl_stable_since := nl_stable_since s; nl_running_since :=
     nl_running_since s; nl_calls := nl_calls s |}.
Definition nl_set_state (next : NetworkState) (error : Z) (s : NetworkLifecycle) : NetworkLifecycle :=
  {| nl_state := next; nl_active := nl_active s; nl_pending := nl_pending s; nl_attempts := nl_attempts s; nl_starts
     := nl_starts s; nl_failures := nl_failures s; nl_last_error := error; nl_recovery_error := (if error =? 0 then
     nl_recovery_error s else error); nl_selected := nl_selected s; nl_candidate := nl_candidate s; nl_next_poll :=
     nl_next_poll s; nl_retry_at := nl_retry_at s; nl_stable_since := nl_stable_since s; nl_running_since :=
     nl_running_since s; nl_calls := nl_calls s |}.
Definition nl_started (nic : Selection) (now : Z) (s : NetworkLifecycle) : NetworkLifecycle :=
  {| nl_state := nl_state s; nl_active := true; nl_pending := false; nl_attempts := nl_attempts s; nl_starts := u32
     (nl_starts s + 1); nl_failures := nl_failures s; nl_last_error := nl_last_error s; nl_recovery_error :=
     nl_recovery_error s; nl_selected := Some nic; nl_candidate := nl_candidate s; nl_next_poll := nl_next_poll s;
     nl_retry_at := nl_retry_at s; nl_stable_since := nl_stable_since s; nl_running_since := now; nl_calls := nl_calls
     s |}.
Definition new_lifecycle : NetworkLifecycle :=
  {| nl_state := WAITING_NETWORK; nl_active := false; nl_pending := false; nl_attempts := 0; nl_starts := 0; nl_failures := 0; nl_last_error := 0; nl_recovery_error := 0;
     nl_selected := None; nl_candidate := None; nl_next_poll := 0; nl_retry_at := 0; nl_stable_since := 0; nl_running_since := 0; nl_calls := [] |}.
Definition StopNetwork (s : NetworkLifecycle) : NetworkLifecycle :=
  nl_set_pending false (if nl_active s then nl_closed (nl_log CallsStop s) else s).
Definition Transition (next : NetworkState) (error : Z) (s : NetworkLifecycle) : NetworkLifecycle :=
  let changed := negb (bool_decide (next = nl_state s)) || negb (error =? nl_last_error s) in
  let s := nl_set_state next error s in
  if changed || bool_decide (next = REBINDING) || bool_decide (next = NET_RUNNING) then nl_log (CallsReport next error) s else s.
(** [Same]: a member that was never assigned is [None]. *)
Definition same_nic (a : Selection) (b : option Selection) : bool :=
  match b with Some b => (sl_name a =?? sl_name b) && (sl_index a =? sl_index b) && (sl_address a =?? sl_address b) | None => false end.
Definition Transient (code : Z) : bool :=
  (code =? - EAGAIN) || (code =? - EIO) || (code =? - ETIMEDOUT) || (code =? - ENETDOWN) || (code =? - ENODEV) || (code =? - EADDRNOTAVAIL) ||
  (code =? - ENETUNREACH) || (code =? - EHOSTUNREACH).
Definition unavailable (code : Z) : bool := (code =? - ENETDOWN) || (code =? - ENODEV) || (code =? - EADDRNOTAVAIL) || (code =? - ENOTUNIQ).
Definition network_failure (now code : Z) (s : NetworkLifecycle) : NetworkLifecycle :=
  let s := nl_set_failures (u32 (nl_failures s + 1)) s in
  if negb (Transient code) || (5 <=? nl_failures s) then Transition NET_ERROR code s
  else Transition WAITING_NETWORK code (nl_retry (now + 1000 * Z.min 8 (Z.shiftl 1 (nl_failures s - 1))) s).
(** The part behind the poll, without a generation: the resolved interface must be stable, then a generation starts. *)
Definition begin_generation (h : LifecycleHooks) (now : Z) (nic : Selection) (s : NetworkLifecycle) : NetworkLifecycle :=
  if negb (nl_pending s) || negb (same_nic nic (nl_candidate s)) then Transition REBINDING 0 (nl_set_candidate nic now s)
  else if (now - nl_stable_since s <? 500) || (now <? nl_retry_at s) then s
  else if lh_stopping h 5%nat then s
  else
    let code := lh_start h nic in
    let s := nl_log (CallsStart now nic code) (Transition REBINDING 0 (nl_attempt s)) in
    if lh_stopping h 6%nat then nl_set_pending false (if code =? 0 then nl_log CallsStop s else s)
    else if negb (code =? 0) then network_failure now code s
    else Transition NET_RUNNING 0 (nl_started nic now s).
(** The part behind the poll: a running generation stays, or is stopped because the interface changed. *)
Definition use_interface (h : LifecycleHooks) (now : Z) (nic : Selection) (s : NetworkLifecycle) : NetworkLifecycle :=
  if nl_active s && same_nic nic (nl_selected s) then s
  else if nl_active s then
    let s := StopNetwork s in
    if lh_stopping h 4%nat then s else begin_generation h now nic (Transition REBINDING 0 s)
  else begin_generation h now nic s.
Definition poll_interface (h : LifecycleHooks) (now : Z) (s : NetworkLifecycle) : NetworkLifecycle :=
  if now <? nl_next_poll s then s
  else
    let s := nl_set_poll (now + 1000) s in
    if lh_stopping h 2%nat then StopNetwork s
    else match lh_resolve h with
    | Err code =>
        let s := StopNetwork s in
        if lh_stopping h 3%nat then s
        else if unavailable code then Transition WAITING_NETWORK code s else network_failure now code s
    | Ok nic => use_interface h now nic s
    end.
Definition StepNetwork (h : LifecycleHooks) (now : Z) (s : NetworkLifecycle) : NetworkLifecycle :=
  if lh_stopping h 0%nat then StopNetwork s
  else if bool_decide (nl_state s = NET_ERROR) then s
  else if nl_active s then
    let s := if 10000 <=? now - nl_running_since s then nl_set_failures 0 s else s in
    if negb (lh_error h =? 0) then
      let s := StopNetwork s in if lh_stopping h 1%nat then s else network_failure now (lh_error h) s
    else poll_interface h now s
  else poll_interface h now s.
Inductive LifecycleEvent := LeStep (h : LifecycleHooks) (now : Z) | LeStop.
Definition lifecycle_event (s : NetworkLifecycle) (e : LifecycleEvent) : NetworkLifecycle :=
  match e with LeStep h now => StepNetwork h now s | LeStop => StopNetwork s end.
Definition lifecycle_run (es : list LifecycleEvent) : NetworkLifecycle := foldl lifecycle_event new_lifecycle es.

(** ** What is selected *)
Section Selected.
Context (o : NetworkInterfaceOptions).
(** The candidates among the rows: what the override names and the rules admit. *)
Definition candidate_row (nic : NetworkInterfaceInfo) : bool := row_matches o nic && row_eligible o nic.
Definition selection_of (nic : NetworkInterfaceInfo) : Selection :=
  {| sl_name := ni_name nic; sl_address := ni_address nic; sl_index := ni_index nic; sl_automatic := automatic o |}.
Record scanned (rows : list NetworkInterfaceInfo) (s : Scan) : Prop := {
  sd_matched : sc_matched s = existsb (row_matches o) rows;
  sd_seen : forall k, k ∈ sc_seen s <-> exists nic, nic ∈ rows /\ candidate_row nic = true /\ row_key nic = k;
  sd_nodup : NoDup (sc_seen s);
  sd_count : sc_count s = Z.of_nat (length (sc_seen s));
  sd_selected : match sc_seen s with [] => sc_selected s = None | k :: _ => exists nic, nic ∈ rows /\ candidate_row nic = true /\ row_key nic = k /\ sc_selected s = Some (selection_of nic) end
}.
Lemma scanned_keeps rows s nic : scanned rows s -> candidate_row nic = false \/ row_key nic ∈ sc_seen s ->
  scanned (rows ++ [nic]) {| sc_matched := sc_matched s || row_matches o nic; sc_seen := sc_seen s; sc_selected := sc_selected s; sc_count := sc_count s |}.
Proof.
  intros [] Hc. constructor; cbn [sc_matched sc_seen sc_selected sc_count]; auto.
  - rewrite existsb_app, sd_matched0. cbn. by rewrite orb_false_r.
  - intros k. split.
    + intros Hk. apply sd_seen0 in Hk as (x & Hx & H). exists x. split; [apply elem_of_app; auto|done].
    + intros (x & Hx & H1 & H2). apply elem_of_app in Hx as [Hx| ->%list_elem_of_singleton]; [apply sd_seen0; eauto|]. destruct Hc; [congruence|by subst].
  - destruct (sc_seen s); [done|]. destruct sd_selected0 as (x & Hx & H). exists x. split; [apply elem_of_app; auto|done].
Qed.
Lemma scan_row_spec rows s nic : scanned rows s -> scanned (rows ++ [nic]) (scan_row o s nic).
Proof.
  intros Hs. unfold scan_row. destruct (row_matches o nic) eqn:Em; cbn [negb].
  2:{ pose proof (scanned_keeps rows s nic Hs) as H. rewrite Em, orb_false_r in H. destruct s. apply H. left. unfold candidate_row. by rewrite Em. }
  pose proof (scanned_keeps rows s nic Hs) as H. rewrite Em, orb_true_r in H.
  destruct (row_eligible o nic) eqn:Ee; cbn [negb]; [|apply H; left; unfold candidate_row; by rewrite Em, Ee].
  case_bool_decide as Hk; [apply H; by right|]. destruct Hs. assert (Hc : candidate_row nic = true) by (unfold candidate_row; by rewrite Em, Ee).
  constructor; cbn [sc_matched sc_seen sc_selected sc_count].
  - rewrite existsb_app. cbn. by rewrite Em, orb_true_r.
  - intros k. rewrite elem_of_cons. split.
    + intros [->|Hx]; [exists nic; split; [apply elem_of_app; right; by apply list_elem_of_singleton|done]|].
      apply sd_seen0 in Hx as (x & Hx & Hr). exists x. split; [apply elem_of_app; auto|done].
    + intros (x & Hx & H1 & H2). apply elem_of_app in Hx as [Hx| ->%list_elem_of_singleton]; [right; apply sd_seen0; eauto|by left].
  - by constructor.
  - cbn. lia.
  - exists nic. split; [apply elem_of_app; right; by apply list_elem_of_singleton|done].
Qed.
Lemma scanned_all rows : scanned rows (foldl (scan_row o) no_scan rows).
Proof.
  induction rows as [|nic rows IH] using rev_ind.
  - constructor; cbn; try done; [|constructor]. intros k. split; [intros H; by apply elem_of_nil in H|intros (x & H & _); by apply elem_of_nil in H].
  - rewrite foldl_app. cbn. by apply scan_row_spec.
Qed.
End Selected.
Lemma select_candidate o interfaces x : SelectNetworkInterface interfaces o = Ok x -> exists nic, nic ∈ interfaces /\ candidate_row o nic = true /\ x = selection_of o nic.
Proof.
  unfold SelectNetworkInterface. intros H. destruct (negb (interface_options o =? 0)); [done|]. pose proof (scanned_all o interfaces) as []. set (s := foldl _ _ _) in *.
  destruct (negb (sc_matched s) && negb (automatic o)); [done|]. destruct (sc_count s =? 0); [done|]. destruct (negb (sc_count s =? 1)); [done|].
  destruct (sc_seen s) as [|k l]; [by rewrite sd_selected0 in H|]. destruct sd_selected0 as (nic & Hn & Hc & _ & Hs). rewrite Hs in H. injection H as <-. eauto.
Qed.
(** The selection of an interface is exact: it succeeds with a selection if and only if the options are well
    formed and, among the rows of the host that the override names (all of them without one), those that are
    eligible (valid name, index and unicast address, up, running, multicast, not loopback unless asked for) agree
    on one name, index and address, which is what is selected; several different candidates are never resolved
    by taking one of them, and the error says whether nothing was named (-ENODEV, -EADDRNOTAVAIL), nothing was usable (-ENETDOWN) or more
    than one interface was (-ENOTUNIQ). *)
Theorem interface_selection_exact interfaces o :
  let rows := filter (fun nic => candidate_row o nic = true) interfaces in
  match SelectNetworkInterface interfaces o with
  | Ok x => interface_options o = 0 /\ (exists nic, nic ∈ rows /\ x = selection_of o nic) /\ (forall nic, nic ∈ rows -> selection_of o nic = x)
  | Err code =>
      (interface_options o <> 0 /\ code = interface_options o) \/
      (interface_options o = 0 /\
       ((rows = [] /\ code = if existsb (row_matches o) interfaces || automatic o then - ENETDOWN else if bool_decide (no_interface_name o = []) then - EADDRNOTAVAIL else - ENODEV) \/
        (code = - ENOTUNIQ /\ exists a b, a ∈ rows /\ b ∈ rows /\ selection_of o a <> selection_of o b)))
  end.
Proof.
  intros rows. unfold SelectNetworkInterface. destruct (Z.eqb_spec (interface_options o) 0) as [Ho|Ho]; cbn [negb]; [|by left].
  pose proof (scanned_all o interfaces) as []. set (s := foldl _ _ _) in *.
  assert (Hr : forall nic, nic ∈ rows <-> nic ∈ interfaces /\ candidate_row o nic = true) by (intros nic; unfold rows; rewrite list_elem_of_filter; tauto).
  assert (Hkey : forall a b, row_key a = row_key b -> selection_of o a = selection_of o b) by (unfold row_key, selection_of; intros a b H; congruence).
  destruct (sc_seen s) as [|k l] eqn:Es.
  - assert (Hn : rows = []).
    { apply elem_of_nil_inv. intros nic Hx. apply Hr in Hx as [H1 H2]. eapply not_elem_of_nil, sd_seen0; eauto. }
    rewrite sd_count0, sd_matched0. cbn [length Z.of_nat]. destruct (existsb (row_matches o) interfaces), (automatic o) eqn:Ea; right; (split; [done|]); left; by split.
  - destruct sd_selected0 as (nic & Hn & Hc & Hk & Hs). rewrite sd_matched0, (proj2 (existsb_exists _ _)); cbn [negb andb].
    2:{ exists nic. split; [by apply list_elem_of_In|]. unfold candidate_row in Hc. by apply andb_true_iff in Hc as [? _]. }
    rewrite sd_count0. destruct l as [|k' l]; cbn [length].
    + rewrite Hs. cbn. split; [done|]. split; [exists nic; by rewrite Hr|]. intros x Hx. apply Hr in Hx as [H1 H2]. apply Hkey.
      assert (row_key x ∈ [k]) as H%list_elem_of_singleton by (apply sd_seen0; eauto). congruence.
    + destruct (Z.eqb_spec (Z.of_nat (S (S (length l)))) 0); [lia|]. destruct (Z.eqb_spec (Z.of_nat (S (S (length l)))) 1); [lia|]. cbn. right. split; [done|]. right. split; [done|].
      destruct (proj1 (sd_seen0 k')) as (b & Hb & Hcb & Hkb); [set_solver|]. exists nic, b. rewrite !Hr. split_and!; auto. intros E.
      apply NoDup_cons in sd_nodup0 as [Hx _]. apply Hx. apply elem_of_cons. left. rewrite <- Hk, <- Hkb. unfold row_key. unfold selection_of in E. congruence.
Qed.

(** ** Generations one at a time *)
(** The interface of the open generation behind a log of calls; [None]: a call out of order. *)
Definition generation_step (open : option (option Selection)) (c : LifecycleCall) : option (option Selection) :=
  match open, c with
  | Some g, CallsReport _ _ => Some g
  | Some None, CallsStart _ nic code => Some (if code =? 0 then Some nic else None)
  | Some (Some _), CallsStop => Some None
  | _, _ => None
  end.
Definition generations (calls : list LifecycleCall) : option (option Selection) := foldl generation_step (Some None) calls.
(** A step of the run resolved [nic] at [t]. *)
Definition resolved_at (es : list LifecycleEvent) (t : Z) (nic : Selection) : Prop := exists h, LeStep h t ∈ es /\ lh_resolve h = Ok nic.
(** A generation starts on an interface that two resolutions at least 500 ms apart agree on. *)
Definition start_debounced (es : list LifecycleEvent) (c : LifecycleCall) : Prop :=
  match c with
  | CallsStart t nic _ => resolved_at es t nic /\ exists t0 nic0, resolved_at es t0 nic0 /\ same_nic nic (Some nic0) = true /\ t0 + 500 <= t
  | _ => True
  end.
(** When the last generation started. *)
Definition start_time (t : Z) (c : LifecycleCall) : Z := match c with CallsStart now _ code => if code =? 0 then now else t | _ => t end.
Definition started_at (calls : list LifecycleCall) : Z := foldl start_time 0 calls.
Record life (es : list LifecycleEvent) (s : NetworkLifecycle) : Prop := {
  lf_generation : generations (nl_calls s) = Some (if nl_active s then nl_selected s else None);
  lf_selected : nl_active s = true -> is_Some (nl_selected s) /\ nl_state s = NET_RUNNING;
  lf_failures : 0 <= nl_failures s <= 5 /\ (nl_failures s = 5 -> nl_state s = NET_ERROR);
  lf_pending : nl_pending s = true -> exists nic, nl_candidate s = Some nic /\ resolved_at es (nl_stable_since s) nic;
  lf_starts : Forall (start_debounced es) (nl_calls s);
  lf_running : nl_active s = true -> nl_running_since s = started_at (nl_calls s);
  lf_error : nl_state s = NET_ERROR -> nl_failures s = 5 \/ Transient (nl_last_error s) = false
}.
Lemma resolved_mono es es' t nic : es ⊆ es' -> resolved_at es t nic -> resolved_at es' t nic.
Proof. intros H (h & H1 & H2). exists h. auto. Qed.
Lemma life_mono es es' s : es ⊆ es' -> life es s -> life es' s.
Proof.
  intros H []. constructor; auto.
  - intros Hp. destruct (lf_pending0 Hp) as (nic & H1 & H2). eauto using resolved_mono.
  - eapply Forall_impl; [exact lf_starts0|]. intros [t nic code| |]; cbn; auto. intros (H1 & t0 & nic0 & H2 & H3). split; [eauto using resolved_mono|]. exists t0, nic0. eauto using resolved_mono.
Qed.
Section Step.
Context (es : list LifecycleEvent).
Lemma generations_snoc calls c : generations (calls ++ [c]) = generation_step (generations calls) c.
Proof. unfold generations. by rewrite foldl_app. Qed.
Lemma life_stop s : life es s -> life es (StopNetwork s) /\ nl_active (StopNetwork s) = false.
Proof.
  intros []. unfold StopNetwork. destruct (nl_active s) eqn:Ea; (split; [|done]); constructor; cbn -[generations]; rewrite ?Ea; auto; try discriminate.
  - rewrite generations_snoc, lf_generation0. destruct lf_selected0 as [[nic ->] _]; done.
  - apply Forall_app. split; [done|]. by repeat constructor.
Qed.
Lemma life_transition next error s : next <> NET_ERROR -> life es s -> nl_active s = false -> nl_failures s < 5 -> life es (Transition next error s) /\ nl_active (Transition next error s) = false.
Proof.
  intros Hne [] Ha Hf. unfold Transition. match goal with |- context[if ?b then _ else _] => destruct b end; (split; [|by cbn]); constructor; cbn -[generations]; rewrite ?Ha in *; auto; try lia; try discriminate; try done.
  - rewrite generations_snoc, lf_generation0. done.
  - apply Forall_app. split; [done|]. by repeat constructor.
Qed.
(** What [Transition] leaves: the members it does not assign. *)
Lemma transition_members next error s :
  let s' := Transition next error s in
  nl_active s' = nl_active s /\ nl_pending s' = nl_pending s /\ nl_failures s' = nl_failures s /\ nl_selected s' = nl_selected s /\ nl_candidate s' = nl_candidate s /\
  nl_stable_since s' = nl_stable_since s /\ nl_retry_at s' = nl_retry_at s /\ nl_state s' = next.
Proof. unfold Transition. match goal with |- context[if ?b then _ else _] => destruct b end; cbn; tauto. Qed.
Lemma life_failure now code s : life es s -> nl_active s = false -> nl_failures s < 5 -> life es (network_failure now code s) /\ nl_active (network_failure now code s) = false.
Proof.
  intros H Ha Hf. destruct H. unfold network_failure. assert (Eu : u32 (nl_failures s + 1) = nl_failures s + 1) by (unfold u32; apply Z.mod_small; lia).
  rewrite Eu. cbn [nl_set_failures nl_failures]. destruct (negb (Transient code) || (5 <=? nl_failures s + 1)) eqn:E.
  - assert (Herr : nl_failures s + 1 = 5 \/ Transient code = false) by (apply orb_true_iff in E as [?%negb_true_iff|?%Z.leb_le]; [auto|left; lia]). unfold Transition. match goal with |- context[if ?b then _ else _] => destruct b end; (split; [|by cbn]); constructor; cbn -[generations Z.add]; rewrite ?Ha in *; auto; try lia; try discriminate; try (by split; [lia|]).
    + rewrite generations_snoc, lf_generation0. done.
    + apply Forall_app. split; [done|]. by repeat constructor.
  - apply orb_false_iff in E as [_ E%Z.leb_gt]. apply life_transition; [done| |done|cbn -[Z.add]; lia]. constructor; cbn -[generations Z.add]; rewrite ?Ha in *; auto; try lia; try discriminate.
    intros Hn. destruct (lf_error0 Hn); [lia|auto].
Qed.
End Step.
Section Run.
Context (es : list LifecycleEvent) (h : LifecycleHooks) (now : Z).
Hypothesis Hnow : LeStep h now ∈ es.
Lemma life_log_start nic s : life es s -> nl_active s = false -> lh_resolve h = Ok nic -> nl_pending s = true -> same_nic nic (nl_candidate s) = true -> nl_stable_since s + 500 <= now ->
  Forall (start_debounced es) (nl_calls s ++ [CallsStart now nic (lh_start h nic)]) /\
  generations (nl_calls s ++ [CallsStart now nic (lh_start h nic)]) = Some (if lh_start h nic =? 0 then Some nic else None).
Proof.
  intros [] Ha Hr Hp Hs Ht. split.
  - apply Forall_app. split; [done|]. constructor; [|done]. split; [by exists h|]. destruct (lf_pending0 Hp) as (nic0 & E & H). rewrite E in Hs. by exists (nl_stable_since s), nic0.
  - by rewrite generations_snoc, lf_generation0, Ha.
Qed.
Lemma life_begin nic s : life es s -> nl_active s = false -> nl_failures s < 5 -> lh_resolve h = Ok nic -> life es (begin_generation h now nic s).
Proof.
  intros H Ha Hf Hr. unfold begin_generation. destruct (negb (nl_pending s) || negb (same_nic nic (nl_candidate s))) eqn:Ep.
  { apply life_transition; [done| |done..]. destruct H. constructor; cbn -[generations]; rewrite ?Ha in *; auto; try discriminate. intros _. exists nic. split; [done|]. by exists h. }
  apply orb_false_iff in Ep as [Hp%negb_false_iff Hs%negb_false_iff]. destruct ((now - nl_stable_since s <? 500) || (now <? nl_retry_at s)) eqn:Et; [done|].
  apply orb_false_iff in Et as [Ht%Z.ltb_ge _]. destruct (lh_stopping h 5); [done|].
  assert (Hl : life es (Transition REBINDING 0 (nl_attempt s)) /\ nl_active (Transition REBINDING 0 (nl_attempt s)) = false).
  { apply life_transition; [done| |done..]. destruct H. by constructor. }
  pose proof (transition_members REBINDING 0 (nl_attempt s)) as (_ & Mp & Mf & _ & Mc & Ms & _). set (s1 := Transition _ _ _) in *. destruct Hl as [Hl Ha1]. cbn in Mp, Mf, Mc, Ms.
  destruct (life_log_start nic s1 Hl Ha1 Hr) as [Hst Hg]; [congruence|congruence|rewrite Ms; lia|].
  destruct (lh_stopping h 6).
  - destruct Hl. destruct (Z.eqb_spec (lh_start h nic) 0) as [E|E]; constructor; cbn -[generations]; rewrite ?Ha1 in *; auto; try discriminate.
    + by rewrite generations_snoc, Hg.
    + apply Forall_app. split; [done|]. by repeat constructor.
  - destruct (Z.eqb_spec (lh_start h nic) 0) as [E|E]; cbn [negb].
    + destruct Hl. unfold Transition. match goal with |- context[if ?b then _ else _] => destruct b end; constructor; cbn -[generations started_at]; auto; try lia; try discriminate.
      all: try (intros _; unfold started_at; rewrite !foldl_app; cbn; by rewrite E). all: try (split; [by eexists|done]). all: try by rewrite Hg. all: try by rewrite generations_snoc, Hg.
      apply Forall_app. split; [done|]. by repeat constructor.
    + apply life_failure; [|done|cbn; lia]. destruct Hl. constructor; cbn -[generations]; rewrite ?Ha1 in *; auto; discriminate.
Qed.
Lemma life_use nic s : life es s -> nl_state s <> NET_ERROR -> lh_resolve h = Ok nic -> life es (use_interface h now nic s).
Proof.
  intros H Hn Hr. assert (Hf : nl_failures s < 5) by (destruct H; destruct lf_failures0; destruct (decide (nl_failures s = 5)); [tauto|lia]).
  unfold use_interface. destruct (nl_active s) eqn:Ea; cbn [andb]; [|by apply life_begin]. destruct (same_nic nic (nl_selected s)); [done|].
  destruct (life_stop es s H) as [Hs Has]. destruct (lh_stopping h 4); [done|]. assert (Ef : nl_failures (StopNetwork s) = nl_failures s) by (unfold StopNetwork; by rewrite Ea).
  destruct (life_transition es REBINDING 0 (StopNetwork s)) as [Ht Hat]; [done..|lia|]. apply life_begin; auto.
  pose proof (transition_members REBINDING 0 (StopNetwork s)) as (_ & _ & -> & _). lia.
Qed.
End Run.
Lemma life_budget es s : life es s -> nl_state s <> NET_ERROR -> nl_failures s < 5.
Proof. intros [] Hn. destruct lf_failures0 as [? H]. destruct (decide (nl_failures s = 5)); [tauto|lia]. Qed.
Lemma stop_members s : nl_state (StopNetwork s) = nl_state s /\ nl_failures (StopNetwork s) = nl_failures s.
Proof. unfold StopNetwork. by destruct (nl_active s). Qed.
Lemma life_stopped_failure es now code s : life es s -> nl_state s <> NET_ERROR -> life es (network_failure now code (StopNetwork s)).
Proof.
  intros H Hn. destruct (life_stop es s H) as [Hs Ha]. pose proof (stop_members s) as [_ Ef]. apply life_failure; [done|done|]. rewrite Ef. by apply (life_budget es).
Qed.
Lemma life_poll es h now s : LeStep h now ∈ es -> life es s -> nl_state s <> NET_ERROR -> life es (poll_interface h now s).
Proof.
  intros Hi H Hn. unfold poll_interface. case_check; [done|]. assert (Hp : life es (nl_set_poll (now + 1000) s)) by (destruct H; by constructor).
  set (p := nl_set_poll _ _) in *. destruct (life_stop es p Hp) as [Hs Ha]. case_check; [done|]. destruct (lh_resolve h) as [nic|code] eqn:Er; [by apply life_use|].
  case_check; [done|]. case_check; [|by apply life_stopped_failure]. apply life_transition; [done..|]. rewrite (proj2 (stop_members p)). by apply (life_budget es).
Qed.
Lemma life_step es h now s : LeStep h now ∈ es -> life es s -> life es (StepNetwork h now s).
Proof.
  intros Hi H. unfold StepNetwork. case_check; [by apply life_stop|]. case_bool_decide as Hn; [done|]. destruct (nl_active s) eqn:Ea; [|by apply life_poll].
  set (s1 := if 10000 <=? now - nl_running_since s then nl_set_failures 0 s else s). assert (life es s1 /\ nl_state s1 = nl_state s) as [H1 E1].
  { unfold s1. case_check; [|done]. split; [|done]. destruct H. constructor; auto; cbn; [lia|]. done. }
  rewrite <- E1 in Hn. clearbody s1. case_check; [|by apply life_poll]. destruct (life_stop es s1 H1). case_check; [done|by apply life_stopped_failure].
Qed.
Lemma life_run es : life es (lifecycle_run es).
Proof.
  induction es as [|e es IH] using rev_ind.
  - by constructor; cbn.
  - unfold lifecycle_run in *. rewrite foldl_app. cbn. assert (H : life (es ++ [e]) (foldl lifecycle_event new_lifecycle es)) by (eapply life_mono; [|exact IH]; set_solver).
    destruct e as [h now|]; cbn; [apply life_step; [set_solver|done]|by apply life_stop].
Qed.
Lemma error_final s e : nl_state s = NET_ERROR -> nl_active s = false -> let s' := lifecycle_event s e in nl_state s' = NET_ERROR /\ nl_active s' = false /\ nl_calls s' = nl_calls s.
Proof.
  intros Hs Ha. assert (H : nl_state (StopNetwork s) = NET_ERROR /\ nl_active (StopNetwork s) = false /\ nl_calls (StopNetwork s) = nl_calls s) by (unfold StopNetwork; by rewrite Ha).
  destruct e as [h now|]; cbn; [|done]. unfold StepNetwork. case_check; [done|]. by rewrite bool_decide_eq_true_2.
Qed.
Lemma error_final_run es : forall s, nl_state s = NET_ERROR -> nl_active s = false -> let s' := foldl lifecycle_event s es in nl_state s' = NET_ERROR /\ nl_calls s' = nl_calls s.
Proof. induction es as [|e es IH]; intros s Hs Ha; cbn; [done|]. destruct (error_final s e Hs Ha) as (H1 & H2 & H3). destruct (IH _ H1 H2) as [-> ->]. done. Qed.
(** ** Failures in a row *)
(** The calls that the step from [s] to [s'] made include a start that failed. *)
Definition start_failed (c : LifecycleCall) : bool := match c with CallsStart _ _ code => negb (code =? 0) | _ => false end.
Definition step_calls (s s' : NetworkLifecycle) : list LifecycleCall := drop (length (nl_calls s)) (nl_calls s').
(** A step fails: the generation reports an error, the interfaces cannot be resolved for another reason than that
    there is none, or the start of a generation fails; unless the gateway is stopping. *)
Definition step_fails (s : NetworkLifecycle) (h : LifecycleHooks) (now : Z) : bool :=
  negb (lh_stopping h 0) && negb (bool_decide (nl_state s = NET_ERROR)) &&
  if nl_active s && negb (lh_error h =? 0) then negb (lh_stopping h 1)
  else (nl_next_poll s <=? now) && negb (lh_stopping h 2) &&
       match lh_resolve h with
       | Err code => negb (lh_stopping h 3) && negb (unavailable code)
       | Ok _ => existsb start_failed (step_calls s (StepNetwork h now s)) && negb (lh_stopping h 6)
       end.
(** A step finds that the open generation has run for 10 s. *)
Definition step_proves (s : NetworkLifecycle) (h : LifecycleHooks) (now : Z) : bool :=
  negb (lh_stopping h 0) && nl_active s && (10000 <=? now - started_at (nl_calls s)).
(** The failures of a run since a generation was last found to have run for 10 s. *)
Definition count_failure (x : NetworkLifecycle * Z) (e : LifecycleEvent) : NetworkLifecycle * Z :=
  let (s, n) := x in
  (lifecycle_event s e,
   match e with
   | LeStep h now => (if step_proves s h now then 0 else n) + (if step_fails s h now then 1 else 0)
   | LeStop => n
   end).
Definition failures_in_a_row (es : list LifecycleEvent) : Z := snd (foldl count_failure (new_lifecycle, 0) es).

(** What a piece of a step adds to the log and to the failures. *)
Definition grows (s s' : NetworkLifecycle) (l : list LifecycleCall) (failed : bool) : Prop :=
  nl_calls s' = nl_calls s ++ l /\ nl_failures s' = nl_failures s + (if failed then 1 else 0).
Lemma transition_grows next error s : exists l, grows s (Transition next error s) l false /\ existsb start_failed l = false.
Proof.
  unfold Transition. match goal with |- context[if ?b then _ else _] => destruct b end; [exists [CallsReport next error]|exists []]; unfold grows; cbn -[Z.add]; rewrite ?app_nil_r; split_and!; auto; lia.
Qed.
Lemma stop_grows s : exists l, grows s (StopNetwork s) l false /\ existsb start_failed l = false.
Proof. unfold StopNetwork, grows. destruct (nl_active s); [exists [CallsStop]|exists []]; cbn -[Z.add]; rewrite ?app_nil_r; split_and!; auto; lia. Qed.
Lemma failure_grows now code s : 0 <= nl_failures s < 5 -> exists l, grows s (network_failure now code s) l true /\ existsb start_failed l = false.
Proof.
  intros Hf. unfold network_failure. assert (Eu : u32 (nl_failures s + 1) = nl_failures s + 1) by (unfold u32; apply Z.mod_small; lia). rewrite Eu.
  case_check; [destruct (transition_grows NET_ERROR code (nl_set_failures (nl_failures s + 1) s)) as (l & [H1 H2] & H3)|
    match goal with |- context [Transition WAITING_NETWORK code ?x] => destruct (transition_grows WAITING_NETWORK code x) as (l & [H1 H2] & H3) end];
    exists l; unfold grows; rewrite H1, H2; cbn -[Z.add]; split_and!; auto; lia.
Qed.
Lemma grows_trans s1 s2 s3 l l' a b : grows s1 s2 l a -> grows s2 s3 l' b -> a && b = false -> grows s1 s3 (l ++ l') (a || b).
Proof. intros [H1 H2] [H3 H4] Hab. unfold grows. rewrite H3, H4, H1, H2, app_assoc. split; [done|]. destruct a, b; cbn in *; lia || done. Qed.
Lemma begin_grows h now nic s : 0 <= nl_failures s < 5 ->
  exists l, grows s (begin_generation h now nic s) l (existsb start_failed l && negb (lh_stopping h 6)).
Proof.
  intros Hf. unfold begin_generation. case_check.
  { destruct (transition_grows REBINDING 0 (nl_set_candidate nic now s)) as (l & Hl & E). exists l. rewrite E. exact Hl. }
  case_check; [exists []; unfold grows; cbn -[Z.add]; rewrite app_nil_r; split; [done|lia]|]. case_check; [exists []; unfold grows; cbn -[Z.add]; rewrite app_nil_r; split; [done|lia]|].
  destruct (transition_grows REBINDING 0 (nl_attempt s)) as (l & [Hc Hn] & E). cbn -[Z.add] in Hc, Hn. set (s1 := Transition _ _ _) in *. cbv zeta.
  set (s2 := nl_log _ s1). assert (H2 : grows s s2 (l ++ [CallsStart now nic (lh_start h nic)]) false).
  { unfold grows, s2. cbn -[Z.add]. rewrite Hc, app_assoc. split; [done|lia]. }
  assert (Hx : forall l', existsb start_failed l' = false -> existsb start_failed ((l ++ [CallsStart now nic (lh_start h nic)]) ++ l') = negb (lh_start h nic =? 0)).
  { intros l' El. rewrite !existsb_app, E, El. cbn. by rewrite !orb_false_r. }
  destruct (lh_stopping h 6) eqn:E6; cbn [negb].
  - destruct (lh_start h nic =? 0).
    + exists ((l ++ [CallsStart now nic (lh_start h nic)]) ++ [CallsStop]). rewrite andb_false_r. destruct H2 as [H2 H2']. unfold grows. cbn -[Z.add]. rewrite Hc, <- !app_assoc. split; [done|].
      cbn -[Z.add] in H2'. lia.
    + exists (l ++ [CallsStart now nic (lh_start h nic)]). rewrite andb_false_r. exact H2.
  - destruct (lh_start h nic =? 0) eqn:E0; cbn [negb].
    + destruct (transition_grows NET_RUNNING 0 (nl_started nic now s2)) as (l' & Hl & El). exists ((l ++ [CallsStart now nic (lh_start h nic)]) ++ l').
      rewrite (Hx l' El). cbn [negb andb]. apply (grows_trans _ s2 _ _ _ false false); done.
    + destruct (failure_grows now (lh_start h nic) s2) as (l' & Hl & El); [cbn; lia|]. exists ((l ++ [CallsStart now nic (lh_start h nic)]) ++ l').
      rewrite (Hx l' El). cbn [negb andb]. apply (grows_trans _ s2 _ _ _ false true); done.
Qed.
Lemma use_grows h now nic s : 0 <= nl_failures s < 5 -> exists l, grows s (use_interface h now nic s) l (existsb start_failed l && negb (lh_stopping h 6)).
Proof.
  intros Hf. unfold use_interface. case_check; [exists []; unfold grows; cbn -[Z.add]; rewrite app_nil_r; split; [done|lia]|]. case_check; [|by apply begin_grows].
  destruct (stop_grows s) as (l & Hl & E). cbv zeta. case_check; [exists l; by rewrite E|]. destruct (transition_grows REBINDING 0 (StopNetwork s)) as (l1 & Hl1 & E1).
  assert (H1 : grows s (Transition REBINDING 0 (StopNetwork s)) (l ++ l1) false) by (by apply (grows_trans _ _ _ _ _ false false Hl Hl1)).
  destruct (begin_grows h now nic (Transition REBINDING 0 (StopNetwork s))) as (l2 & Hl2); [destruct H1 as [_ ->]; lia|].
  exists ((l ++ l1) ++ l2). rewrite !existsb_app, E, E1. cbn [orb]. by apply (grows_trans _ _ _ _ _ false _ H1 Hl2).
Qed.
(** The failures after a poll, which made the calls [l]. *)
Lemma poll_counts h now s : 0 <= nl_failures s < 5 ->
  nl_failures (poll_interface h now s) = nl_failures s +
    (if (nl_next_poll s <=? now) && negb (lh_stopping h 2) &&
        match lh_resolve h with
        | Err code => negb (lh_stopping h 3) && negb (unavailable code)
        | Ok _ => existsb start_failed (step_calls s (poll_interface h now s)) && negb (lh_stopping h 6)
        end then 1 else 0).
Proof.
  intros Hf. unfold poll_interface. rewrite Z.leb_antisym. destruct (now <? nl_next_poll s); cbn [negb andb]; [lia|]. cbv zeta. set (p := nl_set_poll _ s).
  pose proof (stop_members p) as [_ Ef]. change (nl_failures p) with (nl_failures s) in Ef. destruct (lh_stopping h 2); cbn [negb andb]; [rewrite Ef; lia|].
  destruct (lh_resolve h) as [nic|code].
  - destruct (use_grows h now nic p Hf) as (l & H1 & H2). rewrite H2. unfold step_calls. rewrite H1. change (nl_calls p) with (nl_calls s). by rewrite drop_app_length.
  - destruct (lh_stopping h 3); cbn [negb andb]; [rewrite Ef; lia|]. destruct (unavailable code); cbn [negb].
    + destruct (transition_grows WAITING_NETWORK code (StopNetwork p)) as (l & [_ H2] & _). rewrite H2, Ef. lia.
    + destruct (failure_grows now code (StopNetwork p)) as (l & [_ H2] & _); [rewrite Ef; lia|]. rewrite H2, Ef. lia.
Qed.
Lemma step_counts es h now s : life es s ->
  nl_failures (StepNetwork h now s) = (if step_proves s h now then 0 else nl_failures s) + (if step_fails s h now then 1 else 0).
Proof.
  intros H. pose proof (stop_members s) as [_ Ef]. pose proof (life_budget es s H) as Hb. destruct H as [_ Hsel [Hf _] _ _ Hrun _].
  unfold step_proves, step_fails. unfold StepNetwork at 1 2. destruct (lh_stopping h 0) eqn:E0; cbn [negb andb]; [rewrite Ef; lia|].
  case_bool_decide as Hs; cbn [negb andb].
  { destruct (nl_active s); [destruct Hsel as [_ Hx]; [done|congruence]|]. cbn. lia. }
  specialize (Hb Hs). destruct (nl_active s) eqn:Ea; cbn [andb].
  2:{ rewrite (poll_counts h now s) by lia. done. }
  rewrite <- (Hrun eq_refl). set (s1 := if 10000 <=? now - nl_running_since s then nl_set_failures 0 s else s).
  assert (H1 : nl_failures s1 = (if 10000 <=? now - nl_running_since s then 0 else nl_failures s) /\ nl_calls s1 = nl_calls s /\ nl_next_poll s1 = nl_next_poll s)
    by (unfold s1; by destruct (10000 <=? _)).
  destruct H1 as (H1 & H2 & H3). assert (Hr : 0 <= nl_failures s1 < 5) by (rewrite H1; destruct (10000 <=? _); lia). rewrite <- H1.
  pose proof (stop_members s1) as [_ Ef1]. destruct (lh_error h =? 0) eqn:Ee; cbn [negb].
  - rewrite (poll_counts h now s1 Hr). unfold step_calls. rewrite H3, H2. done.
  - destruct (lh_stopping h 1); cbn [negb]; [rewrite Ef1; lia|]. destruct (failure_grows now (lh_error h) (StopNetwork s1)) as (l & [_ Hl] & _); [rewrite Ef1; lia|]. rewrite Hl, Ef1. lia.
Qed.
Lemma failures_counted es : foldl count_failure (new_lifecycle, 0) es = (lifecycle_run es, nl_failures (lifecycle_run es)).
Proof.
  induction es as [|e es IH] using rev_ind; [done|]. pose proof (life_run es) as H. unfold lifecycle_run in *. rewrite !foldl_app, IH. cbn [foldl count_failure lifecycle_event].
  f_equal. destruct e as [h now|]; cbn [lifecycle_event]; [by rewrite (step_counts es)|]. by destruct (stop_members (foldl lifecycle_event new_lifecycle es)) as [_ ->].
Qed.
(** C24: However its hooks answer and whenever it is stepped or stopped, the gateway has at most one network
    generation: starts and stops of a control node alternate in the log of calls, no node is stopped that was
    not started, and the one open generation is the one the lifecycle holds as active, on the interface it
    selected, and it then is in the running state; stopping closes it.  A generation is only started on
    an interface that two resolutions at least 500 ms apart agree on.  Five failures in a row (of a running
    generation, of the resolution for another reason than a missing or ambiguous interface, or of a start), with no step
    between them that finds a generation that has run for 10 s, end in the error state; only they and an error
    that is not transient do; and it is final: no further call is made. *)
Theorem lifecycle_generations es :
  let s := lifecycle_run es in
  generations (nl_calls s) = Some (if nl_active s then nl_selected s else None) /\
  (nl_active s = true -> is_Some (nl_selected s) /\ nl_state s = NET_RUNNING) /\
  generations (nl_calls (StopNetwork s)) = Some None /\
  Forall (start_debounced es) (nl_calls s) /\
  0 <= failures_in_a_row es <= 5 /\ (failures_in_a_row es = 5 -> nl_state s = NET_ERROR) /\
  (nl_state s = NET_ERROR -> failures_in_a_row es = 5 \/ Transient (nl_last_error s) = false) /\
  (nl_state s = NET_ERROR -> forall es', nl_state (foldl lifecycle_event s es') = NET_ERROR /\ nl_calls (foldl lifecycle_event s es') = nl_calls s).
Proof.
  intros s. pose proof (life_run es) as H. fold s in H. destruct (life_stop es s H) as [Hs Ha]. pose proof (lf_generation _ _ Hs) as Hg. rewrite Ha in Hg.
  assert (Hn : failures_in_a_row es = nl_failures s) by (unfold failures_in_a_row; by rewrite failures_counted). rewrite Hn.
  destruct H as [H1 H2 [H3 H4] H5 H6 _ H7]. split_and!; auto; try lia. intros E es'. apply error_final_run; [done|]. destruct (nl_active s); [|done]. destruct H2 as [_ H2]; [done|]. congruence.
Qed.
(** A run: an interface appears, is stable, a generation starts, its node fails and is started again after a second. *)
Example lifecycle_recovers :
  let nic := {| sl_name := [101]; sl_address := [49]; sl_index := 2; sl_automatic := true |} in
  let h error := {| lh_stopping := fun _ => false; lh_error := error; lh_resolve := Ok nic; lh_start := fun _ => 0 |} in
  let s := lifecycle_run [LeStep (h 0) 0; LeStep (h 0) 1000; LeStep (h (- EIO)) 1500; LeStep (h 0) 2000; LeStep (h 0) 2500; LeStep (h 0) 3500] in
  nl_state s = NET_RUNNING /\ nl_starts s = 2 /\ generations (nl_calls s) = Some (Some nic).
Proof. vm_compute. done. Qed.
