(* ===== verification/GatewayOptions.v ===== *)
(** * The gateway's command line

    [gateway/src/gateway_support.hpp]: [Parse] turns the arguments into [Options], [Config] turns
    them into the configuration of a control node.  Every permission of the node, which hosts may
    use it and which endpoints it exposes, comes from here.

    Rates are doubles: [Rate], what [std::stod] reads and the range test are parameters.  An
    exception of [Parse] is a [ParseError]. *)
From Stdlib Require Import String.
From S2P Require Import Prelude Wire NetTypes Compatibility SystemScope PeerDiscovery TypeDescriptor LocalMetadata GatewayNetwork.

(** ** The options *)
Inductive EndpointOption := RemoteParameter | RemoteService | RemoteAction.
Inductive ClientOption := DescriptorClient | ParameterGetClient | ParameterSetClient | ServiceCallClient | ActionGoalClient | ActionCancelClient.
Inductive OptionKey :=
| KEndpoint (e : EndpointOption)
| KClient (c : ClientOption)
| KAllowPrefix | KExcludePrefix | KTopicRate | KRemoteTopic | KFreshStart
| KAllowLoopback
| KIpcSocket | KLockFile | KStateDir | KInterface | KDiscoveryPort | KControlPort | KTopicPort.
#[export] Instance endpoint_option_eq_dec : EqDecision EndpointOption.
Proof. solve_decision. Defined.
#[export] Instance client_option_eq_dec : EqDecision ClientOption.
Proof. solve_decision. Defined.
#[export] Instance option_key_eq_dec : EqDecision OptionKey.
Proof. solve_decision. Defined.
Definition option_names : list (string * OptionKey) :=
  [("--remote-parameter", KEndpoint RemoteParameter); ("--remote-service", KEndpoint RemoteService); ("--remote-action", KEndpoint RemoteAction);
   ("--descriptor-client", KClient DescriptorClient); ("--parameter-get-client", KClient ParameterGetClient); ("--parameter-set-client", KClient ParameterSetClient);
   ("--service-call-client", KClient ServiceCallClient); ("--action-goal-client", KClient ActionGoalClient); ("--action-cancel-client", KClient ActionCancelClient);
   ("--topic-allow-prefix", KAllowPrefix); ("--topic-exclude-prefix", KExcludePrefix); ("--topic-rate", KTopicRate); ("--remote-topic", KRemoteTopic);
   ("--topic-fresh-start", KFreshStart); ("--allow-loopback", KAllowLoopback); ("--ipc-socket", KIpcSocket); ("--lock-file", KLockFile);
   ("--state-dir", KStateDir); ("--interface", KInterface); ("--discovery-port", KDiscoveryPort); ("--control-port", KControlPort); ("--topic-port", KTopicPort)]%string.
(** The option an argument names; the names are distinct, so the order of the comparisons does not matter. *)
Definition option_key (key : list Z) : option OptionKey := snd <$> List.find (fun p => text (fst p) =?? key) option_names.
(** [prefix]: the option may be repeated. *)
Definition repeatable (k : OptionKey) : bool :=
  match k with KEndpoint _ | KClient _ | KAllowPrefix | KExcludePrefix | KTopicRate | KRemoteTopic | KFreshStart => true | _ => false end.
Inductive ParseError :=
| DuplicateOption | UnknownOption | MissingValue | InvalidHost | DuplicateHost | TooManyHosts | InvalidEndpoint | DuplicateEndpoint
| InvalidRate | DuplicateRate | DuplicateTopic | InvalidPort | SamePorts | LoopbackNeedsInterface | TooManyTopics | InvalidTopic
| PolicyError (code : Z) | LocalClient.

Definition digit_char (c : Z) : bool := (48 <=? c) && (c <=? 57).
Definition decimal_value (text : list Z) : Z := foldl (fun n c => n * 10 + (c - 48)) 0 text.
Definition Port (text : list Z) : ParseError + Z :=
  if (text =?? []) || negb (forallb digit_char text) then inl InvalidPort
  else let n := decimal_value text in if (n =? 0) || (65535 <? n) then inl InvalidPort else inr n.
(** [digit] of [ClientHost] *)
Definition hex_digit (c : Z) : option Z :=
  if (48 <=? c) && (c <=? 57) then Some (c - 48)
  else if (97 <=? c) && (c <=? 102) then Some (c - 97 + 10)
  else if (65 <=? c) && (c <=? 70) then Some (c - 65 + 10)
  else None.
Fixpoint hex_bytes (text : list Z) : option (list Z) :=
  match text with
  | [] => Some []
  | a :: b :: rest =>
      match hex_digit a, hex_digit b with
      | Some a, Some b => match hex_bytes rest with Some l => Some (Z.lor (Z.shiftl a 4) b :: l) | None => None end
      | _, _ => None
      end
  | _ => None
  end.
Definition ClientHost (text : list Z) : ParseError + HostIdentity :=
  if negb (vsize text =? 32) then inl InvalidHost
  else match hex_bytes text with
  | None => inl InvalidHost
  | Some host => if forallb (fun b => b =? 0) host then inl InvalidHost else inr host
  end.
(** [Hex] of [main.cpp] *)
Definition hex_char (n : Z) : Z := if n <? 10 then 48 + n else 87 + n.
Definition Hex (id : HostIdentity) : list Z := flat_map (fun b => [hex_char (Z.shiftr b 4); hex_char (Z.land b 15)]) id.

Section Rates.
Context {Rate : Type}.
(** [std::stod]: the number a text starts with and how many characters it has; [None]: it throws. *)
Context (stod : list Z -> option (Rate * nat)).
(** [std::isfinite(hz) && hz>=0.1 && hz<=1000] *)
Context (rate_in_range : Rate -> bool).

Record Options := {
  op_state_dir : list Z;
  op_ipc_socket : list Z;
  op_lock_file : list Z;
  op_nic : NetworkInterfaceOptions;
  op_allow_prefixes : list (list Z);
  op_exclude_prefixes : list (list Z);
  op_topic_rates : list (list Z * Rate);
  op_remote_topics : list (list Z);
  op_remote_parameters : list (list Z);
  op_remote_services : list (list Z);
  op_remote_actions : list (list Z);
  op_descriptor_query_clients : list HostIdentity;
  op_parameter_get_clients : list HostIdentity;
  op_parameter_set_clients : list HostIdentity;
  op_service_call_clients : list HostIdentity;
  op_action_goal_clients : list HostIdentity;
  op_action_cancel_clients : list HostIdentity;
  op_fresh_start_topics : list (list Z);
  op_discovery : Z;
  op_control : Z;
  op_topic : Z
}.
Definition default_options : Options :=
  {| op_state_dir := text "/var/lib/kcf"; op_ipc_socket := text "/run/kcf/gateway.sock"; op_lock_file := text "/run/kcf/gateway.lock";
     op_nic := {| no_interface_name := []; no_address := []; no_allow_loopback := false |}; op_allow_prefixes := []; op_exclude_prefixes := []; op_topic_rates := [];
     op_remote_topics := []; op_remote_parameters := []; op_remote_services := []; op_remote_actions := []; op_descriptor_query_clients := [];
     op_parameter_get_clients := []; op_parameter_set_clients := []; op_service_call_clients := []; op_action_goal_clients := []; op_action_cancel_clients := [];
     op_fresh_start_topics := []; op_discovery := 37651; op_control := 39001; op_topic := 37652 |}.
Definition op_set_state_dir (v : list Z) (o : Options) : Options :=
  {| op_state_dir := v; op_ipc_socket := op_ipc_socket o; op_lock_file := op_lock_file o; op_nic := op_nic o;
     op_allow_prefixes := op_allow_prefixes o; op_exclude_prefixes := op_exclude_prefixes o; op_topic_rates :=
     op_topic_rates o; op_remote_topics := op_remote_topics o; op_remote_parameters := op_remote_parameters o;
     op_remote_services := op_remote_services o; op_remote_actions := op_remote_actions o; op_descriptor_query_clients
     := op_descriptor_query_clients o; op_parameter_get_clients := op_parameter_get_clients o;
     op_parameter_set_clients := op_parameter_set_clients o; op_service_call_clients := op_service_call_clients o;
     op_action_goal_clients := op_action_goal_clients o; op_action_cancel_clients := op_action_cancel_clients o;
     op_fresh_start_topics := op_fresh_start_topics o; op_discovery := op_discovery o; op_control := op_control o;
     op_topic := op_topic o |}.
Definition op_set_ipc_socket (v : list Z) (o : Options) : Options :=
  {| op_state_dir := op_state_dir o; op_ipc_socket := v; op_lock_file := op_lock_file o; op_nic := op_nic o;
     op_allow_prefixes := op_allow_prefixes o; op_exclude_prefixes := op_exclude_prefixes o; op_topic_rates :=
     op_topic_rates o; op_remote_topics := op_remote_topics o; op_remote_parameters := op_remote_parameters o;
     op_remote_services := op_remote_services o; op_remote_actions := op_remote_actions o; op_descriptor_query_clients
     := op_descriptor_query_clients o; op_parameter_get_clients := op_parameter_get_clients o;
     op_parameter_set_clients := op_parameter_set_clients o; op_service_call_clients := op_service_call_clients o;
     op_action_goal_clients := op_action_goal_clients o; op_action_cancel_clients := op_action_cancel_clients o;
     op_fresh_start_topics := op_fresh_start_topics o; op_discovery := op_discovery o; op_control := op_control o;
     op_topic := op_topic o |}.
Definition op_set_lock_file (v : list Z) (o : Options) : Options :=
  {| op_state_dir := op_state_dir o; op_ipc_socket := op_ipc_socket o; op_lock_file := v; op_nic := op_nic o;
     op_allow_prefixes := op_allow_prefixes o; op_exclude_prefixes := op_exclude_prefixes o; op_topic_rates :=
     op_topic_rates o; op_remote_topics := op_remote_topics o; op_remote_parameters := op_remote_parameters o;
     op_remote_services := op_remote_services o; op_remote_actions := op_remote_actions o; op_descriptor_query_clients
     := op_descriptor_query_clients o; op_parameter_get_clients := op_parameter_get_clients o;
     op_parameter_set_clients := op_parameter_set_clients o; op_service_call_clients := op_service_call_clients o;
     op_action_goal_clients := op_action_goal_clients o; op_action_cancel_clients := op_action_cancel_clients o;
     op_fresh_start_topics := op_fresh_start_topics o; op_discovery := op_discovery o; op_control := op_control o;
     op_topic := op_topic o |}.
Definition op_set_nic (v : NetworkInterfaceOptions) (o : Options) : Options :=
  {| op_state_dir := op_state_dir o; op_ipc_socket := op_ipc_socket o; op_lock_file := op_lock_file o; op_nic := v;
     op_allow_prefixes := op_allow_prefixes o; op_exclude_prefixes := op_exclude_prefixes o; op_topic_rates :=
     op_topic_rates o; op_remote_topics := op_remote_topics o; op_remote_parameters := op_remote_parameters o;
     op_remote_services := op_remote_services o; op_remote_actions := op_remote_actions o; op_descriptor_query_clients
     := op_descriptor_query_clients o; op_parameter_get_clients := op_parameter_get_clients o;
     op_parameter_set_clients := op_parameter_set_clients o; op_service_call_clients := op_service_call_clients o;
     op_action_goal_clients := op_action_goal_clients o; op_action_cancel_clients := op_action_cancel_clients o;
     op_fresh_start_topics := op_fresh_start_topics o; op_discovery := op_discovery o; op_control := op_control o;
     op_topic := op_topic o |}.
Definition op_add_allow (v : list Z) (o : Options) : Options :=
  {| op_state_dir := op_state_dir o; op_ipc_socket := op_ipc_socket o; op_lock_file := op_lock_file o; op_nic :=
     op_nic o; op_allow_prefixes := op_allow_prefixes o ++ [v]; op_exclude_prefixes := op_exclude_prefixes o;
     op_topic_rates := op_topic_rates o; op_remote_topics := op_remote_topics o; op_remote_parameters :=
     op_remote_parameters o; op_remote_services := op_remote_services o; op_remote_actions := op_remote_actions o;
     op_descriptor_query_clients := op_descriptor_query_clients o; op_parameter_get_clients :=
     op_parameter_get_clients o; op_parameter_set_clients := op_parameter_set_clients o; op_service_call_clients :=
     op_service_call_clients o; op_action_goal_clients := op_action_goal_clients o; op_action_cancel_clients :=
     op_action_cancel_clients o; op_fresh_start_topics := op_fresh_start_topics o; op_discovery := op_discovery o;
     op_control := op_control o; op_topic := op_topic o |}.
Definition op_add_exclude (v : list Z) (o : Options) : Options :=
  {| op_state_dir := op_state_dir o; op_ipc_socket := op_ipc_socket o; op_lock_file := op_lock_file o; op_nic :=
     op_nic o; op_allow_prefixes := op_allow_prefixes o; op_exclude_prefixes := op_exclude_prefixes o ++ [v];
     op_topic_rates := op_topic_rates o; op_remote_topics := op_remote_topics o; op_remote_parameters :=
     op_remote_parameters o; op_remote_services := op_remote_services o; op_remote_actions := op_remote_actions o;
     op_descriptor_query_clients := op_descriptor_query_clients o; op_parameter_get_clients :=
     op_parameter_get_clients o; op_parameter_set_clients := op_parameter_set_clients o; op_service_call_clients :=
     op_service_call_clients o; op_action_goal_clients := op_action_goal_clients o; op_action_cancel_clients :=
     op_action_cancel_clients o; op_fresh_start_topics := op_fresh_start_topics o; op_discovery := op_discovery o;
     op_control := op_control o; op_topic := op_topic o |}.
Definition op_add_rate (v : list Z * Rate) (o : Options) : Options :=
  {| op_state_dir := op_state_dir o; op_ipc_socket := op_ipc_socket o; op_lock_file := op_lock_file o; op_nic :=
     op_nic o; op_allow_prefixes := op_allow_prefixes o; op_exclude_prefixes := op_exclude_prefixes o; op_topic_rates
     := op_topic_rates o ++ [v]; op_remote_topics := op_remote_topics o; op_remote_parameters := op_remote_parameters
     o; op_remote_services := op_remote_services o; op_remote_actions := op_remote_actions o;
     op_descriptor_query_clients := op_descriptor_query_clients o; op_parameter_get_clients :=
     op_parameter_get_clients o; op_parameter_set_clients := op_parameter_set_clients o; op_service_call_clients :=
     op_service_call_clients o; op_action_goal_clients := op_action_goal_clients o; op_action_cancel_clients :=
     op_action_cancel_clients o; op_fresh_start_topics := op_fresh_start_topics o; op_discovery := op_discovery o;
     op_control := op_control o; op_topic := op_topic o |}.
Definition op_add_remote_topic (v : list Z) (o : Options) : Options :=
  {| op_state_dir := op_state_dir o; op_ipc_socket := op_ipc_socket o; op_lock_file := op_lock_file o; op_nic :=
     op_nic o; op_allow_prefixes := op_allow_prefixes o; op_exclude_prefixes := op_exclude_prefixes o; op_topic_rates
     := op_topic_rates o; op_remote_topics := op_remote_topics o ++ [v]; op_remote_parameters := op_remote_parameters
     o; op_remote_services := op_remote_services o; op_remote_actions := op_remote_actions o;
     op_descriptor_query_clients := op_descriptor_query_clients o; op_parameter_get_clients :=
     op_parameter_get_clients o; op_parameter_set_clients := op_parameter_set_clients o; op_service_call_clients :=
     op_service_call_clients o; op_action_goal_clients := op_action_goal_clients o; op_action_cancel_clients :=
     op_action_cancel_clients o; op_fresh_start_topics := op_fresh_start_topics o; op_discovery := op_discovery o;
     op_control := op_control o; op_topic := op_topic o |}.
Definition op_add_fresh (v : list Z) (o : Options) : Options :=
  {| op_state_dir := op_state_dir o; op_ipc_socket := op_ipc_socket o; op_lock_file := op_lock_file o; op_nic :=
     op_nic o; op_allow_prefixes := op_allow_prefixes o; op_exclude_prefixes := op_exclude_prefixes o; op_topic_rates
     := op_topic_rates o; op_remote_topics := op_remote_topics o; op_remote_parameters := op_remote_parameters o;
     op_remote_services := op_remote_services o; op_remote_actions := op_remote_actions o; op_descriptor_query_clients
     := op_descriptor_query_clients o; op_parameter_get_clients := op_parameter_get_clients o;
     op_parameter_set_clients := op_parameter_set_clients o; op_service_call_clients := op_service_call_clients o;
     op_action_goal_clients := op_action_goal_clients o; op_action_cancel_clients := op_action_cancel_clients o;
     op_fresh_start_topics := op_fresh_start_topics o ++ [v]; op_discovery := op_discovery o; op_control := op_control
     o; op_topic := op_topic o |}.
Definition op_set_discovery (v : Z) (o : Options) : Options :=
  {| op_state_dir := op_state_dir o; op_ipc_socket := op_ipc_socket o; op_lock_file := op_lock_file o; op_nic :=
     op_nic o; op_allow_prefixes := op_allow_prefixes o; op_exclude_prefixes := op_exclude_prefixes o; op_topic_rates
     := op_topic_rates o; op_remote_topics := op_remote_topics o; op_remote_parameters := op_remote_parameters o;
     op_remote_services := op_remote_services o; op_remote_actions := op_remote_actions o; op_descriptor_query_clients
     := op_descriptor_query_clients o; op_parameter_get_clients := op_parameter_get_clients o;
     op_parameter_set_clients := op_parameter_set_clients o; op_service_call_clients := op_service_call_clients o;
     op_action_goal_clients := op_action_goal_clients o; op_action_cancel_clients := op_action_cancel_clients o;
     op_fresh_start_topics := op_fresh_start_topics o; op_discovery := v; op_control := op_control o; op_topic :=
     op_topic o |}.
Definition op_set_control (v : Z) (o : Options) : Options :=
  {| op_state_dir := op_state_dir o; op_ipc_socket := op_ipc_socket o; op_lock_file := op_lock_file o; op_nic :=
     op_nic o; op_allow_prefixes := op_allow_prefixes o; op_exclude_prefixes := op_exclude_prefixes o; op_topic_rates
     := op_topic_rates o; op_remote_topics := op_remote_topics o; op_remote_parameters := op_remote_parameters o;
     op_remote_services := op_remote_services o; op_remote_actions := op_remote_actions o; op_descriptor_query_clients
     := op_descriptor_query_clients o; op_parameter_get_clients := op_parameter_get_clients o;
     op_parameter_set_clients := op_parameter_set_clients o; op_service_call_clients := op_service_call_clients o;
     op_action_goal_clients := op_action_goal_clients o; op_action_cancel_clients := op_action_cancel_clients o;
     op_fresh_start_topics := op_fresh_start_topics o; op_discovery := op_discovery o; op_control := v; op_topic :=
     op_topic o |}.
Definition op_set_topic (v : Z) (o : Options) : Options :=
  {| op_state_dir := op_state_dir o; op_ipc_socket := op_ipc_socket o; op_lock_file := op_lock_file o; op_nic :=
     op_nic o; op_allow_prefixes := op_allow_prefixes o; op_exclude_prefixes := op_exclude_prefixes o; op_topic_rates
     := op_topic_rates o; op_remote_topics := op_remote_topics o; op_remote_parameters := op_remote_parameters o;
     op_remote_services := op_remote_services o; op_remote_actions := op_remote_actions o; op_descriptor_query_clients
     := op_descriptor_query_clients o; op_parameter_get_clients := op_parameter_get_clients o;
     op_parameter_set_clients := op_parameter_set_clients o; op_service_call_clients := op_service_call_clients o;
     op_action_goal_clients := op_action_goal_clients o; op_action_cancel_clients := op_action_cancel_clients o;
     op_fresh_start_topics := op_fresh_start_topics o; op_discovery := op_discovery o; op_control := op_control o;
     op_topic := v |}.
Definition op_add_parameter (v : list Z) (o : Options) : Options :=
  {| op_state_dir := op_state_dir o; op_ipc_socket := op_ipc_socket o; op_lock_file := op_lock_file o; op_nic :=
     op_nic o; op_allow_prefixes := op_allow_prefixes o; op_exclude_prefixes := op_exclude_prefixes o; op_topic_rates
     := op_topic_rates o; op_remote_topics := op_remote_topics o; op_remote_parameters := op_remote_parameters o ++
     [v]; op_remote_services := op_remote_services o; op_remote_actions := op_remote_actions o;
     op_descriptor_query_clients := op_descriptor_query_clients o; op_parameter_get_clients :=
     op_parameter_get_clients o; op_parameter_set_clients := op_parameter_set_clients o; op_service_call_clients :=
     op_service_call_clients o; op_action_goal_clients := op_action_goal_clients o; op_action_cancel_clients :=
     op_action_cancel_clients o; op_fresh_start_topics := op_fresh_start_topics o; op_discovery := op_discovery o;
     op_control := op_control o; op_topic := op_topic o |}.
Definition op_add_service (v : list Z) (o : Options) : Options :=
  {| op_state_dir := op_state_dir o; op_ipc_socket := op_ipc_socket o; op_lock_file := op_lock_file o; op_nic :=
     op_nic o; op_allow_prefixes := op_allow_prefixes o; op_exclude_prefixes := op_exclude_prefixes o; op_topic_rates
     := op_topic_rates o; op_remote_topics := op_remote_topics o; op_remote_parameters := op_remote_parameters o;
     op_remote_services := op_remote_services o ++ [v]; op_remote_actions := op_remote_actions o;
     op_descriptor_query_clients := op_descriptor_query_clients o; op_parameter_get_clients :=
     op_parameter_get_clients o; op_parameter_set_clients := op_parameter_set_clients o; op_service_call_clients :=
     op_service_call_clients o; op_action_goal_clients := op_action_goal_clients o; op_action_cancel_clients :=
     op_action_cancel_clients o; op_fresh_start_topics := op_fresh_start_topics o; op_discovery := op_discovery o;
     op_control := op_control o; op_topic := op_topic o |}.
Definition op_add_action (v : list Z) (o : Options) : Options :=
  {| op_state_dir := op_state_dir o; op_ipc_socket := op_ipc_socket o; op_lock_file := op_lock_file o; op_nic :=
     op_nic o; op_allow_prefixes := op_allow_prefixes o; op_exclude_prefixes := op_exclude_prefixes o; op_topic_rates
     := op_topic_rates o; op_remote_topics := op_remote_topics o; op_remote_parameters := op_remote_parameters o;
     op_remote_services := op_remote_services o; op_remote_actions := op_remote_actions o ++ [v];
     op_descriptor_query_clients := op_descriptor_query_clients o; op_parameter_get_clients :=
     op_parameter_get_clients o; op_parameter_set_clients := op_parameter_set_clients o; op_service_call_clients :=
     op_service_call_clients o; op_action_goal_clients := op_action_goal_clients o; op_action_cancel_clients :=
     op_action_cancel_clients o; op_fresh_start_topics := op_fresh_start_topics o; op_discovery := op_discovery o;
     op_control := op_control o; op_topic := op_topic o |}.
Definition op_add_descriptor_client (v : HostIdentity) (o : Options) : Options :=
  {| op_state_dir := op_state_dir o; op_ipc_socket := op_ipc_socket o; op_lock_file := op_lock_file o; op_nic :=
     op_nic o; op_allow_prefixes := op_allow_prefixes o; op_exclude_prefixes := op_exclude_prefixes o; op_topic_rates
     := op_topic_rates o; op_remote_topics := op_remote_topics o; op_remote_parameters := op_remote_parameters o;
     op_remote_services := op_remote_services o; op_remote_actions := op_remote_actions o; op_descriptor_query_clients
     := op_descriptor_query_clients o ++ [v]; op_parameter_get_clients := op_parameter_get_clients o;
     op_parameter_set_clients := op_parameter_set_clients o; op_service_call_clients := op_service_call_clients o;
     op_action_goal_clients := op_action_goal_clients o; op_action_cancel_clients := op_action_cancel_clients o;
     op_fresh_start_topics := op_fresh_start_topics o; op_discovery := op_discovery o; op_control := op_control o;
     op_topic := op_topic o |}.
Definition op_add_get_client (v : HostIdentity) (o : Options) : Options :=
  {| op_state_dir := op_state_dir o; op_ipc_socket := op_ipc_socket o; op_lock_file := op_lock_file o; op_nic :=
     op_nic o; op_allow_prefixes := op_allow_prefixes o; op_exclude_prefixes := op_exclude_prefixes o; op_topic_rates
     := op_topic_rates o; op_remote_topics := op_remote_topics o; op_remote_parameters := op_remote_parameters o;
     op_remote_services := op_remote_services o; op_remote_actions := op_remote_actions o; op_descriptor_query_clients
     := op_descriptor_query_clients o; op_parameter_get_clients := op_parameter_get_clients o ++ [v];
     op_parameter_set_clients := op_parameter_set_clients o; op_service_call_clients := op_service_call_clients o;
     op_action_goal_clients := op_action_goal_clients o; op_action_cancel_clients := op_action_cancel_clients o;
     op_fresh_start_topics := op_fresh_start_topics o; op_discovery := op_discovery o; op_control := op_control o;
     op_topic := op_topic o |}.
Definition op_add_set_client (v : HostIdentity) (o : Options) : Options :=
  {| op_state_dir := op_state_dir o; op_ipc_socket := op_ipc_socket o; op_lock_file := op_lock_file o; op_nic :=
     op_nic o; op_allow_prefixes := op_allow_prefixes o; op_exclude_prefixes := op_exclude_prefixes o; op_topic_rates
     := op_topic_rates o; op_remote_topics := op_remote_topics o; op_remote_parameters := op_remote_parameters o;
     op_remote_services := op_remote_services o; op_remote_actions := op_remote_actions o; op_descriptor_query_clients
     := op_descriptor_query_clients o; op_parameter_get_clients := op_parameter_get_clients o;
     op_parameter_set_clients := op_parameter_set_clients o ++ [v]; op_service_call_clients := op_service_call_clients
     o; op_action_goal_clients := op_action_goal_clients o; op_action_cancel_clients := op_action_cancel_clients o;
     op_fresh_start_topics := op_fresh_start_topics o; op_discovery := op_discovery o; op_control := op_control o;
     op_topic := op_topic o |}.
Definition op_add_call_client (v : HostIdentity) (o : Options) : Options :=
  {| op_state_dir := op_state_dir o; op_ipc_socket := op_ipc_socket o; op_lock_file := op_lock_file o; op_nic :=
     op_nic o; op_allow_prefixes := op_allow_prefixes o; op_exclude_prefixes := op_exclude_prefixes o; op_topic_rates
     := op_topic_rates o; op_remote_topics := op_remote_topics o; op_remote_parameters := op_remote_parameters o;
     op_remote_services := op_remote_services o; op_remote_actions := op_remote_actions o; op_descriptor_query_clients
     := op_descriptor_query_clients o; op_parameter_get_clients := op_parameter_get_clients o;
     op_parameter_set_clients := op_parameter_set_clients o; op_service_call_clients := op_service_call_clients o ++
     [v]; op_action_goal_clients := op_action_goal_clients o; op_action_cancel_clients := op_action_cancel_clients o;
     op_fresh_start_topics := op_fresh_start_topics o; op_discovery := op_discovery o; op_control := op_control o;
     op_topic := op_topic o |}.
Definition op_add_goal_client (v : HostIdentity) (o : Options) : Options :=
  {| op_state_dir := op_state_dir o; op_ipc_socket := op_ipc_socket o; op_lock_file := op_lock_file o; op_nic :=
     op_nic o; op_allow_prefixes := op_allow_prefixes o; op_exclude_prefixes := op_exclude_prefixes o; op_topic_rates
     := op_topic_rates o; op_remote_topics := op_remote_topics o; op_remote_parameters := op_remote_parameters o;
     op_remote_services := op_remote_services o; op_remote_actions := op_remote_actions o; op_descriptor_query_clients
     := op_descriptor_query_clients o; op_parameter_get_clients := op_parameter_get_clients o;
     op_parameter_set_clients := op_parameter_set_clients o; op_service_call_clients := op_service_call_clients o;
     op_action_goal_clients := op_action_goal_clients o ++ [v]; op_action_cancel_clients := op_action_cancel_clients
     o; op_fresh_start_topics := op_fresh_start_topics o; op_discovery := op_discovery o; op_control := op_control o;
     op_topic := op_topic o |}.
Definition op_add_cancel_client (v : HostIdentity) (o : Options) : Options :=
  {| op_state_dir := op_state_dir o; op_ipc_socket := op_ipc_socket o; op_lock_file := op_lock_file o; op_nic :=
     op_nic o; op_allow_prefixes := op_allow_prefixes o; op_exclude_prefixes := op_exclude_prefixes o; op_topic_rates
     := op_topic_rates o; op_remote_topics := op_remote_topics o; op_remote_parameters := op_remote_parameters o;
     op_remote_services := op_remote_services o; op_remote_actions := op_remote_actions o; op_descriptor_query_clients
     := op_descriptor_query_clients o; op_parameter_get_clients := op_parameter_get_clients o;
     op_parameter_set_clients := op_parameter_set_clients o; op_service_call_clients := op_service_call_clients o;
     op_action_goal_clients := op_action_goal_clients o; op_action_cancel_clients := op_action_cancel_clients o ++
     [v]; op_fresh_start_topics := op_fresh_start_topics o; op_discovery := op_discovery o; op_control := op_control
     o; op_topic := op_topic o |}.
(** [endpoints] and [clients]: the list that an option fills. *)
Definition endpoints_of (e : EndpointOption) (o : Options) : list (list Z) :=
  match e with RemoteParameter => op_remote_parameters o | RemoteService => op_remote_services o | RemoteAction => op_remote_actions o end.
Definition add_endpoint (e : EndpointOption) : list Z -> Options -> Options :=
  match e with RemoteParameter => op_add_parameter | RemoteService => op_add_service | RemoteAction => op_add_action end.
Definition clients_of (c : ClientOption) (o : Options) : list HostIdentity :=
  match c with
  | DescriptorClient => op_descriptor_query_clients o | ParameterGetClient => op_parameter_get_clients o | ParameterSetClient => op_parameter_set_clients o
  | ServiceCallClient => op_service_call_clients o | ActionGoalClient => op_action_goal_clients o | ActionCancelClient => op_action_cancel_clients o
  end.
Definition add_client (c : ClientOption) : HostIdentity -> Options -> Options :=
  match c with
  | DescriptorClient => op_add_descriptor_client | ParameterGetClient => op_add_get_client | ParameterSetClient => op_add_set_client
  | ServiceCallClient => op_add_call_client | ActionGoalClient => op_add_goal_client | ActionCancelClient => op_add_cancel_client
  end.

(** ** Parse *)
Definition bad_endpoint_name (value : list Z) : bool :=
  negb (first_char value =? SLASH) || (240 <? vsize value) || existsb (fun c => (c <=? 32) || (c =? 127)) value.
(** [value.rfind(':')]: the text before the last colon and the one after it. *)
Fixpoint split_last_colon (value : list Z) : option (list Z * list Z) :=
  match value with
  | [] => None
  | c :: rest =>
      match split_last_colon rest with
      | Some (a, b) => Some (c :: a, b)
      | None => if c =? 58 then Some ([], rest) else None
      end
  end.
Definition on_port (f : Z -> Options -> Options) (value : list Z) (o : Options) : ParseError + Options :=
  match Port value with inl e => inl e | inr n => inr (f n o) end.
(** One option with its value. *)
Definition apply_option (k : OptionKey) (value : list Z) (o : Options) : ParseError + Options :=
  match k with
  | KClient c =>
      match ClientHost value with
      | inl e => inl e
      | inr host => if bool_decide (host ∈ clients_of c o) then inl DuplicateHost
                    else if 32 <=? Z.of_nat (length (clients_of c o)) then inl TooManyHosts
                    else inr (add_client c host o)
      end
  | KEndpoint e => if bad_endpoint_name value then inl InvalidEndpoint
                   else if bool_decide (value ∈ endpoints_of e o) then inl DuplicateEndpoint
                   else inr (add_endpoint e value o)
  | KAllowPrefix => inr (op_add_allow value o)
  | KExcludePrefix => inr (op_add_exclude value o)
  | KTopicRate =>
      match split_last_colon value with
      | None => inl InvalidRate
      | Some (name, number) =>
          match stod number with
          | None => inl InvalidRate
          | Some (hz, used) =>
              if negb (used =? length number)%nat || negb (rate_in_range hz) then inl InvalidRate
              else if existsb (fun r => fst r =?? name) (op_topic_rates o) then inl DuplicateRate
              else inr (op_add_rate (name, hz) o)
          end
      end
  | KFreshStart => if bool_decide (value ∈ op_fresh_start_topics o) then inl DuplicateTopic else inr (op_add_fresh value o)
  | KRemoteTopic => if bool_decide (value ∈ op_remote_topics o) then inl DuplicateTopic else inr (op_add_remote_topic value o)
  | KAllowLoopback => inr (op_set_nic {| no_interface_name := no_interface_name (op_nic o); no_address := no_address (op_nic o); no_allow_loopback := true |} o)
  | KStateDir => inr (op_set_state_dir value o)
  | KIpcSocket => inr (op_set_ipc_socket value o)
  | KLockFile => inr (op_set_lock_file value o)
  | KInterface => inr (op_set_nic {| no_interface_name := value; no_address := no_address (op_nic o); no_allow_loopback := no_allow_loopback (op_nic o) |} o)
  | KDiscoveryPort => on_port op_set_discovery value o
  | KControlPort => on_port op_set_control value o
  | KTopicPort => on_port op_set_topic value o
  end.
(** The loop over the arguments. *)
Fixpoint parse_args (o : Options) (seen : list OptionKey) (args : list (list Z)) : ParseError + Options :=
  match args with
  | [] => inr o
  | key :: rest =>
      match option_key key with
      | None => inl UnknownOption
      | Some k =>
          if negb (repeatable k) && bool_decide (k ∈ seen) then inl DuplicateOption
          else
            let seen := if repeatable k then seen else k :: seen in
            if bool_decide (k = KAllowLoopback) then match apply_option k [] o with inl e => inl e | inr o => parse_args o seen rest end
            else match rest with
            | [] => inl MissingValue
            | value :: rest => if value =?? [] then inl MissingValue
                               else match apply_option k value o with inl e => inl e | inr o => parse_args o seen rest end
            end
      end
  end.
Definition valid_name (name : list Z) : bool :=
  negb (name =?? []) && (first_char name =? SLASH) && (vsize name <=? 240) && negb (existsb (fun c => (c =? 32) || (c =? 9) || (c =? 13) || (c =? 10)) name).
Definition topic_policy (o : Options) : TopicExposurePolicy :=
  {| xp_enabled := negb (op_allow_prefixes o =?? []) || negb (op_exclude_prefixes o =?? []); xp_allow_prefixes := op_allow_prefixes o; xp_exclude_prefixes := op_exclude_prefixes o |}.
(** The checks behind the loop. *)
Definition check_options (o : Options) : ParseError + Options :=
  if (op_discovery o =? op_control o) || (op_discovery o =? op_topic o) || (op_control o =? op_topic o) then inl SamePorts
  else if no_allow_loopback (op_nic o) && (no_interface_name (op_nic o) =?? []) then inl LoopbackNeedsInterface
  else if (64 <? Z.of_nat (length (op_topic_rates o))) || (64 <? Z.of_nat (length (op_remote_topics o))) || (64 <? Z.of_nat (length (op_fresh_start_topics o))) then inl TooManyTopics
  else if negb (forallb (fun r => valid_name (fst r)) (op_topic_rates o)) then inl InvalidTopic
  else if negb (forallb valid_name (op_fresh_start_topics o)) then inl InvalidTopic
  else if negb (forallb valid_name (op_remote_topics o)) then inl InvalidTopic
  else
    let policy_error := ValidateTopicExposurePolicy (topic_policy o) in
    if negb (policy_error =? 0) then inl (PolicyError policy_error) else inr o.
(** [args]: the arguments behind the name of the program. *)
Definition Parse (args : list (list Z)) : ParseError + Options :=
  match parse_args default_options [] args with inl e => inl e | inr o => check_options o end.
Definition all_clients (o : Options) : list (list HostIdentity) :=
  [op_descriptor_query_clients o; op_parameter_get_clients o; op_parameter_set_clients o; op_service_call_clients o; op_action_goal_clients o; op_action_cancel_clients o].
Definition ValidateClientHosts (o : Options) (local : HostIdentity) : bool :=
  forallb (fun hosts => negb (bool_decide (local ∈ hosts))) (all_clients o).

(** ** What an accepted command line says *)
(** The options of a command line with their values. *)
Fixpoint option_pairs (args : list (list Z)) : list (OptionKey * list Z) :=
  match args with
  | [] => []
  | key :: rest =>
      match option_key key with
      | None => []
      | Some k =>
          if bool_decide (k = KAllowLoopback) then (k, []) :: option_pairs rest
          else match rest with [] => [] | value :: rest => (k, value) :: option_pairs rest end
      end
  end.
(** The values given to an option, in order. *)
Definition given (k : OptionKey) (l : list (OptionKey * list Z)) : list (list Z) := map snd (filter (fun p => fst p = k) l).
Fixpoint apply_options (l : list (OptionKey * list Z)) (o : Options) : ParseError + Options :=
  match l with
  | [] => inr o
  | (k, value) :: rest => match apply_option k value o with inl e => inl e | inr o => apply_options rest o end
  end.
Lemma parse_args_pairs n : forall args o seen o', (length args <= n)%nat -> parse_args o seen args = inr o' -> apply_options (option_pairs args) o = inr o'.
Proof.
  induction n as [|n IH]; intros [|key rest] o seen o' Hn H; cbn [parse_args option_pairs apply_options length] in *; auto; try lia.
  destruct (option_key key) as [k|]; [|done]. destruct (negb (repeatable k) && bool_decide (k ∈ seen)); [done|]. case_bool_decide as Hk.
  - cbn [apply_options]. destruct (apply_option k [] o) as [|o1]; [done|]. apply (IH rest _ _ _ ltac:(lia) H).
  - destruct rest as [|value rest]; [done|]. cbn [apply_options]. case_bool_decide; [done|]. destruct (apply_option k value o) as [|o1]; [done|]. cbn [length] in Hn. apply (IH rest _ _ _ ltac:(lia) H).
Qed.
(** Case analysis of a successful [apply_option]. *)
Ltac option_cases :=
  repeat match goal with
  | H : inl _ = inr _ |- _ => discriminate H
  | H : inr _ = inr _ |- _ => apply (inj inr) in H as <-
  | H : context[match ?x with _ => _ end] |- _ => destruct x eqn:?
  end.
Lemma endpoints_apply k value o o' e : apply_option k value o = inr o' -> endpoints_of e o' = endpoints_of e o ++ (if bool_decide (k = KEndpoint e) then [value] else []).
Proof. intros H. destruct k as [e'|c| | | | | | | | | | | | |]; cbn [apply_option] in H; unfold on_port in H; option_cases; try destruct e'; try destruct c; destruct e; cbn; by rewrite ?app_nil_r. Qed.
Lemma clients_apply k value o o' c : apply_option k value o = inr o' ->
  map inr (clients_of c o') = map inr (clients_of c o) ++ (if bool_decide (k = KClient c) then [ClientHost value] else []).
Proof.
  intros H. destruct k as [e'|c'| | | | | | | | | | | | |]; cbn [apply_option] in H; unfold on_port in H; option_cases; try destruct e'; try destruct c'; destruct c; cbn; by rewrite ?app_nil_r, ?map_app.
Qed.
Lemma topics_apply k value o o' : apply_option k value o = inr o' ->
  op_remote_topics o' = op_remote_topics o ++ (if bool_decide (k = KRemoteTopic) then [value] else []) /\
  op_fresh_start_topics o' = op_fresh_start_topics o ++ (if bool_decide (k = KFreshStart) then [value] else []) /\
  op_allow_prefixes o' = op_allow_prefixes o ++ (if bool_decide (k = KAllowPrefix) then [value] else []) /\
  op_exclude_prefixes o' = op_exclude_prefixes o ++ (if bool_decide (k = KExcludePrefix) then [value] else []).
Proof. intros H. destruct k as [e'|c'| | | | | | | | | | | | |]; cbn [apply_option] in H; unfold on_port in H; option_cases; try destruct e'; try destruct c'; cbn; by rewrite ?app_nil_r. Qed.
(** A list of the options that grows with the values of one option. *)
Lemma given_collects {A} (proj : Options -> list A) (k0 : OptionKey) (f : list Z -> A) :
  (forall k value o o', apply_option k value o = inr o' -> proj o' = proj o ++ (if bool_decide (k = k0) then [f value] else [])) ->
  forall l o o', apply_options l o = inr o' -> proj o' = proj o ++ map f (given k0 l).
Proof.
  intros Hf. induction l as [|[k value] l IH]; intros o o' H; cbn [apply_options] in H.
  - apply (inj inr) in H as <-. by rewrite app_nil_r.
  - destruct (apply_option k value o) as [|o1] eqn:E; [done|]. rewrite (IH _ _ H), (Hf _ _ _ _ E). unfold given. rewrite filter_cons. cbn [fst]. case_bool_decide; case_decide; try done; cbn; by rewrite <- ?app_assoc, ?app_nil_r.
Qed.
(** ** What holds of every accepted command line *)
Definition client_host (h : HostIdentity) : Prop := length h = 16%nat /\ bytes h /\ ValidHost h = true.
Definition is_port (n : Z) : Prop := 0 < n <= UINT16_MAX.
Record wf_options (o : Options) : Prop := {
  wo_endpoints : forall e, NoDup (endpoints_of e o) /\ Forall (fun n => bad_endpoint_name n = false) (endpoints_of e o);
  wo_clients : forall c, NoDup (clients_of c o) /\ (length (clients_of c o) <= 32)%nat /\ Forall client_host (clients_of c o);
  wo_topics : NoDup (op_remote_topics o) /\ NoDup (op_fresh_start_topics o);
  wo_rates : NoDup (map fst (op_topic_rates o)) /\ Forall (fun r => rate_in_range (snd r) = true) (op_topic_rates o);
  wo_ports : is_port (op_discovery o) /\ is_port (op_control o) /\ is_port (op_topic o)
}.
Lemma Forall_snoc_intro {A} (P : A -> Prop) l x : Forall P l -> P x -> Forall P (l ++ [x]).
Proof. intros Hl Hx. apply Forall_app. auto. Qed.
Lemma decimal_nonneg t : forall n, 0 <= n -> forallb digit_char t = true -> 0 <= foldl (fun n c => n * 10 + (c - 48)) n t.
Proof. induction t as [|c t IH]; intros n Hn H; cbn in *; [done|]. unfold digit_char in H at 1. bool_to_prop. apply IH; [lia|done]. Qed.
Lemma port_ok value n : Port value = inr n -> is_port n.
Proof.
  unfold Port. intros H. option_cases. bool_to_prop. pose proof (decimal_nonneg value 0 ltac:(lia)). unfold is_port, decimal_value, UINT16_MAX in *. intuition lia.
Qed.
Lemma hex_digit_range c d : hex_digit c = Some d -> 0 <= d < 16.
Proof. unfold hex_digit. intros H. repeat case_check; simplify_eq; bool_to_prop; lia. Qed.
Lemma nibbles_byte a b : 0 <= a < 16 -> 0 <= b < 16 -> Z.lor (Z.shiftl a 4) b = 16 * a + b.
Proof.
  intros Ha Hb. rewrite Z.shiftl_mul_pow2 by lia. change (2 ^ 4) with 16.
  assert (E : Z.land (a * 16) b = 0); [|pose proof (Z.add_lor_land (a * 16) b); lia].
  apply Z.bits_inj_0. intros i. destruct (Z.ltb_spec i 0); [by rewrite Z.testbit_neg_r|]. rewrite Z.land_spec. destruct (Z.ltb_spec i 4).
  - change 16 with (2 ^ 4). by rewrite Z.mul_pow2_bits_low by lia.
  - rewrite (Z.bits_above_log2 b i); [apply andb_false_r|lia|]. destruct (Z.eq_dec b 0) as [->|]; [cbn; lia|]. apply Z.log2_lt_pow2; [lia|]. assert (2 ^ 4 <= 2 ^ i) by (apply Z.pow_le_mono_r; lia). lia.
Qed.
Lemma hex_bytes_wf n : forall t l, (length t <= n)%nat -> hex_bytes t = Some l -> length t = (2 * length l)%nat /\ bytes l.
Proof.
  induction n as [|n IH]; intros [|a [|b t]] l Hn H; cbn [hex_bytes length] in *; simplify_eq; try lia; try (split; [done|constructor]).
  destruct (hex_digit a) as [x|] eqn:Ea; [|done]. destruct (hex_digit b) as [y|] eqn:Eb; [|done]. destruct (hex_bytes t) as [l'|] eqn:Et; [|done].
  apply (inj Some) in H as <-. destruct (IH t l') as [E Hb]; [lia|done|]. apply hex_digit_range in Ea, Eb. cbn [length]. split; [lia|]. apply bytes_cons. split; [|done].
  rewrite nibbles_byte by lia. unfold is_u8, UINT8_MAX. lia.
Qed.
Lemma client_host_ok value h : ClientHost value = inr h -> client_host h.
Proof.
  unfold ClientHost. intros H. destruct (hex_bytes value) as [l|] eqn:El; option_cases. bool_to_prop. rename l into h. destruct (hex_bytes_wf (length value) value h) as [E Hb]; [done|done|]. unfold vsize in *. split; [lia|]. split; [done|].
  unfold ValidHost. match goal with H : forallb _ _ = false |- _ => rename H into Hz end. clear -Hz. induction h as [|b h IH]; cbn in *; [done|]. destruct (b =? 0); cbn in *; auto.
Qed.
Lemma add_endpoint_other e value o : wf_options o -> bad_endpoint_name value = false -> value ∉ endpoints_of e o -> wf_options (add_endpoint e value o).
Proof.
  intros [] Hv Hn. destruct (wo_endpoints0 e) as [H1 H2]. pose proof (NoDup_snoc _ _ H1 Hn) as H3. pose proof (Forall_snoc_intro _ _ _ H2 Hv) as H4.
  pose proof (wo_endpoints0 RemoteParameter). pose proof (wo_endpoints0 RemoteService). pose proof (wo_endpoints0 RemoteAction).
  constructor; [|destruct e; done..]. intros e'. destruct e, e'; cbn in *; auto.
Qed.
Lemma add_client_other c h o : wf_options o -> client_host h -> h ∉ clients_of c o -> (length (clients_of c o) < 32)%nat -> wf_options (add_client c h o).
Proof.
  intros [] Hv Hn Hl. assert (H : forall c', NoDup (clients_of c' (add_client c h o)) /\ (length (clients_of c' (add_client c h o)) <= 32)%nat /\ Forall client_host (clients_of c' (add_client c h o))).
  { intros c'. destruct (decide (c' = c)) as [->|Hc].
    - assert (E : clients_of c (add_client c h o) = clients_of c o ++ [h]) by (by destruct c). rewrite E, length_app. cbn. destruct (wo_clients0 c) as (H1 & _ & H3).
      split_and!; [by apply NoDup_snoc|lia|by apply Forall_snoc_intro].
    - assert (E : clients_of c' (add_client c h o) = clients_of c' o) by (by destruct c, c'). rewrite E. apply wo_clients0. }
  constructor; [|exact H|destruct c; done..]. intros e. destruct c, e; cbn;
  first [apply (wo_endpoints0 RemoteParameter)|apply (wo_endpoints0 RemoteService)|apply (wo_endpoints0 RemoteAction)].
Qed.
Lemma wf_apply k value o o' : wf_options o -> apply_option k value o = inr o' -> wf_options o'.
Proof.
  intros H E. destruct k as [e|c| | | | | | | | | | | | |]; cbn [apply_option] in E; unfold on_port in E; option_cases; bool_to_prop;
    try (by apply add_endpoint_other); try (apply add_client_other; [done|by eapply client_host_ok|done|lia]);
    destruct H; destruct wo_topics0, wo_rates0, wo_ports0 as (? & ? & ?); constructor; cbn; auto using NoDup_snoc, Forall_snoc_intro; try (split_and!; eauto using port_ok; fail).
  rewrite map_app. split; [|by apply Forall_snoc_intro]. apply NoDup_snoc; [done|]. intros (x & Hn & Hr)%list_elem_of_fmap.
  match goal with H : existsb _ _ = false |- _ => rename H into Hx end. apply not_true_iff_false in Hx. apply Hx, existsb_exists. exists x. split; [by apply list_elem_of_In|]. by apply bool_decide_eq_true_2.
Qed.
Lemma wf_apply_options l : forall o o', wf_options o -> apply_options l o = inr o' -> wf_options o'.
Proof.
  induction l as [|[k value] l IH]; intros o o' Hw H; cbn [apply_options] in H; [by apply (inj inr) in H as <-|]. destruct (apply_option k value o) as [|o1] eqn:E; [done|]. eapply IH; [|exact H]. by eapply wf_apply.
Qed.
Lemma wf_default : wf_options default_options.
Proof. constructor; [intros []|intros []|..]; cbn; unfold is_port, UINT16_MAX; split_and!; try constructor; try lia. Qed.
Lemma parse_spec args o : Parse args = inr o -> apply_options (option_pairs args) default_options = inr o /\ check_options o = inr o.
Proof.
  unfold Parse. destruct (parse_args default_options [] args) as [|o1] eqn:E; [done|]. intros H. apply (parse_args_pairs (length args)) in E; [|done].
  assert (o1 = o) as ->; [|done]. clear E. unfold check_options in H. by option_cases.
Qed.
Lemma hex_char_digit n : 0 <= n < 16 -> hex_digit (hex_char n) = Some n.
Proof. intros H. assert (E : forallb (fun n => bool_decide (hex_digit (hex_char n) = Some n)) (map Z.of_nat (seq 0 16)) = true) by reflexivity.
  rewrite forallb_forall in E. specialize (E n). apply bool_decide_eq_true in E; [done|]. apply in_map_iff. exists (Z.to_nat n). split; [lia|]. apply in_seq. lia.
Qed.
(** A host identity that [main] prints is read back. *)
Lemma hex_roundtrip h : client_host h -> ClientHost (Hex h) = inr h.
Proof.
  intros (Hl & Hb & Hv). unfold ClientHost. assert (E : hex_bytes (Hex h) = Some h /\ length (Hex h) = (2 * length h)%nat).
  { clear Hl Hv. induction Hb as [|b h Hb0 Hb IH]; [done|]. destruct IH as [IH1 IH2]. unfold is_u8, UINT8_MAX in Hb0.
    assert (Ex : Hex (b :: h) = hex_char (b / 16) :: hex_char (b mod 16) :: Hex h).
    { unfold Hex. cbn [flat_map app]. rewrite Z.shiftr_div_pow2 by lia. change (Z.land b 15) with (Z.land b (Z.ones 4)). by rewrite Z.land_ones by lia. }
    rewrite Ex. cbn [hex_bytes length].
    pose proof (Z.div_mod b 16 ltac:(lia)). pose proof (Z.mod_pos_bound b 16 ltac:(lia)). rewrite !hex_char_digit by lia. rewrite IH1, IH2, nibbles_byte by lia. split; [do 2 f_equal; lia|lia]. }
  destruct E as [-> El]. unfold vsize. rewrite El, Hl. cbn. assert (Ez : forallb (fun b => b =? 0) h = false); [|by rewrite Ez].
  clear -Hv. unfold ValidHost in Hv. induction h as [|b h IH]; cbn in *; [done|]. destruct (b =? 0); cbn in *; auto.
Qed.
(** An absolute path of at most 240 characters, none of which is [bad]. *)
Definition path_without (bad : Z -> Prop) (name : list Z) : Prop := (exists path, name = SLASH :: path) /\ (length name <= 240)%nat /\ Forall (fun c => ~ bad c) name.
Definition control_character (c : Z) : Prop := c <= 32 \/ c = 127.
Definition blank_character (c : Z) : Prop := c ∈ [32; 9; 13; 10].
(** What the checks of an accepted command line ensure. *)
Record accepted_options (o : Options) : Prop := {
  ao_endpoints : forall e, NoDup (endpoints_of e o) /\ Forall (path_without control_character) (endpoints_of e o);
  ao_clients : forall c, NoDup (clients_of c o) /\ (length (clients_of c o) <= 32)%nat /\ Forall client_host (clients_of c o);
  ao_topics : forall l, l ∈ [op_remote_topics o; op_fresh_start_topics o; map fst (op_topic_rates o)] ->
    NoDup l /\ (length l <= 64)%nat /\ Forall (path_without blank_character) l;
  ao_rules : forall l, l ∈ [op_allow_prefixes o; op_exclude_prefixes o] ->
    NoDup (CanonicalPrefix <$> l) /\ (length l <= 64)%nat /\ Forall (fun p => PrefixValid p = true) l;
  ao_rates : Forall (fun r => rate_in_range (snd r) = true) (op_topic_rates o);
  ao_ports : Forall is_port [op_discovery o; op_control o; op_topic o] /\ NoDup [op_discovery o; op_control o; op_topic o];
  ao_loopback : no_allow_loopback (op_nic o) = true -> no_interface_name (op_nic o) <> []
}.
Lemma first_slash name : first_char name = SLASH -> exists path, name = SLASH :: path.
Proof. destruct name as [|c name]; [done|]. cbn. intros ->. by exists name. Qed.
Lemma not_existsb {A} (f : A -> bool) (P : A -> Prop) l : (forall x, P x -> f x = true) -> existsb f l = false -> Forall (fun x => ~ P x) l.
Proof.
  intros Hf H. apply Forall_forall. intros x Hx HP. apply not_true_iff_false in H. apply H, existsb_exists. exists x. split; [by apply list_elem_of_In|auto].
Qed.
Lemma endpoint_name_ok name : bad_endpoint_name name = false -> path_without control_character name.
Proof.
  unfold bad_endpoint_name. intros H. apply orb_false_iff in H as [H He]. apply orb_false_iff in H as [Hs Hl]. apply negb_false_iff, Z.eqb_eq in Hs. apply Z.ltb_ge in Hl.
  split; [by apply first_slash|]. split; [unfold vsize in Hl; lia|]. eapply not_existsb; [|exact He]. intros c [H| ->]; [|done]. by rewrite (proj2 (Z.leb_le _ _) H).
Qed.
Lemma topic_names_ok names : forallb valid_name names = true -> Forall (path_without blank_character) names.
Proof.
  intros H. apply Forall_forall. intros name Hn. rewrite forallb_forall in H. apply list_elem_of_In, H in Hn. unfold valid_name in Hn. apply andb_true_iff in Hn as [Hn He].
  apply andb_true_iff in Hn as [Hn Hl%Z.leb_le]. apply andb_true_iff in Hn as [_ Hs%Z.eqb_eq]. apply negb_true_iff in He.
  split; [by apply first_slash|]. split; [unfold vsize in Hl; lia|]. eapply not_existsb; [|exact He]. unfold blank_character. intros c. rewrite !elem_of_cons, elem_of_nil. by intros [->|[->|[->|[->|[]]]]].
Qed.
Lemma check_options_accepts o o' : wf_options o -> check_options o = inr o' -> accepted_options o.
Proof.
  intros [We Wc [Wt Wf] [Wr Wi] (P1 & P2 & P3)] H. unfold check_options in H. cbv zeta in H.
  destruct (_ || _ || _) eqn:Eports in H; [done|]. destruct (_ && _) eqn:Eloop in H; [done|]. destruct (_ || _ || _) eqn:Emany in H; [done|].
  destruct (forallb (fun r => valid_name (fst r)) (op_topic_rates o)) eqn:E1; [|done]. destruct (forallb valid_name (op_fresh_start_topics o)) eqn:E2; [|done].
  destruct (forallb valid_name (op_remote_topics o)) eqn:E3; [|done]. cbn [negb] in H. destruct (Z.eqb_spec (ValidateTopicExposurePolicy (topic_policy o)) 0) as [Ep|]; [|done].
  assert (E1' : forallb valid_name (map fst (op_topic_rates o)) = true) by (rewrite forallb_forall in *; intros n [r [<- Hr]]%in_map_iff; by apply E1).
  apply orb_false_iff in Emany as [Emany M3%Z.ltb_ge]. apply orb_false_iff in Emany as [M1%Z.ltb_ge M2%Z.ltb_ge].
  apply orb_false_iff in Eports as [Eports Q3%Z.eqb_neq]. apply orb_false_iff in Eports as [Q1%Z.eqb_neq Q2%Z.eqb_neq].
  unfold ValidateTopicExposurePolicy in Ep. cbn [topic_policy xp_allow_prefixes xp_exclude_prefixes] in Ep.
  destruct (Z.eqb_spec (check_list (op_allow_prefixes o)) 0) as [R1|]; [|done]. cbn [negb] in Ep. apply check_list_zero in R1 as (R1 & R1' & R1''), Ep as (R2 & R2' & R2'').
  constructor; [|exact Wc|..].
  - intros e. destruct (We e) as [W1 W2]. split; [done|]. eapply Forall_impl; [exact W2|apply endpoint_name_ok].
  - intros l. rewrite !elem_of_cons, elem_of_nil. intros [->|[->|[->|[]]]]; split_and!; auto using topic_names_ok; rewrite ?length_map; lia.
  - intros l. rewrite !elem_of_cons, elem_of_nil. intros [->|[->|[]]]; split_and!; auto.
  - done.
  - split; [by rewrite !Forall_cons, Forall_nil|]. apply NoDup_cons. split; [set_solver|]. apply NoDup_cons. split; [set_solver|apply NoDup_singleton].
  - intros Hl Hn. rewrite Hl, Hn in Eloop. done.
Qed.
(** C28: What a gateway exposes and whom it grants access is exactly what its command line says: the endpoint names
    and the hosts of every list are the values given to the option of that list, in order, and no other option adds
    to it, a rate or a fresh-start setting grants nothing.  In an accepted command line every list is free of
    duplicates (the allowed and the excluded prefixes even of rules that differ only in a trailing slash);
    the names of Parameters, services and actions are absolute paths of at most 240 characters without blanks and control
    characters, those of remote, fresh-start and rate Topics absolute paths of at most 240 characters without blanks, tabs and line
    breaks, at most 64 of each; the prefixes are well formed and at most 64 in each list; every permission has at most 32 hosts,
    each a nonzero identity of 16 bytes (and the text that the gateway prints for a host is read back as that host); rates are in
    range, the three ports valid and different, and the loopback interface is only allowed together with the name of an interface. *)
Theorem command_line_exact args o : Parse args = inr o ->
  let l := option_pairs args in
  (forall e, endpoints_of e o = given (KEndpoint e) l) /\
  (forall c, map inr (clients_of c o) = map ClientHost (given (KClient c) l)) /\
  op_remote_topics o = given KRemoteTopic l /\ op_fresh_start_topics o = given KFreshStart l /\
  op_allow_prefixes o = given KAllowPrefix l /\ op_exclude_prefixes o = given KExcludePrefix l /\
  accepted_options o /\ (forall h, client_host h -> ClientHost (Hex h) = inr h).
Proof.
  intros H l. apply parse_spec in H as [Ha Hc]. fold l in Ha.
  assert (Ht : forall k0 proj, (forall k value a b, apply_option k value a = inr b -> proj b = proj a ++ (if bool_decide (k = k0) then [value] else [])) -> proj default_options = [] -> proj o = given k0 l).
  { intros k0 proj Hp H0. rewrite (given_collects proj k0 id Hp _ _ _ Ha), H0. cbn. apply map_id. }
  split_and!; try (apply Ht; [|done]; intros k value a b E; by apply (topics_apply k value a b E)).
  - intros e. apply Ht; [|by destruct e]. intros k value a b. apply endpoints_apply.
  - intros c. rewrite (given_collects (fun o => map inr (clients_of c o)) (KClient c) ClientHost (fun k value a b E => clients_apply k value a b c E) _ _ _ Ha). by destruct c.
  - eapply check_options_accepts; [|exact Hc]. by eapply wf_apply_options; [apply wf_default|].
  - apply hex_roundtrip.
Qed.
End Rates.
Lemma command_line_exact_witness :
  let args := map text ["--remote-parameter"; "/arm/gain"; "--parameter-get-client"; "0123456789abcdef0123456789ABCDEF"; "--interface"; "lo"; "--allow-loopback"; "--topic-allow-prefix"; "/arm"]%string in
  exists o, Parse (Rate := Z) (fun _ => None) (fun _ => true) args = inr o /\ op_remote_parameters o = [text "/arm/gain"] /\ op_parameter_set_clients o = [] /\ accepted_options (fun _ : Z => true) o.
Proof.
  intros args. assert (H : exists o, Parse (Rate := Z) (fun _ => None) (fun _ => true) args = inr o) by (vm_compute; by eexists).
  destruct H as [o Ho]. exists o. destruct (command_line_exact _ _ args o Ho) as (H1 & H2 & _ & _ & _ & _ & H3 & _). split; [exact Ho|]. split; [exact (H1 RemoteParameter)|]. split; [|exact H3].
  specialize (H2 ParameterSetClient). apply map_eq_nil with (f := inr (A := ParseError)). exact H2.
Defined.
