(* ===== verification/GatewayStart.v ===== *)
(** * Starting a gateway generation

    [Config] of [gateway_support.hpp] builds the configuration of a control node from the command
    line, the [start] hook of [gateway/src/main.cpp] starts a node with it: [ControlNode::Start],
    which starts [TopicDataPlane::Start] and [PeerDiscovery::Start].

    What the system calls answer is in [PlaneAnswers] and [NodeAnswers]: error numbers in the order
    of the calls, 0 for success and behind the end of a list.  Rates are a parameter, as in
    [GatewayOptions]. *)
From Stdlib Require Import String.
From S2P Require Import Prelude Wire NetTypes Compatibility DiscoveryProtocol SystemScope PeerDiscovery TypeDescriptor LocalMetadata ControlNode GatewayNetwork GatewayOptions.

Section Starting.
Context {Rate : Type} (rate_in_range : Rate -> bool) (default_rate : Rate).
Arguments Options : clear implicits.

(** ** Configuration *)
Record TopicConfig := {
  tf_enabled : bool; tf_port : Z; tf_max_hz : Rate; tf_rate_limits : list (list Z * Rate); tf_local_types : list (list Z * TypeDescriptor);
  tf_max_routes : Z; tf_max_proxies : Z; tf_socket_buffer_bytes : Z; tf_receive_only : bool; tf_receive_port : option Z; tf_fresh_start_topics : list (list Z)
}.
Record ControlConfig := {
  cc_topics : TopicConfig;
  cc_discovery : DiscoveryConfig;
  cc_metadata : MetadataConfig;
  cc_metadata_interval : Z;
  cc_connect_timeout : Z;
  cc_reconnect_interval : Z;
  cc_diagnostics_enabled : bool;
  cc_parameter_get_clients : list HostIdentity;
  cc_parameter_set_clients : list HostIdentity;
  cc_service_call_clients : list HostIdentity;
  cc_action_goal_clients : list HostIdentity;
  cc_action_cancel_clients : list HostIdentity;
  cc_descriptor_query_clients : list HostIdentity;
  cc_topic_observer_enabled : bool
}.
Definition cc_set_discovery (d : DiscoveryConfig) (c : ControlConfig) : ControlConfig :=
  {| cc_topics := cc_topics c; cc_discovery := d; cc_metadata := cc_metadata c; cc_metadata_interval :=
     cc_metadata_interval c; cc_connect_timeout := cc_connect_timeout c; cc_reconnect_interval :=
     cc_reconnect_interval c; cc_diagnostics_enabled := cc_diagnostics_enabled c; cc_parameter_get_clients :=
     cc_parameter_get_clients c; cc_parameter_set_clients := cc_parameter_set_clients c; cc_service_call_clients :=
     cc_service_call_clients c; cc_action_goal_clients := cc_action_goal_clients c; cc_action_cancel_clients :=
     cc_action_cancel_clients c; cc_descriptor_query_clients := cc_descriptor_query_clients c;
     cc_topic_observer_enabled := cc_topic_observer_enabled c |}.
Definition cc_set_metadata (m : MetadataConfig) (c : ControlConfig) : ControlConfig :=
  {| cc_topics := cc_topics c; cc_discovery := cc_discovery c; cc_metadata := m; cc_metadata_interval :=
     cc_metadata_interval c; cc_connect_timeout := cc_connect_timeout c; cc_reconnect_interval :=
     cc_reconnect_interval c; cc_diagnostics_enabled := cc_diagnostics_enabled c; cc_parameter_get_clients :=
     cc_parameter_get_clients c; cc_parameter_set_clients := cc_parameter_set_clients c; cc_service_call_clients :=
     cc_service_call_clients c; cc_action_goal_clients := cc_action_goal_clients c; cc_action_cancel_clients :=
     cc_action_cancel_clients c; cc_descriptor_query_clients := cc_descriptor_query_clients c;
     cc_topic_observer_enabled := cc_topic_observer_enabled c |}.
(** [DiscoveryConfig] with its defaults. *)
Definition discovery_config (address : list Z) (port metadata_port : Z) (host boot : HostIdentity) : DiscoveryConfig :=
  {| dc_host := host; dc_boot_id := boot; dc_profile := {| pf_framework := default_framework; pf_network := default_network; pf_capabilities := Capability.DISCOVERY |};
     dc_compatibility_policy := CompatibilityPolicy.NETWORK_PROTOCOL; dc_interface_address := address; dc_multicast_group := text "239.255.75.67";
     dc_port := port; dc_metadata_port := metadata_port; dc_announce_interval := 1000; dc_peer_timeout := 4000; dc_metadata_retry := 200; dc_max_peers := DISCOVERY_MAX_PEERS |}.
Definition Config (o : Options Rate) (nic : Selection) : ControlConfig :=
  let topics := xp_enabled (topic_policy o) && negb (op_allow_prefixes o =?? []) in
  {| cc_topics :=
       {| tf_enabled := topics || negb (op_remote_topics o =?? []); tf_port := op_topic o; tf_max_hz := default_rate; tf_rate_limits := op_topic_rates o; tf_local_types := [];
          tf_max_routes := 64; tf_max_proxies := 32; tf_socket_buffer_bytes := 65536; tf_receive_only := false; tf_receive_port := None; tf_fresh_start_topics := op_fresh_start_topics o |};
     cc_discovery := discovery_config (sl_address nic) (op_discovery o) (op_control o) no_host_id no_host_id;
     cc_metadata :=
       {| mc_remote_topics := op_remote_topics o; mc_remote_actions := op_remote_actions o; mc_host := no_host_id; mc_boot_id := no_host_id;
          mc_remote_services := op_remote_services o; mc_remote_parameters := op_remote_parameters o; mc_groups := []; mc_runtime_pids := []; mc_topic_exposure := topic_policy o |};
     cc_metadata_interval := 250; cc_connect_timeout := 1000; cc_reconnect_interval := 250; cc_diagnostics_enabled := false;
     cc_parameter_get_clients := op_parameter_get_clients o; cc_parameter_set_clients := op_parameter_set_clients o; cc_service_call_clients := op_service_call_clients o;
     cc_action_goal_clients := op_action_goal_clients o; cc_action_cancel_clients := op_action_cancel_clients o; cc_descriptor_query_clients := op_descriptor_query_clients o;
     cc_topic_observer_enabled := topics |}.
Definition with_capabilities (caps : Z) (d : DiscoveryConfig) : DiscoveryConfig :=
  {| dc_host := dc_host d; dc_boot_id := dc_boot_id d; dc_profile := {| pf_framework := pf_framework (dc_profile d); pf_network := pf_network (dc_profile d); pf_capabilities := caps |};
     dc_compatibility_policy := dc_compatibility_policy d; dc_interface_address := dc_interface_address d; dc_multicast_group := dc_multicast_group d; dc_port := dc_port d;
     dc_metadata_port := dc_metadata_port d; dc_announce_interval := dc_announce_interval d; dc_peer_timeout := dc_peer_timeout d; dc_metadata_retry := dc_metadata_retry d; dc_max_peers := dc_max_peers d |}.
Definition with_metadata_port (port : Z) (d : DiscoveryConfig) : DiscoveryConfig :=
  {| dc_host := dc_host d; dc_boot_id := dc_boot_id d; dc_profile := dc_profile d;
     dc_compatibility_policy := dc_compatibility_policy d; dc_interface_address := dc_interface_address d; dc_multicast_group := dc_multicast_group d; dc_port := dc_port d;
     dc_metadata_port := port; dc_announce_interval := dc_announce_interval d; dc_peer_timeout := dc_peer_timeout d; dc_metadata_retry := dc_metadata_retry d; dc_max_peers := dc_max_peers d |}.
Definition with_hosts (host boot : HostIdentity) (d : DiscoveryConfig) : DiscoveryConfig :=
  {| dc_host := host; dc_boot_id := boot; dc_profile := dc_profile d;
     dc_compatibility_policy := dc_compatibility_policy d; dc_interface_address := dc_interface_address d; dc_multicast_group := dc_multicast_group d; dc_port := dc_port d;
     dc_metadata_port := dc_metadata_port d; dc_announce_interval := dc_announce_interval d; dc_peer_timeout := dc_peer_timeout d; dc_metadata_retry := dc_metadata_retry d; dc_max_peers := dc_max_peers d |}.

(** ** System calls *)
(** Calls in order, with what each does when it succeeds; a failing one runs [fail]. *)
Fixpoint run_calls {A} (fail : A -> A) (actions : list (A -> A)) (errnos : list Z) (s : A) : Z * A :=
  match actions with
  | [] => (0, s)
  | action :: actions => let errno := hd 0 errnos in if errno =? 0 then run_calls fail actions (tl errnos) (action s) else (- errno, fail s)
  end.

(** ** The Topic data plane *)
Record PlaneProcess := {
  pp_worker : bool;
  pp_running : bool;
  pp_fd : bool;
  pp_wake : bool;
  pp_proxies : Z;
  pp_self : RemoteRuntimeIdentity
}.
Definition pp_open_fd (p : PlaneProcess) : PlaneProcess :=
  {| pp_worker := pp_worker p; pp_running := pp_running p; pp_fd := true; pp_wake := pp_wake p; pp_proxies :=
     pp_proxies p; pp_self := pp_self p |}.
Definition pp_open_wake (p : PlaneProcess) : PlaneProcess :=
  {| pp_worker := pp_worker p; pp_running := pp_running p; pp_fd := pp_fd p; pp_wake := true; pp_proxies := pp_proxies
     p; pp_self := pp_self p |}.
Definition pp_close (p : PlaneProcess) : PlaneProcess :=
  {| pp_worker := pp_worker p; pp_running := pp_running p; pp_fd := false; pp_wake := false; pp_proxies := pp_proxies
     p; pp_self := pp_self p |}.
Definition pp_set_self (self : RemoteRuntimeIdentity) (p : PlaneProcess) : PlaneProcess :=
  {| pp_worker := pp_worker p; pp_running := pp_running p; pp_fd := pp_fd p; pp_wake := pp_wake p; pp_proxies :=
     pp_proxies p; pp_self := self |}.
Definition pp_run (p : PlaneProcess) : PlaneProcess :=
  {| pp_worker := true; pp_running := true; pp_fd := pp_fd p; pp_wake := pp_wake p; pp_proxies := pp_proxies p;
     pp_self := pp_self p |}.
Definition pp_not_running (p : PlaneProcess) : PlaneProcess :=
  {| pp_worker := pp_worker p; pp_running := false; pp_fd := pp_fd p; pp_wake := pp_wake p; pp_proxies := pp_proxies
     p; pp_self := pp_self p |}.
Definition pp_stopped (p : PlaneProcess) : PlaneProcess :=
  {| pp_worker := false; pp_running := false; pp_fd := pp_fd p; pp_wake := pp_wake p; pp_proxies := pp_proxies p;
     pp_self := pp_self p |}.
Definition absolute_name (name : list Z) : bool := Text name 240 && (first_char name =? SLASH).
(** Names, each against the earlier ones. *)
Fixpoint distinct_names (earlier names : list (list Z)) : bool :=
  match names with
  | [] => true
  | name :: rest => absolute_name name && negb (bool_decide (name ∈ earlier)) && distinct_names (earlier ++ [name]) rest
  end.
Fixpoint distinct_bindings (earlier : list (list Z)) (types : list (list Z * TypeDescriptor)) : bool :=
  match types with [] => true | (name, _) :: rest => negb (bool_decide (name ∈ earlier)) && distinct_bindings (earlier ++ [name]) rest end.
Definition within (a b x : Z) : bool := (a <=? x) && (x <=? b).
(** The configuration that [TopicDataPlane::Start] accepts. *)
Definition plane_config_ok (config : TopicConfig) (mc : MetadataConfig) : bool :=
  negb (negb (tf_receive_only config) && match tf_receive_port config with Some p => negb (p =? tf_port config) | None => false end) &&
  tf_enabled config && negb (tf_port config =? 0) && rate_in_range (tf_max_hz config) && within 1 64 (tf_max_routes config) && within 1 64 (tf_max_proxies config) &&
  (Z.of_nat (length (tf_local_types config)) <=? 64) && (Z.of_nat (length (tf_rate_limits config)) <=? 64) && (Z.of_nat (length (tf_fresh_start_topics config)) <=? 64) &&
  (Z.of_nat (length (mc_remote_topics mc)) <=? 64) && within 4096 (1024 * 1024) (tf_socket_buffer_bytes config) &&
  distinct_names [] (mc_remote_topics mc) && distinct_names [] (tf_fresh_start_topics config) &&
  forallb (fun r => absolute_name (fst r) && rate_in_range (snd r)) (tf_rate_limits config) &&
  forallb (fun t => absolute_name (fst t) && match ParameterWireType (snd t) with Ok _ => true | Err _ => false end) (tf_local_types config) &&
  distinct_bindings [] (tf_local_types config).
(** [ta_socket]: socket and its options; [ta_bind]: bind, getsockname, eventfd; [ta_thread]: the worker starts. *)
Record PlaneAnswers := { ta_socket : list Z; ta_bind : list Z; ta_thread : bool }.
Definition StartPlane (config : TopicConfig) (dc : DiscoveryConfig) (mc : MetadataConfig) (self : RemoteRuntimeIdentity) (a : PlaneAnswers) (p : PlaneProcess) : Z * PlaneProcess :=
  if pp_worker p then (- EBUSY, p)
  else if negb (plane_config_ok config mc) then (- EINVAL, p)
  else if negb (pp_proxies p =? 0) && (negb (pp_self p =?? self) || (tf_max_proxies config <? pp_proxies p)) then (- EINVAL, p)
  else
    let (code, p) := run_calls pp_close [pp_open_fd; id; id; id] (ta_socket a) (pp_set_self self p) in
    if negb (code =? 0) then (code, p)
    else match inet_pton (dc_interface_address dc) with
    | None => (- EINVAL, pp_close p)
    | Some _ =>
        let (code, p) := run_calls pp_close [id; id; pp_open_wake] (ta_bind a) p in
        if negb (code =? 0) then (code, p)
        else if ta_thread a then (0, pp_run p) else (- EAGAIN, pp_close (pp_not_running p))
    end.
Definition StopPlane (p : PlaneProcess) : PlaneProcess := pp_close (pp_stopped p).

(** ** The control node *)
Record NodeProcess := {
  np_io : bool;
  np_backend : bool;
  np_listener : bool;
  np_wake : bool;
  np_topics : PlaneProcess;
  np_discovery : Impl;
  np_running : bool;
  np_error : Z;
  np_session : Z;
  np_config : option ControlConfig
}.
Definition np_set_config (c : ControlConfig) (s : NodeProcess) : NodeProcess :=
  {| np_io := np_io s; np_backend := np_backend s; np_listener := np_listener s; np_wake := np_wake s; np_topics :=
     np_topics s; np_discovery := np_discovery s; np_running := np_running s; np_error := np_error s; np_session :=
     np_session s; np_config := Some c |}.
Definition np_open_listener (s : NodeProcess) : NodeProcess :=
  {| np_io := np_io s; np_backend := np_backend s; np_listener := true; np_wake := np_wake s; np_topics := np_topics
     s; np_discovery := np_discovery s; np_running := np_running s; np_error := np_error s; np_session := np_session
     s; np_config := np_config s |}.
Definition np_open_wake (s : NodeProcess) : NodeProcess :=
  {| np_io := np_io s; np_backend := np_backend s; np_listener := np_listener s; np_wake := true; np_topics :=
     np_topics s; np_discovery := np_discovery s; np_running := np_running s; np_error := np_error s; np_session :=
     np_session s; np_config := np_config s |}.
Definition np_close (s : NodeProcess) : NodeProcess :=
  {| np_io := np_io s; np_backend := np_backend s; np_listener := false; np_wake := false; np_topics := np_topics s;
     np_discovery := np_discovery s; np_running := np_running s; np_error := np_error s; np_session := np_session s;
     np_config := np_config s |}.
Definition np_set_topics (p : PlaneProcess) (s : NodeProcess) : NodeProcess :=
  {| np_io := np_io s; np_backend := np_backend s; np_listener := np_listener s; np_wake := np_wake s; np_topics := p;
     np_discovery := np_discovery s; np_running := np_running s; np_error := np_error s; np_session := np_session s;
     np_config := np_config s |}.
Definition np_set_discovery (d : Impl) (s : NodeProcess) : NodeProcess :=
  {| np_io := np_io s; np_backend := np_backend s; np_listener := np_listener s; np_wake := np_wake s; np_topics :=
     np_topics s; np_discovery := d; np_running := np_running s; np_error := np_error s; np_session := np_session s;
     np_config := np_config s |}.
Definition np_begin (session : Z) (s : NodeProcess) : NodeProcess :=
  {| np_io := np_io s; np_backend := np_backend s; np_listener := np_listener s; np_wake := np_wake s; np_topics :=
     np_topics s; np_discovery := np_discovery s; np_running := true; np_error := 0; np_session := session; np_config
     := np_config s |}.
Definition np_threads (s : NodeProcess) : NodeProcess :=
  {| np_io := true; np_backend := true; np_listener := np_listener s; np_wake := np_wake s; np_topics := np_topics s;
     np_discovery := np_discovery s; np_running := np_running s; np_error := np_error s; np_session := np_session s;
     np_config := np_config s |}.
Definition np_end (s : NodeProcess) : NodeProcess :=
  {| np_io := false; np_backend := false; np_listener := np_listener s; np_wake := np_wake s; np_topics := np_topics
     s; np_discovery := np_discovery s; np_running := false; np_error := np_error s; np_session := np_session s;
     np_config := np_config s |}.
Definition Supported : Z :=
  Z.lor Capability.DISCOVERY (Z.lor Capability.REMOTE_PARAMETER (Z.lor Capability.REMOTE_SERVICE (Z.lor Capability.REMOTE_ACTION (Z.lor Capability.TARGET_ENDPOINT
    (Z.lor Capability.TARGET_HOST (Z.lor Capability.TARGET_APPLICATION (Z.lor Capability.TARGET_GROUP Capability.TARGET_ALL))))))).
Definition clients_ok (host : HostIdentity) (hosts : list HostIdentity) : bool := forallb (fun h => ValidHost h && negb (h =?? host)) hosts.
(** [na_identity]: the process and its start, [None] when it cannot be read; [na_listener]: socket; [na_listen]: setsockopt,
    bind, listen, getsockname; [na_port]: the bound port; [na_eventfd]; the answers for the two parts; [na_threads]: both threads start. *)
Record NodeAnswers := {
  na_pid : Z; na_identity : option Z; na_listener : Z; na_listen : list Z; na_port : Z; na_eventfd : Z; na_plane : PlaneAnswers;
  na_random : list (Z * Z); na_discovery : list Z; na_discovery_thread : Z; na_threads : bool
}.
Definition intervals_ok (c : ControlConfig) : bool := within 20 60000 (cc_metadata_interval c) && within 20 60000 (cc_connect_timeout c) && within 20 60000 (cc_reconnect_interval c).
Definition client_lists (c : ControlConfig) : list (list HostIdentity) :=
  [cc_descriptor_query_clients c; cc_parameter_get_clients c; cc_parameter_set_clients c; cc_service_call_clients c; cc_action_goal_clients c; cc_action_cancel_clients c].
(** [s.config] behind the checks of the clients. *)
Definition started_config (input : ControlConfig) : ControlConfig :=
  let caps := if tf_enabled (cc_topics input) then Z.lor Supported (Z.lor Capability.REMOTE_TOPIC Capability.TOPIC_ENDPOINT_SUBSCRIPTION) else Supported in
  let m := cc_metadata input in
  cc_set_metadata
    {| mc_remote_topics := mc_remote_topics m; mc_remote_actions := mc_remote_actions m; mc_host := dc_host (cc_discovery input); mc_boot_id := dc_boot_id (cc_discovery input);
       mc_remote_services := mc_remote_services m; mc_remote_parameters := mc_remote_parameters m; mc_groups := mc_groups m; mc_runtime_pids := mc_runtime_pids m; mc_topic_exposure := mc_topic_exposure m |}
    (cc_set_discovery (with_capabilities caps (cc_discovery input)) input).
Definition names_ok (m : MetadataConfig) : bool :=
  forallb absolute_name (mc_remote_parameters m) && forallb absolute_name (mc_remote_topics m) && forallb absolute_name (mc_remote_actions m) &&
  forallb absolute_name (mc_remote_services m) && forallb (fun g => Text g 128) (mc_groups m).
(** [fail] *)
Definition node_fail (s : NodeProcess) : NodeProcess := np_close (np_set_topics (StopPlane (np_topics s)) s).
(** The capabilities that discovery announces. *)
Definition announcing (c : ControlConfig) : ControlConfig :=
  let caps := pf_capabilities (dc_profile (cc_discovery c)) in
  let caps := if cc_diagnostics_enabled c then Z.lor caps Capability.NETWORK_DIAGNOSTICS else caps in
  let caps := if cc_topic_observer_enabled c || negb (cc_descriptor_query_clients c =?? []) then Z.lor caps Capability.TYPE_DESCRIPTOR_QUERY else caps in
  cc_set_discovery (with_capabilities caps (cc_discovery c)) c.
(** [Stop]: with its joins; the worker of discovery leaves its loop before it is joined. *)
Definition StopNode (s : NodeProcess) : NodeProcess :=
  let s := np_end s in
  let s := np_set_topics (StopPlane (np_topics s)) s in
  let d := stop_request (np_discovery s) in
  np_close (np_set_discovery (stop_finish (if bool_decide (is_Some (im_worker d)) then exit_worker d else d)) s).
(** From discovery on: it starts, then the threads. *)
Definition start_discovery (a : NodeAnswers) (c : ControlConfig) (s : NodeProcess) : option (Z * NodeProcess) :=
  let c := announcing c in
  let s := np_set_config c s in
  match Start (cc_discovery c) [] (na_random a) (na_discovery a) (na_discovery_thread a) (np_discovery s) with
  | None => None
  | Some (code, d) =>
      let s := np_set_discovery d s in
      Some (if negb (code =? 0) then (code, node_fail s)
            else
              let s := np_begin (im_session d) s in
              if na_threads a then (0, np_threads s) else (- EAGAIN, StopNode s))
  end.
(** From the sockets on; [c]: [s.config]. *)
Definition start_listener (a : NodeAnswers) (c : ControlConfig) (self : RemoteRuntimeIdentity) (s : NodeProcess) : option (Z * NodeProcess) :=
  let (code, s) := run_calls id [np_open_listener] [na_listener a] s in
  if negb (code =? 0) then Some (code, s)
  else
    let (code, s) := run_calls node_fail [id; id; id; id] (na_listen a) s in
    if negb (code =? 0) then Some (code, s)
    else
      let c := cc_set_discovery (with_metadata_port (na_port a) (cc_discovery c)) c in
      let s := np_set_config c s in
      let (code, s) := run_calls node_fail [np_open_wake] [na_eventfd a] s in
      if negb (code =? 0) then Some (code, s)
      else
        let (code, p) := if tf_enabled (cc_topics c) then StartPlane (cc_topics c) (cc_discovery c) (cc_metadata c) self (na_plane a) (np_topics s) else (0, np_topics s) in
        let s := np_set_topics p s in
        if negb (code =? 0) then Some (code, node_fail s) else start_discovery a c s.
(** [None]: [getrandom] has not answered yet. *)
Definition StartNode (input : ControlConfig) (a : NodeAnswers) (s : NodeProcess) : option (Z * NodeProcess) :=
  if np_io s || np_backend s then Some (- EBUSY, s)
  else if negb (intervals_ok input) then Some (- EINVAL, s)
  else if existsb (fun hosts => 32 <? Z.of_nat (length hosts)) (client_lists input) then Some (- EINVAL, s)
  else if negb (forallb (clients_ok (dc_host (cc_discovery input))) (client_lists input)) then Some (- EINVAL, s)
  else
    let c := started_config input in
    let s := np_set_config c s in
    let host := dc_host (cc_discovery input) in let boot := dc_boot_id (cc_discovery input) in
    match na_identity a with
    | None => Some (- EINVAL, s)
    | Some ticks =>
        let self := {| rt_host := host; rt_boot_id := boot; rt_pid := na_pid a; rt_process_start_ticks := ticks |} in
        if negb (ValidHost host) || negb (ValidHost boot) then Some (- EINVAL, s)
        else if negb (names_ok (cc_metadata c)) then Some (- EINVAL, s)
        else match inet_pton (dc_interface_address (cc_discovery input)) with
        | None => Some (- EINVAL, s)
        | Some _ => start_listener a c self s
        end
    end.
(** The part of the configuration that the running node reads. *)
Definition node_config (c : ControlConfig) : NodeConfig :=
  {| nc_discovery := cc_discovery c; nc_topics_enabled := tf_enabled (cc_topics c); nc_diagnostics_enabled := cc_diagnostics_enabled c; nc_topic_observer_enabled := cc_topic_observer_enabled c;
     nc_parameter_get_clients := cc_parameter_get_clients c; nc_parameter_set_clients := cc_parameter_set_clients c; nc_service_call_clients := cc_service_call_clients c;
     nc_action_goal_clients := cc_action_goal_clients c; nc_action_cancel_clients := cc_action_cancel_clients c; nc_descriptor_query_clients := cc_descriptor_query_clients c;
     nc_connect_timeout := cc_connect_timeout c |}.
(** [probe k]: the answer of the [k]-th [Probe]: discovery, control stream and datagrams, Topics. *)
Definition Preflight (probe : nat -> Z) (c : ControlConfig) : Z :=
  if negb (probe 0%nat =? 0) then probe 0%nat
  else if negb (probe 1%nat =? 0) then probe 1%nat
  else if negb (probe 2%nat =? 0) then probe 2%nat
  else if tf_enabled (cc_topics c) then probe 3%nat else 0.
(** The [start] hook of [main]; [stopping]: whether a signal came. *)
Definition start_hook (o : Options Rate) (host boot : HostIdentity) (probe : nat -> Z) (stopping : bool) (a : NodeAnswers) (nic : Selection) (idle : NodeProcess) : option (Z * option NodeProcess) :=
  let config := Config o nic in
  let config := cc_set_discovery (with_hosts host boot (cc_discovery config)) config in
  if negb (Preflight probe config =? 0) then Some (Preflight probe config, None)
  else if stopping then Some (- ECANCELED, None)
  else match StartNode config a idle with
  | None => None
  | Some (code, s) => Some (if negb (code =? 0) then (code, None) else (0, Some s))
  end.

(** ** All or nothing *)
Definition run_all {A} (actions : list (A -> A)) (s : A) : A := foldl (fun s f => f s) s actions.
Lemma run_calls_spec {A} (fail : A -> A) actions : forall errnos s code s', run_calls fail actions errnos s = (code, s') ->
  (code = 0 /\ s' = run_all actions s) \/ (code <> 0 /\ exists n, (n < length actions)%nat /\ s' = fail (run_all (take n actions) s)).
Proof.
  induction actions as [|f actions IH]; intros errnos s code s' H; cbn [run_calls] in H; [injection H as <- <-; by left|].
  destruct (Z.eqb_spec (hd 0 errnos) 0) as [E|E]; [|injection H as <- <-; right; split; [lia|exists 0%nat; cbn; split; [lia|done]]].
  destruct (IH _ _ _ _ H) as [[? ?]|[? (n & ? & ?)]]; [by left|]. right. split; [done|]. exists (S n). cbn. split; [lia|done].
Qed.
Lemma run_calls_ok {A} (fail : A -> A) actions : forall errnos s, Forall (eq 0) errnos -> run_calls fail actions errnos s = (0, run_all actions s).
Proof.
  induction actions as [|f actions IH]; intros errnos s H; cbn [run_calls]; [done|]. destruct H as [|? errnos <- H]; cbn [hd tl]; rewrite Z.eqb_refl; [by apply IH|by apply IH].
Qed.
Lemma start_calls_run actions errnos s : start_calls actions errnos s = run_calls CloseSockets actions errnos s.
Proof. revert errnos s. induction actions as [|f actions IH]; intros errnos s; cbn; [done|]. destruct (hd 0 errnos =? 0); [apply IH|done]. Qed.
(** Nothing of a part is open or running. *)
Definition plane_idle (p : PlaneProcess) : Prop := pp_worker p = false /\ pp_running p = false /\ pp_fd p = false /\ pp_wake p = false.
Definition discovery_idle (d : Impl) : Prop := im_worker d = None /\ im_running d = false /\ im_multicast d = false /\ im_unicast d = false /\ im_wake d = false.
Definition node_idle (s : NodeProcess) : Prop :=
  np_io s = false /\ np_backend s = false /\ np_running s = false /\ np_listener s = false /\ np_wake s = false /\ plane_idle (np_topics s) /\ discovery_idle (np_discovery s).
(** Everything is. *)
Definition plane_up (p : PlaneProcess) : Prop := pp_worker p = true /\ pp_running p = true /\ pp_fd p = true /\ pp_wake p = true.
Definition discovery_up (d : Impl) : Prop := is_Some (im_worker d) /\ im_running d = true /\ im_multicast d = true /\ im_unicast d = true /\ im_wake d = true /\ im_session d <> 0.
Definition node_up (input : ControlConfig) (s : NodeProcess) : Prop :=
  np_io s = true /\ np_backend s = true /\ np_running s = true /\ np_listener s = true /\ np_wake s = true /\
  (if tf_enabled (cc_topics input) then plane_up (np_topics s) else plane_idle (np_topics s)) /\ discovery_up (np_discovery s) /\
  np_session s = im_session (np_discovery s) /\ np_config s = Some (announcing (cc_set_discovery (with_metadata_port (dc_metadata_port (im_config (np_discovery s))) (cc_discovery (started_config input))) (started_config input))).
Lemma start_plane_spec config dc mc self a p code p' : plane_idle p -> StartPlane config dc mc self a p = (code, p') ->
  (code = 0 /\ plane_up p') \/ (code <> 0 /\ plane_idle p').
Proof.
  intros (H1 & H2 & H3 & H4) H. unfold StartPlane in H. rewrite H1 in H. case_check; [injection H as <- <-; by right|]. case_check; [injection H as <- <-; by right|].
  destruct (run_calls pp_close _ (ta_socket a) _) as [c1 p1] eqn:E1. apply run_calls_spec in E1 as [[-> ->]|[Hc (n & _ & ->)]]; cbn [negb Z.eqb] in H.
  2:{ destruct (Z.eqb_spec c1 0); [done|]. injection H as <- <-. right. split; [done|]. do 5 (destruct n as [|n]; [done|]). done. }
  destruct (inet_pton _); [|injection H as <- <-; by right]. destruct (run_calls pp_close _ (ta_bind a) _) as [c2 p2] eqn:E2. apply run_calls_spec in E2 as [[-> ->]|[Hc (n & _ & ->)]]; cbn [negb Z.eqb] in H.
  2:{ destruct (Z.eqb_spec c2 0); [done|]. injection H as <- <-. right. split; [done|]. do 4 (destruct n as [|n]; [done|]). done. }
  destruct (ta_thread a); injection H as <- <-; [by left|by right].
Qed.
Lemma discovery_start_spec config random errnos thread d code d' : discovery_idle d -> Start config [] random errnos thread d = Some (code, d') ->
  (code = 0 /\ discovery_up d' /\ im_config d' = config) \/ (code <> 0 /\ discovery_idle d').
Proof.
  intros (H1 & H2 & H3 & H4 & H5) H. unfold Start in H. rewrite bool_decide_eq_false_2 in H by (rewrite H1; by intros [? [=]]).
  assert (Hidle : discovery_idle d) by (by repeat split).
  destruct (inet_pton (dc_interface_address config)) as [interface|]; [|apply (inj Some) in H; injection H as <- <-; by right].
  destruct (inet_pton (dc_multicast_group config)) as [group|]; [|apply (inj Some) in H; injection H as <- <-; by right].
  case_check; [apply (inj Some) in H; injection H as <- <-; by right|].
  change (EncodeDiscoveryMetadata []) with (@Ok (list Z) (wU 0 2)) in H. destruct (draw_session random) as [[got session]|]; [|done]. case_check.
  { apply (inj Some) in H; injection H as <- <-; right. split; [|done]. destruct (Z.ltb_spec got 0); [lia|done]. }
  bool_to_prop. rewrite start_calls_run in H. destruct (run_calls CloseSockets _ _ _) as [c1 d1] eqn:E1. apply run_calls_spec in E1 as [[-> ->]|[Hc (n & _ & ->)]].
  2:{ destruct (Z.eqb_spec c1 0); [done|]. apply (inj Some) in H; injection H as <- <-. right. split; [done|]. do 12 (destruct n as [|n]; [by repeat split|]). by repeat split. }
  cbn [Z.eqb] in H. unfold start_worker in H. destruct (Z.eqb_spec thread 0); apply (inj Some) in H; injection H as <- <-; [left|right].
  - split; [done|]. split; [|done]. split; [by eexists|]. by repeat split.
  - split; [lia|]. by repeat split.
Qed.
Lemma plane_stopped p : plane_idle (StopPlane p).
Proof. by repeat split. Qed.
Lemma node_failed s : np_io s = false -> np_backend s = false -> np_running s = false -> discovery_idle (np_discovery s) -> node_idle (node_fail s).
Proof. intros ? ? ? (? & ? & ? & ? & ?). by repeat split. Qed.
Lemma node_stopped s : node_idle (StopNode s).
Proof. unfold StopNode. cbn zeta. repeat split; cbn; case_bool_decide; done. Qed.
Lemma start_discovery_spec a c s code s' : np_io s = false -> np_backend s = false -> np_running s = false -> discovery_idle (np_discovery s) -> start_discovery a c s = Some (code, s') ->
  (code = 0 /\ np_io s' = true /\ np_backend s' = true /\ np_running s' = true /\ np_listener s' = np_listener s /\ np_wake s' = np_wake s /\ np_topics s' = np_topics s /\
   discovery_up (np_discovery s') /\ np_session s' = im_session (np_discovery s') /\ np_config s' = Some (announcing c) /\ im_config (np_discovery s') = cc_discovery (announcing c)) \/
  (code <> 0 /\ node_idle s').
Proof.
  intros H1 H2 H3 Hd H. unfold start_discovery in H. destruct (Start _ _ _ _ _ _) as [[c1 d1]|] eqn:E; [|done]. apply discovery_start_spec in E as [(-> & Hu & Hc)|(Hc & Hi)]; [| |done].
  - cbn [Z.eqb negb] in H. destruct (na_threads a); apply (inj Some) in H; injection H as <- <-; [left|right; split; [done|apply node_stopped]]. destruct Hu as (? & ? & ? & ? & ? & ?). by repeat split.
  - destruct (Z.eqb_spec c1 0); [done|]. apply (inj Some) in H. injection H as <- <-. right. split; [done|]. by apply node_failed.
Qed.
(** Calls that leave the parts alone. *)
Definition same_parts (s s' : NodeProcess) : Prop :=
  np_io s' = np_io s /\ np_backend s' = np_backend s /\ np_running s' = np_running s /\ np_topics s' = np_topics s /\ np_discovery s' = np_discovery s.
Lemma same_parts_failed s s' : node_idle s -> same_parts s s' -> node_idle (node_fail s').
Proof. intros (H1 & H2 & H3 & H4 & H5 & H6 & H7) (E1 & E2 & E3 & E4 & E5). apply node_failed; congruence. Qed.
Lemma start_listener_spec a input self s code s' : node_idle s -> start_listener a (started_config input) self s = Some (code, s') -> (code = 0 /\ node_up input s') \/ (code <> 0 /\ node_idle s').
Proof.
  intros Hs H. unfold start_listener in H.
  destruct (run_calls id _ _ s) as [c1 s1] eqn:E1. apply run_calls_spec in E1 as [[-> ->]|[Hc (n & Hn & ->)]].
  2:{ destruct (Z.eqb_spec c1 0); [done|]. apply (inj Some) in H; injection H as <- <-. right. split; [done|]. cbn in Hn. by destruct n; [|lia]. }
  cbn [negb Z.eqb run_all foldl] in H. destruct (run_calls node_fail _ (na_listen a) _) as [c2 s2] eqn:E2. apply run_calls_spec in E2 as [[-> ->]|[Hc (n & Hn & ->)]].
  2:{ destruct (Z.eqb_spec c2 0); [done|]. apply (inj Some) in H; injection H as <- <-. right. split; [done|]. apply (same_parts_failed s); [done|]. do 5 (destruct n as [|n]; [done|]). done. }
  cbn [negb Z.eqb run_all foldl] in H. set (c := cc_set_discovery (with_metadata_port _ _) _) in H.
  destruct (run_calls node_fail _ [na_eventfd a] _) as [c3 s3] eqn:E3. apply run_calls_spec in E3 as [[-> ->]|[Hc (n & Hn & ->)]].
  2:{ destruct (Z.eqb_spec c3 0); [done|]. apply (inj Some) in H; injection H as <- <-. right. split; [done|]. apply (same_parts_failed s); [done|]. do 2 (destruct n as [|n]; [done|]). done. }
  cbn [negb Z.eqb run_all foldl] in H. destruct (if tf_enabled _ then _ else _) as [c4 p] eqn:E4.
  assert (Hp : (c4 = 0 /\ if tf_enabled (cc_topics input) then plane_up p else plane_idle p) \/ c4 <> 0).
  { change (tf_enabled (cc_topics c)) with (tf_enabled (cc_topics input)) in E4. destruct (tf_enabled (cc_topics input)).
    - apply start_plane_spec in E4 as [[? ?]|[? ?]]; [by left|by right|apply Hs].
    - injection E4 as <- <-. left. split; [done|apply Hs]. }
  destruct Hp as [[-> Hp]|Hc]; cbn [negb Z.eqb] in H.
  2:{ destruct (Z.eqb_spec c4 0); [done|]. apply (inj Some) in H; injection H as <- <-. right. split; [done|]. destruct Hs as (H1 & H2 & H3 & H4 & H5 & H6 & H7). by apply node_failed. }
  destruct Hs as (H1 & H2 & H3 & H4 & H5 & H6 & H7). apply start_discovery_spec in H as [(-> & Hu)|[? ?]]; [left|by right|done..]. split; [done|].
  destruct Hu as (U1 & U2 & U3 & U4 & U5 & U6 & U7 & U8 & U9 & U10). unfold node_up. rewrite U6, U10. do 6 (split; [done|]). split; [done|]. by split.
Qed.
Lemma start_node_spec input a s code s' : node_idle s -> StartNode input a s = Some (code, s') -> (code = 0 /\ node_up input s') \/ (code <> 0 /\ node_idle s').
Proof.
  intros Hs H. unfold StartNode in H. pose proof Hs as (H1 & H2 & _). rewrite H1, H2 in H. cbn [orb] in H.
  repeat first [progress (case_check; [apply (inj Some) in H; injection H as <- <-; by right|])|destruct (na_identity a); [|apply (inj Some) in H; injection H as <- <-; by right]].
  destruct (inet_pton _); [|apply (inj Some) in H; injection H as <- <-; by right]. by eapply start_listener_spec in H.
Qed.
(** C33: Starting a control node is all or nothing: when [ControlNode::Start] returns 0, both threads run, the listener and the
    wake-up descriptor are open, discovery runs with its sockets and a session of its own, the Topic plane runs if the
    configuration enables it, and the configuration in force is the given one with the capabilities of these parts;
    when it returns an error, of its checks or of any system call at any point of the sequence, nothing is left open or
    running, so the node can be started again.  [None] is the wait for random bytes. *)
Theorem node_start_all_or_nothing input a s code s' : node_idle s -> StartNode input a s = Some (code, s') -> (code = 0 /\ node_up input s') \/ (code <> 0 /\ node_idle s').
Proof. apply start_node_spec. Qed.

(** ** From the command line to a running node *)
Lemma pton_bytes s : forall octets current r, bytes octets -> (forall c, current = Some c -> is_u8 c) -> pton s octets current = Some r -> bytes r.
Proof.
  induction s as [|ch s IH]; intros octets current r Ho Hc H; cbn [pton] in H.
  - destruct current as [c|]; [|done]. case_check; [|done]. apply (inj Some) in H as <-. apply bytes_app. split; [done|]. apply bytes_cons. split; [by apply Hc|constructor].
  - repeat (case_check; [..|]); try done; destruct current as [c|]; try done; repeat case_check; try done; (eapply IH; [| |exact H]); try done;
      try (apply bytes_app; split; [done|]; apply bytes_cons; split; [by apply Hc|constructor]); intros x [= <-]; bool_to_prop; try (pose proof (Hc _ eq_refl)); unfold is_u8, UINT8_MAX in *; lia.
Qed.
Lemma unicast_interface t lo : unicast_address t = Some lo -> exists a, inet_pton t = Some a /\ IN_MULTICAST a = false /\ (a =? INADDR_BROADCAST) = false.
Proof.
  unfold unicast_address. intros H. case_check; [done|]. destruct (inet_pton t) as [a|] eqn:E; [|done]. exists a. split; [done|]. case_check; [|done]. bool_to_prop.
  assert (Ha : 0 <= a). { unfold inet_pton in E. destruct (pton (c_str t) [] None) as [l|] eqn:El; [|done]. apply (inj Some) in E as <-. apply be_value_bound. eapply pton_bytes; [| |exact El]; [constructor|done]. }
  assert (Hr : 0 <= Z.shiftr a 28 < 14) by (split; [by apply Z.shiftr_nonneg|done]). split.
  - unfold IN_MULTICAST. apply Z.eqb_neq. intros Em. apply (f_equal (fun z => Z.shiftr z 28)) in Em. rewrite Z.shiftr_land in Em. change (Z.shiftr 0xf0000000 28) with (Z.ones 4) in Em.
    rewrite Z.land_ones, Z.mod_small in Em by lia. change (Z.shiftr 0xe0000000 28) with 14 in Em. lia.
  - apply Z.eqb_neq. intros ->. vm_compute in Hr. by destruct Hr as [_ ?].
Qed.
Lemma text_chars n name maximum : first_char name = SLASH -> n <= maximum -> vsize name <= n -> forallb (fun c => negb ((c <? 32) || (c =? 127))) name = true -> Text name maximum = true.
Proof.
  intros Hf Hm Hn Hc. unfold Text. rewrite Hc, bool_decide_eq_false_2 by (intros ->; done). cbn. rewrite andb_true_r. apply Z.leb_le. lia.
Qed.
Lemma endpoint_absolute name : bad_endpoint_name name = false -> absolute_name name = true.
Proof.
  unfold bad_endpoint_name, absolute_name. intros H. bool_to_prop. match goal with H : first_char _ = _ |- _ => rename H into Hf end.
  rewrite Hf, Z.eqb_refl, andb_true_r. apply (text_chars 240); [done|lia|done|]. apply forallb_forall. intros c Hc. match goal with H : existsb _ _ = false |- _ => rename H into Hx end.
  apply not_true_iff_false in Hx. apply negb_true_iff, orb_false_iff. split; [apply Z.ltb_ge|apply Z.eqb_neq]; destruct (Z.leb_spec c 32); try lia.
  all: try (exfalso; apply Hx, existsb_exists; exists c; split; [done|]; apply orb_true_iff; (left; apply Z.leb_le; lia) || (right; apply Z.eqb_eq; lia)).
  intros ->. apply Hx, existsb_exists. exists 127. split; [done|]. by apply orb_true_iff; right.
Qed.
Lemma distinct_names_ok names : forall earlier, Forall (fun n => absolute_name n = true) names -> NoDup (earlier ++ names) -> distinct_names earlier names = true.
Proof.
  induction names as [|name names IH]; intros earlier Ha Hn; cbn [distinct_names]; [done|]. apply Forall_cons in Ha as [-> Ha]. rewrite bool_decide_eq_false_2.
  - cbn. apply IH; [done|]. by rewrite <- app_assoc.
  - intros Hi. apply NoDup_app in Hn as (_ & Hd & _). apply (Hd name Hi). by left.
Qed.
(** The system calls of a start succeed. *)
Record answers_ok (a : NodeAnswers) (ticks session : Z) : Prop := {
  ak_identity : na_identity a = Some ticks;
  ak_listener : na_listener a = 0 /\ na_eventfd a = 0 /\ Forall (eq 0) (na_listen a);
  ak_plane : Forall (eq 0) (ta_socket (na_plane a)) /\ Forall (eq 0) (ta_bind (na_plane a)) /\ ta_thread (na_plane a) = true;
  ak_random : draw_session (na_random a) = Some (8, session) /\ session <> 0;
  ak_discovery : Forall (eq 0) (na_discovery a) /\ na_discovery_thread a = 0;
  ak_threads : na_threads a = true
}.
Lemma start_plane_ok config dc mc self a p interface : plane_idle p -> pp_proxies p = 0 -> plane_config_ok config mc = true -> inet_pton (dc_interface_address dc) = Some interface ->
  Forall (eq 0) (ta_socket a) -> Forall (eq 0) (ta_bind a) -> ta_thread a = true -> exists p', StartPlane config dc mc self a p = (0, p').
Proof.
  intros (H1 & _) Hp Hc Hi H2 H3 H4. unfold StartPlane. rewrite H1, Hc, Hp. cbn [negb Z.eqb andb]. rewrite run_calls_ok by done. cbn [negb Z.eqb]. rewrite Hi, run_calls_ok by done.
  cbn [negb Z.eqb]. rewrite H4. by eexists.
Qed.
Lemma discovery_start_ok config random errnos d interface group session : discovery_idle d -> inet_pton (dc_interface_address config) = Some interface -> inet_pton (dc_multicast_group config) = Some group ->
  valid_config config [] interface group = true -> draw_session random = Some (8, session) -> session <> 0 -> Forall (eq 0) errnos -> exists d', Start config [] random errnos 0 d = Some (0, d').
Proof.
  intros (H1 & _) Hi Hg Hv Hr Hs He. unfold Start. rewrite bool_decide_eq_false_2 by (rewrite H1; by intros [? [=]]). rewrite Hi, Hg, Hv. cbn [negb].
  change (EncodeDiscoveryMetadata []) with (@Ok (list Z) (wU 0 2)). cbn match. rewrite Hr. cbn match. destruct (Z.eqb_spec session 0); [done|]. cbn [Z.eqb negb orb].
  rewrite start_calls_run, run_calls_ok by done. cbn [Z.eqb]. by eexists.
Qed.
(** A configuration that passes the checks of the node and of its parts. *)
Record config_ok (c : ControlConfig) (interface group : Z) : Prop := {
  co_intervals : intervals_ok c = true;
  co_sizes : existsb (fun hosts => 32 <? Z.of_nat (length hosts)) (client_lists c) = false;
  co_clients : forallb (clients_ok (dc_host (cc_discovery c))) (client_lists c) = true;
  co_hosts : ValidHost (dc_host (cc_discovery c)) = true /\ ValidHost (dc_boot_id (cc_discovery c)) = true;
  co_names : names_ok (cc_metadata c) = true;
  co_interface : inet_pton (dc_interface_address (cc_discovery c)) = Some interface;
  co_group : inet_pton (dc_multicast_group (cc_discovery c)) = Some group;
  co_plane : tf_enabled (cc_topics c) = true -> plane_config_ok (cc_topics c) (cc_metadata c) = true;
  co_discovery : forall caps port, Z.land caps Capability.DISCOVERY <> 0 -> valid_config (with_capabilities caps (with_metadata_port port (cc_discovery c))) [] interface group = true
}.
Lemma lor_discovery caps x : Z.land caps Capability.DISCOVERY <> 0 -> Z.land (Z.lor caps x) Capability.DISCOVERY <> 0.
Proof. intros H. rewrite Z.land_lor_distr_l. intros E. apply Z.lor_eq_0_iff in E as [? _]. done. Qed.
Lemma announced_discovery c : Z.land (pf_capabilities (dc_profile (cc_discovery c))) Capability.DISCOVERY <> 0 ->
  exists caps, Z.land caps Capability.DISCOVERY <> 0 /\ cc_discovery (announcing c) = with_capabilities caps (cc_discovery c).
Proof.
  intros H. eexists. split; [|reflexivity]. destruct (cc_diagnostics_enabled c), (cc_topic_observer_enabled c || _); auto using lor_discovery.
Qed.
Lemma node_starts c a s interface group ticks session : node_idle s -> pp_proxies (np_topics s) = 0 -> config_ok c interface group -> answers_ok a ticks session ->
  exists s', StartNode c a s = Some (0, s').
Proof.
  intros Hs Hp [] []. destruct ak_listener0 as (L1 & L2 & L3), ak_plane0 as (P1 & P2 & P3), ak_random0 as (R1 & R2), ak_discovery0 as (D1 & D2), co_hosts0 as [V1 V2].
  pose proof Hs as (H1 & H2 & _). unfold StartNode. rewrite H1, H2, co_intervals0, co_sizes0, co_clients0, ak_identity0, V1, V2. cbn [orb negb].
  change (names_ok (cc_metadata (started_config c))) with (names_ok (cc_metadata c)). rewrite co_names0, co_interface0. cbn [negb]. unfold start_listener. rewrite L1, L2.
  rewrite run_calls_ok by (by repeat constructor). cbn [Z.eqb negb]. rewrite run_calls_ok by done. cbn [Z.eqb negb]. rewrite run_calls_ok by (by repeat constructor). cbn [Z.eqb negb].
  set (c' := cc_set_discovery (with_metadata_port _ _) _). set (s1 := run_all _ _). set (self := Build_RemoteRuntimeIdentity _ _ _ _).
  assert (Hplane : exists p, (if tf_enabled (cc_topics c') then StartPlane (cc_topics c') (cc_discovery c') (cc_metadata c') self (na_plane a) (np_topics s1) else (0, np_topics s1)) = (0, p)).
  { change (cc_topics c') with (cc_topics c). destruct (tf_enabled (cc_topics c)) eqn:Et; [|by eexists]. by eapply (start_plane_ok _ _ _ _ _ _ interface); [apply Hs| | |apply co_interface0|..]; auto. }
  destruct Hplane as [p ->]. cbn [Z.eqb negb]. unfold start_discovery.
  destruct (announced_discovery c') as (caps & Hcaps & Ed). { cbn. by destruct (tf_enabled (cc_topics c)). }
  destruct (discovery_start_ok (cc_discovery (announcing c')) (na_random a) (na_discovery a) (np_discovery s) interface group session) as [d Hd]; auto; [apply Hs| |].
  { rewrite Ed. by apply (co_discovery0 caps (na_port a)). }
  cbn [np_discovery np_set_config np_set_topics]. change (np_discovery s1) with (np_discovery s). rewrite D2, Hd. cbn [Z.eqb negb]. rewrite ak_threads0. by eexists.
Qed.
Section Composition.
Context (stod : list Z -> option (Rate * nat)).
(** The list of a permission in the running node. *)
Definition node_clients (k : ClientOption) (c : NodeConfig) : list HostIdentity :=
  match k with
  | DescriptorClient => nc_descriptor_query_clients c | ParameterGetClient => nc_parameter_get_clients c | ParameterSetClient => nc_parameter_set_clients c
  | ServiceCallClient => nc_service_call_clients c | ActionGoalClient => nc_action_goal_clients c | ActionCancelClient => nc_action_cancel_clients c
  end.
Definition hook_config (o : Options Rate) (host boot : HostIdentity) (nic : Selection) : ControlConfig :=
  cc_set_discovery (with_hosts host boot (cc_discovery (Config o nic))) (Config o nic).
(** Topic names without control characters, which [Parse] does not ask for. *)
Definition topics_printable (o : Options Rate) : bool := forallb (fun n => Text n 240) (op_remote_topics o ++ op_fresh_start_topics o ++ map fst (op_topic_rates o)).
Lemma valid_absolute name : valid_name name = true -> Text name 240 = true -> absolute_name name = true.
Proof. unfold valid_name, absolute_name. intros H ->. bool_to_prop. cbn. by apply Z.eqb_eq. Qed.
Lemma forallb_Forall_true {A} (f : A -> bool) l : forallb f l = true <-> Forall (fun x => f x = true) l.
Proof. by rewrite Forall_forall, forallb_forall; setoid_rewrite list_elem_of_In. Qed.
Record parsed (o : Options Rate) : Prop := {
  pd_wf : wf_options rate_in_range o;
  pd_sizes : Z.of_nat (length (op_topic_rates o)) <= 64 /\ Z.of_nat (length (op_remote_topics o)) <= 64 /\ Z.of_nat (length (op_fresh_start_topics o)) <= 64;
  pd_rates : Forall (fun r => valid_name (fst r) = true) (op_topic_rates o);
  pd_fresh : Forall (fun n => valid_name n = true) (op_fresh_start_topics o);
  pd_topics : Forall (fun n => valid_name n = true) (op_remote_topics o)
}.
Lemma parse_parsed args o : Parse stod rate_in_range args = inr o -> parsed o.
Proof.
  intros H. apply parse_spec in H as [Ha Hc]. unfold check_options in Hc. repeat (case_check; [done|]). bool_to_prop.
  constructor; [eapply wf_apply_options; [apply wf_default|done]|split_and!; lia|by apply forallb_Forall_true..].
Qed.
Lemma parsed_topics o : parsed o -> topics_printable o = true ->
  Forall (fun n => absolute_name n = true) (op_remote_topics o) /\ Forall (fun n => absolute_name n = true) (op_fresh_start_topics o) /\ Forall (fun r => absolute_name (fst r) = true) (op_topic_rates o).
Proof.
  intros [] Hp. unfold topics_printable in Hp. rewrite !forallb_app in Hp. apply andb_true_iff in Hp as [T1 Hp]. apply andb_true_iff in Hp as [T2 T3].
  apply forallb_Forall_true in T1, T2, T3. rewrite Forall_fmap in T3. rewrite !Forall_forall in *. split_and!; intros x Hx; apply valid_absolute; auto.
  - by apply T3.
Qed.
Lemma parsed_plane o host boot nic : rate_in_range default_rate = true -> parsed o -> topics_printable o = true -> tf_enabled (cc_topics (hook_config o host boot nic)) = true ->
  plane_config_ok (cc_topics (hook_config o host boot nic)) (cc_metadata (hook_config o host boot nic)) = true.
Proof.
  intros Hr Hp Ht He. destruct (parsed_topics o Hp Ht) as (T1 & T2 & T3). destruct Hp as [Hw (S1 & S2 & S3) _ _ _]. destruct Hw as [_ _ [N1 N2] [_ R2] (_ & _ & P3)].
  unfold plane_config_ok. rewrite He. cbn [hook_config Config cc_topics cc_set_discovery cc_metadata tf_receive_only tf_receive_port tf_port tf_max_hz tf_max_routes tf_max_proxies tf_local_types
    tf_rate_limits tf_fresh_start_topics mc_remote_topics tf_socket_buffer_bytes distinct_bindings]. rewrite Hr, (distinct_names_ok _ []), (distinct_names_ok _ []) by done.
  repeat (apply andb_true_iff; split); try done; try (apply Z.leb_le; lia).
  - apply negb_true_iff, Z.eqb_neq. unfold is_port in P3. lia.
  - apply forallb_Forall_true. rewrite Forall_forall in *. intros r Hr'. by rewrite (T3 r Hr'), (R2 r Hr').
Qed.
Lemma parsed_names o : parsed o -> topics_printable o = true -> forall host boot nic, names_ok (cc_metadata (hook_config o host boot nic)) = true.
Proof.
  intros Hp Ht host boot nic. destruct (parsed_topics o Hp Ht) as (T1 & _ & _). destruct Hp as [Hw _ _ _ _]. pose proof (wo_endpoints _ _ Hw) as Hend.
  assert (He : forall e, Forall (fun n => absolute_name n = true) (endpoints_of e o)) by (intros e; eapply Forall_impl; [apply (Hend e)|apply endpoint_absolute]).
  unfold names_ok. cbn [hook_config Config cc_set_discovery cc_metadata mc_remote_parameters mc_remote_topics mc_remote_actions mc_remote_services mc_groups forallb].
  rewrite !andb_true_iff, !forallb_Forall_true. split_and!; [apply (He RemoteParameter)|done|apply (He RemoteAction)|apply (He RemoteService)|done].
Qed.
Lemma client_lists_all (P : list HostIdentity -> bool) o host boot nic : forallb P (client_lists (hook_config o host boot nic)) = true <-> forall c, P (clients_of c o) = true.
Proof.
  cbn [client_lists hook_config Config cc_set_discovery forallb cc_descriptor_query_clients cc_parameter_get_clients cc_parameter_set_clients cc_service_call_clients cc_action_goal_clients cc_action_cancel_clients].
  rewrite !andb_true_iff. split; [intros (? & ? & ? & ? & ? & ? & _) []; done|]. intros H. split_and!; [apply (H DescriptorClient)|apply (H ParameterGetClient)|apply (H ParameterSetClient)|apply (H ServiceCallClient)|apply (H ActionGoalClient)|apply (H ActionCancelClient)|done].
Qed.
Lemma parsed_config o host boot nic rows : rate_in_range default_rate = true -> parsed o -> topics_printable o = true -> ValidHost host = true -> ValidHost boot = true -> ValidateClientHosts o host = true ->
  SelectNetworkInterface rows (op_nic o) = Ok nic -> exists interface group, config_ok (hook_config o host boot nic) interface group.
Proof.
  intros Hr Hp Ht Hh Hb Hv Hs. apply select_candidate in Hs as (row & _ & Hc & ->). apply andb_true_iff in Hc as [_ He]. unfold row_eligible in He.
  destruct (unicast_address (ni_address row)) as [lo|] eqn:Eu; [|done]. clear He. destruct (unicast_interface _ _ Eu) as (interface & Ei & Em & Eb).
  exists interface, (be_value [239; 255; 75; 67]). pose proof (pd_wf _ Hp) as Hw. constructor; try done.
  - apply not_true_iff_false. intros Hx. apply existsb_exists in Hx as (hosts & Hin & Hl). apply Z.ltb_lt in Hl.
    assert (Hall : forallb (fun hosts => Z.of_nat (length hosts) <=? 32) (client_lists (hook_config o host boot (selection_of (op_nic o) row))) = true)
      by (apply client_lists_all; intros c; destruct (wo_clients _ _ Hw c) as (_ & ? & _); apply Z.leb_le; lia).
    rewrite forallb_forall in Hall. specialize (Hall _ Hin). apply Z.leb_le in Hall. lia.
  - apply client_lists_all. intros c. apply forallb_Forall_true, Forall_forall. intros h Hin. destruct (wo_clients _ _ Hw c) as (_ & _ & Hf). rewrite Forall_forall in Hf. destruct (Hf h Hin) as (_ & _ & ->). cbn [andb].
    apply negb_true_iff, bool_decide_eq_false. cbn. intros ->. unfold ValidateClientHosts, all_clients in Hv. cbn [forallb] in Hv. rewrite !andb_true_iff, !negb_true_iff, !bool_decide_eq_false in Hv. destruct c; cbn in Hin; tauto.
  - by apply parsed_names.
  - by apply parsed_plane.
  - intros caps port Hcaps. destruct (wo_ports _ _ Hw) as (P1 & _). unfold is_port in P1. unfold valid_config. cbn -[Z.land Capability.DISCOVERY IN_MULTICAST INADDR_BROADCAST]. rewrite Em, Eb.
    assert (Hn : (op_discovery o =? 0) = false) by (apply Z.eqb_neq; lia). rewrite Hn. apply Z.eqb_neq in Hcaps. rewrite Hcaps. unfold ValidDiscoveryMetadata. by rewrite Hh, Hb.
Qed.
(** C23: A command line that the gateway accepts leads to a running node: if [Parse] accepts the arguments, no permission names
    the gateway's own host, topic names have no control characters and an interface of the host was selected, then the [start] hook of the
    lifecycle starts a node on it whenever the system calls succeed, all three configuration checks (of the node, of the Topic
    plane and of discovery) pass; and every permission of the running node is exactly the list of hosts of its option,
    every exposed name one of the command line, under the identity of this host.  The hypothesis on topic names is needed: [Parse] accepts control
    characters that [Start] refuses (see [gateway_refuses_control_characters]). *)
Theorem gateway_starts args o host boot rows nic a ticks session s :
  rate_in_range default_rate = true -> Parse stod rate_in_range args = inr o -> topics_printable o = true -> ValidHost host = true -> ValidHost boot = true -> ValidateClientHosts o host = true ->
  SelectNetworkInterface rows (op_nic o) = Ok nic -> answers_ok a ticks session -> node_idle s -> pp_proxies (np_topics s) = 0 ->
  exists s' c, start_hook o host boot (fun _ => 0) false a nic s = Some (0, Some s') /\ node_up (hook_config o host boot nic) s' /\ np_config s' = Some c /\
    (forall k, node_clients k (node_config c) = clients_of k o) /\
    mc_remote_parameters (cc_metadata c) = op_remote_parameters o /\ mc_remote_services (cc_metadata c) = op_remote_services o /\ mc_remote_actions (cc_metadata c) = op_remote_actions o /\
    mc_remote_topics (cc_metadata c) = op_remote_topics o /\ mc_topic_exposure (cc_metadata c) = topic_policy o /\
    mc_host (cc_metadata c) = host /\ mc_boot_id (cc_metadata c) = boot.
Proof.
  intros Hr Hp Ht Hh Hb Hv Hs Ha Hi Hx. destruct (parsed_config o host boot nic rows) as (interface & group & Hc); auto; [by eapply parse_parsed|].
  destruct (node_starts _ a s _ _ _ _ Hi Hx Hc Ha) as [s' Hn].
  destruct (start_node_spec _ _ _ _ _ Hi Hn) as [[_ Hu]|[? _]]; [|done]. exists s'. eexists. split; [unfold start_hook; fold (hook_config o host boot nic); unfold Preflight; cbn [Z.eqb negb]|].
  - destruct (tf_enabled _); cbn [Z.eqb negb]; by rewrite Hn.
  - split; [done|]. split; [apply Hu|]. split; [by intros []|done].
Qed.
End Composition.
End Starting.

(** ** A gateway on the loopback interface *)
Definition sample_command : list (list Z) :=
  map text ["--remote-parameter"; "/arm/gain"; "--parameter-get-client"; "0123456789abcdef0123456789ABCDEF"; "--interface"; "lo"; "--allow-loopback"; "--remote-topic"; "/arm/state"]%string.
Definition sample_row : NetworkInterfaceInfo :=
  {| ni_name := text "lo"; ni_address := text "127.0.0.1"; ni_index := 1; ni_up := true; ni_running := true; ni_multicast := false; ni_loopback := true; ni_point_to_point := false |}.
Definition sample_options : Options := match Parse (Rate := Z) (fun _ => None) (fun _ => true) sample_command with inr o => o | inl _ => default_options end.
Definition sample_selection : Selection := {| sl_name := text "lo"; sl_address := text "127.0.0.1"; sl_index := 1; sl_automatic := false |}.
Definition sample_answers : NodeAnswers :=
  {| na_pid := 100; na_identity := Some 5; na_listener := 0; na_listen := []; na_port := 39001; na_eventfd := 0; na_plane := {| ta_socket := []; ta_bind := []; ta_thread := true |};
     na_random := [(- EINTR, 0); (8, 77)]; na_discovery := []; na_discovery_thread := 0; na_threads := true |}.
Definition idle_discovery : Impl :=
  {| im_config := discovery_config [] 0 0 no_host_id no_host_id; im_stats := no_stats; im_peers := []; im_metadata := []; im_base_metadata := []; im_consumers := []; im_endpoint_count := 0;
     im_revision := 0; im_sequence := 0; im_session := 0; im_request_counter := 0; im_multicast := false; im_unicast := false; im_wake := false;
     im_group := {| sin_family := AF_INET; sin_addr := 0; sin_port := 0 |}; im_running := false; im_error := 0; im_dirty := false; im_next_announce := 0; im_worker := None; im_results := []; im_wire := [] |}.
Definition idle_node : NodeProcess (Rate := Z) :=
  {| np_io := false; np_backend := false; np_listener := false; np_wake := false;
     np_topics := {| pp_worker := false; pp_running := false; pp_fd := false; pp_wake := false; pp_proxies := 0; pp_self := no_runtime |};
     np_discovery := idle_discovery; np_running := false; np_error := 0; np_session := 0; np_config := None |}.
Lemma gateway_starts_witness :
  exists s' c, start_hook (fun _ => true) 50 sample_options (sample_host 1) (sample_host 2) (fun _ => 0) false sample_answers sample_selection idle_node = Some (0, Some s') /\ np_config s' = Some c /\
    node_clients ParameterGetClient (node_config c) = op_parameter_get_clients sample_options /\ op_parameter_get_clients sample_options <> [].
Proof.
  destruct (gateway_starts (fun _ => true) 50 (fun _ => None) sample_command sample_options (sample_host 1) (sample_host 2) [sample_row] sample_selection sample_answers 5 77 idle_node)
    as (s' & c & H1 & _ & H2 & H3 & _); try (vm_compute; reflexivity).
  - constructor; repeat split; try apply Forall_nil_2; discriminate.
  - by repeat split.
  - exists s', c. split; [exact H1|]. split; [exact H2|]. split; [exact (H3 ParameterGetClient)|]. vm_compute. discriminate.
Defined.
Lemma node_start_all_or_nothing_witness :
  let a := {| na_pid := 100; na_identity := Some 5; na_listener := 0; na_listen := [0; EADDRINUSE]; na_port := 39001; na_eventfd := 0; na_plane := {| ta_socket := []; ta_bind := []; ta_thread := true |};
              na_random := [(8, 77)]; na_discovery := []; na_discovery_thread := 0; na_threads := true |} in
  exists s', StartNode (fun _ => true) (hook_config 50 sample_options (sample_host 1) (sample_host 2) sample_selection) a idle_node = Some (- EADDRINUSE, s') /\ node_idle s'.
Proof.
  intros a. assert (H : exists s', StartNode (fun _ => true) (hook_config 50 sample_options (sample_host 1) (sample_host 2) sample_selection) a idle_node = Some (- EADDRINUSE, s')) by (vm_compute; by eexists).
  destruct H as [s' Hs]. exists s'. split; [exact Hs|]. destruct (node_start_all_or_nothing _ _ a idle_node (- EADDRINUSE) s' ltac:(by repeat split) Hs) as [[E _]|[_ H]]; [discriminate E|exact H].
Defined.
(** [Parse] and [Start] disagree about topic names: a control character is accepted by the command line (a name is only
    checked for blanks) and refused by the start of the node with -EINVAL, which the lifecycle takes as final. *)
Theorem gateway_refuses_control_characters :
  exists o, Parse (Rate := Z) (fun _ => None) (fun _ => true) (map text ["--interface"; "lo"; "--allow-loopback"; "--remote-topic"]%string ++ [[47; 1]]) = inr o /\
    StartNode (fun _ => true) (hook_config 50 o (sample_host 1) (sample_host 2) sample_selection) sample_answers idle_node
    = Some (- EINVAL, np_set_config (started_config (hook_config 50 o (sample_host 1) (sample_host 2) sample_selection)) idle_node) /\ Transient (- EINVAL) = false.
Proof. eexists. split; [vm_compute; reflexivity|]. split; vm_compute; reflexivity. Qed.
